(* ===== verification/_CoqProject ===== *)
-Q . S2P
Prelude.v
Unicode.v
CharSource.v
SegmentedString.v
SegmentedStringRefinement.v
SegmentedStringProps.v
HTMLToken.v
InputStreamPreprocessor.v
HTMLEntitySearch.v
HTMLEntityParser.v
HTMLEntityFacts.v
HTMLEntityProps.v
HTMLTokenizer.v
HTMLTokenizerRules.v
HTMLTokenizerSafety.v
HTMLPreloadScanner.v
HTMLTokenizerCaptive.v
HTMLTokenizerRefinement.v
HTMLPreloadScannerSafety.v
HTMLTokenizerProps.v
CSSPreloadScanner.v
TokenPreloadScanner.v
IntRect.v
Region.v
RegionRows.v
RegionOperations.v
RegionCompare.v
RegionProps.v
StringHasher.v
UTF8.v
UTF8Props.v
TextCodecUTF8.v
TextCodecUTF8Facts.v
TextCodecUTF8Partial.v
TextCodecUTF8Props.v
TextCodecLatin1.v
HTMLMetaCharsetParser.v
HTMLStackItem.v
HTMLElementStack.v
HTMLElementStackProps.v
HTMLElementStackProtocol.v
HTMLFormattingElementList.v
HTMLFormattingElementProps.v
HTMLConstructionSite.v
CompatibilityMode.v
HTMLTreeBuilderState.v
HTMLConstructionSiteProps.v
AdoptionAgency.v
AdoptionAgencyProps.v
HTMLTreeBuilder.v
HTMLTreeBuilderExamples.v
HTMLTreeBuilderKinds.v
HTMLTreeBuilderSite.v
HTMLTreeBuilderStack.v
HTMLTreeBuilderRules.v
HTMLTreeBuilderBody.v
HTMLTreeBuilderStates.v
HTMLTreeBuilderMoves.v
HTMLTreeBuilderStart.v
HTMLTreeBuilderEnd.v
HTMLTreeBuilderTables.v
HTMLTreeBuilderModes.v
HTMLTreeBuilderTags.v
HTMLTreeBuilderText.v
HTMLTreeBuilderDocument.v
HTMLTreeBuilderSafety.v
HTMLTreeBuilderTokenizer.v
AtomicHTMLToken.v
HTMLParserScheduler.v
HTMLInputStream.v
HTMLInputStreamProps.v
HTMLDocumentParserState.v
HTMLScriptRunner.v
HTMLDocumentParser.v
HTMLDocumentParserExamples.v
HTMLDocumentParserCoupling.v
HTMLDocumentParserSafety.v
HTMLDocumentParserTermination.v
Base64.v
Base64Props.v
