(* ===== verification/Prelude.v ===== *)
(** * Verified models of WebKit components

    The repository is a WebKit port with two JavaScript engines and a browser
    application.  This library models parts of WebCore (under
    src/Source/WebCore) and of WTF (under src/Source/WTF/wtf) that carry
    self-contained logic, and proves what makes them correct.

    ** The program's parts and the files that model them

    The front of the HTML parser turns bytes into characters, characters into
    tokens, and tokens into early requests:

    - [Unicode]: the ICU macros on code points, and the encoding forms UTF-8 and
      UTF-16 as the standard defines them, the specification of the codecs.
    - [TextCodecUTF8], with [TextCodecUTF8Facts], [TextCodecUTF8Partial] and
      [TextCodecUTF8Props]: the streaming decoder and the encoder of
      platform/text/TextCodecUTF8.cpp.
    - [TextCodecLatin1]: the codec of platform/text/TextCodecLatin1.cpp, and
      [HTMLMetaCharsetParser]: html/parser/HTMLMetaCharsetParser.cpp, the search for the
      encoding of a document, over that codec and the tokenizer.
    - [CharSource]: the interface between the tokenizer and its input, a class
      with the operations of a character source and their laws.
    - [SegmentedString], [SegmentedStringRefinement], [SegmentedStringProps]:
      platform/text/SegmentedString, the input as a queue of substrings with
      pushed-back characters; it refines a plain character stream.
    - [HTMLToken], [InputStreamPreprocessor]: html/parser/HTMLToken.h and
      InputStreamPreprocessor.h.
    - [HTMLEntitySearch], [HTMLEntityParser], [HTMLEntityFacts],
      [HTMLEntityProps]: character references (HTMLEntitySearch.cpp,
      HTMLEntityParser.cpp, CharacterReferenceParserInlines.h).
    - [HTMLTokenizer] and the files named after it: HTMLTokenizer.cpp, all 71
      states, in a state and error monad over an abstract character source;
      [HTMLTokenizerRules] has the rules of the monad, [HTMLTokenizerSafety] the
      invariant, [HTMLTokenizerRefinement] the independence of the source and
      [HTMLTokenizerProps] the theorems.
    - [HTMLPreloadScanner], [HTMLPreloadScannerSafety]: the loop of
      HTMLPreloadScanner::scan; [TokenPreloadScanner] and [CSSPreloadScanner] the
      scanners of tags and of style text.

    Foundations used all over the engine:

    - [StringHasher]: wtf/StringHasher.h.
    - [UTF8], [UTF8Props]: wtf/unicode/UTF8.cpp.
    - [Base64], [Base64Props]: wtf/text/Base64.cpp.
    - [IntRect], [Region] and the files named after it: platform/graphics/IntRect
      and Region.cpp, sets of pixels as rows of segments; [RegionRows] relates
      rows to sets of pixels, [RegionOperations] the scan-line operations,
      [RegionCompare] the comparisons and the bounds.

    The tree builder (html/parser):

    - [HTMLStackItem]: HTMLStackItem.h, an element with the token it was made of.
    - [HTMLElementStack], [HTMLElementStackProps], [HTMLElementStackProtocol]:
      HTMLElementStack.cpp, the stack of open elements; records have identities,
      since the code keeps pointers to them, and the calls to the elements are
      recorded in their order.  The protocol file has the steps clients may
      perform, as a relation, and that they keep the invariant.
    - [HTMLFormattingElementList], [HTMLFormattingElementProps]:
      HTMLFormattingElementList.cpp, the list of active formatting elements.
    - [HTMLConstructionSite], [HTMLConstructionSiteProps]: HTMLConstructionSite.cpp,
      which owns both and queues the changes of the document; what it asks of
      the document is the class [DOM].
    - [AdoptionAgency], [AdoptionAgencyProps]: callTheAdoptionAgency and
      processAnyOtherEndTagForInBody of HTMLTreeBuilder.cpp.
    - [CompatibilityMode]: setCompatibilityModeFromDoctype, which selects quirks mode.
    - [HTMLTreeBuilderState], [HTMLTreeBuilder]: HTMLTreeBuilder.h and
      HTMLTreeBuilder.cpp, all insertion modes, for documents and fragments; the
      state, the class [Environment] of what the builder asks of others and a state
      and error monad are in the first file.  The operations that call each other
      are variables of a section, and [process] ties the knot.
      [HTMLTreeBuilderExamples] runs it on documents.
    - The safety proof of the tree builder for documents: [HTMLTreeBuilderKinds] sorts
      the open elements into kinds and defines how kinds may be nested ([okStack]) and
      which insertion mode a nesting has ([ctx]); [HTMLTreeBuilderSite] and
      [HTMLTreeBuilderStack] have the invariant of the construction site and the effect
      of its operations on it; [HTMLTreeBuilderRules] a weakest precondition for the
      monad and the states [St] and [Flex]; [HTMLTreeBuilderStates] ties modes to
      nestings ([fits], [Ready]); [HTMLTreeBuilderMoves] the moves between states;
      [HTMLTreeBuilderBody], [HTMLTreeBuilderStart], [HTMLTreeBuilderEnd] and
      [HTMLTreeBuilderTables] the tags of the body and of tables;
      [HTMLTreeBuilderModes] and [HTMLTreeBuilderTags] all other modes;
      [HTMLTreeBuilderText] characters, [HTMLTreeBuilderDocument] the end of the file,
      foreign content and the modes before the html element;
      [HTMLTreeBuilderSafety] the reachable states and the theorems.

    The document parser drives all of this:

    - [HTMLTokenizerCaptive]: what a token that the tokenizer
      returns looks like, and that the tokenizer stays in the text of an element until
      its end tag; [AtomicHTMLToken]: AtomicHTMLToken.h, the token for the tree builder.
    - [HTMLTreeBuilderTokenizer]: which operations of the tree builder begin a text, set
      the state of the tokenizer or leave a script to be run.
    - [HTMLInputStream], [HTMLInputStreamProps]: HTMLInputStream.h, the input with its
      insertion points, as a stack of texts.
    - [HTMLParserScheduler]: HTMLParserScheduler.cpp, when the parser yields.
    - [HTMLDocumentParserState], [HTMLScriptRunner], [HTMLDocumentParser]:
      HTMLDocumentParser.cpp, HTMLScriptRunner.cpp and document.write.  The state has the
      members of both classes; the class [Page] is the rest of the browser, with scripts
      as lists of steps that come back to the parser; an operation has a result, a failed
      assertion, a token on which the tree builder fails, or no fuel left.  The
      operations are written over [call], which performs scripts and goes on with loops,
      and [run] ties the knot.  [HTMLDocumentParserExamples] runs pages.
      The tree builder is an interface ([TreeConstruction]) of the parser, which
      processes a token in one step: scripts that tree construction could run in the
      middle of a token (HTMLDocumentParser.cpp:341, HTMLConstructionSite.cpp:189) are not
      modelled.  What the document answers ([Answers]) may change between tokens.
    - [HTMLDocumentParserCoupling]: tokenizer and tree builder together, token by token;
      [HTMLDocumentParserSafety]: the invariant of the document
      parser through all its operations, with a tree builder that takes no unsupported
      token, and that the real parser does the same up to the first
      such token; [HTMLDocumentParserTermination]: what is left to do, and that it
      becomes less.

    ** How state and operations are modelled

    A class is a record of its members, an operation a function on it.  [None] is
    a failed assertion, an access outside a buffer, or a loop that still runs
    when its fuel is used up, so that a theorem that an operation gives [Some]
    says that it is safe and that it returns.  A few assertions are kept apart
    from the operations, which then do what a build without assertions does: those of
    [SegmentedString] (see [pushAsserts]) and of the entity search ([searchAsserts]), and
    the ones that a token records ([m_failedAssertions]).  Integers are values of [Z] with
    the wrap-around of their width written out ([uwrap], [swrap]).  What is not
    in the repository or is generated by the build is a parameter: the table of
    entity names, the resolution of URLs, the selection from srcset.

    Fuel is never a bound on the input: it is computed from the input, and the
    totality theorems show that it is enough.  Loops over a text have one more
    round than the text has characters; the tokenizer has four rounds per
    character plus four, because no chain of states that hand a character on
    without reading it is longer; the decoder's outer loop has three rounds, because the
    second one begins with the input used up.  Loops over the stack of open elements
    recurse on its records; the limits 8 and 3 of the adoption agency are the code's
    own.  A token of the tree builder has twenty rounds of operations that call each
    other ([rounds]), one more per open template, which the end of the file closes
    one after the other, and one more per open element, because a button closes the
    buttons that are open; [constructTree_total] shows that this is enough.  The fuel of
    the document parser bounds the nesting of scripts and the rounds of its loops, which
    scripts can make endless; [parsing_ends] says how much is enough when they do not.

    ** What the theorems show

    - Tokenizer: every document, in any chunks, is tokenized and the loop ends without a
      failed assertion, but for one: a numeric reference can decode to NUL, which the
      code asserts not to happen and the model records; the result does not depend on how the input
      buffer is segmented; the buffer refines a character stream.
    - Character references: binary search keeps the matching range, the longest
      name wins, numbers give the scalar value or U+FFFD.
    - Codecs and conversions: totality, agreement with the encoding forms,
      independence of chunks, round trips, exact stopping places of the
      conversions, equality of the hash of UTF-8 and UTF-16 text.
    - Latin-1 and the search for an encoding: the decoder against its table, with the one
      byte for which it differs, the encoder and when it fails; the charset of an
      attribute, and which [meta] tag of a document decides.
    - Base64: the decoder against a declarative specification of its policies,
      the encoder, and the round trip.
    - Preload scanners: totality, independence of how text is split, what a
      checkpoint restores.
    - Regions, made from rectangles that are not empty: union, intersection and difference
      are those of sets of pixels, comparisons decide subset, overlap and equality,
      rectangles partition.
    - Tree builder: the invariant of the stack, what each search, pop and edit
      does, at most three equal formatting elements behind a marker, reconstruction, and
      that the adoption agency neither fails an assertion nor breaks the invariant.
    - The whole tree builder: in every reachable state of a document every acceptable
      token is processed without a failed assertion, the end of the file closes
      everything, the insertion mode is the appropriate one whenever it belongs to an
      element ([elementMode]), open elements are nested as HTML allows in the modes that
      have a nesting ([normal]), the stack remembers root, head and body, and template
      insertion modes match the open templates.  The answers of the document (the class
      [Environment]) may be different for every token, within what is [documented].
      Not acceptable are the tokens that the tokenizer does not produce (start tags in
      raw text, empty character tokens, repeated attributes) and three inputs on which
      the code fails, which are listed among the defects: a frameset in a template, a
      column as first tag of a template in which an element was reconstructed, and an
      isindex element with an empty prompt.
    - Parser: in the text of an element only text, its end tag and the end of the file
      are returned; the first of several equal attributes is kept; the input stream is a
      stack of texts in which scripts insert before what follows them, and fails exactly
      where the stack forbids a call.
      The tree builder of a document never gets a token that it cannot process, however
      the document arrives and whatever scripts write, three kinds of start tags aside
      ([unsupported]; mutation observers are assumed to stop or replace the document only,
      or to write when no script has opened it); on a page whose
      scripts leave the parser alone its loops end within a number of rounds that is
      linear in the size of the document.  Both say nothing about failed assertions of
      the parser itself, of which [HTMLDocumentParserExamples] has four.
    - Defects: theorems and examples that exhibit on the model what the code
      does against its comments or its evident intention.

    ** Not modelled

    How the document carries out the changes the tree builder records, the detection
    of telephone numbers in text, the XSS auditor and the source tracker that the document
    parser calls for every token, which encodings ICU knows and what scripts are (both
    parameters), the DOM, style, layout and rendering, the loader, both JavaScript engines,
    the process model of WebKit2 and the browser application: object graphs, platform
    calls, generated or third-party code.  Registration of codec names and conversions that only
    change a string class are left out of the modelled files.

    ** This file

    Notation, tactics and lemmas shared by all files. *)
From stdpp Require Import base list numbers option.
From Stdlib Require Import Ascii String ZArith Lia.

#[local] Open Scope Z_scope.

(** ** Characters and strings

    A [UChar] is a 16-bit code unit and an [LChar] an 8-bit one; both are
    kept as [Z].  In the scope [uchar_scope] a one-character string literal
    is the code of that character, so that [cc =? "<"%uc] reads like the
    C++ [cc == '<']. *)

Declare Scope uchar_scope.
Delimit Scope uchar_scope with uc.

Definition uchar_of_bytes (l : list Byte.byte) : option Z :=
  match l with
  | [b] => Some (Z.of_N (Byte.to_N b))
  | _ => None
  end.

Definition bytes_of_uchar (_ : Z) : option (list Byte.byte) := None.

String Notation Z uchar_of_bytes bytes_of_uchar : uchar_scope.

(** The double quote cannot be written as a literal of its own. *)
Definition dquote : Z := 34.

Export String.StringSyntax.

(** The code units of an ASCII literal ([ASCIILiteral("...")]). *)
Fixpoint ascii_literal (s : string) : list Z :=
  match s with
  | EmptyString => []
  | String a s' => Z.of_N (N_of_ascii a) :: ascii_literal s'
  end.

Abbreviation lit s := (ascii_literal s%string) (only parsing).

(** ** Tactics *)

(** Case analysis on the outermost scrutinee of a conditional of the goal. *)
Ltac split_if :=
  match goal with
  | |- context [if ?b then _ else _] => destruct b eqn:?
  end.

Ltac split_if_in H :=
  match type of H with
  | context [if ?b then _ else _] => destruct b eqn:?
  end.

(** Boolean hypotheses and comparisons as propositions. *)
Ltac bool_to_prop :=
  repeat match goal with
  | H : (_ && _)%bool = true |- _ => apply andb_true_iff in H; destruct H
  | H : (_ || _)%bool = false |- _ => apply orb_false_iff in H; destruct H
  | H : negb _ = true |- _ => apply negb_true_iff in H
  | H : negb _ = false |- _ => apply negb_false_iff in H
  | H : (_ =? _) = true |- _ => apply Z.eqb_eq in H
  | H : (_ =? _) = false |- _ => apply Z.eqb_neq in H
  | H : (_ <? _) = true |- _ => apply Z.ltb_lt in H
  | H : (_ <? _) = false |- _ => apply Z.ltb_ge in H
  | H : (_ <=? _) = true |- _ => apply Z.leb_le in H
  | H : (_ <=? _) = false |- _ => apply Z.leb_gt in H
  end.

(** ** Machine integers *)

(** Reduction to [w] bits, unsigned and two's complement. *)
Definition uwrap (w z : Z) : Z := z mod 2 ^ w.

Definition swrap (w z : Z) : Z :=
  let u := z mod 2 ^ w in
  if u <? 2 ^ (w - 1) then u else u - 2 ^ w.

Lemma uwrap_range w z : 0 <= w -> 0 <= uwrap w z < 2 ^ w.
Proof. intros Hw. unfold uwrap. apply Z.mod_pos_bound. lia. Qed.

Lemma uwrap_id w z : 0 <= z < 2 ^ w -> uwrap w z = z.
Proof. apply Z.mod_small. Qed.

Lemma swrap_id w z : 0 < w -> - 2 ^ (w - 1) <= z < 2 ^ (w - 1) -> swrap w z = z.
Proof.
  intros Hw Hz. unfold swrap.
  assert (H2 : 2 ^ w = 2 * 2 ^ (w - 1)).
  { rewrite <- Z.pow_succ_r by lia. f_equal. lia. }
  destruct (decide (0 <= z)).
  - rewrite Z.mod_small by lia. destruct (Z.ltb_spec z (2 ^ (w - 1))); lia.
  - replace (z mod 2 ^ w) with (z + 2 ^ w).
    + destruct (Z.ltb_spec (z + 2 ^ w) (2 ^ (w - 1))); lia.
    + apply Z.mod_unique_pos with (-1); lia.
Qed.

(** Reduction commutes with the ring operations, so that it can be done once at
    the end of a computation. *)
Lemma swrap_mod w z : 0 < w -> swrap w z mod 2 ^ w = z mod 2 ^ w.
Proof.
  intros Hw. unfold swrap. split_if; [by rewrite Z.mod_mod by lia|].
  rewrite <- (Z.mod_add _ 1) by lia. rewrite Z.mul_1_l, Z.sub_add. by rewrite Z.mod_mod by lia.
Qed.

Lemma swrap_cong w a b : a mod 2 ^ w = b mod 2 ^ w -> swrap w a = swrap w b.
Proof. unfold swrap. by intros ->. Qed.

Lemma swrap_linear w a k c : 0 < w -> swrap w (swrap w a * k + c) = swrap w (a * k + c).
Proof.
  intros Hw. apply swrap_cong.
  rewrite Z.add_mod, Z.mul_mod, swrap_mod by lia.
  by rewrite <- Z.mul_mod, <- Z.add_mod by lia.
Qed.

(** ** The error monad

    [None] is an [ASSERT] of the source that fails, or a null pointer that
    is dereferenced.  [guard! b in k] is [ASSERT(b); k]. *)

Notation "'guard!' b 'in' k" := (if b then k else None)
  (at level 10, b at level 100, k at level 200).

(** ** Lists *)

(** The first character of a buffer, or the NUL that the code reads when
    nothing is left. *)
Definition headz (l : list Z) : Z :=
  match l with [] => 0 | c :: _ => c end.

Definition lists_eqb (a b : list Z) : bool := bool_decide (a = b).

Lemma lists_eqb_eq a b : lists_eqb a b = true <-> a = b.
Proof. apply bool_decide_eq_true. Qed.

Lemma headz_app l l' : l <> [] -> headz (l ++ l') = headz l.
Proof. by destruct l. Qed.

Lemma tail_app {A} (l l' : list A) : l <> [] -> tail (l ++ l') = tail l ++ l'.
Proof. by destruct l. Qed.

Lemma drop_drop_one {A} n (l : list A) : tail (drop n l) = drop (S n) l.
Proof. revert l; induction n as [|n IH]; intros [|x l]; simpl; auto; by destruct l. Qed.

Lemma headz_drop n (l : list Z) x : l !! n = Some x -> headz (drop n l) = x.
Proof. intros H. by rewrite (drop_S _ _ _ H). Qed.

(** A bounded search over indices either finds a witness or excludes all. *)
Lemma bounded_find (f : nat -> bool) (i j : nat) :
  (exists k, (i <= k <= j)%nat /\ f k = true) \/ (forall k, (i <= k <= j)%nat -> f k = false).
Proof.
  induction j as [|j IH].
  - destruct (f 0%nat) eqn:E; destruct (decide (i = 0%nat)) as [->|Hi].
    + left. exists 0%nat. split; [lia|done].
    + right. intros k Hk. lia.
    + right. intros k Hk. by replace k with 0%nat by lia.
    + right. intros k Hk. lia.
  - destruct IH as [(k & Hk & E)|IH]; [left; exists k; split; [lia|done]|].
    destruct (decide (i <= S j)%nat); [|right; intros; lia].
    destruct (f (S j)) eqn:E; [left; exists (S j); split; [lia|done]|].
    right. intros k Hk. destruct (decide (k = S j)) as [->|]; [done|]. apply IH. lia.
Qed.

(** A property of all the values of a range, checked by computation. *)
Lemma forall_range (P : Z -> bool) lo n :
  forallb P (seqZ lo n) = true -> forall z, lo <= z < lo + n -> P z = true.
Proof.
  intros H z Hz. rewrite forallb_forall in H. apply H, list_elem_of_In, elem_of_seqZ. lia.
Qed.

(** The first element of a list that satisfies a predicate. *)
Lemma find_split {A} (f : A -> bool) l x : List.find f l = Some x ->
  exists above below, l = above ++ x :: below /\ f x = true /\ Forall (fun y => f y = false) above.
Proof.
  induction l as [|y l IH]; [done|]. cbn. destruct (f y) eqn:E.
  - intros [= ->]. by exists [], l.
  - intros H. destruct (IH H) as (a & b & -> & Hx & Ha). exists (y :: a), b. split_and!; [done|done|by constructor].
Qed.

Lemma find_first {A} (f : A -> bool) above x below :
  Forall (fun y => f y = false) above -> f x = true -> List.find f (above ++ x :: below) = Some x.
Proof. induction 1 as [|y above Hy _ IH]; intros Hx; cbn; [by rewrite Hx|]. rewrite Hy. auto. Qed.

Lemma find_none_forall {A} (f : A -> bool) l : List.find f l = None <-> Forall (fun y => f y = false) l.
Proof.
  induction l as [|y l IH]; cbn; [split; [constructor|done]|]. rewrite Forall_cons_iff. destruct (f y); [|by rewrite IH; intuition].
  split; [done|intros [? _]; done].
Qed.
