(* ===== verification/Unicode.v ===== *)
(** * Unicode encoding forms

    The macros of [icu/unicode/utf.h], [utf16.h] and [utf8.h] that the text
    code uses, and the encoding forms UTF-8 and UTF-16 as the Unicode standard
    defines them, against which the codecs are specified. *)
From S2P Require Import Prelude.
From stdpp Require Import base list numbers option.
From Stdlib Require Import ZArith Lia.
#[local] Open Scope Z_scope.

(** ** The macros *)

(** [U_IS_BMP] and the like, on a 32-bit signed value. *)
Definition U_IS_BMP (c : Z) : bool := uwrap 32 c <=? 0xFFFF.

Definition U_IS_SUPPLEMENTARY (c : Z) : bool := uwrap 32 (c - 0x10000) <=? 0xFFFFF.

Definition U_IS_SURROGATE (c : Z) : bool := Z.land c 0xFFFFF800 =? 0xD800.

Definition U16_LEAD (c : Z) : Z := uwrap 16 (Z.shiftr c 10 + 0xD7C0).

Definition U16_TRAIL (c : Z) : Z := uwrap 16 (Z.lor (Z.land c 0x3FF) 0xDC00).

Definition U16_IS_LEAD (c : Z) : bool := Z.land c 0xFFFFFC00 =? 0xD800.

Definition U16_IS_TRAIL (c : Z) : bool := Z.land c 0xFFFFFC00 =? 0xDC00.

Definition U16_SURROGATE_OFFSET : Z := Z.shiftl 0xD800 10 + 0xDC00 - 0x10000.

Definition U16_GET_SUPPLEMENTARY (lead trail : Z) : Z :=
  Z.shiftl lead 10 + trail - U16_SURROGATE_OFFSET.

(** [U16_NEXT] on the code units from the index on: the code point and the code
    units behind it. *)
Definition U16_NEXT (c : Z) (s : list Z) : Z * list Z :=
  if U16_IS_LEAD c then
    match s with
    | c2 :: s' => if U16_IS_TRAIL c2 then (U16_GET_SUPPLEMENTARY c c2, s') else (c, s)
    | [] => (c, s)
    end
  else (c, s).

(** The bytes that [U8_APPEND_UNSAFE] appends. *)
Definition U8_APPEND_UNSAFE (c : Z) : list Z :=
  if uwrap 32 c <=? 0x7F then [uwrap 8 c]
  else if uwrap 32 c <=? 0x7FF then
    [uwrap 8 (Z.lor (Z.shiftr c 6) 0xC0); uwrap 8 (Z.lor (Z.land c 0x3F) 0x80)]
  else if uwrap 32 c <=? 0xFFFF then
    [uwrap 8 (Z.lor (Z.shiftr c 12) 0xE0);
     uwrap 8 (Z.lor (Z.land (Z.shiftr c 6) 0x3F) 0x80); uwrap 8 (Z.lor (Z.land c 0x3F) 0x80)]
  else
    [uwrap 8 (Z.lor (Z.shiftr c 18) 0xF0); uwrap 8 (Z.lor (Z.land (Z.shiftr c 12) 0x3F) 0x80);
     uwrap 8 (Z.lor (Z.land (Z.shiftr c 6) 0x3F) 0x80); uwrap 8 (Z.lor (Z.land c 0x3F) 0x80)].

(** ** The encoding forms *)

Definition isScalarValue (v : Z) : bool :=
  (0 <=? v) && (v <=? 0x10FFFF) && negb ((0xD800 <=? v) && (v <=? 0xDFFF)).

Definition utf16 (v : Z) : list Z :=
  if v <? 0x10000 then [v]
  else [0xD800 + (v - 0x10000) / 0x400; 0xDC00 + (v - 0x10000) mod 0x400].

Definition utf8 (v : Z) : list Z :=
  if v <? 0x80 then [v]
  else if v <? 0x800 then [0xC0 + v / 64; 0x80 + v mod 64]
  else if v <? 0x10000 then [0xE0 + v / 4096; 0x80 + v / 64 mod 64; 0x80 + v mod 64]
  else [0xF0 + v / 262144; 0x80 + v / 4096 mod 64; 0x80 + v / 64 mod 64; 0x80 + v mod 64].

(** Bytes and code units. *)
Definition isByte (b : Z) : Prop := 0 <= b < 256.

Definition isUnit (u : Z) : Prop := 0 <= u < 0x10000.

Definition utf16s (l : list Z) : list Z := flat_map utf16 l.

Definition utf8s (l : list Z) : list Z := flat_map utf8 l.

(** Decoding with replacement: a scalar value where its encoding is found,
    U+FFFD for a byte at which no encoding begins.  The flag says whether there
    was such a byte. *)
Inductive decodes : list Z -> list Z -> bool -> Prop :=
| decodes_nil : decodes [] [] false
| decodes_char c l out err :
    isScalarValue c = true -> decodes l out err -> decodes (utf8 c ++ l) (utf16 c ++ out) err
| decodes_error b l out err :
    (forall c, isScalarValue c = true -> ~ utf8 c `prefix_of` (b :: l)) ->
    decodes l out err -> decodes (b :: l) (0xFFFD :: out) true.

(** ** Arithmetic of code points *)

Ltac divisions := Z.to_euclidean_division_equations.

Lemma isScalarValue_spec c :
  isScalarValue c = true <-> 0 <= c <= 0x10FFFF /\ ~ (0xD800 <= c <= 0xDFFF).
Proof.
  unfold isScalarValue. destruct (Z.leb_spec 0 c), (Z.leb_spec c 0x10FFFF),
    (Z.leb_spec 0xD800 c), (Z.leb_spec c 0xDFFF); simpl; split; try done; lia.
Qed.

Lemma land_low x n m : m = Z.ones n -> 0 <= n -> Z.land x m = x mod 2 ^ n.
Proof. intros -> Hn. by apply Z.land_ones. Qed.

(** Setting bits that are known to be clear. *)
Lemma lor_mark k m n : 0 <= m -> Z.land (2 ^ n - 1) m = 0 -> 0 <= n -> 0 <= k < 2 ^ n ->
  Z.lor k m = m + k.
Proof.
  intros Hm H Hn Hk.
  assert (Hkm : Z.land k m = 0).
  { rewrite <- (Z.mod_small k (2 ^ n)) by lia. rewrite <- Z.land_ones, <- Z.land_assoc by lia.
    rewrite Z.ones_equiv, <- Z.sub_1_r. rewrite H. apply Z.land_0_r. }
  rewrite <- Z.lxor_lor, <- Z.add_nocarry_lxor by done. lia.
Qed.

Lemma lead_trail v : 0x10000 <= v <= 0x10FFFF -> [U16_LEAD v; U16_TRAIL v] = utf16 v.
Proof.
  intros Hv. unfold U16_LEAD, U16_TRAIL, utf16. destruct (Z.ltb_spec v 0x10000); [lia|].
  rewrite Z.shiftr_div_pow2, (land_low _ 10), (lor_mark _ 0xDC00 10) by
    (done || lia || (apply Z.mod_pos_bound; lia)).
  change (2 ^ 10) with 1024.
  assert (E : v / 1024 = (v - 0x10000) / 1024 + 64 /\ v mod 1024 = (v - 0x10000) mod 1024)
    by (divisions; lia).
  destruct E as [-> ->]. rewrite !uwrap_id by (divisions; lia). f_equal. lia.
Qed.

Lemma U8_APPEND_UNSAFE_utf8 v : 0 <= v <= 0x10FFFF -> U8_APPEND_UNSAFE v = utf8 v.
Proof.
  intros Hv. unfold U8_APPEND_UNSAFE, utf8. rewrite (uwrap_id 32) by lia.
  rewrite !Z.shiftr_div_pow2, !(land_low _ 6 0x3F) by (done || lia).
  change (2 ^ 6) with 64. change (2 ^ 12) with 4096. change (2 ^ 18) with 262144.
  rewrite !(lor_mark _ 0x80 6) by (done || lia || (apply Z.mod_pos_bound; lia)).
  destruct (Z.leb_spec v 0x7F), (Z.ltb_spec v 0x80); try lia; [by rewrite uwrap_id by lia|].
  destruct (Z.leb_spec v 0x7FF), (Z.ltb_spec v 0x800); try lia.
  { rewrite (lor_mark _ 0xC0 5) by (done || lia || (divisions; lia)). rewrite !uwrap_id by (divisions; lia). done. }
  destruct (Z.leb_spec v 0xFFFF), (Z.ltb_spec v 0x10000); try lia.
  { rewrite (lor_mark _ 0xE0 4) by (done || lia || (divisions; lia)). rewrite !uwrap_id by (divisions; lia). done. }
  rewrite (lor_mark _ 0xF0 3) by (done || lia || (divisions; lia)). rewrite !uwrap_id by (divisions; lia). done.
Qed.

Lemma U_IS_BMP_spec c : 0 <= c < 2 ^ 31 -> U_IS_BMP c = (c <? 0x10000).
Proof.
  intros Hc. unfold U_IS_BMP. rewrite uwrap_id by lia.
  by destruct (Z.leb_spec c 0xFFFF), (Z.ltb_spec c 0x10000); try lia.
Qed.

Lemma U_IS_SUPPLEMENTARY_spec c :
  0 <= c < 2 ^ 31 -> U_IS_SUPPLEMENTARY c = (0x10000 <=? c) && (c <=? 0x10FFFF).
Proof.
  intros Hc. unfold U_IS_SUPPLEMENTARY. destruct (Z.leb_spec 0x10000 c).
  - rewrite uwrap_id by lia. by destruct (Z.leb_spec (c - 0x10000) 0xFFFFF), (Z.leb_spec c 0x10FFFF); try lia.
  - unfold uwrap. replace ((c - 0x10000) mod 2 ^ 32) with (c - 0x10000 + 2 ^ 32)
      by (apply Z.mod_unique_pos with (-1); lia).
    destruct (Z.leb_spec (c - 65536 + 2 ^ 32) 0xFFFFF); lia || done.
Qed.

(** The high bits of a 32-bit value select a block of [2^n] values. *)
Lemma block_spec c n m k : 0 <= c < 2 ^ 32 -> 0 < n < 32 -> m = 2 ^ 32 - 2 ^ n -> 0 <= k < 2 ^ (32 - n) ->
  (Z.land c m =? k * 2 ^ n) = (k * 2 ^ n <=? c) && (c <? (k + 1) * 2 ^ n).
Proof.
  intros Hc Hn -> Hk.
  assert (E : Z.land c (2 ^ 32 - 2 ^ n) = c / 2 ^ n * 2 ^ n).
  { replace (2 ^ 32 - 2 ^ n) with (Z.shiftl (Z.ones (32 - n)) n).
    - rewrite <- Z.shiftr_div_pow2, <- Z.shiftl_mul_pow2 by lia.
      apply Z.bits_inj'. intros i Hi. rewrite Z.land_spec, !Z.shiftl_spec by lia.
      destruct (Z.ltb_spec i n) as [H|H].
      + by rewrite !(Z.testbit_neg_r _ (i - n)), andb_false_r by lia.
      + rewrite Z.shiftr_spec by lia. replace (i - n + n) with i by lia.
        destruct (Z.ltb_spec i 32).
        * rewrite Z.ones_spec_low by lia. apply andb_true_r.
        * assert (Z.log2 c < 32).
          { destruct (decide (c = 0)) as [->|]; [done|]. apply Z.log2_lt_pow2; lia. }
          by rewrite (Z.bits_above_log2 c) by lia.
    - rewrite Z.shiftl_mul_pow2, Z.ones_equiv by lia. rewrite <- Z.sub_1_r, Z.mul_sub_distr_r, <- Z.pow_add_r by lia.
      f_equal; [f_equal; lia|lia]. }
  rewrite E. pose proof (Z.pow_pos_nonneg 2 n ltac:(lia) ltac:(lia)) as Hp.
  pose proof (Z.div_mod c (2 ^ n) ltac:(lia)) as D. pose proof (Z.mod_pos_bound c (2 ^ n) Hp) as B.
  set (q := c / 2 ^ n) in *. set (P := 2 ^ n) in *.
  destruct (Z.eqb_spec (q * P) (k * P)) as [Q|Q].
  - assert (q = k) by nia. subst q. destruct (Z.leb_spec (k * P) c), (Z.ltb_spec c ((k + 1) * P)); lia || done.
  - assert (q <> k) by congruence. destruct (Z.leb_spec (k * P) c), (Z.ltb_spec c ((k + 1) * P)); try done. nia.
Qed.

Lemma U_IS_SURROGATE_spec c :
  0 <= c < 2 ^ 32 -> U_IS_SURROGATE c = (0xD800 <=? c) && (c <=? 0xDFFF).
Proof.
  intros Hc. unfold U_IS_SURROGATE. change 0xD800 with (27 * 2 ^ 11). rewrite block_spec by (done || lia).
  f_equal. destruct (Z.ltb_spec c ((27 + 1) * 2 ^ 11)), (Z.leb_spec c 0xDFFF); lia || done.
Qed.

Lemma U16_IS_LEAD_spec c : 0 <= c < 2 ^ 32 -> U16_IS_LEAD c = (0xD800 <=? c) && (c <=? 0xDBFF).
Proof.
  intros Hc. unfold U16_IS_LEAD. change 0xD800 with (54 * 2 ^ 10). rewrite block_spec by (done || lia).
  f_equal. destruct (Z.ltb_spec c ((54 + 1) * 2 ^ 10)), (Z.leb_spec c 0xDBFF); lia || done.
Qed.

Lemma U16_IS_TRAIL_spec c : 0 <= c < 2 ^ 32 -> U16_IS_TRAIL c = (0xDC00 <=? c) && (c <=? 0xDFFF).
Proof.
  intros Hc. unfold U16_IS_TRAIL. change 0xDC00 with (55 * 2 ^ 10). rewrite block_spec by (done || lia).
  f_equal. destruct (Z.ltb_spec c ((55 + 1) * 2 ^ 10)), (Z.leb_spec c 0xDFFF); lia || done.
Qed.

(** [U16_NEXT] reads back a scalar value. *)
Lemma U16_NEXT_utf16 c l : isScalarValue c = true ->
  match utf16 c ++ l with u :: s => U16_NEXT u s = (c, l) | [] => False end.
Proof.
  rewrite isScalarValue_spec. intros [Hc Hs]. unfold utf16. destruct (Z.ltb_spec c 0x10000); cbn [app].
  - unfold U16_NEXT. rewrite U16_IS_LEAD_spec by lia.
    destruct (Z.leb_spec 0xD800 c), (Z.leb_spec c 0xDBFF); try done. lia.
  - unfold U16_NEXT. rewrite U16_IS_LEAD_spec, U16_IS_TRAIL_spec by (divisions; lia).
    destruct (Z.leb_spec 0xD800 (0xD800 + (c - 0x10000) / 1024)); [|divisions; lia].
    destruct (Z.leb_spec (0xD800 + (c - 0x10000) / 1024) 0xDBFF); [|divisions; lia].
    destruct (Z.leb_spec 0xDC00 (0xDC00 + (c - 0x10000) mod 1024)); [|divisions; lia].
    destruct (Z.leb_spec (0xDC00 + (c - 0x10000) mod 1024) 0xDFFF); [|divisions; lia].
    cbn [andb]. f_equal. unfold U16_GET_SUPPLEMENTARY, U16_SURROGATE_OFFSET.
    rewrite !Z.shiftl_mul_pow2 by lia. change (2 ^ 10) with 1024. divisions; lia.
Qed.

(** ** Determinism of decoding *)

(** The encodings that an input can begin with. *)
Lemma utf8_prefix v l : isScalarValue v = true -> utf8 v `prefix_of` l ->
  (v < 0x80 /\ exists r, l = v :: r) \/
  (0x80 <= v < 0x800 /\ exists r, l = 0xC0 + v / 64 :: 0x80 + v mod 64 :: r) \/
  (0x800 <= v < 0x10000 /\ exists r,
     l = 0xE0 + v / 4096 :: 0x80 + v / 64 mod 64 :: 0x80 + v mod 64 :: r) \/
  (0x10000 <= v /\ exists r,
     l = 0xF0 + v / 262144 :: 0x80 + v / 4096 mod 64 :: 0x80 + v / 64 mod 64 :: 0x80 + v mod 64 :: r).
Proof.
  rewrite isScalarValue_spec. intros Hv [r ->]. unfold utf8.
  destruct (Z.ltb_spec v 0x80); [left; eauto|]. right.
  destruct (Z.ltb_spec v 0x800); [left; eauto|]. right.
  destruct (Z.ltb_spec v 0x10000); [left; eauto|]. right. eauto.
Qed.

Lemma utf8_nonempty v : utf8 v <> [].
Proof. unfold utf8. by repeat split_if. Qed.

Lemma utf8_inj c c' l l' : isScalarValue c = true -> isScalarValue c' = true ->
  utf8 c ++ l = utf8 c' ++ l' -> c = c' /\ l = l'.
Proof.
  intros Hc Hc' E. assert (c = c'); [|by subst; simplify_eq].
  pose proof (proj1 (isScalarValue_spec c) Hc) as R. pose proof (proj1 (isScalarValue_spec c') Hc') as R'.
  pose proof (utf8_prefix c (utf8 c ++ l) Hc ltac:(by exists l)) as P.
  pose proof (utf8_prefix c' (utf8 c ++ l) Hc' ltac:(by exists l')) as P'.
  destruct P as [[? [? E1]]|[[? [? E1]]|[[? [? E1]]|[? [? E1]]]]];
    destruct P' as [[? [? E2]]|[[? [? E2]]|[[? [? E2]]|[? [? E2]]]]];
    rewrite E1 in E2; injection E2; intros; clear E E1 E2; divisions; lia.
Qed.

Lemma decodes_det l out err : decodes l out err ->
  forall out' err', decodes l out' err' -> out' = out /\ err' = err.
Proof.
  induction 1 as [|c l out err Hc Hl IH|b l out err Hb Hl IH]; intros out' err' H'.
  - inversion H' as [|c ? ? ? ? ? E|]; [done|]. by destruct (utf8_nonempty c); apply app_eq_nil in E as [-> _].
  - inversion H' as [E|c' l' o e Hc' Hl' E|b l' o e Hb Hl' E].
    + destruct (utf8_nonempty c). by apply eq_sym, app_eq_nil in E as [-> _].
    + apply utf8_inj in E as [-> ->]; [|done|done]. by destruct (IH _ _ Hl') as [-> ->].
    + destruct (Hb c Hc). by exists l.
  - inversion H' as [|c' l' o e Hc' Hl' E|? ? o e Hb' Hl']; subst.
    + destruct (Hb c' Hc'). by exists l'.
    + by destruct (IH _ _ Hl') as [-> ->].
Qed.

Lemma decodes_utf8s l : Forall (fun c => isScalarValue c = true) l -> decodes (utf8s l) (utf16s l) false.
Proof. induction 1 as [|c l Hc Hl IH]; [constructor|]. by apply decodes_char. Qed.

Lemma utf8_bytes c : isScalarValue c = true -> Forall isByte (utf8 c).
Proof.
  rewrite isScalarValue_spec. intros [Hc _]. unfold utf8, isByte.
  destruct (Z.ltb_spec c 0x80), (Z.ltb_spec c 0x800), (Z.ltb_spec c 0x10000); try lia;
    repeat (constructor; [divisions; lia|]); constructor.
Qed.

Lemma utf8s_bytes l : Forall (fun c => isScalarValue c = true) l -> Forall isByte (utf8s l).
Proof. induction 1 as [|c l Hc Hl IH]; [constructor|]. apply Forall_app. split; [by apply utf8_bytes|done]. Qed.

Lemma utf16_short c : (1 <= length (utf16 c) <= length (utf8 c))%nat.
Proof.
  unfold utf16, utf8. destruct (Z.ltb_spec c 0x80), (Z.ltb_spec c 0x800), (Z.ltb_spec c 0x10000);
    simpl; lia.
Qed.

Lemma utf8s_cons c l : utf8s (c :: l) = utf8 c ++ utf8s l.
Proof. done. Qed.

Lemma utf16s_cons c l : utf16s (c :: l) = utf16 c ++ utf16s l.
Proof. done. Qed.

Lemma utf16s_units l : Forall (fun c => isScalarValue c = true) l -> Forall isUnit (utf16s l).
Proof.
  induction 1 as [|c l Hc Hl IH]; [constructor|]. rewrite utf16s_cons. apply Forall_app. split; [|done].
  apply isScalarValue_spec in Hc. unfold utf16, isUnit. destruct (Z.ltb_spec c 0x10000);
    repeat (constructor; [divisions; lia|]); constructor.
Qed.
