(* ===== verification/CharSource.v ===== *)
(** * The character source the tokenizer reads from

    [CharSource] is the interface that the HTML tokenizer, the input
    preprocessor and the character reference parser use of
    [WebCore/platform/text/SegmentedString.h]: every operation they call, and
    nothing of its representation.  [Stream] is the abstract specification of
    such a source, a queue of pushed-back characters in front of the remaining
    input, and [SourceRefines] states what an implementation promises: each of
    its operations is simulated by the operation of [Stream].  The clients are
    written against [CharSource]; [SegmentedString] discharges [SourceRefines]
    in the file [SegmentedString]. *)
From S2P Require Import Prelude.
From stdpp Require Import base list numbers option.
From Stdlib Require Import ZArith Lia.
#[local] Open Scope Z_scope.

(** [u_foldCase] of ICU (and its Latin-1 table [latin1CaseFoldTable]): code
    outside the repository, a parameter of everything that compares strings
    ignoring case. *)
Class FoldCase := foldCase : Z -> Z.

(** [SegmentedString::LookAheadResult]. *)
Inductive LookAheadResult : Type :=
| DidNotMatch
| DidMatch
| NotEnoughCharacters.

#[export] Instance LookAheadResult_eq_dec : EqDecision LookAheadResult.
Proof. solve_decision. Defined.

(** [equal] and [equalIgnoringCase] on two buffers of the same length. *)
Fixpoint equal_chars `{FoldCase} (caseSensitive : bool) (a b : list Z) : bool :=
  match a, b with
  | [], [] => true
  | x :: a', y :: b' =>
      (if caseSensitive then x =? y else foldCase x =? foldCase y)
      && equal_chars caseSensitive a' b'
  | _, _ => false
  end.

(** [String::startsWith(string, caseSensitive)]. *)
Definition startsWith `{FoldCase} (caseSensitive : bool) (s prefix : list Z) : bool :=
  if (length s <? length prefix)%nat then false
  else equal_chars caseSensitive (take (length prefix) s) prefix.

(** The operations the tokenizer calls on its source. *)
Class CharSource (Src : Type) : Type := {
  isEmpty : Src -> bool;
  isClosed : Src -> bool;
  currentChar : Src -> Z;
  sourceLength : Src -> nat;
  numberOfCharactersConsumed : Src -> Z;
  advance : Src -> Src;
  advanceAndUpdateLineNumber : Src -> Src;
  advancePastNewlineAndUpdateLineNumber : Src -> Src;
  push : Z -> Src -> Src;
  prependString : list Z -> Src -> Src;
  lookAheadInline : list Z -> bool -> Src -> LookAheadResult * Src;
}.

Definition lookAhead `{CharSource Src} (string : list Z) (s : Src) : LookAheadResult * Src :=
  lookAheadInline string true s.

Definition lookAheadIgnoringCase `{CharSource Src} (string : list Z) (s : Src)
  : LookAheadResult * Src :=
  lookAheadInline string false s.

(** [advanceStringAndASSERT] and [advanceStringAndASSERTIgnoringCase]: one
    [advance] per expected character.  What they assert is [advanceStringAsserts], which
    holds behind every [lookAhead] that has matched ([lookAhead_asserts]). *)
Fixpoint advanceString `{CharSource Src} (expected : list Z) (s : Src) : Src :=
  match expected with
  | [] => s
  | _ :: expected' => advanceString expected' (advance s)
  end.

Fixpoint advanceStringAsserts `{FoldCase} `{CharSource Src} (caseSensitive : bool) (expected : list Z) (s : Src) : bool :=
  match expected with
  | [] => true
  | c :: expected' =>
      (if caseSensitive then currentChar s =? c else foldCase (currentChar s) =? foldCase c)
      && advanceStringAsserts caseSensitive expected' (advance s)
  end.

(** ** The abstract source *)

Record Stream : Type := mkStream {
  st_pushed : list Z;
  st_rest : list Z;
  st_consumed : Z;
  st_closed : bool;
}.

Module Stream.

Definition isEmpty (s : Stream) : bool :=
  match st_rest s with [] => true | _ => false end.

(** Everything that is still to be read, in order. *)
Definition chars (s : Stream) : list Z := st_pushed s ++ st_rest s.

Definition currentChar (s : Stream) : Z := headz (chars s).

Definition advance (s : Stream) : Stream :=
  match st_pushed s, st_rest s with
  | _ :: p, _ => mkStream p (st_rest s) (st_consumed s + 1) (st_closed s)
  | [], _ :: r => mkStream [] r (st_consumed s + 1) (st_closed s)
  | [], [] => s
  end.

Definition push (c : Z) (s : Stream) : Stream :=
  mkStream (match st_pushed s with [] => [c] | b :: _ => [b; c] end)
           (st_rest s) (st_consumed s - 1) (st_closed s).

Definition prependString (l : list Z) (s : Stream) : Stream :=
  mkStream (st_pushed s) (l ++ st_rest s)
           (st_consumed s - Z.of_nat (length l)) (st_closed s).

Fixpoint advanceBy (n : nat) (s : Stream) : list Z * Stream :=
  match n with
  | O => ([], s)
  | S n' =>
      let '(l, s') := advanceBy n' (advance s) in (currentChar s :: l, s')
  end.

Definition lookAheadInline `{FoldCase} (string : list Z) (caseSensitive : bool) (s : Stream)
  : LookAheadResult * Stream :=
  if (length (chars s) <? length string)%nat then (NotEnoughCharacters, s)
  else
    let '(l, s') := advanceBy (length string) s in
    (if startsWith caseSensitive l string then DidMatch else DidNotMatch,
     prependString l s').

(** [append] of a fresh string. *)
Definition append (l : list Z) (s : Stream) : Stream :=
  mkStream (st_pushed s) (st_rest s ++ l) (st_consumed s) (st_closed s).

Definition close (s : Stream) : Stream :=
  mkStream (st_pushed s) (st_rest s) (st_consumed s) true.

(** A source that holds [l] and nothing else. *)
Definition of_chars (l : list Z) : Stream := mkStream [] l 0 false.

End Stream.

#[export] Instance stream_source `{FoldCase} : CharSource Stream := {
  isEmpty := Stream.isEmpty;
  isClosed := st_closed;
  currentChar := Stream.currentChar;
  sourceLength s := length (Stream.chars s);
  numberOfCharactersConsumed := st_consumed;
  advance := Stream.advance;
  advanceAndUpdateLineNumber := Stream.advance;
  advancePastNewlineAndUpdateLineNumber := Stream.advance;
  push := Stream.push;
  prependString := Stream.prependString;
  lookAheadInline := Stream.lookAheadInline;
}.

(** A source that can be appended to and closed: [append(String)] and
    [close()].  The flag of a string is [is8Bit()]. *)
Class InputSource (Src : Type) : Type := {
  appendString : bool -> list Z -> Src -> Src;
  closeSource : Src -> Src;
}.

#[export] Instance stream_input : InputSource Stream := {
  appendString _ := Stream.append;
  closeSource := Stream.close;
}.

(** ** What an implementation promises

    [refines s a] relates a concrete source to its abstraction.  [push], [prepend] and
    [lookAhead] are only promised for what the code asserts: at most one character is
    pushed back already when another one is, NUL is never pushed, and no characters are
    prepended while others are pushed back (the slow case of [lookAhead] reads as many
    characters as it looks for and prepends them).  Prepending an empty string changes
    nothing, and is promised always. *)
Class SourceRefines `{FoldCase} (Src : Type) `{CharSource Src} : Type := {
  refines : Src -> Stream -> Prop;
  refines_isEmpty s a : refines s a -> isEmpty s = isEmpty a;
  refines_isClosed s a : refines s a -> isClosed s = isClosed a;
  refines_currentChar s a : refines s a -> currentChar s = currentChar a;
  refines_length s a : refines s a -> sourceLength s = sourceLength a;
  refines_consumed s a :
    refines s a -> numberOfCharactersConsumed s = numberOfCharactersConsumed a;
  refines_advance s a : refines s a -> refines (advance s) (advance a);
  refines_advanceLine s a :
    refines s a -> refines (advanceAndUpdateLineNumber s) (advanceAndUpdateLineNumber a);
  refines_advanceNewline s a :
    refines s a ->
    refines (advancePastNewlineAndUpdateLineNumber s)
            (advancePastNewlineAndUpdateLineNumber a);
  refines_push s a c :
    refines s a -> (length (st_pushed a) <= 1)%nat -> c <> 0 ->
    refines (push c s) (push c a);
  refines_prepend s a l :
    refines s a -> l = [] \/ st_pushed a = [] -> refines (prependString l s) (prependString l a);
  refines_lookAhead s a l cs :
    refines s a -> (length (st_pushed a) <= length l)%nat ->
    fst (lookAheadInline l cs s) = fst (lookAheadInline l cs a) /\
    refines (snd (lookAheadInline l cs s)) (snd (lookAheadInline l cs a));
}.

Class InputRefines `{FoldCase} (Src : Type) `{SourceRefines Src} `{InputSource Src} : Prop := {
  refines_append s a b l : refines s a -> refines (appendString b l s) (appendString b l a);
  refines_close s a : refines s a -> refines (closeSource s) (closeSource a);
}.

(** ** Laws of the abstract source *)

Module StreamFacts.
Import Stream.

(** A stream that has pushed characters has more input behind them. *)
Definition normal (s : Stream) : Prop := st_rest s = [] -> st_pushed s = [].

Lemma chars_advance s : chars (advance s) = tail (chars s).
Proof. destruct s as [[|c p] [|d r] n b]; reflexivity. Qed.

Lemma consumed_advance s :
  st_consumed (advance s) =
  st_consumed s + (if (length (chars s) =? 0)%nat then 0 else 1).
Proof. destruct s as [[|c p] [|d r] n b]; simpl; lia. Qed.

Lemma closed_advance s : st_closed (advance s) = st_closed s.
Proof. destruct s as [[|c p] [|d r] n b]; reflexivity. Qed.

Lemma length_chars_advance s :
  length (chars (advance s)) = (length (chars s) - 1)%nat.
Proof. rewrite chars_advance. destruct (chars s); simpl; lia. Qed.

Lemma chars_append l s : chars (append l s) = chars s ++ l.
Proof. unfold chars, append; simpl. by rewrite app_assoc. Qed.

Lemma isEmpty_false s : isEmpty s = false <-> st_rest s <> [].
Proof. unfold isEmpty. destruct (st_rest s); split; congruence. Qed.

Lemma isEmpty_false_chars s : isEmpty s = false -> chars s <> [].
Proof.
  rewrite isEmpty_false. unfold chars. intros H E.
  apply H. by apply app_nil in E as [_ ->].
Qed.

Lemma normal_isEmpty s : normal s -> isEmpty s = true <-> chars s = [].
Proof.
  unfold normal, isEmpty, chars. destruct (st_rest s) as [|c r].
  - intros H. rewrite H by done. done.
  - intros _. split; [done|]. intros E. by apply app_nil in E as [_ ?].
Qed.

Lemma normal_advance s : normal s -> normal (advance s).
Proof.
  unfold normal. destruct s as [[|c p] [|d r] n b]; simpl; intros H E; try done.
  specialize (H eq_refl). discriminate.
Qed.

Lemma normal_append s l : l <> [] -> normal (append l s).
Proof.
  unfold normal, append; simpl. intros Hl E.
  apply app_nil in E as [_ ?]. congruence.
Qed.

(** Appending commutes with reading while there is something to read. *)
Lemma advance_append s l :
  chars s <> [] -> advance (append l s) = append l (advance s).
Proof. destruct s as [[|c p] [|d r] n b]; simpl; done. Qed.

Lemma currentChar_append s l :
  chars s <> [] -> currentChar (append l s) = currentChar s.
Proof. intros H. unfold currentChar. rewrite chars_append. by apply headz_app. Qed.

Lemma isEmpty_append s l : isEmpty s = false -> isEmpty (append l s) = false.
Proof. unfold isEmpty. simpl. by destruct (st_rest s). Qed.

Lemma advanceBy_spec n s :
  (n <= length (chars s))%nat ->
  fst (advanceBy n s) = take n (chars s) /\
  chars (snd (advanceBy n s)) = drop n (chars s) /\
  st_consumed (snd (advanceBy n s)) = st_consumed s + Z.of_nat n /\
  st_closed (snd (advanceBy n s)) = st_closed s.
Proof.
  revert s; induction n as [|n IH]; intros s Hn; simpl.
  { rewrite take_0, drop_0. repeat split; lia. }
  destruct (advanceBy n (advance s)) as [l s'] eqn:E.
  specialize (IH (advance s)). rewrite E, length_chars_advance in IH.
  simpl in IH. destruct IH as (IH1 & IH2 & IH3 & IH4); [lia|].
  rewrite chars_advance in IH1, IH2. rewrite consumed_advance in IH3.
  rewrite closed_advance in IH4. unfold currentChar. simpl.
  destruct (chars s) as [|c cs]; simpl in *; [lia|].
  rewrite IH1, IH2, IH3, IH4. repeat split; lia.
Qed.

Lemma pushed_advanceBy n s : (length (st_pushed s) <= n)%nat -> st_pushed (snd (advanceBy n s)) = [].
Proof.
  revert s; induction n as [|n IH]; intros s Hn; simpl; [apply nil_length_inv; lia|].
  specialize (IH (advance s)). destruct (advanceBy n (advance s)). apply IH.
  destruct s as [[|c p] [|d r] k b]; simpl in *; lia.
Qed.

Lemma asserts_chars `{FoldCase} cs expected : forall s, equal_chars cs (take (length expected) (chars s)) expected = true ->
  advanceStringAsserts cs expected s = true.
Proof.
  induction expected as [|c expected IH]; intros s E; [done|]. cbn [advanceStringAsserts CharSource.currentChar CharSource.advance stream_source].
  unfold currentChar. pose proof (chars_advance s) as Ea. destruct (chars s) as [|d l]; [done|]. cbn in E. apply andb_true_iff in E as [E1 E]. cbn [headz]. rewrite E1. cbn [andb]. apply IH. by rewrite Ea.
Qed.

(** What was looked for is ahead. *)
Lemma lookAhead_asserts `{FoldCase} l cs s s' : (length (st_pushed s) <= length l)%nat -> lookAheadInline l cs s = (DidMatch, s') -> advanceStringAsserts cs l s' = true.
Proof.
  intros Hp E. unfold lookAheadInline in E. destruct (Nat.ltb_spec (length (chars s)) (length l)) as [|Hl]; [done|]. pose proof (advanceBy_spec (length l) s Hl) as (A1 & _). pose proof (pushed_advanceBy (length l) s Hp) as Hn.
  destruct (advanceBy (length l) s) as [w s1]. cbn in A1, Hn. destruct (startsWith cs w l) eqn:Ew; [|done]. injection E as <-. unfold startsWith in Ew. destruct (_ <? _)%nat; [done|]. apply asserts_chars.
  unfold chars, prependString. cbn. rewrite Hn. cbn. assert (Hw : length w = length l) by (subst w; rewrite length_take; lia). rewrite <- Hw in Ew |- *. rewrite firstn_all in Ew. by rewrite take_app_length.
Qed.

End StreamFacts.
