(* ===== verification/SegmentedString.v ===== *)
(** * [WebCore/platform/text/SegmentedString]

    The input buffer of the parser: up to two pushed-back characters, the
    current substring with a raw pointer into it, and a queue of further
    substrings.  Reading goes through two function pointers and a set of fast
    path flags that the code re-computes whenever the shape of the buffer
    changes.  The model keeps all of that state, the function pointers as an
    enumeration; [WellFormed] is the invariant under which every fast path
    agrees with the slow one, and [segmented_refines] shows that the whole class
    implements the abstract [Stream]. *)
From S2P Require Import Prelude CharSource.
From stdpp Require Import base list numbers option.
From Stdlib Require Import ZArith Lia.
#[local] Open Scope Z_scope.

(** ** [SegmentedSubstring]

    [m_data] is the offset of the raw pointer in [m_string] ([None] is the null
    pointer); it is kept apart from [m_length], as in the code. *)
Record SegmentedSubstring : Type := mkSubstring {
  m_data : option nat;
  m_length : nat;
  m_doNotExcludeLineNumbers : bool;
  m_is8Bit : bool;
  m_string : list Z;
}.

(** [SegmentedSubstring()]. *)
Definition emptySubstring : SegmentedSubstring :=
  mkSubstring None 0 true false [].

(** [SegmentedSubstring(const String&)]; [is8Bit] is the width of the string. *)
Definition freshSubstring (is8Bit : bool) (str : list Z) : SegmentedSubstring :=
  match str with
  | [] => mkSubstring None 0 true false []
  | _ => mkSubstring (Some 0%nat) (length str) true is8Bit str
  end.

Definition clearSubstring (s : SegmentedSubstring) : SegmentedSubstring :=
  mkSubstring None 0 (m_doNotExcludeLineNumbers s) false (m_string s).

Definition setExcludeLineNumbers_sub (s : SegmentedSubstring) : SegmentedSubstring :=
  mkSubstring (m_data s) (m_length s) false (m_is8Bit s) (m_string s).

Definition sub_consumed (s : SegmentedSubstring) : Z :=
  Z.of_nat (length (m_string s)) - Z.of_nat (m_length s).

(** [appendTo]: the part of the string that is still to be read, located
    through the length and not through the pointer. *)
Definition appendTo (s : SegmentedSubstring) : list Z :=
  let offset := (length (m_string s) - m_length s)%nat in
  if (offset =? 0)%nat then
    if (m_length s =? 0)%nat then [] else m_string s
  else take (m_length s) (drop offset (m_string s)).

Definition currentSubString (s : SegmentedSubstring) (len : nat) : list Z :=
  take len (drop (length (m_string s) - m_length s) (m_string s)).

(** A read through the pointer; the width only selects the member of the
    union, and [getCurrentChar16] checks for null. *)
Definition derefPtr (s : SegmentedSubstring) : Z :=
  match m_data s with
  | Some p => default 0 (m_string s !! p)
  | None => 0
  end.

Definition getCurrentChar (s : SegmentedSubstring) : Z := derefPtr s.

Definition incrementPtr (s : SegmentedSubstring) : SegmentedSubstring :=
  mkSubstring (S <$> m_data s) (m_length s) (m_doNotExcludeLineNumbers s)
              (m_is8Bit s) (m_string s).

Definition decrementLength (s : SegmentedSubstring) : SegmentedSubstring :=
  mkSubstring (m_data s) (pred (m_length s)) (m_doNotExcludeLineNumbers s)
              (m_is8Bit s) (m_string s).

(** ** [SegmentedString] *)

(** The values of [m_advanceFunc] and [m_advanceAndUpdateLineNumberFunc]. *)
Inductive AdvanceFunc : Type :=
| advanceEmptyF
| advance8F
| advance16F
| advanceSlowCaseF
| advanceAndUpdateLineNumber8F
| advanceAndUpdateLineNumber16F
| advanceAndUpdateLineNumberSlowCaseF.

(** [FastPathFlags]: the two bits of [m_fastPathFlags]. *)
Record FastPathFlags : Type := mkFlags {
  Use8BitAdvanceAndUpdateLineNumbers : bool;
  Use8BitAdvance : bool;
}.

Definition NoFastPath : FastPathFlags := mkFlags false false.

Record SegmentedString : Type := mkSegmented {
  m_pushedChar1 : Z;
  m_pushedChar2 : Z;
  m_currentString : SegmentedSubstring;
  m_currentChar : Z;
  m_numberOfCharactersConsumedPriorToCurrentString : Z;
  m_numberOfCharactersConsumedPriorToCurrentLine : Z;
  m_currentLine : Z;
  m_substrings : list SegmentedSubstring;
  m_closed : bool;
  m_empty : bool;
  m_fastPathFlags : FastPathFlags;
  m_advanceFunc : AdvanceFunc;
  m_advanceAndUpdateLineNumberFunc : AdvanceFunc;
}.

(** Field assignments. *)
Definition set_pushed (p1 p2 : Z) (s : SegmentedString) : SegmentedString :=
  mkSegmented p1 p2 (m_currentString s) (m_currentChar s)
    (m_numberOfCharactersConsumedPriorToCurrentString s)
    (m_numberOfCharactersConsumedPriorToCurrentLine s) (m_currentLine s)
    (m_substrings s) (m_closed s) (m_empty s) (m_fastPathFlags s)
    (m_advanceFunc s) (m_advanceAndUpdateLineNumberFunc s).

Definition set_currentString (c : SegmentedSubstring) (s : SegmentedString) : SegmentedString :=
  mkSegmented (m_pushedChar1 s) (m_pushedChar2 s) c (m_currentChar s)
    (m_numberOfCharactersConsumedPriorToCurrentString s)
    (m_numberOfCharactersConsumedPriorToCurrentLine s) (m_currentLine s)
    (m_substrings s) (m_closed s) (m_empty s) (m_fastPathFlags s)
    (m_advanceFunc s) (m_advanceAndUpdateLineNumberFunc s).

Definition set_currentChar (c : Z) (s : SegmentedString) : SegmentedString :=
  mkSegmented (m_pushedChar1 s) (m_pushedChar2 s) (m_currentString s) c
    (m_numberOfCharactersConsumedPriorToCurrentString s)
    (m_numberOfCharactersConsumedPriorToCurrentLine s) (m_currentLine s)
    (m_substrings s) (m_closed s) (m_empty s) (m_fastPathFlags s)
    (m_advanceFunc s) (m_advanceAndUpdateLineNumberFunc s).

Definition set_priorToString (n : Z) (s : SegmentedString) : SegmentedString :=
  mkSegmented (m_pushedChar1 s) (m_pushedChar2 s) (m_currentString s) (m_currentChar s)
    n (m_numberOfCharactersConsumedPriorToCurrentLine s) (m_currentLine s)
    (m_substrings s) (m_closed s) (m_empty s) (m_fastPathFlags s)
    (m_advanceFunc s) (m_advanceAndUpdateLineNumberFunc s).

Definition set_line (line prior : Z) (s : SegmentedString) : SegmentedString :=
  mkSegmented (m_pushedChar1 s) (m_pushedChar2 s) (m_currentString s) (m_currentChar s)
    (m_numberOfCharactersConsumedPriorToCurrentString s) prior line
    (m_substrings s) (m_closed s) (m_empty s) (m_fastPathFlags s)
    (m_advanceFunc s) (m_advanceAndUpdateLineNumberFunc s).

Definition set_substrings (l : list SegmentedSubstring) (s : SegmentedString) : SegmentedString :=
  mkSegmented (m_pushedChar1 s) (m_pushedChar2 s) (m_currentString s) (m_currentChar s)
    (m_numberOfCharactersConsumedPriorToCurrentString s)
    (m_numberOfCharactersConsumedPriorToCurrentLine s) (m_currentLine s)
    l (m_closed s) (m_empty s) (m_fastPathFlags s)
    (m_advanceFunc s) (m_advanceAndUpdateLineNumberFunc s).

Definition set_closed (b : bool) (s : SegmentedString) : SegmentedString :=
  mkSegmented (m_pushedChar1 s) (m_pushedChar2 s) (m_currentString s) (m_currentChar s)
    (m_numberOfCharactersConsumedPriorToCurrentString s)
    (m_numberOfCharactersConsumedPriorToCurrentLine s) (m_currentLine s)
    (m_substrings s) b (m_empty s) (m_fastPathFlags s)
    (m_advanceFunc s) (m_advanceAndUpdateLineNumberFunc s).

Definition set_empty (b : bool) (s : SegmentedString) : SegmentedString :=
  mkSegmented (m_pushedChar1 s) (m_pushedChar2 s) (m_currentString s) (m_currentChar s)
    (m_numberOfCharactersConsumedPriorToCurrentString s)
    (m_numberOfCharactersConsumedPriorToCurrentLine s) (m_currentLine s)
    (m_substrings s) (m_closed s) b (m_fastPathFlags s)
    (m_advanceFunc s) (m_advanceAndUpdateLineNumberFunc s).

Definition set_funcs (fl : FastPathFlags) (f g : AdvanceFunc) (s : SegmentedString)
  : SegmentedString :=
  mkSegmented (m_pushedChar1 s) (m_pushedChar2 s) (m_currentString s) (m_currentChar s)
    (m_numberOfCharactersConsumedPriorToCurrentString s)
    (m_numberOfCharactersConsumedPriorToCurrentLine s) (m_currentLine s)
    (m_substrings s) (m_closed s) (m_empty s) fl f g.

Definition isComposite (s : SegmentedString) : bool :=
  match m_substrings s with [] => false | _ => true end.

Definition escaped (s : SegmentedString) : bool := negb (m_pushedChar1 s =? 0).

Definition updateSlowCaseFunctionPointers (s : SegmentedString) : SegmentedString :=
  set_funcs NoFastPath advanceSlowCaseF advanceAndUpdateLineNumberSlowCaseF s.

Definition updateAdvanceFunctionPointers (s : SegmentedString) : SegmentedString :=
  let cur := m_currentString s in
  if (1 <? m_length cur)%nat && (m_pushedChar1 s =? 0) then
    if m_is8Bit cur then
      if m_doNotExcludeLineNumbers cur
      then set_funcs (mkFlags true true) advance8F advanceAndUpdateLineNumber8F s
      else set_funcs (mkFlags false true) advance8F advance8F s
    else
      if m_doNotExcludeLineNumbers cur
      then set_funcs NoFastPath advance16F advanceAndUpdateLineNumber16F s
      else set_funcs NoFastPath advance16F advance16F s
  else
    let s :=
      if (m_length cur =? 0)%nat && negb (isComposite s)
      then set_funcs NoFastPath advanceEmptyF advanceEmptyF s
      else s in
    updateSlowCaseFunctionPointers s.

(** The default constructor and [SegmentedString(const String&)]. *)
Definition emptySegmented : SegmentedString :=
  mkSegmented 0 0 emptySubstring 0 0 0 0 [] false true NoFastPath
              advanceEmptyF advanceEmptyF.

Definition ofString (is8Bit : bool) (str : list Z) : SegmentedString :=
  let cur := freshSubstring is8Bit str in
  updateAdvanceFunctionPointers
    (mkSegmented 0 0 cur (if (m_length cur =? 0)%nat then 0 else getCurrentChar cur)
       0 0 0 [] false (length str =? 0)%nat NoFastPath advanceEmptyF advanceEmptyF).

(** The copy constructor and [operator=]: everything is copied but
    [m_currentChar], which is recomputed. *)
Definition copyOf (other : SegmentedString) : SegmentedString :=
  set_currentChar
    (if negb (m_pushedChar2 other =? 0) then m_pushedChar2 other
     else if negb (m_pushedChar1 other =? 0) then m_pushedChar1 other
     else if (m_length (m_currentString other) =? 0)%nat then 0
     else getCurrentChar (m_currentString other))
    other.

Definition seg_length (s : SegmentedString) : nat :=
  (m_length (m_currentString s)
  + (if (m_pushedChar1 s =? 0)%Z then 0
     else 1 + (if (m_pushedChar2 s =? 0)%Z then 0 else 1))
  + foldr (fun sub n => m_length sub + n) 0 (m_substrings s))%nat.

Definition seg_consumed (s : SegmentedString) : Z :=
  m_numberOfCharactersConsumedPriorToCurrentString s + sub_consumed (m_currentString s)
  - (if m_pushedChar1 s =? 0 then 0 else if m_pushedChar2 s =? 0 then 1 else 2).

Definition seg_setExcludeLineNumbers (s : SegmentedString) : SegmentedString :=
  set_substrings (map setExcludeLineNumbers_sub (m_substrings s))
    (set_currentString (setExcludeLineNumbers_sub (m_currentString s)) s).

Definition seg_clear (s : SegmentedString) : SegmentedString :=
  mkSegmented 0 0 (clearSubstring (m_currentString s)) 0 0 0 0 [] false true
              NoFastPath advanceEmptyF advanceEmptyF.

Definition seg_close (s : SegmentedString) : SegmentedString := set_closed true s.

(** [m_pushedChar1 ? m_pushedChar1 : (m_currentString.m_length ? ... : 0)]. *)
Definition firstChar (s : SegmentedString) : Z :=
  if m_pushedChar1 s =? 0 then
    if (m_length (m_currentString s) =? 0)%nat then 0
    else getCurrentChar (m_currentString s)
  else m_pushedChar1 s.

Definition appendSub (sub : SegmentedSubstring) (s : SegmentedString) : SegmentedString :=
  if (m_length sub =? 0)%nat then s
  else
    let s :=
      if (m_length (m_currentString s) =? 0)%nat then
        updateAdvanceFunctionPointers
          (set_currentString sub
             (set_priorToString
                (m_numberOfCharactersConsumedPriorToCurrentString s
                 + sub_consumed (m_currentString s)) s))
      else set_substrings (m_substrings s ++ [sub]) s in
    set_empty false s.

Definition prependSub (sub : SegmentedSubstring) (s : SegmentedString) : SegmentedString :=
  if (m_length sub =? 0)%nat then s
  else
    let s :=
      set_priorToString
        (m_numberOfCharactersConsumedPriorToCurrentString s
         + sub_consumed (m_currentString s) - Z.of_nat (m_length sub)) s in
    let s :=
      if (m_length (m_currentString s) =? 0)%nat then
        updateAdvanceFunctionPointers (set_currentString sub s)
      else
        updateAdvanceFunctionPointers
          (set_currentString sub
             (set_substrings (m_currentString s :: m_substrings s) s)) in
    set_empty false s.

(** [append(const SegmentedString&)] and [prepend(const SegmentedString&)]. *)
Definition seg_append (other s : SegmentedString) : SegmentedString :=
  let s := appendSub (m_currentString other) s in
  let s := fold_left (fun s sub => appendSub sub s) (m_substrings other) s in
  set_currentChar (firstChar s) s.

Definition seg_prepend (other s : SegmentedString) : SegmentedString :=
  let s := foldr prependSub s (m_substrings other) in
  let s := prependSub (m_currentString other) s in
  set_currentChar (firstChar s) s.

(** [ASSERT(!m_pushedChar2)] in [push].  The operations of this file are what a release
    build does; what they assert is kept apart: here for [push], in the laws of
    [SourceRefines] for [push] and [prepend], and in [appendable] of [HTMLInputStream] for
    [append] and [close]. *)
Definition pushAsserts (s : SegmentedString) : bool := (m_pushedChar1 s =? 0) || (m_pushedChar2 s =? 0).

Definition seg_push (c : Z) (s : SegmentedString) : SegmentedString :=
  if m_pushedChar1 s =? 0 then
    let s := set_pushed c (m_pushedChar2 s) s in
    updateSlowCaseFunctionPointers
      (set_currentChar (if c =? 0 then getCurrentChar (m_currentString s) else c) s)
  else set_pushed (m_pushedChar1 s) c s.

(** ** Reading *)

Definition becomeEmpty (s : SegmentedString) : SegmentedString :=
  set_funcs NoFastPath advanceEmptyF advanceEmptyF
    (set_empty true (set_currentString (clearSubstring (m_currentString s)) s)).

Definition advanceSubstring (s : SegmentedString) : SegmentedString :=
  match m_substrings s with
  | sub :: subs =>
      updateAdvanceFunctionPointers
        (set_priorToString
           (m_numberOfCharactersConsumedPriorToCurrentString s
            + sub_consumed (m_currentString s) - sub_consumed sub)
           (set_substrings subs (set_currentString sub s)))
  | [] => becomeEmpty s
  end.

Definition decrementAndCheckLength (s : SegmentedString) : SegmentedString :=
  let s := set_currentString (decrementLength (m_currentString s)) s in
  if (m_length (m_currentString s) =? 1)%nat
  then updateSlowCaseFunctionPointers s else s.

(** [m_currentChar = m_currentString.incrementAndGetCurrentChar()]. *)
Definition incrementAndGetCurrentChar (s : SegmentedString) : SegmentedString :=
  let cur := incrementPtr (m_currentString s) in
  set_currentChar (derefPtr cur) (set_currentString cur s).

Definition noteNewline (s : SegmentedString) : SegmentedString :=
  set_line (m_currentLine s + 1) (seg_consumed s + 1) s.

Definition advanceEmpty (s : SegmentedString) : SegmentedString := set_currentChar 0 s.

Definition advance8 (s : SegmentedString) : SegmentedString :=
  incrementAndGetCurrentChar (decrementAndCheckLength s).

Definition advance16 (s : SegmentedString) : SegmentedString :=
  incrementAndGetCurrentChar (decrementAndCheckLength s).

Definition advanceAndUpdateLineNumber8 (s : SegmentedString) : SegmentedString :=
  let s := if m_currentChar s =? 10 then noteNewline s else s in
  incrementAndGetCurrentChar (decrementAndCheckLength s).

Definition advanceAndUpdateLineNumber16 (s : SegmentedString) : SegmentedString :=
  let s := if m_currentChar s =? 10 then noteNewline s else s in
  incrementAndGetCurrentChar (decrementAndCheckLength s).

(** [m_currentChar = m_currentString.m_length ? m_currentString.getCurrentChar() : 0]. *)
Definition reloadCurrentChar (s : SegmentedString) : SegmentedString :=
  set_currentChar
    (if (m_length (m_currentString s) =? 0)%nat then 0
     else getCurrentChar (m_currentString s)) s.

Definition advanceSlowCase (s : SegmentedString) : SegmentedString :=
  if negb (m_pushedChar1 s =? 0) then
    let s := set_pushed (m_pushedChar2 s) 0 s in
    if negb (m_pushedChar1 s =? 0) then set_currentChar (m_pushedChar1 s) s
    else reloadCurrentChar (updateAdvanceFunctionPointers s)
  else if negb (m_length (m_currentString s) =? 0)%nat then
    let s := set_currentString (decrementLength (m_currentString s)) s in
    reloadCurrentChar
      (if (m_length (m_currentString s) =? 0)%nat then advanceSubstring s else s)
  else if negb (isComposite s) then reloadCurrentChar (becomeEmpty s)
  else reloadCurrentChar s.

Definition advanceAndUpdateLineNumberSlowCase (s : SegmentedString) : SegmentedString :=
  if negb (m_pushedChar1 s =? 0) then
    let s := set_pushed (m_pushedChar2 s) 0 s in
    if negb (m_pushedChar1 s =? 0) then set_currentChar (m_pushedChar1 s) s
    else reloadCurrentChar (updateAdvanceFunctionPointers s)
  else if negb (m_length (m_currentString s) =? 0)%nat then
    let s :=
      if (getCurrentChar (m_currentString s) =? 10)
         && m_doNotExcludeLineNumbers (m_currentString s)
      then noteNewline s else s in
    let s := set_currentString (decrementLength (m_currentString s)) s in
    reloadCurrentChar
      (if (m_length (m_currentString s) =? 0)%nat then advanceSubstring s
       else set_currentString (incrementPtr (m_currentString s)) s)
  else if negb (isComposite s) then reloadCurrentChar (becomeEmpty s)
  else reloadCurrentChar s.

(** The call through a function pointer. *)
Definition callAdvanceFunc (f : AdvanceFunc) (s : SegmentedString) : SegmentedString :=
  match f with
  | advanceEmptyF => advanceEmpty s
  | advance8F => advance8 s
  | advance16F => advance16 s
  | advanceSlowCaseF => advanceSlowCase s
  | advanceAndUpdateLineNumber8F => advanceAndUpdateLineNumber8 s
  | advanceAndUpdateLineNumber16F => advanceAndUpdateLineNumber16 s
  | advanceAndUpdateLineNumberSlowCaseF => advanceAndUpdateLineNumberSlowCase s
  end.

Definition seg_advance (s : SegmentedString) : SegmentedString :=
  if Use8BitAdvance (m_fastPathFlags s) then
    let s := set_currentString (decrementLength (m_currentString s)) s in
    let haveOneCharacterLeft := (m_length (m_currentString s) =? 1)%nat in
    let s := incrementAndGetCurrentChar s in
    if haveOneCharacterLeft then updateSlowCaseFunctionPointers s else s
  else callAdvanceFunc (m_advanceFunc s) s.

Definition seg_advanceAndUpdateLineNumber (s : SegmentedString) : SegmentedString :=
  if Use8BitAdvance (m_fastPathFlags s) then
    let haveNewLine :=
      (m_currentChar s =? 10)
      && Use8BitAdvanceAndUpdateLineNumbers (m_fastPathFlags s) in
    let s := set_currentString (decrementLength (m_currentString s)) s in
    let haveOneCharacterLeft := (m_length (m_currentString s) =? 1)%nat in
    let s := incrementAndGetCurrentChar s in
    let s :=
      if haveNewLine then
        set_line (m_currentLine s + 1)
          (m_numberOfCharactersConsumedPriorToCurrentString s
           + sub_consumed (m_currentString s)) s
      else s in
    if haveOneCharacterLeft then updateSlowCaseFunctionPointers s else s
  else callAdvanceFunc (m_advanceAndUpdateLineNumberFunc s) s.

Definition seg_advancePastNewlineAndUpdateLineNumber (s : SegmentedString) : SegmentedString :=
  if (m_pushedChar1 s =? 0) && (1 <? m_length (m_currentString s))%nat then
    let newLineFlag := m_doNotExcludeLineNumbers (m_currentString s) in
    let s := if newLineFlag then noteNewline s else s in
    incrementAndGetCurrentChar (decrementAndCheckLength s)
  else advanceAndUpdateLineNumberSlowCase s.

(** [advance(count, consumedCharacters)]. *)
Fixpoint seg_advanceBy (count : nat) (s : SegmentedString) : list Z * SegmentedString :=
  match count with
  | O => ([], s)
  | S count' =>
      let '(l, s') := seg_advanceBy count' (seg_advance s) in (m_currentChar s :: l, s')
  end.

Definition seg_toString (s : SegmentedString) : list Z :=
  (if m_pushedChar1 s =? 0 then []
   else m_pushedChar1 s :: (if m_pushedChar2 s =? 0 then [] else [m_pushedChar2 s]))
  ++ appendTo (m_currentString s) ++ concat (map appendTo (m_substrings s)).

(** [prepend(SegmentedString(string))]; the string built from consumed
    characters is 8-bit when all of them fit. *)
Definition seg_prependString (l : list Z) (s : SegmentedString) : SegmentedString :=
  seg_prepend (ofString (forallb (fun c => c <=? 255) l) l) s.

Definition lookAheadSlowCase `{FoldCase} (string : list Z) (caseSensitive : bool)
  (s : SegmentedString) : LookAheadResult * SegmentedString :=
  let count := length string in
  if (seg_length s <? count)%nat then (NotEnoughCharacters, s)
  else
    let '(consumed, s) := seg_advanceBy count s in
    (if startsWith caseSensitive consumed string then DidMatch else DidNotMatch,
     seg_prepend (ofString false consumed) s).

Definition seg_lookAheadInline `{FoldCase} (string : list Z) (caseSensitive : bool)
  (s : SegmentedString) : LookAheadResult * SegmentedString :=
  if (m_pushedChar1 s =? 0) && (length string <=? m_length (m_currentString s))%nat then
    (if startsWith caseSensitive (currentSubString (m_currentString s) (length string)) string
     then DidMatch else DidNotMatch, s)
  else lookAheadSlowCase string caseSensitive s.

(** ** Positions *)

Definition currentColumn (s : SegmentedString) : Z :=
  seg_consumed s - m_numberOfCharactersConsumedPriorToCurrentLine s.

Definition setCurrentPosition (line columnAfterProlog prologLength : Z) (s : SegmentedString)
  : SegmentedString :=
  set_line line (seg_consumed s + prologLength - columnAfterProlog) s.

#[export] Instance segmented_source `{FoldCase} : CharSource SegmentedString := {
  isEmpty := m_empty;
  isClosed := m_closed;
  currentChar := m_currentChar;
  sourceLength := seg_length;
  numberOfCharactersConsumed := seg_consumed;
  advance := seg_advance;
  advanceAndUpdateLineNumber := seg_advanceAndUpdateLineNumber;
  advancePastNewlineAndUpdateLineNumber := seg_advancePastNewlineAndUpdateLineNumber;
  push := seg_push;
  prependString := seg_prependString;
  lookAheadInline := seg_lookAheadInline;
}.

#[export] Instance segmented_input : InputSource SegmentedString := {
  appendString is8Bit l s := seg_append (ofString is8Bit l) s;
  closeSource := seg_close;
}.
