(* ===== verification/SegmentedStringRefinement.v ===== *)
(** * [SegmentedString] implements the abstract [Stream]

    The representation invariant of [SegmentedString], its preservation by every
    operation of the class, and the simulation of each operation by the
    corresponding operation of [Stream]: the instance [segmented_refines]
    discharges the interface the tokenizer relies on. *)
From S2P Require Import Prelude CharSource SegmentedString.
From stdpp Require Import base list numbers option.
From Stdlib Require Import ZArith Lia.
#[local] Open Scope Z_scope.

(** ** Invariant *)

(** The pointer and the length of a substring agree. *)
Definition sub_ok (s : SegmentedSubstring) : Prop :=
  (m_length s <= length (m_string s))%nat /\
  ((0 < m_length s)%nat -> m_data s = Some (length (m_string s) - m_length s)%nat).

(** What a function pointer or a fast path relies on. *)
Definition fast_ok (s : SegmentedString) : Prop :=
  m_pushedChar1 s = 0 /\ (1 < m_length (m_currentString s))%nat.

Definition func_ok (f : AdvanceFunc) (s : SegmentedString) : Prop :=
  match f with
  | advanceEmptyF => m_pushedChar1 s = 0 /\ m_length (m_currentString s) = 0%nat
  | advance8F | advance16F
  | advanceAndUpdateLineNumber8F | advanceAndUpdateLineNumber16F => fast_ok s
  | advanceSlowCaseF | advanceAndUpdateLineNumberSlowCaseF =>
      m_pushedChar1 s <> 0 \/ (m_length (m_currentString s) <= 1)%nat
  end.

(** The part of the invariant that does not mention the cached values. *)
Record Core (s : SegmentedString) : Prop := mkCore {
  core_cur : sub_ok (m_currentString s);
  core_subs : Forall (fun x => sub_ok x /\ (0 < m_length x)%nat) (m_substrings s);
  core_comp : m_length (m_currentString s) = 0%nat -> m_substrings s = [];
  core_pushed : m_pushedChar1 s = 0 -> m_pushedChar2 s = 0;
}.

(** The cached values agree with the data they are computed from. *)
Record Cached (s : SegmentedString) : Prop := mkCached {
  cached_flags : Use8BitAdvance (m_fastPathFlags s) = true -> fast_ok s;
  cached_func : func_ok (m_advanceFunc s) s;
  cached_line : func_ok (m_advanceAndUpdateLineNumberFunc s) s;
}.

Record WellFormed (s : SegmentedString) : Prop := mkWF {
  wf_core : Core s;
  wf_cached : Cached s;
  wf_empty : m_empty s = (m_length (m_currentString s) =? 0)%nat;
  wf_char : m_currentChar s = firstChar s;
}.

(** ** Abstraction *)

Definition pushedList (s : SegmentedString) : list Z :=
  if m_pushedChar1 s =? 0 then []
  else m_pushedChar1 s :: (if m_pushedChar2 s =? 0 then [] else [m_pushedChar2 s]).

Definition restList (s : SegmentedString) : list Z :=
  appendTo (m_currentString s) ++ concat (map appendTo (m_substrings s)).

Definition abs (s : SegmentedString) : Stream :=
  mkStream (pushedList s) (restList s) (seg_consumed s) (m_closed s).

(** ** Substrings *)

Lemma appendTo_ok s :
  sub_ok s -> appendTo s = drop (length (m_string s) - m_length s) (m_string s).
Proof.
  intros [Hl _]. unfold appendTo.
  destruct (Nat.eqb_spec (length (m_string s) - m_length s) 0) as [E|E].
  - rewrite E, drop_0. destruct (Nat.eqb_spec (m_length s) 0); [|done].
    symmetry. apply nil_length_inv. lia.
  - apply take_ge. rewrite length_drop. lia.
Qed.

Lemma length_appendTo s : sub_ok s -> length (appendTo s) = m_length s.
Proof. intros H. rewrite appendTo_ok by done. destruct H. rewrite length_drop. lia. Qed.

Lemma appendTo_nil s : sub_ok s -> m_length s = 0%nat -> appendTo s = [].
Proof. intros H E. apply nil_length_inv. rewrite length_appendTo by done. done. Qed.

Lemma getCurrentChar_ok s :
  sub_ok s -> (0 < m_length s)%nat -> getCurrentChar s = headz (appendTo s).
Proof.
  intros H Hl. rewrite appendTo_ok by done. destruct H as [H1 H2].
  unfold getCurrentChar, derefPtr. rewrite H2 by done.
  destruct (lookup_lt_is_Some_2 (m_string s) (length (m_string s) - m_length s)) as [x Hx];
    [lia|].
  rewrite Hx. simpl. symmetry. by apply headz_drop.
Qed.

(** One character read from a substring with more than one left. *)
Lemma step_sub s :
  sub_ok s -> (1 < m_length s)%nat ->
  let s' := incrementPtr (decrementLength s) in
  sub_ok s' /\ appendTo s' = tail (appendTo s) /\
  m_length s' = pred (m_length s) /\ sub_consumed s' = sub_consumed s + 1.
Proof.
  intros H Hl s'.
  assert (Hok : sub_ok s').
  { destruct H as [H1 H2]. split; simpl; [lia|]. intros _.
    rewrite H2 by lia. simpl. f_equal. lia. }
  split; [done|]. rewrite !appendTo_ok by done. unfold sub_consumed. simpl.
  destruct H as [H1 _]. split; [|split; lia].
  rewrite drop_drop_one. f_equal. lia.
Qed.

(** The last character of a substring. *)
Lemma last_sub s :
  sub_ok s -> m_length s = 1%nat ->
  sub_ok (decrementLength s) /\ tail (appendTo s) = [] /\
  sub_consumed (decrementLength s) = sub_consumed s + 1.
Proof.
  intros H Hl. pose proof (length_appendTo s H) as HL.
  destruct H as [H1 _]. unfold sub_ok, sub_consumed. simpl. rewrite Hl. simpl.
  split; [split; [lia|lia]|]. split; [|lia].
  destruct (appendTo s) as [|c [|d l]]; simpl in *; try done; lia.
Qed.

Lemma freshSubstring_ok b l : sub_ok (freshSubstring b l).
Proof. destruct l; unfold sub_ok; simpl; split; try lia. intros _. f_equal. lia. Qed.

Lemma appendTo_fresh b l : appendTo (freshSubstring b l) = l.
Proof. rewrite appendTo_ok by apply freshSubstring_ok. destruct l; simpl; [done|]. by rewrite Nat.sub_diag. Qed.

Lemma m_length_fresh b l : m_length (freshSubstring b l) = length l.
Proof. by destruct l. Qed.

Lemma consumed_fresh b l : sub_consumed (freshSubstring b l) = 0.
Proof. unfold sub_consumed. destruct l; simpl; lia. Qed.

(** ** Function pointers *)

Create HintDb segmented.

Lemma Core_cong s s' :
  m_currentString s' = m_currentString s -> m_substrings s' = m_substrings s ->
  m_pushedChar1 s' = m_pushedChar1 s -> m_pushedChar2 s' = m_pushedChar2 s ->
  Core s -> Core s'.
Proof. intros E1 E2 E3 E4 [? ? ? ?]. split; rewrite ?E1, ?E2, ?E3, ?E4; auto. Qed.

Lemma updateSlow_cached s :
  m_pushedChar1 s <> 0 \/ (m_length (m_currentString s) <= 1)%nat ->
  Cached (updateSlowCaseFunctionPointers s).
Proof. intros H. split; simpl; done. Qed.

Lemma updateAdvance_cached s : Cached (updateAdvanceFunctionPointers s).
Proof.
  unfold updateAdvanceFunctionPointers.
  destruct (Nat.ltb_spec 1 (m_length (m_currentString s))) as [Hl|Hl];
    destruct (Z.eqb_spec (m_pushedChar1 s) 0) as [Hp|Hp]; simpl;
    [|apply updateSlow_cached; repeat (split_if; simpl); auto ..].
  destruct (m_is8Bit _), (m_doNotExcludeLineNumbers _); split; simpl;
    unfold fast_ok; simpl; done.
Qed.

(** [updateAdvanceFunctionPointers] only touches the cached values. *)
Lemma updateAdvance_fields s :
  let s' := updateAdvanceFunctionPointers s in
  m_currentString s' = m_currentString s /\ m_substrings s' = m_substrings s /\
  m_pushedChar1 s' = m_pushedChar1 s /\ m_pushedChar2 s' = m_pushedChar2 s /\
  m_currentChar s' = m_currentChar s /\ m_empty s' = m_empty s /\
  m_closed s' = m_closed s /\
  m_numberOfCharactersConsumedPriorToCurrentString s' =
    m_numberOfCharactersConsumedPriorToCurrentString s /\
  m_currentLine s' = m_currentLine s /\
  m_numberOfCharactersConsumedPriorToCurrentLine s' =
    m_numberOfCharactersConsumedPriorToCurrentLine s.
Proof.
  unfold updateAdvanceFunctionPointers. cbv zeta.
  destruct (_ && (m_pushedChar1 s =? 0)); [|destruct (_ && _)];
    [destruct (m_is8Bit _), (m_doNotExcludeLineNumbers _)|..]; repeat split.
Qed.

Ltac advance_fields s :=
  let H := fresh in
  pose proof (updateAdvance_fields s) as H; cbv zeta in H;
  destruct H as (? & ? & ? & ? & ? & ? & ? & ? & ? & ?).

(** Equal data and equal counters give the same abstraction. *)
Lemma abs_cong s s' :
  m_currentString s' = m_currentString s -> m_substrings s' = m_substrings s ->
  m_pushedChar1 s' = m_pushedChar1 s -> m_pushedChar2 s' = m_pushedChar2 s ->
  m_closed s' = m_closed s ->
  m_numberOfCharactersConsumedPriorToCurrentString s' =
    m_numberOfCharactersConsumedPriorToCurrentString s ->
  abs s' = abs s.
Proof.
  intros E1 E2 E3 E4 E5 E6.
  unfold abs, pushedList, restList, seg_consumed. by rewrite E1, E2, E3, E4, E5, E6.
Qed.

Lemma abs_updateAdvance s : abs (updateAdvanceFunctionPointers s) = abs s.
Proof. advance_fields s. by apply abs_cong. Qed.

Lemma Core_updateAdvance s : Core s -> Core (updateAdvanceFunctionPointers s).
Proof. advance_fields s. by apply Core_cong. Qed.

(** ** The current character *)

Lemma firstChar_abs s : Core s -> firstChar s = Stream.currentChar (abs s).
Proof.
  intros [Hc Hs Hcomp Hp]. unfold firstChar, Stream.currentChar, Stream.chars, abs,
    pushedList, restList. simpl.
  destruct (Z.eqb_spec (m_pushedChar1 s) 0); [simpl|done].
  destruct (Nat.eqb_spec (m_length (m_currentString s)) 0) as [E|E].
  - rewrite appendTo_nil by done. by rewrite Hcomp.
  - rewrite getCurrentChar_ok by (done || lia). symmetry. apply headz_app.
    intros E'. apply (f_equal length) in E'. rewrite length_appendTo in E' by done.
    simpl in E'. lia.
Qed.

Lemma wf_currentChar s : WellFormed s -> m_currentChar s = Stream.currentChar (abs s).
Proof. intros H. rewrite (wf_char _ H). apply firstChar_abs, H. Qed.

Lemma wf_isEmpty s : WellFormed s -> m_empty s = Stream.isEmpty (abs s).
Proof.
  intros [[Hc Hs Hcomp Hp] _ He _]. rewrite He. unfold Stream.isEmpty, abs, restList. simpl.
  pose proof (length_appendTo _ Hc) as HL.
  destruct (Nat.eqb_spec (m_length (m_currentString s)) 0) as [E|E].
  - rewrite appendTo_nil by done. by rewrite Hcomp.
  - destruct (appendTo (m_currentString s)); simpl in *; [lia|done].
Qed.

Lemma length_concat_subs l :
  Forall (fun x => sub_ok x /\ (0 < m_length x)%nat) l ->
  length (concat (map appendTo l)) = foldr (fun sub n => (m_length sub + n)%nat) 0%nat l.
Proof.
  induction 1 as [|x l [Hx _] _ IH]; simpl; [done|].
  by rewrite length_app, IH, length_appendTo.
Qed.

Lemma wf_length s : WellFormed s -> seg_length s = length (Stream.chars (abs s)).
Proof.
  intros [[Hc Hs Hcomp Hp] _ _ _].
  unfold seg_length, Stream.chars, abs, pushedList, restList. simpl.
  rewrite !length_app, length_appendTo, length_concat_subs by done.
  destruct (m_pushedChar1 s =? 0); [simpl; lia|].
  destruct (m_pushedChar2 s =? 0); simpl; lia.
Qed.

(** The buffer prints as what its abstraction holds. *)
Lemma toString_abs s : seg_toString s = Stream.chars (abs s).
Proof.
  unfold seg_toString, Stream.chars, abs, pushedList, restList. simpl.
  by destruct (m_pushedChar1 s =? 0).
Qed.

(** ** Advancing *)

Lemma func_ok_fast f s s' : func_ok f s -> fast_ok s -> fast_ok s' -> func_ok f s'.
Proof. unfold func_ok, fast_ok. destruct f; intuition lia. Qed.

(** What every fast path does: one step of the pointer, and the slow functions
    installed when one character is left. *)
Lemma fast_step s s' :
  WellFormed s -> fast_ok s ->
  m_currentString s' = incrementPtr (decrementLength (m_currentString s)) ->
  m_substrings s' = m_substrings s ->
  m_pushedChar1 s' = m_pushedChar1 s -> m_pushedChar2 s' = m_pushedChar2 s ->
  m_closed s' = m_closed s -> m_empty s' = m_empty s ->
  m_numberOfCharactersConsumedPriorToCurrentString s' =
    m_numberOfCharactersConsumedPriorToCurrentString s ->
  m_currentChar s' = derefPtr (m_currentString s') ->
  m_fastPathFlags s' =
    (if (m_length (m_currentString s') =? 1)%nat then NoFastPath else m_fastPathFlags s) ->
  m_advanceFunc s' =
    (if (m_length (m_currentString s') =? 1)%nat then advanceSlowCaseF else m_advanceFunc s) ->
  m_advanceAndUpdateLineNumberFunc s' =
    (if (m_length (m_currentString s') =? 1)%nat then advanceAndUpdateLineNumberSlowCaseF
     else m_advanceAndUpdateLineNumberFunc s) ->
  WellFormed s' /\ abs s' = Stream.advance (abs s).
Proof.
  intros [[Hc Hs Hcomp Hp] [Hfl Hfn Hln] He Hch] [Hp1 Hl] E1 E2 E3 E4 E5 E6 E7 E8 E9 E10 E11.
  destruct (step_sub _ Hc Hl) as (Hok & Happ & Hlen & Hcons).
  assert (HC : Core s').
  { split; rewrite ?E1, ?E2, ?E3, ?E4; auto. rewrite Hlen. lia. }
  split.
  - split; [done| | |].
    + rewrite E1, Hlen in E9, E10, E11.
      destruct (Nat.eqb_spec (pred (m_length (m_currentString s))) 1) as [E|E].
      * split; rewrite ?E9, ?E10, ?E11; simpl; try done; right; rewrite E1, Hlen; lia.
      * assert (Hf : fast_ok s').
        { split; [congruence|]. rewrite E1, Hlen. lia. }
        assert (Hf0 : fast_ok s) by done.
        split; rewrite ?E9, ?E10, ?E11; eauto using func_ok_fast.
    + rewrite E6, He, E1, Hlen.
      destruct (Nat.eqb_spec (m_length (m_currentString s)) 0);
        destruct (Nat.eqb_spec (pred (m_length (m_currentString s))) 0); done || lia.
    + unfold firstChar. rewrite E3, Hp1. simpl.
      destruct (Nat.eqb_spec (m_length (m_currentString s')) 0) as [E|E]; [|by rewrite E8].
      rewrite E1, Hlen in E. lia.
  - unfold abs, Stream.advance, pushedList, restList, seg_consumed.
    rewrite E1, E2, E3, E5, E7, Hp1, Happ, Hcons. simpl.
    pose proof (length_appendTo _ Hc) as HL.
    destruct (appendTo (m_currentString s)) as [|c l]; simpl in *; [lia|].
    f_equal. lia.
Qed.

(** The shared tail of [advance8], [advance16] and the line counting variants. *)
Lemma decrement_increment s s0 :
  WellFormed s -> fast_ok s ->
  (s0 = s \/ s0 = noteNewline s) ->
  let s' := incrementAndGetCurrentChar (decrementAndCheckLength s0) in
  WellFormed s' /\ abs s' = Stream.advance (abs s).
Proof.
  intros H Hf Hs0 s'. apply fast_step; try done; subst s'; unfold decrementAndCheckLength;
    destruct Hs0; subst s0; simpl;
    destruct (Init.Nat.pred (m_length (m_currentString s)) =? 1)%nat eqn:E; simpl;
    rewrite ?E; reflexivity.
Qed.

(** Consuming a pushed-back character. *)
Lemma pop_pushed s :
  WellFormed s -> m_pushedChar1 s <> 0 ->
  let s1 := set_pushed (m_pushedChar2 s) 0 s in
  let s' := if negb (m_pushedChar1 s1 =? 0) then set_currentChar (m_pushedChar1 s1) s1
            else reloadCurrentChar (updateAdvanceFunctionPointers s1) in
  WellFormed s' /\ abs s' = Stream.advance (abs s).
Proof.
  intros [[Hc Hs Hcomp Hp] [Hfl Hfn Hln] He Hch] Hp1 s1 s'. subst s'.
  assert (HC : Core s1) by (split; simpl; auto).
  assert (Habs : forall s2, abs s2 = abs s1 -> abs s2 = Stream.advance (abs s)).
  { intros s2 ->. unfold abs, Stream.advance, pushedList, restList, seg_consumed. simpl.
    destruct (Z.eqb_spec (m_pushedChar1 s) 0); [done|].
    destruct (Z.eqb_spec (m_pushedChar2 s) 0); simpl; f_equal; lia. }
  simpl. destruct (Z.eqb_spec (m_pushedChar2 s) 0) as [E|E]; simpl.
  - advance_fields s1. split.
    + split.
      * eapply Core_cong; [..|exact HC]; simpl; done.
      * destruct (updateAdvance_cached s1) as [C1 C2 C3]. split; simpl; done.
      * simpl. by rewrite H4, H.
      * unfold firstChar. simpl. rewrite H1, H. change (m_pushedChar1 s1) with (m_pushedChar2 s).
        by rewrite E.
    + apply Habs. apply abs_cong; simpl; done.
  - split.
    + split; simpl; auto.
      * eapply Core_cong; [..|exact HC]; done.
      * assert (Hn : forall P : Prop, fast_ok s -> P) by (intros P [? _]; done).
        split; simpl.
        -- intros Hx. by apply Hn, Hfl.
        -- destruct (m_advanceFunc s); simpl in *; eauto; by destruct Hfn.
        -- destruct (m_advanceAndUpdateLineNumberFunc s); simpl in *; eauto;
             try by destruct Hln.
      * unfold firstChar. simpl. destruct (Z.eqb_spec (m_pushedChar2 s) 0); done.
    + apply Habs. by apply abs_cong.
Qed.

(** Reading the last character of the current substring. *)
Lemma pop_last s s0 :
  WellFormed s -> m_pushedChar1 s = 0 -> m_length (m_currentString s) = 1%nat ->
  (s0 = s \/ s0 = noteNewline s) ->
  let s' := reloadCurrentChar
              (advanceSubstring (set_currentString (decrementLength (m_currentString s0)) s0)) in
  WellFormed s' /\ abs s' = Stream.advance (abs s).
Proof.
  intros [[Hc Hs Hcomp Hp] _ He Hch] Hp1 Hl Hs0 s'. subst s'.
  destruct (last_sub _ Hc Hl) as (Hok & Htl & Hcons).
  assert (Hhd : exists c, appendTo (m_currentString s) = [c]).
  { pose proof (length_appendTo _ Hc) as HL. rewrite Hl in HL.
    destruct (appendTo (m_currentString s)) as [|c [|d l]]; simpl in HL; try lia. eauto. }
  destruct Hhd as [c Hhd].
  assert (Habs : Stream.advance (abs s) =
    mkStream [] (concat (map appendTo (m_substrings s))) (seg_consumed s + 1) (m_closed s)).
  { unfold abs, Stream.advance, pushedList, restList. rewrite Hp1, Hhd. done. }
  rewrite Habs. unfold seg_consumed. rewrite Hp1. simpl.
  set (s1 := set_currentString _ s0).
  assert (E2 : m_substrings s1 = m_substrings s) by (subst s1; by destruct Hs0; subst s0).
  unfold advanceSubstring. rewrite E2. clear E2.
  destruct (m_substrings s) as [|sub subs] eqn:Esubs.
  - split.
    + split; [split|split| |]; subst s1; destruct Hs0; subst s0; simpl; auto;
        try (rewrite Esubs; constructor); try lia; try done;
        try (split; simpl; [lia|lia]).
      all: unfold firstChar; simpl; by rewrite Hp1.
    + unfold abs, pushedList, restList, seg_consumed, sub_consumed, appendTo.
      subst s1; destruct Hs0; subst s0; simpl; rewrite Hp1, Esubs; simpl;
        (f_equal; [|unfold sub_consumed; rewrite Hl; lia]);
        rewrite Nat.sub_0_r; by destruct (length _ =? 0)%nat.
  - apply Forall_cons_1 in Hs as [[Hsub Hlen] Hsubs].
    match goal with |- context [updateAdvanceFunctionPointers ?x] => set (s2 := x) end.
    assert (HC : Core s2).
    { subst s2 s1; destruct Hs0; subst s0; split; simpl; auto; lia. }
    assert (HP : m_pushedChar1 s2 = 0) by (subst s2 s1; by destruct Hs0; subst s0).
    assert (HE : m_empty s2 = false).
    { subst s2 s1; destruct Hs0; subst s0; simpl; rewrite He, Hl; done. }
    advance_fields s2. split.
    + split.
      * eapply Core_cong; [..|exact HC]; simpl; done.
      * destruct (updateAdvance_cached s2) as [C1 C2 C3]. split; simpl; done.
      * simpl. rewrite H4, H, HE. destruct HC as [_ _ HC' _].
        subst s2; simpl. destruct (Nat.eqb_spec (m_length sub) 0); [lia|done].
      * unfold firstChar. simpl. by rewrite H1, H, HP.
    + transitivity (abs (updateAdvanceFunctionPointers s2)); [by apply abs_cong|].
      rewrite abs_updateAdvance.
      unfold abs, pushedList, restList, seg_consumed. rewrite HP.
      subst s2 s1; destruct Hs0; subst s0; simpl; f_equal; rewrite Hcons; lia.
Qed.

(** Reading when nothing is left. *)
Lemma advance_nothing s s' :
  WellFormed s -> m_pushedChar1 s = 0 -> m_length (m_currentString s) = 0%nat ->
  (s' = advanceEmpty s \/ s' = reloadCurrentChar (becomeEmpty s)) ->
  WellFormed s' /\ abs s' = Stream.advance (abs s).
Proof.
  intros [[Hc Hs Hcomp Hp] [Hfl Hfn Hln] He Hch] Hp1 Hl Hs'.
  pose proof (appendTo_nil _ Hc Hl) as Ha.
  assert (Habs : Stream.advance (abs s) = abs s).
  { unfold abs, Stream.advance, pushedList, restList.
    rewrite Hp1, Ha, (Hcomp Hl). done. }
  rewrite Habs. destruct Hs' as [->| ->].
  - split; [|done]. split; [done..|]. unfold firstChar. simpl. by rewrite Hp1, Hl.
  - split.
    + split; [split|split| |]; simpl; auto; try done.
      * split; simpl; [lia|lia].
      * unfold firstChar. simpl. by rewrite Hp1.
    + unfold abs, pushedList, restList, seg_consumed. simpl. rewrite Ha, (Hcomp Hl), Hp1.
      f_equal; [|unfold sub_consumed; simpl; lia].
      unfold appendTo. simpl. rewrite Nat.sub_0_r. by destruct (length _ =? 0)%nat.
Qed.

Lemma advanceSlowCase_ok s :
  WellFormed s -> m_pushedChar1 s <> 0 \/ (m_length (m_currentString s) <= 1)%nat ->
  WellFormed (advanceSlowCase s) /\ abs (advanceSlowCase s) = Stream.advance (abs s).
Proof.
  intros H Hslow. unfold advanceSlowCase.
  destruct (Z.eqb_spec (m_pushedChar1 s) 0) as [Hp|Hp]; [cbn [negb]|by apply pop_pushed].
  destruct (Nat.eqb_spec (m_length (m_currentString s)) 0) as [Hl|Hl]; cbn [negb].
  - replace (isComposite s) with false; [apply advance_nothing; auto|].
    unfold isComposite. destruct H as [[_ _ Hc _] _ _ _]. by rewrite Hc.
  - assert (Hl1 : m_length (m_currentString s) = 1%nat) by (destruct Hslow; [done|lia]).
    cbv zeta. cbn [set_currentString m_currentString]. simpl (m_length (decrementLength _)).
    rewrite Hl1. apply pop_last; auto.
Qed.

Lemma advanceLineSlowCase_ok s :
  WellFormed s -> m_pushedChar1 s <> 0 \/ (m_length (m_currentString s) <= 1)%nat ->
  WellFormed (advanceAndUpdateLineNumberSlowCase s) /\
  abs (advanceAndUpdateLineNumberSlowCase s) = Stream.advance (abs s).
Proof.
  intros H Hslow. unfold advanceAndUpdateLineNumberSlowCase.
  destruct (Z.eqb_spec (m_pushedChar1 s) 0) as [Hp|Hp]; [cbn [negb]|by apply pop_pushed].
  destruct (Nat.eqb_spec (m_length (m_currentString s)) 0) as [Hl|Hl]; cbn [negb].
  - replace (isComposite s) with false; [apply advance_nothing; auto|].
    unfold isComposite. destruct H as [[_ _ Hc _] _ _ _]. by rewrite Hc.
  - cbv zeta.
    match goal with |- context [if ?b then noteNewline s else s] =>
      set (s0 := if b then noteNewline s else s) end.
    assert (Hs0 : s0 = s \/ s0 = noteNewline s) by (subst s0; split_if; auto).
    clearbody s0.
    assert (E : m_length (m_currentString
      (set_currentString (decrementLength (m_currentString s0)) s0)) =
      pred (m_length (m_currentString s))) by (by destruct Hs0; subst s0).
    rewrite E. clear E.
    destruct (Nat.eqb_spec (pred (m_length (m_currentString s))) 0) as [E|E].
    + apply pop_last; auto; lia.
    + destruct Hslow; [done|lia].
Qed.

Lemma callAdvanceFunc_ok f s :
  WellFormed s -> func_ok f s ->
  WellFormed (callAdvanceFunc f s) /\ abs (callAdvanceFunc f s) = Stream.advance (abs s).
Proof.
  intros H Hf. destruct f; simpl in *.
  - destruct Hf. apply advance_nothing; auto.
  - apply decrement_increment; auto.
  - apply decrement_increment; auto.
  - by apply advanceSlowCase_ok.
  - apply decrement_increment; auto. split_if; auto.
  - apply decrement_increment; auto. split_if; auto.
  - by apply advanceLineSlowCase_ok.
Qed.

(** [advance()]: the inline 8-bit path, the function pointer and the slow case
    all drop exactly the first remaining character. *)
Lemma advance_ok s :
  WellFormed s ->
  WellFormed (seg_advance s) /\ abs (seg_advance s) = Stream.advance (abs s).
Proof.
  intros H. unfold seg_advance.
  destruct (Use8BitAdvance (m_fastPathFlags s)) eqn:Efl.
  - pose proof (cached_flags _ (wf_cached _ H) Efl) as Hf. cbv zeta.
    apply fast_step; try done; simpl;
      destruct (Init.Nat.pred (m_length (m_currentString s)) =? 1)%nat eqn:E; simpl;
      rewrite ?E; reflexivity.
  - apply callAdvanceFunc_ok; [done|apply H].
Qed.

Lemma advanceLine_ok s :
  WellFormed s ->
  WellFormed (seg_advanceAndUpdateLineNumber s) /\
  abs (seg_advanceAndUpdateLineNumber s) = Stream.advance (abs s).
Proof.
  intros H. unfold seg_advanceAndUpdateLineNumber.
  destruct (Use8BitAdvance (m_fastPathFlags s)) eqn:Efl.
  - pose proof (cached_flags _ (wf_cached _ H) Efl) as Hf. cbv zeta.
    apply fast_step; try done; simpl;
      destruct (Init.Nat.pred (m_length (m_currentString s)) =? 1)%nat eqn:E;
      destruct (_ && _); simpl; rewrite ?E; reflexivity.
  - apply callAdvanceFunc_ok; [done|apply H].
Qed.

Lemma advanceNewline_ok s :
  WellFormed s ->
  WellFormed (seg_advancePastNewlineAndUpdateLineNumber s) /\
  abs (seg_advancePastNewlineAndUpdateLineNumber s) = Stream.advance (abs s).
Proof.
  intros H. unfold seg_advancePastNewlineAndUpdateLineNumber.
  destruct (Z.eqb_spec (m_pushedChar1 s) 0) as [Hp|Hp];
    destruct (Nat.ltb_spec 1 (m_length (m_currentString s))) as [Hl|Hl]; cbn [andb];
    try (apply advanceLineSlowCase_ok; auto; lia).
  apply decrement_increment; [done|done|]. split_if; auto.
Qed.

Lemma advanceBy_ok n s :
  WellFormed s ->
  fst (seg_advanceBy n s) = fst (Stream.advanceBy n (abs s)) /\
  WellFormed (snd (seg_advanceBy n s)) /\
  abs (snd (seg_advanceBy n s)) = snd (Stream.advanceBy n (abs s)).
Proof.
  revert s; induction n as [|n IH]; intros s H; [done|]. simpl.
  destruct (advance_ok s H) as [H1 H2]. destruct (IH _ H1) as (I1 & I2 & I3).
  rewrite H2 in I1, I3.
  destruct (seg_advanceBy n (seg_advance s)), (Stream.advanceBy n _). simpl in *.
  rewrite I1, (wf_currentChar _ H). done.
Qed.

(** ** Adding input *)

(** The invariant without the cached current character, which [append] and
    [prepend] only restore at the end. *)
Definition PreWF (s : SegmentedString) : Prop :=
  Core s /\ Cached s /\ m_empty s = (m_length (m_currentString s) =? 0)%nat.

Lemma PreWF_of s : WellFormed s -> PreWF s.
Proof. intros [? ? ? ?]. done. Qed.

Lemma PreWF_reload s :
  PreWF s -> WellFormed (set_currentChar (firstChar s) s) /\
             abs (set_currentChar (firstChar s) s) = abs s.
Proof.
  intros (HC & [C1 C2 C3] & HE). split; [|done].
  split; [|split|..]; simpl; try done. eapply Core_cong; [..|exact HC]; done.
Qed.

(** A fresh substring becomes the current one. *)
Lemma install_sub sub s s1 :
  PreWF s -> sub_ok sub -> (0 < m_length sub)%nat ->
  m_currentString s1 = sub -> m_pushedChar1 s1 = m_pushedChar1 s ->
  m_pushedChar2 s1 = m_pushedChar2 s ->
  Forall (fun x => sub_ok x /\ (0 < m_length x)%nat) (m_substrings s1) ->
  PreWF (set_empty false (updateAdvanceFunctionPointers s1)).
Proof.
  intros ([Hc Hs Hcomp Hp] & _ & _) Hsub Hlen E1 E2 E3 Hsubs.
  advance_fields s1.
  destruct (updateAdvance_cached s1) as [C1 C2 C3].
  split; [split|split; [split|]]; simpl; try done.
  - by rewrite H, E1.
  - by rewrite H0.
  - rewrite H, E1. lia.
  - rewrite H1, H2, E2, E3. done.
  - rewrite H, E1. destruct (Nat.eqb_spec (m_length sub) 0); [lia|done].
Qed.

Lemma prependSub_ok sub s :
  PreWF s -> sub_ok sub -> sub_consumed sub = 0 ->
  PreWF (prependSub sub s) /\
  abs (prependSub sub s) = Stream.prependString (appendTo sub) (abs s).
Proof.
  intros H Hsub Hc0. unfold prependSub.
  pose proof H as ([Hc Hs Hcomp Hp] & HCa & HE).
  pose proof (length_appendTo _ Hsub) as HL.
  destruct (Nat.eqb_spec (m_length sub) 0) as [E|E].
  { rewrite (appendTo_nil _ Hsub E). split; [done|]. unfold Stream.prependString, abs. simpl.
    f_equal. lia. }
  assert (Habs : forall s2,
    m_currentString s2 = sub -> m_pushedChar1 s2 = m_pushedChar1 s ->
    m_pushedChar2 s2 = m_pushedChar2 s -> m_closed s2 = m_closed s ->
    concat (map appendTo (m_substrings s2)) = restList s ->
    m_numberOfCharactersConsumedPriorToCurrentString s2 =
      m_numberOfCharactersConsumedPriorToCurrentString s
      + sub_consumed (m_currentString s) - Z.of_nat (m_length sub) ->
    abs (set_empty false (updateAdvanceFunctionPointers s2)) =
    Stream.prependString (appendTo sub) (abs s)).
  { intros s2 F1 F2 F3 F4 F5 F6.
    transitivity (abs (updateAdvanceFunctionPointers s2)); [by apply abs_cong|].
    rewrite abs_updateAdvance. unfold abs, Stream.prependString, pushedList, seg_consumed.
    simpl. rewrite F1, F2, F3, F4, F6. f_equal.
    - unfold restList at 1. by rewrite F1, F5.
    - lia. }
  cbn [set_priorToString m_currentString].
  destruct (Nat.eqb_spec (m_length (m_currentString s)) 0) as [E0|E0]; split.
  - apply (install_sub sub s); simpl; try done; lia.
  - apply Habs; simpl; try done. unfold restList.
    by rewrite (appendTo_nil _ Hc E0), (Hcomp E0).
  - apply (install_sub sub s); simpl; try done; try lia.
    constructor; [|done]. split; [done|lia].
  - by apply Habs.
Qed.

Lemma appendSub_ok sub s :
  PreWF s -> sub_ok sub ->
  sub_consumed sub = 0 \/ m_length (m_currentString s) <> 0%nat ->
  PreWF (appendSub sub s) /\ abs (appendSub sub s) = Stream.append (appendTo sub) (abs s).
Proof.
  intros H Hsub Hc0. unfold appendSub.
  pose proof H as ([Hc Hs Hcomp Hp] & HCa & HE).
  destruct (Nat.eqb_spec (m_length sub) 0) as [E|E].
  { rewrite (appendTo_nil _ Hsub E). split; [done|]. unfold Stream.append, abs. simpl.
    by rewrite app_nil_r. }
  destruct (Nat.eqb_spec (m_length (m_currentString s)) 0) as [E0|E0]; split.
  - apply (install_sub sub s); simpl; try done; lia.
  - match goal with |- abs (set_empty false (updateAdvanceFunctionPointers ?x)) = _ =>
      transitivity (abs (updateAdvanceFunctionPointers x)); [by apply abs_cong|] end.
    rewrite abs_updateAdvance. unfold abs, Stream.append, pushedList, seg_consumed, restList.
    simpl. rewrite (appendTo_nil _ Hc E0), (Hcomp E0). simpl. rewrite app_nil_r.
    destruct Hc0; [|done]. f_equal. lia.
  - destruct HCa as [C1 C2 C3].
    split; [split|split; [split|]]; simpl; try done.
    + apply Forall_app. split; [done|]. constructor; [|done]. split; [done|lia].
    + rewrite <- HE in *. destruct (Nat.eqb_spec (m_length (m_currentString s)) 0); done.
  - unfold abs, Stream.append, restList, pushedList, seg_consumed. simpl.
    rewrite map_app, concat_app. simpl. by rewrite app_nil_r, app_assoc.
Qed.

(** [push]. *)
Lemma push_ok c s :
  WellFormed s -> (length (pushedList s) <= 1)%nat -> c <> 0 ->
  WellFormed (seg_push c s) /\ abs (seg_push c s) = Stream.push c (abs s).
Proof.
  intros [[Hc Hs Hcomp Hp] [C1 C2 C3] HE Hch] Hlen Hc0. unfold seg_push.
  unfold pushedList in Hlen.
  destruct (Z.eqb_spec (m_pushedChar1 s) 0) as [E|E].
  - split.
    + split; [split|apply updateSlow_cached; simpl; by left|..]; simpl; try done.
      unfold firstChar. simpl. destruct (Z.eqb_spec c 0); done.
    + unfold abs, Stream.push, pushedList, restList, seg_consumed. simpl.
      rewrite E, (Hp E). destruct (Z.eqb_spec c 0); [done|]. simpl. f_equal. lia.
  - destruct (Z.eqb_spec (m_pushedChar2 s) 0) as [E2|E2]; [|simpl in Hlen; lia].
    split.
    + split; [split|split|..]; simpl; try done.
    + unfold abs, Stream.push, pushedList, restList, seg_consumed. simpl.
      destruct (Z.eqb_spec (m_pushedChar1 s) 0); [done|].
      destruct (Z.eqb_spec c 0); [done|]. rewrite E2. simpl. f_equal. lia.
Qed.

(** ** Construction *)

Lemma wf_emptySegmented : WellFormed emptySegmented.
Proof.
  split; [split|split|..]; simpl; try done.
  split; simpl; lia.
Qed.

Lemma ofString_ok b l : WellFormed (ofString b l) /\ abs (ofString b l) = Stream.of_chars l.
Proof.
  unfold ofString.
  match goal with |- context [updateAdvanceFunctionPointers ?x] => set (s1 := x) end.
  assert (HC : Core s1) by (split; simpl; try done; apply freshSubstring_ok).
  split.
  - advance_fields s1. split.
    + by apply Core_updateAdvance.
    + apply updateAdvance_cached.
    + rewrite H4, H. simpl. by rewrite m_length_fresh.
    + unfold firstChar. rewrite H1, H, H3. simpl. done.
  - rewrite abs_updateAdvance. unfold abs, pushedList, restList, seg_consumed. simpl.
    rewrite appendTo_fresh, consumed_fresh, app_nil_r. done.
Qed.

Lemma prependString_ok b l s :
  WellFormed s ->
  WellFormed (seg_prepend (ofString b l) s) /\
  abs (seg_prepend (ofString b l) s) = Stream.prependString l (abs s).
Proof.
  intros H. unfold seg_prepend.
  assert (E : m_substrings (ofString b l) = [] /\
              m_currentString (ofString b l) = freshSubstring b l).
  { unfold ofString. match goal with |- context [updateAdvanceFunctionPointers ?x] =>
      advance_fields x end. by rewrite H0, H1. }
  destruct E as [-> ->]. simpl.
  destruct (prependSub_ok (freshSubstring b l) s) as [H1 H2];
    [by apply PreWF_of|apply freshSubstring_ok|apply consumed_fresh|].
  destruct (PreWF_reload _ H1) as [H3 H4].
  split; [done|]. by rewrite H4, H2, appendTo_fresh.
Qed.

Lemma append_ok b l s :
  WellFormed s ->
  WellFormed (seg_append (ofString b l) s) /\
  abs (seg_append (ofString b l) s) = Stream.append l (abs s).
Proof.
  intros Hw. unfold seg_append.
  assert (E : m_substrings (ofString b l) = [] /\
              m_currentString (ofString b l) = freshSubstring b l).
  { unfold ofString. match goal with |- context [updateAdvanceFunctionPointers ?x] =>
      pose proof (updateAdvance_fields x) as F; cbv zeta in F;
      destruct F as (F1 & F2 & _) end. by rewrite F1, F2. }
  destruct E as [-> ->]. simpl.
  destruct (appendSub_ok (freshSubstring b l) s) as [H1 H2];
    [by apply PreWF_of|apply freshSubstring_ok|left; apply consumed_fresh|].
  destruct (PreWF_reload _ H1) as [H3 H4].
  split; [done|]. by rewrite H4, H2, appendTo_fresh.
Qed.

Lemma close_ok s : WellFormed s -> WellFormed (seg_close s) /\ abs (seg_close s) = Stream.close (abs s).
Proof.
  intros Hw. split; [|done]. destruct Hw as [HC [C1 C2 C3] HE Hch].
  split; [|split|..]; simpl; try done. eapply Core_cong; [..|exact HC]; done.
Qed.

(** [lookAhead] and [lookAheadIgnoringCase]: the comparison against the current
    substring agrees with the slow case, which reads ahead and puts back. *)
Lemma lookAhead_ok `{FoldCase} l cs s :
  WellFormed s ->
  fst (seg_lookAheadInline l cs s) = fst (Stream.lookAheadInline l cs (abs s)) /\
  WellFormed (snd (seg_lookAheadInline l cs s)) /\
  abs (snd (seg_lookAheadInline l cs s)) = snd (Stream.lookAheadInline l cs (abs s)).
Proof.
  intros Hwf. unfold seg_lookAheadInline, lookAheadSlowCase, Stream.lookAheadInline.
  rewrite (wf_length _ Hwf).
  destruct (Z.eqb_spec (m_pushedChar1 s) 0) as [Hp|Hp];
    destruct (Nat.leb_spec (length l) (m_length (m_currentString s))) as [Hl|Hl]; simpl;
    cycle 1.
  1, 2, 3: destruct (Nat.ltb_spec (length (Stream.chars (abs s))) (length l)); [done|];
    destruct (advanceBy_ok (length l) s Hwf) as (I1 & I2 & I3);
    destruct (seg_advanceBy (length l) s) as [u s1], (Stream.advanceBy (length l) (abs s)) as [v a1];
    simpl in *; subst; destruct (prependString_ok false v s1 I2) as [J1 J2]; done.
  pose proof Hwf as [[Hc _ _ _] _ _ _].
  assert (Hch : Stream.chars (abs s) = restList s).
  { unfold Stream.chars, abs, pushedList. by rewrite Hp. }
  assert (Htk : take (length l) (restList s) = currentSubString (m_currentString s) (length l)).
  { unfold restList, currentSubString. rewrite take_app_le by (rewrite length_appendTo; done).
    by rewrite appendTo_ok. }
  assert (Hle : (length l <= length (Stream.chars (abs s)))%nat).
  { rewrite Hch. unfold restList. rewrite length_app, length_appendTo by done. lia. }
  destruct (Nat.ltb_spec (length (Stream.chars (abs s))) (length l)); [lia|].
  destruct (StreamFacts.advanceBy_spec (length l) (abs s)) as (A1 & A2 & A3 & A4); [done|].
  destruct (Stream.advanceBy (length l) (abs s)) as [v a1] eqn:Ev. simpl in *. subst v.
  rewrite Hch, Htk. split; [done|]. split; [done|].
  rewrite <- Htk, <- Hch. unfold Stream.prependString. rewrite length_take, A3, A4.
  assert (Hpp : st_pushed a1 = []).
  { enough (forall n a, st_pushed a = [] -> st_pushed (snd (Stream.advanceBy n a)) = []) as Hn.
    { specialize (Hn (length l) (abs s)). rewrite Ev in Hn. apply Hn.
      unfold abs, pushedList. by rewrite Hp. }
    intros n. induction n as [|n IH]; intros a Ha; [done|]. simpl.
    specialize (IH (Stream.advance a)). destruct (Stream.advanceBy n (Stream.advance a)).
    apply IH. unfold Stream.advance. rewrite Ha. by destruct (st_rest a). }
  assert (Hpl : pushedList s = []) by (unfold pushedList; by rewrite Hp).
  unfold Stream.chars in *. simpl in *. rewrite Hpl, Hpp in *. simpl in *.
  unfold abs. rewrite Hpl, A2, take_drop. f_equal. lia.
Qed.

(** ** The interface is discharged *)

#[export] Instance segmented_refines `{FoldCase} : SourceRefines SegmentedString.
Proof.
  refine {| refines s a := WellFormed s /\ abs s = a |}.
  - intros s a [Hw <-]. by apply wf_isEmpty.
  - by intros s a [Hw <-].
  - intros s a [Hw <-]. by apply wf_currentChar.
  - intros s a [Hw <-]. by apply wf_length.
  - by intros s a [Hw <-].
  - intros s a [Hw <-]. by apply advance_ok.
  - intros s a [Hw <-]. by apply advanceLine_ok.
  - intros s a [Hw <-]. by apply advanceNewline_ok.
  - intros s a c [Hw <-] Hl Hc. by apply push_ok.
  - intros s a l [Hw <-] _. by apply prependString_ok.
  - intros s a l cs [Hw <-] _. destruct (lookAhead_ok l cs s Hw) as (? & ? & ?). done.
Defined.

#[export] Instance segmented_input_refines `{FoldCase} : InputRefines SegmentedString.
Proof.
  split.
  - intros s a b l [Hw <-]. by apply append_ok.
  - intros s a [Hw <-]. by apply close_ok.
Qed.
