(* ===== verification/SegmentedStringProps.v ===== *)
(** * Properties of [SegmentedString]

    Traces of client operations against the abstract stream, appended input,
    line and column tracking, and what copying a buffer preserves. *)
From S2P Require Import Prelude CharSource SegmentedString SegmentedStringRefinement.
From stdpp Require Import base list numbers option.
From Stdlib Require Import ZArith Lia.
#[local] Open Scope Z_scope.

(** ** Traces of operations *)

(** What the parser does to its input: the client operations of [CharSource],
    input arriving from the network, and the end of the input. *)
Inductive SourceOp : Type :=
| OpAdvance
| OpAdvanceLine
| OpAdvanceNewline
| OpPush (c : Z)
| OpPrepend (l : list Z)
| OpLookAhead (l : list Z) (caseSensitive : bool)
| OpAppend (is8Bit : bool) (l : list Z)
| OpClose.

Section Traces.
Context `{FoldCase}.

Definition seg_op (o : SourceOp) (s : SegmentedString) : SegmentedString :=
  match o with
  | OpAdvance => seg_advance s
  | OpAdvanceLine => seg_advanceAndUpdateLineNumber s
  | OpAdvanceNewline => seg_advancePastNewlineAndUpdateLineNumber s
  | OpPush c => seg_push c s
  | OpPrepend l => seg_prependString l s
  | OpLookAhead l cs => snd (seg_lookAheadInline l cs s)
  | OpAppend b l => seg_append (ofString b l) s
  | OpClose => seg_close s
  end.

Definition stream_op (o : SourceOp) (a : Stream) : Stream :=
  match o with
  | OpAdvance | OpAdvanceLine | OpAdvanceNewline => Stream.advance a
  | OpPush c => Stream.push c a
  | OpPrepend l => Stream.prependString l a
  | OpLookAhead l cs => snd (Stream.lookAheadInline l cs a)
  | OpAppend _ l => Stream.append l a
  | OpClose => Stream.close a
  end.

(** The [ASSERT]s of [push]: room for one more character, and not NUL. *)
Definition op_allowed (o : SourceOp) (a : Stream) : bool :=
  match o with
  | OpPush c => (length (st_pushed a) <=? 1)%nat && negb (c =? 0)
  | _ => true
  end.

Fixpoint ops_allowed (ops : list SourceOp) (a : Stream) : bool :=
  match ops with
  | [] => true
  | o :: ops => op_allowed o a && ops_allowed ops (stream_op o a)
  end.

Definition seg_run (ops : list SourceOp) (s : SegmentedString) : SegmentedString :=
  fold_left (fun s o => seg_op o s) ops s.

Definition stream_run (ops : list SourceOp) (a : Stream) : Stream :=
  fold_left (fun a o => stream_op o a) ops a.

Lemma op_refines o s :
  WellFormed s -> op_allowed o (abs s) = true ->
  WellFormed (seg_op o s) /\ abs (seg_op o s) = stream_op o (abs s).
Proof.
  intros Hw Ha. destruct o; simpl in *.
  - by apply advance_ok.
  - by apply advanceLine_ok.
  - by apply advanceNewline_ok.
  - apply andb_true_iff in Ha as [Ha1 Ha2].
    apply Nat.leb_le in Ha1. apply negb_true_iff, Z.eqb_neq in Ha2. by apply push_ok.
  - by apply prependString_ok.
  - destruct (lookAhead_ok l caseSensitive s Hw) as (_ & ? & ?). done.
  - by apply append_ok.
  - by apply close_ok.
Qed.

Lemma run_refines ops s :
  WellFormed s -> ops_allowed ops (abs s) = true ->
  WellFormed (seg_run ops s) /\ abs (seg_run ops s) = stream_run ops (abs s).
Proof.
  revert s; induction ops as [|o ops IH]; intros s Hw Ha; [done|].
  simpl in *. apply andb_true_iff in Ha as [Ha1 Ha2].
  destruct (op_refines o s Hw Ha1) as [H1 H2]. rewrite <- H2 in *.
  apply (IH (seg_op o s)); done.
Qed.

(** C11: after any sequence of operations that respects the
    assertions of [push], started from a string of either width, the buffer
    shows exactly what the abstract queue of characters shows: the same
    remaining text, current character, length, emptiness and position. *)
Theorem segmented_trace (b : bool) (l : list Z) (ops : list SourceOp)
  (Hops : ops_allowed ops (Stream.of_chars l) = true) :
  let s := seg_run ops (ofString b l) in
  let a := stream_run ops (Stream.of_chars l) in
  WellFormed s /\
  seg_toString s = Stream.chars a /\
  m_currentChar s = Stream.currentChar a /\
  seg_length s = length (Stream.chars a) /\
  m_empty s = Stream.isEmpty a /\
  seg_consumed s = st_consumed a /\
  m_closed s = st_closed a.
Proof.
  intros s a. destruct (ofString_ok b l) as [Hw Habs].
  destruct (run_refines ops (ofString b l) Hw) as [H1 H2]; [by rewrite Habs|].
  rewrite Habs in H2. fold s in H1, H2. fold a in H2.
  rewrite toString_abs, (wf_currentChar _ H1), (wf_length _ H1), (wf_isEmpty _ H1).
  change (seg_consumed s) with (st_consumed (abs s)).
  change (m_closed s) with (st_closed (abs s)). by rewrite H2.
Qed.

End Traces.

(** A character reference that is given up on: the two characters read are
    pushed back while the next chunk is already queued. *)
Lemma segmented_trace_witness :
  let s := @seg_run id [OpAppend false [8364; 33]; OpAdvance; OpAdvance; OpPush 97; OpPush 98;
                        OpAdvanceLine; OpLookAhead [98; 8364] true]
                    (ofString true [97; 98]) in
  seg_toString s = [98; 8364; 33] /\ m_currentChar s = 98.
Proof.
  destruct (@segmented_trace id true [97; 98]
    [OpAppend false [8364; 33]; OpAdvance; OpAdvance; OpPush 97; OpPush 98;
     OpAdvanceLine; OpLookAhead [98; 8364] true] eq_refl) as (_ & H1 & H2 & _).
  split; [exact H1|exact H2].
Defined.

(** ** Lines and columns *)

(** The reference position: a newline starts a new line at column 0. *)
Definition pos_step (p : Z * Z) (c : Z) : Z * Z :=
  if c =? 10 then (fst p + 1, 0) else (fst p, snd p + 1).

Definition position (s : SegmentedString) : Z * Z := (m_currentLine s, currentColumn s).

(** The line counting function and flag agree with the current substring, and
    no substring is excluded from line counting. *)
Record LineOK (s : SegmentedString) : Prop := mkLineOK {
  line_cur : m_doNotExcludeLineNumbers (m_currentString s) = true;
  line_subs : Forall (fun x => m_doNotExcludeLineNumbers x = true) (m_substrings s);
  line_flag : Use8BitAdvance (m_fastPathFlags s) = true ->
              Use8BitAdvanceAndUpdateLineNumbers (m_fastPathFlags s) = true;
  line_func : match m_advanceAndUpdateLineNumberFunc s with
              | advance8F | advance16F | advanceSlowCaseF => False
              | _ => True
              end;
}.

Lemma LineOK_updateAdvance s :
  m_doNotExcludeLineNumbers (m_currentString s) = true ->
  Forall (fun x => m_doNotExcludeLineNumbers x = true) (m_substrings s) ->
  LineOK (updateAdvanceFunctionPointers s).
Proof.
  intros H1 H2. pose proof (updateAdvance_fields s) as F. cbv zeta in F.
  destruct F as (F1 & F2 & _).
  split; rewrite ?F1, ?F2; try done; unfold updateAdvanceFunctionPointers;
    destruct (_ && (m_pushedChar1 s =? 0)); [|destruct (_ && _)| |destruct (_ && _)];
    rewrite ?H1; try destruct (m_is8Bit _); simpl; done.
Qed.

Lemma LineOK_cong s s' :
  m_doNotExcludeLineNumbers (m_currentString s') = true ->
  m_substrings s' = m_substrings s ->
  (m_fastPathFlags s' = m_fastPathFlags s \/ m_fastPathFlags s' = NoFastPath) ->
  (m_advanceAndUpdateLineNumberFunc s' = m_advanceAndUpdateLineNumberFunc s \/
   m_advanceAndUpdateLineNumberFunc s' = advanceAndUpdateLineNumberSlowCaseF \/
   m_advanceAndUpdateLineNumberFunc s' = advanceEmptyF) ->
  LineOK s -> LineOK s'.
Proof.
  intros E1 E2 E3 E4 [L1 L2 L3 L4]. split; rewrite ?E2; try done.
  - destruct E3 as [-> | ->]; done.
  - destruct E4 as [-> | [-> | ->]]; done.
Qed.

Definition lineInfo (s : SegmentedString) : Z * Z :=
  (m_currentLine s, m_numberOfCharactersConsumedPriorToCurrentLine s).

(** Every variant of the line counting advance notes a newline in the same way. *)
Lemma advanceLine_lineInfo s :
  WellFormed s -> LineOK s -> m_pushedChar1 s = 0 -> m_empty s = false ->
  LineOK (seg_advanceAndUpdateLineNumber s) /\
  lineInfo (seg_advanceAndUpdateLineNumber s) =
  (if m_currentChar s =? 10 then (m_currentLine s + 1, seg_consumed s + 1) else lineInfo s).
Proof.
  intros Hw HL Hp He. pose proof HL as [L1 L2 L3 L4].
  pose proof (wf_empty _ Hw) as Hlen. rewrite He in Hlen.
  symmetry in Hlen. apply Nat.eqb_neq in Hlen.
  pose proof (wf_char _ Hw) as Hch. unfold firstChar in Hch. rewrite Hp in Hch. simpl in Hch.
  destruct (Nat.eqb_spec (m_length (m_currentString s)) 0) as [|_]; [done|].
  unfold seg_advanceAndUpdateLineNumber, lineInfo.
  destruct (Use8BitAdvance (m_fastPathFlags s)) eqn:Efl.
  { rewrite (L3 eq_refl), andb_true_r. cbv zeta.
    destruct (m_currentChar s =? 10) eqn:E10;
      destruct (m_length _ =? 1)%nat eqn:E1; simpl; split; try done;
      try (eapply LineOK_cong; [..|exact HL]; simpl; auto; fail).
    all: unfold seg_consumed, sub_consumed; rewrite Hp; simpl; f_equal; lia. }
  pose proof (cached_line _ (wf_cached _ Hw)) as Hf.
  destruct (m_advanceAndUpdateLineNumberFunc s) eqn:Ef; simpl in Hf; try done.
  - destruct Hf; done.
  - simpl. unfold advanceAndUpdateLineNumber8, decrementAndCheckLength.
    destruct (m_currentChar s =? 10); simpl; destruct (_ =? 1)%nat; simpl; split; try done;
      eapply LineOK_cong; [..|exact HL]; simpl; rewrite ?Ef; auto.
  - simpl. unfold advanceAndUpdateLineNumber16, decrementAndCheckLength.
    destruct (m_currentChar s =? 10); simpl; destruct (_ =? 1)%nat; simpl; split; try done;
      eapply LineOK_cong; [..|exact HL]; simpl; rewrite ?Ef; auto.
  - assert (Hl1 : m_length (m_currentString s) = 1%nat) by (destruct Hf; [done|lia]).
    simpl. unfold advanceAndUpdateLineNumberSlowCase. rewrite Hp, Hl1. cbn [Z.eqb negb Nat.eqb].
    rewrite <- Hch, L1, andb_true_r. cbv zeta.
    set (s0 := if m_currentChar s =? 10 then noteNewline s else s).
    assert (Hs0 : m_substrings s0 = m_substrings s /\ m_currentString s0 = m_currentString s /\
      lineInfo s0 = (if m_currentChar s =? 10 then (m_currentLine s + 1, seg_consumed s + 1)
                     else lineInfo s)) by (subst s0; unfold lineInfo; by split_if).
    destruct Hs0 as (Hs1 & Hs2 & Hs3). cbn [set_currentString m_currentString].
    rewrite Hs2. simpl (m_length (decrementLength _)). rewrite Hl1. simpl (pred 1 =? 0)%nat.
    unfold lineInfo in Hs3. cbv iota. unfold advanceSubstring. cbn [set_currentString m_substrings].
    rewrite Hs1. destruct (m_substrings s) as [|sub subs] eqn:Es; simpl.
    + split; [split; simpl; try done; rewrite Hs1; constructor|done].
    + apply Forall_cons_1 in L2 as [L2a L2b].
      match goal with |- context [updateAdvanceFunctionPointers ?x] => set (s2 := x) end.
      pose proof (updateAdvance_fields s2) as F. cbv zeta in F.
      destruct F as (_ & _ & _ & _ & _ & _ & _ & _ & F9 & F10). simpl.
      rewrite F9, F10. split; [|exact Hs3].
      eapply LineOK_cong; [..|apply (LineOK_updateAdvance s2); done]; simpl; auto.
      by apply LineOK_updateAdvance.
Qed.

Lemma advanceLine_position s :
  WellFormed s -> LineOK s -> m_pushedChar1 s = 0 -> m_empty s = false ->
  position (seg_advanceAndUpdateLineNumber s) = pos_step (position s) (m_currentChar s).
Proof.
  intros Hw HL Hp He. destruct (advanceLine_lineInfo s Hw HL Hp He) as [_ Hl].
  destruct (advanceLine_ok s Hw) as [_ Ha].
  apply (f_equal st_consumed) in Ha. rewrite StreamFacts.consumed_advance in Ha.
  rewrite (wf_isEmpty _ Hw) in He. apply StreamFacts.isEmpty_false_chars in He.
  destruct (Nat.eqb_spec (length (Stream.chars (abs s))) 0) as [E|_];
    [by apply nil_length_inv in E|].
  simpl in Ha. unfold position, currentColumn, pos_step. rewrite Ha.
  unfold lineInfo in Hl. simpl. destruct (m_currentChar s =? 10);
    injection Hl as -> ->; f_equal; lia.
Qed.

Fixpoint readLines (n : nat) (s : SegmentedString) : SegmentedString :=
  match n with
  | O => s
  | S n' => readLines n' (seg_advanceAndUpdateLineNumber s)
  end.

(** Reading [n] characters with line counting moves the
    reported line and column exactly as a reference walk over those characters
    does, whichever mixture of 8-bit, 16-bit and slow paths reads them. *)
Theorem position_tracks_newlines (s : SegmentedString) (n : nat)
  (Hw : WellFormed s) (HL : LineOK s) (Hp : m_pushedChar1 s = 0)
  (Hn : (n <= seg_length s)%nat) :
  position (readLines n s) = fold_left pos_step (take n (seg_toString s)) (position s).
Proof.
  revert s Hw HL Hp Hn; induction n as [|n IH]; intros s Hw HL Hp Hn; [done|].
  rewrite toString_abs, (wf_length _ Hw) in *. simpl.
  destruct (advanceLine_ok s Hw) as [Hw' Ha].
  assert (Hpl : pushedList s = []) by (unfold pushedList; by rewrite Hp).
  assert (Hem : m_empty s = false).
  { rewrite (wf_isEmpty _ Hw). unfold Stream.chars in Hn. unfold Stream.isEmpty. simpl in *.
    rewrite Hpl in Hn. destruct (restList s); simpl in Hn; [lia|done]. }
  pose proof (advanceLine_position s Hw HL Hp Hem) as Hpos.
  destruct (advanceLine_lineInfo s Hw HL Hp Hem) as [HL' _].
  assert (Hp' : m_pushedChar1 (seg_advanceAndUpdateLineNumber s) = 0).
  { apply (f_equal st_pushed) in Ha. simpl in Ha. unfold pushedList at 1 in Ha.
    unfold Stream.advance in Ha. simpl in Ha. rewrite Hpl in Ha.
    destruct (Z.eqb_spec (m_pushedChar1 (seg_advanceAndUpdateLineNumber s)) 0); [done|].
    destruct (restList s); simpl in Ha; [rewrite Hpl in Ha|]; done. }
  rewrite IH; try done.
  - rewrite toString_abs, Ha, StreamFacts.chars_advance, Hpos, (wf_currentChar _ Hw).
    unfold Stream.currentChar. destruct (Stream.chars (abs s)); [simpl in Hn; lia|done].
  - rewrite (wf_length _ Hw'), Ha, StreamFacts.length_chars_advance. lia.
Qed.

Lemma position_tracks_newlines_witness :
  position (readLines 4 (ofString true [97; 10; 98; 99; 10])) = (1, 2).
Proof.
  rewrite (position_tracks_newlines (ofString true [97; 10; 98; 99; 10]) 4).
  - reflexivity.
  - apply ofString_ok.
  - split; simpl; try done.
  - reflexivity.
  - vm_compute. lia.
Defined.

(** ** Copies *)

(** A copy of a buffer (the copy constructor, [operator=]) reads like
    the original as long as at most one character is pushed back. *)
Theorem copy_faithful (s : SegmentedString)
  (Hw : WellFormed s) (Hp : m_pushedChar2 s = 0) :
  WellFormed (copyOf s) /\ copyOf s = s.
Proof.
  assert (E : copyOf s = s).
  { unfold copyOf. rewrite Hp. simpl.
    replace (if negb (m_pushedChar1 s =? 0) then _ else _) with (firstChar s).
    - rewrite <- (wf_char _ Hw). by destruct s.
    - unfold firstChar. by destruct (m_pushedChar1 s =? 0). }
  by rewrite E.
Qed.

Lemma copy_faithful_witness :
  copyOf (seg_push 97 (ofString false [98; 99])) = seg_push 97 (ofString false [98; 99]).
Proof.
  apply (copy_faithful (seg_push 97 (ofString false [98; 99]))); [|reflexivity].
  apply push_ok; [apply ofString_ok|vm_compute; lia|lia].
Defined.

(** With two pushed-back characters the copy starts at the
    second one: it reports it as the current character, and reading the copy
    yields it twice while the first one is lost. *)
Theorem copy_two_pushed (b : bool) (c d e : Z) (l : list Z)
  (Hc : c <> 0) (Hd : d <> 0) :
  let s := seg_push d (seg_push c (ofString b (e :: l))) in
  seg_toString s = c :: d :: e :: l /\
  m_currentChar s = c /\
  m_currentChar (copyOf s) = d /\
  fst (seg_advanceBy 2 (copyOf s)) = [d; d] /\
  fst (seg_advanceBy 2 s) = [c; d].
Proof.
  intros s.
  destruct (ofString_ok b (e :: l)) as [W0 A0].
  destruct (push_ok c (ofString b (e :: l))) as [W1 A1]; [done| |done|].
  { change (pushedList ?x) with (st_pushed (abs x)). rewrite A0. simpl. lia. }
  destruct (push_ok d (seg_push c (ofString b (e :: l)))) as [W2 A2]; [done| |done|].
  { change (pushedList ?x) with (st_pushed (abs x)). rewrite A1, A0. simpl. lia. }
  fold s in W2, A2. rewrite A1, A0 in A2.
  assert (P : m_pushedChar1 s = c /\ m_pushedChar2 s = d).
  { apply (f_equal st_pushed) in A2. simpl in A2. unfold pushedList in A2.
    destruct (m_pushedChar1 s =? 0); [done|]. destruct (m_pushedChar2 s =? 0); [done|].
    by injection A2 as -> ->. }
  destruct P as [P1 P2].
  assert (Hchar : m_currentChar (copyOf s) = d).
  { unfold copyOf. rewrite P2. by destruct (Z.eqb_spec d 0). }
  assert (Hf : m_fastPathFlags s = NoFastPath /\ m_advanceFunc s = advanceSlowCaseF).
  { subst s. unfold seg_push at 1 3.
    assert (m_pushedChar1 (seg_push c (ofString b (e :: l))) <> 0) as Hx.
    { intros E. apply (f_equal st_pushed) in A1. rewrite A0 in A1. simpl in A1.
      unfold pushedList in A1. rewrite E in A1. done. }
    destruct (Z.eqb_spec (m_pushedChar1 (seg_push c (ofString b (e :: l)))) 0); [done|].
    simpl. unfold seg_push.
    assert (m_pushedChar1 (ofString b (e :: l)) = 0) as ->; [|done].
    apply (f_equal st_pushed) in A0. simpl in A0. unfold pushedList in A0.
    by destruct (Z.eqb_spec (m_pushedChar1 (ofString b (e :: l))) 0). }
  destruct Hf as [Hf1 Hf2].
  rewrite toString_abs, A2. split; [done|].
  split; [by rewrite (wf_currentChar _ W2), A2|]. split; [done|]. split.
  - change (fst (seg_advanceBy 2 (copyOf s)))
      with [m_currentChar (copyOf s); m_currentChar (seg_advance (copyOf s))].
    rewrite Hchar. do 2 f_equal. unfold seg_advance, copyOf. simpl.
    rewrite Hf1, Hf2. simpl. unfold advanceSlowCase. simpl. rewrite P1, P2.
    destruct (Z.eqb_spec c 0); [done|]. simpl. by destruct (Z.eqb_spec d 0).
  - destruct (advanceBy_ok 2 s W2) as [H _]. rewrite H, A2. done.
Qed.

Lemma copy_two_pushed_witness :
  m_currentChar (copyOf (seg_push 109 (seg_push 97 (ofString true [112])))) = 109.
Proof.
  destruct (copy_two_pushed true 97 109 112 []) as (_ & _ & H & _); [lia|lia|exact H].
Defined.
