(* ===== verification/HTMLToken.v ===== *)
(** * [WebCore/html/parser/HTMLToken.h]

    The token under construction, owned by the parser and filled in by the
    tokenizer.  Every member function that starts with an [ASSERT] on the type
    of the token or on the character it is given ([ASSERT(character)]), or that
    goes through [m_currentAttribute] or [m_doctypeData], returns an [option]:
    [None] is a failed assertion or a null dereference.  Two assertions of
    [appendToAttributeValue] cannot be decided from the token alone and are
    recorded instead: [m_failedAssertions], which is no member of the class, is
    the list of those that have failed, and the function goes on as it does in a
    build without assertions.  [clear] leaves the tag and doctype members alone,
    as the code does. *)
From S2P Require Import Prelude.
From stdpp Require Import base list numbers option.
From Stdlib Require Import ZArith Lia.
#[local] Open Scope Z_scope.

Module HTMLToken.

(** ** Data *)

(** [HTMLToken::Type]. *)
Inductive Type_ : Type :=
| Uninitialized
| DOCTYPE
| StartTag
| EndTag
| Comment
| Character
| EndOfFile.

#[export] Instance Type_eq_dec : EqDecision Type_.
Proof. solve_decision. Defined.

(** [DoctypeData]. *)
Record DoctypeData : Type := mkDoctype {
  m_hasPublicIdentifier : bool;
  m_hasSystemIdentifier : bool;
  m_publicIdentifier : list Z;
  m_systemIdentifier : list Z;
  m_forceQuirks : bool;
}.

Definition emptyDoctype : DoctypeData := mkDoctype false false [] [] false.

(** [HTMLToken::Attribute] with its [Range]s; the ranges of a new attribute are
    zero, as in a debug build. *)
Record Range : Type := mkRange { start : Z; end_ : Z }.

Record Attribute : Type := mkAttribute {
  nameRange : Range;
  valueRange : Range;
  attr_name : list Z;
  attr_value : list Z;
}.

Definition emptyAttribute : Attribute := mkAttribute (mkRange 0 0) (mkRange 0 0) [] [].

(** The assertions that are recorded: [ASSERT(character)] for a character that a
    character reference stands for, and [ASSERT(m_currentAttribute->valueRange.start)]. *)
Inductive FailedAssertion : Type :=
| NullFromReference
| NoValueStart.

#[export] Instance FailedAssertion_eq_dec : EqDecision FailedAssertion.
Proof. solve_decision. Defined.

(** [m_currentAttribute] is the index of the attribute it points to. *)
Record HTMLToken : Type := mkToken {
  m_type : Type_;
  m_range : Range;
  m_baseOffset : Z;
  m_data : list Z;
  m_orAllData : Z;
  m_selfClosing : bool;
  m_attributes : list Attribute;
  m_currentAttribute : option nat;
  m_doctypeData : option DoctypeData;
  m_failedAssertions : list FailedAssertion;
}.

(** ** Basic operations *)

Definition clear (t : HTMLToken) : HTMLToken :=
  mkToken Uninitialized (mkRange 0 0) 0 [] 0
          (m_selfClosing t) (m_attributes t) (m_currentAttribute t) (m_doctypeData t)
          (m_failedAssertions t).

(** The constructor, with the members [clear] does not touch at their
    defaults. *)
Definition newToken : HTMLToken :=
  mkToken Uninitialized (mkRange 0 0) 0 [] 0 false [] None None [].

Definition isUninitialized (t : HTMLToken) : bool := bool_decide (m_type t = Uninitialized).

Definition set_type (ty : Type_) (t : HTMLToken) : HTMLToken :=
  mkToken ty (m_range t) (m_baseOffset t) (m_data t) (m_orAllData t)
          (m_selfClosing t) (m_attributes t) (m_currentAttribute t) (m_doctypeData t)
          (m_failedAssertions t).

Definition set_data (d : list Z) (o : Z) (t : HTMLToken) : HTMLToken :=
  mkToken (m_type t) (m_range t) (m_baseOffset t) d o
          (m_selfClosing t) (m_attributes t) (m_currentAttribute t) (m_doctypeData t)
          (m_failedAssertions t).

Definition set_doctype (d : option DoctypeData) (t : HTMLToken) : HTMLToken :=
  mkToken (m_type t) (m_range t) (m_baseOffset t) (m_data t) (m_orAllData t)
          (m_selfClosing t) (m_attributes t) (m_currentAttribute t) d (m_failedAssertions t).

Definition set_tag (sc : bool) (l : list Attribute) (cur : option nat) (t : HTMLToken)
  : HTMLToken :=
  mkToken (m_type t) (m_range t) (m_baseOffset t) (m_data t) (m_orAllData t)
          sc l cur (m_doctypeData t) (m_failedAssertions t).

(** An assertion that is recorded. *)
Definition record (b : bool) (a : FailedAssertion) (t : HTMLToken) : HTMLToken :=
  if b then t
  else mkToken (m_type t) (m_range t) (m_baseOffset t) (m_data t) (m_orAllData t)
               (m_selfClosing t) (m_attributes t) (m_currentAttribute t) (m_doctypeData t)
               (a :: m_failedAssertions t).

(** The condition of [ASSERT(character)]. *)
Definition notNull (c : Z) : bool := negb (c =? 0).

(** [m_data.append(character); m_orAllData |= character;] *)
Definition appendChar (c : Z) (t : HTMLToken) : HTMLToken :=
  set_data (m_data t ++ [c]) (Z.lor (m_orAllData t) c) t.

Definition isTag (t : HTMLToken) : bool :=
  match m_type t with StartTag | EndTag => true | _ => false end.

Definition hasType (ty : Type_) (t : HTMLToken) : bool := bool_decide (m_type t = ty).

Definition makeEndOfFile (t : HTMLToken) : option HTMLToken :=
  guard! hasType Uninitialized t in Some (set_type EndOfFile t).

Definition setBaseOffset (offset : Z) (t : HTMLToken) : HTMLToken :=
  mkToken (m_type t) (m_range t) offset (m_data t) (m_orAllData t)
          (m_selfClosing t) (m_attributes t) (m_currentAttribute t) (m_doctypeData t)
          (m_failedAssertions t).

Definition setEnd (endOffset : Z) (t : HTMLToken) : HTMLToken :=
  mkToken (m_type t) (mkRange (start (m_range t)) (endOffset - m_baseOffset t))
          (m_baseOffset t) (m_data t) (m_orAllData t)
          (m_selfClosing t) (m_attributes t) (m_currentAttribute t) (m_doctypeData t)
          (m_failedAssertions t).

Definition isAll8BitData (t : HTMLToken) : bool := m_orAllData t <=? 255.

Definition name (t : HTMLToken) : option (list Z) :=
  guard! isTag t || hasType DOCTYPE t in Some (m_data t).

Definition appendToName (c : Z) (t : HTMLToken) : option HTMLToken :=
  guard! (isTag t || hasType DOCTYPE t) && notNull c in Some (appendChar c t).

(** ** DOCTYPE tokens *)

Definition modifyDoctype (f : DoctypeData -> DoctypeData) (t : HTMLToken) : option HTMLToken :=
  guard! hasType DOCTYPE t in
  match m_doctypeData t with
  | Some d => Some (set_doctype (Some (f d)) t)
  | None => None
  end.

Definition setForceQuirks (t : HTMLToken) : option HTMLToken :=
  modifyDoctype (fun d =>
    mkDoctype (m_hasPublicIdentifier d) (m_hasSystemIdentifier d)
              (m_publicIdentifier d) (m_systemIdentifier d) true) t.

Definition beginDOCTYPE (t : HTMLToken) : option HTMLToken :=
  guard! hasType Uninitialized t in
  Some (set_doctype (Some emptyDoctype) (set_type DOCTYPE t)).

Definition beginDOCTYPE_char (c : Z) (t : HTMLToken) : option HTMLToken :=
  guard! notNull c in appendChar c <$> beginDOCTYPE t.

Definition setPublicIdentifierToEmptyString (t : HTMLToken) : option HTMLToken :=
  modifyDoctype (fun d =>
    mkDoctype true (m_hasSystemIdentifier d) [] (m_systemIdentifier d) (m_forceQuirks d)) t.

Definition setSystemIdentifierToEmptyString (t : HTMLToken) : option HTMLToken :=
  modifyDoctype (fun d =>
    mkDoctype (m_hasPublicIdentifier d) true (m_publicIdentifier d) [] (m_forceQuirks d)) t.

Definition hasPublicId (t : HTMLToken) : bool :=
  match m_doctypeData t with Some d => m_hasPublicIdentifier d | None => false end.

Definition hasSystemId (t : HTMLToken) : bool :=
  match m_doctypeData t with Some d => m_hasSystemIdentifier d | None => false end.

Definition appendToPublicIdentifier (c : Z) (t : HTMLToken) : option HTMLToken :=
  guard! notNull c && hasPublicId t in
  modifyDoctype (fun d =>
    mkDoctype (m_hasPublicIdentifier d) (m_hasSystemIdentifier d)
              (m_publicIdentifier d ++ [c]) (m_systemIdentifier d) (m_forceQuirks d)) t.

Definition appendToSystemIdentifier (c : Z) (t : HTMLToken) : option HTMLToken :=
  guard! notNull c && hasSystemId t in
  modifyDoctype (fun d =>
    mkDoctype (m_hasPublicIdentifier d) (m_hasSystemIdentifier d)
              (m_publicIdentifier d) (m_systemIdentifier d ++ [c]) (m_forceQuirks d)) t.

Definition releaseDoctypeData (t : HTMLToken) : option DoctypeData * HTMLToken :=
  (m_doctypeData t, set_doctype None t).

(** ** Start and end tags *)

Definition setSelfClosing (t : HTMLToken) : option HTMLToken :=
  guard! isTag t in Some (set_tag true (m_attributes t) (m_currentAttribute t) t).

Definition beginStartTag (c : Z) (t : HTMLToken) : option HTMLToken :=
  guard! notNull c && hasType Uninitialized t in
  Some (appendChar c (set_tag false [] None (set_type StartTag t))).

(** [beginEndTag(LChar)] and [beginEndTag(const Vector<LChar, 32>&)]: 8-bit
    characters are not recorded in [m_orAllData]. *)
Definition beginEndTag_char (c : Z) (t : HTMLToken) : option HTMLToken :=
  guard! hasType Uninitialized t in
  let t := set_tag false [] None (set_type EndTag t) in
  Some (set_data (m_data t ++ [c]) (m_orAllData t) t).

Definition beginEndTag (characters : list Z) (t : HTMLToken) : option HTMLToken :=
  guard! hasType Uninitialized t in
  let t := set_tag false [] None (set_type EndTag t) in
  Some (set_data (m_data t ++ characters) (m_orAllData t) t).

Definition addNewAttribute (t : HTMLToken) : option HTMLToken :=
  guard! isTag t in
  Some (set_tag (m_selfClosing t) (m_attributes t ++ [emptyAttribute])
                (Some (length (m_attributes t))) t).

(** An access through [m_currentAttribute]. *)
Definition modifyAttribute (f : Attribute -> Attribute) (t : HTMLToken) : option HTMLToken :=
  match m_currentAttribute t with
  | None => None
  | Some i =>
      match m_attributes t !! i with
      | None => None
      | Some a =>
          Some (set_tag (m_selfClosing t) (<[i := f a]> (m_attributes t))
                        (m_currentAttribute t) t)
      end
  end.

Definition beginAttributeName (offset : Z) (t : HTMLToken) : option HTMLToken :=
  modifyAttribute (fun a =>
    mkAttribute (mkRange (offset - m_baseOffset t) (end_ (nameRange a)))
                (valueRange a) (attr_name a) (attr_value a)) t.

Definition endAttributeName (offset : Z) (t : HTMLToken) : option HTMLToken :=
  let index := offset - m_baseOffset t in
  modifyAttribute (fun a =>
    mkAttribute (mkRange (start (nameRange a)) index) (mkRange index index)
                (attr_name a) (attr_value a)) t.

Definition beginAttributeValue (offset : Z) (t : HTMLToken) : option HTMLToken :=
  modifyAttribute (fun a =>
    mkAttribute (nameRange a) (mkRange (offset - m_baseOffset t) 0)
                (attr_name a) (attr_value a)) t.

Definition endAttributeValue (offset : Z) (t : HTMLToken) : option HTMLToken :=
  modifyAttribute (fun a =>
    mkAttribute (nameRange a) (mkRange (start (valueRange a)) (offset - m_baseOffset t))
                (attr_name a) (attr_value a)) t.

Definition appendToAttributeName (c : Z) (t : HTMLToken) : option HTMLToken :=
  guard! notNull c && isTag t in
  modifyAttribute (fun a =>
    mkAttribute (nameRange a) (valueRange a) (attr_name a ++ [c]) (attr_value a)) t.

(** [m_currentAttribute->valueRange.start] is not zero. *)
Definition hasValueStart (t : HTMLToken) : bool :=
  match m_currentAttribute t with
  | None => true
  | Some i =>
      match m_attributes t !! i with
      | None => true
      | Some a => negb (start (valueRange a) =? 0)
      end
  end.

Definition appendToCurrentValue (c : Z) (t : HTMLToken) : option HTMLToken :=
  modifyAttribute (fun a =>
    mkAttribute (nameRange a) (valueRange a) (attr_name a) (attr_value a ++ [c]))
    (record (hasValueStart t) NoValueStart t).

(** [appendToAttributeValue(UChar)] for a character of the input, *)
Definition appendToAttributeValue (c : Z) (t : HTMLToken) : option HTMLToken :=
  guard! notNull c && isTag t in appendToCurrentValue c t.

(** and for one that a character reference stands for. *)
Definition appendDecodedToAttributeValue (c : Z) (t : HTMLToken) : option HTMLToken :=
  guard! isTag t in appendToCurrentValue c (record (notNull c) NullFromReference t).

(** [getAttributeItem]: the first attribute of that name. *)
Definition getAttributeItem (n : list Z) (t : HTMLToken) : option Attribute :=
  List.find (fun a => lists_eqb (attr_name a) n) (m_attributes t).

(** What [AtomicHTMLToken::initializeAttributes] asserts about the ranges of an
    attribute that has a name. *)
Definition rangesSet (a : Attribute) : bool :=
  lists_eqb (attr_name a) []
  || (negb (end_ (nameRange a) =? 0) && negb (start (valueRange a) =? 0)
      && negb (end_ (valueRange a) =? 0)).

(** Used by the XSS auditor. *)
Definition eraseValueOfAttribute (i : nat) (t : HTMLToken) : option HTMLToken :=
  guard! isTag t in
  match m_attributes t !! i with
  | None => None
  | Some a =>
      Some (set_tag (m_selfClosing t)
              (<[i := mkAttribute (nameRange a) (valueRange a) (attr_name a) []]>
                 (m_attributes t))
              (m_currentAttribute t) t)
  end.

(** ** Character and comment tokens *)

Definition ensureIsCharacterToken (t : HTMLToken) : option HTMLToken :=
  guard! hasType Uninitialized t || hasType Character t in Some (set_type Character t).

Definition appendToCharacter (c : Z) (t : HTMLToken) : option HTMLToken :=
  guard! hasType Character t in Some (appendChar c t).

(** [appendToCharacter(const Vector<LChar, 32>&)]. *)
Definition appendToCharacter_vector (l : list Z) (t : HTMLToken) : option HTMLToken :=
  guard! hasType Character t in Some (set_data (m_data t ++ l) (m_orAllData t) t).

Definition beginComment (t : HTMLToken) : option HTMLToken :=
  guard! hasType Uninitialized t in Some (set_type Comment t).

Definition appendToComment (c : Z) (t : HTMLToken) : option HTMLToken :=
  guard! notNull c && hasType Comment t in Some (appendChar c t).

Definition eraseCharacters (t : HTMLToken) : option HTMLToken :=
  guard! hasType Character t in Some (set_data [] 0 t).

End HTMLToken.
