(* ===== verification/InputStreamPreprocessor.v ===== *)
(** * [WebCore/html/parser/InputStreamPreprocessor.h]

    The filter between the source and the tokenizer: CR and CRLF become LF, a
    NUL is dropped or replaced by U+FFFD, and the NUL that ends a closed source
    is the end-of-file marker.  [None] is a failure of the assertion of
    [processNextInputCharacter]. *)
From S2P Require Import Prelude CharSource.
From stdpp Require Import base list numbers option.
From Stdlib Require Import ZArith Lia.
#[local] Open Scope Z_scope.

Definition kEndOfFileMarker : Z := 0.

(** [m_nextInputCharacter] and [m_skipNextNewLine]. *)
Record Preprocessor : Type := mkPreprocessor {
  m_nextInputCharacter : Z;
  m_skipNextNewLine : bool;
}.

(** [reset(skipNextNewLine)]. *)
Definition preprocessor_reset (skip : bool) : Preprocessor := mkPreprocessor 0 skip.

Section Preprocess.
Context `{CharSource Src}.

Definition shouldTreatNullAsEndOfFileMarker (s : Src) : bool :=
  isClosed s && (sourceLength s =? 1)%nat.

(** [processNextInputCharacter]: [skipNull] is
    [m_tokenizer->shouldSkipNullCharacters()].  Each [goto ProcessAgain] has
    consumed a NUL, so the length of the source bounds the number of rounds. *)
Fixpoint processNextInputCharacter (fuel : nat) (skipNull : bool) (p : Preprocessor) (s : Src)
  : option (bool * Preprocessor * Src) :=
  guard! m_nextInputCharacter p =? currentChar s in
  let skipped := (m_nextInputCharacter p =? 10) && m_skipNextNewLine p in
  let p := if skipped then mkPreprocessor (m_nextInputCharacter p) false else p in
  let s := if skipped then advancePastNewlineAndUpdateLineNumber s else s in
  if skipped && isEmpty s then Some (false, p, s)
  else
    let c := if skipped then currentChar s else m_nextInputCharacter p in
    if c =? 13 then Some (true, mkPreprocessor 10 true, s)
    else if (c =? 0) && negb (shouldTreatNullAsEndOfFileMarker s) then
      if skipNull then
        let s := advance s in
        if isEmpty s then Some (false, mkPreprocessor c false, s)
        else
          match fuel with
          | O => Some (false, mkPreprocessor c false, s)
          | S fuel =>
              processNextInputCharacter fuel skipNull (mkPreprocessor (currentChar s) false) s
          end
      else Some (true, mkPreprocessor 65533 false, s)
    else Some (true, mkPreprocessor c false, s).

Definition specialCharacterMask : Z := Z.lor 10 (Z.lor 13 0).

Definition peek (skipNull : bool) (p : Preprocessor) (s : Src)
  : option (bool * Preprocessor * Src) :=
  let c := currentChar s in
  if negb (Z.land c (Z.lnot specialCharacterMask) =? 0)
  then Some (true, mkPreprocessor c false, s)
  else processNextInputCharacter (sourceLength s) skipNull
         (mkPreprocessor c (m_skipNextNewLine p)) s.

(** [advance]: whether there are more characters after advancing. *)
Definition preprocessor_advance (skipNull : bool) (p : Preprocessor) (s : Src)
  : option (bool * Preprocessor * Src) :=
  let s := advanceAndUpdateLineNumber s in
  if isEmpty s then Some (false, p, s) else peek skipNull p s.

End Preprocess.
