(* ===== verification/HTMLEntitySearch.v ===== *)
(** * [WebCore/html/parser/HTMLEntitySearch]

    The incremental binary search in the table of named character references.
    The table itself ([HTMLEntityTable.cpp]) is generated by the build, so it is
    a parameter: the class [EntityTable] is the interface of
    [HTMLEntityTable.h], and [EntityTableOK] what the generator establishes (the
    entries are sorted, and the two index tables delimit the entries that start
    with a given letter). *)
From S2P Require Import Prelude.
From stdpp Require Import base list numbers option.
From Stdlib Require Import ZArith Lia.
#[local] Open Scope Z_scope.

(** [HTMLEntityTableEntry]; [length] is the length of [entity]. *)
Record HTMLEntityTableEntry : Type := mkEntry {
  entity : list Z;
  firstValue : Z;
  secondValue : Z;
}.

Definition lastCharacter (e : HTMLEntityTableEntry) : Z :=
  default 0 (entity e !! pred (length (entity e))).

(** [HTMLEntityTable]: an entry pointer is an index, null is [None]. *)
Class EntityTable : Type := {
  entries : list HTMLEntityTableEntry;
  firstEntryStartingWith : Z -> option nat;
  lastEntryStartingWith : Z -> option nat;
}.

(** [HTMLEntitySearch::CompareResult]. *)
Inductive CompareResult : Type := Before | Prefix | After.

#[export] Instance CompareResult_eq_dec : EqDecision CompareResult.
Proof. solve_decision. Defined.

Record HTMLEntitySearch : Type := mkSearch {
  m_currentLength : nat;
  m_mostRecentMatch : option nat;
  m_first : option nat;
  m_last : option nat;
}.

Section Search.
Context `{EntityTable}.

(** The name of the entry a pointer designates. *)
Definition entityAt (i : nat) : list Z := from_option entity [] (entries !! i).

(** The constructor: [firstEntry()] and [lastEntry()]. *)
Definition newSearch : HTMLEntitySearch :=
  mkSearch 0 None (Some 0%nat) (Some (pred (length entries))).

Definition isEntityPrefix (s : HTMLEntitySearch) : bool :=
  match m_first s with Some _ => true | None => false end.

Definition compare (currentLength : nat) (entry : nat) (nextCharacter : Z) : CompareResult :=
  let e := entityAt entry in
  if (length e <? currentLength + 1)%nat then Before
  else
    let entryNextCharacter := default 0 (e !! currentLength) in
    if entryNextCharacter =? nextCharacter then Prefix
    else if entryNextCharacter <? nextCharacter then Before else After.

Definition halfway (left right : nat) : nat := (left + (right - left) / 2)%nat.

(** The loop of [findFirst]; the distance bounds the number of rounds. *)
Fixpoint findFirstLoop (fuel currentLength left right : nat) (nextCharacter : Z) : nat :=
  match fuel with
  | O => right
  | S fuel =>
      if (left + 1 <? right)%nat then
        let probe := halfway left right in
        match compare currentLength probe nextCharacter with
        | Before => findFirstLoop fuel currentLength probe right nextCharacter
        | _ => findFirstLoop fuel currentLength left probe nextCharacter
        end
      else right
  end.

Definition findFirst (currentLength left right : nat) (nextCharacter : Z) : nat :=
  if (left =? right)%nat then left
  else match compare currentLength left nextCharacter with
       | Prefix => left
       | After => right
       | Before => findFirstLoop (right - left) currentLength left right nextCharacter
       end.

Fixpoint findLastLoop (fuel currentLength left right : nat) (nextCharacter : Z) : nat :=
  match fuel with
  | O => left
  | S fuel =>
      if (left + 1 <? right)%nat then
        let probe := halfway left right in
        match compare currentLength probe nextCharacter with
        | After => findLastLoop fuel currentLength left probe nextCharacter
        | _ => findLastLoop fuel currentLength probe right nextCharacter
        end
      else left
  end.

Definition findLast (currentLength left right : nat) (nextCharacter : Z) : nat :=
  if (left =? right)%nat then right
  else match compare currentLength right nextCharacter with
       | Prefix => right
       | Before => left
       | After => findLastLoop (right - left) currentLength left right nextCharacter
       end.

Definition searchFail (s : HTMLEntitySearch) : HTMLEntitySearch :=
  mkSearch (m_currentLength s) (m_mostRecentMatch s) None None.

(** The end of [advance]: the length grows, and an entry of exactly that length
    is the most recent match. *)
Definition searchMatched (s : HTMLEntitySearch) (first last : nat) : HTMLEntitySearch :=
  let len := S (m_currentLength s) in
  mkSearch len
    (if (length (entityAt first) =? len)%nat then Some first else m_mostRecentMatch s)
    (Some first) (Some last).

(** [advance(nextCharacter)]. [m_first] is updated before [findLast] reads it. *)
Definition searchAdvance (nextCharacter : Z) (s : HTMLEntitySearch) : HTMLEntitySearch :=
  if (m_currentLength s =? 0)%nat then
    match firstEntryStartingWith nextCharacter, lastEntryStartingWith nextCharacter with
    | Some first, Some last => searchMatched s first last
    | _, _ => searchFail s
    end
  else
    match m_first s, m_last s with
    | Some l, Some r =>
        let first := findFirst (m_currentLength s) l r nextCharacter in
        let last := findLast (m_currentLength s) first r nextCharacter in
        if (first =? last)%nat
           && negb (bool_decide (compare (m_currentLength s) first nextCharacter = Prefix))
        then searchFail s
        else searchMatched s first last
    | _, _ => searchFail s
    end.

(** *** The assertions

    [ASSERT(left + 1 == right)] at the end of the two loops, and [ASSERT(isEntityPrefix())] at
    the beginning of [advance].  The assertions inside the loops, that a result that is
    not [Before] is [After] or [Prefix], are what the [match] of the model says.  The functions
    above go on when an assertion fails; [searchAsserts] is whether they hold in a call of
    [advance], and [search_asserts] that they do. *)
Fixpoint findFirstAsserts (fuel currentLength left right : nat) (nextCharacter : Z) : bool :=
  match fuel with
  | O => false
  | S fuel =>
      if (left + 1 <? right)%nat then
        let probe := halfway left right in
        match compare currentLength probe nextCharacter with
        | Before => findFirstAsserts fuel currentLength probe right nextCharacter
        | _ => findFirstAsserts fuel currentLength left probe nextCharacter
        end
      else (left + 1 =? right)%nat
  end.

Fixpoint findLastAsserts (fuel currentLength left right : nat) (nextCharacter : Z) : bool :=
  match fuel with
  | O => false
  | S fuel =>
      if (left + 1 <? right)%nat then
        let probe := halfway left right in
        match compare currentLength probe nextCharacter with
        | After => findLastAsserts fuel currentLength left probe nextCharacter
        | _ => findLastAsserts fuel currentLength probe right nextCharacter
        end
      else (left + 1 =? right)%nat
  end.

Definition searchAsserts (nextCharacter : Z) (s : HTMLEntitySearch) : bool :=
  isEntityPrefix s
  && ((m_currentLength s =? 0)%nat
      || match m_first s, m_last s with
         | Some l, Some r =>
             let n := m_currentLength s in
             let first := findFirst n l r nextCharacter in
             ((l =? r)%nat || negb (bool_decide (compare n l nextCharacter = Before))
              || findFirstAsserts (r - l) n l r nextCharacter)
             && ((first =? r)%nat || negb (bool_decide (compare n r nextCharacter = After))
                 || findLastAsserts (r - first) n first r nextCharacter)
         | _, _ => false
         end).

(** The search after reading the characters of [w] (a failed search stays
    failed). *)
Definition searchFor (w : list Z) : HTMLEntitySearch :=
  fold_left (fun s c => if isEntityPrefix s then searchAdvance c s else s) w newSearch.

End Search.

(** ** What the generator of the table establishes *)

Fixpoint lex_lt (a b : list Z) : Prop :=
  match a, b with
  | [], [] => False
  | [], _ :: _ => True
  | _ :: _, [] => False
  | x :: a', y :: b' => x < y \/ (x = y /\ lex_lt a' b')
  end.

(** The entries are sorted by name, the names have at least two characters, all
    of them codes of characters; the
    index tables give the first and the last entry that start with a
    character, and nothing when there is none. *)
Class EntityTableOK `{EntityTable} : Prop := {
  entries_sorted i j :
    (i < j < length entries)%nat -> lex_lt (entityAt i) (entityAt j);
  entries_positive i c : c ∈ entityAt i -> 0 < c;
  entries_length i : (i < length entries)%nat -> (2 <= length (entityAt i))%nat;
  first_last_entry c :
    match firstEntryStartingWith c, lastEntryStartingWith c with
    | Some i, Some j =>
        (i <= j < length entries)%nat /\
        forall k, (i <= k <= j)%nat <->
                  (k < length entries)%nat /\ headz (entityAt k) = c
    | _, _ => forall k, (k < length entries)%nat -> headz (entityAt k) <> c
    end;
}.

(** ** Correctness of the search *)

Section Correctness.
Context `{EntityTableOK}.

Lemma entries_nonempty i : (i < length entries)%nat -> entityAt i <> [].
Proof. intros Hi E. pose proof (entries_length i Hi) as Hl. rewrite E in Hl. simpl in Hl. lia. Qed.

(** The order of the entries with a common prefix of length [L], by their next
    character; the entry that ends there comes first. *)
Definition key (L k : nat) : Z := default (-1) (entityAt k !! L).

Lemma compare_key L k c :
  0 <= c ->
  compare L k c =
  (if key L k =? c then Prefix else if key L k <? c then Before else After).
Proof.
  intros Hc. unfold compare, key.
  destruct (Nat.ltb_spec (length (entityAt k)) (L + 1)) as [Hl|Hl].
  - rewrite lookup_ge_None_2 by lia. cbn [default from_option].
    destruct (Z.eqb_spec (-1) c); [lia|]. destruct (Z.ltb_spec (-1) c); [done|lia].
  - destruct (lookup_lt_is_Some_2 (entityAt k) L) as [x ->]; [lia|]. done.
Qed.

Lemma lex_lt_key (u a b : list Z) :
  u `prefix_of` a -> u `prefix_of` b -> (forall c, c ∈ b -> 0 <= c) -> lex_lt a b ->
  default (-1) (a !! length u) <= default (-1) (b !! length u).
Proof.
  revert a b; induction u as [|x u IH]; intros a b Ha Hb Hn Hlt.
  - destruct a as [|y a], b as [|z b]; simpl in *; try lia.
    specialize (Hn z). assert (z ∈ z :: b) by left. specialize (Hn H1). lia.
  - destruct Ha as [a' ->], Hb as [b' ->]. simpl in *.
    destruct Hlt as [?|[_ Hlt]]; [lia|].
    apply IH; try done; [by eexists|by eexists|].
    intros c Hc. apply Hn. by right.
Qed.

Lemma findFirstLoop_spec fuel L left right c :
  0 <= c -> (right - left <= fuel)%nat -> (left < right)%nat ->
  (forall i j, (left <= i <= j)%nat -> (j <= right)%nat -> key L i <= key L j) ->
  key L left < c ->
  let r := findFirstLoop fuel L left right c in
  (left < r <= right)%nat /\
  (forall k, (left <= k < r)%nat -> key L k < c) /\
  (r = right \/ c <= key L r).
Proof.
  revert left right; induction fuel as [|fuel IH]; intros left right Hc Hf Hlr Hm Hk; [lia|].
  simpl. destruct (Nat.ltb_spec (left + 1) right) as [Hlt|Hge].
  - assert (Hh : (left < halfway left right < right)%nat).
    { unfold halfway. pose proof (Nat.div_lt (right - left) 2).
      pose proof (Nat.div_le_lower_bound (right - left) 2 1). lia. }
    rewrite compare_key by done.
    destruct (Z.eqb_spec (key L (halfway left right)) c) as [E|E];
      [|destruct (Z.ltb_spec (key L (halfway left right)) c) as [E'|E']].
    + destruct (IH left (halfway left right)) as (H1 & H2 & H3); try done; try lia.
      { intros. apply Hm; lia. }
      repeat split; try done; try lia. destruct H3 as [-> | ?]; right; lia.
    + destruct (IH (halfway left right) right) as (H1 & H2 & H3); try done; try lia.
      { intros. apply Hm; lia. }
      repeat split; try done; try lia. intros k Hk'.
      destruct (decide (k < halfway left right)%nat).
      * pose proof (Hm k (halfway left right)). lia.
      * apply H2. lia.
    + destruct (IH left (halfway left right)) as (H1 & H2 & H3); try done; try lia.
      { intros. apply Hm; lia. }
      repeat split; try done; try lia. destruct H3 as [-> | ?]; right; lia.
  - repeat split; try lia; auto. intros k Hk'. assert (k = left) as -> by lia. done.
Qed.

Lemma findLastLoop_spec fuel L left right c :
  0 <= c -> (right - left <= fuel)%nat -> (left < right)%nat ->
  (forall i j, (left <= i <= j)%nat -> (j <= right)%nat -> key L i <= key L j) ->
  c < key L right ->
  let r := findLastLoop fuel L left right c in
  (left <= r < right)%nat /\
  (forall k, (r < k <= right)%nat -> c < key L k) /\
  (r = left \/ key L r <= c).
Proof.
  revert left right; induction fuel as [|fuel IH]; intros left right Hc Hf Hlr Hm Hk; [lia|].
  simpl. destruct (Nat.ltb_spec (left + 1) right) as [Hlt|Hge].
  - assert (Hh : (left < halfway left right < right)%nat).
    { unfold halfway. pose proof (Nat.div_lt (right - left) 2).
      pose proof (Nat.div_le_lower_bound (right - left) 2 1). lia. }
    rewrite compare_key by done.
    destruct (Z.eqb_spec (key L (halfway left right)) c) as [E|E];
      [|destruct (Z.ltb_spec (key L (halfway left right)) c) as [E'|E']].
    + destruct (IH (halfway left right) right) as (H1 & H2 & H3); try done; try lia.
      { intros. apply Hm; lia. }
      repeat split; try done; try lia. destruct H3 as [-> | ?]; right; lia.
    + destruct (IH (halfway left right) right) as (H1 & H2 & H3); try done; try lia.
      { intros. apply Hm; lia. }
      repeat split; try done; try lia. destruct H3 as [-> | ?]; right; lia.
    + destruct (IH left (halfway left right)) as (H1 & H2 & H3); try done; try lia.
      { intros. apply Hm; lia. }
      repeat split; try done; try lia. intros k Hk'.
      destruct (decide (k <= halfway left right)%nat).
      * apply H2. lia.
      * pose proof (Hm (halfway left right) k). lia.
  - repeat split; try lia; auto. intros k Hk'. assert (k = right) as -> by lia. done.
Qed.

(** [findFirst] and then [findLast] delimit exactly the entries of the range
    whose next character is [c]; when there is none they meet on an entry that
    does not continue with [c]. *)
Lemma findFirst_range L left right c :
  0 <= c -> (left <= right)%nat ->
  (forall i j, (left <= i <= j)%nat -> (j <= right)%nat -> key L i <= key L j) ->
  let first := findFirst L left right c in
  (left <= first <= right)%nat /\
  ((exists k, (left <= k <= right)%nat /\ key L k = c) ->
     key L first = c /\ forall k, (left <= k < first)%nat -> key L k < c) /\
  ((forall k, (left <= k <= right)%nat -> key L k <> c) -> first = right \/ c < key L first).
Proof.
  intros Hc Hlr Hm. unfold findFirst. destruct (Nat.eqb_spec left right) as [<-|Hne].
  { split; [lia|]. split; [|auto]. intros (k & Hk & Hkc).
    assert (k = left) as -> by lia. split; [done|lia]. }
  rewrite compare_key by done. destruct (Z.eqb_spec (key L left) c) as [E|E].
  { split; [lia|]. split; [|intros Hno; by destruct (Hno left); lia].
    intros _. split; [done|lia]. }
  destruct (Z.ltb_spec (key L left) c) as [E'|E'].
  - destruct (findFirstLoop_spec (right - left) L left right c) as (H1 & H2 & H3); try done; try lia.
    split; [lia|]. split.
    + intros (k & Hk & Hkc). split; [|intros; apply H2; lia].
      assert (Hrk : (findFirstLoop (right - left) L left right c <= k)%nat).
      { destruct (decide (k < findFirstLoop (right - left) L left right c)%nat); [|lia].
        specialize (H2 k). lia. }
      pose proof (Hm _ k (conj (Nat.lt_le_incl _ _ (proj1 H1)) Hrk) (proj2 Hk)).
      destruct H3 as [H3|H3]; [|lia]. assert (k = right) as -> by lia. by rewrite H3.
    + intros Hno. destruct H3 as [H3|H3]; [by left|]. right.
      specialize (Hno (findFirstLoop (right - left) L left right c)). lia.
  - split; [lia|]. split; [|auto]. intros (k & Hk & Hkc). pose proof (Hm left k). lia.
Qed.

(** From the first one on: the last one of the same run. *)
Lemma findLast_range L first right c :
  0 <= c -> (first <= right)%nat ->
  (forall i j, (first <= i <= j)%nat -> (j <= right)%nat -> key L i <= key L j) -> key L first = c ->
  let last := findLast L first right c in
  (first <= last <= right)%nat /\ forall k, (first <= k <= right)%nat -> (key L k = c <-> (k <= last)%nat).
Proof.
  intros Hc Hlr Hm Hkf. unfold findLast. destruct (Nat.eqb_spec first right) as [->|Hne].
  { split; [lia|]. intros k Hk. assert (k = right) as -> by lia. split; [lia|done]. }
  rewrite compare_key by done. assert (Hle : key L first <= key L right) by (apply Hm; lia).
  destruct (Z.eqb_spec (key L right) c) as [E|E].
  { split; [lia|]. intros k Hk. pose proof (Hm first k). pose proof (Hm k right). lia. }
  destruct (Z.ltb_spec (key L right) c); [lia|].
  destruct (findLastLoop_spec (right - first) L first right c) as (L1 & L2 & L3); try done; try lia.
  split; [lia|]. intros k Hk. split.
  - intros Ek. destruct (decide (findLastLoop (right - first) L first right c < k)%nat); [specialize (L2 k)|]; lia.
  - intros Hlast. pose proof (Hm first k). pose proof (Hm k (findLastLoop (right - first) L first right c)).
    destruct L3 as [E3|E3]; [|lia]. assert (k = first) as -> by lia. done.
Qed.

Lemma findLast_none L first right c :
  0 <= c -> (first <= right)%nat ->
  (forall i j, (first <= i <= j)%nat -> (j <= right)%nat -> key L i <= key L j) -> first = right \/ c < key L first ->
  findLast L first right c = first.
Proof.
  intros Hc Hlr Hm Hf. unfold findLast. destruct (Nat.eqb_spec first right) as [->|Hne]; [done|].
  destruct Hf as [?|Hgt]; [done|]. rewrite compare_key by done.
  assert (Hle : key L first <= key L right) by (apply Hm; lia).
  destruct (Z.eqb_spec (key L right) c); [lia|]. destruct (Z.ltb_spec (key L right) c); [lia|].
  destruct (findLastLoop_spec (right - first) L first right c) as (L1 & L2 & L3); try done; try lia.
  destruct L3 as [E3|E3]; [done|]. pose proof (Hm first (findLastLoop (right - first) L first right c)). lia.
Qed.

Lemma find_range L left right c :
  0 <= c -> (left <= right)%nat ->
  (forall i j, (left <= i <= j)%nat -> (j <= right)%nat -> key L i <= key L j) ->
  let first := findFirst L left right c in
  let last := findLast L first right c in
  ((exists k, (left <= k <= right)%nat /\ key L k = c) ->
     (left <= first <= last)%nat /\ (last <= right)%nat /\
     forall k, (left <= k <= right)%nat -> (key L k = c <-> (first <= k <= last)%nat)) /\
  ((forall k, (left <= k <= right)%nat -> key L k <> c) ->
     first = last /\ (left <= first <= right)%nat).
Proof.
  intros Hc Hlr Hm first last. destruct (findFirst_range L left right c Hc Hlr Hm) as (HF1 & HF2 & HF3).
  fold first in HF1, HF2, HF3. clearbody first.
  assert (Hm' : forall i j, (first <= i <= j)%nat -> (j <= right)%nat -> key L i <= key L j) by (intros; apply Hm; lia).
  subst last. split.
  - intros Hex. destruct (HF2 Hex) as [Hkf Hbelow].
    destruct (findLast_range L first right c Hc (proj2 HF1) Hm' Hkf) as [HL1 HL2]. split; [lia|]. split; [lia|].
    intros k Hk. destruct (decide (k < first)%nat) as [Hlt|Hge]; [specialize (Hbelow k)|specialize (HL2 k)]; lia.
  - intros Hno. rewrite (findLast_none L first right c Hc (proj2 HF1) Hm' (HF3 Hno)). split; [done|lia].
Qed.

(** The most recent match is the longest entry that begins the input. *)
Definition match_ok (w : list Z) (mm : option nat) : Prop :=
  match mm with
  | Some m => (m < length entries)%nat /\ entityAt m `prefix_of` w /\
      forall k, (k < length entries)%nat -> entityAt k `prefix_of` w ->
                (length (entityAt k) <= length (entityAt m))%nat
  | None => forall k, (k < length entries)%nat -> ~ entityAt k `prefix_of` w
  end.

(** The state of a search that has read [w]. *)
Record SearchInv (w : list Z) (s : HTMLEntitySearch) : Prop := mkSearchInv {
  inv_range : isEntityPrefix s = true ->
    m_currentLength s = length w /\
    exists i j, m_first s = Some i /\ m_last s = Some j /\ (i <= j < length entries)%nat /\
      forall k, (k < length entries)%nat -> (w `prefix_of` entityAt k <-> (i <= k <= j)%nat);
  inv_failed : isEntityPrefix s = false ->
    forall k, (k < length entries)%nat -> ~ w `prefix_of` entityAt k;
  inv_match : match_ok w (m_mostRecentMatch s);
}.

Lemma prefix_snoc_inv (a w : list Z) c :
  a `prefix_of` w ++ [c] -> a `prefix_of` w \/ a = w ++ [c].
Proof.
  intros [b Hb]. destruct b as [|d b] using rev_ind.
  - right. by rewrite app_nil_r in Hb.
  - left. rewrite app_assoc in Hb. apply app_inj_tail in Hb as [-> _]. by eexists.
Qed.

Lemma prefix_snoc_key (w : list Z) c k :
  0 <= c -> w `prefix_of` entityAt k -> (w ++ [c] `prefix_of` entityAt k <-> key (length w) k = c).
Proof.
  intros Hc [r Hr]. unfold key. rewrite Hr, lookup_app_r, Nat.sub_diag by lia.
  split.
  - intros [r' Hr']. rewrite <- app_assoc in Hr'. apply app_inv_head in Hr' as ->. done.
  - destruct r as [|d r]; simpl; [lia|]. intros <-. exists r. by rewrite <- app_assoc.
Qed.

(** Reading one more character when the new range is [i..j]. *)
Lemma searchMatched_inv w c s i j :
  match_ok w (m_mostRecentMatch s) -> m_currentLength s = length w ->
  (i <= j < length entries)%nat ->
  (forall k, (k < length entries)%nat -> (w ++ [c] `prefix_of` entityAt k <-> (i <= k <= j)%nat)) ->
  SearchInv (w ++ [c]) (searchMatched s i j).
Proof.
  intros Hm Hlen Hij Hr. split; simpl.
  - intros _. rewrite Hlen, length_app. simpl. split; [lia|]. eauto 10.
  - done.
  - rewrite Hlen. unfold match_ok in *.
    assert (Hp : w ++ [c] `prefix_of` entityAt i) by (apply Hr; lia).
    destruct (Nat.eqb_spec (length (entityAt i)) (S (length w))) as [E|E].
    + assert (Ei : entityAt i = w ++ [c]).
      { destruct Hp as [r Hr']. rewrite Hr', !length_app in E. simpl in E.
        assert (r = []) as -> by (apply nil_length_inv; lia). by rewrite app_nil_r in Hr'. }
      split; [lia|]. rewrite Ei. split; [done|]. intros k _ Hk.
      by apply prefix_length.
    + assert (Hno : forall k, (k < length entries)%nat -> entityAt k <> w ++ [c]).
      { intros k Hk Ek. assert (Hik : (i <= k <= j)%nat) by (apply Hr; [done|by rewrite Ek]).
        destruct (decide (i = k)) as [->|Hne].
        - rewrite Ek, length_app in E. simpl in E. lia.
        - pose proof (entries_sorted i k) as Hlt. rewrite Ek in Hlt.
          destruct Hp as [r Hp]. rewrite Hp in Hlt.
          assert (Hx : forall u v : list Z, ~ lex_lt (u ++ v) u).
          { induction u as [|x u IH]; simpl; intros [|y v]; simpl; try tauto.
            - intros [?|[_ ?]]; [lia|by apply (IH [])].
            - intros [?|[_ ?]]; [lia|by apply (IH (y :: v))]. }
          eapply Hx, Hlt. lia. }
      destruct (m_mostRecentMatch s) as [m|].
      * destruct Hm as (M1 & M2 & M3). split; [done|].
        split; [by apply prefix_app_r|]. intros k Hk Hpk.
        apply prefix_snoc_inv in Hpk as [Hpk|Hpk]; [auto|]. by destruct (Hno k).
      * intros k Hk Hpk. apply prefix_snoc_inv in Hpk as [Hpk|Hpk].
        -- by apply (Hm k).
        -- by apply (Hno k).
Qed.

(** Reading a character that no entry continues with. *)
Lemma searchFail_inv w c s s' :
  match_ok w (m_mostRecentMatch s) -> isEntityPrefix s' = false ->
  m_mostRecentMatch s' = m_mostRecentMatch s ->
  (forall k, (k < length entries)%nat -> ~ w ++ [c] `prefix_of` entityAt k) ->
  SearchInv (w ++ [c]) s'.
Proof.
  intros Hm Hf Hmm Hno. split; [by rewrite Hf|done|]. rewrite Hmm. unfold match_ok in *.
  assert (Hx : forall k, (k < length entries)%nat -> entityAt k `prefix_of` w ++ [c] ->
                         entityAt k `prefix_of` w).
  { intros k Hk Hp. apply prefix_snoc_inv in Hp as [Hp|Hp]; [done|].
    destruct (Hno k Hk). by rewrite Hp. }
  destruct (m_mostRecentMatch s) as [m|].
  - destruct Hm as (M1 & M2 & M3). split; [done|]. split; [by apply prefix_app_r|]. eauto.
  - intros k Hk Hp. by eapply (Hm k), Hx.
Qed.

Lemma searchAdvance_inv w c s :
  w <> [] -> 0 <= c -> isEntityPrefix s = true -> SearchInv w s ->
  SearchInv (w ++ [c]) (searchAdvance c s).
Proof.
  intros Hw Hc Hp Hs. destruct (inv_range _ _ Hs Hp) as (Hlen & i & j & Ei & Ej & Hij & Hr).
  unfold searchAdvance. rewrite Hlen, Ei, Ej.
  destruct (Nat.eqb_spec (length w) 0) as [E|_]; [by apply nil_length_inv in E|].
  assert (Hm : forall a b, (i <= a <= b)%nat -> (b <= j)%nat -> key (length w) a <= key (length w) b).
  { intros a b Hab Hb. destruct (decide (a = b)) as [->|Hne]; [lia|].
    apply lex_lt_key; [apply Hr; lia|apply Hr; lia|intros k Hk; apply Z.lt_le_incl; by eapply entries_positive|].
    apply entries_sorted. lia. }
  destruct (find_range (length w) i j c Hc (proj1 Hij) Hm) as [Hyes Hno].
  set (f := findFirst _ _ _ _) in *. set (l := findLast _ _ _ _) in *. cbv zeta in Hyes, Hno.
  assert (Hkey : forall k, (i <= k <= j)%nat ->
            (w ++ [c] `prefix_of` entityAt k <-> key (length w) k = c)).
  { intros k Hk. apply prefix_snoc_key; [done|]. apply Hr; lia. }
  assert (Hout : forall k, (k < length entries)%nat -> w ++ [c] `prefix_of` entityAt k ->
                           (i <= k <= j)%nat).
  { intros k Hk Hpk. apply Hr; [done|]. by eapply prefix_app_l. }
  destruct (bounded_find (fun k => key (length w) k =? c) i j) as [(k0 & Hk0 & E0)|Hnex].
  - apply Z.eqb_eq in E0.
    assert (Hex : exists k, (i <= k <= j)%nat /\ key (length w) k = c) by eauto.
    destruct (Hyes Hex) as (H1 & H2 & H3).
    assert (Hkf : key (length w) f = c) by (apply H3; lia).
    rewrite (compare_key _ f) by done. rewrite Hkf, Z.eqb_refl, bool_decide_true by done.
    rewrite andb_false_r. apply searchMatched_inv; [apply Hs|done|lia|].
    intros k Hk. split.
    + intros Hpk. pose proof (Hout k Hk Hpk). apply H3; [done|]. by apply Hkey.
    + intros Hk'. apply Hkey; [lia|]. apply H3; lia.
  - assert (Hnone : forall k, (i <= k <= j)%nat -> key (length w) k <> c)
      by (intros k Hk; by apply Z.eqb_neq, Hnex).
    destruct (Hno Hnone) as [Hfl Hf]. rewrite <- Hfl, Nat.eqb_refl.
    rewrite (compare_key _ f) by done.
    destruct (Z.eqb_spec (key (length w) f) c) as [E|_]; [by destruct (Hnone f)|].
    rewrite bool_decide_false by (by split_if). cbn [andb negb].
    eapply (searchFail_inv _ _ s); [apply Hs|done|done|]. intros k Hk Hpk.
    pose proof (Hout k Hk Hpk). apply (Hnone k); [done|]. by apply Hkey.
Qed.

Lemma searchAdvance_first c :
  0 <= c -> SearchInv [c] (searchAdvance c newSearch).
Proof.
  intros Hc. unfold searchAdvance. simpl.
  assert (H1 : forall k, (k < length entries)%nat ->
            ([c] `prefix_of` entityAt k <-> headz (entityAt k) = c)).
  { intros k Hk. pose proof (entries_nonempty k Hk) as Hne.
    destruct (entityAt k) as [|d l]; [done|]. simpl. split.
    - intros [r Hr]. by injection Hr.
    - intros ->. by exists l. }
  assert (Hnil : forall k, (k < length entries)%nat -> ~ entityAt k `prefix_of` []).
  { intros k Hk Hp. apply prefix_nil_inv in Hp. by apply (entries_nonempty k). }
  pose proof (first_last_entry c) as Hfl.
  destruct (firstEntryStartingWith c) as [i|] eqn:Ei; [|].
  - destruct (lastEntryStartingWith c) as [j|] eqn:Ej.
    + destruct Hfl as [Hij Hk]. apply (searchMatched_inv [] c newSearch); try done.
      intros k Hk'. rewrite (H1 k Hk'), Hk. tauto.
    + apply (searchFail_inv [] c newSearch); try done.
      intros k Hk Hp. by apply (Hfl k), H1.
  - apply (searchFail_inv [] c newSearch); try done.
    intros k Hk Hp. by apply (Hfl k), H1.
Qed.

Lemma searchFor_inv w : w <> [] -> Forall (fun c => 0 <= c) w -> SearchInv w (searchFor w).
Proof.
  induction w as [|c w IH] using rev_ind; intros Hne Hpos; [done|].
  apply Forall_app in Hpos as [Hpos Hc]. apply Forall_inv in Hc.
  unfold searchFor. rewrite fold_left_app. simpl. fold (searchFor w).
  destruct (decide (w = [])) as [->|Hw]; [by apply searchAdvance_first|].
  specialize (IH Hw Hpos).
  destruct (isEntityPrefix (searchFor w)) eqn:Ep.
  - by apply searchAdvance_inv.
  - eapply (searchFail_inv _ _ (searchFor w)); [apply IH|done|done|].
    intros k Hk Hp. eapply (inv_failed _ _ IH Ep k Hk). by eapply prefix_app_l.
Qed.

(** The loops end with two neighbours. *)
Lemma halfway_between left right : (left + 1 < right)%nat -> (left < halfway left right < right)%nat.
Proof.
  intros Hlr. unfold halfway. pose proof (Nat.div_lt (right - left) 2).
  pose proof (Nat.div_le_lower_bound (right - left) 2 1). lia.
Qed.

Lemma findFirstAsserts_ok fuel n left right c :
  (left < right)%nat -> (right - left <= fuel)%nat -> findFirstAsserts fuel n left right c = true.
Proof.
  revert left right; induction fuel as [|fuel IH]; intros left right Hlr Hf; [lia|]. cbn [findFirstAsserts].
  destruct (Nat.ltb_spec (left + 1) right) as [Hlt|Hge]; [|apply Nat.eqb_eq; lia].
  pose proof (halfway_between left right Hlt). destruct (compare _ _ _); apply IH; lia.
Qed.

Lemma findLastAsserts_ok fuel n left right c :
  (left < right)%nat -> (right - left <= fuel)%nat -> findLastAsserts fuel n left right c = true.
Proof.
  revert left right; induction fuel as [|fuel IH]; intros left right Hlr Hf; [lia|]. cbn [findLastAsserts].
  destruct (Nat.ltb_spec (left + 1) right) as [Hlt|Hge]; [|apply Nat.eqb_eq; lia].
  pose proof (halfway_between left right Hlt). destruct (compare _ _ _); apply IH; lia.
Qed.

Lemma findFirst_bounds n left right c : (left <= right)%nat -> (left <= findFirst n left right c <= right)%nat.
Proof.
  intros Hlr. unfold findFirst. destruct (Nat.eqb_spec left right); [lia|]. destruct (compare _ _ _); try lia.
  enough (Hloop : forall fuel l r, (l <= r)%nat -> (l <= findFirstLoop fuel n l r c <= r)%nat) by (by apply Hloop).
  clear Hlr. intros fuel. induction fuel as [|fuel IH]; intros l r Hlr; simpl; [lia|].
  destruct (Nat.ltb_spec (l + 1) r) as [Hlt|Hge]; [|lia]. pose proof (halfway_between l r Hlt).
  destruct (compare _ _ _); [pose proof (IH (halfway l r) r)|pose proof (IH l (halfway l r))|pose proof (IH l (halfway l r))]; lia.
Qed.

(** Whenever the search may be advanced, the assertions of [advance] hold. *)
Lemma search_asserts (w : list Z) (c : Z) :
  Forall (fun c => 0 <= c) w -> isEntityPrefix (searchFor w) = true -> searchAsserts c (searchFor w) = true.
Proof.
  intros Hpos Hp. unfold searchAsserts. rewrite Hp. simpl.
  destruct (decide (w = [])) as [->|Hw]; [done|]. apply orb_true_iff. right.
  destruct (inv_range _ _ (searchFor_inv w Hw Hpos) Hp) as (_ & i & j & -> & -> & Hij & _).
  pose proof (findFirst_bounds (m_currentLength (searchFor w)) i j c ltac:(lia)) as Hb.
  set (first := findFirst _ _ _ _) in *. apply andb_true_iff. split; apply orb_true_iff.
  - destruct (Nat.eqb_spec i j); [by left|]. right. apply findFirstAsserts_ok; lia.
  - destruct (Nat.eqb_spec first j); [by left|]. right. apply findLastAsserts_ok; lia.
Qed.

(** C27: reading any non-empty text character by character, the
    incremental binary search reports a viable prefix exactly when some entity
    name of the table begins with that text, its range then holds exactly those
    entries, and the most recent match is the longest entity name that begins
    the text, if there is one. *)
Theorem entity_search_correct (w : list Z)
  (Hne : w <> []) (Hpos : Forall (fun c => 0 <= c) w) :
  let s := searchFor w in
  (isEntityPrefix s = true <->
     exists k, (k < length entries)%nat /\ w `prefix_of` entityAt k) /\
  (forall i j, m_first s = Some i -> m_last s = Some j ->
     forall k, (k < length entries)%nat -> (w `prefix_of` entityAt k <-> (i <= k <= j)%nat)) /\
  match_ok w (m_mostRecentMatch s).
Proof.
  intros s. pose proof (searchFor_inv w Hne Hpos) as Hs. fold s in Hs.
  split; [split|split].
  - intros Hp. destruct (inv_range _ _ Hs Hp) as (_ & i & j & _ & _ & Hij & Hr).
    exists i. split; [lia|]. apply Hr; lia.
  - intros (k & Hk & Hp). destruct (isEntityPrefix s) eqn:E; [done|].
    by destruct (inv_failed _ _ Hs E k Hk).
  - intros i j Ei Ej.
    assert (Hp : isEntityPrefix s = true) by (unfold isEntityPrefix; by rewrite Ei).
    destruct (inv_range _ _ Hs Hp) as (_ & i' & j' & Ei' & Ej' & _ & Hr).
    rewrite Ei in Ei'. rewrite Ej in Ej'. injection Ei' as <-. injection Ej' as <-. done.
  - apply Hs.
Qed.


End Correctness.

(** ** A table

    The entries of a small table, with the index tables computed from it. *)
Definition mkTable (l : list HTMLEntityTableEntry) : EntityTable := {|
  entries := l;
  firstEntryStartingWith c :=
    fst <$> list_find (fun e => headz (entity e) = c) l;
  lastEntryStartingWith c :=
    (fun '(i, _) => (length l - 1 - i)%nat)
      <$> list_find (fun e => headz (entity e) = c) (reverse l);
|}.

Definition exampleTable : EntityTable := mkTable [
  mkEntry (lit "AMP") 38 0;
  mkEntry (lit "am;") 1 0;
  mkEntry (lit "amalg;") 10815 0;
  mkEntry (lit "amp") 38 0;
  mkEntry (lit "amp;") 38 0;
  mkEntry (lit "bne;") 61 8421;
  mkEntry (lit "lt") 60 0;
  mkEntry (lit "not") 172 0;
  mkEntry (lit "notin;") 8713 0].

(** A sorted list of names with its computed index tables is a valid table. *)
Definition sorted_names (l : list HTMLEntityTableEntry) : Prop :=
  forall i j, (i < j < length l)%nat ->
    lex_lt (from_option entity [] (l !! i)) (from_option entity [] (l !! j)).

Definition names_ok (l : list HTMLEntityTableEntry) : bool :=
  forallb (fun e => (2 <=? length (entity e))%nat && forallb (fun c => 0 <? c) (entity e)) l.

Lemma lex_lt_headz a b :
  a <> [] -> b <> [] -> lex_lt a b -> headz a <= headz b.
Proof. destruct a, b; simpl; try done; lia. Qed.

Lemma names_ok_lookup l i e : names_ok l = true -> l !! i = Some e ->
  (2 <= length (entity e))%nat /\ forall c, c ∈ entity e -> 0 < c.
Proof.
  intros Hn Hi. unfold names_ok in Hn. rewrite forallb_forall in Hn.
  specialize (Hn e). rewrite <- list_elem_of_In in Hn.
  apply list_elem_of_lookup_2, Hn, andb_true_iff in Hi as [H1 H2]. split; [by apply Nat.leb_le|].
  rewrite forallb_forall in H2. intros c Hc. by apply list_elem_of_In, H2, Z.ltb_lt in Hc.
Qed.

Lemma heads_sorted l i j ei ej : sorted_names l -> names_ok l = true -> (i <= j)%nat ->
  l !! i = Some ei -> l !! j = Some ej -> headz (entity ei) <= headz (entity ej).
Proof.
  intros Hs Hn Hij Ei Ej. destruct (decide (i = j)) as [->|Hne].
  - rewrite Ei in Ej. injection Ej as ->. lia.
  - pose proof (lookup_lt_Some _ _ _ Ej). specialize (Hs i j). rewrite Ei, Ej in Hs. simpl in Hs.
    destruct (names_ok_lookup _ _ _ Hn Ei) as [Li _], (names_ok_lookup _ _ _ Hn Ej) as [Lj _].
    apply lex_lt_headz; [by intros E; rewrite E in Li; simpl in Li; lia
                        |by intros E; rewrite E in Lj; simpl in Lj; lia|apply Hs; lia].
Qed.

(** An entry with the property is at an index where [list_find] looks. *)
Lemma find_none_lookup (P : HTMLEntityTableEntry -> Prop) `{!forall e, Decision (P e)} l k e :
  list_find P l = None -> l !! k = Some e -> ~ P e.
Proof. intros Hf Hk HP. apply list_find_None in Hf. rewrite List.Forall_forall in Hf. apply (Hf e); [|done]. rewrite <- list_elem_of_In. by eapply list_elem_of_lookup_2. Qed.

(** The entries with the same first character are those from the first to the last of them. *)
Lemma heads_range l c i ei j' ej : sorted_names l -> names_ok l = true ->
  list_find (fun e => headz (entity e) = c) l = Some (i, ei) ->
  list_find (fun e => headz (entity e) = c) (reverse l) = Some (j', ej) ->
  (i <= length l - 1 - j')%nat /\ (length l - 1 - j' < length l)%nat /\
  forall k ek, l !! k = Some ek -> ((i <= k <= length l - 1 - j')%nat <-> headz (entity ek) = c).
Proof.
  intros Hs Hn Ef El. apply list_find_Some in Ef as (Ei & Hei & Hbefore).
  apply list_find_Some in El as (Ej & Hej & Hafter).
  pose proof (lookup_lt_Some _ _ _ Ej) as Hj'. rewrite length_reverse in Hj'.
  rewrite reverse_lookup in Ej by done. pose proof (lookup_lt_Some _ _ _ Ei) as Hi'.
  assert (Hij : (i <= length l - 1 - j')%nat).
  { destruct (decide (i <= length l - 1 - j')%nat); [done|exfalso].
    specialize (Hbefore _ _ Ej). apply Hbefore; [lia|done]. }
  split; [done|]. split; [lia|]. intros k ek Ek. split.
  - intros Hk. pose proof (heads_sorted l i k ei ek Hs Hn ltac:(lia) Ei Ek).
    pose proof (heads_sorted l k (length l - S j')%nat ek ej Hs Hn ltac:(lia) Ek Ej). lia.
  - intros Hc. pose proof (lookup_lt_Some _ _ _ Ek). split.
    + destruct (decide (i <= k)%nat); [done|exfalso]. apply (Hbefore k ek Ek); [lia|done].
    + destruct (decide (k <= length l - 1 - j')%nat); [done|exfalso].
      apply (Hafter (length l - S k)%nat ek); [|lia|done].
      rewrite reverse_lookup by lia. rewrite <- Ek. f_equal. lia.
Qed.

Lemma mkTable_ok l : sorted_names l -> names_ok l = true -> @EntityTableOK (mkTable l).
Proof.
  intros Hs Hn. split; simpl; [exact Hs|..]; unfold entityAt; simpl.
  - intros i c. destruct (l !! i) as [e|] eqn:E; simpl; [by eapply names_ok_lookup|].
    intros Hc. by apply not_elem_of_nil in Hc.
  - intros i Hi. destruct (lookup_lt_is_Some_2 _ _ Hi) as [e E]. rewrite E. simpl. by eapply names_ok_lookup.
  - intros c. destruct (list_find (fun e => headz (entity e) = c) l) as [[i ei]|] eqn:Ef; simpl;
      [destruct (list_find (fun e => headz (entity e) = c) (reverse l)) as [[j' ej]|] eqn:El; simpl|].
    + destruct (heads_range l c i ei j' ej Hs Hn Ef El) as (H1 & H2 & H3). split; [lia|]. intros k. split.
      * intros Hk. destruct (lookup_lt_is_Some_2 l k) as [ek Ek]; [lia|]. rewrite Ek. simpl. split; [lia|].
        by apply (H3 k ek Ek).
      * intros [Hk Hc]. destruct (lookup_lt_is_Some_2 l k) as [ek Ek]; [lia|]. rewrite Ek in Hc. by apply (H3 k ek Ek).
    + intros k Hk Hc. destruct (lookup_lt_is_Some_2 l k) as [ek Ek]; [lia|]. rewrite Ek in Hc. simpl in Hc.
      apply (find_none_lookup _ (reverse l) (length l - S k)%nat ek El); [|done].
      rewrite reverse_lookup by lia. rewrite <- Ek. f_equal. lia.
    + intros k Hk Hc. destruct (lookup_lt_is_Some_2 l k) as [ek Ek]; [lia|]. rewrite Ek in Hc. simpl in Hc.
      by apply (find_none_lookup _ l k ek Ef).
Qed.

Lemma exampleTable_ok : @EntityTableOK exampleTable.
Proof.
  apply mkTable_ok; [|reflexivity]. intros i j Hij. simpl in Hij.
  do 9 (destruct j as [|j]; [do 9 (destruct i as [|i]; [first [lia|cbn; lia]|]); lia|]). lia.
Qed.

(** Both "not" and "notin;" are entity names: after "noti" the search is still
    open and remembers "not". *)
Lemma entity_search_correct_witness :
  isEntityPrefix (@searchFor exampleTable (lit "noti")) = true /\
  @match_ok exampleTable (lit "noti")
    (m_mostRecentMatch (@searchFor exampleTable (lit "noti"))) /\
  m_mostRecentMatch (@searchFor exampleTable (lit "noti")) = Some 7%nat.
Proof.
  destruct (@entity_search_correct exampleTable exampleTable_ok
              (lit "noti")) as (_ & _ & H).
  - vm_compute. discriminate.
  - repeat constructor; lia.
  - split; [reflexivity|]. split; [exact H|reflexivity].
Defined.
