(* ===== verification/HTMLEntityParser.v ===== *)
(** * Character references

    [WebCore/xml/parser/CharacterReferenceParserInlines.h] and
    [WebCore/html/parser/HTMLEntityParser.cpp]: the parser for what follows an
    ampersand.  Numbers accumulate in a 32-bit signed [UChar32].  When the input
    ends before the reference is decided, the characters read are put back and
    [notEnoughCharacters] is set, so that the tokenizer can resume later. *)
From S2P Require Import Prelude Unicode CharSource HTMLEntitySearch.
From stdpp Require Import base list numbers option.
From Stdlib Require Import ZArith Lia.
#[local] Open Scope Z_scope.

(** ** Code points *)

Definition isHexDigit (cc : Z) : bool :=
  ((48 <=? cc) && (cc <=? 57)) || ((97 <=? cc) && (cc <=? 102)) || ((65 <=? cc) && (cc <=? 70)).

Definition isAlphaNumeric (cc : Z) : bool :=
  ((48 <=? cc) && (cc <=? 57)) || ((97 <=? cc) && (cc <=? 122)) || ((65 <=? cc) && (cc <=? 90)).

Definition windowsLatin1ExtensionArray : list Z := [
  0x20AC; 0x0081; 0x201A; 0x0192; 0x201E; 0x2026; 0x2020; 0x2021;
  0x02C6; 0x2030; 0x0160; 0x2039; 0x0152; 0x008D; 0x017D; 0x008F;
  0x0090; 0x2018; 0x2019; 0x201C; 0x201D; 0x2022; 0x2013; 0x2014;
  0x02DC; 0x2122; 0x0161; 0x203A; 0x0153; 0x009D; 0x017E; 0x0178].

(** [adjustEntity] returns a [UChar]. *)
Definition adjustEntity (value : Z) : Z :=
  if negb (Z.land value (Z.lnot 0x1F) =? 0x80) then uwrap 16 value
  else default 0 (windowsLatin1ExtensionArray !! Z.to_nat (value - 0x80)).

Definition legalEntityFor (value : Z) : Z :=
  if (value =? 0) || (0x10FFFF <? value) || ((0xD800 <=? value) && (value <=? 0xDFFF)) then 0xFFFD
  else if U_IS_BMP value then adjustEntity value
  else value.

(** [StringBuilder::append(UChar32)]. *)
Definition appendUChar32 (c : Z) : list Z :=
  if U_IS_BMP c then [uwrap 16 c] else [U16_LEAD c; U16_TRAIL c].

(** [decodedEntity] with the values of a table entry appended. *)
Definition entryValues (e : HTMLEntityTableEntry) : list Z :=
  appendUChar32 (firstValue e)
  ++ (if secondValue e =? 0 then [] else appendUChar32 (secondValue e)).

(** The local states of [consumeCharacterReference]. *)
Inductive EntityState : Type :=
| Initial
| Number
| MaybeHexLowerCaseX
| MaybeHexUpperCaseX
| Hex
| Decimal
| Named.

(** What the functions return through their references: success, the decoded
    characters, [notEnoughCharacters], and the source. *)
Record EntityResult (Src : Type) : Type := mkResult {
  success : bool;
  decoded : list Z;
  notEnoughCharacters : bool;
  res_source : Src;
}.
Arguments mkResult {Src}.
Arguments success {Src}.
Arguments decoded {Src}.
Arguments notEnoughCharacters {Src}.
Arguments res_source {Src}.

Section EntityParser.
Context `{CharSource Src} `{EntityTable}.

Definition unconsumeCharacters (consumed : list Z) (s : Src) : Src :=
  match consumed with
  | [a] => push a s
  | [a; b] => push b (push a s)
  | _ => prependString consumed s
  end.

(** The loop that follows the search while the input is a prefix of some
    entity; [cc] is the last character looked at. *)
Fixpoint namedLoop (fuel : nat) (search : HTMLEntitySearch) (consumed : list Z) (cc : Z) (s : Src)
  : HTMLEntitySearch * list Z * Z * Src :=
  match fuel with
  | O => (search, consumed, cc, s)
  | S fuel =>
      if isEmpty s then (search, consumed, cc, s)
      else
        let cc := currentChar s in
        let search := searchAdvance cc search in
        if isEntityPrefix search
        then namedLoop fuel search (consumed ++ [cc]) cc (advance s)
        else (search, consumed, cc, s)
  end.

(** The walk back to the end of the most recent match. *)
Fixpoint rereadLoop (n : nat) (consumed : list Z) (s : Src) : list Z * Src :=
  match n with
  | O => (consumed, s)
  | S n => rereadLoop n (consumed ++ [currentChar s]) (advance s)
  end.

Definition consumeNamedEntity (additionalAllowedCharacter : Z) (cc : Z) (s : Src)
  : EntityResult Src :=
  let '(search, consumed, cc, s) := namedLoop (sourceLength s) newSearch [] cc s in
  if isEmpty s then mkResult false [] true (unconsumeCharacters consumed s)
  else
    match m_mostRecentMatch search ≫= fun m => entries !! m with
    | None => mkResult false [] false (unconsumeCharacters consumed s)
    | Some e =>
        let tooMany := negb (length (entity e) =? m_currentLength search)%nat in
        let '(consumed, s) :=
          if tooMany
          then rereadLoop (length (entity e)) [] (unconsumeCharacters consumed s)
          else (consumed, s) in
        let cc := if tooMany then currentChar s else cc in
        if (lastCharacter e =? 59) || (additionalAllowedCharacter =? 0)
           || negb (isAlphaNumeric cc || (cc =? 61))
        then mkResult true (entryValues e) false s
        else mkResult false [] false (unconsumeCharacters consumed s)
    end.

(** The loop of [consumeCharacterReference].  A round either consumes a
    character or moves to a later local state; [None] would be a loop that is
    still running when the fuel is used up. *)
Fixpoint referenceLoop (fuel : nat) (additionalAllowedCharacter : Z) (state : EntityState)
  (result : Z) (consumed : list Z) (s : Src) : option (EntityResult Src) :=
  match fuel with
  | O => None
  | S fuel =>
      if isEmpty s then Some (mkResult false [] true (unconsumeCharacters consumed s))
      else
        let cc := currentChar s in
        let fail s := Some (mkResult false [] false s) in
        let continue state := referenceLoop fuel additionalAllowedCharacter state result consumed s in
        let next state result :=
          referenceLoop fuel additionalAllowedCharacter state result (consumed ++ [cc]) (advance s) in
        match state with
        | Initial =>
            if (cc =? 9) || (cc =? 10) || (cc =? 12) || (cc =? 32) || (cc =? 60) || (cc =? 38)
            then fail s
            else if negb (additionalAllowedCharacter =? 0) && (cc =? additionalAllowedCharacter)
            then fail s
            else if cc =? 35 then next Number result
            else if ((97 <=? cc) && (cc <=? 122)) || ((65 <=? cc) && (cc <=? 90))
            then continue Named
            else fail s
        | Number =>
            if cc =? 120 then next MaybeHexLowerCaseX result
            else if cc =? 88 then next MaybeHexUpperCaseX result
            else if (48 <=? cc) && (cc <=? 57) then continue Decimal
            else fail (push 35 s)
        | MaybeHexLowerCaseX =>
            if isHexDigit cc then continue Hex else fail (push 120 (push 35 s))
        | MaybeHexUpperCaseX =>
            if isHexDigit cc then continue Hex else fail (push 88 (push 35 s))
        | Hex =>
            if (48 <=? cc) && (cc <=? 57) then next Hex (swrap 32 (result * 16 + cc - 48))
            else if (97 <=? cc) && (cc <=? 102) then next Hex (swrap 32 (result * 16 + 10 + cc - 97))
            else if (65 <=? cc) && (cc <=? 70) then next Hex (swrap 32 (result * 16 + 10 + cc - 65))
            else if cc =? 59
            then Some (mkResult true (appendUChar32 (legalEntityFor result)) false (advance s))
            else Some (mkResult true (appendUChar32 (legalEntityFor result)) false s)
        | Decimal =>
            if (48 <=? cc) && (cc <=? 57) then next Decimal (swrap 32 (result * 10 + cc - 48))
            else if cc =? 59
            then Some (mkResult true (appendUChar32 (legalEntityFor result)) false (advance s))
            else Some (mkResult true (appendUChar32 (legalEntityFor result)) false s)
        | Named => Some (consumeNamedEntity additionalAllowedCharacter cc s)
        end
  end.

(** [consumeHTMLEntity]. *)
Definition consumeHTMLEntity (additionalAllowedCharacter : Z) (s : Src)
  : option (EntityResult Src) :=
  referenceLoop (2 * sourceLength s + 2) additionalAllowedCharacter Initial 0 [] s.

(** [decodeNamedEntityToUCharArray], used by the XML parser: the code units it
    writes, [None] for a return value of 0. *)
Definition decodeNamedEntityToUCharArray (name : list Z) : option (list Z) :=
  let search := searchFor name in
  if negb (isEntityPrefix search) then None
  else
    let search := searchAdvance 59 search in
    if negb (isEntityPrefix search) then None
    else entryValues <$> (m_mostRecentMatch search ≫= fun m => entries !! m).

End EntityParser.
