(* ===== verification/HTMLEntityFacts.v ===== *)
(** * Character references on an abstract source

    What the tokenizer relies on: [consumeHTMLEntity] always returns, never
    leaves the source longer than it found it, and what it pushes back is what
    it read. *)
From S2P Require Import Prelude CharSource HTMLEntitySearch HTMLEntityParser.
From stdpp Require Import base list numbers option.
From Stdlib Require Import ZArith Lia.
#[local] Open Scope Z_scope.
Import Stream StreamFacts.

(** The number of characters still to be read. *)
Definition len (s : Stream) : nat := length (chars s).

Lemma len_advance s : len (advance s) = (len s - 1)%nat.
Proof. apply length_chars_advance. Qed.

Lemma len_push c s : (len (push c s) <= S (len s))%nat.
Proof. destruct s as [[|a [|b p]] r n cl]; unfold len, chars; simpl; rewrite ?length_app; lia. Qed.

Lemma len_prepend l s : len (prependString l s) = (length l + len s)%nat.
Proof. unfold len, chars, prependString; simpl. rewrite !length_app. lia. Qed.

Lemma len_nonempty s : isEmpty s = false -> (0 < len s)%nat.
Proof.
  intros H. apply isEmpty_false_chars in H. unfold len. destruct (chars s); [done|simpl; lia].
Qed.

Section Facts.
Context `{FoldCase} `{EntityTable}.

Lemma len_unconsume l s : (len (unconsumeCharacters l s) <= length l + len s)%nat.
Proof.
  unfold unconsumeCharacters.
  destruct l as [|a [|b [|c l]]]; cbn [CharSource.push CharSource.prependString stream_source].
  - rewrite len_prepend. simpl; lia.
  - pose proof (len_push a s). simpl; lia.
  - pose proof (len_push a s). pose proof (len_push b (push a s)). simpl; lia.
  - rewrite len_prepend. simpl; lia.
Qed.

(** The search has read [n] characters, and no match is longer. *)
Definition search_len (n : nat) (search : HTMLEntitySearch) : Prop :=
  m_currentLength search = n /\
  forall m, m_mostRecentMatch search = Some m -> (length (entityAt m) <= n)%nat.

Lemma searchMatched_len n search i j :
  search_len n search -> search_len (S n) (searchMatched search i j).
Proof.
  intros [H1 H2]. split; simpl; [by rewrite H1|]. intros m.
  destruct (Nat.eqb_spec (length (entityAt i)) (S (m_currentLength search))) as [E|E].
  - intros [= <-]. lia.
  - intros Hm. apply H2 in Hm. lia.
Qed.

Lemma searchAdvance_len n search c :
  search_len n search ->
  search_len (if isEntityPrefix (searchAdvance c search) then S n else n) (searchAdvance c search).
Proof.
  intros Hs. unfold searchAdvance.
  repeat case_match; cbn [isEntityPrefix m_first searchFail searchMatched];
    first [discriminate|by apply searchMatched_len|exact Hs].
Qed.

Lemma namedLoop_len fuel search consumed cc s search' consumed' cc' s' :
  namedLoop fuel search consumed cc s = (search', consumed', cc', s') ->
  search_len (length consumed) search ->
  search_len (length consumed') search' /\
  (length consumed' + len s' = length consumed + len s)%nat.
Proof.
  revert search consumed cc s; induction fuel as [|fuel IH]; intros search consumed cc s; simpl.
  { by intros [= <- <- <- <-]. }
  destruct (Stream.isEmpty s) eqn:Ee; [by intros [= <- <- <- <-]|].
  intros E Hs. pose proof (searchAdvance_len _ _ (Stream.currentChar s) Hs) as Ha.
  destruct (isEntityPrefix _) eqn:Ep.
  - apply IH in E as [E1 E2].
    + split; [done|]. rewrite E2, length_app, len_advance. pose proof (len_nonempty s Ee).
      simpl. lia.
    + rewrite length_app. simpl. by rewrite Nat.add_1_r.
  - by injection E as <- <- <- <-.
Qed.

Lemma rereadLoop_len n consumed s consumed' s' :
  rereadLoop n consumed s = (consumed', s') ->
  length consumed' = (length consumed + n)%nat /\ len s' = (len s - n)%nat.
Proof.
  revert consumed s; induction n as [|n IH]; intros consumed s; simpl.
  { intros [= <- <-]. lia. }
  intros E. apply IH in E as [E1 E2]. rewrite length_app in E1. rewrite len_advance in E2.
  simpl in E1. lia.
Qed.

Lemma consumeNamedEntity_len additional cc s :
  (len (res_source (consumeNamedEntity additional cc s)) <= len s)%nat.
Proof.
  unfold consumeNamedEntity.
  destruct (namedLoop _ _ _ _ _) as [[[search consumed] cc'] s'] eqn:En.
  apply namedLoop_len in En as [[Hc Hm] Hl]; [|split; simpl; [done|congruence]].
  simpl in Hl. pose proof (len_unconsume consumed s') as Hu.
  destruct (CharSource.isEmpty s'); [simpl; lia|].
  destruct (m_mostRecentMatch search) as [m|] eqn:Em; simpl; [|lia].
  specialize (Hm m eq_refl). unfold entityAt in Hm.
  destruct (entries !! m) as [e|] eqn:Ee; simpl in *; [|lia].
  destruct (negb _) eqn:Et.
  - destruct (rereadLoop _ _ _) as [c2 s2] eqn:Er.
    apply rereadLoop_len in Er as [Er1 Er2]. simpl in Er1.
    pose proof (len_unconsume c2 s2). split_if; simpl; lia.
  - split_if; simpl; lia.
Qed.

Definition erank (st : EntityState) : nat :=
  match st with Initial | Number | MaybeHexLowerCaseX | MaybeHexUpperCaseX => 1 | _ => 0 end.

Definition pushedBack (st : EntityState) : nat :=
  match st with Number => 1 | MaybeHexLowerCaseX | MaybeHexUpperCaseX => 2 | _ => 0 end.

(** The loop returns, and what it pushes back it has read. *)
Lemma referenceLoop_total fuel additional st result consumed s :
  (2 * len s + erank st < fuel)%nat -> (pushedBack st <= length consumed)%nat ->
  exists r, referenceLoop fuel additional st result consumed s = Some r /\
    (len (res_source r) <= length consumed + len s)%nat.
Proof.
  revert st result consumed s; induction fuel as [|fuel IH]; intros st result consumed s Hf Hp;
    [lia|]. cbn [referenceLoop].
  destruct (CharSource.isEmpty s) eqn:Ee.
  { eexists; split; [done|]. apply len_unconsume. }
  apply len_nonempty in Ee.
  assert (Hnext : forall st' result',
    (pushedBack st' <= S (length consumed))%nat ->
    exists r, referenceLoop fuel additional st' result' (consumed ++ [CharSource.currentChar s])
                (CharSource.advance s) = Some r /\
      (len (res_source r) <= length consumed + len s)%nat).
  { intros st' result' Hp'.
    destruct (IH st' result' (consumed ++ [CharSource.currentChar s]) (CharSource.advance s))
      as (r & Hr & Hl); cbn [CharSource.advance stream_source] in *;
      rewrite ?length_app, ?len_advance in *; simpl in *.
    - assert (erank st' <= 1)%nat by (destruct st'; simpl; lia). lia.
    - lia.
    - exists r. split; [done|]. lia. }
  assert (Hcont : forall st', (erank st' < erank st)%nat -> pushedBack st' = 0%nat ->
    exists r, referenceLoop fuel additional st' result consumed s = Some r /\
      (len (res_source r) <= length consumed + len s)%nat).
  { intros st' H1 H2. apply IH; lia. }
  pose proof (len_push 35 s). pose proof (len_push 120 (push 35 s)).
  pose proof (len_push 88 (push 35 s)). pose proof (len_advance s).
  pose proof (consumeNamedEntity_len additional (CharSource.currentChar s) s).
  destruct st; simpl in Hp; repeat case_match;
    first [ apply Hnext; simpl; lia
          | apply Hcont; simpl; lia
          | eexists; split; [reflexivity|]; cbn in *; lia ].
Qed.

Lemma consumeHTMLEntity_total additional s :
  exists r, consumeHTMLEntity additional s = Some r /\ (len (res_source r) <= len s)%nat.
Proof.
  unfold consumeHTMLEntity.
  destruct (referenceLoop_total (2 * sourceLength s + 2) additional Initial 0 [] s)
    as (r & Hr & Hl); cbn [sourceLength stream_source]; unfold len in *; simpl; try lia.
  eauto.
Qed.

Lemma unconsume_exact l (a : Stream) :
  st_pushed a = [] -> chars (unconsumeCharacters l a) = l ++ chars a.
Proof.
  destruct a as [p r n cl]; simpl; intros ->. unfold unconsumeCharacters, chars.
  destruct l as [|x [|y [|z l]]]; simpl; done.
Qed.

End Facts.

(** ** The search in the loop *)

Section Searching.
Context `{EntityTable} `{!EntityTableOK}.

(** The state of the search in the loop. *)
Definition searching (consumed : list Z) (search : HTMLEntitySearch) : Prop :=
  isEntityPrefix search = true /\
  (consumed = [] /\ search = newSearch \/ consumed <> [] /\ SearchInv consumed search).

Lemma searching_advance consumed search c :
  searching consumed search -> 0 <= c ->
  SearchInv (consumed ++ [c]) (searchAdvance c search).
Proof.
  intros [Hp [[-> ->]|[Hne Hi]]] Hc; [by apply searchAdvance_first|].
  by apply searchAdvance_inv.
Qed.

Lemma searching_positive w c search :
  SearchInv (w ++ [c]) search -> isEntityPrefix search = true -> 0 < c.
Proof.
  intros Hi Hp. destruct (inv_range _ _ Hi Hp) as (_ & i & j & _ & _ & Hij & Hr).
  destruct (proj2 (Hr i ltac:(lia)) ltac:(lia)) as [r Er].
  apply (entries_positive i). rewrite Er. apply elem_of_app. left. apply elem_of_app. right.
  by constructor.
Qed.

End Searching.

(** ** What is left of a source

    [follows s s']: [s'] is what is left of [s] after some of it was read.  Nothing was put
    back that had not been read, so no fewer characters count as consumed, and every
    character that is left was there before. *)
Definition follows (s s' : Stream) : Prop :=
  st_consumed s <= st_consumed s' /\ (length (st_pushed s') <= 2)%nat /\
  forall c, c ∈ chars s' -> c ∈ chars s.

(** The characters of [l] were read from [s], and [s'] follows. *)
Definition readFrom (s : Stream) (l : list Z) (s' : Stream) : Prop :=
  st_consumed s + Z.of_nat (length l) <= st_consumed s' /\
  (length (st_pushed s') <= 2 - length l)%nat /\
  forall c, c ∈ l ++ chars s' -> c ∈ chars s.

Lemma follows_refl s : (length (st_pushed s) <= 2)%nat -> follows s s.
Proof. intros Hp. unfold follows, readFrom; split_and!; [lia|done|done]. Qed.

Lemma follows_trans s1 s2 s3 : follows s1 s2 -> follows s2 s3 -> follows s1 s3.
Proof. intros (A1 & A2 & A3) (B1 & B2 & B3). unfold follows, readFrom; split_and!; [lia|done|auto]. Qed.

Lemma pushed_length_advance a : length (st_pushed (advance a)) = (length (st_pushed a) - 1)%nat.
Proof. destruct a as [[|c p] [|d r] n cl]; simpl; lia. Qed.

Lemma elem_of_advance c s : c ∈ chars (advance s) -> c ∈ chars s.
Proof. rewrite chars_advance. destruct (chars s); [done|]. by right. Qed.

Lemma follows_advance s : (length (st_pushed s) <= 2)%nat -> follows s (advance s).
Proof.
  intros Hp. unfold follows, readFrom; split_and!; [|rewrite pushed_length_advance; lia|intros c; apply elem_of_advance].
  rewrite consumed_advance. destruct (_ =? _)%nat; lia.
Qed.

Lemma currentChar_elem s : isEmpty s = false -> currentChar s ∈ chars s.
Proof. intros He%isEmpty_false_chars. unfold currentChar. destruct (chars s); [done|]. by left. Qed.

Lemma consumed_step s : isEmpty s = false -> st_consumed (advance s) = st_consumed s + 1.
Proof.
  intros He%isEmpty_false_chars. rewrite consumed_advance. destruct (chars s); [done|]. simpl. lia.
Qed.

Lemma readFrom_nil s : (length (st_pushed s) <= 2)%nat -> readFrom s [] s.
Proof. intros Hp. unfold follows, readFrom; split_and!; simpl; [lia|lia|done]. Qed.

Lemma readFrom_follows s l s' : readFrom s l s' -> follows s s'.
Proof.
  intros (H1 & H2 & H3). unfold follows, readFrom; split_and!; [lia|lia|]. intros c Hc. apply H3, elem_of_app. by right.
Qed.

Lemma readFrom_next s l s' :
  readFrom s l s' -> isEmpty s' = false -> readFrom s (l ++ [currentChar s']) (advance s').
Proof.
  intros (H1 & H2 & H3) He. unfold follows, readFrom; split_and!.
  - rewrite consumed_step, length_app by done. simpl. lia.
  - rewrite pushed_length_advance, length_app. simpl. lia.
  - intros c. rewrite <- app_assoc, elem_of_app. intros [Hc|Hc]; apply H3, elem_of_app; [by left|right].
    apply elem_of_app in Hc as [Hc%list_elem_of_singleton|Hc]; [subst c; by apply currentChar_elem|by apply elem_of_advance].
Qed.

(** What was read may be put back. *)
Lemma follows_push s l s' c :
  readFrom s l s' -> c ∈ l -> st_consumed s < st_consumed s' -> follows s (push c s').
Proof.
  intros (H1 & H2 & H3) Hc Hn. unfold follows, readFrom; split_and!.
  - simpl. lia.
  - simpl. destruct (st_pushed s'); simpl; lia.
  - intros d Hd. apply H3, elem_of_app. revert Hd. unfold chars, push. destruct s' as [[|x p] r n cl]; simpl;
      rewrite ?elem_of_cons, ?elem_of_app; intuition (subst; auto).
Qed.

Lemma follows_push2 s a b s' : readFrom s [a; b] s' -> follows s (push b (push a s')).
Proof.
  intros (H1 & H2 & H3). simpl in H1, H2. destruct s' as [[|x p] r n cl]; simpl in H2; [|lia].
  unfold follows, readFrom; split_and!; simpl in *; [lia|lia|]. intros c Hc. apply H3. by unfold chars in *.
Qed.

Section Follows.
Context `{FoldCase} `{EntityTable}.

Lemma follows_unconsume s l s' : readFrom s l s' -> follows s (unconsumeCharacters l s').
Proof.
  intros Hr. unfold unconsumeCharacters. cbn [CharSource.push CharSource.prependString stream_source].
  assert (Hpre : follows s (prependString l s')).
  { destruct Hr as (H1 & H2 & H3). unfold follows, readFrom; split_and!; simpl; [lia|lia|]. intros c Hc. apply H3. revert Hc.
    unfold chars; simpl. rewrite !elem_of_app. tauto. }
  destruct l as [|a [|b [|c l]]]; [done| |by apply follows_push2|done].
  eapply follows_push; [done|by left|]. destruct Hr as (H1 & _). simpl in H1. lia.
Qed.

Lemma namedLoop_read s fuel search consumed cc s1 search' consumed' cc' s' :
  namedLoop fuel search consumed cc s1 = (search', consumed', cc', s') ->
  readFrom s consumed s1 -> readFrom s consumed' s'.
Proof.
  revert search consumed cc s1; induction fuel as [|fuel IH]; intros search consumed cc s1; simpl.
  { by intros [= <- <- <- <-]. }
  destruct (Stream.isEmpty s1) eqn:Ee; [by intros [= <- <- <- <-]|]. intros E Hr.
  destruct (isEntityPrefix _); [|by simplify_eq]. eapply IH; [exact E|]. by apply readFrom_next.
Qed.

Lemma rereadLoop_read n consumed s1 consumed' s' s :
  rereadLoop n consumed s1 = (consumed', s') -> (n <= len s1)%nat -> st_pushed s1 = [] ->
  readFrom s consumed s1 -> readFrom s consumed' s' /\ st_pushed s' = [].
Proof.
  revert consumed s1; induction n as [|n IH]; intros consumed s1; simpl; [by intros [= <- <-]|].
  intros E Hn Hp Hr. assert (He : isEmpty s1 = false).
  { unfold len, chars in Hn. rewrite Hp in Hn. unfold isEmpty. destruct (st_rest s1); [simpl in Hn; lia|done]. }
  eapply IH; [exact E| | |by apply readFrom_next].
  - cbn. rewrite len_advance. lia.
  - cbn. apply nil_length_inv. by rewrite pushed_length_advance, Hp.
Qed.

Lemma consumeNamedEntity_follows `{!EntityTableOK} additional cc s :
  (length (st_pushed s) <= 2)%nat -> follows s (res_source (consumeNamedEntity additional cc s)).
Proof.
  intros Hs. unfold consumeNamedEntity.
  destruct (namedLoop _ _ _ _ _) as [[[search consumed] cc'] s'] eqn:En.
  pose proof (namedLoop_read s _ _ _ _ _ _ _ _ _ En (readFrom_nil s Hs)) as Hr.
  apply namedLoop_len in En as [[Hcur Hlen] _]; [|split; simpl; [done|congruence]].
  pose proof (follows_unconsume _ _ _ Hr) as Hu. pose proof (readFrom_follows _ _ _ Hr) as Hf.
  destruct (CharSource.isEmpty s'); [done|].
  destruct (m_mostRecentMatch search) as [m|] eqn:Em; [|done]. cbn [mbind option_bind].
  destruct (entries !! m) as [e|] eqn:Ee; [|done].
  destruct (negb _) eqn:Et; [|by split_if].
  specialize (Hlen m eq_refl). pose proof (entries_length m (lookup_lt_Some _ _ _ Ee)) as H2.
  assert (He : entityAt m = entity e) by (unfold entityAt; by rewrite Ee). rewrite He in *.
  apply negb_true_iff, Nat.eqb_neq in Et. rewrite Hcur in Et.
  destruct (rereadLoop _ _ _) as [c2 s2] eqn:Er.
  assert (Hnil : st_pushed s' = []) by (apply nil_length_inv; destruct Hr as (_ & Hr & _); lia).
  assert (Hpre : unconsumeCharacters consumed s' = prependString consumed s')
    by (destruct consumed as [|? [|? [|? ?]]]; simpl in *; try lia; done).
  rewrite Hpre in Er. apply (rereadLoop_read _ _ _ _ _ s) in Er as [Hr2 _].
  - pose proof (follows_unconsume _ _ _ Hr2). apply readFrom_follows in Hr2. by split_if.
  - rewrite len_prepend. lia.
  - done.
  - rewrite Hpre in Hu. destruct Hu as (U1 & U2 & U3). unfold follows, readFrom; split_and!; simpl in *; [lia|lia|done].
Qed.

(** What the loop has read when it is in a state. *)
Definition readIn (st : EntityState) (consumed : list Z) : Prop :=
  match st with
  | Initial | Named => consumed = []
  | Number => consumed = [35]
  | MaybeHexLowerCaseX => consumed = [35; 120]
  | MaybeHexUpperCaseX => consumed = [35; 88]
  | Hex | Decimal => True
  end.

Lemma referenceLoop_follows `{!EntityTableOK} s fuel additional st result consumed s1 r :
  referenceLoop fuel additional st result consumed s1 = Some r ->
  readIn st consumed -> readFrom s consumed s1 -> follows s (res_source r).
Proof.
  revert st result consumed s1; induction fuel as [|fuel IH]; intros st result consumed s1 E Hst Hr;
    [done|]. cbn [referenceLoop CharSource.isEmpty CharSource.currentChar CharSource.advance CharSource.push
                  stream_source] in E.
  destruct (Stream.isEmpty s1) eqn:Ee; [simplify_eq; by apply follows_unconsume|].
  pose proof (readFrom_next _ _ _ Hr Ee) as Hn. pose proof (readFrom_follows _ _ _ Hr) as Hf.
  pose proof (readFrom_follows _ _ _ Hn) as Hf'.
  assert (Hp1 : (length (st_pushed s1) <= 2)%nat) by apply Hf.
  assert (Hgo : forall st' result', readIn st' (consumed ++ [Stream.currentChar s1]) ->
    referenceLoop fuel additional st' result' (consumed ++ [Stream.currentChar s1]) (advance s1) = Some r ->
    follows s (res_source r)) by (intros st' result' Hst' E'; by eapply IH).
  assert (Hstay : forall st', readIn st' consumed ->
    referenceLoop fuel additional st' result consumed s1 = Some r -> follows s (res_source r))
    by (intros st' Hst' E'; by eapply IH).
  destruct st; simpl in Hst; subst;
    repeat match type of E with (if ?b then _ else _) = _ => destruct b eqn:? end; bool_to_prop;
    first [ by simplify_eq
          | eapply Hgo; [|exact E]; simpl; congruence || (f_equal; congruence) || done
          | eapply Hstay; [|exact E]; done
          | simplify_eq; eapply follows_push; [exact Hr|by left|destruct Hr as (Hr & _); simpl in Hr; lia]
          | simplify_eq; by apply follows_push2
          | simplify_eq; eapply follows_trans; [exact Hf|by apply consumeNamedEntity_follows] ].
Qed.

Lemma consumeHTMLEntity_follows `{!EntityTableOK} additional s r :
  consumeHTMLEntity additional s = Some r -> (length (st_pushed s) <= 2)%nat -> follows s (res_source r).
Proof. intros E Hp. eapply referenceLoop_follows; [exact E|done|by apply readFrom_nil]. Qed.

(** Without a number sign there are only named references. *)
Lemma consumeNamedEntity_decoded additional cc s :
  decoded (consumeNamedEntity additional cc s) = [] \/
  exists e, e ∈ entries /\ decoded (consumeNamedEntity additional cc s) = entryValues e.
Proof.
  unfold consumeNamedEntity. destruct (namedLoop _ _ _ _ _) as [[[search consumed] cc'] s'].
  destruct (CharSource.isEmpty s'); [by left|].
  destruct (m_mostRecentMatch search ≫= _) as [e|] eqn:Em; [|by left].
  apply bind_Some in Em as (m & _ & Em). apply list_elem_of_lookup_2 in Em.
  destruct (if negb _ then _ else _) as [c2 s2]. split_if; [right; by exists e|by left].
Qed.

Lemma consumeHTMLEntity_decoded additional s r :
  consumeHTMLEntity additional s = Some r -> 35 ∉ chars s ->
  decoded r = [] \/ exists e, e ∈ entries /\ decoded r = entryValues e.
Proof.
  unfold consumeHTMLEntity. intros E Hh.
  assert (exists f, (2 * sourceLength s + 2 = S (S f))%nat) as [f Ef] by (eexists (2 * sourceLength s)%nat; lia).
  rewrite Ef in E. cbn [referenceLoop CharSource.isEmpty CharSource.currentChar stream_source] in E.
  destruct (Stream.isEmpty s) eqn:Ee; [simplify_eq; by left|].
  assert (Hc : (Stream.currentChar s =? 35) = false).
  { apply Z.eqb_neq. intros Hc. apply Hh. rewrite <- Hc. by apply currentChar_elem. }
  rewrite Hc in E. repeat match type of E with (if ?b then _ else _) = _ => destruct b eqn:? end; simplify_eq;
    try (by left). apply consumeNamedEntity_decoded.
Qed.

End Follows.
