(* ===== verification/HTMLEntityProps.v ===== *)
(** * Numeric and named character references

    What [consumeHTMLEntity] decodes, on any source that holds the reference. *)
From S2P Require Import Prelude Unicode CharSource HTMLEntitySearch HTMLEntityParser HTMLEntityFacts.
From stdpp Require Import base list numbers option.
From Stdlib Require Import ZArith Lia.
#[local] Open Scope Z_scope.
Import Stream StreamFacts.

(** ** Digits *)

Definition isDecimalDigit (c : Z) : bool := (48 <=? c) && (c <=? 57).

(** The value of a digit as the loop adds it up. *)
Definition digitValue (c : Z) : Z :=
  if (48 <=? c) && (c <=? 57) then c - 48
  else if (97 <=? c) && (c <=? 102) then c - 87 else c - 55.

(** The mathematical value of a string of digits, after [v]. *)
Definition digitsValue (base v : Z) (digits : list Z) : Z :=
  fold_left (fun v c => v * base + digitValue c) digits v.

Lemma forallb_impl {A} (p q : A -> bool) l :
  (forall x, p x = true -> q x = true) -> forallb p l = true -> forallb q l = true.
Proof. rewrite !forallb_forall. auto. Qed.

Lemma digitsValue_nonneg base v digits :
  0 <= base -> 0 <= v -> forallb isHexDigit digits = true -> 0 <= digitsValue base v digits.
Proof.
  intros Hb. unfold digitsValue. revert v. induction digits as [|d digits IH]; intros v Hv; cbn; [done|].
  intros [Hd Hds]%andb_true_iff. apply IH; [|done]. unfold isHexDigit in Hd. unfold digitValue.
  rewrite !orb_true_iff, !andb_true_iff, !Z.leb_le in Hd.
  repeat case_match; bool_to_prop; nia.
Qed.

(** What a numeric reference to [v] stands for, [v] being read modulo 2^32. *)
Definition referenceTo (v : Z) : list Z := appendUChar32 (legalEntityFor (swrap 32 v)).

(** The characters after a reference that [c] ends. *)
Definition afterReference (c : Z) (rest : list Z) : list Z :=
  if c =? 59 then rest else c :: rest.

Section Numeric.
Context `{FoldCase} `{EntityTable}.

Lemma normal_nonempty s c l : normal s -> chars s = c :: l -> isEmpty s = false.
Proof.
  intros Hn E. destruct (isEmpty s) eqn:Ee; [|done]. apply (normal_isEmpty s Hn) in Ee. congruence.
Qed.

Lemma currentChar_cons s c l : chars s = c :: l -> currentChar s = c.
Proof. unfold currentChar. by intros ->. Qed.

(** The end of a number: a semicolon is consumed with it. *)
Lemma number_end (st : EntityState) fuel additional result consumed s c rest :
  (st = Decimal /\ isDecimalDigit c = false \/ st = Hex /\ isHexDigit c = false) ->
  normal s -> chars s = c :: rest ->
  exists s', referenceLoop (S fuel) additional st result consumed s
             = Some (mkResult true (appendUChar32 (legalEntityFor result)) false s') /\
    chars s' = afterReference c rest /\ normal s'.
Proof.
  intros Hst Hn Hc. cbn [referenceLoop CharSource.isEmpty CharSource.currentChar CharSource.advance
                         stream_source].
  rewrite (normal_nonempty _ _ _ Hn Hc), (currentChar_cons _ _ _ Hc).
  unfold afterReference, isHexDigit, isDecimalDigit in *.
  assert (Ha : chars (advance s) = rest) by (by rewrite chars_advance, Hc).
  pose proof (normal_advance s Hn).
  destruct Hst as [[-> Hd]|[-> Hd]].
  - rewrite Hd. case_match; eexists; split; done.
  - apply orb_false_iff in Hd as [[Hd1 Hd2]%orb_false_iff Hd3]. rewrite Hd1, Hd2, Hd3.
    case_match; eexists; split; done.
Qed.

Lemma decimal_loop digits : forall fuel additional result consumed s c rest,
  forallb isDecimalDigit digits = true -> isDecimalDigit c = false ->
  normal s -> chars s = digits ++ c :: rest -> (length digits < fuel)%nat ->
  exists s', referenceLoop fuel additional Decimal (swrap 32 result) consumed s
             = Some (mkResult true (referenceTo (digitsValue 10 result digits)) false s') /\
    chars s' = afterReference c rest /\ normal s'.
Proof.
  induction digits as [|d digits IH]; intros fuel additional result consumed s c rest Hd Hc Hn Hs Hf;
    (destruct fuel as [|fuel]; [simpl in Hf; lia|]).
  - apply number_end; [by left|done|done].
  - simpl in Hd. apply andb_true_iff in Hd as [Hd Hds]. simpl in Hs, Hf.
    cbn [referenceLoop CharSource.isEmpty CharSource.currentChar CharSource.advance stream_source].
    rewrite (normal_nonempty _ _ _ Hn Hs), (currentChar_cons _ _ _ Hs).
    unfold isDecimalDigit in Hd. rewrite Hd.
    replace (swrap 32 result * 10 + d - 48) with (swrap 32 result * 10 + (d - 48)) by lia.
    rewrite swrap_linear by lia.
    destruct (IH fuel additional (result * 10 + (d - 48)) (consumed ++ [d]) (advance s) c rest)
      as (s' & E & Hs' & Hn'); try done.
    + by apply normal_advance.
    + by rewrite chars_advance, Hs.
    + lia.
    + exists s'. split; [|done]. rewrite E.
      change (digitsValue 10 result (d :: digits))
        with (digitsValue 10 (result * 10 + digitValue d) digits).
      assert (digitValue d = d - 48) as -> by (unfold digitValue; by rewrite Hd). done.
Qed.

Lemma hex_loop digits : forall fuel additional result consumed s c rest,
  forallb isHexDigit digits = true -> isHexDigit c = false ->
  normal s -> chars s = digits ++ c :: rest -> (length digits < fuel)%nat ->
  exists s', referenceLoop fuel additional Hex (swrap 32 result) consumed s
             = Some (mkResult true (referenceTo (digitsValue 16 result digits)) false s') /\
    chars s' = afterReference c rest /\ normal s'.
Proof.
  induction digits as [|d digits IH]; intros fuel additional result consumed s c rest Hd Hc Hn Hs Hf;
    (destruct fuel as [|fuel]; [simpl in Hf; lia|]).
  - apply number_end; [by right|done|done].
  - simpl in Hd. apply andb_true_iff in Hd as [Hd Hds]. simpl in Hs, Hf.
    cbn [referenceLoop CharSource.isEmpty CharSource.currentChar CharSource.advance stream_source].
    rewrite (normal_nonempty _ _ _ Hn Hs), (currentChar_cons _ _ _ Hs).
    destruct (IH fuel additional (result * 16 + digitValue d) (consumed ++ [d]) (advance s) c rest)
      as (s' & E & Hs' & Hn'); try done.
    + by apply normal_advance.
    + by rewrite chars_advance, Hs.
    + lia.
    + exists s'. split; [|done].
      change (digitsValue 16 result (d :: digits))
        with (digitsValue 16 (result * 16 + digitValue d) digits). rewrite <- E.
      unfold isHexDigit in Hd. rewrite <- swrap_linear by lia. unfold digitValue.
      repeat case_match; simplify_eq; try discriminate; do 2 f_equal; lia.
Qed.

(** The first round reads the number sign. *)
Lemma reference_number fuel additional s l :
  additional <> 35 -> normal s -> chars s = 35 :: l ->
  referenceLoop (S fuel) additional Initial 0 [] s
  = referenceLoop fuel additional Number 0 [35] (advance s).
Proof.
  intros Ha Hn Hc. cbn [referenceLoop CharSource.isEmpty CharSource.currentChar CharSource.advance
                        stream_source].
  rewrite (normal_nonempty _ _ _ Hn Hc), (currentChar_cons _ _ _ Hc).
  destruct (Z.eqb_spec 35 additional) as [E|_]; [congruence|].
  by destruct (negb (additional =? 0)).
Qed.

(** After an ampersand, a number sign, decimal digits and a
    character that is not a digit are decoded to the code point the digits denote
    modulo 2^32 (with the corrections of [legalEntityFor]), and exactly the
    reference with its optional semicolon is consumed. *)
Theorem decimal_reference (additional : Z) (s : Stream) (digits : list Z) (c : Z) (rest : list Z)
  (Ha : additional <> 35) (Hn : normal s) (Hne : digits <> [])
  (Hd : forallb isDecimalDigit digits = true) (Hc : isDecimalDigit c = false)
  (Hs : chars s = 35 :: digits ++ c :: rest) :
  exists s',
    consumeHTMLEntity additional s
      = Some (mkResult true (referenceTo (digitsValue 10 0 digits)) false s') /\
    chars s' = afterReference c rest.
Proof.
  unfold consumeHTMLEntity.
  assert (exists f, (2 * sourceLength s + 2 = S (S f))%nat /\ (length digits < f)%nat) as (f & -> & Hf).
  { cbn [sourceLength stream_source]. rewrite Hs. cbn [length]. rewrite length_app.
    exists (2 * (length digits + length (c :: rest)) + 2)%nat. lia. }
  rewrite (reference_number _ _ _ _ Ha Hn Hs).
  assert (Hs1 : chars (advance s) = digits ++ c :: rest) by (by rewrite chars_advance, Hs).
  pose proof (normal_advance s Hn) as Hn1. destruct digits as [|d ds]; [done|].
  cbn [referenceLoop CharSource.isEmpty CharSource.currentChar CharSource.advance stream_source].
  rewrite (normal_nonempty _ _ _ Hn1 Hs1), (currentChar_cons _ _ _ Hs1).
  pose proof Hd as Hall. simpl in Hd. apply andb_true_iff in Hd as [Hd _].
  unfold isDecimalDigit in Hd. rewrite Hd. bool_to_prop.
  destruct (Z.eqb_spec d 120); [lia|]. destruct (Z.eqb_spec d 88); [lia|].
  destruct (decimal_loop (d :: ds) f additional 0 [35] (advance s) c rest) as (s' & E & Hs' & _);
    [|exact Hc|exact Hn1|exact Hs1|exact Hf|exists s'; split; [exact E|exact Hs']].
  exact Hall.
Qed.

(** The same for hexadecimal references, of either case. *)
Theorem hex_reference (additional : Z) (s : Stream) (x : Z) (digits : list Z) (c : Z) (rest : list Z)
  (Ha : additional <> 35) (Hn : normal s) (Hx : x = 120 \/ x = 88) (Hne : digits <> [])
  (Hd : forallb isHexDigit digits = true) (Hc : isHexDigit c = false)
  (Hs : chars s = 35 :: x :: digits ++ c :: rest) :
  exists s',
    consumeHTMLEntity additional s
      = Some (mkResult true (referenceTo (digitsValue 16 0 digits)) false s') /\
    chars s' = afterReference c rest.
Proof.
  unfold consumeHTMLEntity.
  assert (exists f, (2 * sourceLength s + 2 = S (S (S f)))%nat /\ (length digits < f)%nat)
    as (f & -> & Hf).
  { cbn [sourceLength stream_source]. rewrite Hs. cbn [length]. rewrite length_app.
    exists (2 * (length digits + length (c :: rest)) + 3)%nat. lia. }
  rewrite (reference_number _ _ _ _ Ha Hn Hs).
  assert (Hs1 : chars (advance s) = x :: digits ++ c :: rest) by (by rewrite chars_advance, Hs).
  pose proof (normal_advance s Hn) as Hn1.
  assert (Hs2 : chars (advance (advance s)) = digits ++ c :: rest) by (by rewrite chars_advance, Hs1).
  pose proof (normal_advance _ Hn1) as Hn2. destruct digits as [|d ds]; [done|].
  pose proof Hd as [Hd1 _]%andb_true_iff.
  cbn [referenceLoop CharSource.isEmpty CharSource.currentChar CharSource.advance stream_source].
  rewrite (normal_nonempty _ _ _ Hn1 Hs1), (currentChar_cons _ _ _ Hs1).
  rewrite (normal_nonempty _ _ _ Hn2 Hs2), (currentChar_cons _ _ _ Hs2), Hd1.
  destruct (hex_loop (d :: ds) f additional 0 ([35] ++ [x]) (advance (advance s)) c rest)
    as (s' & E & Hs' & _);
    [exact Hd|exact Hc|exact Hn2|exact Hs2|exact Hf|exists s'; split; [|exact Hs']].
  destruct Hx as [-> | ->]; exact E.
Qed.

End Numeric.

(** ** Code points *)

(** What a reference to [v] should be: the UTF-16 encoding of a Unicode scalar value, a C1
    control taken for the character of Windows-1252 at that position, and U+FFFD for NUL and
    for what is no scalar value. *)
Definition referenceText (v : Z) : list Z :=
  if (0x80 <=? v) && (v <=? 0x9F)
  then [default 0 (windowsLatin1ExtensionArray !! Z.to_nat (v - 0x80))]
  else if (v =? 0) || negb (isScalarValue v) then [0xFFFD] else utf16 v.

Lemma reference_scalar (v : Z) (Hv : 0 < v < 2 ^ 31) (Hc1 : ~ (0x80 <= v <= 0x9F)) :
  referenceTo v = if isScalarValue v then utf16 v else [0xFFFD].
Proof.
  unfold referenceTo. rewrite swrap_id by lia. unfold isScalarValue, legalEntityFor.
  destruct (Z.eqb_spec v 0); [lia|]. destruct (Z.leb_spec 0 v); [|lia]. simpl.
  destruct (Z.ltb_spec 0x10FFFF v); destruct (Z.leb_spec v 0x10FFFF); try lia; [done|]. simpl.
  destruct ((0xD800 <=? v) && (v <=? 0xDFFF)); [done|]. simpl.
  unfold U_IS_BMP. rewrite (uwrap_id 32) by lia. unfold utf16, appendUChar32, U_IS_BMP.
  destruct (Z.leb_spec v 0xFFFF), (Z.ltb_spec v 0x10000); try lia.
  - unfold adjustEntity.
    assert (E : (Z.land v (Z.lnot 31) =? 128) = false).
    { apply Z.eqb_neq. intros E. apply Hc1.
      rewrite <- Z.ldiff_land in E. change 31 with (Z.ones 5) in E.
      rewrite Z.ldiff_ones_r, Z.shiftr_div_pow2, Z.shiftl_mul_pow2 in E by lia.
      change (2 ^ 5) with 32 in E. pose proof (Z.div_mod v 32). pose proof (Z.mod_pos_bound v 32). lia. }
    rewrite E. simpl. rewrite (uwrap_id 16) by lia. rewrite !uwrap_id by lia.
    by destruct (Z.leb_spec v 0xFFFF); [|lia].
  - rewrite !(uwrap_id 32) by lia. destruct (Z.leb_spec v 0xFFFF); [lia|].
    rewrite lead_trail by lia. unfold utf16. by destruct (Z.ltb_spec v 0x10000); [lia|].
Qed.

Lemma referenceTo_text v : 0 <= v < 2 ^ 31 -> referenceTo v = referenceText v.
Proof.
  intros Hv. unfold referenceText. destruct (Z.eqb_spec v 0) as [->|Hz]; [by vm_compute|].
  destruct ((0x80 <=? v) && (v <=? 0x9F)) eqn:Ec.
  - bool_to_prop. replace v with (Z.of_nat (Z.to_nat (v - 128)) + 128) by lia.
    assert (Hn : (Z.to_nat (v - 128) < 32)%nat) by lia. revert Hn. generalize (Z.to_nat (v - 128)). intros n Hn.
    do 32 (destruct n as [|n]; [by vm_compute|]). lia.
  - rewrite reference_scalar; [|lia|intros [H1 H2]; apply andb_false_iff in Ec as [Ec|Ec]; bool_to_prop; lia].
    by destruct (isScalarValue v).
Qed.

(** C40: after an ampersand, a number sign with decimal digits, or with an x and
    hexadecimal digits, whose number is below 2^31, stands for what the number means (a scalar
    value, a Windows-1252 character in place of a C1 control, or U+FFFD), and exactly the
    reference with its optional semicolon is consumed. *)
Theorem numeric_reference_correct `{FoldCase} `{EntityTable} (hex : bool) (additional : Z) (s : Stream)
  (x digits : list Z) (c : Z) (rest : list Z)
  (Ha : additional <> 35) (Hn : normal s) (Hne : digits <> [])
  (Hd : if hex then (x = [120] \/ x = [88]) /\ forallb isHexDigit digits = true /\ isHexDigit c = false
        else x = [] /\ forallb isDecimalDigit digits = true /\ isDecimalDigit c = false)
  (Hs : chars s = 35 :: x ++ digits ++ c :: rest)
  (Hv : digitsValue (if hex then 16 else 10) 0 digits < 2 ^ 31) :
  exists s',
    consumeHTMLEntity additional s
      = Some (mkResult true (referenceText (digitsValue (if hex then 16 else 10) 0 digits)) false s') /\
    chars s' = afterReference c rest.
Proof.
  rewrite <- referenceTo_text.
  - destruct hex, Hd as (Hx & Hd & Hc).
    + destruct Hx as [-> | ->]; [apply (hex_reference _ _ 120)|apply (hex_reference _ _ 88)]; auto.
    + subst x. by apply decimal_reference.
  - split; [|done]. apply digitsValue_nonneg; [destruct hex; lia|lia|].
    destruct hex, Hd as (_ & Hd & _); [done|]. revert Hd. apply forallb_impl.
    intros d Hd'. unfold isHexDigit. unfold isDecimalDigit in Hd'. by rewrite Hd'.
Qed.

(** The accumulator is a 32-bit integer: a number from 2^31 on may be read as a negative one, which
    [legalEntityFor] lets pass, and the lead surrogate that is computed from it may be NUL.
    So [&#4294967361;] is an "A", and [&#xFCA10000;] a NUL with a lone trail surrogate. *)
Theorem reference_overflow `{FoldCase} `{EntityTable} :
  (exists s', consumeHTMLEntity 0 (Stream.of_chars (lit "#4294967361;x"))
             = Some (mkResult true [65] false s') /\ chars s' = lit "x") /\
  (exists s', consumeHTMLEntity 0 (Stream.of_chars (lit "#xFCA10000;x"))
             = Some (mkResult true [0; 0xDC00] false s') /\ chars s' = lit "x").
Proof. split; eexists; split; vm_compute; reflexivity. Qed.

(** ** Named references *)

Section NamedReferences.
Context `{FoldCase} `{EntityTable} `{!EntityTableOK}.

Lemma pushed_nil_advance s : st_pushed s = [] -> st_pushed (advance s) = [].
Proof. destruct s as [p [|d r] n b]; simpl; by intros ->. Qed.

Lemma chars_cons s : isEmpty s = false -> st_pushed s = [] ->
  chars s = currentChar s :: chars (advance s).
Proof. destruct s as [p [|d r] n b]; simpl; intros He E; [done|]. by subst p. Qed.

Lemma namedLoop_spec fuel : forall search consumed cc s search' consumed' cc' s',
  (len s <= fuel)%nat -> st_pushed s = [] -> Forall (fun c => 0 <= c) (chars s) ->
  searching consumed search ->
  namedLoop fuel search consumed cc s = (search', consumed', cc', s') ->
  consumed' ++ chars s' = consumed ++ chars s /\ st_pushed s' = [] /\
  (isEmpty s' = true /\ searching consumed' search' \/
   isEmpty s' = false /\ cc' = currentChar s' /\ isEntityPrefix search' = false /\
   SearchInv (consumed' ++ [cc']) search').
Proof.
  induction fuel as [|fuel IH]; intros search consumed cc s search' consumed' cc' s' Hf Hp Hc Hs E;
    simpl in E.
  { simplify_eq. split; [done|]. split; [done|]. left. split; [|done].
    unfold len, chars in Hf. rewrite Hp in Hf. unfold isEmpty. destruct (st_rest s'); [done|simpl in Hf; lia]. }
  destruct (Stream.isEmpty s) eqn:Ee; [simplify_eq; auto|].
  pose proof (chars_cons s Ee Hp) as Hch. rewrite Hch in Hc.
  inversion_clear Hc as [|? ? Hc0 Hcs].
  pose proof (searching_advance _ _ _ Hs Hc0) as Hi.
  destruct (isEntityPrefix (searchAdvance (Stream.currentChar s) search)) eqn:Ep.
  - destruct (IH (searchAdvance (Stream.currentChar s) search) (consumed ++ [Stream.currentChar s])
                 (Stream.currentChar s) (advance s) search' consumed' cc' s') as (I1 & I2 & I3); try done.
    + rewrite len_advance. lia.
    + by apply pushed_nil_advance.
    + split; [done|]. right. split; [by destruct consumed|done].
    + split; [|done]. by rewrite I1, Hch, <- app_assoc.
  - simplify_eq. split; [done|]. split; [done|]. right. done.
Qed.

(** No entity name goes beyond a text that none begins with. *)
Lemma match_ok_extend w l mm :
  (forall k, (k < length entries)%nat -> ~ w `prefix_of` entityAt k) ->
  match_ok w mm -> match_ok (w ++ l) mm.
Proof.
  intros Hno Hm.
  assert (Hx : forall k, (k < length entries)%nat -> entityAt k `prefix_of` w ++ l ->
                         entityAt k `prefix_of` w).
  { intros k Hk [r Hr]. destruct (decide (length (entityAt k) <= length w)%nat) as [Hle|Hgt].
    - exists (drop (length (entityAt k)) w). rewrite <- (take_drop (length (entityAt k)) w) at 1.
      f_equal. pose proof (f_equal (take (length (entityAt k))) Hr) as Ht.
      rewrite (take_app_le w), take_app_length in Ht by done. done.
    - destruct (Hno k Hk). exists (drop (length w) (entityAt k)).
      pose proof (f_equal (take (length w)) Hr) as Ht.
      rewrite (take_app_length w), take_app_le in Ht by lia. rewrite Ht at 1. by rewrite take_drop. }
  destruct mm as [m|]; simpl in *.
  - destruct Hm as (M1 & M2 & M3). split; [done|]. split; [by apply prefix_app_r|]. eauto.
  - intros k Hk Hp. by apply (Hm k), Hx.
Qed.

Lemma match_ok_shrink w c mm :
  (forall k, (k < length entries)%nat -> ~ w ++ [c] `prefix_of` entityAt k) ->
  match_ok (w ++ [c]) mm ->
  forall m, mm = Some m -> entityAt m `prefix_of` w.
Proof.
  intros Hno Hm m ->. destruct Hm as (M1 & M2 & _).
  apply prefix_snoc_inv in M2 as [M2|M2]; [done|]. destruct (Hno m M1). by rewrite M2.
Qed.

(** When the longest match may be used: it ends in a semicolon, or the
    reference is not in an attribute value, or what follows cannot continue it. *)
Definition acceptable (additional : Z) (e : HTMLEntityTableEntry) (next : Z) : bool :=
  (lastCharacter e =? 59) || (additional =? 0) || negb (isAlphaNumeric next || (next =? 61)).

Definition namedOutcome (additional : Z) (l : list Z) (mm : option nat) (r : EntityResult Stream) : Prop :=
  notEnoughCharacters r = false /\
  match mm ≫= fun m => entries !! m with
  | None => success r = false /\ chars (res_source r) = l
  | Some e =>
      let rest := drop (length (entity e)) l in
      if acceptable additional e (headz rest)
      then success r = true /\ decoded r = entryValues e /\ chars (res_source r) = rest
      else success r = false /\ chars (res_source r) = l
  end.

Lemma rereadLoop_spec n : forall consumed s consumed' s',
  (n <= len s)%nat -> rereadLoop n consumed s = (consumed', s') ->
  consumed' = consumed ++ take n (chars s) /\ chars s' = drop n (chars s).
Proof.
  induction n as [|n IH]; intros consumed s consumed' s' Hn E; simpl in E.
  { simplify_eq. by rewrite take_0, drop_0, app_nil_r. }
  apply IH in E as [-> ->]; [|rewrite len_advance; lia].
  rewrite chars_advance. unfold Stream.currentChar, len in *.
  destruct (chars s); simpl in *; [lia|]. by rewrite <- app_assoc.
Qed.

Lemma rereadLoop_pushed n : forall consumed s consumed' s',
  rereadLoop n consumed s = (consumed', s') -> st_pushed s = [] -> st_pushed s' = [].
Proof.
  induction n as [|n IH]; intros consumed s consumed' s' E Hp; simpl in E; [by simplify_eq|].
  eapply IH; [exact E|]. by apply pushed_nil_advance.
Qed.

(** When more was read than the longest name: its characters are read again. *)
Lemma reread_outcome additional s s' consumed m e c2 s2 :
  st_pushed s' = [] -> consumed ++ chars s' = chars s -> entries !! m = Some e ->
  entity e `prefix_of` consumed -> length (entity e) <> length consumed ->
  rereadLoop (length (entity e)) [] (unconsumeCharacters consumed s') = (c2, s2) ->
  namedOutcome additional (chars s) (Some m)
    (if acceptable additional e (Stream.currentChar s2) then mkResult true (entryValues e) false s2
     else mkResult false [] false (unconsumeCharacters c2 s2)).
Proof.
  intros Hp' Happ Ee Hpm El Er. pose proof (unconsume_exact consumed s' Hp') as Hu. rewrite Happ in Hu.
  pose proof (prefix_length _ _ Hpm) as Hle.
  assert (Hp2 : st_pushed s2 = []).
  { pose proof (entries_length m (lookup_lt_Some _ _ _ Ee)) as H2. unfold entityAt in H2. rewrite Ee in H2. cbn in H2.
    eapply rereadLoop_pushed; [exact Er|]. destruct consumed as [|? [|? [|? ?]]]; simpl in *; try lia. done. }
  apply rereadLoop_spec in Er as [Ec2 Es2]; [|unfold len; rewrite Hu, <- Happ, length_app; lia].
  simpl in Ec2. rewrite Hu in Ec2, Es2. unfold namedOutcome. cbn [mbind option_bind]. rewrite Ee, <- Es2.
  fold (Stream.currentChar s2). destruct (acceptable additional e (Stream.currentChar s2)); [done|].
  split; [done|]. split; [done|]. cbn [res_source]. rewrite unconsume_exact by done. rewrite Ec2, Es2. apply take_drop.
Qed.

(** C28: When the input decides which names match (some prefix of it begins no name of the
    table), no character is pushed back and the table is sorted, consumeNamedEntity
    decodes the longest name of the table that the input starts with and consumes exactly
    that, subject to the attribute rule, and otherwise restores the input. *)
Theorem named_reference_longest (additional cc : Z) (s : Stream)
  (Hne : isEmpty s = false) (Hp : st_pushed s = []) (Hc : Forall (fun c => 0 <= c) (chars s))
  (Hdec : exists n, forall k, (k < length entries)%nat -> ~ take n (chars s) `prefix_of` entityAt k) :
  exists mm, match_ok (chars s) mm /\
    namedOutcome additional (chars s) mm (consumeNamedEntity additional cc s).
Proof.
  unfold consumeNamedEntity.
  destruct (namedLoop _ _ _ _ _) as [[[search consumed] cc'] s'] eqn:En.
  pose proof (namedLoop_len _ _ _ _ _ _ _ _ _ En) as [[Hcur Hlen] _];
    [split; simpl; [done|congruence]|].
  apply namedLoop_spec in En as (Happ & Hp' & Hend); try done; [|by split; [|left]].
  simpl in Happ.
  destruct Hend as [[He Hs]|(He & Hcc & Hpre & Hi)]; cbn [CharSource.isEmpty stream_source]; rewrite He.
  { exfalso.
    assert (Hnil : chars s' = []).
    { unfold chars, isEmpty in *. rewrite Hp'. by destruct (st_rest s'). }
    rewrite Hnil, app_nil_r in Happ. subst consumed.
    destruct Hs as [Hpre [[E _]|[_ Hi]]]; [by apply (isEmpty_false_chars s)|].
    destruct (inv_range _ _ Hi Hpre) as (_ & i & j & _ & _ & Hij & Hr), Hdec as [n Hdec].
    apply (Hdec i); [lia|]. trans (chars s); [apply prefix_take|]. apply Hr; lia. }
  assert (Hch : chars s' = cc' :: chars (advance s')) by (rewrite Hcc; by apply chars_cons).
  exists (m_mostRecentMatch search).
  assert (Hno : forall k, (k < length entries)%nat -> ~ consumed ++ [cc'] `prefix_of` entityAt k)
    by apply (inv_failed _ _ Hi Hpre).
  split.
  { rewrite <- Happ, Hch, cons_middle, app_assoc. apply match_ok_extend; [done|apply Hi]. }
  pose proof (unconsume_exact consumed s' Hp') as Hu. rewrite Happ in Hu.
  destruct (m_mostRecentMatch search) as [m|] eqn:Em; [|by split].
  pose proof (match_ok_shrink _ _ _ Hno (inv_match _ _ Hi) m Em) as Hpm.
  pose proof (inv_match _ _ Hi) as Hmo. rewrite Em in Hmo. destruct Hmo as (Hm & _ & _).
  destruct (lookup_lt_is_Some_2 entries m Hm) as [e Ee]. cbn [mbind option_bind]. rewrite Ee.
  assert (He' : entityAt m = entity e) by (unfold entityAt; by rewrite Ee). rewrite He' in Hpm.
  rewrite Hcur.
  destruct (Nat.eqb_spec (length (entity e)) (length consumed)) as [El|El]; cbn [negb].
  - apply prefix_length_eq in Hpm; [|lia]. unfold namedOutcome. cbn [mbind option_bind]. rewrite Ee.
    assert (Hrest : drop (length (entity e)) (chars s) = chars s')
      by (rewrite Hpm, <- Happ; apply drop_app_length).
    rewrite Hrest, Hch. cbn [headz]. rewrite <- Hch.
    fold (acceptable additional e cc'). by destruct (acceptable additional e cc').
  - destruct (rereadLoop _ _ _) as [c2 s2] eqn:Er. by apply (reread_outcome additional s s' consumed m e c2 s2).
Qed.

End NamedReferences.

(** ** Witnesses *)

Lemma normal_of_chars l : normal (Stream.of_chars l).
Proof. done. Qed.

Lemma decimal_reference_witness :
  exists s', @consumeHTMLEntity _ (@stream_source id) exampleTable 0 (Stream.of_chars (lit "#128512;x"))
             = Some (mkResult true (referenceTo 128512) false s') /\ chars s' = lit "x".
Proof.
  apply (@decimal_reference id exampleTable 0 (Stream.of_chars (lit "#128512;x")) (lit "128512") 59 (lit "x"));
    [lia|apply normal_of_chars|discriminate|reflexivity|reflexivity|reflexivity].
Defined.

Lemma hex_reference_witness :
  exists s', @consumeHTMLEntity _ (@stream_source id) exampleTable 39 (Stream.of_chars (lit "#X1f600 y"))
             = Some (mkResult true (referenceTo 128512) false s') /\ chars s' = lit " y".
Proof.
  apply (@hex_reference id exampleTable 39 (Stream.of_chars (lit "#X1f600 y")) 88 (lit "1f600") 32 (lit "y"));
    [lia|apply normal_of_chars|by right|discriminate|reflexivity|reflexivity|reflexivity].
Defined.

Lemma numeric_reference_correct_witness :
  exists s', @consumeHTMLEntity _ (@stream_source id) exampleTable 39 (Stream.of_chars (lit "#X1f600 y"))
             = Some (mkResult true [0xD83D; 0xDE00] false s') /\ chars s' = lit " y".
Proof.
  apply (@numeric_reference_correct id exampleTable true 39 (Stream.of_chars (lit "#X1f600 y")) [88] (lit "1f600") 32 (lit "y"));
    [lia|apply normal_of_chars|discriminate|split; [by right|by split]|reflexivity|vm_compute; reflexivity].
Defined.

Lemma named_reference_longest_witness :
  exists mm, @match_ok exampleTable (lit "notit") mm /\
    @namedOutcome exampleTable 0 (lit "notit") mm
      (@consumeNamedEntity _ (@stream_source id) exampleTable 0 0 (Stream.of_chars (lit "notit"))).
Proof.
  apply (@named_reference_longest id exampleTable exampleTable_ok 0 0 (Stream.of_chars (lit "notit")));
    [reflexivity|reflexivity|repeat constructor; simpl; lia|].
  exists 5%nat. intros k Hk. simpl in Hk.
  do 9 (destruct k as [|k]; [intros [r Hr]; discriminate Hr|]). lia.
Defined.
