(* ===== verification/HTMLTokenizer.v ===== *)
(** * [WebCore/html/parser/HTMLTokenizer]

    The HTML tokenizer.  [nextToken] is one large [switch] whose cases are left
    through the macros of [MarkupTokenizerInlines.h]; here every case is a
    function of its own in a small state and error monad, and the macro it ends
    with is a value of [Control] that [runStates] interprets.  The tokenizer is
    generic in the character source, so that the same code runs on
    [SegmentedString] and on the abstract [Stream].

    The caller's token is the field [m_token].  [None] in the monad is a failed
    [ASSERT] on the type of the token, on a character of the input, on the
    buffered end tag or on an unreachable line, a dereference of a null [m_currentAttribute] or
    [m_doctypeData], or a loop that is still running when its fuel is used up;
    [HTMLTokenizerSafety] shows that it does not occur. *)
From S2P Require Import Prelude.
From S2P Require Import CharSource.
From S2P Require Import HTMLToken.
From S2P Require Import InputStreamPreprocessor.
From S2P Require Import HTMLEntitySearch.
From S2P Require Import HTMLEntityParser.
From stdpp Require Import base list numbers option.
From Stdlib Require Import ZArith Lia.
#[local] Open Scope Z_scope.
Import HTMLToken.

(** ** States *)

(** [HTMLTokenizer::State]. *)
Inductive State : Type :=
| DataState
| CharacterReferenceInDataState
| RCDATAState
| CharacterReferenceInRCDATAState
| RAWTEXTState
| ScriptDataState
| PLAINTEXTState
| TagOpenState
| EndTagOpenState
| TagNameState
| RCDATALessThanSignState
| RCDATAEndTagOpenState
| RCDATAEndTagNameState
| RAWTEXTLessThanSignState
| RAWTEXTEndTagOpenState
| RAWTEXTEndTagNameState
| ScriptDataLessThanSignState
| ScriptDataEndTagOpenState
| ScriptDataEndTagNameState
| ScriptDataEscapeStartState
| ScriptDataEscapeStartDashState
| ScriptDataEscapedState
| ScriptDataEscapedDashState
| ScriptDataEscapedDashDashState
| ScriptDataEscapedLessThanSignState
| ScriptDataEscapedEndTagOpenState
| ScriptDataEscapedEndTagNameState
| ScriptDataDoubleEscapeStartState
| ScriptDataDoubleEscapedState
| ScriptDataDoubleEscapedDashState
| ScriptDataDoubleEscapedDashDashState
| ScriptDataDoubleEscapedLessThanSignState
| ScriptDataDoubleEscapeEndState
| BeforeAttributeNameState
| AttributeNameState
| AfterAttributeNameState
| BeforeAttributeValueState
| AttributeValueDoubleQuotedState
| AttributeValueSingleQuotedState
| AttributeValueUnquotedState
| CharacterReferenceInAttributeValueState
| AfterAttributeValueQuotedState
| SelfClosingStartTagState
| BogusCommentState
| ContinueBogusCommentState
| MarkupDeclarationOpenState
| CommentStartState
| CommentStartDashState
| CommentState
| CommentEndDashState
| CommentEndState
| CommentEndBangState
| DOCTYPEState
| BeforeDOCTYPENameState
| DOCTYPENameState
| AfterDOCTYPENameState
| AfterDOCTYPEPublicKeywordState
| BeforeDOCTYPEPublicIdentifierState
| DOCTYPEPublicIdentifierDoubleQuotedState
| DOCTYPEPublicIdentifierSingleQuotedState
| AfterDOCTYPEPublicIdentifierState
| BetweenDOCTYPEPublicAndSystemIdentifiersState
| AfterDOCTYPESystemKeywordState
| BeforeDOCTYPESystemIdentifierState
| DOCTYPESystemIdentifierDoubleQuotedState
| DOCTYPESystemIdentifierSingleQuotedState
| AfterDOCTYPESystemIdentifierState
| BogusDOCTYPEState
| CDATASectionState
| CDATASectionRightSquareBracketState
| CDATASectionDoubleRightSquareBracketState.

#[export] Instance State_eq_dec : EqDecision State.
Proof. solve_decision. Defined.

(** How a case of the switch is left: [HTML_ADVANCE_TO], [HTML_RECONSUME_IN],
    [HTML_SWITCH_TO], or [return]. *)
Inductive Control : Type :=
| ADVANCE_TO (s : State)
| RECONSUME_IN (s : State)
| SWITCH_TO (s : State)
| RETURN (b : bool).

(** [HTMLParserOptions], as far as the tokenizer reads it. *)
Record HTMLParserOptions : Type := mkOptions {
  scriptEnabled : bool;
  pluginsEnabled : bool;
  usePreHTML5ParserQuirks : bool;
}.

Record HTMLTokenizer : Type := mkTokenizer {
  m_state : State;
  m_forceNullCharacterReplacement : bool;
  m_shouldAllowCDATA : bool;
  m_token : HTMLToken;
  m_additionalAllowedCharacter : Z;
  m_inputStreamPreprocessor : Preprocessor;
  m_appropriateEndTagName : list Z;
  m_temporaryBuffer : list Z;
  m_bufferedEndTagName : list Z;
  m_options : HTMLParserOptions;
}.

(** Field assignments. *)
Definition set_state (st : State) (t : HTMLTokenizer) : HTMLTokenizer :=
  mkTokenizer st (m_forceNullCharacterReplacement t) (m_shouldAllowCDATA t) (m_token t)
    (m_additionalAllowedCharacter t) (m_inputStreamPreprocessor t)
    (m_appropriateEndTagName t) (m_temporaryBuffer t) (m_bufferedEndTagName t) (m_options t).

Definition set_token (k : HTMLToken) (t : HTMLTokenizer) : HTMLTokenizer :=
  mkTokenizer (m_state t) (m_forceNullCharacterReplacement t) (m_shouldAllowCDATA t) k
    (m_additionalAllowedCharacter t) (m_inputStreamPreprocessor t)
    (m_appropriateEndTagName t) (m_temporaryBuffer t) (m_bufferedEndTagName t) (m_options t).

Definition set_additional (c : Z) (t : HTMLTokenizer) : HTMLTokenizer :=
  mkTokenizer (m_state t) (m_forceNullCharacterReplacement t) (m_shouldAllowCDATA t) (m_token t)
    c (m_inputStreamPreprocessor t)
    (m_appropriateEndTagName t) (m_temporaryBuffer t) (m_bufferedEndTagName t) (m_options t).

Definition set_preprocessor (p : Preprocessor) (t : HTMLTokenizer) : HTMLTokenizer :=
  mkTokenizer (m_state t) (m_forceNullCharacterReplacement t) (m_shouldAllowCDATA t) (m_token t)
    (m_additionalAllowedCharacter t) p
    (m_appropriateEndTagName t) (m_temporaryBuffer t) (m_bufferedEndTagName t) (m_options t).

Definition set_appropriate (l : list Z) (t : HTMLTokenizer) : HTMLTokenizer :=
  mkTokenizer (m_state t) (m_forceNullCharacterReplacement t) (m_shouldAllowCDATA t) (m_token t)
    (m_additionalAllowedCharacter t) (m_inputStreamPreprocessor t)
    l (m_temporaryBuffer t) (m_bufferedEndTagName t) (m_options t).

Definition set_temporary (l : list Z) (t : HTMLTokenizer) : HTMLTokenizer :=
  mkTokenizer (m_state t) (m_forceNullCharacterReplacement t) (m_shouldAllowCDATA t) (m_token t)
    (m_additionalAllowedCharacter t) (m_inputStreamPreprocessor t)
    (m_appropriateEndTagName t) l (m_bufferedEndTagName t) (m_options t).

Definition set_buffered (l : list Z) (t : HTMLTokenizer) : HTMLTokenizer :=
  mkTokenizer (m_state t) (m_forceNullCharacterReplacement t) (m_shouldAllowCDATA t) (m_token t)
    (m_additionalAllowedCharacter t) (m_inputStreamPreprocessor t)
    (m_appropriateEndTagName t) (m_temporaryBuffer t) l (m_options t).

(** The constructor, and [reset()]: the buffers and the preprocessor are left
    alone, and the pointer to the token is forgotten. *)
Definition newTokenizer (options : HTMLParserOptions) : HTMLTokenizer :=
  mkTokenizer DataState false false newToken 0 (preprocessor_reset false) [] [] [] options.

Definition reset (t : HTMLTokenizer) : HTMLTokenizer :=
  mkTokenizer DataState false false newToken 0 (m_inputStreamPreprocessor t)
    (m_appropriateEndTagName t) (m_temporaryBuffer t) (m_bufferedEndTagName t) (m_options t).

(** ** Helpers that only read *)

Definition isASCIIUpper (c : Z) : bool := (65 <=? c) && (c <=? 90).

Definition isASCIILower (c : Z) : bool := (97 <=? c) && (c <=? 122).

Definition toLowerCase (cc : Z) : Z := cc + 0x20.

(** [static_cast<LChar>]. *)
Definition LChar (c : Z) : Z := uwrap 8 c.

Definition isTokenizerWhitespace (cc : Z) : bool :=
  (cc =? 32) || (cc =? 10) || (cc =? 9) || (cc =? 12).

Definition vectorEqualsString (vector string : list Z) : bool :=
  if negb (length vector =? length string)%nat then false
  else if (length string =? 0)%nat then true
  else lists_eqb string vector.

Definition isEndTagBufferingState (st : State) : bool :=
  match st with
  | RCDATAEndTagOpenState
  | RCDATAEndTagNameState
  | RAWTEXTEndTagOpenState
  | RAWTEXTEndTagNameState
  | ScriptDataEndTagOpenState
  | ScriptDataEndTagNameState
  | ScriptDataEscapedEndTagOpenState
  | ScriptDataEscapedEndTagNameState => true
  | _ => false
  end.

Definition shouldSkipNullCharacters (t : HTMLTokenizer) : bool :=
  negb (m_forceNullCharacterReplacement t)
  && match m_state t with DataState | RCDATAState | RAWTEXTState => true | _ => false end.

Definition haveBufferedCharacterToken (t : HTMLTokenizer) : bool :=
  hasType Character (m_token t).

Definition temporaryBufferIs (expected : list Z) (t : HTMLTokenizer) : bool :=
  vectorEqualsString (m_temporaryBuffer t) expected.

(** [isAppropriateEndTag]: same size, then the same characters. *)
Fixpoint sameCharacters (a b : list Z) : bool :=
  match a, b with
  | x :: a', y :: b' => if negb (x =? y) then false else sameCharacters a' b'
  | _, _ => true
  end.

Definition isAppropriateEndTag (t : HTMLTokenizer) : bool :=
  if negb (length (m_bufferedEndTagName t) =? length (m_appropriateEndTagName t))%nat
  then false
  else sameCharacters (m_bufferedEndTagName t) (m_appropriateEndTagName t).

Definition numberOfBufferedCharacters (t : HTMLTokenizer) : nat :=
  match m_temporaryBuffer t with [] => 0%nat | l => (length l + 2)%nat end.

Definition bufferedCharacters (t : HTMLTokenizer) : list Z :=
  60 :: 47 :: m_temporaryBuffer t.

Definition updateStateFor (tagName : list Z) (t : HTMLTokenizer) : HTMLTokenizer :=
  let tagIs s := lists_eqb tagName s in
  if tagIs (lit "textarea") || tagIs (lit "title") then set_state RCDATAState t
  else if tagIs (lit "plaintext") then set_state PLAINTEXTState t
  else if tagIs (lit "script") then set_state ScriptDataState t
  else if tagIs (lit "style") || tagIs (lit "iframe") || tagIs (lit "xmp")
          || (tagIs (lit "noembed") && pluginsEnabled (m_options t))
          || tagIs (lit "noframes")
          || (tagIs (lit "noscript") && scriptEnabled (m_options t))
  then set_state RAWTEXTState t
  else t.

(** ** The monad *)

Declare Scope tok_scope.
Delimit Scope tok_scope with tok.
#[local] Open Scope tok_scope.

Section Tokenizer.
Context {Src : Type} `{CharSource Src} `{EntityTable}.

Definition M (A : Type) : Type := HTMLTokenizer -> Src -> option (A * HTMLTokenizer * Src).

Definition ret {A} (a : A) : M A := fun t s => Some (a, t, s).

Definition bind {A B} (m : M A) (k : A -> M B) : M B := fun t s =>
  match m t s with
  | Some (a, t', s') => k a t' s'
  | None => None
  end.

Definition get : M HTMLTokenizer := fun t s => Some (t, t, s).

Definition modify (f : HTMLTokenizer -> HTMLTokenizer) : M unit := fun t s => Some (tt, f t, s).

(** [ASSERT]. *)
Definition assert_ (p : HTMLTokenizer -> bool) : M unit := fun t s =>
  if p t then Some (tt, t, s) else None.

(** A call of a member function of [*m_token]. *)
Definition token (f : HTMLToken -> option HTMLToken) : M unit := fun t s =>
  match f (m_token t) with
  | Some k => Some (tt, set_token k t, s)
  | None => None
  end.

(** Reading and changing the source. *)
Definition ask {A} (f : Src -> A) : M A := fun t s => Some (f s, t, s).

Definition source (f : Src -> Src) : M unit := fun t s => Some (tt, t, f s).

#[local] Notation "'let!' x := m 'in' k" := (bind m (fun x => k))
  (at level 10, x binder, m at level 100, k at level 200) : tok_scope.

#[local] Notation "m ;; k" := (bind m (fun _ => k))
  (at level 100, k at level 200, right associativity) : tok_scope.

(** ** Building blocks of the cases *)

Definition parseError : M unit := ret tt.

Definition advanceTo (st : State) : M Control := ret (ADVANCE_TO st).

Definition reconsumeIn (st : State) : M Control := ret (RECONSUME_IN st).

Definition switchTo (st : State) : M Control := ret (SWITCH_TO st).

Definition haveBuffered : M Control :=
  let! t := get in ret (RETURN (haveBufferedCharacterToken t)).

Definition bufferCharacter (c : Z) : M unit :=
  assert_ (fun _ => negb (c =? kEndOfFileMarker)) ;;
  token ensureIsCharacterToken ;;
  token (appendToCharacter c).

(** [bufferCharacter] for a character that a character reference stands for:
    its assertion is recorded in the token, see [HTMLToken]. *)
Definition bufferDecoded (c : Z) : M unit :=
  token (fun k => Some (record (negb (c =? kEndOfFileMarker)) NullFromReference k)) ;;
  token ensureIsCharacterToken ;;
  token (appendToCharacter c).

Fixpoint bufferCharacters (l : list Z) : M unit :=
  match l with
  | [] => ret tt
  | c :: l => bufferDecoded c ;; bufferCharacters l
  end.

Fixpoint appendToAttributeValues (l : list Z) : M unit :=
  match l with
  | [] => ret tt
  | c :: l => token (appendDecodedToAttributeValue c) ;; appendToAttributeValues l
  end.

Fixpoint appendToComments (l : list Z) : M unit :=
  match l with
  | [] => ret tt
  | c :: l => token (appendToComment c) ;; appendToComments l
  end.

Definition saveEndTagNameIfNeeded : M unit :=
  assert_ (fun t => negb (hasType Uninitialized (m_token t))) ;;
  modify (fun t => if hasType StartTag (m_token t)
                   then set_appropriate (m_data (m_token t)) t else t).

Definition emitAndResumeIn (st : State) : M Control :=
  saveEndTagNameIfNeeded ;;
  modify (set_state st) ;;
  source advanceAndUpdateLineNumber ;;
  ret (RETURN true).

Definition emitAndReconsumeIn (st : State) : M Control :=
  saveEndTagNameIfNeeded ;;
  modify (set_state st) ;;
  ret (RETURN true).

Definition emitEndOfFile : M Control :=
  let! t := get in
  if haveBufferedCharacterToken t then ret (RETURN true)
  else
    modify (set_state DataState) ;;
    source advanceAndUpdateLineNumber ;;
    modify (fun t => set_token (clear (m_token t)) t) ;;
    token makeEndOfFile ;;
    ret (RETURN true).

Definition clearEndTagBuffers (t : HTMLTokenizer) : HTMLTokenizer :=
  set_temporary [] (set_appropriate [] (set_buffered [] t)).

Definition flushBufferedEndTag : M bool :=
  assert_ (fun t => hasType Character (m_token t) || hasType Uninitialized (m_token t)) ;;
  source advanceAndUpdateLineNumber ;;
  let! t := get in
  if hasType Character (m_token t) then ret true
  else
    token (beginEndTag (m_bufferedEndTagName t)) ;;
    modify clearEndTagBuffers ;;
    ret false.

(** [FLUSH_AND_ADVANCE_TO]. *)
Definition flushAndAdvanceTo (st : State) : M Control :=
  modify (set_state st) ;;
  let! b := flushBufferedEndTag in
  if b then ret (RETURN true) else switchTo st.

Definition flushEmitAndResumeIn (st : State) : M Control :=
  modify (set_state st) ;;
  flushBufferedEndTag ;;
  ret (RETURN true).

Definition addToPossibleEndTag (cc : Z) : M unit :=
  assert_ (fun t => isEndTagBufferingState (m_state t)) ;;
  modify (fun t => set_buffered (m_bufferedEndTagName t ++ [cc]) t).

Definition appendToTemporary (cc : Z) : M unit :=
  modify (fun t => set_temporary (m_temporaryBuffer t ++ [cc]) t).

(** [processEntity]: false when there are not enough characters. *)
Definition consumeEntity (additional : Z) : M (EntityResult unit) := fun t s =>
  match consumeHTMLEntity additional s with
  | Some r => Some (mkResult (success r) (decoded r) (notEnoughCharacters r) tt, t, res_source r)
  | None => None
  end.

Definition processEntity : M bool :=
  let! r := consumeEntity 0 in
  if notEnoughCharacters r then ret false
  else (if success r then bufferCharacters (decoded r) else bufferCharacter 38) ;; ret true.

(** A look-ahead for [string]; on a match the characters are consumed. *)
Definition askLookAhead (ignoreCase : bool) (string : list Z) : M LookAheadResult := fun t s =>
  let '(r, s) := if ignoreCase then lookAheadIgnoringCase string s else lookAhead string s in
  Some (r, t, s).

(** [beginAttributeName(source.numberOfCharactersConsumed())] and the like. *)
Definition tokenAt (f : Z -> HTMLToken -> option HTMLToken) (delta : Z) : M unit :=
  let! n := ask numberOfCharactersConsumed in token (f (n + delta)).

Definition startAttribute (c : Z) : M unit :=
  token addNewAttribute ;;
  tokenAt beginAttributeName 0 ;;
  token (appendToAttributeName c).

Definition quirksLessThan (cc : Z) (t : HTMLTokenizer) : bool :=
  usePreHTML5ParserQuirks (m_options t) && (cc =? 60).

(** ** Text states *)

Definition onDataState (cc : Z) : M Control :=
  if cc =? "&"%uc then advanceTo CharacterReferenceInDataState
  else if cc =? "<"%uc then
    let! t := get in
    if hasType Character (m_token t) then ret (RETURN true)
    else advanceTo TagOpenState
  else if cc =? kEndOfFileMarker then emitEndOfFile
  else bufferCharacter cc ;; advanceTo DataState.

Definition onCharacterReferenceInDataState (cc : Z) : M Control :=
  let! enough := processEntity in
  if enough then switchTo DataState else haveBuffered.

Definition onRCDATAState (cc : Z) : M Control :=
  if cc =? "&"%uc then advanceTo CharacterReferenceInRCDATAState
  else if cc =? "<"%uc then advanceTo RCDATALessThanSignState
  else if cc =? kEndOfFileMarker then emitEndOfFile
  else bufferCharacter cc ;; advanceTo RCDATAState.

Definition onCharacterReferenceInRCDATAState (cc : Z) : M Control :=
  let! enough := processEntity in
  if enough then switchTo RCDATAState else haveBuffered.

Definition onRAWTEXTState (cc : Z) : M Control :=
  if cc =? "<"%uc then advanceTo RAWTEXTLessThanSignState
  else if cc =? kEndOfFileMarker then emitEndOfFile
  else bufferCharacter cc ;; advanceTo RAWTEXTState.

Definition onScriptDataState (cc : Z) : M Control :=
  if cc =? "<"%uc then advanceTo ScriptDataLessThanSignState
  else if cc =? kEndOfFileMarker then emitEndOfFile
  else bufferCharacter cc ;; advanceTo ScriptDataState.

Definition onPLAINTEXTState (cc : Z) : M Control :=
  if cc =? kEndOfFileMarker then emitEndOfFile
  else bufferCharacter cc ;; advanceTo PLAINTEXTState.

(** ** Tags *)

Definition onTagOpenState (cc : Z) : M Control :=
  if cc =? "!"%uc then advanceTo MarkupDeclarationOpenState
  else if cc =? "/"%uc then advanceTo EndTagOpenState
  else if isASCIIUpper cc then token (beginStartTag (toLowerCase cc)) ;; advanceTo TagNameState
  else if isASCIILower cc then token (beginStartTag cc) ;; advanceTo TagNameState
  else if cc =? "?"%uc then parseError ;; reconsumeIn BogusCommentState
  else parseError ;; bufferCharacter "<"%uc ;; reconsumeIn DataState.

Definition onEndTagOpenState (cc : Z) : M Control :=
  if isASCIIUpper cc then
    token (beginEndTag_char (LChar (toLowerCase cc))) ;;
    modify (set_appropriate []) ;;
    advanceTo TagNameState
  else if isASCIILower cc then
    token (beginEndTag_char (LChar cc)) ;;
    modify (set_appropriate []) ;;
    advanceTo TagNameState
  else if cc =? ">"%uc then parseError ;; advanceTo DataState
  else if cc =? kEndOfFileMarker then
    parseError ;; bufferCharacter "<"%uc ;; bufferCharacter "/"%uc ;; reconsumeIn DataState
  else parseError ;; reconsumeIn BogusCommentState.

Definition onTagNameState (cc : Z) : M Control :=
  let! t := get in
  if isTokenizerWhitespace cc then advanceTo BeforeAttributeNameState
  else if cc =? "/"%uc then advanceTo SelfClosingStartTagState
  else if cc =? ">"%uc then emitAndResumeIn DataState
  else if quirksLessThan cc t then emitAndReconsumeIn DataState
  else if isASCIIUpper cc then token (appendToName (toLowerCase cc)) ;; advanceTo TagNameState
  else if cc =? kEndOfFileMarker then parseError ;; reconsumeIn DataState
  else token (appendToName cc) ;; advanceTo TagNameState.

(** ** End tags in RCDATA, RAWTEXT and script data

    The three families of states, and the escaped script data states, have the
    same code with their own targets. *)

Definition endTagOpen (nameState textState : State) (cc : Z) : M Control :=
  if isASCIIUpper cc then
    appendToTemporary (LChar cc) ;;
    addToPossibleEndTag (LChar (toLowerCase cc)) ;;
    advanceTo nameState
  else if isASCIILower cc then
    appendToTemporary (LChar cc) ;;
    addToPossibleEndTag (LChar cc) ;;
    advanceTo nameState
  else bufferCharacter "<"%uc ;; bufferCharacter "/"%uc ;; reconsumeIn textState.

(** The end of an end tag name that is not the appropriate one. *)
Definition notAnEndTag (textState : State) : M Control :=
  bufferCharacter "<"%uc ;;
  bufferCharacter "/"%uc ;;
  (let! t := get in token (appendToCharacter_vector (m_temporaryBuffer t))) ;;
  modify (set_buffered []) ;;
  modify (set_temporary []) ;;
  reconsumeIn textState.

Definition endTagName (nameState textState : State) (cc : Z) : M Control :=
  if isASCIIUpper cc then
    appendToTemporary (LChar cc) ;;
    addToPossibleEndTag (LChar (toLowerCase cc)) ;;
    advanceTo nameState
  else if isASCIILower cc then
    appendToTemporary (LChar cc) ;;
    addToPossibleEndTag (LChar cc) ;;
    advanceTo nameState
  else
    let! t := get in
    if isTokenizerWhitespace cc then
      if isAppropriateEndTag t then
        appendToTemporary (LChar cc) ;; flushAndAdvanceTo BeforeAttributeNameState
      else notAnEndTag textState
    else if cc =? "/"%uc then
      if isAppropriateEndTag t then
        appendToTemporary (LChar cc) ;; flushAndAdvanceTo SelfClosingStartTagState
      else notAnEndTag textState
    else if cc =? ">"%uc then
      if isAppropriateEndTag t then
        appendToTemporary (LChar cc) ;; flushEmitAndResumeIn DataState
      else notAnEndTag textState
    else notAnEndTag textState.

Definition startEndTag (openState : State) : M Control :=
  modify (set_temporary []) ;;
  assert_ (fun t => lists_eqb (m_bufferedEndTagName t) []) ;;
  advanceTo openState.

Definition onRCDATALessThanSignState (cc : Z) : M Control :=
  if cc =? "/"%uc then startEndTag RCDATAEndTagOpenState
  else bufferCharacter "<"%uc ;; reconsumeIn RCDATAState.

Definition onRCDATAEndTagOpenState (cc : Z) : M Control :=
  endTagOpen RCDATAEndTagNameState RCDATAState cc.

Definition onRCDATAEndTagNameState (cc : Z) : M Control :=
  endTagName RCDATAEndTagNameState RCDATAState cc.

Definition onRAWTEXTLessThanSignState (cc : Z) : M Control :=
  if cc =? "/"%uc then startEndTag RAWTEXTEndTagOpenState
  else bufferCharacter "<"%uc ;; reconsumeIn RAWTEXTState.

Definition onRAWTEXTEndTagOpenState (cc : Z) : M Control :=
  endTagOpen RAWTEXTEndTagNameState RAWTEXTState cc.

Definition onRAWTEXTEndTagNameState (cc : Z) : M Control :=
  endTagName RAWTEXTEndTagNameState RAWTEXTState cc.

Definition onScriptDataLessThanSignState (cc : Z) : M Control :=
  if cc =? "/"%uc then startEndTag ScriptDataEndTagOpenState
  else if cc =? "!"%uc then
    bufferCharacter "<"%uc ;; bufferCharacter "!"%uc ;; advanceTo ScriptDataEscapeStartState
  else bufferCharacter "<"%uc ;; reconsumeIn ScriptDataState.

Definition onScriptDataEndTagOpenState (cc : Z) : M Control :=
  endTagOpen ScriptDataEndTagNameState ScriptDataState cc.

Definition onScriptDataEndTagNameState (cc : Z) : M Control :=
  endTagName ScriptDataEndTagNameState ScriptDataState cc.

(** ** Escaped script data *)

Definition onScriptDataEscapeStartState (cc : Z) : M Control :=
  if cc =? "-"%uc then bufferCharacter cc ;; advanceTo ScriptDataEscapeStartDashState
  else reconsumeIn ScriptDataState.

Definition onScriptDataEscapeStartDashState (cc : Z) : M Control :=
  if cc =? "-"%uc then bufferCharacter cc ;; advanceTo ScriptDataEscapedDashDashState
  else reconsumeIn ScriptDataState.

Definition onScriptDataEscapedState (cc : Z) : M Control :=
  if cc =? "-"%uc then bufferCharacter cc ;; advanceTo ScriptDataEscapedDashState
  else if cc =? "<"%uc then advanceTo ScriptDataEscapedLessThanSignState
  else if cc =? kEndOfFileMarker then parseError ;; reconsumeIn DataState
  else bufferCharacter cc ;; advanceTo ScriptDataEscapedState.

Definition onScriptDataEscapedDashState (cc : Z) : M Control :=
  if cc =? "-"%uc then bufferCharacter cc ;; advanceTo ScriptDataEscapedDashDashState
  else if cc =? "<"%uc then advanceTo ScriptDataEscapedLessThanSignState
  else if cc =? kEndOfFileMarker then parseError ;; reconsumeIn DataState
  else bufferCharacter cc ;; advanceTo ScriptDataEscapedState.

Definition onScriptDataEscapedDashDashState (cc : Z) : M Control :=
  if cc =? "-"%uc then bufferCharacter cc ;; advanceTo ScriptDataEscapedDashDashState
  else if cc =? "<"%uc then advanceTo ScriptDataEscapedLessThanSignState
  else if cc =? ">"%uc then bufferCharacter cc ;; advanceTo ScriptDataState
  else if cc =? kEndOfFileMarker then parseError ;; reconsumeIn DataState
  else bufferCharacter cc ;; advanceTo ScriptDataEscapedState.

Definition onScriptDataEscapedLessThanSignState (cc : Z) : M Control :=
  if cc =? "/"%uc then startEndTag ScriptDataEscapedEndTagOpenState
  else if isASCIIUpper cc then
    bufferCharacter "<"%uc ;; bufferCharacter cc ;;
    modify (set_temporary []) ;; appendToTemporary (LChar (toLowerCase cc)) ;;
    advanceTo ScriptDataDoubleEscapeStartState
  else if isASCIILower cc then
    bufferCharacter "<"%uc ;; bufferCharacter cc ;;
    modify (set_temporary []) ;; appendToTemporary (LChar cc) ;;
    advanceTo ScriptDataDoubleEscapeStartState
  else bufferCharacter "<"%uc ;; reconsumeIn ScriptDataEscapedState.

Definition onScriptDataEscapedEndTagOpenState (cc : Z) : M Control :=
  endTagOpen ScriptDataEscapedEndTagNameState ScriptDataEscapedState cc.

Definition onScriptDataEscapedEndTagNameState (cc : Z) : M Control :=
  endTagName ScriptDataEscapedEndTagNameState ScriptDataEscapedState cc.

Definition onScriptDataDoubleEscapeStartState (cc : Z) : M Control :=
  if isTokenizerWhitespace cc || (cc =? "/"%uc) || (cc =? ">"%uc) then
    bufferCharacter cc ;;
    (let! t := get in
     if temporaryBufferIs (lit "script") t
     then advanceTo ScriptDataDoubleEscapedState else advanceTo ScriptDataEscapedState)
  else if isASCIIUpper cc then
    bufferCharacter cc ;; appendToTemporary (LChar (toLowerCase cc)) ;;
    advanceTo ScriptDataDoubleEscapeStartState
  else if isASCIILower cc then
    bufferCharacter cc ;; appendToTemporary (LChar cc) ;;
    advanceTo ScriptDataDoubleEscapeStartState
  else reconsumeIn ScriptDataEscapedState.

Definition onScriptDataDoubleEscapedState (cc : Z) : M Control :=
  if cc =? "-"%uc then bufferCharacter cc ;; advanceTo ScriptDataDoubleEscapedDashState
  else if cc =? "<"%uc then bufferCharacter cc ;; advanceTo ScriptDataDoubleEscapedLessThanSignState
  else if cc =? kEndOfFileMarker then parseError ;; reconsumeIn DataState
  else bufferCharacter cc ;; advanceTo ScriptDataDoubleEscapedState.

Definition onScriptDataDoubleEscapedDashState (cc : Z) : M Control :=
  if cc =? "-"%uc then bufferCharacter cc ;; advanceTo ScriptDataDoubleEscapedDashDashState
  else if cc =? "<"%uc then bufferCharacter cc ;; advanceTo ScriptDataDoubleEscapedLessThanSignState
  else if cc =? kEndOfFileMarker then parseError ;; reconsumeIn DataState
  else bufferCharacter cc ;; advanceTo ScriptDataDoubleEscapedState.

Definition onScriptDataDoubleEscapedDashDashState (cc : Z) : M Control :=
  if cc =? "-"%uc then bufferCharacter cc ;; advanceTo ScriptDataDoubleEscapedDashDashState
  else if cc =? "<"%uc then bufferCharacter cc ;; advanceTo ScriptDataDoubleEscapedLessThanSignState
  else if cc =? ">"%uc then bufferCharacter cc ;; advanceTo ScriptDataState
  else if cc =? kEndOfFileMarker then parseError ;; reconsumeIn DataState
  else bufferCharacter cc ;; advanceTo ScriptDataDoubleEscapedState.

Definition onScriptDataDoubleEscapedLessThanSignState (cc : Z) : M Control :=
  if cc =? "/"%uc then
    bufferCharacter cc ;; modify (set_temporary []) ;; advanceTo ScriptDataDoubleEscapeEndState
  else reconsumeIn ScriptDataDoubleEscapedState.

Definition onScriptDataDoubleEscapeEndState (cc : Z) : M Control :=
  if isTokenizerWhitespace cc || (cc =? "/"%uc) || (cc =? ">"%uc) then
    bufferCharacter cc ;;
    (let! t := get in
     if temporaryBufferIs (lit "script") t
     then advanceTo ScriptDataEscapedState else advanceTo ScriptDataDoubleEscapedState)
  else if isASCIIUpper cc then
    bufferCharacter cc ;; appendToTemporary (LChar (toLowerCase cc)) ;;
    advanceTo ScriptDataDoubleEscapeEndState
  else if isASCIILower cc then
    bufferCharacter cc ;; appendToTemporary (LChar cc) ;;
    advanceTo ScriptDataDoubleEscapeEndState
  else reconsumeIn ScriptDataDoubleEscapedState.

(** ** Attributes *)

Definition onBeforeAttributeNameState (cc : Z) : M Control :=
  let! t := get in
  if isTokenizerWhitespace cc then advanceTo BeforeAttributeNameState
  else if cc =? "/"%uc then advanceTo SelfClosingStartTagState
  else if cc =? ">"%uc then emitAndResumeIn DataState
  else if quirksLessThan cc t then emitAndReconsumeIn DataState
  else if isASCIIUpper cc then startAttribute (toLowerCase cc) ;; advanceTo AttributeNameState
  else if cc =? kEndOfFileMarker then parseError ;; reconsumeIn DataState
  else startAttribute cc ;; advanceTo AttributeNameState.

Definition onAttributeNameState (cc : Z) : M Control :=
  let! t := get in
  if isTokenizerWhitespace cc then
    tokenAt endAttributeName 0 ;; advanceTo AfterAttributeNameState
  else if cc =? "/"%uc then tokenAt endAttributeName 0 ;; advanceTo SelfClosingStartTagState
  else if cc =? "="%uc then tokenAt endAttributeName 0 ;; advanceTo BeforeAttributeValueState
  else if cc =? ">"%uc then tokenAt endAttributeName 0 ;; emitAndResumeIn DataState
  else if quirksLessThan cc t then tokenAt endAttributeName 0 ;; emitAndReconsumeIn DataState
  else if isASCIIUpper cc then
    token (appendToAttributeName (toLowerCase cc)) ;; advanceTo AttributeNameState
  else if cc =? kEndOfFileMarker then
    parseError ;; tokenAt endAttributeName 0 ;; reconsumeIn DataState
  else token (appendToAttributeName cc) ;; advanceTo AttributeNameState.

Definition onAfterAttributeNameState (cc : Z) : M Control :=
  let! t := get in
  if isTokenizerWhitespace cc then advanceTo AfterAttributeNameState
  else if cc =? "/"%uc then advanceTo SelfClosingStartTagState
  else if cc =? "="%uc then advanceTo BeforeAttributeValueState
  else if cc =? ">"%uc then emitAndResumeIn DataState
  else if quirksLessThan cc t then emitAndReconsumeIn DataState
  else if isASCIIUpper cc then startAttribute (toLowerCase cc) ;; advanceTo AttributeNameState
  else if cc =? kEndOfFileMarker then parseError ;; reconsumeIn DataState
  else startAttribute cc ;; advanceTo AttributeNameState.

Definition onBeforeAttributeValueState (cc : Z) : M Control :=
  if isTokenizerWhitespace cc then advanceTo BeforeAttributeValueState
  else if cc =? dquote then
    tokenAt beginAttributeValue 1 ;; advanceTo AttributeValueDoubleQuotedState
  else if cc =? "&"%uc then
    tokenAt beginAttributeValue 0 ;; reconsumeIn AttributeValueUnquotedState
  else if cc =? "'"%uc then
    tokenAt beginAttributeValue 1 ;; advanceTo AttributeValueSingleQuotedState
  else if cc =? ">"%uc then parseError ;; emitAndResumeIn DataState
  else if cc =? kEndOfFileMarker then parseError ;; reconsumeIn DataState
  else
    tokenAt beginAttributeValue 0 ;;
    token (appendToAttributeValue cc) ;;
    advanceTo AttributeValueUnquotedState.

Definition onAttributeValueDoubleQuotedState (cc : Z) : M Control :=
  if cc =? dquote then
    tokenAt endAttributeValue 0 ;; advanceTo AfterAttributeValueQuotedState
  else if cc =? "&"%uc then
    modify (set_additional dquote) ;; advanceTo CharacterReferenceInAttributeValueState
  else if cc =? kEndOfFileMarker then
    parseError ;; tokenAt endAttributeValue 0 ;; reconsumeIn DataState
  else token (appendToAttributeValue cc) ;; advanceTo AttributeValueDoubleQuotedState.

Definition onAttributeValueSingleQuotedState (cc : Z) : M Control :=
  if cc =? "'"%uc then
    tokenAt endAttributeValue 0 ;; advanceTo AfterAttributeValueQuotedState
  else if cc =? "&"%uc then
    modify (set_additional "'"%uc) ;; advanceTo CharacterReferenceInAttributeValueState
  else if cc =? kEndOfFileMarker then
    parseError ;; tokenAt endAttributeValue 0 ;; reconsumeIn DataState
  else token (appendToAttributeValue cc) ;; advanceTo AttributeValueSingleQuotedState.

Definition onAttributeValueUnquotedState (cc : Z) : M Control :=
  if isTokenizerWhitespace cc then
    tokenAt endAttributeValue 0 ;; advanceTo BeforeAttributeNameState
  else if cc =? "&"%uc then
    modify (set_additional ">"%uc) ;; advanceTo CharacterReferenceInAttributeValueState
  else if cc =? ">"%uc then tokenAt endAttributeValue 0 ;; emitAndResumeIn DataState
  else if cc =? kEndOfFileMarker then
    parseError ;; tokenAt endAttributeValue 0 ;; reconsumeIn DataState
  else token (appendToAttributeValue cc) ;; advanceTo AttributeValueUnquotedState.

(** The end of the case: the state to go back to is told by
    [m_additionalAllowedCharacter]. *)
Definition backToAttributeValue : M Control :=
  let! t := get in
  if m_additionalAllowedCharacter t =? dquote then switchTo AttributeValueDoubleQuotedState
  else if m_additionalAllowedCharacter t =? "'"%uc then switchTo AttributeValueSingleQuotedState
  else if m_additionalAllowedCharacter t =? ">"%uc then switchTo AttributeValueUnquotedState
  else assert_ (fun _ => false) ;; haveBuffered.

Definition onCharacterReferenceInAttributeValueState (cc : Z) : M Control :=
  let! t := get in
  let! r := consumeEntity (m_additionalAllowedCharacter t) in
  if notEnoughCharacters r then haveBuffered
  else
    (if success r then appendToAttributeValues (decoded r)
     else token (appendToAttributeValue "&"%uc)) ;;
    backToAttributeValue.

Definition onAfterAttributeValueQuotedState (cc : Z) : M Control :=
  let! t := get in
  if isTokenizerWhitespace cc then advanceTo BeforeAttributeNameState
  else if cc =? "/"%uc then advanceTo SelfClosingStartTagState
  else if cc =? ">"%uc then emitAndResumeIn DataState
  else if quirksLessThan cc t then emitAndReconsumeIn DataState
  else if cc =? kEndOfFileMarker then parseError ;; reconsumeIn DataState
  else parseError ;; reconsumeIn BeforeAttributeNameState.

Definition onSelfClosingStartTagState (cc : Z) : M Control :=
  if cc =? ">"%uc then token setSelfClosing ;; emitAndResumeIn DataState
  else if cc =? kEndOfFileMarker then parseError ;; reconsumeIn DataState
  else parseError ;; reconsumeIn BeforeAttributeNameState.

(** ** Comments *)

Definition onBogusCommentState (cc : Z) : M Control :=
  token beginComment ;; reconsumeIn ContinueBogusCommentState.

Definition onContinueBogusCommentState (cc : Z) : M Control :=
  if cc =? ">"%uc then emitAndResumeIn DataState
  else if cc =? kEndOfFileMarker then emitAndReconsumeIn DataState
  else token (appendToComment cc) ;; advanceTo ContinueBogusCommentState.

(** The three look-aheads of the state have one shape: on a match the string is
    consumed, without enough characters the tokenizer waits, and otherwise the
    code goes on with what follows the [if]. *)
Definition lookAheadFor (ignoreCase : bool) (string : list Z) (matched : M Control)
  (otherwise : M Control) : M Control :=
  let! r := askLookAhead ignoreCase string in
  match r with
  | DidMatch => source (advanceString string) ;; matched
  | NotEnoughCharacters => haveBuffered
  | DidNotMatch => otherwise
  end.

Definition onMarkupDeclarationOpenState (cc : Z) : M Control :=
  let bogus := parseError ;; reconsumeIn BogusCommentState in
  let! t := get in
  if cc =? "-"%uc then
    lookAheadFor false (lit "--") (token beginComment ;; switchTo CommentStartState) bogus
  else if (cc =? "D"%uc) || (cc =? "d"%uc) then
    lookAheadFor true (lit "doctype") (switchTo DOCTYPEState) bogus
  else if (cc =? "["%uc) && m_shouldAllowCDATA t then
    lookAheadFor false (lit "[CDATA[") (switchTo CDATASectionState) bogus
  else bogus.

Definition onCommentStartState (cc : Z) : M Control :=
  if cc =? "-"%uc then advanceTo CommentStartDashState
  else if cc =? ">"%uc then parseError ;; emitAndResumeIn DataState
  else if cc =? kEndOfFileMarker then parseError ;; emitAndReconsumeIn DataState
  else token (appendToComment cc) ;; advanceTo CommentState.

Definition onCommentStartDashState (cc : Z) : M Control :=
  if cc =? "-"%uc then advanceTo CommentEndState
  else if cc =? ">"%uc then parseError ;; emitAndResumeIn DataState
  else if cc =? kEndOfFileMarker then parseError ;; emitAndReconsumeIn DataState
  else appendToComments ["-"%uc; cc] ;; advanceTo CommentState.

Definition onCommentState (cc : Z) : M Control :=
  if cc =? "-"%uc then advanceTo CommentEndDashState
  else if cc =? kEndOfFileMarker then parseError ;; emitAndReconsumeIn DataState
  else token (appendToComment cc) ;; advanceTo CommentState.

Definition onCommentEndDashState (cc : Z) : M Control :=
  if cc =? "-"%uc then advanceTo CommentEndState
  else if cc =? kEndOfFileMarker then parseError ;; emitAndReconsumeIn DataState
  else appendToComments ["-"%uc; cc] ;; advanceTo CommentState.

Definition onCommentEndState (cc : Z) : M Control :=
  if cc =? ">"%uc then emitAndResumeIn DataState
  else if cc =? "!"%uc then parseError ;; advanceTo CommentEndBangState
  else if cc =? "-"%uc then
    parseError ;; token (appendToComment "-"%uc) ;; advanceTo CommentEndState
  else if cc =? kEndOfFileMarker then parseError ;; emitAndReconsumeIn DataState
  else parseError ;; appendToComments ["-"%uc; "-"%uc; cc] ;; advanceTo CommentState.

Definition onCommentEndBangState (cc : Z) : M Control :=
  if cc =? "-"%uc then
    appendToComments ["-"%uc; "-"%uc; "!"%uc] ;; advanceTo CommentEndDashState
  else if cc =? ">"%uc then emitAndResumeIn DataState
  else if cc =? kEndOfFileMarker then parseError ;; emitAndReconsumeIn DataState
  else appendToComments ["-"%uc; "-"%uc; "!"%uc; cc] ;; advanceTo CommentState.

(** ** DOCTYPEs *)

Definition onDOCTYPEState (cc : Z) : M Control :=
  if isTokenizerWhitespace cc then advanceTo BeforeDOCTYPENameState
  else if cc =? kEndOfFileMarker then
    parseError ;; token beginDOCTYPE ;; token setForceQuirks ;; emitAndReconsumeIn DataState
  else parseError ;; reconsumeIn BeforeDOCTYPENameState.

Definition onBeforeDOCTYPENameState (cc : Z) : M Control :=
  if isTokenizerWhitespace cc then advanceTo BeforeDOCTYPENameState
  else if isASCIIUpper cc then
    token (beginDOCTYPE_char (toLowerCase cc)) ;; advanceTo DOCTYPENameState
  else if cc =? ">"%uc then
    parseError ;; token beginDOCTYPE ;; token setForceQuirks ;; emitAndResumeIn DataState
  else if cc =? kEndOfFileMarker then
    parseError ;; token beginDOCTYPE ;; token setForceQuirks ;; emitAndReconsumeIn DataState
  else token (beginDOCTYPE_char cc) ;; advanceTo DOCTYPENameState.

(** The endings that the DOCTYPE states share. *)
Definition quirksResume : M Control :=
  parseError ;; token setForceQuirks ;; emitAndResumeIn DataState.

Definition quirksEndOfFile : M Control :=
  parseError ;; token setForceQuirks ;; emitAndReconsumeIn DataState.

Definition quirksBogus : M Control :=
  parseError ;; token setForceQuirks ;; advanceTo BogusDOCTYPEState.

Definition onDOCTYPENameState (cc : Z) : M Control :=
  if isTokenizerWhitespace cc then advanceTo AfterDOCTYPENameState
  else if cc =? ">"%uc then emitAndResumeIn DataState
  else if isASCIIUpper cc then token (appendToName (toLowerCase cc)) ;; advanceTo DOCTYPENameState
  else if cc =? kEndOfFileMarker then quirksEndOfFile
  else token (appendToName cc) ;; advanceTo DOCTYPENameState.

Definition onAfterDOCTYPENameState (cc : Z) : M Control :=
  if isTokenizerWhitespace cc then advanceTo AfterDOCTYPENameState
  else if cc =? ">"%uc then emitAndResumeIn DataState
  else if cc =? kEndOfFileMarker then quirksEndOfFile
  else if (cc =? "P"%uc) || (cc =? "p"%uc) then
    lookAheadFor true (lit "public") (switchTo AfterDOCTYPEPublicKeywordState) quirksBogus
  else if (cc =? "S"%uc) || (cc =? "s"%uc) then
    lookAheadFor true (lit "system") (switchTo AfterDOCTYPESystemKeywordState) quirksBogus
  else quirksBogus.

Definition openPublicIdentifier (st : State) : M Control :=
  token setPublicIdentifierToEmptyString ;; advanceTo st.

Definition openSystemIdentifier (st : State) : M Control :=
  token setSystemIdentifierToEmptyString ;; advanceTo st.

Definition onAfterDOCTYPEPublicKeywordState (cc : Z) : M Control :=
  if isTokenizerWhitespace cc then advanceTo BeforeDOCTYPEPublicIdentifierState
  else if cc =? dquote then
    parseError ;; openPublicIdentifier DOCTYPEPublicIdentifierDoubleQuotedState
  else if cc =? "'"%uc then
    parseError ;; openPublicIdentifier DOCTYPEPublicIdentifierSingleQuotedState
  else if cc =? ">"%uc then quirksResume
  else if cc =? kEndOfFileMarker then quirksEndOfFile
  else quirksBogus.

Definition onBeforeDOCTYPEPublicIdentifierState (cc : Z) : M Control :=
  if isTokenizerWhitespace cc then advanceTo BeforeDOCTYPEPublicIdentifierState
  else if cc =? dquote then openPublicIdentifier DOCTYPEPublicIdentifierDoubleQuotedState
  else if cc =? "'"%uc then openPublicIdentifier DOCTYPEPublicIdentifierSingleQuotedState
  else if cc =? ">"%uc then quirksResume
  else if cc =? kEndOfFileMarker then quirksEndOfFile
  else quirksBogus.

Definition onDOCTYPEPublicIdentifierDoubleQuotedState (cc : Z) : M Control :=
  if cc =? dquote then advanceTo AfterDOCTYPEPublicIdentifierState
  else if cc =? ">"%uc then quirksResume
  else if cc =? kEndOfFileMarker then quirksEndOfFile
  else token (appendToPublicIdentifier cc) ;; advanceTo DOCTYPEPublicIdentifierDoubleQuotedState.

Definition onDOCTYPEPublicIdentifierSingleQuotedState (cc : Z) : M Control :=
  if cc =? "'"%uc then advanceTo AfterDOCTYPEPublicIdentifierState
  else if cc =? ">"%uc then quirksResume
  else if cc =? kEndOfFileMarker then quirksEndOfFile
  else token (appendToPublicIdentifier cc) ;; advanceTo DOCTYPEPublicIdentifierSingleQuotedState.

Definition onAfterDOCTYPEPublicIdentifierState (cc : Z) : M Control :=
  if isTokenizerWhitespace cc then advanceTo BetweenDOCTYPEPublicAndSystemIdentifiersState
  else if cc =? ">"%uc then emitAndResumeIn DataState
  else if cc =? dquote then
    parseError ;; openSystemIdentifier DOCTYPESystemIdentifierDoubleQuotedState
  else if cc =? "'"%uc then
    parseError ;; openSystemIdentifier DOCTYPESystemIdentifierSingleQuotedState
  else if cc =? kEndOfFileMarker then quirksEndOfFile
  else quirksBogus.

Definition onBetweenDOCTYPEPublicAndSystemIdentifiersState (cc : Z) : M Control :=
  if isTokenizerWhitespace cc then advanceTo BetweenDOCTYPEPublicAndSystemIdentifiersState
  else if cc =? ">"%uc then emitAndResumeIn DataState
  else if cc =? dquote then openSystemIdentifier DOCTYPESystemIdentifierDoubleQuotedState
  else if cc =? "'"%uc then openSystemIdentifier DOCTYPESystemIdentifierSingleQuotedState
  else if cc =? kEndOfFileMarker then quirksEndOfFile
  else quirksBogus.

Definition onAfterDOCTYPESystemKeywordState (cc : Z) : M Control :=
  if isTokenizerWhitespace cc then advanceTo BeforeDOCTYPESystemIdentifierState
  else if cc =? dquote then
    parseError ;; openSystemIdentifier DOCTYPESystemIdentifierDoubleQuotedState
  else if cc =? "'"%uc then
    parseError ;; openSystemIdentifier DOCTYPESystemIdentifierSingleQuotedState
  else if cc =? ">"%uc then quirksResume
  else if cc =? kEndOfFileMarker then quirksEndOfFile
  else quirksBogus.

Definition onBeforeDOCTYPESystemIdentifierState (cc : Z) : M Control :=
  if isTokenizerWhitespace cc then advanceTo BeforeDOCTYPESystemIdentifierState
  else if cc =? dquote then openSystemIdentifier DOCTYPESystemIdentifierDoubleQuotedState
  else if cc =? "'"%uc then openSystemIdentifier DOCTYPESystemIdentifierSingleQuotedState
  else if cc =? ">"%uc then quirksResume
  else if cc =? kEndOfFileMarker then quirksEndOfFile
  else quirksBogus.

Definition onDOCTYPESystemIdentifierDoubleQuotedState (cc : Z) : M Control :=
  if cc =? dquote then advanceTo AfterDOCTYPESystemIdentifierState
  else if cc =? ">"%uc then quirksResume
  else if cc =? kEndOfFileMarker then quirksEndOfFile
  else token (appendToSystemIdentifier cc) ;; advanceTo DOCTYPESystemIdentifierDoubleQuotedState.

Definition onDOCTYPESystemIdentifierSingleQuotedState (cc : Z) : M Control :=
  if cc =? "'"%uc then advanceTo AfterDOCTYPESystemIdentifierState
  else if cc =? ">"%uc then quirksResume
  else if cc =? kEndOfFileMarker then quirksEndOfFile
  else token (appendToSystemIdentifier cc) ;; advanceTo DOCTYPESystemIdentifierSingleQuotedState.

Definition onAfterDOCTYPESystemIdentifierState (cc : Z) : M Control :=
  if isTokenizerWhitespace cc then advanceTo AfterDOCTYPESystemIdentifierState
  else if cc =? ">"%uc then emitAndResumeIn DataState
  else if cc =? kEndOfFileMarker then quirksEndOfFile
  else parseError ;; advanceTo BogusDOCTYPEState.

Definition onBogusDOCTYPEState (cc : Z) : M Control :=
  if cc =? ">"%uc then emitAndResumeIn DataState
  else if cc =? kEndOfFileMarker then emitAndReconsumeIn DataState
  else advanceTo BogusDOCTYPEState.

(** ** CDATA sections *)

Definition onCDATASectionState (cc : Z) : M Control :=
  if cc =? "]"%uc then advanceTo CDATASectionRightSquareBracketState
  else if cc =? kEndOfFileMarker then reconsumeIn DataState
  else bufferCharacter cc ;; advanceTo CDATASectionState.

Definition onCDATASectionRightSquareBracketState (cc : Z) : M Control :=
  if cc =? "]"%uc then advanceTo CDATASectionDoubleRightSquareBracketState
  else bufferCharacter "]"%uc ;; reconsumeIn CDATASectionState.

Definition onCDATASectionDoubleRightSquareBracketState (cc : Z) : M Control :=
  if cc =? ">"%uc then advanceTo DataState
  else bufferCharacter "]"%uc ;; bufferCharacter "]"%uc ;; reconsumeIn CDATASectionState.

(** ** [nextToken] *)

(** The [switch] on [m_state]. *)
Definition dispatch (st : State) : Z -> M Control :=
  match st with
  | DataState => onDataState
  | CharacterReferenceInDataState => onCharacterReferenceInDataState
  | RCDATAState => onRCDATAState
  | CharacterReferenceInRCDATAState => onCharacterReferenceInRCDATAState
  | RAWTEXTState => onRAWTEXTState
  | ScriptDataState => onScriptDataState
  | PLAINTEXTState => onPLAINTEXTState
  | TagOpenState => onTagOpenState
  | EndTagOpenState => onEndTagOpenState
  | TagNameState => onTagNameState
  | RCDATALessThanSignState => onRCDATALessThanSignState
  | RCDATAEndTagOpenState => onRCDATAEndTagOpenState
  | RCDATAEndTagNameState => onRCDATAEndTagNameState
  | RAWTEXTLessThanSignState => onRAWTEXTLessThanSignState
  | RAWTEXTEndTagOpenState => onRAWTEXTEndTagOpenState
  | RAWTEXTEndTagNameState => onRAWTEXTEndTagNameState
  | ScriptDataLessThanSignState => onScriptDataLessThanSignState
  | ScriptDataEndTagOpenState => onScriptDataEndTagOpenState
  | ScriptDataEndTagNameState => onScriptDataEndTagNameState
  | ScriptDataEscapeStartState => onScriptDataEscapeStartState
  | ScriptDataEscapeStartDashState => onScriptDataEscapeStartDashState
  | ScriptDataEscapedState => onScriptDataEscapedState
  | ScriptDataEscapedDashState => onScriptDataEscapedDashState
  | ScriptDataEscapedDashDashState => onScriptDataEscapedDashDashState
  | ScriptDataEscapedLessThanSignState => onScriptDataEscapedLessThanSignState
  | ScriptDataEscapedEndTagOpenState => onScriptDataEscapedEndTagOpenState
  | ScriptDataEscapedEndTagNameState => onScriptDataEscapedEndTagNameState
  | ScriptDataDoubleEscapeStartState => onScriptDataDoubleEscapeStartState
  | ScriptDataDoubleEscapedState => onScriptDataDoubleEscapedState
  | ScriptDataDoubleEscapedDashState => onScriptDataDoubleEscapedDashState
  | ScriptDataDoubleEscapedDashDashState => onScriptDataDoubleEscapedDashDashState
  | ScriptDataDoubleEscapedLessThanSignState => onScriptDataDoubleEscapedLessThanSignState
  | ScriptDataDoubleEscapeEndState => onScriptDataDoubleEscapeEndState
  | BeforeAttributeNameState => onBeforeAttributeNameState
  | AttributeNameState => onAttributeNameState
  | AfterAttributeNameState => onAfterAttributeNameState
  | BeforeAttributeValueState => onBeforeAttributeValueState
  | AttributeValueDoubleQuotedState => onAttributeValueDoubleQuotedState
  | AttributeValueSingleQuotedState => onAttributeValueSingleQuotedState
  | AttributeValueUnquotedState => onAttributeValueUnquotedState
  | CharacterReferenceInAttributeValueState => onCharacterReferenceInAttributeValueState
  | AfterAttributeValueQuotedState => onAfterAttributeValueQuotedState
  | SelfClosingStartTagState => onSelfClosingStartTagState
  | BogusCommentState => onBogusCommentState
  | ContinueBogusCommentState => onContinueBogusCommentState
  | MarkupDeclarationOpenState => onMarkupDeclarationOpenState
  | CommentStartState => onCommentStartState
  | CommentStartDashState => onCommentStartDashState
  | CommentState => onCommentState
  | CommentEndDashState => onCommentEndDashState
  | CommentEndState => onCommentEndState
  | CommentEndBangState => onCommentEndBangState
  | DOCTYPEState => onDOCTYPEState
  | BeforeDOCTYPENameState => onBeforeDOCTYPENameState
  | DOCTYPENameState => onDOCTYPENameState
  | AfterDOCTYPENameState => onAfterDOCTYPENameState
  | AfterDOCTYPEPublicKeywordState => onAfterDOCTYPEPublicKeywordState
  | BeforeDOCTYPEPublicIdentifierState => onBeforeDOCTYPEPublicIdentifierState
  | DOCTYPEPublicIdentifierDoubleQuotedState => onDOCTYPEPublicIdentifierDoubleQuotedState
  | DOCTYPEPublicIdentifierSingleQuotedState => onDOCTYPEPublicIdentifierSingleQuotedState
  | AfterDOCTYPEPublicIdentifierState => onAfterDOCTYPEPublicIdentifierState
  | BetweenDOCTYPEPublicAndSystemIdentifiersState => onBetweenDOCTYPEPublicAndSystemIdentifiersState
  | AfterDOCTYPESystemKeywordState => onAfterDOCTYPESystemKeywordState
  | BeforeDOCTYPESystemIdentifierState => onBeforeDOCTYPESystemIdentifierState
  | DOCTYPESystemIdentifierDoubleQuotedState => onDOCTYPESystemIdentifierDoubleQuotedState
  | DOCTYPESystemIdentifierSingleQuotedState => onDOCTYPESystemIdentifierSingleQuotedState
  | AfterDOCTYPESystemIdentifierState => onAfterDOCTYPESystemIdentifierState
  | BogusDOCTYPEState => onBogusDOCTYPEState
  | CDATASectionState => onCDATASectionState
  | CDATASectionRightSquareBracketState => onCDATASectionRightSquareBracketState
  | CDATASectionDoubleRightSquareBracketState => onCDATASectionDoubleRightSquareBracketState
  end.

(** The two ways to the next input character: [m_inputStreamPreprocessor.advance]
    and [peek]. *)
Definition advanceInput : M bool := fun t s =>
  match preprocessor_advance (shouldSkipNullCharacters t) (m_inputStreamPreprocessor t) s with
  | Some (more, p, s) => Some (more, set_preprocessor p t, s)
  | None => None
  end.

Definition peekInput : M bool := fun t s =>
  match peek (shouldSkipNullCharacters t) (m_inputStreamPreprocessor t) s with
  | Some (more, p, s) => Some (more, set_preprocessor p t, s)
  | None => None
  end.

(** [source.isEmpty() || !m_inputStreamPreprocessor.peek(source)], negated. *)
Definition peekUnlessEmpty : M bool :=
  let! e := ask isEmpty in if e then ret false else peekInput.

(** What follows a check for more input: [return haveBufferedCharacterToken()],
    or go on with the next character. *)
Definition continueWith (k : Z -> M bool) (more : bool) : M bool :=
  let! t := get in
  if more then k (m_nextInputCharacter (m_inputStreamPreprocessor t))
  else ret (haveBufferedCharacterToken t).

(** The [goto]s between the cases. *)
Fixpoint runStates (fuel : nat) (cc : Z) : M bool :=
  match fuel with
  | O => fun _ _ => None
  | S fuel =>
      let! t := get in
      let! c := dispatch (m_state t) cc in
      match c with
      | ADVANCE_TO st =>
          modify (set_state st) ;; let! more := advanceInput in continueWith (runStates fuel) more
      | RECONSUME_IN st => modify (set_state st) ;; runStates fuel cc
      | SWITCH_TO st =>
          modify (set_state st) ;; let! more := peekUnlessEmpty in continueWith (runStates fuel) more
      | RETURN b => ret b
      end
  end.

(** The end tag that was begun in the last call: [true] when the token is
    complete. *)
Definition resumeBufferedEndTag : M bool :=
  let! t := get in
  if negb (lists_eqb (m_bufferedEndTagName t) []) && negb (isEndTagBufferingState (m_state t))
  then
    token (beginEndTag (m_bufferedEndTagName t)) ;;
    modify clearEndTagBuffers ;;
    ret (bool_decide (m_state t = DataState))
  else ret false.

Definition tokenizerFuel (s : Src) : nat := (4 * sourceLength s + 4)%nat.

Definition nextToken : M bool :=
  let! done := resumeBufferedEndTag in
  if done then ret true
  else
    let! fuel := ask tokenizerFuel in
    let! more := peekUnlessEmpty in
    continueWith (runStates fuel) more.

End Tokenizer.
