(* ===== verification/HTMLTokenizerRules.v ===== *)
(** * The invariant of the tokenizer and the rules of its primitives

    The invariant of [HTMLTokenizer]: in which states the token may have which
    type, where a current attribute or a DOCTYPE must exist, and when the buffer
    of a possible end tag may be non-empty.  [stepOK] is what a case of the
    switch promises; the rules and the tactics of this file reduce it to facts
    about the token. *)
From S2P Require Import Prelude.
From S2P Require Import CharSource.
From S2P Require Import HTMLToken.
From S2P Require Import InputStreamPreprocessor.
From S2P Require Import HTMLEntitySearch.
From S2P Require Import HTMLEntityParser.
From S2P Require Import HTMLEntityFacts.
From S2P Require Import HTMLTokenizer.
From stdpp Require Import base list numbers option.
From Stdlib Require Import ZArith Lia.
#[local] Open Scope Z_scope.
Import HTMLToken Stream StreamFacts.

(** ** The invariant *)

Definition hasCurrentAttribute (k : HTMLToken) : bool :=
  match m_currentAttribute k with
  | Some i => match m_attributes k !! i with Some _ => true | None => false end
  | None => false
  end.

Definition hasDoctype (k : HTMLToken) : bool :=
  hasType DOCTYPE k && match m_doctypeData k with Some _ => true | None => false end.

(** What the token may be when the tokenizer is in a state. *)
Definition tokenFits (st : State) (additional : Z) (k : HTMLToken) : bool :=
  match st with
  | TagOpenState | EndTagOpenState | MarkupDeclarationOpenState | BogusCommentState
  | DOCTYPEState | BeforeDOCTYPENameState => hasType Uninitialized k
  | TagNameState | BeforeAttributeNameState | AfterAttributeValueQuotedState
  | SelfClosingStartTagState => isTag k
  | AttributeNameState | AfterAttributeNameState | BeforeAttributeValueState
  | AttributeValueDoubleQuotedState | AttributeValueSingleQuotedState
  | AttributeValueUnquotedState => isTag k && hasCurrentAttribute k
  | CharacterReferenceInAttributeValueState =>
      isTag k && hasCurrentAttribute k
      && ((additional =? dquote) || (additional =? 39) || (additional =? 62))
  | ContinueBogusCommentState | CommentStartState | CommentStartDashState | CommentState
  | CommentEndDashState | CommentEndState | CommentEndBangState => hasType Comment k
  | DOCTYPEPublicIdentifierDoubleQuotedState | DOCTYPEPublicIdentifierSingleQuotedState =>
      hasDoctype k && hasPublicId k
  | DOCTYPESystemIdentifierDoubleQuotedState | DOCTYPESystemIdentifierSingleQuotedState =>
      hasDoctype k && hasSystemId k
  | DOCTYPENameState | AfterDOCTYPENameState | AfterDOCTYPEPublicKeywordState
  | BeforeDOCTYPEPublicIdentifierState | AfterDOCTYPEPublicIdentifierState
  | BetweenDOCTYPEPublicAndSystemIdentifiersState | AfterDOCTYPESystemKeywordState
  | BeforeDOCTYPESystemIdentifierState | AfterDOCTYPESystemIdentifierState
  | BogusDOCTYPEState => hasDoctype k
  | _ => hasType Uninitialized k || hasType Character k
  end.

(** The states in which characters of a possible end tag have been read. *)
Definition isEndTagNameState (st : State) : bool :=
  match st with
  | RCDATAEndTagNameState | RAWTEXTEndTagNameState | ScriptDataEndTagNameState
  | ScriptDataEscapedEndTagNameState => true
  | _ => false
  end.

(** In the middle of a call. *)
Definition fits (st : State) (t : HTMLTokenizer) : bool :=
  tokenFits st (m_additionalAllowedCharacter t) (m_token t)
  && Bool.eqb (isEndTagNameState st) (negb (lists_eqb (m_bufferedEndTagName t) [])).

(** An end tag was begun while a character token was pending. *)
Definition pendingEndTag (t : HTMLTokenizer) : bool :=
  negb (lists_eqb (m_bufferedEndTagName t) []) && negb (isEndTagBufferingState (m_state t)).

(** Between two calls. *)
Definition tokenizerOK (t : HTMLTokenizer) : bool :=
  negb (hasType Character (m_token t))
  && if pendingEndTag t then
       hasType Uninitialized (m_token t)
       && match m_state t with
          | BeforeAttributeNameState | SelfClosingStartTagState | DataState => true
          | _ => false
          end
     else fits (m_state t) t.

(** After a call that returned a token the parser clears it (or uses a new one);
    after one that did not, the same token is passed again. *)
Definition afterCall (b : bool) (t : HTMLTokenizer) : HTMLTokenizer :=
  if b then set_token (clear (m_token t)) t else t.

(** What holds when a call returns: the invariant for the next call; a token that
    is returned has a type, and unless it holds characters no end tag is pending. *)
Definition returnOK (b : bool) (t : HTMLTokenizer) : bool :=
  tokenizerOK (afterCall b t)
  && (negb b || (negb (hasType Uninitialized (m_token t))
                 && (hasType Character (m_token t) || lists_eqb (m_bufferedEndTagName t) []))).

(** ** The measure *)

Definition rank (st : State) : nat :=
  match st with
  | DataState | RCDATAState | RAWTEXTState | ScriptDataState | PLAINTEXTState => 0
  | TagOpenState | EndTagOpenState | MarkupDeclarationOpenState => 3
  | BogusCommentState | DOCTYPEState
  | ScriptDataEscapedLessThanSignState | ScriptDataEscapedEndTagOpenState
  | ScriptDataEscapedEndTagNameState | ScriptDataDoubleEscapeStartState
  | ScriptDataDoubleEscapedLessThanSignState | ScriptDataDoubleEscapeEndState
  | AfterAttributeValueQuotedState | SelfClosingStartTagState | BeforeAttributeValueState
  | CDATASectionRightSquareBracketState | CDATASectionDoubleRightSquareBracketState
  | CharacterReferenceInAttributeValueState => 2
  | _ => 1
  end.

Definition measure (t : HTMLTokenizer) (s : Stream) : nat :=
  (4 * len s + rank (m_state t) + if pendingEndTag t then 1 else 0)%nat.

(** ** Weakest preconditions *)

Section Safety.
Context `{FoldCase} `{EntityTable}.

Definition wp {A} (m : M A) (Q : A -> HTMLTokenizer -> Stream -> Prop)
  (t : HTMLTokenizer) (s : Stream) : Prop :=
  match m t s with
  | Some (a, t', s') => Q a t' s'
  | None => False
  end.

Lemma wp_bind {A B} (m : M A) (k : A -> M B) Q t s :
  wp m (fun a t' s' => wp (k a) Q t' s') t s -> wp (bind m k) Q t s.
Proof. unfold wp, bind. by destruct (m t s) as [[[a t'] s']|]. Qed.

Lemma wp_mono {A} (m : M A) (Q Q' : A -> HTMLTokenizer -> Stream -> Prop) t s :
  wp m Q t s -> (forall a t' s', Q a t' s' -> Q' a t' s') -> wp m Q' t s.
Proof. unfold wp. destruct (m t s) as [[[a t'] s']|]; auto. Qed.

(** What a case of the switch promises about the way it is left. *)
Definition stepOK (st : State) (t0 : HTMLTokenizer) (cc : Z) (s : Stream)
  (c : Control) (t : HTMLTokenizer) (s' : Stream) : Prop :=
  match c with
  | ADVANCE_TO st' =>
      fits st' t = true /\ len s' = len s /\ isEmpty s' = false
  | RECONSUME_IN st' =>
      (fits st' t = true \/ st' = DataState /\ cc = kEndOfFileMarker
                            /\ m_bufferedEndTagName t = []) /\
      len s' = len s /\ isEmpty s' = false /\ (rank st' < rank st)%nat
  | SWITCH_TO st' =>
      fits st' t = true /\ (4 * len s' + rank st' < 4 * len s + rank st)%nat
  | RETURN b =>
      returnOK b t = true /\
      if b
      then (measure t s' < 4 * len s + rank st)%nat \/
           hasType Character (m_token t0) = true /\ (measure t s' <= 4 * len s + rank st)%nat
      else (measure t s' <= 4 * len s + rank st)%nat
  end.

(** *** Rules for the primitives *)

Lemma wp_ret {A} (a : A) Q t s : Q a t s -> wp (ret a) Q t s.
Proof. done. Qed.

Lemma wp_get Q t s : Q t t s -> wp get Q t s.
Proof. done. Qed.

Lemma wp_modify f Q t s : Q tt (f t) s -> wp (modify f) Q t s.
Proof. done. Qed.

Lemma wp_ask {A} (f : Stream -> A) Q t s : Q (f s) t s -> wp (ask f) Q t s.
Proof. done. Qed.

Lemma wp_source f Q t s : Q tt t (f s) -> wp (source f) Q t s.
Proof. done. Qed.

Lemma wp_parseError Q t s : Q tt t s -> wp parseError Q t s.
Proof. done. Qed.

Lemma wp_assert p Q t s : p t = true -> Q tt t s -> wp (assert_ p) Q t s.
Proof. unfold wp, assert_. by intros ->. Qed.

(** A member function of the token that succeeds. *)
Lemma wp_token f Q t s :
  (exists k, f (m_token t) = Some k /\ Q tt (set_token k t) s) -> wp (token f) Q t s.
Proof. unfold wp, token. by intros (k & -> & HQ). Qed.

Lemma hasType_true ty k : hasType ty k = true <-> m_type k = ty.
Proof. apply bool_decide_eq_true. Qed.

(** *** Rules for the member functions of the token *)

(** A function that keeps everything the invariant looks at. *)
Definition sameShape (k k' : HTMLToken) : Prop :=
  m_type k' = m_type k /\
  hasCurrentAttribute k' = hasCurrentAttribute k /\
  hasDoctype k' = hasDoctype k /\
  hasPublicId k' = hasPublicId k /\
  hasSystemId k' = hasSystemId k.

Lemma sameShape_fits k k' st ad :
  sameShape k k' -> tokenFits st ad k' = tokenFits st ad k.
Proof.
  intros (H1 & H2 & H3 & H4 & H5). unfold tokenFits, hasType, isTag.
  by rewrite H1, H2, H3, H4, H5.
Qed.

Lemma modifyAttribute_shape f k :
  hasCurrentAttribute k = true ->
  exists k', modifyAttribute f k = Some k' /\ sameShape k k'.
Proof.
  intros Hc. unfold modifyAttribute. pose proof Hc as Hc'. unfold hasCurrentAttribute in Hc'.
  destruct (m_currentAttribute k) as [i|] eqn:Ei; [|done].
  destruct (m_attributes k !! i) as [a|] eqn:Ea; [|done].
  eexists; split; [done|]. repeat split. rewrite Hc. unfold hasCurrentAttribute. simpl.
  rewrite list_lookup_insert_eq; [done|]. by eapply lookup_lt_Some.
Qed.

Lemma modifyDoctype_shape f k :
  hasDoctype k = true ->
  (forall d, m_hasPublicIdentifier (f d) = m_hasPublicIdentifier d /\
             m_hasSystemIdentifier (f d) = m_hasSystemIdentifier d) ->
  exists k', modifyDoctype f k = Some k' /\ sameShape k k'.
Proof.
  intros Hd Hf. unfold modifyDoctype. unfold hasDoctype in Hd. apply andb_true_iff in Hd as [-> Hd].
  destruct (m_doctypeData k) as [d|] eqn:Ed; [|done].
  eexists; split; [done|]. unfold sameShape, hasDoctype, hasPublicId, hasSystemId. simpl.
  rewrite Ed. by destruct (Hf d) as [-> ->].
Qed.

Lemma wp_shape f Q t s :
  (exists k, f (m_token t) = Some k /\ sameShape (m_token t) k) ->
  (forall k, sameShape (m_token t) k -> Q tt (set_token k t) s) ->
  wp (token f) Q t s.
Proof. intros (k & Hk & Hs) HQ. apply wp_token. eauto. Qed.

Definition isText (k : HTMLToken) : bool := hasType Uninitialized k || hasType Character k.

(** The condition of [ASSERT(character)]. *)
Lemma notNull_true c : c <> 0 -> notNull c = true.
Proof. intros Hc. unfold notNull. by destruct (Z.eqb_spec c 0). Qed.

Lemma wp_bufferCharacter c Q t s :
  c <> 0 -> isText (m_token t) = true ->
  (forall k, m_type k = Character -> Q tt (set_token k t) s) ->
  wp (bufferCharacter c) Q t s.
Proof.
  intros Hc Hk HQ. apply wp_bind, wp_assert; [by apply (notNull_true c)|].
  apply wp_bind, wp_token. unfold ensureIsCharacterToken. unfold isText in Hk.
  rewrite Hk. eexists; split; [done|]. apply wp_token. eexists; split; [done|]. by apply HQ.
Qed.

(** A recorded assertion leaves the shape of the token alone. *)
Lemma record_shape b a k : sameShape k (record b a k).
Proof. by destruct b. Qed.

Lemma record_type b a k : m_type (record b a k) = m_type k.
Proof. by destruct b. Qed.

Lemma wp_bufferDecoded c Q t s :
  isText (m_token t) = true ->
  (forall k, m_type k = Character -> Q tt (set_token k t) s) ->
  wp (bufferDecoded c) Q t s.
Proof.
  intros Hk HQ. apply wp_bind, wp_token. eexists; split; [reflexivity|].
  apply wp_bind, wp_token. unfold ensureIsCharacterToken, hasType. cbn [m_token set_token].
  rewrite record_type. unfold isText, hasType in Hk.
  rewrite Hk. eexists; split; [done|]. apply wp_token. eexists; split; [done|]. by apply HQ.
Qed.

Lemma wp_bufferCharacters l Q t s :
  isText (m_token t) = true ->
  (forall k, isText k = true -> Q tt (set_token k t) s) ->
  wp (bufferCharacters l) Q t s.
Proof.
  revert Q t; induction l as [|c l IH]; intros Q t Hk HQ; simpl.
  - apply wp_ret. specialize (HQ _ Hk). by destruct t.
  - apply wp_bind, wp_bufferDecoded; [done|]. intros k Ek. apply IH.
    + unfold isText, hasType. simpl. by rewrite Ek.
    + intros k' Hk'. by apply (HQ k').
Qed.

Lemma wp_appendToCharacter_vector l Q t s :
  m_type (m_token t) = Character ->
  (forall k, m_type k = Character -> Q tt (set_token k t) s) ->
  wp (token (appendToCharacter_vector l)) Q t s.
Proof.
  intros Hk HQ. apply wp_token. unfold appendToCharacter_vector, hasType.
  rewrite Hk. eexists; split; [done|]. by apply HQ.
Qed.

Lemma wp_beginComment Q t s :
  hasType Uninitialized (m_token t) = true ->
  (forall k, m_type k = Comment -> Q tt (set_token k t) s) ->
  wp (token beginComment) Q t s.
Proof.
  intros Hk HQ. apply wp_token. unfold beginComment. rewrite Hk.
  eexists; split; [done|]. by apply HQ.
Qed.

Lemma wp_appendToComment c Q t s :
  c <> 0 ->
  hasType Comment (m_token t) = true ->
  (forall k, hasType Comment k = true -> Q tt (set_token k t) s) ->
  wp (token (appendToComment c)) Q t s.
Proof.
  intros Hc Hk HQ. apply wp_token. unfold appendToComment. rewrite (notNull_true c Hc). rewrite Hk.
  eexists; split; [done|]. by apply HQ.
Qed.

Lemma wp_appendToComments l Q t s :
  Forall (fun c => c <> 0) l -> hasType Comment (m_token t) = true ->
  (forall k, hasType Comment k = true -> Q tt (set_token k t) s) ->
  wp (appendToComments l) Q t s.
Proof.
  intros Hl. revert Q t; induction Hl as [|c l Hc Hl IH]; intros Q t Hk HQ; simpl.
  - apply wp_ret. specialize (HQ _ Hk). by destruct t.
  - apply wp_bind, wp_appendToComment; [done|done|]. intros k Ek. apply IH; [done|].
    intros k' Hk'. by apply (HQ k').
Qed.

Lemma wp_beginStartTag c Q t s :
  c <> 0 ->
  hasType Uninitialized (m_token t) = true ->
  (forall k, isTag k = true -> Q tt (set_token k t) s) ->
  wp (token (beginStartTag c)) Q t s.
Proof.
  intros Hc Hk HQ. apply wp_token. unfold beginStartTag. rewrite (notNull_true c Hc). rewrite Hk.
  eexists; split; [done|]. by apply HQ.
Qed.

Lemma wp_beginEndTag_char c Q t s :
  hasType Uninitialized (m_token t) = true ->
  (forall k, isTag k = true -> Q tt (set_token k t) s) ->
  wp (token (beginEndTag_char c)) Q t s.
Proof.
  intros Hk HQ. apply wp_token. unfold beginEndTag_char. rewrite Hk.
  eexists; split; [done|]. by apply HQ.
Qed.

Lemma wp_beginEndTag l Q t s :
  hasType Uninitialized (m_token t) = true ->
  (forall k, m_type k = EndTag -> Q tt (set_token k t) s) ->
  wp (token (beginEndTag l)) Q t s.
Proof.
  intros Hk HQ. apply wp_token. unfold beginEndTag. rewrite Hk.
  eexists; split; [done|]. by apply HQ.
Qed.

Lemma wp_appendToTagName c Q t s :
  c <> 0 ->
  isTag (m_token t) = true ->
  (forall k, isTag k = true -> Q tt (set_token k t) s) ->
  wp (token (appendToName c)) Q t s.
Proof.
  intros Hc Hk HQ. apply wp_token. unfold appendToName. rewrite (notNull_true c Hc). rewrite Hk.
  eexists; split; [done|]. by apply HQ.
Qed.

Lemma wp_appendToDoctypeName c Q t s :
  c <> 0 ->
  hasDoctype (m_token t) = true ->
  (forall k, hasDoctype k = true -> Q tt (set_token k t) s) ->
  wp (token (appendToName c)) Q t s.
Proof.
  intros Hc Hk HQ. apply wp_token. unfold appendToName. rewrite (notNull_true c Hc).
  pose proof Hk as [-> _]%andb_true_iff. rewrite orb_true_r.
  eexists; split; [done|]. by apply HQ.
Qed.

Lemma wp_setSelfClosing Q t s :
  isTag (m_token t) = true ->
  (forall k, isTag k = true -> Q tt (set_token k t) s) ->
  wp (token setSelfClosing) Q t s.
Proof.
  intros Hk HQ. apply wp_token. unfold setSelfClosing. rewrite Hk.
  eexists; split; [done|]. by apply HQ.
Qed.

Lemma wp_startAttribute c Q t s :
  c <> 0 -> isTag (m_token t) = true ->
  (forall k, isTag k = true -> hasCurrentAttribute k = true -> Q tt (set_token k t) s) ->
  wp (startAttribute c) Q t s.
Proof.
  intros Hc Hk HQ. apply wp_bind, wp_token. unfold addNewAttribute. rewrite Hk.
  eexists; split; [done|]. apply wp_bind, wp_bind, wp_ask, wp_shape.
  { apply modifyAttribute_shape. unfold hasCurrentAttribute. simpl.
    rewrite lookup_app_r, Nat.sub_diag by done. done. }
  intros k Hs. apply wp_shape; simpl.
  - unfold appendToAttributeName. rewrite (notNull_true c Hc). unfold isTag in *.
    destruct Hs as (-> & Hs & _). simpl. rewrite Hk. apply modifyAttribute_shape.
    rewrite Hs. unfold hasCurrentAttribute. simpl.
    rewrite lookup_app_r, Nat.sub_diag by done. done.
  - intros k' Hs'. apply (HQ k').
    + unfold isTag in *. destruct Hs' as (-> & _), Hs as (-> & _). done.
    + destruct Hs' as (_ & -> & _), Hs as (_ & -> & _). unfold hasCurrentAttribute. simpl.
      rewrite lookup_app_r, Nat.sub_diag by done. done.
Qed.

(** The accesses through [m_currentAttribute]. *)
Lemma wp_attribute f Q t s :
  (exists g, forall k, isTag k = true -> f k = modifyAttribute g k) ->
  isTag (m_token t) && hasCurrentAttribute (m_token t) = true ->
  (forall k, isTag k && hasCurrentAttribute k = true -> Q tt (set_token k t) s) ->
  wp (token f) Q t s.
Proof.
  intros [g Hg] Hk HQ. pose proof Hk as [H1 H2]%andb_true_iff. apply wp_shape.
  - rewrite Hg by done. by apply modifyAttribute_shape.
  - intros k (E1 & E2 & _). apply HQ. unfold isTag in *. by rewrite E1, E2.
Qed.

Definition isAttributePosition (f : Z -> HTMLToken -> option HTMLToken) : Prop :=
  f = beginAttributeName \/ f = endAttributeName \/
  f = beginAttributeValue \/ f = endAttributeValue.

Lemma attributePosition_shape f n k :
  isAttributePosition f -> hasCurrentAttribute k = true ->
  exists k', f n k = Some k' /\ sameShape k k'.
Proof.
  intros Hf Hc.
  destruct Hf as [->|[->|[->| ->]]]; by apply modifyAttribute_shape.
Qed.

Lemma wp_tokenAt f d Q t s :
  isAttributePosition f ->
  isTag (m_token t) && hasCurrentAttribute (m_token t) = true ->
  (forall k, isTag k && hasCurrentAttribute k = true -> Q tt (set_token k t) s) ->
  wp (tokenAt f d) Q t s.
Proof.
  intros Hf Hk HQ. pose proof Hk as [H1 H2]%andb_true_iff. apply wp_bind, wp_ask, wp_shape.
  - by apply attributePosition_shape.
  - intros k (E1 & E2 & _). apply HQ. unfold isTag in *. by rewrite E1, E2.
Qed.

Lemma wp_appendToAttributeName c Q t s :
  c <> 0 -> isTag (m_token t) && hasCurrentAttribute (m_token t) = true ->
  (forall k, isTag k && hasCurrentAttribute k = true -> Q tt (set_token k t) s) ->
  wp (token (appendToAttributeName c)) Q t s.
Proof.
  intros Hc. apply wp_attribute. eexists. intros k Hk. unfold appendToAttributeName.
  by rewrite (notNull_true c Hc), Hk.
Qed.

Lemma sameShape_trans k1 k2 k3 : sameShape k1 k2 -> sameShape k2 k3 -> sameShape k1 k3.
Proof. unfold sameShape. intuition congruence. Qed.

(** A function that appends to the current value. *)
Lemma wp_currentValue c g Q t s :
  (forall k, sameShape k (g k)) ->
  isTag (m_token t) && hasCurrentAttribute (m_token t) = true ->
  (forall k, isTag k && hasCurrentAttribute k = true -> Q tt (set_token k t) s) ->
  wp (token (fun k => guard! isTag k in appendToCurrentValue c (g k))) Q t s.
Proof.
  intros Hg Hk HQ. pose proof Hk as [H1 H2]%andb_true_iff.
  set (k0 := record (hasValueStart (g (m_token t))) NoValueStart (g (m_token t))).
  assert (Hs0 : sameShape (m_token t) k0) by (eapply sameShape_trans; [apply Hg|apply record_shape]).
  apply wp_shape.
  - rewrite H1. unfold appendToCurrentValue.
    destruct (modifyAttribute_shape (fun a => mkAttribute (nameRange a) (valueRange a) (attr_name a)
                (attr_value a ++ [c])) k0) as (k & E & Hs);
      [by destruct Hs0 as (_ & -> & _)|]. exists k. split; [exact E|]. by eapply sameShape_trans.
  - intros k (E1 & E2 & _). apply HQ. unfold isTag in *. by rewrite E1, E2.
Qed.

Lemma wp_appendToAttributeValue c Q t s :
  c <> 0 -> isTag (m_token t) && hasCurrentAttribute (m_token t) = true ->
  (forall k, isTag k && hasCurrentAttribute k = true -> Q tt (set_token k t) s) ->
  wp (token (appendToAttributeValue c)) Q t s.
Proof.
  intros Hc Hk HQ. unfold appendToAttributeValue. rewrite (notNull_true c Hc).
  by apply (wp_currentValue c id).
Qed.

Lemma wp_appendToAttributeValues l Q t s :
  isTag (m_token t) && hasCurrentAttribute (m_token t) = true ->
  (forall k, isTag k && hasCurrentAttribute k = true -> Q tt (set_token k t) s) ->
  wp (appendToAttributeValues l) Q t s.
Proof.
  revert Q t; induction l as [|c l IH]; intros Q t Hk HQ; simpl.
  - apply wp_ret. specialize (HQ _ Hk). by destruct t.
  - apply wp_bind, (wp_currentValue c (record (notNull c) NullFromReference));
      [intros k; apply record_shape|done|].
    intros k Ek. apply IH; [done|]. intros k' Hk'. by apply (HQ k').
Qed.

Lemma wp_beginDOCTYPE Q t s :
  hasType Uninitialized (m_token t) = true ->
  (forall k, hasDoctype k = true -> Q tt (set_token k t) s) ->
  wp (token beginDOCTYPE) Q t s.
Proof.
  intros Hk HQ. apply wp_token. unfold beginDOCTYPE. rewrite Hk.
  eexists; split; [done|]. by apply HQ.
Qed.

Lemma wp_beginDOCTYPE_char c Q t s :
  c <> 0 ->
  hasType Uninitialized (m_token t) = true ->
  (forall k, hasDoctype k = true -> Q tt (set_token k t) s) ->
  wp (token (beginDOCTYPE_char c)) Q t s.
Proof.
  intros Hc Hk HQ. apply wp_token. unfold beginDOCTYPE_char, beginDOCTYPE. rewrite (notNull_true c Hc). rewrite Hk.
  eexists; split; [done|]. by apply HQ.
Qed.

Lemma wp_doctype f Q t s :
  (forall d, m_hasPublicIdentifier (f d) = m_hasPublicIdentifier d /\
             m_hasSystemIdentifier (f d) = m_hasSystemIdentifier d) ->
  hasDoctype (m_token t) = true ->
  (forall k, sameShape (m_token t) k -> Q tt (set_token k t) s) ->
  wp (token (modifyDoctype f)) Q t s.
Proof. intros Hf Hk HQ. apply wp_shape; [|done]. by apply modifyDoctype_shape. Qed.

Lemma wp_setForceQuirks Q t s :
  hasDoctype (m_token t) = true ->
  (forall k, hasDoctype k = true -> Q tt (set_token k t) s) ->
  wp (token setForceQuirks) Q t s.
Proof.
  intros Hk HQ. apply wp_doctype; [done|done|]. intros k (_ & _ & E & _). apply HQ. by rewrite E.
Qed.

Lemma wp_appendToPublicIdentifier c Q t s :
  c <> 0 ->
  hasDoctype (m_token t) && hasPublicId (m_token t) = true ->
  (forall k, hasDoctype k && hasPublicId k = true -> Q tt (set_token k t) s) ->
  wp (token (appendToPublicIdentifier c)) Q t s.
Proof.
  intros Hc Hk HQ. pose proof Hk as [H1 H2]%andb_true_iff. apply wp_shape.
  - unfold appendToPublicIdentifier. rewrite (notNull_true c Hc). rewrite H2. by apply modifyDoctype_shape.
  - intros k (_ & _ & E1 & E2 & _). apply HQ. by rewrite E1, E2.
Qed.

Lemma wp_appendToSystemIdentifier c Q t s :
  c <> 0 ->
  hasDoctype (m_token t) && hasSystemId (m_token t) = true ->
  (forall k, hasDoctype k && hasSystemId k = true -> Q tt (set_token k t) s) ->
  wp (token (appendToSystemIdentifier c)) Q t s.
Proof.
  intros Hc Hk HQ. pose proof Hk as [H1 H2]%andb_true_iff. apply wp_shape.
  - unfold appendToSystemIdentifier. rewrite (notNull_true c Hc). rewrite H2. by apply modifyDoctype_shape.
  - intros k (_ & _ & E1 & _ & E2). apply HQ. by rewrite E1, E2.
Qed.

Lemma wp_setPublicIdentifier Q t s :
  hasDoctype (m_token t) = true ->
  (forall k, hasDoctype k && hasPublicId k = true -> Q tt (set_token k t) s) ->
  wp (token setPublicIdentifierToEmptyString) Q t s.
Proof.
  intros Hk HQ. apply wp_token. unfold setPublicIdentifierToEmptyString, modifyDoctype.
  unfold hasDoctype in Hk. apply andb_true_iff in Hk as [Hk Hd]. rewrite Hk.
  destruct (m_doctypeData (m_token t)) as [d|] eqn:Ed; [|done].
  eexists; split; [done|]. apply HQ. unfold hasDoctype, hasType in *. simpl. by rewrite Hk.
Qed.

Lemma wp_setSystemIdentifier Q t s :
  hasDoctype (m_token t) = true ->
  (forall k, hasDoctype k && hasSystemId k = true -> Q tt (set_token k t) s) ->
  wp (token setSystemIdentifierToEmptyString) Q t s.
Proof.
  intros Hk HQ. apply wp_token. unfold setSystemIdentifierToEmptyString, modifyDoctype.
  unfold hasDoctype in Hk. apply andb_true_iff in Hk as [Hk Hd]. rewrite Hk.
  destruct (m_doctypeData (m_token t)) as [d|] eqn:Ed; [|done].
  eexists; split; [done|]. apply HQ. unfold hasDoctype, hasType in *. simpl. by rewrite Hk.
Qed.

(** *** Rules for the ends of the cases *)

Section Ends.
Context (st : State) (t0 : HTMLTokenizer) (cc : Z) (s : Stream).

Lemma wp_advanceTo st' t s' :
  fits st' t = true -> len s' = len s -> isEmpty s' = false ->
  wp (advanceTo st') (stepOK st t0 cc s) t s'.
Proof. intros H1 H2 H3. by apply wp_ret. Qed.

Lemma wp_reconsumeIn st' t s' :
  fits st' t = true -> len s' = len s -> isEmpty s' = false -> (rank st' < rank st)%nat ->
  wp (reconsumeIn st') (stepOK st t0 cc s) t s'.
Proof. intros H1 H2 H3 H4. apply wp_ret. simpl. auto. Qed.

Lemma wp_reconsumeEOF t s' :
  cc = kEndOfFileMarker -> m_bufferedEndTagName t = [] ->
  len s' = len s -> isEmpty s' = false -> (0 < rank st)%nat ->
  wp (reconsumeIn DataState) (stepOK st t0 cc s) t s'.
Proof. intros H1 H2 H3 H4 H5. apply wp_ret. simpl. auto. Qed.

Lemma wp_switchTo st' t s' :
  fits st' t = true -> (4 * len s' + rank st' < 4 * len s + rank st)%nat ->
  wp (switchTo st') (stepOK st t0 cc s) t s'.
Proof. intros H1 H2. by apply wp_ret. Qed.

(** A token is returned and the tokenizer is in the data state. *)
Lemma returnToken t s' :
  m_state t = DataState -> m_bufferedEndTagName t = [] ->
  hasType Uninitialized (m_token t) = false ->
  (4 * len s' < 4 * len s + rank st)%nat ->
  stepOK st t0 cc s (RETURN true) t s'.
Proof.
  intros H1 H2 Hu H3. simpl. unfold returnOK, tokenizerOK, measure, pendingEndTag, fits. simpl.
  rewrite H1, H2, Hu. simpl. rewrite orb_true_r. split; [reflexivity|]. left. lia.
Qed.

Lemma wp_saveEndTagName Q t s' :
  hasType Uninitialized (m_token t) = false ->
  (forall l, Q tt (set_appropriate l t) s') ->
  wp saveEndTagNameIfNeeded Q t s'.
Proof.
  intros Hk HQ. apply wp_bind, wp_assert; [by rewrite Hk|]. apply wp_modify.
  destruct (hasType StartTag (m_token t)); [apply HQ|].
  specialize (HQ (m_appropriateEndTagName t)). by destruct t.
Qed.

Lemma wp_emitAndResumeIn t s' :
  hasType Uninitialized (m_token t) = false -> m_bufferedEndTagName t = [] ->
  len s' = len s -> isEmpty s' = false ->
  wp (emitAndResumeIn DataState) (stepOK st t0 cc s) t s'.
Proof.
  intros H1 H2 H3 H4. apply wp_bind, wp_saveEndTagName; [done|]. intros l.
  apply wp_bind, wp_modify, wp_bind, wp_source, wp_ret. apply returnToken; [done|done|done|].
  pose proof (len_nonempty _ H4). cbn. rewrite len_advance. lia.
Qed.

Lemma wp_emitAndReconsumeIn t s' :
  hasType Uninitialized (m_token t) = false -> m_bufferedEndTagName t = [] ->
  len s' = len s -> (0 < rank st)%nat ->
  wp (emitAndReconsumeIn DataState) (stepOK st t0 cc s) t s'.
Proof.
  intros H1 H2 H3 H4. apply wp_bind, wp_saveEndTagName; [done|]. intros l.
  apply wp_bind, wp_modify, wp_ret. apply returnToken; [done|done|done|]. lia.
Qed.

Lemma text_afterCall b t :
  m_state t = st ->
  hasType Character (m_token t) = b -> fits st t = true ->
  returnOK b t = true.
Proof.
  intros Hst Hb Hf. unfold returnOK. rewrite Hb.
  assert (negb b || negb (hasType Uninitialized (m_token t))
                    && (b || lists_eqb (m_bufferedEndTagName t) []) = true) as ->.
  { destruct b; [|done]. apply hasType_true in Hb. unfold hasType. by rewrite Hb. }
  rewrite andb_true_r. unfold tokenizerOK, pendingEndTag, fits, afterCall in *.
  apply andb_true_iff in Hf as [Hf Hbuf]. apply eqb_prop in Hbuf.
  destruct b; cbn [m_token m_state m_bufferedEndTagName m_additionalAllowedCharacter set_token clear
                   hasType m_type].
  - apply hasType_true in Hb. rewrite Hst, <- Hbuf.
    unfold tokenFits, hasType, isTag, hasDoctype, hasType in Hf. rewrite Hb in Hf.
    destruct st; cbn in *; try discriminate Hf; reflexivity.
  - rewrite Hst, Hb, Hf, <- Hbuf. by destruct st.
Qed.

Lemma wp_haveBuffered t s' :
  m_state t = st -> fits st t = true -> m_token t = m_token t0 ->
  (len s' <= len s)%nat ->
  wp haveBuffered (stepOK st t0 cc s) t s'.
Proof.
  intros Hst Hf Ht Hl. apply wp_bind, wp_get, wp_ret. simpl. split; [by apply text_afterCall|].
  assert (measure t s' <= 4 * len s + rank st)%nat.
  { unfold measure, pendingEndTag, fits in *. rewrite Hst. apply andb_true_iff in Hf as [_ Hf].
    apply eqb_prop in Hf. rewrite <- Hf. destruct st; simpl; lia. }
  unfold haveBufferedCharacterToken. destruct (hasType Character (m_token t)) eqn:E; [|done].
  right. by rewrite <- Ht.
Qed.

Lemma wp_emitEndOfFile t :
  m_token t = m_token t0 -> m_state t = st ->
  hasType Character (m_token t) && negb (fits st t) = false -> m_bufferedEndTagName t = [] ->
  isEmpty s = false ->
  wp emitEndOfFile (stepOK st t0 cc s) t s.
Proof.
  intros Ht Hst Hf Hb He. apply wp_bind, wp_get. unfold haveBufferedCharacterToken.
  destruct (hasType Character (m_token t)) eqn:Ek.
  - apply negb_false_iff in Hf. apply wp_ret. split.
    + by apply text_afterCall.
    + right. rewrite <- Ht. split; [done|]. unfold measure, pendingEndTag. rewrite Hb, Hst. simpl. lia.
  - apply wp_bind, wp_modify, wp_bind, wp_source, wp_bind, wp_modify, wp_bind, wp_token.
    eexists; split; [reflexivity|]. apply wp_ret, returnToken; [done|done|by unfold hasType; cbn; rewrite ?Ek'|].
    pose proof (len_nonempty _ He). cbn. rewrite len_advance. lia.
Qed.

(** [flushBufferedEndTag] and the two ways to leave a case through it. *)
Lemma wp_flushAndAdvanceTo st' t :
  (st' = BeforeAttributeNameState \/ st' = SelfClosingStartTagState) ->
  isText (m_token t) = true -> isEmpty s = false ->
  (hasType Character (m_token t) = true -> m_bufferedEndTagName t <> []) ->
  wp (flushAndAdvanceTo st') (stepOK st t0 cc s) t s.
Proof.
  intros Hst Hk He Hne. pose proof (len_nonempty _ He) as Hl.
  apply wp_bind, wp_modify, wp_bind, wp_bind, wp_assert.
  { unfold isText in Hk. cbn. by rewrite orb_comm. }
  apply wp_bind, wp_source, wp_bind, wp_get. cbn [m_token set_state].
  destruct (hasType Character (m_token t)) eqn:Ek.
  - apply wp_ret, wp_ret. simpl. unfold returnOK, tokenizerOK, measure, pendingEndTag. simpl.
    assert (Eu : hasType Uninitialized (m_token t) = false)
      by (apply hasType_true in Ek; unfold hasType; by rewrite Ek).
    rewrite Ek, Eu.
    assert (E : lists_eqb (m_bufferedEndTagName t) [] = false).
    { apply not_true_iff_false. rewrite lists_eqb_eq. by apply Hne. }
    rewrite E, len_advance. by destruct Hst as [-> | ->]; simpl; (split; [reflexivity|left; lia]).
  - unfold isText in Hk. rewrite Ek, orb_false_r in Hk.
    apply wp_bind, wp_beginEndTag; [done|]. intros k Ek'. apply wp_bind, wp_modify, wp_ret.
    apply wp_ret. simpl. unfold fits, isTag. simpl. rewrite len_advance.
    destruct Hst as [-> | ->]; simpl; unfold isTag; rewrite Ek'; simpl; (split; [reflexivity|lia]).
Qed.

Lemma wp_flushEmitAndResumeIn t :
  isText (m_token t) = true -> isEmpty s = false ->
  (hasType Character (m_token t) = true -> m_bufferedEndTagName t <> []) ->
  wp (flushEmitAndResumeIn DataState) (stepOK st t0 cc s) t s.
Proof.
  intros Hk He Hne. pose proof (len_nonempty _ He) as Hl.
  apply wp_bind, wp_modify, wp_bind, wp_bind, wp_assert.
  { unfold isText in Hk. cbn. by rewrite orb_comm. }
  apply wp_bind, wp_source, wp_bind, wp_get. cbn [m_token set_state].
  destruct (hasType Character (m_token t)) eqn:Ek.
  - apply wp_ret, wp_ret. simpl. unfold returnOK, tokenizerOK, measure, pendingEndTag. simpl.
    assert (Eu : hasType Uninitialized (m_token t) = false)
      by (apply hasType_true in Ek; unfold hasType; by rewrite Ek).
    rewrite Ek, Eu.
    assert (E : lists_eqb (m_bufferedEndTagName t) [] = false).
    { apply not_true_iff_false. rewrite lists_eqb_eq. by apply Hne. }
    rewrite E, len_advance. simpl. split; [reflexivity|left; lia].
  - unfold isText in Hk. rewrite Ek, orb_false_r in Hk.
    apply wp_bind, wp_beginEndTag; [done|]. intros k Ek'. apply wp_bind, wp_modify, wp_ret.
    apply wp_ret, returnToken; [done|done|by unfold hasType; cbn; rewrite ?Ek'|]. cbn. rewrite len_advance. lia.
Qed.

Lemma wp_consumeEntity additional Q t :
  (forall r s', (len s' <= len s)%nat -> Q r t s') -> wp (consumeEntity additional) Q t s.
Proof.
  intros HQ. unfold wp, consumeEntity.
  destruct (consumeHTMLEntity_total additional s) as (r & -> & Hl). by apply HQ.
Qed.

(** The look-aheads leave as many characters in the source as there were. *)
Lemma wp_lookAheadFor ignoreCase string matched otherwise t :
  string <> [] ->
  (forall s', (len s' + length string = len s)%nat -> wp matched (stepOK st t0 cc s) t s') ->
  (forall s', len s' = len s -> isEmpty s' = false -> wp otherwise (stepOK st t0 cc s) t s') ->
  m_state t = st -> fits st t = true -> m_token t = m_token t0 ->
  wp (lookAheadFor ignoreCase string matched otherwise) (stepOK st t0 cc s) t s.
Proof.
  intros Hne Hm Ho Hst Hf Hk. apply wp_bind. unfold wp at 1, askLookAhead.
  assert (Hla : forall cs, exists r s', lookAheadInline string cs s = (r, s') /\
    (r = NotEnoughCharacters /\ s' = s \/
     len s' = len s /\ isEmpty s' = false /\ (length string <= len s)%nat)).
  { intros cs. unfold lookAheadInline. destruct (Nat.ltb_spec (length (chars s)) (length string)).
    { eexists _, _; split; [reflexivity|]. by left. }
    destruct (advanceBy (length string) s) as [l s'] eqn:Ea.
    destruct (advanceBy_spec (length string) s) as (A1 & A2 & _); [done|].
    rewrite Ea in A1, A2. simpl in A1, A2.
    eexists _, _; split; [done|]. right. rewrite len_prepend. unfold len. rewrite A2, A1.
    rewrite length_drop, length_take. split; [lia|]. split; [|done].
    apply isEmpty_false. simpl. destruct string as [|c string]; [done|].
    destruct (chars s); [simpl in *; lia|]. simpl. done. }
  assert (Hadv : forall l s', len (advanceString l s') = (len s' - length l)%nat).
  { intros l; induction l as [|c l IH]; intros s'; simpl; [lia|].
    rewrite IH. cbn. rewrite len_advance. lia. }
  unfold lookAheadIgnoringCase, lookAhead. cbn [CharSource.lookAheadInline stream_source].
  destruct (Hla (negb ignoreCase)) as (r & s' & E & Hr).
  assert (E' : (if ignoreCase then lookAheadInline string false s else lookAheadInline string true s)
               = (r, s')) by (by destruct ignoreCase).
  rewrite E'. destruct Hr as [[-> ->]|(H1 & H2 & H3)].
  - by apply wp_haveBuffered.
  - destruct r; [by apply Ho| |apply wp_haveBuffered; try done; lia].
    apply wp_bind, wp_source, Hm. rewrite Hadv. lia.
Qed.

End Ends.

(** ** Every case of the switch *)

Definition caseOK (st : State) : Prop :=
  forall t s cc, m_state t = st -> fits st t = true -> isEmpty s = false ->
    wp (dispatch st cc) (stepOK st t cc s) t s.

Lemma lists_eqb_snoc l c : lists_eqb (l ++ [c]) [] = false.
Proof. apply not_true_iff_false. rewrite lists_eqb_eq. by destruct l. Qed.

End Safety.

(** Facts about the token, in the form the rules ask for. *)
Ltac token_fact :=
  cbn [m_token set_token set_state set_buffered set_temporary set_appropriate set_additional];
  unfold isText in *;
  repeat match goal with
  | H : _ && _ = true |- _ => apply andb_true_iff in H; destruct H
  | H : m_type ?k = _ |- _ => apply hasType_true in H
  end;
  repeat match goal with
  | H : ?x = true |- context [?x] => rewrite H
  | H : ?x = false, H' : ?y || ?x = true |- _ => rewrite H, orb_false_r in H'
  end;
  rewrite ?orb_true_r; try reflexivity; try assumption;
  unfold hasDoctype, hasType, isTag in *;
  repeat match goal with
  | H : bool_decide _ = true |- _ => apply bool_decide_eq_true in H
  | H : _ && _ = true |- _ => apply andb_true_iff in H; destruct H
  | H : m_type ?k = _ |- _ => rewrite H in *
  end; try done;
  try match goal with
  | |- bool_decide (m_type ?k = _) = false => by destruct (m_type k)
  end.

(** A character that is given to the token is not NUL: it is a constant or in a range, or
    the end of file has been excluded. *)
Ltac char_fact :=
  unfold isASCIIUpper, isASCIILower, isTokenizerWhitespace, quirksLessThan, toLowerCase, kEndOfFileMarker,
    dquote in *;
  repeat match goal with
  | H : _ && _ = true |- _ => apply andb_true_iff in H; destruct H
  end;
  bool_to_prop; repeat match goal with H : _ \/ _ |- _ => destruct H end;
  bool_to_prop; first [done | lia].

(** The state of the tokenizer after a case. *)
Ltac fits_fact :=
  unfold fits;
  cbn [m_token m_state m_bufferedEndTagName m_additionalAllowedCharacter set_token set_state
       set_additional set_buffered set_temporary set_appropriate];
  cbn [tokenFits isEndTagNameState];
  rewrite ?lists_eqb_snoc;
  repeat match goal with
  | H : m_bufferedEndTagName ?t = [] |- context [m_bufferedEndTagName ?t] => rewrite H
  end;
  cbn; try token_fact.

Ltac size_fact := cbn in *; first [done | lia].

(** One step of a case: a rule for the next primitive, or one for its end. *)
Ltac case_step Hf0 :=
  match goal with
  | |- wp (bind _ _) _ _ _ => apply wp_bind
  | |- wp (if ?b then _ else _) _ _ _ => destruct b eqn:?; bool_to_prop
  | |- wp (match ?b with _ => _ end) _ _ _ => destruct b eqn:?
  | |- wp (let _ := _ in _) _ _ _ => cbv zeta
  | |- wp get _ _ _ => apply wp_get
  | |- wp (modify _) _ _ _ => apply wp_modify
  | |- wp parseError _ _ _ => apply wp_parseError
  | |- wp (bufferCharacter _) _ _ _ => apply wp_bufferCharacter; [char_fact|token_fact|intros ? ?]
  | |- wp (token (appendToCharacter_vector _)) _ _ _ =>
      apply wp_appendToCharacter_vector; [token_fact|intros ? ?]
  | |- wp (token beginComment) _ _ _ => apply wp_beginComment; [token_fact|intros ? ?]
  | |- wp (token (appendToComment _)) _ _ _ => apply wp_appendToComment; [char_fact|token_fact|intros ? ?]
  | |- wp (appendToComments _) _ _ _ => apply wp_appendToComments; [repeat constructor; char_fact|token_fact|intros ? ?]
  | |- wp (token (beginStartTag _)) _ _ _ => apply wp_beginStartTag; [char_fact|token_fact|intros ? ?]
  | |- wp (token (beginEndTag_char _)) _ _ _ => apply wp_beginEndTag_char; [token_fact|intros ? ?]
  | |- wp (token (appendToName _)) _ _ _ =>
      first [apply wp_appendToTagName; [char_fact|by token_fact|intros ? ?]
            |apply wp_appendToDoctypeName; [char_fact|by token_fact|intros ? ?]]
  | |- wp (token setSelfClosing) _ _ _ => apply wp_setSelfClosing; [token_fact|intros ? ?]
  | |- wp (startAttribute _) _ _ _ => apply wp_startAttribute; [char_fact|token_fact|intros ? ? ?]
  | |- wp (tokenAt _ _) _ _ _ =>
      apply wp_tokenAt; [unfold isAttributePosition; tauto|token_fact|intros ? ?]
  | |- wp (token (appendToAttributeName _)) _ _ _ =>
      apply wp_appendToAttributeName; [char_fact|token_fact|intros ? ?]
  | |- wp (token (appendToAttributeValue _)) _ _ _ =>
      apply wp_appendToAttributeValue; [char_fact|token_fact|intros ? ?]
  | |- wp (appendToAttributeValues _) _ _ _ =>
      apply wp_appendToAttributeValues; [token_fact|intros ? ?]
  | |- wp (token beginDOCTYPE) _ _ _ => apply wp_beginDOCTYPE; [token_fact|intros ? ?]
  | |- wp (token (beginDOCTYPE_char _)) _ _ _ => apply wp_beginDOCTYPE_char; [char_fact|token_fact|intros ? ?]
  | |- wp (token setForceQuirks) _ _ _ => apply wp_setForceQuirks; [token_fact|intros ? ?]
  | |- wp (token (appendToPublicIdentifier _)) _ _ _ =>
      apply wp_appendToPublicIdentifier; [char_fact|token_fact|intros ? ?]
  | |- wp (token (appendToSystemIdentifier _)) _ _ _ =>
      apply wp_appendToSystemIdentifier; [char_fact|token_fact|intros ? ?]
  | |- wp (token setPublicIdentifierToEmptyString) _ _ _ =>
      apply wp_setPublicIdentifier; [token_fact|intros ? ?]
  | |- wp (token setSystemIdentifierToEmptyString) _ _ _ =>
      apply wp_setSystemIdentifier; [token_fact|intros ? ?]
  | |- wp (appendToTemporary _) _ _ _ => apply wp_modify
  | |- wp (addToPossibleEndTag _) _ _ _ => unfold addToPossibleEndTag
  | |- wp (startEndTag _) _ _ _ => unfold startEndTag
  | |- wp (endTagOpen _ _ _) _ _ _ => unfold endTagOpen
  | |- wp (endTagName _ _ _) _ _ _ => unfold endTagName
  | |- wp (notAnEndTag _) _ _ _ => unfold notAnEndTag
  | |- wp processEntity _ _ _ => unfold processEntity
  | |- wp backToAttributeValue _ _ _ => unfold backToAttributeValue
  | |- wp quirksResume _ _ _ => unfold quirksResume
  | |- wp quirksEndOfFile _ _ _ => unfold quirksEndOfFile
  | |- wp quirksBogus _ _ _ => unfold quirksBogus
  | |- wp (openPublicIdentifier _) _ _ _ => unfold openPublicIdentifier
  | |- wp (openSystemIdentifier _) _ _ _ => unfold openSystemIdentifier
  | |- wp (ret (RETURN _)) _ _ _ => fail 1
  | |- wp (ret _) _ _ _ => apply wp_ret
  | |- wp (bufferCharacters _) _ _ _ => apply wp_bufferCharacters; [token_fact|intros ? ?]
  | |- wp (consumeEntity _) _ _ _ => apply wp_consumeEntity; intros ? ? ?
  | |- wp emitEndOfFile _ _ _ =>
      apply wp_emitEndOfFile; [done|done|rewrite Hf0, andb_false_r; done|done|done]
  | |- wp haveBuffered _ _ _ => apply wp_haveBuffered; [done|done|done|size_fact]
  | |- wp (flushAndAdvanceTo _) _ _ _ =>
      apply wp_flushAndAdvanceTo; [tauto|token_fact|done|cbn; congruence]
  | |- wp (flushEmitAndResumeIn _) _ _ _ => apply wp_flushEmitAndResumeIn; [token_fact|done|cbn; congruence]
  | |- wp (lookAheadFor _ _ _ _) _ _ _ =>
      apply wp_lookAheadFor; [discriminate|intros ? ?|intros ? ? ?|done|done|done]
  | |- wp (assert_ _) _ _ _ =>
      apply wp_assert; [cbn; repeat match goal with H : _ = _ |- _ => rewrite H end; try done|]
  | |- wp (advanceTo _) _ _ _ => apply wp_advanceTo; [fits_fact|size_fact|done]
  | |- wp (reconsumeIn DataState) (stepOK _ _ kEndOfFileMarker _) _ _ =>
      apply wp_reconsumeEOF; [done|done|size_fact|done|size_fact]
  | |- wp (reconsumeIn _) _ _ _ => apply wp_reconsumeIn; [fits_fact|size_fact|done|size_fact]
  | |- wp (switchTo _) _ _ _ => apply wp_switchTo; [fits_fact|size_fact]
  | |- wp (emitAndResumeIn DataState) _ _ _ =>
      apply wp_emitAndResumeIn; [token_fact|done|size_fact|done]
  | |- wp (emitAndReconsumeIn DataState) _ _ _ =>
      apply wp_emitAndReconsumeIn; [token_fact|done|size_fact|size_fact]
  end; subst; cbv beta.

(** The body of the case that [dispatch] selects. *)
Ltac unfold_case :=
  unfold onDataState, onCharacterReferenceInDataState, onRCDATAState,
    onCharacterReferenceInRCDATAState, onRAWTEXTState, onScriptDataState, onPLAINTEXTState,
    onTagOpenState, onEndTagOpenState, onTagNameState, onRCDATALessThanSignState,
    onRCDATAEndTagOpenState, onRCDATAEndTagNameState, onRAWTEXTLessThanSignState,
    onRAWTEXTEndTagOpenState, onRAWTEXTEndTagNameState, onScriptDataLessThanSignState,
    onScriptDataEndTagOpenState, onScriptDataEndTagNameState, onScriptDataEscapeStartState,
    onScriptDataEscapeStartDashState, onScriptDataEscapedState,
    onScriptDataEscapedDashState, onScriptDataEscapedDashDashState,
    onScriptDataEscapedLessThanSignState, onScriptDataEscapedEndTagOpenState,
    onScriptDataEscapedEndTagNameState, onScriptDataDoubleEscapeStartState,
    onScriptDataDoubleEscapedState, onScriptDataDoubleEscapedDashState,
    onScriptDataDoubleEscapedDashDashState, onScriptDataDoubleEscapedLessThanSignState,
    onScriptDataDoubleEscapeEndState, onBeforeAttributeNameState, onAttributeNameState,
    onAfterAttributeNameState, onBeforeAttributeValueState,
    onAttributeValueDoubleQuotedState, onAttributeValueSingleQuotedState,
    onAttributeValueUnquotedState, onCharacterReferenceInAttributeValueState,
    onAfterAttributeValueQuotedState, onSelfClosingStartTagState, onBogusCommentState,
    onContinueBogusCommentState, onMarkupDeclarationOpenState, onCommentStartState,
    onCommentStartDashState, onCommentState, onCommentEndDashState, onCommentEndState,
    onCommentEndBangState, onDOCTYPEState, onBeforeDOCTYPENameState, onDOCTYPENameState,
    onAfterDOCTYPENameState, onAfterDOCTYPEPublicKeywordState,
    onBeforeDOCTYPEPublicIdentifierState, onDOCTYPEPublicIdentifierDoubleQuotedState,
    onDOCTYPEPublicIdentifierSingleQuotedState, onAfterDOCTYPEPublicIdentifierState,
    onBetweenDOCTYPEPublicAndSystemIdentifiersState, onAfterDOCTYPESystemKeywordState,
    onBeforeDOCTYPESystemIdentifierState, onDOCTYPESystemIdentifierDoubleQuotedState,
    onDOCTYPESystemIdentifierSingleQuotedState, onAfterDOCTYPESystemIdentifierState,
    onBogusDOCTYPEState, onCDATASectionState, onCDATASectionRightSquareBracketState,
    onCDATASectionDoubleRightSquareBracketState.

(** The start of the proof of a case. *)
Ltac case_start Hf0 :=
  intros t s cc Hst Hf He;
  pose proof Hf as Hf0; unfold fits in Hf; apply andb_true_iff in Hf as [Hk Hb];
  cbn [tokenFits isEndTagNameState] in Hk, Hb; apply eqb_prop in Hb; symmetry in Hb;
  first [apply negb_false_iff, lists_eqb_eq in Hb | apply negb_true_iff in Hb; assert (m_bufferedEndTagName t <> []) by (intros E; by rewrite E in Hb)];
  cbn [dispatch].

