(* ===== verification/HTMLTokenizerSafety.v ===== *)
(** * The tokenizer never fails, always returns and always makes progress

    Every case of [nextToken] preserves the invariant and decreases a measure;
    together they show that no assertion fails, no null pointer is followed and
    that the loop ends with the fuel [nextToken] gives it. *)
From S2P Require Import Prelude.
From S2P Require Import CharSource.
From S2P Require Import HTMLToken.
From S2P Require Import InputStreamPreprocessor.
From S2P Require Import HTMLEntitySearch.
From S2P Require Import HTMLEntityParser.
From S2P Require Import HTMLEntityFacts.
From S2P Require Import HTMLTokenizer.
From S2P Require Import HTMLTokenizerRules.
From stdpp Require Import base list numbers option.
From Stdlib Require Import ZArith Lia.
#[local] Open Scope Z_scope.
Import HTMLToken Stream StreamFacts.

Section Cases.
Context `{FoldCase} `{EntityTable}.

Lemma dispatch_ok st : caseOK st.
Proof.
  destruct st; case_start Hf0; unfold_case; repeat case_step Hf0.
  { apply wp_ret. split; [by apply (text_afterCall DataState)|]. right. split; [done|].
    unfold measure, pendingEndTag. rewrite Hst, Hb. simpl. lia. }
  (* the unreachable end of the character reference in an attribute value *)
  all: exfalso; cbn in *;
    match goal with H : (_ || _ || _)%bool = true |- _ =>
      rewrite !orb_true_iff, !Z.eqb_eq in H; tauto
    end.
Qed.

(** The end of file in the data state, whatever the token. *)
Lemma data_eof_ok t s :
  m_state t = DataState -> m_bufferedEndTagName t = [] -> isEmpty s = false ->
  wp (dispatch DataState kEndOfFileMarker) (stepOK DataState t kEndOfFileMarker s) t s.
Proof.
  intros Hst Hb He. apply wp_emitEndOfFile; [done|done| |done|done].
  destruct (hasType Character (m_token t)) eqn:E; [|done].
  unfold fits. cbn. by rewrite E, Hb, orb_true_r.
Qed.

(** ** The next input character *)

Lemma processNext_facts fuel skip p s :
  m_nextInputCharacter p = currentChar s -> isEmpty s = false ->
  exists more p' s', processNextInputCharacter fuel skip p s = Some (more, p', s') /\
    (len s' <= len s)%nat /\ (more = true -> isEmpty s' = false).
Proof.
  revert p s; induction fuel as [|fuel IH]; intros p s Hp He;
    cbn [processNextInputCharacter CharSource.isEmpty CharSource.currentChar CharSource.advance
         CharSource.advancePastNewlineAndUpdateLineNumber stream_source];
    rewrite <- Hp, Z.eqb_refl;
    pose proof (len_advance s); pose proof (len_advance (advance s));
    destruct ((m_nextInputCharacter p =? 10) && m_skipNextNewLine p); simpl andb; cbv zeta;
    repeat match goal with |- context [if ?b then _ else _] => destruct b eqn:? end;
    first [ eexists _, _, _; split; [reflexivity|]; split; [lia|done]
          | match goal with |- context [processNextInputCharacter fuel _ ?q ?r] =>
              destruct (IH q r) as (more & p' & s' & -> & Hl & Hm);
              [done|done|eexists _, _, _; split; [reflexivity|]; split; [lia|done]]
            end ].
Qed.

Lemma peek_total skip p s :
  isEmpty s = false ->
  exists more p' s', peek skip p s = Some (more, p', s') /\
    (len s' <= len s)%nat /\ (more = true -> isEmpty s' = false).
Proof.
  intros He. unfold peek. case_match; [eexists _, _, _; by split|]. by apply processNext_facts.
Qed.

Lemma advance_total skip p s :
  isEmpty s = false ->
  exists more p' s', preprocessor_advance skip p s = Some (more, p', s') /\
    (S (len s') <= len s)%nat /\ (more = true -> isEmpty s' = false).
Proof.
  unfold preprocessor_advance. cbn. intros He. pose proof (len_nonempty _ He).
  pose proof (len_advance s). case_match.
  - eexists _, _, _; split; [reflexivity|]. split; [lia|done].
  - destruct (peek_total skip p (advance s)) as (more & p' & s' & E & Hl & Hm); [done|].
    eexists _, _, _; split; [exact E|]. split; [lia|done].
Qed.

Lemma peek_facts skip p s more p' s' :
  peek skip p s = Some (more, p', s') -> isEmpty s = false ->
  (len s' <= len s)%nat /\ (more = true -> isEmpty s' = false).
Proof. intros E He. destruct (peek_total skip p s He) as (? & ? & ? & E' & H1). by simplify_eq. Qed.

Lemma advance_facts skip p s more p' s' :
  preprocessor_advance skip p s = Some (more, p', s') -> isEmpty s = false ->
  (S (len s') <= len s)%nat /\ (more = true -> isEmpty s' = false).
Proof. intros E He. destruct (advance_total skip p s He) as (? & ? & ? & E' & H1). by simplify_eq. Qed.

(** ** The loop *)

(** The state is right for the next character, or the end of file is handled
    in the data state. *)
Definition runOK (cc : Z) (t : HTMLTokenizer) : Prop :=
  fits (m_state t) t = true \/
  m_state t = DataState /\ cc = kEndOfFileMarker /\ m_bufferedEndTagName t = [].

Definition callOK (mu : nat) (b : bool) (t : HTMLTokenizer) (s : Stream) : Prop :=
  returnOK b t = true /\
  if b then (measure t s < mu)%nat else (measure t s <= mu)%nat.

Lemma runOK_dispatch cc t s :
  runOK cc t -> isEmpty s = false ->
  wp (dispatch (m_state t) cc) (stepOK (m_state t) t cc s) t s.
Proof.
  intros [Hf|(H1 & -> & H2)] He; [by apply dispatch_ok|]. rewrite H1. by apply data_eof_ok.
Qed.

Lemma fits_measure t s :
  fits (m_state t) t = true -> measure t s = (4 * len s + rank (m_state t))%nat.
Proof.
  unfold fits, measure, pendingEndTag. intros [_ Hf]%andb_true_iff. apply eqb_prop in Hf.
  rewrite <- Hf. destruct (m_state t); simpl; lia.
Qed.

(** No more input: the call returns what it has. *)
Lemma wp_outOfInput mu t s (k : Z -> M bool) :
  fits (m_state t) t = true -> (4 * len s + rank (m_state t) < mu)%nat ->
  wp (continueWith k false) (callOK mu) t s.
Proof.
  intros Hf Hl. apply wp_bind, wp_get, wp_ret. unfold callOK.
  rewrite (fits_measure _ _ Hf). unfold haveBufferedCharacterToken.
  split; [by apply (text_afterCall (m_state t))|]. case_match; lia.
Qed.

Lemma runStates_ok fuel : forall mu cc t s,
  runOK cc t -> isEmpty s = false ->
  (4 * len s + rank (m_state t) < fuel)%nat -> (4 * len s + rank (m_state t) <= mu)%nat ->
  (hasType Character (m_token t) = true -> 4 * len s + rank (m_state t) < mu)%nat ->
  wp (runStates fuel cc) (callOK mu) t s.
Proof.
  induction fuel as [|fuel IH]; intros mu cc t s Hr He Hf Hmu Hchar; [lia|].
  cbn [runStates]. apply wp_bind, wp_get, wp_bind.
  eapply wp_mono; [by apply runOK_dispatch|]. intros c t' s' Hstep.
  assert (Hrank : forall st, (rank st <= 3)%nat) by (intros []; simpl; lia).
  destruct c as [st|st|st|b].
  - destruct Hstep as (Hfit & Hl & He'). apply wp_bind, wp_modify, wp_bind.
    unfold wp at 1, advanceInput.
    match goal with |- context [preprocessor_advance ?k ?q s'] =>
      destruct (advance_total k q s' He') as (more & p & s2 & -> & Hl2 & Hm) end.
    specialize (Hrank st).
    destruct more.
    + apply wp_bind, wp_get, IH; cbn; try lia; [by left|by apply Hm].
    + apply wp_outOfInput; cbn; [done|lia].
  - destruct Hstep as (Hfit & Hl & He' & Hrk). apply wp_bind, wp_modify, IH; cbn; try lia; [|done].
    destruct Hfit as [Hfit|(-> & -> & Hb)]; [by left|by right].
  - destruct Hstep as (Hfit & Hl). apply wp_bind, wp_modify, wp_bind, wp_bind, wp_ask. cbn.
    destruct (Stream.isEmpty s') eqn:He'.
    + apply wp_ret, wp_outOfInput; cbn; [done|lia].
    + unfold wp at 1, peekInput.
      match goal with |- context [peek ?k ?q s'] =>
        destruct (peek_total k q s' He') as (more & p & s2 & -> & Hl2 & Hm) end.
      destruct more.
      * apply wp_bind, wp_get, IH; cbn; try lia; [by left|by apply Hm].
      * apply wp_outOfInput; cbn; [done|lia].
  - apply wp_ret. destruct Hstep as [Hok Hm]. split; [done|]. destruct b; [|lia].
    destruct Hm as [Hm|[Hk Hm]]; [lia|]. specialize (Hchar Hk). lia.
Qed.

(** ** The whole call *)

Lemma wp_peekUnlessEmpty Q t s :
  (isEmpty s = true -> Q false t s) ->
  (forall more p s', (len s' <= len s)%nat -> (more = true -> isEmpty s' = false) ->
     Q more (set_preprocessor p t) s') ->
  wp peekUnlessEmpty Q t s.
Proof.
  intros H1 H2. apply wp_bind, wp_ask. cbn. destruct (Stream.isEmpty s) eqn:E.
  - by apply wp_ret, H1.
  - unfold wp, peekInput.
    match goal with |- context [peek ?k ?q s] =>
      destruct (peek_total k q s E) as (more & p & s2 & -> & Hl & Hm) end.
    by apply H2.
Qed.

(** The part of [nextToken] after the buffered end tag. *)
Lemma nextToken_run mu t s :
  fits (m_state t) t = true -> hasType Character (m_token t) = false ->
  (4 * len s + rank (m_state t) <= mu)%nat ->
  wp (bind (ask tokenizerFuel) (fun fuel =>
        bind peekUnlessEmpty (fun more => continueWith (runStates fuel) more)))
     (callOK mu) t s.
Proof.
  intros Hf Hc Hmu. apply wp_bind, wp_ask, wp_bind.
  assert (Hwait : forall p s', (len s' <= len s)%nat ->
            wp (continueWith (runStates (tokenizerFuel s)) false) (callOK mu)
               (set_preprocessor p t) s').
  { intros p s' Hl. apply wp_bind, wp_get, wp_ret. unfold haveBufferedCharacterToken. cbn [m_token set_preprocessor].
    rewrite Hc. split.
    - by apply (text_afterCall (m_state t)).
    - rewrite fits_measure by done. cbn. lia. }
  apply wp_peekUnlessEmpty.
  - intros He. specialize (Hwait (m_inputStreamPreprocessor t) s ltac:(lia)). by destruct t.
  - intros [] p s' Hl He; [|by apply Hwait].
    assert (Hfuel : tokenizerFuel s = (4 * len s + 4)%nat) by done.
    assert (rank (m_state t) <= 3)%nat by (destruct (m_state t); simpl; lia).
    apply wp_bind, wp_get, runStates_ok; rewrite ?Hfuel; cbn -[Nat.mul]; try lia.
    + by left.
    + by apply He.
    + by rewrite Hc.
Qed.

Lemma nextToken_ok t s :
  tokenizerOK t = true -> wp nextToken (callOK (measure t s)) t s.
Proof.
  intros Hok. unfold tokenizerOK in Hok. apply andb_true_iff in Hok as [Hc Hok].
  apply negb_true_iff in Hc. unfold nextToken, resumeBufferedEndTag.
  apply wp_bind, wp_bind, wp_get.
  destruct (pendingEndTag t) eqn:Ep; unfold pendingEndTag in Ep; rewrite Ep.
  - apply andb_true_iff in Hok as [Hu Hst]. apply wp_bind, wp_beginEndTag; [done|].
    intros k Hk. apply wp_bind, wp_modify, wp_ret.
    assert (Hm : measure t s = S (4 * len s + rank (m_state t)))
      by (unfold measure, pendingEndTag; rewrite Ep; lia).
    rewrite Hm. destruct (bool_decide_reflect (m_state t = DataState)) as [E|E].
    + apply wp_ret. unfold callOK, returnOK, tokenizerOK, measure, pendingEndTag, fits. cbn. rewrite E. cbn.
      split; [by unfold hasType; rewrite Hk|]. change (lists_eqb [] []) with true. simpl. lia.
    + apply nextToken_run; cbn; [| |lia].
      * unfold fits, tokenFits, isTag. cbn. rewrite Hk. by destruct (m_state t).
      * unfold hasType. by rewrite Hk.
  - apply wp_ret. apply nextToken_run; [done|done|]. by rewrite fits_measure.
Qed.

End Cases.
