(* ===== verification/HTMLPreloadScanner.v ===== *)
(** * [HTMLPreloadScanner] of [WebCore/html/parser/HTMLPreloadScanner.cpp]

    The loop that drives a tokenizer over a source that grows: [appendToEnd]
    adds text and [scan] takes every token that is complete, lets the tokenizer
    change state for the tag, and hands the token on.  The token that
    [HTMLPreloadScanner] owns is the field [m_token] of the tokenizer; what
    [scan] hands to the [TokenPreloadScanner] is its result, in order. *)
From S2P Require Import Prelude.
From S2P Require Import CharSource.
From S2P Require Import HTMLToken.
From S2P Require Import InputStreamPreprocessor.
From S2P Require Import HTMLEntitySearch.
From S2P Require Import HTMLEntityParser.
From S2P Require Import HTMLTokenizer.
From stdpp Require Import base list numbers option.
From Stdlib Require Import ZArith Lia.
#[local] Open Scope Z_scope.
Import HTMLToken.

(** The body of the loop, for the token in [m_token]: the state for the
    contents of the element, then [m_token.clear()]. *)
Definition afterToken (t : HTMLTokenizer) : HTMLTokenizer :=
  let t := if hasType StartTag (m_token t) then updateStateFor (m_data (m_token t)) t else t in
  set_token (clear (m_token t)) t.

Section Scanner.
Context {Src : Type} `{CharSource Src} `{InputSource Src} `{EntityTable}.

(** [while (m_tokenizer->nextToken(m_source, m_token))]; [None] is a failure of
    [nextToken], or a loop that is still running when the fuel is used up. *)
Fixpoint scanLoop (fuel : nat) (t : HTMLTokenizer) (s : Src)
  : option (list HTMLToken * HTMLTokenizer * Src) :=
  match fuel with
  | O => None
  | S fuel =>
      match nextToken t s with
      | None => None
      | Some (false, t, s) => Some ([], t, s)
      | Some (true, t, s) =>
          match scanLoop fuel (afterToken t) s with
          | None => None
          | Some (tokens, t', s') => Some (m_token t :: tokens, t', s')
          end
      end
  end.

(** [scan]: there are never more tokens than the fuel allows. *)
Definition scanFuel (s : Src) : nat := (4 * sourceLength s + 5)%nat.

Definition scan (t : HTMLTokenizer) (s : Src) : option (list HTMLToken * HTMLTokenizer * Src) :=
  scanLoop (scanFuel s) t s.

(** What a client does with the scanner: text arrives in chunks and each is
    scanned; at the end of the input the marker is appended and the source
    closed ([HTMLInputStream::markEndOfFile]). *)
Fixpoint scanChunks (chunks : list (bool * list Z)) (t : HTMLTokenizer) (s : Src)
  : option (list HTMLToken * HTMLTokenizer * Src) :=
  match chunks with
  | [] => Some ([], t, s)
  | (is8Bit, l) :: chunks =>
      match scan t (appendString is8Bit l s) with
      | None => None
      | Some (tokens, t, s) =>
          match scanChunks chunks t s with
          | None => None
          | Some (tokens', t, s) => Some (tokens ++ tokens', t, s)
          end
      end
  end.

Definition markEndOfFile (s : Src) : Src := closeSource (appendString true [kEndOfFileMarker] s).

Definition scanDocument (chunks : list (bool * list Z)) (t : HTMLTokenizer) (s : Src)
  : option (list HTMLToken * HTMLTokenizer * Src) :=
  match scanChunks chunks t s with
  | None => None
  | Some (tokens, t, s) =>
      match scan t (markEndOfFile s) with
      | None => None
      | Some (tokens', t, s) => Some (tokens ++ tokens', t, s)
      end
  end.

End Scanner.

(** ** Examples *)

Definition asciiFold : FoldCase := fun c => if (65 <=? c) && (c <=? 90) then c + 32 else c.

Definition exampleOptions : HTMLParserOptions := mkOptions true true false.

(** Type, text and attributes of the tokens of a document given in chunks. *)
Definition tokensOf (chunks : list (list Z)) : option (list (Type_ * list Z * list (list Z * list Z))) :=
  let fold := asciiFold in
  let table := exampleTable in
  match scanDocument (map (pair true) chunks) (newTokenizer exampleOptions) (Stream.of_chars []) with
  | Some (l, _, _) =>
      Some (map (fun k => (m_type k, m_data k,
              if isTag k then map (fun a => (attr_name a, attr_value a)) (m_attributes k) else [])) l)
  | None => None
  end.

Example tokens_example :
  tokensOf [lit "<P class=a>x&am"; lit "p;y<!--"; lit "c--></p>"] = Some [
    (StartTag, lit "p", [(lit "class", lit "a")]);
    (Character, lit "x", []);
    (Character, lit "&y", []);
    (Comment, lit "c", []);
    (EndTag, lit "p", []);
    (EndOfFile, [], [])].
Proof. vm_compute. reflexivity. Qed.

Example rcdata_example :
  tokensOf [lit "<title>a</b></ti"; lit "tle>&lt"] = Some [
    (StartTag, lit "title", []);
    (Character, lit "a</b>", []);
    (EndTag, lit "title", []);
    (Character, lit "<", []);
    (EndOfFile, [], [])].
Proof. vm_compute. reflexivity. Qed.
