(* ===== verification/HTMLTokenizerCaptive.v ===== *)
(** * What the tokenizer emits

    Facts about the tokens that [nextToken] returns, for the parser that gives them to the
    tree builder: character tokens are not empty, a tag is returned in the data state with
    its name remembered, and after the end of the file there is no input left.

    After the start tag of a title, a script or the like the tree builder puts the tokenizer
    into a text state.  From then on, until the end tag of that element or the end of the
    file, [nextToken] returns characters only: the tokenizer is captive. *)
From S2P Require Import Prelude CharSource HTMLToken InputStreamPreprocessor HTMLEntitySearch HTMLEntityParser HTMLEntityFacts HTMLTokenizer HTMLTokenizerRules HTMLTokenizerSafety HTMLPreloadScanner.
From stdpp Require Import base list numbers option.
From Stdlib Require Import ZArith Lia.
#[local] Open Scope Z_scope.
Import HTMLToken Stream StreamFacts.

(** The end-of-file marker is all there is left. *)
Definition atEnd (s : Stream) : Prop := st_closed s = true /\ chars s = [kEndOfFileMarker].

Create HintDb keeps.

Section Emit.
Context `{FoldCase} `{EntityTable}.

(** ** Partial correctness

    That [nextToken] returns is shown in [HTMLTokenizerSafety]. *)

Definition post {A} (m : M A) (Q : A -> HTMLTokenizer -> Stream -> Prop) (t : HTMLTokenizer) (s : Stream) : Prop :=
  match m t s with Some (a, t', s') => Q a t' s' | None => True end.

Lemma post_bind {A B} (m : M A) (k : A -> M B) Q t s : post m (fun a t' s' => post (k a) Q t' s') t s -> post (bind m k) Q t s.
Proof. unfold post, bind. by destruct (m t s) as [[[a t'] s']|]. Qed.

Lemma post_mono {A} (m : M A) (Q Q' : A -> HTMLTokenizer -> Stream -> Prop) t s : post m Q t s -> (forall a t' s', Q a t' s' -> Q' a t' s') -> post m Q' t s.
Proof. unfold post. destruct (m t s) as [[[a t'] s']|]; auto. Qed.

Lemma post_ret {A} (a : A) Q t s : Q a t s -> post (ret a) Q t s.
Proof. done. Qed.

Lemma post_get Q t s : Q t t s -> post get Q t s.
Proof. done. Qed.

Lemma post_modify f Q t s : Q tt (f t) s -> post (modify f) Q t s.
Proof. done. Qed.

Lemma post_ask {A} (f : Stream -> A) Q t s : Q (f s) t s -> post (ask f) Q t s.
Proof. done. Qed.

Lemma post_source f Q t s : Q tt t (f s) -> post (source f) Q t s.
Proof. done. Qed.

Lemma post_assert p Q t s : (p t = true -> Q tt t s) -> post (assert_ p) Q t s.
Proof. unfold post, assert_. destruct (p t); auto. Qed.

(** A member function of the token that keeps a property. *)
Definition keeps (P : HTMLToken -> Prop) (f : HTMLToken -> option HTMLToken) : Prop := forall k k', f k = Some k' -> P k -> P k'.

Lemma post_token P f Q t s : keeps P f -> P (m_token t) -> (forall k, P k -> Q tt (set_token k t) s) -> post (token f) Q t s.
Proof. intros Hf HP HQ. unfold post, token. destruct (f (m_token t)) as [k|] eqn:E; [|done]. apply HQ. by apply (Hf (m_token t)). Qed.

Lemma post_consumeEntity additional Q t s : (forall r s', Q r t s') -> post (consumeEntity additional) Q t s.
Proof. intros HQ. unfold post, consumeEntity. by destruct (consumeHTMLEntity additional s). Qed.

(** ** Tokens *)

(** In the middle of a call: a character token is not empty, and a new token is. *)
Definition full (k : HTMLToken) : Prop := m_type k <> EndOfFile /\ (m_type k = Character -> m_data k <> []) /\ (m_type k = Uninitialized -> m_data k = []).

Lemma modifyAttribute_keeps f : keeps full (fun k => modifyAttribute (f k) k).
Proof. unfold modifyAttribute. intros k k' E Hk. destruct (m_currentAttribute k); [|done]. destruct (m_attributes k !! n); [|done]. by injection E as <-. Qed.

Lemma modifyDoctype_keeps f : keeps full (modifyDoctype f).
Proof. unfold modifyDoctype. intros k k' E Hk. destruct (hasType DOCTYPE k); [|done]. destruct (m_doctypeData k); [|done]. by injection E as <-. Qed.

Lemma guarded_keeps (p : HTMLToken -> bool) f P : (forall k, p k = true -> P k -> P (f k)) -> keeps P (fun k => guard! p k in Some (f k)).
Proof. intros Hf k k' E Hk. destruct (p k) eqn:Ep; [|done]. injection E as <-. by apply Hf. Qed.

Lemma append_full c k : m_type k <> EndOfFile -> m_type k <> Uninitialized -> full (appendChar c k).
Proof. intros Ht Hu. split_and!; [done| |done]. intros _ E. by apply app_nil in E as [_ ?]. Qed.

Lemma named_type k c : (isTag k || hasType DOCTYPE k) && notNull c = true -> m_type k <> Uninitialized.
Proof. intros [E _]%andb_true_iff Eu. unfold isTag, hasType in E. by rewrite Eu in E. Qed.

Lemma appendToName_keeps c : keeps full (appendToName c).
Proof. apply guarded_keeps. intros k Ht%named_type [Hk _]. by apply append_full. Qed.

Lemma setSelfClosing_keeps : keeps full setSelfClosing.
Proof. by apply guarded_keeps. Qed.

Lemma beginStartTag_keeps c : keeps full (beginStartTag c).
Proof. by apply guarded_keeps. Qed.

Lemma beginEndTag_char_keeps c : keeps full (beginEndTag_char c).
Proof. by apply guarded_keeps. Qed.

Lemma beginEndTag_keeps l : keeps full (beginEndTag l).
Proof. by apply guarded_keeps. Qed.

Lemma beginComment_keeps : keeps full beginComment.
Proof. by apply guarded_keeps. Qed.

Lemma beginDOCTYPE_keeps : keeps full beginDOCTYPE.
Proof. by apply guarded_keeps. Qed.

Lemma beginDOCTYPE_char_keeps c : keeps full (beginDOCTYPE_char c).
Proof. unfold beginDOCTYPE_char, beginDOCTYPE. intros k k' E Hk. destruct (notNull c); [|done]. destruct (hasType Uninitialized k); [|done]. by injection E as <-. Qed.

Lemma appendToComment_keeps c : keeps full (appendToComment c).
Proof. apply guarded_keeps. intros k [_ Ht%hasType_true]%andb_true_iff [Hk _]. apply append_full; congruence. Qed.

Lemma addNewAttribute_keeps : keeps full addNewAttribute.
Proof. by apply guarded_keeps. Qed.

Lemma appendToCharacter_vector_keeps l : keeps full (appendToCharacter_vector l).
Proof. apply guarded_keeps. intros k Ht%hasType_true (H1 & H2 & _). split_and!; cbn; [done| |congruence]. intros _ E. apply app_nil in E as [E _]. by apply H2. Qed.

Lemma guard_attribute_keeps (p : HTMLToken -> bool) f : keeps full (fun k => guard! p k in modifyAttribute f k).
Proof. intros k k' E. destruct (p k); [|done]. by apply (modifyAttribute_keeps (fun _ => f)) in E. Qed.

Lemma record_full b a : forall k, full k -> full (record b a k).
Proof. by destruct b. Qed.

Lemma currentValue_keeps (p : HTMLToken -> bool) c g : (forall k, full k -> full (g k)) -> keeps full (fun k => guard! p k in appendToCurrentValue c (g k)).
Proof.
  intros Hg k k' E Hk. destruct (p k); [|done]. refine (modifyAttribute_keeps (fun _ a => _) (record _ _ (g k)) k' E _). by apply record_full, Hg.
Qed.

Lemma guard_doctype_keeps (p : HTMLToken -> bool) f : keeps full (fun k => guard! p k in modifyDoctype f k).
Proof. intros k k' E. destruct (p k); [|done]. by apply modifyDoctype_keeps in E. Qed.

Lemma post_bufferCharacter c Q t s : full (m_token t) -> (forall k, full k -> Q tt (set_token k t) s) -> post (bufferCharacter c) Q t s.
Proof.
  intros [Hk _] HQ. apply post_bind, post_assert. intros _. apply post_bind. unfold post, token, ensureIsCharacterToken. destruct (_ || _); [|done]. unfold appendToCharacter. cbn. unfold hasType. cbn.
  apply HQ. by apply append_full.
Qed.

Lemma post_bufferDecoded c Q t s : full (m_token t) -> (forall k, full k -> Q tt (set_token k t) s) -> post (bufferDecoded c) Q t s.
Proof.
  intros Hf HQ. apply post_bind, (post_token full); [intros k k' [= <-]; apply record_full|done|]. intros k0 [Hk _]. apply post_bind. unfold post, token, ensureIsCharacterToken. destruct (_ || _); [|done]. unfold appendToCharacter. cbn. unfold hasType. cbn.
  apply HQ. by apply append_full.
Qed.

Lemma post_bufferCharacters l Q t s : full (m_token t) -> (forall k, full k -> Q tt (set_token k t) s) -> post (bufferCharacters l) Q t s.
Proof.
  revert Q t. induction l as [|c l IH]; intros Q t Hk HQ; cbn [bufferCharacters].
  - apply post_ret. specialize (HQ _ Hk). by destruct t.
  - apply post_bind, post_bufferDecoded; [done|]. intros k Hk'. apply IH; [done|]. intros k' Hk''. by apply (HQ k').
Qed.

Lemma post_appendToComments l Q t s : full (m_token t) -> (forall k, full k -> Q tt (set_token k t) s) -> post (appendToComments l) Q t s.
Proof.
  revert Q t. induction l as [|c l IH]; intros Q t Hk HQ; cbn [appendToComments].
  - apply post_ret. specialize (HQ _ Hk). by destruct t.
  - apply post_bind, (post_token full); [apply appendToComment_keeps|done|]. intros k Hk'. apply IH; [done|]. intros k' Hk''. by apply (HQ k').
Qed.

Lemma post_appendToAttributeValues P l Q t s : (forall c, keeps P (appendDecodedToAttributeValue c)) -> P (m_token t) -> (forall k, P k -> Q tt (set_token k t) s) -> post (appendToAttributeValues l) Q t s.
Proof.
  intros HP. revert Q t. induction l as [|c l IH]; intros Q t Hk HQ; cbn [appendToAttributeValues].
  - apply post_ret. specialize (HQ _ Hk). by destruct t.
  - apply post_bind, (post_token P); [apply HP|done|]. intros k Hk'. apply IH; [done|]. intros k' Hk''. by apply (HQ k').
Qed.

(** ** Tokens that are returned *)

Record emitted (t : HTMLTokenizer) (s : Stream) : Prop := mkEmitted {
  emitted_text : m_type (m_token t) = Character -> m_data (m_token t) <> [];
  emitted_state : m_type (m_token t) = Character \/ m_state t = DataState;
  emitted_name : m_type (m_token t) = StartTag -> m_appropriateEndTagName t = m_data (m_token t);
  emitted_end : m_type (m_token t) = EndOfFile -> isEmpty s = true /\ st_closed s = true
}.

(** How a case is left. *)
Definition emits (cc : Z) (c : Control) (t : HTMLTokenizer) (s : Stream) : Prop :=
  match c with
  | ADVANCE_TO _ | SWITCH_TO _ | RETURN false => full (m_token t)
  | RECONSUME_IN _ => full (m_token t) /\ (cc = kEndOfFileMarker -> atEnd s)
  | RETURN true => emitted t s
  end.

Lemma full_text t s : full (m_token t) -> m_type (m_token t) = Character -> emitted t s.
Proof. intros (H1 & H2 & _) E. constructor; cbn; try congruence; auto. Qed.

Lemma post_haveBuffered cc t s : full (m_token t) -> post haveBuffered (emits cc) t s.
Proof.
  intros Hk. apply post_bind, post_get, post_ret. unfold haveBufferedCharacterToken. destruct (hasType Character (m_token t)) eqn:E; [|done].
  apply hasType_true in E. by apply full_text.
Qed.

Lemma post_emit cc (m : M unit) t s : full (m_token t) -> (forall t, post m (fun _ t' _ => t' = t) t s) ->
  post (bind saveEndTagNameIfNeeded (fun _ => bind (modify (set_state DataState)) (fun _ => bind m (fun _ => ret (RETURN true))))) (emits cc) t s.
Proof.
  intros (H1 & H2 & _) Hm. apply post_bind, post_bind, post_assert. intros Hu. apply post_modify, post_bind, post_modify, post_bind. eapply post_mono; [apply Hm|]. intros ? t' s' ->. apply post_ret. cbn.
  destruct (hasType StartTag (m_token t)) eqn:Es; constructor; cbn; try done; try (by right). intros E. apply hasType_true in E. congruence.
Qed.

Lemma post_emitAndResumeIn cc t s : full (m_token t) -> post (emitAndResumeIn DataState) (emits cc) t s.
Proof. intros. by apply post_emit. Qed.

Lemma post_emitAndReconsumeIn cc t s : full (m_token t) -> post (emitAndReconsumeIn DataState) (emits cc) t s.
Proof. intros Hk. pose proof (post_emit cc (ret tt) t s Hk) as Hp. unfold emitAndReconsumeIn. apply Hp. by intros. Qed.

Lemma advance_atEnd s : atEnd s -> isEmpty (CharSource.advanceAndUpdateLineNumber s) = true /\ st_closed (CharSource.advanceAndUpdateLineNumber s) = true.
Proof. intros [Hb Hc]. destruct s as [[|c p] [|d r] n b]; try done; cbn in *; [by injection Hc as _ ->|]. by destruct p. Qed.

Lemma post_emitEndOfFile cc t s : full (m_token t) -> atEnd s -> post emitEndOfFile (emits cc) t s.
Proof.
  intros Hk He. apply post_bind, post_get. unfold haveBufferedCharacterToken. destruct (hasType Character (m_token t)) eqn:E.
  - apply post_ret. apply hasType_true in E. by apply full_text.
  - apply post_bind, post_modify, post_bind, post_source, post_bind, post_modify, post_bind. unfold post, token, makeEndOfFile. cbn. constructor; cbn; try done; [by right|].
    intros _. by apply advance_atEnd.
Qed.

Lemma post_flushAndAdvanceTo cc st t s : full (m_token t) -> post (flushAndAdvanceTo st) (emits cc) t s.
Proof.
  intros Hk. apply post_bind, post_modify, post_bind, post_bind, post_assert. intros _. apply post_bind, post_source, post_bind, post_get. cbn [m_token set_state].
  destruct (hasType Character (m_token t)) eqn:E.
  - apply post_ret, post_ret. apply hasType_true in E. by apply full_text.
  - apply post_bind, (post_token full); [apply beginEndTag_keeps|done|]. intros k Hk'. by apply post_bind, post_modify, post_ret, post_ret.
Qed.

Lemma post_flushEmitAndResumeIn cc t s : full (m_token t) -> post (flushEmitAndResumeIn DataState) (emits cc) t s.
Proof.
  intros Hk. apply post_bind, post_modify, post_bind, post_bind, post_assert. intros _. apply post_bind, post_source, post_bind, post_get. cbn [m_token set_state].
  destruct (hasType Character (m_token t)) eqn:E.
  - apply post_ret, post_ret. apply hasType_true in E. by apply full_text.
  - apply post_bind. unfold post at 1, token. destruct (beginEndTag _ _) as [k|] eqn:Eb; [|done]. apply post_bind, post_modify, post_ret, post_ret.
    unfold beginEndTag in Eb. destruct (hasType Uninitialized _); [|done]. injection Eb as <-. constructor; cbn; try done. by right.
Qed.

(** A look-ahead leaves the characters as they are unless they match. *)
Lemma post_lookAheadFor cc ignoreCase string matched otherwise t s : full (m_token t) ->
  (forall s', post matched (emits cc) t s') ->
  (forall s', (atEnd s -> atEnd s') -> post otherwise (emits cc) t s') ->
  post (lookAheadFor ignoreCase string matched otherwise) (emits cc) t s.
Proof.
  intros Hk Hm Ho. apply post_bind. unfold post at 1, askLookAhead.
  assert (Hla : forall cs, atEnd s -> atEnd (snd (lookAheadInline string cs s))).
  { intros cs [H1 H2]. unfold lookAheadInline. destruct (Nat.ltb_spec (length (chars s)) (length string)) as [|Hl]; [done|]. destruct (advanceBy (length string) s) as [l s'] eqn:Ea.
    destruct (advanceBy_spec (length string) s Hl) as (A1 & A2 & _ & A4). rewrite Ea in A1, A2, A4. cbn in A1, A2, A4. split; cbn; [congruence|].
    rewrite <- H2, <- (take_drop (length string) (chars s)), <- A1, <- A2. pose proof (f_equal (@length _) H2) as L. destruct s' as [p r n b]. cbn [chars st_pushed st_rest] in *.
    unfold chars; cbn [st_pushed st_rest prependString]. destruct p as [|c p]; [done|]. destruct l as [|d l]; [done|]. exfalso. pose proof (f_equal (@length _) A1). pose proof (f_equal (@length _) A2).
    rewrite length_take, length_drop in *. rewrite H2 in *. unfold chars in *. cbn in *. lia. }
  unfold lookAheadIgnoringCase, lookAhead. cbn [CharSource.lookAheadInline stream_source].
  pose proof (Hla false) as Hf. pose proof (Hla true) as Ht. destruct ignoreCase.
  - destruct (lookAheadInline string false s) as [r s']. destruct r; [by apply Ho|by apply post_bind, post_source|by apply post_haveBuffered].
  - destruct (lookAheadInline string true s) as [r s']. destruct r; [by apply Ho|by apply post_bind, post_source|by apply post_haveBuffered].
Qed.

End Emit.

#[export] Hint Resolve modifyAttribute_keeps modifyDoctype_keeps appendToName_keeps setSelfClosing_keeps beginStartTag_keeps beginEndTag_char_keeps beginEndTag_keeps beginComment_keeps
  beginDOCTYPE_keeps beginDOCTYPE_char_keeps appendToComment_keeps addNewAttribute_keeps appendToCharacter_vector_keeps guard_attribute_keeps guard_doctype_keeps : keeps.

(** One step of a case. *)
Ltac emit_step :=
  match goal with
  | |- post (bind _ _) _ _ _ => apply post_bind
  | |- post (if ?b then _ else _) _ _ _ => destruct b eqn:?
  | |- post (match ?b with _ => _ end) _ _ _ => destruct b eqn:?
  | |- post (let _ := _ in _) _ _ _ => cbv zeta
  | |- post get _ _ _ => apply post_get
  | |- post (modify _) _ _ _ => apply post_modify
  | |- post (ask _) _ _ _ => apply post_ask
  | |- post parseError _ _ _ => apply post_ret
  | |- post (assert_ _) _ _ _ => apply post_assert; intros ?
  | |- post (tokenAt _ _) _ _ _ => unfold tokenAt
  | |- post (startAttribute _) _ _ _ => unfold startAttribute
  | |- post (token (beginAttributeName ?o)) _ _ _ => apply (post_token full (beginAttributeName o)); [apply (modifyAttribute_keeps (fun k a => _))|done|intros ? ?]
  | |- post (token (endAttributeName ?o)) _ _ _ => apply (post_token full (endAttributeName o)); [apply (modifyAttribute_keeps (fun k a => _))|done|intros ? ?]
  | |- post (token (beginAttributeValue ?o)) _ _ _ => apply (post_token full (beginAttributeValue o)); [apply (modifyAttribute_keeps (fun k a => _))|done|intros ? ?]
  | |- post (token (endAttributeValue ?o)) _ _ _ => apply (post_token full (endAttributeValue o)); [apply (modifyAttribute_keeps (fun k a => _))|done|intros ? ?]
  | |- post (token (appendToAttributeName _)) _ _ _ => apply (post_token full); [apply guard_attribute_keeps|done|intros ? ?]
  | |- post (token (appendToAttributeValue _)) _ _ _ => apply (post_token full); [by apply (currentValue_keeps _ _ id)|done|intros ? ?]
  | |- post (token (appendToPublicIdentifier _)) _ _ _ => apply (post_token full); [apply guard_doctype_keeps|done|intros ? ?]
  | |- post (token (appendToSystemIdentifier _)) _ _ _ => apply (post_token full); [apply guard_doctype_keeps|done|intros ? ?]
  | |- post (token setForceQuirks) _ _ _ => apply (post_token full); [apply modifyDoctype_keeps|done|intros ? ?]
  | |- post (token setPublicIdentifierToEmptyString) _ _ _ => apply (post_token full); [apply modifyDoctype_keeps|done|intros ? ?]
  | |- post (token setSystemIdentifierToEmptyString) _ _ _ => apply (post_token full); [apply modifyDoctype_keeps|done|intros ? ?]
  | |- post (token _) _ _ _ => apply (post_token full); [auto with keeps|done|intros ? ?]
  | |- post (bufferCharacter _) _ _ _ => apply post_bufferCharacter; [done|intros ? ?]
  | |- post (bufferCharacters _) _ _ _ => apply post_bufferCharacters; [done|intros ? ?]
  | |- post (appendToComments _) _ _ _ => apply post_appendToComments; [done|intros ? ?]
  | |- post (appendToAttributeValues _) _ _ _ => apply (post_appendToAttributeValues full); [intros ?; apply currentValue_keeps, record_full|done|intros ? ?]
  | |- post (appendToTemporary _) _ _ _ => apply post_modify
  | |- post (addToPossibleEndTag _) _ _ _ => unfold addToPossibleEndTag
  | |- post (startEndTag _) _ _ _ => unfold startEndTag
  | |- post (endTagOpen _ _ _) _ _ _ => unfold endTagOpen
  | |- post (endTagName _ _ _) _ _ _ => unfold endTagName
  | |- post (notAnEndTag _) _ _ _ => unfold notAnEndTag
  | |- post processEntity _ _ _ => unfold processEntity
  | |- post backToAttributeValue _ _ _ => unfold backToAttributeValue
  | |- post quirksResume _ _ _ => unfold quirksResume
  | |- post quirksEndOfFile _ _ _ => unfold quirksEndOfFile
  | |- post quirksBogus _ _ _ => unfold quirksBogus
  | |- post (openPublicIdentifier _) _ _ _ => unfold openPublicIdentifier
  | |- post (openSystemIdentifier _) _ _ _ => unfold openSystemIdentifier
  | |- post (consumeEntity _) _ _ _ => apply post_consumeEntity; intros ? ?
  | |- post haveBuffered _ _ _ => apply post_haveBuffered; done
  | |- post emitEndOfFile _ _ _ => apply post_emitEndOfFile; [done|bool_to_prop; auto]
  | |- post (emitAndResumeIn DataState) _ _ _ => apply post_emitAndResumeIn; done
  | |- post (emitAndReconsumeIn DataState) _ _ _ => apply post_emitAndReconsumeIn; done
  | |- post (flushAndAdvanceTo _) _ _ _ => apply post_flushAndAdvanceTo; done
  | |- post (flushEmitAndResumeIn _) _ _ _ => apply post_flushEmitAndResumeIn; done
  | |- post (lookAheadFor _ _ _ _) _ _ _ => apply post_lookAheadFor; [done|intros ?|intros ? ?]
  | |- post (reconsumeIn _) (emits _) _ _ => apply post_ret; split; [done|auto]
  | |- post (advanceTo _) _ _ _ => apply post_ret; try done
  | |- post (switchTo _) _ _ _ => apply post_ret; try done
  | |- post (ret (RETURN true)) (emits _) _ _ => apply post_ret, full_text; [done|by apply hasType_true]
  | |- post (ret _) _ _ _ => apply post_ret
  end; cbv beta.

Section Emitted.
Context `{FoldCase} `{EntityTable}.

Lemma dispatch_emits st cc t s : full (m_token t) -> (cc = kEndOfFileMarker -> atEnd s) -> post (dispatch st cc) (emits cc) t s.
Proof. intros Hk He. destruct st; cbn [dispatch]; unfold_case; repeat emit_step. Qed.

(** The preprocessor lets the marker through only at the end. *)
Lemma round_atEnd (c : Z) (skip : bool) (again : option (bool * Preprocessor * Stream)) s1 p' s' :
  (if c =? 13 then Some (true, mkPreprocessor 10 true, s1)
   else if (c =? 0) && negb (shouldTreatNullAsEndOfFileMarker s1) then if skip then again else Some (true, mkPreprocessor 65533 false, s1)
   else Some (true, mkPreprocessor c false, s1)) = Some (true, p', s') ->
  c = currentChar s1 -> m_nextInputCharacter p' = kEndOfFileMarker -> (again = Some (true, p', s') -> atEnd s') -> atEnd s'.
Proof.
  intros E Hc Hz Hagain. destruct (c =? 13); [by injection E as <- <-|]. destruct ((c =? 0) && negb (shouldTreatNullAsEndOfFileMarker s1)) eqn:Ez; [destruct skip; [by apply Hagain|by injection E as <- <-]|].
  injection E as <- <-. cbn in Hz. rewrite Hz in Ez, Hc. cbn in Ez. apply negb_false_iff, andb_true_iff in Ez as [E1 E2]. cbn in E1, E2. apply Nat.eqb_eq in E2. split; [done|]. unfold currentChar in Hc.
  destruct (chars s1) as [|x [|y l]]; try done. cbn in Hc. by subst x.
Qed.

Lemma processNext_atEnd fuel skip p s p' s' :
  processNextInputCharacter fuel skip p s = Some (true, p', s') -> m_nextInputCharacter p = currentChar s -> m_nextInputCharacter p' = kEndOfFileMarker -> atEnd s'.
Proof.
  revert p s. induction fuel as [|fuel IH]; intros p s E Hp Hz; cbn [processNextInputCharacter] in E; (destruct (m_nextInputCharacter p =? _) in E; [|done]);
    (destruct ((m_nextInputCharacter p =? 10) && m_skipNextNewLine p); cbn [andb] in E; [destruct (CharSource.isEmpty _) in E; [done|]|]); eapply round_atEnd in E; try done;
    intros E'; destruct (CharSource.isEmpty _) in E'; try done; by apply IH in E'.
Qed.

Lemma peek_atEnd skip p s p' s' : peek skip p s = Some (true, p', s') -> m_nextInputCharacter p' = kEndOfFileMarker -> atEnd s'.
Proof.
  unfold peek. cbn [CharSource.currentChar stream_source]. destruct (Z.land (currentChar s) (Z.lnot specialCharacterMask) =? 0) eqn:E; cbn [negb].
  - intros E1 E2. by apply (processNext_atEnd _ _ _ _ _ _ E1).
  - intros [= <- <-] Hz. cbn in Hz. rewrite Hz in E. by vm_compute in E.
Qed.

Definition returned (b : bool) (t : HTMLTokenizer) (s : Stream) : Prop := if b then emitted t s else full (m_token t).

Lemma returned_buffered t s : full (m_token t) -> returned (haveBufferedCharacterToken t) t s.
Proof. intros Hk. unfold haveBufferedCharacterToken. destruct (hasType Character (m_token t)) eqn:E; [|done]. apply hasType_true in E. by apply full_text. Qed.

Lemma continueWith_emits k more t s : full (m_token t) ->
  (more = true -> post (k (m_nextInputCharacter (m_inputStreamPreprocessor t))) returned t s) -> post (continueWith k more) returned t s.
Proof. intros Hk Hm. apply post_bind, post_get. destruct more; [by apply Hm|]. by apply post_ret, returned_buffered. Qed.

(** The two ways to the next character. *)
Lemma post_advanceInput Q t s : (forall more p s', (more = true -> m_nextInputCharacter p = kEndOfFileMarker -> atEnd s') -> Q more (set_preprocessor p t) s') -> post advanceInput Q t s.
Proof.
  intros HQ. unfold post, advanceInput, preprocessor_advance. destruct (CharSource.isEmpty _); [by apply HQ|]. destruct (peek _ _ _) as [[[more p] s']|] eqn:E; [|done]. apply HQ. intros ->. by apply (peek_atEnd _ _ _ _ _ E).
Qed.

Lemma post_peekUnlessEmpty Q t s : Q false t s -> (forall more p s', (more = true -> m_nextInputCharacter p = kEndOfFileMarker -> atEnd s') -> Q more (set_preprocessor p t) s') -> post peekUnlessEmpty Q t s.
Proof.
  intros H1 HQ. apply post_bind, post_ask. destruct (CharSource.isEmpty s); [by apply post_ret|]. unfold post, peekInput. destruct (peek _ _ _) as [[[more p] s']|] eqn:E; [|done]. apply HQ. intros ->. by apply (peek_atEnd _ _ _ _ _ E).
Qed.

Lemma runStates_emits fuel : forall cc t s, full (m_token t) -> (cc = kEndOfFileMarker -> atEnd s) -> post (runStates fuel cc) returned t s.
Proof.
  induction fuel as [|fuel IH]; intros cc t s Hk He; [done|]. cbn [runStates]. apply post_bind, post_get, post_bind. eapply post_mono; [by apply dispatch_emits|]. intros c t' s' Hc. destruct c as [st|st|st|b].
  - apply post_bind, post_modify, post_bind, post_advanceInput. intros more p s2 Hp. apply continueWith_emits; [done|]. intros ->. apply IH; [done|by apply Hp].
  - destruct Hc as [Hk' He']. by apply post_bind, post_modify, IH.
  - apply post_bind, post_modify, post_bind, post_peekUnlessEmpty; [by apply continueWith_emits|]. intros more p s2 Hp. apply continueWith_emits; [done|]. intros ->. apply IH; [done|by apply Hp].
  - by apply post_ret.
Qed.

Lemma nextToken_emits t s : full (m_token t) -> post nextToken returned t s.
Proof.
  intros Hk. apply post_bind. assert (Hrun : forall t, full (m_token t) -> post (bind (ask tokenizerFuel) (fun fuel => bind peekUnlessEmpty (fun more => continueWith (runStates fuel) more))) returned t s).
  { clear t Hk. intros t Hk. apply post_bind, post_ask, post_bind, post_peekUnlessEmpty; [by apply continueWith_emits|]. intros more p s2 Hp. apply continueWith_emits; [done|]. intros ->. apply runStates_emits; [done|by apply Hp]. }
  apply post_bind, post_get. destruct (negb _ && negb _); [|by apply post_ret, Hrun]. apply post_bind. unfold post at 1, token. destruct (beginEndTag _ _) as [k|] eqn:Eb; [|done]. apply post_bind, post_modify, post_ret.
  assert (Hk' : m_type k = EndTag) by (unfold beginEndTag in Eb; destruct (hasType _ _); [|done]; by injection Eb as <-). destruct (bool_decide_reflect (m_state t = DataState)) as [E|E].
  - apply post_ret. constructor; cbn; rewrite ?Hk'; try done. by right.
  - apply Hrun. split_and!; cbn; by rewrite Hk'.
Qed.

End Emitted.

(** * The tokenizer in the text of an element *)

(** ** States *)

Definition textState (st : State) : bool :=
  match st with
  | RCDATAState | CharacterReferenceInRCDATAState | RAWTEXTState | ScriptDataState
  | RCDATALessThanSignState | RCDATAEndTagOpenState | RCDATAEndTagNameState
  | RAWTEXTLessThanSignState | RAWTEXTEndTagOpenState | RAWTEXTEndTagNameState
  | ScriptDataLessThanSignState | ScriptDataEndTagOpenState | ScriptDataEndTagNameState
  | ScriptDataEscapeStartState | ScriptDataEscapeStartDashState
  | ScriptDataEscapedState | ScriptDataEscapedDashState | ScriptDataEscapedDashDashState
  | ScriptDataEscapedLessThanSignState | ScriptDataEscapedEndTagOpenState | ScriptDataEscapedEndTagNameState
  | ScriptDataDoubleEscapeStartState | ScriptDataDoubleEscapedState | ScriptDataDoubleEscapedDashState
  | ScriptDataDoubleEscapedDashDashState | ScriptDataDoubleEscapedLessThanSignState | ScriptDataDoubleEscapeEndState => true
  | _ => false
  end.

Definition attributeState (st : State) : bool :=
  match st with
  | BeforeAttributeNameState | AttributeNameState | AfterAttributeNameState | BeforeAttributeValueState
  | AttributeValueDoubleQuotedState | AttributeValueSingleQuotedState | AttributeValueUnquotedState
  | CharacterReferenceInAttributeValueState | AfterAttributeValueQuotedState | SelfClosingStartTagState => true
  | _ => false
  end.

(** The end tag of the element is being read. *)
Definition ending (name : list Z) (k : HTMLToken) : Prop := m_type k = EndTag /\ m_data k = name.

(** In the middle of a call, in a state. *)
Definition held (name : list Z) (st : State) (t : HTMLTokenizer) : Prop :=
  textState st = true /\ m_appropriateEndTagName t = name \/ attributeState st = true /\ ending name (m_token t).

(** Between two calls, when a text has been returned. *)
Definition waiting (name : list Z) (t : HTMLTokenizer) (s : Stream) : Prop :=
  textState (m_state t) = true /\ m_appropriateEndTagName t = name \/
  pendingEndTag t = true /\ m_bufferedEndTagName t = name \/
  m_state t = DataState /\ pendingEndTag t = false /\ atEnd s.

(** Between two calls. *)
Definition captive (name : list Z) (t : HTMLTokenizer) (s : Stream) : Prop :=
  waiting name t s \/ attributeState (m_state t) = true /\ ending name (m_token t).

(** The tokens that are returned. *)
Definition allowedToken (name : list Z) (t : HTMLTokenizer) (s : Stream) : Prop :=
  match m_type (m_token t) with
  | Character => waiting name t s
  | EndTag => m_data (m_token t) = name
  | EndOfFile => True
  | _ => False
  end.

Definition heldStep (name : list Z) (cc : Z) (c : Control) (t : HTMLTokenizer) (s : Stream) : Prop :=
  match c with
  | ADVANCE_TO st | SWITCH_TO st => held name st t
  | RECONSUME_IN st => held name st t \/ st = DataState /\ cc = kEndOfFileMarker /\ atEnd s
  | RETURN true => allowedToken name t s
  | RETURN false => held name (m_state t) t
  end.

Lemma sameCharacters_eq a b : length a = length b -> sameCharacters a b = true -> a = b.
Proof.
  revert b. induction a as [|x a IH]; intros [|y b] Hl E; try done. cbn in E. destruct (x =? y) eqn:Ex; [|done]. apply Z.eqb_eq in Ex as ->. f_equal. apply IH; [by injection Hl|done].
Qed.

Lemma appropriate_eq t : isAppropriateEndTag t = true -> m_bufferedEndTagName t = m_appropriateEndTagName t.
Proof. unfold isAppropriateEndTag. destruct (Nat.eqb_spec (length (m_bufferedEndTagName t)) (length (m_appropriateEndTagName t))) as [E|]; [|done]. by apply sameCharacters_eq. Qed.

Section Captive.
Context `{FoldCase} `{EntityTable}.

Lemma held_buffered name cc t s st : m_state t = st -> held name st t -> textState st = true \/ hasType Character (m_token t) = false -> post haveBuffered (heldStep name cc) t s.
Proof.
  intros Hst Hh Hor. apply post_bind, post_get, post_ret. unfold haveBufferedCharacterToken. destruct (hasType Character (m_token t)) eqn:E; cbn; [|by rewrite Hst].
  unfold allowedToken. apply hasType_true in E. rewrite E. left. rewrite Hst. destruct Hor as [Ht|]; [|done]. destruct Hh as [?|[Ha [He _]]]; [done|]. congruence.
Qed.

Lemma held_emitEndOfFile name cc t s : full (m_token t) -> (waiting name t s) -> post emitEndOfFile (heldStep name cc) t s.
Proof.
  intros Hk Hw. apply post_bind, post_get. unfold haveBufferedCharacterToken. destruct (hasType Character (m_token t)) eqn:E.
  - apply post_ret. cbn. unfold allowedToken. apply hasType_true in E. by rewrite E.
  - apply post_bind, post_modify, post_bind, post_source, post_bind, post_modify, post_bind. unfold post, token, makeEndOfFile. cbn. by unfold allowedToken.
Qed.

Lemma held_emit name cc (m : M unit) t s : ending name (m_token t) -> (forall t, post m (fun _ t' _ => t' = t) t s) ->
  post (bind saveEndTagNameIfNeeded (fun _ => bind (modify (set_state DataState)) (fun _ => bind m (fun _ => ret (RETURN true))))) (heldStep name cc) t s.
Proof.
  intros [H1 H2] Hm. apply post_bind, post_bind, post_assert. intros Hu. apply post_modify, post_bind, post_modify, post_bind. eapply post_mono; [apply Hm|]. intros ? t' s' ->. apply post_ret. cbn. unfold allowedToken, hasType.
  rewrite ?H1. rewrite bool_decide_eq_false_2 by done. cbn. by rewrite H1.
Qed.

Lemma held_emitAndResumeIn name cc t s : ending name (m_token t) -> post (emitAndResumeIn DataState) (heldStep name cc) t s.
Proof. intros. by apply held_emit. Qed.

Lemma held_emitAndReconsumeIn name cc t s : ending name (m_token t) -> post (emitAndReconsumeIn DataState) (heldStep name cc) t s.
Proof. intros Hk. pose proof (held_emit name cc (ret tt) t s Hk) as Hp. unfold emitAndReconsumeIn. apply Hp. by intros. Qed.

(** The end of the name of the appropriate end tag. *)
Lemma held_flush name t : full (m_token t) -> m_bufferedEndTagName t = name -> name <> [] -> isEndTagBufferingState (m_state t) = false ->
  forall s, post flushBufferedEndTag (fun b t' s' => m_state t' = m_state t /\ if b then m_type (m_token t') = Character /\ waiting name t' s' else ending name (m_token t')) t s.
Proof.
  intros Hk Hb Hn Hs s. apply post_bind, post_assert. intros _. apply post_bind, post_source, post_bind, post_get. destruct (hasType Character (m_token t)) eqn:E.
  - apply post_ret. split; [done|]. split; [by apply hasType_true|]. right. left. split; [|done]. unfold pendingEndTag. rewrite Hs, Hb. assert (E' : lists_eqb name [] = false) by (apply not_true_iff_false; by rewrite lists_eqb_eq). by rewrite E'.
  - apply post_bind. unfold post at 1, token. destruct (beginEndTag _ _) as [k|] eqn:Eb; [|done]. apply post_bind, post_modify, post_ret. split; [done|]. unfold beginEndTag in Eb. destruct (hasType Uninitialized _) eqn:Eu; [|done]. injection Eb as <-.
    split; [done|]. cbn. apply hasType_true in Eu. destruct Hk as (_ & _ & Hd). by rewrite Hd, Hb.
Qed.

Lemma held_flushAndAdvanceTo name cc st t s : full (m_token t) -> m_bufferedEndTagName t = name -> name <> [] -> st = BeforeAttributeNameState \/ st = SelfClosingStartTagState ->
  post (flushAndAdvanceTo st) (heldStep name cc) t s.
Proof.
  intros Hk Hb Hn Hst. apply post_bind, post_modify, post_bind. eapply post_mono; [apply (held_flush name); [done|done|done|by destruct Hst as [->| ->]]|]. intros b t' s' [Es H']. destruct b; apply post_ret; cbn.
  - destruct H' as [Ht Hw]. unfold allowedToken. by rewrite Ht.
  - right. split; [by destruct Hst as [->| ->]|done].
Qed.

Lemma held_flushEmitAndResumeIn name cc t s : full (m_token t) -> m_bufferedEndTagName t = name -> name <> [] -> post (flushEmitAndResumeIn DataState) (heldStep name cc) t s.
Proof.
  intros Hk Hb Hn. apply post_bind, post_modify, post_bind. eapply post_mono; [by apply (held_flush name)|]. intros b t' s' [Es H']. apply post_ret. cbn. unfold allowedToken. destruct b.
  - destruct H' as [Ht Hw]. by rewrite Ht.
  - destruct H' as [Ht Hd]. by rewrite Ht.
Qed.

(** The attributes of the end tag are read without touching its name. *)
Lemma attribute_keeps name f : keeps (ending name) (fun k => modifyAttribute (f k) k).
Proof. intros k k' E Hk. unfold modifyAttribute in E. destruct (m_currentAttribute k); [|done]. destruct (m_attributes k !! n); [|done]. by injection E as <-. Qed.

Lemma guard_ending name (p : HTMLToken -> bool) f : keeps (ending name) (fun k => guard! p k in modifyAttribute f k).
Proof. intros k k' E. destruct (p k); [|done]. by apply (attribute_keeps name (fun _ => f)) in E. Qed.

Lemma record_ending name b a : forall k, ending name k -> ending name (record b a k).
Proof. by destruct b. Qed.

Lemma currentValue_ending name (p : HTMLToken -> bool) c g : (forall k, ending name k -> ending name (g k)) -> keeps (ending name) (fun k => guard! p k in appendToCurrentValue c (g k)).
Proof. intros Hg k k' E Hk. destruct (p k); [|done]. refine (attribute_keeps name (fun _ a => _) (record _ _ (g k)) k' E _). by apply record_ending, Hg. Qed.

Lemma addNewAttribute_ending name : keeps (ending name) addNewAttribute.
Proof. by apply guarded_keeps. Qed.

Lemma setSelfClosing_ending name : keeps (ending name) setSelfClosing.
Proof. by apply guarded_keeps. Qed.

(** Characters are added to the text. *)
Lemma held_ensure c Q t s : (forall k, Q tt (set_token k t) s) -> post (bind (token ensureIsCharacterToken) (fun _ => token (appendToCharacter c))) Q t s.
Proof.
  intros HQ. apply post_bind. unfold post at 1, token. destruct (ensureIsCharacterToken (m_token t)) as [k|]; [|done]. unfold post, token. cbn [m_token set_token]. destruct (appendToCharacter c k) as [k'|]; [|done]. exact (HQ k').
Qed.

Lemma held_bufferCharacter c Q t s : (forall k, Q tt (set_token k t) s) -> post (bufferCharacter c) Q t s.
Proof. intros HQ. apply post_bind, post_assert. intros _. by apply held_ensure. Qed.

Lemma held_bufferDecoded c Q t s : (forall k, Q tt (set_token k t) s) -> post (bufferDecoded c) Q t s.
Proof. intros HQ. apply post_bind. unfold post at 1, token. apply held_ensure. intros k. exact (HQ k). Qed.

Lemma held_bufferCharacters l Q t s : (forall k, Q tt (set_token k t) s) -> post (bufferCharacters l) Q t s.
Proof.
  revert Q t. induction l as [|c l IH]; intros Q t HQ; cbn [bufferCharacters].
  - apply post_ret. specialize (HQ (m_token t)). by destruct t.
  - apply post_bind, held_bufferDecoded. intros k. apply IH. intros k'. by apply (HQ k').
Qed.

Lemma held_vector l Q t s : (forall k, Q tt (set_token k t) s) -> post (token (appendToCharacter_vector l)) Q t s.
Proof. intros HQ. unfold post, token. by destruct (appendToCharacter_vector l (m_token t)). Qed.

End Captive.

(** One step of a case. *)
Ltac held_step :=
  match goal with
  | |- post (bind _ _) _ _ _ => apply post_bind
  | |- post (if ?b then _ else _) _ _ _ => destruct b eqn:?
  | |- post (match ?b with _ => _ end) _ _ _ => destruct b eqn:?
  | |- post get _ _ _ => apply post_get
  | |- post (modify _) _ _ _ => apply post_modify
  | |- post (ask _) _ _ _ => apply post_ask
  | |- post parseError _ _ _ => apply post_ret
  | |- post (assert_ _) _ _ _ => apply post_assert; intros ?; try done
  | |- post (tokenAt _ _) _ _ _ => unfold tokenAt
  | |- post (startAttribute _) _ _ _ => unfold startAttribute
  | Hn : ending ?n _ |- post (token (beginAttributeName ?o)) _ _ _ => apply (post_token (ending n) (beginAttributeName o)); [apply (attribute_keeps n (fun k a => _))|done|intros ? ?]
  | Hn : ending ?n _ |- post (token (endAttributeName ?o)) _ _ _ => apply (post_token (ending n) (endAttributeName o)); [apply (attribute_keeps n (fun k a => _))|done|intros ? ?]
  | Hn : ending ?n _ |- post (token (beginAttributeValue ?o)) _ _ _ => apply (post_token (ending n) (beginAttributeValue o)); [apply (attribute_keeps n (fun k a => _))|done|intros ? ?]
  | Hn : ending ?n _ |- post (token (endAttributeValue ?o)) _ _ _ => apply (post_token (ending n) (endAttributeValue o)); [apply (attribute_keeps n (fun k a => _))|done|intros ? ?]
  | |- post (token (appendToAttributeName _)) _ _ _ => eapply post_token; [apply guard_ending|done|intros ? ?]
  | Hn : ending ?n _ |- post (token (appendToAttributeValue _)) _ _ _ => apply (post_token (ending n)); [by apply (currentValue_ending n _ _ id)|done|intros ? ?]
  | |- post (token addNewAttribute) _ _ _ => eapply post_token; [apply addNewAttribute_ending|done|intros ? ?]
  | |- post (token setSelfClosing) _ _ _ => eapply post_token; [apply setSelfClosing_ending|done|intros ? ?]
  | Hn : ending ?n _ |- post (appendToAttributeValues _) _ _ _ => apply (post_appendToAttributeValues (ending n)); [intros ?; apply currentValue_ending, record_ending|done|intros ? ?]
  | |- post (token (appendToCharacter_vector _)) _ _ _ => apply held_vector; intros ?
  | |- post (bufferCharacter _) _ _ _ => apply held_bufferCharacter; intros ?
  | |- post (bufferCharacters _) _ _ _ => apply held_bufferCharacters; intros ?
  | |- post (appendToTemporary _) _ _ _ => apply post_modify
  | |- post (addToPossibleEndTag _) _ _ _ => unfold addToPossibleEndTag
  | |- post (startEndTag _) _ _ _ => unfold startEndTag
  | |- post (endTagOpen _ _ _) _ _ _ => unfold endTagOpen
  | |- post (endTagName _ _ _) _ _ _ => unfold endTagName
  | |- post (notAnEndTag _) _ _ _ => unfold notAnEndTag
  | |- post processEntity _ _ _ => unfold processEntity
  | |- post backToAttributeValue _ _ _ => unfold backToAttributeValue
  | |- post (consumeEntity _) _ _ _ => apply post_consumeEntity; intros ? ?
  | |- post emitEndOfFile _ _ _ => apply held_emitEndOfFile; [done|]
  | |- post (emitAndResumeIn DataState) _ _ _ => apply held_emitAndResumeIn; done
  | |- post (emitAndReconsumeIn DataState) _ _ _ => apply held_emitAndReconsumeIn; done
  | |- post (flushAndAdvanceTo _) _ _ _ => apply held_flushAndAdvanceTo; [done| |done|tauto]
  | |- post (flushEmitAndResumeIn _) _ _ _ => apply held_flushEmitAndResumeIn; [done| |done]
  | |- post (reconsumeIn DataState) (heldStep _ _) _ _ => apply post_ret; right; split_and!; [done|by apply Z.eqb_eq|match goal with He : _ -> atEnd _ |- _ => apply He; by apply Z.eqb_eq end]
  | |- post (reconsumeIn _) (heldStep _ _) _ _ => apply post_ret; left
  | |- post (advanceTo _) _ _ _ => apply post_ret
  | |- post (switchTo _) _ _ _ => apply post_ret
  | |- post (ret (RETURN true)) _ _ _ => fail 1
  | |- post (ret _) _ _ _ => apply post_ret
  end; cbv beta.

Section Dispatch.
Context `{FoldCase} `{EntityTable}.

Lemma dispatch_text name st cc t s : textState st = true -> m_state t = st -> full (m_token t) -> m_appropriateEndTagName t = name -> name <> [] -> (cc = kEndOfFileMarker -> atEnd s) ->
  post (dispatch st cc) (heldStep name cc) t s.
Proof.
  intros Hst Hs Hk Ha Hn He. assert (Hw : waiting name t s) by (left; by rewrite Hs).
  destruct st; try done; cbn [dispatch]; unfold_case; repeat held_step; try (left; split; [done|exact Ha]); try exact Hw; try (cbn; rewrite <- Ha; by apply appropriate_eq).
  apply (held_buffered name cc _ _ CharacterReferenceInRCDATAState); [done|by left|by left].
Qed.

Lemma dispatch_attribute name st cc t s : attributeState st = true -> m_state t = st -> ending name (m_token t) -> (cc = kEndOfFileMarker -> atEnd s) ->
  post (dispatch st cc) (heldStep name cc) t s.
Proof.
  intros Hst Hs Hk He. destruct st; try done; cbn [dispatch]; unfold_case; repeat held_step; try (right; split; done).
  apply (held_buffered name cc _ _ CharacterReferenceInAttributeValueState); [done|by right|]. right. destruct Hk as [Hk _]. unfold hasType. by rewrite Hk.
Qed.

Lemma dispatch_end name t s : m_state t = DataState -> pendingEndTag t = false -> full (m_token t) -> atEnd s -> post (dispatch DataState kEndOfFileMarker) (heldStep name kEndOfFileMarker) t s.
Proof. intros Hs Hp Hk He. cbn [dispatch]. unfold_case. cbn. apply held_emitEndOfFile; [done|]. by right; right. Qed.

(** ** The whole call *)

Definition capRet (name : list Z) (b : bool) (t : HTMLTokenizer) (s : Stream) : Prop := if b then allowedToken name t s else captive name t s.

(** No more input. *)
Lemma held_outOfInput name k t s : held name (m_state t) t -> post (continueWith k false) (capRet name) t s.
Proof.
  intros Hh. apply post_bind, post_get, post_ret. unfold haveBufferedCharacterToken. destruct (hasType Character (m_token t)) eqn:E; cbn.
  - apply hasType_true in E. unfold allowedToken. rewrite E. left. destruct Hh as [?|[_ [Ht _]]]; [done|congruence].
  - destruct Hh as [?|?]; [left; by left|by right].
Qed.

Lemma post_and {A} (m : M A) (Q Q' : A -> HTMLTokenizer -> Stream -> Prop) t s : post m Q t s -> post m Q' t s -> post m (fun a t' s' => Q a t' s' /\ Q' a t' s') t s.
Proof. unfold post. by destruct (m t s) as [[[a t'] s']|]. Qed.

Lemma wp_post {A} (m : M A) Q t s : wp m Q t s -> post m Q t s.
Proof. unfold wp, post. by destruct (m t s) as [[[a t'] s']|]. Qed.

Lemma pending_runOK cc t : runOK cc t -> m_state t = DataState -> pendingEndTag t = false.
Proof.
  intros [Hf|(_ & _ & Hb)] Hs; unfold pendingEndTag; [|by rewrite Hb]. unfold fits in Hf. rewrite Hs in Hf. apply andb_true_iff in Hf as [_ Hf]. cbn in Hf. by destruct (negb (lists_eqb _ _)).
Qed.

Lemma dispatch_held name cc t s : runOK cc t -> full (m_token t) -> (cc = kEndOfFileMarker -> atEnd s) -> name <> [] -> held name (m_state t) t \/ m_state t = DataState /\ cc = kEndOfFileMarker ->
  post (dispatch (m_state t) cc) (heldStep name cc) t s.
Proof.
  intros Hr Hk He Hn [[[Ht Ha]|[Ha Hen]]|[Hd ->]]; [by apply dispatch_text|by apply dispatch_attribute|]. rewrite Hd. apply dispatch_end; [done|by apply (pending_runOK kEndOfFileMarker)|done|by apply He].
Qed.

Lemma full_emits cc c t s : emits cc c t s -> c <> RETURN true -> full (m_token t).
Proof. destruct c as [?|?|?|[]]; cbn; try done. by intros []. Qed.

Lemma runStates_held name fuel : name <> [] -> forall cc t s, runOK cc t -> isEmpty s = false -> full (m_token t) -> (cc = kEndOfFileMarker -> atEnd s) ->
  held name (m_state t) t \/ m_state t = DataState /\ cc = kEndOfFileMarker -> post (runStates fuel cc) (capRet name) t s.
Proof.
  intros Hn. induction fuel as [|fuel IH]; intros cc t s Hr Hne Hk He Hh; [done|]. cbn [runStates]. apply post_bind, post_get, post_bind.
  eapply post_mono; [exact (post_and _ _ _ _ _ (wp_post _ _ _ _ (runOK_dispatch cc t s Hr Hne)) (post_and _ _ _ _ _ (dispatch_emits (m_state t) cc t s Hk He) (dispatch_held name cc t s Hr Hk He Hn Hh)))|].
  intros c t' s' (Hstep & Hemit & Hheld). pose proof (full_emits _ _ _ _ Hemit) as Hk'. destruct c as [st|st|st|b].
  - destruct Hstep as (Hfit & _ & Hne'). apply post_bind, post_modify, post_bind. unfold post at 1, advanceInput. destruct (preprocessor_advance _ _ s') as [[[more p] s2]|] eqn:Ea; [|done].
    pose proof (advance_facts _ _ _ _ _ _ Ea Hne') as [_ Hm]. destruct more; [|by apply held_outOfInput].
    apply post_bind, post_get, IH; [by left|by apply Hm|by apply Hk'| |by left]. unfold preprocessor_advance in Ea. destruct (CharSource.isEmpty _); [done|]. by apply (peek_atEnd _ _ _ _ _ Ea).
  - destruct Hstep as (Hfit & _ & Hne' & _). apply post_bind, post_modify, IH; [|done|by apply Hk'|apply Hemit|].
    + destruct Hfit as [?|(-> & -> & ?)]; [by left|by right].
    + destruct Hheld as [?|(-> & ? & ?)]; [by left|by right].
  - destruct Hstep as (Hfit & _). apply post_bind, post_modify, post_bind, post_bind, post_ask. cbn [CharSource.isEmpty stream_source]. destruct (isEmpty s') eqn:Hne'; [by apply post_ret, held_outOfInput|].
    unfold post at 1, peekInput. destruct (peek _ _ s') as [[[more p] s2]|] eqn:Ea; [|done]. pose proof (peek_facts _ _ _ _ _ _ Ea Hne') as [_ Hm]. destruct more; [|by apply held_outOfInput].
    apply post_bind, post_get, IH; [by left|by apply Hm|by apply Hk'| |by left]. by apply (peek_atEnd _ _ _ _ _ Ea).
  - apply post_ret. destruct b; [done|]. cbn. destruct Hheld as [?|?]; [left; by left|by right].
Qed.

Lemma peek_end skip p s : atEnd s -> peek skip p s = Some (true, mkPreprocessor kEndOfFileMarker false, s).
Proof.
  intros [Hc Hs]. unfold peek. cbn [CharSource.currentChar stream_source]. assert (Ec : currentChar s = 0) by (unfold currentChar; by rewrite Hs). rewrite Ec. cbn [Z.land Z.eqb negb].
  change (sourceLength s) with (length (chars s)). rewrite Hs. cbn [length processNextInputCharacter m_nextInputCharacter Z.eqb andb m_skipNextNewLine]. unfold shouldTreatNullAsEndOfFileMarker.
  change (CharSource.currentChar s) with (currentChar s). rewrite Ec. change (isClosed s) with (st_closed s). change (sourceLength s) with (length (chars s)). by rewrite Hc, Hs.
Qed.

(** The part of [nextToken] after a pending end tag. *)
Lemma run_held name t s : name <> [] -> fits (m_state t) t = true -> full (m_token t) -> held name (m_state t) t \/ m_state t = DataState /\ atEnd s /\ hasType Character (m_token t) = false ->
  post (bind (ask tokenizerFuel) (fun fuel => bind peekUnlessEmpty (fun more => continueWith (runStates fuel) more))) (capRet name) t s.
Proof.
  intros Hn Hf Hk Hh. apply post_bind, post_ask, post_bind, post_bind, post_ask. cbn [CharSource.isEmpty stream_source]. destruct (isEmpty s) eqn:Hne.
  - apply post_ret. destruct Hh as [Hh|(Hd & He & Hc)]; [by apply held_outOfInput|]. apply post_bind, post_get, post_ret. unfold haveBufferedCharacterToken. rewrite Hc. left. right. right.
    split_and!; [done| |done]. apply (pending_runOK 0); [by left|done].
  - unfold post at 1, peekInput. destruct (peek _ _ s) as [[[more p] s2]|] eqn:Ea; [|done]. pose proof (peek_facts _ _ _ _ _ _ Ea Hne) as [_ Hm]. destruct Hh as [Hh|(Hd & He & Hc)].
    + destruct more; [|by apply held_outOfInput]. apply post_bind, post_get, runStates_held; [done|by left|by apply Hm|done| |by left]. by apply (peek_atEnd _ _ _ _ _ Ea).
    + rewrite (peek_end _ _ s He) in Ea. injection Ea as <- <- <-. apply post_bind, post_get, runStates_held; [done|by left|by apply Hm|done|done|by right].
Qed.

Lemma nextToken_held name t s : name <> [] -> tokenizerOK t = true -> full (m_token t) -> captive name t s -> post nextToken (capRet name) t s.
Proof.
  intros Hn Hok Hk Hc. apply andb_true_iff in Hok as [Hchar Hok]. apply negb_true_iff in Hchar. apply post_bind, post_bind, post_get. fold (pendingEndTag t). destruct (pendingEndTag t) eqn:Ep.
  - apply andb_true_iff in Hok as [Hu Hst]. apply hasType_true in Hu.
    assert (Hb : m_bufferedEndTagName t = name). { destruct Hc as [[[Ht _]|[[_ Hb]|(_ & Hp & _)]]|[_ [Ht _]]]; [by destruct (m_state t)|done|congruence|congruence]. }
    apply post_bind. unfold post at 1, token. destruct (beginEndTag _ _) as [k|] eqn:Eb; [|done]. apply post_bind, post_modify, post_ret.
    assert (He : ending name k). { unfold beginEndTag, hasType in Eb. rewrite Hu in Eb. cbn in Eb. injection Eb as <-. split; [done|]. destruct Hk as (_ & _ & Hd). cbn. by rewrite Hd, Hb. }
    destruct (bool_decide_reflect (m_state t = DataState)) as [E|E].
    + apply post_ret. cbn. unfold allowedToken. cbn. destruct He as [-> He]. done.
    + assert (Ha : attributeState (m_state t) = true) by (by destruct (m_state t)). apply run_held; [done| | |].
      * destruct He as [He _]. unfold fits, tokenFits, HTMLToken.isTag. cbn. rewrite He. by destruct (m_state t).
      * destruct He as [He _]. split_and!; cbn; by rewrite He.
      * left. right. by split.
  - apply post_ret, run_held; [done|done|done|]. destruct Hc as [[?|[[Hp _]|(? & _ & ?)]]|?]; [left; by left|congruence|by right|left; by right].
Qed.

(** C12: in the text of an element, whatever the input, the tokenizer returns non-empty text, the
    end tag of that element in the data state, or the end of the file with nothing left to read; after a text, and when it has to
    wait for more input, it is still in the text. *)
Theorem captive_tokens name t s b t' s' : name <> [] -> tokenizerOK t = true -> full (m_token t) -> captive name t s -> nextToken t s = Some (b, t', s') ->
  if b then
    m_type (m_token t') = Character /\ m_data (m_token t') <> [] /\ captive name (set_token (clear (m_token t')) t') s' \/
    m_type (m_token t') = EndTag /\ m_data (m_token t') = name /\ m_state t' = DataState \/
    m_type (m_token t') = EndOfFile /\ isEmpty s' = true
  else captive name t' s' /\ full (m_token t').
Proof.
  intros Hn Hok Hk Hc E. pose proof (nextToken_held name t s Hn Hok Hk Hc) as H1. pose proof (nextToken_emits t s Hk) as H2. unfold post in H1, H2. rewrite E in H1, H2. destruct b; [|done].
  destruct H2 as [E1 E2 E3 E4]. cbn in H1. unfold allowedToken in H1. destruct (m_type (m_token t')) eqn:Et; try done.
  - right. left. split_and!; [done|done|]. by destruct E2.
  - left. split_and!; [done|by apply E1|]. by left.
  - right. right. split; [done|by apply E4].
Qed.

End Dispatch.

(** ** An example *)

(** In a title. *)
Definition exampleCaptive : HTMLTokenizer := set_appropriate (lit "title") (set_state RCDATAState (newTokenizer exampleOptions)).

Definition exampleInput : Stream := of_chars (lit "a</b></title>x").

Lemma captive_tokens_witness : exists t s, @nextToken _ (@stream_source asciiFold) exampleTable exampleCaptive exampleInput = Some (true, t, s) /\
  m_data (m_token t) = lit "a</b>" /\ captive (lit "title") (set_token (clear (m_token t)) t) s.
Proof.
  assert (E : exists t s, @nextToken _ (@stream_source asciiFold) exampleTable exampleCaptive exampleInput = Some (true, t, s) /\ m_type (m_token t) = Character /\ m_data (m_token t) = lit "a</b>")
    by (eexists _, _; split; [vm_compute; reflexivity|split; vm_compute; reflexivity]).
  destruct E as (t & s & E & Et & Ed). exists t, s. split; [exact E|]. split; [exact Ed|].
  assert (Hc : captive (lit "title") exampleCaptive exampleInput) by (left; left; split; reflexivity).
  destruct (@captive_tokens asciiFold exampleTable (lit "title") exampleCaptive exampleInput true t s) as [(_ & _ & H)|[(H & _)|(H & _)]]; [discriminate|reflexivity|repeat split; discriminate|exact Hc|exact E|exact H|congruence|congruence].
Defined.
