(* ===== verification/HTMLTokenizerRefinement.v ===== *)
(** * The tokenizer on an implementation of the character source

    The tokenizer is written against [CharSource].  For every source that keeps
    the promise [SourceRefines], running the preprocessor, the character
    reference parser and the tokenizer on it is the same as running them on the
    abstract [Stream] it refines: same result, same tokenizer, and sources that
    are still related. *)
From S2P Require Import Prelude.
From S2P Require Import CharSource.
From S2P Require Import HTMLToken.
From S2P Require Import InputStreamPreprocessor.
From S2P Require Import HTMLEntitySearch.
From S2P Require Import HTMLEntityParser.
From S2P Require Import HTMLEntityFacts.
From S2P Require Import HTMLTokenizer.
From S2P Require Import HTMLTokenizerRules.
From stdpp Require Import base list numbers option.
From Stdlib Require Import ZArith Lia.
#[local] Open Scope Z_scope.
Import HTMLToken Stream StreamFacts.

(** The abstract sources that occur: at most two characters are pushed back, and
    all characters are codes. *)
Definition usable (a : Stream) : Prop :=
  (length (st_pushed a) <= 2)%nat /\ Forall (fun c => 0 <= c) (chars a).

Lemma pushed_advance a : length (st_pushed (advance a)) = (length (st_pushed a) - 1)%nat.
Proof. destruct a as [[|c p] [|d r] n cl]; simpl; lia. Qed.

Lemma nonneg_advance a :
  Forall (fun c => 0 <= c) (chars a) -> Forall (fun c => 0 <= c) (chars (advance a)).
Proof. rewrite chars_advance. destruct (chars a); [done|]. by inversion 1. Qed.

Lemma nonneg_push c a :
  0 <= c -> Forall (fun c => 0 <= c) (chars a) -> Forall (fun c => 0 <= c) (chars (push c a)).
Proof.
  intros Hc. destruct a as [[|x [|y p]] r n cl]; unfold chars; simpl; intros Hf;
    repeat match goal with H : Forall _ (_ :: _) |- _ => inversion_clear H end;
    repeat (constructor; [done|]); try done.
  match goal with H : Forall _ (_ ++ _) |- _ => by apply Forall_app in H as [_ ?] end.
Qed.

Lemma nonneg_prepend l a :
  Forall (fun c => 0 <= c) l -> Forall (fun c => 0 <= c) (chars a) ->
  Forall (fun c => 0 <= c) (chars (prependString l a)).
Proof. unfold chars; simpl. rewrite !Forall_app. tauto. Qed.

Lemma usable_advance a : usable a -> usable (advance a).
Proof.
  intros [H1 H2]. split; [rewrite pushed_advance; lia|by apply nonneg_advance].
Qed.

Section Refine.
Context `{FoldCase} {Src : Type} `{HS : CharSource Src} `{HR : !SourceRefines Src}.
Context `{HE : EntityTable} `{HOK : !EntityTableOK}.

Definition related (s : Src) (a : Stream) : Prop := refines s a /\ usable a.

Lemma related_advance s a :
  related s a -> related (CharSource.advance s) (CharSource.advance a).
Proof. intros [H1 H2]. split; [by apply refines_advance|by apply usable_advance]. Qed.

Lemma related_advanceLine s a :
  related s a -> related (CharSource.advanceAndUpdateLineNumber s) (CharSource.advanceAndUpdateLineNumber a).
Proof. intros [H1 H2]. split; [by apply refines_advanceLine|by apply usable_advance]. Qed.

Lemma related_advanceNewline s a :
  related s a ->
  related (CharSource.advancePastNewlineAndUpdateLineNumber s)
          (CharSource.advancePastNewlineAndUpdateLineNumber a).
Proof. intros [H1 H2]. split; [by apply refines_advanceNewline|by apply usable_advance]. Qed.

Lemma related_push c s a :
  related s a -> (length (st_pushed a) <= 1)%nat -> 0 < c ->
  related (CharSource.push c s) (CharSource.push c a).
Proof.
  intros [H1 [H2 H3]] Hp Hc. split; [by apply refines_push; [..|lia]|]. split; cbn.
  - destruct (st_pushed a) as [|b [|]]; simpl in *; lia.
  - apply nonneg_push; [lia|done].
Qed.

Lemma related_prepend l s a :
  related s a -> l = [] \/ st_pushed a = [] -> Forall (fun c => 0 <= c) l ->
  related (CharSource.prependString l s) (CharSource.prependString l a).
Proof.
  intros [H1 [H2 H3]] Hp Hl. split; [by apply refines_prepend|]. split; [done|].
  by apply nonneg_prepend.
Qed.

Lemma related_lookAhead l cs s a :
  related s a -> (2 <= length l)%nat ->
  fst (CharSource.lookAheadInline l cs s) = fst (CharSource.lookAheadInline l cs a) /\
  related (snd (CharSource.lookAheadInline l cs s)) (snd (CharSource.lookAheadInline l cs a)).
Proof.
  intros [H1 [H2 H3]] Hl. destruct (refines_lookAhead s a l cs H1 ltac:(lia)) as [E1 E2].
  split; [done|]. split; [done|]. cbn. unfold lookAheadInline.
  destruct (Nat.ltb_spec (length (chars a)) (length l)); [done|].
  destruct (advanceBy (length l) a) as [w a'] eqn:Ea.
  destruct (advanceBy_spec (length l) a) as (A1 & A2 & _); [done|].
  rewrite Ea in A1, A2. simpl in *. subst w. split.
  - cbn. assert (Hp : forall n b, (length (st_pushed b) <= 2)%nat ->
                   (length (st_pushed (snd (advanceBy n b))) <= 2)%nat).
    { intros n; induction n as [|n IH]; intros b Hb; simpl; [done|].
      specialize (IH (advance b)). rewrite pushed_advance in IH.
      destruct (advanceBy n (advance b)); simpl in *; apply IH; lia. }
    specialize (Hp (length l) a). rewrite Ea in Hp. by apply Hp.
  - apply nonneg_prepend; [by apply Forall_take|]. rewrite A2. by apply Forall_drop.
Qed.

Lemma related_isEmpty s a : related s a -> CharSource.isEmpty s = CharSource.isEmpty a.
Proof. intros [? _]. by apply refines_isEmpty. Qed.

Lemma related_isClosed s a : related s a -> CharSource.isClosed s = CharSource.isClosed a.
Proof. intros [? _]. by apply refines_isClosed. Qed.

Lemma related_currentChar s a : related s a -> CharSource.currentChar s = CharSource.currentChar a.
Proof. intros [? _]. by apply refines_currentChar. Qed.

Lemma related_length s a : related s a -> sourceLength s = sourceLength a.
Proof. intros [? _]. by apply refines_length. Qed.

Lemma related_consumed s a :
  related s a -> numberOfCharactersConsumed s = numberOfCharactersConsumed a.
Proof. intros [? _]. by apply refines_consumed. Qed.

Lemma related_nonneg s a : related s a -> 0 <= CharSource.currentChar a.
Proof.
  intros [_ [_ Hf]]. cbn. unfold Stream.currentChar. destruct (chars a); [done|].
  by inversion Hf.
Qed.

(** ** The input preprocessor *)

(** Both sides fail, or both give the same with sources that are related. *)
Definition peek_related (o : option (bool * Preprocessor * Src)) (o' : option (bool * Preprocessor * Stream))
  : Prop :=
  match o, o' with
  | Some (more, p, s), Some (more', p', a) => more = more' /\ p = p' /\ related s a
  | None, None => True
  | _, _ => False
  end.

Lemma processNext_sim fuel skip p s a :
  related s a ->
  peek_related (processNextInputCharacter fuel skip p s) (processNextInputCharacter fuel skip p a).
Proof.
  revert p s a; induction fuel as [|fuel IH]; intros p s a Hr; cbn [processNextInputCharacter];
    unfold shouldTreatNullAsEndOfFileMarker; rewrite (related_currentChar _ _ Hr);
    (destruct (m_nextInputCharacter p =? CharSource.currentChar a); [|done]);
    (destruct ((m_nextInputCharacter p =? 10) && m_skipNextNewLine p); cbn [andb];
     [apply related_advanceNewline in Hr|]);
    rewrite ?(related_isEmpty _ _ Hr), ?(related_currentChar _ _ Hr), ?(related_isClosed _ _ Hr),
      ?(related_length _ _ Hr), ?(related_isEmpty _ _ (related_advance _ _ Hr)),
      ?(related_currentChar _ _ (related_advance _ _ Hr));
    repeat match goal with |- peek_related (if ?b then _ else _) _ => destruct b end;
    cbn [peek_related]; auto using related_advance.
Qed.

Lemma peek_sim skip p s a : related s a -> peek_related (peek skip p s) (peek skip p a).
Proof.
  intros Hr. unfold peek. rewrite (related_currentChar _ _ Hr), (related_length _ _ Hr).
  case_match; [done|]. by apply processNext_sim.
Qed.

Lemma preprocessor_advance_sim skip p s a :
  related s a -> peek_related (preprocessor_advance skip p s) (preprocessor_advance skip p a).
Proof.
  intros Hr. apply related_advanceLine in Hr. unfold preprocessor_advance.
  rewrite (related_isEmpty _ _ Hr). case_match; [done|]. by apply peek_sim.
Qed.

(** ** Character references *)

Definition result_sim (r : EntityResult Src) (r' : EntityResult Stream) : Prop :=
  success r = success r' /\ decoded r = decoded r' /\
  notEnoughCharacters r = notEnoughCharacters r' /\ related (res_source r) (res_source r').

(** There is room to push back what was consumed. *)
Definition room (consumed : list Z) (a : Stream) : Prop :=
  (length (st_pushed a) <= 2 - length consumed)%nat /\ Forall (fun c => 0 < c) consumed.

Lemma room_nil a : usable a -> room [] a.
Proof. intros [? _]. split; [simpl; lia|done]. Qed.

Lemma room_next consumed c a :
  room consumed a -> 0 < c -> room (consumed ++ [c]) (CharSource.advance a).
Proof.
  intros [H1 H2] Hc. split; [|by apply Forall_app; split; [|constructor]].
  cbn [CharSource.advance stream_source]. rewrite pushed_advance, length_app. simpl. lia.
Qed.

Lemma unconsume_sim consumed s a :
  related s a -> room consumed a ->
  related (unconsumeCharacters consumed s) (unconsumeCharacters consumed a).
Proof.
  intros Hr [H1 H2]. unfold unconsumeCharacters.
  assert (Hpos : Forall (fun c => 0 <= c) consumed)
    by (eapply Forall_impl; [|exact H2]; simpl; lia).
  destruct consumed as [|x [|y [|z l]]]; simpl in H1; try (apply related_prepend; [done|first [by left|right; apply nil_length_inv; lia]|done]);
    inversion_clear H2 as [|? ? Hx Hl].
  - by apply related_push.
  - inversion_clear Hl as [|? ? Hy _].
    apply related_push; [apply related_push; try done; lia| |done].
    cbn. destruct (st_pushed a); simpl in *; lia.
Qed.

(** What the loop leaves: the same on both sides; when it stops before the end
    of the input, the search has failed on the current character. *)
Lemma namedLoop_sim fuel search consumed cc s a :
  related s a -> room consumed a -> searching consumed search ->
  exists search' consumed' cc' s' a',
    namedLoop fuel search consumed cc s = (search', consumed', cc', s') /\
    namedLoop fuel search consumed cc a = (search', consumed', cc', a') /\
    related s' a' /\ room consumed' a' /\
    (searching consumed' search' \/
     exists c, SearchInv (consumed' ++ [c]) search' /\ isEntityPrefix search' = false).
Proof.
  revert search consumed cc s a; induction fuel as [|fuel IH];
    intros search consumed cc s a Hr Hroom Hs; simpl.
  { eexists _, _, _, _, _. repeat (split; [done|]). by left. }
  rewrite (related_isEmpty _ _ Hr). cbn [CharSource.isEmpty stream_source].
  destruct (Stream.isEmpty a) eqn:Ee.
  { eexists _, _, _, _, _. repeat (split; [done|]). by left. }
  rewrite (related_currentChar _ _ Hr). cbn [CharSource.currentChar stream_source].
  pose proof (related_nonneg _ _ Hr) as Hc. cbn in Hc.
  pose proof (searching_advance _ _ _ Hs Hc) as Hi.
  destruct (isEntityPrefix (searchAdvance (Stream.currentChar a) search)) eqn:Ep.
  - apply IH; [by apply related_advance| |].
    + apply room_next; [done|]. by eapply searching_positive.
    + split; [done|]. right. split; [by destruct consumed|done].
  - eexists _, _, _, _, _. repeat (split; [done|]). right. eauto.
Qed.

Lemma rereadLoop_sim n consumed s a :
  related s a -> room consumed a -> Forall (fun c => 0 < c) (take n (chars a)) ->
  (n <= length (chars a))%nat ->
  exists consumed' s' a',
    rereadLoop n consumed s = (consumed', s') /\ rereadLoop n consumed a = (consumed', a') /\
    related s' a' /\ room consumed' a'.
Proof.
  revert consumed s a; induction n as [|n IH]; intros consumed s a Hr Hroom Hpos Hn; simpl.
  { eexists _, _, _. eauto. }
  rewrite (related_currentChar _ _ Hr). cbn [CharSource.currentChar stream_source].
  assert (Hc : 0 < Stream.currentChar a /\ Forall (fun c => 0 < c) (take n (chars (advance a)))).
  { unfold Stream.currentChar. rewrite chars_advance. destruct (chars a); simpl in *; [lia|].
    by inversion Hpos. }
  apply IH; [by apply related_advance|apply room_next; [done|apply Hc]|apply Hc|].
  cbn [CharSource.advance stream_source]. rewrite length_chars_advance. lia.
Qed.

Lemma consumeNamedEntity_sim additional cc s a :
  related s a ->
  result_sim (consumeNamedEntity additional cc s) (consumeNamedEntity additional cc a).
Proof.
  intros Hr. unfold consumeNamedEntity.
  destruct (namedLoop_sim (sourceLength a) newSearch [] cc s a)
    as (search & consumed & cc' & s' & a' & E1 & E2 & Hr' & Hroom & Hs);
    [done|by apply room_nil; apply Hr|by split; [|left]|].
  rewrite (related_length _ _ Hr), E1, E2, (related_isEmpty _ _ Hr').
  apply namedLoop_len in E2 as [[Hcur Hlen] _]; [|split; simpl; [done|congruence]].
  pose proof (unconsume_sim _ _ _ Hr' Hroom) as Hu.
  destruct (CharSource.isEmpty a'); [done|].
  destruct (m_mostRecentMatch search) as [m|] eqn:Em; [|done]. cbn [mbind option_bind].
  destruct (entries !! m) as [e|] eqn:Ee; [|done].
  destruct (negb (length (entity e) =? m_currentLength search)%nat) eqn:Et; last first.
  { by case_match. }
  assert (He : entityAt m = entity e) by (unfold entityAt; by rewrite Ee).
  specialize (Hlen m eq_refl). rewrite He in Hlen.
  pose proof (entries_nonempty m (lookup_lt_Some _ _ _ Ee)) as Hne. rewrite He in Hne.
  apply negb_true_iff, Nat.eqb_neq in Et. rewrite Hcur in Et.
  assert (Hpos : (0 < length (entity e))%nat) by (destruct (entity e); [done|simpl; lia]).
  destruct Hroom as [Hp Hcs].
  assert (Hnil : st_pushed a' = []) by (apply nil_length_inv; lia).
  pose proof (unconsume_exact consumed _ Hnil) as Hex.
  destruct (rereadLoop_sim (length (entity e)) [] _ _ Hu) as (c2 & s2 & a2 & R1 & R2 & Hr2 & Hroom2).
  - apply room_nil, Hu.
  - rewrite Hex, take_app_le by lia. by apply Forall_take.
  - rewrite Hex, length_app. lia.
  - rewrite R1, R2, (related_currentChar _ _ Hr2).
    case_match; [done|]. repeat (split; [done|]). by apply unconsume_sim.
Qed.

Definition option_sim (o : option (EntityResult Src)) (o' : option (EntityResult Stream)) : Prop :=
  match o, o' with
  | Some r, Some r' => result_sim r r'
  | None, None => True
  | _, _ => False
  end.

Lemma push_one_sim c s a :
  related s a -> (length (st_pushed a) <= 1)%nat -> 0 < c ->
  option_sim (Some (mkResult false [] false (CharSource.push c s)))
             (Some (mkResult false [] false (CharSource.push c a))).
Proof. intros Hr Hp Hc. repeat (split; [done|]). by apply related_push. Qed.

Lemma push_two_sim c d s a :
  related s a -> st_pushed a = [] -> 0 < c -> 0 < d ->
  option_sim (Some (mkResult false [] false (CharSource.push d (CharSource.push c s))))
             (Some (mkResult false [] false (CharSource.push d (CharSource.push c a)))).
Proof.
  intros Hr Hp Hc Hd. repeat (split; [done|]).
  apply related_push; [apply related_push; try done|cbn|done]; rewrite Hp; simpl; lia.
Qed.

Lemma referenceLoop_sim fuel additional st result consumed s a :
  related s a -> room consumed a -> (pushedBack st <= length consumed)%nat ->
  option_sim (referenceLoop fuel additional st result consumed s)
             (referenceLoop fuel additional st result consumed a).
Proof.
  revert st result consumed s a; induction fuel as [|fuel IH];
    intros st result consumed s a Hr Hroom Hpb; [done|]. cbn [referenceLoop].
  rewrite (related_isEmpty _ _ Hr), (related_currentChar _ _ Hr).
  destruct (CharSource.isEmpty a); [by repeat (split; [done|]); apply unconsume_sim|].
  set (cc := CharSource.currentChar a).
  assert (Hnext : forall st' result', 0 < cc -> (pushedBack st' <= S (length consumed))%nat ->
    option_sim (referenceLoop fuel additional st' result' (consumed ++ [cc]) (CharSource.advance s))
      (referenceLoop fuel additional st' result' (consumed ++ [cc]) (CharSource.advance a))).
  { intros st' result' Hcc Hp. apply IH; [by apply related_advance|by apply room_next|].
    rewrite length_app. simpl. lia. }
  pose proof (proj1 Hroom) as Hp.
  assert (Hp2 : (2 <= length consumed)%nat -> st_pushed a = [])
    by (intros; apply nil_length_inv; lia).
  destruct st; simpl in Hpb; repeat split_if; bool_to_prop;
    first [ apply Hnext; simpl; lia
          | apply IH; simpl; [done|done|lia]
          | by repeat (split; [done|])
          | by repeat (split; [done|]); apply related_advance
          | apply push_one_sim; [done|lia|lia]
          | apply push_two_sim; [done|by apply Hp2|lia|lia]
          | by apply consumeNamedEntity_sim ].
Qed.

Lemma consumeHTMLEntity_sim additional s a :
  related s a -> option_sim (consumeHTMLEntity additional s) (consumeHTMLEntity additional a).
Proof.
  intros Hr. unfold consumeHTMLEntity. rewrite (related_length _ _ Hr).
  apply referenceLoop_sim; [done|apply room_nil, Hr|simpl; lia].
Qed.

(** ** The monad *)

Definition sim {A} (m : M (Src := Src) A) (m' : M (Src := Stream) A) : Prop :=
  forall t s a, related s a ->
    match m t s, m' t a with
    | Some (x, t1, s1), Some (y, t2, a2) => x = y /\ t1 = t2 /\ related s1 a2
    | None, None => True
    | _, _ => False
    end.

Lemma sim_ret {A} (x : A) : sim (ret x) (ret x).
Proof. by intros t s a Hr. Qed.

Lemma sim_bind {A B} (m : M A) m' (k : A -> M B) k' :
  sim m m' -> (forall x, sim (k x) (k' x)) -> sim (bind m k) (bind m' k').
Proof.
  intros Hm Hk t s a Hr. specialize (Hm t s a Hr). unfold bind.
  destruct (m t s) as [[[x t1] s1]|], (m' t a) as [[[y t2] a2]|]; try done.
  destruct Hm as (-> & -> & Hr'). by apply Hk.
Qed.

Lemma sim_get : sim get get.
Proof. by intros t s a Hr. Qed.

Lemma sim_modify f : sim (modify f) (modify f).
Proof. by intros t s a Hr. Qed.

Lemma sim_assert p : sim (assert_ p) (assert_ p).
Proof. intros t s a Hr. unfold assert_. by destruct (p t). Qed.

Lemma sim_token f : sim (token f) (token f).
Proof. intros t s a Hr. unfold token. by destruct (f (m_token t)). Qed.

Lemma sim_ask {A} (f : Src -> A) (f' : Stream -> A) :
  (forall s a, related s a -> f s = f' a) -> sim (ask f) (ask f').
Proof. intros Hf t s a Hr. unfold ask. split; [by apply Hf|done]. Qed.

Lemma sim_source (f : Src -> Src) (f' : Stream -> Stream) :
  (forall s a, related s a -> related (f s) (f' a)) -> sim (source f) (source f').
Proof. intros Hf t s a Hr. unfold source. repeat (split; [done|]). by apply Hf. Qed.

Lemma sim_advanceLine : sim (source CharSource.advanceAndUpdateLineNumber)
                            (source CharSource.advanceAndUpdateLineNumber).
Proof. apply sim_source, related_advanceLine. Qed.

Lemma sim_advanceString l : sim (source (advanceString l)) (source (advanceString l)).
Proof.
  apply sim_source. induction l as [|c l IH]; intros s a Hr; simpl; [done|].
  by apply IH, related_advance.
Qed.

Lemma sim_consumed : sim (ask numberOfCharactersConsumed) (ask numberOfCharactersConsumed).
Proof. apply sim_ask, related_consumed. Qed.

Lemma sim_consumeEntity additional : sim (consumeEntity additional) (consumeEntity additional).
Proof.
  intros t s a Hr. unfold consumeEntity. pose proof (consumeHTMLEntity_sim additional s a Hr) as Hs.
  unfold option_sim in Hs.
  destruct (consumeHTMLEntity additional s), (consumeHTMLEntity additional a); try done.
  destruct Hs as (-> & -> & -> & Hr'). done.
Qed.

Lemma sim_askLookAhead b l : (2 <= length l)%nat -> sim (askLookAhead b l) (askLookAhead b l).
Proof.
  intros Hl t s a Hr. unfold askLookAhead, lookAheadIgnoringCase, lookAhead.
  destruct b; [destruct (related_lookAhead l false s a Hr Hl) as [E1 E2]
              |destruct (related_lookAhead l true s a Hr Hl) as [E1 E2]];
    revert E1 E2; (destruct (CharSource.lookAheadInline l _ s), (CharSource.lookAheadInline l _ a));
    simpl; intros -> Hr'; done.
Qed.

End Refine.

Create HintDb sim.
#[export] Hint Resolve sim_ret sim_get sim_modify sim_assert sim_token sim_advanceLine
  sim_advanceString sim_consumed sim_consumeEntity : sim.

(** A case of the switch is built from the primitives above. *)
Ltac sim_step :=
  match goal with
  | |- sim (bind _ _) (bind _ _) => apply sim_bind; [|intros ?]
  | |- sim (if ?b then _ else _) _ => destruct b
  | |- sim (match ?r with _ => _ end) _ => destruct r
  | |- sim (askLookAhead _ _) _ => apply sim_askLookAhead; apply Nat.leb_le; reflexivity
  | |- _ => solve [auto with sim]
  end.

Section RefineTokenizer.
Context `{FoldCase} {Src : Type} `{HS : CharSource Src} `{HR : !SourceRefines Src}.
Context `{HE : EntityTable} `{HOK : !EntityTableOK}.

Lemma sim_bufferCharacter c : sim (bufferCharacter (Src := Src) c) (bufferCharacter c).
Proof. unfold bufferCharacter. repeat sim_step. Qed.

Lemma sim_bufferDecoded c : sim (bufferDecoded (Src := Src) c) (bufferDecoded c).
Proof. unfold bufferDecoded. repeat sim_step. Qed.

#[local] Hint Resolve sim_bufferCharacter sim_bufferDecoded : sim.

Lemma sim_bufferCharacters l :
  sim (bufferCharacters (Src := Src) l) (bufferCharacters l).
Proof. induction l; simpl; repeat sim_step. Qed.

Lemma sim_appendToAttributeValues l :
  sim (appendToAttributeValues (Src := Src) l) (appendToAttributeValues l).
Proof. induction l; simpl; repeat sim_step. Qed.

Lemma sim_appendToComments l :
  sim (appendToComments (Src := Src) l) (appendToComments l).
Proof. induction l; simpl; repeat sim_step. Qed.

Lemma sim_parseError : sim (parseError (Src := Src)) parseError.
Proof. apply sim_ret. Qed.

#[local] Hint Resolve sim_bufferCharacters sim_appendToAttributeValues sim_appendToComments
  sim_parseError : sim.

Lemma sim_dispatch st cc : sim (dispatch (Src := Src) st cc) (dispatch st cc).
Proof.
  destruct st; cbn [dispatch]; unfold_case;
    unfold startEndTag, endTagOpen, endTagName, notAnEndTag, processEntity, backToAttributeValue,
      lookAheadFor, quirksResume, quirksEndOfFile, quirksBogus, openPublicIdentifier,
      openSystemIdentifier, startAttribute;
    unfold emitAndResumeIn, emitAndReconsumeIn, emitEndOfFile, flushAndAdvanceTo,
      flushEmitAndResumeIn, flushBufferedEndTag, saveEndTagNameIfNeeded, haveBuffered,
      addToPossibleEndTag, appendToTemporary, tokenAt, advanceTo, reconsumeIn, switchTo;
    repeat sim_step.
Qed.

Lemma sim_peekInput : sim (peekInput (Src := Src)) peekInput.
Proof.
  intros t s a Hr. unfold peekInput.
  pose proof (peek_sim (shouldSkipNullCharacters t) (m_inputStreamPreprocessor t) s a Hr) as E.
  revert E. destruct (peek _ _ s) as [[[b p] s']|], (peek _ _ a) as [[[b' p'] a']|]; try done.
  by intros (-> & -> & Hr').
Qed.

Lemma sim_advanceInput : sim (advanceInput (Src := Src)) advanceInput.
Proof.
  intros t s a Hr. unfold advanceInput.
  pose proof (preprocessor_advance_sim (shouldSkipNullCharacters t) (m_inputStreamPreprocessor t) s a Hr) as E.
  revert E. destruct (preprocessor_advance _ _ s) as [[[b p] s']|],
    (preprocessor_advance _ _ a) as [[[b' p'] a']|]; try done.
  by intros (-> & -> & Hr').
Qed.

Lemma sim_isEmpty : sim (ask (Src := Src) CharSource.isEmpty) (ask CharSource.isEmpty).
Proof. apply sim_ask, related_isEmpty. Qed.

#[local] Hint Resolve sim_dispatch sim_peekInput sim_advanceInput sim_isEmpty : sim.

Lemma sim_runStates fuel cc : sim (runStates (Src := Src) fuel cc) (runStates fuel cc).
Proof.
  revert cc; induction fuel as [|fuel IH]; intros cc; cbn [runStates]; [by intros t s a Hr|].
  unfold peekUnlessEmpty, continueWith. repeat sim_step.
Qed.

(** One call of [nextToken] on a source is the call on the stream it refines. *)
Lemma sim_nextToken : sim (nextToken (Src := Src)) nextToken.
Proof.
  unfold nextToken, resumeBufferedEndTag, peekUnlessEmpty, continueWith.
  assert (Hfuel : sim (ask (Src := Src) tokenizerFuel) (ask tokenizerFuel)).
  { apply sim_ask. intros s a Hr. unfold tokenizerFuel. by rewrite (related_length _ _ Hr). }
  pose proof sim_runStates. repeat sim_step.
Qed.

End RefineTokenizer.
