(* ===== verification/HTMLPreloadScannerSafety.v ===== *)
(** * Scanning a document always succeeds

    The theorems that put the invariant, the measure and the case analysis of
    [HTMLTokenizerSafety] together for one call of [nextToken] and for the loops
    of [HTMLPreloadScanner]. *)
From S2P Require Import Prelude.
From S2P Require Import CharSource.
From S2P Require Import HTMLToken.
From S2P Require Import InputStreamPreprocessor.
From S2P Require Import HTMLEntitySearch.
From S2P Require Import HTMLEntityParser.
From S2P Require Import HTMLEntityFacts.
From S2P Require Import HTMLTokenizer.
From S2P Require Import HTMLTokenizerRules.
From S2P Require Import HTMLTokenizerSafety.
From S2P Require Import HTMLTokenizerRefinement.
From S2P Require Import HTMLPreloadScanner.
From stdpp Require Import base list numbers option.
From Stdlib Require Import ZArith Lia.
#[local] Open Scope Z_scope.
Import HTMLToken Stream StreamFacts.

Section Scan.
Context `{FoldCase} `{EntityTable}.

(** ** Between two tokens *)

Lemma updateStateFor_fields name t :
  m_token (updateStateFor name t) = m_token t /\
  m_bufferedEndTagName (updateStateFor name t) = m_bufferedEndTagName t /\
  (updateStateFor name t = t \/
   In (m_state (updateStateFor name t)) [RCDATAState; PLAINTEXTState; ScriptDataState; RAWTEXTState]).
Proof. unfold updateStateFor. repeat case_match; simpl; tauto. Qed.

Lemma afterToken_ok t :
  returnOK true t = true -> tokenizerOK (afterToken t) = true.
Proof.
  unfold returnOK, afterToken. cbn [negb orb]. intros [Hok Hb]%andb_true_iff.
  destruct (hasType StartTag (m_token t)) eqn:Ek; [|done].
  apply hasType_true in Ek. unfold hasType in Hb. rewrite Ek in Hb.
  apply lists_eqb_eq in Hb.
  destruct (updateStateFor_fields (m_data (m_token t)) t) as (E1 & E2 & [E3|E3]).
  { by rewrite E3. }
  unfold tokenizerOK, pendingEndTag, fits. cbn [m_token m_state m_bufferedEndTagName set_token].
  rewrite E2, Hb. simpl in E3.
  destruct E3 as [<-|[<-|[<-|[<-|[]]]]]; reflexivity.
Qed.

Lemma afterToken_measure t s :
  returnOK true t = true -> (measure (afterToken t) s <= measure t s)%nat.
Proof.
  unfold returnOK, afterToken. cbn [negb orb]. intros [_ Hb]%andb_true_iff.
  destruct (hasType StartTag (m_token t)) eqn:Ek; [|done].
  apply hasType_true in Ek. unfold hasType in Hb. rewrite Ek in Hb.
  apply lists_eqb_eq in Hb.
  destruct (updateStateFor_fields (m_data (m_token t)) t) as (E1 & E2 & [E3|E3]).
  { by rewrite E3. }
  unfold measure, pendingEndTag. cbn [m_token m_state m_bufferedEndTagName set_token].
  rewrite E2, Hb. simpl in E3.
  destruct E3 as [<-|[<-|[<-|[<-|[]]]]]; simpl; lia.
Qed.

(** ** The loop of [scan] *)

Lemma scanLoop_ok fuel t s :
  tokenizerOK t = true -> (measure t s < fuel)%nat ->
  exists tokens t' s', scanLoop fuel t s = Some (tokens, t', s') /\
    tokenizerOK t' = true /\ (length tokens + measure t' s' <= measure t s)%nat /\
    Forall (fun k => hasType Uninitialized k = false) tokens.
Proof.
  revert t s; induction fuel as [|fuel IH]; intros t s Hok Hf; [lia|]. simpl.
  pose proof (nextToken_ok t s Hok) as Hn. unfold wp in Hn.
  destruct (nextToken t s) as [[[b t1] s1]|]; [|done]. destruct Hn as [Hr Hm].
  destruct b.
  - pose proof (afterToken_measure t1 s1 Hr) as Ha.
    destruct (IH (afterToken t1) s1) as (tokens & t' & s' & E & H1 & H2 & H3);
      [by apply afterToken_ok|lia|].
    rewrite E. eexists _, _, _; split; [done|]. split; [done|]. simpl. split; [lia|].
    constructor; [|done]. unfold returnOK in Hr. apply andb_true_iff in Hr as [_ Hr].
    simpl in Hr. apply andb_true_iff in Hr as [Hr _]. by apply negb_true_iff.
  - eexists _, _, _; split; [done|]. split; [|by simpl; split; [lia|]].
    unfold returnOK in Hr. by apply andb_true_iff in Hr as [Hr _].
Qed.

Lemma measure_bound t s : (measure t s <= 4 * len s + 4)%nat.
Proof.
  unfold measure. assert (rank (m_state t) <= 3)%nat by (destruct (m_state t); simpl; lia).
  case_match; lia.
Qed.

Lemma scan_ok t s :
  tokenizerOK t = true ->
  exists tokens t' s', scan t s = Some (tokens, t', s') /\
    tokenizerOK t' = true /\ (length tokens + measure t' s' <= measure t s)%nat /\
    Forall (fun k => hasType Uninitialized k = false) tokens.
Proof.
  intros Hok. apply scanLoop_ok; [done|]. pose proof (measure_bound t s).
  change (scanFuel s) with (4 * len s + 5)%nat. lia.
Qed.

Lemma measure_append t l s :
  measure t (append l s) = (measure t s + 4 * length l)%nat.
Proof. unfold measure, len. rewrite chars_append, length_app. lia. Qed.

Definition totalLength (chunks : list (bool * list Z)) : nat :=
  list_sum (map (fun c => length (snd c)) chunks).

Lemma scanChunks_ok chunks t s :
  tokenizerOK t = true ->
  exists tokens t' s', scanChunks chunks t s = Some (tokens, t', s') /\
    tokenizerOK t' = true /\
    (length tokens + measure t' s' <= measure t s + 4 * totalLength chunks)%nat /\
    Forall (fun k => hasType Uninitialized k = false) tokens.
Proof.
  unfold totalLength. revert t s; induction chunks as [|[b l] chunks IH]; intros t s Hok; simpl.
  { eexists _, _, _; split; [done|]. simpl. split; [done|]. by split; [lia|]. }
  destruct (scan_ok t (append l s) Hok) as (tk & t1 & s1 & E1 & H1 & L1 & F1). rewrite E1.
  destruct (IH t1 s1 H1) as (tk' & t2 & s2 & E2 & H2 & L2 & F2). rewrite E2.
  eexists _, _, _; split; [done|]. split; [done|].
  rewrite measure_append in L1. rewrite length_app. split; [lia|]. by apply Forall_app.
Qed.

Lemma scanDocument_ok chunks t s :
  tokenizerOK t = true ->
  exists tokens t' s', scanDocument chunks t s = Some (tokens, t', s') /\
    tokenizerOK t' = true /\
    (length tokens <= measure t s + 4 * totalLength chunks + 4)%nat /\
    Forall (fun k => hasType Uninitialized k = false) tokens.
Proof.
  intros Hok. unfold scanDocument.
  destruct (scanChunks_ok chunks t s Hok) as (tk & t1 & s1 & E1 & H1 & L1 & F1). rewrite E1.
  destruct (scan_ok t1 (markEndOfFile s1) H1) as (tk' & t2 & s2 & E2 & H2 & L2 & F2). rewrite E2.
  eexists _, _, _; split; [done|]. split; [done|].
  replace (measure t1 (markEndOfFile s1)) with (measure t1 (append [0] s1)) in L2 by done.
  rewrite measure_append in L2. rewrite length_app. simpl in L2. split; [lia|]. by apply Forall_app.
Qed.

End Scan.

(** ** On an implementation of the source *)

Section Implementation.
Context `{FoldCase} {Src : Type} `{HS : CharSource Src} `{HR : !SourceRefines Src}.
Context `{HI : InputSource Src} `{HIR : !InputRefines Src}.
Context `{HE : EntityTable} `{HOK : !EntityTableOK}.

Definition scan_sim (o : option (list HTMLToken * HTMLTokenizer * Src))
  (o' : option (list HTMLToken * HTMLTokenizer * Stream)) : Prop :=
  match o, o' with
  | Some (k, t, s), Some (k', t', a) => k = k' /\ t = t' /\ related s a
  | None, None => True
  | _, _ => False
  end.

Lemma related_append b l s a :
  related s a -> Forall (fun c => 0 <= c) l -> related (appendString b l s) (append l a).
Proof.
  intros [H1 [H2 H3]] Hl. split; [by apply (refines_append s a b l)|]. split; [done|].
  rewrite chars_append. by apply Forall_app.
Qed.

Lemma related_close s a : related s a -> related (closeSource s) (close a).
Proof. intros [H1 [H2 H3]]. split; [by apply (refines_close s a)|done]. Qed.

Lemma scanLoop_sim fuel t s a :
  related s a -> scan_sim (scanLoop fuel t s) (scanLoop fuel t a).
Proof.
  revert t s a; induction fuel as [|fuel IH]; intros t s a Hr; [done|]. simpl.
  pose proof (sim_nextToken t s a Hr) as Hn.
  destruct (nextToken t s) as [[[b t1] s1]|], (nextToken t a) as [[[b' t1'] a1]|]; try done.
  destruct Hn as (-> & -> & Hr1). destruct b'; [|done].
  specialize (IH (afterToken t1') s1 a1 Hr1). unfold scan_sim in *.
  destruct (scanLoop fuel (afterToken t1') s1) as [[[k t2] s2]|],
    (scanLoop fuel (afterToken t1') a1) as [[[k' t2'] a2]|]; try done.
  by destruct IH as (-> & -> & Hr2).
Qed.

Lemma scan_simulates t s a : related s a -> scan_sim (scan t s) (scan t a).
Proof.
  intros Hr. unfold scan, scanFuel. rewrite (related_length _ _ Hr). by apply scanLoop_sim.
Qed.

Lemma scanChunks_sim chunks t s a :
  related s a -> Forall (fun c => Forall (fun u => 0 <= u) (snd c)) chunks ->
  scan_sim (scanChunks chunks t s) (scanChunks chunks t a).
Proof.
  revert t s a; induction chunks as [|[b l] chunks IH]; intros t s a Hr Hf; [done|]. simpl.
  inversion_clear Hf as [|? ? Hl Hrest].
  pose proof (scan_simulates t _ _ (related_append b l s a Hr Hl)) as Hs. unfold scan_sim in *.
  destruct (scan t (appendString b l s)) as [[[k t1] s1]|],
    (scan t (append l a)) as [[[k' t1'] a1]|]; try done.
  destruct Hs as (-> & -> & Hr1). specialize (IH t1' s1 a1 Hr1 Hrest).
  destruct (scanChunks chunks t1' s1) as [[[k2 t2] s2]|],
    (scanChunks chunks t1' a1) as [[[k2' t2'] a2]|]; try done.
  by destruct IH as (-> & -> & Hr2).
Qed.

Lemma scanDocument_sim chunks t s a :
  related s a -> Forall (fun c => Forall (fun u => 0 <= u) (snd c)) chunks ->
  scan_sim (scanDocument chunks t s) (scanDocument chunks t a).
Proof.
  intros Hr Hf. unfold scanDocument. pose proof (scanChunks_sim chunks t s a Hr Hf) as Hs.
  unfold scan_sim in *.
  destruct (scanChunks chunks t s) as [[[k t1] s1]|], (scanChunks chunks t a) as [[[k' t1'] a1]|];
    try done.
  destruct Hs as (-> & -> & Hr1).
  assert (Hr2 : related (markEndOfFile s1) (markEndOfFile a1)).
  { apply related_close, related_append; [done|]. by repeat constructor. }
  pose proof (scan_simulates t1' _ _ Hr2) as Hs. unfold scan_sim in Hs.
  destruct (scan t1' (markEndOfFile s1)) as [[[k2 t2] s2]|],
    (scan t1' (markEndOfFile a1)) as [[[k2' t2'] a2]|]; try done.
  by destruct Hs as (-> & -> & Hr3).
Qed.

End Implementation.
