(* ===== verification/HTMLTokenizerProps.v ===== *)
(** * What the tokenizer guarantees on a [SegmentedString]

    The safety, termination and refinement results, stated for the source the
    browser uses. *)
From S2P Require Import Prelude.
From S2P Require Import CharSource.
From S2P Require Import SegmentedString.
From S2P Require Import SegmentedStringRefinement.
From S2P Require Import HTMLToken.
From S2P Require Import InputStreamPreprocessor.
From S2P Require Import HTMLEntitySearch.
From S2P Require Import HTMLEntityParser.
From S2P Require Import HTMLEntityFacts.
From S2P Require Import HTMLTokenizer.
From S2P Require Import HTMLTokenizerRules.
From S2P Require Import HTMLTokenizerSafety.
From S2P Require Import HTMLTokenizerRefinement.
From S2P Require Import HTMLPreloadScanner.
From S2P Require Import HTMLPreloadScannerSafety.
From S2P Require Import HTMLTokenizerCaptive.
From stdpp Require Import base list numbers option.
From Stdlib Require Import ZArith Lia.
#[local] Open Scope Z_scope.
Import HTMLToken Stream StreamFacts.

(** ** The assertions that are recorded

    [ASSERT(m_currentAttribute->valueRange.start)], and the assertions of
    [AtomicHTMLToken::initializeAttributes], hold because a tag begins with a character:
    when an attribute is read, at least one character has been consumed and the offsets
    that are stored are positive.  [ASSERT(character)] for the characters of a reference
    holds when all references are named ones. *)

(** How much of the current attribute has been read. *)
Inductive Phase : Type := Settled | Naming | Valuing.

Definition phaseOf (st : State) : Phase :=
  match st with
  | AttributeNameState => Naming
  | AttributeValueDoubleQuotedState | AttributeValueSingleQuotedState | AttributeValueUnquotedState
  | CharacterReferenceInAttributeValueState => Valuing
  | _ => Settled
  end.

Definition needed (ph : Phase) (a : Attribute) : Prop :=
  match ph with
  | Settled => rangesSet a = true
  | Naming => True
  | Valuing => start (valueRange a) <> 0 /\ (attr_name a = [] \/ end_ (nameRange a) <> 0)
  end.

Definition rangesIn (ph : Phase) (k : HTMLToken) : Prop :=
  forall j a, m_attributes k !! j = Some a ->
    if bool_decide (m_currentAttribute k = Some j) then needed ph a else rangesSet a = true.

Ltac same_track := intros [= <-]; repeat split; try done.

Section Recorded.
Context `{FoldCase} `{HE : EntityTable} `{HOK : !EntityTableOK}.

(** [onlyNamed]: the document has no number sign, and no name in the table stands for NUL. *)
Variable onlyNamed : Prop.
Hypothesis values : onlyNamed -> Forall (fun e => 0 ∉ entryValues e) entries.

Definition logOK (k : HTMLToken) : Prop :=
  Forall (fun a => a = NullFromReference) (m_failedAssertions k) /\
  (onlyNamed -> m_failedAssertions k = []).

Definition tokenOK (ph : Phase) (k : HTMLToken) : Prop :=
  m_baseOffset k = 0 /\ logOK k /\ (isTag k = true -> rangesIn ph k).

Definition sourceOK (s : Stream) : Prop :=
  0 <= st_consumed s /\ (length (st_pushed s) <= 2)%nat /\ (onlyNamed -> 35 ∉ chars s).

Definition streamOK (st : State) (s : Stream) : Prop :=
  sourceOK s /\ (attributeState st = true -> 0 < st_consumed s).

(** How a case is left. *)
Definition recorded (c : Control) (t : HTMLTokenizer) (s : Stream) : Prop :=
  match c with
  | ADVANCE_TO st => tokenOK (phaseOf st) (m_token t) /\ sourceOK s
  | RECONSUME_IN st | SWITCH_TO st => tokenOK (phaseOf st) (m_token t) /\ streamOK st s
  | RETURN false => tokenOK (phaseOf (m_state t)) (m_token t) /\ streamOK (m_state t) s
  | RETURN true => tokenOK Settled (m_token t) /\ streamOK (m_state t) s
  end.

Lemma sourceOK_follows s s' : sourceOK s -> follows s s' -> sourceOK s'.
Proof. intros (H1 & H2 & H3) (F1 & F2 & F3). split_and!; [lia|done|]. intros Hn Hin. apply H3; auto. Qed.

Lemma streamOK_follows st s s' : streamOK st s -> follows s s' -> streamOK st s'.
Proof. intros [H1 H2] Hf. split; [by eapply sourceOK_follows|]. intros Ha. destruct Hf as (F & _). specialize (H2 Ha). lia. Qed.

(** *** Functions of the token *)

(** Nothing that is tracked changes. *)
Definition sameTrack (k k' : HTMLToken) : Prop :=
  m_baseOffset k' = m_baseOffset k /\ m_failedAssertions k' = m_failedAssertions k /\
  (isTag k' = true -> isTag k = true /\ m_attributes k' = m_attributes k /\ m_currentAttribute k' = m_currentAttribute k).

Lemma sameTrack_ok ph k k' : sameTrack k k' -> tokenOK ph k -> tokenOK ph k'.
Proof.
  intros (H1 & H2 & H3) (T1 & T2 & T3). split_and!; [congruence|unfold logOK; by rewrite H2|].
  intros (Ht & Ea & Ec)%H3. unfold rangesIn. rewrite Ea, Ec. by apply T3.
Qed.

Lemma keeps_track ph f : (forall k k', f k = Some k' -> sameTrack k k') -> keeps (tokenOK ph) f.
Proof. intros Hf k k' E. by apply sameTrack_ok, Hf. Qed.

(** A new tag has no attributes. *)
Definition newTag (k k' : HTMLToken) : Prop :=
  m_baseOffset k' = m_baseOffset k /\ m_failedAssertions k' = m_failedAssertions k /\ m_attributes k' = [].

Lemma newTag_ok ph ph' k k' : newTag k k' -> tokenOK ph k -> tokenOK ph' k'.
Proof.
  intros (H1 & H2 & H3) (T1 & T2 & _). split_and!; [congruence|unfold logOK; by rewrite H2|].
  intros _ j a. by rewrite H3.
Qed.

(** A change of the current attribute. *)
Lemma modifyAttribute_track ph ph' g k k' :
  modifyAttribute g k = Some k' -> (forall a, needed ph a -> needed ph' (g a)) ->
  tokenOK ph k -> tokenOK ph' k'.
Proof.
  unfold modifyAttribute. intros E Hg (T1 & T2 & T3). destruct (m_currentAttribute k) as [i|] eqn:Ec; [|done].
  destruct (m_attributes k !! i) as [a|] eqn:Ea; [|done]. injection E as <-. split_and!; [done|done|].
  intros Ht j b. cbn [set_tag m_attributes m_currentAttribute]. specialize (T3 Ht).
  destruct (decide (j = i)) as [->|Hne].
  - rewrite list_lookup_insert_eq by (by eapply lookup_lt_Some). intros [= <-]. specialize (T3 i a Ea). rewrite Ec in T3.
    rewrite bool_decide_eq_true_2 in * by done. by apply Hg.
  - rewrite list_lookup_insert_ne by done. intros Eb. specialize (T3 j b Eb). rewrite Ec in T3.
    rewrite bool_decide_eq_false_2 in * by congruence. done.
Qed.

Lemma post_same ph f Q t s :
  (forall k k', f k = Some k' -> sameTrack k k') -> tokenOK ph (m_token t) ->
  (forall k, tokenOK ph k -> Q tt (set_token k t) s) -> post (token f) Q t s.
Proof. intros Hf. apply post_token. by apply keeps_track. Qed.

Lemma post_newTag ph ph' f Q t s :
  (forall k k', f k = Some k' -> newTag k k') -> tokenOK ph (m_token t) ->
  (forall k, tokenOK ph' k -> Q tt (set_token k t) s) -> post (token f) Q t s.
Proof.
  intros Hf Hk HQ. unfold post, token. destruct (f (m_token t)) as [k|] eqn:E; [|done].
  apply HQ. eapply newTag_ok; [by apply Hf|done].
Qed.

(** A function that changes the current attribute. *)
Lemma post_attribute ph ph' f Q t s :
  (forall k k', f k = Some k' -> exists g, modifyAttribute (g k) k = Some k' /\
     forall a, tokenOK ph k -> needed ph a -> needed ph' (g k a)) ->
  tokenOK ph (m_token t) ->
  (forall k, tokenOK ph' k -> Q tt (set_token k t) s) -> post (token f) Q t s.
Proof.
  intros Hf Hk HQ. unfold post, token. destruct (f (m_token t)) as [k|] eqn:E; [|done].
  apply Hf in E as (g & E & Hg). apply HQ. eapply modifyAttribute_track; [exact E| |done]. auto.
Qed.

Lemma post_addNewAttribute Q t s :
  tokenOK Settled (m_token t) ->
  (forall k, tokenOK Naming k -> Q tt (set_token k t) s) -> post (token addNewAttribute) Q t s.
Proof.
  intros (T1 & T2 & T3) HQ. unfold post, token, addNewAttribute. destruct (isTag (m_token t)) eqn:Et; [|done].
  apply HQ. split_and!; [done|done|]. intros _ j a. cbn [set_tag m_attributes m_currentAttribute].
  destruct (bool_decide_reflect (Some (length (m_attributes (m_token t))) = Some j)) as [Ej|Ej]; [done|].
  intros Ha%lookup_app_Some. destruct Ha as [Ha|[Hl Ha]].
  - specialize (T3 eq_refl j a Ha). by destruct (bool_decide (m_currentAttribute (m_token t) = Some j)).
  - exfalso. apply Ej. f_equal. apply lookup_lt_Some in Ha. simpl in Ha. lia.
Qed.

(** The offsets are positive. *)
Lemma post_endAttributeName n Q t s :
  0 < n -> tokenOK Naming (m_token t) ->
  (forall k, tokenOK Settled k -> Q tt (set_token k t) s) -> post (token (endAttributeName n)) Q t s.
Proof.
  intros Hn. apply post_attribute. intros k k' E. eexists (fun k a => _). split; [exact E|].
  intros a (Hb & _) _. cbn. unfold rangesSet. cbn. rewrite Hb. apply orb_true_iff. right.
  rewrite !andb_true_iff, !negb_true_iff, !Z.eqb_neq. lia.
Qed.

Lemma post_beginAttributeValue n Q t s :
  0 < n -> tokenOK Settled (m_token t) ->
  (forall k, tokenOK Valuing k -> Q tt (set_token k t) s) -> post (token (beginAttributeValue n)) Q t s.
Proof.
  intros Hn. apply post_attribute. intros k k' E. eexists (fun k a => _). split; [exact E|].
  intros a (Hb & _) Ha. cbn in *. rewrite Hb. split; [lia|]. unfold rangesSet in Ha.
  apply orb_true_iff in Ha as [Ha|Ha]; [left; by apply lists_eqb_eq|right].
  rewrite !andb_true_iff, !negb_true_iff, !Z.eqb_neq in Ha. tauto.
Qed.

Lemma post_endAttributeValue n Q t s :
  0 < n -> tokenOK Valuing (m_token t) ->
  (forall k, tokenOK Settled k -> Q tt (set_token k t) s) -> post (token (endAttributeValue n)) Q t s.
Proof.
  intros Hn. apply post_attribute. intros k k' E. eexists (fun k a => _). split; [exact E|].
  intros a (Hb & _) [Ha Ha']. cbn. unfold rangesSet. cbn. rewrite Hb. apply orb_true_iff.
  destruct Ha' as [Ha'|Ha']; [left; by apply lists_eqb_eq|right].
  rewrite !andb_true_iff, !negb_true_iff, !Z.eqb_neq. lia.
Qed.

Lemma post_beginAttributeName n Q t s :
  tokenOK Naming (m_token t) ->
  (forall k, tokenOK Naming k -> Q tt (set_token k t) s) -> post (token (beginAttributeName n)) Q t s.
Proof. apply post_attribute. intros k k' E. eexists (fun k a => _). by split; [exact E|]. Qed.

Lemma post_appendToAttributeName c Q t s :
  tokenOK Naming (m_token t) ->
  (forall k, tokenOK Naming k -> Q tt (set_token k t) s) -> post (token (appendToAttributeName c)) Q t s.
Proof.
  apply post_attribute. unfold appendToAttributeName. intros k k' E. destruct (_ && _); [|done].
  eexists (fun k a => _). by split; [exact E|].
Qed.

(** The value of the current attribute has its start. *)
Lemma valuing_start k : tokenOK Valuing k -> isTag k = true -> hasValueStart k = true.
Proof.
  intros (_ & _ & T) Ht. specialize (T Ht). unfold hasValueStart. destruct (m_currentAttribute k) as [i|] eqn:Ec; [|done].
  destruct (m_attributes k !! i) as [a|] eqn:Ea; [|done]. specialize (T i a Ea). rewrite Ec, bool_decide_eq_true_2 in T by done.
  destruct T as [T _]. by apply negb_true_iff, Z.eqb_neq.
Qed.

Lemma currentValue_track c k k' :
  appendToCurrentValue c k = Some k' -> isTag k = true -> tokenOK Valuing k -> tokenOK Valuing k'.
Proof.
  unfold appendToCurrentValue. intros E Ht Hk. rewrite (valuing_start k Hk Ht) in E. cbn [record] in E.
  eapply modifyAttribute_track; [exact E| |done]. by intros a.
Qed.

Lemma record_track ph c k : (onlyNamed -> c <> 0) -> tokenOK ph k -> tokenOK ph (record (notNull c) NullFromReference k).
Proof.
  intros Hc (T1 & [L1 L2] & T3). destruct (notNull c) eqn:En; [done|]. split_and!; [done| |done]. split.
  - by constructor.
  - intros Hn. exfalso. apply (Hc Hn). apply negb_false_iff, Z.eqb_eq in En. done.
Qed.

Lemma post_appendToAttributeValue c Q t s :
  tokenOK Valuing (m_token t) ->
  (forall k, tokenOK Valuing k -> Q tt (set_token k t) s) -> post (token (appendToAttributeValue c)) Q t s.
Proof.
  apply post_token. intros k k' E Hk. unfold appendToAttributeValue in E.
  destruct (notNull c && isTag k) eqn:Et; [|done]. apply andb_true_iff in Et as [_ Et]. by eapply currentValue_track.
Qed.

Lemma post_appendDecoded l Q t s :
  (onlyNamed -> 0 ∉ l) -> tokenOK Valuing (m_token t) ->
  (forall k, tokenOK Valuing k -> Q tt (set_token k t) s) -> post (appendToAttributeValues l) Q t s.
Proof.
  revert Q t. induction l as [|c l IH]; intros Q t Hl Hk HQ; cbn [appendToAttributeValues].
  - apply post_ret. specialize (HQ _ Hk). by destruct t.
  - apply post_bind, (post_token (tokenOK Valuing)); [|done|].
    + intros k k' E Hk'. unfold appendDecodedToAttributeValue in E. destruct (isTag k) eqn:Et; [|done].
      eapply currentValue_track; [exact E| |apply record_track; [|done]].
      * by destruct (notNull c).
      * intros Hn ->. apply (Hl Hn). by left.
    + intros k Hk'. apply IH; [|done|intros k'; by apply (HQ k')]. intros Hn Hin. apply (Hl Hn). by right.
Qed.

Lemma sameTrack_ensure k k' : ensureIsCharacterToken k = Some k' -> sameTrack k k'.
Proof. unfold ensureIsCharacterToken. destruct (_ || _); [|done]. by same_track. Qed.

Lemma sameTrack_appendToCharacter c k k' : appendToCharacter c k = Some k' -> sameTrack k k'.
Proof. unfold appendToCharacter. destruct (hasType _ _); [|done]. by same_track. Qed.

Lemma post_text ph c Q t s :
  tokenOK ph (m_token t) -> (forall k, tokenOK ph k -> Q tt (set_token k t) s) ->
  post (bind (token ensureIsCharacterToken) (fun _ => token (appendToCharacter c))) Q t s.
Proof.
  intros Hk HQ. apply post_bind, (post_same ph); [apply sameTrack_ensure|done|]. intros k Hk'.
  apply (post_same ph); [apply sameTrack_appendToCharacter|done|]. intros k' Hk''. by apply (HQ k').
Qed.

Lemma post_buffer ph c Q t s :
  tokenOK ph (m_token t) -> (forall k, tokenOK ph k -> Q tt (set_token k t) s) -> post (bufferCharacter c) Q t s.
Proof. intros Hk HQ. apply post_bind, post_assert. intros _. by apply (post_text ph). Qed.

Lemma post_decoded ph l Q t s :
  (onlyNamed -> 0 ∉ l) -> tokenOK ph (m_token t) ->
  (forall k, tokenOK ph k -> Q tt (set_token k t) s) -> post (bufferCharacters l) Q t s.
Proof.
  revert Q t. induction l as [|c l IH]; intros Q t Hl Hk HQ; cbn [bufferCharacters].
  - apply post_ret. specialize (HQ _ Hk). by destruct t.
  - apply post_bind, post_bind, (post_token (tokenOK ph)); [|done|].
    + intros k k' [= <-] Hk'. apply (record_track ph c); [|done]. intros Hn ->. apply (Hl Hn). by left.
    + intros k Hk'. apply (post_text ph); [done|]. intros k' Hk''. apply IH; [|done|intros k2; by apply (HQ k2)].
      intros Hn Hin. apply (Hl Hn). by right.
Qed.

Lemma sameTrack_appendToComment c k k' : appendToComment c k = Some k' -> sameTrack k k'.
Proof. unfold appendToComment. destruct (_ && _); [|done]. by same_track. Qed.

Lemma post_comments ph l Q t s :
  tokenOK ph (m_token t) -> (forall k, tokenOK ph k -> Q tt (set_token k t) s) -> post (appendToComments l) Q t s.
Proof.
  revert Q t. induction l as [|c l IH]; intros Q t Hk HQ; cbn [appendToComments].
  - apply post_ret. specialize (HQ _ Hk). by destruct t.
  - apply post_bind, (post_same ph); [apply sameTrack_appendToComment|done|]. intros k Hk'.
    apply IH; [done|]. intros k' Hk''. by apply (HQ k').
Qed.

Lemma post_entity additional Q t s :
  sourceOK s ->
  (forall r s', follows s s' -> (onlyNamed -> 0 ∉ decoded r) -> Q r t s') ->
  post (consumeEntity additional) Q t s.
Proof.
  intros (H1 & H2 & H3) HQ. unfold post, consumeEntity.
  destruct (consumeHTMLEntity additional s) as [r|] eqn:E; [|done].
  apply HQ; [by eapply consumeHTMLEntity_follows|]. intros Hn. cbn [decoded].
  destruct (consumeHTMLEntity_decoded additional s r E (H3 Hn)) as [->|(e & He & ->)]; [by apply not_elem_of_nil|].
  pose proof (values Hn) as Hv. rewrite list.Forall_forall in Hv. by apply (Hv e).
Qed.

(** *** The ends of the cases *)

Lemma tokenOK_text ph ph' k : isTag k = false -> tokenOK ph k -> tokenOK ph' k.
Proof. intros Ht (T1 & T2 & _). split_and!; [done|done|congruence]. Qed.

Lemma text_noTag k : hasType Character k = true -> isTag k = false.
Proof. intros E%hasType_true. unfold isTag. by rewrite E. Qed.

Lemma streamOK_advance st s : streamOK st s -> streamOK st (advance s).
Proof. intros Hs. eapply streamOK_follows; [done|]. apply follows_advance, Hs. Qed.

(** After a character, anything may follow. *)
Lemma streamOK_step st s : sourceOK s -> isEmpty s = false -> streamOK st (advance s).
Proof.
  intros Hs He. split; [by eapply sourceOK_follows, follows_advance; [done|apply Hs]|].
  intros _. rewrite consumed_step by done. destruct Hs as (Hs & _). lia.
Qed.

Lemma post_haveBuffered_recorded ph st t s :
  phaseOf st = ph -> m_state t = st -> tokenOK ph (m_token t) -> streamOK st s -> post haveBuffered recorded t s.
Proof.
  intros Hph Hst Hk Hs. apply post_bind, post_get, post_ret. unfold haveBufferedCharacterToken.
  destruct (hasType Character (m_token t)) eqn:E; cbn; rewrite Hst; [|by rewrite Hph].
  split; [|done]. eapply tokenOK_text; [by apply text_noTag|done].
Qed.

Lemma post_emit_recorded (m : M unit) t s :
  tokenOK Settled (m_token t) -> sourceOK s ->
  (forall t, post m (fun _ t' s' => t' = t /\ follows s s') t s) ->
  post (bind saveEndTagNameIfNeeded (fun _ => bind (modify (set_state DataState)) (fun _ => bind m (fun _ => ret (RETURN true)))))
    recorded t s.
Proof.
  intros Hk Hs Hm. apply post_bind, post_bind, post_assert. intros Hu.
  apply post_modify, post_bind, post_modify, post_bind. eapply post_mono; [apply Hm|]. intros ? t' s' [-> Hf].
  apply post_ret. split; [by destruct (hasType StartTag (m_token t))|]. split; [by eapply sourceOK_follows|].
  by destruct (hasType StartTag (m_token t)).
Qed.

Lemma post_emitResume t s : tokenOK Settled (m_token t) -> sourceOK s -> post (emitAndResumeIn DataState) recorded t s.
Proof. intros Hk Hs. apply post_emit_recorded; [done|done|]. intros t'. apply post_source. split; [done|]. apply follows_advance, Hs. Qed.

Lemma post_emitReconsume t s : tokenOK Settled (m_token t) -> sourceOK s -> post (emitAndReconsumeIn DataState) recorded t s.
Proof.
  intros Hk Hs. pose proof (post_emit_recorded (ret tt) t s Hk Hs) as Hp. apply Hp. intros t'. apply post_ret.
  split; [done|]. apply follows_refl, Hs.
Qed.

Lemma post_eof t s : tokenOK Settled (m_token t) -> streamOK (m_state t) s -> post emitEndOfFile recorded t s.
Proof.
  intros Hk Hs. apply post_bind, post_get. destruct (haveBufferedCharacterToken t); [by apply post_ret|].
  apply post_bind, post_modify, post_bind, post_source, post_bind, post_modify, post_bind. unfold post, token, makeEndOfFile. cbn.
  destruct Hk as (T1 & T2 & T3). split; [by split_and!|]. split; [|done]. eapply sourceOK_follows; [apply Hs|]. apply follows_advance, Hs.
Qed.

Lemma newTag_beginEndTag l k k' : beginEndTag l k = Some k' -> newTag k k'.
Proof. unfold beginEndTag. destruct (hasType _ _); [|done]. by intros [= <-]. Qed.

Lemma post_flush st t s :
  tokenOK Settled (m_token t) -> sourceOK s -> isEmpty s = false ->
  post flushBufferedEndTag (fun b t' s' => tokenOK Settled (m_token t') /\ m_state t' = m_state t /\ streamOK st s') t s.
Proof.
  intros Hk Hs He. apply post_bind, post_assert. intros _. apply post_bind, post_source, post_bind, post_get.
  pose proof (streamOK_step st s Hs He). destruct (hasType Character (m_token t)); [by apply post_ret|].
  apply post_bind, (post_newTag Settled Settled); [apply newTag_beginEndTag|done|]. intros k Hk'. by apply post_bind, post_modify, post_ret.
Qed.

Lemma post_flushAdvance st t s :
  phaseOf st = Settled -> tokenOK Settled (m_token t) -> sourceOK s -> isEmpty s = false -> post (flushAndAdvanceTo st) recorded t s.
Proof.
  intros Hph Hk Hs He. apply post_bind, post_modify, post_bind. eapply post_mono; [by apply (post_flush st)|].
  intros b t' s' (Hk' & Hst & Hs'). destruct b; apply post_ret; cbn; [by rewrite Hst|by rewrite Hph].
Qed.

Lemma post_flushEmit t s :
  tokenOK Settled (m_token t) -> sourceOK s -> isEmpty s = false -> post (flushEmitAndResumeIn DataState) recorded t s.
Proof.
  intros Hk Hs He. apply post_bind, post_modify, post_bind. eapply post_mono; [by apply (post_flush DataState)|].
  intros b t' s' (Hk' & Hst & Hs'). apply post_ret. cbn. by rewrite Hst.
Qed.

(** A look-ahead puts back what it has read. *)
Lemma follows_lookAhead string cs s :
  (length (st_pushed s) <= 2)%nat -> follows s (snd (lookAheadInline string cs s)).
Proof.
  intros Hp. unfold lookAheadInline. destruct (Nat.ltb_spec (length (chars s)) (length string)) as [|Hl]; [by apply follows_refl|].
  destruct (advanceBy (length string) s) as [l s'] eqn:Ea.
  destruct (advanceBy_spec (length string) s Hl) as (A1 & A2 & A3 & _). rewrite Ea in A1, A2, A3. cbn in A1, A2, A3.
  assert (Hp' : forall n b, (length (st_pushed b) <= 2)%nat -> (length (st_pushed (snd (advanceBy n b))) <= 2)%nat).
  { intros n; induction n as [|n IH]; intros b Hb; simpl; [done|]. specialize (IH (advance b)).
    rewrite pushed_length_advance in IH. destruct (advanceBy n (advance b)); simpl in *; apply IH; lia. }
  specialize (Hp' (length string) s Hp). rewrite Ea in Hp'. cbn [snd] in *. split_and!.
  - cbn. rewrite A3, A1, length_take. lia.
  - done.
  - intros c. unfold chars at 1. cbn. rewrite !elem_of_app. intros Hc.
    assert (Hc' : c ∈ l ++ chars s') by (unfold chars; rewrite !elem_of_app; tauto).
    by rewrite A1, A2, take_drop in Hc'.
Qed.

Lemma follows_advanceString l : forall s, (length (st_pushed s) <= 2)%nat -> follows s (advanceString l s).
Proof.
  induction l as [|c l IH]; intros s Hs; simpl; [by apply follows_refl|].
  pose proof (follows_advance s Hs) as Hf. eapply follows_trans; [exact Hf|]. apply IH, Hf.
Qed.

Lemma post_lookAhead st ignoreCase string matched otherwise t s :
  m_state t = st -> tokenOK (phaseOf st) (m_token t) -> streamOK st s ->
  (forall s', follows s s' -> post matched recorded t s') ->
  (forall s', follows s s' -> post otherwise recorded t s') ->
  post (lookAheadFor ignoreCase string matched otherwise) recorded t s.
Proof.
  intros Hst Hk Hs Hm Ho. apply post_bind. unfold post at 1, askLookAhead, lookAheadIgnoringCase, lookAhead.
  cbn [CharSource.lookAheadInline stream_source].
  assert (Hgo : forall cs, let '(r, s') := lookAheadInline string cs s in
    post match r with
         | DidNotMatch => otherwise
         | DidMatch => bind (source (advanceString string)) (fun _ => matched)
         | NotEnoughCharacters => haveBuffered
         end recorded t s').
  { intros cs. pose proof (follows_lookAhead string cs s (proj1 (proj2 (proj1 Hs)))) as Hf.
    destruct (lookAheadInline string cs s) as [r s']. cbn [snd] in Hf. destruct r.
    - by apply Ho.
    - apply post_bind, post_source, Hm. eapply follows_trans; [exact Hf|]. apply follows_advanceString, Hf.
    - eapply post_haveBuffered_recorded; [done|done|done|]. by eapply streamOK_follows. }
  destruct ignoreCase; [specialize (Hgo false)|specialize (Hgo true)];
    destruct (lookAheadInline string _ s) as [r s']; exact Hgo.
Qed.

End Recorded.

(** A function that leaves alone what is tracked. *)
Ltac plain_function :=
  intros ? ?;
  unfold appendToName, setSelfClosing, beginComment, appendToComment, beginDOCTYPE_char, beginDOCTYPE, setForceQuirks,
    setPublicIdentifierToEmptyString, setSystemIdentifierToEmptyString, appendToPublicIdentifier, appendToSystemIdentifier,
    modifyDoctype, appendToCharacter_vector;
  repeat match goal with |- context [if ?b then _ else _] => destruct b | |- context [match m_doctypeData ?k with _ => _ end] => destruct (m_doctypeData k) end;
  cbn [fmap option_fmap option_map]; try done; by same_track.

Ltac new_tag := intros ? ?; unfold beginStartTag, beginEndTag_char; repeat case_match; try done; by intros [= <-].

Ltac source_fact := first [done | match goal with H : streamOK _ _ _ |- sourceOK _ _ => apply H | H : sourceOK _ ?s, F : follows ?s ?s' |- sourceOK _ ?s' => exact (sourceOK_follows _ _ _ H F) end].

Ltac stream_fact :=
  first [ done
        | match goal with H : streamOK _ _ ?s |- sourceOK _ ?s => exact (proj1 H) end
        | split; [match goal with H : streamOK _ _ ?s |- sourceOK _ ?s => exact (proj1 H) end
                 |intros Ha; first [discriminate Ha
                   |match goal with H : streamOK _ _ ?s |- 0 < st_consumed ?s => apply (proj2 H); reflexivity end]] ].

(** The sources after a case has read something. *)
Ltac follow H := match goal with Hs : streamOK _ _ ?s |- _ => pose proof (streamOK_follows _ _ _ _ Hs H); clear Hs; try clear H end.

Ltac positive := match goal with H : streamOK _ _ ?s |- _ => assert (0 < st_consumed s) by (apply (proj2 H); reflexivity); cbn [numberOfCharactersConsumed stream_source]; lia end.

(** One step of a case. *)
Ltac recorded_step values :=
  match goal with
  | |- post (bind _ _) _ _ _ => apply post_bind
  | |- post (if ?b then _ else _) _ _ _ => destruct b eqn:?
  | |- post (match ?b with _ => _ end) _ _ _ => destruct b eqn:?
  | |- post (let _ := _ in _) _ _ _ => cbv zeta
  | |- post get _ _ _ => apply post_get
  | |- post (modify _) _ _ _ => apply post_modify
  | |- post (ask _) _ _ _ => apply post_ask
  | |- post parseError _ _ _ => apply post_ret
  | |- post (assert_ _) _ _ _ => apply post_assert; intros ?; try done
  | |- post (tokenAt _ _) _ _ _ => unfold tokenAt
  | |- post (startAttribute _) _ _ _ => unfold startAttribute
  | |- post (token addNewAttribute) _ _ _ => eapply post_addNewAttribute; [eassumption|intros ? ?]
  | |- post (token (beginAttributeName _)) _ _ _ => eapply post_beginAttributeName; [eassumption|intros ? ?]
  | |- post (token (endAttributeName _)) _ _ _ => eapply post_endAttributeName; [positive|eassumption|intros ? ?]
  | |- post (token (beginAttributeValue _)) _ _ _ => eapply post_beginAttributeValue; [positive|eassumption|intros ? ?]
  | |- post (token (endAttributeValue _)) _ _ _ => eapply post_endAttributeValue; [positive|eassumption|intros ? ?]
  | |- post (token (appendToAttributeName _)) _ _ _ => eapply post_appendToAttributeName; [eassumption|intros ? ?]
  | |- post (token (appendToAttributeValue _)) _ _ _ => eapply post_appendToAttributeValue; [eassumption|intros ? ?]
  | |- post (appendToAttributeValues _) _ _ _ => eapply post_appendDecoded; [eassumption|eassumption|intros ? ?]
  | |- post (token (beginStartTag _)) _ _ _ => eapply (post_newTag _ _ Settled); [new_tag|eassumption|intros ? ?]
  | |- post (token (beginEndTag_char _)) _ _ _ => eapply (post_newTag _ _ Settled); [new_tag|eassumption|intros ? ?]
  | |- post (bufferCharacter _) _ _ _ => eapply post_buffer; [eassumption|intros ? ?]
  | |- post (bufferCharacters _) _ _ _ => eapply post_decoded; [eassumption|eassumption|intros ? ?]
  | |- post (appendToComments _) _ _ _ => eapply post_comments; [eassumption|intros ? ?]
  | |- post (token _) _ _ _ => eapply post_same; [plain_function|eassumption|intros ? ?]
  | |- post (appendToTemporary _) _ _ _ => apply post_modify
  | |- post (addToPossibleEndTag _) _ _ _ => unfold addToPossibleEndTag
  | |- post (startEndTag _) _ _ _ => unfold startEndTag
  | |- post (endTagOpen _ _ _) _ _ _ => unfold endTagOpen
  | |- post (endTagName _ _ _) _ _ _ => unfold endTagName
  | |- post (notAnEndTag _) _ _ _ => unfold notAnEndTag
  | |- post processEntity _ _ _ => unfold processEntity
  | |- post backToAttributeValue _ _ _ => unfold backToAttributeValue
  | |- post quirksResume _ _ _ => unfold quirksResume
  | |- post quirksEndOfFile _ _ _ => unfold quirksEndOfFile
  | |- post quirksBogus _ _ _ => unfold quirksBogus
  | |- post (openPublicIdentifier _) _ _ _ => unfold openPublicIdentifier
  | |- post (openSystemIdentifier _) _ _ _ => unfold openSystemIdentifier
  | |- post (consumeEntity _) _ _ _ => apply (post_entity _ values); [stream_fact|let F := fresh in intros ? ? F ?; follow F]
  | |- post haveBuffered _ _ _ => eapply post_haveBuffered_recorded; [reflexivity|eassumption|eassumption|stream_fact]
  | |- post emitEndOfFile _ _ _ => apply post_eof; [eassumption|match goal with H : m_state _ = _ |- _ => rewrite H end; stream_fact]
  | |- post (emitAndResumeIn DataState) _ _ _ => apply post_emitResume; [eassumption|stream_fact]
  | |- post (emitAndReconsumeIn DataState) _ _ _ => apply post_emitReconsume; [eassumption|stream_fact]
  | |- post (flushAndAdvanceTo _) _ _ _ => apply post_flushAdvance; [reflexivity|eassumption|stream_fact|eassumption]
  | |- post (flushEmitAndResumeIn _) _ _ _ => apply post_flushEmit; [eassumption|stream_fact|eassumption]
  | |- post (lookAheadFor _ _ _ _) _ _ _ => eapply post_lookAhead; [eassumption|eassumption|eassumption|let F := fresh in intros ? F; follow F|let F := fresh in intros ? F; follow F]
  | |- post (advanceTo _) _ _ _ => apply post_ret; split; [eassumption|stream_fact]
  | |- post (reconsumeIn _) _ _ _ => apply post_ret; split; [eassumption|stream_fact]
  | |- post (switchTo _) _ _ _ => apply post_ret; split; [eassumption|stream_fact]
  | |- post (ret (RETURN true)) _ _ _ => apply post_ret; split; [eassumption|match goal with H : m_state _ = _ |- _ => rewrite H end; stream_fact]
  | |- post (ret _) _ _ _ => apply post_ret
  end; cbv beta.

Section RecordedCall.
Context `{FoldCase} `{HE : EntityTable} `{HOK : !EntityTableOK}.
Variable onlyNamed : Prop.
Hypothesis values : onlyNamed -> Forall (fun e => 0 ∉ entryValues e) entries.

Lemma dispatch_recorded st cc t s :
  m_state t = st -> tokenOK onlyNamed (phaseOf st) (m_token t) -> streamOK onlyNamed st s -> isEmpty s = false ->
  post (dispatch st cc) (recorded onlyNamed) t s.
Proof.
  intros Hst Hk Hs He. destruct st; cbn [phaseOf] in Hk; cbn [dispatch]; unfold_case; repeat recorded_step values.
Qed.

(** *** The whole call *)

Lemma processNext_follows fuel skip p s more p' s' :
  processNextInputCharacter fuel skip p s = Some (more, p', s') -> (length (st_pushed s) <= 2)%nat -> follows s s'.
Proof.
  revert p s; induction fuel as [|fuel IH]; intros p s E Hp;
    cbn [processNextInputCharacter CharSource.isEmpty CharSource.currentChar CharSource.advance
         CharSource.advancePastNewlineAndUpdateLineNumber stream_source] in E;
    (destruct (_ =? _) in E; [|done]);
    pose proof (follows_refl s Hp) as H0; pose proof (follows_advance s Hp) as H1;
    pose proof (follows_trans _ _ _ H1 (follows_advance (advance s) ltac:(apply H1))) as H2;
    destruct ((m_nextInputCharacter p =? 10) && m_skipNextNewLine p); simpl andb in E; cbv zeta in E;
    repeat (case_match; simplify_eq; try done);
    (eapply follows_trans; [|eapply IH; [exact E|]]; [done|]; apply H1 || apply H2).
Qed.

Lemma peek_follows skip p s more p' s' :
  peek skip p s = Some (more, p', s') -> (length (st_pushed s) <= 2)%nat -> follows s s'.
Proof. unfold peek. case_match; [intros [= <- <- <-]; apply follows_refl|apply processNext_follows]. Qed.

Lemma advance_recorded st skip p s more p' s' :
  preprocessor_advance skip p s = Some (more, p', s') -> sourceOK onlyNamed s -> isEmpty s = false -> streamOK onlyNamed st s'.
Proof.
  unfold preprocessor_advance. intros E Hs He. pose proof (streamOK_step onlyNamed st s Hs He) as Ha.
  case_match; [by simplify_eq|]. eapply streamOK_follows; [exact Ha|]. eapply peek_follows; [exact E|]. apply Ha.
Qed.

Definition recordedRet (b : bool) (t : HTMLTokenizer) (s : Stream) : Prop := recorded onlyNamed (RETURN b) t s.

Lemma continue_recorded k more t s :
  tokenOK onlyNamed (phaseOf (m_state t)) (m_token t) -> streamOK onlyNamed (m_state t) s ->
  (more = true -> post (k (m_nextInputCharacter (m_inputStreamPreprocessor t))) recordedRet t s) ->
  post (continueWith k more) recordedRet t s.
Proof.
  intros Hk Hs Hm. apply post_bind, post_get. destruct more; [by apply Hm|]. apply post_ret.
  unfold recordedRet, haveBufferedCharacterToken. destruct (hasType Character (m_token t)) eqn:E; [|done].
  split; [|done]. eapply tokenOK_text; [by apply text_noTag|done].
Qed.

Lemma runStates_recorded fuel : forall cc t s, runOK cc t -> isEmpty s = false ->
  tokenOK onlyNamed (phaseOf (m_state t)) (m_token t) -> streamOK onlyNamed (m_state t) s ->
  post (runStates fuel cc) recordedRet t s.
Proof.
  induction fuel as [|fuel IH]; intros cc t s Hr He Hk Hs; [done|]. cbn [runStates]. apply post_bind, post_get, post_bind.
  eapply post_mono; [exact (post_and _ _ _ _ _ (wp_post _ _ _ _ (runOK_dispatch cc t s Hr He))
    (dispatch_recorded (m_state t) cc t s eq_refl Hk Hs He))|]. intros c t' s' [Hstep Hrec]. destruct c as [st|st|st|b].
  - destruct Hstep as (Hfit & _ & He'), Hrec as [Hk' Hs']. apply post_bind, post_modify, post_bind. unfold post at 1, advanceInput.
    destruct (preprocessor_advance _ _ s') as [[[more p] s2]|] eqn:Ea; [|done].
    pose proof (advance_recorded st _ _ _ _ _ _ Ea Hs' He'). pose proof (advance_facts _ _ _ _ _ _ Ea He') as [_ Hm].
    apply continue_recorded; [done|done|]. intros ->. apply IH; [by left|by apply Hm|done|done].
  - destruct Hstep as (Hfit & _ & He' & _), Hrec as [Hk' Hs']. apply post_bind, post_modify, IH; [|done|done|done].
    destruct Hfit as [?|(-> & -> & ?)]; [by left|by right].
  - destruct Hstep as (Hfit & _), Hrec as [Hk' Hs']. apply post_bind, post_modify, post_bind, post_bind, post_ask.
    cbn [CharSource.isEmpty stream_source]. destruct (isEmpty s') eqn:He'; [by apply post_ret, continue_recorded|].
    unfold post at 1, peekInput. destruct (peek _ _ s') as [[[more p] s2]|] eqn:Ea; [|done].
    pose proof (peek_follows _ _ _ _ _ _ Ea (proj1 (proj2 (proj1 Hs')))) as Hf. pose proof (peek_facts _ _ _ _ _ _ Ea He') as [_ Hm].
    pose proof (streamOK_follows _ _ _ _ Hs' Hf). apply continue_recorded; [done|done|]. intros ->.
    apply IH; [by left|by apply Hm|done|done].
  - by apply post_ret.
Qed.

Lemma run_recorded t s :
  fits (m_state t) t = true -> tokenOK onlyNamed (phaseOf (m_state t)) (m_token t) -> streamOK onlyNamed (m_state t) s ->
  post (bind (ask tokenizerFuel) (fun fuel => bind peekUnlessEmpty (fun more => continueWith (runStates fuel) more))) recordedRet t s.
Proof.
  intros Hf Hk Hs. apply post_bind, post_ask, post_bind, post_bind, post_ask. cbn [CharSource.isEmpty stream_source].
  destruct (isEmpty s) eqn:He; [by apply post_ret, continue_recorded|].
  unfold post at 1, peekInput. destruct (peek _ _ s) as [[[more p] s2]|] eqn:Ea; [|done].
  pose proof (peek_follows _ _ _ _ _ _ Ea (proj1 (proj2 (proj1 Hs)))) as Hfo. pose proof (peek_facts _ _ _ _ _ _ Ea He) as [_ Hm].
  pose proof (streamOK_follows _ _ _ _ Hs Hfo). apply continue_recorded; [done|done|]. intros ->.
  apply runStates_recorded; [by left|by apply Hm|done|done].
Qed.

Lemma nextToken_recorded t s :
  tokenizerOK t = true -> tokenOK onlyNamed (phaseOf (m_state t)) (m_token t) -> streamOK onlyNamed (m_state t) s ->
  post nextToken recordedRet t s.
Proof.
  intros Hok Hk Hs. apply andb_true_iff in Hok as [Hchar Hok]. apply post_bind, post_bind, post_get.
  fold (pendingEndTag t). destruct (pendingEndTag t) eqn:Ep.
  - apply andb_true_iff in Hok as [Hu Hst]. apply post_bind. unfold post at 1, token.
    destruct (beginEndTag _ _) as [k|] eqn:Eb; [|done]. apply post_bind, post_modify, post_ret.
    pose proof (fun ph => newTag_ok onlyNamed _ ph _ _ (newTag_beginEndTag _ _ _ Eb) Hk) as Hk'.
    assert (Ht : m_type k = EndTag) by (unfold beginEndTag in Eb; rewrite Hu in Eb; by injection Eb as <-).
    destruct (bool_decide_reflect (m_state t = DataState)); [apply post_ret; by split|].
    apply run_recorded; [|done|done]. unfold fits, tokenFits, isTag. cbn. rewrite Ht. by destruct (m_state t).
  - by apply post_ret, run_recorded.
Qed.

(** *** A whole document *)

Definition attributesSet (k : HTMLToken) : Prop := isTag k = true -> Forall (fun a => rangesSet a = true) (m_attributes k).

Lemma tokenOK_set k : tokenOK onlyNamed Settled k -> attributesSet k.
Proof.
  intros (_ & _ & T) Ht. apply Forall_lookup. intros j a Ha. specialize (T Ht j a Ha).
  by destruct (bool_decide (m_currentAttribute k = Some j)).
Qed.

Definition scanInv (t : HTMLTokenizer) (s : Stream) : Prop :=
  tokenizerOK t = true /\ tokenOK onlyNamed (phaseOf (m_state t)) (m_token t) /\ streamOK onlyNamed (m_state t) s.

Lemma afterToken_recorded t s :
  returnOK true t = true -> recordedRet true t s -> scanInv (afterToken t) s.
Proof.
  intros Hr [(T1 & T2 & T3) Hs]. split; [by apply afterToken_ok|]. unfold afterToken.
  destruct (hasType StartTag (m_token t)); [|by split_and!].
  destruct (updateStateFor_fields (m_data (m_token t)) t) as (E1 & E2 & [E3|E3]); [rewrite E3; by split_and!|].
  cbn [m_state m_token set_token]. rewrite E1. split; [by split_and!|]. split; [apply Hs|].
  simpl in E3. destruct E3 as [<-|[<-|[<-|[<-|[]]]]]; done.
Qed.

Lemma scanLoop_recorded fuel t s tokens t' s' :
  scanInv t s -> scanLoop fuel t s = Some (tokens, t', s') -> scanInv t' s' /\ Forall attributesSet tokens.
Proof.
  revert t s tokens; induction fuel as [|fuel IH]; intros t s tokens (Hok & Hk & Hs) E; [done|]. simpl in E.
  pose proof (nextToken_ok t s Hok) as Hn. pose proof (nextToken_recorded t s Hok Hk Hs) as Hp. unfold wp in Hn. unfold post in Hp.
  destruct (nextToken t s) as [[[[] t1] s1]|]; [| |done].
  - destruct (scanLoop fuel (afterToken t1) s1) as [[[tk t2] s2]|] eqn:El; [|done]. injection E as <- <- <-.
    destruct Hn as [Hr _]. apply IH in El as [H1 H2]; [|by apply afterToken_recorded]. split; [done|].
    constructor; [|done]. apply tokenOK_set, Hp.
  - injection E as <- <- <-. split; [|constructor]. destruct Hn as [Hr _], Hp as [Hk' Hs']. split; [|done].
    unfold returnOK in Hr. by apply andb_true_iff in Hr as [Hr _].
Qed.

Lemma append_recorded t s l : (onlyNamed -> 35 ∉ l) -> scanInv t s -> scanInv t (append l s).
Proof.
  intros Hl (Hok & Hk & (H1 & H2 & H3) & H4). split_and!; [done|done|]. split; [|done]. split_and!; [done|done|].
  intros Hn. rewrite chars_append, elem_of_app. intros [Hin|Hin]; [by apply H3|by apply Hl].
Qed.

Lemma scanChunks_recorded chunks t s tokens t' s' :
  (onlyNamed -> Forall (fun c => 35 ∉ snd c) chunks) -> scanInv t s ->
  scanChunks chunks t s = Some (tokens, t', s') -> scanInv t' s' /\ Forall attributesSet tokens.
Proof.
  revert t s tokens; induction chunks as [|[b l] chunks IH]; intros t s tokens Hc Hi E; simpl in E.
  { injection E as <- <- <-. by split. }
  destruct (scan t (append l s)) as [[[tk t1] s1]|] eqn:E1; [|done].
  destruct (scanChunks chunks t1 s1) as [[[tk' t2] s2]|] eqn:E2; [|done]. injection E as <- <- <-.
  apply scanLoop_recorded in E1 as [I1 F1]; [|apply append_recorded; [|done]; intros Hn; specialize (Hc Hn); by inversion Hc].
  apply IH in E2 as [I2 F2]; [|intros Hn; specialize (Hc Hn); by inversion Hc|done]. split; [done|]. by apply Forall_app.
Qed.

Lemma scanDocument_recorded chunks t s tokens t' s' :
  (onlyNamed -> Forall (fun c => 35 ∉ snd c) chunks) -> scanInv t s ->
  scanDocument chunks t s = Some (tokens, t', s') -> logOK onlyNamed (m_token t') /\ Forall attributesSet tokens.
Proof.
  unfold scanDocument. intros Hc Hi E. destruct (scanChunks chunks t s) as [[[tk t1] s1]|] eqn:E1; [|done].
  destruct (scan t1 (markEndOfFile s1)) as [[[tk' t2] s2]|] eqn:E2; [|done]. injection E as <- <- <-.
  apply scanChunks_recorded in E1 as [I1 F1]; [|done|done].
  apply scanLoop_recorded in E2 as [I2 F2].
  - split; [apply I2|]. by apply Forall_app.
  - destruct (append_recorded t1 s1 [kEndOfFileMarker]) as (H1 & H2 & H3); [|done|by split_and!].
    intros _ Hin. apply list_elem_of_singleton in Hin. done.
Qed.

Lemma newTokenizer_recorded options : scanInv (newTokenizer options) (Stream.of_chars []).
Proof.
  split_and!; [done| |].
  - split_and!; [done|by split|done].
  - split; [|done]. split_and!; simpl; [lia|lia|]. intros _. apply not_elem_of_nil.
Qed.

End RecordedCall.

(** The code units of a string are not negative. *)
Definition codeUnits (l : list Z) : Prop := Forall (fun c => 0 <= c) l.

Section Props.
Context `{FoldCase} `{HE : EntityTable} `{HOK : !EntityTableOK}.

Lemma newTokenizer_ok options : tokenizerOK (newTokenizer options) = true.
Proof. reflexivity. Qed.

Lemma related_empty : related emptySegmented (Stream.of_chars []).
Proof. split; [split; [apply wf_emptySegmented|done]|]. split; [simpl; lia|constructor]. Qed.

(** C8: tokenizing a document of any characters, delivered in any chunks and ended by the
    end-of-file marker, follows no null pointer, does not loop and fails no assertion on the
    type of the token, on its characters, on the buffered end tag or on the next input character:
    it returns a list of tokens, all of them of a definite type, whose number is linear
    in the size of the document.  The offsets that are asserted when a value is appended to, and
    when the tree builder takes over the attributes of a tag, are all set.  The one assertion
    that can fail is that no character of a character reference is NUL; it holds as well
    when the document has no number sign and no name in the table stands for NUL. *)
Theorem scan_document_total (options : HTMLParserOptions) (chunks : list (bool * list Z))
  (Hcodes : Forall (fun c => codeUnits (snd c)) chunks) :
  exists tokens t s,
    scanDocument chunks (newTokenizer options) emptySegmented = Some (tokens, t, s) /\
    (length tokens <= 4 * totalLength chunks + 4)%nat /\
    Forall (fun k => isUninitialized k = false) tokens /\
    Forall attributesSet tokens /\
    Forall (fun a => a = NullFromReference) (m_failedAssertions (m_token t)) /\
    (Forall (fun e => 0 ∉ entryValues e) entries -> Forall (fun c => 35 ∉ snd c) chunks ->
     m_failedAssertions (m_token t) = []).
Proof.
  pose proof (scanDocument_sim chunks (newTokenizer options) _ _ related_empty Hcodes) as Hs.
  destruct (scanDocument_ok chunks (newTokenizer options) (Stream.of_chars [])
              (newTokenizer_ok options)) as (tokens & t & a & E & _ & Hl & Hf).
  set (named := Forall (fun e => 0 ∉ entryValues e) entries /\ Forall (fun c : bool * list Z => 35 ∉ snd c) chunks).
  destruct (scanDocument_recorded named (@proj1 _ _) chunks _ _ _ _ _ (@proj2 _ _)
              (newTokenizer_recorded named options) E) as [[L1 L2] Ha].
  rewrite E in Hs. unfold scan_sim in Hs.
  destruct (scanDocument chunks (newTokenizer options) emptySegmented) as [[[k t'] s]|]; [|done].
  destruct Hs as (-> & -> & _). eexists _, _, _; split; [done|]. split; [|split_and!; try done].
  - replace (measure _ _) with 0%nat in Hl by done. lia.
  - intros H1 H2. apply L2. by split.
Qed.

(** C9: from a state of the invariant, one call of [nextToken]
    returns; the invariant holds for the next call; a call that returns a token
    has given it a type and strictly decreases the measure of the remaining
    work, and one that does not never increases it. *)
Theorem next_token_safe (t : HTMLTokenizer) (s : SegmentedString)
  (Hok : tokenizerOK t = true) (Hwf : WellFormed s) (Hus : usable (abs s)) :
  exists b t' s',
    nextToken t s = Some (b, t', s') /\ WellFormed s' /\ usable (abs s') /\
    tokenizerOK (afterCall b t') = true /\
    if b then isUninitialized (m_token t') = false /\ (measure t' (abs s') < measure t (abs s))%nat
    else (measure t' (abs s') <= measure t (abs s))%nat.
Proof.
  pose proof (sim_nextToken t s (abs s) (conj (conj Hwf eq_refl) Hus)) as Hs.
  pose proof (nextToken_ok t (abs s) Hok) as Hn. unfold wp in Hn.
  destruct (nextToken t (abs s)) as [[[b t'] a]|]; [|done].
  destruct (nextToken t s) as [[[b' t''] s']|]; [|done].
  destruct Hs as (-> & -> & [[Hwf' <-] Hus']), Hn as [Hr Hm]. unfold returnOK in Hr.
  apply andb_true_iff in Hr as [Hr1 Hr2]. eexists _, _, _. repeat (split; [done|]).
  destruct b; [|done]. simpl in Hr2. apply andb_true_iff in Hr2 as [Hr2 _].
  split; [by apply negb_true_iff in Hr2|done].
Qed.

(** The tokenizer running on a [SegmentedString] computes
    exactly what it computes on the plain sequence of characters the
    [SegmentedString] stands for: same verdict, same token, same state, and the
    remaining source again stands for the remaining characters. *)
Theorem next_token_refines (t : HTMLTokenizer) (s : SegmentedString)
  (Hwf : WellFormed s) (Hus : usable (abs s)) :
  option_map (fun '(b, t', s') => (b, t', abs s')) (nextToken t s) = nextToken t (abs s).
Proof.
  pose proof (sim_nextToken t s (abs s) (conj (conj Hwf eq_refl) Hus)) as Hs.
  destruct (nextToken t s) as [[[b t'] s']|], (nextToken t (abs s)) as [[[b' t''] a]|]; try done.
  by destruct Hs as (-> & -> & [[_ <-] _]).
Qed.

(** C10: the same for a whole document in chunks. *)
Theorem scan_document_refines (chunks : list (bool * list Z)) (t : HTMLTokenizer)
  (s : SegmentedString) (Hwf : WellFormed s) (Hus : usable (abs s))
  (Hcodes : Forall (fun c => codeUnits (snd c)) chunks) :
  option_map (fun '(k, t', s') => (k, t', abs s')) (scanDocument chunks t s)
  = scanDocument chunks t (abs s).
Proof.
  pose proof (scanDocument_sim chunks t s (abs s) (conj (conj Hwf eq_refl) Hus) Hcodes) as Hs.
  unfold scan_sim in Hs.
  destruct (scanDocument chunks t s) as [[[k t'] s']|],
    (scanDocument chunks t (abs s)) as [[[k' t''] a]|]; try done.
  by destruct Hs as (-> & -> & [[_ <-] _]).
Qed.

End Props.

(** ** Witnesses *)

Definition exampleChunks : list (bool * list Z) := [(true, lit "<p id=x&am"); (false, lit "p;>a&amp;</p>")].

Lemma exampleChunks_codes : Forall (fun c => codeUnits (snd c)) exampleChunks.
Proof. repeat constructor; simpl; lia. Qed.

Definition exampleSource : SegmentedString := ofString true (lit "<p>a</p>").

Lemma exampleSource_ok : WellFormed exampleSource /\ usable (abs exampleSource).
Proof.
  destruct (ofString_ok true (lit "<p>a</p>")) as [H1 H2]. split; [exact H1|].
  unfold exampleSource. rewrite H2. split; [simpl; lia|]. unfold chars. simpl. repeat constructor; lia.
Qed.

Lemma scan_document_total_witness :
  exists tokens t s,
    @scanDocument _ (@segmented_source asciiFold) _ exampleTable exampleChunks
      (newTokenizer exampleOptions) emptySegmented = Some (tokens, t, s) /\
    (length tokens <= 96)%nat /\ Forall (fun k => isUninitialized k = false) tokens /\
    m_failedAssertions (m_token t) = [].
Proof.
  destruct (@scan_document_total asciiFold exampleTable exampleTable_ok exampleOptions exampleChunks
              exampleChunks_codes) as (tokens & t & s & E & Hl & Hf & _ & _ & Hn).
  exists tokens, t, s. split; [exact E|]. split; [eapply Nat.le_trans; [exact Hl|]; vm_compute; lia|].
  split; [exact Hf|]. apply Hn; apply (bool_decide_unpack _); vm_compute; exact I.
Defined.

Lemma next_token_safe_witness :
  exists t' s',
    @nextToken _ (@segmented_source asciiFold) exampleTable (newTokenizer exampleOptions) exampleSource
      = Some (true, t', s') /\ m_type (m_token t') = StartTag /\ WellFormed s'.
Proof.
  destruct (@next_token_safe asciiFold exampleTable exampleTable_ok (newTokenizer exampleOptions)
              exampleSource (newTokenizer_ok _) (proj1 exampleSource_ok) (proj2 exampleSource_ok))
    as (b & t' & s' & E & Hwf & _).
  vm_compute in E. injection E as <- <- <-. eexists _, _. split; [vm_compute; reflexivity|].
  split; [reflexivity|exact Hwf].
Defined.

Lemma next_token_refines_witness :
  option_map (fun '(b, t', s') => (b, t', abs s'))
    (@nextToken _ (@segmented_source asciiFold) exampleTable (newTokenizer exampleOptions) exampleSource)
  = @nextToken _ (@stream_source asciiFold) exampleTable (newTokenizer exampleOptions) (abs exampleSource).
Proof.
  exact (@next_token_refines asciiFold exampleTable exampleTable_ok (newTokenizer exampleOptions)
           exampleSource (proj1 exampleSource_ok) (proj2 exampleSource_ok)).
Defined.

Lemma scan_document_refines_witness :
  option_map (fun '(k, t', s') => (k, t', abs s'))
    (@scanDocument _ (@segmented_source asciiFold) _ exampleTable exampleChunks
       (newTokenizer exampleOptions) exampleSource)
  = @scanDocument _ (@stream_source asciiFold) _ exampleTable exampleChunks
      (newTokenizer exampleOptions) (abs exampleSource).
Proof.
  exact (@scan_document_refines asciiFold exampleTable exampleTable_ok exampleChunks
           (newTokenizer exampleOptions) exampleSource (proj1 exampleSource_ok)
           (proj2 exampleSource_ok) exampleChunks_codes).
Defined.

(** ** An input that never reaches its end *)

(** For a document that ends in the middle of the keyword
    DOCTYPE after the markup declaration opening, [nextToken] waits for
    characters that can never come: the bogus comment of the HTML specification
    is not produced, and neither is the end-of-file token. *)
Theorem stuck_markup_declaration :
  tokensOf [lit "<!d"] = Some [] /\
  tokensOf [lit "<!x"] = Some [(Comment, lit "x", []); (EndOfFile, [], [])].
Proof. split; vm_compute; reflexivity. Qed.

(** ** A character that is none *)

(** The tokens of a document and the assertions that failed. *)
Definition scanned (document : list Z) : option (list (list Z) * list FailedAssertion) :=
  let fold := asciiFold in
  let table := exampleTable in
  match scanDocument [(true, document)] (newTokenizer exampleOptions) (Stream.of_chars []) with
  | Some (l, t, _) => Some (map m_data l, m_failedAssertions (m_token t))
  | None => None
  end.

(** The number of a reference may overflow to one whose first code unit is NUL: in the text of
    a document [bufferCharacter] is then given the end-of-file marker, which it asserts
    it is not, and in the value of an attribute [appendToAttributeValue] is. *)
Theorem null_from_reference :
  scanned (lit "&#xFCA10000;") = Some ([[0; 0xDC00]; []], [NullFromReference]) /\
  scanned (lit "<a b=&#xFCA10000;>") = Some ([lit "a"; []], [NullFromReference]).
Proof. split; vm_compute; reflexivity. Qed.
