(* ===== verification/CSSPreloadScanner.v ===== *)
(** * [WebCore/html/parser/CSSPreloadScanner]

    The scanner that looks for [@import] rules in the text of a style element.
    The text arrives in the chunks the HTML tokenizer makes of it.  [None] is
    the [ASSERT_NOT_REACHED] of [tokenize], or a character read outside the
    buffer in [parseCSSStringOrURL]. *)
From S2P Require Import Prelude CharSource.
From stdpp Require Import base list numbers option.
From Stdlib Require Import ZArith Lia.
#[local] Open Scope Z_scope.

(** [isHTMLSpace] of [HTMLParserIdioms.h]. *)
Definition isHTMLSpace (c : Z) : bool :=
  (c <=? 32) && ((c =? 32) || (c =? 10) || (c =? 9) || (c =? 13) || (c =? 12)).

Module CSSPreloadScanner.

(** [CSSPreloadScanner::State]. *)
Inductive State : Type :=
| Initial
| MaybeComment
| Comment
| MaybeCommentEnd
| RuleStart
| Rule
| AfterRule
| RuleValue
| AfterRuleValue
| DoneParsingImportRules.

#[export] Instance State_eq_dec : EqDecision State.
Proof. solve_decision. Defined.

Record Scanner : Type := mkScanner {
  m_state : State;
  m_rule : list Z;
  m_ruleValue : list Z;
}.

(** The constructor and [reset()]. *)
Definition newScanner : Scanner := mkScanner Initial [] [].

Definition set_state (st : State) (x : Scanner) : Scanner :=
  mkScanner st (m_rule x) (m_ruleValue x).

(** ** [parseCSSStringOrURL]

    The string is kept as an offset and a length into the characters. *)

(** [while (reducedLength && isHTMLSpace(characters[offset]))]. *)
Fixpoint skipLeading (characters : list Z) (offset reducedLength : nat) : option (nat * nat) :=
  match reducedLength with
  | O => Some (offset, O)
  | S n =>
      match characters !! offset with
      | None => None
      | Some c => if isHTMLSpace c then skipLeading characters (S offset) n
                  else Some (offset, S n)
      end
  end.

(** [while (reducedLength && isHTMLSpace(characters[offset + reducedLength - 1]))]. *)
Fixpoint skipTrailing (characters : list Z) (offset reducedLength : nat) : option nat :=
  match reducedLength with
  | O => Some O
  | S n =>
      match characters !! (offset + n)%nat with
      | None => None
      | Some c => if isHTMLSpace c then skipTrailing characters offset n else Some (S n)
      end
  end.

Definition skipBoth (characters : list Z) (offset reducedLength : nat) : option (nat * nat) :=
  match skipLeading characters offset reducedLength with
  | None => None
  | Some (offset, reducedLength) =>
      match skipTrailing characters offset reducedLength with
      | None => None
      | Some reducedLength => Some (offset, reducedLength)
      end
  end.

(** Is the character at [i] one of [l]?  [None] out of range. *)
Definition charIn (characters : list Z) (i : nat) (l : list Z) : option bool :=
  match characters !! i with
  | None => None
  | Some c => Some (existsb (Z.eqb c) l)
  end.

(** [a && b], reading [b] only when [a] holds. *)
Definition andThen (a b : option bool) : option bool :=
  match a with
  | Some true => b
  | _ => a
  end.

(** [url( ... )] around the string. *)
Definition hasURLFunction (characters : list Z) (offset reducedLength : nat) : option bool :=
  andThen (Some (5 <=? reducedLength)%nat)
  (andThen (charIn characters offset ["u"%uc; "U"%uc])
  (andThen (charIn characters (offset + 1) ["r"%uc; "R"%uc])
  (andThen (charIn characters (offset + 2) ["l"%uc; "L"%uc])
  (andThen (charIn characters (offset + 3) ["("%uc])
           (charIn characters (offset + reducedLength - 1) [")"%uc]))))).

(** Whether the string has no matching quotes around it, so that [String()] is
    returned. *)
Definition notQuoted (characters : list Z) (offset reducedLength : nat) : option bool :=
  if (reducedLength <? 2)%nat then Some true
  else
    match characters !! offset, characters !! (offset + reducedLength - 1)%nat with
    | Some c, Some d => Some (negb (c =? d) || negb ((c =? 39) || (c =? dquote)))
    | _, _ => None
    end.

(** A null [String] is the empty list; the caller only asks [isEmpty()]. *)
Definition parseCSSStringOrURL (characters : list Z) : option (list Z) :=
  match skipBoth characters 0 (length characters) with
  | None => None
  | Some (offset, reducedLength) =>
      match hasURLFunction characters offset reducedLength with
      | None => None
      | Some isURL =>
          let offset := if isURL then (offset + 4)%nat else offset in
          let reducedLength := if isURL then (reducedLength - 5)%nat else reducedLength in
          match skipBoth characters offset reducedLength with
          | None => None
          | Some (offset, reducedLength) =>
              match notQuoted characters offset reducedLength with
              | None => None
              | Some true => Some []
              | Some false =>
                  match skipBoth characters (offset + 1) (reducedLength - 2) with
                  | None => None
                  | Some (offset, reducedLength) =>
                      Some (take reducedLength (drop offset characters))
                  end
              end
          end
      end
  end.

(** ** [tokenize] and [scan] *)

Section Scan.
Context `{FoldCase}.

Definition ruleEqualIgnoringCase (rule reference : list Z) : bool :=
  (length rule =? length reference)%nat && equal_chars false rule reference.

(** [emitRule]: the URL of the preload request it appends, if any. *)
Definition emitRule (x : Scanner) : option (list (list Z) * Scanner) :=
  if ruleEqualIgnoringCase (m_rule x) (lit "import") then
    match parseCSSStringOrURL (m_ruleValue x) with
    | None => None
    | Some url => Some (if lists_eqb url [] then [] else [url], mkScanner Initial [] [])
    end
  else if ruleEqualIgnoringCase (m_rule x) (lit "charset") then Some ([], mkScanner Initial [] [])
  else Some ([], mkScanner DoneParsingImportRules [] []).

Definition isASCIIAlpha (c : Z) : bool :=
  ((65 <=? c) && (c <=? 90)) || ((97 <=? c) && (c <=? 122)).

Definition tokenize (c : Z) (x : Scanner) : option (list (list Z) * Scanner) :=
  let stay := Some ([], x) in
  let goto st := Some ([], set_state st x) in
  match m_state x with
  | Initial =>
      if isHTMLSpace c then stay
      else if c =? "@"%uc then goto RuleStart
      else if c =? "/"%uc then goto MaybeComment
      else goto DoneParsingImportRules
  | MaybeComment => if c =? "*"%uc then goto Comment else goto Initial
  | Comment => if c =? "*"%uc then goto MaybeCommentEnd else stay
  | MaybeCommentEnd =>
      if c =? "*"%uc then stay
      else if c =? "/"%uc then goto Initial
      else goto Comment
  | RuleStart =>
      if isASCIIAlpha c then Some ([], mkScanner Rule [c] [])
      else goto Initial
  | Rule =>
      if isHTMLSpace c then goto AfterRule
      else if c =? ";"%uc then goto Initial
      else Some ([], mkScanner Rule (m_rule x ++ [c]) (m_ruleValue x))
  | AfterRule =>
      if isHTMLSpace c then stay
      else if c =? ";"%uc then goto Initial
      else if c =? "{"%uc then goto DoneParsingImportRules
      else Some ([], mkScanner RuleValue (m_rule x) (m_ruleValue x ++ [c]))
  | RuleValue =>
      if isHTMLSpace c then goto AfterRuleValue
      else if c =? ";"%uc then emitRule x
      else Some ([], mkScanner RuleValue (m_rule x) (m_ruleValue x ++ [c]))
  | AfterRuleValue =>
      if isHTMLSpace c then stay
      else if c =? ";"%uc then emitRule x
      else if c =? "{"%uc then goto DoneParsingImportRules
      else goto Initial
  | DoneParsingImportRules => None
  end.

(** [scan]: the URLs that were requested, in order. *)
Fixpoint scan (data : list Z) (x : Scanner) : option (list (list Z) * Scanner) :=
  match data with
  | [] => Some ([], x)
  | c :: data =>
      if bool_decide (m_state x = DoneParsingImportRules) then Some ([], x)
      else
        match tokenize c x with
        | None => None
        | Some (urls, x) =>
            match scan data x with
            | None => None
            | Some (urls', x) => Some (urls ++ urls', x)
            end
        end
  end.

End Scan.

(** ** Specification of [parseCSSStringOrURL] on lists *)

Fixpoint stripLeading (l : list Z) : list Z :=
  match l with
  | c :: l' => if isHTMLSpace c then stripLeading l' else l
  | [] => []
  end.

Definition strip (l : list Z) : list Z := reverse (stripLeading (reverse (stripLeading l))).

(** The argument of [url( ... )], or the text itself. *)
Definition unwrapURL (l : list Z) : list Z :=
  match l with
  | u :: r :: l' :: p :: rest =>
      match reverse rest with
      | q :: inner =>
          if ((u =? 117) || (u =? 85)) && ((r =? 114) || (r =? 82)) && ((l' =? 108) || (l' =? 76))
             && (p =? 40) && (q =? 41)
          then reverse inner else l
      | [] => l
      end
  | _ => l
  end.

(** The contents of a quoted string, nothing for any other text. *)
Definition unquote (l : list Z) : list Z :=
  match l with
  | q :: rest =>
      match reverse rest with
      | q' :: inner => if (q =? q') && ((q =? 39) || (q =? dquote)) then reverse inner else []
      | [] => []
      end
  | [] => []
  end.

Definition cssURL (l : list Z) : list Z := strip (unquote (strip (unwrapURL (strip l)))).

(** ** Correctness *)

(** [skipBoth] computes [strip] of the part of the buffer it is given. *)
Lemma skipLeading_spec characters n : forall offset,
  (offset + n <= length characters)%nat ->
  exists offset' n', skipLeading characters offset n = Some (offset', n') /\
    (offset' + n' = offset + n)%nat /\
    take n' (drop offset' characters) = stripLeading (take n (drop offset characters)).
Proof.
  induction n as [|n IH]; intros offset Hn; simpl.
  { eexists _, _. split; [done|]. split; [lia|]. by rewrite !take_0. }
  destruct (lookup_lt_is_Some_2 characters offset) as [c Hc]; [lia|]. rewrite Hc.
  rewrite (drop_S _ _ _ Hc). simpl. destruct (isHTMLSpace c) eqn:E.
  - destruct (IH (S offset)) as (o & n' & E1 & E2 & E3); [lia|]. exists o, n'.
    split; [done|]. split; [lia|]. done.
  - eexists _, _. split; [done|]. split; [lia|]. by rewrite (drop_S _ _ _ Hc).
Qed.

Lemma skipTrailing_spec characters offset n :
  (offset + n <= length characters)%nat ->
  exists n', skipTrailing characters offset n = Some n' /\ (n' <= n)%nat /\
    take n' (drop offset characters)
    = reverse (stripLeading (reverse (take n (drop offset characters)))).
Proof.
  induction n as [|n IH]; intros Hn; simpl.
  { eexists. split; [done|]. split; [lia|]. by rewrite !take_0. }
  destruct (lookup_lt_is_Some_2 characters (offset + n)) as [c Hc]; [lia|]. rewrite Hc.
  assert (Ht : take (S n) (drop offset characters) = take n (drop offset characters) ++ [c]).
  { apply take_S_r. by rewrite lookup_drop. }
  rewrite Ht, reverse_snoc. simpl. destruct (isHTMLSpace c) eqn:E.
  - destruct IH as (n' & E1 & E2 & E3); [lia|]. exists n'. split; [done|]. split; [lia|done].
  - eexists. split; [done|]. split; [lia|].
    by rewrite Ht, <- (reverse_snoc (take n (drop offset characters)) c), reverse_involutive.
Qed.

Lemma skipBoth_spec characters offset n :
  (offset + n <= length characters)%nat ->
  exists offset' n', skipBoth characters offset n = Some (offset', n') /\
    (offset' + n' <= length characters)%nat /\
    take n' (drop offset' characters) = strip (take n (drop offset characters)).
Proof.
  intros Hn. unfold skipBoth, strip.
  destruct (skipLeading_spec characters n offset Hn) as (o & n1 & -> & E1 & E2).
  destruct (skipTrailing_spec characters o n1) as (n2 & -> & E3 & E4); [lia|].
  eexists _, _. split; [done|]. split; [lia|]. by rewrite E4, E2.
Qed.

(** The part of the buffer between two others. *)
Lemma window (characters : list Z) offset n :
  (offset + n <= length characters)%nat ->
  exists pre w post, characters = pre ++ w ++ post /\ offset = length pre /\ n = length w /\
    take n (drop offset characters) = w.
Proof.
  intros Hn. exists (take offset characters), (take n (drop offset characters)),
    (drop n (drop offset characters)).
  rewrite take_drop, take_drop, !length_take, length_drop. repeat split; lia.
Qed.

Lemma lookup_window (pre w post : list Z) i :
  (i < length w)%nat -> (pre ++ w ++ post) !! (length pre + i)%nat = w !! i.
Proof. intros Hi. by rewrite lookup_app_r, Nat.add_comm, Nat.add_sub, lookup_app_l by lia. Qed.

Lemma charIn_window pre w post i l c :
  w !! i = Some c -> charIn (pre ++ w ++ post) (length pre + i) l = Some (existsb (Z.eqb c) l).
Proof.
  intros Hi. unfold charIn. rewrite lookup_window by (by eapply lookup_lt_Some). by rewrite Hi.
Qed.

Lemma lookup_last (l : list Z) c : (l ++ [c]) !! (length (l ++ [c]) - 1)%nat = Some c.
Proof. rewrite length_app. simpl. rewrite Nat.add_sub. by apply list_lookup_middle. Qed.

Lemma charIn_window0 pre w post l c :
  w !! 0%nat = Some c -> charIn (pre ++ w ++ post) (length pre) l = Some (existsb (Z.eqb c) l).
Proof. intros Hi. rewrite <- (charIn_window pre w post 0 l c Hi). by rewrite Nat.add_0_r. Qed.

Lemma take_drop_window (pre w post : list Z) n k :
  (k + n <= length w)%nat ->
  take n (drop (length pre + k) (pre ++ w ++ post)) = take n (drop k w).
Proof.
  intros Hn. rewrite drop_app_add, drop_app_le by lia. rewrite take_app_le; [done|].
  rewrite length_drop. lia.
Qed.

Lemma hasURLFunction_spec characters offset n w :
  (offset + n <= length characters)%nat -> take n (drop offset characters) = w ->
  exists b, hasURLFunction characters offset n = Some b /\
    unwrapURL w = (if b then take (n - 5) (drop (offset + 4) characters) else w) /\
    (b = true -> 5 <= n)%nat.
Proof.
  intros Hn Hw. destruct (window characters offset n Hn) as (pre & w' & post & -> & -> & -> & E).
  rewrite E in Hw. subst w'. clear E Hn. unfold hasURLFunction.
  destruct (Nat.leb_spec 5 (length w)) as [Hl|Hl]; cbn [andThen]; last first.
  { exists false. split; [done|]. split; [|done].
    destruct w as [|u [|r [|l [|p rest]]]]; try done. destruct rest; [done|]. simpl in Hl. lia. }
  destruct w as [|u [|r [|l [|p rest]]]]; try (simpl in Hl; lia).
  destruct rest as [|q inner _] using rev_ind; [simpl in Hl; lia|].
  rewrite (charIn_window0 pre _ post _ u), (charIn_window pre _ post 1 _ r),
    (charIn_window pre _ post 2 _ l), (charIn_window pre _ post 3 _ p) by done.
  replace (length pre + length _ - 1)%nat
    with (length pre + (length (u :: r :: l :: p :: inner ++ [q]) - 1))%nat by (simpl; lia).
  rewrite (charIn_window pre _ post _ _ q); last first.
  { apply (lookup_last (u :: r :: l :: p :: inner) q). }
  rewrite take_drop_window by (simpl; rewrite length_app; simpl; lia).
  assert (Hi : take (length (u :: r :: l :: p :: inner ++ [q]) - 5) (drop 4 (u :: r :: l :: p :: inner ++ [q]))
               = inner).
  { simpl. rewrite length_app. simpl. replace (length inner + 1 - 1)%nat with (length inner) by lia.
    by rewrite drop_0, take_app_length. }
  rewrite Hi. unfold unwrapURL. rewrite reverse_snoc, reverse_involutive. cbn [existsb andThen].
  rewrite !orb_false_r.
  destruct ((u =? 117) || (u =? 85)), ((r =? 114) || (r =? 82)), ((l =? 108) || (l =? 76)),
    (p =? 40), (q =? 41); cbn; eexists; (split; [done|]); by split.
Qed.

Lemma notQuoted_spec characters offset n w :
  (offset + n <= length characters)%nat -> take n (drop offset characters) = w ->
  exists b, notQuoted characters offset n = Some b /\
    unquote w = (if b then [] else take (n - 2) (drop (offset + 1) characters)) /\
    (b = false -> 2 <= n)%nat.
Proof.
  intros Hn Hw. destruct (window characters offset n Hn) as (pre & w' & post & -> & -> & -> & E).
  rewrite E in Hw. subst w'. clear E Hn. unfold notQuoted.
  destruct (Nat.ltb_spec (length w) 2) as [Hl|Hl].
  { exists true. split; [done|]. split; [|done]. destruct w as [|q [|]]; try done. simpl in Hl. lia. }
  destruct w as [|q rest]; [simpl in Hl; lia|].
  destruct rest as [|q' inner _] using rev_ind; [simpl in Hl; lia|].
  replace (length pre + length _ - 1)%nat
    with (length pre + (length (q :: inner ++ [q']) - 1))%nat by (simpl; lia).
  rewrite (lookup_window pre (q :: inner ++ [q'])) by (simpl; lia).
  pose proof (lookup_last (q :: inner) q') as Hlast. cbn [app] in Hlast. rewrite Hlast. clear Hlast.
  rewrite take_drop_window by (simpl; rewrite length_app; simpl; lia).
  rewrite lookup_app_r, Nat.sub_diag by lia. cbn [lookup list_lookup app].
  assert (Hi : take (length (q :: inner ++ [q']) - 2) (drop 1 (q :: inner ++ [q'])) = inner).
  { simpl. rewrite length_app. simpl. replace (length inner + 1 - 1)%nat with (length inner) by lia.
    by rewrite drop_0, take_app_length. }
  rewrite Hi. unfold unquote. rewrite reverse_snoc, reverse_involutive. eexists; split; [done|].
  destruct (q =? q'), ((q =? 39) || (q =? dquote)); cbn; (split; [done|intros _; exact Hl]).
Qed.

Lemma parse_css_url_spec (characters : list Z) :
  parseCSSStringOrURL characters = Some (cssURL characters).
Proof.
  unfold parseCSSStringOrURL, cssURL.
  destruct (skipBoth_spec characters 0 (length characters)) as (o1 & n1 & -> & L1 & E1); [lia|].
  rewrite drop_0, firstn_all in E1.
  destruct (hasURLFunction_spec characters o1 n1 _ L1 E1) as (b & -> & E2 & H5). rewrite E2.
  destruct (skipBoth_spec characters (if b then o1 + 4 else o1) (if b then n1 - 5 else n1))
    as (o2 & n2 & -> & L2 & E3). { destruct b; [specialize (H5 eq_refl)|]; lia. }
  assert (E3' : take n2 (drop o2 characters)
                = strip (if b then take (n1 - 5) (drop (o1 + 4) characters) else strip characters)).
  { rewrite E3. f_equal. by destruct b. }
  destruct (notQuoted_spec characters o2 n2 _ L2 E3') as (b' & -> & E4 & H2). rewrite E4.
  destruct b'; [done|].
  destruct (skipBoth_spec characters (o2 + 1) (n2 - 2)) as (o3 & n3 & -> & L3 & E5);
    [specialize (H2 eq_refl); lia|]. by rewrite E5.
Qed.

(** C38: the index arithmetic of [parseCSSStringOrURL] never reads outside
    the buffer and computes the specification on lists: strip the white space,
    take the argument of url(...), strip, take the contents of the quotes,
    strip. *)
Theorem parse_css_url_correct (characters : list Z) :
  parseCSSStringOrURL characters = Some (cssURL characters).
Proof. apply parse_css_url_spec. Qed.

(** ** The scanner *)

Section ScanFacts.
Context `{FoldCase}.

Lemma emitRule_total x : exists urls x', emitRule x = Some (urls, x').
Proof.
  unfold emitRule. rewrite parse_css_url_spec. repeat case_match; eauto.
Qed.

Lemma tokenize_total c x :
  m_state x <> DoneParsingImportRules -> exists urls x', tokenize c x = Some (urls, x').
Proof.
  intros Hd. destruct (emitRule_total x) as (u & x' & E). unfold tokenize.
  destruct (m_state x); repeat case_match; try done; eauto.
Qed.

Lemma scan_total (data : list Z) (x : Scanner) :
  exists urls x', scan data x = Some (urls, x').
Proof.
  revert x; induction data as [|c data IH]; intros x; simpl; [eauto|].
  destruct (bool_decide_reflect (m_state x = DoneParsingImportRules)); [eauto|].
  destruct (tokenize_total c x) as (u & x1 & ->); [done|].
  destruct (IH x1) as (u' & x2 & ->). eauto.
Qed.

(** Scanning any text from any state succeeds: the case of
    [tokenize] that must not be reached is not reached. *)
Theorem css_scan_total (data : list Z) (x : Scanner) :
  exists urls x', scan data x = Some (urls, x').
Proof. apply scan_total. Qed.

Lemma scan_done data x : m_state x = DoneParsingImportRules -> scan data x = Some ([], x).
Proof. intros Hd. destruct data; simpl; [done|]. by rewrite bool_decide_true. Qed.

Lemma scan_app (d1 d2 : list Z) (x : Scanner) :
  scan (d1 ++ d2) x =
  match scan d1 x with
  | None => None
  | Some (urls, x) =>
      match scan d2 x with
      | None => None
      | Some (urls', x) => Some (urls ++ urls', x)
      end
  end.
Proof.
  revert x; induction d1 as [|c d1 IH]; intros x; simpl.
  { by destruct (scan d2 x) as [[]|]. }
  destruct (bool_decide_reflect (m_state x = DoneParsingImportRules)).
  { by rewrite scan_done. }
  destruct (tokenize c x) as [[u x1]|]; [|done]. rewrite IH.
  destruct (scan d1 x1) as [[u' x2]|]; [|done].
  destruct (scan d2 x2) as [[u'' x3]|]; [|done]. by rewrite app_assoc.
Qed.

(** The requests do not depend on how the text of a style element
    is divided into character tokens. *)
Theorem css_scan_app (d1 d2 : list Z) (x : Scanner) :
  scan (d1 ++ d2) x =
  match scan d1 x with
  | None => None
  | Some (urls, x) =>
      match scan d2 x with
      | None => None
      | Some (urls', x) => Some (urls ++ urls', x)
      end
  end.
Proof. apply scan_app. Qed.

(** *** Import rules *)

(** The text of a URL that needs no quoting: no white space, semicolon or quote. *)
Definition plainURL (u : list Z) : bool :=
  forallb (fun c => negb (isHTMLSpace c) && negb (c =? 59) && negb (c =? dquote)) u.

Lemma scan_cons c data x urls x' :
  m_state x <> DoneParsingImportRules -> tokenize c x = Some (urls, x') ->
  scan (c :: data) x =
  match scan data x' with None => None | Some (urls', x) => Some (urls ++ urls', x) end.
Proof. intros Hd E. simpl. by rewrite bool_decide_false, E. Qed.

Lemma scan_value u : forall data rule v,
  forallb (fun c => negb (isHTMLSpace c) && negb (c =? 59)) u = true ->
  scan (u ++ data) (mkScanner RuleValue rule v) = scan data (mkScanner RuleValue rule (v ++ u)).
Proof.
  induction u as [|c u IH]; intros data rule v Hu; simpl app; [by rewrite app_nil_r|].
  simpl in Hu. apply andb_true_iff in Hu as [Hc Hu]. apply andb_true_iff in Hc as [H1 H2].
  apply negb_true_iff in H1, H2.
  rewrite (scan_cons c (u ++ data) _ [] (mkScanner RuleValue rule (v ++ [c]))); [|done|].
  - rewrite IH by done. rewrite <- app_assoc. simpl.
    by destruct (scan data _) as [[]|].
  - unfold tokenize. cbn. by rewrite H1, H2.
Qed.

Lemma equal_chars_refl b l : equal_chars b l l = true.
Proof. induction l as [|c l IH]; simpl; [done|]. rewrite IH. destruct b; by rewrite Z.eqb_refl. Qed.

Lemma stripLeading_plain l : match l with c :: _ => isHTMLSpace c = false | [] => True end ->
  stripLeading l = l.
Proof. destruct l; simpl; [done|]. by intros ->. Qed.

Lemma strip_ends a l b :
  isHTMLSpace a = false -> isHTMLSpace b = false -> strip (a :: l ++ [b]) = a :: l ++ [b].
Proof.
  intros Ha Hb. unfold strip. rewrite (stripLeading_plain (a :: l ++ [b])) by done.
  change (a :: l ++ [b]) with ((a :: l) ++ [b]). rewrite reverse_snoc, stripLeading_plain by done.
  by rewrite <- reverse_snoc, reverse_involutive.
Qed.

Lemma strip_plain u : forallb (fun c => negb (isHTMLSpace c)) u = true -> strip u = u.
Proof.
  intros Hu. unfold strip. rewrite (stripLeading_plain u); [|destruct u as [|c u]; [done|]].
  - rewrite (stripLeading_plain (reverse u)); [apply reverse_involutive|].
    destruct (reverse u) as [|c r] eqn:E; [done|].
    rewrite forallb_forall in Hu. apply negb_true_iff, Hu, list_elem_of_In.
    apply elem_of_reverse. rewrite E. left.
  - simpl in Hu. apply andb_true_iff in Hu as [Hc _]. by apply negb_true_iff.
Qed.

(** The value of an import rule in its three forms. *)
Lemma cssURL_quoted q u :
  (q = 39 \/ q = dquote) -> forallb (fun c => negb (isHTMLSpace c)) u = true ->
  cssURL (q :: u ++ [q]) = u.
Proof.
  intros Hq Hu. unfold cssURL.
  assert (Hs : isHTMLSpace q = false) by (by destruct Hq as [-> | ->]).
  rewrite strip_ends by done.
  assert (Hn : unwrapURL (q :: u ++ [q]) = q :: u ++ [q]).
  { unfold unwrapURL. repeat case_match; try done; destruct Hq as [-> | ->]; done. }
  rewrite Hn, strip_ends by done. unfold unquote. rewrite reverse_snoc, Z.eqb_refl, reverse_involutive.
  destruct Hq as [-> | ->]; cbn; by apply strip_plain.
Qed.

Lemma cssURL_function q u :
  (q = 39 \/ q = dquote) -> forallb (fun c => negb (isHTMLSpace c)) u = true ->
  cssURL (lit "url(" ++ q :: u ++ [q; 41]) = u.
Proof.
  intros Hq Hu. unfold cssURL.
  assert (Hs : isHTMLSpace q = false) by (by destruct Hq as [-> | ->]).
  assert (E : lit "url(" ++ q :: u ++ [q; 41] = 117 :: (114 :: 108 :: 40 :: q :: u ++ [q]) ++ [41])
    by (simpl; by rewrite <- app_assoc).
  rewrite E, strip_ends by done.
  assert (Hw : unwrapURL (117 :: (114 :: 108 :: 40 :: q :: u ++ [q]) ++ [41]) = q :: u ++ [q]).
  { unfold unwrapURL. simpl. change (q :: (u ++ [q]) ++ [41]) with ((q :: u ++ [q]) ++ [41]).
    by rewrite reverse_snoc, reverse_involutive. }
  rewrite Hw, strip_ends by done. unfold unquote. rewrite reverse_snoc, Z.eqb_refl, reverse_involutive.
  destruct Hq as [-> | ->]; cbn; by apply strip_plain.
Qed.

(** An import rule for a URL without white space, semicolons or
    double quotes, written as a string or with url(...), requests exactly that
    URL, and the scanner is ready for the next rule. *)
Theorem css_import_requested (u rest : list Z) (function : bool)
  (Hu : plainURL u = true) (Hne : u <> []) :
  let value := if function then lit "url(" ++ dquote :: u ++ [dquote; 41]
               else dquote :: u ++ [dquote] in
  scan (lit "@import " ++ value ++ 59 :: rest) newScanner =
  match scan rest newScanner with
  | None => None
  | Some (urls, x) => Some (u :: urls, x)
  end.
Proof.
  intros value.
  assert (Hu' : forallb (fun c => negb (isHTMLSpace c) && negb (c =? 59)) u = true).
  { unfold plainURL in Hu. rewrite forallb_forall in *. intros c Hc. specialize (Hu c Hc).
    by apply andb_true_iff in Hu as [-> _]. }
  assert (Hu'' : forallb (fun c => negb (isHTMLSpace c)) u = true).
  { rewrite forallb_forall in *. intros c Hc. specialize (Hu' c Hc).
    by apply andb_true_iff in Hu' as [-> _]. }
  assert (Hval : forallb (fun c => negb (isHTMLSpace c) && negb (c =? 59)) value = true
                 /\ cssURL value = u).
  { destruct function; subst value.
    - rewrite cssURL_function by auto. split; [|done]. simpl. rewrite forallb_app, Hu'. done.
    - rewrite cssURL_quoted by auto. split; [|done]. simpl. rewrite forallb_app, Hu'. done. }
  destruct Hval as [Hv1 Hv2].
  assert (Hstart : forall data, scan (lit "@import " ++ data) newScanner
                                = scan data (mkScanner AfterRule (lit "import") [])).
  { intros data. cbn -[scan]. do 8 (erewrite scan_cons; [|done|reflexivity]; cbn -[scan]).
    by destruct (scan data _) as [[]|]. }
  assert (Hfirst : exists c v, value = c :: v /\ (c =? 123) = false)
    by (destruct function; subst value; eexists _, _; split; reflexivity).
  destruct Hfirst as (c & v & Ev & Hc). rewrite Hstart. rewrite Ev in *. clearbody value.
  pose proof Hv1 as Hv. simpl in Hv. apply andb_true_iff in Hv as [Hc2 Hvs].
  apply andb_true_iff in Hc2 as [Hc2 Hc3]. apply negb_true_iff in Hc2, Hc3.
  cbn [app]. rewrite (scan_cons c _ _ [] (mkScanner RuleValue (lit "import") [c]));
    [|done|unfold tokenize; cbn; by rewrite Hc2, Hc3, Hc].
  rewrite scan_value by done.
  rewrite (scan_cons 59 rest _ [u] newScanner); [|done|].
  - by destruct (scan rest newScanner) as [[]|].
  - unfold tokenize. cbn [m_state]. cbn -[emitRule]. unfold emitRule. cbn [m_rule m_ruleValue].
    unfold ruleEqualIgnoringCase. rewrite equal_chars_refl, parse_css_url_spec.
    cbn [app]. rewrite Hv2. cbn.
    destruct (lists_eqb u []) eqn:E; [|done]. by apply lists_eqb_eq in E.
Qed.

End ScanFacts.

Lemma css_import_requested_witness :
  @scan id (lit "@import url(" ++ dquote :: lit "a.css" ++ dquote :: lit ");b") newScanner
  = Some ([lit "a.css"], mkScanner DoneParsingImportRules [] []).
Proof.
  refine (@css_import_requested id (lit "a.css") (lit "b") true _ _); [reflexivity|discriminate].
Defined.

End CSSPreloadScanner.
