(* ===== verification/TokenPreloadScanner.v ===== *)
(** * [TokenPreloadScanner] of [WebCore/html/parser/HTMLPreloadScanner.cpp]

    What becomes of the tokens that [HTMLPreloadScanner] takes from the
    tokenizer: requests for the resources that start tags name and for the style
    sheets that the text of style elements imports.  Three computations of other
    parts of the engine are parameters: the resolution of a URL against the
    document's, the test of a rel attribute ([LinkRelAttribute]) and the choice
    of an image candidate ([bestFitSourceForImageAttributes]).
    [ENABLE(TEMPLATE_ELEMENT)] and [ENABLE(PICTURE_SIZES)] are on, as in the GTK
    port; the width that a sizes attribute selects ([SourceSizeList]) is a fourth
    parameter.  [None] is an [ASSERT_NOT_REACHED], an invalid checkpoint, or a failure of the CSS
    scanner. *)
From S2P Require Import Prelude CharSource HTMLToken CSSPreloadScanner.
From stdpp Require Import base list numbers option.
From Stdlib Require Import ZArith Lia.
#[local] Open Scope Z_scope.
Import HTMLToken.

Module TokenPreloadScanner.

(** [TokenPreloadScanner::TagId], in its order. *)
Inductive TagId : Type :=
| Img | Input | Link | Script
| Unknown | Style | Base | Template.

#[export] Instance TagId_eq_dec : EqDecision TagId.
Proof. solve_decision. Defined.

Definition tagIdFor (data : list Z) : TagId :=
  if lists_eqb data (lit "img") then Img
  else if lists_eqb data (lit "input") then Input
  else if lists_eqb data (lit "link") then Link
  else if lists_eqb data (lit "script") then Script
  else if lists_eqb data (lit "style") then Style
  else if lists_eqb data (lit "base") then Base
  else if lists_eqb data (lit "template") then Template
  else Unknown.

Definition initiatorFor (tagId : TagId) : option (list Z) :=
  match tagId with
  | Img => Some (lit "img")
  | Input => Some (lit "input")
  | Link => Some (lit "link")
  | Script => Some (lit "script")
  | Unknown | Style | Base | Template => None
  end.

(** The [CachedResource::Type]s of preload requests. *)
Inductive ResourceType : Type := ScriptResource | ImageResource | CSSStyleSheet.

(** [PreloadRequest]. *)
Record PreloadRequest : Type := mkRequest {
  initiator : list Z;
  resourceURL : list Z;
  baseURL : list Z;
  resourceType : ResourceType;
  mediaAttribute : list Z;
  crossOriginModeAllowsCookies : bool;
  charset : list Z;
}.

(** [stripLeadingAndTrailingHTMLSpaces] of [HTMLParserIdioms.cpp]. *)
Fixpoint countLeading (l : list Z) : nat :=
  match l with
  | c :: l' => if negb (isHTMLSpace c) then O else S (countLeading l')
  | [] => O
  end.

Definition stripLeadingAndTrailingHTMLSpaces (string : list Z) : list Z :=
  let length_ := length string in
  if (length_ =? 0)%nat then []
  else
    let leading := countLeading string in
    if (leading =? length_)%nat then []
    else
      let trailing := countLeading (reverse string) in
      if (leading =? 0)%nat && (trailing =? 0)%nat then string
      else take (length_ - (leading + trailing)) (drop leading string).

(** ** [StartTagScanner]

    [String]s that may be null are options. *)
Record StartTagScanner : Type := mkStart {
  m_tagId : TagId;
  m_urlToLoad : list Z;
  m_srcSetAttribute : option (list Z);
  m_sizesAttribute : option (list Z);
  m_charset : list Z;
  m_crossOriginMode : option (list Z);
  m_linkIsStyleSheet : bool;
  m_mediaAttribute : list Z;
  m_inputIsImage : bool;
}.

Definition newStart (tagId : TagId) : StartTagScanner :=
  mkStart tagId [] None None [] None false [] false.

Definition setUrlToLoad (value : list Z) (allowReplacement : bool) (x : StartTagScanner)
  : StartTagScanner :=
  if negb allowReplacement && negb (lists_eqb (m_urlToLoad x) []) then x
  else
    let url := stripLeadingAndTrailingHTMLSpaces value in
    if lists_eqb url [] then x
    else mkStart (m_tagId x) url (m_srcSetAttribute x) (m_sizesAttribute x) (m_charset x) (m_crossOriginMode x)
           (m_linkIsStyleSheet x) (m_mediaAttribute x) (m_inputIsImage x).

Section TokenScanner.
Context `{FoldCase}.
Context (relAttributeIsStyleSheet : list Z -> bool).
Context (parseSizesAttribute : option (list Z) -> Z).
Context (bestFitSource : list Z -> list Z -> Z -> list Z).
Context (completeURL : list Z -> list Z).

Definition equalIgnoringCase (a b : list Z) : bool :=
  (length a =? length b)%nat && equal_chars false a b.

Definition processAttribute (a : Attribute) (x : StartTagScanner) : StartTagScanner :=
  let value := attr_value a in
  let nameIs n := lists_eqb (attr_name a) n in
  let x :=
    if nameIs (lit "charset") then
      mkStart (m_tagId x) (m_urlToLoad x) (m_srcSetAttribute x) (m_sizesAttribute x) value
        (m_crossOriginMode x)
        (m_linkIsStyleSheet x) (m_mediaAttribute x) (m_inputIsImage x)
    else x in
  match m_tagId x with
  | Script | Img =>
      if nameIs (lit "src") then setUrlToLoad value false x
      else if nameIs (lit "srcset") && bool_decide (m_srcSetAttribute x = None) then
        mkStart (m_tagId x) (m_urlToLoad x) (Some value) (m_sizesAttribute x) (m_charset x)
          (m_crossOriginMode x)
          (m_linkIsStyleSheet x) (m_mediaAttribute x) (m_inputIsImage x)
      else if nameIs (lit "sizes") && bool_decide (m_sizesAttribute x = None) then
        mkStart (m_tagId x) (m_urlToLoad x) (m_srcSetAttribute x) (Some value) (m_charset x)
          (m_crossOriginMode x) (m_linkIsStyleSheet x) (m_mediaAttribute x) (m_inputIsImage x)
      else if nameIs (lit "crossorigin") then
        mkStart (m_tagId x) (m_urlToLoad x) (m_srcSetAttribute x) (m_sizesAttribute x) (m_charset x)
          (Some (stripLeadingAndTrailingHTMLSpaces value))
          (m_linkIsStyleSheet x) (m_mediaAttribute x) (m_inputIsImage x)
      else x
  | Link =>
      if nameIs (lit "href") then setUrlToLoad value false x
      else if nameIs (lit "rel") then
        mkStart (m_tagId x) (m_urlToLoad x) (m_srcSetAttribute x) (m_sizesAttribute x) (m_charset x) (m_crossOriginMode x)
          (relAttributeIsStyleSheet value) (m_mediaAttribute x) (m_inputIsImage x)
      else if nameIs (lit "media") then
        mkStart (m_tagId x) (m_urlToLoad x) (m_srcSetAttribute x) (m_sizesAttribute x) (m_charset x) (m_crossOriginMode x)
          (m_linkIsStyleSheet x) value (m_inputIsImage x)
      else x
  | Input =>
      if nameIs (lit "src") then setUrlToLoad value false x
      else if nameIs (lit "type") then
        mkStart (m_tagId x) (m_urlToLoad x) (m_srcSetAttribute x) (m_sizesAttribute x) (m_charset x) (m_crossOriginMode x)
          (m_linkIsStyleSheet x) (m_mediaAttribute x) (equalIgnoringCase value (lit "image"))
      else x
  | _ => x
  end.

(** [m_tagId >= TagId::Unknown]. *)
Definition isScannedTag (tagId : TagId) : bool :=
  match tagId with Img | Input | Link | Script => true | _ => false end.

Definition processAttributes (attributes : list Attribute) (x : StartTagScanner) : StartTagScanner :=
  if negb (isScannedTag (m_tagId x)) then x
  else
    let x := fold_left (fun x a => processAttribute a x) attributes x in
    match m_srcSetAttribute x with
    | Some (c :: srcset) => 
        setUrlToLoad (bestFitSource (m_urlToLoad x) (c :: srcset)
                        (parseSizesAttribute (m_sizesAttribute x))) true x
    | _ => x
    end.

Definition shouldPreload (x : StartTagScanner) : bool :=
  if lists_eqb (m_urlToLoad x) [] then false
  else if bool_decide (m_tagId x = Link) && negb (m_linkIsStyleSheet x) then false
  else if bool_decide (m_tagId x = Input) && negb (m_inputIsImage x) then false
  else true.

(** [resourceType]; [None] is the [ASSERT_NOT_REACHED]. *)
Definition resourceTypeOf (x : StartTagScanner) : option ResourceType :=
  match m_tagId x with
  | Script => Some ScriptResource
  | Img => Some ImageResource
  | Input => if m_inputIsImage x then Some ImageResource else None
  | Link => if m_linkIsStyleSheet x then Some CSSStyleSheet else None
  | _ => None
  end.

Definition allowsCookies (x : StartTagScanner) : bool :=
  match m_crossOriginMode x with
  | None => true
  | Some mode => equalIgnoringCase mode (lit "use-credentials")
  end.

(** [createPreloadRequest]: [Some None] is the null pointer. *)
Definition createPreloadRequest (predictedBaseURL : list Z) (x : StartTagScanner)
  : option (option PreloadRequest) :=
  if negb (shouldPreload x) then Some None
  else
    match initiatorFor (m_tagId x), resourceTypeOf x with
    | Some i, Some ty =>
        Some (Some (mkRequest i (m_urlToLoad x) predictedBaseURL ty (m_mediaAttribute x)
                      (allowsCookies x) (if bool_decide (m_tagId x = Img) then [] else m_charset x)))
    | _, _ => None
    end.

(** ** The scanner *)

Record Checkpoint : Type := mkCheckpoint {
  cp_predictedBaseElementURL : list Z;
  cp_inStyle : bool;
  cp_templateCount : nat;
}.

Record Scanner : Type := mkScanner {
  m_cssScanner : CSSPreloadScanner.Scanner;
  m_predictedBaseElementURL : list Z;
  m_inStyle : bool;
  m_templateCount : nat;
  m_checkpoints : list Checkpoint;
}.

Definition newScanner : Scanner := mkScanner CSSPreloadScanner.newScanner [] false 0 [].

Definition setPredictedBaseElementURL (url : list Z) (x : Scanner) : Scanner :=
  mkScanner (m_cssScanner x) url (m_inStyle x) (m_templateCount x) (m_checkpoints x).

(** [createCheckpoint]: the index of the new checkpoint. *)
Definition createCheckpoint (x : Scanner) : nat * Scanner :=
  (length (m_checkpoints x),
   mkScanner (m_cssScanner x) (m_predictedBaseElementURL x) (m_inStyle x) (m_templateCount x)
     (m_checkpoints x
      ++ [mkCheckpoint (m_predictedBaseElementURL x) (m_inStyle x) (m_templateCount x)])).

Definition rewindTo (checkpointIndex : nat) (x : Scanner) : option Scanner :=
  match m_checkpoints x !! checkpointIndex with
  | None => None
  | Some cp =>
      Some (mkScanner CSSPreloadScanner.newScanner (cp_predictedBaseElementURL cp) (cp_inStyle cp)
              (cp_templateCount cp) [])
  end.

Definition updatePredictedBaseURL (token : HTMLToken) (x : Scanner) : Scanner :=
  match getAttributeItem (lit "href") token with
  | Some a =>
      setPredictedBaseElementURL (completeURL (stripLeadingAndTrailingHTMLSpaces (attr_value a))) x
  | None => x
  end.

(** The request of an import rule ([emitRule]). *)
Definition cssRequest (url : list Z) : PreloadRequest :=
  mkRequest (lit "css") url [] CSSStyleSheet [] false [].

Definition scanStartTag (token : HTMLToken) (x : Scanner) : option (list PreloadRequest * Scanner) :=
  if negb (m_templateCount x =? 0)%nat then Some ([], x)
  else
    let tagId := tagIdFor (m_data token) in
    if bool_decide (tagId = Template) then
      Some ([], mkScanner (m_cssScanner x) (m_predictedBaseElementURL x) (m_inStyle x)
                  (S (m_templateCount x)) (m_checkpoints x))
    else if bool_decide (tagId = Style) then
      Some ([], mkScanner (m_cssScanner x) (m_predictedBaseElementURL x) true
                  (m_templateCount x) (m_checkpoints x))
    else if bool_decide (tagId = Base) then
      if negb (lists_eqb (m_predictedBaseElementURL x) []) then Some ([], x)
      else Some ([], updatePredictedBaseURL token x)
    else
      match createPreloadRequest (m_predictedBaseElementURL x)
              (processAttributes (m_attributes token) (newStart tagId)) with
      | None => None
      | Some None => Some ([], x)
      | Some (Some r) => Some ([r], x)
      end.

Definition scanEndTag (token : HTMLToken) (x : Scanner) : Scanner :=
  let tagId := tagIdFor (m_data token) in
  if bool_decide (tagId = Template) then
    mkScanner (m_cssScanner x) (m_predictedBaseElementURL x) (m_inStyle x)
      (pred (m_templateCount x)) (m_checkpoints x)
  else if bool_decide (tagId = Style) then
    mkScanner (if m_inStyle x then CSSPreloadScanner.newScanner else m_cssScanner x)
      (m_predictedBaseElementURL x) false (m_templateCount x) (m_checkpoints x)
  else x.

(** [scan]. *)
Definition scan (token : HTMLToken) (x : Scanner) : option (list PreloadRequest * Scanner) :=
  match m_type token with
  | Character =>
      if negb (m_inStyle x) then Some ([], x)
      else
        match CSSPreloadScanner.scan (m_data token) (m_cssScanner x) with
        | None => None
        | Some (urls, css) =>
            Some (map cssRequest urls,
                  mkScanner css (m_predictedBaseElementURL x) (m_inStyle x) (m_templateCount x)
                    (m_checkpoints x))
        end
  | EndTag => Some ([], scanEndTag token x)
  | StartTag => scanStartTag token x
  | _ => Some ([], x)
  end.

(** The tokens of one [HTMLPreloadScanner::scan]. *)
Fixpoint scanTokens (tokens : list HTMLToken) (x : Scanner) : option (list PreloadRequest * Scanner) :=
  match tokens with
  | [] => Some ([], x)
  | k :: tokens =>
      match scan k x with
      | None => None
      | Some (r, x) =>
          match scanTokens tokens x with
          | None => None
          | Some (r', x) => Some (r ++ r', x)
          end
      end
  end.

(** ** Properties *)

Lemma setUrlToLoad_tag v b x : m_tagId (setUrlToLoad v b x) = m_tagId x.
Proof. unfold setUrlToLoad. by repeat case_match. Qed.

Lemma processAttribute_tag a x : m_tagId (processAttribute a x) = m_tagId x.
Proof.
  unfold processAttribute. destruct (lists_eqb (attr_name a) (lit "charset")); simpl;
    repeat case_match; simpl; rewrite ?setUrlToLoad_tag; done.
Qed.

Lemma processAttributes_tag l x : m_tagId (processAttributes l x) = m_tagId x.
Proof.
  unfold processAttributes. case_match; [done|].
  assert (E : m_tagId (fold_left (fun x a => processAttribute a x) l x) = m_tagId x).
  { clear. revert x. induction l as [|a l IH]; intros x; simpl; [done|].
    by rewrite IH, processAttribute_tag. }
  repeat case_match; rewrite ?setUrlToLoad_tag; done.
Qed.

(** A start tag scanner for a tag that is not scanned never has a URL. *)
Lemma createPreloadRequest_total base l tagId :
  tagId <> Style -> tagId <> Base -> tagId <> Template ->
  createPreloadRequest base (processAttributes l (newStart tagId)) <> None.
Proof.
  intros H1 H2 H3. pose proof (processAttributes_tag l (newStart tagId)) as Et. simpl in Et.
  destruct (decide (tagId = Unknown)) as [->|Hu]; [done|].
  unfold createPreloadRequest, shouldPreload, resourceTypeOf. rewrite Et.
  destruct tagId; try done; cbn; repeat case_match; simplify_eq; done.
Qed.

Lemma scanToken_total k x : exists r x', scan k x = Some (r, x').
Proof.
  unfold scan. destruct (m_type k); eauto.
  - unfold scanStartTag. case_match; [eauto|].
    destruct (bool_decide_reflect (tagIdFor (m_data k) = Template)); [eauto|].
    destruct (bool_decide_reflect (tagIdFor (m_data k) = Style)); [eauto|].
    destruct (bool_decide_reflect (tagIdFor (m_data k) = Base)); [case_match; eauto|].
    pose proof (createPreloadRequest_total (m_predictedBaseElementURL x) (m_attributes k)
                  (tagIdFor (m_data k))) as Ht.
    destruct (createPreloadRequest _ _) as [[]|]; eauto. by destruct Ht.
  - case_match; [eauto|].
    destruct (CSSPreloadScanner.scan_total (m_data k) (m_cssScanner x)) as (u & y & ->). eauto.
Qed.

(** C39: scanning any sequence of tokens succeeds: the type and the
    initiator of a request are asked for only where they are defined, whatever
    the attributes are. *)
Theorem token_scan_total (tokens : list HTMLToken) (x : Scanner) :
  exists r x', scanTokens tokens x = Some (r, x').
Proof.
  revert x; induction tokens as [|k tokens IH]; intros x; simpl; [eauto|].
  destruct (scanToken_total k x) as (r & x1 & ->). destruct (IH x1) as (r' & x2 & ->). eauto.
Qed.

(** ** Checkpoints *)

Lemma scan_checkpoints k x r x' : scan k x = Some (r, x') -> m_checkpoints x' = m_checkpoints x.
Proof.
  unfold scan, scanStartTag, scanEndTag, updatePredictedBaseURL.
  repeat (case_match; try discriminate); intros E; simplify_eq; done.
Qed.

Lemma scanTokens_checkpoints tokens : forall x r x',
  scanTokens tokens x = Some (r, x') -> m_checkpoints x' = m_checkpoints x.
Proof.
  induction tokens as [|k tokens IH]; intros x r x' E; simpl in E; [by simplify_eq|].
  destruct (scan k x) as [[r1 x1]|] eqn:E1; [|done].
  destruct (scanTokens tokens x1) as [[r2 x2]|] eqn:E2; [|done]. simplify_eq.
  rewrite (IH _ _ _ E2). by eapply scan_checkpoints.
Qed.

(** After a checkpoint and the scan of any tokens, rewinding to
    the checkpoint succeeds and restores the predicted base URL, the style flag
    and the template count of the moment of the checkpoint, with a fresh CSS
    scanner and no checkpoints left. *)
Theorem rewind_restores (x : Scanner) (tokens : list HTMLToken) :
  let '(i, x1) := createCheckpoint x in
  exists r x2, scanTokens tokens x1 = Some (r, x2) /\
    rewindTo i x2 = Some (mkScanner CSSPreloadScanner.newScanner (m_predictedBaseElementURL x)
                            (m_inStyle x) (m_templateCount x) []).
Proof.
  unfold createCheckpoint.
  match goal with |- exists r x2, scanTokens tokens ?y = _ /\ _ => set (x1 := y) end.
  assert (Ht : exists r x', scanTokens tokens x1 = Some (r, x')).
  { clearbody x1. revert x1; induction tokens as [|k tokens IH]; intros x1; simpl; [eauto|].
    destruct (scanToken_total k x1) as (r & x2 & ->). destruct (IH x2) as (r' & x3 & ->). eauto. }
  destruct Ht as (r & x2 & E). exists r, x2. split; [done|].
  unfold rewindTo. rewrite (scanTokens_checkpoints _ _ _ _ E). simpl.
  by rewrite list_lookup_middle.
Qed.

(** ** Text *)

(** The requests and the state do not depend on how text is
    divided into character tokens. *)
Theorem scan_text_split (k1 k2 k : HTMLToken) (x : Scanner)
  (H1 : m_type k1 = Character) (H2 : m_type k2 = Character) (Hk : m_type k = Character)
  (Hdata : m_data k = m_data k1 ++ m_data k2) :
  scanTokens [k1; k2] x = scanTokens [k] x.
Proof.
  simpl. unfold scan. rewrite H1, H2, Hk, Hdata.
  destruct (negb (m_inStyle x)) eqn:Es; [by rewrite Es|].
  rewrite CSSPreloadScanner.scan_app.
  destruct (CSSPreloadScanner.scan (m_data k1) (m_cssScanner x)) as [[u1 c1]|]; [|done].
  cbn [m_inStyle m_cssScanner]. rewrite Es.
  destruct (CSSPreloadScanner.scan (m_data k2) c1) as [[u2 c2]|]; [|done].
  by rewrite !app_nil_r, map_app.
Qed.

(** ** Templates *)

(** While the template count is not zero no start tag causes
    a request, and the count never exceeds one. *)
Theorem template_count_bounded (tokens : list HTMLToken) (x : Scanner) (r : list PreloadRequest)
  (x' : Scanner) (Hx : (m_templateCount x <= 1)%nat)
  (E : scanTokens tokens x = Some (r, x')) :
  (m_templateCount x' <= 1)%nat /\
  forall k, m_templateCount x' = 1%nat -> m_type k = StartTag -> scan k x' = Some ([], x').
Proof.
  assert (Hle : (m_templateCount x' <= 1)%nat).
  { revert x r Hx E; induction tokens as [|k tokens IH]; intros x r Hx E; simpl in E; [by simplify_eq|].
    destruct (scan k x) as [[r1 x1]|] eqn:E1; [|done].
    destruct (scanTokens tokens x1) as [[r2 x2]|] eqn:E2; [|done]. simplify_eq.
    apply (IH x1 r2); [|done]. clear IH E2. revert E1.
    unfold scan, scanStartTag, scanEndTag, updatePredictedBaseURL.
    repeat (case_match; try discriminate); intros E1; simplify_eq; simpl;
      repeat match goal with
      | H : negb _ = false |- _ => apply negb_false_iff, Nat.eqb_eq in H
      end; lia. }
  split; [done|]. intros k H1 Hk. unfold scan, scanStartTag. by rewrite Hk, H1.
Qed.

End TokenScanner.

(** A tag token with attributes. *)
Definition tagToken (ty : Type_) (name : list Z) (attributes : list (list Z * list Z)) : HTMLToken :=
  mkToken ty (mkRange 0 0) 0 name 0 false
    (map (fun '(n, v) => mkAttribute (mkRange 0 0) (mkRange 0 0) n v) attributes) None None [].

(** Start tags inside a template are ignored before template
    tags are looked at, so the count does not count nesting: after an inner
    template is closed, an image that is still inside the outer template is
    requested. *)
Theorem nested_template_preloads :
  let template := tagToken StartTag (lit "template") [] in
  let endTemplate := tagToken EndTag (lit "template") [] in
  let img := tagToken StartTag (lit "img") [(lit "src", lit "a.png")] in
  let run l := option_map (fun '(r, _) => map resourceURL r)
                 (@scanTokens id (fun _ => false) (fun _ => 0) (fun u _ _ => u) id l newScanner) in
  run [template; img; endTemplate] = Some [] /\
  run [template; template; endTemplate; img; endTemplate] = Some [lit "a.png"].
Proof. split; vm_compute; reflexivity. Qed.

Lemma scan_text_split_witness :
  let text d := mkToken Character (mkRange 0 0) 0 d 0 false [] None None [] in
  @scanTokens id (fun _ => false) (fun _ => 0) (fun u _ _ => u) id
    [text (lit "@imp"); text (lit "ort")] newScanner
  = @scanTokens id (fun _ => false) (fun _ => 0) (fun u _ _ => u) id [text (lit "@import")] newScanner.
Proof. intros text. apply scan_text_split; reflexivity. Defined.

Lemma template_count_bounded_witness :
  exists r x', @scanTokens id (fun _ => false) (fun _ => 0) (fun u _ _ => u) id
    [tagToken StartTag (lit "template") []] newScanner = Some (r, x') /\
    (m_templateCount x' <= 1)%nat /\ m_templateCount x' = 1%nat.
Proof.
  eexists _, _. split; [vm_compute; reflexivity|]. split; [|reflexivity].
  eapply (@template_count_bounded id (fun _ => false) (fun _ => 0) (fun u _ _ => u) id
            [tagToken StartTag (lit "template") []] newScanner); [simpl; lia|vm_compute; reflexivity].
Defined.

(** ** White space *)

Lemma countLeading_strip l : drop (countLeading l) l = CSSPreloadScanner.stripLeading l.
Proof. induction l as [|c l IH]; simpl; [done|]. by destruct (isHTMLSpace c). Qed.

Lemma countLeading_le l : (countLeading l <= length l)%nat.
Proof. induction l as [|c l IH]; simpl; [done|]. destruct (isHTMLSpace c); simpl; lia. Qed.

Lemma countLeading_app l l' :
  (countLeading l < length l)%nat -> countLeading (l ++ l') = countLeading l.
Proof.
  induction l as [|c l IH]; simpl; [lia|]. destruct (isHTMLSpace c); simpl; [|done].
  intros Hl. by rewrite IH by lia.
Qed.

Lemma countLeading_found l c : c ∈ l -> isHTMLSpace c = false -> (countLeading l < length l)%nat.
Proof.
  intros Hc Hs. induction l as [|d l IH]; [by apply not_elem_of_nil in Hc|]. simpl.
  apply elem_of_cons in Hc as [<-|Hc]; [rewrite Hs; simpl; lia|].
  destruct (isHTMLSpace d); simpl; [|lia]. specialize (IH Hc). lia.
Qed.

Lemma stripLeading_head l c r :
  CSSPreloadScanner.stripLeading l = c :: r -> isHTMLSpace c = false.
Proof.
  induction l as [|d l IH]; simpl; [done|]. destruct (isHTMLSpace d) eqn:E; [by apply IH|].
  by intros [= <- _].
Qed.

(** The two ways the engine strips white space, counting from both ends
    and moving two indices, agree. *)
Theorem strip_equivalent (l : list Z) :
  stripLeadingAndTrailingHTMLSpaces l = CSSPreloadScanner.strip l.
Proof.
  unfold stripLeadingAndTrailingHTMLSpaces, CSSPreloadScanner.strip.
  destruct (Nat.eqb_spec (length l) 0) as [E|_]; [by apply nil_length_inv in E as ->|].
  pose proof (countLeading_le l) as Hle. rewrite <- (countLeading_strip l).
  destruct (Nat.eqb_spec (countLeading l) (length l)) as [E|Hne]; [by rewrite E, drop_all|].
  set (n := countLeading l) in *. set (mid := drop n l).
  destruct (lookup_lt_is_Some_2 l n) as [c Hc]; [lia|].
  assert (Hmid : mid = c :: drop (S n) l) by apply (drop_S _ _ _ Hc).
  assert (Hspace : isHTMLSpace c = false).
  { assert (Hs : CSSPreloadScanner.stripLeading l = mid) by (symmetry; apply countLeading_strip).
    rewrite Hmid in Hs. by eapply stripLeading_head. }
  assert (Htr : countLeading (reverse l) = countLeading (reverse mid)).
  { rewrite <- (take_drop n l) at 1. fold mid. rewrite reverse_app. apply countLeading_app.
    rewrite length_reverse. rewrite <- length_reverse. apply (countLeading_found _ c); [|done].
    apply elem_of_reverse. rewrite Hmid. apply elem_of_cons. by left. }
  rewrite <- countLeading_strip, <- Htr. set (m := countLeading (reverse l)) in *.
  assert (Hm : (m <= length mid)%nat).
  { rewrite Htr, <- (length_reverse mid). apply countLeading_le. }
  assert (Hlen : length mid = (length l - n)%nat) by apply length_drop.
  assert (Hr : reverse (drop m (reverse mid)) = take (length l - (n + m)) mid).
  { rewrite <- (take_drop (length mid - m) mid) at 1. rewrite reverse_app, drop_app_ge.
    - rewrite length_reverse, length_drop.
      replace (m - (length mid - (length mid - m)))%nat with 0%nat by lia.
      rewrite drop_0, reverse_involutive. f_equal. lia.
    - rewrite length_reverse, length_drop. lia. }
  rewrite Hr. case_match eqn:Ez; [|done]. apply andb_true_iff in Ez as [En Em].
  apply Nat.eqb_eq in En, Em. unfold mid. rewrite En, Em, drop_0. simpl. by rewrite Nat.sub_0_r, firstn_all.
Qed.

End TokenPreloadScanner.
