(* ===== verification/IntRect.v ===== *)
(** * Integer rectangles

    [IntRect] of platform/graphics/IntRect.h and IntRect.cpp, as far as regions use it: the
    location and the size as 32-bit integers, and the sums of the edges with their wrap-around. *)
From S2P Require Import Prelude.
From Stdlib Require Import ZArith Lia.
From stdpp Require Import base list numbers option.
#[local] Open Scope Z_scope.

Module IntRect.

Record IntRect : Type := mkRect { x : Z; y : Z; width : Z; height : Z }.

#[global] Instance IntRect_eq_dec : EqDecision IntRect.
Proof. solve_decision. Defined.

Definition emptyRect : IntRect := mkRect 0 0 0 0.

Definition maxX (r : IntRect) : Z := swrap 32 (x r + width r).

Definition maxY (r : IntRect) : Z := swrap 32 (y r + height r).

Definition isEmpty (r : IntRect) : bool := (width r <=? 0) || (height r <=? 0).

Definition move (dx dy : Z) (r : IntRect) : IntRect :=
  mkRect (swrap 32 (x r + dx)) (swrap 32 (y r + dy)) (width r) (height r).

Definition intersects (r other : IntRect) : bool :=
  negb (isEmpty r) && negb (isEmpty other)
  && (x r <? maxX other) && (x other <? maxX r)
  && (y r <? maxY other) && (y other <? maxY r).

Definition contains (r other : IntRect) : bool :=
  (x r <=? x other) && (maxX other <=? maxX r)
  && (y r <=? y other) && (maxY other <=? maxY r).

Definition containsPoint (r : IntRect) (px py : Z) : bool :=
  (x r <=? px) && (px <? maxX r) && (y r <=? py) && (py <? maxY r).

Definition intersect (r other : IntRect) : IntRect :=
  let l := Z.max (x r) (x other) in
  let t := Z.max (y r) (y other) in
  let r' := Z.min (maxX r) (maxX other) in
  let b := Z.min (maxY r) (maxY other) in
  let '(l, t, r', b) :=
    if (r' <=? l) || (b <=? t) then (0, 0, 0, 0) else (l, t, r', b) in
  mkRect l t (swrap 32 (r' - l)) (swrap 32 (b - t)).

Definition unite (r other : IntRect) : IntRect :=
  if isEmpty other then r
  else if isEmpty r then other
  else
    let l := Z.min (x r) (x other) in
    let t := Z.min (y r) (y other) in
    let r' := Z.max (maxX r) (maxX other) in
    let b := Z.max (maxY r) (maxY other) in
    mkRect l t (swrap 32 (r' - l)) (swrap 32 (b - t)).

End IntRect.
