(* ===== verification/Region.v ===== *)
(** * Regions: platform/graphics/Region.h and Region.cpp

    A region is a set of pixels, kept as a vector of spans (the rows at which
    the region changes) and a vector of segments (where each row begins and ends
    to be in the region).  Pointers into the vectors are indices, [None] as a
    pointer is the null pointer; [None] as a result is a failed assertion or an
    access outside a vector.  Coordinates are 32-bit integers. *)
From S2P Require Import Prelude IntRect.
From Stdlib Require Import ZArith Lia.
From stdpp Require Import base list numbers option.
#[local] Open Scope Z_scope.

(** ** [Region::Shape] *)

Module Region.

Record Span : Type := mkSpan { span_y : Z; segmentIndex : nat }.

#[export] Instance Span_eq_dec : EqDecision Span.
Proof. solve_decision. Defined.

Record Shape : Type := mkShape { m_segments : list Z; m_spans : list Span }.

#[export] Instance Shape_eq_dec : EqDecision Shape.
Proof. solve_decision. Defined.

Definition newShape : Shape := mkShape [] [].

Definition shape_isEmpty (sh : Shape) : bool := (length (m_spans sh) =? 0)%nat.

Definition shape_isRect (sh : Shape) : bool :=
  (length (m_spans sh) <=? 2)%nat && (length (m_segments sh) <=? 2)%nat.

Definition shape_gridSize (sh : Shape) : Z :=
  uwrap 32 (Z.of_nat (length (m_spans sh)) * Z.of_nat (length (m_segments sh))).

Definition appendSegment (x : Z) (sh : Shape) : Shape :=
  mkShape (m_segments sh ++ [x]) (m_spans sh).

(** [appendSpan(y)]. *)
Definition appendSpan1 (y : Z) (sh : Shape) : Shape :=
  mkShape (m_segments sh) (m_spans sh ++ [mkSpan y (length (m_segments sh))]).

Definition ofRect (r : IntRect.IntRect) : Shape :=
  appendSpan1 (IntRect.maxY r)
    (appendSegment (IntRect.maxX r) (appendSegment (IntRect.x r) (appendSpan1 (IntRect.y r) newShape))).

(** [segments] are what is between [begin] and [end]. *)
Definition canCoalesce (segments : list Z) (sh : Shape) : bool :=
  match list.last (m_spans sh) with
  | None => false
  | Some lastSpan =>
      let lastSegments := drop (segmentIndex lastSpan) (m_segments sh) in
      (length lastSegments =? length segments)%nat && bool_decide (segments = lastSegments)
  end.

(** [appendSpan(y, begin, end)]. *)
Definition appendSpan (y : Z) (segments : list Z) (sh : Shape) : Shape :=
  if canCoalesce segments sh then sh
  else let sh := appendSpan1 y sh in mkShape (m_segments sh ++ segments) (m_spans sh).

Definition segments_begin (sh : Shape) (it : nat) : option (option nat) :=
  match m_spans sh !! it with
  | None => None
  | Some span =>
      if (segmentIndex span =? length (m_segments sh))%nat then Some None
      else guard! (segmentIndex span <? length (m_segments sh))%nat in Some (Some (segmentIndex span))
  end.

Definition segments_end (sh : Shape) (it : nat) : option (option nat) :=
  match m_spans sh !! it with
  | None => None
  | Some span =>
      if (segmentIndex span =? length (m_segments sh))%nat then Some None
      else
        match m_spans sh !! S it with
        | None => None
        | Some next =>
            guard! (segmentIndex next <=? length (m_segments sh))%nat in Some (Some (segmentIndex next))
        end
  end.

(** What is between [segments_begin(it)] and [segments_end(it)]. *)
Definition segmentsOf (sh : Shape) (it : nat) : option (list Z) :=
  match segments_begin sh it, segments_end sh it with
  | Some (Some b), Some (Some e) =>
      guard! (b <=? e)%nat in Some (take (e - b) (drop b (m_segments sh)))
  | Some None, Some None => Some []
  | _, _ => None
  end.

(** The spans from [it] on; the fuel is the number of them. *)
Fixpoint appendSpans (n : nat) (it : nat) (shape : Shape) (sh : Shape) : option Shape :=
  match n with
  | O => Some sh
  | S n =>
      match m_spans shape !! it, segmentsOf shape it with
      | Some span, Some segments => appendSpans n (S it) shape (appendSpan (span_y span) segments sh)
      | _, _ => None
      end
  end.

(** *** Bounds *)

Definition INT_MAX : Z := 2 ^ 31 - 1.

Definition INT_MIN : Z := - 2 ^ 31.

(** [while (span != lastSpan)], for [n] spans from [it] on. *)
Fixpoint boundsLoop (n : nat) (it : nat) (sh : Shape) (minX maxX : Z) : option (Z * Z) :=
  match n with
  | O => Some (minX, maxX)
  | S n =>
      match segments_begin sh it, segments_end sh it with
      | Some (Some firstSegment), Some (Some end_) =>
          (* lastSegment = segments_end(span) - 1 *)
          guard! negb (S firstSegment =? end_)%nat in
          match m_segments sh !! firstSegment, m_segments sh !! (end_ - 1)%nat with
          | Some first, Some last =>
              guard! negb (end_ =? 0)%nat in
              boundsLoop n (S it) sh (if first <? minX then first else minX) (if maxX <? last then last else maxX)
          | _, _ => None
          end
      | Some None, Some None => boundsLoop n (S it) sh minX maxX
      | _, _ => None
      end
  end.

Definition shape_bounds (sh : Shape) : option IntRect.IntRect :=
  match head (m_spans sh), list.last (m_spans sh) with
  | Some first, Some last =>
      let minY := span_y first in
      let maxY := span_y last in
      match boundsLoop (length (m_spans sh) - 1) 0 sh INT_MAX INT_MIN with
      | None => None
      | Some (minX, maxX) =>
          guard! minX <=? maxX in
          guard! minY <=? maxY in
          Some (IntRect.mkRect minX minY (swrap 32 (maxX - minX)) (swrap 32 (maxY - minY)))
      end
  | _, _ => Some IntRect.emptyRect
  end.

Definition shape_translate (dx dy : Z) (sh : Shape) : Shape :=
  mkShape (map (fun x => swrap 32 (x + dx)) (m_segments sh))
          (map (fun s => mkSpan (swrap 32 (span_y s + dy)) (segmentIndex s)) (m_spans sh)).

(** *** Walking over rows *)

(** [segment != end && segment + 1 != end; segment += 2]. *)
Fixpoint pairs (segments : list Z) : list (Z * Z) :=
  match segments with
  | x :: maxX :: segments => (x, maxX) :: pairs segments
  | _ => []
  end.

Fixpoint validSpans (n : nat) (it : nat) (sh : Shape) : option bool :=
  match n with
  | O => Some true
  | S n =>
      match m_spans sh !! it, m_spans sh !! S it with
      | Some span, Some next =>
          if swrap 32 (span_y next - span_y span) <? 0 then Some false
          else
            match segmentsOf sh it with
            | None => None
            | Some segments =>
                if existsb (fun '(x, maxX) => swrap 32 (maxX - x) <? 0) (pairs segments) then Some false
                else validSpans n (S it) sh
            end
      | _, _ => None
      end
  end.

Definition shape_isValid (sh : Shape) : option bool := validSpans (length (m_spans sh) - 1) 0 sh.

(** ** Comparison *)

(** The functions of an operation return whether to st, and set [result]. *)
Record CompareOperation : Type := mkCompare {
  defaultResult : bool;
  aOutsideB : bool -> bool * bool;
  bOutsideA : bool -> bool * bool;
  aOverlapsB : bool -> bool * bool
}.

Definition CompareContainsOperation : CompareOperation :=
  mkCompare true (fun result => (false, result)) (fun _ => (true, false)) (fun result => (false, result)).

Definition CompareIntersectsOperation : CompareOperation :=
  mkCompare false (fun result => (false, result)) (fun result => (false, result)) (fun _ => (true, true)).

(** [if (condition && test(result)) return result]: [inl] is [return]. *)
Definition stopIf (condition : bool) (test : bool -> bool * bool) (result : bool)
  (k : bool -> option (bool + bool)) : option (bool + bool) :=
  if condition then
    let '(st, result) := test result in
    if st then Some (inl result) else k result
  else k result.

Fixpoint compareSegments (fuel : nat) (op : CompareOperation) (a b : list Z) (result : bool)
  : option (bool + bool) :=
  match fuel with
  | O => None
  | S fuel =>
      match a, b with
      | [], [] => Some (inr result)
      | _ :: _, [] => stopIf true (aOutsideB op) result (fun result => Some (inr result))
      | [], _ :: _ => stopIf true (bOutsideA op) result (fun result => Some (inr result))
      | aX :: aMaxX :: a', bX :: bMaxX :: b' =>
          let segmentsOverlap := (aX <? bMaxX) && (bX <? aMaxX) in
          stopIf segmentsOverlap (aOverlapsB op) result (fun result =>
          stopIf (aX <? bX) (aOutsideB op) result (fun result =>
          stopIf (bX <? aX) (bOutsideA op) result (fun result =>
          if aMaxX <? bMaxX then compareSegments fuel op a' b result
          else if bMaxX <? aMaxX then compareSegments fuel op a b' result
          else compareSegments fuel op a' b' result)))
      | _, _ => None
      end
  end.

(** The spans of [a] from [i] on and those of [b] from [j] on. *)
Fixpoint compareSpans (fuel : nat) (op : CompareOperation) (a b : Shape) (i j : nat)
  (aHadSegmentInPreviousSpan bHadSegmentInPreviousSpan result : bool) : option bool :=
  match fuel with
  | O => None
  | S fuel =>
      match m_spans a !! i, m_spans a !! S i, m_spans b !! j, m_spans b !! S j with
      | Some aSpan, Some aNext, Some bSpan, Some bNext =>
          let aY := span_y aSpan in
          let aMaxY := span_y aNext in
          let bY := span_y bSpan in
          let bMaxY := span_y bNext in
          match segmentsOf a i, segmentsOf b j with
          | Some aSegments, Some bSegments =>
              let aHas := negb (length aSegments =? 0)%nat in
              let bHas := negb (length bSegments =? 0)%nat in
              let spansOverlap := (aY <? bMaxY) && (bY <? aMaxY) in
              match
                stopIf ((aY <? bY) && negb bHadSegmentInPreviousSpan && aHas) (aOutsideB op) result (fun result =>
                stopIf ((bY <? aY) && negb aHadSegmentInPreviousSpan && bHas) (bOutsideA op) result (fun result =>
                if spansOverlap
                then compareSegments (S (length aSegments + length bSegments)) op aSegments bSegments result
                else Some (inr result)))
              with
              | None => None
              | Some (inl result) => Some result
              | Some (inr result) =>
                  if aMaxY <? bMaxY then compareSpans fuel op a b (S i) j aHas bHas result
                  else if bMaxY <? aMaxY then compareSpans fuel op a b i (S j) aHas bHas result
                  else compareSpans fuel op a b (S i) (S j) aHas bHas result
              end
          | _, _ => None
          end
      | aSpan, aNext, bSpan, bNext =>
          match
            stopIf (bool_decide (is_Some aSpan) && bool_decide (is_Some aNext)) (aOutsideB op) result (fun result =>
            stopIf (bool_decide (is_Some bSpan) && bool_decide (is_Some bNext)) (bOutsideA op) result (fun result =>
            Some (inr result)))
          with
          | None => None
          | Some (inl result) | Some (inr result) => Some result
          end
      end
  end.

Definition compareShapes (op : CompareOperation) (a b : Shape) : option bool :=
  compareSpans (S (length (m_spans a) + length (m_spans b))) op a b 0 0 false false (defaultResult op).

(** ** Set operations *)

Record Operation : Type := mkOperation {
  trySimpleOperation : Shape -> Shape -> option Shape;
  opCode : Z;
  shouldAddRemainingSegmentsFromSpan1 : bool;
  shouldAddRemainingSegmentsFromSpan2 : bool;
  shouldAddRemainingSpansFromShape1 : bool;
  shouldAddRemainingSpansFromShape2 : bool
}.

Definition UnionOperation : Operation :=
  mkOperation (fun shape1 shape2 => if shape_isEmpty shape1 then Some shape2 else None) 0 true true true true.

Definition IntersectOperation : Operation :=
  mkOperation (fun _ _ => None) 3 false false false false.

Definition SubtractOperation : Operation :=
  mkOperation (fun _ _ => None) 1 true false true false.

(** The loop over the segments of two rows: the new segments and what is left of
    the rows. *)
Fixpoint mergeLoop (fuel : nat) (op : Z) (s1 s2 : list Z) (flag oldFlag : Z)
  : option (list Z * list Z * list Z) :=
  match fuel with
  | O => None
  | S fuel =>
      match s1, s2 with
      | a :: t1, b :: t2 =>
          let test := swrap 32 (a - b) in
          let '(x, flag, s1) := if test <=? 0 then (a, Z.lxor flag 1, t1) else (0, flag, s1) in
          let '(x, flag, s2) := if 0 <=? test then (b, Z.lxor flag 2, t2) else (x, flag, s2) in
          match mergeLoop fuel op s1 s2 flag flag with
          | None => None
          | Some (segments, r1, r2) =>
              Some (if (flag =? op) || (oldFlag =? op) then x :: segments else segments, r1, r2)
          end
      | _, _ => Some ([], s1, s2)
      end
  end.

Definition mergeSegments (Op : Operation) (s1 s2 : list Z) : option (list Z) :=
  match mergeLoop (S (length s1 + length s2)) (opCode Op) s1 s2 0 0 with
  | None => None
  | Some (segments, r1, r2) =>
      if shouldAddRemainingSegmentsFromSpan1 Op && negb (length r1 =? 0)%nat then Some (segments ++ r1)
      else if shouldAddRemainingSegmentsFromSpan2 Op && negb (length r2 =? 0)%nat then Some (segments ++ r2)
      else Some segments
  end.

(** The row that a shape has from the span [it] on, and the span behind it. *)
Definition nextRow (take : bool) (shape : Shape) (it : nat) (segments : list Z) : option (nat * list Z) :=
  if take then
    match segmentsOf shape it with
    | None => None
    | Some segments => Some (S it, segments)
    end
  else Some (it, segments).

(** The loop over the spans of two shapes: the result and the spans that are
    left. *)
Fixpoint shapeLoop (fuel : nat) (Op : Operation) (shape1 shape2 : Shape) (i j : nat)
  (segments1 segments2 : list Z) (result : Shape) : option (Shape * nat * nat) :=
  match fuel with
  | O => None
  | S fuel =>
      match m_spans shape1 !! i, m_spans shape2 !! j with
      | Some span1, Some span2 =>
          let test := swrap 32 (span_y span1 - span_y span2) in
          let y := if 0 <=? test then span_y span2 else span_y span1 in
          match nextRow (test <=? 0) shape1 i segments1, nextRow (0 <=? test) shape2 j segments2 with
          | Some (i, segments1), Some (j, segments2) =>
              match mergeSegments Op segments1 segments2 with
              | None => None
              | Some segments =>
                  shapeLoop fuel Op shape1 shape2 i j segments1 segments2
                    (if negb (length segments =? 0)%nat || negb (shape_isEmpty result)
                     then appendSpan y segments result else result)
              end
          | _, _ => None
          end
      | _, _ => Some (result, i, j)
      end
  end.

Definition shapeOperation (Op : Operation) (shape1 shape2 : Shape) : option Shape :=
  match trySimpleOperation Op shape1 shape2 with
  | Some result => Some result
  | None =>
      let n1 := length (m_spans shape1) in
      let n2 := length (m_spans shape2) in
      match shapeLoop (S (n1 + n2)) Op shape1 shape2 0 0 [] [] newShape with
      | None => None
      | Some (result, i, j) =>
          if shouldAddRemainingSpansFromShape1 Op && negb (i =? n1)%nat then appendSpans (n1 - i) i shape1 result
          else if shouldAddRemainingSpansFromShape2 Op && negb (j =? n2)%nat then appendSpans (n2 - j) j shape2 result
          else Some result
      end
  end.

Definition unionShapes : Shape -> Shape -> option Shape := shapeOperation UnionOperation.

Definition intersectShapes : Shape -> Shape -> option Shape := shapeOperation IntersectOperation.

Definition subtractShapes : Shape -> Shape -> option Shape := shapeOperation SubtractOperation.

(** ** [Region] *)

Record Region : Type := mkRegion { m_bounds : IntRect.IntRect; m_shape : Shape }.

#[export] Instance Region_eq_dec : EqDecision Region.
Proof. solve_decision. Defined.

Definition newRegion : Region := mkRegion IntRect.emptyRect newShape.

Definition fromRect (r : IntRect.IntRect) : Region := mkRegion r (ofRect r).

Definition isEmpty (r : Region) : bool := IntRect.isEmpty (m_bounds r).

Definition isRect (r : Region) : bool := shape_isRect (m_shape r).

(** [operator==]. *)
Definition equal (a b : Region) : bool :=
  bool_decide (m_bounds a = m_bounds b)
  && (bool_decide (m_spans (m_shape a) = m_spans (m_shape b))
      && bool_decide (m_segments (m_shape a) = m_segments (m_shape b))).

Fixpoint rectsLoop (n : nat) (it : nat) (sh : Shape) : option (list IntRect.IntRect) :=
  match n with
  | O => Some []
  | S n =>
      match m_spans sh !! it, m_spans sh !! S it, segmentsOf sh it with
      | Some span, Some next, Some segments =>
          let y := span_y span in
          let height := swrap 32 (span_y next - y) in
          match rectsLoop n (S it) sh with
          | None => None
          | Some rects =>
              Some (map (fun '(x, maxX) => IntRect.mkRect x y (swrap 32 (maxX - x)) height) (pairs segments) ++ rects)
          end
      | _, _, _ => None
      end
  end.

Definition rects (r : Region) : option (list IntRect.IntRect) :=
  rectsLoop (length (m_spans (m_shape r)) - 1) 0 (m_shape r).

Definition totalArea (r : Region) : option Z :=
  match rects r with
  | None => None
  | Some rects =>
      Some (fold_left (fun area r => uwrap 32 (area + swrap 32 (IntRect.width r * IntRect.height r))) rects 0)
  end.

(** [contains(region)]. *)
Definition contains (r region : Region) : option bool :=
  if negb (IntRect.contains (m_bounds r) (m_bounds region)) then Some false
  else compareShapes CompareContainsOperation (m_shape r) (m_shape region).

Definition intersects (r region : Region) : option bool :=
  if negb (IntRect.intersects (m_bounds r) (m_bounds region)) then Some false
  else compareShapes CompareIntersectsOperation (m_shape r) (m_shape region).

(** The loop over the segments of a row in [contains(point)]. *)
Fixpoint rowContains (segments : list (Z * Z)) (px : Z) : bool :=
  match segments with
  | [] => false
  | (x, maxX) :: segments =>
      if px <? x then false else if px <? maxX then true else rowContains segments px
  end.

Fixpoint pointLoop (n : nat) (it : nat) (sh : Shape) (px py : Z) : option bool :=
  match n with
  | O => Some false
  | S n =>
      match m_spans sh !! it, m_spans sh !! S it with
      | Some span, Some next =>
          if py <? span_y span then Some false
          else if span_y next <=? py then pointLoop n (S it) sh px py
          else
            match segmentsOf sh it with
            | None => None
            | Some segments =>
                if rowContains (pairs segments) px then Some true else pointLoop n (S it) sh px py
            end
      | _, _ => None
      end
  end.

(** [contains(point)]. *)
Definition containsPoint (r : Region) (px py : Z) : option bool :=
  if negb (IntRect.containsPoint (m_bounds r) px py) then Some false
  else pointLoop (length (m_spans (m_shape r)) - 1) 0 (m_shape r) px py.

Definition isValid (r : Region) : option bool := shape_isValid (m_shape r).

Definition updateBoundsFromShape (r : Region) : option Region :=
  match shape_bounds (m_shape r) with
  | None => None
  | Some bounds => Some (mkRegion bounds (m_shape r))
  end.

Definition intersect (r region : Region) : option Region :=
  if IntRect.isEmpty (m_bounds r) then Some r
  else if negb (IntRect.intersects (m_bounds r) (m_bounds region)) then Some newRegion
  else
    match intersectShapes (m_shape r) (m_shape region) with
    | None => None
    | Some shape => updateBoundsFromShape (mkRegion (m_bounds r) shape)
    end.

Definition unite (r region : Region) : option Region :=
  if isEmpty region then Some r
  else if isRect r && IntRect.contains (m_bounds r) (m_bounds region) then Some r
  else if isRect region && IntRect.contains (m_bounds region) (m_bounds r)
  then Some (mkRegion (m_bounds region) (m_shape region))
  else
    match (if negb (isRect r) then contains r region else Some false) with
    | None => None
    | Some true => Some r
    | Some false =>
        match unionShapes (m_shape r) (m_shape region) with
        | None => None
        | Some shape => Some (mkRegion (IntRect.unite (m_bounds r) (m_bounds region)) shape)
        end
    end.

Definition subtract (r region : Region) : option Region :=
  if IntRect.isEmpty (m_bounds r) then Some r
  else if isEmpty region then Some r
  else if negb (IntRect.intersects (m_bounds r) (m_bounds region)) then Some r
  else
    match subtractShapes (m_shape r) (m_shape region) with
    | None => None
    | Some shape => updateBoundsFromShape (mkRegion (m_bounds r) shape)
    end.

Definition translate (dx dy : Z) (r : Region) : Region :=
  mkRegion (IntRect.move dx dy (m_bounds r)) (shape_translate dx dy (m_shape r)).

Example region_example :
  let a := fromRect (IntRect.mkRect 0 0 10 10) in
  let b := fromRect (IntRect.mkRect 5 5 10 10) in
  match unite a b, subtract a b, intersect a b with
  | Some u, Some s, Some i =>
      m_shape u = mkShape [0; 10; 0; 15; 5; 15] [mkSpan 0 0; mkSpan 5 2; mkSpan 10 4; mkSpan 15 6] /\
      totalArea u = Some 175 /\ totalArea s = Some 75 /\ m_bounds i = IntRect.mkRect 5 5 5 5 /\
      contains u i = Some true /\ intersects s i = Some false
  | _, _, _ => False
  end.
Proof. vm_compute. repeat split; reflexivity. Qed.

End Region.
