(* ===== verification/RegionRows.v ===== *)
(** * Regions as rows

    What the vectors of a shape stand for: a list of rows, each with the
    coordinate from which on it is valid and the places where being in the
    region changes.  A row list in normal form is determined by its set of
    points.  [encode] is the representation of rows in the two vectors. *)
From S2P Require Import Prelude IntRect Region.
From Stdlib Require Import ZArith Lia Sorted.
From stdpp Require Import base list numbers option.
#[local] Open Scope Z_scope.
Import Region.

(** ** One row *)

(** Whether [p] is inside: whether an odd number of places are at or before it. *)
Fixpoint inside (segments : list Z) (p : Z) : bool :=
  match segments with
  | [] => false
  | x :: segments => xorb (x <=? p) (inside segments p)
  end.

Definition goodSegments (s : list Z) : Prop := StronglySorted Z.lt s /\ Nat.Even (length s).

Definition inRange (z : Z) : Prop := - 2 ^ 30 <= z < 2 ^ 30.

Lemma inside_before s p : Forall (fun x => p < x) s -> inside s p = false.
Proof. induction 1 as [|x s Hx Hs IH]; [done|]. cbn. rewrite IH. destruct (Z.leb_spec x p); [lia|done]. Qed.

Lemma inside_behind s p : Forall (fun x => x <= p) s -> inside s p = Nat.odd (length s).
Proof.
  induction 1 as [|x s Hx Hs IH]; [done|]. cbn [inside length]. rewrite IH. destruct (Z.leb_spec x p); [|lia].
  rewrite Nat.odd_succ, <- Nat.negb_odd. by destruct (Nat.odd (length s)).
Qed.

Lemma sorted_head x s : StronglySorted Z.lt (x :: s) -> StronglySorted Z.lt s /\ Forall (fun z => x < z) s.
Proof. intros H. by inversion H. Qed.

Lemma inside_head x s : StronglySorted Z.lt (x :: s) -> inside (x :: s) x = true.
Proof.
  intros H. apply sorted_head in H as [_ H]. cbn. rewrite inside_before by done. by rewrite Z.leb_refl.
Qed.

Lemma inside_lt x s p : StronglySorted Z.lt (x :: s) -> p < x -> inside (x :: s) p = false.
Proof.
  intros H Hp. apply sorted_head in H as [_ H]. apply inside_before. constructor; [done|].
  revert H. apply Forall_impl. intros. lia.
Qed.

(** A row is determined by its points. *)
Lemma inside_unique s : forall s', StronglySorted Z.lt s -> StronglySorted Z.lt s' ->
  (forall p, inside s p = inside s' p) -> s = s'.
Proof.
  induction s as [|x s IH]; intros [|x' s'] Hs Hs' E; [done|..].
  - specialize (E x'). by rewrite (inside_head _ _ Hs') in E.
  - specialize (E x). by rewrite (inside_head _ _ Hs) in E.
  - assert (x = x').
    { destruct (Z.lt_trichotomy x x') as [H|[H|H]]; [|done|].
      - specialize (E x). by rewrite (inside_head _ _ Hs), (inside_lt _ _ _ Hs') in E.
      - specialize (E x'). by rewrite (inside_head _ _ Hs'), (inside_lt _ _ _ Hs) in E. }
    subst x'. f_equal. apply IH; [by apply sorted_head in Hs as []|by apply sorted_head in Hs' as []|].
    intros p. specialize (E p). cbn in E. by destruct (x <=? p), (inside s p), (inside s' p).
Qed.

(** ** Rows *)

Abbreviation Row := (Z * list Z)%type.

(** The row at [y], where [cur] is valid before the first one. *)
Fixpoint rowAt (cur : list Z) (rs : list Row) (y : Z) : list Z :=
  match rs with
  | [] => cur
  | (y', s) :: rs => if y' <=? y then rowAt s rs y else cur
  end.

(** The set of points. *)
Definition points (rs : list Row) (x y : Z) : bool := inside (rowAt [] rs y) x.

(** Rows behind [y0] in normal form, where [prev] is valid at [y0]: in order,
    each different from the one before, the last one empty. *)
Fixpoint rowsAfter (y0 : Z) (prev : list Z) (rs : list Row) : Prop :=
  match rs with
  | [] => prev = []
  | (y, s) :: rs => y0 < y /\ s <> prev /\ goodSegments s /\ rowsAfter y s rs
  end.

Definition canonical (rs : list Row) : Prop := exists y0, rowsAfter y0 [] rs.

Definition rangedRow (r : Row) : Prop := inRange r.1 /\ Forall inRange r.2.

Lemma rowsAfter_weaken y0 y1 prev rs : y0 <= y1 -> rowsAfter y1 prev rs -> rowsAfter y0 prev rs.
Proof. destruct rs as [|[y s] rs]; [done|]. cbn. intros ? (? & ?). split; [lia|done]. Qed.

Lemma rowAt_before y0 prev rs y : rowsAfter y0 prev rs -> y <= y0 -> rowAt prev rs y = prev.
Proof. destruct rs as [|[y' s] rs]; [done|]. cbn. intros (? & _) ?. destruct (Z.leb_spec y' y); [lia|done]. Qed.

Lemma rowAt_head y0 prev y s rs : rowsAfter y0 prev ((y, s) :: rs) -> rowAt prev ((y, s) :: rs) y = s.
Proof. cbn. intros (_ & _ & _ & H). rewrite Z.leb_refl. by apply (rowAt_before y). Qed.

Lemma goodSegments_nil : goodSegments [].
Proof. split; [constructor|by exists 0%nat]. Qed.

Lemma rowAt_good y0 prev rs y : goodSegments prev -> rowsAfter y0 prev rs -> goodSegments (rowAt prev rs y).
Proof.
  revert y0 prev. induction rs as [|[y' s] rs IH]; intros y0 prev Hp H; [done|]. cbn in *.
  destruct H as (_ & _ & Hs & H). destruct (y' <=? y); [by apply (IH y')|done].
Qed.

(** Rows in normal form are determined by their points. *)
Lemma rowsAfter_unique rs : forall rs' y0 y0' prev,
  rowsAfter y0 prev rs -> rowsAfter y0' prev rs' -> (forall y, rowAt prev rs y = rowAt prev rs' y) -> rs = rs'.
Proof.
  induction rs as [|[y s] rs IH]; intros [|[y' s'] rs'] y0 y0' prev H H' E; [done|..].
  - specialize (E y'). rewrite (rowAt_head _ _ _ _ _ H') in E. cbn in H'. cbn in E. by destruct H' as (_ & ? & _).
  - specialize (E y). rewrite (rowAt_head _ _ _ _ _ H) in E. cbn in H. cbn in E. by destruct H as (_ & ? & _).
  - assert (y = y').
    { destruct (Z.lt_trichotomy y y') as [Hlt|[Hlt|Hlt]]; [|done|].
      - specialize (E y). rewrite (rowAt_head _ _ _ _ _ H) in E. cbn in E. destruct (Z.leb_spec y' y); [lia|].
        by destruct H as (_ & ? & _).
      - specialize (E y'). rewrite (rowAt_head _ _ _ _ _ H') in E. cbn in E. destruct (Z.leb_spec y y'); [lia|].
        by destruct H' as (_ & ? & _). }
    subst y'. assert (s = s').
    { specialize (E y). by rewrite (rowAt_head _ _ _ _ _ H), (rowAt_head _ _ _ _ _ H') in E. }
    subst s'. f_equal. destruct H as (_ & _ & _ & H), H' as (_ & _ & _ & H'). apply (IH rs' y y s H H').
    intros z. specialize (E z). cbn in E. destruct (Z.leb_spec y z); [done|].
    by rewrite (rowAt_before y), (rowAt_before y s rs') by (done || lia).
Qed.

Lemma canonical_unique rs rs' : canonical rs -> canonical rs' ->
  (forall x y, points rs x y = points rs' x y) -> rs = rs'.
Proof.
  intros [y0 H] [y0' H'] E. apply (rowsAfter_unique rs rs' y0 y0' []); [done|done|]. intros y.
  apply inside_unique; [by apply (rowAt_good y0); [apply goodSegments_nil|]|
    by apply (rowAt_good y0'); [apply goodSegments_nil|]|]. intros p. apply E.
Qed.

(** The last row is empty. *)
Lemma rowsAfter_last y0 prev rs : rowsAfter y0 prev rs -> default prev (snd <$> list.last rs) = [].
Proof.
  revert y0 prev. induction rs as [|[y s] rs IH]; intros y0 prev H; [done|]. destruct H as (_ & _ & _ & H).
  rewrite last_cons. specialize (IH y s H). by destruct (list.last rs) as [[y' s']|].
Qed.

(** ** The representation *)

Fixpoint spansFrom (n : nat) (rs : list Row) : list Span :=
  match rs with
  | [] => []
  | (y, s) :: rs => mkSpan y n :: spansFrom (n + length s) rs
  end.

Definition segmentsIn (rs : list Row) : list Z := concat (map snd rs).

Definition encode (rs : list Row) : Shape := mkShape (segmentsIn rs) (spansFrom 0 rs).

Lemma length_spansFrom rs : forall n, length (spansFrom n rs) = length rs.
Proof. induction rs as [|[y s] rs IH]; intros n; cbn; [done|by rewrite IH]. Qed.

Lemma lookup_spansFrom rs : forall n i,
  spansFrom n rs !! i = (fun r : Row => mkSpan r.1 (n + length (segmentsIn (take i rs)))) <$> rs !! i.
Proof.
  induction rs as [|[y s] rs IH]; intros n [|i]; cbn; [done..|by rewrite Nat.add_0_r|].
  rewrite IH. destruct (rs !! i); [|done]. cbn. unfold segmentsIn. cbn. rewrite length_app. do 2 f_equal. lia.
Qed.

Lemma segmentsIn_app rs rs' : segmentsIn (rs ++ rs') = segmentsIn rs ++ segmentsIn rs'.
Proof. unfold segmentsIn. by rewrite map_app, concat_app. Qed.

Lemma spansFrom_app rs : forall n rs',
  spansFrom n (rs ++ rs') = spansFrom n rs ++ spansFrom (n + length (segmentsIn rs)) rs'.
Proof.
  induction rs as [|[y s] rs IH]; intros n rs'; cbn; [by rewrite Nat.add_0_r|].
  rewrite IH. unfold segmentsIn. cbn. rewrite length_app. do 3 f_equal. lia.
Qed.

Lemma encode_span rs i y s : rs !! i = Some (y, s) ->
  m_spans (encode rs) !! i = Some (mkSpan y (length (segmentsIn (take i rs)))).
Proof. intros E. cbn. by rewrite lookup_spansFrom, E. Qed.

Lemma encode_span_none rs i : rs !! i = None -> m_spans (encode rs) !! i = None.
Proof. intros E. cbn. by rewrite lookup_spansFrom, E. Qed.

(** The segments in front of, in and behind a row. *)
Lemma segmentsIn_split rs i y s : rs !! i = Some (y, s) ->
  segmentsIn rs = segmentsIn (take i rs) ++ s ++ segmentsIn (drop (S i) rs).
Proof.
  intros E. rewrite <- (take_drop_middle rs i (y, s)) at 1 by done. by rewrite segmentsIn_app.
Qed.

Lemma encode_next rs i y s r : rs !! i = Some (y, s) -> rs !! S i = Some r ->
  m_spans (encode rs) !! S i = Some (mkSpan r.1 (length (segmentsIn (take i rs)) + length s)).
Proof.
  intros E E'. destruct r as [y' s']. rewrite (encode_span _ _ _ _ E'). rewrite (take_S_r _ _ _ E), segmentsIn_app.
  unfold segmentsIn. cbn. by rewrite app_nil_r, length_app.
Qed.

(** Only the last row may have its end at the end of the vector. *)
Definition closed (rs : list Row) : Prop := default [] (snd <$> list.last rs) = [].

Lemma canonical_closed rs : canonical rs -> closed rs.
Proof. intros [y0 H]. by apply rowsAfter_last in H. Qed.

Lemma closed_next rs i y s : closed rs -> rs !! i = Some (y, s) -> s <> [] -> is_Some (rs !! S i).
Proof.
  intros Hc E Hs. apply lookup_lt_is_Some. pose proof (lookup_lt_Some _ _ _ E).
  destruct (decide (S i = length rs)) as [El|]; [|lia]. unfold closed in Hc.
  rewrite last_lookup in Hc. replace (pred (length rs)) with i in Hc by lia. by rewrite E in Hc.
Qed.

Lemma segmentsOf_encode rs i y s : closed rs -> rs !! i = Some (y, s) -> segmentsOf (encode rs) i = Some s.
Proof.
  intros Hc E. unfold segmentsOf, segments_begin, segments_end. rewrite (encode_span _ _ _ _ E). cbn [segmentIndex].
  cbn [m_segments encode]. pose proof (segmentsIn_split _ _ _ _ E) as Es.
  assert (El : length (segmentsIn rs) = (length (segmentsIn (take i rs)) + length s + length (segmentsIn (drop (S i) rs)))%nat).
  { by rewrite Es, !length_app, Nat.add_assoc. }
  destruct (Nat.eqb_spec (length (segmentsIn (take i rs))) (length (segmentsIn rs))) as [Eq|Ne].
  - destruct s; [done|simpl in El; lia].
  - destruct (Nat.ltb_spec (length (segmentsIn (take i rs))) (length (segmentsIn rs))); [|lia].
    assert (Hn : is_Some (rs !! S i)).
    { destruct (decide (s = [])) as [->|Hs]; [|by apply (closed_next rs i y s)].
      apply lookup_lt_is_Some. destruct (decide (S i < length rs)%nat); [done|].
      rewrite drop_ge in El by lia. simpl in El. lia. }
    destruct Hn as [r Er]. change (spansFrom 0 rs !! S i) with (m_spans (encode rs) !! S i).
    rewrite (encode_next _ _ _ _ _ E Er). cbn [segmentIndex].
    destruct (Nat.leb_spec (length (segmentsIn (take i rs)) + length s) (length (segmentsIn rs))); [|lia].
    destruct (Nat.leb_spec (length (segmentsIn (take i rs))) (length (segmentsIn (take i rs)) + length s)); [|lia].
    f_equal. rewrite Es, drop_app_length.
    replace (_ - _)%nat with (length s) by lia. by rewrite take_app_length.
Qed.

(** *** Appending *)

Definition lastSegments (rs : list Row) : list Z := default [] (snd <$> list.last rs).

Lemma appendSpan_encode y s rs :
  appendSpan y s (encode rs) = encode (if bool_decide (rs <> [] /\ s = lastSegments rs) then rs else rs ++ [(y, s)]).
Proof.
  unfold appendSpan, canCoalesce. destruct (list.last rs) as [[y' s']|] eqn:El.
  - apply last_Some in El as [rs' ->]. cbn [m_spans m_segments encode]. rewrite spansFrom_app. cbn [spansFrom].
    rewrite last_snoc. cbn [segmentIndex Nat.add]. rewrite segmentsIn_app, drop_app_length.
    assert (E1 : segmentsIn [(y', s')] = s') by (unfold segmentsIn; cbn; by rewrite app_nil_r). rewrite E1.
    assert (E2 : lastSegments (rs' ++ [(y', s')]) = s') by (unfold lastSegments; by rewrite last_snoc). rewrite E2.
    destruct (decide (s = s')) as [->|Hne].
    + rewrite Nat.eqb_refl, !bool_decide_eq_true_2 by (done || (split; [by destruct rs'|done])). cbn [andb].
      done.
    + rewrite (bool_decide_eq_false_2 (s = s')), andb_false_r, bool_decide_eq_false_2 by (done || by intros [_ ?]).
      unfold appendSpan1, encode. cbn [m_spans m_segments]. rewrite !spansFrom_app, !segmentsIn_app. cbn.
      by rewrite !app_nil_r.
  - apply last_None in El as ->. rewrite bool_decide_eq_false_2 by (by intros [? _]).
    unfold encode, appendSpan1, segmentsIn. cbn. by rewrite app_nil_r.
Qed.

(** The vectors determine the rows. *)
Lemma spansFrom_inj rs : forall n rs', spansFrom n rs = spansFrom n rs' -> segmentsIn rs = segmentsIn rs' -> rs = rs'.
Proof.
  induction rs as [|[y s] rs IH]; intros n [|[y' s'] rs'] E1 E2; [done..|]. cbn in E1. injection E1 as -> E1.
  assert (El : length s = length s').
  { destruct rs as [|[y1 s1] rs], rs' as [|[y1' s1'] rs']; cbn in E1; try done; [|injection E1; lia].
    unfold segmentsIn in E2. cbn in E2. by rewrite !app_nil_r in E2; subst. }
  rewrite <- El in E1. unfold segmentsIn in E2. cbn in E2. apply app_inj_1 in E2 as [-> E2]; [|done].
  f_equal. by apply (IH _ rs' E1).
Qed.

Lemma encode_inj rs rs' : m_spans (encode rs) = m_spans (encode rs') ->
  m_segments (encode rs) = m_segments (encode rs') -> rs = rs'.
Proof. apply spansFrom_inj. Qed.
