(* ===== verification/RegionOperations.v ===== *)
(** * The set operations on shapes

    Union, intersection and difference of shapes in normal form are shapes in
    normal form, of the union, intersection and difference of their points. *)
From S2P Require Import Prelude IntRect Region RegionRows.
From Stdlib Require Import ZArith Lia Sorted.
From stdpp Require Import base list numbers option sets.
#[local] Open Scope Z_scope.
Import Region.

(** What an operation computes. *)
Inductive computes : Operation -> (bool -> bool -> bool) -> Prop :=
| computes_union : computes UnionOperation orb
| computes_intersect : computes IntersectOperation andb
| computes_subtract : computes SubtractOperation (fun a b => a && negb b).

(** ** Rows *)

Lemma swrap_sub a b : inRange a -> inRange b -> swrap 32 (a - b) = a - b.
Proof. unfold inRange. intros. apply swrap_id; change (32 - 1) with 31; lia. Qed.

Definition flagOf (b1 b2 : bool) : Z := (if b1 then 1 else 0) + (if b2 then 2 else 0).

(** What [mergeSegments] does with the rest. *)
Definition addRest (Op : Operation) (segments r1 r2 : list Z) : list Z :=
  if shouldAddRemainingSegmentsFromSpan1 Op && negb (length r1 =? 0)%nat then segments ++ r1
  else if shouldAddRemainingSegmentsFromSpan2 Op && negb (length r2 =? 0)%nat then segments ++ r2
  else segments.

Definition hit (Op : Operation) (b1 b2 : bool) : bool := flagOf b1 b2 =? opCode Op.

Lemma addRest_cons Op x segments r1 r2 : addRest Op (x :: segments) r1 r2 = x :: addRest Op segments r1 r2.
Proof. unfold addRest. by repeat destruct (_ && _). Qed.

(** When one row is at its end. *)
Lemma addRest_end Op f s1 s2 p : computes Op f -> (s1 = [] \/ s2 = []) ->
  inside (addRest Op [] s1 s2) p
  = xorb (hit Op (Nat.odd (length s1)) (Nat.odd (length s2)))
      (hit Op (xorb (Nat.odd (length s1)) (inside s1 p)) (xorb (Nat.odd (length s2)) (inside s2 p))).
Proof.
  intros Hop Hend. destruct Hop; unfold addRest, hit, flagOf; cbn;
    (destruct Hend as [->| ->]; [destruct s2 as [|x2 s2]|destruct s1 as [|x1 s1]]; cbn [length Nat.eqb negb app Nat.odd Nat.even]);
    try done; change (inside [] p) with false; repeat match goal with |- context [inside ?s p] => destruct (inside s p) end;
    repeat match goal with |- context [Nat.odd ?n] => destruct (Nat.odd n) end; done.
Qed.

(** The result of a merge of [s1] and [s2], the rest included. *)
Definition merged (Op : Operation) (s1 s2 r : list Z) : Prop :=
  StronglySorted Z.lt r /\ (forall x, x ∈ r -> x ∈ s1 \/ x ∈ s2) /\
  forall p, inside r p
    = xorb (hit Op (Nat.odd (length s1)) (Nat.odd (length s2)))
        (hit Op (xorb (Nat.odd (length s1)) (inside s1 p)) (xorb (Nat.odd (length s2)) (inside s2 p))).

Lemma sorted_cons x r : StronglySorted Z.lt r -> (forall z, z ∈ r -> x < z) -> StronglySorted Z.lt (x :: r).
Proof. intros H Hx. constructor; [done|]. by apply list.Forall_forall. Qed.

Lemma odd_succ n : Nat.odd (S n) = negb (Nat.odd n).
Proof. by rewrite Nat.odd_succ, <- Nat.negb_odd. Qed.

(** One step: the places [x] of [c1] and [c2] (none or one of them each) are
    taken from the front of the two rows. *)
Lemma merged_step Op x (t1 t2 : bool) s1 s2 r : (t1 || t2)%bool = true ->
  (forall z, z ∈ s1 \/ z ∈ s2 -> x < z) -> merged Op s1 s2 r ->
  let u1 := if t1 then x :: s1 else s1 in
  let u2 := if t2 then x :: s2 else s2 in
  merged Op u1 u2
    (if hit Op (Nat.odd (length s1)) (Nat.odd (length s2)) || hit Op (Nat.odd (length u1)) (Nat.odd (length u2))
     then x :: r else r).
Proof.
  intros Ht Hx (Hs & Hin & Hp) u1 u2.
  assert (Hu : forall z, z ∈ s1 \/ z ∈ s2 -> z ∈ u1 \/ z ∈ u2).
  { intros z. subst u1 u2. destruct t1, t2; rewrite ?elem_of_cons; tauto. }
  assert (Hxu : x ∈ u1 \/ x ∈ u2).
  { subst u1 u2. destruct t1; [left|right; destruct t2; [|done]]; apply list_elem_of_here. }
  split_and!.
  - split_if; [|done]. apply sorted_cons; [done|]. intros z Hz. by apply Hx, Hin.
  - intros z. split_if; intros Hz; [|by apply Hu, Hin]. apply elem_of_cons in Hz as [->|Hz]; [done|by apply Hu, Hin].
  - intros p. specialize (Hp p).
    assert (Hb : forall s, (forall z, z ∈ s -> x < z) -> p < x -> inside s p = false).
    { intros s Hs' Hpx. apply inside_before, list.Forall_forall. intros z Hz. specialize (Hs' z Hz). lia. }
    assert (E1 : inside u1 p = xorb (t1 && (x <=? p)) (inside s1 p)) by (subst u1; destruct t1; [done|by destruct (inside s1 p)]).
    assert (E2 : inside u2 p = xorb (t2 && (x <=? p)) (inside s2 p)) by (subst u2; destruct t2; [done|by destruct (inside s2 p)]).
    assert (O1 : Nat.odd (length u1) = xorb t1 (Nat.odd (length s1))).
    { subst u1. destruct t1; [cbn [length]; rewrite odd_succ|]; by destruct (Nat.odd (length s1)). }
    assert (O2 : Nat.odd (length u2) = xorb t2 (Nat.odd (length s2))).
    { subst u2. destruct t2; [cbn [length]; rewrite odd_succ|]; by destruct (Nat.odd (length s2)). }
    assert (Er : inside (if hit Op (Nat.odd (length s1)) (Nat.odd (length s2)) || hit Op (Nat.odd (length u1)) (Nat.odd (length u2))
       then x :: r else r) p = xorb ((hit Op (Nat.odd (length s1)) (Nat.odd (length s2))
         || hit Op (Nat.odd (length u1)) (Nat.odd (length u2))) && (x <=? p)) (inside r p)).
    { split_if; cbn [inside andb]; [done|by destruct (inside r p)]. }
    rewrite Er, E1, E2, O1, O2, Hp. destruct (Z.leb_spec x p) as [Hle|Hlt].
    + revert Ht. unfold hit, flagOf. generalize (opCode Op). intros op.
      destruct t1, t2; cbn [orb]; [..|done]; intros _;
        destruct (Nat.odd (length s1)), (Nat.odd (length s2)), (inside s1 p), (inside s2 p);
        cbn [xorb negb andb]; repeat match goal with |- context [?a =? op] => destruct (Z.eqb_spec a op) end; done || lia.
    + rewrite (Hb s1), (Hb s2) by (done || (intros; apply Hx; by (left + right))).
      rewrite !andb_false_r, !xorb_false_r, !xorb_nilpotent. done.
Qed.

Lemma merged_emit Op x (t1 t2 : bool) s1 s2 segments r1 r2 : (t1 || t2)%bool = true ->
  (forall z, z ∈ s1 \/ z ∈ s2 -> x < z) -> merged Op s1 s2 (addRest Op segments r1 r2) ->
  let u1 := if t1 then x :: s1 else s1 in
  let u2 := if t2 then x :: s2 else s2 in
  merged Op u1 u2
    (addRest Op (if (flagOf (Nat.odd (length s1)) (Nat.odd (length s2)) =? opCode Op)
                    || (flagOf (Nat.odd (length u1)) (Nat.odd (length u2)) =? opCode Op)
                 then x :: segments else segments) r1 r2).
Proof.
  intros Ht Hx Hm u1 u2. pose proof (merged_step Op x t1 t2 s1 s2 _ Ht Hx Hm) as H. cbn zeta in H. unfold hit in H.
  subst u1 u2. clear Ht. revert H. by destruct (_ || _); rewrite ?addRest_cons.
Qed.

Lemma flag_first (a : Z) s c : Z.lxor (flagOf (Nat.odd (length (a :: s))) c) 1 = flagOf (Nat.odd (length s)) c.
Proof. cbn [length]. rewrite odd_succ. by destruct (Nat.odd (length s)), c. Qed.

Lemma flag_second (b : Z) s c : Z.lxor (flagOf c (Nat.odd (length (b :: s)))) 2 = flagOf c (Nat.odd (length s)).
Proof. cbn [length]. rewrite odd_succ. by destruct (Nat.odd (length s)), c. Qed.

(** The loop, from flags that agree with what is left of the rows. *)
Lemma mergeLoop_ok Op f fuel : computes Op f -> forall s1 s2,
  (length s1 + length s2 < fuel)%nat -> StronglySorted Z.lt s1 -> StronglySorted Z.lt s2 ->
  Forall inRange s1 -> Forall inRange s2 ->
  exists segments r1 r2,
    mergeLoop fuel (opCode Op) s1 s2 (flagOf (Nat.odd (length s1)) (Nat.odd (length s2)))
      (flagOf (Nat.odd (length s1)) (Nat.odd (length s2))) = Some (segments, r1, r2) /\
    merged Op s1 s2 (addRest Op segments r1 r2).
Proof.
  intros Hop. induction fuel as [|fuel IH]; intros s1 s2 Hf H1 H2 R1 R2; [lia|].
  destruct s1 as [|a t1]; [|destruct s2 as [|b t2]].
  - exists [], [], s2. split; [done|]. split_and!; [..|intros p; apply (addRest_end _ f); [done|by left]].
    + unfold addRest. destruct (_ && _); [constructor|]. by destruct (_ && _); [|constructor].
    + intros z. unfold addRest. repeat split_if; rewrite ?elem_of_nil; tauto.
  - exists [], (a :: t1), []. split; [done|]. split_and!; [..|intros p; apply (addRest_end _ f); [done|by right]].
    + unfold addRest. destruct (_ && _); [done|]. by destruct (_ && _); constructor.
    + intros z. unfold addRest. repeat split_if; rewrite ?elem_of_nil; tauto.
  - pose proof (sorted_head _ _ H1) as [S1 G1]. pose proof (sorted_head _ _ H2) as [S2 G2].
    rewrite list.Forall_forall in G1, G2. inversion R1 as [|? ? Ra R1']; subst. inversion R2 as [|? ? Rb R2']; subst.
    cbn [mergeLoop]. rewrite swrap_sub by done. cbn [length] in Hf.
    destruct (Z.lt_trichotomy a b) as [Hab|[->|Hab]].
    + destruct (Z.leb_spec (a - b) 0), (Z.leb_spec 0 (a - b)); try lia. rewrite flag_first.
      destruct (IH t1 (b :: t2)) as (segments & r1 & r2 & -> & Hm); try done; [simpl; lia|].
      eexists _, r1, r2. split; [reflexivity|]. apply (merged_emit Op a true false); [done| |done].
      intros z [Hz|Hz]; [by apply G1|]. apply elem_of_cons in Hz as [->|Hz]; [done|]. specialize (G2 z Hz). lia.
    + rewrite Z.sub_diag. cbn [Z.leb Z.compare]. rewrite flag_first, flag_second.
      destruct (IH t1 t2) as (segments & r1 & r2 & -> & Hm); try done; [lia|].
      eexists _, r1, r2. split; [reflexivity|]. apply (merged_emit Op b true true); [done| |done].
      intros z [Hz|Hz]; [by apply G1|by apply G2].
    + destruct (Z.leb_spec (a - b) 0), (Z.leb_spec 0 (a - b)); try lia. rewrite flag_second.
      destruct (IH (a :: t1) t2) as (segments & r1 & r2 & -> & Hm); try done; [simpl; lia|].
      eexists _, r1, r2. split; [reflexivity|]. apply (merged_emit Op b false true); [done| |done].
      intros z [Hz|Hz]; [|by apply G2]. apply elem_of_cons in Hz as [->|Hz]; [done|]. specialize (G1 z Hz). lia.
Qed.

(** Two rows are merged into the row of the operation. *)
Lemma mergeSegments_ok Op f s1 s2 : computes Op f -> goodSegments s1 -> goodSegments s2 ->
  Forall inRange s1 -> Forall inRange s2 ->
  exists s, mergeSegments Op s1 s2 = Some s /\ goodSegments s /\ Forall inRange s /\
    forall p, inside s p = f (inside s1 p) (inside s2 p).
Proof.
  intros Hop [S1 L1] [S2 L2] R1 R2.
  assert (O1 : Nat.odd (length s1) = false) by (apply Nat.even_spec in L1; by rewrite <- Nat.negb_even, L1).
  assert (O2 : Nat.odd (length s2) = false) by (apply Nat.even_spec in L2; by rewrite <- Nat.negb_even, L2).
  destruct (mergeLoop_ok Op f (S (length s1 + length s2)) Hop s1 s2) as (segments & r1 & r2 & E & Hs & Hin & Hp); try done; [lia|].
  rewrite O1, O2 in E, Hp. change (flagOf false false) with 0 in E.
  assert (Hf : forall p, inside (addRest Op segments r1 r2) p = f (inside s1 p) (inside s2 p)).
  { intros p. rewrite Hp. destruct Hop, (inside s1 p), (inside s2 p); done. }
  exists (addRest Op segments r1 r2). unfold mergeSegments. rewrite E.
  assert (Hr : Forall inRange (addRest Op segments r1 r2)).
  { apply list.Forall_forall. intros z Hz. destruct (Hin z Hz) as [H|H];
      [by apply (proj1 (list.Forall_forall _ _) R1)|by apply (proj1 (list.Forall_forall _ _) R2)]. }
  split; [unfold addRest; by repeat split_if|]. split_and!; try done. split; [done|].
  apply Nat.even_spec. rewrite <- Nat.negb_odd.
  assert (Hbehind : forall s, Forall inRange s -> Forall (fun x => x <= 2 ^ 30) s).
  { intros s. apply List.Forall_impl. unfold inRange. intros. lia. }
  rewrite <- (inside_behind _ (2 ^ 30)), Hf, !inside_behind, O1, O2 by (by apply Hbehind). by destruct Hop.
Qed.

(** ** Shapes *)

(** Appending a row that is the same as the last one changes nothing. *)
Lemma appendRow_encode y s res :
  (if negb (length s =? 0)%nat || negb (shape_isEmpty (encode res)) then appendSpan y s (encode res) else encode res)
  = encode (if bool_decide (s = lastSegments res) then res else res ++ [(y, s)]).
Proof.
  unfold shape_isEmpty. cbn [m_spans encode]. rewrite length_spansFrom, appendSpan_encode.
  destruct res as [|r res].
  - cbn [length Nat.eqb negb]. rewrite orb_false_r, (bool_decide_eq_false_2 (_ /\ _)) by (by intros [? _]).
    by destruct s.
  - cbn [length Nat.eqb negb]. rewrite orb_true_r. f_equal.
    rewrite (bool_decide_ext (r :: res <> [] /\ s = lastSegments (r :: res)) (s = lastSegments (r :: res))); [done|].
    split; [by intros [_ ?]|done].
Qed.

Lemma lastSegments_append y s res :
  lastSegments (if bool_decide (s = lastSegments res) then res else res ++ [(y, s)]) = s.
Proof. case_bool_decide as E; [done|]. unfold lastSegments. by rewrite last_snoc. Qed.

Lemma appendSpans_encode a : closed a -> forall n it res y0, (n + it = length a)%nat ->
  rowsAfter y0 (lastSegments res) (drop it a) ->
  appendSpans n it (encode a) (encode res) = Some (encode (res ++ drop it a)).
Proof.
  intros Hc. induction n as [|n IH]; intros it res y0 Hn Hr.
  - rewrite drop_ge by lia. by rewrite app_nil_r.
  - destruct (lookup_lt_is_Some_2 a it) as [[y s] E]; [lia|]. cbn [appendSpans].
    rewrite (encode_span _ _ _ _ E), (segmentsOf_encode _ _ _ _ Hc E). cbn [span_y].
    rewrite (drop_S _ _ _ E) in Hr |- *. destruct Hr as (_ & Hne & _ & Hr). rewrite appendSpan_encode.
    rewrite bool_decide_eq_false_2 by (by intros [_ ?]).
    rewrite (IH (S it) (res ++ [(y, s)]) y); [by rewrite <- app_assoc|lia|].
    unfold lastSegments. by rewrite last_snoc.
Qed.

(** Going on to the row [y] of the shape [a]: its next row, if that begins there. *)
Definition goesOn (y : Z) (a : list Row) (i : nat) (s : list Z) (i' : nat) (s' : list Z) : Prop :=
  (a !! i = Some (y, s') /\ i' = S i) \/ (i' = i /\ s' = s /\ exists y' t, a !! i = Some (y', t) /\ y < y').

Definition rangedRows (a : list Row) : Prop := Forall rangedRow a.

Lemma goesOn_ok y0 y a i s i' s' : rangedRows a -> goodSegments s -> Forall inRange s ->
  rowsAfter y0 s (drop i a) -> y0 < y -> goesOn y a i s i' s' ->
  rowsAfter y s' (drop i' a) /\ goodSegments s' /\ Forall inRange s' /\
  (length (drop i' a) <= length (drop i a))%nat /\
  forall z, rowAt s (drop i a) z = if y <=? z then rowAt s' (drop i' a) z else s.
Proof.
  intros Ha Hs Hrs Hr Hy [[E ->]|(-> & -> & y' & t & E & Hy')].
  - rewrite (drop_S _ _ _ E) in Hr |- *. pose proof Hr as (_ & _ & Hg & Hr').
    pose proof (proj1 (Forall_lookup _ _) Ha _ _ E) as [_ Hrs']. split_and!; try done. cbn. lia.
  - rewrite (drop_S _ _ _ E) in Hr |- *. destruct Hr as (H1 & H2 & H3 & H4). split_and!; try done.
    intros z. cbn. destruct (Z.leb_spec y' z), (Z.leb_spec y z); try done. lia.
Qed.

(** The end of [shapeOperation]. *)
Definition addRemaining (Op : Operation) (a b : Shape) (r : option (Shape * nat * nat)) : option Shape :=
  match r with
  | None => None
  | Some (result, i, j) =>
      let n1 := length (m_spans a) in
      let n2 := length (m_spans b) in
      if shouldAddRemainingSpansFromShape1 Op && negb (i =? n1)%nat then appendSpans (n1 - i) i a result
      else if shouldAddRemainingSpansFromShape2 Op && negb (j =? n2)%nat then appendSpans (n2 - j) j b result
      else Some result
  end.

(** The rows [ext] that are added for the rows [a] and [b], when [s1], [s2] and
    [cur] are the rows at [y0]. *)
Definition extension (f : bool -> bool -> bool) (y0 : Z) (s1 s2 cur : list Z) (a b ext : list Row) : Prop :=
  rowsAfter y0 cur ext /\ rangedRows ext /\
  forall x y, inside (rowAt cur ext y) x = f (inside (rowAt s1 a y) x) (inside (rowAt s2 b y) x).

Lemma remaining_ok Op f a b i j y0 s1 s2 res : computes Op f -> closed a -> closed b ->
  (i <= length a)%nat -> (j <= length b)%nat -> drop i a = [] \/ drop j b = [] ->
  rangedRows a -> rangedRows b -> goodSegments s1 -> goodSegments s2 ->
  rowsAfter y0 s1 (drop i a) -> rowsAfter y0 s2 (drop j b) -> goodSegments (lastSegments res) ->
  (forall x, inside (lastSegments res) x = f (inside s1 x) (inside s2 x)) ->
  exists ext, addRemaining Op (encode a) (encode b) (Some (encode res, i, j)) = Some (encode (res ++ ext)) /\
    extension f y0 s1 s2 (lastSegments res) (drop i a) (drop j b) ext.
Proof.
  intros Hop Ca Cb Hi Hj Hend Ra Rb G1 G2 H1 H2 Gc Hc. cbn [addRemaining m_spans encode].
  rewrite !length_spansFrom.
  assert (Hnone : forall (l : list Row) k, (k <= length l)%nat -> drop k l = [] <-> k = length l).
  { intros l k Hk. split; [|intros ->; by rewrite drop_ge]. intros E. apply (f_equal length) in E.
    rewrite length_drop in E. simpl in E. lia. }
  assert (Hdone : lastSegments res = [] -> (forall x y, f (inside (rowAt s1 (drop i a) y) x) (inside (rowAt s2 (drop j b) y) x) = false) ->
    exists ext, Some (encode res) = Some (encode (res ++ ext)) /\
      extension f y0 s1 s2 (lastSegments res) (drop i a) (drop j b) ext).
  { intros E Hf. exists []. rewrite app_nil_r. split; [done|]. split_and!; [done|constructor|]. intros x y. cbn. by rewrite E, Hf. }
  assert (Hfirst : s2 = [] -> drop j b = [] -> (forall c, f c false = c) ->
    exists ext, appendSpans (length a - i) i (encode a) (encode res) = Some (encode (res ++ ext)) /\
      extension f y0 s1 s2 (lastSegments res) (drop i a) (drop j b) ext).
  { intros -> Eb Hf. assert (E : lastSegments res = s1).
    { apply inside_unique; [apply Gc|apply G1|]. intros p. by rewrite Hc, Hf. }
    exists (drop i a). rewrite E. split; [apply (appendSpans_encode a Ca _ _ _ y0); [lia|by rewrite E]|].
    split_and!; [done|by apply Forall_drop|]. intros x y. by rewrite Eb, Hf. }
  assert (Hsecond : s1 = [] -> drop i a = [] -> (forall c, f false c = c) ->
    exists ext, appendSpans (length b - j) j (encode b) (encode res) = Some (encode (res ++ ext)) /\
      extension f y0 s1 s2 (lastSegments res) (drop i a) (drop j b) ext).
  { intros -> Ea Hf. assert (E : lastSegments res = s2).
    { apply inside_unique; [apply Gc|apply G2|]. intros p. by rewrite Hc, Hf. }
    exists (drop j b). rewrite E. split; [apply (appendSpans_encode b Cb _ _ _ y0); [lia|by rewrite E]|].
    split_and!; [done|by apply Forall_drop|]. intros x y. by rewrite Ea, Hf. }
  assert (Hempty : (forall x, f (inside s1 x) (inside s2 x) = false) -> lastSegments res = []).
  { intros Hf. apply inside_unique; [apply Gc|constructor|]. intros p. by rewrite Hc, Hf. }
  assert (Ha : i = length a -> s1 = [] /\ drop i a = []).
  { intros E. apply Hnone in E; [|done]. rewrite E in H1. done. }
  assert (Hb : j = length b -> s2 = [] /\ drop j b = []).
  { intros E. apply Hnone in E; [|done]. rewrite E in H2. done. }
  rewrite !Hnone in Hend by done.
  destruct (Nat.eqb_spec i (length a)) as [Ei|Ni].
  - destruct (Ha Ei) as [-> Ea]. rewrite Ea in *. rewrite andb_false_r.
    destruct (Nat.eqb_spec j (length b)) as [Ej|Nj].
    + destruct (Hb Ej) as [-> Eb]. rewrite Eb in *. rewrite andb_false_r.
      assert (f false false = false) by (by destruct Hop). apply Hdone; [by apply Hempty|done].
    + destruct Hop; cbn [andb negb shouldAddRemainingSpansFromShape2 UnionOperation IntersectOperation SubtractOperation];
        [by apply Hsecond|apply Hdone; [by apply Hempty|done]..].
  - destruct Hend as [?|Ej]; [done|]. destruct (Hb Ej) as [-> Eb]. rewrite Eb in *.
    rewrite (proj2 (Nat.eqb_eq _ _) Ej). cbn [negb]. rewrite andb_false_r, andb_true_r.
    destruct Hop; cbn [shouldAddRemainingSpansFromShape1 UnionOperation IntersectOperation SubtractOperation].
    + apply Hfirst; [done|done|by intros []].
    + apply Hdone; [apply Hempty|]; intros; apply andb_false_r.
    + apply Hfirst; [done|done|by intros []].
Qed.

Lemma shapeLoop_ok Op f a b fuel : computes Op f -> closed a -> closed b -> rangedRows a -> rangedRows b ->
  forall i j y0 s1 s2 res, (i <= length a)%nat -> (j <= length b)%nat ->
  (length (drop i a) + length (drop j b) < fuel)%nat ->
  goodSegments s1 -> goodSegments s2 -> Forall inRange s1 -> Forall inRange s2 ->
  rowsAfter y0 s1 (drop i a) -> rowsAfter y0 s2 (drop j b) -> goodSegments (lastSegments res) ->
  (forall x, inside (lastSegments res) x = f (inside s1 x) (inside s2 x)) ->
  exists ext, addRemaining Op (encode a) (encode b) (shapeLoop fuel Op (encode a) (encode b) i j s1 s2 (encode res))
      = Some (encode (res ++ ext)) /\
    extension f y0 s1 s2 (lastSegments res) (drop i a) (drop j b) ext.
Proof.
  intros Hop Ca Cb Ra Rb. induction fuel as [|fuel IH]; intros i j y0 s1 s2 res Hi Hj Hf G1 G2 R1 R2 H1 H2 Gc Hc; [lia|].
  cbn [shapeLoop].
  destruct (a !! i) as [[y1 t1]|] eqn:Ea; [destruct (b !! j) as [[y2 t2]|] eqn:Eb|].
  2:{ rewrite (encode_span _ _ _ _ Ea), (encode_span_none _ _ Eb). apply remaining_ok; try done. right.
      apply drop_ge. by apply lookup_ge_None. }
  2:{ rewrite (encode_span_none _ _ Ea). apply remaining_ok; try done. left. apply drop_ge. by apply lookup_ge_None. }
  rewrite (encode_span _ _ _ _ Ea), (encode_span _ _ _ _ Eb). cbn [span_y].
  pose proof (proj1 (Forall_lookup _ _) Ra _ _ Ea) as [Ry1 _]. pose proof (proj1 (Forall_lookup _ _) Rb _ _ Eb) as [Ry2 _].
  cbn [fst] in Ry1, Ry2. rewrite swrap_sub by done.
  assert (Hlt : y0 < y1 /\ y0 < y2).
  { rewrite (drop_S _ _ _ Ea) in H1. rewrite (drop_S _ _ _ Eb) in H2. destruct H1 as [? _], H2 as [? _]. done. }
  assert (T : exists y i' j' s1' s2', y = (if 0 <=? y1 - y2 then y2 else y1) /\ inRange y /\ y0 < y /\
    nextRow (y1 - y2 <=? 0) (encode a) i s1 = Some (i', s1') /\ nextRow (0 <=? y1 - y2) (encode b) j s2 = Some (j', s2') /\
    goesOn y a i s1 i' s1' /\ goesOn y b j s2 j' s2' /\ (i' <= length a)%nat /\ (j' <= length b)%nat /\
    (length (drop i' a) + length (drop j' b) < length (drop i a) + length (drop j b))%nat).
  { pose proof (lookup_lt_Some _ _ _ Ea). pose proof (lookup_lt_Some _ _ _ Eb). unfold nextRow.
    rewrite (segmentsOf_encode _ _ _ _ Ca Ea), (segmentsOf_encode _ _ _ _ Cb Eb), !length_drop.
    destruct (Z.lt_trichotomy y1 y2) as [Hy|[->|Hy]].
    - destruct (Z.leb_spec (y1 - y2) 0), (Z.leb_spec 0 (y1 - y2)); try lia.
      exists y1, (S i), j, t1, s2. rewrite !length_drop. split_and!; try done; try lia; [by left|right; split_and!; [done|done|by eauto]].
    - rewrite Z.sub_diag. exists y2, (S i), (S j), t1, t2. rewrite !length_drop. split_and!; try done; try lia; by left.
    - destruct (Z.leb_spec (y1 - y2) 0), (Z.leb_spec 0 (y1 - y2)); try lia.
      exists y2, i, (S j), s1, t2. rewrite !length_drop. split_and!; try done; try lia; [right; split_and!; [done|done|by eauto]|by left]. }
  destruct T as (y & i' & j' & s1' & s2' & <- & Ry & Hy & -> & -> & O1 & O2 & Hi' & Hj' & Hlen).
  destruct (goesOn_ok _ _ _ _ _ _ _ Ra G1 R1 H1 Hy O1) as (H1' & G1' & R1' & _ & F1).
  destruct (goesOn_ok _ _ _ _ _ _ _ Rb G2 R2 H2 Hy O2) as (H2' & G2' & R2' & _ & F2).
  destruct (mergeSegments_ok Op f s1' s2' Hop G1' G2' R1' R2') as (s & -> & Gs & Rs & Hs).
  rewrite appendRow_encode.
  destruct (IH i' j' y s1' s2' (if bool_decide (s = lastSegments res) then res else res ++ [(y, s)]))
    as (ext & E & Hext); try done; rewrite ?lastSegments_append; try done; [lia|].
  rewrite lastSegments_append in Hext. rewrite E. destruct Hext as (X1 & X2 & X3).
  exists (if bool_decide (s = lastSegments res) then ext else (y, s) :: ext). split.
  { case_bool_decide; [done|]. by rewrite <- app_assoc. }
  assert (X : forall z, rowAt (lastSegments res) (if bool_decide (s = lastSegments res) then ext else (y, s) :: ext) z
    = if y <=? z then rowAt s ext z else lastSegments res).
  { intros z. case_bool_decide as Es; [|done]. rewrite <- Es. destruct (Z.leb_spec y z); [done|]. by apply (rowAt_before y); [|lia]. }
  split_and!.
  - case_bool_decide as Es; [rewrite <- Es; by apply (rowsAfter_weaken _ y); [lia|]|done].
  - case_bool_decide as Es; [done|]. constructor; [done|done].
  - intros x z. rewrite X, F1, F2. destruct (y <=? z); [apply X3|apply Hc].
Qed.

(** The operations on shapes in normal form. *)
Lemma shapeOperation_ok Op f a b : computes Op f -> canonical a -> canonical b -> rangedRows a -> rangedRows b ->
  exists r, shapeOperation Op (encode a) (encode b) = Some (encode r) /\ canonical r /\ rangedRows r /\
    forall x y, points r x y = f (points a x y) (points b x y).
Proof.
  intros Hop Ca Cb Ra Rb. destruct (trySimpleOperation Op (encode a) (encode b)) as [sh|] eqn:Es.
  - destruct Hop; try done. cbn in Es. destruct a as [|[y s] a]; [|done]. injection Es as <-.
    exists b. split; [done|]. split_and!; done.
  - unfold shapeOperation. rewrite Es. destruct Ca as [ya Ca], Cb as [yb Cb].
    destruct (shapeLoop_ok Op f a b (S (length a + length b)) Hop (rowsAfter_last _ _ _ Ca) (rowsAfter_last _ _ _ Cb) Ra Rb
      0 0 (Z.min ya yb) [] [] []) as (ext & E & H1 & H2 & H3);
      rewrite ?drop_0; try done; try lia; try apply goodSegments_nil.
    + apply (rowsAfter_weaken _ ya); [lia|done].
    + apply (rowsAfter_weaken _ yb); [lia|done].
    + intros x. cbn. by destruct Hop.
    + unfold addRemaining in E. cbn [m_spans encode] in E |- *. rewrite !length_spansFrom in E |- *.
      exists ext. split; [exact E|]. split_and!; [by eexists|done|]. intros x y. unfold points. by rewrite H3, !drop_0.
Qed.
