(* ===== verification/RegionCompare.v ===== *)
(** * The comparison and the bounds of shapes

    [compareShapes] decides whether one shape contains the other, and whether they
    intersect.  The bounds of a shape are the smallest rectangle around its points, and a
    region that keeps its invariant has exactly these bounds. *)
From S2P Require Import Prelude IntRect Region RegionRows RegionOperations.
From Stdlib Require Import ZArith Lia Sorted.
From stdpp Require Import base list numbers option.
#[local] Open Scope Z_scope.
Import Region.

(** ** Rows *)

Lemma inside_pair x m s p : StronglySorted Z.lt (x :: m :: s) ->
  inside (x :: m :: s) p = ((x <=? p) && (p <? m)) || inside s p.
Proof.
  intros H. apply sorted_head in H as [H Hx]. apply sorted_head in H as [_ Hm]. inversion Hx as [|? ? Hxm _]; subst.
  cbn [inside]. destruct (Z.ltb_spec p m), (Z.leb_spec m p), (Z.leb_spec x p); try lia; cbn [andb orb xorb negb].
  - rewrite inside_before; [done|]. revert Hm. apply List.Forall_impl. intros. lia.
  - by destruct (inside s p).
  - by destruct (inside s p).
Qed.

Lemma inside_ge x s p : StronglySorted Z.lt (x :: s) -> inside (x :: s) p = true -> x <= p.
Proof. intros H Hp. destruct (Z.leb_spec x p); [done|]. by rewrite (inside_lt _ _ _ H) in Hp by lia. Qed.

Lemma pair_rest x m s : StronglySorted Z.lt (x :: m :: s) ->
  x < m /\ StronglySorted Z.lt s /\ forall p, inside s p = true -> m < p.
Proof.
  intros H. apply sorted_head in H as [H Hx]. inversion Hx as [|? ? Hxm _]; subst.
  apply sorted_head in H as [H Hm]. split_and!; [done|done|]. intros p Hp.
  destruct (Z.ltb_spec m p); [done|]. rewrite inside_before in Hp; [done|].
  revert Hm. apply List.Forall_impl. intros. lia.
Qed.

Lemma good_cases s : goodSegments s ->
  s = [] \/ exists x m s', s = x :: m :: s' /\ StronglySorted Z.lt s /\ goodSegments s'.
Proof.
  intros [Hs [n Hn]]. destruct s as [|x [|m s]]; [by left|cbn in Hn; lia|]. right. exists x, m, s.
  split; [done|]. split; [done|]. split; [by apply pair_rest in Hs as (_ & ? & _)|]. exists (n - 1)%nat. cbn in Hn. lia.
Qed.

(** The answers: to go on, or to stop with a point that decides the question. *)
Definition rowsContained (a b : list Z) (r : option (bool + bool)) : Prop :=
  (r = Some (inr true) /\ forall p, inside b p = true -> inside a p = true) \/
  (r = Some (inl false) /\ exists p, inside b p = true /\ inside a p = false).

Definition rowsIntersect (a b : list Z) (r : option (bool + bool)) : Prop :=
  (r = Some (inr false) /\ forall p, inside b p = true -> inside a p = false) \/
  (r = Some (inl true) /\ exists p, inside b p = true /\ inside a p = true).

Lemma contains_step fuel aX aM a' bX bM b' :
  compareSegments (S fuel) CompareContainsOperation (aX :: aM :: a') (bX :: bM :: b') true
  = if bX <? aX then Some (inl false) else
    if aM <? bM then compareSegments fuel CompareContainsOperation a' (bX :: bM :: b') true
    else if bM <? aM then compareSegments fuel CompareContainsOperation (aX :: aM :: a') b' true
    else compareSegments fuel CompareContainsOperation a' b' true.
Proof. cbn [compareSegments]. unfold stopIf. cbn. by destruct ((aX <? bM) && (bX <? aM)), (aX <? bX), (bX <? aX). Qed.

Lemma intersects_step fuel aX aM a' bX bM b' :
  compareSegments (S fuel) CompareIntersectsOperation (aX :: aM :: a') (bX :: bM :: b') false
  = if (aX <? bM) && (bX <? aM) then Some (inl true) else
    if aM <? bM then compareSegments fuel CompareIntersectsOperation a' (bX :: bM :: b') false
    else if bM <? aM then compareSegments fuel CompareIntersectsOperation (aX :: aM :: a') b' false
    else compareSegments fuel CompareIntersectsOperation a' b' false.
Proof. cbn [compareSegments]. unfold stopIf. cbn. by destruct ((aX <? bM) && (bX <? aM)), (aX <? bX), (bX <? aX). Qed.

Lemma compareSegments_contains fuel : forall a b, (length a + length b < fuel)%nat ->
  goodSegments a -> goodSegments b ->
  rowsContained a b (compareSegments fuel CompareContainsOperation a b true).
Proof.
  induction fuel as [|fuel IH]; intros a b Hf Ga Gb; [lia|].
  destruct (good_cases a Ga) as [->|(aX & aM & a' & -> & Sa & Ga')]; destruct (good_cases b Gb) as [->|(bX & bM & b' & -> & Sb & Gb')].
  - by left.
  - right. split; [done|]. exists bX. split; [by apply inside_head|done].
  - by left.
  - rewrite contains_step.
    destruct (pair_rest _ _ _ Sa) as (HaM & Sa' & La), (pair_rest _ _ _ Sb) as (HbM & Sb' & Lb). cbn [length] in Hf.
    destruct (Z.ltb_spec bX aX) as [Hlt|Hge].
    { right. split; [done|]. exists bX. split; [by apply inside_head|by apply inside_lt]. }
    destruct (Z.ltb_spec aM bM) as [H1|H1]; [|destruct (Z.ltb_spec bM aM) as [H2|H2]].
    + destruct (IH a' (bX :: bM :: b')) as [[-> Hp]|[-> (p & Hp & Hq)]]; try done; [simpl; lia|..].
      * left. split; [done|]. intros p Hp'. by rewrite (inside_pair _ _ _ _ Sa), (Hp p Hp'), orb_true_r.
      * right. split; [done|]. destruct (inside (aX :: aM :: a') p) eqn:E; [|by exists p].
        assert (Hp1 : p < aM). { rewrite (inside_pair _ _ _ _ Sa), Hq, orb_false_r in E. bool_to_prop. lia. }
        exists aM. split.
        -- rewrite (inside_pair _ _ _ _ Sb). pose proof (inside_ge _ _ _ Sb Hp).
           destruct (Z.leb_spec bX aM), (Z.ltb_spec aM bM); (done || lia).
        -- rewrite (inside_pair _ _ _ _ Sa). destruct (Z.ltb_spec aM aM); [lia|]. rewrite andb_false_r. cbn.
           destruct (inside a' aM) eqn:E'; [|done]. apply La in E'. lia.
    + destruct (IH (aX :: aM :: a') b') as [[-> Hp]|[-> (p & Hp & Hq)]]; try done; [simpl; lia|..].
      * left. split; [done|]. intros p Hp'. rewrite (inside_pair _ _ _ _ Sb) in Hp'.
        apply orb_true_iff in Hp' as [Hp'|Hp']; [|by apply Hp]. rewrite (inside_pair _ _ _ _ Sa).
        bool_to_prop. destruct (Z.leb_spec aX p), (Z.ltb_spec p aM); (done || lia).
      * right. split; [done|]. exists p. split; [|done]. by rewrite (inside_pair _ _ _ _ Sb), Hp, orb_true_r.
    + destruct (IH a' b') as [[-> Hp]|[-> (p & Hp & Hq)]]; try done; [lia|..].
      * left. split; [done|]. intros p Hp'. rewrite (inside_pair _ _ _ _ Sb) in Hp'. rewrite (inside_pair _ _ _ _ Sa).
        apply orb_true_iff in Hp' as [Hp'|Hp']; [|by rewrite Hp, orb_true_r].
        bool_to_prop. destruct (Z.leb_spec aX p), (Z.ltb_spec p aM); (done || lia).
      * right. split; [done|]. exists p. rewrite (inside_pair _ _ _ _ Sb), (inside_pair _ _ _ _ Sa), Hp, Hq, orb_true_r.
        split; [done|]. apply Lb in Hp. destruct (Z.ltb_spec p aM); [lia|]. by rewrite andb_false_r.
Qed.

Lemma compareSegments_intersects fuel : forall a b, (length a + length b < fuel)%nat ->
  goodSegments a -> goodSegments b ->
  rowsIntersect a b (compareSegments fuel CompareIntersectsOperation a b false).
Proof.
  induction fuel as [|fuel IH]; intros a b Hf Ga Gb; [lia|].
  destruct (good_cases a Ga) as [->|(aX & aM & a' & -> & Sa & Ga')]; destruct (good_cases b Gb) as [->|(bX & bM & b' & -> & Sb & Gb')];
    [by left..|].
  rewrite intersects_step. cbn [length] in Hf.
  destruct (pair_rest _ _ _ Sa) as (HaM & Sa' & La), (pair_rest _ _ _ Sb) as (HbM & Sb' & Lb).
  destruct ((aX <? bM) && (bX <? aM)) eqn:Hov.
  { right. split; [done|]. bool_to_prop. exists (Z.max aX bX). rewrite (inside_pair _ _ _ _ Sa), (inside_pair _ _ _ _ Sb).
    destruct (Z.leb_spec bX (Z.max aX bX)), (Z.leb_spec aX (Z.max aX bX)), (Z.ltb_spec (Z.max aX bX) bM),
      (Z.ltb_spec (Z.max aX bX) aM); (done || lia). }
  assert (Hno : bM <= aX \/ aM <= bX).
  { apply andb_false_iff in Hov as [H|H]; apply Z.ltb_ge in H; lia. }
  assert (Hstep : forall u v r, rowsIntersect u v r ->
    (forall p, inside v p = true -> inside (bX :: bM :: b') p = true) ->
    (forall p, inside u p = true -> inside (aX :: aM :: a') p = true) ->
    (forall p, inside (bX :: bM :: b') p = true -> inside (aX :: aM :: a') p = true -> inside v p = true /\ inside u p = true) ->
    rowsIntersect (aX :: aM :: a') (bX :: bM :: b') r).
  { intros u v r [[-> H]|[-> (p & H1 & H2)]] Hb Ha Hboth; [left|right]; (split; [done|]); [|by exists p; auto].
    intros p Hp. destruct (inside (aX :: aM :: a') p) eqn:E; [|done]. destruct (Hboth p Hp E) as [Hv Hu].
    by rewrite (H p Hv) in Hu. }
  assert (Ia : forall p, inside (aX :: aM :: a') p = true -> (aX <= p < aM) \/ inside a' p = true).
  { intros p. rewrite (inside_pair _ _ _ _ Sa). intros [H|H]%orb_true_iff; [left|by right]. bool_to_prop. lia. }
  assert (Ib : forall p, inside (bX :: bM :: b') p = true -> (bX <= p < bM) \/ inside b' p = true).
  { intros p. rewrite (inside_pair _ _ _ _ Sb). intros [H|H]%orb_true_iff; [left|by right]. bool_to_prop. lia. }
  assert (Ja : forall p, inside a' p = true -> inside (aX :: aM :: a') p = true).
  { intros p H. by rewrite (inside_pair _ _ _ _ Sa), H, orb_true_r. }
  assert (Jb : forall p, inside b' p = true -> inside (bX :: bM :: b') p = true).
  { intros p H. by rewrite (inside_pair _ _ _ _ Sb), H, orb_true_r. }
  destruct (Z.ltb_spec aM bM) as [H1|H1]; [|destruct (Z.ltb_spec bM aM) as [H2|H2]].
  - apply (Hstep a' (bX :: bM :: b')); [apply IH; [simpl; lia|done|done]|done|done|]. intros p Hb Ha. split; [done|].
    pose proof (inside_ge _ _ _ Sb Hb). destruct (Ia p Ha); [lia|done].
  - apply (Hstep (aX :: aM :: a') b'); [apply IH; [simpl; lia|done|done]|done|done|]. intros p Hb Ha. split; [|done].
    pose proof (inside_ge _ _ _ Sa Ha). destruct (Ib p Hb); [lia|done].
  - apply (Hstep a' b'); [apply IH; [lia|done|done]|done|done|]. intros p Hb Ha.
    pose proof (inside_ge _ _ _ Sa Ha). pose proof (inside_ge _ _ _ Sb Hb).
    destruct (Ia p Ha), (Ib p Hb); try lia; done.
Qed.

(** ** Shapes *)

(** A suffix of the rows of a shape. *)
Definition rowSuffix (A : list Row) : Prop := exists y0 prev, rowsAfter y0 prev A.

Lemma rowSuffix_two y s y' s' A : rowSuffix ((y, s) :: (y', s') :: A) ->
  y < y' /\ s' <> s /\ goodSegments s /\ goodSegments s' /\ rowSuffix ((y', s') :: A).
Proof. intros (y0 & prev & _ & _ & Hs & Hy & Hne & Hs' & H). split_and!; try done. by exists y, s. Qed.

Lemma rowSuffix_one r : rowSuffix [r] -> r.2 = [].
Proof. destruct r as [y s]. by intros (y0 & prev & _ & _ & _ & H). Qed.

Lemma row_nonempty s : goodSegments s -> s <> [] -> exists x, inside s x = true.
Proof. intros [Hs _] Hne. destruct s as [|x s]; [done|]. exists x. by apply inside_head. Qed.

(** Of two rows that follow each other one is not empty. *)
Lemma two_rows_nonempty y s y' s' A : rowSuffix ((y, s) :: (y', s') :: A) ->
  exists z x, y' - 1 <= z /\ inside (rowAt [] ((y, s) :: (y', s') :: A) z) x = true.
Proof.
  intros H. pose proof (rowSuffix_two _ _ _ _ _ H) as (Hy & Hne & Hs & Hs' & (y0 & prev & H')).
  destruct (decide (s' = [])) as [->|Hs0].
  - destruct (row_nonempty s Hs) as [x Hx]; [congruence|]. exists (y' - 1), x. split; [lia|]. cbn.
    destruct (Z.leb_spec y (y' - 1)), (Z.leb_spec y' (y' - 1)); try lia. done.
  - destruct (row_nonempty s' Hs' Hs0) as [x Hx]. exists y', x. split; [lia|]. cbn.
    destruct (Z.leb_spec y y'); [|lia]. rewrite Z.leb_refl. cbn in H'. destruct H' as (_ & _ & _ & H').
    by rewrite (rowAt_before y' _ _ _ H').
Qed.

Lemma stop_false (c : bool) r k : stopIf c (fun r => (false, r)) r k = k r.
Proof. by destruct c. Qed.

(** One round of [compareSpans] on the rows [A] and [B] that are left. *)
Lemma compareSpans_step fuel op a b i j aHad bHad result aY sa aM sa' A bY sb bM sb' B :
  closed a -> closed b ->
  drop i a = (aY, sa) :: (aM, sa') :: A -> drop j b = (bY, sb) :: (bM, sb') :: B ->
  compareSpans (S fuel) op (encode a) (encode b) i j aHad bHad result =
  let aHas := negb (length sa =? 0)%nat in
  let bHas := negb (length sb =? 0)%nat in
  match
    stopIf ((aY <? bY) && negb bHad && aHas) (aOutsideB op) result (fun result =>
    stopIf ((bY <? aY) && negb aHad && bHas) (bOutsideA op) result (fun result =>
    if (aY <? bM) && (bY <? aM)
    then compareSegments (S (length sa + length sb)) op sa sb result
    else Some (inr result)))
  with
  | None => None
  | Some (inl result) => Some result
  | Some (inr result) =>
      if aM <? bM then compareSpans fuel op (encode a) (encode b) (S i) j aHas bHas result
      else if bM <? aM then compareSpans fuel op (encode a) (encode b) i (S j) aHas bHas result
      else compareSpans fuel op (encode a) (encode b) (S i) (S j) aHas bHas result
  end.
Proof.
  intros Ca Cb Ea Eb.
  assert (E0 : a !! i = Some (aY, sa)) by (rewrite <- (Nat.add_0_r i), <- lookup_drop, Ea; done).
  assert (E1 : a !! S i = Some (aM, sa')) by (rewrite <- Nat.add_1_r, <- lookup_drop, Ea; done).
  assert (E2 : b !! j = Some (bY, sb)) by (rewrite <- (Nat.add_0_r j), <- lookup_drop, Eb; done).
  assert (E3 : b !! S j = Some (bM, sb')) by (rewrite <- Nat.add_1_r, <- lookup_drop, Eb; done).
  cbn [compareSpans].
  rewrite (encode_span _ _ _ _ E0), (encode_span _ _ _ _ E1), (encode_span _ _ _ _ E2), (encode_span _ _ _ _ E3),
    (segmentsOf_encode _ _ _ _ Ca E0), (segmentsOf_encode _ _ _ _ Cb E2). done.
Qed.

Definition atLeastTwo (A : list Row) : bool := (2 <=? length A)%nat.

Lemma compareSpans_end fuel op a b i j aHad bHad result :
  atLeastTwo (drop i a) && atLeastTwo (drop j b) = false ->
  compareSpans (S fuel) op (encode a) (encode b) i j aHad bHad result =
  match
    stopIf (atLeastTwo (drop i a)) (aOutsideB op) result (fun result =>
    stopIf (atLeastTwo (drop j b)) (bOutsideA op) result (fun result => Some (inr result)))
  with
  | None => None
  | Some (inl result) | Some (inr result) => Some result
  end.
Proof.
  intros Hend.
  assert (T : forall (l : list Row) k, atLeastTwo (drop k l) =
    bool_decide (is_Some (m_spans (encode l) !! k)) && bool_decide (is_Some (m_spans (encode l) !! S k))).
  { intros l k. unfold atLeastTwo. rewrite length_drop. cbn [m_spans encode].
    rewrite !lookup_spansFrom. destruct (l !! k) as [r|] eqn:E1.
    - pose proof (lookup_lt_Some _ _ _ E1). destruct (l !! S k) as [r'|] eqn:E2.
      + pose proof (lookup_lt_Some _ _ _ E2). apply Nat.leb_le. lia.
      + apply lookup_ge_None in E2. apply Nat.leb_gt. lia.
    - apply lookup_ge_None in E1. apply Nat.leb_gt. lia. }
  rewrite !T in Hend |- *. cbn [compareSpans].
  destruct (m_spans (encode a) !! i) eqn:E0; [|done]. destruct (m_spans (encode a) !! S i) eqn:E1; [|done].
  destruct (m_spans (encode b) !! j) eqn:E2; [|done]. destruct (m_spans (encode b) !! S j) eqn:E3; [|done].
  by rewrite !bool_decide_eq_true_2 in Hend.
Qed.

(** *** Containment *)

(** What is above the first row of [A] has been compared already, if the row
    before it was not empty. *)
Definition toCompare (A : list Row) (aHad : bool) (y : Z) : Prop :=
  match A with [] => True | (aY, _) :: _ => aHad = true -> aY <= y end.

Definition contained (A B : list Row) (aHad : bool) (r : option bool) : Prop :=
  (r = Some true /\ forall y x, toCompare A aHad y -> inside (rowAt [] B y) x = true -> inside (rowAt [] A y) x = true) \/
  (r = Some false /\ exists y x, toCompare A aHad y /\ inside (rowAt [] B y) x = true /\ inside (rowAt [] A y) x = false).

(** [B] begins above [A] only as long as nothing was compared. *)
Definition inStep (A B : list Row) (aHad : bool) : Prop :=
  match A, B with
  | (aY, _) :: _, (bY, sb) :: (bM, _) :: _ => aY <= bY \/ aY < bM \/ (aHad = false /\ sb <> [])
  | _, _ => True
  end.

Lemma contained_end A B aHad : rowSuffix A -> rowSuffix B -> inStep A B aHad ->
  atLeastTwo A && atLeastTwo B = false ->
  contained A B aHad (if atLeastTwo B then Some false else Some true).
Proof.
  intros HA HB Hstep Hend. destruct B as [|[bY sb] [|[bM sb'] B]]; cbn [atLeastTwo length Nat.leb].
  - by left.
  - left. split; [done|]. intros y x _. apply rowSuffix_one in HB. cbn in HB. subst sb. cbn. by destruct (bY <=? y).
  - right. split; [done|]. destruct (two_rows_nonempty _ _ _ _ _ HB) as (z & x & Hz & Hx). exists z, x.
    pose proof (rowSuffix_two _ _ _ _ _ HB) as (Hlt & _).
    destruct A as [|[aY sa] [|r A]]; [done| |done]. cbn [toCompare inStep] in *. split_and!; [|done|].
    + intros ->. destruct Hstep as [?|[?|[? _]]]; [lia|lia|done].
    + apply rowSuffix_one in HA. cbn in HA. subst sa. cbn. by destruct (aY <=? z).
Qed.

(** What a round has found out about the rows it has compared. *)
Lemma contained_round aHad aY sa aM sa' A bY sb bM sb' B r :
  rowSuffix ((aY, sa) :: (aM, sa') :: A) -> rowSuffix ((bY, sb) :: (bM, sb') :: B) ->
  inStep ((aY, sa) :: (aM, sa') :: A) ((bY, sb) :: (bM, sb') :: B) aHad ->
  (bY < aY -> aHad = false -> sb = []) ->
  (aY < bM -> bY < aM -> forall p, inside sb p = true -> inside sa p = true) ->
  (if aM <? bM then contained ((aM, sa') :: A) ((bY, sb) :: (bM, sb') :: B) (negb (length sa =? 0)%nat) r
   else if bM <? aM then contained ((aY, sa) :: (aM, sa') :: A) ((bM, sb') :: B) (negb (length sa =? 0)%nat) r
   else contained ((aM, sa') :: A) ((bM, sb') :: B) (negb (length sa =? 0)%nat) r) ->
  contained ((aY, sa) :: (aM, sa') :: A) ((bY, sb) :: (bM, sb') :: B) aHad r.
Proof.
  intros HA HB Hstep Habove Hover Hrest.
  destruct (rowSuffix_two _ _ _ _ _ HA) as (Ha & _), (rowSuffix_two _ _ _ _ _ HB) as (Hb & _).
  assert (Hnil : sb = [] -> forall x, inside sb x <> true) by (by intros ->).
  assert (Hsa : sa = [] \/ negb (length sa =? 0)%nat = true) by (destruct sa; [by left|by right]).
  unfold contained in *. cbn [toCompare inStep rowAt] in *.
  assert (Hlow : forall y x, y < aM -> y < bM -> (aHad = true -> aY <= y) ->
    inside (if bY <=? y then sb else []) x = true -> inside (if aY <=? y then sa else []) x = true).
  { intros y x H1 H2 Hc. destruct (Z.leb_spec bY y); [|done]. intros Hx. destruct (Z.leb_spec aY y); [apply Hover; [lia..|done]|].
    destruct aHad; [by specialize (Hc eq_refl); lia|]. destruct (Hnil (Habove ltac:(lia) eq_refl) x Hx). }
  assert (Hbelow : bY < bM -> bM <= aY -> aHad = true \/ sb = [] -> False).
  { intros _ H [->| ->]; destruct Hstep as [?|[?|[? ?]]]; done || lia. }
  destruct (Z.ltb_spec aM bM) as [C1|C1]; [|destruct (Z.ltb_spec bM aM) as [C2|C2]];
    (destruct Hrest as [[-> H]|[-> (y & x & Hc & Hx & Hno)]]; [left|right]; (split; [done|])).
  - intros y x Hc Hx. specialize (H y x). specialize (Hlow y x). destruct (Z.leb_spec aM y).
    + destruct (Z.leb_spec aY y); [|lia]. by apply H.
    + destruct (Z.leb_spec bM y); [lia|]. by apply Hlow.
  - exists y, x. destruct (Z.leb_spec aM y); [destruct (Z.leb_spec aY y); [done|lia]|].
    destruct Hsa as [->|Hsa]; [|specialize (Hc Hsa); lia]. destruct (Z.leb_spec bY y); [|done].
    destruct (Z.leb_spec bM y); [lia|]. by rewrite (Hover ltac:(lia) ltac:(lia) x Hx) in Hno.
  - intros y x Hc Hx. specialize (H y x). specialize (Hlow y x). destruct (Z.leb_spec bM y).
    + apply H; [|by destruct (Z.leb_spec bY y); [|lia]]. intros _. destruct (Z.leb_spec aY y); [done|]. exfalso.
      apply Hbelow; [done|lia|]. destruct aHad; [by left|right; apply Habove; [lia|done]].
    + destruct (Z.leb_spec aM y); [lia|]. by apply Hlow.
  - exists y, x. destruct (Z.leb_spec bM y); [|done]. split; [|destruct (Z.leb_spec bY y); [done|lia]].
    intros Had. destruct (Z.leb_spec aY y); [done|]. exfalso. apply Hbelow; [done|lia|by left].
  - intros y x Hc Hx. specialize (H y x). specialize (Hlow y x). destruct (Z.leb_spec aM y).
    + destruct (Z.leb_spec aY y), (Z.leb_spec bM y), (Z.leb_spec bY y); try lia. by apply H.
    + destruct (Z.leb_spec bM y); [lia|]. by apply Hlow.
  - exists y, x. destruct (Z.leb_spec bM y); [|done].
    destruct (Z.leb_spec aM y), (Z.leb_spec aY y), (Z.leb_spec bY y); try lia. done.
Qed.

Lemma compareSpans_contains a b : closed a -> closed b -> forall fuel i j aHad bHad,
  (length (drop i a) + length (drop j b) < fuel)%nat -> rowSuffix (drop i a) -> rowSuffix (drop j b) ->
  inStep (drop i a) (drop j b) aHad ->
  contained (drop i a) (drop j b) aHad
    (compareSpans fuel CompareContainsOperation (encode a) (encode b) i j aHad bHad true).
Proof.
  intros Ca Cb. induction fuel as [|fuel IH]; intros i j aHad bHad Hf HA HB Hstep; [lia|].
  destruct (atLeastTwo (drop i a) && atLeastTwo (drop j b)) eqn:Hend.
  2:{ rewrite compareSpans_end by done. cbn [aOutsideB bOutsideA CompareContainsOperation]. rewrite stop_false.
      replace (match _ with None => None | Some _ => _ end) with (if atLeastTwo (drop j b) then Some false else Some true)
        by (by destruct (atLeastTwo (drop j b))). by apply contained_end. }
  apply andb_prop in Hend as [H1 H2].
  destruct (drop i a) as [|[aY sa] [|[aM sa'] A]] eqn:Ea; [done..|].
  destruct (drop j b) as [|[bY sb] [|[bM sb'] B]] eqn:Eb; [done..|].
  rewrite (compareSpans_step _ _ _ _ _ _ _ _ _ _ _ _ _ _ _ _ _ _ _ Ca Cb Ea Eb). cbv zeta.
  cbn [aOutsideB bOutsideA CompareContainsOperation]. rewrite stop_false.
  pose proof (rowSuffix_two _ _ _ _ _ HA) as (Ha & _ & Ga & _ & HA').
  pose proof (rowSuffix_two _ _ _ _ _ HB) as (Hb & _ & Gb & _ & HB').
  assert (Da : drop (S i) a = (aM, sa') :: A) by (rewrite <- Nat.add_1_r, <- drop_drop, Ea; done).
  assert (Db : drop (S j) b = (bM, sb') :: B) by (rewrite <- Nat.add_1_r, <- drop_drop, Eb; done).
  destruct ((bY <? aY) && negb aHad && negb (length sb =? 0)%nat) eqn:Habove; cbn [stopIf].
  { right. split; [done|]. bool_to_prop. destruct sb as [|x sb]; [done|]. exists bY, x. cbn [toCompare rowAt]. subst aHad.
    rewrite Z.leb_refl. destruct (Z.leb_spec bM bY), (Z.leb_spec aY bY); try lia. split_and!; [done| |done].
    apply inside_head, Gb. }
  assert (Hab : bY < aY -> aHad = false -> sb = []).
  { intros H ->. destruct (Z.ltb_spec bY aY); [|lia]. by destruct sb. }
  assert (Hrounds : (aY < bM -> bY < aM -> forall p, inside sb p = true -> inside sa p = true) ->
    contained ((aY, sa) :: (aM, sa') :: A) ((bY, sb) :: (bM, sb') :: B) aHad
      (if aM <? bM then compareSpans fuel CompareContainsOperation (encode a) (encode b) (S i) j (negb (length sa =? 0)%nat) (negb (length sb =? 0)%nat) true
       else if bM <? aM then compareSpans fuel CompareContainsOperation (encode a) (encode b) i (S j) (negb (length sa =? 0)%nat) (negb (length sb =? 0)%nat) true
       else compareSpans fuel CompareContainsOperation (encode a) (encode b) (S i) (S j) (negb (length sa =? 0)%nat) (negb (length sb =? 0)%nat) true)).
  { intros Hover. apply contained_round; try done. cbn [length] in Hf.
    destruct (Z.ltb_spec aM bM); [|destruct (Z.ltb_spec bM aM)].
    - rewrite <- Da, <- Eb. apply IH; rewrite ?Da, ?Eb; try done; [cbn; lia|]. cbn. right. by left.
    - rewrite <- Ea, <- Db. apply IH; rewrite ?Ea, ?Db; try done; [cbn; lia|]. cbn [inStep] in *. destruct B; [done|].
      destruct p. left. destruct Hstep as [?|[?|[-> Hne]]]; [lia..|]. destruct (Z.ltb_spec bY aY); [|lia]. by destruct Hne, Hab.
    - rewrite <- Da, <- Db. apply IH; rewrite ?Da, ?Db; try done; [cbn; lia|]. cbn. destruct B; [done|]. destruct p. left. lia. }
  destruct ((aY <? bM) && (bY <? aM)) eqn:Hov.
  - destruct (compareSegments_contains (S (length sa + length sb)) sa sb) as [[-> Hp]|[-> (p & Hp & Hq)]]; try done; [lia|..].
    + by apply Hrounds.
    + right. split; [done|]. bool_to_prop. exists (Z.max aY bY), p. cbn [toCompare rowAt].
      destruct (Z.leb_spec aY (Z.max aY bY)), (Z.leb_spec bY (Z.max aY bY)), (Z.leb_spec aM (Z.max aY bY)),
        (Z.leb_spec bM (Z.max aY bY)); try lia. done.
  - apply Hrounds. intros H3 H4. apply andb_false_iff in Hov as [H|H]; apply Z.ltb_ge in H; lia.
Qed.

(** *** Intersection *)

Definition intersecting (A B : list Row) (r : option bool) : Prop :=
  (r = Some false /\ forall y x, inside (rowAt [] B y) x = true -> inside (rowAt [] A y) x = false) \/
  (r = Some true /\ exists y x, inside (rowAt [] B y) x = true /\ inside (rowAt [] A y) x = true).

Lemma intersecting_round aY sa aM sa' A bY sb bM sb' B r :
  rowSuffix ((aY, sa) :: (aM, sa') :: A) -> rowSuffix ((bY, sb) :: (bM, sb') :: B) ->
  (aY < bM -> bY < aM -> forall p, inside sb p = true -> inside sa p = false) ->
  (if aM <? bM then intersecting ((aM, sa') :: A) ((bY, sb) :: (bM, sb') :: B) r
   else if bM <? aM then intersecting ((aY, sa) :: (aM, sa') :: A) ((bM, sb') :: B) r
   else intersecting ((aM, sa') :: A) ((bM, sb') :: B) r) ->
  intersecting ((aY, sa) :: (aM, sa') :: A) ((bY, sb) :: (bM, sb') :: B) r.
Proof.
  intros HA HB Hover Hrest.
  destruct (rowSuffix_two _ _ _ _ _ HA) as (Ha & _), (rowSuffix_two _ _ _ _ _ HB) as (Hb & _).
  unfold intersecting in *. cbn [rowAt] in *.
  destruct (Z.ltb_spec aM bM) as [C1|C1]; [|destruct (Z.ltb_spec bM aM) as [C2|C2]];
    (destruct Hrest as [[-> H]|[-> (y & x & Hx & Hy)]]; [left|right]; (split; [done|]);
     [intros y x Hx; specialize (H y x)|exists y, x]);
    destruct (Z.leb_spec aY y), (Z.leb_spec bY y), (Z.leb_spec aM y), (Z.leb_spec bM y); try lia;
    (done || (by apply H) || (apply Hover; [lia|lia|done]) || idtac).
Qed.

Lemma compareSpans_intersects a b : closed a -> closed b -> forall fuel i j aHad bHad,
  (length (drop i a) + length (drop j b) < fuel)%nat -> rowSuffix (drop i a) -> rowSuffix (drop j b) ->
  intersecting (drop i a) (drop j b)
    (compareSpans fuel CompareIntersectsOperation (encode a) (encode b) i j aHad bHad false).
Proof.
  intros Ca Cb. induction fuel as [|fuel IH]; intros i j aHad bHad Hf HA HB; [lia|].
  destruct (atLeastTwo (drop i a) && atLeastTwo (drop j b)) eqn:Hend.
  2:{ rewrite compareSpans_end by done. cbn [aOutsideB bOutsideA CompareIntersectsOperation]. rewrite !stop_false.
      left. split; [done|]. intros y x.
      assert (Hone : forall l, rowSuffix l -> atLeastTwo l = false -> rowAt [] l y = []).
      { intros [|[z s] [|r l]] Hl Hn; [done| |done]. apply rowSuffix_one in Hl. cbn in *. subst s. by destruct (z <=? y). }
      apply andb_false_iff in Hend as [H|H]; [by rewrite (Hone (drop i a))|by rewrite (Hone (drop j b))]. }
  apply andb_prop in Hend as [H1 H2].
  destruct (drop i a) as [|[aY sa] [|[aM sa'] A]] eqn:Ea; [done..|].
  destruct (drop j b) as [|[bY sb] [|[bM sb'] B]] eqn:Eb; [done..|].
  rewrite (compareSpans_step _ _ _ _ _ _ _ _ _ _ _ _ _ _ _ _ _ _ _ Ca Cb Ea Eb). cbv zeta.
  cbn [aOutsideB bOutsideA CompareIntersectsOperation]. rewrite !stop_false.
  pose proof (rowSuffix_two _ _ _ _ _ HA) as (Ha & _ & Ga & _ & HA').
  pose proof (rowSuffix_two _ _ _ _ _ HB) as (Hb & _ & Gb & _ & HB').
  assert (Da : drop (S i) a = (aM, sa') :: A) by (rewrite <- Nat.add_1_r, <- drop_drop, Ea; done).
  assert (Db : drop (S j) b = (bM, sb') :: B) by (rewrite <- Nat.add_1_r, <- drop_drop, Eb; done).
  assert (Hrounds : (aY < bM -> bY < aM -> forall p, inside sb p = true -> inside sa p = false) ->
    intersecting ((aY, sa) :: (aM, sa') :: A) ((bY, sb) :: (bM, sb') :: B)
      (if aM <? bM then compareSpans fuel CompareIntersectsOperation (encode a) (encode b) (S i) j (negb (length sa =? 0)%nat) (negb (length sb =? 0)%nat) false
       else if bM <? aM then compareSpans fuel CompareIntersectsOperation (encode a) (encode b) i (S j) (negb (length sa =? 0)%nat) (negb (length sb =? 0)%nat) false
       else compareSpans fuel CompareIntersectsOperation (encode a) (encode b) (S i) (S j) (negb (length sa =? 0)%nat) (negb (length sb =? 0)%nat) false)).
  { intros Hover. apply intersecting_round; try done. cbn [length] in Hf.
    destruct (Z.ltb_spec aM bM); [|destruct (Z.ltb_spec bM aM)].
    - rewrite <- Da, <- Eb. apply IH; rewrite ?Da, ?Eb; try done; cbn; lia.
    - rewrite <- Ea, <- Db. apply IH; rewrite ?Ea, ?Db; try done; cbn; lia.
    - rewrite <- Da, <- Db. apply IH; rewrite ?Da, ?Db; try done; cbn; lia. }
  destruct ((aY <? bM) && (bY <? aM)) eqn:Hov.
  - destruct (compareSegments_intersects (S (length sa + length sb)) sa sb) as [[-> Hp]|[-> (p & Hp & Hq)]]; try done; [lia|..].
    + by apply Hrounds.
    + right. split; [done|]. bool_to_prop. exists (Z.max aY bY), p. cbn [rowAt].
      destruct (Z.leb_spec aY (Z.max aY bY)), (Z.leb_spec bY (Z.max aY bY)), (Z.leb_spec aM (Z.max aY bY)),
        (Z.leb_spec bM (Z.max aY bY)); try lia. done.
  - apply Hrounds. intros H3 H4. apply andb_false_iff in Hov as [H|H]; apply Z.ltb_ge in H; lia.
Qed.

(** ** The questions *)

Lemma canonical_suffix a : canonical a -> rowSuffix a.
Proof. intros [y0 H]. by exists y0, []. Qed.

Lemma compareShapes_contains a b : canonical a -> canonical b ->
  exists r, compareShapes CompareContainsOperation (encode a) (encode b) = Some r /\
    (r = true <-> forall x y, points b x y = true -> points a x y = true).
Proof.
  intros Ca Cb. pose proof (compareSpans_contains a b (canonical_closed _ Ca) (canonical_closed _ Cb)
    (S (length a + length b)) 0 0 false false) as H. rewrite !drop_0 in H.
  unfold compareShapes. cbn [m_spans encode defaultResult CompareContainsOperation]. rewrite !length_spansFrom.
  destruct H as [[-> H]|[-> (y & x & _ & H1 & H2)]]; [lia|by apply canonical_suffix..| | |].
  - destruct a as [|[aY sa] a], b as [|[bY sb] [|[bM sb'] b]]; try done. right. right. split; [done|].
    destruct Cb as (y0 & _ & Hne & _). done.
  - exists true. split; [done|]. split; [|done]. intros _ x y. apply H. destruct a as [|[aY sa] a]; done.
  - exists false. split; [done|]. split; [done|]. intros H. specialize (H x y H1). unfold points in H. congruence.
Qed.

Lemma compareShapes_intersects a b : canonical a -> canonical b ->
  exists r, compareShapes CompareIntersectsOperation (encode a) (encode b) = Some r /\
    (r = true <-> exists x y, points a x y = true /\ points b x y = true).
Proof.
  intros Ca Cb. pose proof (compareSpans_intersects a b (canonical_closed _ Ca) (canonical_closed _ Cb)
    (S (length a + length b)) 0 0 false false) as H. rewrite !drop_0 in H.
  unfold compareShapes. cbn [m_spans encode defaultResult CompareIntersectsOperation]. rewrite !length_spansFrom.
  destruct H as [[-> H]|[-> (y & x & H1 & H2)]]; [lia|by apply canonical_suffix..| |].
  - exists false. split; [done|]. split; [done|]. intros (x & y & H1 & H2). unfold points in *. rewrite (H y x H2) in H1. done.
  - exists true. split; [done|]. split; [|done]. intros _. by exists x, y.
Qed.

(** * Bounds *)

(** ** Rectangles *)

Definition rangedRect (r : IntRect.IntRect) : Prop :=
  inRange (IntRect.x r) /\ inRange (IntRect.y r) /\
  inRange (IntRect.x r + IntRect.width r) /\ inRange (IntRect.y r + IntRect.height r).

Lemma maxX_spec r : rangedRect r -> IntRect.maxX r = IntRect.x r + IntRect.width r.
Proof. intros (_ & _ & H & _). unfold IntRect.maxX, inRange in *. apply swrap_id; change (32 - 1) with 31; lia. Qed.

Lemma maxY_spec r : rangedRect r -> IntRect.maxY r = IntRect.y r + IntRect.height r.
Proof. intros (_ & _ & _ & H). unfold IntRect.maxY, inRange in *. apply swrap_id; change (32 - 1) with 31; lia. Qed.

(** The points of a rectangle. *)
Definition inBox (r : IntRect.IntRect) (x y : Z) : Prop :=
  IntRect.x r <= x < IntRect.x r + IntRect.width r /\ IntRect.y r <= y < IntRect.y r + IntRect.height r.

(** The smallest rectangle around a set of points. *)
Definition tight (r : IntRect.IntRect) (P : Z -> Z -> bool) : Prop :=
  (forall x y, P x y = true -> inBox r x y) /\
  (exists y, P (IntRect.x r) y = true) /\ (exists y, P (IntRect.x r + IntRect.width r - 1) y = true) /\
  (exists x, P x (IntRect.y r) = true) /\ (exists x, P x (IntRect.y r + IntRect.height r - 1) = true).

Lemma tight_unique r r' P : tight r P -> tight r' P -> r = r'.
Proof.
  intros (B & [y1 E1] & [y2 E2] & [x3 E3] & [x4 E4]) (B' & [y1' E1'] & [y2' E2'] & [x3' E3'] & [x4' E4']).
  pose proof (B _ _ E1'). pose proof (B _ _ E2'). pose proof (B _ _ E3'). pose proof (B _ _ E4').
  pose proof (B' _ _ E1). pose proof (B' _ _ E2). pose proof (B' _ _ E3). pose proof (B' _ _ E4).
  unfold inBox in *. destruct r, r'. cbn in *. f_equal; lia.
Qed.

Lemma tight_ext r P Q : (forall x y, P x y = Q x y) -> tight r P -> tight r Q.
Proof.
  intros E (B & [y1 E1] & [y2 E2] & [x3 E3] & [x4 E4]).
  split; [intros x y; rewrite <- E; apply B|]. split_and!; eexists; rewrite <- E; eassumption.
Qed.

Lemma tight_size r P : tight r P -> 0 < IntRect.width r /\ 0 < IntRect.height r.
Proof. intros (B & [y1 E1] & _). apply B in E1. unfold inBox in E1. lia. Qed.

Lemma tight_unite r r' P Q : rangedRect r -> rangedRect r' -> tight r P -> tight r' Q ->
  tight (IntRect.unite r r') (fun x y => P x y || Q x y) /\ rangedRect (IntRect.unite r r').
Proof.
  intros R R' T T'. pose proof (tight_size _ _ T) as [W H]. pose proof (tight_size _ _ T') as [W' H'].
  unfold IntRect.unite, IntRect.isEmpty. destruct (Z.leb_spec (IntRect.width r) 0), (Z.leb_spec (IntRect.height r) 0),
    (Z.leb_spec (IntRect.width r') 0), (Z.leb_spec (IntRect.height r') 0); try lia. cbn [orb].
  rewrite !maxX_spec, !maxY_spec by done.
  assert (X : forall a b c d, inRange a -> inRange b -> inRange c -> inRange d ->
    inRange (Z.min a b) /\ swrap 32 (Z.max c d - Z.min a b) = Z.max c d - Z.min a b /\ inRange (Z.max c d)).
  { intros a b c d. unfold inRange. intros. split; [lia|]. split; [|lia]. apply swrap_id; change (32 - 1) with 31; lia. }
  destruct R as (R1 & R2 & R3 & R4), R' as (R1' & R2' & R3' & R4').
  destruct (X _ _ _ _ R1 R1' R3 R3') as (X1 & X2 & X3). destruct (X _ _ _ _ R2 R2' R4 R4') as (Y1 & Y2 & Y3). clear X. rewrite X2, Y2.
  destruct T as (B & [y1 E1] & [y2 E2] & [x3 E3] & [x4 E4]), T' as (B' & [y1' E1'] & [y2' E2'] & [x3' E3'] & [x4' E4']).
  split.
  - unfold tight, inBox in *. cbn [IntRect.x IntRect.y IntRect.width IntRect.height]. split.
    + intros x y [Hp|Hp]%orb_true_iff; [apply B in Hp|apply B' in Hp]; lia.
    + rewrite !(Z.add_comm (Z.min _ _)), !Z.sub_add. split_and!.
      * destruct (Z.min_spec (IntRect.x r) (IntRect.x r')) as [[_ ->]|[_ ->]]; [exists y1|exists y1']; rewrite ?E1, ?E1'; by rewrite ?orb_true_r.
      * destruct (Z.max_spec (IntRect.x r + IntRect.width r) (IntRect.x r' + IntRect.width r')) as [[_ ->]|[_ ->]];
          [exists y2'|exists y2]; rewrite ?E2, ?E2'; by rewrite ?orb_true_r.
      * destruct (Z.min_spec (IntRect.y r) (IntRect.y r')) as [[_ ->]|[_ ->]]; [exists x3|exists x3']; rewrite ?E3, ?E3'; by rewrite ?orb_true_r.
      * destruct (Z.max_spec (IntRect.y r + IntRect.height r) (IntRect.y r' + IntRect.height r')) as [[_ ->]|[_ ->]];
          [exists x4'|exists x4]; rewrite ?E4, ?E4'; by rewrite ?orb_true_r.
  - unfold rangedRect. cbn [IntRect.x IntRect.y IntRect.width IntRect.height].
    by rewrite !(Z.add_comm (Z.min _ _)), !Z.sub_add.
Qed.

(** ** The bounds of a shape *)

(** Where rows begin and end. *)
Definition beginsRow (a : list Row) (x : Z) : Prop := exists y s, (y, x :: s) ∈ a.

Definition endsRow (a : list Row) (x : Z) : Prop := exists y s, (y, s ++ [x]) ∈ a.

Lemma segmentsIn_first (l : list Row) x : segmentsIn l !! 0%nat = Some x -> beginsRow l x.
Proof.
  induction l as [|[y s] l IH]; [done|]. unfold segmentsIn. cbn. destruct s as [|z s]; cbn.
  - intros H. destruct (IH H) as (y' & s' & Hin). exists y', s'. by apply list_elem_of_further.
  - intros [= ->]. exists y, s. apply list_elem_of_here.
Qed.

Lemma segmentsIn_last (l : list Row) x : list.last (segmentsIn l) = Some x -> endsRow l x.
Proof.
  induction l as [|[y s] l IH] using rev_ind; [done|]. rewrite segmentsIn_app. unfold segmentsIn at 2. cbn. rewrite app_nil_r.
  destruct s as [|z s _] using rev_ind.
  - rewrite app_nil_r. intros H. destruct (IH H) as (y' & s' & Hin). exists y', s'. apply elem_of_app. by left.
  - rewrite app_assoc, last_snoc. intros [= ->]. exists y, s. apply elem_of_app. right. apply list_elem_of_here.
Qed.

Lemma segments_range a it y s : closed a -> a !! it = Some (y, s) -> (S it < length a)%nat ->
  let idx := length (segmentsIn (take it a)) in
  (segments_begin (encode a) it = Some None /\ segments_end (encode a) it = Some None /\ s = []) \/
  (segments_begin (encode a) it = Some (Some idx) /\ segments_end (encode a) it = Some (Some (idx + length s)%nat) /\
   (idx < length (segmentsIn a))%nat).
Proof.
  intros Hc E Hn idx. pose proof (segmentsIn_split _ _ _ _ E) as Es.
  assert (El : length (segmentsIn a) = (idx + length s + length (segmentsIn (drop (S it) a)))%nat)
    by (by rewrite Es, !length_app, Nat.add_assoc).
  unfold segments_begin, segments_end. rewrite (encode_span _ _ _ _ E). cbn [segmentIndex m_segments encode]. fold idx.
  destruct (Nat.eqb_spec idx (length (segmentsIn a))) as [Eq|Ne].
  - left. split_and!; try done. destruct s; [done|simpl in El; lia].
  - right. destruct (lookup_lt_is_Some_2 a (S it)) as [r Er]; [done|].
    change (spansFrom 0 a !! S it) with (m_spans (encode a) !! S it). rewrite (encode_next _ _ _ _ _ E Er). cbn [segmentIndex].
    fold idx. destruct (Nat.ltb_spec idx (length (segmentsIn a))); [|lia].
    destruct (Nat.leb_spec (idx + length s) (length (segmentsIn a))); [|lia]. done.
Qed.

(** The values that are read for a row. *)
Lemma row_first a it y s : a !! it = Some (y, s) -> (length (segmentsIn (take it a)) < length (segmentsIn a))%nat ->
  exists f, segmentsIn a !! length (segmentsIn (take it a)) = Some f /\ beginsRow a f /\
    forall x, head s = Some x -> f = x.
Proof.
  intros E Hlt. destruct (lookup_lt_is_Some_2 _ _ Hlt) as [f Ef]. exists f. split; [done|].
  assert (Ef' : segmentsIn (drop it a) !! 0%nat = Some f).
  { rewrite <- (take_drop it a) in Ef at 2. rewrite segmentsIn_app, lookup_app_r, Nat.sub_diag in Ef by lia. done. }
  split.
  - destruct (segmentsIn_first _ _ Ef') as (y' & s' & Hin). exists y', s'. rewrite <- (take_drop it a).
    apply elem_of_app. by right.
  - intros x Hx. rewrite (drop_S _ _ _ E) in Ef'. destruct s as [|z s]; [done|]. unfold segmentsIn in Ef'. cbn in *. congruence.
Qed.

Lemma row_last a it y s : a !! it = Some (y, s) -> segmentsIn (take (S it) a) <> [] ->
  exists l, segmentsIn a !! (length (segmentsIn (take it a)) + length s - 1)%nat = Some l /\ endsRow a l /\
    forall z, list.last s = Some z -> l = z.
Proof.
  intros E Hne.
  assert (Et : segmentsIn (take (S it) a) = segmentsIn (take it a) ++ s).
  { rewrite (take_S_r _ _ _ E), segmentsIn_app. unfold segmentsIn at 2. cbn. by rewrite app_nil_r. }
  destruct (list.last (segmentsIn (take (S it) a))) as [l|] eqn:El; [|by apply last_None in El].
  exists l. split_and!.
  - rewrite last_lookup in El. pose proof (segmentsIn_app (take (S it) a) (drop (S it) a)) as Ea. rewrite take_drop in Ea.
    rewrite Ea. apply lookup_app_l_Some.
    rewrite <- El. f_equal. rewrite Et, length_app. lia.
  - destruct (segmentsIn_last _ _ El) as (y' & s' & Hin). exists y', s'. rewrite <- (take_drop (S it) a).
    apply elem_of_app. by left.
  - intros z Hz. rewrite Et, last_app in El. destruct (list.last s); [congruence|done].
Qed.

Lemma rowsAfter_even a it y s : canonical a -> a !! it = Some (y, s) -> Nat.Even (length s).
Proof.
  intros [y0 H] E. revert y0 it E H. generalize (@nil Z) as prev. induction a as [|[y1 s1] a IH]; intros prev y0 it E H; [done|].
  destruct H as (_ & _ & [_ Hs] & H). destruct it as [|it]; [by injection E as <- <-|]. by apply (IH s1 y1 it).
Qed.

(** The first row is not empty. *)
Lemma canonical_first a it : canonical a -> (it < length a)%nat -> segmentsIn (take (S it) a) <> [].
Proof.
  intros [y0 H] Hit. destruct a as [|[y s] a]; [simpl in Hit; lia|]. destruct H as (_ & Hs & _).
  unfold segmentsIn. cbn. by destruct s.
Qed.

(** The loop: what it takes the minimum and the maximum of. *)
Lemma boundsLoop_ok a : canonical a -> forall n it minX maxX, (n + it < length a)%nat ->
  exists minX' maxX', boundsLoop n it (encode a) minX maxX = Some (minX', maxX') /\
    minX' <= minX /\ maxX <= maxX' /\
    (minX' = minX \/ beginsRow a minX') /\ (maxX' = maxX \/ endsRow a maxX') /\
    forall i y x s z, (it <= i < it + n)%nat -> a !! i = Some (y, s) ->
      (head s = Some x -> minX' <= x) /\ (list.last s = Some z -> z <= maxX').
Proof.
  intros Ca. induction n as [|n IH]; intros it minX maxX Hn.
  { exists minX, maxX. split_and!; try done; [by left|by left|]. intros. lia. }
  cbn [boundsLoop]. destruct (lookup_lt_is_Some_2 a it) as [[y s] E]; [lia|].
  pose proof (canonical_closed a Ca) as Cl.
  pose proof (rowsAfter_even a it y s Ca E) as Ev.
  destruct (segments_range a it y s Cl E) as [(-> & -> & ->)|(-> & -> & Hlt)]; [lia|..].
  - destruct (IH (S it) minX maxX) as (minX' & maxX' & Eb & Hmin & Hmax & Hb & He & Hall); [lia|].
    exists minX', maxX'. split_and!; try done. intros i y' x s' z Hi Es.
    destruct (decide (i = it)) as [->|]; [rewrite E in Es; by injection Es as <- <-|]. apply (Hall i y' x s' z); [lia|done].
  - destruct (Nat.eqb_spec (S (length (segmentsIn (take it a)))) (length (segmentsIn (take it a)) + length s)) as [Hodd|_];
      [destruct Ev; lia|]. cbn [negb m_segments encode].
    destruct (row_first a it y s E Hlt) as (f & -> & Hbeg & Hf).
    pose proof (canonical_first a it Ca ltac:(lia)) as Hne. destruct (row_last a it y s E Hne) as (l & -> & Hend & Hl).
    destruct (Nat.eqb_spec (length (segmentsIn (take it a)) + length s) 0) as [H0|_].
    { destruct Hne. apply length_zero_iff_nil. rewrite (take_S_r _ _ _ E), segmentsIn_app, length_app.
      unfold segmentsIn at 2. cbn. rewrite app_nil_r. done. }
    cbn [negb].
    destruct (IH (S it) (if f <? minX then f else minX) (if maxX <? l then l else maxX))
      as (minX' & maxX' & Eb & Hmin & Hmax & Hb & He & Hall); [lia|].
    exists minX', maxX'. split; [done|].
    split; [destruct (Z.ltb_spec f minX); lia|]. split; [destruct (Z.ltb_spec maxX l); lia|].
    split; [destruct Hb as [->|?]; [|by right]; destruct (f <? minX); [by right|by left]|].
    split; [destruct He as [->|?]; [|by right]; destruct (maxX <? l); [by right|by left]|].
    intros i y' x s' z Hi Es. destruct (decide (i = it)) as [->|]; [|apply (Hall i y' x s' z); [lia|done]].
    rewrite E in Es. injection Es as <- <-. split.
    + intros Hx. rewrite <- (Hf x Hx). destruct (Z.ltb_spec f minX); lia.
    + intros Hz. rewrite <- (Hl z Hz). destruct (Z.ltb_spec maxX l); lia.
Qed.

(** *** Points and rows *)

Lemma rowAt_row y0 prev a i y s : rowsAfter y0 prev a -> a !! i = Some (y, s) -> y0 < y /\ rowAt prev a y = s.
Proof.
  revert y0 prev i. induction a as [|[y1 s1] a IH]; intros y0 prev i H E; [done|]. pose proof H as (Hy & _ & _ & H').
  destruct i as [|i].
  - injection E as <- <-. split; [done|]. by apply (rowAt_head y0).
  - destruct (IH y1 s1 i H' E) as [Hlt Er]. split; [lia|]. cbn. destruct (Z.leb_spec y1 y); [done|lia].
Qed.

Lemma rowAt_elem prev a y : rowAt prev a y = prev \/ exists y', (y', rowAt prev a y) ∈ a.
Proof.
  revert prev. induction a as [|[y1 s1] a IH]; intros prev; [by left|]. cbn. destruct (y1 <=? y); [|by left]. right.
  destruct (IH s1) as [->|[y' H]]; [exists y1; apply list_elem_of_here|exists y'; by apply list_elem_of_further].
Qed.

Lemma rowsAfter_last_y y0 prev a yl sl : rowsAfter y0 prev a -> list.last a = Some (yl, sl) -> y0 < yl.
Proof. intros H E. rewrite last_lookup in E. by destruct (rowAt_row _ _ _ _ _ _ H E). Qed.

Lemma inside_row_above_last y0 prev a y x : rowsAfter y0 prev a -> inside (rowAt prev a y) x = true ->
  exists yl sl, list.last a = Some (yl, sl) /\ y < yl.
Proof.
  revert y0 prev. induction a as [|[y1 s1] a IH]; intros y0 prev H Hx; [cbn in *; by subst prev|].
  destruct H as (Hy & Hne & Hg & H). cbn in Hx. rewrite last_cons. destruct (Z.leb_spec y1 y).
  - destruct (IH y1 s1 H Hx) as (yl & sl & -> & Hl). by exists yl, sl.
  - destruct (list.last a) as [[yl sl]|] eqn:E; [|by exists y1, s1]. exists yl, sl. split; [done|].
    pose proof (rowsAfter_last_y _ _ _ _ _ H E). lia.
Qed.

Lemma last_row_touched y0 prev a yl sl : rowsAfter y0 prev a -> goodSegments prev -> list.last a = Some (yl, sl) ->
  exists x, inside (rowAt prev a (yl - 1)) x = true.
Proof.
  revert y0 prev. induction a as [|[y1 s1] a IH]; intros y0 prev H Hg E; [done|]. destruct H as (Hy & Hne & Hg1 & H).
  rewrite last_cons in E. cbn. destruct (list.last a) as [[y2 s2]|] eqn:Ea.
  - injection E as -> ->. pose proof (rowsAfter_last_y _ _ _ _ _ H Ea). destruct (Z.leb_spec y1 (yl - 1)); [|lia].
    by apply (IH y1 s1).
  - injection E as -> ->. apply last_None in Ea as ->. cbn in H. subst sl.
    destruct (Z.leb_spec yl (yl - 1)); [lia|]. apply row_nonempty; congruence.
Qed.

Lemma good_ends s z : goodSegments s -> list.last s = Some z ->
  inside s (z - 1) = true /\ forall x, inside s x = true -> x < z.
Proof.
  intros [Hs Hev] E. apply last_Some in E as [s' ->].
  assert (Hall : Forall (fun x => x <= z - 1) s').
  { clear Hev. induction s' as [|w s' IH]; [constructor|]. inversion Hs as [|? ? Hs' Hw]; subst. constructor; [|by apply IH].
    apply Forall_app in Hw as [_ Hw]. inversion Hw; subst. lia. }
  assert (Happ : forall p, inside (s' ++ [z]) p = xorb (inside s' p) (z <=? p)).
  { intros p. clear. induction s' as [|w s' IH]; cbn; [by destruct (z <=? p)|]. rewrite IH.
    by destruct (w <=? p), (inside s' p), (z <=? p). }
  assert (Ho : Nat.odd (length s') = true).
  { rewrite length_app in Hev. cbn in Hev. apply Nat.odd_spec. destruct Hev as [n Hn]. exists (n - 1)%nat. lia. }
  split.
  - rewrite Happ, inside_behind, Ho by done. destruct (Z.leb_spec z (z - 1)); [lia|done].
  - intros x. destruct (Z.ltb_spec x z); [done|]. rewrite Happ, inside_behind, Ho.
    + destruct (Z.leb_spec z x); [done|lia].
    + revert Hall. apply List.Forall_impl. intros. lia.
Qed.

(** A rectangle is right for rows: empty for none, else the smallest one. *)
Definition boundsFor (r : IntRect.IntRect) (a : list Row) : Prop :=
  rangedRect r /\ if decide (a = []) then IntRect.width r = 0 /\ IntRect.height r = 0 else tight r (points a).

Lemma canonical_row a y s : canonical a -> (y, s) ∈ a -> goodSegments s /\ rowAt [] a y = s.
Proof.
  intros [y0 H] Hin. apply list_elem_of_lookup in Hin as [i E]. destruct (rowAt_row _ _ _ _ _ _ H E) as [_ Er].
  split; [|done]. rewrite <- Er. apply (rowAt_good y0); [apply goodSegments_nil|done].
Qed.

Lemma last_spansFrom a n : span_y <$> list.last (spansFrom n a) = fst <$> list.last a.
Proof.
  revert n. induction a as [|[y s] a IH]; intros n; [done|]. cbn [spansFrom]. rewrite !last_cons.
  specialize (IH (n + length s)%nat). by destruct (list.last (spansFrom _ a)), (list.last a).
Qed.

Lemma ranged_row a y s : rangedRows a -> (y, s) ∈ a -> inRange y /\ Forall inRange s.
Proof. intros Ra Hin. apply (proj1 (list.Forall_forall _ _) Ra _ Hin). Qed.

(** The least and the greatest place of all rows, and the first and the last
    row, are the edges of the smallest rectangle. *)
Lemma edges_tight a y1 s1 yl sl minX maxX : canonical a -> head a = Some (y1, s1) -> list.last a = Some (yl, sl) ->
  beginsRow a minX -> endsRow a maxX ->
  (forall y x s, (y, x :: s) ∈ a -> minX <= x) -> (forall y z s, (y, s ++ [z]) ∈ a -> z <= maxX) ->
  tight (IntRect.mkRect minX y1 (maxX - minX) (yl - y1)) (points a).
Proof.
  intros Ca Hh Hl (yb & sb & Hb) (ye & se & He) Hmin Hmax. unfold tight, inBox.
  cbn [IntRect.x IntRect.y IntRect.width IntRect.height].
  replace (minX + (maxX - minX)) with maxX by lia. replace (y1 + (yl - y1)) with yl by lia. split_and!.
  - intros x y Hp. pose proof Ca as [y0 H]. destruct (inside_row_above_last _ _ _ _ _ H Hp) as (yl' & sl' & E & Hlt).
    rewrite Hl in E. injection E as <- <-. unfold points in Hp.
    destruct (rowAt_elem [] a y) as [E|[y' Hin]]; [by rewrite E in Hp|].
    destruct (canonical_row a _ _ Ca Hin) as [[Hs Hev] _]. split; [|split; [|done]].
    + destruct (rowAt [] a y) as [|w s] eqn:Er; [done|]. pose proof (Hmin _ _ _ Hin). pose proof (inside_ge _ _ _ Hs Hp).
      split; [lia|]. destruct (list.last (w :: s)) as [z|] eqn:Ez; [|by apply last_None in Ez].
      destruct (good_ends (w :: s) z (conj Hs Hev) Ez) as [_ Hlast]. specialize (Hlast x Hp).
      apply last_Some in Ez as [s' Es]. rewrite Es in Hin. specialize (Hmax _ _ _ Hin). lia.
    + destruct a as [|[y2 s2] a]; [done|]. cbn in Hh. injection Hh as -> ->. cbn in Hp.
      destruct (Z.leb_spec y1 y); [done|]. by cbn in Hp.
  - exists yb. unfold points. destruct (canonical_row a _ _ Ca Hb) as [[Hs _] ->]. by apply inside_head.
  - exists ye. unfold points. destruct (canonical_row a _ _ Ca He) as [Hg ->].
    by apply (good_ends _ maxX Hg (last_snoc _ _)).
  - destruct a as [|[y2 s2] a]; [done|]. cbn in Hh. injection Hh as -> ->. destruct Ca as (y0 & _ & Hs1 & Hg & H).
    destruct (row_nonempty s1 Hg Hs1) as [x Hx]. exists x. unfold points. cbn. rewrite Z.leb_refl.
    by rewrite (rowAt_before y1 _ _ _ H).
  - destruct Ca as [y0 H]. by apply (last_row_touched y0 [] a yl sl H goodSegments_nil Hl).
Qed.

Lemma shape_bounds_ok a : canonical a -> rangedRows a ->
  exists r, shape_bounds (encode a) = Some r /\ boundsFor r a.
Proof.
  intros Ca Ra. unfold boundsFor, shape_bounds. cbn [m_spans encode]. rewrite length_spansFrom.
  destruct (decide (a = [])) as [->|Hne].
  { exists IntRect.emptyRect. split; [done|]. by repeat split. }
  destruct (list.last a) as [[yl sl]|] eqn:El; [|by apply last_None in El].
  pose proof (last_spansFrom a 0) as Els. rewrite El in Els. destruct (list.last (spansFrom 0 a)) as [lastSpan|]; [|done].
  injection Els as <-.
  destruct a as [|[y1 s1] a']; [done|]. remember ((y1, s1) :: a') as a eqn:Ea.
  assert (Hhead : head (spansFrom 0 a) = Some (mkSpan y1 0)) by (by rewrite Ea). rewrite Hhead. cbn [span_y].
  assert (Hlen : (1 < length a)%nat).
  { rewrite Ea in *. cbn. destruct a' as [|r a']; [|cbn; lia]. destruct Ca as (y0 & _ & Hs & _ & H). by destruct Hs. }
  destruct (boundsLoop_ok a Ca (length a - 1) 0 INT_MAX INT_MIN) as (minX & maxX & -> & _ & _ & Hb & He & Hall); [lia|].
  assert (Hlast : forall i y s, a !! i = Some (y, s) -> s <> [] -> (i < length a - 1)%nat).
  { intros i y s E Hs. destruct (closed_next a i y s (canonical_closed a Ca) E Hs) as [r Er].
    apply lookup_lt_Some in Er. lia. }
  assert (Hmin : forall y x s, (y, x :: s) ∈ a -> minX <= x).
  { intros y x s [i E]%list_elem_of_lookup. apply (Hall i y x (x :: s) 0); [|done|done]. specialize (Hlast _ _ _ E ltac:(done)). lia. }
  assert (Hmax : forall y z s, (y, s ++ [z]) ∈ a -> z <= maxX).
  { intros y z s [i E]%list_elem_of_lookup. apply (Hall i y 0 (s ++ [z]) z); [|done|apply last_snoc].
    specialize (Hlast _ _ _ E). destruct (s ++ [z]) eqn:Es; [by destruct s|]. specialize (Hlast ltac:(done)). lia. }
  assert (H1 : (y1, s1) ∈ a) by (rewrite Ea; apply list_elem_of_here).
  destruct (canonical_row a y1 s1 Ca H1) as [G1 _]. destruct (ranged_row a y1 s1 Ra H1) as [Ry1 Rs1].
  assert (Hs1 : s1 <> []) by (rewrite Ea in Ca; by destruct Ca as (y0 & _ & ? & _)).
  destruct (list.last s1) as [z1|] eqn:Ez1; [|by apply last_None in Ez1].
  apply last_Some in Ez1 as [s1' Es1]. pose proof H1 as H1'. rewrite Es1 in H1. pose proof (Hmax _ _ _ H1) as Hz1.
  destruct s1 as [|x1 t1]; [done|]. pose proof (Hmin _ _ _ H1') as Hx1. inversion Rs1 as [|? ? Rx1 _]; subst x l.
  assert (Rz1 : inRange z1) by (apply (proj1 (list.Forall_forall _ _) Rs1); rewrite Es1; apply elem_of_app; right; apply list_elem_of_here).
  assert (Hb' : beginsRow a minX) by (destruct Hb as [->|?]; [unfold INT_MAX, inRange in *; lia|done]).
  assert (He' : endsRow a maxX) by (destruct He as [->|?]; [unfold INT_MIN, inRange in *; lia|done]).
  assert (Rmin : inRange minX).
  { destruct Hb' as (y & s & Hin). destruct (ranged_row _ _ _ Ra Hin) as [_ H]. by inversion H. }
  assert (Rmax : inRange maxX).
  { destruct He' as (y & s & Hin). destruct (ranged_row _ _ _ Ra Hin) as [_ H]. apply Forall_app in H as [_ H]. by inversion H. }
  assert (Hl : (span_y lastSpan, sl) ∈ a) by (apply last_Some in El as [l ->]; apply elem_of_app; right; apply list_elem_of_here).
  destruct (ranged_row _ _ _ Ra Hl) as [Ryl _].
  assert (Hhd : head a = Some (y1, x1 :: t1)) by (by rewrite Ea).
  pose proof (edges_tight a _ _ _ _ _ _ Ca Hhd El Hb' He' Hmin Hmax) as Ht. pose proof (tight_size _ _ Ht) as [Hw Hh].
  cbn in Hw, Hh. rewrite !swrap_sub by done.
  destruct (Z.leb_spec minX maxX); [|lia]. destruct (Z.leb_spec y1 (span_y lastSpan)); [|lia].
  eexists. split; [reflexivity|]. split; [|done]. unfold rangedRect. cbn.
  replace (minX + (maxX - minX)) with maxX by lia. by replace (y1 + (span_y lastSpan - y1)) with (span_y lastSpan) by lia.
Qed.
