(* ===== verification/RegionProps.v ===== *)
(** * Properties of regions

    The invariant of [Region], and that its operations compute sets of pixels. *)
From S2P Require Import Prelude IntRect Region RegionRows RegionOperations RegionCompare.
From Stdlib Require Import ZArith Lia Sorted.
From stdpp Require Import base list numbers option.
#[local] Open Scope Z_scope.
Import Region.

(** ** The invariant *)

(** The region [r] has the rows [a], in normal form, and their bounds. *)
Definition represents (r : Region) (a : list Row) : Prop :=
  m_shape r = encode a /\ canonical a /\ rangedRows a /\ boundsFor (m_bounds r) a.

Lemma represents_new : represents newRegion [].
Proof. split_and!; [done|by exists 0|constructor|]. split; [|done]. split_and!; unfold inRange; cbn; lia. Qed.

(** The bounds of a region. *)
Lemma represents_bounds r a : represents r a ->
  rangedRect (m_bounds r) /\
  ((a = [] /\ IntRect.isEmpty (m_bounds r) = true) \/
   (a <> [] /\ IntRect.isEmpty (m_bounds r) = false /\ tight (m_bounds r) (points a))).
Proof.
  intros (_ & _ & _ & Hr & Hb). split; [done|]. unfold IntRect.isEmpty. destruct (decide (a = [])) as [->|Hne].
  - destruct Hb as [-> ->]. by left.
  - right. destruct (tight_size _ _ Hb) as [Hw Hh]. split_and!; try done.
    destruct (Z.leb_spec (IntRect.width (m_bounds r)) 0), (Z.leb_spec (IntRect.height (m_bounds r)) 0); (done || lia).
Qed.

Lemma represents_empty r a : represents r a -> isEmpty r = bool_decide (a = []).
Proof.
  intros H. destruct (represents_bounds r a H) as [_ [[-> E]|(Hne & E & _)]]; unfold isEmpty; rewrite E; [done|].
  by rewrite bool_decide_eq_false_2.
Qed.

(** Rectangles do not intersect when one is empty or they have no common point. *)
Lemma intersects_spec r r' : rangedRect r -> rangedRect r' ->
  IntRect.intersects r r' = false -> IntRect.isEmpty r = false -> IntRect.isEmpty r' = false ->
  forall x y, inBox r x y -> ~ inBox r' x y.
Proof.
  intros R R' E H H' x y B B'. unfold IntRect.intersects in E. rewrite H, H', !maxX_spec, !maxY_spec in E by done.
  unfold inBox in *. cbn [negb andb] in E.
  repeat match type of E with (_ && _)%bool = false => apply andb_false_iff in E as [E|E] end; apply Z.ltb_ge in E; lia.
Qed.

Lemma contains_spec r r' : rangedRect r -> rangedRect r' -> IntRect.contains r r' = true ->
  forall x y, inBox r' x y -> inBox r x y.
Proof.
  intros R R' E x y B. unfold IntRect.contains in E. rewrite !maxX_spec, !maxY_spec in E by done.
  bool_to_prop. unfold inBox in *. lia.
Qed.

(** A region that is a rectangle has the points of its bounds. *)
Lemma isRect_points r a : represents r a -> a <> [] -> isRect r = true ->
  forall x y, points a x y = true <-> inBox (m_bounds r) x y.
Proof.
  intros (Es & Ca & Ra & Rb & Hb) Hne Hr. destruct (decide (a = [])) as [|_]; [done|].
  unfold isRect, shape_isRect in Hr. rewrite Es in Hr. cbn [m_spans m_segments encode] in Hr. rewrite length_spansFrom in Hr.
  apply andb_prop in Hr as [H1 H2]. apply Nat.leb_le in H1, H2.
  assert (E : exists y1 x m y2, a = [(y1, [x; m]); (y2, [])] /\ y1 < y2 /\ x < m).
  { destruct Ca as [y0 H]. destruct a as [|[y1 s1] [|[y2 s2] [|r3 a]]]; [done|..|cbn in H1; lia].
    - destruct H as (_ & Hs & _ & H). by destruct Hs.
    - destruct H as (_ & Hs & Hg & Hlt & _ & _ & H). cbn in H. subst s2. unfold segmentsIn in H2. cbn in H2. rewrite app_nil_r in H2.
      destruct (good_cases s1 Hg) as [->|(x & m & s' & -> & Hsort & _)]; [done|]. destruct s'; [|cbn in H2; lia].
      exists y1, x, m, y2. split_and!; try done. by apply pair_rest in Hsort as (? & _). }
  destruct E as (y1 & x & m & y2 & -> & Hy & Hx).
  assert (Hp : forall px py, points [(y1, [x; m]); (y2, [])] px py = true <-> (x <= px < m /\ y1 <= py < y2)).
  { intros px py. unfold points. cbn. destruct (Z.leb_spec y1 py), (Z.leb_spec y2 py); cbn; try (split; [done|lia]).
    destruct (Z.leb_spec x px), (Z.leb_spec m px); cbn; split; (done || lia). }
  assert (Ht : tight (IntRect.mkRect x y1 (m - x) (y2 - y1)) (points [(y1, [x; m]); (y2, [])])).
  { unfold tight, inBox. cbn [IntRect.x IntRect.y IntRect.width IntRect.height].
    split; [intros px py H%Hp; lia|]. split_and!; [exists y1|exists y1|exists x|exists x]; apply Hp; lia. }
  rewrite (tight_unique _ _ _ Hb Ht). intros px py. rewrite Hp. unfold inBox. cbn. lia.
Qed.

Definition rectRows (r : IntRect.IntRect) : list Row :=
  [(IntRect.y r, [IntRect.x r; IntRect.x r + IntRect.width r]); (IntRect.y r + IntRect.height r, [])].

(** A rectangle that is not empty. *)
Lemma fromRect_ok r : rangedRect r -> IntRect.isEmpty r = false ->
  represents (fromRect r) (rectRows r) /\ forall x y, points (rectRows r) x y = true <-> inBox r x y.
Proof.
  intros Hr He. pose proof Hr as (R1 & R2 & R3 & R4). unfold IntRect.isEmpty in He. apply orb_false_iff in He as [Hw Hh].
  apply Z.leb_gt in Hw, Hh. set (rx := IntRect.x r) in *. set (ry := IntRect.y r) in *.
  set (mx := rx + IntRect.width r) in *. set (my := ry + IntRect.height r) in *.
  unfold rectRows. fold rx ry mx my.
  assert (Hp : forall x y, points [(ry, [rx; mx]); (my, [])] x y = true <-> inBox r x y).
  { intros x y. unfold points, inBox. fold rx ry mx my. cbn. destruct (Z.leb_spec ry y), (Z.leb_spec my y); cbn; try (split; [done|lia]).
    destruct (Z.leb_spec rx x), (Z.leb_spec mx x); cbn; split; (done || lia). }
  split; [|done]. split_and!.
  - unfold fromRect, ofRect. rewrite maxX_spec, maxY_spec by done. done.
  - exists (ry - 1). cbn. split_and!; [lia|done| |lia|done|apply goodSegments_nil|done].
    split; [repeat constructor; lia|by exists 1%nat].
  - apply List.Forall_cons; [|apply List.Forall_cons; [|constructor]]; (split; [done|]); cbn [snd];
      repeat (apply List.Forall_cons; [done|]); constructor.
  - split; [done|]. cbn [m_bounds fromRect]. destruct (decide _) as [|_]; [done|].
    split; [intros x y H; by apply Hp|]. split_and!; [exists ry|exists ry|exists rx|exists rx]; apply Hp; unfold inBox; fold rx ry; lia.
Qed.

(** ** Operations *)

Lemma points_none a : canonical a -> (forall x y, points a x y = false) -> a = [].
Proof. intros Ca H. apply canonical_unique; [done|by exists 0|]. intros x y. rewrite H. done. Qed.

Lemma represents_box r a x y : represents r a -> points a x y = true -> inBox (m_bounds r) x y.
Proof. intros H Hp. destruct (represents_bounds r a H) as [_ [[-> _]|(_ & _ & B & _)]]; [done|by apply B]. Qed.

Lemma updateBounds_ok r a : m_shape r = encode a -> canonical a -> rangedRows a ->
  exists r', updateBoundsFromShape r = Some r' /\ represents r' a.
Proof.
  intros E Ca Ra. destruct (shape_bounds_ok a Ca Ra) as (b & Eb & Hb). unfold updateBoundsFromShape. rewrite E, Eb.
  eexists. split; [reflexivity|]. split_and!; try done; apply Hb.
Qed.

Lemma intersect_ok r s a b : represents r a -> represents s b ->
  exists u c, intersect r s = Some u /\ represents u c /\ forall x y, points c x y = points a x y && points b x y.
Proof.
  intros Hr Hs. unfold intersect. destruct (represents_bounds r a Hr) as [Ra [[-> ->]|(Hne & -> & Ta)]].
  { exists r, []. done. }
  destruct (IntRect.intersects (m_bounds r) (m_bounds s)) eqn:Ei; cbn [negb].
  - destruct Hr as (Er & Ca & Rra & _), Hs as (Es & Cb & Rrb & _). rewrite Er, Es.
    destruct (shapeOperation_ok _ _ a b computes_intersect Ca Cb Rra Rrb) as (c & Ec & Cc & Rc & Hc).
    unfold intersectShapes. rewrite Ec. destruct (updateBounds_ok (mkRegion (m_bounds r) (encode c)) c eq_refl Cc Rc) as (u & -> & Hu).
    by exists u, c.
  - exists newRegion, []. split; [done|]. split; [apply represents_new|]. intros x y. symmetry.
    destruct (points a x y) eqn:Pa, (points b x y) eqn:Pb; try done. exfalso.
    destruct (represents_bounds s b Hs) as [Rb [[-> _]|(_ & Eb & _)]]; [done|].
    apply (intersects_spec _ _ Ra Rb Ei) with x y; [by destruct (represents_bounds r a Hr) as [_ [[-> _]|(_ & ? & _)]]|done|
      by apply (represents_box r a)|by apply (represents_box s b)].
Qed.

Lemma subtract_ok r s a b : represents r a -> represents s b ->
  exists u c, subtract r s = Some u /\ represents u c /\ forall x y, points c x y = points a x y && negb (points b x y).
Proof.
  intros Hr Hs. unfold subtract. destruct (represents_bounds r a Hr) as [Ra [[-> ->]|(Hne & Ee & Ta)]].
  { exists r, []. done. }
  rewrite Ee. unfold isEmpty. destruct (represents_bounds s b Hs) as [Rb [[-> ->]|(Hneb & Eb & Tb)]].
  { exists r, a. split; [done|]. split; [done|]. intros x y. by rewrite andb_true_r. }
  rewrite Eb. destruct (IntRect.intersects (m_bounds r) (m_bounds s)) eqn:Ei; cbn [negb].
  - destruct Hr as (Er & Ca & Rra & _), Hs as (Es & Cb & Rrb & _). rewrite Er, Es.
    destruct (shapeOperation_ok _ _ a b computes_subtract Ca Cb Rra Rrb) as (c & Ec & Cc & Rc & Hc).
    unfold subtractShapes. rewrite Ec. destruct (updateBounds_ok (mkRegion (m_bounds r) (encode c)) c eq_refl Cc Rc) as (u & -> & Hu).
    by exists u, c.
  - exists r, a. split; [done|]. split; [done|]. intros x y. destruct (points a x y) eqn:Pa, (points b x y) eqn:Pb; try done.
    exfalso. apply (intersects_spec _ _ Ra Rb Ei Ee Eb x y); [by apply (represents_box r a)|by apply (represents_box s b)].
Qed.

(** Containment: for a region that is not empty. *)
Lemma contains_ok r s a b : represents r a -> represents s b -> b <> [] ->
  exists c, contains r s = Some c /\ (c = true <-> forall x y, points b x y = true -> points a x y = true).
Proof.
  intros Hr Hs Hne. unfold contains. destruct (IntRect.contains (m_bounds r) (m_bounds s)) eqn:Ec; cbn [negb].
  - destruct Hr as (-> & Ca & _), Hs as (-> & Cb & _). by apply compareShapes_contains.
  - exists false. split; [done|]. split; [done|]. intros Hsub. exfalso.
    destruct (represents_bounds s b Hs) as [Rb [[-> _]|(_ & _ & _ & [y1 E1] & [y2 E2] & [x3 E3] & [x4 E4])]]; [done|].
    apply Hsub, (represents_box r a _ _ Hr) in E1, E2, E3, E4. pose proof (represents_bounds r a Hr) as [Ra _].
    unfold IntRect.contains in Ec. rewrite !maxX_spec, !maxY_spec in Ec by done. unfold inBox in *.
    repeat match type of Ec with (_ && _)%bool = false => apply andb_false_iff in Ec as [Ec|Ec] end; apply Z.leb_gt in Ec; lia.
Qed.

Lemma intersects_ok r s a b : represents r a -> represents s b ->
  exists c, intersects r s = Some c /\ (c = true <-> exists x y, points a x y = true /\ points b x y = true).
Proof.
  intros Hr Hs. unfold intersects. destruct (IntRect.intersects (m_bounds r) (m_bounds s)) eqn:Ei; cbn [negb].
  - destruct Hr as (-> & Ca & _), Hs as (-> & Cb & _). by apply compareShapes_intersects.
  - exists false. split; [done|]. split; [done|]. intros (x & y & Pa & Pb). exfalso.
    destruct (represents_bounds r a Hr) as [Ra [[-> _]|(_ & Ea & _)]]; [done|].
    destruct (represents_bounds s b Hs) as [Rb [[-> _]|(_ & Eb & _)]]; [done|].
    apply (intersects_spec _ _ Ra Rb Ei Ea Eb x y); [by apply (represents_box r a)|by apply (represents_box s b)].
Qed.

Lemma unite_ok r s a b : represents r a -> represents s b ->
  exists u c, unite r s = Some u /\ represents u c /\ forall x y, points c x y = points a x y || points b x y.
Proof.
  intros Hr Hs. unfold unite. rewrite (represents_empty s b Hs).
  destruct (decide (b = [])) as [->|Hneb].
  { rewrite bool_decide_eq_true_2 by done. exists r, a. split; [done|]. split; [done|]. intros x y. by rewrite orb_false_r. }
  rewrite bool_decide_eq_false_2 by done.
  destruct (represents_bounds r a Hr) as [Ra Hba]. destruct (represents_bounds s b Hs) as [Rb [[? _]|(_ & Eb & Tb)]]; [done|].
  assert (Hkeep : (forall x y, points b x y = true -> points a x y = true) ->
    exists u c, Some r = Some u /\ represents u c /\ forall x y, points c x y = points a x y || points b x y).
  { intros Hsub. exists r, a. split; [done|]. split; [done|]. intros x y.
    destruct (points b x y) eqn:E; [by rewrite (Hsub x y E)|by rewrite orb_false_r]. }
  destruct (isRect r && IntRect.contains (m_bounds r) (m_bounds s)) eqn:E1.
  { apply andb_prop in E1 as [Hrect Hc]. apply Hkeep. intros x y Hp. apply (represents_box s b x y Hs) in Hp.
    apply (contains_spec _ _ Ra Rb Hc) in Hp. destruct Hba as [[-> Ee]|(Hne & _ & _)].
    - exfalso. unfold IntRect.isEmpty in Ee. unfold inBox in Hp. apply orb_true_iff in Ee as [H|H]; apply Z.leb_le in H; lia.
    - by apply (isRect_points r a Hr Hne Hrect). }
  destruct (isRect s && IntRect.contains (m_bounds s) (m_bounds r)) eqn:E2.
  { apply andb_prop in E2 as [Hrect Hc]. exists s, b. destruct s as [bs sh]. split; [done|]. split; [done|]. intros x y.
    destruct (points a x y) eqn:E; [|done]. cbn [orb]. apply (isRect_points (mkRegion bs sh) b Hs Hneb Hrect).
    apply (contains_spec _ _ Rb Ra Hc). by apply (represents_box r a). }
  assert (Hunion : exists u c, match unionShapes (m_shape r) (m_shape s) with
      | Some shape => Some (mkRegion (IntRect.unite (m_bounds r) (m_bounds s)) shape) | None => None end = Some u /\
    represents u c /\ forall x y, points c x y = points a x y || points b x y).
  { destruct Hr as (Er & Ca & Rra & _), Hs as (Es & Cb & Rrb & _). rewrite Er, Es.
    destruct (shapeOperation_ok _ _ a b computes_union Ca Cb Rra Rrb) as (c & Ec & Cc & Rc & Hc).
    unfold unionShapes. rewrite Ec. eexists _, c. split; [reflexivity|]. split; [|done]. split_and!; try done. cbn [m_bounds].
    assert (Hnec : c <> []).
    { intros ->. destruct Tb as (_ & [y Hy] & _). specialize (Hc (IntRect.x (m_bounds s)) y). rewrite Hy, orb_true_r in Hc. done. }
    unfold boundsFor. destruct (decide (c = [])) as [|_]; [done|].
    destruct Hba as [[-> Ee]|(Hne & Ea & Ta)].
    - unfold IntRect.unite. rewrite Eb, Ee. split; [done|]. eapply tight_ext; [|exact Tb]. intros x y. by rewrite Hc.
    - destruct (tight_unite _ _ _ _ Ra Rb Ta Tb) as [Ht Hrr]. split; [done|]. eapply tight_ext; [|exact Ht]. intros x y. by rewrite Hc. }
  destruct (isRect r); cbn [negb]; [done|].
  destruct (contains_ok r s a b Hr Hs Hneb) as (c & -> & Hc). destruct c; [|done]. by apply Hkeep, Hc.
Qed.

(** ** Points and rectangles *)

Lemma rowContains_ok s p : goodSegments s -> rowContains (pairs s) p = inside s p.
Proof.
  induction s as [s IH] using (induction_ltof1 _ (@length Z)). unfold ltof in IH. intros Hg.
  destruct (good_cases s Hg) as [->|(x & m & s' & -> & Hs & Hg')]; [done|]. cbn [pairs rowContains].
  rewrite (inside_pair _ _ _ _ Hs). rewrite (IH s') by (done || (cbn; lia)).
  destruct (pair_rest _ _ _ Hs) as (Hx & _ & Hlow).
  destruct (Z.ltb_spec p x), (Z.leb_spec x p), (Z.ltb_spec p m); try lia; cbn [andb orb]; try done.
  destruct (inside s' p) eqn:E; [|done]. apply Hlow in E. lia.
Qed.

(** Two rows of a shape. *)
Lemma drop_two (a : list Row) it : (S it < length a)%nat ->
  exists y s y' s' A, drop it a = (y, s) :: (y', s') :: A /\ a !! it = Some (y, s) /\ a !! S it = Some (y', s') /\
    drop (S it) a = (y', s') :: A.
Proof.
  intros H. destruct (lookup_lt_is_Some_2 a it) as [[y s] E]; [lia|]. destruct (lookup_lt_is_Some_2 a (S it)) as [[y' s'] E']; [lia|].
  exists y, s, y', s', (drop (S (S it)) a). by rewrite (drop_S _ _ _ E), (drop_S _ _ _ E').
Qed.

Lemma pointLoop_ok a px py : closed a -> forall n it, (n + it = length a - 1)%nat -> (it < length a)%nat -> rowSuffix (drop it a) ->
  pointLoop n it (encode a) px py = Some (inside (rowAt [] (drop it a) py) px).
Proof.
  intros Cl. induction n as [|n IH]; intros it Hn Hit Hsuf.
  - assert (E : exists r, drop it a = [r]).
    { pose proof (length_drop a it). destruct (drop it a) as [|r [|r' l]]; cbn in *; [lia|by exists r|lia]. }
    destruct E as [[y s] E]. rewrite E in *. apply rowSuffix_one in Hsuf. cbn in Hsuf. subst s. cbn. by destruct (y <=? py).
  - destruct (drop_two a it) as (y & s & y' & s' & A & E & E1 & E2 & E3); [lia|]. cbn [pointLoop].
    rewrite (encode_span _ _ _ _ E1), (encode_span _ _ _ _ E2). cbn [span_y].
    rewrite E in Hsuf |- *. pose proof (rowSuffix_two _ _ _ _ _ Hsuf) as (Hy & _ & Hg & _ & Hsuf').
    pose proof (IH (S it) ltac:(lia) ltac:(lia)) as IH'. rewrite E3 in IH'. specialize (IH' Hsuf').
    cbn [rowAt] in IH' |- *. destruct (Z.ltb_spec py y), (Z.leb_spec y py); try lia; [done|].
    destruct (Z.leb_spec y' py); [done|]. rewrite (segmentsOf_encode _ _ _ _ Cl E1), rowContains_ok by done.
    destruct (inside s px); [done|]. by rewrite IH'.
Qed.

Lemma containsPoint_ok r a x y : represents r a -> containsPoint r x y = Some (points a x y).
Proof.
  intros Hr. unfold containsPoint, IntRect.containsPoint. pose proof (represents_bounds r a Hr) as [Rr _].
  rewrite maxX_spec, maxY_spec by done. destruct (points a x y) eqn:Hp.
  - pose proof (represents_box r a x y Hr Hp) as HB. unfold inBox in HB.
    replace (_ && _) with true by (symmetry; repeat (apply andb_true_intro; split); (apply Z.leb_le || apply Z.ltb_lt); lia).
    cbn [negb]. destruct Hr as (-> & Ca & _). cbn [m_spans encode]. rewrite length_spansFrom.
    rewrite pointLoop_ok; [by rewrite drop_0, <- Hp|by apply canonical_closed|lia| |rewrite drop_0; by apply canonical_suffix].
    destruct a; [done|cbn; lia].
  - destruct (_ && _); cbn [negb]; [|done]. destruct Hr as (-> & Ca & _). cbn [m_spans encode]. rewrite length_spansFrom.
    destruct a as [|r0 a]; [done|].
    rewrite pointLoop_ok; [by rewrite drop_0, <- Hp|by apply canonical_closed|lia|cbn; lia|rewrite drop_0; by apply canonical_suffix].
Qed.

(** How many of the rectangles contain a point. *)
Definition covering (l : list IntRect.IntRect) (x y : Z) : nat :=
  length (filter (fun r => IntRect.containsPoint r x y = true) l).

Lemma covering_app l l' x y : covering (l ++ l') x y = (covering l x y + covering l' x y)%nat.
Proof. unfold covering. by rewrite list.filter_app, length_app. Qed.

Lemma covering_row s y h x py : goodSegments s -> Forall inRange s -> inRange y -> inRange (y + h) ->
  covering (map (fun '(x, maxX) => IntRect.mkRect x y (swrap 32 (maxX - x)) h) (pairs s)) x py
  = if (y <=? py) && (py <? y + h) && inside s x then 1%nat else 0%nat.
Proof.
  intros Hg Hr Ry Rh. induction s as [s IH] using (induction_ltof1 _ (@length Z)). unfold ltof in IH.
  destruct (good_cases s Hg) as [->|(a & m & s' & -> & Hs & Hg')].
  { cbn. by rewrite andb_false_r. }
  inversion Hr as [|? ? Ra Hr1]; subst. inversion Hr1 as [|? ? Rm Hr']; subst.
  destruct (pair_rest _ _ _ Hs) as (Hx & _ & Hlow).
  unfold covering. cbn [pairs map]. rewrite swrap_sub by done. rewrite filter_cons.
  assert (Rr : rangedRect (IntRect.mkRect a y (m - a) h)).
  { split_and!; cbn; try done. by replace (a + (m - a)) with m by lia. }
  specialize (IH s' ltac:(cbn; lia) Hg' Hr'). unfold covering in IH.
  assert (Ec : IntRect.containsPoint (IntRect.mkRect a y (m - a) h) x py = ((y <=? py) && (py <? y + h) && ((a <=? x) && (x <? m)))).
  { unfold IntRect.containsPoint. rewrite maxX_spec, maxY_spec by done. cbn. replace (a + (m - a)) with m by lia.
    by destruct (a <=? x), (x <? m), (y <=? py), (py <? y + h). }
  rewrite (inside_pair _ _ _ _ Hs).
  destruct (decide (IntRect.containsPoint (IntRect.mkRect a y (m - a) h) x py = true)) as [Hc|Hc]; rewrite Ec in Hc.
  - cbn [length]. rewrite IH. apply andb_prop in Hc as [-> Hc]. rewrite Hc. cbn [andb orb].
    destruct (inside s' x) eqn:E; [|done]. apply Hlow in E. bool_to_prop. lia.
  - rewrite IH. apply not_true_iff_false in Hc. destruct ((y <=? py) && (py <? y + h)); [|done]. cbn [andb] in *. by rewrite Hc.
Qed.

Lemma rectsLoop_ok a x py : closed a -> rangedRows a -> forall n it, (n + it = length a - 1)%nat -> (it < length a)%nat ->
  rowSuffix (drop it a) ->
  exists l, rectsLoop n it (encode a) = Some l /\ covering l x py = if inside (rowAt [] (drop it a) py) x then 1%nat else 0%nat.
Proof.
  intros Cl Ra. induction n as [|n IH]; intros it Hn Hit Hsuf.
  - exists []. split; [done|]. assert (E : exists r, drop it a = [r]).
    { pose proof (length_drop a it). destruct (drop it a) as [|r [|r' l]]; cbn in *; [lia|by exists r|lia]. }
    destruct E as [[y s] E]. rewrite E in *. apply rowSuffix_one in Hsuf. cbn in Hsuf. subst s. cbn. by destruct (y <=? py).
  - destruct (drop_two a it) as (y & s & y' & s' & A & E & E1 & E2 & E3); [lia|]. cbn [rectsLoop].
    rewrite (encode_span _ _ _ _ E1), (encode_span _ _ _ _ E2), (segmentsOf_encode _ _ _ _ Cl E1). cbn [span_y].
    rewrite E in Hsuf |- *. pose proof (rowSuffix_two _ _ _ _ _ Hsuf) as (Hy & _ & Hg & _ & Hsuf').
    destruct (IH (S it)) as (l & -> & Hl); [lia|lia|by rewrite E3|]. eexists. split; [reflexivity|].
    pose proof (proj1 (Forall_lookup _ _) Ra _ _ E1) as [Ry Rs]. pose proof (proj1 (Forall_lookup _ _) Ra _ _ E2) as [Ry' _].
    cbn [fst snd] in *. rewrite swrap_sub by done. rewrite covering_app, Hl, covering_row; [|done|done|done|by replace (y + (y' - y)) with y' by lia].
    replace (y + (y' - y)) with y' by lia. rewrite E3. cbn [rowAt].
    destruct (Z.leb_spec y py), (Z.leb_spec y' py), (Z.ltb_spec py y'); try lia; cbn [andb]; try done.
Qed.

(** ** Translation *)

Definition shiftRows (dx dy : Z) (a : list Row) : list Row :=
  map (fun r : Row => (r.1 + dy, map (fun x => x + dx) r.2)) a.

Lemma inside_shift dx s p : inside (map (fun x => x + dx) s) p = inside s (p - dx).
Proof.
  induction s as [|x s IH]; cbn; [done|]. rewrite IH. f_equal.
  destruct (Z.leb_spec (x + dx) p), (Z.leb_spec x (p - dx)); (done || lia).
Qed.

Lemma good_shift dx s : goodSegments s -> goodSegments (map (fun x => x + dx) s).
Proof.
  intros [Hs Hn]. split; [|by rewrite length_map]. clear Hn. induction Hs as [|x s Hs IH Hx]; [constructor|].
  cbn. constructor; [done|]. apply List.Forall_map. revert Hx. apply List.Forall_impl. intros. lia.
Qed.

Lemma rowAt_shift dx dy a : forall prev y,
  rowAt (map (fun x => x + dx) prev) (shiftRows dx dy a) y = map (fun x => x + dx) (rowAt prev a (y - dy)).
Proof.
  induction a as [|[y1 s1] a IH]; intros prev y; cbn; [done|]. rewrite IH.
  destruct (Z.leb_spec (y1 + dy) y), (Z.leb_spec y1 (y - dy)); (done || lia).
Qed.

Lemma shift_inj dx s : forall s', map (fun x => x + dx) s = map (fun x => x + dx) s' -> s = s'.
Proof.
  induction s as [|x s IH]; intros [|x' s'] E; [done..|]. injection E as E1 E2. f_equal; [lia|by apply IH].
Qed.

Lemma rowsAfter_shift dx dy a : forall y0 prev, rowsAfter y0 prev a ->
  rowsAfter (y0 + dy) (map (fun x => x + dx) prev) (shiftRows dx dy a).
Proof.
  induction a as [|[y1 s1] a IH]; intros y0 prev; cbn; [by intros ->|]. intros (Hy & Hne & Hg & H).
  split_and!; [lia| |by apply good_shift|by apply IH]. intros E. apply Hne.
  by apply (shift_inj dx).
Qed.

Lemma shape_translate_encode dx dy a : rangedRows (shiftRows dx dy a) ->
  shape_translate dx dy (encode a) = encode (shiftRows dx dy a).
Proof.
  intros Hr. assert (Hid : forall z, inRange z -> swrap 32 z = z).
  { intros z Hz. apply swrap_id; change (32 - 1) with 31; unfold inRange in *; lia. }
  unfold shape_translate, encode. cbn [m_segments m_spans]. f_equal.
  - unfold segmentsIn. induction a as [|[y s] a IH]; cbn; [done|]. inversion Hr as [|? ? [_ Hs] Hr']; subst.
    rewrite map_app, IH by done. f_equal. cbn in Hs. clear -Hs Hid. induction s as [|x s IH]; cbn in *; [done|].
    inversion Hs; subst. rewrite Hid, IH by done. done.
  - generalize 0%nat. induction a as [|[y s] a IH]; intros n; cbn; [done|]. inversion Hr as [|? ? [Hy _] Hr']; subst.
    cbn in Hy. rewrite Hid, length_map, IH by done. done.
Qed.

(** ** Properties *)

(** Regions that are built from rectangles, and the sets they stand for. *)
Inductive RegionExpr : Type :=
| RectExpr (r : IntRect.IntRect)
| UniteExpr (e1 e2 : RegionExpr)
| IntersectExpr (e1 e2 : RegionExpr)
| SubtractExpr (e1 e2 : RegionExpr).

Fixpoint evalRegion (e : RegionExpr) : option Region :=
  let apply f e1 e2 :=
    match evalRegion e1, evalRegion e2 with Some r, Some s => f r s | _, _ => None end in
  match e with
  | RectExpr r => Some (fromRect r)
  | UniteExpr e1 e2 => apply unite e1 e2
  | IntersectExpr e1 e2 => apply intersect e1 e2
  | SubtractExpr e1 e2 => apply subtract e1 e2
  end.

Fixpoint pixel (e : RegionExpr) (x y : Z) : bool :=
  match e with
  | RectExpr r =>
      (IntRect.x r <=? x) && (x <? IntRect.x r + IntRect.width r)
      && (IntRect.y r <=? y) && (y <? IntRect.y r + IntRect.height r)
  | UniteExpr e1 e2 => pixel e1 x y || pixel e2 x y
  | IntersectExpr e1 e2 => pixel e1 x y && pixel e2 x y
  | SubtractExpr e1 e2 => pixel e1 x y && negb (pixel e2 x y)
  end.

(** The rectangles are not empty and their coordinates below 2^30. *)
Fixpoint properRects (e : RegionExpr) : Prop :=
  match e with
  | RectExpr r => rangedRect r /\ IntRect.isEmpty r = false
  | UniteExpr e1 e2 | IntersectExpr e1 e2 | SubtractExpr e1 e2 => properRects e1 /\ properRects e2
  end.

Lemma evalRegion_ok e : properRects e ->
  exists r a, evalRegion e = Some r /\ represents r a /\ forall x y, points a x y = pixel e x y.
Proof.
  induction e as [r|e1 IH1 e2 IH2|e1 IH1 e2 IH2|e1 IH1 e2 IH2]; cbn.
  - intros [Hr He]. destruct (fromRect_ok r Hr He) as [Ha Hp]. exists (fromRect r), (rectRows r). split; [done|]. split; [done|].
    intros x y. apply eq_true_iff_eq. rewrite Hp. unfold inBox.
    rewrite !andb_true_iff, !Z.leb_le, !Z.ltb_lt. lia.
  - intros [H1 H2]. destruct (IH1 H1) as (r & a & -> & Ha & Pa), (IH2 H2) as (s & b & -> & Hb & Pb).
    destruct (unite_ok r s a b Ha Hb) as (u & c & -> & Hc & Pc). exists u, c. split; [done|]. split; [done|].
    intros x y. by rewrite Pc, Pa, Pb.
  - intros [H1 H2]. destruct (IH1 H1) as (r & a & -> & Ha & Pa), (IH2 H2) as (s & b & -> & Hb & Pb).
    destruct (intersect_ok r s a b Ha Hb) as (u & c & -> & Hc & Pc). exists u, c. split; [done|]. split; [done|].
    intros x y. by rewrite Pc, Pa, Pb.
  - intros [H1 H2]. destruct (IH1 H1) as (r & a & -> & Ha & Pa), (IH2 H2) as (s & b & -> & Hb & Pb).
    destruct (subtract_ok r s a b Ha Hb) as (u & c & -> & Hc & Pc). exists u, c. split; [done|]. split; [done|].
    intros x y. by rewrite Pc, Pa, Pb.
Qed.

(** *** The bounds of empty regions *)

Lemma updated_zeroed r r' a : updateBoundsFromShape r = Some r' -> represents r' a -> isEmpty r' = true -> m_bounds r' = IntRect.emptyRect.
Proof.
  intros E Hr He. rewrite (represents_empty r' a Hr), bool_decide_eq_true in He. subst a. destruct Hr as (Es & _). unfold updateBoundsFromShape in E. destruct (shape_bounds (m_shape r)) as [b|] eqn:Eb; [|done]. injection E as <-. cbn in Es |- *. rewrite Es in Eb. by injection Eb as <-.
Qed.

(** A region without pixels has the bounds of a new one. *)
Lemma evalRegion_zeroed e r : properRects e -> evalRegion e = Some r -> isEmpty r = true -> m_bounds r = IntRect.emptyRect.
Proof.
  revert r. induction e as [rect|e1 IH1 e2 IH2|e1 IH1 e2 IH2|e1 IH1 e2 IH2]; intros r He E Hz; pose proof He as Hp; cbn in He.
  { destruct He as [_ He]. injection E as <-. unfold isEmpty, fromRect in Hz. cbn in Hz. congruence. }
  all: destruct He as [H1 H2]; destruct (evalRegion_ok _ Hp) as (r' & c & E' & Hc & Pc); rewrite E in E'; injection E' as <-; cbn [evalRegion] in E;
    destruct (evalRegion_ok e1 H1) as (r1 & a & E1 & Ha & Pa), (evalRegion_ok e2 H2) as (r2 & b & E2 & Hb & Pb); rewrite E1, E2 in E; cbn [pixel] in Pc; unfold isEmpty in IH1; specialize (IH1 r1 H1 E1).
  - unfold unite in E. destruct (isEmpty r2) eqn:Ee; [injection E as <-; by apply IH1|]. exfalso.
    assert (Ec : c = []) by (rewrite (represents_empty r c Hc) in Hz; by apply bool_decide_eq_true in Hz). rewrite (represents_empty r2 b Hb) in Ee. apply bool_decide_eq_false in Ee. apply Ee, points_none; [apply Hb|].
    intros x y. specialize (Pc x y). rewrite Ec in Pc. rewrite Pb. symmetry in Pc. change (points [] x y) with false in Pc. by apply orb_false_iff in Pc as [_ ?].
  - unfold intersect in E. destruct (IntRect.isEmpty (m_bounds r1)) eqn:Ee; [injection E as <-; by apply IH1|]. destruct (negb _); [by injection E as <-|]. destruct (intersectShapes _ _) as [sh|]; [|done]. by apply (updated_zeroed _ r c E).
  - unfold subtract in E. destruct (IntRect.isEmpty (m_bounds r1)) eqn:Ee; [injection E as <-; by apply IH1|]. destruct (isEmpty r2); [injection E as <-; unfold isEmpty in Hz; congruence|]. destruct (negb _); [injection E as <-; unfold isEmpty in Hz; congruence|].
    destruct (subtractShapes _ _) as [sh|]; [|done]. by apply (updated_zeroed _ r c E).
Qed.

(** C25: union, intersection and difference of regions that are built from rectangles
    succeed, if none of the rectangles is empty and their coordinates and sizes are within
    2^30 ([properRects]): the result contains exactly the pixels of the set it stands for,
    its bounds are the smallest rectangle around them, and it is empty exactly when there
    are none.  (A region that is made from an empty rectangle has degenerate rows, see
    [empty_rect_intersects].) *)
Theorem region_algebra e :
  properRects e ->
  exists r, evalRegion e = Some r /\
    (forall x y, containsPoint r x y = Some (pixel e x y)) /\
    (isEmpty r = true <-> forall x y, pixel e x y = false) /\
    (isEmpty r = false -> tight (m_bounds r) (pixel e)).
Proof.
  intros He. destruct (evalRegion_ok e He) as (r & a & E & Ha & Hp). exists r. split; [done|]. split_and!.
  - intros x y. by rewrite (containsPoint_ok r a x y Ha), Hp.
  - rewrite (represents_empty r a Ha), bool_decide_eq_true. split.
    + intros -> x y. by rewrite <- Hp.
    + intros H. apply points_none; [by destruct Ha as (_ & ? & _)|]. intros x y. by rewrite Hp.
  - intros H. destruct (represents_bounds r a Ha) as [_ [[-> Ee]|(_ & _ & Ht)]]; [unfold isEmpty in H; congruence|].
    by eapply tight_ext.
Qed.

(** An L-shaped region with a hole. *)
Definition exampleRegion : RegionExpr :=
  SubtractExpr (UniteExpr (RectExpr (IntRect.mkRect 0 0 10 30)) (RectExpr (IntRect.mkRect (-5) 20 40 10)))
    (RectExpr (IntRect.mkRect 2 22 3 3)).

Lemma exampleRegion_proper : properRects exampleRegion.
Proof. cbn. unfold rangedRect, inRange. cbn. repeat split; lia. Qed.

Lemma region_algebra_witness :
  exists r, evalRegion exampleRegion = Some r /\
    (forall x y, containsPoint r x y = Some (pixel exampleRegion x y)) /\
    (isEmpty r = true <-> forall x y, pixel exampleRegion x y = false) /\
    (isEmpty r = false -> tight (m_bounds r) (pixel exampleRegion)).
Proof. apply region_algebra. apply exampleRegion_proper. Defined.

(** C26: for regions that are built from rectangles, none of them empty and all with
    coordinates and sizes within 2^30 ([properRects]), [intersects] decides whether two
    regions have a pixel in common, [operator==] whether they have the same pixels (there
    is one representation of each set), and [contains] whether the second region is a
    subset of the first one, if the second one has a pixel. *)
Theorem region_compare e1 e2 :
  properRects e1 -> properRects e2 ->
  exists r s c i, evalRegion e1 = Some r /\ evalRegion e2 = Some s /\
    contains r s = Some c /\ intersects r s = Some i /\
    ((exists x y, pixel e2 x y = true) -> c = true <-> forall x y, pixel e2 x y = true -> pixel e1 x y = true) /\
    (equal r s = true <-> forall x y, pixel e1 x y = pixel e2 x y) /\
    (i = true <-> exists x y, pixel e1 x y = true /\ pixel e2 x y = true).
Proof.
  intros H1 H2. destruct (evalRegion_ok e1 H1) as (r & a & E1 & Ha & Pa), (evalRegion_ok e2 H2) as (s & b & E2 & Hb & Pb).
  destruct (intersects_ok r s a b Ha Hb) as (i & Ei & Hi).
  assert (Hc : exists c, contains r s = Some c /\
    (b <> [] -> c = true <-> forall x y, points b x y = true -> points a x y = true)).
  { destruct (decide (b = [])) as [->|Hne].
    - unfold contains. destruct (negb _); [by exists false|]. destruct Ha as (-> & Ca & _), Hb as (-> & Cb & _).
      destruct (compareShapes_contains a [] Ca Cb) as (c & -> & _). by exists c.
    - destruct (contains_ok r s a b Ha Hb Hne) as (c & Ec & Hc). by exists c. }
  destruct Hc as (c & Ec & Hc). exists r, s, c, i. split_and!; try done.
  - intros (x0 & y0 & Hp). assert (Hne : b <> []) by (intros ->; by rewrite <- Pb in Hp). rewrite (Hc Hne). by setoid_rewrite Pa; setoid_rewrite Pb.
  - unfold equal. rewrite !andb_true_iff, !bool_decide_eq_true. split.
    + intros (_ & Esp & Esg) x y. rewrite <- Pa, <- Pb. destruct Ha as (Er & Ca & _), Hb as (Es & Cb & _).
      rewrite Er, Es in Esp, Esg. by rewrite (encode_inj a b Esp Esg).
    + intros Heq. assert (E : a = b) by (apply canonical_unique; [apply Ha|apply Hb|]; intros x y; by rewrite Pa, Pb). subst b. split; [|by destruct Ha as (-> & _), Hb as (-> & _)].
      destruct (represents_bounds r a Ha) as [_ [[Er Za]|(Na & _ & Ta)]], (represents_bounds s a Hb) as [_ [[Es Zb]|(Nb & _ & Tb)]]; try done.
      * by rewrite (evalRegion_zeroed e1 r), (evalRegion_zeroed e2 s).
      * by apply (tight_unique _ _ (points a)).
  - rewrite Hi. by setoid_rewrite Pa; setoid_rewrite Pb.
Qed.

Lemma region_compare_witness :
  exists r s c i, evalRegion exampleRegion = Some r /\ evalRegion (RectExpr (IntRect.mkRect 1 1 3 3)) = Some s /\
    contains r s = Some c /\ intersects r s = Some i /\
    ((exists x y, pixel (RectExpr (IntRect.mkRect 1 1 3 3)) x y = true) ->
     c = true <-> forall x y, pixel (RectExpr (IntRect.mkRect 1 1 3 3)) x y = true -> pixel exampleRegion x y = true) /\
    (equal r s = true <-> forall x y, pixel exampleRegion x y = pixel (RectExpr (IntRect.mkRect 1 1 3 3)) x y) /\
    (i = true <-> exists x y, pixel exampleRegion x y = true /\ pixel (RectExpr (IntRect.mkRect 1 1 3 3)) x y = true).
Proof.
  apply region_compare; [apply exampleRegion_proper|]. cbn. unfold rangedRect, inRange. cbn. repeat split; lia.
Defined.

(** The rectangles of a region that is built from rectangles
    contain each of its pixels once, and no other pixel. *)
Theorem region_rects e :
  properRects e ->
  exists r l, evalRegion e = Some r /\ rects r = Some l /\
    forall x y, covering l x y = if pixel e x y then 1%nat else 0%nat.
Proof.
  intros He. destruct (evalRegion_ok e He) as (r & a & E & Ha & Hp). destruct Ha as (Er & Ca & Ra & _).
  assert (Erects : rects r = rectsLoop (length a - 1) 0 (encode a)).
  { unfold rects. rewrite Er. cbn [m_spans encode]. by rewrite length_spansFrom. }
  destruct a as [|r0 a].
  { exists r, []. split; [done|]. split; [done|]. intros x y. by rewrite <- Hp. }
  assert (Hl : forall x y, exists l, rectsLoop (length (r0 :: a) - 1) 0 (encode (r0 :: a)) = Some l /\
    covering l x y = if points (r0 :: a) x y then 1%nat else 0%nat).
  { intros x y. destruct (rectsLoop_ok (r0 :: a) x y (canonical_closed _ Ca) Ra (length (r0 :: a) - 1) 0) as (l & El & Hl);
      [lia|cbn; lia|by apply canonical_suffix|]. by exists l. }
  destruct (Hl 0 0) as (l & El & _). exists r, l. split; [done|]. split; [by rewrite Erects|]. intros x y.
  destruct (Hl x y) as (l' & El' & Hc). rewrite El in El'. injection El' as <-. by rewrite Hc, Hp.
Qed.

Lemma region_rects_witness :
  exists r l, evalRegion exampleRegion = Some r /\ rects r = Some l /\
    forall x y, covering l x y = if pixel exampleRegion x y then 1%nat else 0%nat.
Proof. apply region_rects. apply exampleRegion_proper. Defined.

(** Translating a region moves its pixels and its bounds, as
    long as the coordinates stay in range. *)
Theorem region_translate dx dy r a :
  represents r a -> rangedRows (shiftRows dx dy a) ->
  rangedRect (IntRect.mkRect (IntRect.x (m_bounds r) + dx) (IntRect.y (m_bounds r) + dy)
                (IntRect.width (m_bounds r)) (IntRect.height (m_bounds r))) ->
  represents (translate dx dy r) (shiftRows dx dy a) /\
  forall x y, containsPoint (translate dx dy r) x y = Some (points a (x - dx) (y - dy)).
Proof.
  intros Hr Ra Rb. assert (Hp : forall x y, points (shiftRows dx dy a) x y = points a (x - dx) (y - dy)).
  { intros x y. unfold points. rewrite <- inside_shift. f_equal. apply (rowAt_shift dx dy a []). }
  assert (Hrep : represents (translate dx dy r) (shiftRows dx dy a)).
  { destruct Hr as (Er & [y0 Ca] & Ra0 & Rb0 & Hb). split_and!.
    - cbn [translate m_shape]. rewrite Er. by apply shape_translate_encode.
    - exists (y0 + dy). by apply (rowsAfter_shift dx dy a y0 []).
    - done.
    - cbn [translate m_bounds]. unfold IntRect.move. pose proof Rb as (R1 & R2 & _). cbn in R1, R2.
      assert (Hid : forall z, inRange z -> swrap 32 z = z) by (intros z Hz; apply swrap_id; change (32 - 1) with 31; unfold inRange in *; lia).
      rewrite !Hid by done. split; [done|].
      destruct (decide (a = [])) as [->|Hne]; [done|]. destruct (decide (shiftRows dx dy a = [])) as [E|_]; [by destruct a|].
      destruct Hb as (B & [y1 E1] & [y2 E2] & [x3 E3] & [x4 E4]).
      unfold tight, inBox in *. cbn [IntRect.x IntRect.y IntRect.width IntRect.height]. split.
      + intros x y. rewrite Hp. intros H%B. lia.
      + split_and!; [exists (y1 + dy)|exists (y2 + dy)|exists (x3 + dx)|exists (x4 + dx)]; rewrite Hp;
          [rewrite <- E1|rewrite <- E2|rewrite <- E3|rewrite <- E4]; f_equal; lia. }
  split; [done|]. intros x y. by rewrite (containsPoint_ok _ _ x y Hrep), Hp.
Qed.

Lemma region_translate_witness :
  let r := IntRect.mkRect 0 0 4 5 in
  represents (translate 7 (-3) (fromRect r)) (shiftRows 7 (-3) (rectRows r)) /\
  forall x y, containsPoint (translate 7 (-3) (fromRect r)) x y = Some (points (rectRows r) (x - 7) (y - -3)).
Proof.
  apply region_translate.
  - apply fromRect_ok; [unfold rangedRect, inRange; cbn; lia|reflexivity].
  - cbn. apply List.Forall_cons; [|apply List.Forall_cons; [|constructor]]; unfold rangedRow; cbn [fst snd];
      (split; [unfold inRange; lia|]); repeat (apply List.Forall_cons; [unfold inRange; lia|]); constructor.
  - unfold rangedRect, inRange. cbn. lia.
Defined.


(** The comment says that [contains] is true of every subset; the empty region
    is not contained in a region whose bounds do not contain the origin. *)
Example contains_not_empty :
  contains (fromRect (IntRect.mkRect 5 5 10 10)) newRegion = Some false.
Proof. reflexivity. Qed.

(** An empty rectangle leaves rows in the shape that have no pixels, and
    [intersects] takes them for pixels. *)
Definition cornerRegion : RegionExpr :=
  UniteExpr (RectExpr (IntRect.mkRect 10 0 20 30)) (RectExpr (IntRect.mkRect 0 10 30 20)).

Example empty_rect_intersects :
  match evalRegion (UniteExpr (RectExpr (IntRect.mkRect 20 20 0 0)) (RectExpr (IntRect.mkRect 0 0 3 3))),
        evalRegion cornerRegion with
  | Some r, Some s => rects r = Some [IntRect.mkRect 0 0 3 3; IntRect.mkRect 20 20 0 0] /\ intersects r s = Some true
  | _, _ => False
  end.
Proof. vm_compute. split; reflexivity. Qed.
