(* ===== verification/StringHasher.v ===== *)
(** * [wtf/StringHasher.h]

    The string hash, two characters at a time, on 32-bit unsigned integers. *)
From S2P Require Import Prelude.
From stdpp Require Import base list numbers option.
From Stdlib Require Import ZArith Lia.
#[local] Open Scope Z_scope.

Module StringHasher.

Definition stringHashingStartValue : Z := 0x9E3779B9.

Definition flagCount : Z := 8.

Record StringHasher : Type := mkHasher {
  m_hash : Z;
  m_hasPendingCharacter : bool;
  m_pendingCharacter : Z
}.

Definition newHasher : StringHasher := mkHasher stringHashingStartValue false 0.

Definition mix (hash a b : Z) : Z :=
  let hash := uwrap 32 (hash + a) in
  let hash := Z.lxor (uwrap 32 (Z.shiftl hash 16)) (Z.lxor (uwrap 32 (Z.shiftl b 11)) hash) in
  uwrap 32 (hash + Z.shiftr hash 11).

Definition addCharactersAssumingAligned (a b : Z) (h : StringHasher) : option StringHasher :=
  guard! negb (m_hasPendingCharacter h) in
  Some (mkHasher (mix (m_hash h) a b) false (m_pendingCharacter h)).

Definition addCharacter (character : Z) (h : StringHasher) : option StringHasher :=
  if m_hasPendingCharacter h then
    addCharactersAssumingAligned (m_pendingCharacter h) character
      (mkHasher (m_hash h) false (m_pendingCharacter h))
  else Some (mkHasher (m_hash h) true character).

(** [addCharacters(a, b)]. *)
Definition addCharacters2 (a b : Z) (h : StringHasher) : option StringHasher :=
  if m_hasPendingCharacter h then
    match addCharactersAssumingAligned (m_pendingCharacter h) a
            (mkHasher (m_hash h) false (m_pendingCharacter h)) with
    | None => None
    | Some h => Some (mkHasher (m_hash h) true b)
    end
  else addCharactersAssumingAligned a b h.

(** The loop of [addCharactersAssumingAligned(data, length)]. *)
Fixpoint addAlignedLoop (data : list Z) (h : StringHasher) : option StringHasher :=
  match data with
  | a :: b :: data =>
      match addCharactersAssumingAligned a b h with
      | None => None
      | Some h => addAlignedLoop data h
      end
  | [a] => addCharacter a h
  | [] => Some h
  end.

Definition addAligned (data : list Z) (h : StringHasher) : option StringHasher :=
  guard! negb (m_hasPendingCharacter h) in addAlignedLoop data h.

(** [addCharacters(data, length)]. *)
Definition addCharacters (data : list Z) (h : StringHasher) : option StringHasher :=
  match data with
  | c :: rest =>
      if m_hasPendingCharacter h then
        match addCharactersAssumingAligned (m_pendingCharacter h) c
                (mkHasher (m_hash h) false (m_pendingCharacter h)) with
        | None => None
        | Some h => addAligned rest h
        end
      else addAligned data h
  | [] => addAligned data h
  end.

(** The versions for a text that ends with a NUL: the text up to it.  [data] is
    what is in memory; the terminator of the text is the first zero, or the one
    behind [data]. *)
Fixpoint addAlignedTerminatedLoop (data : list Z) (h : StringHasher) : option StringHasher :=
  match data with
  | [] => Some h
  | a :: data =>
      if a =? 0 then Some h
      else match data with
      | [] => addCharacter a h
      | b :: data =>
          if b =? 0 then addCharacter a h
          else match addCharactersAssumingAligned a b h with
          | None => None
          | Some h => addAlignedTerminatedLoop data h
          end
      end
  end.

Definition addAlignedTerminated (data : list Z) (h : StringHasher) : option StringHasher :=
  guard! negb (m_hasPendingCharacter h) in addAlignedTerminatedLoop data h.

Definition addCharactersTerminated (data : list Z) (h : StringHasher) : option StringHasher :=
  match data with
  | c :: rest =>
      if m_hasPendingCharacter h && negb (c =? 0) then
        match addCharactersAssumingAligned (m_pendingCharacter h) c
                (mkHasher (m_hash h) false (m_pendingCharacter h)) with
        | None => None
        | Some h => addAlignedTerminated rest h
        end
      else addAlignedTerminated data h
  | [] => addAlignedTerminated data h
  end.

Definition avalancheBits (h : StringHasher) : Z :=
  let result := m_hash h in
  let result :=
    if m_hasPendingCharacter h then
      let result := uwrap 32 (result + m_pendingCharacter h) in
      let result := Z.lxor result (uwrap 32 (Z.shiftl result 11)) in
      uwrap 32 (result + Z.shiftr result 17)
    else result in
  let result := Z.lxor result (uwrap 32 (Z.shiftl result 3)) in
  let result := uwrap 32 (result + Z.shiftr result 5) in
  let result := Z.lxor result (uwrap 32 (Z.shiftl result 2)) in
  let result := uwrap 32 (result + Z.shiftr result 15) in
  Z.lxor result (uwrap 32 (Z.shiftl result 10)).

Definition hashWithTop8BitsMasked (h : StringHasher) : Z :=
  let result := Z.land (avalancheBits h) (Z.shiftl 1 (32 - flagCount) - 1) in
  if result =? 0 then Z.shiftr 0x80000000 flagCount else result.

Definition hash (h : StringHasher) : Z :=
  let result := avalancheBits h in
  if result =? 0 then 0x80000000 else result.

Definition computeHashAndMaskTop8Bits (data : list Z) : option Z :=
  match addAligned data newHasher with
  | None => None
  | Some h => Some (hashWithTop8BitsMasked h)
  end.

Definition computeHash (data : list Z) : option Z :=
  match addAligned data newHasher with
  | None => None
  | Some h => Some (hash h)
  end.

(** ** A hasher as the characters it has been given *)

(** The hash of the pairs of a text, and the character left over. *)
Fixpoint absorb (data : list Z) (hash : Z) : Z * option Z :=
  match data with
  | a :: b :: data => absorb data (mix hash a b)
  | [a] => (hash, Some a)
  | [] => (hash, None)
  end.

Definition hasherOf (data : list Z) (h : StringHasher) : Prop :=
  absorb data stringHashingStartValue = (m_hash h, if m_hasPendingCharacter h then Some (m_pendingCharacter h) else None).

Lemma absorb_snoc data : forall hash c,
  absorb (data ++ [c]) hash =
  match absorb data hash with
  | (hash, Some p) => (mix hash p c, None)
  | (hash, None) => (hash, Some c)
  end.
Proof.
  induction data as [data IH] using (induction_ltof1 _ (@length Z)). unfold ltof in IH. intros hash c.
  destruct data as [|a [|b data]]; try reflexivity. cbn [app absorb]. apply IH. simpl. lia.
Qed.

Lemma hasherOf_new : hasherOf [] newHasher.
Proof. done. Qed.

(** The four ways of adding characters add them to the text. *)
Lemma addCharacter_ok data h c : hasherOf data h ->
  exists h', addCharacter c h = Some h' /\ hasherOf (data ++ [c]) h'.
Proof.
  intros H. unfold hasherOf in *. unfold addCharacter.
  destruct h as [x [] p]; cbn in *; eexists; (split; [done|]); rewrite absorb_snoc, H; done.
Qed.

Lemma addCharacters2_ok data h a b : hasherOf data h ->
  exists h', addCharacters2 a b h = Some h' /\ hasherOf (data ++ [a; b]) h'.
Proof.
  intros H. change [a; b] with ([a] ++ [b]). rewrite app_assoc. unfold hasherOf in *. unfold addCharacters2.
  destruct h as [x [] p]; cbn in *; eexists; (split; [done|]); rewrite !absorb_snoc, H; done.
Qed.

Lemma addAligned_ok data2 : forall data h, hasherOf data h -> m_hasPendingCharacter h = false ->
  exists h', addAligned data2 h = Some h' /\ hasherOf (data ++ data2) h'.
Proof.
  induction data2 as [data2 IH] using (induction_ltof1 _ (@length Z)). unfold ltof in IH.
  intros data h H Hp. unfold addAligned. rewrite Hp. cbn [negb].
  destruct data2 as [|a [|b data2]]; cbn [addAlignedLoop].
  - exists h. by rewrite app_nil_r.
  - by apply addCharacter_ok.
  - destruct (addCharacters2_ok data h a b H) as (h1 & E & H1). unfold addCharacters2 in E. rewrite Hp in E. rewrite E.
    assert (Hp1 : m_hasPendingCharacter h1 = false).
    { unfold addCharactersAssumingAligned in E. rewrite Hp in E. cbn in E. by injection E as <-. }
    destruct (IH data2 ltac:(simpl; lia) _ _ H1 Hp1) as (h2 & E2 & H2). unfold addAligned in E2. rewrite Hp1 in E2.
    exists h2. split; [done|]. by rewrite <- app_assoc in H2.
Qed.

Lemma addCharacters_ok data2 data h : hasherOf data h -> data2 <> [] ->
  exists h', addCharacters data2 h = Some h' /\ hasherOf (data ++ data2) h'.
Proof.
  intros H Hne. unfold addCharacters. destruct data2 as [|c rest]; [done|].
  destruct (m_hasPendingCharacter h) eqn:Hp; [|by apply addAligned_ok].
  destruct (addCharacter_ok data h c H) as (h1 & E & H1). unfold addCharacter in E. rewrite Hp in E. rewrite E.
  assert (Hp1 : m_hasPendingCharacter h1 = false) by (cbn in E; by injection E as <-).
  destruct (addAligned_ok rest _ _ H1 Hp1) as (h2 & E2 & H2). exists h2. split; [done|].
  by rewrite <- app_assoc in H2.
Qed.

(** The text before the first zero. *)
Fixpoint cString (data : list Z) : list Z :=
  match data with
  | [] => []
  | c :: data => if c =? 0 then [] else c :: cString data
  end.

Lemma terminated_loop data : forall h, addAlignedTerminatedLoop data h = addAlignedLoop (cString data) h.
Proof.
  induction data as [data IH] using (induction_ltof1 _ (@length Z)). unfold ltof in IH. intros h.
  destruct data as [|a data]; [done|]. cbn [addAlignedTerminatedLoop cString].
  destruct (a =? 0); [done|]. destruct data as [|b data]; [done|]. cbn [cString].
  destruct (b =? 0); [done|]. cbn [addAlignedLoop]. destruct (addCharactersAssumingAligned a b h); [|done].
  apply IH. simpl. lia.
Qed.

Lemma terminated_add data h : addCharactersTerminated data h = addCharacters (cString data) h.
Proof.
  unfold addCharactersTerminated, addCharacters, addAlignedTerminated, addAligned.
  destruct data as [|c rest]; [done|]. destruct (Z.eqb_spec c 0) as [->|Hc]; cbn [negb].
  - rewrite andb_false_r. cbn [cString Z.eqb]. by rewrite terminated_loop.
  - rewrite andb_true_r. assert (E : cString (c :: rest) = c :: cString rest) by (cbn; by destruct (Z.eqb_spec c 0)).
    rewrite E. destruct (m_hasPendingCharacter h); [|by rewrite terminated_loop, E].
    destruct (addCharactersAssumingAligned _ _ _); [|done]. by rewrite terminated_loop.
Qed.

(** The hash is a function of the characters. *)
Lemma hash_unique data h h' : hasherOf data h -> hasherOf data h' ->
  hashWithTop8BitsMasked h = hashWithTop8BitsMasked h' /\ hash h = hash h'.
Proof.
  unfold hasherOf. intros H H'. rewrite H in H'. destruct h as [x [] p], h' as [x' [] p']; cbn in H'; try done;
    injection H'; intros; subst; done.
Qed.

(** ** Properties *)

Inductive HashOp : Type :=
| One (c : Z)
| Two (a b : Z)
| Many (data : list Z)
| CString (data : list Z).

Definition hashOp (o : HashOp) (h : StringHasher) : option StringHasher :=
  match o with One c => addCharacter c h | Two a b => addCharacters2 a b h | Many data => addCharacters data h
  | CString data => addCharactersTerminated data h end.

Fixpoint hashOps (ops : list HashOp) (h : StringHasher) : option StringHasher :=
  match ops with
  | [] => Some h
  | o :: ops => match hashOp o h with None => None | Some h => hashOps ops h end
  end.

Definition opText (o : HashOp) : list Z :=
  match o with One c => [c] | Two a b => [a; b] | Many data => data | CString data => cString data end.

Definition nonEmptyOp (o : HashOp) : bool := negb (length (opText o) =? 0)%nat.

Lemma hashOps_ok ops : forall data h, forallb nonEmptyOp ops = true -> hasherOf data h ->
  exists h', hashOps ops h = Some h' /\ hasherOf (data ++ flat_map opText ops) h'.
Proof.
  induction ops as [|o ops IH]; intros data h Hops H; cbn [hashOps flat_map]; [exists h; by rewrite app_nil_r|].
  cbn in Hops. apply andb_prop in Hops as [Ho Hops].
  assert (Hstep : exists h', hashOp o h = Some h' /\ hasherOf (data ++ opText o) h').
  { destruct o as [c|a b|l|l]; cbn; [by apply addCharacter_ok|by apply addCharacters2_ok|..];
      rewrite ?terminated_add; (apply addCharacters_ok; [done|]); intros E; unfold nonEmptyOp in Ho; cbn in Ho;
      by rewrite E in Ho. }
  destruct Hstep as (h1 & -> & H1). destruct (IH _ _ Hops H1) as (h2 & E2 & H2).
  exists h2. split; [done|]. by rewrite <- app_assoc in H2.
Qed.

Lemma masked_range h : 0 < hashWithTop8BitsMasked h < 2 ^ 24.
Proof.
  unfold hashWithTop8BitsMasked, flagCount.
  change (Z.shiftl 1 (32 - 8) - 1) with (Z.ones 24). rewrite Z.land_ones by lia.
  pose proof (Z.mod_pos_bound (avalancheBits h) (2 ^ 24) ltac:(lia)).
  destruct (Z.eqb_spec (avalancheBits h mod 2 ^ 24) 0); [by cbn|lia].
Qed.

(** C35: adding the characters of a text one, two or many at a
    time, with a length or up to a NUL, in any order of these calls (none of them with no characters), gives
    the hash that is computed from the whole text, which is not 0 and leaves the
    top eight bits for the flags of the string. *)
Theorem string_hash_incremental ops :
  forallb nonEmptyOp ops = true ->
  exists h, hashOps ops newHasher = Some h /\
    computeHashAndMaskTop8Bits (flat_map opText ops) = Some (hashWithTop8BitsMasked h) /\
    computeHash (flat_map opText ops) = Some (hash h) /\
    0 < hashWithTop8BitsMasked h < 2 ^ 24.
Proof.
  intros Hops. destruct (hashOps_ok ops [] newHasher Hops hasherOf_new) as (h & E & H).
  destruct (addAligned_ok (flat_map opText ops) [] newHasher hasherOf_new eq_refl) as (h' & E' & H').
  exists h. split; [done|]. unfold computeHashAndMaskTop8Bits, computeHash. rewrite E'.
  destruct (hash_unique _ _ _ H' H) as [-> ->]. split_and!; try done; apply masked_range.
Qed.

Lemma string_hash_incremental_witness :
  exists h, hashOps [One 97; Two 98 99; Many [100]; CString [101; 0; 102]] newHasher = Some h /\
    computeHashAndMaskTop8Bits [97; 98; 99; 100; 101] = Some (hashWithTop8BitsMasked h) /\
    computeHash [97; 98; 99; 100; 101] = Some (hash h) /\
    0 < hashWithTop8BitsMasked h < 2 ^ 24.
Proof. apply (string_hash_incremental [One 97; Two 98 99; Many [100]; CString [101; 0; 102]]). reflexivity. Defined.

(** The exception: no characters added to a hasher with an odd number of them
    run into the assertion that the hasher is aligned. *)
Example add_nothing_asserts : hashOps [One 97; Many []] newHasher = None.
Proof. reflexivity. Qed.

End StringHasher.
