(* ===== verification/UTF8.v ===== *)
(** * [wtf/unicode/UTF8.cpp]

    Conversion between UTF-8 and UTF-16 in buffers of fixed size, the hash of
    UTF-8 text and the comparison of UTF-16 with UTF-8.  A source is the list of
    its units; a target is what was written to it, with the number of units it
    has room for as a bound; [None] is an access outside a buffer, or a loop that
    is still running when its fuel is used up. *)
From S2P Require Import Prelude Unicode StringHasher.
From stdpp Require Import base list numbers option.
From Stdlib Require Import ZArith Lia.
#[local] Open Scope Z_scope.

Module UTF8.

Definition replacementCharacter : Z := 0xFFFD.

Definition isASCII (c : Z) : bool := Z.land c (Z.lnot 0x7F) =? 0.

(** ** One sequence *)

Definition inlineUTF8SequenceLengthNonASCII (b0 : Z) : nat :=
  if negb (Z.land b0 0xC0 =? 0xC0) then 0
  else if Z.land b0 0xE0 =? 0xC0 then 2
  else if Z.land b0 0xF0 =? 0xE0 then 3
  else if Z.land b0 0xF8 =? 0xF0 then 4
  else 0.

Definition inlineUTF8SequenceLength (b0 : Z) : nat :=
  if isASCII b0 then 1 else inlineUTF8SequenceLengthNonASCII b0.

Definition UTF8SequenceLength (b0 : Z) : nat :=
  if isASCII b0 then 1 else inlineUTF8SequenceLengthNonASCII b0.

(** A sequence that ends with a NUL: the byte behind it is 0. *)
Definition terminatedAt (sequence : list Z) (i : nat) : Z := default 0 (sequence !! i).

Definition decodeUTF8Sequence (sequence : list Z) : Z :=
  let b0 := terminatedAt sequence 0 in
  let length := inlineUTF8SequenceLength b0 in
  if (length =? 0)%nat then -1
  else
    let b1 := terminatedAt sequence 1 in
    if (length =? 1)%nat then if negb (b1 =? 0) then -1 else b0
    else if negb (Z.land b1 0xC0 =? 0x80) then -1
    else
      let b2 := terminatedAt sequence 2 in
      if (length =? 2)%nat then
        if negb (b2 =? 0) then -1
        else
          let c := Z.lor (Z.shiftl (Z.land b0 0x1F) 6) (Z.land b1 0x3F) in
          if c <? 0x80 then -1 else c
      else if negb (Z.land b2 0xC0 =? 0x80) then -1
      else
        let b3 := terminatedAt sequence 3 in
        if (length =? 3)%nat then
          if negb (b3 =? 0) then -1
          else
            let c := Z.lor (Z.lor (Z.shiftl (Z.land b0 0xF) 12) (Z.shiftl (Z.land b1 0x3F) 6)) (Z.land b2 0x3F) in
            if c <? 0x800 then -1
            else if (0xD800 <=? c) && (c <=? 0xDFFF) then -1
            else c
        else if negb (Z.land b3 0xC0 =? 0x80) then -1
        else
          let b4 := terminatedAt sequence 4 in
          if (length =? 4)%nat then
            if negb (b4 =? 0) then -1
            else
              let c := Z.lor (Z.lor (Z.lor (Z.shiftl (Z.land b0 0x7) 18) (Z.shiftl (Z.land b1 0x3F) 12))
                                (Z.shiftl (Z.land b2 0x3F) 6)) (Z.land b3 0x3F) in
              if (c <? 0x10000) || (0x10FFFF <? c) then -1 else c
          else -1.

Definition isLegalByte (a lo hi : Z) : bool := negb ((a <? lo) || (hi <? a)).

(** [isLegalUTF8]: the bytes behind the second are checked first. *)
Definition isLegalUTF8 (source : list Z) (length : nat) : option bool :=
  let at_ i k := match source !! i with Some b => k b | None => None end in
  let case1 := at_ 0%nat (fun s0 =>
    if (0x80 <=? s0) && (s0 <? 0xC2) then Some false
    else if 0xF4 <? s0 then Some false
    else Some true) in
  let case2 := at_ 1%nat (fun a =>
    if 0xBF <? a then Some false
    else at_ 0%nat (fun s0 =>
      if (if s0 =? 0xE0 then a <? 0xA0
          else if s0 =? 0xED then 0x9F <? a
          else if s0 =? 0xF0 then a <? 0x90
          else if s0 =? 0xF4 then 0x8F <? a
          else a <? 0x80) then Some false
      else case1)) in
  let case3 := at_ 2%nat (fun a => if isLegalByte a 0x80 0xBF then case2 else Some false) in
  let case4 := at_ 3%nat (fun a => if isLegalByte a 0x80 0xBF then case3 else Some false) in
  match length with
  | 4%nat => case4
  | 3%nat => case3
  | 2%nat => case2
  | 1%nat => case1
  | _ => Some false
  end.

Definition offsetsFromUTF8 : list Z := [
  0x00000000; 0x00003080; 0x000E2080; 0x03C82080; swrap 32 0xFA082080; swrap 32 0x82082080].

(** [readUTF8Sequence]: the character and the bytes behind it. *)
Fixpoint readBytes (n : nat) (character : Z) (source : list Z) : option (Z * list Z) :=
  match n, source with
  | O, _ => Some (character, source)
  | _, [] => None
  | S O, b :: source => Some (character + b, source)
  | S n, b :: source => readBytes n (Z.shiftl (character + b) 6) source
  end.

Definition readUTF8Sequence (source : list Z) (length : nat) : option (Z * list Z) :=
  match readBytes length 0 source with
  | None => None
  | Some (character, source) => Some (character - default 0 (offsetsFromUTF8 !! (length - 1)%nat), source)
  end.

(** ** Conversions *)

Inductive ConversionResult : Type :=
| conversionOK
| sourceExhausted
| targetExhausted
| sourceIllegal.

#[export] Instance ConversionResult_eq_dec : EqDecision ConversionResult.
Proof. solve_decision. Defined.

Definition firstByteMark : list Z := [0x00; 0x00; 0xC0; 0xE0; 0xF0; 0xF8; 0xFC].

(** The [switch] that writes [n] bytes from the last to the first. *)
Fixpoint writeTrailing (n : nat) (ch : Z) (written : list Z) : Z * list Z :=
  match n with
  | O => (ch, written)
  | S n => writeTrailing n (Z.shiftr ch 6) (uwrap 8 (Z.land (Z.lor ch 0x80) 0xBF) :: written)
  end.

Definition writeBytes (bytesToWrite : nat) (ch : Z) : list Z :=
  let '(ch, written) := writeTrailing (bytesToWrite - 1) ch [] in
  uwrap 8 (Z.lor ch (default 0 (firstByteMark !! bytesToWrite))) :: written.

Fixpoint convertLatin1ToUTF8 (source : list Z) (room : nat) : ConversionResult * list Z * list Z :=
  match source with
  | [] => (conversionOK, [], [])
  | ch :: rest =>
      let bytesToWrite := if ch <? 0x80 then 1%nat else 2%nat in
      if (room <? bytesToWrite)%nat then (targetExhausted, source, [])
      else
        let '(result, source, target) := convertLatin1ToUTF8 rest (room - bytesToWrite) in
        (result, source, writeBytes bytesToWrite ch ++ target)
  end.

(** The code point at the front of UTF-16 text and the text behind it, or how
    the conversion is left. *)
Definition nextFromUTF16 (strict : bool) (ch : Z) (rest : list Z) : Z * list Z + ConversionResult :=
  if (0xD800 <=? ch) && (ch <=? 0xDBFF) then
    match rest with
    | ch2 :: rest' =>
        if (0xDC00 <=? ch2) && (ch2 <=? 0xDFFF)
        then inl (Z.shiftl (ch - 0xD800) 10 + (ch2 - 0xDC00) + 0x0010000, rest')
        else if strict then inr sourceIllegal
        else inl (ch, rest)
    | [] => inr sourceExhausted
    end
  else if strict && ((0xDC00 <=? ch) && (ch <=? 0xDFFF)) then inr sourceIllegal
  else inl (ch, rest).

Definition bytesFor (ch : Z) : nat * Z :=
  if ch <? 0x80 then (1%nat, ch)
  else if ch <? 0x800 then (2%nat, ch)
  else if ch <? 0x10000 then (3%nat, ch)
  else if ch <? 0x110000 then (4%nat, ch)
  else (3%nat, replacementCharacter).

Fixpoint convertUTF16ToUTF8_loop (fuel : nat) (strict : bool) (source : list Z) (room : nat)
  : option (ConversionResult * list Z * list Z) :=
  match fuel with
  | O => None
  | S fuel =>
      match source with
      | [] => Some (conversionOK, [], [])
      | ch :: rest =>
          match nextFromUTF16 strict ch rest with
          | inr result => Some (result, source, [])
          | inl (ch, rest) =>
              let '(bytesToWrite, ch) := bytesFor ch in
              if (room <? bytesToWrite)%nat then Some (targetExhausted, source, [])
              else
                match convertUTF16ToUTF8_loop fuel strict rest (room - bytesToWrite) with
                | None => None
                | Some (result, source, target) => Some (result, source, writeBytes bytesToWrite ch ++ target)
                end
          end
      end
  end.

Definition convertUTF16ToUTF8 (strict : bool) (source : list Z) (room : nat)
  : option (ConversionResult * list Z * list Z) :=
  convertUTF16ToUTF8_loop (S (length source)) strict source room.

(** The code units of a decoded character, or how the conversion is left; the
    second component is what is or-ed into [orAllData]. *)
Definition unitsFor (strict : bool) (character : Z) (room : nat) : list Z * Z + ConversionResult :=
  if (room <? 1)%nat then inr targetExhausted
  else if U_IS_BMP character then
    if U_IS_SURROGATE character then
      if strict then inr sourceIllegal
      else inl ([replacementCharacter], replacementCharacter)
    else inl ([uwrap 16 character], character)
  else if U_IS_SUPPLEMENTARY character then
    if (room <? 2)%nat then inr targetExhausted
    else inl ([U16_LEAD character; U16_TRAIL character], 0xFFFF)
  else if strict then inr sourceIllegal
  else inl ([replacementCharacter], replacementCharacter).

(** The loop; [orAllData] is returned last. *)
Fixpoint convertUTF8ToUTF16_loop (fuel : nat) (strict : bool) (source : list Z) (room : nat) (orAllData : Z)
  : option (ConversionResult * list Z * list Z * Z) :=
  match fuel with
  | O => None
  | S fuel =>
      match source with
      | [] => Some (conversionOK, [], [], orAllData)
      | b0 :: _ =>
          let utf8SequenceLength := inlineUTF8SequenceLength b0 in
          if (length source <? utf8SequenceLength)%nat then Some (sourceExhausted, source, [], orAllData)
          else
            match isLegalUTF8 source utf8SequenceLength with
            | None => None
            | Some false => Some (sourceIllegal, source, [], orAllData)
            | Some true =>
                match readUTF8Sequence source utf8SequenceLength with
                | None => None
                | Some (character, rest) =>
                    match unitsFor strict character room with
                    | inr result => Some (result, source, [], orAllData)
                    | inl (units, bits) =>
                        match convertUTF8ToUTF16_loop fuel strict rest (room - length units)
                                (Z.lor orAllData bits) with
                        | None => None
                        | Some (result, source, target, orAllData) =>
                            Some (result, source, units ++ target, orAllData)
                        end
                    end
                end
            end
      end
  end.

(** The result, the rest of the source, the target and [sourceAllASCII]. *)
Definition convertUTF8ToUTF16 (strict : bool) (source : list Z) (room : nat)
  : option (ConversionResult * list Z * list Z * bool) :=
  match convertUTF8ToUTF16_loop (S (length source)) strict source room 0 with
  | None => None
  | Some (result, source, target, orAllData) =>
      Some (result, source, target, Z.land orAllData (Z.lnot 0x7F) =? 0)
  end.

(** ** Hash and comparison *)

(** Whether one of the bytes 1 to [n - 1] is the terminator. *)
Definition terminatesEarly (data : list Z) (n : nat) : bool :=
  existsb (fun i => terminatedAt data i =? 0) (seq 1 (n - 1)).

(** The character that follows at a byte from 128 on; [Some None] is [return 0]
    or [return false]. *)
Definition nextFromUTF8 (data : list Z) (n : nat) : option (option (Z * list Z)) :=
  match isLegalUTF8 data n with
  | None => None
  | Some false => Some None
  | Some true =>
      match readUTF8Sequence data n with
      | None => None
      | Some (character, rest) =>
          guard! negb (isASCII character) in
          if U_IS_BMP character then
            if U_IS_SURROGATE character then Some None else Some (Some (character, rest))
          else if U_IS_SUPPLEMENTARY character then Some (Some (character, rest))
          else Some None
      end
  end.

Definition addCodePoint (character : Z) (h : StringHasher.StringHasher) : option StringHasher.StringHasher :=
  if U_IS_BMP character then StringHasher.addCharacter (uwrap 16 character) h
  else StringHasher.addCharacters2 (U16_LEAD character) (U16_TRAIL character) h.

(** The loop: the hasher, or [None] for [return 0], with [dataLength] and
    [utf16Length].  [nullTerminated] is [!dataEnd]. *)
Fixpoint hashLoop (fuel : nat) (nullTerminated : bool) (data : list Z) (dataLength utf16Length : Z)
  (h : StringHasher.StringHasher) : option (option StringHasher.StringHasher * Z * Z) :=
  match fuel with
  | O => None
  | S fuel =>
      match data with
      | [] => Some (Some h, dataLength, utf16Length)
      | b :: rest =>
          if nullTerminated && (b =? 0) then Some (Some h, dataLength, utf16Length)
          else if isASCII b then
            match StringHasher.addCharacter b h with
            | None => None
            | Some h => hashLoop fuel nullTerminated rest (dataLength + 1) (utf16Length + 1) h
            end
          else
            let utf8SequenceLength := inlineUTF8SequenceLengthNonASCII b in
            let dataLength := dataLength + Z.of_nat utf8SequenceLength in
            if (if nullTerminated then terminatesEarly data utf8SequenceLength
                else (length data <? utf8SequenceLength)%nat)
            then Some (None, dataLength, utf16Length)
            else
              match nextFromUTF8 data utf8SequenceLength with
              | None => None
              | Some None => Some (None, dataLength, utf16Length)
              | Some (Some (character, rest)) =>
                  match addCodePoint character h with
                  | None => None
                  | Some h => hashLoop fuel nullTerminated rest dataLength
                                (utf16Length + if U_IS_BMP character then 1 else 2) h
                  end
              end
      end
  end.

(** The hash, [dataLength] and [utf16Length]. *)
Definition calculateStringHashAndLengthFromUTF8MaskingTop8Bits (nullTerminated : bool) (data : list Z)
  : option (Z * Z * Z) :=
  match hashLoop (S (length data)) nullTerminated data 0 0 StringHasher.newHasher with
  | None => None
  | Some (None, dataLength, utf16Length) => Some (0, dataLength, utf16Length)
  | Some (Some h, dataLength, utf16Length) =>
      Some (StringHasher.hashWithTop8BitsMasked h, dataLength, utf16Length)
  end.

(** The loop of [equalUTF16WithUTF8]; a code unit of [a] that is not there is an
    access outside the buffer. *)
Fixpoint equalLoop (fuel : nat) (a b : list Z) : option bool :=
  match fuel with
  | O => None
  | S fuel =>
      match b with
      | [] => Some true
      | b0 :: b' =>
          match a with
          | [] => None
          | a0 :: a' =>
              if isASCII a0 || isASCII b0 then
                if negb (a0 =? b0) then Some false else equalLoop fuel a' b'
              else
                let utf8SequenceLength := inlineUTF8SequenceLengthNonASCII b0 in
                if (length b <? utf8SequenceLength)%nat then Some false
                else
                  match nextFromUTF8 b utf8SequenceLength with
                  | None => None
                  | Some None => Some false
                  | Some (Some (character, rest)) =>
                      if U_IS_BMP character then
                        if negb (a0 =? character) then Some false else equalLoop fuel a' rest
                      else if negb (a0 =? U16_LEAD character) then Some false
                      else match a' with
                      | [] => None
                      | a1 :: a' =>
                          if negb (a1 =? U16_TRAIL character) then Some false else equalLoop fuel a' rest
                      end
                  end
          end
      end
  end.

Definition equalUTF16WithUTF8 (a b : list Z) : option bool := equalLoop (S (length b)) a b.

Example utf8_example :
  convertUTF16ToUTF8 true [0x41; 0xE9; 0xD83D; 0xDE00] 7
  = Some (conversionOK, [], [0x41; 0xC3; 0xA9; 0xF0; 0x9F; 0x98; 0x80]) /\
  convertUTF8ToUTF16 true [0x41; 0xC3; 0xA9; 0xF0; 0x9F; 0x98; 0x80] 3
  = Some (targetExhausted, [0xF0; 0x9F; 0x98; 0x80], [0x41; 0xE9], false) /\
  equalUTF16WithUTF8 [0x41; 0xE9; 0xD83D; 0xDE00] [0x41; 0xC3; 0xA9; 0xF0; 0x9F; 0x98; 0x80] = Some true.
Proof. split_and!; reflexivity. Qed.

End UTF8.
