(* ===== verification/UTF8Props.v ===== *)
(** * Properties of the UTF-8 conversions *)
From S2P Require Import Prelude Unicode StringHasher UTF8.
From stdpp Require Import base list numbers option.
From Stdlib Require Import ZArith Lia.
#[local] Open Scope Z_scope.
Import UTF8.

(** ** Lengths and legal sequences *)

Lemma isASCII_spec b : 0 <= b -> isASCII b = (b <? 128).
Proof.
  intros Hb. unfold isASCII. rewrite <- Z.ldiff_land. change 0x7F with (Z.ones 7).
  rewrite Z.ldiff_ones_r, Z.shiftl_mul_pow2, Z.shiftr_div_pow2 by lia. change (2 ^ 7) with 128.
  destruct (Z.eqb_spec (b / 128 * 128) 0), (Z.ltb_spec b 128); (done || (divisions; lia)).
Qed.

Lemma length_spec b : isByte b ->
  inlineUTF8SequenceLength b
  = if b <=? 0x7F then 1%nat else if b <=? 0xBF then 0%nat else if b <=? 0xDF then 2%nat
    else if b <=? 0xEF then 3%nat else if b <=? 0xF7 then 4%nat else 0%nat.
Proof.
  intros Hb. apply Nat.eqb_eq.
  assert (H : forallb (fun b => (inlineUTF8SequenceLength b =?
    if (b <=? 0x7F)%Z then 1 else if (b <=? 0xBF)%Z then 0 else if (b <=? 0xDF)%Z then 2
    else if (b <=? 0xEF)%Z then 3 else if (b <=? 0xF7)%Z then 4 else 0)%nat) (seqZ 0 256) = true)
    by (vm_compute; reflexivity).
  apply (forall_range _ _ _ H). unfold isByte in Hb. lia.
Qed.

Lemma lead_length v b l : isScalarValue v = true -> utf8 v `prefix_of` b :: l ->
  inlineUTF8SequenceLength b = length (utf8 v).
Proof.
  intros Hv Hp. pose proof (proj1 (isScalarValue_spec v) Hv) as Hr.
  assert (Hb : isByte b).
  { pose proof (utf8_bytes v Hv) as Hb. destruct Hp as [r E]. destruct (utf8 v) as [|x t] eqn:Ev; [by destruct (utf8_nonempty v)|].
    injection E as -> _. by inversion Hb. }
  rewrite length_spec by done. pose proof (utf8_prefix v _ Hv Hp) as Hc. clear Hp Hb. unfold utf8.
  destruct Hc as [[? [r E]]|[[? [r E]]|[[? [r E]]|[? [r E]]]]]; injection E as -> ->;
    repeat match goal with |- context [Z.leb ?a ?b] =>
      first [destruct (Z.leb_spec a b); [|divisions; lia]|destruct (Z.leb_spec a b); [divisions; lia|]] end;
    repeat match goal with |- context [Z.ltb ?a ?b] => destruct (Z.ltb_spec a b); try lia end; done.
Qed.

(** *** What is accepted

    Behind the bytes ED and F4 only the upper bound of the second byte is
    checked, so that some sequences are accepted that are no UTF-8. *)
Inductive stray : Z -> list Z -> Prop :=
| strayED a t : 0 <= a < 0x80 -> 0x80 <= t <= 0xBF ->
    stray (0xD000 + (a - 0x80) * 64 + (t - 0x80)) [0xED; a; t]
| strayF4 a t u : 0 <= a < 0x80 -> 0x80 <= t <= 0xBF -> 0x80 <= u <= 0xBF ->
    stray (0x100000 + (a - 0x80) * 4096 + (t - 0x80) * 64 + (u - 0x80)) [0xF4; a; t; u].

(** The sequences that are read as the scalar value [c]. *)
Definition encodes (c : Z) (s : list Z) : Prop := isScalarValue c = true /\ (s = utf8 c \/ stray c s).

(** The source of the scalar values [l]. *)
Inductive accepted : list Z -> list Z -> Prop :=
| accepted_nil : accepted [] []
| accepted_cons c s l source : encodes c s -> accepted l source -> accepted (c :: l) (s ++ source).

Lemma accepted_utf8s l : Forall (fun c => isScalarValue c = true) l -> accepted l (utf8s l).
Proof. induction 1; [constructor|]. rewrite utf8s_cons. constructor; [|done]. split; [done|by left]. Qed.

Lemma accepted_scalars l source : accepted l source -> Forall (fun c => isScalarValue c = true) l.
Proof. induction 1 as [|c s l source [Hc _] H IH]; by constructor. Qed.

(** No byte ED or F4 is followed by a byte below 0x80. *)
Definition strayFree (source : list Z) : Prop := forall i b a, source !! i = Some b -> b = 0xED \/ b = 0xF4 -> source !! S i = Some a -> 0x80 <= a.

(** Without such bytes, only UTF-8 is accepted. *)
Lemma accepted_wellFormed l pre : accepted l pre -> forall rest, strayFree (pre ++ rest) -> pre = utf8s l.
Proof.
  induction 1 as [|c s l source [Hc Hs] _ IH]; intros rest Hf; [done|]. rewrite utf8s_cons. destruct Hs as [->|Hs].
  - f_equal. apply (IH rest). intros i b a Hi Hb Ha. apply (Hf (length (utf8 c) + i)%nat b a); [|done|]; rewrite <- app_assoc, lookup_app_r by lia; [by replace (length (utf8 c) + i - length (utf8 c))%nat with i by lia|by replace (S (length (utf8 c) + i) - length (utf8 c))%nat with (S i) by lia].
  - exfalso. destruct Hs as [a t Ha Ht|a t u Ha Ht Hu]; [specialize (Hf 0%nat 0xED a eq_refl)|specialize (Hf 0%nat 0xF4 a eq_refl)]; specialize (Hf ltac:(auto) eq_refl); lia.
Qed.

Lemma encodes_nonempty c s : encodes c s -> s <> [].
Proof. intros [_ [->|H]]; [apply utf8_nonempty|by destruct H]. Qed.

(** The ways in which a source can begin. *)
Lemma encodes_prefix c s source : encodes c s -> s `prefix_of` source ->
  utf8 c `prefix_of` source \/
  (exists a t r, source = 0xED :: a :: t :: r /\ a < 0x80 /\ 0x80 <= t <= 0xBF) \/
  (exists a t u r, source = 0xF4 :: a :: t :: u :: r /\ a < 0x80 /\ 0x80 <= t <= 0xBF /\ 0x80 <= u <= 0xBF).
Proof.
  intros [Hc [->|H]] Hp; [by left|right]. destruct H, Hp as [r ->]; [left|right]; cbn; eauto 10 with lia.
Qed.

Lemma encodes_length c s b l : encodes c s -> s `prefix_of` b :: l -> inlineUTF8SequenceLength b = length s.
Proof.
  intros [Hc [->|H]] Hp; [by apply (lead_length c b l)|]. destruct H; destruct Hp as [r E]; injection E as -> _; done.
Qed.

(** What is found at the front of the source. *)
Definition legalAt (source : list Z) (n : nat) : Prop :=
  (isLegalUTF8 source n = Some false /\ forall c s, encodes c s -> ~ s `prefix_of` source) \/
  (exists c, isLegalUTF8 source n = Some true /\ readUTF8Sequence source n = Some (c, drop n source) /\
     encodes c (take n source)).

Ltac illegal :=
  left; split; [done|];
  let v := fresh "v" in let s := fresh "s" in let He := fresh "He" in let Hp := fresh "Hp" in
  intros v s He Hp; pose proof (proj1 He) as Hv; pose proof (proj1 (isScalarValue_spec v) Hv);
  destruct (encodes_prefix v s _ He Hp) as [Hq|[(? & ? & ? & E & ? & ?)|(? & ? & ? & ? & E & ? & ? & ?)]];
  [destruct (utf8_prefix v _ Hv Hq) as [[? [? E]]|[[? [? E]]|[[? [? E]]|[? [? E]]]]]|..];
  injection E; intros; divisions; lia.

Ltac read_value :=
  right; eexists; split; [done|]; unfold readUTF8Sequence; cbn [readBytes drop take firstn skipn Nat.sub];
  cbn [offsetsFromUTF8 lookup list_lookup default from_option id]; split; [reflexivity|];
  try rewrite !Z.shiftl_mul_pow2 by lia.

Ltac legal :=
  read_value; split; [apply isScalarValue_spec; lia|]; left; unfold utf8;
  repeat match goal with |- context [Z.ltb ?a ?b] =>
    first [destruct (Z.ltb_spec a b); [lia|]|destruct (Z.ltb_spec a b); [|lia]] end;
  repeat f_equal; divisions; lia.

Lemma legal_one b rest : 0 <= b <= 0x7F -> legalAt (b :: rest) 1.
Proof.
  intros Hb. unfold legalAt, isLegalUTF8. cbn [lookup list_lookup].
  destruct (Z.leb_spec 0x80 b); [lia|]. cbn [andb]. destruct (Z.ltb_spec 0xF4 b); [lia|]. legal.
Qed.

Lemma legal_two b s1 rest : 0xC0 <= b <= 0xDF -> isByte s1 -> legalAt (b :: s1 :: rest) 2.
Proof.
  intros Hb H1. unfold isByte in H1. unfold legalAt, isLegalUTF8. cbn [lookup list_lookup].
  destruct (Z.eqb_spec b 0xE0); [lia|]. destruct (Z.eqb_spec b 0xED); [lia|].
  destruct (Z.eqb_spec b 0xF0); [lia|]. destruct (Z.eqb_spec b 0xF4); [lia|].
  destruct (Z.ltb_spec 0xBF s1); [illegal|]. destruct (Z.ltb_spec s1 0x80); [illegal|].
  destruct (Z.leb_spec 0x80 b); [|lia]. destruct (Z.ltb_spec b 0xC2); cbn [andb]; [illegal|].
  destruct (Z.ltb_spec 0xF4 b); [lia|]. legal.
Qed.

Lemma legalByte_spec a : isLegalByte a 0x80 0xBF = true <-> 0x80 <= a <= 0xBF.
Proof. unfold isLegalByte. destruct (Z.ltb_spec a 0x80), (Z.ltb_spec 0xBF a); simpl; split; (done || lia). Qed.

Lemma legal_three b s1 s2 rest : 0xE0 <= b <= 0xEF -> isByte s1 -> isByte s2 -> legalAt (b :: s1 :: s2 :: rest) 3.
Proof.
  intros Hb H1 H2. unfold isByte in H1, H2. unfold legalAt, isLegalUTF8. cbn [lookup list_lookup].
  destruct (isLegalByte s2 0x80 0xBF) eqn:E2.
  2:{ assert (~ (0x80 <= s2 <= 0xBF)) by (rewrite <- legalByte_spec; congruence). illegal. }
  apply legalByte_spec in E2.
  destruct (Z.eqb_spec b 0xF0); [lia|]. destruct (Z.eqb_spec b 0xF4); [lia|].
  destruct (Z.leb_spec 0x80 b); [|lia]. destruct (Z.ltb_spec b 0xC2); [lia|]. destruct (Z.ltb_spec 0xF4 b); [lia|].
  cbn [andb]. destruct (Z.ltb_spec 0xBF s1); [illegal|].
  destruct (Z.eqb_spec b 0xE0); [destruct (Z.ltb_spec s1 0xA0); [illegal|legal]|].
  destruct (Z.eqb_spec b 0xED) as [->|]; [|destruct (Z.ltb_spec s1 0x80); [illegal|legal]].
  destruct (Z.ltb_spec 0x9F s1); [illegal|]. destruct (Z.ltb_spec s1 0x80) as [Hs1|]; [|legal].
  read_value. match goal with |- encodes ?v _ =>
    replace v with (0xD000 + (s1 - 0x80) * 64 + (s2 - 0x80)) by lia end.
  split; [apply isScalarValue_spec; lia|]. right. rewrite take_0. apply strayED; lia.
Qed.

Lemma legal_four b s1 s2 s3 rest : 0xF0 <= b <= 0xF7 -> isByte s1 -> isByte s2 -> isByte s3 ->
  legalAt (b :: s1 :: s2 :: s3 :: rest) 4.
Proof.
  intros Hb H1 H2 H3. unfold isByte in H1, H2, H3. unfold legalAt, isLegalUTF8. cbn [lookup list_lookup].
  destruct (isLegalByte s3 0x80 0xBF) eqn:E3.
  2:{ assert (~ (0x80 <= s3 <= 0xBF)) by (rewrite <- legalByte_spec; congruence). illegal. }
  destruct (isLegalByte s2 0x80 0xBF) eqn:E2.
  2:{ assert (~ (0x80 <= s2 <= 0xBF)) by (rewrite <- legalByte_spec; congruence). illegal. }
  apply legalByte_spec in E2, E3.
  destruct (Z.eqb_spec b 0xE0); [lia|]. destruct (Z.eqb_spec b 0xED); [lia|].
  destruct (Z.leb_spec 0x80 b); [|lia]. destruct (Z.ltb_spec b 0xC2); [lia|]. cbn [andb].
  destruct (Z.ltb_spec 0xBF s1); [illegal|].
  destruct (Z.eqb_spec b 0xF0).
  { destruct (Z.ltb_spec s1 0x90); [illegal|]. destruct (Z.ltb_spec 0xF4 b); [lia|]. legal. }
  destruct (Z.eqb_spec b 0xF4) as [->|].
  2:{ destruct (Z.ltb_spec s1 0x80); [illegal|]. destruct (Z.ltb_spec 0xF4 b); [illegal|legal]. }
  destruct (Z.ltb_spec 0x8F s1); [illegal|]. change (0xF4 <? 0xF4) with false. cbv iota.
  destruct (Z.ltb_spec s1 0x80) as [Hs1|]; [|legal].
  read_value. match goal with |- encodes ?v _ =>
    replace v with (0x100000 + (s1 - 0x80) * 4096 + (s2 - 0x80) * 64 + (s3 - 0x80)) by lia end.
  split; [apply isScalarValue_spec; lia|]. right. rewrite take_0. apply strayF4; lia.
Qed.

(** The front of any source that is long enough for its first byte. *)
Lemma legal_front b l : Forall isByte (b :: l) -> (inlineUTF8SequenceLength b <= length (b :: l))%nat ->
  legalAt (b :: l) (inlineUTF8SequenceLength b).
Proof.
  intros Hl Hlen. assert (Hb : isByte b) by (by inversion Hl). rewrite length_spec in Hlen |- * by done.
  assert (Hnone : (0x80 <= b <= 0xBF \/ 0xF8 <= b) -> legalAt (b :: l) 0).
  { intros Hb0. unfold legalAt, isByte in *. illegal. }
  unfold isByte in Hb.
  destruct (Z.leb_spec b 0x7F); [apply legal_one; lia|]. destruct (Z.leb_spec b 0xBF); [apply Hnone; lia|].
  destruct (Z.leb_spec b 0xDF).
  { destruct l as [|s1 l]; [simpl in Hlen; lia|]. decompose_Forall_hyps. apply legal_two; (done || lia). }
  destruct (Z.leb_spec b 0xEF).
  { destruct l as [|s1 [|s2 l]]; [simpl in Hlen; lia..|]. decompose_Forall_hyps. apply legal_three; (done || lia). }
  destruct (Z.leb_spec b 0xF7); [|apply Hnone; lia].
  destruct l as [|s1 [|s2 [|s3 l]]]; [simpl in Hlen; lia..|]. decompose_Forall_hyps. apply legal_four; (done || lia).
Qed.

(** ** Writing bytes *)

Lemma trailing_byte x : uwrap 8 (Z.land (Z.lor x 0x80) 0xBF) = 0x80 + x mod 64.
Proof.
  assert (E : Z.land (Z.lor x 0x80) 0xBF = Z.land (Z.lor (x mod 256) 0x80) 0xBF).
  { change 256 with (2 ^ 8). rewrite <- (land_low x 8 255) by (done || lia). rewrite !Z.land_lor_distr_l. f_equal.
    rewrite <- Z.land_assoc. done. }
  rewrite E. assert (Em : x mod 64 = x mod 256 mod 64) by (divisions; lia). rewrite Em.
  pose proof (Z.mod_pos_bound x 256 ltac:(lia)) as Hk. set (k := x mod 256) in *. clearbody k.
  assert (H : forallb (fun k => uwrap 8 (Z.land (Z.lor k 0x80) 0xBF) =? 0x80 + k mod 64) (seqZ 0 256) = true)
    by (vm_compute; reflexivity).
  apply Z.eqb_eq. apply (forall_range _ _ _ H). lia.
Qed.

Lemma writeBytes_ok c : 0 <= c <= 0x10FFFF ->
  snd (bytesFor c) = c /\ fst (bytesFor c) = length (utf8 c) /\ writeBytes (length (utf8 c)) c = utf8 c.
Proof.
  intros Hc. unfold bytesFor, utf8, writeBytes.
  assert (Hsh : forall n, 0 <= n -> Z.shiftr c n = c / 2 ^ n) by (intros; by rewrite Z.shiftr_div_pow2).
  destruct (Z.ltb_spec c 0x80); [|destruct (Z.ltb_spec c 0x800); [|destruct (Z.ltb_spec c 0x10000);
    [|destruct (Z.ltb_spec c 0x110000); [|lia]]]]; (split; [done|]; split; [done|]);
    cbn [length Nat.sub writeTrailing firstByteMark lookup list_lookup default from_option id];
    rewrite ?trailing_byte, ?Z.shiftr_shiftr, ?Hsh by lia.
  - rewrite Z.lor_0_r, uwrap_id by lia. done.
  - change (2 ^ 6) with 64. rewrite (lor_mark _ 0xC0 5), uwrap_id by (done || lia || (divisions; lia)). done.
  - change (2 ^ 6) with 64. change (2 ^ (6 + 6)) with 4096.
    rewrite (lor_mark _ 0xE0 4), uwrap_id by (done || lia || (divisions; lia)). done.
  - change (2 ^ 6) with 64. change (2 ^ (6 + 6)) with 4096. change (2 ^ (6 + 6 + 6)) with 262144.
    rewrite (lor_mark _ 0xF0 3), uwrap_id by (done || lia || (divisions; lia)). done.
Qed.

(** ** From UTF-16 *)

(** The text begins with the code point [c], and [rest] is behind it: a scalar value or, if
    the conversion is lenient, a surrogate without its partner. *)
Inductive begins (strict : bool) (c : Z) : list Z -> list Z -> Prop :=
| begins_scalar rest : isScalarValue c = true -> begins strict c (utf16 c ++ rest) rest
| begins_high u rest : strict = false -> 0xD800 <= c <= 0xDBFF -> ~ 0xDC00 <= u <= 0xDFFF -> begins strict c (c :: u :: rest) (u :: rest)
| begins_low rest : strict = false -> 0xDC00 <= c <= 0xDFFF -> begins strict c (c :: rest) rest.

(** The code points of a text, up to [rest]. *)
Inductive reads (strict : bool) : list Z -> list Z -> list Z -> Prop :=
| reads_nil rest : reads strict [] rest rest
| reads_cons c l source source' rest : begins strict c source source' -> reads strict l source' rest -> reads strict (c :: l) source rest.

Lemma begins_strict c source rest : begins true c source rest -> isScalarValue c = true /\ source = utf16 c ++ rest.
Proof. by destruct 1. Qed.

Lemma reads_strict l source rest : reads true l source rest -> Forall (fun c => isScalarValue c = true) l /\ source = utf16s l ++ rest.
Proof.
  induction 1 as [|c l source source' rest Hb _ [H1 ->]]; [done|]. apply begins_strict in Hb as [Hc ->]. split; [by constructor|]. by rewrite utf16s_cons, app_assoc.
Qed.

Lemma begins_shorter strict c source rest : begins strict c source rest -> 0 <= c <= 0x10FFFF /\ (length rest < length source)%nat.
Proof.
  destruct 1 as [rest Hc|u rest _ ? ?|rest _ ?]; cbn [length]; try lia. apply isScalarValue_spec in Hc. rewrite length_app. pose proof (utf16_short c). lia.
Qed.

(** How a conversion may end: what is left of the text begins like this. *)
Definition unpaired (source : list Z) : Prop := forall c, isScalarValue c = true -> ~ utf16 c `prefix_of` source.

Definition ended16 (strict : bool) (result : ConversionResult) (rest : list Z) (free : nat) : Prop :=
  match result with
  | conversionOK => rest = []
  | sourceExhausted => exists h, rest = [h] /\ 0xD800 <= h <= 0xDBFF
  | targetExhausted => exists c rest', begins strict c rest rest' /\ (free < length (utf8 c))%nat
  | sourceIllegal => strict = true /\ rest <> [] /\ unpaired rest
  end.

Lemma utf16_front v source : isScalarValue v = true -> utf16 v `prefix_of` source ->
  (v < 0x10000 /\ exists r, source = v :: r) \/
  (0x10000 <= v /\ exists r,
     source = 0xD800 + (v - 0x10000) / 0x400 :: 0xDC00 + (v - 0x10000) mod 0x400 :: r).
Proof. intros Hv [r ->]. unfold utf16. destruct (Z.ltb_spec v 0x10000); [left|right]; eauto. Qed.

Ltac no_unit :=
  let v := fresh "v" in let Hv := fresh "Hv" in let Hp := fresh "Hp" in
  intros v Hv Hp; pose proof (proj1 (isScalarValue_spec v) Hv);
  destruct (utf16_front v _ Hv Hp) as [[? [? E]]|[? [? E]]]; injection E; intros; divisions; lia.

Lemma begins_bmp strict ch rest : 0 <= ch < 0x10000 -> ~ 0xD800 <= ch <= 0xDFFF -> begins strict ch (ch :: rest) rest.
Proof.
  intros H1 H2. assert (Hc : isScalarValue ch = true) by (apply isScalarValue_spec; lia). pose proof (begins_scalar strict ch rest Hc) as Hb. unfold utf16 in Hb. by destruct (Z.ltb_spec ch 0x10000); [|lia].
Qed.

Lemma begins_pair strict ch ch2 rest : 0xD800 <= ch <= 0xDBFF -> 0xDC00 <= ch2 <= 0xDFFF -> begins strict (Z.shiftl (ch - 0xD800) 10 + (ch2 - 0xDC00) + 0x10000) (ch :: ch2 :: rest) rest.
Proof.
  intros H1 H2. rewrite Z.shiftl_mul_pow2 by lia. change (2 ^ 10) with 1024. set (c := _ + 0x10000). assert (Hc : isScalarValue c = true) by (apply isScalarValue_spec; lia). pose proof (begins_scalar strict c rest Hc) as Hb. unfold utf16 in Hb. destruct (Z.ltb_spec c 0x10000); [lia|]. cbn [app] in Hb.
  replace (0xD800 + (c - 0x10000) / 0x400) with ch in Hb by (divisions; lia). by replace (0xDC00 + (c - 0x10000) mod 0x400) with ch2 in Hb by (divisions; lia).
Qed.

Lemma nextFromUTF16_ok strict ch rest : isUnit ch -> Forall isUnit rest ->
  match nextFromUTF16 strict ch rest with
  | inl (c, rest') => begins strict c (ch :: rest) rest' /\ Forall isUnit rest'
  | inr result => forall free, ended16 strict result (ch :: rest) free
  end.
Proof.
  unfold isUnit. intros Hc Hr. unfold nextFromUTF16.
  destruct (Z.leb_spec 0xD800 ch), (Z.leb_spec ch 0xDBFF); cbn [andb]; try lia.
  - destruct rest as [|ch2 rest]; [by intros; exists ch|]. inversion Hr as [|? ? H2 Hr']; subst.
    destruct (Z.leb_spec 0xDC00 ch2), (Z.leb_spec ch2 0xDFFF); cbn [andb]; try lia; [split; [by apply begins_pair|done]|..];
      (destruct strict; [intros ?; split_and!; [done|done|no_unit]|split; [apply begins_high; [done|lia|lia]|done]]).
  - destruct (Z.leb_spec 0xDC00 ch), (Z.leb_spec ch 0xDFFF); cbn [andb]; try lia; rewrite ?andb_true_r, ?andb_false_r;
      [|split; [apply begins_bmp; lia|done]]. destruct strict; [intros ?; split_and!; [done|done|no_unit]|split; [apply begins_low; [done|lia]|done]].
  - destruct (Z.leb_spec 0xDC00 ch); [lia|]. rewrite andb_false_r. split; [apply begins_bmp; lia|done].
Qed.

Lemma convertUTF16ToUTF8_ok strict fuel : forall source room, (length source < fuel)%nat -> Forall isUnit source ->
  exists result l rest, convertUTF16ToUTF8_loop fuel strict source room = Some (result, rest, utf8s l) /\
    reads strict l source rest /\ (length (utf8s l) <= room)%nat /\ ended16 strict result rest (room - length (utf8s l)).
Proof.
  induction fuel as [|fuel IH]; intros source room Hf Hs; [lia|]. cbn [convertUTF16ToUTF8_loop].
  destruct source as [|ch rest].
  { exists conversionOK, [], []. split_and!; try done; [constructor|simpl; lia]. }
  inversion Hs as [|? ? Hch Hr]; subst. pose proof (nextFromUTF16_ok strict ch rest Hch Hr) as Hn.
  destruct (nextFromUTF16 strict ch rest) as [[c rest']|result].
  2:{ exists result, [], (ch :: rest). split_and!; try done; [constructor|simpl; lia]. }
  destruct Hn as (Hb & Hr'). destruct (begins_shorter _ _ _ _ Hb) as [Hcr Hshort].
  destruct (writeBytes_ok c Hcr) as (B1 & B2 & B3). destruct (bytesFor c) as [n c'].
  cbn [fst snd] in B1, B2. subst c' n.
  destruct (Nat.ltb_spec room (length (utf8 c))) as [Hroom|Hroom].
  { exists targetExhausted, [], (ch :: rest). split_and!; try done; [constructor|simpl; lia|].
    exists c, rest'. split_and!; [done|simpl; lia]. }
  destruct (IH rest' (room - length (utf8 c))%nat) as (result & l & rest'' & -> & Hl & Hlen & He); [simpl in *; lia|done|].
  exists result, (c :: l), rest''. rewrite B3, utf8s_cons, length_app.
  split; [done|]. split; [by apply (reads_cons strict c l _ rest')|]. split; [lia|].
  by replace (room - (length (utf8 c) + length (utf8s l)))%nat with (room - length (utf8 c) - length (utf8s l))%nat by lia.
Qed.

(** ** From UTF-8 *)

Definition unencoded (source : list Z) : Prop := forall c s, encodes c s -> ~ s `prefix_of` source.

Definition ended8 (result : ConversionResult) (rest : list Z) (free : nat) : Prop :=
  match result with
  | conversionOK => rest = []
  | sourceExhausted => exists b r, rest = b :: r /\ (length rest < inlineUTF8SequenceLength b)%nat /\ unencoded rest
  | targetExhausted => exists c s rest', encodes c s /\ rest = s ++ rest' /\ (free < length (utf16 c))%nat
  | sourceIllegal => rest <> [] /\ unencoded rest
  end.

(** A sequence that is cut off is no character. *)
Lemma cut_off b l : (length (b :: l) < inlineUTF8SequenceLength b)%nat -> unencoded (b :: l).
Proof.
  intros Hlen c s He Hp. rewrite (encodes_length c s b l He Hp) in Hlen. apply prefix_length in Hp. lia.
Qed.

Lemma unitsFor_ok strict c room : isScalarValue c = true ->
  (exists bits, unitsFor strict c room = inl (utf16 c, bits) /\ (length (utf16 c) <= room)%nat /\
     0 <= bits < 2 ^ 16 /\ (Z.land bits (Z.lnot 0x7F) = 0 <-> c < 128)) \/
  (unitsFor strict c room = inr targetExhausted /\ (room < length (utf16 c))%nat).
Proof.
  rewrite isScalarValue_spec. intros [Hc Hs]. unfold unitsFor.
  rewrite U_IS_BMP_spec, U_IS_SURROGATE_spec, U_IS_SUPPLEMENTARY_spec by lia.
  assert (Hl : length (utf16 c) = if c <? 0x10000 then 1%nat else 2%nat) by (unfold utf16; by destruct (c <? 0x10000)).
  rewrite Hl.
  destruct (Nat.ltb_spec room 1); [right; split; [done|]; destruct (Z.ltb_spec c 0x10000); lia|].
  destruct (Z.ltb_spec c 0x10000) as [Hbmp|Hbig].
  - destruct (Z.leb_spec 0xD800 c), (Z.leb_spec c 0xDFFF); cbn [andb]; try lia;
      left; exists c; (split; [unfold utf16; destruct (Z.ltb_spec c 0x10000); [by rewrite uwrap_id by lia|lia]|]);
      (split; [simpl; lia|]); (split; [lia|]);
      rewrite <- Z.ldiff_land; change 0x7F with (Z.ones 7); rewrite Z.ldiff_ones_r, Z.shiftl_mul_pow2, Z.shiftr_div_pow2 by lia;
      change (2 ^ 7) with 128; divisions; lia.
  - destruct (Z.leb_spec 0x10000 c), (Z.leb_spec c 0x10FFFF); cbn [andb]; try lia.
    destruct (Nat.ltb_spec room 2); [right; split; [done|lia]|]. left. exists 0xFFFF. rewrite lead_trail by lia.
    split; [done|]. split; [simpl; lia|]. split; [lia|]. split; [intros Hz; vm_compute in Hz; discriminate|lia].
Qed.

Lemma orAll_zero a b : Z.land (Z.lor a b) (Z.lnot 0x7F) = 0 <-> Z.land a (Z.lnot 0x7F) = 0 /\ Z.land b (Z.lnot 0x7F) = 0.
Proof. rewrite Z.land_lor_distr_l. apply Z.lor_eq_0_iff. Qed.

Lemma convertUTF8ToUTF16_ok strict fuel : forall source room bits,
  (length source < fuel)%nat -> Forall isByte source ->
  exists result l pre rest bits',
    convertUTF8ToUTF16_loop fuel strict source room bits = Some (result, rest, utf16s l, bits') /\
    accepted l pre /\ source = pre ++ rest /\ (length (utf16s l) <= room)%nat /\
    ended8 result rest (room - length (utf16s l)) /\
    (Z.land bits' (Z.lnot 0x7F) = 0 <-> Z.land bits (Z.lnot 0x7F) = 0 /\ Forall (fun c => c < 128) l).
Proof.
  induction fuel as [|fuel IH]; intros source room bits Hf Hs; [lia|]. cbn [convertUTF8ToUTF16_loop].
  assert (Hstop : forall result, (forall free, (free <= room)%nat -> ended8 result source free) ->
    exists result' l pre rest bits', Some (result, source, [], bits) = Some (result', rest, utf16s l, bits') /\
    accepted l pre /\ source = pre ++ rest /\ (length (utf16s l) <= room)%nat /\
    ended8 result' rest (room - length (utf16s l)) /\
    (Z.land bits' (Z.lnot 0x7F) = 0 <-> Z.land bits (Z.lnot 0x7F) = 0 /\ Forall (fun c => c < 128) l)).
  { intros result He. exists result, [], [], source, bits. split; [done|]. split; [constructor|].
    split; [done|]. split; [simpl; lia|]. split; [apply He; simpl; lia|]. split; [done|]. by intros [? _]. }
  destruct source as [|b l]; [by apply Hstop|].
  destruct (Nat.ltb_spec (length (b :: l)) (inlineUTF8SequenceLength b)) as [Hshort|Hlong].
  { apply Hstop. intros free _. exists b, l. split_and!; [done|done|by apply cut_off]. }
  destruct (legal_front b l Hs Hlong) as [[-> Hno]|(c & -> & -> & He)]; [by apply Hstop|].
  pose proof He as [Hc _].
  destruct (unitsFor_ok strict c room Hc) as [(cb & -> & Hroom & Hcb & Hascii)|[-> Hroom]].
  2:{ apply Hstop. intros free Hfree. exists c, (take (inlineUTF8SequenceLength b) (b :: l)), (drop (inlineUTF8SequenceLength b) (b :: l)).
      rewrite take_drop. split_and!; [done|done|lia]. }
  pose proof (utf16_short c) as Hu.
  assert (Hn : (0 < inlineUTF8SequenceLength b)%nat).
  { rewrite (encodes_length c _ b l He) by (apply prefix_take). destruct He as [_ [->|H]]; [lia|destruct H; simpl; lia]. }
  destruct (IH (drop (inlineUTF8SequenceLength b) (b :: l)) (room - length (utf16 c))%nat (Z.lor bits cb))
    as (result & l' & pre & rest & bits' & -> & Ha & E & Hlen & Hend & Hbits); [rewrite length_drop; lia|by apply Forall_drop|].
  exists result, (c :: l'), (take (inlineUTF8SequenceLength b) (b :: l) ++ pre), rest, bits'.
  rewrite utf16s_cons, <- app_assoc, <- E, take_drop, length_app. split; [done|].
  split; [by constructor|]. split; [done|]. split; [lia|]. split.
  - by replace (room - (length (utf16 c) + length (utf16s l')))%nat with (room - length (utf16 c) - length (utf16s l'))%nat by lia.
  - rewrite Hbits, orAll_zero, Hascii, Forall_cons_iff. tauto.
Qed.

(** ** Hash and comparison *)

Lemma encodes_unique c c' : isScalarValue c = true -> encodes c' (utf8 c) -> c' = c.
Proof.
  intros Hc [Hc' [E|H]].
  - apply (utf8_inj c' c [] []); [done|done|]. by rewrite E.
  - pose proof (proj1 (isScalarValue_spec c) Hc) as Hr. remember (utf8 c) as s eqn:Es.
    assert (Hp : utf8 c `prefix_of` s) by (by rewrite Es). clear Es. pose proof (utf8_prefix c s Hc Hp) as Hq.
    destruct H; destruct Hq as [[? [? E]]|[[? [? E]]|[[? [? E]]|[? [? E]]]]]; injection E; intros; divisions; lia.
Qed.

(** The first byte of a character tells whether it is ASCII. *)
Lemma utf8_first c rest : isScalarValue c = true ->
  exists b l, utf8 c ++ rest = b :: l /\ isByte b /\ inlineUTF8SequenceLength b = length (utf8 c) /\
    (if c <? 128 then b = c /\ l = rest /\ isASCII b = true else isASCII b = false).
Proof.
  intros Hc. pose proof (utf8_bytes c Hc) as Hb. pose proof (proj1 (isScalarValue_spec c) Hc) as Hr.
  assert (Hp : utf8 c `prefix_of` utf8 c ++ rest) by (by exists rest).
  destruct (utf8 c) as [|b l] eqn:Eu; [by destruct (utf8_nonempty c)|]. exists b, (l ++ rest).
  cbn [app] in *. inversion Hb; subst. split; [done|]. split; [done|]. split.
  - rewrite <- Eu. apply (lead_length c b (l ++ rest)); [done|]. by rewrite Eu.
  - rewrite isASCII_spec by (unfold isByte in *; lia). unfold utf8 in Eu.
    destruct (Z.ltb_spec c 0x80); [injection Eu as <- <-; repeat split; by apply Z.ltb_lt|]. apply Z.ltb_ge.
    destruct (Z.ltb_spec c 0x800); [|destruct (Z.ltb_spec c 0x10000)]; injection Eu; intros; subst; divisions; lia.
Qed.

Lemma nextFromUTF8_ok c rest : isScalarValue c = true -> 128 <= c -> Forall isByte rest ->
  nextFromUTF8 (utf8 c ++ rest) (length (utf8 c)) = Some (Some (c, rest)).
Proof.
  intros Hc H128 Hrest. destruct (utf8_first c rest Hc) as (b & l & E & _ & Hlen & _).
  assert (Hall : Forall isByte (b :: l)) by (rewrite <- E; apply Forall_app; split; [by apply utf8_bytes|done]).
  destruct (legal_front b l Hall) as [[_ Hno]|(c' & H1 & H2 & He)].
  - rewrite <- E, Hlen, length_app. lia.
  - destruct (Hno c (utf8 c)); [split; [done|by left]|]. rewrite <- E. by exists rest.
  - rewrite Hlen, <- E in H1, H2, He. rewrite take_app_length in He. rewrite drop_app_length in H2.
    apply encodes_unique in He; [|done]. subst c'. unfold nextFromUTF8. rewrite H1, H2.
    pose proof (proj1 (isScalarValue_spec c) Hc) as Hr.
    rewrite isASCII_spec by lia. destruct (Z.ltb_spec c 128); [lia|]. cbn [negb]. rewrite U_IS_BMP_spec, U_IS_SURROGATE_spec, U_IS_SUPPLEMENTARY_spec by lia.
    destruct (Z.ltb_spec c 0x10000), (Z.leb_spec 0xD800 c), (Z.leb_spec c 0xDFFF),
      (Z.leb_spec 0x10000 c), (Z.leb_spec c 0x10FFFF); cbn [andb]; done || lia.
Qed.

Lemma terminatesEarly_ok c rest : isScalarValue c = true -> 128 <= c ->
  terminatesEarly (utf8 c ++ rest) (length (utf8 c)) = false.
Proof.
  intros Hc H128. pose proof (proj1 (isScalarValue_spec c) Hc). unfold terminatesEarly, terminatedAt, utf8.
  destruct (Z.ltb_spec c 0x80); [lia|].
  destruct (Z.ltb_spec c 0x800); [|destruct (Z.ltb_spec c 0x10000)];
    cbn [app length Nat.sub seq existsb lookup list_lookup default from_option id];
    repeat (apply orb_false_intro; [apply Z.eqb_neq; divisions; lia|]); done.
Qed.

Lemma addCodePoint_ok c data h : isScalarValue c = true -> StringHasher.hasherOf data h ->
  exists h', addCodePoint c h = Some h' /\ StringHasher.hasherOf (data ++ utf16 c) h' /\
    (if U_IS_BMP c then 1 else 2) = Z.of_nat (length (utf16 c)).
Proof.
  intros Hc H. pose proof (proj1 (isScalarValue_spec c) Hc). unfold addCodePoint. rewrite U_IS_BMP_spec by lia.
  destruct (Z.ltb_spec c 0x10000).
  - unfold utf16. destruct (Z.ltb_spec c 0x10000); [|lia]. rewrite uwrap_id by lia.
    destruct (StringHasher.addCharacter_ok data h c H) as (h' & ? & ?). eauto.
  - rewrite <- lead_trail by lia. destruct (StringHasher.addCharacters2_ok data h (U16_LEAD c) (U16_TRAIL c) H)
      as (h' & ? & ?). eauto.
Qed.

(** The text ends where it is said to end. *)
Definition endsWith (nullTerminated : bool) (rest : list Z) : Prop :=
  match rest with [] => True | b :: _ => nullTerminated = true /\ b = 0 end.

Lemma hashLoop_ok nullTerminated l : forall fuel rest data h n m,
  Forall (fun c => isScalarValue c = true) l -> (nullTerminated = true -> Forall (fun c => c <> 0) l) ->
  Forall isByte rest -> endsWith nullTerminated rest ->
  (length (utf8s l) < fuel)%nat -> StringHasher.hasherOf data h ->
  exists h', hashLoop fuel nullTerminated (utf8s l ++ rest) n m h
    = Some (Some h', n + Z.of_nat (length (utf8s l)), m + Z.of_nat (length (utf16s l))) /\
    StringHasher.hasherOf (data ++ utf16s l) h'.
Proof.
  induction l as [|c l IH]; intros fuel rest data h n m Hl Hz Hrest Hend Hf Hh.
  { destruct fuel as [|fuel]; [simpl in Hf; lia|]. exists h. cbn [utf8s utf16s flat_map app length].
    rewrite !Z.add_0_r, app_nil_r. split; [|done]. destruct rest as [|b rest]; [done|].
    destruct Hend as [-> ->]. done. }
  inversion Hl as [|? ? Hc Hl']; subst. rewrite utf8s_cons, utf16s_cons, <- app_assoc.
  assert (Hall : Forall isByte (utf8s l ++ rest)) by (apply Forall_app; split; [by apply utf8s_bytes|done]).
  destruct (utf8_first c (utf8s l ++ rest) Hc) as (b & t & E & Hb & Hlen & Hascii).
  rewrite utf8s_cons, length_app in Hf. pose proof (utf16_short c) as Hu.
  destruct fuel as [|fuel]; [lia|]. rewrite E. cbn [hashLoop]. rewrite !length_app.
  assert (Hnz : nullTerminated && (b =? 0) = false).
  { destruct nullTerminated; [|done]. apply Z.eqb_neq. intros ->. destruct (Z.ltb_spec c 128); [|done].
    destruct Hascii as (<- & _). specialize (Hz eq_refl). by inversion Hz. }
  rewrite Hnz.
  destruct (Z.ltb_spec c 128) as [Hsmall|Hbig].
  - destruct Hascii as (-> & -> & ->). assert (E1 : utf8 c = [c] /\ utf16 c = [c]).
    { unfold utf8, utf16. destruct (Z.ltb_spec c 0x80), (Z.ltb_spec c 0x10000); try lia. done. }
    destruct E1 as [-> ->]. destruct (StringHasher.addCharacter_ok data h c Hh) as (h1 & -> & H1).
    destruct (IH fuel rest (data ++ [c]) h1 (n + 1) (m + 1)) as (h2 & -> & H2); try done.
    { intros Hn. specialize (Hz Hn). by inversion Hz. } { simpl in *. lia. }
    exists h2. rewrite <- app_assoc in H2. split; [|done]. cbn [length]. f_equal; f_equal; [f_equal|]; lia.
  - rewrite Hascii. unfold inlineUTF8SequenceLength in Hlen. rewrite Hascii in Hlen. rewrite Hlen, <- E.
    assert (Hcut : (if nullTerminated then terminatesEarly (utf8 c ++ utf8s l ++ rest) (length (utf8 c))
              else (length (utf8 c ++ utf8s l ++ rest) <? length (utf8 c))%nat) = false).
    { destruct nullTerminated; [by apply terminatesEarly_ok|]. apply Nat.ltb_ge. rewrite length_app. lia. }
    rewrite Hcut, nextFromUTF8_ok by done.
    destruct (addCodePoint_ok c data h Hc Hh) as (h1 & -> & H1 & ->).
    destruct (IH fuel rest (data ++ utf16 c) h1 (n + Z.of_nat (length (utf8 c))) (m + Z.of_nat (length (utf16 c)))) as (h2 & -> & H2);
      try done.
    { intros Hn. specialize (Hz Hn). by inversion Hz. } { lia. }
    exists h2. rewrite <- app_assoc in H2. split; [|done]. f_equal; f_equal; [f_equal|]; lia.
Qed.

(** The comparison: the text against the front of [a]. *)
Lemma equalLoop_ok l : forall fuel a, Forall (fun c => isScalarValue c = true) l ->
  (length (utf8s l) < fuel)%nat -> (length (utf16s l) <= length a)%nat -> Forall isUnit a ->
  equalLoop fuel a (utf8s l) = Some (bool_decide (utf16s l `prefix_of` a)).
Proof.
  induction l as [|c l IH]; intros fuel a Hl Hf Ha Hu; destruct fuel as [|fuel]; try (simpl in Hf; lia).
  { cbn [equalLoop utf8s flat_map]. rewrite bool_decide_eq_true_2; [done|]. by exists a. }
  inversion Hl as [|? ? Hc Hl']; subst. rewrite utf8s_cons, utf16s_cons in *. rewrite !length_app in *.
  pose proof (utf16_short c) as Hs. pose proof (proj1 (isScalarValue_spec c) Hc) as Hr.
  destruct (utf8_first c (utf8s l) Hc) as (b & t & E & Hb & Hlen & Hascii).
  destruct a as [|a0 a]; [simpl in Ha; lia|]. inversion Hu as [|? ? Ha0 Hua]; subst.
  assert (Hdiff : forall u s, a0 <> u -> bool_decide (u :: s `prefix_of` a0 :: a) = false).
  { intros u s Hne. apply bool_decide_eq_false. intros [r Er]. by injection Er. }
  assert (Hsame : forall (x : Z) s r, bool_decide (x :: s `prefix_of` x :: r) = bool_decide (s `prefix_of` r)).
  { intros x s r. apply bool_decide_ext. split; [apply prefix_cons_inv_2|apply prefix_cons]. }
  rewrite E. cbn [equalLoop]. rewrite <- E.
  destruct (Z.ltb_spec c 128) as [Hsmall|Hbig].
  - destruct Hascii as (-> & -> & ->). rewrite orb_true_r. assert (E1 : utf16 c = [c]).
    { unfold utf16. destruct (Z.ltb_spec c 0x10000); [done|lia]. }
    rewrite E1 in *. cbn [app]. destruct (Z.eqb_spec a0 c) as [->|Hne]; cbn [negb]; [|by rewrite Hdiff].
    rewrite Hsame. apply IH; [done| |simpl in Ha; lia|done]. lia.
  - rewrite Hascii, orb_false_r. unfold inlineUTF8SequenceLength in Hlen. rewrite Hascii in Hlen. rewrite Hlen.
    destruct (Nat.ltb_spec (length (utf8 c ++ utf8s l)) (length (utf8 c))) as [Hbad|_]; [rewrite length_app in Hbad; lia|].
    rewrite nextFromUTF8_ok by (done || by apply utf8s_bytes). rewrite U_IS_BMP_spec by lia.
    rewrite (isASCII_spec a0) by (unfold isUnit in *; lia). unfold utf16 in *.
    destruct (Z.ltb_spec c 0x10000); cbn [app length] in *.
    + destruct (Z.ltb_spec a0 128) as [Hlow|_].
      * destruct (Z.eqb_spec a0 b) as [->|Hne]; cbn [negb]; [|by rewrite Hdiff by lia].
        rewrite isASCII_spec in Hascii by (unfold isByte in *; lia). apply Z.ltb_ge in Hascii. lia.
      * destruct (Z.eqb_spec a0 c) as [->|Hne]; cbn [negb]; [|by rewrite Hdiff].
        rewrite Hsame. apply IH; [done|lia|lia|done].
    + destruct a as [|a1 a]; [simpl in Ha; lia|]. inversion Hua; subst.
      pose proof (lead_trail c ltac:(lia)) as Hlt. unfold utf16 in Hlt. destruct (Z.ltb_spec c 0x10000); [lia|].
      injection Hlt as -> ->. destruct (Z.ltb_spec a0 128) as [Hlow|_].
      * destruct (Z.eqb_spec a0 b) as [->|Hne]; cbn [negb]; [|rewrite Hdiff by (divisions; lia); done].
        rewrite isASCII_spec in Hascii by (unfold isByte in *; lia). apply Z.ltb_ge in Hascii. lia.
      * destruct (Z.eqb_spec a0 (0xD800 + (c - 0x10000) / 0x400)) as [->|Hne]; cbn [negb]; [|by rewrite Hdiff].
        rewrite Hsame. destruct (Z.eqb_spec a1 (0xDC00 + (c - 0x10000) mod 0x400)) as [->|Hne]; cbn [negb].
        -- rewrite Hsame. apply IH; [done|lia|simpl in Ha; lia|done].
        -- f_equal. symmetry. apply bool_decide_eq_false. intros [r Er]. by injection Er.
Qed.

(** *** Whole texts *)

Lemma utf16_inj c c' r r' : isScalarValue c = true -> isScalarValue c' = true ->
  utf16 c ++ r = utf16 c' ++ r' -> c = c' /\ r = r'.
Proof.
  intros Hc Hc' E. assert (c = c'); [|by subst; simplify_eq].
  pose proof (proj1 (isScalarValue_spec c) Hc). pose proof (proj1 (isScalarValue_spec c') Hc').
  assert (Hp : utf16 c' `prefix_of` utf16 c ++ r) by (by exists r').
  destruct (utf16_front c' _ Hc' Hp) as [[? [? E1]]|[? [? E1]]]; unfold utf16 in E1;
    destruct (Z.ltb_spec c 0x10000); injection E1; intros; divisions; lia.
Qed.

(** A text of scalar values can only be left at its end, if there is room. *)
Lemma ended16_whole l : forall l' result rest free,
  Forall (fun c => isScalarValue c = true) l -> Forall (fun c => isScalarValue c = true) l' ->
  utf16s l = utf16s l' ++ rest -> ended16 true result rest free ->
  (length (utf8s l) <= length (utf8s l') + free)%nat -> l' = l /\ rest = [] /\ result = conversionOK.
Proof.
  induction l as [|c l IH]; intros l' result rest free Hl Hl' E He Hroom.
  - destruct l' as [|c' l'].
    + cbn in E. subst rest. destruct result; cbn in He; [done|..].
      * by destruct He as (? & ? & _).
      * destruct He as (c & rest' & Hb & _). apply begins_shorter in Hb as [_ Hb]. simpl in Hb. lia.
      * by destruct He as (_ & ? & _).
    + apply (f_equal length) in E. rewrite utf16s_cons, !length_app in E. pose proof (utf16_short c'). simpl in E. lia.
  - inversion Hl as [|? ? Hc Hl0]; subst. rewrite utf16s_cons in E. destruct l' as [|c' l'].
    + cbn in E. subst rest. destruct result; cbn in He.
      * apply (f_equal length) in He. rewrite length_app in He. pose proof (utf16_short c). simpl in He. lia.
      * destruct He as (h & E & Hh). apply isScalarValue_spec in Hc. unfold utf16 in E.
        destruct (Z.ltb_spec c 0x10000); injection E; intros; subst; [lia|done].
      * destruct He as (c' & rest' & Hb & Hfree). apply begins_strict in Hb as [Hc' E]. apply utf16_inj in E as [-> _]; [|done|done].
        rewrite utf8s_cons, length_app in Hroom. simpl in Hroom. lia.
      * destruct He as (_ & _ & Hno). destruct (Hno c Hc). by exists (utf16s l).
    + inversion Hl' as [|? ? Hc' Hl0']; subst. rewrite utf16s_cons, <- app_assoc in E.
      apply utf16_inj in E as [-> E]; [|done|done]. rewrite !utf8s_cons, !length_app in Hroom.
      destruct (IH l' result rest free) as (-> & -> & ->); try done. lia.
Qed.

Lemma convert16_whole l room : Forall (fun c => isScalarValue c = true) l ->
  (length (utf8s l) <= room)%nat ->
  convertUTF16ToUTF8 true (utf16s l) room = Some (conversionOK, [], utf8s l).
Proof.
  intros Hl Hroom. unfold convertUTF16ToUTF8.
  destruct (convertUTF16ToUTF8_ok true (S (length (utf16s l))) (utf16s l) room ltac:(lia) (utf16s_units l Hl))
    as (result & l' & rest & -> & Hrd & Hlen & He). apply reads_strict in Hrd as [Hl' E].
  destruct (ended16_whole l l' result rest _ Hl Hl' E He) as (-> & -> & ->); [lia|done].
Qed.

Lemma encodes_inj c c' s r r' : isScalarValue c = true -> encodes c' s ->
  utf8 c ++ r = s ++ r' -> c' = c /\ s = utf8 c /\ r = r'.
Proof.
  intros Hc He E. destruct (utf8_first c r Hc) as (b & t & Eb & _ & Hlen & _).
  assert (Hs : inlineUTF8SequenceLength b = length s).
  { apply (encodes_length c' s b t He). rewrite <- Eb, E. by exists r'. }
  apply app_inj_1 in E as [<- <-]; [|lia]. split; [|done]. by apply encodes_unique.
Qed.

Lemma ended8_whole l : forall l' pre result rest free,
  Forall (fun c => isScalarValue c = true) l -> accepted l' pre ->
  utf8s l = pre ++ rest -> ended8 result rest free ->
  (length (utf16s l) <= length (utf16s l') + free)%nat -> l' = l /\ rest = [] /\ result = conversionOK.
Proof.
  induction l as [|c l IH]; intros l' pre result rest free Hl Ha E He Hroom.
  - symmetry in E. apply app_eq_nil in E as [-> ->]. inversion Ha as [|c s l0 source Hs Ha0 E0 E]; subst.
    + destruct result; cbn in He; [done|..].
      * by destruct He as (? & ? & ? & _).
      * destruct He as (c & s & rest' & Hs & E & _). symmetry in E. apply app_eq_nil in E as [-> _].
        by destruct (encodes_nonempty c [] Hs).
      * by destruct He.
    + apply app_eq_nil in E as [-> _]. by destruct (encodes_nonempty c [] Hs).
  - inversion Hl as [|? ? Hc Hl0]; subst. rewrite utf8s_cons in E.
    inversion Ha as [|c' s l0 source Hs Ha' Ec Es]; subst.
    + cbn in E. subst rest. destruct result; cbn in He.
      * apply app_eq_nil in He as [He _]. by destruct (utf8_nonempty c).
      * destruct He as (b & r & E & _ & Hno). destruct (Hno c (utf8 c)); [split; [done|by left]|]. by exists (utf8s l).
      * destruct He as (c' & s & rest' & Hs & E & Hfree). apply (encodes_inj c c' s) in E as (-> & _); [|done|done].
        rewrite utf16s_cons, length_app in Hroom. simpl in Hroom. lia.
      * destruct He as [_ Hno]. destruct (Hno c (utf8 c)); [split; [done|by left]|]. by exists (utf8s l).
    + rewrite <- app_assoc in E. apply (encodes_inj c c' s) in E as (-> & -> & E); [|done|done].
      rewrite !utf16s_cons, !length_app in Hroom.
      destruct (IH l0 source result rest free) as (-> & -> & ->); try done. lia.
Qed.

Lemma convert8_whole l room : Forall (fun c => isScalarValue c = true) l ->
  (length (utf16s l) <= room)%nat ->
  exists ascii, convertUTF8ToUTF16 true (utf8s l) room = Some (conversionOK, [], utf16s l, ascii).
Proof.
  intros Hl Hroom. unfold convertUTF8ToUTF16.
  destruct (convertUTF8ToUTF16_ok true (S (length (utf8s l))) (utf8s l) room 0 ltac:(lia) (utf8s_bytes l Hl))
    as (result & l' & pre & rest & bits & -> & Ha & E & Hlen & He & _).
  destruct (ended8_whole l l' pre result rest _ Hl Ha E He) as (-> & -> & ->); [lia|eauto].
Qed.

(** ** Properties *)

(** C34: a conversion of UTF-16 text into a buffer of any size, strict or lenient,
    returns, writes within the buffer, and has written exactly the UTF-8 encoding of the
    code points before the place where it stopped: scalar values and, in the lenient mode
    only, surrogates without their partner, in three bytes each.  It stops at the end of
    the text, at a high surrogate that is the last code unit (in both modes), at a
    character that the rest of the buffer is too small for, or, in the strict mode, at a
    surrogate without its partner, and the result says which. *)
Theorem utf16_to_utf8_correct strict source room :
  Forall isUnit source ->
  exists result l rest, convertUTF16ToUTF8 strict source room = Some (result, rest, utf8s l) /\
    reads strict l source rest /\ (strict = true -> Forall (fun c => isScalarValue c = true) l /\ source = utf16s l ++ rest) /\
    (length (utf8s l) <= room)%nat /\ ended16 strict result rest (room - length (utf8s l)).
Proof.
  intros Hs. destruct (convertUTF16ToUTF8_ok strict (S (length source)) source room ltac:(lia) Hs) as (result & l & rest & E & Hr & Hl & He). exists result, l, rest. split_and!; try done. intros ->. by apply reads_strict.
Qed.

Lemma utf16_to_utf8_correct_witness :
  exists result l rest, convertUTF16ToUTF8 false [0x41; 0xD83D; 0xDE00; 0xD800; 0x42] 8 = Some (result, rest, utf8s l) /\
    reads false l [0x41; 0xD83D; 0xDE00; 0xD800; 0x42] rest /\
    (false = true -> Forall (fun c => isScalarValue c = true) l /\ [0x41; 0xD83D; 0xDE00; 0xD800; 0x42] = utf16s l ++ rest) /\
    (length (utf8s l) <= 8)%nat /\ ended16 false result rest (8 - length (utf8s l)).
Proof. apply utf16_to_utf8_correct. repeat (constructor; [unfold isUnit; lia|]). constructor. Defined.

(** C33: a conversion of bytes into a buffer of code units returns, reads no byte behind
    the source and writes within the buffer.  If no byte ED or F4 is followed by a byte
    below 0x80 ([strayFree]), the converted bytes are well-formed UTF-8 and what has been
    written is the UTF-16 encoding of the same scalar values.  Otherwise sequences that
    begin with such a pair may be converted too, each to one other scalar value (they are
    the [stray] ones, and the code accepts no others that are no UTF-8).  The conversion
    stops at the end of the source, at a sequence that the source is too short for, at a
    character that the rest of the buffer is too small for, or where no character begins,
    and the result says which.  [sourceAllASCII] tells whether all converted characters
    are below 128. *)
Theorem utf8_to_utf16_correct strict source room :
  Forall isByte source ->
  exists result l pre rest ascii,
    convertUTF8ToUTF16 strict source room = Some (result, rest, utf16s l, ascii) /\
    accepted l pre /\ (strayFree source -> pre = utf8s l) /\
    source = pre ++ rest /\ (length (utf16s l) <= room)%nat /\
    ended8 result rest (room - length (utf16s l)) /\
    (ascii = true <-> Forall (fun c => c < 128) l).
Proof.
  intros Hs. unfold convertUTF8ToUTF16.
  destruct (convertUTF8ToUTF16_ok strict (S (length source)) source room 0 ltac:(lia) Hs)
    as (result & l & pre & rest & bits & -> & Ha & E & Hl & He & Hb).
  exists result, l, pre, rest, (Z.land bits (Z.lnot 0x7F) =? 0). split_and!; try done; [intros Hf; apply (accepted_wellFormed l pre Ha rest); by rewrite <- E|]. split.
  - intros Hz. apply Z.eqb_eq, Hb in Hz. by destruct Hz.
  - intros Hz. apply Z.eqb_eq, Hb. split; [done|done].
Qed.

Lemma utf8_to_utf16_correct_witness :
  strayFree [0x41; 0xC3; 0xA9; 0xE2] /\
  exists result l pre rest ascii,
    convertUTF8ToUTF16 true [0x41; 0xC3; 0xA9; 0xE2] 5 = Some (result, rest, utf16s l, ascii) /\
    accepted l pre /\ (strayFree [0x41; 0xC3; 0xA9; 0xE2] -> pre = utf8s l) /\
    [0x41; 0xC3; 0xA9; 0xE2] = pre ++ rest /\ (length (utf16s l) <= 5)%nat /\
    ended8 result rest (5 - length (utf16s l)) /\
    (ascii = true <-> Forall (fun c => c < 128) l).
Proof.
  split.
  - intros i b a Hi Hb _. destruct i as [|[|[|[|i]]]]; cbn in Hi; try discriminate; injection Hi as <-; destruct Hb as [Hb|Hb]; discriminate.
  - apply utf8_to_utf16_correct. repeat (constructor; [unfold isByte; lia|]). constructor.
Defined.

(** UTF-16 text converted to UTF-8 and back, with
    buffers that are large enough, is the same text, and both conversions
    report success. *)
Theorem utf8_convert_roundtrip l room room' :
  Forall (fun c => isScalarValue c = true) l ->
  (length (utf8s l) <= room)%nat -> (length (utf16s l) <= room')%nat ->
  convertUTF16ToUTF8 true (utf16s l) room = Some (conversionOK, [], utf8s l) /\
  exists ascii, convertUTF8ToUTF16 true (utf8s l) room' = Some (conversionOK, [], utf16s l, ascii).
Proof.
  intros Hl Hr Hr'. split; [by apply (convert16_whole l room)|by apply (convert8_whole l room')].
Qed.

Lemma utf8_convert_roundtrip_witness :
  convertUTF16ToUTF8 true (utf16s [0xE9; 0x1F600]) 6 = Some (conversionOK, [], utf8s [0xE9; 0x1F600]) /\
  exists ascii, convertUTF8ToUTF16 true (utf8s [0xE9; 0x1F600]) 3
    = Some (conversionOK, [], utf16s [0xE9; 0x1F600], ascii).
Proof. apply utf8_convert_roundtrip; [by repeat constructor|vm_compute; lia..]. Defined.

(** The hash of UTF-8 text, given with its end or up to a NUL, is
    the hash of the same text in UTF-16, so that a string is found in a table by
    its UTF-8 form; the two lengths are those of the two forms. *)
Theorem utf8_hash_correct nullTerminated l rest :
  Forall (fun c => isScalarValue c = true) l -> (nullTerminated = true -> Forall (fun c => c <> 0) l) ->
  Forall isByte rest -> endsWith nullTerminated rest ->
  exists h, StringHasher.computeHashAndMaskTop8Bits (utf16s l) = Some h /\ h <> 0 /\
    calculateStringHashAndLengthFromUTF8MaskingTop8Bits nullTerminated (utf8s l ++ rest)
    = Some (h, Z.of_nat (length (utf8s l)), Z.of_nat (length (utf16s l))).
Proof.
  intros Hl Hz Hrest Hend.
  destruct (StringHasher.addAligned_ok (utf16s l) [] StringHasher.newHasher StringHasher.hasherOf_new eq_refl)
    as (h & E & H).
  destruct (hashLoop_ok nullTerminated l (S (length (utf8s l ++ rest))) rest [] StringHasher.newHasher 0 0)
    as (h' & E' & H'); try done; [rewrite length_app; lia|].
  exists (StringHasher.hashWithTop8BitsMasked h). unfold StringHasher.computeHashAndMaskTop8Bits.
  rewrite E. split; [done|]. split; [pose proof (StringHasher.masked_range h); lia|].
  unfold calculateStringHashAndLengthFromUTF8MaskingTop8Bits. rewrite E'.
  by destruct (StringHasher.hash_unique _ _ _ H H') as [-> _].
Qed.

Lemma utf8_hash_correct_witness :
  exists h, StringHasher.computeHashAndMaskTop8Bits [0xE9; 0xD83D; 0xDE00] = Some h /\ h <> 0 /\
    calculateStringHashAndLengthFromUTF8MaskingTop8Bits true ([0xC3; 0xA9; 0xF0; 0x9F; 0x98; 0x80] ++ [0; 0x41])
    = Some (h, 6, 3).
Proof.
  apply (utf8_hash_correct true [0xE9; 0x1F600] [0; 0x41]).
  - by repeat constructor.
  - intros _. by repeat constructor.
  - repeat (constructor; [unfold isByte; lia|]). constructor.
  - done.
Defined.

(** UTF-8 text is found equal to UTF-16 text with at least as many
    code units exactly when it is the same text as the front of it; for texts of
    the same length, exactly when they are the same. *)
Theorem utf8_equal_correct a l :
  Forall isUnit a -> Forall (fun c => isScalarValue c = true) l -> (length (utf16s l) <= length a)%nat ->
  equalUTF16WithUTF8 a (utf8s l) = Some (bool_decide (utf16s l `prefix_of` a)) /\
  (length (utf16s l) = length a -> (equalUTF16WithUTF8 a (utf8s l) = Some true <-> a = utf16s l)).
Proof.
  intros Ha Hl Hlen. unfold equalUTF16WithUTF8. rewrite equalLoop_ok by (done || lia). split; [done|].
  intros Hsame. split.
  - intros E. injection E as E. apply bool_decide_eq_true in E as [r ->]. rewrite length_app in Hsame.
    destruct r; [by rewrite app_nil_r|simpl in Hsame; lia].
  - intros ->. by rewrite bool_decide_eq_true_2.
Qed.

Lemma utf8_equal_correct_witness :
  equalUTF16WithUTF8 [0xE9; 0x42] (utf8s [0xE9; 0x41]) = Some (bool_decide (utf16s [0xE9; 0x41] `prefix_of` [0xE9; 0x42])) /\
  (length (utf16s [0xE9; 0x41]) = length [0xE9; 0x42] ->
   (equalUTF16WithUTF8 [0xE9; 0x42] (utf8s [0xE9; 0x41]) = Some true <-> [0xE9; 0x42] = utf16s [0xE9; 0x41])).
Proof.
  apply utf8_equal_correct; [|by repeat constructor|vm_compute; lia].
  repeat (constructor; [unfold isUnit; lia|]). constructor.
Defined.

(** A strict conversion accepts byte sequences that are no UTF-8:
    behind ED the second byte may be below 0x80, so that three bytes of which the
    second is an ASCII character are read as one other character. *)
Theorem utf8_accepts_stray a t :
  0 <= a < 0x80 -> 0x80 <= t <= 0xBF ->
  convertUTF8ToUTF16 true [0xED; a; t] 1
  = Some (conversionOK, [], [0xD000 + (a - 0x80) * 64 + (t - 0x80)], false) /\
  forall v, isScalarValue v = true -> ~ utf8 v `prefix_of` [0xED; a; t].
Proof.
  intros Ha Ht. split.
  - unfold convertUTF8ToUTF16. cbn [length convertUTF8ToUTF16_loop]. change (inlineUTF8SequenceLength 0xED) with 3%nat.
    unfold isLegalUTF8, isLegalByte, readUTF8Sequence. cbn [lookup list_lookup Nat.ltb Nat.leb Nat.sub readBytes].
    destruct (Z.ltb_spec t 0x80), (Z.ltb_spec 0xBF t), (Z.ltb_spec 0xBF a); try lia. cbn [orb negb Z.eqb Pos.eqb].
    destruct (Z.ltb_spec 0x9F a); [lia|]. cbn.
    replace (_ - 925824) with (0xD000 + (a - 0x80) * 64 + (t - 0x80)) by (rewrite !Z.shiftl_mul_pow2 by lia; lia).
    set (c := _ + (t - 0x80)). assert (Hc : 0xB000 <= c < 0xD000) by lia.
    rewrite U_IS_BMP_spec, U_IS_SURROGATE_spec by lia.
    destruct (Z.ltb_spec c 0x10000), (Z.leb_spec 0xD800 c); try lia. cbn [andb]. rewrite uwrap_id by lia.
    pose proof (isASCII_spec c ltac:(lia)) as Hn. unfold isASCII in Hn. change (Z.lor 0 c) with c. rewrite Hn.
    destruct (Z.ltb_spec c 128); [lia|done].
  - intros v Hv Hp. pose proof (proj1 (isScalarValue_spec v) Hv).
    destruct (utf8_prefix v _ Hv Hp) as [[? [? E]]|[[? [? E]]|[[? [? E]]|[? [? E]]]]]; injection E; intros; divisions; lia.
Qed.

Lemma utf8_accepts_stray_witness :
  convertUTF8ToUTF16 true [0xED; 0x41; 0x80] 1 = Some (conversionOK, [], [0xC040], false) /\
  forall v, isScalarValue v = true -> ~ utf8 v `prefix_of` [0xED; 0x41; 0x80].
Proof. apply (utf8_accepts_stray 0x41 0x80); lia. Defined.
