(* ===== verification/TextCodecUTF8.v ===== *)
(** * [WebCore/platform/text/TextCodecUTF8]

    The streaming UTF-8 decoder and the encoder.  Bytes are in [0, 256) and code
    units in [0, 65536).  [None] is a failed assertion, an access outside a
    buffer, or a loop that is still running when its fuel is used up. *)
From S2P Require Import Prelude Unicode.
From stdpp Require Import base list numbers option.
From Stdlib Require Import ZArith Lia.
#[local] Open Scope Z_scope.

Module TextCodecUTF8.

Definition nonCharacter : Z := -1.

Definition replacementCharacter : Z := 0xFFFD.

Definition isASCII (c : Z) : bool := c <? 128.

(** ** Sequences *)

Definition lengths : list nat := [
  0; 0; 0; 0; 0; 0; 0; 0; 0; 0; 0; 0; 0; 0; 0; 0;
  0; 0; 0; 0; 0; 0; 0; 0; 0; 0; 0; 0; 0; 0; 0; 0;
  0; 0; 0; 0; 0; 0; 0; 0; 0; 0; 0; 0; 0; 0; 0; 0;
  0; 0; 0; 0; 0; 0; 0; 0; 0; 0; 0; 0; 0; 0; 0; 0;
  0; 0; 0; 0; 0; 0; 0; 0; 0; 0; 0; 0; 0; 0; 0; 0;
  0; 0; 0; 0; 0; 0; 0; 0; 0; 0; 0; 0; 0; 0; 0; 0;
  0; 0; 0; 0; 0; 0; 0; 0; 0; 0; 0; 0; 0; 0; 0; 0;
  0; 0; 0; 0; 0; 0; 0; 0; 0; 0; 0; 0; 0; 0; 0; 0;
  2; 2; 2; 2; 2; 2; 2; 2; 2; 2; 2; 2; 2; 2; 2; 2;
  2; 2; 2; 2; 2; 2; 2; 2; 2; 2; 2; 2; 2; 2; 2; 2;
  2; 2; 2; 2; 2; 2; 2; 2; 2; 2; 2; 2; 2; 2; 2; 2;
  2; 2; 2; 2; 2; 2; 2; 2; 2; 2; 2; 2; 2; 2; 2; 2;
  2; 2; 2; 2; 2; 2; 2; 2; 2; 2; 2; 2; 2; 2; 2; 2;
  2; 2; 2; 2; 2; 2; 2; 2; 2; 2; 2; 2; 2; 2; 2; 2;
  3; 3; 3; 3; 3; 3; 3; 3; 3; 3; 3; 3; 3; 3; 3; 3;
  4; 4; 4; 4; 4; 0; 0; 0; 0; 0; 0; 0; 0; 0; 0; 0]%nat.

Definition nonASCIISequenceLength (firstByte : Z) : nat :=
  default 0%nat (lengths !! Z.to_nat firstByte).

(** [sequence[i]]. *)
Definition byteAt {A} (sequence : list Z) (i : nat) (k : Z -> option A) : option A :=
  match sequence !! i with Some b => k b | None => None end.

Definition outside (b lo hi : Z) : bool := (b <? lo) || (hi <? b).

Definition decodeNonASCIISequence (sequence : list Z) (length : nat) : option Z :=
  byteAt sequence 0 (fun s0 =>
  guard! negb (isASCII s0) in
  if (length =? 2)%nat then
    guard! s0 <=? 0xDF in
    if s0 <? 0xC2 then Some nonCharacter
    else byteAt sequence 1 (fun s1 =>
      if outside s1 0x80 0xBF then Some nonCharacter
      else Some (Z.shiftl s0 6 + s1 - 0x00003080))
  else if (length =? 3)%nat then
    guard! (0xE0 <=? s0) && (s0 <=? 0xEF) in
    byteAt sequence 1 (fun s1 =>
      if (if s0 =? 0xE0 then outside s1 0xA0 0xBF
          else if s0 =? 0xED then outside s1 0x80 0x9F
          else outside s1 0x80 0xBF) then Some nonCharacter
      else byteAt sequence 2 (fun s2 =>
        if outside s2 0x80 0xBF then Some nonCharacter
        else Some (Z.shiftl s0 12 + Z.shiftl s1 6 + s2 - 0x000E2080)))
  else
    guard! (length =? 4)%nat in
    guard! (0xF0 <=? s0) && (s0 <=? 0xF4) in
    byteAt sequence 1 (fun s1 =>
      if (if s0 =? 0xF0 then outside s1 0x90 0xBF
          else if s0 =? 0xF4 then outside s1 0x80 0x8F
          else outside s1 0x80 0xBF) then Some nonCharacter
      else byteAt sequence 2 (fun s2 =>
        if outside s2 0x80 0xBF then Some nonCharacter
        else byteAt sequence 3 (fun s3 =>
          if outside s3 0x80 0xBF then Some nonCharacter
          else Some (Z.shiftl s0 18 + Z.shiftl s1 12 + Z.shiftl s2 6 + s3 - 0x03C82080))))).

Definition appendCharacter (destination : list Z) (character : Z) : option (list Z) :=
  guard! negb (character =? nonCharacter) in
  guard! negb (U_IS_SURROGATE character) in
  Some (destination ++ if U_IS_BMP character then [uwrap 16 character]
                       else [U16_LEAD character; U16_TRAIL character]).

(** ** The state *)

(** The array holds [U8_MAX_LENGTH] bytes, of which the first
    [m_partialSequenceSize] are in use. *)
Record Codec : Type := mkCodec {
  m_partialSequence : list Z;
  m_partialSequenceSize : nat
}.

Definition U8_MAX_LENGTH : nat := 4.

Definition newCodec : Codec := mkCodec (replicate U8_MAX_LENGTH 0) 0.

(** [memmove] of the remaining bytes to the front. *)
Definition consumePartialSequenceByte (k : Codec) : Codec :=
  let size := (m_partialSequenceSize k - 1)%nat in
  mkCodec (take size (drop 1 (m_partialSequence k)) ++ drop size (m_partialSequence k)) size.

(** [memcpy(m_partialSequence + m_partialSequenceSize, source, n)], with the
    size set to what is then in use. *)
Definition fillPartialSequence (source : list Z) (n : nat) (k : Codec) : option Codec :=
  let size := m_partialSequenceSize k in
  guard! (size + n <=? U8_MAX_LENGTH)%nat && (n <=? length source)%nat in
  Some (mkCodec (take size (m_partialSequence k) ++ take n source
                 ++ drop (size + n) (m_partialSequence k)) (size + n)).

Definition handleError (stopOnError : bool) (destination : list Z) (k : Codec) : list Z * Codec :=
  if stopOnError then (destination, k)
  else (destination ++ [replacementCharacter], consumePartialSequenceByte k).

(** ** The partial sequence *)

(** How a round of [do ... while (m_partialSequenceSize)] ends: with [return], or
    with the test of the condition. *)
Inductive Round (A : Type) : Type :=
| Return (result : A) (k : Codec) (destination source : list Z)
| Continue (result : A) (k : Codec) (destination source : list Z).
Arguments Return {A}.
Arguments Continue {A}.

(** The end of a round of [handlePartialSequence<LChar>], where [count] bytes are
    there; the result is whether the caller has to convert to 16 bits. *)
Definition decodePartial8 (count : nat) (k : Codec) (destination source : list Z)
  : option (Round bool) :=
  match decodeNonASCIISequence (m_partialSequence k) count with
  | None => None
  | Some character =>
      if (character =? nonCharacter) || (0xFF <? character)
      then Some (Return true k destination source)
      else Some (Continue false (mkCodec (m_partialSequence k) (m_partialSequenceSize k - count))
                   (destination ++ [character]) source)
  end.

Definition partialRound8 (flush : bool) (k : Codec) (destination source : list Z)
  : option (Round bool) :=
  byteAt (m_partialSequence k) 0 (fun b =>
  if isASCII b then Some (Continue false (consumePartialSequenceByte k) (destination ++ [b]) source)
  else
    let count := nonASCIISequenceLength b in
    if (count =? 0)%nat then Some (Return true k destination source)
    else if (m_partialSequenceSize k <? count)%nat then
      if (length source <? count - m_partialSequenceSize k)%nat then
        if negb flush then
          match fillPartialSequence source (length source) k with
          | None => None
          | Some k => Some (Return false k destination source)
          end
        else Some (Return true k destination source)
      else
        match fillPartialSequence source (count - m_partialSequenceSize k) k with
        | None => None
        | Some k' => decodePartial8 count k' destination (drop (count - m_partialSequenceSize k) source)
        end
    else decodePartial8 count k destination source).

Fixpoint handlePartialSequence8 (fuel : nat) (flush : bool) (k : Codec) (destination source : list Z)
  : option (bool * Codec * list Z * list Z) :=
  match fuel with
  | O => None
  | S fuel =>
      match partialRound8 flush k destination source with
      | None => None
      | Some (Return up k destination source) => Some (up, k, destination, source)
      | Some (Continue up k destination source) =>
          if (m_partialSequenceSize k =? 0)%nat then Some (up, k, destination, source)
          else handlePartialSequence8 fuel flush k destination source
      end
  end.

(** The same for [handlePartialSequence<UChar>]; the result is [sawError]. *)
Definition errorRound (stopOnError : bool) (k : Codec) (destination source : list Z) : Round bool :=
  let '(destination, k) := handleError stopOnError destination k in
  if stopOnError then Return true k destination source else Continue true k destination source.

Definition decodePartial16 (stopOnError sawError : bool) (count : nat) (k : Codec)
  (destination source : list Z) : option (Round bool) :=
  match decodeNonASCIISequence (m_partialSequence k) count with
  | None => None
  | Some character =>
      if character =? nonCharacter then Some (errorRound stopOnError k destination source)
      else
        match appendCharacter destination character with
        | None => None
        | Some destination =>
            Some (Continue sawError (mkCodec (m_partialSequence k) (m_partialSequenceSize k - count))
                    destination source)
        end
  end.

Definition partialRound16 (flush stopOnError sawError : bool) (k : Codec) (destination source : list Z)
  : option (Round bool) :=
  byteAt (m_partialSequence k) 0 (fun b =>
  if isASCII b
  then Some (Continue sawError (consumePartialSequenceByte k) (destination ++ [b]) source)
  else
    let count := nonASCIISequenceLength b in
    if (count =? 0)%nat then Some (errorRound stopOnError k destination source)
    else if (m_partialSequenceSize k <? count)%nat then
      if (length source <? count - m_partialSequenceSize k)%nat then
        if negb flush then
          match fillPartialSequence source (length source) k with
          | None => None
          | Some k => Some (Return sawError k destination source)
          end
        else Some (errorRound stopOnError k destination source)
      else
        match fillPartialSequence source (count - m_partialSequenceSize k) k with
        | None => None
        | Some k' =>
            decodePartial16 stopOnError sawError count k' destination
              (drop (count - m_partialSequenceSize k) source)
        end
    else decodePartial16 stopOnError sawError count k destination source).

Fixpoint handlePartialSequence16 (fuel : nat) (flush stopOnError sawError : bool) (k : Codec)
  (destination source : list Z) : option (Codec * bool * list Z * list Z) :=
  match fuel with
  | O => None
  | S fuel =>
      match partialRound16 flush stopOnError sawError k destination source with
      | None => None
      | Some (Return sawError k destination source) => Some (k, sawError, destination, source)
      | Some (Continue sawError k destination source) =>
          if (m_partialSequenceSize k =? 0)%nat then Some (k, sawError, destination, source)
          else handlePartialSequence16 fuel flush stopOnError sawError k destination source
      end
  end.

(** ** The fast path of [wtf/text/ASCIIFastPath.h]

    A machine word has eight bytes, in little-endian order. *)

Definition wordSize : nat := 8.

Definition machineWordAlignmentMask : Z := 7.

Definition isAlignedToMachineWord (pointer : Z) : bool :=
  Z.land pointer machineWordAlignmentMask =? 0.

Definition alignToMachineWord (pointer : Z) : Z :=
  Z.land pointer (Z.lnot machineWordAlignmentMask).

Definition machineWord (source : list Z) : Z :=
  foldr (fun b w => b + 256 * w) 0 (take wordSize source).

Definition isAllASCII (word : Z) : bool := Z.land word 0x8080808080808080 =? 0.

Section Decode.
(** The address behind the input; the input that is left begins
    [length source] bytes before it. *)
Context (endAddress : Z).

Definition addressOf (source : list Z) : Z := endAddress - Z.of_nat (length source).

(** The loop that copies whole words. *)
Fixpoint copyASCIIWords (fuel : nat) (destination source : list Z) : option (list Z * list Z) :=
  match fuel with
  | O => None
  | S fuel =>
      if addressOf source <? alignToMachineWord endAddress then
        guard! (wordSize <=? length source)%nat in
        if isAllASCII (machineWord source)
        then copyASCIIWords fuel (destination ++ take wordSize source) (drop wordSize source)
        else Some (destination, source)
      else Some (destination, source)
  end.

(** What the body of [while (source < end)] does with a byte below 128: the
    output and the input after it. *)
Definition copyASCII (destination source : list Z) : option (list Z * list Z) :=
  let copyOne destination source :=
    match source with
    | [] => None
    | b :: rest => Some (destination ++ [b], rest)
    end in
  if isAlignedToMachineWord (addressOf source) then
    match copyASCIIWords (S (length source)) destination source with
    | None => None
    | Some (destination, source) =>
        match source with
        | [] => Some (destination, source)
        | b :: _ => if isASCII b then copyOne destination source else Some (destination, source)
        end
    end
  else copyOne destination source.

(** The bytes of an incomplete sequence at the end are kept for later. *)
Definition keepPartialSequence (source : list Z) (k : Codec) : option Codec :=
  guard! (length source <? U8_MAX_LENGTH)%nat in
  guard! (m_partialSequenceSize k =? 0)%nat in
  fillPartialSequence source (length source) k.

(** The character that begins at a byte from 128 on: [Some None] is an
    incomplete sequence at the end of the input. *)
Definition characterAt (source : list Z) (count : nat) : option (option Z) :=
  if (count =? 0)%nat then Some (Some nonCharacter)
  else if (length source <? count)%nat then Some None
  else match decodeNonASCIISequence source count with
       | None => None
       | Some character => Some (Some character)
       end.

(** How the 8-bit loop is left. *)
Inductive Left8 : Type := Finished | UpConvert.

(** [while (source < end)] with the 8-bit output. *)
Fixpoint decodeLoop8 (fuel : nat) (stopOnError sawError : bool) (k : Codec) (destination source : list Z)
  : option (Left8 * Codec * bool * list Z * list Z) :=
  match fuel with
  | O => None
  | S fuel =>
      match source with
      | [] => Some (Finished, k, sawError, destination, source)
      | b :: _ =>
          if isASCII b then
            match copyASCII destination source with
            | None => None
            | Some (destination, source) => decodeLoop8 fuel stopOnError sawError k destination source
            end
          else
            let count := nonASCIISequenceLength b in
            match characterAt source count with
            | None => None
            | Some None =>
                match keepPartialSequence source k with
                | None => None
                | Some k => Some (Finished, k, sawError, destination, [])
                end
            | Some (Some character) =>
                if character =? nonCharacter then
                  Some (if stopOnError then Finished else UpConvert, k, true, destination, source)
                else if 0xFF <? character then Some (UpConvert, k, sawError, destination, source)
                else decodeLoop8 fuel stopOnError sawError k (destination ++ [character]) (drop count source)
            end
      end
  end.

(** The same loop with the 16-bit output. *)
Fixpoint decodeLoop16 (fuel : nat) (stopOnError sawError : bool) (k : Codec) (destination source : list Z)
  : option (Codec * bool * list Z * list Z) :=
  match fuel with
  | O => None
  | S fuel =>
      match source with
      | [] => Some (k, sawError, destination, source)
      | b :: rest =>
          if isASCII b then
            match copyASCII destination source with
            | None => None
            | Some (destination, source) => decodeLoop16 fuel stopOnError sawError k destination source
            end
          else
            let count := nonASCIISequenceLength b in
            match characterAt source count with
            | None => None
            | Some None =>
                match keepPartialSequence source k with
                | None => None
                | Some k => Some (k, sawError, destination, [])
                end
            | Some (Some character) =>
                if character =? nonCharacter then
                  if stopOnError then Some (k, true, destination, source)
                  else decodeLoop16 fuel stopOnError true k (destination ++ [replacementCharacter]) rest
                else
                  match appendCharacter destination character with
                  | None => None
                  | Some destination =>
                      decodeLoop16 fuel stopOnError sawError k destination (drop count source)
                  end
            end
      end
  end.

(** The fuel of the loops: every round uses up a byte. *)
Definition loopFuel (k : Codec) (source : list Z) : nat :=
  S (m_partialSequenceSize k + length source).

(** [do ... while (flush && m_partialSequenceSize)] with the 8-bit output.  When
    the partial sequence needs 16 bits, what its handler has written is not
    kept. *)
Fixpoint decode8 (fuel : nat) (flush stopOnError sawError : bool) (k : Codec) (destination source : list Z)
  : option (Left8 * Codec * bool * list Z * list Z) :=
  match fuel with
  | O => None
  | S fuel =>
      let loop k destination source :=
        match decodeLoop8 (loopFuel k source) stopOnError sawError k destination source with
        | Some (Finished, k, sawError, destination, source) =>
            if flush && negb (m_partialSequenceSize k =? 0)%nat
            then decode8 fuel flush stopOnError sawError k destination source
            else Some (Finished, k, sawError, destination, source)
        | r => r
        end in
      if (m_partialSequenceSize k =? 0)%nat then loop k destination source
      else
        match handlePartialSequence8 (loopFuel k source) flush k destination source with
        | None => None
        | Some (true, k, _, source) => Some (UpConvert, k, sawError, destination, source)
        | Some (false, k, destination, source) =>
            if (m_partialSequenceSize k =? 0)%nat then loop k destination source
            else Some (Finished, k, sawError, destination, source)
        end
  end.

(** The same with the 16-bit output. *)
Fixpoint decode16 (fuel : nat) (flush stopOnError sawError : bool) (k : Codec) (destination source : list Z)
  : option (Codec * bool * list Z) :=
  match fuel with
  | O => None
  | S fuel =>
      let loop sawError k destination source :=
        match decodeLoop16 (loopFuel k source) stopOnError sawError k destination source with
        | None => None
        | Some (k, sawError, destination, source) =>
            if flush && negb (m_partialSequenceSize k =? 0)%nat
            then decode16 fuel flush stopOnError sawError k destination source
            else Some (k, sawError, destination)
        end in
      if (m_partialSequenceSize k =? 0)%nat then loop sawError k destination source
      else
        match handlePartialSequence16 (loopFuel k source) flush stopOnError sawError k destination source with
        | None => None
        | Some (k, sawError, destination, source) =>
            if (m_partialSequenceSize k =? 0)%nat then loop sawError k destination source
            else Some (k, sawError, destination)
        end
  end.

End Decode.

(** [decode]: the text, [sawError] and the codec afterwards.  The buffers have
    one place for every byte of the input and of the partial sequence; three
    rounds are enough, because the second one begins with the input used up. *)
Definition decode (address : Z) (bytes : list Z) (flush stopOnError sawError : bool) (k : Codec)
  : option (list Z * bool * Codec) :=
  let endAddress := address + Z.of_nat (length bytes) in
  match decode8 endAddress 3 flush stopOnError sawError k [] bytes with
  | None => None
  | Some (Finished, k', sawError, destination, _) =>
      guard! (length destination <=? m_partialSequenceSize k + length bytes)%nat in
      Some (destination, sawError, k')
  | Some (UpConvert, k', sawError, destination, source) =>
      guard! (length destination <=? m_partialSequenceSize k + length bytes)%nat in
      match decode16 endAddress 3 flush stopOnError sawError k' destination source with
      | None => None
      | Some (k'', sawError, destination) =>
          guard! (length destination <=? m_partialSequenceSize k' + length bytes)%nat in
          Some (destination, sawError, k'')
      end
  end.

(** A text that arrives in chunks, each at some address, of which the last is
    flushed. *)
Fixpoint decodeChunks (chunks : list (Z * list Z)) (k : Codec) : option (list Z * bool * Codec) :=
  match chunks with
  | [] => decode 0 [] true false false k
  | (address, bytes) :: chunks =>
      match decode address bytes false false false k with
      | None => None
      | Some (out, sawError, k) =>
          match decodeChunks chunks k with
          | None => None
          | Some (out', sawError', k) => Some (out ++ out', sawError || sawError', k)
          end
      end
  end.

(** ** Encoding *)

Fixpoint encodeLoop (fuel : nat) (characters : list Z) : option (list Z) :=
  match fuel with
  | O => None
  | S fuel =>
      match characters with
      | [] => Some []
      | c :: rest =>
          let '(character, rest) := U16_NEXT c rest in
          match encodeLoop fuel rest with
          | None => None
          | Some bytes => Some (U8_APPEND_UNSAFE character ++ bytes)
          end
      end
  end.

Definition encode (characters : list Z) : option (list Z) :=
  match encodeLoop (S (length characters)) characters with
  | None => None
  | Some bytes =>
      guard! (length bytes <=? length characters * 3)%nat in
      Some bytes
  end.

Example decode_example :
  decodeChunks [(3, [0x68; 0xC3]); (0, [0xA9; 0x20]); (8, [0xE2; 0x82]); (1, [0xAC; 0x21])] newCodec
  = Some ([0x68; 0xE9; 0x20; 0x20AC; 0x21], false, mkCodec [0xE2; 0x82; 0xAC; 0] 0).
Proof. reflexivity. Qed.

End TextCodecUTF8.
