(* ===== verification/TextCodecUTF8Facts.v ===== *)
(** * Sequences, words and the loops of the UTF-8 decoder

    What one step of the decoder does to the input and to the output, against the encoding
    forms of [Unicode].  Every loop terminates, stays inside its buffers and makes progress
    as the specification of decoding with replacement says. *)
From S2P Require Import Prelude Unicode TextCodecUTF8.
From stdpp Require Import base list numbers option.
From Stdlib Require Import ZArith Lia.
#[local] Open Scope Z_scope.
Import TextCodecUTF8.

(** ** Sequences *)

Lemma sequenceLength_spec b : 128 <= b < 256 ->
  nonASCIISequenceLength b
  = if b <=? 0xDF then 2%nat else if b <=? 0xEF then 3%nat else if b <=? 0xF4 then 4%nat else 0%nat.
Proof.
  intros Hb. apply Nat.eqb_eq.
  assert (H : forallb (fun b => (nonASCIISequenceLength b =?
    (if (b <=? 0xDF)%Z then 2 else if (b <=? 0xEF)%Z then 3 else if (b <=? 0xF4)%Z then 4 else 0))%nat)
    (seqZ 128 128) = true) by (vm_compute; reflexivity).
  apply (forall_range _ _ _ H). lia.
Qed.

(** The first byte tells the length of an encoding. *)
Lemma utf8_lead v b l : isScalarValue v = true -> utf8 v `prefix_of` b :: l -> 128 <= b ->
  0x80 <= v /\ b < 256 /\ nonASCIISequenceLength b = length (utf8 v).
Proof.
  intros Hv Hp Hb. pose proof (proj1 (isScalarValue_spec v) Hv) as Hr.
  pose proof (utf8_prefix v _ Hv Hp) as Hc. clear Hp. unfold utf8.
  destruct Hc as [[? [r E]]|[[? [r E]]|[[? [r E]]|[? [r E]]]]]; injection E as -> ->; [lia|..].
  - rewrite sequenceLength_spec by (divisions; lia). destruct (Z.leb_spec (0xC0 + v / 64) 0xDF); [|divisions; lia].
    destruct (Z.ltb_spec v 0x80), (Z.ltb_spec v 0x800); (lia || (split_and!; [lia|divisions; lia|done])).
  - rewrite sequenceLength_spec by (divisions; lia).
    destruct (Z.leb_spec (0xE0 + v / 4096) 0xDF); [divisions; lia|].
    destruct (Z.leb_spec (0xE0 + v / 4096) 0xEF); [|divisions; lia].
    destruct (Z.ltb_spec v 0x80), (Z.ltb_spec v 0x800), (Z.ltb_spec v 0x10000);
      (lia || (split_and!; [lia|divisions; lia|done])).
  - rewrite sequenceLength_spec by (divisions; lia).
    destruct (Z.leb_spec (0xF0 + v / 262144) 0xDF); [divisions; lia|].
    destruct (Z.leb_spec (0xF0 + v / 262144) 0xEF); [divisions; lia|].
    destruct (Z.leb_spec (0xF0 + v / 262144) 0xF4); [|divisions; lia].
    destruct (Z.ltb_spec v 0x80), (Z.ltb_spec v 0x800), (Z.ltb_spec v 0x10000);
      (lia || (split_and!; [lia|divisions; lia|done])).
Qed.

(** No encoding begins at the first byte of [l], whatever follows [l]. *)
Definition illFormed (l : list Z) : Prop :=
  forall more v, isScalarValue v = true -> ~ utf8 v `prefix_of` l ++ more.

(** An encoding that is no longer than [l] is decided by [l]. *)
Lemma illFormed_intro b l : 128 <= b ->
  (nonASCIISequenceLength b <= length (b :: l))%nat ->
  (forall v, isScalarValue v = true -> ~ utf8 v `prefix_of` b :: l) -> illFormed (b :: l).
Proof.
  intros Hb Hlen H more v Hv Hp. apply (H v Hv).
  destruct (utf8_lead v b (l ++ more) Hv Hp Hb) as (_ & _ & E). rewrite E in Hlen.
  destruct Hp as [r Hr]. exists (drop (length (utf8 v)) (b :: l)).
  transitivity (take (length (utf8 v)) (b :: l) ++ drop (length (utf8 v)) (b :: l));
    [by rewrite take_drop|]. f_equal.
  transitivity (take (length (utf8 v)) ((b :: l) ++ more)); [symmetry; by apply take_app_le|].
  rewrite Hr. by rewrite take_app_length.
Qed.

Lemma illFormed_no_length b l : 128 <= b < 256 -> nonASCIISequenceLength b = 0%nat -> illFormed (b :: l).
Proof.
  intros Hb H0 more v Hv Hp. destruct (utf8_lead v b (l ++ more) Hv Hp ltac:(lia)) as (_ & _ & E).
  rewrite H0 in E. unfold utf8 in E. by repeat split_if_in E.
Qed.

Lemma outside_spec b lo hi : outside b lo hi = false <-> lo <= b <= hi.
Proof.
  unfold outside. destruct (Z.ltb_spec b lo), (Z.ltb_spec hi b); simpl; split; (done || lia).
Qed.

(** What decoding a complete sequence finds. *)
Definition decodedAt (source : list Z) (count : nat) (c : Z) : Prop :=
  (c = nonCharacter /\ illFormed source) \/
  (isScalarValue c = true /\ 0x80 <= c /\ take count source = utf8 c).

Ltac no_encoding :=
  left; split; [done|]; apply illFormed_intro; [lia|simpl in *; lia|];
  let v := fresh "v" in let Hv := fresh "Hv" in let Hp := fresh "Hp" in
  intros v Hv Hp; pose proof (proj1 (isScalarValue_spec v) Hv);
  destruct (utf8_prefix v _ Hv Hp) as [[? [? E]]|[[? [? E]]|[[? [? E]]|[? [? E]]]]];
  injection E; intros; divisions; lia.

Ltac found_encoding :=
  right; rewrite !Z.shiftl_mul_pow2 by lia; split_and!;
  [apply isScalarValue_spec; lia|lia|]; unfold utf8; cbn [take];
  repeat match goal with |- context [Z.ltb ?a ?b] => first [destruct (Z.ltb_spec a b); [lia|]|destruct (Z.ltb_spec a b); [|lia]] end;
  repeat f_equal; divisions; lia.

Lemma decode_two b s1 rest : 128 <= b <= 0xDF -> isByte s1 ->
  nonASCIISequenceLength b = 2%nat ->
  exists c, decodeNonASCIISequence (b :: s1 :: rest) 2 = Some c /\ decodedAt (b :: s1 :: rest) 2 c.
Proof.
  intros Hb H1 Hn. unfold decodeNonASCIISequence, byteAt. cbn [lookup list_lookup].
  unfold isASCII. destruct (Z.ltb_spec b 128); [lia|]. cbn [negb Nat.eqb].
  destruct (Z.leb_spec b 0xDF); [|lia]. destruct (Z.ltb_spec b 0xC2).
  { eexists. split; [done|]. no_encoding. }
  destruct (outside s1 0x80 0xBF) eqn:E1.
  { eexists. split; [done|]. assert (~ (0x80 <= s1 <= 0xBF)) by (rewrite <- outside_spec; congruence). no_encoding. }
  apply outside_spec in E1. eexists. split; [done|]. found_encoding.
Qed.

Lemma decode_three b s1 s2 rest : 0xE0 <= b <= 0xEF -> isByte s1 -> isByte s2 ->
  nonASCIISequenceLength b = 3%nat ->
  exists c, decodeNonASCIISequence (b :: s1 :: s2 :: rest) 3 = Some c
            /\ decodedAt (b :: s1 :: s2 :: rest) 3 c.
Proof.
  intros Hb H1 H2 Hn. unfold decodeNonASCIISequence, byteAt. cbn [lookup list_lookup].
  unfold isASCII. destruct (Z.ltb_spec b 128); [lia|]. cbn [negb Nat.eqb].
  destruct (Z.leb_spec 0xE0 b); [|lia]. destruct (Z.leb_spec b 0xEF); [|lia]. cbn [andb].
  set (bad := if b =? 0xE0 then outside s1 0xA0 0xBF else if b =? 0xED then outside s1 0x80 0x9F
              else outside s1 0x80 0xBF).
  assert (Hbad : bad = false <-> 0x80 <= s1 <= 0xBF /\ (b = 0xE0 -> 0xA0 <= s1) /\ (b = 0xED -> s1 <= 0x9F)).
  { subst bad. destruct (Z.eqb_spec b 0xE0), (Z.eqb_spec b 0xED); rewrite outside_spec; lia. }
  destruct bad.
  { eexists. split; [done|]. assert (~ (0x80 <= s1 <= 0xBF /\ (b = 0xE0 -> 0xA0 <= s1) /\ (b = 0xED -> s1 <= 0x9F)))
      by (rewrite <- Hbad; done). no_encoding. }
  destruct (proj1 Hbad eq_refl) as (B1 & B2 & B3). clear Hbad.
  destruct (outside s2 0x80 0xBF) eqn:E2.
  { eexists. split; [done|]. assert (~ (0x80 <= s2 <= 0xBF)) by (rewrite <- outside_spec; congruence). no_encoding. }
  apply outside_spec in E2. eexists. split; [done|]. found_encoding.
Qed.

Lemma decode_four b s1 s2 s3 rest : 0xF0 <= b <= 0xF4 -> isByte s1 -> isByte s2 -> isByte s3 ->
  nonASCIISequenceLength b = 4%nat ->
  exists c, decodeNonASCIISequence (b :: s1 :: s2 :: s3 :: rest) 4 = Some c
            /\ decodedAt (b :: s1 :: s2 :: s3 :: rest) 4 c.
Proof.
  intros Hb H1 H2 H3 Hn. unfold decodeNonASCIISequence, byteAt. cbn [lookup list_lookup].
  unfold isASCII. destruct (Z.ltb_spec b 128); [lia|]. cbn [negb Nat.eqb].
  destruct (Z.leb_spec 0xF0 b); [|lia]. destruct (Z.leb_spec b 0xF4); [|lia]. cbn [andb].
  set (bad := if b =? 0xF0 then outside s1 0x90 0xBF else if b =? 0xF4 then outside s1 0x80 0x8F
              else outside s1 0x80 0xBF).
  assert (Hbad : bad = false <-> 0x80 <= s1 <= 0xBF /\ (b = 0xF0 -> 0x90 <= s1) /\ (b = 0xF4 -> s1 <= 0x8F)).
  { subst bad. destruct (Z.eqb_spec b 0xF0), (Z.eqb_spec b 0xF4); rewrite outside_spec; lia. }
  destruct bad.
  { eexists. split; [done|]. assert (~ (0x80 <= s1 <= 0xBF /\ (b = 0xF0 -> 0x90 <= s1) /\ (b = 0xF4 -> s1 <= 0x8F)))
      by (rewrite <- Hbad; done). no_encoding. }
  destruct (proj1 Hbad eq_refl) as (B1 & B2 & B3). clear Hbad.
  destruct (outside s2 0x80 0xBF) eqn:E2.
  { eexists. split; [done|]. assert (~ (0x80 <= s2 <= 0xBF)) by (rewrite <- outside_spec; congruence). no_encoding. }
  apply outside_spec in E2. destruct (outside s3 0x80 0xBF) eqn:E3.
  { eexists. split; [done|]. assert (~ (0x80 <= s3 <= 0xBF)) by (rewrite <- outside_spec; congruence). no_encoding. }
  apply outside_spec in E3. eexists. split; [done|]. found_encoding.
Qed.

(** Any complete sequence. *)
Lemma decode_sequence b l :
  128 <= b -> Forall isByte (b :: l) -> nonASCIISequenceLength b <> 0%nat ->
  (nonASCIISequenceLength b <= length (b :: l))%nat ->
  exists c, decodeNonASCIISequence (b :: l) (nonASCIISequenceLength b) = Some c
            /\ decodedAt (b :: l) (nonASCIISequenceLength b) c.
Proof.
  intros Hb Hl H0 Hlen. assert (Hbyte : isByte b) by (by inversion Hl). unfold isByte in Hbyte.
  pose proof (sequenceLength_spec b ltac:(lia)) as E.
  destruct (Z.leb_spec b 0xDF); [|destruct (Z.leb_spec b 0xEF); [|destruct (Z.leb_spec b 0xF4)]];
    [..|by rewrite E in H0]; rewrite E in Hlen |- *.
  - destruct l as [|s1 l]; [simpl in Hlen; lia|]. decompose_Forall_hyps. by apply decode_two.
  - destruct l as [|s1 [|s2 l]]; [simpl in Hlen; lia..|]. decompose_Forall_hyps. apply decode_three; (done || lia).
  - destruct l as [|s1 [|s2 [|s3 l]]]; [simpl in Hlen; lia..|]. decompose_Forall_hyps.
    apply decode_four; (done || lia).
Qed.

(** Only the first [count] bytes are looked at. *)
Lemma decode_take source count : (count = 2 \/ count = 3 \/ count = 4)%nat ->
  decodeNonASCIISequence (take count source) count = decodeNonASCIISequence source count.
Proof.
  intros Hc. destruct Hc as [->|[->| ->]]; do 4 (destruct source as [|? source]; [done|]); done.
Qed.

(** ** Words *)

Lemma land_words b w m1 m : isByte b -> isByte m1 ->
  Z.land (b + 256 * w) (m1 + 256 * m) = 0 -> Z.land b m1 = 0 /\ Z.land w m = 0.
Proof.
  unfold isByte. intros Hb Hm H. split.
  - assert (E : Z.land (Z.land (b + 256 * w) (m1 + 256 * m)) 255 = 0) by (rewrite H; done).
    rewrite <- (Z.land_diag 255) in E at 1.
    replace (Z.land (Z.land (b + 256 * w) (m1 + 256 * m)) (Z.land 255 255))
      with (Z.land (Z.land (b + 256 * w) 255) (Z.land (m1 + 256 * m) 255)) in E.
    + rewrite !(land_low _ 8 255) in E by (done || lia). change (2 ^ 8) with 256 in E.
      rewrite !(Z.mul_comm 256), !Z.mod_add, !Z.mod_small in E by lia. done.
    + apply Z.bits_inj'. intros i _. rewrite !Z.land_spec.
      by destruct (Z.testbit (b + 256 * w) i), (Z.testbit (m1 + 256 * m) i), (Z.testbit 255 i).
  - assert (E : Z.shiftr (Z.land (b + 256 * w) (m1 + 256 * m)) 8 = 0) by (rewrite H; done).
    rewrite Z.shiftr_land, !Z.shiftr_div_pow2 in E by lia. change (2 ^ 8) with 256 in E.
    rewrite !(Z.mul_comm 256), !Z.div_add, !Z.div_small in E by lia. done.
Qed.

Definition word (l : list Z) : Z := foldr (fun b w => b + 256 * w) 0 l.

Lemma word_ascii l : Forall isByte l -> Z.land (word l) (word (replicate (length l) 128)) = 0 ->
  forallb isASCII l = true.
Proof.
  induction 1 as [|b l Hb Hl IH]; [done|]. cbn [length replicate word foldr]. intros H.
  apply land_words in H as [H1 H2]; [|done|unfold isByte; lia]. cbn [forallb]. rewrite IH by done.
  rewrite andb_true_r. unfold isASCII, isByte in *. apply Z.ltb_lt.
  assert (F : forallb (fun b => negb (Z.land b 128 =? 0)) (seqZ 128 128) = true) by (vm_compute; reflexivity).
  destruct (Z.lt_ge_cases b 128); [done|].
  pose proof (forall_range _ _ _ F b ltac:(lia)) as G. cbv beta in G. by rewrite H1 in G.
Qed.

Lemma machineWord_ascii source : Forall isByte source -> (wordSize <= length source)%nat ->
  isAllASCII (machineWord source) = true -> forallb isASCII (take wordSize source) = true.
Proof.
  intros Hs Hl H. apply Z.eqb_eq in H. apply word_ascii; [by apply Forall_take|].
  rewrite length_take_le by done. exact H.
Qed.

(** ** Copying ASCII *)

Lemma aligned_spec p : isAlignedToMachineWord p = true <-> p mod 8 = 0.
Proof.
  unfold isAlignedToMachineWord, machineWordAlignmentMask. rewrite (land_low _ 3) by (done || lia).
  apply Z.eqb_eq.
Qed.

Lemma alignTo_spec p : alignToMachineWord p = p / 8 * 8.
Proof.
  unfold alignToMachineWord, machineWordAlignmentMask. rewrite <- Z.ldiff_land.
  change 7 with (Z.ones 3). by rewrite Z.ldiff_ones_r, Z.shiftl_mul_pow2, Z.shiftr_div_pow2 by lia.
Qed.

Section Copy.
Context (endAddress : Z).

(** The output and the input after some bytes below 128 were copied. *)
Definition copied (destination source : list Z) (n : nat) (r : list Z * list Z) : Prop :=
  (n <= length source)%nat /\ forallb isASCII (take n source) = true /\
  r = (destination ++ take n source, drop n source).

Lemma copied_trans d s n r m r' : copied d s n r -> copied r.1 r.2 m r' -> copied d s (n + m) r'.
Proof.
  intros (Hn & Ha & ->) (Hm & Hb & ->). simpl in *. rewrite length_drop in Hm.
  split; [lia|]. split.
  - rewrite <- take_take_drop, forallb_app, Ha. done.
  - by rewrite <- app_assoc, take_take_drop, drop_drop.
Qed.

Lemma copyASCIIWords_ok fuel : forall destination source,
  (length source < fuel)%nat -> Forall isByte source -> addressOf endAddress source mod 8 = 0 ->
  exists n r, copyASCIIWords endAddress fuel destination source = Some r /\ copied destination source n r.
Proof.
  induction fuel as [|fuel IH]; intros destination source Hf Hs Ha; [lia|]. cbn [copyASCIIWords].
  rewrite alignTo_spec.
  assert (Hstop : copied destination source 0 (destination, source)).
  { split; [lia|]. split; [done|]. by rewrite take_0, drop_0, app_nil_r. }
  destruct (Z.ltb_spec (addressOf endAddress source) (endAddress / 8 * 8)) as [Hlt|]; [|eauto].
  assert (H8 : (wordSize <= length source)%nat).
  { unfold addressOf, wordSize in *. divisions. lia. }
  rewrite (proj2 (Nat.leb_le _ _) H8).
  destruct (isAllASCII (machineWord source)) eqn:Hw; [|eauto].
  destruct (IH (destination ++ take wordSize source) (drop wordSize source)) as (n & r & -> & Hr).
  { rewrite length_drop. unfold wordSize in *. lia. } { by apply Forall_drop. }
  { unfold addressOf in *. rewrite length_drop, Nat2Z.inj_sub by done.
    replace (endAddress - (Z.of_nat (length source) - Z.of_nat wordSize))
      with (endAddress - Z.of_nat (length source) + 1 * 8) by (unfold wordSize; lia).
    by rewrite Z.mod_add. }
  exists (wordSize + n)%nat, r. split; [done|].
  apply (copied_trans _ _ _ (destination ++ take wordSize source, drop wordSize source)); [|done].
  split; [done|]. split; [by apply machineWord_ascii|done].
Qed.

Lemma copyASCII_ok destination b source : isASCII b = true -> Forall isByte (b :: source) ->
  exists n r, copyASCII endAddress destination (b :: source) = Some r /\
    copied destination (b :: source) n r /\ (0 < n)%nat.
Proof.
  intros Hb Hs. unfold copyASCII.
  assert (Hone : forall d c rest, isASCII c = true -> copied d (c :: rest) 1 (d ++ [c], rest)).
  { intros d c rest Hc. split; [simpl; lia|]. cbn. by rewrite Hc. }
  destruct (isAlignedToMachineWord _) eqn:Ha;
    [|exists 1%nat; eexists; split; [done|]; split; [by apply Hone|lia]].
  apply aligned_spec in Ha.
  destruct (copyASCIIWords_ok (S (length (b :: source))) destination (b :: source)) as (n & r & -> & Hr);
    [lia|done|done|]. pose proof Hr as (Hn & Hall & Er). subst r.
  destruct (drop n (b :: source)) as [|c rest] eqn:Ed.
  - exists n. eexists. split; [done|]. split; [done|].
    destruct n; [done|lia].
  - destruct (isASCII c) eqn:Hc.
    + exists (n + 1)%nat. eexists. split; [done|]. split; [|lia].
      apply (copied_trans _ _ _ _ _ _ Hr). simpl. by apply Hone.
    + exists n. eexists. split; [done|]. split; [done|]. destruct n; [|lia].
      injection Ed as -> _. by rewrite Hc in Hb.
Qed.

End Copy.

(** * The loops *)

(** ** Progress *)

(** [source] was read up to [tail], with the output [out]. *)
Definition runs (source out : list Z) (err : bool) (tail : list Z) : Prop :=
  forall more o e, decodes (tail ++ more) o e -> decodes (source ++ more) (out ++ o) (err || e).

Lemma runs_refl s : runs s [] false s.
Proof. intros more o e H. done. Qed.

Lemma runs_trans s o1 e1 t o2 e2 u :
  runs s o1 e1 t -> runs t o2 e2 u -> runs s (o1 ++ o2) (e1 || e2) u.
Proof.
  intros H1 H2 more o e H. rewrite <- app_assoc, <- orb_assoc. by apply H1, H2.
Qed.

Lemma runs_char c l : isScalarValue c = true -> runs (utf8 c ++ l) (utf16 c) false l.
Proof. intros Hc more o e H. rewrite <- app_assoc. by apply decodes_char. Qed.

Lemma runs_error b l : illFormed (b :: l) -> runs (b :: l) [0xFFFD] true l.
Proof. intros Hb more o e H. apply (decodes_error _ _ _ e); [|done]. by apply Hb. Qed.

Lemma ascii_scalar b : isByte b -> isASCII b = true -> isScalarValue b = true /\ utf8 b = [b] /\ utf16 b = [b].
Proof.
  unfold isByte, isASCII. intros Hb Ha. apply Z.ltb_lt in Ha. rewrite isScalarValue_spec. split; [lia|].
  unfold utf8, utf16. destruct (Z.ltb_spec b 0x80), (Z.ltb_spec b 0x10000); lia || done.
Qed.

Lemma runs_ascii l tail : Forall isByte l -> forallb isASCII l = true -> runs (l ++ tail) l false tail.
Proof.
  intros Hl Ha. induction Hl as [|b l Hb Hl IH]; [apply runs_refl|]. cbn [forallb] in Ha.
  apply andb_prop in Ha as [Ha1 Ha2]. destruct (ascii_scalar b Hb Ha1) as (Hs & E8 & E16).
  pose proof (runs_char b (l ++ tail) Hs) as H1. rewrite E8, E16 in H1.
  apply (runs_trans _ _ _ _ _ _ _ H1 (IH Ha2)).
Qed.

Lemma runs_done s out err : runs s out err [] -> decodes s out err.
Proof.
  intros H. specialize (H [] [] false decodes_nil). by rewrite !app_nil_r, orb_false_r in H.
Qed.

(** ** The codec *)

Record codecOK (k : Codec) : Prop := {
  ok_array : length (m_partialSequence k) = U8_MAX_LENGTH;
  ok_bytes : Forall isByte (m_partialSequence k);
  ok_size : (m_partialSequenceSize k <= U8_MAX_LENGTH)%nat
}.

(** The bytes that are kept. *)
Definition pending (k : Codec) : list Z := take (m_partialSequenceSize k) (m_partialSequence k).

(** The kept bytes are the beginning of a sequence, or there are none. *)
Definition waiting (k : Codec) : Prop :=
  m_partialSequenceSize k = 0%nat \/
  exists b, m_partialSequence k !! 0%nat = Some b /\ 128 <= b /\
    (m_partialSequenceSize k < nonASCIISequenceLength b)%nat.

Lemma sequenceLength_le b : (nonASCIISequenceLength b <= 4)%nat.
Proof.
  unfold nonASCIISequenceLength. destruct (lengths !! Z.to_nat b) as [n|] eqn:E; [|simpl; lia].
  simpl. assert (H : Forall (fun n => n <= 4)%nat lengths) by (repeat constructor; lia).
  by apply (Forall_lookup_1 _ _ _ _ H E).
Qed.

Lemma sequenceLength_cases b : 128 <= b < 256 ->
  nonASCIISequenceLength b = 0%nat \/ (2 <= nonASCIISequenceLength b <= 4)%nat.
Proof. intros Hb. rewrite sequenceLength_spec by done. repeat split_if; lia. Qed.

(** What [memcpy] leaves in the array. *)
Lemma fill_ok source n k :
  codecOK k -> Forall isByte source -> (n <= length source)%nat ->
  (m_partialSequenceSize k + n <= U8_MAX_LENGTH)%nat ->
  exists k', fillPartialSequence source n k = Some k' /\ codecOK k' /\
    m_partialSequenceSize k' = (m_partialSequenceSize k + n)%nat /\
    pending k' = pending k ++ take n source.
Proof.
  intros [Hl Hb Hs] Hsrc Hn Hroom. unfold fillPartialSequence.
  rewrite (proj2 (Nat.leb_le _ _) Hroom), (proj2 (Nat.leb_le _ _) Hn). cbn [andb].
  eexists. split; [done|]. split; [split|split]; cbn [m_partialSequence m_partialSequenceSize].
  - rewrite !length_app, length_drop, !length_take. lia.
  - apply Forall_app; split; [by apply Forall_take|].
    apply Forall_app; split; [by apply Forall_take|by apply Forall_drop].
  - done.
  - done.
  - unfold pending. cbn [m_partialSequence m_partialSequenceSize]. rewrite app_assoc, take_app_length'; [done|].
    rewrite length_app, !length_take. lia.
Qed.

Lemma consume_ok k : codecOK k -> (0 < m_partialSequenceSize k)%nat ->
  codecOK (consumePartialSequenceByte k) /\
  m_partialSequenceSize (consumePartialSequenceByte k) = (m_partialSequenceSize k - 1)%nat /\
  pending (consumePartialSequenceByte k) = tail (pending k).
Proof.
  intros [Hl Hb Hs] Hn. unfold consumePartialSequenceByte, pending.
  destruct k as [arr size]. cbn [m_partialSequence m_partialSequenceSize] in *. split; [split|split].
  - cbn. rewrite length_app, length_take, !length_drop. lia.
  - cbn. apply Forall_app; split; [by apply Forall_take, Forall_drop|by apply Forall_drop].
  - cbn. lia.
  - done.
  - destruct size as [|n]; [lia|]. cbn [Nat.sub]. rewrite Nat.sub_0_r.
    rewrite take_app_length' by (rewrite length_take, length_drop; lia).
    destruct arr as [|a arr]; [by destruct n|]. done.
Qed.

Lemma pending_head k : codecOK k -> (0 < m_partialSequenceSize k)%nat ->
  exists b r, m_partialSequence k !! 0%nat = Some b /\ pending k = b :: r /\ isByte b /\ Forall isByte r /\
    length r = (m_partialSequenceSize k - 1)%nat.
Proof.
  intros [Hl Hb Hs] Hn. unfold pending. destruct k as [arr size]. cbn in *.
  destruct arr as [|b arr]; [done|]. destruct size as [|n]; [lia|]. exists b, (take n arr).
  inversion Hb; subst. split_and!; [done|done|done|by apply Forall_take|]. cbn in Hl. rewrite length_take. lia.
Qed.

(** ** One character *)

Lemma appendCharacter_ok destination c : isScalarValue c = true ->
  appendCharacter destination c = Some (destination ++ utf16 c).
Proof.
  rewrite isScalarValue_spec. intros [Hc Hs]. unfold appendCharacter, nonCharacter.
  destruct (Z.eqb_spec c (-1)); [lia|]. rewrite U_IS_SURROGATE_spec by lia.
  destruct (Z.leb_spec 0xD800 c), (Z.leb_spec c 0xDFFF); cbn [andb negb]; try lia;
  rewrite U_IS_BMP_spec by lia; do 2 f_equal; unfold utf16;
  destruct (Z.ltb_spec c 0x10000); try (by rewrite uwrap_id by lia);
  rewrite lead_trail by lia; unfold utf16; by destruct (Z.ltb_spec c 0x10000); [lia|].
Qed.

Lemma characterAt_ok b l : 128 <= b -> Forall isByte (b :: l) ->
  (characterAt (b :: l) (nonASCIISequenceLength b) = Some None /\
   (length (b :: l) < nonASCIISequenceLength b)%nat) \/
  exists c, characterAt (b :: l) (nonASCIISequenceLength b) = Some (Some c) /\
    decodedAt (b :: l) (nonASCIISequenceLength b) c /\
    (nonASCIISequenceLength b <= length (b :: l))%nat.
Proof.
  intros Hb Hl. assert (Hbyte : isByte b) by (by inversion Hl). unfold isByte in Hbyte.
  unfold characterAt. destruct (Nat.eqb_spec (nonASCIISequenceLength b) 0) as [E|E].
  { right. eexists. split; [done|]. split; [|rewrite E; simpl; lia]. left. split; [done|].
    apply illFormed_no_length; (done || lia). }
  destruct (Nat.ltb_spec (length (b :: l)) (nonASCIISequenceLength b)); [by left|right].
  destruct (decode_sequence b l Hb Hl E ltac:(lia)) as (c & -> & Hc). eauto.
Qed.

(** A decoded character is read, and is not longer than its bytes. *)
Lemma decoded_runs source n c : isScalarValue c = true -> take n source = utf8 c ->
  runs source (utf16 c) false (drop n source) /\ (length (utf16 c) + length (drop n source) <= length source)%nat.
Proof.
  intros Hc E. pose proof (take_drop n source) as T. rewrite E in T. split.
  - rewrite <- T at 1. by apply runs_char.
  - apply (f_equal length) in T. rewrite length_app in T. pose proof (utf16_short c). lia.
Qed.

Lemma scalar_not_nonCharacter c : isScalarValue c = true -> (c =? nonCharacter) = false.
Proof. rewrite isScalarValue_spec. intros H. apply Z.eqb_neq. unfold nonCharacter. lia. Qed.

Lemma keep_ok b l k : codecOK k -> m_partialSequenceSize k = 0%nat -> Forall isByte (b :: l) -> 128 <= b ->
  (length (b :: l) < nonASCIISequenceLength b)%nat ->
  exists k', keepPartialSequence (b :: l) k = Some k' /\ codecOK k' /\ waiting k' /\
    m_partialSequenceSize k' = length (b :: l) /\ pending k' = b :: l.
Proof.
  intros Hk H0 Hl Hb Hlen. pose proof (sequenceLength_le b). unfold keepPartialSequence, U8_MAX_LENGTH.
  destruct (Nat.ltb_spec (length (b :: l)) 4); [|lia]. rewrite H0. cbn [Nat.eqb].
  destruct (fill_ok (b :: l) (length (b :: l)) k Hk Hl) as (k' & -> & Hk' & Es & Ep);
    [lia|unfold U8_MAX_LENGTH; lia|].
  rewrite H0 in Es. unfold pending in Ep at 2. rewrite H0 in Ep. cbn [take app] in Ep. rewrite firstn_all in Ep.
  exists k'. split_and!; [done|done| |done|done]. right.
  destruct (pending_head k' Hk' ltac:(rewrite Es; simpl; lia)) as (b' & r & E1 & E2 & _).
  rewrite Ep in E2. injection E2 as <- _. exists b. split_and!; [done|done|]. rewrite Es. lia.
Qed.

Section Loops.
Context (endAddress : Z).

(** The 16-bit loop: without [stopOnError] it reads the whole input. *)
Lemma decodeLoop16_ok fuel : forall stopOnError sawError k destination source,
  (length source < fuel)%nat -> codecOK k -> m_partialSequenceSize k = 0%nat -> Forall isByte source ->
  exists out err k' source',
    decodeLoop16 endAddress fuel stopOnError sawError k destination source
      = Some (k', sawError || err, destination ++ out, source') /\
    codecOK k' /\ waiting k' /\ (length out + m_partialSequenceSize k' <= length source)%nat /\
    (m_partialSequenceSize k' <> 0%nat -> source' = []) /\
    (stopOnError = false -> source' = [] /\ runs source out err (pending k')).
Proof.
  induction fuel as [|fuel IH]; intros stopOnError sawError k destination source Hf Hk H0 Hs; [lia|].
  cbn [decodeLoop16]. destruct source as [|b l].
  { exists [], false, k, []. rewrite orb_false_r, app_nil_r. split; [done|].
    split; [done|]. split; [by left|]. rewrite H0. split; [done|]. split; [done|]. intros _. split; [done|].
    unfold pending. rewrite H0. apply runs_refl. }
  assert (Hbyte : isByte b) by (by inversion Hs). destruct (isASCII b) eqn:Ha.
  - destruct (copyASCII_ok endAddress destination b l Ha Hs) as (n & r & -> & (Hn & Hall & ->) & Hpos).
    destruct (IH stopOnError sawError k (destination ++ take n (b :: l)) (drop n (b :: l)))
      as (out & err & k' & s' & E & Hk' & Hw & Hlen & Hz & Hrun); [|done|done|by apply Forall_drop|].
    { rewrite length_drop. lia. }
    rewrite E. exists (take n (b :: l) ++ out), err, k', s'. rewrite <- app_assoc. split; [done|].
    split; [done|]. split; [done|]. rewrite length_app, length_take_le by done. rewrite length_drop in Hlen.
    split; [lia|]. split; [done|]. intros Hst. destruct (Hrun Hst) as [-> Hr]. split; [done|].
    rewrite <- (take_drop n (b :: l)) at 1. change err with (false || err).
    apply (runs_trans _ _ _ (drop n (b :: l))); [|done].
    apply runs_ascii; [by apply Forall_take|done].
  - assert (Hb : 128 <= b) by (unfold isASCII in Ha; by apply Z.ltb_ge in Ha).
    destruct (characterAt_ok b l Hb Hs) as [[-> Hlen]|(c & -> & Hc & Hlen)].
    + destruct (keep_ok b l k Hk H0 Hs Hb Hlen) as (k' & -> & Hk' & Hw & Es & Ep).
      exists [], false, k', []. rewrite orb_false_r, app_nil_r, Es. split_and!; try done.
      intros _. split; [done|]. rewrite Ep. apply runs_refl.
    + destruct Hc as [[-> Hill]|(Hc & Hc80 & E)].
      * change (nonCharacter =? nonCharacter) with true. destruct stopOnError.
        { exists [], true, k, (b :: l). rewrite orb_true_r, app_nil_r. split_and!; try done; [by left|..].
          rewrite H0. simpl. lia. }
        destruct (IH false true k (destination ++ [replacementCharacter]) l)
          as (out & err & k' & s' & E & Hk' & Hw & Hl & Hz & Hrun); [simpl in Hf; lia|done|done|by inversion Hs|].
        rewrite E. exists (replacementCharacter :: out), true, k', s'. rewrite <- app_assoc, orb_true_r.
        split; [done|]. split; [done|]. split; [done|]. split; [simpl; lia|]. split; [done|].
        intros Hst. destruct (Hrun Hst) as [-> Hr]. split; [done|].
        apply (runs_trans _ [0xFFFD] true l _ err); [by apply runs_error|done].
      * rewrite scalar_not_nonCharacter, appendCharacter_ok by done.
        destruct (decoded_runs _ _ _ Hc E) as [Hr1 Hl1].
        pose proof (utf16_short c) as Hu.
        destruct (IH stopOnError sawError k (destination ++ utf16 c) (drop (nonASCIISequenceLength b) (b :: l)))
          as (out & err & k' & s' & E' & Hk' & Hw & Hl & Hz & Hrun); [lia|done|done|by apply Forall_drop|].
        rewrite E'. exists (utf16 c ++ out), err, k', s'. rewrite <- app_assoc. split; [done|].
        split; [done|]. split; [done|]. rewrite length_app. split; [lia|]. split; [done|].
        intros Hst. destruct (Hrun Hst) as [-> Hr]. split; [done|].
        change err with (false || err). by apply (runs_trans _ _ _ (drop (nonASCIISequenceLength b) (b :: l))).
Qed.

(** What the 8-bit loop may return: it is left at the first character that needs
    16 bits and at the first error. *)
Definition loop8OK (stopOnError sawError : bool) (destination source : list Z)
  (r : option (Left8 * Codec * bool * list Z * list Z)) : Prop :=
  exists left out err k' source',
    r = Some (left, k', sawError || err, destination ++ out, source') /\
    codecOK k' /\ waiting k' /\ Forall isByte source' /\
    (length out + m_partialSequenceSize k' + length source' <= length source)%nat /\
    match left with
    | Finished => (m_partialSequenceSize k' <> 0%nat -> source' = []) /\
        (stopOnError = false -> source' = [] /\ err = false /\ runs source out false (pending k'))
    | UpConvert => m_partialSequenceSize k' = 0%nat /\ runs source out false source' /\
        (err = true -> illFormed source')
    end.

Lemma loop8OK_step stopOnError sawError destination source o1 rest r :
  (length o1 + length rest <= length source)%nat -> runs source o1 false rest ->
  loop8OK stopOnError sawError (destination ++ o1) rest r ->
  loop8OK stopOnError sawError destination source r.
Proof.
  intros Hlen Hr1 (left & out & err & k' & s' & -> & Hk' & Hw & Hs' & Hl' & Hm).
  exists left, (o1 ++ out), err, k', s'. rewrite <- app_assoc, length_app.
  do 4 (split; [done|]). split; [lia|]. destruct left.
  - destruct Hm as [Hz Hm]. split; [done|]. intros Hst. destruct (Hm Hst) as (-> & -> & Hr).
    split_and!; [done|done|]. apply (runs_trans _ _ false _ _ false _ Hr1 Hr).
  - destruct Hm as (Hz & Hr & Hill). split; [done|]. split; [|done].
    apply (runs_trans _ _ false _ _ false _ Hr1 Hr).
Qed.

Lemma decodeLoop8_ok fuel : forall stopOnError sawError k destination source,
  (length source < fuel)%nat -> codecOK k -> m_partialSequenceSize k = 0%nat -> Forall isByte source ->
  loop8OK stopOnError sawError destination source
    (decodeLoop8 endAddress fuel stopOnError sawError k destination source).
Proof.
  induction fuel as [|fuel IH]; intros stopOnError sawError k destination source Hf Hk H0 Hs; [lia|].
  cbn [decodeLoop8]. destruct source as [|b l].
  { exists Finished, [], false, k, []. rewrite orb_false_r, app_nil_r, H0. split_and!; try done; [by left|].
    intros _. split_and!; [done|done|]. unfold pending. rewrite H0. apply runs_refl. }
  assert (Hbyte : isByte b) by (by inversion Hs). destruct (isASCII b) eqn:Ha.
  - destruct (copyASCII_ok endAddress destination b l Ha Hs) as (n & r & -> & (Hn & Hall & ->) & Hpos).
    apply (loop8OK_step _ _ _ _ (take n (b :: l)) (drop n (b :: l))).
    + rewrite length_take_le, length_drop by done. lia.
    + rewrite <- (take_drop n (b :: l)) at 1. apply runs_ascii; [by apply Forall_take|done].
    + apply IH; try done; [rewrite length_drop; lia|by apply Forall_drop].
  - assert (Hb : 128 <= b) by (unfold isASCII in Ha; by apply Z.ltb_ge in Ha).
    destruct (characterAt_ok b l Hb Hs) as [[-> Hlen]|(c & -> & Hc & Hlen)].
    + destruct (keep_ok b l k Hk H0 Hs Hb Hlen) as (k' & -> & Hk' & Hw & Es & Ep).
      exists Finished, [], false, k', []. rewrite orb_false_r, app_nil_r, Es. split_and!; try done.
      * simpl. lia.
      * intros _. split_and!; [done|done|]. rewrite Ep. apply runs_refl.
    + destruct Hc as [[-> Hill]|(Hc & Hc80 & E)].
      * change (nonCharacter =? nonCharacter) with true. cbv iota.
        exists (if stopOnError then Finished else UpConvert), [], true, k, (b :: l).
        rewrite orb_true_r, app_nil_r, H0. split_and!; try done; [by left|].
        destruct stopOnError; [done|]. split; [done|]. split; [apply runs_refl|done].
      * rewrite scalar_not_nonCharacter by done. destruct (Z.ltb_spec 0xFF c) as [Hbig|Hsmall].
        { exists UpConvert, [], false, k, (b :: l). rewrite orb_false_r, app_nil_r, H0.
          split_and!; try done; [by left|]. apply runs_refl. }
        destruct (decoded_runs _ _ _ Hc E) as [Hr1 Hl1].
        assert (E16 : utf16 c = [c]) by (unfold utf16; by destruct (Z.ltb_spec c 0x10000); [|lia]).
        rewrite E16 in Hr1, Hl1. apply (loop8OK_step _ _ _ _ _ _ _ Hl1 Hr1).
        apply IH; try done; [simpl in *; lia|by apply Forall_drop].
Qed.

End Loops.
