(* ===== verification/TextCodecUTF8Partial.v ===== *)
(** * The partial sequence of the UTF-8 decoder

    What the two versions of [handlePartialSequence] do with the bytes that were
    kept from the previous call. *)
From S2P Require Import Prelude Unicode TextCodecUTF8 TextCodecUTF8Facts.
From stdpp Require Import base list numbers option.
From Stdlib Require Import ZArith Lia.
#[local] Open Scope Z_scope.
Import TextCodecUTF8.

#[local] Abbreviation size := m_partialSequenceSize.

(** The kept bytes begin with an error at which [stopOnError] has stopped. *)
Definition stuck (k : Codec) : Prop :=
  size k <> 0%nat /\
  exists b, m_partialSequence k !! 0%nat = Some b /\ 128 <= b /\
    (nonASCIISequenceLength b = 0%nat \/
     (nonASCIISequenceLength b <= size k)%nat /\
     decodeNonASCIISequence (m_partialSequence k) (nonASCIISequenceLength b) = Some nonCharacter).

(** The kept bytes are one sequence of full length. *)
Definition complete (k : Codec) : Prop :=
  exists b, m_partialSequence k !! 0%nat = Some b /\ 128 <= b /\
    nonASCIISequenceLength b = size k /\ size k <> 0%nat.

Lemma pending_length k : codecOK k -> length (pending k) = size k.
Proof. intros [Hl Hb Hs]. unfold pending. rewrite length_take. lia. Qed.

(** Decoding in the array is decoding the kept bytes, whatever follows. *)
Lemma decode_pending k b r rest :
  codecOK k -> pending k = b :: r -> 128 <= b -> nonASCIISequenceLength b <> 0%nat ->
  (nonASCIISequenceLength b <= size k)%nat -> Forall isByte rest ->
  exists c, decodeNonASCIISequence (m_partialSequence k) (nonASCIISequenceLength b) = Some c /\
    decodedAt (pending k ++ rest) (nonASCIISequenceLength b) c.
Proof.
  intros Hk Ep H128 H0 Hn Hrest.
  pose proof (pending_length k Hk) as Hlen. destruct Hk as [Hl Hb Hs].
  assert (Hp : Forall isByte (pending k ++ rest)).
  { apply Forall_app; split; [|done]. unfold pending. by apply Forall_take. }
  assert (Hbyte : isByte b) by (rewrite Ep in Hp; by inversion Hp). unfold isByte in Hbyte.
  rewrite Ep in Hp |- *. cbn [app] in Hp |- *.
  destruct (decode_sequence b (r ++ rest) H128 Hp H0) as (c & E & Hc).
  { rewrite Ep in Hlen. cbn in *. rewrite length_app. lia. }
  exists c. split; [|done]. rewrite <- E.
  assert (Hcount : (nonASCIISequenceLength b = 2 \/ nonASCIISequenceLength b = 3 \/ nonASCIISequenceLength b = 4)%nat)
    by (pose proof (sequenceLength_cases b ltac:(lia)); lia).
  rewrite <- (decode_take (m_partialSequence k) _ Hcount), <- (decode_take (b :: r ++ rest) _ Hcount). f_equal.
  change (b :: r ++ rest) with ((b :: r) ++ rest). rewrite <- Ep, take_app_le by lia.
  unfold pending. by rewrite take_take, Nat.min_l by done.
Qed.

Lemma skip_ok k n : codecOK k -> codecOK (mkCodec (m_partialSequence k) (size k - n)).
Proof. intros [Hl Hb Hs]. split; cbn; [done|done|lia]. Qed.

(** ** The 8-bit handler *)

Definition partial8OK (flush : bool) (k : Codec) (destination source : list Z)
  (r : option (bool * Codec * list Z * list Z)) : Prop :=
  exists up k' out source', r = Some (up, k', destination ++ out, source') /\
    codecOK k' /\ Forall isByte source' /\
    ((up = true /\ out = [] /\ size k' <> 0%nat /\ exists n, (n <= length source)%nat /\
        source' = drop n source /\ pending k' = pending k ++ take n source /\
        (k' = k /\ n = 0%nat /\ (flush = true \/ stuck k) \/ complete k')) \/
     (up = false /\ size k' = 0%nat /\ (length out + length source' <= length source)%nat /\
        runs (pending k ++ source) out false source') \/
     (up = false /\ flush = false /\ out = [] /\ size k' <> 0%nat /\ waiting k' /\ source' = source /\
        pending k' = pending k ++ source)).

(** Filling up a sequence keeps its first byte. *)
Lemma fill_head k k' b r more :
  codecOK k' -> pending k = b :: r -> pending k' = pending k ++ more ->
  m_partialSequence k' !! 0%nat = Some b.
Proof.
  intros Hk' Ep Ep'. rewrite Ep in Ep'.
  assert (Hs : (0 < size k')%nat).
  { destruct (size k') eqn:E; [|lia]. unfold pending in Ep'. by rewrite E in Ep'. }
  destruct (pending_head k' Hk' Hs) as (b' & r' & E & Ep2 & _).
  rewrite Ep' in Ep2. cbn in Ep2. congruence.
Qed.

(** The three ends of a round: to go on with wide characters at once, with the sequence
    filled up, or with a narrow character. *)
Lemma partial8_up flush k destination source : codecOK k -> size k <> 0%nat -> Forall isByte source ->
  flush = true \/ stuck k -> partial8OK flush k destination source (Some (true, k, destination, source)).
Proof.
  intros Hk H0 Hs Hf. exists true, k, [], source. rewrite app_nil_r. split_and!; try done. left.
  split_and!; try done. exists 0%nat. rewrite drop_0, take_0, app_nil_r. split_and!; [lia|done|done|by left].
Qed.

Lemma partial8_filled flush k k' n destination source : codecOK k' -> Forall isByte source -> size k <> 0%nat -> (n <= length source)%nat ->
  size k' = (size k + n)%nat -> pending k' = pending k ++ take n source -> complete k' ->
  partial8OK flush k destination source (Some (true, k', destination, drop n source)).
Proof.
  intros Hk' Hs H0 Hn Es Ep Hb. exists true, k', [], (drop n source). rewrite app_nil_r. split_and!; try done; [by apply Forall_drop|]. left.
  split_and!; try done; [lia|]. exists n. split_and!; try done. by right.
Qed.

Lemma partial8_char flush k k' n c destination source : codecOK k' -> Forall isByte source -> size k <> 0%nat -> (0 < n <= length source)%nat ->
  size k' = (size k + n)%nat -> pending k' = pending k ++ take n source ->
  isScalarValue c = true -> c <= 255 -> take (size k') (pending k' ++ drop n source) = utf8 c ->
  partial8OK flush k destination source (Some (false, mkCodec (m_partialSequence k') 0, destination ++ [c], drop n source)).
Proof.
  intros Hk' Hs H0 Hn Es Ep Hc Hsmall Et. exists false. eexists. exists [c], (drop n source). split; [done|]. split; [|split; [by apply Forall_drop|]].
  { pose proof (skip_ok k' (size k') Hk') as Hsk. by rewrite Nat.sub_diag in Hsk. }
  right; left. split; [done|]. split; [done|]. rewrite length_drop. split; [simpl; lia|].
  destruct (decoded_runs _ _ _ Hc Et) as [Hr1 _].
  assert (E16 : utf16 c = [c]) by (unfold utf16; by destruct (Z.ltb_spec c 0x10000); [|lia]).
  rewrite E16 in Hr1. rewrite <- (pending_length _ Hk') in Hr1. by rewrite drop_app_length, Ep, <- app_assoc, take_drop in Hr1.
Qed.

Lemma handlePartialSequence8_ok fuel flush k destination source :
  codecOK k -> size k <> 0%nat -> waiting k \/ stuck k -> Forall isByte source ->
  partial8OK flush k destination source (handlePartialSequence8 (S fuel) flush k destination source).
Proof.
  intros Hk H0 Hinv Hs. cbn [handlePartialSequence8]. unfold partialRound8, decodePartial8.
  destruct (pending_head k Hk ltac:(lia)) as (b & r & E & Ep & Hbyte & Hr & Hlr).
  unfold byteAt at 1. rewrite E. unfold isByte in Hbyte.
  assert (Hb : 128 <= b).
  { destruct Hinv as [[?|(b' & E' & ? & _)]|(_ & b' & E' & ? & _)]; [lia|congruence..]. }
  unfold isASCII. destruct (Z.ltb_spec b 128); [lia|].
  pose proof (partial8_up flush k destination source Hk H0 Hs) as Hup.
  destruct (Nat.eqb_spec (nonASCIISequenceLength b) 0) as [Hc0|Hc0].
  { apply Hup. right. split; [done|]. exists b. eauto. }
  pose proof (sequenceLength_le b) as H4.
  destruct (Nat.ltb_spec (size k) (nonASCIISequenceLength b)) as [Hlt|Hge].
  2:{ destruct Hinv as [[?|(b' & E' & _ & Hlt)]|(_ & b' & E' & _ & Hst)]; [lia|..];
        assert (b' = b) by congruence; subst b'; [lia|].
      destruct Hst as [?|[_ Hd]]; [lia|]. rewrite Hd.
      change (nonCharacter =? nonCharacter) with true. cbn [orb]. apply Hup. right. split; [done|]. exists b. eauto. }
  destruct (Nat.ltb_spec (length source) (nonASCIISequenceLength b - size k)) as [Hshort|Hlong].
  - destruct flush; cbn [negb]; [by apply Hup; left|].
    destruct (fill_ok source (length source) k Hk Hs ltac:(lia)) as (k' & -> & Hk' & Es & Ep').
    { unfold U8_MAX_LENGTH. lia. }
    rewrite firstn_all in Ep'.
    exists false, k', [], source. rewrite app_nil_r. split_and!; try done. right; right.
    split_and!; try done; [lia|]. right. exists b. split; [by apply (fill_head k k' b r source)|].
    split; [done|]. lia.
  - destruct (fill_ok source (nonASCIISequenceLength b - size k) k Hk Hs Hlong) as (k' & -> & Hk' & Es & Ep').
    { unfold U8_MAX_LENGTH. lia. }
    pose proof (fill_head k k' b r _ Hk' Ep Ep') as E'.
    set (n := (nonASCIISequenceLength b - size k)%nat) in *.
    assert (Hsz : size k' = nonASCIISequenceLength b) by lia.
    assert (Ep2 : pending k' = b :: (r ++ take n source)) by (rewrite Ep', Ep; done).
    destruct (decode_pending k' b _ (drop n source) Hk' Ep2 Hb Hc0 ltac:(lia) ltac:(by apply Forall_drop))
      as (c & -> & Hc).
    assert (Hup2 : partial8OK flush k destination source (Some (true, k', destination, drop n source))).
    { apply partial8_filled; try done. exists b. split_and!; (done || lia). }
    destruct Hc as [[-> _]|(Hc & Hc80 & Et)]; [done|]. rewrite scalar_not_nonCharacter by done. cbn [orb].
    destruct (Z.ltb_spec 0xFF c) as [Hbig|Hsmall]; [done|]. cbn [size].
    rewrite Hsz, Nat.sub_diag. cbn [Nat.eqb].
    apply (partial8_char flush k k' n); try done; [lia|]. by rewrite Hsz.
Qed.

(** ** The 16-bit handler *)

(** What the rounds may return, for any kept bytes: they terminate, the output
    fits, and bytes that are left are the beginning of a sequence or an error. *)
Definition round16OK (sawError : bool) (k : Codec) (destination source : list Z) (r : option (Round bool))
  : Prop :=
  exists out err k' source', codecOK k' /\ Forall isByte source' /\
    ((r = Some (Return (sawError || err) k' (destination ++ out) source') /\ size k' <> 0%nat /\
      (waiting k' \/ stuck k') /\ out = [] /\ (length source' <= length source)%nat) \/
     (r = Some (Continue (sawError || err) k' (destination ++ out) source') /\
      (length out + size k' + length source' <= size k + length source)%nat /\ (0 < length out)%nat /\
      (length source' <= length source)%nat)).

Lemma error_round stopOnError sawError k k1 destination source source1 :
  codecOK k1 -> Forall isByte source1 -> size k1 <> 0%nat -> (length source1 <= length source)%nat ->
  (size k1 + length source1 <= size k + length source)%nat -> waiting k1 \/ stuck k1 ->
  round16OK sawError k destination source (Some (errorRound stopOnError k1 destination source1)).
Proof.
  intros Hk1 Hs1 Hz Hsrc Hm Hst. unfold errorRound, handleError. destruct stopOnError.
  - exists [], true, k1, source1. rewrite orb_true_r, app_nil_r. split; [done|]. split; [done|]. by left.
  - destruct (consume_ok k1 Hk1 ltac:(lia)) as (Hc1 & Hc2 & _).
    exists [replacementCharacter], true, (consumePartialSequenceByte k1), source1.
    rewrite orb_true_r. split; [done|]. split; [done|]. right. split; [done|]. rewrite Hc2. simpl. lia.
Qed.

Lemma decode_round stopOnError sawError k k1 destination source source1 b r1 :
  codecOK k1 -> Forall isByte source1 -> pending k1 = b :: r1 -> m_partialSequence k1 !! 0%nat = Some b ->
  128 <= b -> nonASCIISequenceLength b <> 0%nat ->
  (nonASCIISequenceLength b <= size k1)%nat -> (length source1 <= length source)%nat ->
  (size k1 + length source1 <= size k + length source)%nat ->
  round16OK sawError k destination source
    (decodePartial16 stopOnError sawError (nonASCIISequenceLength b) k1 destination source1).
Proof.
  intros Hk1 Hs1 Ep1 E1 Hb Hc0 Hle Hsrc Hm. unfold decodePartial16.
  destruct (decode_pending k1 b r1 [] Hk1 Ep1 Hb Hc0 Hle ltac:(done)) as (c & Ed & Hc). rewrite Ed.
  destruct Hc as [[-> _]|(Hc & Hc80 & Et)].
  - change (nonCharacter =? nonCharacter) with true. cbv iota. apply error_round; try done; [lia|].
    right. split; [lia|]. exists b. eauto.
  - rewrite scalar_not_nonCharacter, appendCharacter_ok by done.
    assert (Hu : (1 <= length (utf16 c) <= nonASCIISequenceLength b)%nat).
    { pose proof (utf16_short c). rewrite <- Et in H. rewrite length_take in H. lia. }
    exists (utf16 c), false. eexists. exists source1. rewrite orb_false_r.
    split; [apply (skip_ok k1 (nonASCIISequenceLength b) Hk1)|]. split; [done|]. right. split; [done|].
    cbn [size]. lia.
Qed.

Lemma partialRound16_ok flush stopOnError sawError k destination source :
  codecOK k -> size k <> 0%nat -> Forall isByte source ->
  round16OK sawError k destination source (partialRound16 flush stopOnError sawError k destination source).
Proof.
  intros Hk H0 Hs. unfold partialRound16.
  destruct (pending_head k Hk ltac:(lia)) as (b & r & E & Ep & Hbyte & Hr & Hlr).
  unfold byteAt at 1. rewrite E. unfold isByte in Hbyte. destruct (isASCII b) eqn:Ha.
  { destruct (consume_ok k Hk ltac:(lia)) as (Hc1 & Hc2 & _).
    exists [b], false, (consumePartialSequenceByte k), source. rewrite orb_false_r.
    split; [done|]. split; [done|]. right. split; [done|]. rewrite Hc2. simpl. lia. }
  assert (Hb : 128 <= b) by (unfold isASCII in Ha; by apply Z.ltb_ge in Ha).
  destruct (Nat.eqb_spec (nonASCIISequenceLength b) 0) as [Hc0|Hc0].
  { apply error_round; try done. right. split; [done|]. exists b. eauto. }
  pose proof (sequenceLength_le b) as H4.
  destruct (Nat.ltb_spec (size k) (nonASCIISequenceLength b)) as [Hlt|Hge]; [|by apply (decode_round _ _ _ _ _ _ _ _ r)].
  destruct (Nat.ltb_spec (length source) (nonASCIISequenceLength b - size k)) as [Hshort|Hlong].
  - destruct flush; cbn [negb]; [apply error_round; try done; left; right; eauto|].
    destruct (fill_ok source (length source) k Hk Hs ltac:(lia)) as (k' & -> & Hk' & Es & Ep').
    { unfold U8_MAX_LENGTH. lia. }
    exists [], false, k', source. rewrite orb_false_r, app_nil_r. split; [done|]. split; [done|]. left.
    split; [done|]. split; [lia|]. split; [|done]. left; right. exists b.
    split; [by apply (fill_head k k' b r (take (length source) source))|]. split; [done|]. lia.
  - destruct (fill_ok source (nonASCIISequenceLength b - size k) k Hk Hs Hlong) as (k' & -> & Hk' & Es & Ep').
    { unfold U8_MAX_LENGTH. lia. }
    apply (decode_round _ _ _ _ _ _ _ _ (r ++ take (nonASCIISequenceLength b - size k) source) Hk'); try done.
    + by apply Forall_drop.
    + by rewrite Ep', Ep.
    + by apply (fill_head k k' b r (take (nonASCIISequenceLength b - size k) source)).
    + lia.
    + rewrite length_drop. lia.
    + rewrite length_drop. lia.
Qed.

Definition partial16OK (sawError : bool) (k : Codec) (destination source : list Z)
  (r : option (Codec * bool * list Z * list Z)) : Prop :=
  exists out err k' source', r = Some (k', sawError || err, destination ++ out, source') /\
    codecOK k' /\ (waiting k' \/ stuck k') /\ Forall isByte source' /\ (length source' <= length source)%nat /\
    (length out + (if (size k' =? 0)%nat then length source' else 0) <= size k + length source)%nat.

Lemma handlePartialSequence16_total fuel : forall flush stopOnError sawError k destination source,
  (size k + length source < fuel)%nat -> codecOK k -> size k <> 0%nat -> Forall isByte source ->
  partial16OK sawError k destination source
    (handlePartialSequence16 fuel flush stopOnError sawError k destination source).
Proof.
  induction fuel as [|fuel IH]; intros flush stopOnError sawError k destination source Hf Hk H0 Hs; [lia|].
  cbn [handlePartialSequence16].
  destruct (partialRound16_ok flush stopOnError sawError k destination source Hk H0 Hs)
    as (out & err & k1 & s1 & Hk1 & Hs1 & [(-> & Hz & Hw & -> & Hsrc)|(-> & Hl & Ho & Hsrc)]).
  { exists [], err, k1, s1. split_and!; try done. destruct (Nat.eqb_spec (size k1) 0); simpl; lia. }
  destruct (Nat.eqb_spec (size k1) 0) as [E|E].
  - exists out, err, k1, s1. rewrite E. split_and!; try done; [by left; left|]. cbn [Nat.eqb]. lia.
  - destruct (IH flush stopOnError (sawError || err) k1 (destination ++ out) s1) as (o2 & e2 & k2 & s2 & -> & H2);
      [lia|done|done|done|].
    exists (out ++ o2), (err || e2), k2, s2. rewrite <- app_assoc, orb_assoc, length_app. split; [done|].
    destruct H2 as (? & ? & ? & ? & ?). split_and!; (done || lia).
Qed.

(** ** Correct results *)

(** A complete sequence is decoded, or it is ill-formed. *)
Lemma complete_round fuel stopOnError sawError flush k destination source :
  codecOK k -> complete k -> Forall isByte source ->
  illFormed (pending k ++ source) \/
  exists out k', handlePartialSequence16 (S fuel) flush stopOnError sawError k destination source
      = Some (k', sawError, destination ++ out, source) /\
    codecOK k' /\ size k' = 0%nat /\ runs (pending k ++ source) out false source.
Proof.
  intros Hk (b & E & Hb & Hcount & H0) Hs.
  destruct (pending_head k Hk ltac:(lia)) as (b' & r & E' & Ep & Hbyte & _ & Hlr).
  assert (b' = b) by congruence. subst b'. unfold isByte in Hbyte.
  destruct (decode_pending k b r source Hk Ep Hb ltac:(lia) ltac:(lia) Hs) as (c & Ed & [[-> Hill]|(Hc & _ & Et)]);
    [by left|right].
  cbn [handlePartialSequence16]. unfold partialRound16, decodePartial16, byteAt at 1. rewrite E.
  unfold isASCII. destruct (Z.ltb_spec b 128); [lia|].
  destruct (Nat.eqb_spec (nonASCIISequenceLength b) 0); [lia|].
  destruct (Nat.ltb_spec (size k) (nonASCIISequenceLength b)); [lia|].
  rewrite Ed, scalar_not_nonCharacter, appendCharacter_ok by done. cbn [size].
  rewrite Hcount, Nat.sub_diag. cbn [Nat.eqb]. exists (utf16 c). eexists. split; [done|].
  split; [pose proof (skip_ok k (size k) Hk) as Hsk; by rewrite Nat.sub_diag in Hsk|]. split; [done|].
  destruct (decoded_runs _ _ _ Hc Et) as [Hr _]. rewrite Hcount, drop_app_length' in Hr; [done|].
  rewrite Ep. simpl. lia.
Qed.

(** Kept bytes whose errors can be worked off without new input. *)
Definition short (k : Codec) : Prop := waiting k \/ (size k <= 2)%nat.

(** One round on the kept bytes alone, at the end of the text. *)
Definition flushRoundOK (sawError : bool) (k : Codec) (destination : list Z) (r : option (Round bool)) : Prop :=
  exists out err k', r = Some (Continue (sawError || err) k' (destination ++ out) []) /\
    codecOK k' /\ short k' /\ (size k' < size k)%nat /\
    forall o e, decodes (pending k') o e -> decodes (pending k) (out ++ o) (err || e).

Lemma flush_error sawError k destination b r : codecOK k -> pending k = b :: r -> (0 < size k <= 3)%nat ->
  (forall c, isScalarValue c = true -> ~ utf8 c `prefix_of` b :: r) ->
  flushRoundOK sawError k destination (Some (errorRound false k destination [])).
Proof.
  intros Hk Ep H0 Hno. destruct (consume_ok k Hk ltac:(lia)) as (Hc1 & Hc2 & Hc3).
  rewrite Ep in Hc3. cbn [tail] in Hc3.
  exists [replacementCharacter], true, (consumePartialSequenceByte k). rewrite orb_true_r.
  split; [done|]. split; [done|]. split; [right; lia|]. split; [lia|].
  intros o e Ho. rewrite Hc3 in Ho. rewrite Ep. by apply (decodes_error _ _ _ e).
Qed.

Lemma flush_decode sawError k destination b r : codecOK k -> pending k = b :: r -> (0 < size k <= 2)%nat ->
  128 <= b < 256 -> nonASCIISequenceLength b <> 0%nat -> (nonASCIISequenceLength b <= size k)%nat ->
  flushRoundOK sawError k destination
    (decodePartial16 false sawError (nonASCIISequenceLength b) k destination []).
Proof.
  intros Hk Ep H0 Hb Hc0 Hge. unfold decodePartial16.
  pose proof (pending_length k Hk) as Hlen.
  destruct (decode_pending k b r [] Hk Ep ltac:(lia) Hc0 Hge ltac:(done)) as (c & -> & Hc). rewrite app_nil_r in Hc.
  destruct Hc as [[-> Hill]|(Hsc & _ & Et)].
  - change (nonCharacter =? nonCharacter) with true. cbv iota. apply (flush_error _ _ _ b r); [done|done|lia|].
    intros c Hsc Hp. apply (Hill [] c Hsc). by rewrite app_nil_r, Ep.
  - rewrite scalar_not_nonCharacter, appendCharacter_ok by done.
    pose proof (sequenceLength_cases b ltac:(lia)) as Hcase.
    exists (utf16 c), false. eexists. rewrite orb_false_r. split; [done|].
    split; [apply (skip_ok k (nonASCIISequenceLength b) Hk)|]. cbn [size].
    split; [right; cbn [size]; lia|]. split; [lia|]. intros o e Ho.
    assert (E0 : (size k - nonASCIISequenceLength b = 0)%nat) by lia. rewrite E0 in Ho.
    assert (Ef : pending k = utf8 c ++ []).
    { rewrite app_nil_r, <- Et. symmetry. apply take_ge. lia. }
    rewrite Ef. by apply decodes_char.
Qed.

Lemma flush_round sawError k destination : codecOK k -> size k <> 0%nat -> short k ->
  flushRoundOK sawError k destination (partialRound16 true false sawError k destination []).
Proof.
  intros Hk H0 Hsh. unfold partialRound16.
  destruct (pending_head k Hk ltac:(lia)) as (b & r & E & Ep & Hbyte & Hr & Hlr).
  unfold byteAt at 1. rewrite E. pose proof (sequenceLength_le b) as H4.
  assert (Hshort : (size k <= 3)%nat /\ (128 <= b -> (nonASCIISequenceLength b <= size k)%nat -> (size k <= 2)%nat)
                   /\ (b < 128 -> (size k <= 2)%nat)).
  { destruct Hsh as [[?|(b' & E' & ? & ?)]|?]; [lia| |lia]. assert (b' = b) by congruence. subst. lia. }
  destruct (isASCII b) eqn:Ha.
  { destruct (consume_ok k Hk ltac:(lia)) as (Hc1 & Hc2 & Hc3). rewrite Ep in Hc3. cbn [tail] in Hc3.
    exists [b], false, (consumePartialSequenceByte k). rewrite orb_false_r. split; [done|]. split; [done|].
    split; [right; lia|]. split; [lia|]. intros o e Ho. rewrite Hc3 in Ho. rewrite Ep.
    destruct (ascii_scalar b Hbyte Ha) as (Hsc & E8 & E16).
    pose proof (decodes_char b r o e Hsc Ho) as Hd. by rewrite E8, E16 in Hd. }
  assert (Hb : 128 <= b) by (unfold isASCII in Ha; by apply Z.ltb_ge in Ha). unfold isByte in Hbyte.
  destruct (Nat.eqb_spec (nonASCIISequenceLength b) 0) as [Hc0|Hc0].
  { apply (flush_error _ _ _ b r); [done|done|lia|]. intros c Hsc Hp.
    apply (illFormed_no_length b r ltac:(lia) Hc0 [] c Hsc). by rewrite app_nil_r. }
  destruct (Nat.ltb_spec (size k) (nonASCIISequenceLength b)) as [Hlt|Hge]; [|apply (flush_decode _ _ _ _ r); (done || lia)].
  destruct (Nat.ltb_spec (@length Z []) (nonASCIISequenceLength b - size k)) as [_|?]; [|simpl in *; lia].
  cbn [negb]. apply (flush_error _ _ _ b r); [done|done|lia|]. intros c Hsc Hp.
  destruct (utf8_lead c b r Hsc Hp Hb) as (_ & _ & El). apply prefix_length in Hp. simpl in Hp. lia.
Qed.

(** The kept bytes at the end of the text. *)
Lemma flush_pending fuel : forall sawError k destination,
  (size k < fuel)%nat -> codecOK k -> size k <> 0%nat -> short k ->
  exists out err k', handlePartialSequence16 fuel true false sawError k destination []
      = Some (k', sawError || err, destination ++ out, []) /\
    codecOK k' /\ size k' = 0%nat /\ decodes (pending k) out err.
Proof.
  induction fuel as [|fuel IH]; intros sawError k destination Hf Hk H0 Hsh; [lia|].
  cbn [handlePartialSequence16].
  destruct (flush_round sawError k destination Hk H0 Hsh) as (out & err & k1 & -> & Hk1 & Hs1 & Hm & Hd).
  destruct (Nat.eqb_spec (size k1) 0) as [E|E].
  - exists out, err, k1. split_and!; try done.
    assert (Hn : decodes (pending k1) [] false) by (unfold pending; rewrite E; constructor).
    specialize (Hd [] false Hn). by rewrite app_nil_r, orb_false_r in Hd.
  - destruct (IH (sawError || err) k1 (destination ++ out) ltac:(lia) Hk1 E Hs1) as (o2 & e2 & k2 & -> & Hk2 & E2 & Hd2).
    exists (out ++ o2), (err || e2), k2. rewrite <- app_assoc, orb_assoc. split_and!; try done. by apply Hd.
Qed.
