(* ===== verification/TextCodecUTF8Props.v ===== *)
(** * Properties of the UTF-8 codec *)
From S2P Require Import Prelude Unicode TextCodecUTF8 TextCodecUTF8Facts TextCodecUTF8Partial.
From stdpp Require Import base list numbers option.
From Stdlib Require Import ZArith Lia.
#[local] Open Scope Z_scope.
Import TextCodecUTF8.

#[local] Abbreviation size := m_partialSequenceSize.

(** The states a codec can be in between two calls. *)
Definition codecInv (k : Codec) : Prop := codecOK k /\ (waiting k \/ stuck k).

Lemma waiting_inv k : codecOK k -> waiting k -> codecInv k.
Proof. intros H1 H2. split; [done|by left]. Qed.

Lemma empty_waiting k : size k = 0%nat -> waiting k.
Proof. intros H. by left. Qed.

Section Total.
Context (endAddress : Z) (flush stopOnError : bool).

(** ** Safety *)

Definition total16 (k : Codec) (destination source : list Z) (r : option (Codec * bool * list Z)) : Prop :=
  exists out saw k', r = Some (k', saw, destination ++ out) /\ codecInv k' /\
    (length out <= size k + length source)%nat.

(** The end of a round, given what happens in the next one. *)
Lemma loop16_total sawError k destination source next :
  codecOK k -> size k = 0%nat -> Forall isByte source ->
  (source <> [] -> forall saw k' d, codecOK k' -> size k' <> 0%nat -> total16 k' d [] (next saw k' d [])) ->
  total16 k destination source
    (match decodeLoop16 endAddress (loopFuel k source) stopOnError sawError k destination source with
     | None => None
     | Some (k, sawError, destination, source) =>
         if flush && negb (size k =? 0)%nat then next sawError k destination source
         else Some (k, sawError, destination)
     end).
Proof.
  intros Hk H0 Hs Hnext. unfold loopFuel.
  destruct (decodeLoop16_ok endAddress (S (size k + length source)) stopOnError sawError k destination source)
    as (out & err & k1 & s1 & -> & Hk1 & Hw & Hl & Hz & _); [lia|done|done|done|].
  destruct (flush && negb (size k1 =? 0)%nat) eqn:E.
  - apply andb_prop in E as [_ E]. apply negb_true_iff, Nat.eqb_neq in E. rewrite (Hz E).
    assert (Hne : source <> []) by (intros ->; simpl in Hl; lia).
    destruct (Hnext Hne (sawError || err) k1 (destination ++ out) Hk1 E) as (o2 & saw & k2 & -> & Hk2 & Hl2).
    exists (out ++ o2), saw, k2. rewrite <- app_assoc, length_app. split_and!; try done. cbn in Hl2. lia.
  - eexists out, _, k1. split; [done|]. split; [by apply waiting_inv|]. lia.
Qed.

Lemma round16_total sawError k destination source next :
  codecOK k -> Forall isByte source ->
  (source <> [] -> forall saw k' d, codecOK k' -> size k' <> 0%nat -> total16 k' d [] (next saw k' d [])) ->
  let loop sawError k destination source :=
    match decodeLoop16 endAddress (loopFuel k source) stopOnError sawError k destination source with
    | None => None
    | Some (k, sawError, destination, source) =>
        if flush && negb (size k =? 0)%nat then next sawError k destination source
        else Some (k, sawError, destination)
    end in
  total16 k destination source
    (if (size k =? 0)%nat then loop sawError k destination source
     else
       match handlePartialSequence16 (loopFuel k source) flush stopOnError sawError k destination source with
       | None => None
       | Some (k, sawError, destination, source) =>
           if (size k =? 0)%nat then loop sawError k destination source
           else Some (k, sawError, destination)
       end).
Proof.
  intros Hk Hs Hnext. cbv zeta. destruct (Nat.eqb_spec (size k) 0) as [E|E].
  { by apply loop16_total. }
  unfold loopFuel at 1.
  destruct (handlePartialSequence16_total (S (size k + length source)) flush stopOnError sawError k destination source)
    as (o1 & e1 & k1 & s1 & -> & Hk1 & Hw & Hs1 & Hsrc & Hl); [lia|done|done|done|].
  destruct (Nat.eqb_spec (size k1) 0) as [E1|E1].
  - destruct (loop16_total (sawError || e1) k1 (destination ++ o1) s1 next Hk1 E1 Hs1)
      as (o2 & saw & k2 & -> & Hk2 & Hl2).
    { intros Hne. apply Hnext. intros ->. by destruct s1; [|simpl in Hsrc; lia]. }
    exists (o1 ++ o2), saw, k2. rewrite <- app_assoc, length_app. split_and!; try done. lia.
  - eexists o1, _, k1. split_and!; try done. lia.
Qed.

Lemma decode16_total sawError k destination source :
  codecOK k -> Forall isByte source ->
  total16 k destination source (decode16 endAddress 3 flush stopOnError sawError k destination source).
Proof.
  intros Hk Hs. apply round16_total; [done|done|]. intros _ saw k1 d1 Hk1 H1.
  apply round16_total; done.
Qed.

Definition total8 (k : Codec) (destination source : list Z)
  (r : option (Left8 * Codec * bool * list Z * list Z)) : Prop :=
  exists left out saw k' source', r = Some (left, k', saw, destination ++ out, source') /\
    Forall isByte source' /\
    match left with
    | Finished => codecInv k' /\ (length out <= length source)%nat
    | UpConvert => codecOK k' /\ (length out + length source' <= length source)%nat
    end.

Lemma loop8_total sawError k destination source next :
  codecOK k -> size k = 0%nat -> Forall isByte source ->
  (source <> [] -> forall saw k' d, codecInv k' -> size k' <> 0%nat -> total8 k' d [] (next saw k' d [])) ->
  total8 k destination source
    (match decodeLoop8 endAddress (loopFuel k source) stopOnError sawError k destination source with
     | Some (Finished, k, sawError, destination, source) =>
         if flush && negb (size k =? 0)%nat then next sawError k destination source
         else Some (Finished, k, sawError, destination, source)
     | r => r
     end).
Proof.
  intros Hk H0 Hs Hnext. unfold loopFuel.
  destruct (decodeLoop8_ok endAddress (S (size k + length source)) stopOnError sawError k destination source)
    as (left & out & err & k1 & s1 & -> & Hk1 & Hw & Hs1 & Hl & Hm); [lia|done|done|done|].
  destruct left; [|exists UpConvert, out, (sawError || err), k1, s1; split_and!; (done || lia)].
  destruct Hm as [Hz _]. destruct (flush && negb (size k1 =? 0)%nat) eqn:E.
  - apply andb_prop in E as [_ E]. apply negb_true_iff, Nat.eqb_neq in E. rewrite (Hz E).
    assert (Hne : source <> []) by (intros ->; simpl in Hl; lia).
    destruct (Hnext Hne (sawError || err) k1 (destination ++ out) ltac:(by apply waiting_inv) E)
      as (left & o2 & saw & k2 & s2 & -> & Hs2 & Hl2).
    exists left, (out ++ o2), saw, k2, s2. rewrite <- app_assoc, length_app. split; [done|]. split; [done|].
    destruct left; destruct Hl2 as [Hk2 Hl2]; cbn in Hl2; (split; [done|lia]).
  - eexists Finished, out, _, k1, s1. split; [done|]. split; [done|]. split; [by apply waiting_inv|]. lia.
Qed.

Lemma round8_total sawError k destination source next :
  codecInv k -> Forall isByte source ->
  (source <> [] -> forall saw k' d, codecInv k' -> size k' <> 0%nat -> total8 k' d [] (next saw k' d [])) ->
  let loop k destination source :=
    match decodeLoop8 endAddress (loopFuel k source) stopOnError sawError k destination source with
    | Some (Finished, k, sawError, destination, source) =>
        if flush && negb (size k =? 0)%nat then next sawError k destination source
        else Some (Finished, k, sawError, destination, source)
    | r => r
    end in
  total8 k destination source
    (if (size k =? 0)%nat then loop k destination source
     else
       match handlePartialSequence8 (loopFuel k source) flush k destination source with
       | None => None
       | Some (true, k, _, source) => Some (UpConvert, k, sawError, destination, source)
       | Some (false, k, destination, source) =>
           if (size k =? 0)%nat then loop k destination source
           else Some (Finished, k, sawError, destination, source)
       end).
Proof.
  intros [Hk Hinv] Hs Hnext. cbv zeta. destruct (Nat.eqb_spec (size k) 0) as [E|E].
  { by apply loop8_total. }
  unfold loopFuel at 1.
  destruct (handlePartialSequence8_ok (size k + length source) flush k destination source Hk E Hinv Hs)
    as (up & k1 & o1 & s1 & -> & Hk1 & Hs1 & Hcase).
  destruct Hcase as [(-> & -> & _ & n & Hn & -> & _)|[(-> & E1 & Hl & _)|(-> & _ & -> & E1 & Hw & -> & _)]].
  - exists UpConvert, [], sawError, k1, (drop n source). rewrite app_nil_r. split_and!; try done.
    rewrite length_drop. simpl. lia.
  - rewrite E1. cbn [Nat.eqb].
    destruct (loop8_total sawError k1 (destination ++ o1) s1 next Hk1 E1 Hs1)
      as (left & o2 & saw & k2 & s2 & -> & Hs2 & Hl2).
    { intros Hne. apply Hnext. intros ->. destruct s1; [done|simpl in Hl; lia]. }
    exists left, (o1 ++ o2), saw, k2, s2. rewrite <- app_assoc, length_app. split; [done|]. split; [done|].
    destruct left; destruct Hl2 as [Hk2 Hl2]; (split; [done|lia]).
  - destruct (Nat.eqb_spec (size k1) 0); [lia|].
    exists Finished, [], sawError, k1, source. split_and!; try done; [by apply waiting_inv|simpl; lia].
Qed.

Lemma decode8_total sawError k destination source :
  codecInv k -> Forall isByte source ->
  total8 k destination source (decode8 endAddress 3 flush stopOnError sawError k destination source).
Proof.
  intros Hk Hs. apply round8_total; [done|done|]. intros _ saw k1 d1 Hk1 H1.
  by apply round8_total.
Qed.

End Total.

Lemma decode_total address bytes flush stopOnError sawError k :
  codecInv k -> Forall isByte bytes ->
  exists out saw k', decode address bytes flush stopOnError sawError k = Some (out, saw, k') /\ codecInv k'.
Proof.
  intros Hk Hs. unfold decode. set (e := address + Z.of_nat (length bytes)).
  destruct (decode8_total e flush stopOnError sawError k [] bytes Hk Hs) as (left & out & saw & k1 & s1 & -> & Hs1 & Hm).
  rewrite app_nil_l. destruct left; destruct Hm as [Hk1 Hl].
  - destruct (Nat.leb_spec (length out) (size k + length bytes)); [|lia]. eauto 10.
  - destruct (Nat.leb_spec (length out) (size k + length bytes)); [|lia].
    destruct (decode16_total e flush stopOnError saw k1 out s1 Hk1 Hs1) as (o2 & saw2 & k2 & -> & Hk2 & Hl2).
    rewrite length_app. destruct (Nat.leb_spec (length out + length o2) (size k1 + length bytes)); [|lia]. eauto 10.
Qed.

(** C31: decoding any bytes, in any state that decoding can leave, with
    any flags, terminates and satisfies every assertion: no access outside the
    input, the array of the partial sequence or the output buffers, which have
    one place for every byte, and the state is again such a state. *)
Theorem utf8_decode_total address bytes flush stopOnError sawError k :
  codecInv k -> Forall isByte bytes ->
  exists out saw k', decode address bytes flush stopOnError sawError k = Some (out, saw, k') /\ codecInv k'.
Proof. apply decode_total. Qed.

Lemma newCodec_inv : codecInv newCodec.
Proof.
  apply waiting_inv; [|by left]. split; [done| |simpl; unfold U8_MAX_LENGTH; lia].
  repeat constructor; unfold isByte; lia.
Qed.

Lemma utf8_decode_total_witness :
  exists out saw k', decode 5 [0x41; 0xE2; 0x82] false true false newCodec = Some (out, saw, k') /\ codecInv k'.
Proof.
  apply (utf8_decode_total 5 [0x41; 0xE2; 0x82] false true false newCodec newCodec_inv).
  repeat constructor; unfold isByte; lia.
Defined.

(** ** Correct results *)

(** What a call without [stopOnError] has to achieve: all of the text is read
    when it is flushed, otherwise all but the beginning of a sequence. *)
Definition read (flush : bool) (source out : list Z) (err : bool) (k' : Codec) : Prop :=
  if flush then size k' = 0%nat /\ decodes source out err
  else waiting k' /\ runs source out err (pending k').

Lemma read_step flush s o1 t o2 err k' :
  runs s o1 false t -> read flush t o2 err k' -> read flush s (o1 ++ o2) err k'.
Proof.
  intros Hr. destruct flush; intros [H1 H2]; (split; [done|]).
  - specialize (Hr [] o2 err). rewrite !app_nil_r in Hr. by apply Hr.
  - by apply (runs_trans _ _ false _ _ err _ Hr).
Qed.

Lemma decodes_illFormed l more o e : illFormed l -> decodes (l ++ more) o e -> l = [] \/ e = true.
Proof.
  intros Hill Hd. inversion Hd as [E|c l' o' e' Hc Hl E|]; subst; [|exfalso|by right].
  - left. by apply eq_sym, app_eq_nil in E as [-> _].
  - apply (Hill more c Hc). rewrite <- E. by exists l'.
Qed.

(** An error that was seen is an error of the text. *)
Lemma read_illFormed flush l o err k' : illFormed l -> l <> [] -> read flush l o err k' -> read flush l o true k'.
Proof.
  intros Hill Hne. destruct flush; intros [H1 H2]; (split; [done|]).
  - destruct (decodes_illFormed l [] o err Hill) as [?| ->]; [by rewrite app_nil_r|done|done].
  - intros more o' e' Hd. specialize (H2 more o' e' Hd).
    by destruct (decodes_illFormed _ _ _ _ Hill H2) as [?|E]; [|rewrite E in H2].
Qed.

Section Correct.
Context (endAddress : Z) (flush : bool).

Lemma loop16_read sawError k destination source next :
  codecOK k -> size k = 0%nat -> Forall isByte source ->
  (flush = true -> forall saw k' d, codecOK k' -> size k' <> 0%nat -> waiting k' ->
     exists out err k2, next saw k' d [] = Some (k2, saw || err, d ++ out) /\
       codecOK k2 /\ read flush (pending k') out err k2) ->
  exists out err k',
    match decodeLoop16 endAddress (loopFuel k source) false sawError k destination source with
    | None => None
    | Some (k, sawError, destination, source) =>
        if flush && negb (size k =? 0)%nat then next sawError k destination source
        else Some (k, sawError, destination)
    end = Some (k', sawError || err, destination ++ out) /\
    codecOK k' /\ read flush source out err k'.
Proof.
  intros Hk H0 Hs Hnext. unfold loopFuel.
  destruct (decodeLoop16_ok endAddress (S (size k + length source)) false sawError k destination source)
    as (out & err & k1 & s1 & -> & Hk1 & Hw & Hl & Hz & Hrun); [lia|done|done|done|].
  destruct (Hrun eq_refl) as [-> Hr]. destruct (flush && negb (size k1 =? 0)%nat) eqn:E.
  - apply andb_prop in E as [Ef E]. apply negb_true_iff, Nat.eqb_neq in E.
    destruct (Hnext Ef (sawError || err) k1 (destination ++ out) Hk1 E Hw) as (o2 & e2 & k2 & -> & Hk2 & Hr2).
    exists (out ++ o2), (err || e2), k2. rewrite <- app_assoc, orb_assoc. split; [done|]. split; [done|].
    rewrite Ef in *. destruct Hr2 as [H2 Hd]. split; [done|].
    specialize (Hr [] o2 e2). rewrite !app_nil_r in Hr. by apply Hr.
  - exists out, err, k1. split; [done|]. split; [done|]. destruct flush; [|done].
    apply negb_false_iff, Nat.eqb_eq in E. split; [done|].
    unfold pending in Hr. rewrite E in Hr. by apply runs_done.
Qed.

(** The kept bytes at the end of the text. *)
Lemma decode16_flush fuel sawError k destination : flush = true ->
  codecOK k -> size k <> 0%nat -> waiting k ->
  exists out err k', decode16 endAddress (S fuel) flush false sawError k destination []
      = Some (k', sawError || err, destination ++ out) /\ codecOK k' /\ read flush (pending k) out err k'.
Proof.
  intros -> Hk H0 Hw. cbn [decode16]. destruct (Nat.eqb_spec (size k) 0); [lia|]. unfold loopFuel at 1.
  destruct (flush_pending (S (size k + @length Z [])) sawError k destination) as (out & err & k' & -> & Hk' & E & Hd);
    [lia|done|done|by left|].
  rewrite E. cbn. rewrite E. cbn. exists out, err, k'. done.
Qed.

Lemma decode16_empty fuel sawError k destination source :
  codecOK k -> size k = 0%nat -> Forall isByte source ->
  exists out err k', decode16 endAddress (S (S fuel)) flush false sawError k destination source
      = Some (k', sawError || err, destination ++ out) /\ codecOK k' /\ read flush source out err k'.
Proof.
  intros Hk H0 Hs. cbn [decode16]. rewrite H0. cbn [Nat.eqb]. apply loop16_read; [done|done|done|].
  intros Hf saw k' d Hk' H0' Hw. by apply decode16_flush.
Qed.

Lemma decode16_complete fuel sawError k destination source :
  codecOK k -> complete k -> Forall isByte source -> flush = false ->
  illFormed (pending k ++ source) \/
  exists out err k', decode16 endAddress (S (S fuel)) flush false sawError k destination source
      = Some (k', sawError || err, destination ++ out) /\ codecOK k' /\
    read flush (pending k ++ source) out err k'.
Proof.
  intros Hk Hc Hs Hf. pose proof Hc as (b & _ & _ & _ & H0).
  destruct (complete_round (size k + length source) false sawError flush k destination source Hk Hc Hs)
    as [Hill|(o1 & k1 & E & Hk1 & E1 & Hr)]; [by left|right].
  cbn [decode16]. destruct (Nat.eqb_spec (size k) 0); [done|]. unfold loopFuel at 1. rewrite E, E1. cbn [Nat.eqb].
  destruct (loop16_read sawError k1 (destination ++ o1) source
    (fun saw k d s => decode16 endAddress (S fuel) flush false saw k d s) Hk1 E1 Hs) as (o2 & e2 & k2 & E2 & Hk2 & Hr2).
  { intros ?. congruence. }
  exists (o1 ++ o2), e2, k2. rewrite app_assoc. split; [exact E2|]. split; [done|]. by apply (read_step _ _ _ source).
Qed.

(** How the 16-bit loop may be entered: behind the kept bytes, with kept bytes
    at the end of the text, or with one complete sequence in the array. *)
Definition lateStart (k : Codec) (source : list Z) : Prop :=
  size k = 0%nat \/ (flush = true /\ source = [] /\ waiting k /\ size k <> 0%nat).

Definition anyStart (whole : list Z) (k : Codec) (source : list Z) : Prop :=
  lateStart k source \/ (flush = false /\ complete k /\ pending k ++ source = whole).

(** The 8-bit round. *)
Definition read8 (start : Codec -> list Z -> Prop) (source : list Z) (sawError : bool) (destination : list Z)
  (r : option (Left8 * Codec * bool * list Z * list Z)) : Prop :=
  exists left out err k' source', r = Some (left, k', sawError || err, destination ++ out, source') /\
    codecOK k' /\ Forall isByte source' /\
    match left with
    | Finished => err = false /\ read flush source out false k'
    | UpConvert => runs source out false (pending k' ++ source') /\
        (err = true -> illFormed (pending k' ++ source') /\ source' <> []) /\ start k' source'
    end.

(** At the end of the text the kept bytes are left to the 16-bit loop. *)
Lemma decode8_flush fuel stopOnError sawError k destination : flush = true ->
  codecOK k -> size k <> 0%nat -> waiting k ->
  decode8 endAddress (S fuel) flush stopOnError sawError k destination []
  = Some (UpConvert, k, sawError, destination, []).
Proof.
  intros -> Hk H0 Hw. destruct Hw as [?|(b & E & Hb & Hlt)]; [lia|].
  cbn [decode8]. destruct (Nat.eqb_spec (size k) 0); [lia|]. unfold loopFuel at 1. cbn [handlePartialSequence8].
  unfold partialRound8, byteAt. rewrite E. unfold isASCII. destruct (Z.ltb_spec b 128); [lia|].
  destruct (Nat.eqb_spec (nonASCIISequenceLength b) 0); [lia|].
  destruct (Nat.ltb_spec (size k) (nonASCIISequenceLength b)); [|lia].
  by destruct (Nat.ltb_spec (@length Z []) (nonASCIISequenceLength b - size k)); [|simpl in *; lia].
Qed.

Lemma loop8_read sawError k destination source next :
  codecOK k -> size k = 0%nat -> Forall isByte source ->
  (flush = true -> forall saw k' d, codecOK k' -> size k' <> 0%nat -> waiting k' ->
     next saw k' d [] = Some (UpConvert, k', saw, d, [])) ->
  read8 lateStart source sawError destination
    (match decodeLoop8 endAddress (loopFuel k source) false sawError k destination source with
     | Some (Finished, k, sawError, destination, source) =>
         if flush && negb (size k =? 0)%nat then next sawError k destination source
         else Some (Finished, k, sawError, destination, source)
     | r => r
     end).
Proof.
  intros Hk H0 Hs Hnext. unfold loopFuel.
  destruct (decodeLoop8_ok endAddress (S (size k + length source)) false sawError k destination source)
    as (left & out & err & k1 & s1 & -> & Hk1 & Hw & Hs1 & Hl & Hm); [lia|done|done|done|].
  destruct left.
  2:{ destruct Hm as (E & Hr & Hill). exists UpConvert, out, err, k1, s1. do 3 (split; [done|]).
      unfold pending. rewrite E. cbn [take app]. split; [done|]. split; [|by left]. intros He. split; [by apply Hill|].
      intros ->. by apply (Hill He [65] 65 eq_refl). }
  destruct Hm as [_ Hm]. destruct (Hm eq_refl) as (-> & -> & Hr).
  destruct (flush && negb (size k1 =? 0)%nat) eqn:E.
  - apply andb_prop in E as [Ef E]. apply negb_true_iff, Nat.eqb_neq in E.
    rewrite (Hnext Ef) by done. exists UpConvert, out, false, k1, []. rewrite app_nil_r.
    do 3 (split; [done|]). split; [done|]. split; [done|]. by right.
  - exists Finished, out, false, k1, []. do 3 (split; [done|]). split; [done|].
    destruct flush; [|done]. apply negb_false_iff, Nat.eqb_eq in E. split; [done|].
    unfold pending in Hr. rewrite E in Hr. by apply runs_done.
Qed.

Lemma waiting_not_stuck k : size k <> 0%nat -> waiting k -> stuck k -> False.
Proof.
  intros H0 [?|(b & E & Hb & Hlt)] (_ & b' & E' & Hb' & Hs); [done|].
  assert (b' = b) by congruence. subst. lia.
Qed.

Lemma complete_not_waiting k k' : codecOK k -> codecOK k' -> size k <> 0%nat -> waiting k ->
  pending k' = pending k -> complete k' -> False.
Proof.
  intros Hk Hk' H0 [?|(b & E & Hb & Hlt)] Ep (b' & E' & Hb' & Hn & H0'); [done|].
  destruct (pending_head k Hk ltac:(lia)) as (c & r & Ec & Ec' & _ & _ & Hl).
  destruct (pending_head k' Hk' ltac:(lia)) as (c' & r' & Ed & Ed' & _ & _ & Hl').
  assert (c = b) by congruence. assert (c' = b') by congruence. subst.
  rewrite Ep, Ec' in Ed'. injection Ed' as -> ->. lia.
Qed.

Lemma decode8_read fuel sawError k source :
  codecOK k -> waiting k -> Forall isByte source -> (flush = false \/ size k = 0%nat \/ source = []) ->
  read8 (anyStart (pending k ++ source)) (pending k ++ source) sawError [] (decode8 endAddress (S (S fuel)) flush false sawError k [] source).
Proof.
  intros Hk Hw Hs Hcase.
  assert (Hnext : flush = true -> forall saw k' d, codecOK k' -> size k' <> 0%nat -> waiting k' ->
     decode8 endAddress (S fuel) flush false saw k' d [] = Some (UpConvert, k', saw, d, []))
    by (intros; by apply decode8_flush).
  cbn [decode8]. destruct (Nat.eqb_spec (size k) 0) as [E|E].
  { unfold pending. rewrite E. cbn [take app].
    destruct (loop8_read sawError k [] source (fun saw k d s => decode8 endAddress (S fuel) flush false saw k d s)
      Hk E Hs Hnext) as (left & o2 & e2 & k2 & s2 & E2 & Hk2 & Hs2 & Hm).
    exists left, o2, e2, k2, s2. do 3 (split; [done|]). destruct left; [done|].
    destruct Hm as (? & ? & ?). split; [done|]. split; [done|]. by left. }
  unfold loopFuel at 1.
  destruct (handlePartialSequence8_ok (size k + length source) flush k [] source Hk E ltac:(by left) Hs)
    as (up & k1 & o1 & s1 & -> & Hk1 & Hs1 & Hres). rewrite app_nil_l.
  destruct Hres as [(-> & -> & E1 & n & Hn & -> & Ep & Hc)|[(-> & E1 & Hl & Hr)|(-> & Hf & -> & E1 & Hw1 & -> & Ep)]].
  - exists UpConvert, [], false, k1, (drop n source). rewrite orb_false_r. do 3 (split; [done|]).
    rewrite Ep, <- app_assoc, take_drop. split; [apply runs_refl|]. split; [done|].
    destruct flush eqn:Ef.
    + left; right. destruct Hcase as [?|[?| ->]]; [done|done|]. rewrite drop_nil. split; [done|]. split; [done|].
      rewrite take_nil, app_nil_r in Ep.
      destruct Hc as [(-> & _)|Hc]; [done|]. by destruct (complete_not_waiting k k1).
    + right. split; [done|]. rewrite Ep, <- app_assoc, take_drop. split; [|done].
      destruct Hc as [(_ & _ & [?|?])|Hc]; [done| |done]. by destruct (waiting_not_stuck k).
  - rewrite E1. cbn [Nat.eqb].
    destruct (loop8_read sawError k1 o1 s1 (fun saw k d s => decode8 endAddress (S fuel) flush false saw k d s)
      Hk1 E1 Hs1 Hnext) as (left & o2 & e2 & k2 & s2 & E2 & Hk2 & Hs2 & Hm).
    exists left, (o1 ++ o2), e2, k2, s2. split; [exact E2|]. split; [done|]. split; [done|]. destruct left.
    + destruct Hm as [-> Hm]. split; [done|]. by apply (read_step _ _ _ s1).
    + destruct Hm as (Hr2 & Hill & Hst). split; [by apply (runs_trans _ _ false _ _ false _ Hr)|]. split; [done|].
      by left.
  - destruct (Nat.eqb_spec (size k1) 0); [lia|]. exists Finished, [], false, k1, source. rewrite orb_false_r.
    do 4 (split; [done|]). rewrite Hf. split; [done|]. rewrite Ep. apply runs_refl.
Qed.

End Correct.

(** The 16-bit loop, entered in one of the three ways. *)
Lemma decode16_start endAddress flush fuel sawError k destination source whole :
  codecOK k -> Forall isByte source -> anyStart flush whole k source ->
  illFormed whole /\ flush = false \/
  exists out err k', decode16 endAddress (S (S fuel)) flush false sawError k destination source
      = Some (k', sawError || err, destination ++ out) /\ codecOK k' /\
    read flush (pending k ++ source) out err k'.
Proof.
  intros Hk Hs [[E|(Ef & -> & Hw & E)]|(Ef & Hc & <-)].
  - right. unfold pending. rewrite E. by apply decode16_empty.
  - right. rewrite app_nil_r. by apply decode16_flush.
  - destruct (decode16_complete endAddress flush fuel sawError k destination source Hk Hc Hs Ef); [by left|by right].
Qed.

(** One call of [decode]. *)
Lemma decode_read address bytes flush k :
  codecOK k -> waiting k -> Forall isByte bytes -> (flush = false \/ size k = 0%nat \/ bytes = []) ->
  illFormed (pending k ++ bytes) /\ flush = false \/
  exists out err k', decode address bytes flush false false k = Some (out, err, k') /\ codecOK k' /\
    read flush (pending k ++ bytes) out err k'.
Proof.
  intros Hk Hw Hs Hcase.
  destruct (decode_total address bytes flush false false k) as (out0 & saw0 & k0 & E0 & _);
    [by apply waiting_inv|done|].
  rewrite E0. unfold decode in E0. set (e := address + Z.of_nat (length bytes)) in *.
  destruct (decode8_read e flush 1 false k bytes Hk Hw Hs Hcase)
    as (left & o1 & e1 & k1 & s1 & E1 & Hk1 & Hs1 & Hm). rewrite E1 in E0.
  destruct left; rewrite app_nil_l in E0.
  - destruct Hm as [-> Hr]. destruct (_ <=? _)%nat in E0; [|done]. right. injection E0 as <- <- <-.
    exists o1, false, k1. done.
  - destruct Hm as (Hr & Hill & Hst). destruct (_ <=? _)%nat in E0; [|done].
    destruct (decode16_start e flush 1 (false || e1) k1 o1 s1 _ Hk1 Hs1 Hst)
      as [?|(o2 & e2 & k2 & E2 & Hk2 & Hr2)]; [by left|right]. rewrite E2 in E0.
    destruct (_ <=? _)%nat in E0; [|done]. injection E0 as <- <- <-.
    exists (o1 ++ o2), (e1 || e2), k2. split; [done|]. split; [done|].
    apply (read_step _ _ _ (pending k1 ++ s1)); [done|]. destruct e1; [|done].
    destruct (Hill eq_refl) as [Hi Hne]. apply (read_illFormed _ _ _ e2); [done| |done].
    intros [_ ?]%app_eq_nil. done.
Qed.

Lemma newCodec_ok : codecOK newCodec /\ waiting newCodec.
Proof. destruct newCodec_inv as [H _]. split; [done|by left]. Qed.

(** Every byte sequence has a decoding, which the decoder computes. *)
Lemma decode_whole address bytes k : codecOK k -> size k = 0%nat -> Forall isByte bytes ->
  exists out err k', decode address bytes true false false k = Some (out, err, k') /\
    size k' = 0%nat /\ decodes bytes out err.
Proof.
  intros Hk H0 Hs. destruct (decode_read address bytes true k Hk ltac:(by left) Hs ltac:(by right; left))
    as [[_ ?]|(out & err & k' & E & Hk' & Hr & Hd)]; [done|].
  unfold pending in Hd. rewrite H0 in Hd. eauto 10.
Qed.

Lemma decodes_total bytes : Forall isByte bytes -> exists out err, decodes bytes out err.
Proof.
  intros Hs. destruct (decode_whole 0 bytes newCodec (proj1 newCodec_ok) eq_refl Hs) as (out & err & _ & _ & _ & H).
  eauto.
Qed.

Lemma illFormed_nil : ~ illFormed [].
Proof. intros H. by apply (H [65] 65 eq_refl). Qed.

Lemma decodeChunks_ok chunks : forall k o, codecOK k -> waiting k ->
  Forall (fun c => Forall isByte (snd c)) chunks ->
  decodes (pending k ++ concat (map snd chunks)) o false ->
  exists k', decodeChunks chunks k = Some (o, false, k') /\ size k' = 0%nat.
Proof.
  induction chunks as [|[address bytes] chunks IH]; intros k o Hk Hw Hc Hd; cbn [decodeChunks].
  - cbn in Hd. destruct (decode_read 0 [] true k Hk Hw ltac:(done) ltac:(by right; right))
      as [[_ ?]|(out & err & k' & -> & _ & Hr & Hd')]; [done|].
    destruct (decodes_det _ _ _ Hd _ _ Hd') as [-> ->]. eauto.
  - inversion Hc as [|? ? Hb Hc']; subst. cbn [map concat snd] in Hd. rewrite app_assoc in Hd.
    destruct (decode_read address bytes false k Hk Hw Hb ltac:(by left))
      as [[Hill _]|(out & err & k' & -> & Hk' & Hw' & Hr)].
    { destruct (decodes_illFormed _ _ _ _ Hill Hd) as [E|?]; [|done]. rewrite E in Hill.
      by destruct illFormed_nil. }
    assert (Hrest : Forall isByte (pending k' ++ concat (map snd chunks))).
    { apply Forall_app; split; [apply Forall_take, (ok_bytes k' Hk')|]. by apply Forall_concat, Forall_map. }
    destruct (decodes_total _ Hrest) as (o2 & e2 & Hd2).
    destruct (decodes_det _ _ _ Hd _ _ (Hr _ _ _ Hd2)) as [<- E]. apply orb_false_iff in E as [-> ->].
    destruct (IH k' o2 Hk' Hw' Hc' Hd2) as (k2 & -> & E2). eauto.
Qed.

(** C30: decoding a byte sequence in one call, flushed, computes its
    decoding with replacement: the UTF-16 of a scalar value where the UTF-8 of
    one is found, U+FFFD for a byte at which none begins, and [sawError] if there
    was such a byte.  That decoding is unique, and nothing is kept. *)
Theorem utf8_decode_whole address bytes :
  Forall isByte bytes ->
  exists out err k', decode address bytes true false false newCodec = Some (out, err, k') /\
    size k' = 0%nat /\ decodes bytes out err /\
    forall out' err', decodes bytes out' err' -> out' = out /\ err' = err.
Proof.
  intros Hs. destruct (decode_whole address bytes newCodec (proj1 newCodec_ok) eq_refl Hs)
    as (out & err & k' & E & E0 & Hd).
  exists out, err, k'. split_and!; try done. by apply decodes_det.
Qed.

Lemma utf8_decode_whole_witness :
  exists out err k', decode 3 [0x41; 0xC3; 0xA9; 0xFF] true false false newCodec = Some (out, err, k') /\
    size k' = 0%nat /\ decodes [0x41; 0xC3; 0xA9; 0xFF] out err /\
    forall out' err', decodes [0x41; 0xC3; 0xA9; 0xFF] out' err' -> out' = out /\ err' = err.
Proof.
  apply (utf8_decode_whole 3 [0x41; 0xC3; 0xA9; 0xFF]). repeat constructor; unfold isByte; lia.
Defined.

(** C29: well-formed UTF-8 is decoded to the UTF-16 of the same scalar
    values, without an error, however it is cut into chunks and wherever these
    are in memory. *)
Theorem utf8_decode_chunks l chunks :
  Forall (fun c => isScalarValue c = true) l -> concat (map snd chunks) = utf8s l ->
  exists k', decodeChunks chunks newCodec = Some (utf16s l, false, k') /\ size k' = 0%nat.
Proof.
  intros Hl E. apply decodeChunks_ok; [apply newCodec_ok|apply newCodec_ok| |].
  - pose proof (utf8s_bytes l Hl) as Hb. rewrite <- E in Hb. clear E Hl. induction chunks as [|c chunks IH]; [done|].
    cbn in Hb. apply Forall_app in Hb as [H1 H2]. constructor; [done|by apply IH].
  - cbn. rewrite E. by apply decodes_utf8s.
Qed.

Lemma utf8_decode_chunks_witness :
  exists k', decodeChunks [(7, [0xF0; 0x9F]); (0, [0x98]); (2, [0x80; 0x21])] newCodec
             = Some (utf16s [0x1F600; 0x21], false, k') /\ size k' = 0%nat.
Proof.
  apply (utf8_decode_chunks [0x1F600; 0x21] [(7, [0xF0; 0x9F]); (0, [0x98]); (2, [0x80; 0x21])]).
  - repeat constructor.
  - reflexivity.
Defined.

(** When a character is decoded from the kept bytes, the bytes
    behind it are not moved to the front.  The text F1 C3 80 42, which is an
    error and two characters, loses its last character when the first byte
    arrives alone: the stale byte C3 is taken for the beginning of another
    sequence. *)
Theorem utf8_chunks_lose_byte :
  (exists k', decodeChunks [(0, [0xF1; 0xC3; 0x80; 0x42])] newCodec = Some ([0xFFFD; 0xC0; 0x42], true, k')) /\
  (exists k', decodeChunks [(0, [0xF1]); (0, [0xC3; 0x80; 0x42])] newCodec
              = Some ([0xFFFD; 0xC0; 0xFFFD], true, k')).
Proof. split; eexists; reflexivity. Qed.

(** ** Encoding *)

Lemma encodeLoop_utf16s l : Forall (fun c => isScalarValue c = true) l ->
  forall fuel, (length (utf16s l) < fuel)%nat -> encodeLoop fuel (utf16s l) = Some (utf8s l).
Proof.
  induction 1 as [|c l Hc Hl IH]; intros fuel Hf; (destruct fuel as [|fuel]; [lia|]); [done|].
  pose proof (U16_NEXT_utf16 c (utf16s l) Hc) as Hn. pose proof (utf16_short c) as Hu.
  change (utf16s (c :: l)) with (utf16 c ++ utf16s l) in *. rewrite length_app in Hf.
  destruct (utf16 c ++ utf16s l) as [|u rest]; [done|]. cbn [encodeLoop]. rewrite Hn, IH by lia.
  apply isScalarValue_spec in Hc. by rewrite U8_APPEND_UNSAFE_utf8 by lia.
Qed.

(** The code point and the number of code units that [U16_NEXT] reads. *)
Lemma U16_NEXT_facts c s : 0 <= c < 0x10000 -> Forall isUnit s ->
  exists n, snd (U16_NEXT c s) = drop n s /\ (n <= length s)%nat /\
    0 <= fst (U16_NEXT c s) <= 0x10FFFF /\
    (length (U8_APPEND_UNSAFE (fst (U16_NEXT c s))) <= 3 * (1 + n))%nat.
Proof.
  intros Hc Hs. unfold isUnit in Hs.
  assert (Hone : exists n, s = drop n s /\ (n <= length s)%nat /\ 0 <= c <= 0x10FFFF /\
    (length (U8_APPEND_UNSAFE c) <= 3 * (1 + n))%nat).
  { exists 0%nat. rewrite U8_APPEND_UNSAFE_utf8 by lia. unfold utf8. split_and!; try done; [lia..|].
    destruct (Z.ltb_spec c 0x80), (Z.ltb_spec c 0x800), (Z.ltb_spec c 0x10000); simpl; lia. }
  unfold U16_NEXT. rewrite U16_IS_LEAD_spec by lia.
  destruct (Z.leb_spec 0xD800 c), (Z.leb_spec c 0xDBFF); cbn [andb]; try done.
  destruct s as [|c2 s']; [done|]. inversion Hs as [|? ? H2 Hs']; subst. rewrite U16_IS_TRAIL_spec by lia.
  destruct (Z.leb_spec 0xDC00 c2), (Z.leb_spec c2 0xDFFF); cbn [andb]; try done.
  exists 1%nat. cbn [fst snd drop]. split; [done|]. split; [simpl; lia|].
  assert (Hv : 0x10000 <= U16_GET_SUPPLEMENTARY c c2 <= 0x10FFFF).
  { unfold U16_GET_SUPPLEMENTARY, U16_SURROGATE_OFFSET. rewrite !Z.shiftl_mul_pow2 by lia. lia. }
  split; [lia|]. rewrite U8_APPEND_UNSAFE_utf8 by lia. unfold utf8.
  destruct (Z.ltb_spec (U16_GET_SUPPLEMENTARY c c2) 0x80), (Z.ltb_spec (U16_GET_SUPPLEMENTARY c c2) 0x800),
    (Z.ltb_spec (U16_GET_SUPPLEMENTARY c c2) 0x10000); simpl; lia.
Qed.

Lemma encodeLoop_total fuel : forall s, (length s < fuel)%nat -> Forall isUnit s ->
  exists bytes, encodeLoop fuel s = Some bytes /\ (length bytes <= 3 * length s)%nat.
Proof.
  induction fuel as [|fuel IH]; intros s Hf Hs; [lia|]. destruct s as [|c s]; [by exists []|].
  inversion Hs as [|? ? Hc Hs']; subst. cbn [encodeLoop].
  destruct (U16_NEXT_facts c s Hc Hs') as (n & E & Hn & _ & Hl).
  destruct (U16_NEXT c s) as [v rest]. cbn [fst snd] in *. subst rest.
  destruct (IH (drop n s)) as (bytes & -> & Hb); [rewrite length_drop; simpl in Hf; lia|by apply Forall_drop|].
  eexists. split; [done|]. rewrite length_app. rewrite length_drop in Hb. simpl. lia.
Qed.

(** C32: encoding any code units, surrogates in any order included,
    writes at most three bytes for each, which is the room that was made; and
    for the UTF-16 of scalar values the bytes are their UTF-8, which decodes to
    the same text without an error. *)
Theorem utf8_encode_decode address l characters :
  Forall isUnit characters -> Forall (fun c => isScalarValue c = true) l ->
  (exists bytes, encode characters = Some bytes) /\
  exists bytes k', encode (utf16s l) = Some bytes /\
    decode address bytes true false false newCodec = Some (utf16s l, false, k').
Proof.
  intros Hu Hl. split.
  - unfold encode. destruct (encodeLoop_total (S (length characters)) characters ltac:(lia) Hu) as (bytes & -> & Hb).
    destruct (Nat.leb_spec (length bytes) (length characters * 3)); [eauto|lia].
  - pose proof (utf8s_bytes l Hl) as Hb.
    destruct (decode_whole address (utf8s l) newCodec (proj1 newCodec_ok) eq_refl Hb) as (out & err & k' & E & _ & Hd).
    destruct (decodes_det _ _ _ (decodes_utf8s l Hl) _ _ Hd) as [-> ->].
    exists (utf8s l), k'. split; [|done]. unfold encode. rewrite encodeLoop_utf16s by (done || lia).
    assert (Hlen : (length (utf8s l) <= length (utf16s l) * 3)%nat).
    { clear. induction l as [|c l IH]; [done|]. change (utf8s (c :: l)) with (utf8 c ++ utf8s l).
      change (utf16s (c :: l)) with (utf16 c ++ utf16s l). rewrite !length_app. unfold utf8, utf16.
      destruct (Z.ltb_spec c 0x80), (Z.ltb_spec c 0x800), (Z.ltb_spec c 0x10000); simpl; lia. }
    by rewrite (proj2 (Nat.leb_le _ _) Hlen).
Qed.

Lemma utf8_encode_decode_witness :
  (exists bytes, encode [0xD800; 0x41] = Some bytes) /\
  exists bytes k', encode (utf16s [0x1F600; 0xE9]) = Some bytes /\
    decode 1 bytes true false false newCodec = Some (utf16s [0x1F600; 0xE9], false, k').
Proof.
  apply (utf8_encode_decode 1 [0x1F600; 0xE9] [0xD800; 0x41]); repeat constructor; lia.
Defined.
