(* ===== verification/TextCodecLatin1.v ===== *)
(** * [WebCore/platform/text/TextCodecLatin1.cpp]

    The decoder and the encoder of windows-1252, which also serve ISO-8859-1 and US-ASCII,
    and the replacements of [TextCodec.cpp] for characters that have no byte.  [None] is a
    failed assertion, an access outside a buffer, or a loop that is still running when its
    fuel is used up.

    The decoder copies whole words of ASCII.  It does not look at the byte behind the last
    word that it has copied, which is taken as it is even if it is not ASCII; this is the
    only difference to the table, and it depends on the address of the input. *)
From S2P Require Import Prelude Unicode TextCodecUTF8 TextCodecUTF8Facts.
From stdpp Require Import base list numbers option.
From Stdlib Require Import ZArith Lia.
#[local] Open Scope Z_scope.
Import TextCodecUTF8.

Module TextCodecLatin1.

Definition table : list Z := seqZ 0 128 ++ [
  0x20AC; 0x0081; 0x201A; 0x0192; 0x201E; 0x2026; 0x2020; 0x2021;
  0x02C6; 0x2030; 0x0160; 0x2039; 0x0152; 0x008D; 0x017D; 0x008F;
  0x0090; 0x2018; 0x2019; 0x201C; 0x201D; 0x2022; 0x2013; 0x2014;
  0x02DC; 0x2122; 0x0161; 0x203A; 0x0153; 0x009D; 0x017E; 0x0178] ++ seqZ 0xA0 96.

Section Decode.
(** The address behind the input. *)
Context (endAddress : Z).

(** [while (source < alignedEnd)]: the flag says that the loop is left by
    [goto useLookupTable]. *)
Fixpoint copyWords (fuel : nat) (destination source : list Z) : option (bool * list Z * list Z) :=
  match fuel with
  | O => None
  | S fuel =>
      if addressOf endAddress source <? alignToMachineWord endAddress then
        guard! (wordSize <=? length source)%nat in
        if negb (isAllASCII (machineWord source)) then Some (true, destination, source)
        else copyWords fuel (destination ++ take wordSize source) (drop wordSize source)
      else Some (false, destination, source)
  end.

(** What the body of [while (source < end)] does before it stores a character: whether
    the character is taken from the table. *)
Definition fastPath (destination source : list Z) : option (bool * list Z * list Z) :=
  match source with
  | [] => None
  | b :: _ =>
      if isASCII b then
        if isAlignedToMachineWord (addressOf endAddress source)
        then copyWords (S (length source)) destination source
        else Some (false, destination, source)
      else Some (true, destination, source)
  end.

(** The loop with the 8-bit output: the flag says that it is left by
    [goto upConvertTo16Bit]. *)
Fixpoint decodeLoop8 (fuel : nat) (destination source : list Z) : option (bool * list Z * list Z) :=
  match fuel with
  | O => None
  | S fuel =>
      match source with
      | [] => Some (false, destination, source)
      | _ =>
          match fastPath destination source with
          | None => None
          | Some (false, destination, []) => Some (false, destination, [])
          | Some (false, destination, b :: source) => decodeLoop8 fuel (destination ++ [b]) source
          | Some (true, destination, source) =>
              byteAt source 0 (fun b => byteAt table (Z.to_nat b) (fun u =>
              if 0xFF <? u then Some (true, destination, source)
              else decodeLoop8 fuel (destination ++ [u]) (drop 1 source)))
          end
      end
  end.

(** The loop with the 16-bit output. *)
Fixpoint decodeLoop16 (fuel : nat) (destination source : list Z) : option (list Z) :=
  match fuel with
  | O => None
  | S fuel =>
      match source with
      | [] => Some destination
      | _ =>
          match fastPath destination source with
          | None => None
          | Some (false, destination, []) => Some destination
          | Some (false, destination, b :: source) => decodeLoop16 fuel (destination ++ [b]) source
          | Some (true, destination, source) =>
              byteAt source 0 (fun b => byteAt table (Z.to_nat b) (fun u =>
              decodeLoop16 fuel (destination ++ [u]) (drop 1 source)))
          end
      end
  end.

(** The result with its [is8Bit()]. *)
Definition decode (bytes : list Z) : option (bool * list Z) :=
  if (length bytes =? 0)%nat then Some (true, [])
  else
    match decodeLoop8 (S (length bytes)) [] bytes with
    | None => None
    | Some (false, characters, _) => Some (true, characters)
    | Some (true, characters, source) =>
        byteAt source 0 (fun b => byteAt table (Z.to_nat b) (fun u =>
        match decodeLoop16 (length source) (characters ++ [u]) (drop 1 source) with
        | None => None
        | Some characters16 => Some (false, characters16)
        end))
    end.

End Decode.

(** ** Encoding *)

Inductive UnencodableHandling : Type :=
| QuestionMarksForUnencodables
| EntitiesForUnencodables
| URLEncodedEntitiesForUnencodables.

(** [%u]. *)
Fixpoint digits (fuel : nat) (n : Z) (l : list Z) : list Z :=
  match fuel with
  | O => l
  | S fuel => let l := (48 + n mod 10) :: l in if n / 10 =? 0 then l else digits fuel (n / 10) l
  end.

Definition decimal (n : Z) : list Z := digits 10 n [].

(** [snprintf] into an [UnencodableReplacementArray]. *)
Definition printed (l : list Z) : list Z := take 31 l.

Definition getUnencodableReplacement (codePoint : Z) (handling : UnencodableHandling) : list Z :=
  match handling with
  | QuestionMarksForUnencodables => lit "?"
  | EntitiesForUnencodables => printed (lit "&#" ++ decimal codePoint ++ lit ";")
  | URLEncodedEntitiesForUnencodables => printed (lit "%26%23" ++ decimal codePoint ++ lit "%3B")
  end.

(** [for (b = 0x80; b < 0xA0; ++b)]. *)
Fixpoint searchTable (n : nat) (b c : Z) : option Z :=
  match n with
  | O => None
  | S n => if bool_decide (table !! Z.to_nat b = Some c) then Some b else searchTable n (b + 1) c
  end.

Definition byteOf (c : Z) : option Z :=
  let b := uwrap 8 c in
  if negb (b =? c) || (Z.land c 0xE0 =? 0x80) then searchTable 32 0x80 c else Some b.

(** [result] holds the bytes that were written, of a vector of [size] bytes.
    [Vector::grow] asserts that the vector does not become smaller. *)
Fixpoint encodeLoop (fuel : nat) (handling : UnencodableHandling) (size : nat) (result characters : list Z)
  : option (list Z) :=
  match fuel with
  | O => None
  | S fuel =>
      match characters with
      | [] => Some result
      | u :: rest =>
          let '(c, rest) := U16_NEXT u rest in
          match byteOf c with
          | Some b =>
              guard! (length result <? size)%nat in
              encodeLoop fuel handling size (result ++ [b]) rest
          | None =>
              let replacement := getUnencodableReplacement c handling in
              let newSize := (length result + length replacement + length rest)%nat in
              guard! (size <=? newSize)%nat in
              encodeLoop fuel handling newSize (result ++ replacement) rest
          end
      end
  end.

Definition encodeComplexWindowsLatin1 (characters : list Z) (handling : UnencodableHandling) : option (list Z) :=
  encodeLoop (S (length characters)) handling (length characters) [] characters.

Definition encode (characters : list Z) (handling : UnencodableHandling) : option (list Z) :=
  let ored := foldl Z.lor 0 characters in
  if Z.land ored 0xFF80 =? 0 then Some (map (uwrap 8) characters)
  else encodeComplexWindowsLatin1 characters handling.

End TextCodecLatin1.

Import TextCodecLatin1.

(** ** Examples *)

Example table_length : length table = 256%nat.
Proof. reflexivity. Qed.

(** The same bytes at two addresses. *)
Example latin1_address :
  decode 17 (lit "abcdefgh" ++ [0x80]) = Some (true, lit "abcdefgh" ++ [0x80]) /\
  decode 16 (lit "abcdefgh" ++ [0x80]) = Some (false, lit "abcdefgh" ++ [0x20AC]).
Proof. split; vm_compute; reflexivity. Qed.

Example latin1_entities :
  encode [65; 0x20AC; 0x6DE] EntitiesForUnencodables = Some (lit "A" ++ [0x80] ++ lit "&#1758;") /\
  encode [0x6DE] URLEncodedEntitiesForUnencodables = Some (lit "%26%231758%3B") /\
  encode [0xD83D; 0xDE00] EntitiesForUnencodables = Some (lit "&#128512;") /\
  encode [0xD83D; 0xDE00] QuestionMarksForUnencodables = None.
Proof. split_and!; vm_compute; reflexivity. Qed.

(** ** What the decoder computes *)

Definition latin1 (b : Z) : Z := default 0 (table !! Z.to_nat b).

(** The address of the byte behind the last whole word, as an index. *)
Definition wordsEnd (endAddress : Z) (bytes : list Z) : nat := (length bytes - Z.to_nat (endAddress mod 8))%nat.

(** The byte that the decoder takes without looking at it. *)
Definition unseen (endAddress : Z) (bytes : list Z) : option nat :=
  let i := wordsEnd endAddress bytes in
  if (wordSize <=? i)%nat && forallb isASCII (take wordSize (drop (i - wordSize) bytes)) then Some i else None.

Definition decoded (endAddress : Z) (bytes : list Z) : list Z :=
  match unseen endAddress bytes with
  | Some i => <[i := default 0 (bytes !! i)]> (map latin1 bytes)
  | None => map latin1 bytes
  end.

Lemma land_words_zero b w m1 m : isByte b -> isByte m1 -> Z.land b m1 = 0 -> Z.land w m = 0 ->
  Z.land (b + 256 * w) (m1 + 256 * m) = 0.
Proof.
  unfold isByte. intros Hb Hm H1 H2. apply Z.bits_inj'. intros i Hi. rewrite Z.bits_0, Z.land_spec.
  assert (low : forall x y, 0 <= x < 256 -> i < 8 -> Z.testbit (x + 256 * y) i = Z.testbit x i).
  { intros x y Hx Hlt. rewrite <- (Z.mod_pow2_bits_low (x + 256 * y) 8 i) by lia. change (2 ^ 8) with 256.
    by rewrite Z.mul_comm, Z.mod_add, Z.mod_small by lia. }
  assert (high : forall x y, 0 <= x < 256 -> 8 <= i -> Z.testbit (x + 256 * y) i = Z.testbit y (i - 8)).
  { intros x y Hx Hge. replace i with ((i - 8) + 8) at 1 by lia. rewrite <- Z.div_pow2_bits by lia. change (2 ^ 8) with 256.
    by rewrite Z.mul_comm, Z.div_add, Z.div_small by lia. }
  destruct (Z.ltb_spec i 8) as [Hlt|Hge].
  - rewrite !low by done. by rewrite <- Z.land_spec, H1, Z.bits_0.
  - rewrite !high by done. by rewrite <- Z.land_spec, H2, Z.bits_0.
Qed.

Lemma ascii_land b : 0 <= b < 128 -> Z.land b 128 = 0.
Proof.
  intros Hb. assert (F : forallb (fun b => Z.land b 128 =? 0) (seqZ 0 128) = true) by (vm_compute; reflexivity).
  apply Z.eqb_eq, (forall_range _ _ _ F). lia.
Qed.

Lemma ascii_word l : Forall isByte l -> forallb isASCII l = true -> Z.land (word l) (word (replicate (length l) 128)) = 0.
Proof.
  induction 1 as [|b l Hb Hl IH]; [done|]. cbn [forallb]. intros [Ha Hall]%andb_prop. cbn [length replicate word foldr].
  unfold isASCII in Ha. apply Z.ltb_lt in Ha. apply land_words_zero; [done|unfold isByte; lia| |by apply IH].
  unfold isByte in Hb. apply ascii_land. lia.
Qed.

Lemma allASCII_spec source : Forall isByte source -> (wordSize <= length source)%nat ->
  isAllASCII (machineWord source) = forallb isASCII (take wordSize source).
Proof.
  intros Hs Hl. destruct (forallb isASCII (take wordSize source)) eqn:E.
  - apply Z.eqb_eq. apply ascii_word in E; [|by apply Forall_take]. rewrite length_take_le in E by done. exact E.
  - apply not_true_is_false. intros H. apply machineWord_ascii in H; [congruence|done|done].
Qed.

Section Decoding.
Context (endAddress : Z) (bytes : list Z) (Hbytes : Forall isByte bytes).

Lemma decoded_length : length (decoded endAddress bytes) = length bytes.
Proof. unfold decoded. case_match; [rewrite length_insert|]; by rewrite length_map. Qed.

Lemma byte_table b : isByte b -> table !! Z.to_nat b = Some (latin1 b).
Proof.
  intros Hb. unfold isByte in Hb. unfold latin1. destruct (lookup_lt_is_Some_2 table (Z.to_nat b)) as [u ->]; [|done].
  rewrite table_length. lia.
Qed.

Lemma latin1_ascii b : isByte b -> isASCII b = true -> latin1 b = b.
Proof.
  unfold isByte, isASCII. intros Hb Ha. apply Z.ltb_lt in Ha. apply Z.eqb_eq.
  assert (F : forallb (fun b => latin1 b =? b) (seqZ 0 128) = true) by (vm_compute; reflexivity).
  apply (forall_range _ _ _ F). lia.
Qed.

Lemma decoded_lookup i b : bytes !! i = Some b ->
  decoded endAddress bytes !! i = Some (if bool_decide (unseen endAddress bytes = Some i) then b else latin1 b).
Proof.
  intros Hi. pose proof (lookup_lt_Some _ _ _ Hi). unfold decoded. destruct (unseen endAddress bytes) as [j|].
  - destruct (decide (j = i)) as [->|Hne].
    + rewrite list_lookup_insert_eq by (rewrite length_map; lia). rewrite bool_decide_true by done. by rewrite Hi.
    + rewrite list_lookup_insert_ne by done. rewrite bool_decide_false by congruence. by rewrite list_lookup_fmap, Hi.
  - rewrite bool_decide_false by done. by rewrite list_lookup_fmap, Hi.
Qed.

Lemma decoded_ascii i b : bytes !! i = Some b -> isASCII b = true -> decoded endAddress bytes !! i = Some b.
Proof.
  intros Hi Ha. rewrite (decoded_lookup i b Hi). rewrite latin1_ascii; [by case_match|by apply (Forall_lookup_1 _ _ _ _ Hbytes Hi)|done].
Qed.

(** Between two rounds: the byte behind the words has not been reached by bytes. *)
Definition ahead (i : nat) : Prop := forall j, unseen endAddress bytes = Some j -> ~ (j - wordSize < i <= j)%nat.

Lemma unseen_spec j : unseen endAddress bytes = Some j ->
  j = wordsEnd endAddress bytes /\ (wordSize <= wordsEnd endAddress bytes)%nat /\ forallb isASCII (take wordSize (drop (wordsEnd endAddress bytes - wordSize) bytes)) = true.
Proof. unfold unseen. intros H. case_match eqn:C; [|done]. injection H as <-. apply andb_prop in C as [C1 C2]. apply Nat.leb_le in C1. done. Qed.

Lemma ahead_behind i : (wordsEnd endAddress bytes < i)%nat -> ahead i.
Proof. intros Hi j [-> _]%unseen_spec. lia. Qed.

(** The address of a position. *)
Lemma address_spec i : (i <= length bytes)%nat ->
  addressOf endAddress (drop i bytes) < alignToMachineWord endAddress <-> (i < wordsEnd endAddress bytes)%nat.
Proof. intros Hi. rewrite alignTo_spec. unfold addressOf, wordsEnd. rewrite length_drop, Nat2Z.inj_sub by done. divisions. lia. Qed.

Lemma aligned_words i : (i <= length bytes)%nat -> isAlignedToMachineWord (addressOf endAddress (drop i bytes)) = true -> (i < wordsEnd endAddress bytes)%nat ->
  exists m, wordsEnd endAddress bytes = (i + wordSize * S m)%nat.
Proof.
  intros Hi Ha%aligned_spec Hlt. unfold addressOf in Ha. rewrite length_drop, Nat2Z.inj_sub in Ha by done.
  exists (Z.to_nat ((Z.of_nat (wordsEnd endAddress bytes) - Z.of_nat i) / 8 - 1)). unfold wordsEnd, wordSize in *. divisions. lia.
Qed.

Lemma last_aligned : (wordSize <= wordsEnd endAddress bytes)%nat -> isAlignedToMachineWord (addressOf endAddress (drop (wordsEnd endAddress bytes - wordSize) bytes)) = true.
Proof.
  intros H8. apply aligned_spec. unfold addressOf. rewrite length_drop. unfold wordsEnd, wordSize in *. divisions. lia.
Qed.

Lemma take_agree i n : (i + n <= length bytes)%nat -> forallb isASCII (take n (drop i bytes)) = true ->
  take i (decoded endAddress bytes) ++ take n (drop i bytes) = take (i + n) (decoded endAddress bytes).
Proof.
  intros Hn Hall. rewrite <- take_take_drop. f_equal. apply list_eq. intros k.
  destruct (decide (k < n)%nat) as [Hk|Hk]; [|rewrite !lookup_take_ge by lia; done].
  rewrite !lookup_take_lt, !lookup_drop by lia.
  destruct (lookup_lt_is_Some_2 bytes (i + k)) as [b Hb]; [lia|]. rewrite Hb. symmetry. apply decoded_ascii; [done|].
  rewrite forallb_forall in Hall. apply Hall. rewrite <- list_elem_of_In. apply (list_elem_of_lookup_2 _ k).
  by rewrite lookup_take_lt, lookup_drop.
Qed.

(** The bytes from [i] to [i'] were copied. *)
Definition copiedTo (i i' : nat) : Prop :=
  (i <= i' <= length bytes)%nat /\ take i' (decoded endAddress bytes) = take i (decoded endAddress bytes) ++ take (i' - i) (drop i bytes).

Lemma copiedTo_refl i : (i <= length bytes)%nat -> copiedTo i i.
Proof. intros Hi. split; [lia|]. by rewrite Nat.sub_diag, take_0, app_nil_r. Qed.

Lemma copiedTo_word i i' : copiedTo (i + wordSize) i' -> forallb isASCII (take wordSize (drop i bytes)) = true -> copiedTo i i'.
Proof.
  intros [Hi E] Hw. split; [lia|]. rewrite E, <- take_agree, <- app_assoc by (done || lia). f_equal.
  rewrite <- drop_drop, take_take_drop. f_equal. lia.
Qed.

(** What the fast path has done when the character at [i'] is to be stored. *)
Definition arrived (i i' : nat) (table : bool) : Prop :=
  copiedTo i i' /\ ahead (i' + 1) /\
  if table then exists b, bytes !! i' = Some b /\ decoded endAddress bytes !! i' = Some (latin1 b)
  else forall b, bytes !! i' = Some b -> decoded endAddress bytes !! i' = Some b.

(** From an aligned address. *)
Lemma copyWords_ok fuel i : (length bytes - i < fuel)%nat -> (i <= length bytes)%nat ->
  isAlignedToMachineWord (addressOf endAddress (drop i bytes)) = true ->
  exists i' table, copyWords endAddress fuel (take i (decoded endAddress bytes)) (drop i bytes) = Some (table, take i' (decoded endAddress bytes), drop i' bytes) /\
    copiedTo i i' /\
    if table then exists m, wordsEnd endAddress bytes = (i' + wordSize * S m)%nat /\ forallb isASCII (take wordSize (drop i' bytes)) = false
    else (wordsEnd endAddress bytes <= i')%nat /\ (i' = i \/ i' = wordsEnd endAddress bytes /\ unseen endAddress bytes = Some i').
Proof.
  revert i. induction fuel as [|fuel IH]; intros i Hf Hi Ha; [lia|]. cbn [copyWords].
  destruct (Z.ltb_spec (addressOf endAddress (drop i bytes)) (alignToMachineWord endAddress)) as [Hlt|Hge].
  2:{ exists i, false. split; [done|]. split; [by apply copiedTo_refl|]. split; [|by left].
      destruct (decide (i < wordsEnd endAddress bytes)%nat) as [Hj|Hj]; [|lia]. apply address_spec in Hj; lia. }
  apply address_spec in Hlt; [|done]. destruct (aligned_words i Hi Ha Hlt) as [m Hm].
  assert (H8 : (i + wordSize <= length bytes)%nat) by (unfold wordsEnd in *; lia).
  rewrite (proj2 (Nat.leb_le wordSize _)) by (rewrite length_drop; lia).
  rewrite allASCII_spec; [|by apply Forall_drop|rewrite length_drop; lia].
  destruct (forallb isASCII (take wordSize (drop i bytes))) eqn:Hw; cbn [negb]; [|exists i, true; split; [done|]; split; [by apply copiedTo_refl|]; by exists m].
  rewrite take_agree, drop_drop by done.
  destruct (IH (i + wordSize)%nat) as (i' & table & -> & Hi' & Hend).
  { unfold wordSize in *. lia. } { done. }
  { apply aligned_spec. apply aligned_spec in Ha. unfold addressOf in *. rewrite length_drop in *. unfold wordSize in *. divisions. lia. }
  exists i', table. split; [done|]. split; [by apply copiedTo_word|]. destruct table; [done|]. destruct Hend as [H1 [->|H2]]; split; auto.
  right. unfold unseen. assert (Ej : wordsEnd endAddress bytes = (i + wordSize)%nat) by lia. split; [done|].
  rewrite Ej, (proj2 (Nat.leb_le wordSize _)) by lia. replace (i + wordSize - wordSize)%nat with i by lia. by rewrite Hw.
Qed.

Lemma fastPath_ok i : (i < length bytes)%nat -> ahead i ->
  exists i' table, fastPath endAddress (take i (decoded endAddress bytes)) (drop i bytes) = Some (table, take i' (decoded endAddress bytes), drop i' bytes) /\ arrived i i' table.
Proof.
  intros Hi Hah. destruct (lookup_lt_is_Some_2 bytes i Hi) as [b Hb]. unfold fastPath. rewrite (drop_S _ b i Hb).
  assert (Hseen : unseen endAddress bytes <> Some i).
  { intros Hu. apply (Hah i Hu). pose proof (unseen_spec _ Hu). unfold wordSize in *. lia. }
  assert (Hstep : (forall j, unseen endAddress bytes = Some j -> i <> (j - wordSize)%nat) -> ahead (i + 1)).
  { intros Hne j Hj Hr. specialize (Hah j Hj). specialize (Hne j Hj). pose proof (unseen_spec _ Hj). lia. }
  pose proof (decoded_lookup i b Hb) as Hd. rewrite bool_decide_false in Hd by done.
  destruct (isASCII b) eqn:Hasc.
  - rewrite <- (drop_S _ b i Hb). destruct (isAlignedToMachineWord _) eqn:Ha.
    + destruct (copyWords_ok (S (length (drop i bytes))) i) as (i' & table & -> & Hi' & Hend); [rewrite length_drop; lia|lia|done|].
      exists i', table. split; [done|]. split; [done|]. destruct table.
      * destruct Hend as (m & Hm & Hw). destruct (lookup_lt_is_Some_2 bytes i') as [b' Hb']; [unfold wordsEnd, wordSize in *; lia|]. split.
        -- intros j Hj Hr. apply unseen_spec in Hj as (-> & H8 & Hall). assert (m = 0)%nat as -> by (unfold wordSize in *; lia).
           replace (wordsEnd endAddress bytes - wordSize)%nat with i' in Hall by lia. congruence.
        -- exists b'. split; [done|]. rewrite (decoded_lookup i' b' Hb'). rewrite bool_decide_false; [done|].
           intros Hu. pose proof (unseen_spec _ Hu). unfold wordSize in *. lia.
      * destruct Hend as [HJ Hcase]. split; [apply ahead_behind; lia|]. intros b' Hb'. destruct Hcase as [->|[_ Hu]].
        -- rewrite Hb' in Hb. injection Hb as ->. by apply decoded_ascii.
        -- rewrite (decoded_lookup i' b' Hb'). by rewrite bool_decide_true.
    + exists i, false. split; [done|]. split; [apply copiedTo_refl; lia|]. split; [apply Hstep|].
      * intros j (-> & H8 & _)%unseen_spec ->. by rewrite last_aligned in Ha.
      * intros b' Hb'. rewrite Hb' in Hb. injection Hb as ->. by apply decoded_ascii.
  - rewrite <- (drop_S _ b i Hb). exists i, true. split; [done|]. split; [apply copiedTo_refl; lia|]. split; [|by exists b]. apply Hstep.
    intros j (-> & H8 & Hall)%unseen_spec ->. rewrite (drop_S _ b _ Hb) in Hall. cbn in Hall. by rewrite Hasc in Hall.
Qed.

(** Storing a character. *)
Lemma take_store i u : decoded endAddress bytes !! i = Some u -> take i (decoded endAddress bytes) ++ [u] = take (i + 1) (decoded endAddress bytes).
Proof. intros Hu. rewrite Nat.add_1_r. symmetry. by apply take_S_r. Qed.

Definition narrow (l : list Z) : bool := forallb (fun u => u <=? 0xFF) l.

Lemma narrow_store i u : decoded endAddress bytes !! i = Some u -> u <= 0xFF ->
  narrow (take i (decoded endAddress bytes)) = true -> narrow (take (i + 1) (decoded endAddress bytes)) = true.
Proof. intros Hi Hu Hn. rewrite <- (take_store i u Hi). unfold narrow in *. rewrite forallb_app, Hn. cbn. rewrite (proj2 (Z.leb_le _ _) Hu). done. Qed.

Lemma narrow_copied i i' : copiedTo i i' -> narrow (take i (decoded endAddress bytes)) = true -> narrow (take i' (decoded endAddress bytes)) = true.
Proof.
  intros [_ ->] Hn. unfold narrow in *. rewrite forallb_app, Hn. apply forallb_forall. intros u Hu. apply Z.leb_le.
  assert (Hf : Forall isByte (take (i' - i) (drop i bytes))) by (by apply Forall_take, Forall_drop).
  rewrite list.Forall_forall in Hf. apply list_elem_of_In, Hf in Hu. unfold isByte in Hu. lia.
Qed.

(** How the 8-bit loop ends. *)
Definition ended8 (i' : nat) (up : bool) : Prop :=
  narrow (take i' (decoded endAddress bytes)) = true /\
  if up then exists b, bytes !! i' = Some b /\ decoded endAddress bytes !! i' = Some (latin1 b) /\ 0xFF < latin1 b /\ ahead (i' + 1)
  else i' = length bytes.

Lemma latin1Loop8_ok fuel i : (length bytes - i < fuel)%nat -> (i <= length bytes)%nat -> ahead i ->
  narrow (take i (decoded endAddress bytes)) = true ->
  exists up i', decodeLoop8 endAddress fuel (take i (decoded endAddress bytes)) (drop i bytes) = Some (up, take i' (decoded endAddress bytes), drop i' bytes) /\ ended8 i' up.
Proof.
  revert i. induction fuel as [|fuel IH]; intros i Hf Hi Hah Hn; [lia|]. cbn [decodeLoop8].
  destruct (decide (i = length bytes)) as [->|Hne].
  { exists false, (length bytes). rewrite drop_all. done. }
  destruct (lookup_lt_is_Some_2 bytes i) as [b Hb]; [lia|]. pose proof (drop_S _ b i Hb) as Ed. destruct (drop i bytes) as [|x l] eqn:E; [done|]. rewrite <- E. clear Ed E x l.
  destruct (fastPath_ok i ltac:(lia) Hah) as (i' & table & -> & Hc & Hah' & Hend). apply (narrow_copied _ _ Hc) in Hn. destruct Hc as [Hi' _].
  destruct (bytes !! i') as [b'|] eqn:Hb'.
  2:{ destruct table; [by destruct Hend as (? & ? & _)|]. apply lookup_ge_None in Hb'. assert (i' = length bytes) as -> by lia.
      rewrite drop_all. by exists false, (length bytes); rewrite drop_all. }
  pose proof (lookup_lt_Some _ _ _ Hb'). pose proof (Forall_lookup_1 _ _ _ _ Hbytes Hb') as Hbyte. rewrite (drop_S _ b' i' Hb').
  destruct table.
  - destruct Hend as (? & [= <-] & Hd). unfold byteAt. cbn [lookup list_lookup]. rewrite (byte_table b' Hbyte).
    destruct (Z.ltb_spec 0xFF (latin1 b')) as [Hbig|Hsmall].
    + exists true, i'. rewrite <- (drop_S _ b' i' Hb'). split; [done|]. split; [done|]. by exists b'.
    + rewrite (take_store _ _ Hd). cbn [drop]. rewrite drop_0. replace (S i') with (i' + 1)%nat by lia.
      apply IH; [lia|lia|done|by apply (narrow_store _ (latin1 b'))].
  - rewrite (take_store _ _ (Hend b' eq_refl)). replace (S i') with (i' + 1)%nat by lia. apply IH; [lia|lia|done|].
    apply (narrow_store _ b'); [by apply Hend|unfold isByte in Hbyte; lia|done].
Qed.

Lemma latin1Loop16_ok fuel i : (length bytes - i < fuel)%nat -> (i <= length bytes)%nat -> ahead i ->
  decodeLoop16 endAddress fuel (take i (decoded endAddress bytes)) (drop i bytes) = Some (decoded endAddress bytes).
Proof.
  assert (Hall : take (length bytes) (decoded endAddress bytes) = decoded endAddress bytes) by (apply take_ge; by rewrite decoded_length).
  revert i. induction fuel as [|fuel IH]; intros i Hf Hi Hah; [lia|]. cbn [decodeLoop16].
  destruct (decide (i = length bytes)) as [->|Hne]; [by rewrite drop_all, Hall|].
  destruct (lookup_lt_is_Some_2 bytes i) as [b Hb]; [lia|]. pose proof (drop_S _ b i Hb) as Ed. destruct (drop i bytes) as [|x l] eqn:E; [done|]. rewrite <- E. clear Ed E x l.
  destruct (fastPath_ok i ltac:(lia) Hah) as (i' & table & -> & [Hi' _] & Hah' & Hend).
  destruct (bytes !! i') as [b'|] eqn:Hb'.
  2:{ destruct table; [by destruct Hend as (? & ? & _)|]. apply lookup_ge_None in Hb'. assert (i' = length bytes) as -> by lia.
      by rewrite drop_all, Hall. }
  pose proof (lookup_lt_Some _ _ _ Hb'). pose proof (Forall_lookup_1 _ _ _ _ Hbytes Hb') as Hbyte. rewrite (drop_S _ b' i' Hb').
  destruct table.
  - destruct Hend as (? & [= <-] & Hd). unfold byteAt. cbn [lookup list_lookup]. rewrite (byte_table b' Hbyte), (take_store _ _ Hd).
    cbn [drop]. rewrite drop_0. replace (S i') with (i' + 1)%nat by lia. apply IH; [lia|lia|done].
  - rewrite (take_store _ _ (Hend b' eq_refl)). replace (S i') with (i' + 1)%nat by lia. apply IH; [lia|lia|done].
Qed.

End Decoding.

Lemma decode_ok endAddress bytes : Forall isByte bytes ->
  decode endAddress bytes = Some (narrow (decoded endAddress bytes), decoded endAddress bytes).
Proof.
  intros Hb. unfold decode. destruct (Nat.eqb_spec (length bytes) 0) as [E|E].
  { apply length_zero_iff_nil in E. subst bytes. unfold decoded. by case_match. }
  destruct (latin1Loop8_ok endAddress bytes Hb (S (length bytes)) 0) as (up & i & Hl & Hn & Hend); [lia|lia| |done|].
  { intros j (-> & H8 & _)%unseen_spec. lia. }
  rewrite take_0, drop_0 in Hl. rewrite Hl. destruct up.
  - destruct Hend as (b & Hi & Hd & Hbig & Hah). pose proof (lookup_lt_Some _ _ _ Hi). rewrite (drop_S _ b i Hi). unfold byteAt. cbn [lookup list_lookup].
    rewrite (byte_table b) by (by apply (Forall_lookup_1 _ _ _ _ Hb Hi)). rewrite (take_store _ _ _ _ Hd). cbn [drop]. rewrite drop_0. cbn [length].
    replace (S i) with (i + 1)%nat by lia. rewrite latin1Loop16_ok; [|done|rewrite length_drop; lia|lia|done].
    f_equal. f_equal. symmetry. apply not_true_is_false. intros Hall. unfold narrow in Hall. rewrite forallb_forall in Hall.
    specialize (Hall (latin1 b)). rewrite <- list_elem_of_In in Hall. specialize (Hall (list_elem_of_lookup_2 _ _ _ Hd)). lia.
  - subst i. rewrite take_ge in Hn |- * by (by rewrite decoded_length). by rewrite Hn.
Qed.

(** ** What the encoder computes *)

Fixpoint codePoints (units : list Z) : list Z :=
  match units with
  | [] => []
  | u :: rest =>
      match rest with
      | [] => [u]
      | t :: rest' => if U16_IS_LEAD u && U16_IS_TRAIL t then U16_GET_SUPPLEMENTARY u t :: codePoints rest' else u :: codePoints rest
      end
  end.

Lemma codePoints_next u rest : codePoints (u :: rest) = fst (U16_NEXT u rest) :: codePoints (snd (U16_NEXT u rest)).
Proof. unfold U16_NEXT. destruct rest as [|t rest]; cbn [codePoints]; [by destruct (U16_IS_LEAD u)|]. by destruct (U16_IS_LEAD u), (U16_IS_TRAIL t). Qed.

(** One code unit, or a pair for a supplementary character. *)
Lemma next_cases u rest : isUnit u -> Forall isUnit rest ->
  U16_NEXT u rest = (u, rest) \/
  exists t rest' c, rest = t :: rest' /\ U16_NEXT u rest = (c, rest') /\ 0x10000 <= c <= 0x10FFFF.
Proof.
  unfold isUnit. intros Hu Hr. unfold U16_NEXT. destruct (U16_IS_LEAD u) eqn:Hl; [|by left]. destruct rest as [|t rest]; [by left|].
  destruct (U16_IS_TRAIL t) eqn:Ht; [|by left]. right. exists t, rest, (U16_GET_SUPPLEMENTARY u t). split; [done|]. split; [done|].
  apply Forall_cons_1 in Hr as [Hut _]. unfold isUnit in Hut. rewrite U16_IS_LEAD_spec in Hl by lia. rewrite U16_IS_TRAIL_spec in Ht by lia.
  unfold U16_GET_SUPPLEMENTARY, U16_SURROGATE_OFFSET. rewrite !Z.shiftl_mul_pow2 by lia. lia.
Qed.

(** A byte for a character, or its replacement. *)
Definition encodesAs (handling : UnencodableHandling) (c : Z) (l : list Z) : Prop :=
  (exists b, isByte b /\ latin1 b = c /\ l = [b]) \/
  (forall b, isByte b -> latin1 b <> c) /\ l = getUnencodableReplacement c handling.

Lemma searchTable_spec n : forall b c, 0 <= b -> b + Z.of_nat n <= 256 ->
  match searchTable n b c with
  | Some r => b <= r < b + Z.of_nat n /\ latin1 r = c
  | None => forall r, b <= r < b + Z.of_nat n -> latin1 r <> c
  end.
Proof.
  induction n as [|n IH]; intros b c Hb Hn; cbn [searchTable]; [lia|].
  rewrite (byte_table b) by (unfold isByte; lia). case_bool_decide as E.
  - injection E as E. split; [lia|done].
  - specialize (IH (b + 1) c ltac:(lia) ltac:(lia)). destruct (searchTable n (b + 1) c) as [r|]; [destruct IH; split; [lia|done]|].
    intros r Hr. destruct (Z.eq_dec r b) as [->|]; [congruence|]. apply IH. lia.
Qed.

(** The bytes from 80 to 9F are all that is not itself. *)
Lemma latin1_self b : isByte b -> negb ((0x80 <=? b) && (b <? 0xA0)) = true -> latin1 b = b.
Proof.
  unfold isByte. intros Hb H. apply Z.eqb_eq.
  assert (F : forallb (fun b => ((0x80 <=? b) && (b <? 0xA0)) || (latin1 b =? b)) (seqZ 0 256) = true) by (vm_compute; reflexivity).
  pose proof (forall_range _ _ _ F b ltac:(lia)) as G. cbv beta in G. apply negb_true_iff in H. by rewrite H in G.
Qed.

Lemma c1_spec c : isByte c -> (Z.land c 0xE0 =? 0x80) = (0x80 <=? c) && (c <? 0xA0).
Proof.
  unfold isByte. intros Hc. apply eqb_prop.
  assert (F : forallb (fun c => Bool.eqb (Z.land c 0xE0 =? 0x80) ((0x80 <=? c) && (c <? 0xA0))) (seqZ 0 256) = true) by (vm_compute; reflexivity).
  apply (forall_range _ _ _ F). lia.
Qed.

(** Characters below 100 that are not in the range have the byte themselves. *)
Lemma byteOf_spec c : 0 <= c ->
  match byteOf c with Some b => isByte b /\ latin1 b = c | None => forall b, isByte b -> latin1 b <> c end.
Proof.
  intros Hc. unfold byteOf. destruct (Z.eqb_spec (uwrap 8 c) c) as [E|E]; cbn [negb orb].
  - assert (Hb : isByte c) by (unfold isByte; pose proof (uwrap_range 8 c ltac:(lia)); lia). rewrite c1_spec by done. unfold isByte in *.
    destruct ((0x80 <=? c) && (c <? 0xA0)) eqn:Hr.
    + pose proof (searchTable_spec 32 0x80 c ltac:(lia) ltac:(lia)) as Hs. destruct (searchTable 32 0x80 c) as [r|]; [by destruct Hs; split; [lia|]|].
      intros b Hb'. destruct ((0x80 <=? b) && (b <? 0xA0)) eqn:Hr'; [apply Hs; lia|]. rewrite latin1_self by (done || by rewrite Hr'). intros ->. congruence.
    + rewrite E. split; [lia|]. apply latin1_self; [done|by rewrite Hr].
  - assert (Hbig : 256 <= c) by (destruct (Z.lt_ge_cases c 256); [by rewrite uwrap_id in E by lia|done]).
    pose proof (searchTable_spec 32 0x80 c ltac:(lia) ltac:(lia)) as Hs. destruct (searchTable 32 0x80 c) as [r|]; [by destruct Hs; split; [unfold isByte; lia|]|].
    intros b Hb'. unfold isByte in Hb'. destruct ((0x80 <=? b) && (b <? 0xA0)) eqn:Hr'; [apply Hs; lia|]. rewrite latin1_self by (done || by rewrite Hr'). lia.
Qed.

Lemma latin1_unit b : isByte b -> isUnit (latin1 b).
Proof.
  unfold isByte, isUnit. intros Hb.
  assert (F : forallb (fun b => (0 <=? latin1 b) && (latin1 b <? 0x10000)) (seqZ 0 256) = true) by (vm_compute; reflexivity).
  pose proof (forall_range _ _ _ F b ltac:(lia)) as G. cbv beta in G. lia.
Qed.

Definition encodeOne (handling : UnencodableHandling) (c : Z) : list Z :=
  match byteOf c with Some b => [b] | None => getUnencodableReplacement c handling end.

Lemma encodeOne_ok handling c : 0 <= c -> encodesAs handling c (encodeOne handling c).
Proof. intros Hc. unfold encodeOne. pose proof (byteOf_spec c Hc) as Hs. destruct (byteOf c) as [b|]; [left; exists b|right]; by destruct_and?. Qed.

(** A question mark for a pair makes the vector smaller. *)
Definition shrinks (handling : UnencodableHandling) (cs : list Z) : bool :=
  match handling with QuestionMarksForUnencodables => existsb (fun c => 0xFFFF <? c) cs | _ => false end.

Lemma digits_length fuel n l : (length l <= length (digits fuel n l))%nat.
Proof. revert n l. induction fuel as [|fuel IH]; intros n l; cbn [digits]; [done|]. case_match; cbn [length]; [lia|]. etrans; [|apply IH]. cbn. lia. Qed.

Lemma replacement_length c handling : (1 + (if handling is QuestionMarksForUnencodables then 0 else 1) <= length (getUnencodableReplacement c handling))%nat.
Proof. destruct handling; cbn [getUnencodableReplacement]; unfold printed; rewrite ?length_take, ?length_app; cbn; lia. Qed.

Lemma encodeLoop_ok fuel handling : forall result characters, (length characters < fuel)%nat -> Forall isUnit characters ->
  encodeLoop fuel handling (length result + length characters) result characters =
    if shrinks handling (codePoints characters) then None else Some (result ++ concat (map (encodeOne handling) (codePoints characters))).
Proof.
  induction fuel as [|fuel IH]; intros result characters Hf Hu; [lia|]. cbn [encodeLoop].
  destruct characters as [|u rest]; [cbn; rewrite app_nil_r; by destruct handling|]. apply Forall_cons_1 in Hu as [Hu Hrest].
  rewrite codePoints_next. cbn [length] in *. destruct (next_cases u rest Hu Hrest) as [->|(t & rest' & c & -> & -> & Hc)]; cbn [fst snd].
  - assert (Hsmall : shrinks handling (u :: codePoints rest) = shrinks handling (codePoints rest)).
    { unfold shrinks. cbn [existsb]. unfold isUnit in Hu. by rewrite (proj2 (Z.ltb_ge _ _)) by lia. }
    rewrite Hsmall. cbn [map concat]. unfold encodeOne at 1. destruct (byteOf u) as [b|].
    + rewrite (proj2 (Nat.ltb_lt _ _)) by lia.
      replace (length result + S (length rest))%nat with (length (result ++ [b]) + length rest)%nat by (rewrite length_app; cbn; lia).
      rewrite IH by (done || lia). by rewrite <- app_assoc.
    + pose proof (replacement_length u handling). rewrite (proj2 (Nat.leb_le _ _)) by lia.
      rewrite <- length_app, IH by (done || lia). by rewrite <- app_assoc.
  - apply Forall_cons_1 in Hrest as [_ Hrest]. cbn [map concat]. unfold encodeOne at 1. cbn [length] in *.
    pose proof (byteOf_spec c ltac:(lia)) as Hb. destruct (byteOf c) as [b|].
    { destruct Hb as [Hb E]. pose proof (latin1_unit b Hb). unfold isUnit in *. lia. }
    pose proof (replacement_length c handling). destruct handling; cbn [shrinks existsb].
    + rewrite (proj2 (Z.ltb_lt _ _)) by lia. cbn [orb]. by rewrite (proj2 (Nat.leb_gt _ _)) by (cbn; lia).
    + rewrite (proj2 (Nat.leb_le _ _)) by lia. rewrite <- length_app, IH by (done || lia). cbn [shrinks]. by rewrite <- app_assoc.
    + rewrite (proj2 (Nat.leb_le _ _)) by lia. rewrite <- length_app, IH by (done || lia). cbn [shrinks]. by rewrite <- app_assoc.
Qed.

(** ** The fast path *)

Lemma high_bits c : isUnit c -> Z.land c 0xFF80 = 0 -> 0 <= c < 128.
Proof.
  unfold isUnit. intros Hc H. assert (E : Z.land c (Z.lor 0xFF80 0x7F) = c).
  { change (Z.lor 0xFF80 0x7F) with 0xFFFF. rewrite (land_low _ 16) by (done || lia). apply Z.mod_small. lia. }
  rewrite Z.land_lor_distr_r, H, Z.lor_0_l, (land_low _ 7) in E by (done || lia). rewrite <- E. apply Z.mod_pos_bound. lia.
Qed.

Lemma ored_ascii l : forall a, Forall isUnit l -> Z.land (foldl Z.lor a l) 0xFF80 = 0 -> Forall (fun c => 0 <= c < 128) l.
Proof.
  assert (Hsub : forall l a, Z.land (foldl Z.lor a l) 0xFF80 = 0 -> Z.land a 0xFF80 = 0).
  { clear l. induction l as [|c l IH]; intros a H; [done|]. cbn in H. apply IH in H. rewrite Z.land_lor_distr_l in H. by apply Z.lor_eq_0_iff in H as [H _]. }
  induction l as [|c l IH]; intros a Hu H; [constructor|]. apply Forall_cons_1 in Hu as [Hc Hu]. cbn [foldl] in H. constructor; [|by apply (IH (Z.lor a c))].
  apply Hsub in H. rewrite Z.land_lor_distr_l in H. apply Z.lor_eq_0_iff in H as [_ H]. by apply high_bits.
Qed.

Lemma ascii_points l : Forall (fun c => 0 <= c < 128) l -> codePoints l = l.
Proof.
  induction 1 as [|u l Hu Hl IH]; [done|]. rewrite codePoints_next. unfold U16_NEXT. rewrite U16_IS_LEAD_spec by lia.
  rewrite (proj2 (Z.leb_gt 0xD800 u)) by lia. cbn [andb fst snd]. by rewrite IH.
Qed.

Lemma ascii_one handling c : 0 <= c < 128 -> encodeOne handling c = [uwrap 8 c].
Proof.
  intros Hc. unfold encodeOne, byteOf. rewrite uwrap_id by lia. rewrite Z.eqb_refl. rewrite c1_spec by (unfold isByte; lia).
  by rewrite (proj2 (Z.leb_gt 0x80 c)) by lia.
Qed.

Lemma ascii_all handling l : Forall (fun c => 0 <= c < 128) l ->
  shrinks handling l = false /\ concat (map (encodeOne handling) l) = map (uwrap 8) l.
Proof.
  induction 1 as [|u l Hu Hl [IH1 IH2]]; [by destruct handling|]. cbn [map concat]. rewrite ascii_one, IH2 by done. split; [|done].
  destruct handling; [|done..]. cbn [shrinks existsb] in *. by rewrite IH1, (proj2 (Z.ltb_ge _ _)) by lia.
Qed.

Lemma encode_ok characters handling : Forall isUnit characters ->
  encode characters handling = if shrinks handling (codePoints characters) then None else Some (concat (map (encodeOne handling) (codePoints characters))).
Proof.
  intros Hu. unfold encode. destruct (Z.eqb_spec (Z.land (foldl Z.lor 0 characters) 0xFF80) 0) as [E|_].
  - apply ored_ascii in E; [|done]. rewrite (ascii_points _ E). by destruct (ascii_all handling _ E) as [-> ->].
  - unfold encodeComplexWindowsLatin1. apply (encodeLoop_ok _ handling [] characters); [lia|done].
Qed.

Lemma codePoints_range units : Forall isUnit units -> Forall (fun c => 0 <= c) (codePoints units).
Proof.
  remember (length units) as n eqn:Hn. revert units Hn. induction n as [n IH] using lt_wf_ind. intros [|u rest] Hn Hu; [constructor|].
  apply Forall_cons_1 in Hu as [Hu Hr]. rewrite codePoints_next. cbn [length] in Hn.
  destruct (next_cases u rest Hu Hr) as [->|(t & rest' & c & -> & -> & Hc)]; cbn [fst snd].
  - constructor; [unfold isUnit in Hu; lia|]. apply (IH (length rest)); [lia|done|done].
  - apply Forall_cons_1 in Hr as [_ Hr]. constructor; [lia|]. cbn [length] in Hn. apply (IH (length rest')); [lia|done|done].
Qed.

Lemma decoded_units endAddress bytes : Forall isByte bytes -> Forall (fun c => 0 <= c) (decoded endAddress bytes).
Proof.
  intros Hb. apply Forall_lookup. intros i c Hi. destruct (lookup_lt_is_Some_2 bytes i) as [b Hl]; [rewrite <- (decoded_length endAddress bytes); by apply lookup_lt_Some in Hi|].
  rewrite (decoded_lookup _ _ _ _ Hl) in Hi. injection Hi as <-. pose proof (Forall_lookup_1 _ _ _ _ Hb Hl) as Hr. pose proof (latin1_unit b Hr). unfold isByte, isUnit in *. case_match; lia.
Qed.

(** ** Theorems *)

(** C15: the decoder with its copying of words and its two output
    widths returns, for all bytes at all addresses, the characters of the table, in 8 bits
    exactly if they all fit, with one exception: the byte behind the last whole word is
    taken as it is when the eight bytes before it are ASCII.  So the result is the table's
    whenever that byte is ASCII, or there is none. *)
Theorem latin1_decode_correct (endAddress : Z) (bytes : list Z) (Hbytes : Forall isByte bytes) :
  exists characters,
    decode endAddress bytes = Some (forallb (fun u => u <=? 0xFF) characters, characters) /\
    length characters = length bytes /\
    (forall i b, bytes !! i = Some b ->
       characters !! i = Some (if bool_decide (unseen endAddress bytes = Some i) then b else latin1 b)) /\
    ((forall i b, unseen endAddress bytes = Some i -> bytes !! i = Some b -> isASCII b = true) -> characters = map latin1 bytes).
Proof.
  exists (decoded endAddress bytes). split; [by apply decode_ok|]. split; [apply decoded_length|]. split; [by apply decoded_lookup|].
  intros Ha. apply list_eq. intros i. rewrite list_lookup_fmap. destruct (bytes !! i) as [b|] eqn:Hi; cbn.
  - rewrite (decoded_lookup _ _ _ _ Hi). case_bool_decide as Hu; [|done]. by rewrite latin1_ascii; [|apply (Forall_lookup_1 _ _ _ _ Hbytes Hi)|apply (Ha i)].
  - apply lookup_ge_None. rewrite decoded_length. by apply lookup_ge_None.
Qed.

(** C16: the encoder writes for every character the byte that the table
    decodes to it, or the replacement if there is none; nothing is written outside the
    vector.  It fails exactly when question marks are wanted and there is a surrogate pair:
    then the vector would have to become smaller in [Vector::grow]. *)
Theorem latin1_encode_correct (characters : list Z) (handling : UnencodableHandling) (Hunits : Forall isUnit characters) :
  let failing := handling = QuestionMarksForUnencodables /\ Exists (fun c => 0xFFFF < c) (codePoints characters) in
  match encode characters handling with
  | None => failing
  | Some bytes => ~ failing /\ exists pieces, Forall2 (encodesAs handling) (codePoints characters) pieces /\ bytes = concat pieces
  end.
Proof.
  intros failing. rewrite encode_ok by done. destruct (shrinks handling (codePoints characters)) eqn:Hs.
  - destruct handling; [|done..]. split; [done|]. apply List.Exists_exists. apply existsb_exists in Hs as (c & Hin & Hc). exists c. split; [done|lia].
  - split.
    + intros [-> Hex]. apply List.Exists_exists in Hex as (c & Hin & Hc). cbn [shrinks] in Hs.
      assert (Ht : existsb (fun c => 0xFFFF <? c) (codePoints characters) = true) by (apply existsb_exists; exists c; split; [done|lia]). congruence.
    + exists (map (encodeOne handling) (codePoints characters)). split; [|done]. pose proof (codePoints_range _ Hunits) as Hr. clear Hs failing.
      induction Hr as [|c l Hc Hl IH]; constructor; [by apply encodeOne_ok|done].
Qed.

Lemma range_check lo hi l : forallb (fun b => (lo <=? b) && (b <? hi)) l = true -> Forall (fun b => lo <= b < hi) l.
Proof. intros E. apply List.Forall_forall. intros b Hb. rewrite forallb_forall in E. specialize (E b Hb). lia. Qed.

Definition exampleBytes : list Z := lit "caf" ++ [0xE9; 0x80].

Lemma latin1_decode_correct_witness : decode 16 exampleBytes = Some (false, lit "caf" ++ [0xE9; 0x20AC]).
Proof.
  destruct (latin1_decode_correct 16 exampleBytes (range_check 0 256 exampleBytes eq_refl)) as (characters & E & _ & _ & Hm).
  assert (Hu : unseen 16 exampleBytes = None) by (vm_compute; reflexivity).
  assert (Ec : characters = map latin1 exampleBytes) by (apply Hm; intros i b; rewrite Hu; discriminate).
  rewrite E, Ec. vm_compute. reflexivity.
Defined.

Lemma latin1_encode_correct_witness :
  exists pieces, Forall2 (encodesAs EntitiesForUnencodables) (codePoints [65; 0xD83D; 0xDE00]) pieces /\ lit "A&#128512;" = concat pieces.
Proof.
  pose proof (latin1_encode_correct [65; 0xD83D; 0xDE00] EntitiesForUnencodables (range_check 0 0x10000 [65; 0xD83D; 0xDE00] eq_refl)) as H.
  assert (E : encode [65; 0xD83D; 0xDE00] EntitiesForUnencodables = Some (lit "A&#128512;")) by (vm_compute; reflexivity).
  cbv zeta in H. rewrite E in H. exact (proj2 H).
Defined.
