(* ===== verification/HTMLMetaCharsetParser.v ===== *)
(** * [WebCore/html/parser/HTMLMetaCharsetParser.cpp]

    The scanner that looks for the encoding of a document in its first bytes: it decodes
    them as windows-1252, tokenizes them and reads the [meta] tags.  With it
    [stripLeadingAndTrailingHTMLSpaces] of [HTMLParserIdioms.cpp], the search of
    [StringImpl.cpp] and the canonical names of [TextEncodingRegistry.cpp]; which names are
    registered depends on ICU and is a parameter.  [None] is a failed assertion of the
    parser or of what it calls, or a loop that is still running when its fuel is used up. *)
From S2P Require Import Prelude Unicode CharSource SegmentedString SegmentedStringRefinement HTMLToken InputStreamPreprocessor HTMLEntitySearch HTMLEntityParser HTMLEntityFacts.
From S2P Require Import HTMLTokenizer HTMLTokenizerRules HTMLTokenizerSafety HTMLTokenizerRefinement HTMLPreloadScanner HTMLPreloadScannerSafety HTMLTokenizerProps CSSPreloadScanner TextCodecUTF8 TextCodecLatin1.
From stdpp Require Import base list numbers option.
From Stdlib Require Import ZArith Lia.
#[local] Open Scope Z_scope.
Import HTMLToken.

(** ** Strings *)

(** [String::operator[]], which is 0 outside the string. *)
Definition at_ (s : list Z) (i : nat) : Z := default 0 (s !! i).

(** [while (!equalIgnoringCase(searchCharacters + i, matchString, matchLength))]. *)
Fixpoint findLoop `{FoldCase} (delta : nat) (search matchString : list Z) (position : nat) : option nat :=
  if equal_chars false (take (length matchString) search) matchString then Some position
  else
    match delta with
    | O => None
    | S delta => findLoop delta (drop 1 search) matchString (S position)
    end.

Definition findIgnoringCase `{FoldCase} (s matchString : list Z) (index : nat) : option nat :=
  if (length matchString =? 0)%nat then Some (min index (length s))
  else if (length s <? index)%nat then None
  else
    let searchLength := (length s - index)%nat in
    if (searchLength <? length matchString)%nat then None
    else findLoop (searchLength - length matchString) (drop index s) matchString index.

(** The loops of [stripLeadingAndTrailingHTMLSpaces]. *)
Fixpoint leadingSpaces (n : nat) (characters : list Z) (count : nat) : nat :=
  match n with
  | O => count
  | S n => if negb (isHTMLSpace (at_ characters count)) then count else leadingSpaces n characters (S count)
  end.

Fixpoint trailingSpaces (n : nat) (characters : list Z) (count : nat) : nat :=
  match n with
  | O => count
  | S n =>
      if negb (isHTMLSpace (at_ characters (length characters - count - 1))) then count
      else trailingSpaces n characters (S count)
  end.

Definition stripLeadingAndTrailingHTMLSpaces (string : list Z) : option (list Z) :=
  let length := length string in
  if (length =? 0)%nat then Some []
  else
    let numLeadingSpaces := leadingSpaces length string 0 in
    if (numLeadingSpaces =? length)%nat then Some []
    else
      let numTrailingSpaces := trailingSpaces length string 0 in
      guard! (numLeadingSpaces + numTrailingSpaces <? length)%nat in
      Some (take (length - (numLeadingSpaces + numTrailingSpaces)) (drop numLeadingSpaces string)).

(** ** Encodings *)

(** [textEncodingNameMap], with its comparison that ignores the case. *)
Class Registry := registered : list Z -> option (list Z).

Definition maxEncodingNameLength : nat := 63.

(** A character array up to its NUL. *)
Fixpoint cString (l : list Z) : list Z :=
  match l with
  | [] => []
  | c :: l => if c =? 0 then [] else c :: cString l
  end.

Definition atomicCanonicalTextEncodingName `{Registry} (alias : list Z) : option (list Z) :=
  if (length alias =? 0)%nat then None
  else if (maxEncodingNameLength <? length alias)%nat then None
  else
    match cString (map (uwrap 8) alias) with
    | [] => None
    | name => registered name
    end.

(** [TextEncoding]: the name, if it is valid. *)
Definition TextEncoding : Type := option (list Z).

Definition newTextEncoding `{Registry} (name : list Z) : TextEncoding := atomicCanonicalTextEncodingName name.

(** ** The charset of an attribute *)

Definition charsetString : list Z := lit "charset".

(** [while (pos < length && value[pos] <= ' ')]. *)
Fixpoint skipWhitespace (n : nat) (value : list Z) (pos : nat) : nat :=
  match n with
  | O => pos
  | S n => if (pos <? length value)%nat && (at_ value pos <=? 32) then skipWhitespace n value (S pos) else pos
  end.

Definition isQuote (c : Z) : bool := (c =? 34) || (c =? 39).

Definition endsValue (quoteMark c : Z) : bool :=
  negb ((negb (quoteMark =? 0) && negb (c =? quoteMark)) ||
        ((quoteMark =? 0) && (32 <? c) && negb (c =? 34) && negb (c =? 39) && negb (c =? 59))).

Fixpoint findEnd (n : nat) (value : list Z) (quoteMark : Z) (pos : nat) : nat :=
  match n with
  | O => pos
  | S n => if (pos <? length value)%nat && negb (endsValue quoteMark (at_ value pos)) then findEnd n value quoteMark (S pos) else pos
  end.

(** From behind the equals sign: [None] is [break]. *)
Definition extractValue (value : list Z) (pos : nat) : option (list Z) :=
  let length := length value in
  let pos := skipWhitespace length value pos in
  let '(quoteMark, pos) :=
    if (pos <? length)%nat && isQuote (at_ value pos) then (at_ value pos, S pos) else (0, pos) in
  if (pos =? length)%nat then None
  else
    let end_ := findEnd length value quoteMark pos in
    if negb (quoteMark =? 0) && (end_ =? length)%nat then None
    else Some (take (end_ - pos) (drop pos value)).

Fixpoint extractLoop `{FoldCase} (fuel : nat) (value : list Z) (pos : nat) : option (list Z) :=
  match fuel with
  | O => None
  | S fuel =>
      if (pos <? length value)%nat then
        match findIgnoringCase value charsetString pos with
        | None => Some []
        | Some pos =>
            let pos := skipWhitespace (length value) value (pos + length charsetString) in
            if negb (at_ value pos =? 61) then extractLoop fuel value pos
            else Some (default [] (extractValue value (S pos)))
        end
      else Some []
  end.

Definition extractCharset `{FoldCase} (value : list Z) : option (list Z) :=
  extractLoop (S (length value)) value 0.

(** ** The attributes of a [meta] tag *)

Inductive Mode : Type := NoMode | Charset | Pragma.

Record MetaState : Type := mkMetaState { gotPragma : bool; mode : Mode; charset : list Z }.

Definition metaAttribute `{FoldCase} (st : MetaState) (attribute : list Z * list Z) : option MetaState :=
  let '(attributeName, attributeValue) := attribute in
  if lists_eqb attributeName (lit "http-equiv") then
    Some (if equal_chars false attributeValue (lit "content-type") then mkMetaState true (mode st) (charset st) else st)
  else if (length (charset st) =? 0)%nat then
    if lists_eqb attributeName (lit "charset") then Some (mkMetaState (gotPragma st) Charset attributeValue)
    else if lists_eqb attributeName (lit "content") then
      match extractCharset attributeValue with
      | None => None
      | Some charset => Some (mkMetaState (gotPragma st) (if (length charset =? 0)%nat then mode st else Pragma) charset)
      end
    else Some st
  else Some st.

Fixpoint metaAttributes `{FoldCase} (st : MetaState) (attributes : list (list Z * list Z)) : option MetaState :=
  match attributes with
  | [] => Some st
  | a :: attributes => match metaAttribute st a with None => None | Some st => metaAttributes st attributes end
  end.

Definition encodingFromMetaAttributes `{FoldCase} `{Registry} (attributes : list (list Z * list Z)) : option TextEncoding :=
  match metaAttributes (mkMetaState false NoMode []) attributes with
  | None => None
  | Some st =>
      if match mode st with Charset => true | Pragma => gotPragma st | NoMode => false end
      then match stripLeadingAndTrailingHTMLSpaces (charset st) with None => None | Some name => Some (newTextEncoding name) end
      else Some None
  end.

(** ** The parser *)

Definition bytesToCheckUnconditionally : Z := 1024.

(** [HTMLParserOptions()]. *)
Definition defaultOptions : HTMLParserOptions := mkOptions false false false.

(** The tags that may be in the head section. *)
Definition leavesHead (token : HTMLToken) : bool :=
  let end_ := hasType EndTag token in
  let tagIs s := lists_eqb (m_data token) s in
  (end_ || hasType StartTag token) &&
  (negb (tagIs (lit "script")) && negb (tagIs (lit "noscript")) && negb (tagIs (lit "style")) && negb (tagIs (lit "link"))
   && negb (tagIs (lit "meta")) && negb (tagIs (lit "object")) && negb (tagIs (lit "title")) && negb (tagIs (lit "base"))
   && (end_ || negb (tagIs (lit "html"))) && (end_ || negb (tagIs (lit "head")))).

Section Parser.
Context `{FoldCase} `{EntityTable} `{Registry} {Src : Type} `{HS : CharSource Src} `{HI : InputSource Src}.

(** [m_token] is a field of the tokenizer. *)
Record HTMLMetaCharsetParser : Type := mkMetaParser {
  m_tokenizer : HTMLTokenizer;
  m_input : Src;
  m_inHeadSection : bool;
  m_doneChecking : bool;
  m_encoding : TextEncoding
}.

Definition newMetaParser (input : Src) : HTMLMetaCharsetParser := mkMetaParser (newTokenizer defaultOptions) input true false None.

Definition processMeta (token : HTMLToken) : option TextEncoding :=
  encodingFromMetaAttributes (map (fun a => (attr_name a, attr_value a)) (m_attributes token)).

(** What a start tag with the name [meta] says; nothing for other tokens. *)
Definition isMeta (token : HTMLToken) : bool := hasType StartTag token && lists_eqb (m_data token) (lit "meta").

Definition metaEncoding (token : HTMLToken) : option TextEncoding := if isMeta token then processMeta token else Some None.

(** [while (m_tokenizer->nextToken(m_input, m_token))]; the result is that of
    [checkForMetaCharset]. *)
Fixpoint checkLoop (fuel : nat) (p : HTMLMetaCharsetParser) : option (bool * HTMLMetaCharsetParser) :=
  match fuel with
  | O => None
  | S fuel =>
      match nextToken (m_tokenizer p) (m_input p) with
      | None => None
      | Some (false, t, s) => Some (false, mkMetaParser t s (m_inHeadSection p) (m_doneChecking p) (m_encoding p))
      | Some (true, t, s) =>
          let token := m_token t in
          let t := if hasType StartTag token then updateStateFor (m_data token) t else t in
          match metaEncoding token with
          | None => None
          | Some (Some e) => Some (true, mkMetaParser t s (m_inHeadSection p) true (Some e))
          | Some None =>
              let encoding := if isMeta token then None else m_encoding p in
              let inHead := m_inHeadSection p && negb (leavesHead token) in
              if negb inHead && (bytesToCheckUnconditionally <=? numberOfCharactersConsumed s)
              then Some (true, mkMetaParser t s inHead true encoding)
              else checkLoop fuel (mkMetaParser (set_token (clear (m_token t)) t) s inHead (m_doneChecking p) encoding)
          end
      end
  end.

(** The bytes are given with the address behind them. *)
Definition checkForMetaCharset (endAddress : Z) (data : list Z) (p : HTMLMetaCharsetParser) : option (bool * HTMLMetaCharsetParser) :=
  if m_doneChecking p then Some (true, p)
  else
    guard! (match m_encoding p with None => true | Some _ => false end) in
    match TextCodecLatin1.decode endAddress data with
    | None => None
    | Some (is8Bit, text) =>
        let input := appendString is8Bit text (m_input p) in
        checkLoop (scanFuel input) (mkMetaParser (m_tokenizer p) input (m_inHeadSection p) (m_doneChecking p) (m_encoding p))
    end.

(** [TextResourceDecoder::checkForMetaCharset] for the data as it arrives: the parser is
    dropped when it is done. *)
Fixpoint checkChunks (chunks : list (Z * list Z)) (p : HTMLMetaCharsetParser) : option (bool * HTMLMetaCharsetParser) :=
  match chunks with
  | [] => Some (false, p)
  | (endAddress, data) :: chunks =>
      match checkForMetaCharset endAddress data p with
      | Some (false, p) => checkChunks chunks p
      | r => r
      end
  end.

End Parser.
Arguments HTMLMetaCharsetParser : clear implicits.

(** ** Examples *)

Section Examples.
#[local] Instance metaFold : FoldCase := asciiFold.
#[local] Instance metaTable : EntityTable := exampleTable.

(** Two encodings. *)
#[local] Instance exampleRegistry : Registry := fun name =>
  let name := map asciiFold name in
  if lists_eqb name (lit "utf-8") then Some (lit "UTF-8")
  else if lists_eqb name (lit "latin1") then Some (lit "ISO-8859-1")
  else None.

Definition foundEncoding (chunks : list (list Z)) : option (bool * TextEncoding) :=
  match checkChunks (map (pair 0) chunks) (newMetaParser (Stream.of_chars [])) with
  | None => None
  | Some (b, p) => Some (b, m_encoding p)
  end.

Example meta_found :
  foundEncoding [lit "<html><head><title><meta charset=latin1></title><me"; lit "ta Charset=' Utf-8 '><body>"] = Some (true, Some (lit "UTF-8")) /\
  foundEncoding [lit "<meta http-equiv=Content-Type content='text/html; charset  = utf-8; x'>"] = Some (true, Some (lit "UTF-8")) /\
  foundEncoding [lit "<meta content='text/html; charset=utf-8'>"] = Some (false, None) /\
  foundEncoding [lit "<body><meta charset=utf-8>"] = Some (true, Some (lit "UTF-8")).
Proof. split_and!; vm_compute; reflexivity. Qed.

(** The contents of [noscript] are scanned: the tokenizer has the default options, in
    which scripts are not enabled. *)
Example noscript_scanned :
  foundEncoding [lit "<head><noscript><meta charset=latin1></noscript><meta charset=utf-8>"] = Some (true, Some (lit "ISO-8859-1")).
Proof. vm_compute. reflexivity. Qed.

(** An attribute [charset] after an attribute [content] with a charset is not looked at. *)
Example content_first :
  foundEncoding [lit "<meta content='charset=latin1' charset=utf-8>"] = Some (false, None) /\
  foundEncoding [lit "<meta charset=utf-8 content='charset=latin1'>"] = Some (true, Some (lit "UTF-8")).
Proof. split; vm_compute; reflexivity. Qed.

(** Characters outside Latin-1 are cut to a byte: this name begins with U+0155. *)
Example name_truncated : newTextEncoding [0x155; 84; 70; 45; 56] = Some (lit "UTF-8").
Proof. vm_compute. reflexivity. Qed.

End Examples.

(** ** The charset of an attribute, without positions *)

Fixpoint skipBlank (l : list Z) : list Z :=
  match l with
  | [] => []
  | c :: l' => if c <=? 32 then skipBlank l' else l
  end.

Fixpoint takeWhile (p : Z -> bool) (l : list Z) : list Z :=
  match l with
  | [] => []
  | c :: l => if p c then c :: takeWhile p l else []
  end.

(** A quoted value must be closed; another one ends at a blank, a quote or a semicolon. *)
Definition charsetValue (l : list Z) : list Z :=
  match l with
  | [] => []
  | q :: r =>
      if isQuote q then if existsb (Z.eqb q) r then takeWhile (fun c => negb (c =? q)) r else []
      else takeWhile (fun c => (32 <? c) && negb (isQuote c) && negb (c =? 59)) l
  end.

(** The first place where the word and an equals sign come one after the other. *)
Fixpoint charsetOf `{FoldCase} (l : list Z) : list Z :=
  match l with
  | [] => []
  | _ :: l' =>
      if equal_chars false (take (length charsetString) l) charsetString then
        match skipBlank (drop (length charsetString) l) with
        | c :: r => if c =? 61 then charsetValue (skipBlank r) else charsetOf l'
        | [] => charsetOf l'
        end
      else charsetOf l'
  end.

(** What ICU does to ASCII. *)
Class FoldASCII `{FoldCase} : Prop := fold_ascii c : 0 <= c < 128 -> foldCase c = asciiFold c.

Lemma at_drop (value : list Z) pos c l : drop pos value = c :: l -> at_ value pos = c /\ (pos < length value)%nat /\ drop (S pos) value = l.
Proof.
  intros E. assert (Hl : value !! pos = Some c) by (rewrite <- (Nat.add_0_r pos), <- lookup_drop, E; done).
  split; [unfold at_; by rewrite Hl|]. split; [by apply lookup_lt_Some in Hl|]. rewrite (drop_S _ _ _ Hl) in E. by injection E.
Qed.

Lemma at_cases (value : list Z) pos : (pos <= length value)%nat -> (pos = length value /\ drop pos value = []) \/ exists c l, drop pos value = c :: l.
Proof. intros H. destruct (drop pos value) as [|c l] eqn:E; [left|right; eauto]. split; [|done]. apply (f_equal length) in E. rewrite length_drop in E. cbn in E. lia. Qed.

Lemma skipWhitespace_ok value : forall n pos, (length value - pos <= n)%nat -> (pos <= length value)%nat ->
  (pos <= skipWhitespace n value pos <= length value)%nat /\ drop (skipWhitespace n value pos) value = skipBlank (drop pos value) /\
  forall k, (pos <= k < skipWhitespace n value pos)%nat -> at_ value k <= 32.
Proof.
  induction n as [|n IH]; intros pos Hn Hp; cbn [skipWhitespace].
  - assert (pos = length value) as -> by lia. rewrite drop_all. split; [lia|]. split; [done|lia].
  - destruct (at_cases value pos Hp) as [[-> E]|(c & l & E)].
    + rewrite Nat.ltb_irrefl, E. cbn [andb]. rewrite drop_all. split; [lia|]. split; [done|lia].
    + destruct (at_drop _ _ _ _ E) as (Ea & Hlt & Ed). rewrite (proj2 (Nat.ltb_lt _ _) Hlt), Ea, E. cbn [andb skipBlank].
      destruct (Z.leb_spec c 32).
      * destruct (IH (S pos) ltac:(lia) ltac:(lia)) as (H1 & H2 & H3). rewrite H2, Ed. split; [lia|]. split; [done|].
        intros k Hk. destruct (decide (k = pos)) as [->|]; [lia|]. apply H3. lia.
      * split; [lia|]. split; [done|lia].
Qed.

Lemma findEnd_ok value q : forall n pos, (length value - pos <= n)%nat -> (pos <= length value)%nat ->
  (pos <= findEnd n value q pos <= length value)%nat /\
  take (findEnd n value q pos - pos) (drop pos value) = takeWhile (fun c => negb (endsValue q c)) (drop pos value) /\
  (findEnd n value q pos =? length value)%nat = negb (existsb (endsValue q) (drop pos value)).
Proof.
  induction n as [|n IH]; intros pos Hn Hp; cbn [findEnd].
  - assert (pos = length value) as -> by lia. rewrite drop_all, Nat.sub_diag, Nat.eqb_refl. split; [lia|done].
  - destruct (at_cases value pos Hp) as [[-> E]|(c & l & E)].
    + rewrite Nat.ltb_irrefl, E. cbn [andb]. rewrite Nat.sub_diag, Nat.eqb_refl. split; [lia|done].
    + destruct (at_drop _ _ _ _ E) as (Ea & Hlt & Ed). rewrite (proj2 (Nat.ltb_lt _ _) Hlt), Ea, E. cbn [andb existsb takeWhile].
      destruct (endsValue q c); cbn [negb orb].
      * rewrite Nat.sub_diag. split; [lia|]. split; [done|]. apply Nat.eqb_neq. lia.
      * destruct (IH (S pos) ltac:(lia) ltac:(lia)) as (H1 & H2 & H3). rewrite Ed in H2, H3. split; [lia|]. rewrite H3. split; [|done].
        replace (findEnd n value q (S pos) - pos)%nat with (S (findEnd n value q (S pos) - S pos)) by lia. cbn [take]. by rewrite H2.
Qed.

Lemma takeWhile_ext p p' l : (forall c, p c = p' c) -> takeWhile p l = takeWhile p' l.
Proof. intros E. induction l as [|c l IH]; [done|]. cbn. by rewrite E, IH. Qed.

Lemma endsValue_quote q c : q <> 0 -> endsValue q c = (q =? c).
Proof. intros Hq. unfold endsValue. rewrite (proj2 (Z.eqb_neq q 0) Hq). cbn [negb andb orb]. by rewrite orb_false_r, negb_involutive, Z.eqb_sym. Qed.

Lemma endsValue_plain c : negb (endsValue 0 c) = (32 <? c) && negb (isQuote c) && negb (c =? 59).
Proof. unfold endsValue, isQuote. cbn. rewrite negb_involutive. by destruct (32 <? c), (c =? 34), (c =? 39), (c =? 59). Qed.

Lemma extractValue_ok value pos : (pos <= length value)%nat -> default [] (extractValue value pos) = charsetValue (skipBlank (drop pos value)).
Proof.
  intros Hp. unfold extractValue. destruct (skipWhitespace_ok value (length value) pos ltac:(lia) Hp) as (H1 & <- & _).
  set (p := skipWhitespace (length value) value pos) in *. clearbody p.
  destruct (at_cases value p ltac:(lia)) as [[-> E]|(c & l & E)]; [by rewrite Nat.ltb_irrefl, E; cbn [andb]; rewrite Nat.eqb_refl|].
  destruct (at_drop _ _ _ _ E) as (Ea & Hlt & Ed). rewrite (proj2 (Nat.ltb_lt _ _) Hlt), Ea. cbn [andb]. rewrite E. cbn [charsetValue].
  destruct (isQuote c) eqn:Hq.
  - assert (Hc : c <> 0) by (unfold isQuote in Hq; lia). destruct (findEnd_ok value c (length value) (S p) ltac:(lia) ltac:(lia)) as (H2 & H3 & H4).
    rewrite H3, H4, Ed, (proj2 (Z.eqb_neq c 0) Hc). cbn [negb andb].
    assert (Ee : existsb (endsValue c) l = existsb (Z.eqb c) l) by (clear - Hc; induction l as [|x l IH]; [done|]; cbn [existsb]; by rewrite IH, endsValue_quote). rewrite Ee.
    destruct (Nat.eqb_spec (S p) (length value)) as [Ep|Ep]; [rewrite Ep, drop_all in Ed; by subst l|].
    destruct (existsb (Z.eqb c) l); cbn [negb]; [|done]. cbn [default]. apply takeWhile_ext. intros x. by rewrite endsValue_quote, Z.eqb_sym.
  - rewrite (proj2 (Nat.eqb_neq p (length value))) by lia. cbn [negb andb Z.eqb default].
    destruct (findEnd_ok value 0 (length value) p ltac:(lia) ltac:(lia)) as (H2 & H3 & H4). rewrite H3, E. apply takeWhile_ext, endsValue_plain.
Qed.

(** ** The search *)

Section Search.
Context `{FoldCase} `{!FoldASCII}.

Definition matches (l : list Z) : bool := equal_chars false (take (length charsetString) l) charsetString.

Lemma equal_chars_lookup a b i y : equal_chars false a b = true -> b !! i = Some y -> exists x, a !! i = Some x /\ foldCase x = foldCase y.
Proof.
  revert b i. induction a as [|x a IH]; intros [|z b] i E Hi; try done. cbn [equal_chars] in E. apply andb_prop in E as [E1 E2].
  destruct i as [|i]; [|by apply (IH b i)]. injection Hi as ->. exists x. split; [done|]. by apply Z.eqb_eq.
Qed.

Lemma equal_chars_length cs a b : equal_chars cs a b = true -> length a = length b.
Proof. revert b. induction a as [|x a IH]; intros [|y b] E; try done. cbn [equal_chars] in E. apply andb_prop in E as [_ E]. cbn. by rewrite (IH b E). Qed.

(** A match begins with the letter c, and no other letter of the word is one. *)
Lemma matches_lookup l i y : matches l = true -> charsetString !! i = Some y -> exists x, l !! i = Some x /\ foldCase x = y.
Proof.
  intros Hm Hy. destruct (equal_chars_lookup _ _ _ _ Hm Hy) as (x & Hx & Hf). rewrite lookup_take_lt in Hx by (by apply lookup_lt_Some in Hy).
  exists x. split; [done|]. rewrite Hf.
  assert (Hall : Forall (fun y => 97 <= y < 123) charsetString) by (apply range_check; reflexivity).
  pose proof (Forall_lookup_1 _ _ _ _ Hall Hy) as Hr. cbv beta in Hr. rewrite fold_ascii by lia. unfold asciiFold. by rewrite (proj2 (Z.leb_gt y 90)), andb_false_r by lia.
Qed.

Lemma matches_length l : matches l = true -> (length charsetString <= length l)%nat.
Proof. intros Hm. apply equal_chars_length in Hm. rewrite length_take in Hm. lia. Qed.

Lemma inside_word value p k : matches (drop p value) = true -> (p < k < p + length charsetString)%nat -> matches (drop k value) = false.
Proof.
  intros Hm Hk. apply not_true_is_false. intros Hk'. destruct (lookup_lt_is_Some_2 charsetString (k - p)) as [y Hy]; [lia|].
  destruct (matches_lookup _ _ _ Hm Hy) as (x & Hx & Ex). destruct (matches_lookup _ 0 99 Hk' eq_refl) as (x' & Hx' & Ex').
  rewrite lookup_drop in Hx, Hx'. replace (p + (k - p))%nat with (k + 0)%nat in Hx by lia. rewrite Hx in Hx'. assert (y = 99) as -> by congruence.
  assert (Hall : Forall (fun y => y <> 99) (drop 1 charsetString)) by (vm_compute; repeat constructor; discriminate).
  apply (Forall_lookup_1 _ _ (k - p - 1) 99 Hall); [|done]. rewrite lookup_drop, <- Hy. by replace (1 + (k - p - 1))%nat with (k - p)%nat by lia.
Qed.

Lemma at_blank value k : Forall (fun c => 0 <= c) value -> at_ value k <= 32 -> matches (drop k value) = false.
Proof.
  intros Hv Hk. apply not_true_is_false. intros Hm. destruct (matches_lookup _ 0 99 Hm eq_refl) as (x & Hx & Ex).
  rewrite lookup_drop, Nat.add_0_r in Hx. unfold at_ in Hk. rewrite Hx in Hk. cbn in Hk. pose proof (Forall_lookup_1 _ _ _ _ Hv Hx) as Hx0. cbv beta in Hx0.
  rewrite fold_ascii in Ex by lia. unfold asciiFold in Ex. rewrite (proj2 (Z.leb_gt 65 x)) in Ex by lia. cbn in Ex. lia.
Qed.

Lemma findLoop_ok value : forall delta position, (position + delta + length charsetString = length value)%nat ->
  match findLoop delta (drop position value) charsetString position with
  | Some p => (position <= p)%nat /\ matches (drop p value) = true /\ forall k, (position <= k < p)%nat -> matches (drop k value) = false
  | None => forall k, (position <= k)%nat -> matches (drop k value) = false
  end.
Proof.
  assert (Hshort : forall k, (length value < k + length charsetString)%nat -> matches (drop k value) = false).
  { intros k Hk. apply not_true_is_false. intros Hm%matches_length. rewrite length_drop in Hm. cbn in *. lia. }
  induction delta as [|delta IH]; intros position Hl; cbn [findLoop]; fold (matches (drop position value)); destruct (matches (drop position value)) eqn:Hm.
  - split; [lia|]. split; [done|lia].
  - intros k Hk. destruct (decide (k = position)) as [->|]; [done|]. apply Hshort. lia.
  - split; [lia|]. split; [done|lia].
  - rewrite drop_drop, Nat.add_1_r. specialize (IH (S position) ltac:(lia)). destruct (findLoop delta (drop (S position) value) charsetString (S position)) as [p|].
    + destruct IH as (H1 & H2 & H3). split; [lia|]. split; [done|]. intros k Hk. destruct (decide (k = position)) as [->|]; [done|]. apply H3. lia.
    + intros k Hk. destruct (decide (k = position)) as [->|]; [done|]. apply IH. lia.
Qed.

Lemma findCharset_ok value pos : (pos <= length value)%nat ->
  match findIgnoringCase value charsetString pos with
  | Some p => (pos <= p)%nat /\ matches (drop p value) = true /\ forall k, (pos <= k < p)%nat -> matches (drop k value) = false
  | None => forall k, (pos <= k)%nat -> matches (drop k value) = false
  end.
Proof.
  intros Hp. unfold findIgnoringCase. change (length charsetString =? 0)%nat with false. cbv iota. rewrite (proj2 (Nat.ltb_ge (length value) pos)) by lia.
  destruct (Nat.ltb_spec (length value - pos) (length charsetString)).
  - intros k Hk. apply not_true_is_false. intros Hm%matches_length. rewrite length_drop in Hm. lia.
  - apply findLoop_ok. lia.
Qed.

Lemma charsetOf_skip value p : forall pos, (pos <= p <= length value)%nat -> (forall k, (pos <= k < p)%nat -> matches (drop k value) = false) ->
  charsetOf (drop pos value) = charsetOf (drop p value).
Proof.
  induction p as [|p IH]; intros pos Hp Hk; [by replace pos with 0%nat by lia|]. destruct (decide (pos = S p)) as [->|]; [done|].
  rewrite (IH pos) by (lia || (intros k ?; apply Hk; lia)). destruct (at_cases value p ltac:(lia)) as [[? _]|(c & l & E)]; [lia|].
  destruct (at_drop _ _ _ _ E) as (_ & _ & ->). pose proof (Hk p ltac:(lia)) as Hm. rewrite E in Hm |- *. cbn [charsetOf]. unfold matches in Hm. by rewrite Hm.
Qed.

Lemma extractLoop_ok value : Forall (fun c => 0 <= c) value -> forall fuel pos, (length value - pos < fuel)%nat -> (pos <= length value)%nat ->
  extractLoop fuel value pos = Some (charsetOf (drop pos value)).
Proof.
  intros Hv. induction fuel as [|fuel IH]; intros pos Hf Hp; [lia|]. cbn [extractLoop].
  destruct (Nat.ltb_spec pos (length value)) as [Hlt|Hge]; [|by rewrite drop_ge by lia].
  pose proof (findCharset_ok value pos Hp) as Hfind. destruct (findIgnoringCase value charsetString pos) as [p|].
  2:{ rewrite (charsetOf_skip value (length value) pos) by (lia || (intros k ?; apply Hfind; lia)). by rewrite drop_all. }
  destruct Hfind as (H1 & Hm & Hbefore). pose proof (matches_length _ Hm) as H7. rewrite length_drop in H7.
  assert (Hp7 : (p + length charsetString <= length value)%nat) by (cbn in *; lia).
  rewrite (charsetOf_skip value p pos) by (done || lia). destruct (skipWhitespace_ok value (length value) (p + length charsetString) ltac:(lia) Hp7) as (H2 & H3 & H4).
  set (p' := skipWhitespace (length value) value (p + length charsetString)) in *. clearbody p'.
  destruct (at_cases value p ltac:(cbn in *; lia)) as [[? _]|(c & l & E)]; [cbn in *; lia|]. destruct (at_drop _ _ _ _ E) as (_ & _ & El).
  assert (Hnext : charsetOf l = charsetOf (drop p' value)).
  { rewrite <- El. apply charsetOf_skip; [cbn in *; lia|]. intros k Hk.
    destruct (decide (k < p + length charsetString)%nat); [apply (inside_word value p); [done|lia]|]. apply at_blank; [done|]. apply H4. lia. }
  rewrite E in Hm. rewrite E. cbn [charsetOf]. unfold matches in Hm. rewrite Hm, <- E, drop_drop, <- H3, Hnext.
  destruct (at_cases value p' ltac:(lia)) as [[-> E']|(c' & l' & E')].
  - rewrite E'. unfold at_. rewrite lookup_ge_None_2 by lia. cbn [default Z.eqb negb]. rewrite IH by (cbn in *; lia). by rewrite drop_all.
  - destruct (at_drop _ _ _ _ E') as (Ea & Hlt' & Ed). rewrite E', Ea. destruct (Z.eqb_spec c' 61) as [->|Hne]; cbn [negb].
    + by rewrite extractValue_ok, Ed by lia.
    + rewrite <- E'. apply IH; [cbn in *; lia|lia].
Qed.

End Search.

(** ** Everything returns *)

Lemma leadingSpaces_ok characters : forall n count, (count + n = length characters)%nat ->
  (leadingSpaces n characters count <= length characters)%nat /\
  (leadingSpaces n characters count = length characters \/ isHTMLSpace (at_ characters (leadingSpaces n characters count)) = false).
Proof.
  induction n as [|n IH]; intros count Hn; cbn [leadingSpaces]; [split; [lia|left; lia]|].
  destruct (isHTMLSpace (at_ characters count)) eqn:Hs; cbn [negb]; [apply IH; lia|]. split; [lia|by right].
Qed.

Lemma trailingSpaces_ok characters i : isHTMLSpace (at_ characters i) = false -> forall n count, (count + i < length characters)%nat ->
  (trailingSpaces n characters count + i < length characters)%nat.
Proof.
  intros Hi. induction n as [|n IH]; intros count Hc; cbn [trailingSpaces]; [done|].
  destruct (isHTMLSpace (at_ characters (length characters - count - 1))) eqn:Hs; cbn [negb]; [|done]. apply IH.
  destruct (decide (i = length characters - count - 1)%nat) as [->|]; [congruence|lia].
Qed.

Lemma strip_total string : exists r, stripLeadingAndTrailingHTMLSpaces string = Some r.
Proof.
  unfold stripLeadingAndTrailingHTMLSpaces. destruct (length string =? 0)%nat; [eauto|].
  destruct (leadingSpaces_ok string (length string) 0 ltac:(lia)) as [Hle [Heq|Hns]]; [rewrite Heq, Nat.eqb_refl; eauto|].
  destruct (Nat.eqb_spec (leadingSpaces (length string) string 0) (length string)) as [|Hne]; [eauto|].
  pose proof (trailingSpaces_ok string _ Hns (length string) 0 ltac:(lia)). rewrite (proj2 (Nat.ltb_lt _ _)) by lia. eauto.
Qed.

Lemma extract_total `{FoldCase} value : forall fuel pos, (length value - pos < fuel)%nat -> exists r, extractLoop fuel value pos = Some r.
Proof.
  induction fuel as [|fuel IH]; intros pos Hf; [lia|]. cbn [extractLoop]. destruct (Nat.ltb_spec pos (length value)) as [Hlt|]; [|eauto].
  pose proof (findCharset_ok value pos ltac:(lia)) as Hfind. destruct (findIgnoringCase value charsetString pos) as [p|]; [|eauto].
  destruct Hfind as (H1 & Hm & _). pose proof (matches_length _ Hm) as H7. rewrite length_drop in H7. assert (Hp : (p + length charsetString <= length value)%nat) by (cbn in *; lia).
  destruct (skipWhitespace_ok value (length value) (p + length charsetString) ltac:(lia) Hp) as (H2 & _). destruct (negb _); [|eauto]. apply IH. cbn in *. lia.
Qed.

Section Total.
Context `{FoldCase} `{Registry}.

Lemma metaAttributes_total attributes : forall st, exists st', metaAttributes st attributes = Some st'.
Proof.
  induction attributes as [|[name value] attributes IH]; intros st; cbn [metaAttributes]; [eauto|]. unfold metaAttribute. repeat case_match; simplify_eq; try apply IH.
  all: match goal with E : extractCharset _ = None |- _ => unfold extractCharset in E; destruct (extract_total value (S (length value)) 0 ltac:(lia)); congruence end.
Qed.

Lemma encoding_total attributes : exists e, encodingFromMetaAttributes attributes = Some e.
Proof.
  unfold encodingFromMetaAttributes. destruct (metaAttributes_total attributes (mkMetaState false NoMode [])) as [st ->].
  destruct (strip_total (charset st)) as [r ->]. case_match; eauto.
Qed.

Lemma metaEncoding_total token : exists e, metaEncoding token = Some e.
Proof. unfold metaEncoding. destruct (isMeta token); [apply encoding_total|eauto]. Qed.

End Total.

(** ** Which encoding is found *)

Section Verdict.
Context `{FoldCase} `{EntityTable} `{Registry} {Src : Type} `{HS : CharSource Src} `{HI : InputSource Src}.

(** The token says nothing about the encoding. *)
Definition silent (token : HTMLToken) : Prop := metaEncoding token = Some None.

(** The answer for the tokens of the input, of which the parser has seen the beginning:
    the encoding is that of the first token that has a valid one; the parser gives up only
    outside the head section, and only after enough of the input. *)
Definition verdict (tokens : list HTMLToken) (inHead done : bool) (p : HTMLMetaCharsetParser Src) : Prop :=
  if done then
    m_doneChecking p = true /\ exists before after, tokens = before ++ after /\ Forall silent before /\
      match m_encoding p with
      | Some e => exists token after', after = token :: after' /\ metaEncoding token = Some (Some e)
      | None => (inHead = false \/ existsb leavesHead before = true) /\ bytesToCheckUnconditionally <= numberOfCharactersConsumed (m_input p)
      end
  else m_doneChecking p = false /\ m_encoding p = None /\ Forall silent tokens /\ m_inHeadSection p = inHead && negb (existsb leavesHead tokens).

Lemma verdict_later tokens more inHead p : verdict tokens inHead true p -> verdict (tokens ++ more) inHead true p.
Proof.
  intros (Hd & before & after & -> & Hs & Hm). split; [done|]. exists before, (after ++ more). split; [by rewrite app_assoc|]. split; [done|].
  destruct (m_encoding p); [|done]. destruct Hm as (token & after' & -> & Ht). by exists token, (after' ++ more).
Qed.

Lemma verdict_after tokens more inHead done p : Forall silent tokens ->
  verdict more (inHead && negb (existsb leavesHead tokens)) done p -> verdict (tokens ++ more) inHead done p.
Proof.
  intros Hs Hv. unfold verdict in *. destruct done.
  - destruct Hv as (Hd & before & after & -> & Hb & Hm). split; [done|]. exists (tokens ++ before), after. split; [by rewrite app_assoc|].
    split; [by apply Forall_app|]. destruct (m_encoding p); [done|]. destruct Hm as [Hh Hc]. split; [|done]. rewrite existsb_app.
    destruct inHead; [|by left]. destruct (existsb leavesHead tokens); [by right|]. destruct Hh as [|Hh]; [done|]. right. by rewrite Hh.
  - destruct Hv as (Hd & He & Hb & Hh). split; [done|]. split; [done|]. split; [by apply Forall_app|]. by rewrite Hh, existsb_app, negb_orb, andb_assoc.
Qed.

End Verdict.

(** On the abstract source. *)
Section Abstract.
Context `{FoldCase} `{EntityTable} `{Registry}.

Lemma checkLoop_ok fuel : forall t (s : Stream) inHead, tokenizerOK t = true -> (measure t s < fuel)%nat ->
  exists done p tokens t' s', checkLoop fuel (mkMetaParser t s inHead false None) = Some (done, p) /\
    scanLoop fuel t s = Some (tokens, t', s') /\ verdict tokens inHead done p /\ (done = false -> m_tokenizer p = t' /\ m_input p = s').
Proof.
  induction fuel as [|fuel IH]; intros t s inHead Hok Hf; [lia|]. cbn [checkLoop scanLoop m_tokenizer m_input].
  pose proof (nextToken_ok t s Hok) as Hn. unfold wp in Hn. destruct (nextToken t s) as [[[b t1] s1]|]; [|done]. destruct Hn as [Hr Hm].
  destruct b.
  2:{ eexists false, _, [], t1, s1. split; [done|]. split; [done|]. split; [|done]. split; [done|]. split; [done|]. split; [constructor|]. cbn. by rewrite andb_true_r. }
  pose proof (afterToken_measure t1 s1 Hr) as Ha. pose proof (afterToken_ok t1 Hr) as Hok1.
  destruct (scanLoop_ok fuel (afterToken t1) s1 Hok1 ltac:(lia)) as (rest & t2 & s2 & Es & _).
  destruct (metaEncoding_total (m_token t1)) as [[e|] He]; rewrite He.
  { eexists true, _, (m_token t1 :: rest), t2, s2. split; [done|]. split; [by rewrite Es|]. split; [|done]. split; [done|]. exists [], (m_token t1 :: rest). split; [done|].
    split; [constructor|]. by exists (m_token t1), rest. }
  cbv zeta. cbn [m_inHeadSection m_doneChecking m_encoding].
  replace (if isMeta (m_token t1) then None else None) with (@None (list Z)) by (by destruct (isMeta (m_token t1))).
  destruct (negb (inHead && negb (leavesHead (m_token t1))) && (bytesToCheckUnconditionally <=? numberOfCharactersConsumed s1)) eqn:Hstop.
  - eexists true, _, (m_token t1 :: rest), t2, s2. split; [done|]. split; [by rewrite Es|]. split; [|done]. split; [done|]. exists [m_token t1], rest. split; [done|].
    split; [by repeat constructor|]. apply andb_prop in Hstop as [Hs1 Hs2]. cbn [m_encoding m_input existsb]. split; [|by apply Z.leb_le].
    destruct inHead; [right|by left]. cbn in Hs1. rewrite negb_involutive in Hs1. by rewrite Hs1.
  - destruct (IH (afterToken t1) s1 (inHead && negb (leavesHead (m_token t1))) Hok1 ltac:(lia)) as (done & p & tokens & t' & s' & E1 & E2 & Hv & Hsame).
    exists done, p, (m_token t1 :: tokens), t', s'. split; [exact E1|]. split; [by rewrite E2|]. split; [|done].
    apply (verdict_after [m_token t1]); [by repeat constructor|]. cbn [existsb]. by rewrite orb_false_r.
Qed.

Definition decodedChunk (chunk : Z * list Z) : bool * list Z := (narrow (decoded (fst chunk) (snd chunk)), decoded (fst chunk) (snd chunk)).

Lemma checkChunks_ok chunks : forall t (s : Stream) inHead, Forall (fun c => Forall isByte (snd c)) chunks -> tokenizerOK t = true ->
  exists done p tokens t' s', checkChunks chunks (mkMetaParser t s inHead false None) = Some (done, p) /\
    scanChunks (map decodedChunk chunks) t s = Some (tokens, t', s') /\ verdict tokens inHead done p.
Proof.
  induction chunks as [|[address data] chunks IH]; intros t s inHead Hb Hok.
  { eexists false, _, [], t, s. split; [done|]. split; [done|]. split; [done|]. split; [done|]. split; [constructor|]. cbn. by rewrite andb_true_r. }
  apply Forall_cons_1 in Hb as [Hd Hb]. cbn [snd] in Hd. cbn [checkChunks map scanChunks]. unfold checkForMetaCharset. cbn [m_doneChecking m_encoding m_tokenizer m_input m_inHeadSection].
  rewrite decode_ok by done. cbv zeta. unfold decodedChunk at 1. cbn [fst snd].
  set (s1 := appendString (narrow (decoded address data)) (decoded address data) s).
  destruct (scan_ok t s1 Hok) as (tk & t1 & s2 & E1 & Hok1 & _). pose proof (measure_bound t s1) as Hmb.
  destruct (checkLoop_ok (scanFuel s1) t s1 inHead Hok) as (done & p & tokens & t' & s' & Ec & Es & Hv & Hsame); [change (scanFuel s1) with (4 * len s1 + 5)%nat; lia|].
  rewrite Ec. unfold scan in E1 |- *. rewrite Es in E1. injection E1 as -> -> ->. rewrite Es.
  destruct (scanChunks_ok (map decodedChunk chunks) t1 s2 Hok1) as (tk2 & t2 & s3 & E2 & _). destruct done.
  - rewrite E2. exists true, p, (tk ++ tk2), t2, s3. split; [done|]. split; [done|]. by apply verdict_later.
  - destruct (Hsame eq_refl) as [<- <-]. destruct Hv as (Hv1 & Hv2 & Hv3 & Hv4).
    destruct (IH (m_tokenizer p) (m_input p) (m_inHeadSection p) Hb Hok1) as (done & p' & tokens & t' & s' & Ec' & Es' & Hv').
    rewrite Es'. exists done, p', (tk ++ tokens), t', s'. split; [|split; [done|]].
    + rewrite <- Ec'. f_equal. destruct p; cbn in *. by subst.
    + apply verdict_after; [done|]. by rewrite <- Hv4.
Qed.

End Abstract.

(** On an implementation of the source. *)
Section Implementation.
Context `{FoldCase} {Src : Type} `{HS : CharSource Src} `{HR : !SourceRefines Src} `{HI : InputSource Src} `{HIR : !InputRefines Src}.
Context `{HE : EntityTable} `{HOK : !EntityTableOK} `{Registry}.

Definition sameParser (p : HTMLMetaCharsetParser Src) (p' : HTMLMetaCharsetParser Stream) : Prop :=
  m_tokenizer p = m_tokenizer p' /\ related (m_input p) (m_input p') /\ m_inHeadSection p = m_inHeadSection p' /\
  m_doneChecking p = m_doneChecking p' /\ m_encoding p = m_encoding p'.

Definition sameAnswer (o : option (bool * HTMLMetaCharsetParser Src)) (o' : option (bool * HTMLMetaCharsetParser Stream)) : Prop :=
  match o, o' with
  | Some (b, p), Some (b', p') => b = b' /\ sameParser p p'
  | None, None => True
  | _, _ => False
  end.

Lemma checkLoop_sim fuel : forall p p', sameParser p p' -> sameAnswer (checkLoop fuel p) (checkLoop fuel p').
Proof.
  induction fuel as [|fuel IH]; intros p p' (E1 & E2 & E3 & E4 & E5); [done|]. cbn [checkLoop]. rewrite E1, E3, E4, E5.
  pose proof (sim_nextToken (m_tokenizer p') (m_input p) (m_input p') E2) as Hn.
  destruct (nextToken (m_tokenizer p') (m_input p)) as [[[b t] s]|], (nextToken (m_tokenizer p') (m_input p')) as [[[b' t'] a]|]; try done.
  destruct Hn as (-> & -> & Hr). destruct b'; [|done]. cbv zeta. destruct (metaEncoding (m_token t')) as [[e|]|]; [done| |done].
  rewrite (related_consumed _ _ Hr). destruct (negb _ && _); [done|]. by apply IH.
Qed.

Lemma check_sim address data p p' : sameParser p p' -> Forall isByte data ->
  sameAnswer (checkForMetaCharset address data p) (checkForMetaCharset address data p').
Proof.
  intros Hp Hd. pose proof Hp as (E1 & E2 & E3 & E4 & E5). unfold checkForMetaCharset. rewrite E4, E5. destruct (m_doneChecking p'); [done|].
  destruct (m_encoding p') as [e|]; [done|]. rewrite decode_ok by done. cbv zeta.
  pose proof (related_append (narrow (decoded address data)) (decoded address data) _ _ E2 (decoded_units address data Hd)) as Hr.
  unfold scanFuel. rewrite (related_length _ _ Hr). apply checkLoop_sim. by split_and!.
Qed.

Lemma checkChunks_sim chunks : forall p p', sameParser p p' -> Forall (fun c => Forall isByte (snd c)) chunks ->
  sameAnswer (checkChunks chunks p) (checkChunks chunks p').
Proof.
  induction chunks as [|[address data] chunks IH]; intros p p' Hp Hb; [done|]. apply Forall_cons_1 in Hb as [Hd Hb]. cbn [checkChunks].
  pose proof (check_sim address data p p' Hp Hd) as Hs. unfold sameAnswer in Hs.
  destruct (checkForMetaCharset address data p) as [[b q]|], (checkForMetaCharset address data p') as [[b' q']|]; try done. destruct Hs as [-> Hq].
  destruct b'; [done|]. by apply IH.
Qed.

Lemma chunks_units chunks : Forall (fun c => Forall isByte (snd c)) chunks -> Forall (fun c => Forall (fun u => 0 <= u) (snd c)) (map decodedChunk chunks).
Proof. induction 1 as [|[address data] chunks Hd _ IH]; constructor; [|done]. by apply decoded_units. Qed.

Lemma verdict_sim tokens inHead done p p' : sameParser p p' -> verdict tokens inHead done p' -> verdict tokens inHead done p.
Proof. intros (E1 & E2 & E3 & E4 & E5). unfold verdict. by rewrite E3, E4, E5, (related_consumed _ _ E2). Qed.

End Implementation.

(** ** Theorems *)

Section Theorems.
Context `{FoldCase} `{HE : EntityTable} `{HOK : !EntityTableOK} `{Registry}.

(** C17: the loops over positions that look for the charset in the value of an
    attribute return, for every value, what the definition without positions gives: the
    value behind the first occurrence of the word, in any case, that an equals sign
    follows, and nothing if there is none or if its quote is not closed. *)
Theorem extract_charset_correct (Hfold : FoldASCII) (value : list Z) (Hvalue : Forall (fun c => 0 <= c) value) :
  extractCharset value = Some (charsetOf value).
Proof. unfold extractCharset. rewrite extractLoop_ok by (done || lia). by rewrite drop_0. Qed.

(** C14: looking for the encoding of a document, whatever its bytes are and
    however they arrive, never fails an assertion or loops.  The answer is the
    encoding of the first [meta] tag with a valid one among the tokens of the decoded text;
    the search is given up without one only after a tag that is not allowed in the head
    section, when at least 1024 characters have been consumed; and as long as it goes on,
    no token so far has a valid encoding. *)
Theorem meta_charset_correct (chunks : list (Z * list Z)) (Hbytes : Forall (fun c => Forall isByte (snd c)) chunks) :
  exists texts tokens t s done p,
    Forall2 (fun chunk text => TextCodecLatin1.decode (fst chunk) (snd chunk) = Some text) chunks texts /\
    scanChunks texts (newTokenizer defaultOptions) emptySegmented = Some (tokens, t, s) /\
    checkChunks chunks (newMetaParser emptySegmented) = Some (done, p) /\
    verdict tokens true done p.
Proof.
  destruct (checkChunks_ok chunks (newTokenizer defaultOptions) (Stream.of_chars []) true Hbytes eq_refl) as (done & p' & tokens & t & a & Ec & Es & Hv).
  pose proof (scanChunks_sim (map decodedChunk chunks) (newTokenizer defaultOptions) _ _ related_empty (chunks_units chunks Hbytes)) as Hs.
  pose proof (checkChunks_sim chunks (newMetaParser emptySegmented) (newMetaParser (Stream.of_chars [])) ltac:(split_and!; try done; apply related_empty) Hbytes) as Hc.
  unfold newMetaParser in Hc at 2. rewrite Ec in Hc. rewrite Es in Hs. unfold sameAnswer, scan_sim in Hs, Hc.
  destruct (scanChunks (map decodedChunk chunks) _ emptySegmented) as [[[k t'] s]|] eqn:E1; [|done]. destruct Hs as (-> & -> & _).
  destruct (checkChunks chunks (newMetaParser emptySegmented)) as [[b p]|] eqn:E2; [|done]. destruct Hc as [-> Hp].
  exists (map decodedChunk chunks), tokens, t, s, done, p. split; [|split; [done|split; [done|by apply (verdict_sim _ _ _ p p')]]].
  clear - Hbytes. induction Hbytes as [|[address data] chunks Hd _ IH]; constructor; [by apply decode_ok|done].
Qed.

End Theorems.

(** ** Witnesses *)

Lemma asciiFold_ascii : @FoldASCII asciiFold.
Proof. intros c Hc. reflexivity. Qed.

Definition exampleValue : list Z := lit "text/html; charset charset = 'utf-8'".

Lemma extract_charset_correct_witness : @extractCharset asciiFold exampleValue = Some (lit "utf-8").
Proof.
  rewrite (@extract_charset_correct asciiFold asciiFold_ascii exampleValue).
  - vm_compute. reflexivity.
  - apply List.Forall_forall. intros c Hc. assert (F : forallb (fun c => 0 <=? c) exampleValue = true) by (vm_compute; reflexivity).
    rewrite forallb_forall in F. apply Z.leb_le, F, Hc.
Defined.

Definition metaChunks : list (Z * list Z) := [(64, lit "<title>x</title><me"); (128, lit "ta charset=latin1><meta charset=utf-8>")].

Lemma metaChunks_bytes : Forall (fun c : Z * list Z => Forall isByte (snd c)) metaChunks.
Proof. apply Forall_cons_2; [|apply Forall_cons_2; [|apply Forall_nil_2]]; apply (range_check 0 256); vm_compute; reflexivity. Qed.

Lemma meta_charset_correct_witness :
  exists tokens p, @checkChunks asciiFold exampleTable exampleRegistry _ (@segmented_source asciiFold) _ metaChunks (newMetaParser emptySegmented) = Some (true, p) /\
    m_encoding p = Some (lit "ISO-8859-1") /\
    @verdict asciiFold exampleRegistry SegmentedString (@segmented_source asciiFold) tokens true true p.
Proof.
  destruct (@meta_charset_correct asciiFold exampleTable exampleTable_ok exampleRegistry metaChunks metaChunks_bytes) as (texts & tokens & t & s & done & p & _ & _ & E & Hv).
  exists tokens, p. assert (Ed : done = true /\ m_encoding p = Some (lit "ISO-8859-1")).
  { vm_compute in E. injection E as <- <-. split; reflexivity. }
  destruct Ed as [Ed Ee]. rewrite Ed in E, Hv. split; [exact E|]. split; [exact Ee|exact Hv].
Defined.
