(* ===== verification/HTMLStackItem.v ===== *)
(** * Stack items: html/parser/HTMLStackItem.h

    An item of the stack of open elements or of the list of active formatting
    elements: a node of the document with the name, the attributes and the
    namespace of the token it was created from.  Nodes are objects of the DOM; of
    a node the parser uses its identity, its own name and whether it is an
    element.  A null [AtomicString] is [None]. *)
From S2P Require Import Prelude.
From Stdlib Require Import String ZArith Lia.
From stdpp Require Import base list numbers option.
#[local] Open Scope Z_scope.

Module HTMLStackItem.

Definition AtomicString : Type := list Z.

(** ** Names *)

Record QualifiedName : Type := mkName { localNameOf : AtomicString; namespaceOf : option AtomicString }.

#[export] Instance QualifiedName_eq_dec : EqDecision QualifiedName.
Proof. solve_decision. Defined.

(** [QualifiedName::matches]: the prefix does not count. *)
Definition matches (a b : QualifiedName) : bool :=
  bool_decide (localNameOf a = localNameOf b) && bool_decide (namespaceOf a = namespaceOf b).

Definition xhtmlNamespaceURI : AtomicString := lit "http://www.w3.org/1999/xhtml".
Definition mathmlNamespaceURI : AtomicString := lit "http://www.w3.org/1998/Math/MathML".
Definition svgNamespaceURI : AtomicString := lit "http://www.w3.org/2000/svg".

(** [HTMLNames::xTag], [MathMLNames::xTag], [SVGNames::xTag]. *)
Definition htmlName (s : string) : QualifiedName := mkName (lit s) (Some xhtmlNamespaceURI).
Definition mathmlName (s : string) : QualifiedName := mkName (lit s) (Some mathmlNamespaceURI).
Definition svgName (s : string) : QualifiedName := mkName (lit s) (Some svgNamespaceURI).

Arguments htmlName s%_string.
Arguments mathmlName s%_string.
Arguments svgName s%_string.

(** ** Nodes *)

Record ContainerNode : Type := mkNode {
  nodeId : nat;
  nodeName : QualifiedName;
  isElement : bool
}.

#[export] Instance ContainerNode_eq_dec : EqDecision ContainerNode.
Proof. solve_decision. Defined.

(** [Node::hasTagName]; pointers are compared by identity. *)
Definition node_hasTagName (n : ContainerNode) (name : QualifiedName) : bool :=
  isElement n && matches (nodeName n) name.

Definition sameNode (a b : ContainerNode) : bool := (nodeId a =? nodeId b)%nat.

(** The type helpers that dom/make_names.pl generates. *)
Definition isHTMLTableElement (n : ContainerNode) : bool := node_hasTagName n (htmlName "table").
Definition isHTMLOptGroupElement (n : ContainerNode) : bool := node_hasTagName n (htmlName "optgroup").
Definition isHTMLOptionElement (n : ContainerNode) : bool := node_hasTagName n (htmlName "option").

(** ** Items *)

Record Attribute : Type := mkAttribute { attributeName : QualifiedName; attributeValue : AtomicString }.

#[export] Instance Attribute_eq_dec : EqDecision Attribute.
Proof. solve_decision. Defined.

Record HTMLStackItem : Type := mkItem {
  m_node : ContainerNode;
  m_tokenLocalName : option AtomicString;
  m_tokenAttributes : list Attribute;
  m_namespaceURI : option AtomicString;
  m_isDocumentFragmentNode : bool
}.

#[export] Instance HTMLStackItem_eq_dec : EqDecision HTMLStackItem.
Proof. solve_decision. Defined.

(** The constructors: for a document fragment, for the context element of a
    fragment, and for an element that was created from a token. *)
Definition itemForDocumentFragmentNode (node : ContainerNode) : HTMLStackItem :=
  mkItem node None [] None true.

Definition itemForContextElement (node : ContainerNode) : HTMLStackItem :=
  mkItem node (Some (localNameOf (nodeName node))) [] (namespaceOf (nodeName node)) false.

Definition itemForToken (node : ContainerNode) (name : AtomicString) (attributes : list Attribute)
  (namespaceURI : AtomicString) : HTMLStackItem :=
  mkItem node (Some name) attributes (Some namespaceURI) false.

(** [element()] casts the node, which must be an element. *)
Definition element (item : HTMLStackItem) : option ContainerNode :=
  guard! isElement (m_node item) in Some (m_node item).

Definition isElementNode (item : HTMLStackItem) : bool := negb (m_isDocumentFragmentNode item).

Definition attributes (item : HTMLStackItem) : option (list Attribute) :=
  guard! bool_decide (is_Some (m_tokenLocalName item)) in Some (m_tokenAttributes item).

(** [findAttributeInVector]. *)
Fixpoint findAttributeInVector (attributes : list Attribute) (name : QualifiedName) : option Attribute :=
  match attributes with
  | [] => None
  | attribute :: attributes =>
      if matches (attributeName attribute) name then Some attribute else findAttributeInVector attributes name
  end.

Definition getAttributeItem (item : HTMLStackItem) (name : QualifiedName) : option (option Attribute) :=
  guard! bool_decide (is_Some (m_tokenLocalName item)) in
  Some (findAttributeInVector (m_tokenAttributes item) name).

Definition hasLocalName (item : HTMLStackItem) (name : AtomicString) : bool :=
  bool_decide (m_tokenLocalName item = Some name).

Definition hasTagName (item : HTMLStackItem) (name : QualifiedName) : bool :=
  hasLocalName item (localNameOf name) && bool_decide (m_namespaceURI item = namespaceOf name).

Definition matchesHTMLTag (item : HTMLStackItem) (name : AtomicString) : bool :=
  hasLocalName item name && bool_decide (m_namespaceURI item = Some xhtmlNamespaceURI).

(** A chain of [hasTagName] tests. *)
Definition hasOneOf (item : HTMLStackItem) (names : list QualifiedName) : bool :=
  existsb (hasTagName item) names.

Definition causesFosterParenting (item : HTMLStackItem) : bool :=
  hasOneOf item (map htmlName ["table"; "tbody"; "tfoot"; "thead"; "tr"]%string).

Definition isInHTMLNamespace (item : HTMLStackItem) : bool :=
  bool_decide (m_namespaceURI item = Some xhtmlNamespaceURI) || m_isDocumentFragmentNode item.

Definition isNumberedHeaderElement (item : HTMLStackItem) : bool :=
  hasOneOf item (map htmlName ["h1"; "h2"; "h3"; "h4"; "h5"; "h6"]%string).

Definition isTableBodyContextElement (item : HTMLStackItem) : bool :=
  hasOneOf item (map htmlName ["tbody"; "tfoot"; "thead"]%string).

(** The MathML and SVG names that [isSpecialNode] and [isScopeMarker] list. *)
Definition integrationNames : list QualifiedName :=
  map mathmlName ["mi"; "mo"; "mn"; "ms"; "mtext"; "annotation-xml"]%string ++
  map svgName ["foreignObject"; "desc"; "title"]%string.

Definition specialNames : list string :=
  ["address"; "applet"; "area"; "article"; "aside"; "base"; "basefont"; "bgsound"; "blockquote";
   "body"; "br"; "button"; "caption"; "center"; "col"; "colgroup"; "command"; "dd"; "details";
   "dir"; "div"; "dl"; "dt"; "embed"; "fieldset"; "figcaption"; "figure"; "footer"; "form";
   "frame"; "frameset"; "head"; "header"; "hgroup"; "hr"; "html"; "iframe"; "img"; "input";
   "isindex"; "li"; "link"; "listing"; "main"; "marquee"; "menu"; "meta"; "nav"; "noembed";
   "noframes"; "noscript"; "object"; "ol"; "p"; "param"; "plaintext"; "pre"; "script"; "section";
   "select"; "style"; "summary"; "table"; "td"; "template"; "textarea"; "th"; "title"; "tr"; "ul";
   "wbr"; "xmp"]%string.

Definition isSpecialNode (item : HTMLStackItem) : bool :=
  if hasOneOf item integrationNames then true
  else if m_isDocumentFragmentNode item then true
  else if negb (isInHTMLNamespace item) then false
  else existsb (fun name => hasLocalName item (lit name)) specialNames
       || isNumberedHeaderElement item || isTableBodyContextElement item.

(** ** Lemmas *)

Lemma sameNode_eq a b : sameNode a b = true <-> nodeId a = nodeId b.
Proof. apply Nat.eqb_eq. Qed.

Lemma sameNode_neq a b : sameNode a b = false <-> nodeId a <> nodeId b.
Proof. apply Nat.eqb_neq. Qed.

Lemma hasTagName_eq item name :
  hasTagName item name = true <->
  m_tokenLocalName item = Some (localNameOf name) /\ m_namespaceURI item = namespaceOf name.
Proof. unfold hasTagName, hasLocalName. rewrite andb_true_iff, !bool_decide_eq_true. done. Qed.

Lemma matchesHTMLTag_eq item s : matchesHTMLTag item (lit s) = hasTagName item (htmlName s).
Proof. done. Qed.

(** An item has one name at most. *)
Lemma hasTagName_unique item a b : hasTagName item a = true -> hasTagName item b = true -> a = b.
Proof.
  rewrite !hasTagName_eq. intros [H1 H2] [H3 H4]. destruct a, b. cbn in *. congruence.
Qed.

Lemma hasTagName_other item a b : hasTagName item a = true -> a <> b -> hasTagName item b = false.
Proof. intros H Hne. apply not_true_iff_false. intros H'. by apply Hne, (hasTagName_unique item). Qed.

Lemma element_Some item n : element item = Some n <-> isElement (m_node item) = true /\ n = m_node item.
Proof. unfold element. destruct (isElement _); intuition congruence. Qed.

End HTMLStackItem.
