(* ===== verification/HTMLElementStack.v ===== *)
(** * The stack of open elements: html/parser/HTMLElementStack.h and HTMLElementStack.cpp

    The stack is the list of its records, the top first; a record has an identity,
    the address that pointers to it are compared by.  [None] as a result is a
    failed assertion or a null pointer that is dereferenced.  The calls of
    [beginParsingChildren] and [finishParsingChildren], which the DOM answers,
    are kept in the order in which they are made. *)
From S2P Require Import Prelude HTMLStackItem.
From Stdlib Require Import String ZArith Lia.
From stdpp Require Import base list numbers option.
#[local] Open Scope Z_scope.
Import HTMLStackItem.

Module HTMLElementStack.

(** ** State *)

Record ElementRecord : Type := mkRecord { recordId : nat; m_item : HTMLStackItem }.

#[export] Instance ElementRecord_eq_dec : EqDecision ElementRecord.
Proof. solve_decision. Defined.

Inductive ParsingCall : Type :=
| BeginParsingChildren (n : ContainerNode)
| FinishParsingChildren (n : ContainerNode).

Record HTMLElementStack : Type := mkStack {
  m_top : list ElementRecord;
  m_rootNode : option ContainerNode;
  m_headElement : option ContainerNode;
  m_bodyElement : option ContainerNode;
  m_stackDepth : Z;
  nextRecord : nat;
  calls : list ParsingCall
}.

Definition newStack : HTMLElementStack := mkStack [] None None None 0 0 [].

Definition set_top l s := mkStack l (m_rootNode s) (m_headElement s) (m_bodyElement s) (m_stackDepth s) (nextRecord s) (calls s).
Definition set_rootNode n s := mkStack (m_top s) n (m_headElement s) (m_bodyElement s) (m_stackDepth s) (nextRecord s) (calls s).
Definition set_headElement n s := mkStack (m_top s) (m_rootNode s) n (m_bodyElement s) (m_stackDepth s) (nextRecord s) (calls s).
Definition set_bodyElement n s := mkStack (m_top s) (m_rootNode s) (m_headElement s) n (m_stackDepth s) (nextRecord s) (calls s).
Definition set_stackDepth d s := mkStack (m_top s) (m_rootNode s) (m_headElement s) (m_bodyElement s) (uwrap 32 d) (nextRecord s) (calls s).
Definition set_nextRecord k s := mkStack (m_top s) (m_rootNode s) (m_headElement s) (m_bodyElement s) (m_stackDepth s) k (calls s).
Definition call c s := mkStack (m_top s) (m_rootNode s) (m_headElement s) (m_bodyElement s) (m_stackDepth s) (nextRecord s) (calls s ++ [c]).

(** Comparison of a pointer to a node with one that may be null. *)
Definition isNode (n : ContainerNode) (p : option ContainerNode) : bool :=
  match p with Some m => sameNode n m | None => false end.

(** ** Markers *)

Definition isRootNode (item : HTMLStackItem) : bool :=
  m_isDocumentFragmentNode item || hasTagName item (htmlName "html").

Definition isScopeMarker (item : HTMLStackItem) : bool :=
  hasOneOf item (map htmlName ["applet"; "caption"; "marquee"; "object"]%string)
  || isHTMLTableElement (m_node item)
  || hasOneOf item (map htmlName ["td"; "th"]%string)
  || hasOneOf item integrationNames
  || hasTagName item (htmlName "template")
  || isRootNode item.

Definition isListItemScopeMarker (item : HTMLStackItem) : bool :=
  isScopeMarker item || hasOneOf item (map htmlName ["ol"; "ul"]%string).

Definition isTableScopeMarker (item : HTMLStackItem) : bool :=
  isHTMLTableElement (m_node item) || hasTagName item (htmlName "template") || isRootNode item.

Definition isTableBodyScopeMarker (item : HTMLStackItem) : bool :=
  hasOneOf item (map htmlName ["tbody"; "tfoot"; "thead"; "template"]%string) || isRootNode item.

Definition isTableRowScopeMarker (item : HTMLStackItem) : bool :=
  hasOneOf item (map htmlName ["tr"; "template"]%string) || isRootNode item.

Definition isButtonScopeMarker (item : HTMLStackItem) : bool :=
  isScopeMarker item || hasTagName item (htmlName "button").

Definition isSelectScopeMarker (item : HTMLStackItem) : bool :=
  negb (isHTMLOptGroupElement (m_node item)) && negb (isHTMLOptionElement (m_node item)).

Definition isMathMLTextIntegrationPoint (item : HTMLStackItem) : bool :=
  isElementNode item && hasOneOf item (map mathmlName ["mi"; "mo"; "mn"; "ms"; "mtext"]%string).

(** [equalIgnoringCase] of a string and a literal; [u_foldCase] is a function of
    ICU, which decides when a character is not ASCII. *)
Definition toASCIILower (c : Z) : Z := Z.lor c (if (65 <=? c) && (c <=? 90) then 32 else 0).

Definition equalIgnoringCase (u_foldCase : Z -> Z) (a b : list Z) : bool :=
  if (length b <? length a)%nat then false
  else
    let fold := if existsb (fun c => negb (Z.land c (Z.lnot 127) =? 0)) a then u_foldCase else toASCIILower in
    forallb (fun '(ac, bc) => fold ac =? fold bc) (zip a b) && (length a =? length b)%nat.

Definition isHTMLIntegrationPoint (u_foldCase : Z -> Z) (item : HTMLStackItem) : option bool :=
  if negb (isElementNode item) then Some false
  else if hasTagName item (mathmlName "annotation-xml") then
    match getAttributeItem item (mkName (lit "encoding") None) with
    | None => None
    | Some None => Some false
    | Some (Some attribute) =>
        let encoding := attributeValue attribute in
        Some (equalIgnoringCase u_foldCase encoding (lit "text/html")
              || equalIgnoringCase u_foldCase encoding (lit "application/xhtml+xml"))
    end
  else Some (hasOneOf item (map svgName ["foreignObject"; "desc"; "title"]%string)).

Definition isForeignContentScopeMarker (u_foldCase : Z -> Z) (item : HTMLStackItem) : option bool :=
  if isMathMLTextIntegrationPoint item then Some true
  else match isHTMLIntegrationPoint u_foldCase item with
       | None => None
       | Some true => Some true
       | Some false => Some (isInHTMLNamespace item)
       end.

(** ** Access *)

Definition topRecord (s : HTMLElementStack) : option ElementRecord := head (m_top s).

Definition topStackItem (s : HTMLElementStack) : option HTMLStackItem := m_item <$> topRecord s.

Definition topNode (s : HTMLElementStack) : option ContainerNode := m_node <$> topStackItem s.

Definition top (s : HTMLElementStack) : option ContainerNode :=
  match topStackItem s with Some item => element item | None => None end.

(** [next()] of a record: the records below it. *)
Fixpoint recordsBelow (r : nat) (l : list ElementRecord) : list ElementRecord :=
  match l with
  | [] => []
  | x :: l => if (recordId x =? r)%nat then l else recordsBelow r l
  end.

Definition next (s : HTMLElementStack) (r : ElementRecord) : option ElementRecord :=
  head (recordsBelow (recordId r) (m_top s)).

Definition isAbove (s : HTMLElementStack) (r other : ElementRecord) : bool :=
  existsb (fun below => (recordId below =? recordId other)%nat) (recordsBelow (recordId r) (m_top s)).

Definition hasOnlyOneElement (s : HTMLElementStack) : option bool :=
  match m_top s with
  | [] => None
  | _ :: l => Some (length l =? 0)%nat
  end.

Definition secondElementIsHTMLBodyElement (s : HTMLElementStack) : option bool :=
  guard! bool_decide (is_Some (m_rootNode s)) in Some (bool_decide (is_Some (m_bodyElement s))).

(** The item below the top, null for a document fragment. *)
Definition oneBelowTop (s : HTMLElementStack) : option (option HTMLStackItem) :=
  match m_top s with
  | _ :: r :: _ => Some (if isElementNode (m_item r) then Some (m_item r) else None)
  | _ => None
  end.

Definition htmlElement (s : HTMLElementStack) : option ContainerNode :=
  match m_rootNode s with Some n => guard! isElement n in Some n | None => None end.

Definition headElement (s : HTMLElementStack) : option ContainerNode := m_headElement s.

Definition bodyElement (s : HTMLElementStack) : option ContainerNode := m_bodyElement s.

Definition rootNode (s : HTMLElementStack) : option ContainerNode := m_rootNode s.

Definition findNode (s : HTMLElementStack) (n : ContainerNode) : option ElementRecord :=
  List.find (fun r => sameNode (m_node (m_item r)) n) (m_top s).

Definition topmost (s : HTMLElementStack) (tagName : AtomicString) : option ElementRecord :=
  List.find (fun r => matchesHTMLTag (m_item r) tagName) (m_top s).

Definition containsNode (s : HTMLElementStack) (n : ContainerNode) : bool := bool_decide (is_Some (findNode s n)).

Definition containsTag (s : HTMLElementStack) (tagName : AtomicString) : bool := bool_decide (is_Some (topmost s tagName)).

(** ** Scopes *)

Fixpoint inScopeCommon (isMarker isTarget : HTMLStackItem -> bool) (l : list ElementRecord) : option bool :=
  match l with
  | [] => None
  | r :: l =>
      if isTarget (m_item r) then Some true
      else if isMarker (m_item r) then Some false
      else inScopeCommon isMarker isTarget l
  end.

Definition hasTarget (tag : AtomicString) (item : HTMLStackItem) : bool := matchesHTMLTag item tag.

Definition hasNumberedHeaderElementInScope (s : HTMLElementStack) : option bool :=
  inScopeCommon isScopeMarker isNumberedHeaderElement (m_top s).

Definition inScopeNode (s : HTMLElementStack) (n : ContainerNode) : option bool :=
  inScopeCommon isScopeMarker (fun item => sameNode (m_node item) n) (m_top s).

Definition inScope (s : HTMLElementStack) (tag : AtomicString) : option bool :=
  inScopeCommon isScopeMarker (hasTarget tag) (m_top s).

Definition inListItemScope (s : HTMLElementStack) (tag : AtomicString) : option bool :=
  inScopeCommon isListItemScopeMarker (hasTarget tag) (m_top s).

Definition inTableScope (s : HTMLElementStack) (tag : AtomicString) : option bool :=
  inScopeCommon isTableScopeMarker (hasTarget tag) (m_top s).

Definition inButtonScope (s : HTMLElementStack) (tag : AtomicString) : option bool :=
  inScopeCommon isButtonScopeMarker (hasTarget tag) (m_top s).

Definition inSelectScope (s : HTMLElementStack) (tag : AtomicString) : option bool :=
  inScopeCommon isSelectScopeMarker (hasTarget tag) (m_top s).

Definition hasTemplateInHTMLScope (s : HTMLElementStack) : option bool :=
  inScopeCommon isRootNode (hasTarget (lit "template")) (m_top s).

(** ** Pushing *)

Definition pushCommon (item : HTMLStackItem) (s : HTMLElementStack) : option HTMLElementStack :=
  guard! bool_decide (is_Some (m_rootNode s)) in
  let s := set_stackDepth (m_stackDepth s + 1) s in
  Some (set_nextRecord (S (nextRecord s)) (set_top (mkRecord (nextRecord s) item :: m_top s) s)).

Definition pushRootNodeCommon (item : HTMLStackItem) (s : HTMLElementStack) : option HTMLElementStack :=
  guard! bool_decide (m_top s = []) in
  guard! bool_decide (m_rootNode s = None) in
  pushCommon item (set_rootNode (Some (m_node item)) s).

Definition pushRootNode (item : HTMLStackItem) (s : HTMLElementStack) : option HTMLElementStack :=
  guard! m_isDocumentFragmentNode item in pushRootNodeCommon item s.

Definition pushHTMLHtmlElement (item : HTMLStackItem) (s : HTMLElementStack) : option HTMLElementStack :=
  guard! hasTagName item (htmlName "html") in pushRootNodeCommon item s.

Definition pushHTMLHeadElement (item : HTMLStackItem) (s : HTMLElementStack) : option HTMLElementStack :=
  guard! hasTagName item (htmlName "head") in
  guard! bool_decide (m_headElement s = None) in
  match element item with
  | None => None
  | Some e => pushCommon item (set_headElement (Some e) s)
  end.

Definition pushHTMLBodyElement (item : HTMLStackItem) (s : HTMLElementStack) : option HTMLElementStack :=
  guard! hasTagName item (htmlName "body") in
  guard! bool_decide (m_bodyElement s = None) in
  match element item with
  | None => None
  | Some e => pushCommon item (set_bodyElement (Some e) s)
  end.

(** The assertions of [push] and [insertAbove]. *)
Definition isPlain (item : HTMLStackItem) : bool := negb (hasOneOf item (map htmlName ["html"; "head"; "body"]%string)).

Definition push (item : HTMLStackItem) (s : HTMLElementStack) : option HTMLElementStack :=
  guard! isPlain item in
  guard! bool_decide (is_Some (m_rootNode s)) in
  pushCommon item s.

(** The loop of [insertAbove]: the record [r] is put above the record with the
    identity [recordBelow], which is not the first one. *)
Fixpoint insertLoop (r : ElementRecord) (recordBelow : nat) (l : list ElementRecord) : option (list ElementRecord) :=
  match l with
  | recordAbove :: ((n :: _) as l) =>
      if (recordId n =? recordBelow)%nat then Some (recordAbove :: r :: l)
      else match insertLoop r recordBelow l with
           | None => None
           | Some l => Some (recordAbove :: l)
           end
  | _ => None
  end.

Definition insertAbove (item : HTMLStackItem) (recordBelow : ElementRecord) (s : HTMLElementStack) : option HTMLElementStack :=
  match m_top s with
  | [] => None
  | r :: _ =>
      guard! isPlain item in
      guard! bool_decide (is_Some (m_rootNode s)) in
      if (recordId r =? recordId recordBelow)%nat then push item s
      else
        match insertLoop (mkRecord (nextRecord s) item) (recordId recordBelow) (m_top s), element item with
        | Some l, Some e =>
            let s := set_stackDepth (m_stackDepth s + 1) s in
            Some (call (BeginParsingChildren e) (set_nextRecord (S (nextRecord s)) (set_top l s)))
        | _, _ => None
        end
  end.

(** [ElementRecord::replaceElement]. *)
Definition replaceElement (r : ElementRecord) (item : HTMLStackItem) (s : HTMLElementStack) : option HTMLElementStack :=
  match List.find (fun x => recordId x =? recordId r)%nat (m_top s) with
  | None => None
  | Some old =>
      guard! isElementNode (m_item old) in
      Some (set_top (map (fun x => if (recordId x =? recordId r)%nat then mkRecord (recordId x) item else x) (m_top s)) s)
  end.

(** ** Popping *)

Definition popCommon (s : HTMLElementStack) : option HTMLElementStack :=
  match m_top s with
  | [] => None
  | r :: rest =>
      let item := m_item r in
      guard! negb (hasTagName item (htmlName "html")) in
      guard! negb (hasTagName item (htmlName "head")) || bool_decide (m_headElement s = None) in
      guard! negb (hasTagName item (htmlName "body")) || bool_decide (m_bodyElement s = None) in
      match element item with
      | None => None
      | Some e =>
          let s := call (FinishParsingChildren e) s in
          Some (set_stackDepth (m_stackDepth s - 1) (set_top rest s))
      end
  end.

Definition pop (s : HTMLElementStack) : option HTMLElementStack :=
  match topStackItem s with
  | None => None
  | Some item => guard! negb (hasTagName item (htmlName "head")) in popCommon s
  end.

Definition popHTMLHeadElement (s : HTMLElementStack) : option HTMLElementStack :=
  match top s with
  | None => None
  | Some e => guard! isNode e (m_headElement s) in popCommon (set_headElement None s)
  end.

Definition popHTMLBodyElement (s : HTMLElementStack) : option HTMLElementStack :=
  match top s with
  | None => None
  | Some e => guard! isNode e (m_bodyElement s) in popCommon (set_bodyElement None s)
  end.

Definition popAll (s : HTMLElementStack) : HTMLElementStack :=
  mkStack [] None None None 0 (nextRecord s)
    (calls s ++ map (fun r => FinishParsingChildren (m_node (m_item r))) (m_top s)).

(** [while (!stop(topStackItem())) pop();] *)
Fixpoint popLoop (fuel : nat) (stop : HTMLStackItem -> option bool) (s : HTMLElementStack) : option HTMLElementStack :=
  match fuel with
  | O => None
  | S fuel =>
      match topStackItem s with
      | None => None
      | Some item =>
          match stop item with
          | None => None
          | Some true => Some s
          | Some false =>
              match pop s with
              | None => None
              | Some s => popLoop fuel stop s
              end
          end
      end
  end.

Definition popWhile (stop : HTMLStackItem -> option bool) (s : HTMLElementStack) : option HTMLElementStack :=
  popLoop (S (length (m_top s))) stop s.

Definition popUntil (tagName : AtomicString) : HTMLElementStack -> option HTMLElementStack :=
  popWhile (fun item => Some (matchesHTMLTag item tagName)).

Definition popUntilPopped (tagName : AtomicString) (s : HTMLElementStack) : option HTMLElementStack :=
  match popUntil tagName s with
  | None => None
  | Some s => pop s
  end.

Definition popUntilNumberedHeaderElementPopped (s : HTMLElementStack) : option HTMLElementStack :=
  match popWhile (fun item => Some (isNumberedHeaderElement item)) s with
  | None => None
  | Some s => pop s
  end.

Definition popUntilElement (n : ContainerNode) : HTMLElementStack -> option HTMLElementStack :=
  popWhile (fun item => match element item with None => None | Some e => Some (sameNode e n) end).

Definition popUntilElementPopped (n : ContainerNode) (s : HTMLElementStack) : option HTMLElementStack :=
  match popUntilElement n s with
  | None => None
  | Some s => pop s
  end.

Definition popUntilTableScopeMarker : HTMLElementStack -> option HTMLElementStack :=
  popWhile (fun item => Some (isTableScopeMarker item)).

Definition popUntilTableBodyScopeMarker : HTMLElementStack -> option HTMLElementStack :=
  popWhile (fun item => Some (isTableBodyScopeMarker item)).

Definition popUntilTableRowScopeMarker : HTMLElementStack -> option HTMLElementStack :=
  popWhile (fun item => Some (isTableRowScopeMarker item)).

Definition popUntilForeignContentScopeMarker (u_foldCase : Z -> Z) : HTMLElementStack -> option HTMLElementStack :=
  popWhile (isForeignContentScopeMarker u_foldCase).

(** ** Removing *)

(** The loop of [removeNonTopCommon]; at the bottom the null pointer of [next()]
    is dereferenced. *)
Fixpoint removeLoop (n : ContainerNode) (l : list ElementRecord) : option (list ElementRecord) :=
  match l with
  | pos :: ((r :: rest) as l) =>
      match element (m_item r) with
      | None => None
      | Some e =>
          if sameNode e n then Some (pos :: rest)
          else match removeLoop n l with
               | None => None
               | Some l => Some (pos :: l)
               end
      end
  | _ => None
  end.

Definition removeNonTopCommon (n : ContainerNode) (s : HTMLElementStack) : option HTMLElementStack :=
  guard! negb (node_hasTagName n (htmlName "html")) in
  guard! negb (node_hasTagName n (htmlName "body")) in
  match top s with
  | None => None
  | Some e =>
      guard! negb (sameNode e n) in
      match removeLoop n (m_top s) with
      | None => None
      | Some l =>
          let s := call (FinishParsingChildren n) s in
          Some (set_stackDepth (m_stackDepth s - 1) (set_top l s))
      end
  end.

Definition remove (n : ContainerNode) (s : HTMLElementStack) : option HTMLElementStack :=
  guard! negb (node_hasTagName n (htmlName "head")) in
  match top s with
  | None => None
  | Some e => if sameNode e n then pop s else removeNonTopCommon n s
  end.

Definition removeHTMLHeadElement (n : ContainerNode) (s : HTMLElementStack) : option HTMLElementStack :=
  guard! isNode n (m_headElement s) in
  match top s with
  | None => None
  | Some e =>
      if sameNode e n then popHTMLHeadElement s
      else removeNonTopCommon n (set_headElement None s)
  end.

(** ** The furthest block *)

Fixpoint furthestLoop (formattingElement : ContainerNode) (furthestBlock : option ElementRecord) (l : list ElementRecord)
  : option (option ElementRecord) :=
  match l with
  | [] => None
  | pos :: l =>
      match element (m_item pos) with
      | None => None
      | Some e =>
          if sameNode e formattingElement then Some furthestBlock
          else furthestLoop formattingElement (if isSpecialNode (m_item pos) then Some pos else furthestBlock) l
      end
  end.

Definition furthestBlockForFormattingElement (s : HTMLElementStack) (formattingElement : ContainerNode)
  : option (option ElementRecord) :=
  furthestLoop formattingElement None (m_top s).

End HTMLElementStack.
