(* ===== verification/HTMLElementStackProps.v ===== *)
(** * Properties of the stack of open elements

    The invariant that the assertions of [HTMLElementStack] rely on, the protocol
    its clients follow, and what scopes, popping and editing compute. *)
From S2P Require Import Prelude HTMLStackItem HTMLElementStack.
From Stdlib Require Import String ZArith Lia.
From stdpp Require Import base list numbers option.
#[local] Open Scope Z_scope.
Import HTMLStackItem HTMLElementStack.

(** ** Items and nodes *)

Definition nodeOf (r : ElementRecord) : ContainerNode := m_node (m_item r).

(** An item has the name of its node, or it is for a document fragment. *)
Definition wellFormed (item : HTMLStackItem) : Prop :=
  if m_isDocumentFragmentNode item
  then isElement (m_node item) = false /\ m_tokenLocalName item = None
  else isElement (m_node item) = true /\ m_tokenLocalName item = Some (localNameOf (nodeName (m_node item))) /\
       m_namespaceURI item = namespaceOf (nodeName (m_node item)).

(** An element that is neither html, head nor body. *)
Definition plainItem (item : HTMLStackItem) : Prop :=
  m_isDocumentFragmentNode item = false /\ isPlain item = true.

Lemma fragment_noTag item name : wellFormed item -> m_isDocumentFragmentNode item = true -> hasTagName item name = false.
Proof.
  unfold wellFormed. intros H E. rewrite E in H. destruct H as [_ H]. unfold hasTagName, hasLocalName. rewrite H.
  by rewrite bool_decide_eq_false_2.
Qed.

Lemma wellFormed_element item : wellFormed item -> m_isDocumentFragmentNode item = false -> element item = Some (m_node item).
Proof. unfold wellFormed, element. intros H E. rewrite E in H. by destruct H as [-> _]. Qed.

(** The tests of the node and of the item agree. *)
Lemma node_hasTagName_item item name : wellFormed item -> node_hasTagName (m_node item) name = hasTagName item name.
Proof.
  unfold wellFormed, node_hasTagName, matches, hasTagName, hasLocalName. destruct (m_isDocumentFragmentNode item).
  - intros [-> ->]. done.
  - intros (-> & -> & ->). cbn [andb]. f_equal. apply bool_decide_ext. split; congruence.
Qed.

Lemma plain_names item : plainItem item ->
  hasTagName item (htmlName "html") = false /\ hasTagName item (htmlName "head") = false /\
  hasTagName item (htmlName "body") = false.
Proof.
  intros [_ H]. unfold isPlain, hasOneOf in H. cbn [map existsb] in H. bool_to_prop. done.
Qed.

Lemma plain_not_root item : plainItem item -> isRootNode item = false.
Proof. intros H. unfold isRootNode. destruct (plain_names item H) as (-> & _). by destruct H as [-> _]. Qed.

(** Any other name is a plain one. *)
Lemma tag_plain item name : wellFormed item -> hasTagName item name = true ->
  name <> htmlName "html" -> name <> htmlName "head" -> name <> htmlName "body" -> plainItem item.
Proof.
  intros Hw H H1 H2 H3. split.
  - destruct (m_isDocumentFragmentNode item) eqn:E; [|done]. by rewrite fragment_noTag in H.
  - unfold isPlain, hasOneOf. cbn [map existsb].
    by rewrite !(hasTagName_other item name).
Qed.

(** ** The shape of the stack *)

(** The root is at the bottom and nowhere else; head or body only directly above
    it, and then they are the remembered ones. *)
Inductive shaped : list ElementRecord -> option ContainerNode -> option ContainerNode -> option ContainerNode -> Prop :=
| shaped_empty : shaped [] None None None
| shaped_root r : isRootNode (m_item r) = true -> shaped [r] (Some (nodeOf r)) None None
| shaped_head r root :
    isRootNode (m_item root) = true -> hasTagName (m_item r) (htmlName "head") = true ->
    shaped [r; root] (Some (nodeOf root)) (Some (nodeOf r)) None
| shaped_body r root :
    isRootNode (m_item root) = true -> hasTagName (m_item r) (htmlName "body") = true ->
    shaped [r; root] (Some (nodeOf root)) None (Some (nodeOf r))
| shaped_plain r r' l root h b :
    plainItem (m_item r) -> shaped (r' :: l) root h b -> shaped (r :: r' :: l) root h b.

Record inv (s : HTMLElementStack) : Prop := mkInv {
  inv_shape : shaped (m_top s) (m_rootNode s) (m_headElement s) (m_bodyElement s);
  inv_items : Forall (fun r => wellFormed (m_item r)) (m_top s);
  inv_nodes : NoDup (map (fun r => nodeId (nodeOf r)) (m_top s));
  inv_ids : NoDup (map recordId (m_top s));
  inv_fresh : Forall (fun r => (recordId r < nextRecord s)%nat) (m_top s);
  inv_depth : m_stackDepth s = uwrap 32 (Z.of_nat (length (m_top s)))
}.

Lemma inv_new : inv newStack.
Proof. constructor; cbn; try constructor. Qed.

Lemma shaped_rootNode l root h b : shaped l root h b -> l <> [] -> is_Some root.
Proof. induction 1 as [| | | |r r' l root h b _ _ IH]; intros Hne; try done; try by eexists. by apply IH. Qed.

(** The root is below every plain record. *)
Lemma shaped_bottom l root h b : shaped l root h b -> l <> [] ->
  exists upper r, l = upper ++ [r] /\ isRootNode (m_item r) = true /\ root = Some (nodeOf r).
Proof.
  induction 1 as [|r|r root'|r root'|r r' l root h b _ _ IH]; intros Hne; [done|by exists [], r|by exists [r], root'|by exists [r], root'|].
  destruct IH as (upper & r0 & -> & ?); [done|]. by exists (r :: upper), r0.
Qed.

(** The records above a plain one are plain. *)
Lemma shaped_above l root h b above r rest : shaped l root h b -> l = above ++ r :: rest -> plainItem (m_item r) ->
  Forall (fun x => plainItem (m_item x)) above /\ rest <> [].
Proof.
  intros H. revert above. induction H as [|r0 Hr|r0 root' Hr Ht|r0 root' Hr Ht|r0 r' l root h b Hp H IH]; intros above E Hpl.
  - by destruct above.
  - destruct above as [|? [|]]; try done. simplify_eq/=. by rewrite (plain_not_root _ Hpl) in Hr.
  - destruct above as [|? [|? [|]]]; try done; simplify_eq/=.
    + apply plain_names in Hpl. destruct Hpl as (_ & Hpl & _). by rewrite Hpl in Ht.
    + by rewrite (plain_not_root _ Hpl) in Hr.
  - destruct above as [|? [|? [|]]]; try done; simplify_eq/=.
    + apply plain_names in Hpl. destruct Hpl as (_ & _ & Hpl). by rewrite Hpl in Ht.
    + by rewrite (plain_not_root _ Hpl) in Hr.
  - destruct above as [|a above]; simplify_eq/=; [split; [constructor|done]|].
    rename select (_ :: _ = _ ++ _) into E.
    destruct (IH above E Hpl) as [IH1 IH2]. split; [by constructor|done].
Qed.

(** What is below a plain record has the shape of a stack. *)
Lemma shaped_drop above l root h b : shaped (above ++ l) root h b -> Forall (fun x => plainItem (m_item x)) above -> l <> [] ->
  shaped l root h b.
Proof.
  induction above as [|a above IH]; intros H Ha Hne; [done|]. apply Forall_cons_iff in Ha as [Hp Ha].
  destruct (plain_names _ Hp) as (Hn1 & Hn2 & Hn3). pose proof (plain_not_root _ Hp) as Hn4.
  inversion H; subst; try congruence. apply IH; [|done..]. congruence.
Qed.

(** ** Popping *)

(** The state after [n] records have been popped. *)
Definition popped (n : nat) (s : HTMLElementStack) : HTMLElementStack :=
  mkStack (drop n (m_top s)) (m_rootNode s) (m_headElement s) (m_bodyElement s)
    (uwrap 32 (m_stackDepth s - Z.of_nat n)) (nextRecord s)
    (calls s ++ map (fun r => FinishParsingChildren (nodeOf r)) (take n (m_top s))).

Lemma popped_0 s : inv s -> popped 0 s = s.
Proof.
  intros H. destruct s as [l r h b d k c]. unfold popped. cbn. rewrite app_nil_r, drop_0. f_equal.
  rewrite Z.sub_0_r. pose proof (inv_depth _ H) as Hd. cbn in Hd. subst d. unfold uwrap. apply Z.mod_mod. lia.
Qed.

Lemma popped_S n s : inv s -> (n < length (m_top s))%nat -> popped n (popped 1 s) = popped (S n) s.
Proof.
  intros H Hn. unfold popped. cbn [m_top m_rootNode m_headElement m_bodyElement m_stackDepth nextRecord calls].
  destruct (m_top s) as [|r l]; [cbn in Hn; lia|]. cbn [drop take map]. rewrite drop_0, <- app_assoc. cbn [app]. f_equal.
  unfold uwrap. rewrite Zminus_mod_idemp_l. f_equal. lia.
Qed.

Lemma pop_plain s r l : inv s -> m_top s = r :: l -> plainItem (m_item r) -> pop s = Some (popped 1 s).
Proof.
  intros H E Hp. unfold pop, topStackItem, topRecord. rewrite E. cbn.
  destruct (plain_names _ Hp) as (H1 & H2 & H3). rewrite H2. cbn. unfold popCommon. rewrite E, H1, H2, H3. cbn.
  pose proof (inv_items _ H) as Hi. rewrite E in Hi. apply Forall_cons_iff in Hi as [Hi _].
  rewrite (wellFormed_element _ Hi) by apply Hp. unfold popped. rewrite E. cbn. by rewrite drop_0.
Qed.

(** Popping plain records keeps the invariant. *)
Lemma inv_popped s above l : inv s -> m_top s = above ++ l -> Forall (fun x => plainItem (m_item x)) above -> l <> [] ->
  inv (popped (length above) s).
Proof.
  intros [H1 H2 H3 H4 H5 H6] E Ha Hne. rewrite E in *. unfold popped. rewrite E, drop_app_length. constructor; cbn.
  - by apply (shaped_drop above).
  - apply List.Forall_app in H2 as [_ ?]. done.
  - rewrite map_app in H3. apply list.NoDup_app in H3 as (_ & _ & ?). done.
  - rewrite map_app in H4. apply list.NoDup_app in H4 as (_ & _ & ?). done.
  - apply List.Forall_app in H5 as [_ ?]. done.
  - rewrite H6, length_app. unfold uwrap. rewrite Zminus_mod_idemp_l. f_equal. lia.
Qed.

(** A loop that pops plain records down to the first one at which it stops. *)
Lemma popLoop_ok stop above r rest fuel s : inv s -> m_top s = above ++ r :: rest ->
  Forall (fun x => plainItem (m_item x) /\ stop (m_item x) = Some false) above -> stop (m_item r) = Some true ->
  (length above < fuel)%nat -> popLoop fuel stop s = Some (popped (length above) s).
Proof.
  revert fuel s. induction above as [|a above IH]; intros [|fuel] s H E Ha Hr Hf; cbn [length] in *; try lia.
  - cbn [popLoop]. unfold topStackItem, topRecord. rewrite E. cbn. rewrite Hr. by rewrite popped_0.
  - apply Forall_cons_iff in Ha as [[Hp Hs] Ha]. cbn [popLoop]. unfold topStackItem, topRecord. rewrite E. cbn. rewrite Hs.
    rewrite (pop_plain s a (above ++ r :: rest)) by done.
    assert (Hi : inv (popped 1 s)). { apply (inv_popped s [a] (above ++ r :: rest)); [done|done|by constructor|by destruct above]. }
    rewrite IH; [|done| |done|done|lia].
    + rewrite popped_S; [done|done|]. rewrite E. cbn. rewrite length_app. cbn. lia.
    + unfold popped. rewrite E. cbn. by rewrite drop_0.
Qed.

Lemma popWhile_ok stop above r rest s : inv s -> m_top s = above ++ r :: rest ->
  Forall (fun x => plainItem (m_item x) /\ stop (m_item x) = Some false) above -> stop (m_item r) = Some true ->
  popWhile stop s = Some (popped (length above) s).
Proof.
  intros H E Ha Hr. apply (popLoop_ok stop above r rest); try done. rewrite E, length_app. lia.
Qed.

(** A node is on the stack once. *)
Lemma inv_same s r r' : inv s -> r ∈ m_top s -> r' ∈ m_top s -> nodeId (nodeOf r) = nodeId (nodeOf r') -> r = r'.
Proof.
  intros H Hr Hr' E. apply list_elem_of_lookup in Hr as [i Hi], Hr' as [j Hj].
  assert (i = j) as ->; [|congruence]. apply (list.NoDup_lookup _ _ _ (nodeId (nodeOf r)) (inv_nodes s H)).
  - change (map (fun r => nodeId (nodeOf r)) (m_top s)) with ((fun r => nodeId (nodeOf r)) <$> m_top s). by rewrite list_lookup_fmap, Hi.
  - change (map (fun r => nodeId (nodeOf r)) (m_top s)) with ((fun r => nodeId (nodeOf r)) <$> m_top s). rewrite list_lookup_fmap, Hj. cbn. by rewrite E.
Qed.

(** ** Scopes *)

(** The topmost record that is a target or a marker is a target. *)
Definition reaches (isMarker isTarget : HTMLStackItem -> bool) (l : list ElementRecord) : Prop :=
  exists above r below, l = above ++ r :: below /\ isTarget (m_item r) = true /\
    Forall (fun x => isTarget (m_item x) = false /\ isMarker (m_item x) = false) above.

Lemma inScopeCommon_spec isMarker isTarget l :
  (exists r, r ∈ l /\ isMarker (m_item r) = true) ->
  exists b, inScopeCommon isMarker isTarget l = Some b /\ (b = true <-> reaches isMarker isTarget l).
Proof.
  induction l as [|r l IH]; intros (m & Hm & Hmark); [by apply not_elem_of_nil in Hm|]. cbn.
  destruct (isTarget (m_item r)) eqn:Et.
  { exists true. split; [done|]. split; [|done]. intros _. exists [], r, l. split_and!; [done|done|constructor]. }
  destruct (isMarker (m_item r)) eqn:Em.
  - exists false. split; [done|]. split; [done|]. intros ([|a above] & r' & below & E & Ht & Ha); simplify_eq/=; [congruence|].
    apply Forall_cons_iff in Ha as [[_ Ha] _]. congruence.
  - destruct IH as (b & -> & Hb). { apply elem_of_cons in Hm as [->|Hm]; [congruence|]. by exists m. }
    exists b. split; [done|]. rewrite Hb. split.
    + intros (above & r' & below & -> & Ht & Ha). exists (r :: above), r', below. split_and!; [done|done|by constructor].
    + intros ([|a above] & r' & below & E & Ht & Ha); simplify_eq/=; [congruence|].
      apply Forall_cons_iff in Ha as [_ Ha]. by exists above, r', below.
Qed.

Lemma root_isScopeMarker item : isRootNode item = true -> isScopeMarker item = true.
Proof. intros H. unfold isScopeMarker. rewrite H. by rewrite !orb_true_r. Qed.

Lemma root_isSelectScopeMarker item : wellFormed item -> isRootNode item = true -> isSelectScopeMarker item = true.
Proof.
  intros Hw H. unfold isSelectScopeMarker, isHTMLOptGroupElement, isHTMLOptionElement. rewrite !node_hasTagName_item by done.
  unfold isRootNode in H. apply orb_true_iff in H as [H|H]; [by rewrite !fragment_noTag|].
  by rewrite !(hasTagName_other item (htmlName "html")).
Qed.

(** The root of a stack that is not empty. *)
Lemma inv_root s : inv s -> m_top s <> [] ->
  exists r, r ∈ m_top s /\ isRootNode (m_item r) = true /\ wellFormed (m_item r).
Proof.
  intros H Hne. destruct (shaped_bottom _ _ _ _ (inv_shape s H) Hne) as (upper & r & E & Hr & _). exists r.
  assert (Hin : r ∈ m_top s). { rewrite E. apply elem_of_app. right. by apply list_elem_of_singleton. }
  split_and!; [done|done|]. by apply (proj1 (list.Forall_forall _ _) (inv_items s H)).
Qed.

(** C21: on a stack that is not empty every scope test is answered,
    none runs off the bottom, and the answer is yes exactly when the target
    is reached from the top before a marker of the scope. *)
Theorem stack_scopes s tag n : inv s -> m_top s <> [] ->
  exists b1 b2 b3 b4 b5 b6 b7 b8,
    (inScope s tag = Some b1 /\ (b1 = true <-> reaches isScopeMarker (hasTarget tag) (m_top s))) /\
    (inListItemScope s tag = Some b2 /\ (b2 = true <-> reaches isListItemScopeMarker (hasTarget tag) (m_top s))) /\
    (inTableScope s tag = Some b3 /\ (b3 = true <-> reaches isTableScopeMarker (hasTarget tag) (m_top s))) /\
    (inButtonScope s tag = Some b4 /\ (b4 = true <-> reaches isButtonScopeMarker (hasTarget tag) (m_top s))) /\
    (inSelectScope s tag = Some b5 /\ (b5 = true <-> reaches isSelectScopeMarker (hasTarget tag) (m_top s))) /\
    (hasTemplateInHTMLScope s = Some b6 /\ (b6 = true <-> reaches isRootNode (hasTarget (lit "template")) (m_top s))) /\
    (hasNumberedHeaderElementInScope s = Some b7 /\ (b7 = true <-> reaches isScopeMarker isNumberedHeaderElement (m_top s))) /\
    (inScopeNode s n = Some b8 /\ (b8 = true <-> reaches isScopeMarker (fun item => sameNode (m_node item) n) (m_top s))).
Proof.
  intros H Hne. destruct (inv_root s H Hne) as (r & Hin & Hr & Hw).
  assert (E : forall m, (wellFormed (m_item r) -> isRootNode (m_item r) = true -> m (m_item r) = true) ->
    forall t, exists b, inScopeCommon m t (m_top s) = Some b /\ (b = true <-> reaches m t (m_top s))).
  { intros m Hm t. apply inScopeCommon_spec. exists r. auto. }
  assert (Hs := root_isScopeMarker (m_item r)).
  destruct (E isScopeMarker (fun _ => Hs) (hasTarget tag)) as (b1 & ?).
  destruct (E isListItemScopeMarker) with (t := hasTarget tag) as (b2 & ?).
  { intros _ R. unfold isListItemScopeMarker. by rewrite Hs. }
  destruct (E isTableScopeMarker) with (t := hasTarget tag) as (b3 & ?).
  { intros _ R. unfold isTableScopeMarker. by rewrite R, orb_true_r. }
  destruct (E isButtonScopeMarker) with (t := hasTarget tag) as (b4 & ?).
  { intros _ R. unfold isButtonScopeMarker. by rewrite Hs. }
  destruct (E isSelectScopeMarker (root_isSelectScopeMarker _) (hasTarget tag)) as (b5 & ?).
  destruct (E isRootNode (fun _ R => R) (hasTarget (lit "template"))) as (b6 & ?).
  destruct (E isScopeMarker (fun _ => Hs) isNumberedHeaderElement) as (b7 & ?).
  destruct (E isScopeMarker (fun _ => Hs) (fun item => sameNode (m_node item) n)) as (b8 & ?).
  exists b1, b2, b3, b4, b5, b6, b7, b8. repeat (split; [assumption|]). assumption.
Qed.

(** ** Popping to a target *)

(** The records above the first one with a plain name are popped. *)
Lemma pop_to (isTarget : HTMLStackItem -> bool) stop s : inv s ->
  (forall r, r ∈ m_top s -> wellFormed (m_item r) -> isTarget (m_item r) = true -> plainItem (m_item r)) ->
  (forall r, wellFormed (m_item r) -> m_isDocumentFragmentNode (m_item r) = false -> stop (m_item r) = Some (isTarget (m_item r))) ->
  (exists r, r ∈ m_top s /\ isTarget (m_item r) = true) ->
  exists above r below, m_top s = above ++ r :: below /\ isTarget (m_item r) = true /\
    Forall (fun x => isTarget (m_item x) = false) above /\
    popWhile stop s = Some (popped (length above) s) /\
    pop (popped (length above) s) = Some (popped (S (length above)) s) /\
    inv (popped (length above) s) /\ inv (popped (S (length above)) s).
Proof.
  intros H Hp Hstop (r0 & Hin & Ht0).
  destruct (List.find (fun r => isTarget (m_item r)) (m_top s)) as [r|] eqn:Ef.
  2: { apply find_none_forall in Ef. rewrite list.Forall_forall in Ef. specialize (Ef r0 Hin). cbn in Ef. congruence. }
  destruct (find_split _ _ _ Ef) as (above & below & E & Ht & Ha). cbn in Ht, Ha.
  pose proof (inv_items s H) as Hw. rewrite E in Hw. apply List.Forall_app in Hw as [Hwa Hwr].
  apply Forall_cons_iff in Hwr as [Hwr _].
  assert (Hpr : plainItem (m_item r)). { apply Hp; [|done..]. rewrite E. apply elem_of_app. right. left. }
  destruct (shaped_above _ _ _ _ above r below (inv_shape s H) E Hpr) as [Hpl Hne].
  assert (Hi : inv (popped (length above) s)) by (by apply (inv_popped s above (r :: below))).
  assert (Hi' : inv (popped (S (length above)) s)).
  { replace (S (length above)) with (length (above ++ [r])) by (rewrite length_app; cbn; lia).
    apply (inv_popped s (above ++ [r]) below); [done|by rewrite <- app_assoc| |done].
    apply List.Forall_app. split; [done|]. constructor; [done|constructor]. }
  exists above, r, below. split_and!; try done.
  - apply (popWhile_ok stop above r below); [done|done| |].
    + rewrite list.Forall_forall in Ha, Hpl, Hwa |- *. intros x Hx. split; [by apply Hpl|].
      rewrite Hstop; [f_equal; by apply Ha|by apply Hwa|by apply Hpl].
    + rewrite Hstop; [by rewrite Ht|done|by apply Hpr].
  - rewrite (pop_plain _ r below); [|done| |done].
    + f_equal. unfold popped. cbn [m_top m_rootNode m_headElement m_bodyElement m_stackDepth nextRecord calls].
      rewrite E, drop_app_length, take_app_length. cbn [drop take map].
      replace (drop (S (length above)) (above ++ r :: below)) with below.
      2: { change (r :: below) with ([r] ++ below). rewrite app_assoc. rewrite drop_app_length'; [done|]. rewrite length_app. cbn. lia. }
      replace (take (S (length above)) (above ++ r :: below)) with (above ++ [r]).
      2: { change (r :: below) with ([r] ++ below). rewrite app_assoc. rewrite take_app_length'; [done|]. rewrite length_app. cbn. lia. }
      rewrite map_app, app_assoc. f_equal. unfold uwrap. rewrite Zminus_mod_idemp_l. f_equal. lia.
    + unfold popped. cbn. rewrite E. by rewrite drop_app_length.
Qed.

(** Popping to an element that is neither html, head nor body. *)
Lemma popUntilElement_ok s r0 : inv s -> r0 ∈ m_top s -> plainItem (m_item r0) ->
  exists above below, m_top s = above ++ r0 :: below /\
    popUntilElement (nodeOf r0) s = Some (popped (length above) s) /\
    popUntilElementPopped (nodeOf r0) s = Some (popped (S (length above)) s) /\ inv (popped (S (length above)) s).
Proof.
  intros H Hin Hp.
  assert (Hsame : forall r, r ∈ m_top s -> sameNode (nodeOf r) (nodeOf r0) = true -> r = r0).
  { intros r Hr Hs. apply (inv_same s); [done|done|done|]. by apply sameNode_eq. }
  destruct (pop_to (fun item => sameNode (m_node item) (nodeOf r0))
    (fun item => match element item with None => None | Some e => Some (sameNode e (nodeOf r0)) end) s H)
    as (above & r & below & E & Hr & Ha & E1 & E2 & _ & E3).
  - intros r Hr _ Hs. by rewrite (Hsame r Hr Hs).
  - intros r Hw Hf. by rewrite (wellFormed_element _ Hw Hf).
  - exists r0. split; [done|]. by apply sameNode_eq.
  - assert (r = r0) as -> by (apply Hsame; [rewrite E; apply elem_of_app; right; left|done]).
    exists above, below. split_and!; try done. unfold popUntilElementPopped, popUntilElement. by rewrite E1.
Qed.

(** Popping to a name other than html, head and body succeeds whenever
    the name is on the stack (in particular when it is in a scope): the records
    above the topmost record with that name and the record itself are finished, in
    this order, and nothing else changes.  The same for numbered headers and for
    an element. *)
Theorem stack_pop s tag n : inv s ->
  (tag <> lit "html" /\ tag <> lit "head" /\ tag <> lit "body" -> containsTag s tag = true ->
   exists above r below, m_top s = above ++ r :: below /\ matchesHTMLTag (m_item r) tag = true /\
     Forall (fun x => matchesHTMLTag (m_item x) tag = false) above /\
     popUntil tag s = Some (popped (length above) s) /\
     popUntilPopped tag s = Some (popped (S (length above)) s) /\ inv (popped (S (length above)) s)) /\
  ((exists r, r ∈ m_top s /\ isNumberedHeaderElement (m_item r) = true) ->
   exists above r below, m_top s = above ++ r :: below /\ isNumberedHeaderElement (m_item r) = true /\
     Forall (fun x => isNumberedHeaderElement (m_item x) = false) above /\
     popUntilNumberedHeaderElementPopped s = Some (popped (S (length above)) s) /\ inv (popped (S (length above)) s)) /\
  ((exists r, r ∈ m_top s /\ nodeOf r = n /\ plainItem (m_item r)) ->
   exists above r below, m_top s = above ++ r :: below /\ nodeOf r = n /\
     popUntilElement n s = Some (popped (length above) s) /\
     popUntilElementPopped n s = Some (popped (S (length above)) s) /\ inv (popped (S (length above)) s)).
Proof.
  intros H. split_and!.
  - intros (T1 & T2 & T3) Hc. unfold containsTag in Hc. apply bool_decide_eq_true in Hc as [r0 Hr0].
    apply find_some in Hr0 as [Hin Ht]. apply list_elem_of_In in Hin.
    destruct (pop_to (hasTarget tag) (fun item => Some (matchesHTMLTag item tag)) s H) as (above & r & below & E & Hr & Ha & E1 & E2 & _ & E3).
    + intros x _ Hw Hm. apply (tag_plain (m_item x) (mkName tag (Some xhtmlNamespaceURI))); [done|done|..]; by intros [= ->].
    + done.
    + by exists r0.
    + exists above, r, below. split_and!; try done. unfold popUntilPopped, popUntil. by rewrite E1.
  - intros Hex.
    destruct (pop_to isNumberedHeaderElement (fun item => Some (isNumberedHeaderElement item)) s H) as (above & r & below & E & Hr & Ha & E1 & E2 & _ & E3); try done.
    + intros x _ Hw Hm. unfold isNumberedHeaderElement, hasOneOf in Hm. apply existsb_exists in Hm as (nm & Hnm & Hm).
      apply (tag_plain (m_item x) nm); [done|done|..]; intros ->; cbn in Hnm; repeat destruct Hnm as [Hnm|Hnm]; done.
    + exists above, r, below. split_and!; try done. unfold popUntilNumberedHeaderElementPopped. by rewrite E1.
  - intros (r0 & Hin & Hn & Hp).
    destruct (popUntilElement_ok s r0 H Hin Hp) as (above & below & E & E1 & E2 & E3). subst n. by exists above, r0, below.
Qed.

(** ** Clearing back to a marker *)

(** [f] pops the records above the topmost one that satisfies [m]. *)
Definition clearsTo (m : HTMLStackItem -> bool) (f : HTMLElementStack -> option HTMLElementStack) (s : HTMLElementStack) : Prop :=
  exists above r below, m_top s = above ++ r :: below /\ m (m_item r) = true /\
    Forall (fun x => m (m_item x) = false) above /\
    f s = Some (popped (length above) s) /\ inv (popped (length above) s).

Lemma shaped_none l root h b : shaped l root h b -> h = None -> b = None -> l <> [] ->
  exists upper r, l = upper ++ [r] /\ isRootNode (m_item r) = true /\ Forall (fun x => plainItem (m_item x)) upper.
Proof.
  induction 1 as [|r|r root'|r root'|r r' l root h b Hp _ IH]; intros Eh Eb Hne; try done; [by exists [], r|].
  destruct IH as (upper & r0 & -> & ? & ?); [done..|]. exists (r :: upper), r0. split_and!; [done|done|by constructor].
Qed.

Lemma clears_marker (m : HTMLStackItem -> bool) stop s : inv s ->
  (forall r, r ∈ m_top s -> stop (m_item r) = Some (m (m_item r))) ->
  (exists above r below, m_top s = above ++ r :: below /\ m (m_item r) = true /\ Forall (fun x => plainItem (m_item x)) above) ->
  clearsTo m (popWhile stop) s.
Proof.
  intros H Hstop (a0 & r0 & b0 & E0 & Hm0 & Hp0).
  destruct (List.find (fun r => m (m_item r)) (a0 ++ [r0])) as [r|] eqn:Ef.
  2: { apply find_none_forall in Ef. apply List.Forall_app in Ef as [_ Ef]. apply Forall_cons_iff in Ef as [Ef _]. congruence. }
  destruct (find_split _ _ _ Ef) as (above & below & E & Hr & Ha).
  assert (Hab : m_top s = above ++ r :: (below ++ b0)).
  { rewrite E0. change (a0 ++ r0 :: b0) with (a0 ++ [r0] ++ b0). rewrite app_assoc, E, <- app_assoc. done. }
  assert (Hp : Forall (fun x => plainItem (m_item x)) above).
  { rewrite list.Forall_forall in Hp0, Ha |- *. intros x Hx.
    assert (Hx' : x ∈ a0 ++ [r0]) by (rewrite E; apply elem_of_app; by left).
    apply elem_of_app in Hx' as [Hx'|Hx']; [by apply Hp0|]. apply list_elem_of_singleton in Hx' as ->. specialize (Ha r0 Hx). cbn in Ha. congruence. }
  exists above, r, (below ++ b0). split_and!; [done|done|done| |by apply (inv_popped s above (r :: below ++ b0))].
  apply (popWhile_ok stop above r (below ++ b0)); [done|done| |].
  - rewrite list.Forall_forall in Hp, Ha |- *. intros x Hx. split; [by apply Hp|]. rewrite Hstop; [f_equal; by apply Ha|].
    rewrite Hab. apply elem_of_app. by left.
  - rewrite Hstop; [by rewrite Hr|]. rewrite Hab. apply elem_of_app. right. left.
Qed.

(** A plain marker, or a stack without head and body. *)
Lemma clears_table m s : inv s -> m_top s <> [] -> (forall item, isRootNode item = true -> m item = true) ->
  (exists r, r ∈ m_top s /\ plainItem (m_item r) /\ m (m_item r) = true) \/ (m_headElement s = None /\ m_bodyElement s = None) ->
  clearsTo m (popWhile (fun item => Some (m item))) s.
Proof.
  intros H Hne Hroot Hex. apply clears_marker; [done|done|]. destruct Hex as [(r & Hin & Hp & Hm)|[Eh Eb]].
  - apply list_elem_of_split in Hin as (a & b & E). exists a, r, b. split_and!; [done|done|].
    by apply (shaped_above _ _ _ _ a r b (inv_shape s H) E).
  - pose proof (inv_shape s H) as Hs. rewrite Eh, Eb in Hs. destruct (shaped_none _ _ _ _ Hs eq_refl eq_refl Hne) as (upper & r & E & Hr & Hp).
    exists upper, r, []. auto.
Qed.

Lemma foreign_total u item : wellFormed item -> exists b, isForeignContentScopeMarker u item = Some b /\
  (isInHTMLNamespace item = true -> b = true).
Proof.
  intros Hw. unfold isForeignContentScopeMarker. destruct (isMathMLTextIntegrationPoint item); [by exists true|].
  destruct (isHTMLIntegrationPoint u item) as [[|]|] eqn:E; [by exists true|by eexists|]. exfalso. revert E.
  unfold isHTMLIntegrationPoint. repeat (split_if; [try done|]); [|done].
  unfold getAttributeItem. apply hasTagName_eq in Heqb0 as [-> _]. cbn. by destruct (findAttributeInVector _ _).
Qed.

(** Items that are not in the HTML namespace are plain. *)
Lemma foreign_plain item : wellFormed item -> isInHTMLNamespace item = false -> plainItem item.
Proof.
  intros Hw H. unfold isInHTMLNamespace in H. apply orb_false_iff in H as [Hn Hf]. split; [done|].
  apply bool_decide_eq_false in Hn. unfold isPlain. apply negb_true_iff, not_true_iff_false. intros Hx.
  unfold hasOneOf in Hx. apply existsb_exists in Hx as (nm & Hin & Hx). apply hasTagName_eq in Hx as [_ Hx].
  cbn in Hin. repeat destruct Hin as [Hin|Hin]; subst; done.
Qed.

(** Clearing the stack back to a table, table body or table row
    context succeeds when there is such a marker above head and body or neither is
    open, and clearing back to a foreign content marker always does: the topmost
    marker is then on top, and nothing below it has changed. *)
Theorem stack_clear s u_foldCase : inv s -> m_top s <> [] ->
  (forall m f, (m, f) ∈ [(isTableScopeMarker, popUntilTableScopeMarker); (isTableBodyScopeMarker, popUntilTableBodyScopeMarker);
                         (isTableRowScopeMarker, popUntilTableRowScopeMarker)] ->
   (exists r, r ∈ m_top s /\ plainItem (m_item r) /\ m (m_item r) = true) \/ (m_headElement s = None /\ m_bodyElement s = None) ->
   clearsTo m f s) /\
  clearsTo (fun item => bool_decide (isForeignContentScopeMarker u_foldCase item = Some true)) (popUntilForeignContentScopeMarker u_foldCase) s.
Proof.
  intros H Hne. split.
  - intros m f Hin Hex.
    assert (Hroot : forall item, isRootNode item = true ->
      isTableScopeMarker item = true /\ isTableBodyScopeMarker item = true /\ isTableRowScopeMarker item = true).
    { intros item Hr. unfold isTableScopeMarker, isTableBodyScopeMarker, isTableRowScopeMarker. by rewrite Hr, !orb_true_r. }
    rewrite !elem_of_cons in Hin. destruct Hin as [[= -> ->]|[[= -> ->]|[[= -> ->]|Hin]]]; [..|by apply not_elem_of_nil in Hin];
      (apply clears_table; [done|done|apply Hroot|done]).
  - assert (Hw := inv_items s H). rewrite list.Forall_forall in Hw. apply clears_marker; [done| |].
    + intros r Hr. destruct (foreign_total u_foldCase (m_item r) (Hw r Hr)) as (b & E & _). rewrite E. f_equal.
      destruct b; [by rewrite bool_decide_eq_true_2|by rewrite bool_decide_eq_false_2].
    + destruct (List.find (fun r => isInHTMLNamespace (m_item r)) (m_top s)) as [r|] eqn:Ef.
      * destruct (find_split _ _ _ Ef) as (above & below & E & Hr & Ha). exists above, r, below. split_and!; [done| |].
        -- destruct (foreign_total u_foldCase (m_item r)) as (b & -> & Hb); [apply Hw; rewrite E; apply elem_of_app; right; left|].
           rewrite Hb by done. done.
        -- rewrite list.Forall_forall in Ha |- *. intros x Hx. apply foreign_plain; [|by apply Ha]. apply Hw. rewrite E. apply elem_of_app. by left.
      * exfalso. apply find_none_forall in Ef. rewrite list.Forall_forall in Ef. destruct (inv_root s H Hne) as (r & Hin & Hr & Hwr).
        specialize (Ef r Hin). cbn in Ef. apply foreign_plain in Ef; [|done]. apply plain_not_root in Ef. congruence.
Qed.

(** ** The furthest block *)

Lemma furthestLoop_ok n fb above r below :
  Forall (fun x => isElement (nodeOf x) = true /\ nodeId (nodeOf x) <> nodeId n) above ->
  isElement (nodeOf r) = true -> nodeId (nodeOf r) = nodeId n ->
  furthestLoop n fb (above ++ r :: below) =
  Some (match list.last (filter (fun x => isSpecialNode (m_item x) = true) above) with Some b => Some b | None => fb end).
Proof.
  revert fb. induction above as [|a above IH]; intros fb Ha Hr Hn; cbn [app furthestLoop].
  - unfold element. fold (nodeOf r). rewrite Hr. by rewrite (proj2 (sameNode_eq _ _) Hn).
  - apply Forall_cons_iff in Ha as [[He Hne] Ha]. unfold element. fold (nodeOf a). rewrite He, (proj2 (sameNode_neq _ _) Hne).
    rewrite IH by done. f_equal. rewrite filter_cons. destruct (isSpecialNode (m_item a)) eqn:Es.
    + rewrite decide_True by done. by destruct (filter _ above) as [|b l] using rev_ind; [|rewrite app_comm_cons, !last_snoc].
    + by rewrite decide_False by done.
Qed.

(** The last element of a list that satisfies a predicate. *)
Lemma last_filter_split {A} (f : A -> bool) l :
  match list.last (filter (fun x => f x = true) l) with
  | None => Forall (fun x => f x = false) l
  | Some b => exists l1 l2, l = l1 ++ b :: l2 /\ f b = true /\ Forall (fun x => f x = false) l2
  end.
Proof.
  induction l as [|x l IH] using rev_ind; [constructor|]. rewrite list.filter_app, filter_cons, filter_nil.
  destruct (f x) eqn:E.
  - rewrite decide_True, last_snoc by done. exists l, []. split_and!; [done|done|constructor].
  - rewrite decide_False, app_nil_r by congruence. destruct (list.last _) as [b|].
    + destruct IH as (l1 & l2 & -> & Hb & H2). exists l1, (l2 ++ [x]). rewrite <- app_assoc. split_and!; [done|done|].
      apply List.Forall_app. split; [done|by constructor].
    + apply List.Forall_app. split; [done|by constructor].
Qed.

(** Every record above another one is an element. *)
Lemma inv_above_elements s above r below : inv s -> m_top s = above ++ r :: below ->
  Forall (fun x => isElement (nodeOf x) = true) above.
Proof.
  intros H E. pose proof (inv_shape s H) as Hs. pose proof (inv_items s H) as Hw. rewrite E in Hs, Hw.
  apply List.Forall_app in Hw as [Hw _]. revert Hs. clear E H. induction Hw as [|a above Ha Hw IH]; intros Hs; [constructor|].
  assert (Hf : m_isDocumentFragmentNode (m_item a) = false).
  { inversion Hs; subst; [by destruct above|..]; try by (destruct (m_isDocumentFragmentNode (m_item a)) eqn:Ef; [by rewrite fragment_noTag in *|]).
    by match goal with H : plainItem _ |- _ => destruct H end. }
  constructor.
  - unfold wellFormed in Ha. rewrite Hf in Ha. by destruct Ha.
  - inversion Hs; subst; try by destruct above.
    + destruct above as [|? [|]]; try done; constructor.
    + destruct above as [|? [|]]; try done; constructor.
    + apply IH. congruence.
Qed.

(** The furthest block of an element on the stack. *)
Lemma furthestBlock_ok s r : inv s -> r ∈ m_top s -> isElement (nodeOf r) = true ->
  exists above below fb, m_top s = above ++ r :: below /\
    furthestBlockForFormattingElement s (nodeOf r) = Some fb /\
    match fb with
    | None => Forall (fun x => isSpecialNode (m_item x) = false) above
    | Some b => isSpecialNode (m_item b) = true /\ isAbove s b r = true /\
        exists l1 l2, above = l1 ++ b :: l2 /\ Forall (fun x => isSpecialNode (m_item x) = false) l2
    end.
Proof.
  intros H Hin He. apply list_elem_of_split in Hin as (above & below & E).
  exists above, below, (list.last (filter (fun x => isSpecialNode (m_item x) = true) above)). split; [done|]. split.
  - unfold furthestBlockForFormattingElement. rewrite E. rewrite furthestLoop_ok; [by destruct (list.last _)| |done|done].
    pose proof (inv_above_elements s above r below H E) as Hel. pose proof (inv_nodes s H) as Hn. rewrite E, map_app in Hn.
    apply list.NoDup_app in Hn as (_ & Hn & _). rewrite list.Forall_forall in Hel |- *. intros x Hx. split; [by apply Hel|].
    intros Eq. apply (Hn (nodeId (nodeOf x))); [by apply (list_elem_of_fmap_2 (fun r => nodeId (nodeOf r)))|]. rewrite Eq. left.
  - pose proof (last_filter_split (fun x => isSpecialNode (m_item x)) above) as Hl. destruct (list.last _) as [b|]; [|done].
    destruct Hl as (l1 & l2 & Ea & Hb & H2). split_and!; [done| |by exists l1, l2].
    unfold isAbove. rewrite E, Ea, <- app_assoc. cbn [app].
    assert (Hb1 : recordsBelow (recordId b) (l1 ++ b :: l2 ++ r :: below) = l2 ++ r :: below).
    { pose proof (inv_ids s H) as Hi. rewrite E, Ea, <- app_assoc, map_app in Hi. cbn in Hi.
      apply list.NoDup_app in Hi as (_ & Hi & _). clear - Hi. induction l1 as [|a l1 IH]; cbn.
      - by rewrite Nat.eqb_refl.
      - destruct (Nat.eqb_spec (recordId a) (recordId b)) as [Eab|].
        + exfalso. apply (Hi (recordId a)); [left|]. rewrite Eab. left.
        + apply IH. intros x Hx. apply Hi. by right. }
    rewrite Hb1, existsb_app. cbn. by rewrite Nat.eqb_refl, orb_true_r.
Qed.

(** For an element that is on the stack
    [furthestBlockForFormattingElement] finds the lowest special record above it, and
    nothing exactly when there is none. *)
Theorem stack_furthest_block s r : inv s -> r ∈ m_top s -> isElement (nodeOf r) = true ->
  exists above below fb, m_top s = above ++ r :: below /\
    furthestBlockForFormattingElement s (nodeOf r) = Some fb /\
    match fb with
    | None => Forall (fun x => isSpecialNode (m_item x) = false) above
    | Some b => isSpecialNode (m_item b) = true /\ isAbove s b r = true /\
        exists l1 l2, above = l1 ++ b :: l2 /\ Forall (fun x => isSpecialNode (m_item x) = false) l2
    end.
Proof. apply furthestBlock_ok. Qed.

(** ** Editing *)

Lemma shaped_insert l1 n below l2 root h b : shaped (l1 ++ below :: l2) root h b -> plainItem (m_item n) ->
  l2 <> [] \/ (h = None /\ b = None) -> shaped (l1 ++ n :: below :: l2) root h b.
Proof.
  intros H Hn Hc. revert root h b H Hc. induction l1 as [|a l1 IH]; intros root h b H Hc; [by constructor|]. cbn [app] in *.
  inversion H; subst; [by destruct l1|..].
  - destruct l1 as [|? [|]]; simplify_eq/=; destruct Hc as [|[]]; done.
  - destruct l1 as [|? [|]]; simplify_eq/=; destruct Hc as [|[]]; done.
  - match goal with E : _ :: _ = l1 ++ _, Hs : shaped _ _ _ _ |- _ => rewrite E in Hs; specialize (IH _ _ _ Hs Hc) end. destruct (l1 ++ n :: below :: l2) as [|y ys] eqn:Ey; [by destruct l1|]. by constructor.
Qed.

Lemma shaped_remove l1 r l2 root h b : shaped (l1 ++ r :: l2) root h b -> plainItem (m_item r) -> shaped (l1 ++ l2) root h b.
Proof.
  intros H Hr. pose proof (shaped_above _ _ _ _ l1 r l2 H eq_refl Hr) as [Ha Hne]. revert H.
  induction Ha as [|a l1 Hp Ha IH]; intros H; cbn [app] in *.
  - by apply (shaped_drop [r]); [|constructor; [|constructor]|].
  - assert (Hs : shaped (l1 ++ r :: l2) root h b) by (apply (shaped_drop [a]); [done|by constructor|by destruct l1]).
    specialize (IH Hs). destruct (l1 ++ l2) as [|y ys] eqn:E; [by destruct l1|]. by constructor.
Qed.

Lemma shaped_replace l1 r n l2 root h b : shaped (l1 ++ r :: l2) root h b -> plainItem (m_item r) -> plainItem (m_item n) ->
  shaped (l1 ++ n :: l2) root h b.
Proof.
  intros H Hr Hn. pose proof (shaped_above _ _ _ _ l1 r l2 H eq_refl Hr) as [Ha Hne]. revert H.
  induction Ha as [|a l1 Hp Ha IH]; intros H; cbn [app] in *.
  - destruct l2 as [|x l2]; [done|]. constructor; [done|]. by apply (shaped_drop [r]); [|constructor; [|constructor]|].
  - assert (Hs : shaped (l1 ++ r :: l2) root h b) by (apply (shaped_drop [a]); [done|by constructor|by destruct l1]).
    specialize (IH Hs). destruct (l1 ++ n :: l2) as [|y ys] eqn:E; [by destruct l1|]. by constructor.
Qed.

Lemma insertLoop_ok n l1 below l2 : NoDup (map recordId (l1 ++ below :: l2)) -> l1 <> [] ->
  insertLoop n (recordId below) (l1 ++ below :: l2) = Some (l1 ++ n :: below :: l2).
Proof.
  intros Hd. induction l1 as [|a [|a' l1] IH]; intros Hne; [done|..].
  - cbn. by rewrite Nat.eqb_refl.
  - cbn [app map] in Hd. apply list.NoDup_cons in Hd as [_ Hd]. specialize (IH Hd). change (insertLoop n (recordId below) ((a :: a' :: l1) ++ below :: l2))
      with (if (recordId a' =? recordId below)%nat then Some (a :: n :: a' :: l1 ++ below :: l2)
            else match insertLoop n (recordId below) ((a' :: l1) ++ below :: l2) with None => None | Some l => Some (a :: l) end).
    destruct (Nat.eqb_spec (recordId a') (recordId below)) as [E|_]; [|by rewrite IH].
    exfalso. apply list.NoDup_cons in Hd as [Hd _]. apply Hd. rewrite E, map_app. apply elem_of_app. right. left.
Qed.

Lemma removeLoop_ok l1 r l2 : NoDup (map (fun x => nodeId (nodeOf x)) (l1 ++ r :: l2)) -> l1 <> [] ->
  Forall (fun x => isElement (nodeOf x) = true) l1 -> isElement (nodeOf r) = true ->
  removeLoop (nodeOf r) (l1 ++ r :: l2) = Some (l1 ++ l2).
Proof.
  intros Hd. induction l1 as [|a [|a' l1] IH]; intros Hne Hel Hr; [done|..].
  - cbn. unfold element. fold (nodeOf r). rewrite Hr. by rewrite (proj2 (sameNode_eq _ _) eq_refl).
  - cbn [app map] in Hd. apply list.NoDup_cons in Hd as [_ Hd]. apply Forall_cons_iff in Hel as [_ Hel]. specialize (IH Hd (ltac:(done)) Hel Hr).
    cbn [app] in IH |- *. apply Forall_cons_iff in Hel as [Ha' _].
    cbn [removeLoop]. cbn [removeLoop] in IH. unfold element in *. fold (nodeOf a') in *. rewrite Ha'.
    destruct (sameNode (nodeOf a') (nodeOf r)) eqn:E; [|by rewrite IH].
    exfalso. apply list.NoDup_cons in Hd as [Hd _]. apply Hd. apply sameNode_eq in E. rewrite E, map_app. apply elem_of_app. right. left.
Qed.

(** A node that is not on the stack. *)
Definition freshNode (n : ContainerNode) (s : HTMLElementStack) : Prop := ~ nodeId n ∈ map (fun r => nodeId (nodeOf r)) (m_top s).

Lemma inv_insert s l1 below l2 item c : inv s -> m_top s = l1 ++ below :: l2 -> plainItem item -> wellFormed item ->
  freshNode (m_node item) s -> l2 <> [] \/ (m_headElement s = None /\ m_bodyElement s = None) ->
  inv (mkStack (l1 ++ mkRecord (nextRecord s) item :: below :: l2) (m_rootNode s) (m_headElement s) (m_bodyElement s)
         (uwrap 32 (m_stackDepth s + 1)) (S (nextRecord s)) c).
Proof.
  intros [H1 H2 H3 H4 H5 H6] E Hp Hw Hf Hc. unfold freshNode in Hf. rewrite E in *. constructor; cbn [m_top m_rootNode m_headElement m_bodyElement m_stackDepth nextRecord].
  - by apply shaped_insert.
  - rewrite <- Permutation_middle. by constructor.
  - rewrite <- Permutation_middle. cbn. by apply list.NoDup_cons.
  - rewrite <- Permutation_middle. cbn. apply list.NoDup_cons. split; [|done]. intros Hin.
    apply (list_elem_of_fmap_1 recordId) in Hin as (x & Ex & Hin). rewrite list.Forall_forall in H5. specialize (H5 x Hin). cbn in H5. lia.
  - rewrite <- Permutation_middle. constructor; [cbn; lia|]. eapply List.Forall_impl; [|exact H5]. cbn. lia.
  - rewrite H6, !length_app. cbn [length]. unfold uwrap. rewrite Zplus_mod_idemp_l. f_equal. lia.
Qed.

Lemma inv_hasRoot s : inv s -> m_top s <> [] -> bool_decide (is_Some (m_rootNode s)) = true.
Proof. intros H Hne. apply bool_decide_eq_true. by apply (shaped_rootNode _ _ _ _ (inv_shape s H)). Qed.

Lemma inv_remove s l1 r l2 c : inv s -> m_top s = l1 ++ r :: l2 -> plainItem (m_item r) ->
  inv (mkStack (l1 ++ l2) (m_rootNode s) (m_headElement s) (m_bodyElement s) (uwrap 32 (m_stackDepth s - 1)) (nextRecord s) c).
Proof.
  intros [H1 H2 H3 H4 H5 H6] E Hp. rewrite E in *. constructor; cbn [m_top m_rootNode m_headElement m_bodyElement m_stackDepth nextRecord].
  - by apply (shaped_remove l1 r).
  - rewrite <- Permutation_middle in H2. by apply Forall_cons_iff in H2 as [_ ?].
  - rewrite <- Permutation_middle in H3. cbn in H3. by apply list.NoDup_cons in H3 as [_ ?].
  - rewrite <- Permutation_middle in H4. cbn in H4. by apply list.NoDup_cons in H4 as [_ ?].
  - rewrite <- Permutation_middle in H5. by apply Forall_cons_iff in H5 as [_ ?].
  - rewrite H6, !length_app. cbn [length]. unfold uwrap. rewrite Zminus_mod_idemp_l. f_equal. lia.
Qed.

Lemma insertAbove_ok s l1 r l2 item : inv s -> m_top s = l1 ++ r :: l2 ->
  plainItem item -> wellFormed item -> freshNode (m_node item) s ->
  l2 <> [] \/ (m_headElement s = None /\ m_bodyElement s = None) ->
  exists s', insertAbove item r s = Some s' /\ m_top s' = l1 ++ mkRecord (nextRecord s) item :: r :: l2 /\ inv s'.
Proof.
  intros H E Hp Hw Hf Hc. pose proof (inv_insert s l1 r l2 item) as Hi. unfold insertAbove.
  pose proof (inv_ids s H) as Hd. rewrite E in Hd.
  rewrite (inv_hasRoot s H) by (rewrite E; by destruct l1). rewrite (proj2 Hp). destruct l1 as [|a l1].
  - rewrite E. cbn [app]. rewrite Nat.eqb_refl. unfold push, pushCommon. rewrite (proj2 Hp), (inv_hasRoot s H) by (by rewrite E).
    eexists. split; [reflexivity|]. cbn. rewrite E. split; [done|]. by apply Hi.
  - rewrite E. cbn [app]. destruct (Nat.eqb_spec (recordId a) (recordId r)) as [Ea|_].
    { exfalso. cbn [app map] in Hd. apply list.NoDup_cons in Hd as [Hd _]. apply Hd. rewrite Ea, map_app. apply elem_of_app. right. left. }
    change (a :: l1 ++ r :: l2) with ((a :: l1) ++ r :: l2). rewrite insertLoop_ok by done.
    rewrite (wellFormed_element item Hw) by apply Hp. eexists. split; [reflexivity|]. cbn. split; [done|]. by apply Hi.
Qed.

Lemma remove_ok s l1 r l2 : inv s -> m_top s = l1 ++ r :: l2 -> plainItem (m_item r) ->
  exists s', remove (nodeOf r) s = Some s' /\ m_top s' = l1 ++ l2 /\ calls s' = calls s ++ [FinishParsingChildren (nodeOf r)] /\ inv s'.
Proof.
  intros H E Hp. pose proof (inv_items s H) as Hw. rewrite E in Hw. apply List.Forall_app in Hw as [_ Hwr].
  apply Forall_cons_iff in Hwr as [Hwr _]. destruct (plain_names _ Hp) as (N1 & N2 & N3).
  pose proof (inv_above_elements s l1 r l2 H E) as Hel. pose proof (inv_nodes s H) as Hd. rewrite E in Hd.
  assert (Her : isElement (nodeOf r) = true).
  { pose proof (wellFormed_element _ Hwr (proj1 Hp)) as He. by apply element_Some in He as [? _]. }
  unfold remove, removeNonTopCommon, nodeOf. rewrite !node_hasTagName_item, N1, N2, N3 by done. cbn [negb].
  unfold top, topStackItem, topRecord. destruct l1 as [|a l1]; rewrite E; cbn [app head fmap option_fmap option_map].
  - unfold element. fold (nodeOf r). rewrite Her. rewrite (proj2 (sameNode_eq _ _) eq_refl).
    rewrite (pop_plain s r l2) by done. eexists. split; [reflexivity|]. unfold popped. rewrite E. cbn. rewrite drop_0. split_and!; [done|done|].
    apply (inv_remove s [] r l2); done.
  - apply Forall_cons_iff in Hel as [Ha Hel]. unfold element. fold (nodeOf r) (nodeOf a). rewrite Ha.
    destruct (sameNode (nodeOf a) (nodeOf r)) eqn:Es.
    { exfalso. cbn [app map] in Hd. apply list.NoDup_cons in Hd as [Hd _]. apply Hd. apply sameNode_eq in Es. rewrite Es, map_app.
      apply elem_of_app. right. left. }
    cbn [negb]. change (a :: l1 ++ r :: l2) with ((a :: l1) ++ r :: l2). rewrite removeLoop_ok; [|done|done|by constructor|done].
    eexists. split; [reflexivity|]. cbn. split_and!; [done|done|]. by apply (inv_remove s (a :: l1) r l2).
Qed.

Lemma map_replace l1 r l2 item : NoDup (map recordId (l1 ++ r :: l2)) ->
  map (fun x => if (recordId x =? recordId r)%nat then mkRecord (recordId x) item else x) (l1 ++ r :: l2) =
  l1 ++ mkRecord (recordId r) item :: l2.
Proof.
  intros Hd. rewrite map_app in Hd. apply list.NoDup_app in Hd as (_ & Hd1 & Hd2). cbn in Hd1, Hd2. apply list.NoDup_cons in Hd2 as [Hd2 _].
  assert (Hid : forall l, (forall x, x ∈ l -> recordId x <> recordId r) ->
    map (fun x => if (recordId x =? recordId r)%nat then mkRecord (recordId x) item else x) l = l).
  { induction l as [|x l IH]; intros Hl; cbn; [done|]. rewrite IH by (intros; apply Hl; by right).
    destruct (Nat.eqb_spec (recordId x) (recordId r)) as [Ex|]; [|done]. exfalso. apply (Hl x); [left|done]. }
  rewrite map_app. cbn. rewrite Nat.eqb_refl, !Hid; [done|..].
  - intros x Hx Ex. apply Hd2. rewrite <- Ex. by apply (list_elem_of_fmap_2 recordId).
  - intros x Hx Ex. apply (Hd1 (recordId x)); [by apply (list_elem_of_fmap_2 recordId)|]. rewrite Ex. left.
Qed.

Lemma replace_ok s l1 r l2 item : inv s -> m_top s = l1 ++ r :: l2 -> plainItem (m_item r) ->
  plainItem item -> wellFormed item -> freshNode (m_node item) s ->
  exists s', replaceElement r item s = Some s' /\ m_top s' = l1 ++ mkRecord (recordId r) item :: l2 /\ inv s'.
Proof.
  intros H E Hpr Hp Hw Hf. pose proof (inv_ids s H) as Hd. rewrite E in Hd. unfold replaceElement. rewrite E, map_replace by done.
  assert (Hfind : List.find (fun x => (recordId x =? recordId r)%nat) (l1 ++ r :: l2) = Some r).
  { apply find_first; [|apply Nat.eqb_refl]. rewrite list.Forall_forall. intros x Hx. apply Nat.eqb_neq. intros Ex.
    rewrite map_app in Hd. apply list.NoDup_app in Hd as (_ & Hd & _). apply (Hd (recordId x)); [by apply (list_elem_of_fmap_2 recordId)|].
    rewrite Ex. left. }
  rewrite Hfind. unfold isElementNode. rewrite (proj1 Hpr). cbn [negb]. eexists. split; [reflexivity|]. cbn. split; [done|].
  unfold freshNode in Hf. destruct H as [H1 H2 H3 H4 H5 H6]. rewrite E in *. constructor; cbn [m_top m_rootNode m_headElement m_bodyElement m_stackDepth nextRecord set_top].
  - by apply (shaped_replace l1 r).
  - rewrite <- Permutation_middle in H2 |- *. apply Forall_cons_iff in H2 as [_ ?]. by constructor.
  - rewrite <- Permutation_middle in H3, Hf |- *. cbn in H3, Hf |- *. apply list.NoDup_cons in H3 as [_ ?]. apply list.NoDup_cons.
    split; [|done]. intros Hin. apply Hf. by right.
  - by rewrite map_app in H4 |- *.
  - rewrite <- Permutation_middle in H5 |- *. apply Forall_cons_iff in H5 as [? ?]. by constructor.
  - rewrite H6, !length_app. done.
Qed.

(** On a stack of the invariant a new element can be inserted above
    any record (above the root only while neither head nor body is open), any
    element other than html, head and body can be removed or replaced; exactly that
    record changes and the invariant is kept. *)
Theorem stack_edit s l1 r l2 item : inv s -> m_top s = l1 ++ r :: l2 ->
  plainItem item -> wellFormed item -> freshNode (m_node item) s ->
  (l2 <> [] \/ (m_headElement s = None /\ m_bodyElement s = None) ->
   exists s', insertAbove item r s = Some s' /\ m_top s' = l1 ++ mkRecord (nextRecord s) item :: r :: l2 /\ inv s') /\
  (plainItem (m_item r) ->
   (exists s', remove (nodeOf r) s = Some s' /\ m_top s' = l1 ++ l2 /\ calls s' = calls s ++ [FinishParsingChildren (nodeOf r)] /\ inv s') /\
   (exists s', replaceElement r item s = Some s' /\ m_top s' = l1 ++ mkRecord (recordId r) item :: l2 /\ inv s')).
Proof.
  intros H E Hp Hw Hf. split; [by apply insertAbove_ok|]. intros Hr. split; [by apply remove_ok|by apply replace_ok].
Qed.

(** ** An example: html, body, table, p, b *)

Definition exampleItem (k : nat) (name : string) : HTMLStackItem :=
  itemForToken (mkNode k (htmlName name) true) (lit name) [] xhtmlNamespaceURI.

Definition exampleStack : HTMLElementStack :=
  mkStack [mkRecord 4 (exampleItem 4 "b"); mkRecord 3 (exampleItem 3 "p"); mkRecord 2 (exampleItem 2 "table");
           mkRecord 1 (exampleItem 1 "body"); mkRecord 0 (exampleItem 0 "html")]
    (Some (m_node (exampleItem 0 "html"))) None (Some (m_node (exampleItem 1 "body"))) 5 5 [].

Lemma exampleItem_ok k name : wellFormed (exampleItem k name).
Proof. done. Qed.

Lemma exampleItem_plain k name : isPlain (exampleItem k name) = true -> plainItem (exampleItem k name).
Proof. done. Qed.

Lemma exampleStack_inv : inv exampleStack.
Proof.
  constructor.
  - cbn. repeat (apply shaped_plain; [by apply exampleItem_plain|]).
    by apply (shaped_body (mkRecord 1 (exampleItem 1 "body")) (mkRecord 0 (exampleItem 0 "html"))).
  - repeat constructor.
  - apply (bool_decide_eq_true_1 _). by vm_compute.
  - apply (bool_decide_eq_true_1 _). by vm_compute.
  - repeat constructor.
  - reflexivity.
Qed.

Lemma stack_scopes_witness :
  exists b, inScope exampleStack (lit "p") = Some b /\ (b = true <-> reaches isScopeMarker (hasTarget (lit "p")) (m_top exampleStack)).
Proof.
  destruct (stack_scopes exampleStack (lit "p") (m_node (exampleItem 3 "p")) exampleStack_inv) as (b & _ & _ & _ & _ & _ & _ & _ & H & _); [done|].
  by exists b.
Defined.

Lemma stack_pop_witness :
  exists above r below, m_top exampleStack = above ++ r :: below /\ matchesHTMLTag (m_item r) (lit "p") = true /\
     Forall (fun x => matchesHTMLTag (m_item x) (lit "p") = false) above /\
     popUntil (lit "p") exampleStack = Some (popped (length above) exampleStack) /\
     popUntilPopped (lit "p") exampleStack = Some (popped (S (length above)) exampleStack) /\ inv (popped (S (length above)) exampleStack).
Proof.
  apply (stack_pop exampleStack (lit "p") (m_node (exampleItem 3 "p")) exampleStack_inv); [by vm_compute|by vm_compute].
Defined.

Lemma stack_clear_witness : clearsTo isTableScopeMarker popUntilTableScopeMarker exampleStack.
Proof.
  apply (stack_clear exampleStack (fun c => c) exampleStack_inv); [done|left|].
  left. exists (mkRecord 2 (exampleItem 2 "table")). split_and!; [right; right; left|by apply exampleItem_plain|by vm_compute].
Defined.

Lemma stack_furthest_block_witness :
  exists above below fb, m_top exampleStack = above ++ mkRecord 2 (exampleItem 2 "table") :: below /\
    furthestBlockForFormattingElement exampleStack (m_node (exampleItem 2 "table")) = Some fb /\
    match fb with
    | None => Forall (fun x => isSpecialNode (m_item x) = false) above
    | Some b => isSpecialNode (m_item b) = true /\ isAbove exampleStack b (mkRecord 2 (exampleItem 2 "table")) = true /\
        exists l1 l2, above = l1 ++ b :: l2 /\ Forall (fun x => isSpecialNode (m_item x) = false) l2
    end.
Proof.
  apply (stack_furthest_block exampleStack (mkRecord 2 (exampleItem 2 "table")) exampleStack_inv); [right; right; left|done].
Defined.

Lemma stack_edit_witness :
  exists s', insertAbove (exampleItem 5 "i") (mkRecord 3 (exampleItem 3 "p")) exampleStack = Some s' /\
    m_top s' = [mkRecord 4 (exampleItem 4 "b")] ++ mkRecord 5 (exampleItem 5 "i") :: mkRecord 3 (exampleItem 3 "p") ::
      [mkRecord 2 (exampleItem 2 "table"); mkRecord 1 (exampleItem 1 "body"); mkRecord 0 (exampleItem 0 "html")] /\ inv s'.
Proof.
  apply (stack_edit exampleStack [mkRecord 4 (exampleItem 4 "b")] (mkRecord 3 (exampleItem 3 "p")) _ (exampleItem 5 "i") exampleStack_inv);
    [done|by apply exampleItem_plain|done| |by left].
  unfold freshNode. apply (bool_decide_eq_true_1 _). by vm_compute.
Defined.
