(* ===== verification/HTMLElementStackProtocol.v ===== *)
(** * The protocol of the stack of open elements

    The operations as steps, what their clients guarantee, and that every
    reachable stack satisfies the invariant. *)
From S2P Require Import Prelude HTMLStackItem HTMLElementStack HTMLElementStackProps.
From Stdlib Require Import String ZArith Lia.
From stdpp Require Import base list numbers option.
#[local] Open Scope Z_scope.
Import HTMLStackItem HTMLElementStack.

Inductive StackOp : Type :=
| PushRootNode (item : HTMLStackItem)
| PushHTMLHtmlElement (item : HTMLStackItem)
| PushHTMLHeadElement (item : HTMLStackItem)
| PushHTMLBodyElement (item : HTMLStackItem)
| Push (item : HTMLStackItem)
| InsertAbove (item : HTMLStackItem) (below : ElementRecord)
| ReplaceElement (r : ElementRecord) (item : HTMLStackItem)
| Pop
| PopHTMLHeadElement
| PopHTMLBodyElement
| PopAll
| PopUntil (tag : AtomicString)
| PopUntilPopped (tag : AtomicString)
| PopUntilElement (n : ContainerNode)
| PopUntilElementPopped (n : ContainerNode)
| PopUntilNumberedHeader
| PopUntilTableScope
| PopUntilTableBodyScope
| PopUntilTableRowScope
| PopUntilForeignContent (u_foldCase : Z -> Z)
| Remove (n : ContainerNode)
| RemoveHTMLHeadElement (n : ContainerNode).

Definition exec (op : StackOp) (s : HTMLElementStack) : option HTMLElementStack :=
  match op with
  | PushRootNode item => pushRootNode item s
  | PushHTMLHtmlElement item => pushHTMLHtmlElement item s
  | PushHTMLHeadElement item => pushHTMLHeadElement item s
  | PushHTMLBodyElement item => pushHTMLBodyElement item s
  | Push item => push item s
  | InsertAbove item below => insertAbove item below s
  | ReplaceElement r item => replaceElement r item s
  | Pop => pop s
  | PopHTMLHeadElement => popHTMLHeadElement s
  | PopHTMLBodyElement => popHTMLBodyElement s
  | PopAll => Some (popAll s)
  | PopUntil tag => popUntil tag s
  | PopUntilPopped tag => popUntilPopped tag s
  | PopUntilElement n => popUntilElement n s
  | PopUntilElementPopped n => popUntilElementPopped n s
  | PopUntilNumberedHeader => popUntilNumberedHeaderElementPopped s
  | PopUntilTableScope => popUntilTableScopeMarker s
  | PopUntilTableBodyScope => popUntilTableBodyScopeMarker s
  | PopUntilTableRowScope => popUntilTableRowScopeMarker s
  | PopUntilForeignContent u_foldCase => popUntilForeignContentScopeMarker u_foldCase s
  | Remove n => remove n s
  | RemoveHTMLHeadElement n => removeHTMLHeadElement n s
  end.

(** An item that its client has just created. *)
Definition newItem (item : HTMLStackItem) (s : HTMLElementStack) : Prop :=
  wellFormed item /\ freshNode (m_node item) s.

(** A pointer to a node denotes the node of the record that has it. *)
Definition knownNode (n : ContainerNode) (s : HTMLElementStack) : Prop :=
  forall r, r ∈ m_top s -> sameNode (nodeOf r) n = true -> nodeOf r = n.

(** What clients guarantee beyond the assertions: nodes are pushed once, an item
    has the name of its node, head and body are pushed directly onto the root, and
    nothing is inserted between the root and them. *)
Definition allowed (op : StackOp) (s : HTMLElementStack) : Prop :=
  match op with
  | PushRootNode item | PushHTMLHtmlElement item => wellFormed item
  | PushHTMLHeadElement item | PushHTMLBodyElement item => newItem item s /\ hasOnlyOneElement s = Some true
  | Push item => newItem item s /\ isElementNode item = true /\ m_top s <> []
  | InsertAbove item below =>
      newItem item s /\ isElementNode item = true /\ below ∈ m_top s /\
      (isRootNode (m_item below) = true -> m_headElement s = None /\ m_bodyElement s = None)
  | ReplaceElement r item => newItem item s /\ plainItem item /\ r ∈ m_top s /\ plainItem (m_item r)
  | Remove n | RemoveHTMLHeadElement n => knownNode n s
  | _ => True
  end.

Inductive reachable : HTMLElementStack -> Prop :=
| reachable_new : reachable newStack
| reachable_step op s s' : reachable s -> allowed op s -> exec op s = Some s' -> reachable s'.

(** ** Pushing *)

Lemma only_one s : inv s -> hasOnlyOneElement s = Some true ->
  exists r, m_top s = [r] /\ isRootNode (m_item r) = true /\ m_rootNode s = Some (nodeOf r) /\ m_headElement s = None /\ m_bodyElement s = None.
Proof.
  unfold hasOnlyOneElement. intros H. pose proof (inv_shape s H) as Hs. destruct (m_top s) as [|r [|]] eqn:E; try done. intros _.
  exists r. inversion Hs; subst; done.
Qed.

(** Pushing a record onto a stack. *)
Lemma inv_pushed s item h b : inv s -> newItem item s ->
  shaped (mkRecord (nextRecord s) item :: m_top s) (m_rootNode s) h b ->
  inv (mkStack (mkRecord (nextRecord s) item :: m_top s) (m_rootNode s) h b (uwrap 32 (m_stackDepth s + 1)) (S (nextRecord s)) (calls s)).
Proof.
  intros [H1 H2 H3 H4 H5 H6] [Hw Hf] Hs. constructor; cbn [m_top m_rootNode m_headElement m_bodyElement m_stackDepth nextRecord].
  - done.
  - by constructor.
  - cbn. by apply list.NoDup_cons.
  - cbn. apply list.NoDup_cons. split; [|done]. intros Hin.
    apply (list_elem_of_fmap_1 recordId) in Hin as (x & Ex & Hin). rewrite list.Forall_forall in H5. specialize (H5 x Hin). cbn in H5. lia.
  - constructor; [cbn; lia|]. eapply List.Forall_impl; [|exact H5]. cbn. lia.
  - rewrite H6. cbn [length]. unfold uwrap. rewrite Zplus_mod_idemp_l. f_equal. lia.
Qed.

Lemma push_root_inv item s s' : inv s -> wellFormed item -> isRootNode item = true -> pushRootNodeCommon item s = Some s' -> inv s'.
Proof.
  intros H Hw Hr. unfold pushRootNodeCommon. case_bool_decide as Et; [|done]. case_bool_decide as Er; [|done]. cbn. intros [= <-].
  pose proof (inv_shape s H) as Hs. rewrite Et, Er in Hs. assert (Eh : m_headElement s = None /\ m_bodyElement s = None) by (by inversion Hs).
  destruct Eh as [Eh Eb].
  destruct H as [H1 H2 H3 H4 H5 H6]. rewrite Et in *. constructor; cbn [m_top m_rootNode m_headElement m_bodyElement m_stackDepth nextRecord set_top set_rootNode set_stackDepth set_nextRecord].
  - cbn. rewrite Eh, Eb. by apply (shaped_root (mkRecord (nextRecord s) item)).
  - by constructor.
  - cbn. apply list.NoDup_singleton.
  - cbn. apply list.NoDup_singleton.
  - constructor; [cbn; lia|constructor].
  - rewrite H6. done.
Qed.

Lemma push_head_inv item s s' : inv s -> newItem item s -> hasOnlyOneElement s = Some true ->
  pushHTMLHeadElement item s = Some s' \/ pushHTMLBodyElement item s = Some s' -> inv s'.
Proof.
  intros H Hn Ho. destruct (only_one s H Ho) as (r & Et & Hr & Er & Eh & Eb).
  unfold pushHTMLHeadElement, pushHTMLBodyElement. rewrite Eh, Eb, !bool_decide_eq_true_2 by done.
  destruct (hasTagName item (htmlName "head")) eqn:T1.
  - rewrite (hasTagName_other item (htmlName "head")) by done. intros [E|]; [|done].
    destruct (element item) as [e|] eqn:Ee; [|done]. apply element_Some in Ee as [_ ->]. unfold pushCommon in E. split_if_in E; [|done].
    injection E as <-. apply (inv_pushed s item (Some (m_node item)) (m_bodyElement s)); [done|done|]. rewrite Et, Er, Eb.
    by apply (shaped_head (mkRecord (nextRecord s) item) r).
  - destruct (hasTagName item (htmlName "body")) eqn:T2; [|by intros []]. intros [|E]; [done|].
    destruct (element item) as [e|] eqn:Ee; [|done]. apply element_Some in Ee as [_ ->]. unfold pushCommon in E. split_if_in E; [|done].
    injection E as <-. apply (inv_pushed s item (m_headElement s) (Some (m_node item))); [done|done|]. rewrite Et, Er, Eh.
    by apply (shaped_body (mkRecord (nextRecord s) item) r).
Qed.

Lemma push_inv item s s' : inv s -> newItem item s -> isElementNode item = true -> m_top s <> [] -> push item s = Some s' -> inv s'.
Proof.
  intros H Hn He Hne. unfold push, pushCommon. destruct (isPlain item) eqn:Hp; [|done]. destruct (bool_decide _); [|done]. intros [= <-].
  apply (inv_pushed s item (m_headElement s) (m_bodyElement s)); [done|done|]. pose proof (inv_shape s H) as Hs.
  destruct (m_top s) as [|x l]; [done|]. constructor; [|done]. split; [by apply negb_true_iff in He|done].
Qed.

(** ** Popping *)

Lemma pop_inv s s' : inv s -> pop s = Some s' -> exists r l, m_top s = r :: l /\ plainItem (m_item r) /\ s' = popped 1 s /\ inv s'.
Proof.
  intros H E. assert (Hp : exists r l, m_top s = r :: l /\ plainItem (m_item r)).
  { revert E. unfold pop, popCommon, topStackItem, topRecord. destruct (m_top s) as [|r l] eqn:Et; [done|]. cbn. intros E. exists r, l. split; [done|].
    pose proof (inv_items s H) as Hw. rewrite Et in Hw. apply Forall_cons_iff in Hw as [Hw _].
    pose proof (inv_shape s H) as Hs. rewrite Et in Hs.
    destruct (hasTagName (m_item r) (htmlName "head")) eqn:T1; [done|]. cbn in E.
    destruct (hasTagName (m_item r) (htmlName "html")) eqn:T2; [done|]. cbn in E. split.
    - destruct (m_isDocumentFragmentNode (m_item r)) eqn:Ef; [|done]. unfold wellFormed in Hw. rewrite Ef in Hw. unfold element in E.
      destruct Hw as [Hw _]. rewrite Hw in E. by repeat split_if_in E.
    - destruct (hasTagName (m_item r) (htmlName "body")) eqn:T3; [|unfold isPlain, hasOneOf; cbn; by rewrite T1, T2, T3].
      exfalso. cbn in E. destruct (bool_decide (m_bodyElement s = None)) eqn:Eb; [|done]. apply bool_decide_eq_true in Eb. rewrite Eb in Hs.
      inversion Hs as [|? Hr| |? ? ? ? E1 E2 E3 E4|? ? ? ? ? ? Hp]; subst; try congruence.
      + unfold isRootNode in Hr. rewrite T2, orb_false_r in Hr. by rewrite fragment_noTag in T3.
      + apply plain_names in Hp as (_ & _ & Hp). congruence. }
  destruct Hp as (r & l & Et & Hp). rewrite (pop_plain s r l H Et Hp) in E. injection E as <-. exists r, l. split_and!; try done.
  assert (Hne : l <> []) by (by apply (shaped_above _ _ _ _ [] r l (inv_shape s H) Et Hp)).
  apply (inv_popped s [r] l); [done|done|by constructor|done].
Qed.

Lemma popLoop_inv stop fuel s s' : inv s -> popLoop fuel stop s = Some s' -> inv s'.
Proof.
  revert s. induction fuel as [|fuel IH]; intros s H E; cbn in E; [done|]. destruct (topStackItem s) as [item|]; [|done].
  destruct (stop item) as [[|]|]; [by injection E as <-| |done]. destruct (pop s) as [s1|] eqn:Ep; [|done].
  apply pop_inv in Ep as (_ & _ & _ & _ & _ & Hi); [|done]. by apply (IH s1).
Qed.

(** A loop and one more pop. *)
Lemma popWhile_pop_inv stop s s' : inv s -> match popWhile stop s with Some s => pop s | None => None end = Some s' -> inv s'.
Proof.
  intros H E. destruct (popWhile stop s) as [s1|] eqn:Ew; [|done]. apply popLoop_inv in Ew; [|done].
  by apply pop_inv in E as (_ & _ & _ & _ & _ & Hi).
Qed.

(** ** Removing *)

(** The remembered head or body is directly above the root. *)
Lemma shaped_second l root h b : shaped l root h b -> (is_Some h \/ is_Some b) ->
  exists upper r root', l = upper ++ [r; root'] /\ isRootNode (m_item root') = true /\ root = Some (nodeOf root') /\
    Forall (fun x => plainItem (m_item x)) upper /\
    ((h = Some (nodeOf r) /\ b = None /\ hasTagName (m_item r) (htmlName "head") = true) \/
     (h = None /\ b = Some (nodeOf r) /\ hasTagName (m_item r) (htmlName "body") = true)).
Proof.
  induction 1 as [|r|r root' Hr Ht|r root' Hr Ht|r r' l root h b Hp _ IH]; intros Hs; try by destruct Hs as [[]|[]].
  - exists [], r, root'. split_and!; try done. by left.
  - exists [], r, root'. split_and!; try done. by right.
  - destruct (IH Hs) as (upper & x & root' & -> & Hr & Er & Hu & Hx). exists (r :: upper), x, root'. split_and!; try done. by constructor.
Qed.

Lemma shaped_upper upper root : Forall (fun x => plainItem (m_item x)) upper -> isRootNode (m_item root) = true ->
  shaped (upper ++ [root]) (Some (nodeOf root)) None None.
Proof.
  induction 1 as [|a upper Ha _ IH]; intros Hr; [by constructor|]. cbn. specialize (IH Hr).
  destruct (upper ++ [root]) as [|x l] eqn:E; [by destruct upper|]. by constructor.
Qed.

Lemma inv_drop_second s upper r root c : inv s -> m_top s = upper ++ [r; root] -> isRootNode (m_item root) = true ->
  m_rootNode s = Some (nodeOf root) -> Forall (fun x => plainItem (m_item x)) upper ->
  inv (mkStack (upper ++ [root]) (m_rootNode s) None None (uwrap 32 (m_stackDepth s - 1)) (nextRecord s) c).
Proof.
  intros [H1 H2 H3 H4 H5 H6] E Hr Er Hu. rewrite E in *. constructor; cbn [m_top m_rootNode m_headElement m_bodyElement m_stackDepth nextRecord].
  - rewrite Er. by apply shaped_upper.
  - rewrite <- Permutation_middle in H2. by apply Forall_cons_iff in H2 as [_ ?].
  - rewrite <- Permutation_middle in H3. cbn in H3. by apply list.NoDup_cons in H3 as [_ ?].
  - rewrite <- Permutation_middle in H4. cbn in H4. by apply list.NoDup_cons in H4 as [_ ?].
  - rewrite <- Permutation_middle in H5. by apply Forall_cons_iff in H5 as [_ ?].
  - rewrite H6, !length_app. cbn [length]. unfold uwrap. rewrite Zminus_mod_idemp_l. f_equal. lia.
Qed.

(** The top of the stack is the remembered element only when nothing is above it. *)
Lemma top_is_second s upper r root e : inv s -> m_top s = upper ++ [r; root] -> top s = Some e -> nodeId e = nodeId (nodeOf r) ->
  upper = [].
Proof.
  intros H E Ht Hid. destruct upper as [|a upper]; [done|]. exfalso. unfold top, topStackItem, topRecord in Ht. rewrite E in Ht. cbn in Ht.
  apply element_Some in Ht as [_ ->]. pose proof (inv_nodes s H) as Hd. rewrite E in Hd. cbn in Hd. apply list.NoDup_cons in Hd as [Hd _].
  apply Hd. fold (nodeOf a) in Hid. rewrite Hid, map_app. apply elem_of_app. right. left.
Qed.

Lemma pop_second_inv s s' : inv s -> popHTMLHeadElement s = Some s' \/ popHTMLBodyElement s = Some s' -> inv s'.
Proof.
  intros H. pose proof (inv_shape s H) as Hs. unfold popHTMLHeadElement, popHTMLBodyElement.
  destruct (top s) as [e|] eqn:Et; [|by intros []]. intros Hp.
  assert (Hsome : is_Some (m_headElement s) \/ is_Some (m_bodyElement s)).
  { unfold isNode in Hp. destruct (m_headElement s); [by left|]. destruct (m_bodyElement s); [by right|]. by destruct Hp. }
  destruct (shaped_second _ _ _ _ Hs Hsome) as (upper & r & root & E & Hr & Er & Hu & Hx).
  assert (Hid : nodeId e = nodeId (nodeOf r)).
  { apply sameNode_eq. unfold isNode in Hp. destruct Hx as [(E1 & E2 & _)|(E1 & E2 & _)]; rewrite E1, E2 in Hp; destruct Hp as [Hp|Hp]; try done; by destruct (sameNode e (nodeOf r)). }
  assert (upper = []) as -> by (by apply (top_is_second s upper r root e)).
  pose proof (inv_drop_second s [] r root (calls s ++ [FinishParsingChildren (nodeOf r)]) H E Hr Er Hu) as Hi.
  assert (Hel : element (m_item r) = Some (nodeOf r)).
  { apply element_Some. split; [|done]. pose proof (inv_above_elements s [r] root [] H E) as Ha. by apply Forall_cons_iff in Ha as [? _]. }
  destruct Hx as [(Eh & Eb & Ht)|(Eh & Eb & Ht)]; rewrite Eh, Eb in Hp.
  - destruct Hp as [Hp|Hp]; [|done]. split_if_in Hp; [|done]. unfold popCommon in Hp. cbn [set_headElement m_top] in Hp. rewrite E in Hp.
    cbn [app] in Hp. rewrite Ht, Hel in Hp. rewrite !(hasTagName_other (m_item r) (htmlName "head")) in Hp by done. cbn in Hp. injection Hp as <-.
    destruct s; cbn in *; subst. exact Hi.
  - destruct Hp as [Hp|Hp]; [done|]. split_if_in Hp; [|done]. unfold popCommon in Hp. cbn [set_bodyElement m_top] in Hp. rewrite E in Hp.
    cbn [app] in Hp. rewrite Ht, Hel in Hp. rewrite !(hasTagName_other (m_item r) (htmlName "body")) in Hp by done. cbn in Hp. injection Hp as <-.
    destruct s; cbn in *; subst. exact Hi.
Qed.

Lemma removeLoop_Some n l l' : removeLoop n l = Some l' ->
  exists l1 r l2, l = l1 ++ r :: l2 /\ l1 <> [] /\ l' = l1 ++ l2 /\ element (m_item r) = Some (nodeOf r) /\ sameNode (nodeOf r) n = true.
Proof.
  revert l'. induction l as [|a [|r l] IH]; intros l' E; [done|done|].
  change (removeLoop n (a :: r :: l)) with (match element (m_item r) with None => None | Some e =>
    if sameNode e n then Some (a :: l) else match removeLoop n (r :: l) with None => None | Some l => Some (a :: l) end end) in E.
  destruct (element (m_item r)) as [e|] eqn:Ee; [|done]. pose proof Ee as Ee'. apply element_Some in Ee' as [_ ->].
  destruct (sameNode (m_node (m_item r)) n) eqn:Es.
  - injection E as <-. by exists [a], r, l.
  - destruct (removeLoop n (r :: l)) as [l0|] eqn:El; [|done]. injection E as <-.
    destruct (IH l0 eq_refl) as (l1 & x & l2 & E1 & Hne & -> & ? & ?). exists (a :: l1), x, l2. by rewrite E1.
Qed.

Lemma remove_inv n s s' : inv s -> knownNode n s -> remove n s = Some s' -> inv s'.
Proof.
  intros H Hk. unfold remove, removeNonTopCommon. destruct (node_hasTagName n (htmlName "head")) eqn:T1; [done|]. cbn [negb].
  destruct (top s) as [e|] eqn:Et; [|done]. destruct (sameNode e n) eqn:Es.
  - intros E. by apply pop_inv in E as (_ & _ & _ & _ & _ & Hi).
  - destruct (node_hasTagName n (htmlName "html")) eqn:T2; [done|]. destruct (node_hasTagName n (htmlName "body")) eqn:T3; [done|]. cbn [negb].
    destruct (removeLoop n (m_top s)) as [l|] eqn:El; [|done]. intros [= <-].
    apply removeLoop_Some in El as (l1 & r & l2 & E & _ & -> & Hel & Hs).
    assert (Hin : r ∈ m_top s) by (rewrite E; apply elem_of_app; right; left).
    pose proof (Hk r Hin Hs) as Hn. assert (Hw : wellFormed (m_item r)) by (by apply (proj1 (list.Forall_forall _ _) (inv_items s H))).
    subst n. unfold nodeOf in T1, T2, T3. rewrite node_hasTagName_item in T1, T2, T3 by done.
    apply (inv_remove s l1 r l2); [done|done|]. split; [|unfold isPlain, hasOneOf; cbn; by rewrite T1, T2, T3].
    destruct (m_isDocumentFragmentNode (m_item r)) eqn:Ef; [|done]. unfold wellFormed in Hw. rewrite Ef in Hw.
    apply element_Some in Hel as [Hel _]. destruct Hw as [Hw _]. congruence.
Qed.

Lemma removeHead_inv n s s' : inv s -> knownNode n s -> removeHTMLHeadElement n s = Some s' -> inv s'.
Proof.
  intros H Hk. unfold removeHTMLHeadElement. destruct (isNode n (m_headElement s)) eqn:Hn; [|done].
  destruct (top s) as [e|] eqn:Et; [|done]. destruct (sameNode e n) eqn:Es; [intros E; apply (pop_second_inv s); [done|by left]|].
  unfold removeNonTopCommon. split_if; [|done]. split_if; [|done]. change (top (set_headElement None s)) with (top s). rewrite Et, Es. cbn [negb].
  change (m_top (set_headElement None s)) with (m_top s).
  destruct (m_headElement s) as [h|] eqn:Eh; [|done]. cbn in Hn.
  destruct (shaped_second _ _ _ _ (inv_shape s H)) as (upper & r & root & E & Hr & Er & Hu & Hx); [left; by eexists|].
  destruct Hx as [(E1 & E2 & Ht)|(E1 & _)]; [|congruence]. assert (h = nodeOf r) as -> by congruence.
  assert (Hne : upper <> []).
  { intros ->. unfold top, topStackItem, topRecord in Et. rewrite E in Et. cbn in Et. apply element_Some in Et as [_ ->].
    apply sameNode_eq in Hn. apply sameNode_neq in Es. fold (nodeOf r) in Es. congruence. }
  assert (nodeOf r = n) as <-. { apply Hk; [rewrite E; apply elem_of_app; right; left|]. apply sameNode_eq. symmetry. by apply sameNode_eq. }
  pose proof (inv_above_elements s (upper ++ [r]) root [] H) as Hel. rewrite <- app_assoc in Hel. specialize (Hel E).
  apply List.Forall_app in Hel as [Hel1 Hel2]. apply Forall_cons_iff in Hel2 as [Hel2 _]. pose proof (inv_nodes s H) as Hd. rewrite E in Hd |- *.
  rewrite removeLoop_ok by done. intros [= <-]. pose proof (inv_drop_second s upper r root (calls s ++ [FinishParsingChildren (nodeOf r)]) H E Hr Er Hu) as Hi.
  destruct s; cbn in *; subst. exact Hi.
Qed.

(** ** Every reachable stack *)

Lemma exec_inv op s s' : inv s -> allowed op s -> exec op s = Some s' -> inv s'.
Proof.
  intros H Ha E. destruct op; cbn [allowed] in Ha; cbn [exec] in E.
  - unfold pushRootNode in E. destruct (m_isDocumentFragmentNode item) eqn:Ef; [|done]. apply (push_root_inv item s); try done.
    unfold isRootNode. by rewrite Ef.
  - unfold pushHTMLHtmlElement in E. destruct (hasTagName item _) eqn:Ef; [|done]. apply (push_root_inv item s); try done.
    unfold isRootNode. by rewrite Ef, orb_true_r.
  - destruct Ha as [Hn Ho]. apply (push_head_inv item s); [done..|by left].
  - destruct Ha as [Hn Ho]. apply (push_head_inv item s); [done..|by right].
  - destruct Ha as (Hn & He & Hne). by apply (push_inv item s).
  - destruct Ha as ([Hw Hf] & He & Hin & Hr). apply list_elem_of_split in Hin as (l1 & l2 & Es).
    assert (Hp : plainItem item).
    { split; [by apply negb_true_iff in He|]. unfold insertAbove in E. destruct (m_top s); [done|]. by destruct (isPlain item). }
    destruct (insertAbove_ok s l1 below l2 item H Es Hp Hw Hf) as (s1 & E1 & _ & Hi); [|congruence].
    destruct l2 as [|x l2]; [right|by left]. apply Hr.
    destruct (shaped_bottom _ _ _ _ (inv_shape s H)) as (upper & r & Eb & Hroot & _); [rewrite Es; by destruct l1|].
    rewrite Es in Eb. apply app_inj_tail in Eb as [_ ->]. done.
  - destruct Ha as ([Hw Hf] & Hp & Hin & Hpr). apply list_elem_of_split in Hin as (l1 & l2 & Es).
    destruct (replace_ok s l1 r l2 item H Es Hpr Hp Hw Hf) as (s1 & E1 & _ & Hi). congruence.
  - by apply pop_inv in E as (_ & _ & _ & _ & _ & Hi).
  - apply (pop_second_inv s); [done|by left].
  - apply (pop_second_inv s); [done|by right].
  - injection E as <-. constructor; cbn; try constructor.
  - by apply popLoop_inv in E.
  - by apply (popWhile_pop_inv _ s) in E.
  - by apply popLoop_inv in E.
  - by apply (popWhile_pop_inv _ s) in E.
  - by apply (popWhile_pop_inv _ s) in E.
  - by apply popLoop_inv in E.
  - by apply popLoop_inv in E.
  - by apply popLoop_inv in E.
  - by apply popLoop_inv in E.
  - by apply (remove_inv n s).
  - by apply (removeHead_inv n s).
Qed.

(** An open head or body is remembered. *)
Lemma shaped_remembered l root h b r : shaped l root h b -> Forall (fun x => wellFormed (m_item x)) l -> r ∈ l ->
  (hasTagName (m_item r) (htmlName "head") = true -> h = Some (nodeOf r)) /\
  (hasTagName (m_item r) (htmlName "body") = true -> b = Some (nodeOf r)).
Proof.
  assert (Hroot : forall x, wellFormed (m_item x) -> isRootNode (m_item x) = true ->
    hasTagName (m_item x) (htmlName "head") = false /\ hasTagName (m_item x) (htmlName "body") = false).
  { intros x Hw Hr. unfold isRootNode in Hr. apply orb_true_iff in Hr as [Hr|Hr]; [by rewrite !fragment_noTag|].
    by rewrite !(hasTagName_other (m_item x) (htmlName "html")). }
  induction 1 as [|x Hx|x y Hr Ht|x y Hr Ht|x y l root h b Hp _ IH]; intros Hw Hin; rewrite ?elem_of_cons in Hin.
  - by apply not_elem_of_nil in Hin.
  - apply Forall_cons_iff in Hw as [Hw _]. destruct (Hroot x Hw Hx) as [E1 E2]. destruct Hin as [->|Hin]; [|by apply not_elem_of_nil in Hin].
    rewrite E1, E2. done.
  - apply Forall_cons_iff in Hw as [_ Hw]. apply Forall_cons_iff in Hw as [Hw _]. destruct (Hroot y Hw Hr) as [E1 E2].
    destruct Hin as [->|[->|Hin]]; [|by rewrite E1, E2|by apply not_elem_of_nil in Hin].
    by rewrite (hasTagName_other (m_item x) (htmlName "head") (htmlName "body")).
  - apply Forall_cons_iff in Hw as [_ Hw]. apply Forall_cons_iff in Hw as [Hw _]. destruct (Hroot y Hw Hr) as [E1 E2].
    destruct Hin as [->|[->|Hin]]; [|by rewrite E1, E2|by apply not_elem_of_nil in Hin].
    by rewrite (hasTagName_other (m_item x) (htmlName "body") (htmlName "head")).
  - apply Forall_cons_iff in Hw as [_ Hw]. destruct Hin as [->|Hin]; [|apply IH; [done|by apply elem_of_cons]].
    destruct (plain_names _ Hp) as (_ & -> & ->). done.
Qed.

(** What the members of a stack say of its elements. *)
Lemma inv_promises s : inv s ->
  (m_top s <> [] -> exists upper root, m_top s = upper ++ [root] /\ isRootNode (m_item root) = true /\ m_rootNode s = Some (nodeOf root)) /\
  (secondElementIsHTMLBodyElement s = Some true <->
   exists upper r root, m_top s = upper ++ [r; root] /\ hasTagName (m_item r) (htmlName "body") = true) /\
  (forall r, r ∈ m_top s -> (hasTagName (m_item r) (htmlName "head") = true <-> m_headElement s = Some (nodeOf r)) /\ (hasTagName (m_item r) (htmlName "body") = true <-> m_bodyElement s = Some (nodeOf r))) /\
  NoDup (map (fun r => nodeId (nodeOf r)) (m_top s)) /\
  (Z.of_nat (length (m_top s)) < 2 ^ 32 -> m_stackDepth s = Z.of_nat (length (m_top s))).
Proof.
  intros H. pose proof (inv_shape s H) as Hs. pose proof (inv_items s H) as Hw. split_and!.
  - intros Hne. by apply (shaped_bottom _ _ _ _ Hs).
  - unfold secondElementIsHTMLBodyElement. split.
    + destruct (bool_decide (is_Some (m_rootNode s))); [|done]. intros [= Hb%bool_decide_eq_true].
      destruct (shaped_second _ _ _ _ Hs) as (upper & r & root & E & _ & _ & _ & Hx); [by right|]. exists upper, r, root. split; [done|].
      destruct Hx as [(_ & Eb & _)|(_ & _ & ?)]; [|done]. rewrite Eb in Hb. by destruct Hb.
    + intros (upper & r & root & E & Ht). rewrite (inv_hasRoot s H) by (rewrite E; by destruct upper). f_equal. apply bool_decide_eq_true.
      eexists. apply (shaped_remembered _ _ _ _ r Hs Hw); [|done]. rewrite E. apply elem_of_app. right. left.
  - intros r Hin. destruct (shaped_remembered _ _ _ _ r Hs Hw Hin) as [H1 H2]. split; (split; [done|]); intros Eh;
      (destruct (shaped_second _ _ _ _ Hs) as (upper & r' & root & E & _ & _ & _ & Hx); [first [left; by eexists|right; by eexists]|]);
      (assert (Hr : nodeOf r = nodeOf r' -> r = r') by (intros En; apply (inv_same s); [done|done|rewrite E; apply elem_of_app; right; left|congruence]));
      destruct Hx as [(Eh' & Eb' & Ht)|(Eh' & Eb' & Ht)]; try congruence; rewrite Hr by congruence; done.
  - apply H.
  - intros Hl. rewrite (inv_depth s H). apply uwrap_id. lia.
Qed.

(** Whatever operations are performed on a stack by clients that push nodes once, and head
    and body directly onto the root. *)
Theorem stack_invariant s : reachable s -> inv s.
Proof. induction 1 as [|op s s' _ IH Ha E]; [apply inv_new|by apply (exec_inv op s)]. Qed.

(** A document whose head is closed and whose body has a paragraph. *)
Definition stackAt (l : list ElementRecord) (head body : option ContainerNode) (depth : Z) (k : nat) (c : list ParsingCall) : HTMLElementStack :=
  mkStack l (Some (m_node (exampleItem 0 "html"))) head body depth k c.

Definition exampleFinished : list ParsingCall := [FinishParsingChildren (m_node (exampleItem 6 "head"))].

Definition exampleReached : HTMLElementStack :=
  stackAt [mkRecord 3 (exampleItem 2 "p"); mkRecord 2 (exampleItem 1 "body"); mkRecord 0 (exampleItem 0 "html")] None
    (Some (m_node (exampleItem 1 "body"))) 3 4 exampleFinished.

Ltac fresh_example := split; [split; [apply exampleItem_ok|unfold freshNode; apply (bool_decide_eq_true_1 _); vm_compute; reflexivity]|].

Lemma exampleReached_reachable : reachable exampleReached.
Proof.
  apply (reachable_step (Push (exampleItem 2 "p"))
    (stackAt [mkRecord 2 (exampleItem 1 "body"); mkRecord 0 (exampleItem 0 "html")] None (Some (m_node (exampleItem 1 "body"))) 2 3 exampleFinished));
    [|fresh_example; by split|by vm_compute].
  apply (reachable_step (PushHTMLBodyElement (exampleItem 1 "body"))
    (stackAt [mkRecord 0 (exampleItem 0 "html")] None None 1 2 exampleFinished)); [|by fresh_example|by vm_compute].
  apply (reachable_step PopHTMLHeadElement
    (stackAt [mkRecord 1 (exampleItem 6 "head"); mkRecord 0 (exampleItem 0 "html")] (Some (m_node (exampleItem 6 "head"))) None 2 2 []));
    [|done|by vm_compute].
  apply (reachable_step (PushHTMLHeadElement (exampleItem 6 "head"))
    (stackAt [mkRecord 0 (exampleItem 0 "html")] None None 1 1 [])); [|by fresh_example|by vm_compute].
  apply (reachable_step (PushHTMLHtmlElement (exampleItem 0 "html")) newStack); [constructor|apply exampleItem_ok|by vm_compute].
Qed.

Lemma stack_invariant_witness : inv exampleReached /\ secondElementIsHTMLBodyElement exampleReached = Some true.
Proof. split; [apply (stack_invariant exampleReached exampleReached_reachable)|by vm_compute]. Defined.
