(* ===== verification/HTMLFormattingElementList.v ===== *)
(** * Active formatting elements: html/parser/HTMLFormattingElementList.h and HTMLFormattingElementList.cpp

    The vector of entries, the oldest first; an entry is an item, or a marker
    ([None]).  A pointer to an entry is its index.  [None] as a result is a failed
    assertion. *)
From S2P Require Import Prelude HTMLStackItem.
From Stdlib Require Import String ZArith Lia.
From stdpp Require Import base list numbers option.
Import HTMLStackItem.

Module HTMLFormattingElementList.

Definition kNoahsArkCapacity : nat := 3.

Abbreviation Entry := (option HTMLStackItem) (only parsing).

Definition isMarker (e : Entry) : bool := match e with None => true | Some _ => false end.

(** [Entry::operator==] with a pointer to an element. *)
Definition entryIs (n : ContainerNode) (e : Entry) : option bool :=
  match e with
  | None => Some false
  | Some item => match element item with None => None | Some m => Some (sameNode m n) end
  end.

(** A bookmark: the entry it marks, and whether it has been moved. *)
Record Bookmark : Type := mkBookmark { m_hasBeenMoved : bool; m_mark : nat }.

Definition moveToAfter (before : nat) (b : Bookmark) : Bookmark := mkBookmark true before.

(** [Vector::reverseFind]: the last [k] entries have been looked at. *)
Fixpoint reverseFindLoop (n : ContainerNode) (l : list Entry) (index : nat) : option (option nat) :=
  match index with
  | O => Some None
  | S index =>
      match l !! index with
      | None => None
      | Some e =>
          match entryIs n e with
          | None => None
          | Some true => Some (Some index)
          | Some false => reverseFindLoop n l index
          end
      end
  end.

Definition reverseFind (n : ContainerNode) (l : list Entry) : option (option nat) := reverseFindLoop n l (length l).

Definition find (n : ContainerNode) (l : list Entry) : option (option nat) := reverseFind n l.

Definition contains (n : ContainerNode) (l : list Entry) : option bool :=
  match find n l with None => None | Some index => Some (bool_decide (is_Some index)) end.

(** [closestElementInScopeWithName]. *)
Fixpoint closestLoop (targetName : AtomicString) (l : list Entry) (i : nat) : option (option ContainerNode) :=
  match i with
  | O => Some None
  | S i =>
      match l !! i with
      | None => None
      | Some None => Some None
      | Some (Some item) =>
          if matchesHTMLTag item targetName
          then match element item with None => None | Some e => Some (Some e) end
          else closestLoop targetName l i
      end
  end.

Definition closestElementInScopeWithName (targetName : AtomicString) (l : list Entry) : option (option ContainerNode) :=
  closestLoop targetName l (length l).

Definition bookmarkFor (n : ContainerNode) (l : list Entry) : option Bookmark :=
  match reverseFind n l with
  | Some (Some index) => Some (mkBookmark false index)
  | _ => None
  end.

Definition remove (n : ContainerNode) (l : list Entry) : option (list Entry) :=
  match reverseFind n l with
  | None => None
  | Some None => Some l
  | Some (Some index) => Some (delete index l)
  end.

Definition appendMarker (l : list Entry) : list Entry := l ++ [None].

(** [Entry::replaceElement]. *)
Definition replaceEntry (index : nat) (item : HTMLStackItem) (l : list Entry) : list Entry := <[index := Some item]> l.

Definition swapTo (oldElement : ContainerNode) (newItem : HTMLStackItem) (bookmark : Bookmark) (l : list Entry) : option (list Entry) :=
  match contains oldElement l, element newItem with
  | Some true, Some e =>
      match contains e l with
      | Some false =>
          if negb (m_hasBeenMoved bookmark) then
            match l !! m_mark bookmark with
            | Some (Some item) =>
                match element item with
                | Some m => guard! sameNode m oldElement in Some (replaceEntry (m_mark bookmark) newItem l)
                | None => None
                end
            | _ => None
            end
          else
            let index := m_mark bookmark in
            guard! (index <? length l)%nat in
            remove oldElement (take (S index) l ++ Some newItem :: drop (S index) l)
      | _ => None
      end
  | _, _ => None
  end.

(** The loop of [clearToLastMarker], from the last entry on. *)
Fixpoint clearLoop (reversed : list Entry) : list Entry :=
  match reversed with
  | [] => []
  | last :: rest => if isMarker last then rest else clearLoop rest
  end.

Definition clearToLastMarker (l : list Entry) : list Entry := rev (clearLoop (rev l)).

(** ** Noah's Ark *)

(** The candidates of [tryToEnsureNoahsArkConditionQuickly], from the last entry on. *)
Fixpoint candidatesLoop (newItem : HTMLStackItem) (count : nat) (reversed : list Entry) : option (list HTMLStackItem) :=
  match reversed with
  | [] => Some []
  | None :: _ => Some []
  | Some candidate :: rest =>
      if negb (bool_decide (m_tokenLocalName newItem = m_tokenLocalName candidate))
         || negb (bool_decide (m_namespaceURI newItem = m_namespaceURI candidate))
      then candidatesLoop newItem count rest
      else
        match attributes candidate with
        | None => None
        | Some attributes =>
            if negb (length attributes =? count)%nat then candidatesLoop newItem count rest
            else match candidatesLoop newItem count rest with
                 | None => None
                 | Some candidates => Some (candidate :: candidates)
                 end
        end
  end.

Definition tryToEnsureNoahsArkConditionQuickly (newItem : HTMLStackItem) (l : list Entry) : option (list HTMLStackItem) :=
  if (length l <? kNoahsArkCapacity)%nat then Some []
  else
    match attributes newItem with
    | None => None
    | Some newAttributes =>
        match candidatesLoop newItem (length newAttributes) (rev l) with
        | None => None
        | Some candidates => Some (if (length candidates <? kNoahsArkCapacity)%nat then [] else candidates)
        end
    end.

(** The candidates that have an attribute of the new item. *)
Fixpoint withAttribute (newItem : HTMLStackItem) (attribute : Attribute) (candidates : list HTMLStackItem)
  : option (list HTMLStackItem) :=
  match candidates with
  | [] => Some []
  | candidate :: rest =>
      guard! (length (m_tokenAttributes newItem) =? length (m_tokenAttributes candidate))%nat in
      guard! bool_decide (m_tokenLocalName newItem = m_tokenLocalName candidate)
             && bool_decide (m_namespaceURI newItem = m_namespaceURI candidate) in
      match getAttributeItem candidate (attributeName attribute), withAttribute newItem attribute rest with
      | Some found, Some remaining =>
          match found with
          | Some candidateAttribute =>
              if bool_decide (attributeValue candidateAttribute = attributeValue attribute)
              then Some (candidate :: remaining) else Some remaining
          | None => Some remaining
          end
      | _, _ => None
      end
  end.

(** The loop over the attributes; [Some None] is the early return. *)
Fixpoint attributesLoop (newItem : HTMLStackItem) (attributes : list Attribute) (candidates : list HTMLStackItem)
  : option (option (list HTMLStackItem)) :=
  match attributes with
  | [] => Some (Some candidates)
  | attribute :: attributes =>
      match withAttribute newItem attribute candidates with
      | None => None
      | Some remaining =>
          if (length remaining <? kNoahsArkCapacity)%nat then Some None else attributesLoop newItem attributes remaining
      end
  end.

Fixpoint removeAll (items : list HTMLStackItem) (l : list Entry) : option (list Entry) :=
  match items with
  | [] => Some l
  | item :: items =>
      match element item with
      | None => None
      | Some e => match remove e l with None => None | Some l => removeAll items l end
      end
  end.

Definition ensureNoahsArkCondition (newItem : HTMLStackItem) (l : list Entry) : option (list Entry) :=
  match tryToEnsureNoahsArkConditionQuickly newItem l with
  | None => None
  | Some [] => Some l
  | Some candidates =>
      match attributes newItem with
      | None => None
      | Some newAttributes =>
          match attributesLoop newItem newAttributes candidates with
          | None => None
          | Some None => Some l
          | Some (Some candidates) => removeAll (drop (kNoahsArkCapacity - 1) candidates) l
          end
      end
  end.

Definition append (item : HTMLStackItem) (l : list Entry) : option (list Entry) :=
  match ensureNoahsArkCondition item l with
  | None => None
  | Some l => Some (l ++ [Some item])
  end.

End HTMLFormattingElementList.
