(* ===== verification/HTMLFormattingElementProps.v ===== *)
(** * Properties of the list of active formatting elements

    Searching from the end, clearing to the last marker, and Noah's Ark. *)
From S2P Require Import Prelude HTMLStackItem HTMLFormattingElementList.
From Stdlib Require Import String ZArith Lia.
From stdpp Require Import base list numbers option.
Import HTMLStackItem HTMLFormattingElementList.

(** ** The entries *)

Definition itemId (i : HTMLStackItem) : nat := nodeId (m_node i).

(** The identity of an entry's node; none for a marker. *)
Definition entryId (e : Entry) : option nat := itemId <$> e.

Definition itemsOf (l : list Entry) : list HTMLStackItem := omap id l.

(** Items are elements with a name and unique attribute names. *)
Definition goodItem (i : HTMLStackItem) : Prop :=
  isElement (m_node i) = true /\ is_Some (m_tokenLocalName i) /\ NoDup (map attributeName (m_tokenAttributes i)).

Definition good (l : list Entry) : Prop :=
  Forall goodItem (itemsOf l) /\ NoDup (map itemId (itemsOf l)).

Lemma itemsOf_app l l' : itemsOf (l ++ l') = itemsOf l ++ itemsOf l'.
Proof. apply omap_app. Qed.

Lemma itemsOf_map l : itemsOf (map Some l) = l.
Proof. unfold itemsOf. induction l as [|x l IH]; cbn; [done|]. by rewrite IH. Qed.

Lemma goodItem_element i : goodItem i -> element i = Some (m_node i).
Proof. intros [H _]. apply element_Some. done. Qed.

(** ** Searching *)

Lemma reverseFindLoop_app n l l' k : (k <= length l)%nat -> reverseFindLoop n (l ++ l') k = reverseFindLoop n l k.
Proof.
  induction k as [|k IH]; intros Hk; cbn; [done|]. rewrite lookup_app_l by lia. rewrite IH by lia. done.
Qed.

Lemma reverseFind_snoc n l e : reverseFind n (l ++ [e]) =
  match entryIs n e with None => None | Some true => Some (Some (length l)) | Some false => reverseFind n l end.
Proof.
  unfold reverseFind. rewrite length_app, Nat.add_comm. cbn. rewrite list_lookup_middle by done.
  rewrite reverseFindLoop_app by lia. done.
Qed.

Lemma reverseFind_none n l : Forall goodItem (itemsOf l) -> ~ nodeId n ∈ map itemId (itemsOf l) -> reverseFind n l = Some None.
Proof.
  induction l as [|e l IH] using rev_ind; intros Hg Hn; [done|]. rewrite itemsOf_app in Hg, Hn. rewrite map_app in Hn.
  apply List.Forall_app in Hg as [Hg He]. rewrite elem_of_app in Hn. rewrite reverseFind_snoc.
  rewrite IH; [|done|tauto]. destruct e as [i|]; [|done]. cbn. apply Forall_cons_iff in He as [He _]. rewrite (goodItem_element i He).
  destruct (sameNode (m_node i) n) eqn:E; [|done]. exfalso. apply Hn. right. apply sameNode_eq in E. rewrite <- E. left.
Qed.

Lemma reverseFind_some i l1 l2 : good (l1 ++ Some i :: l2) -> reverseFind (m_node i) (l1 ++ Some i :: l2) = Some (Some (length l1)).
Proof.
  induction l2 as [|e l2 IH] using rev_ind; intros [Hg Hd].
  - rewrite reverseFind_snoc. cbn. rewrite itemsOf_app in Hg. apply List.Forall_app in Hg as [_ Hg]. apply Forall_cons_iff in Hg as [Hg _].
    rewrite (goodItem_element i Hg), (proj2 (sameNode_eq _ _) eq_refl). done.
  - change (l1 ++ Some i :: l2 ++ [e]) with (l1 ++ (Some i :: l2) ++ [e]) in *. rewrite app_assoc in *. rewrite reverseFind_snoc.
    rewrite itemsOf_app in Hg, Hd. rewrite map_app in Hd. apply List.Forall_app in Hg as [Hg He]. apply list.NoDup_app in Hd as (Hd & Hdis & _).
    rewrite IH by done. destruct e as [x|]; [|done]. cbn. apply Forall_cons_iff in He as [He _]. rewrite (goodItem_element x He).
    destruct (sameNode (m_node x) (m_node i)) eqn:E; [|done]. exfalso. apply (Hdis (itemId i)).
    + rewrite itemsOf_app, map_app. apply elem_of_app. right. left.
    + apply sameNode_eq in E. unfold itemId. rewrite <- E. left.
Qed.

Lemma reverseFind_same n n' l : nodeId n = nodeId n' -> reverseFind n l = reverseFind n' l.
Proof.
  intros E. unfold reverseFind. induction (length l) as [|k IH]; cbn; [done|]. rewrite IH.
  destruct (l !! k) as [[x|]|]; [|done..]. cbn. unfold sameNode. by rewrite E.
Qed.

(** An item of the list. *)
Lemma items_split l i : i ∈ itemsOf l -> exists l1 l2, l = l1 ++ Some i :: l2.
Proof.
  intros H. apply list_elem_of_omap in H as (e & He & Hs). cbn in Hs. subst. by apply list_elem_of_split.
Qed.

Lemma filter_id {A} (P : A -> Prop) `{forall x, Decision (P x)} (l : list A) : (forall x, x ∈ l -> P x) -> filter P l = l.
Proof.
  induction l as [|x l IH]; intros Hl; [done|]. rewrite filter_cons_True by (apply Hl; left). by rewrite IH by (intros; apply Hl; by right).
Qed.

Lemma filter_ext_in {A} (P Q : A -> Prop) `{forall x, Decision (P x)} `{forall x, Decision (Q x)} (l : list A) :
  (forall x, x ∈ l -> P x <-> Q x) -> filter P l = filter Q l.
Proof.
  induction l as [|x l IH]; intros Hl; [done|]. rewrite !filter_cons, IH by (intros; apply Hl; by right).
  assert (Hx : P x <-> Q x) by (apply Hl; left). repeat case_decide; tauto.
Qed.

(** Removing a node removes its entry and nothing else. *)
Lemma remove_filter n l : good l -> remove n l = Some (filter (fun e => entryId e <> Some (nodeId n)) l).
Proof.
  intros Hg. unfold remove. destruct (decide (nodeId n ∈ map itemId (itemsOf l))) as [Hin|Hn].
  - apply list_elem_of_fmap in Hin as (i & Ei & Hin). apply items_split in Hin as (l1 & l2 & ->).
    rewrite (reverseFind_same n (m_node i)), reverseFind_some by done. rewrite delete_middle. f_equal.
    destruct Hg as [_ Hd]. rewrite itemsOf_app, map_app in Hd. cbn in Hd. apply list.NoDup_app in Hd as (_ & Hd1 & Hd2).
    apply list.NoDup_cons in Hd2 as [Hd2 _].
    rewrite list.filter_app, filter_cons_False by (cbn; rewrite Ei; intros Hc; by apply Hc).
    rewrite !filter_id; [done|..].
    + intros [x|] Hx; [|done]. cbn. rewrite Ei. intros [= E]. apply Hd2. rewrite <- E. apply (list_elem_of_fmap_2 itemId). apply list_elem_of_omap. by exists (Some x).
    + intros [x|] Hx; [|done]. cbn. rewrite Ei. intros [= E]. apply (Hd1 (itemId x)); [|rewrite E; left]. apply (list_elem_of_fmap_2 itemId). apply list_elem_of_omap. by exists (Some x).
  - rewrite (reverseFind_none n l) by (done || apply Hg). rewrite filter_id; [done|]. intros [x|] Hx; [|done]. cbn. intros [= E]. apply Hn.
    rewrite <- E. apply (list_elem_of_fmap_2 itemId). apply list_elem_of_omap. by exists (Some x).
Qed.

Lemma good_filter (P : Entry -> Prop) `{forall e, Decision (P e)} (l : list Entry) : good l -> good (filter P l).
Proof.
  unfold good, itemsOf. intros [Hg Hd]. induction l as [|e l IH]; [done|]. rewrite filter_cons.
  destruct e as [i|]; cbn in Hg, Hd.
  - apply Forall_cons_iff in Hg as [Hi Hg]. apply list.NoDup_cons in Hd as [Hn Hd]. destruct (IH Hg Hd) as [IH1 IH2].
    case_decide; [|done]. cbn. split; [by constructor|]. apply list.NoDup_cons. split; [|done]. intros Hin. apply Hn.
    apply list_elem_of_fmap in Hin as (x & -> & Hx). apply (list_elem_of_fmap_2 itemId). apply list_elem_of_omap in Hx as (e & He & Hs).
    apply list_elem_of_filter in He as [_ He]. apply list_elem_of_omap. by exists e.
  - case_decide; cbn; by apply IH.
Qed.

(** The entries that are none of [rs]. *)
Definition others (rs : list HTMLStackItem) (l : list Entry) : list Entry :=
  filter (fun e => Forall (fun i => entryId e <> Some (itemId i)) rs) l.

Lemma removeAll_others rs l : Forall goodItem rs -> good l -> removeAll rs l = Some (others rs l).
Proof.
  revert l. induction rs as [|r rs IH]; intros l Hr Hl; cbn.
  - unfold others. rewrite filter_id; [done|]. intros; constructor.
  - apply Forall_cons_iff in Hr as [Hr Hrs]. rewrite (goodItem_element r Hr), remove_filter by done. rewrite IH by (done || by apply good_filter).
    f_equal. unfold others. rewrite list_filter_filter. apply list_filter_iff. intros e. rewrite Forall_cons_iff. unfold itemId. tauto.
Qed.

(** ** Equal items *)

(** The loop's notion of equality. *)
Definition sameItem (a c : HTMLStackItem) : bool :=
  bool_decide (m_tokenLocalName a = m_tokenLocalName c) && bool_decide (m_namespaceURI a = m_namespaceURI c)
  && (length (m_tokenAttributes c) =? length (m_tokenAttributes a))%nat
  && forallb (fun attribute =>
       match findAttributeInVector (m_tokenAttributes c) (attributeName attribute) with
       | Some x => bool_decide (attributeValue x = attributeValue attribute)
       | None => false
       end) (m_tokenAttributes a).

Lemma matches_eq a b : matches a b = true <-> a = b.
Proof. unfold matches. rewrite andb_true_iff, !bool_decide_eq_true. destruct a, b; cbn. split; [intros [-> ->]; done|intros [= -> ->]; done]. Qed.

Lemma find_attribute l a : NoDup (map attributeName l) -> a ∈ l -> findAttributeInVector l (attributeName a) = Some a.
Proof.
  induction l as [|x l IH]; intros Hd Ha; [by apply not_elem_of_nil in Ha|]. cbn in Hd |- *. apply list.NoDup_cons in Hd as [Hx Hd].
  destruct (matches (attributeName x) (attributeName a)) eqn:E.
  - apply matches_eq in E. apply elem_of_cons in Ha as [->|Ha]; [done|]. exfalso. apply Hx. rewrite E. by apply (list_elem_of_fmap_2 attributeName).
  - apply elem_of_cons in Ha as [->|Ha]; [|by apply IH]. by rewrite (proj2 (matches_eq _ _)) in E.
Qed.

Lemma find_attribute_in l n x : findAttributeInVector l n = Some x -> x ∈ l /\ attributeName x = n.
Proof.
  induction l as [|y l IH]; [done|]. cbn. destruct (matches (attributeName y) n) eqn:E.
  - intros [= ->]. apply matches_eq in E. split; [left|done].
  - intros H. destruct (IH H) as [? ?]. split; [by right|done].
Qed.

(** It is equality of the names and of the sets of attributes. *)
Lemma sameItem_spec a c : NoDup (map attributeName (m_tokenAttributes a)) -> NoDup (map attributeName (m_tokenAttributes c)) ->
  sameItem a c = true <->
  m_tokenLocalName a = m_tokenLocalName c /\ m_namespaceURI a = m_namespaceURI c /\ m_tokenAttributes a ≡ₚ m_tokenAttributes c.
Proof.
  intros Ha Hc. unfold sameItem. rewrite !andb_true_iff, !bool_decide_eq_true, Nat.eqb_eq, forallb_forall. split.
  - intros [[[E1 E2] El] Hall]. split_and!; [done|done|]. apply submseteq_length_Permutation; [|by rewrite El].
    apply NoDup_submseteq; [by apply (list.NoDup_fmap_1 attributeName)|]. intros x Hx. specialize (Hall x). rewrite <- list_elem_of_In in Hall. specialize (Hall Hx).
    destruct (findAttributeInVector _ _) as [y|] eqn:Ef; [|done]. apply bool_decide_eq_true in Hall. apply find_attribute_in in Ef as [Hy En].
    destruct x, y. cbn in *. by subst.
  - intros (E1 & E2 & Hp). split_and!; [done|done|by rewrite Hp|]. intros x Hx. apply list_elem_of_In in Hx. rewrite Hp in Hx.
    rewrite (find_attribute _ x) by done. by apply bool_decide_eq_true.
Qed.

(** ** Noah's Ark *)

Definition hasAttribute (attribute : Attribute) (c : HTMLStackItem) : bool :=
  match findAttributeInVector (m_tokenAttributes c) (attributeName attribute) with
  | Some x => bool_decide (attributeValue x = attributeValue attribute)
  | None => false
  end.

Definition quickMatch (a c : HTMLStackItem) : bool :=
  bool_decide (m_tokenLocalName a = m_tokenLocalName c) && bool_decide (m_namespaceURI a = m_namespaceURI c)
  && (length (m_tokenAttributes c) =? length (m_tokenAttributes a))%nat.

Lemma filter_both {A} (f g : A -> bool) l : List.filter f (List.filter g l) = List.filter (fun x => g x && f x) l.
Proof. induction l as [|x l IH]; cbn; [done|]. destruct (g x); cbn; [|done]. destruct (f x); by rewrite IH. Qed.

Lemma filter_length_le {A} (f g : A -> bool) l : (forall x, g x = true -> f x = true) ->
  (length (List.filter g l) <= length (List.filter f l))%nat.
Proof.
  intros H. induction l as [|x l IH]; cbn; [lia|]. destruct (g x) eqn:E; [rewrite (H x E); cbn; lia|]. destruct (f x); cbn; lia.
Qed.

(** The entries behind the last marker. *)
Definition lastSegment (l pre : list Entry) (seg : list HTMLStackItem) : Prop :=
  l = pre ++ map Some seg /\ (pre = [] \/ exists p, pre = p ++ [None]).

Lemma lastSegment_exists l : exists pre seg, lastSegment l pre seg.
Proof.
  induction l as [|e l IH] using rev_ind; [exists [], []; split; [done|by left]|]. destruct IH as (pre & seg & -> & Hp). destruct e as [i|].
  - exists pre, (seg ++ [i]). split; [|done]. by rewrite map_app, app_assoc.
  - exists ((pre ++ map Some seg) ++ [None]), []. split; [by rewrite app_nil_r|]. right. by eexists.
Qed.

Lemma candidatesLoop_ok new items tail : Forall goodItem items -> (tail = [] \/ exists t, tail = None :: t) ->
  candidatesLoop new (length (m_tokenAttributes new)) (map Some items ++ tail) = Some (List.filter (quickMatch new) items).
Proof.
  intros Hi Ht. induction Hi as [|c items Hc _ IH]; cbn [map app candidatesLoop List.filter].
  - destruct Ht as [->|[t ->]]; done.
  - rewrite IH. destruct Hc as (_ & Hn & _). unfold attributes. rewrite (bool_decide_eq_true_2 (is_Some _)) by done.
    change (quickMatch new c) with (bool_decide (m_tokenLocalName new = m_tokenLocalName c) && bool_decide (m_namespaceURI new = m_namespaceURI c)
      && (length (m_tokenAttributes c) =? length (m_tokenAttributes new))%nat).
    destruct (bool_decide (m_tokenLocalName new = _)), (bool_decide (m_namespaceURI new = _)), (_ =? _)%nat; done.
Qed.

Lemma withAttribute_ok new attribute cs : Forall goodItem cs -> Forall (fun c => quickMatch new c = true) cs ->
  withAttribute new attribute cs = Some (List.filter (hasAttribute attribute) cs).
Proof.
  intros Hg. induction Hg as [|c cs Hc _ IH]; intros Hq; cbn; [done|]. apply Forall_cons_iff in Hq as [Hq Hqs]. rewrite IH by done.
  unfold quickMatch in Hq. apply andb_true_iff in Hq as [Hq Hl]. apply Nat.eqb_eq in Hl. rewrite Hq, Hl, Nat.eqb_refl.
  unfold getAttributeItem, hasAttribute. destruct Hc as (_ & Hn & _). rewrite (bool_decide_eq_true_2 (is_Some _)) by done.
  destruct (findAttributeInVector (m_tokenAttributes c) _) as [x|]; [|done]. by destruct (bool_decide (attributeValue x = _)).
Qed.

Lemma forall_filter {A} (P : A -> Prop) f (l : list A) : Forall P l -> Forall P (List.filter f l).
Proof. induction 1; cbn; [constructor|]. destruct (f _); [by constructor|done]. Qed.

Lemma attributesLoop_ok new attrs cs : Forall goodItem cs -> Forall (fun c => quickMatch new c = true) cs ->
  let final := List.filter (fun c => forallb (fun a => hasAttribute a c) attrs) cs in
  attributesLoop new attrs cs = Some (Some final) \/ (attributesLoop new attrs cs = Some None /\ (length final < 3)%nat).
Proof.
  revert cs. induction attrs as [|a attrs IH]; intros cs Hg Hq; cbn [attributesLoop forallb].
  - left. by replace (List.filter (fun _ => true) cs) with cs by (induction cs as [|c cs IHc]; cbn; [done|]; f_equal; apply IHc; [by inversion Hg|by inversion Hq]).
  - rewrite withAttribute_ok by done. destruct (Nat.ltb_spec (length (List.filter (hasAttribute a) cs)) kNoahsArkCapacity) as [Hl|Hl].
    + right. split; [done|]. eapply Nat.le_lt_trans; [|exact Hl]. apply filter_length_le. intros c Hc. by apply andb_true_iff in Hc as [? _].
    + destruct (IH (List.filter (hasAttribute a) cs)) as [E|[E Hlt]]; [by apply forall_filter..| |].
      * left. rewrite E, filter_both. done.
      * right. rewrite E. split; [done|]. by rewrite filter_both in Hlt.
Qed.

Lemma filter_rev {A} (f : A -> bool) l : List.filter f (rev l) = rev (List.filter f l).
Proof. induction l as [|x l IH]; cbn; [done|]. rewrite List.filter_app, IH. cbn. destruct (f x); cbn; [done|by rewrite app_nil_r]. Qed.

(** What [ensureNoahsArkCondition] removes: the equal items except the two latest. *)
Lemma ensure_ok new l pre seg : goodItem new -> good l -> lastSegment l pre seg ->
  ensureNoahsArkCondition new l = Some (others (drop 2 (List.filter (sameItem new) (rev seg))) l).
Proof.
  intros Hn Hl (El & Hpre).
  assert (Hseg : Forall goodItem seg).
  { destruct Hl as [Hl _]. rewrite El, itemsOf_app, itemsOf_map in Hl. by apply List.Forall_app in Hl as [_ ?]. }
  assert (Hrs : Forall goodItem (rev seg)). { rewrite <- (Permutation_rev seg). done. }
  assert (Hsame : forall cs, List.filter (fun c => forallb (fun a => hasAttribute a c) (m_tokenAttributes new)) (List.filter (quickMatch new) cs) = List.filter (sameItem new) cs).
  { intros cs. rewrite filter_both. done. }
  assert (Hsmall : (length (List.filter (sameItem new) (rev seg)) < 3)%nat -> l = others (drop 2 (List.filter (sameItem new) (rev seg))) l).
  { intros Hlt. rewrite drop_ge by lia. unfold others. rewrite filter_id; [done|]. intros; constructor. }
  unfold ensureNoahsArkCondition, tryToEnsureNoahsArkConditionQuickly, attributes. rewrite (bool_decide_eq_true_2 (is_Some _)) by apply Hn.
  destruct (Nat.ltb_spec (length l) kNoahsArkCapacity) as [Hc|Hc].
  { f_equal. apply Hsmall. eapply Nat.le_lt_trans; [|exact Hc]. rewrite El, length_app, length_map, <- (length_rev seg).
    pose proof (List.filter_length_le (sameItem new) (rev seg)). lia. }
  replace (rev l) with (map Some (rev seg) ++ rev pre) by (rewrite El, rev_app_distr, map_rev; done).
  rewrite candidatesLoop_ok; [|done|destruct Hpre as [->|[p ->]]; [by left|right; rewrite rev_app_distr; by eexists]].
  destruct (Nat.ltb_spec (length (List.filter (quickMatch new) (rev seg))) kNoahsArkCapacity) as [Hq|Hq].
  { f_equal. apply Hsmall. eapply Nat.le_lt_trans; [|exact Hq]. apply filter_length_le. intros c Hs. unfold sameItem in Hs. by apply andb_true_iff in Hs as [? _]. }
  destruct (List.filter (quickMatch new) (rev seg)) as [|c cs] eqn:Ec; [cbn in Hq; unfold kNoahsArkCapacity in Hq; lia|].
  assert (Hgc : Forall goodItem (c :: cs)). { rewrite <- Ec. by apply forall_filter. }
  assert (Hqc : Forall (fun c => quickMatch new c = true) (c :: cs)).
  { rewrite <- Ec, list.Forall_forall. intros x Hx. apply list_elem_of_In, filter_In in Hx. tauto. }
  destruct (attributesLoop_ok new (m_tokenAttributes new) (c :: cs) Hgc Hqc) as [E|[E Hlt]]; rewrite E, <- Ec, Hsame in *.
  - apply removeAll_others; [|done]. apply list.Forall_drop. by apply forall_filter.
  - f_equal. by apply Hsmall.
Qed.

(** A list without the first [k] elements that satisfy a predicate. *)
Fixpoint dropFirst (f : HTMLStackItem -> bool) (k : nat) (l : list HTMLStackItem) : list HTMLStackItem :=
  match l, k with
  | [], _ => []
  | _, O => l
  | x :: l, S k' => if f x then dropFirst f k' l else x :: dropFirst f k l
  end.

Definition countEqual (item : HTMLStackItem) (l : list HTMLStackItem) : nat := length (List.filter (sameItem item) l).

Lemma dropFirst_0 f l : dropFirst f 0 l = l.
Proof. by destruct l. Qed.

Lemma in_take_filter {A} (f : A -> bool) k (l : list A) x : x ∈ take k (List.filter f l) -> x ∈ l.
Proof.
  intros Hx. apply elem_of_take in Hx as (j & Hj & _). apply list_elem_of_lookup_2, list_elem_of_In, filter_In in Hj.
  apply list_elem_of_In. tauto.
Qed.

(** Dropping the first [k] elements is filtering out their identities. *)
Lemma dropFirst_filter f k l : NoDup (map itemId l) ->
  filter (fun x => Forall (fun i => itemId x <> itemId i) (take k (List.filter f l))) l = dropFirst f k l.
Proof.
  revert k. induction l as [|x l IH]; intros [|k] Hd; [done..| |].
  - rewrite dropFirst_0. apply filter_id. intros; constructor.
  - cbn [map] in Hd. apply list.NoDup_cons in Hd as [Hx Hd]. cbn [List.filter dropFirst]. destruct (f x) eqn:E; cbn [take].
    + rewrite filter_cons_False by (intros H; by apply Forall_cons_iff in H as [[] _]). rewrite <- (IH k Hd).
      apply filter_ext_in. intros y Hy. rewrite Forall_cons_iff. split; [tauto|]. intros H. split; [|done].
      intros Eq. apply Hx. rewrite <- Eq. by apply (list_elem_of_fmap_2 itemId).
    + rewrite filter_cons_True; [by rewrite IH|]. rewrite list.Forall_forall. intros y Hy Eq. apply Hx. rewrite Eq. apply (list_elem_of_fmap_2 itemId). by apply in_take_filter in Hy.
Qed.

Lemma count_dropFirst item k l : countEqual item (dropFirst (sameItem item) k l) = countEqual item l - k.
Proof.
  revert k. unfold countEqual. induction l as [|x l IH]; intros [|k]; cbn [dropFirst]; [done|done|cbn; by rewrite Nat.sub_0_r|].
  cbn [List.filter]. destruct (sameItem item x) eqn:E; [by rewrite IH|]. cbn. by rewrite E, IH.
Qed.

Lemma others_app rs l l' : others rs (l ++ l') = others rs l ++ others rs l'.
Proof. apply list.filter_app. Qed.

Lemma others_items rs seg : others rs (map Some seg) = map Some (filter (fun x => Forall (fun i => itemId x <> itemId i) rs) seg).
Proof.
  unfold others. induction seg as [|x seg IH]; [done|]. cbn [map]. rewrite !filter_cons, IH. cbn [entryId fmap option_fmap option_map].
  assert (Hiff : Forall (fun i => Some (itemId x) <> Some (itemId i)) rs <-> Forall (fun i => itemId x <> itemId i) rs).
  { apply list.Forall_iff. intros i. split; congruence. }
  repeat case_decide; tauto.
Qed.

(** C22: appending an item to the list succeeds, keeps everything up to the
    last marker, and of the entries behind it that are equal to the item (the same
    name, namespace and set of attributes) removes all but the two latest when
    there are three or more: at most three equal entries are then behind the last
    marker, and no other entry is removed or moved. *)
Theorem noahs_ark item l pre seg : goodItem item -> good l -> lastSegment l pre seg ->
  let kept := dropFirst (sameItem item) (countEqual item seg - 2) seg in
  append item l = Some (pre ++ map Some (kept ++ [item])) /\
  countEqual item kept = Nat.min 2 (countEqual item seg) /\
  (forall c, goodItem c -> sameItem item c = true <->
     m_tokenLocalName item = m_tokenLocalName c /\ m_namespaceURI item = m_namespaceURI c /\ m_tokenAttributes item ≡ₚ m_tokenAttributes c).
Proof.
  intros Hi Hl Hs. cbn zeta. split_and!.
  - unfold append. rewrite (ensure_ok item l pre seg) by done. f_equal. destruct Hs as [-> Hpre].
    rewrite others_app, map_app, app_assoc. f_equal. rewrite filter_rev, skipn_rev.
    set (rs := firstn (length (List.filter (sameItem item) seg) - 2) (List.filter (sameItem item) seg)).
    assert (Hrs : forall x, x ∈ rev rs -> x ∈ seg).
    { intros x Hx. rewrite <- (Permutation_rev rs) in Hx. by apply in_take_filter in Hx. }
    destruct Hl as [_ Hd]. rewrite itemsOf_app, itemsOf_map, map_app in Hd. apply list.NoDup_app in Hd as (_ & Hdis & Hd).
    f_equal.
    + apply filter_id. intros [x|] Hx; [|rewrite list.Forall_forall; done]. rewrite list.Forall_forall. intros i Hin [= Eq]. apply (Hdis (itemId x)).
      * apply (list_elem_of_fmap_2 itemId). apply list_elem_of_omap. by exists (Some x).
      * rewrite Eq. apply (list_elem_of_fmap_2 itemId). by apply Hrs.
    + rewrite others_items. f_equal. rewrite <- (dropFirst_filter _ _ _ Hd). apply list_filter_iff. intros x. by rewrite <- (Permutation_rev rs).
  - rewrite count_dropFirst. lia.
  - intros c Hc. apply sameItem_spec; [apply Hi|apply Hc].
Qed.

(** ** Markers and names *)

Lemma closestLoop_app name (l l' : list Entry) k : (k <= length l)%nat -> closestLoop name (l ++ l') k = closestLoop name l k.
Proof. induction k as [|k IH]; intros Hk; cbn; [done|]. rewrite lookup_app_l by lia. by rewrite IH by lia. Qed.

Lemma closest_snoc name l e : closestElementInScopeWithName name (l ++ [e]) =
  match e with
  | None => Some None
  | Some i => if matchesHTMLTag i name then match element i with None => None | Some n => Some (Some n) end
              else closestElementInScopeWithName name l
  end.
Proof.
  unfold closestElementInScopeWithName. rewrite length_app, Nat.add_comm. cbn. rewrite list_lookup_middle by done.
  by rewrite closestLoop_app by lia.
Qed.

Lemma clear_snoc l e : clearToLastMarker (l ++ [e]) = if isMarker e then l else clearToLastMarker l.
Proof. unfold clearToLastMarker. rewrite rev_app_distr. cbn. destruct (isMarker e); [apply rev_involutive|done]. Qed.

(** Clearing to the last marker removes the entries behind it
    and the marker, or everything when there is none; the closest element with a
    name is the latest one of that name behind the last marker; an entry can be
    found, and removing an element removes exactly its entry. *)
Theorem formatting_scope l pre seg name : good l -> lastSegment l pre seg ->
  clearToLastMarker l = removelast pre /\
  closestElementInScopeWithName name l =
    Some (m_node <$> list.last (List.filter (fun i => matchesHTMLTag i name) seg)) /\
  (forall i, i ∈ itemsOf l -> contains (m_node i) l = Some true /\
     exists l1 l2, l = l1 ++ Some i :: l2 /\ remove (m_node i) l = Some (l1 ++ l2)).
Proof.
  intros Hl Hs. pose proof Hs as [El Hpre]. split_and!.
  - clear Hl Hs. subst l. induction seg as [|i seg IH] using rev_ind.
    + cbn. rewrite app_nil_r. destruct Hpre as [->|[p ->]]; [done|]. rewrite clear_snoc. cbn. by rewrite removelast_last.
    + rewrite map_app, app_assoc. cbn [map]. rewrite clear_snoc. cbn. done.
  - assert (Hseg : Forall goodItem seg).
    { destruct Hl as [Hl _]. rewrite El, itemsOf_app, itemsOf_map in Hl. by apply List.Forall_app in Hl as [_ ?]. }
    clear Hl Hs. subst l. induction seg as [|i seg IH] using rev_ind.
    + cbn. rewrite app_nil_r. destruct Hpre as [->|[p ->]]; [done|]. by rewrite closest_snoc.
    + apply List.Forall_app in Hseg as [Hseg Hi]. apply Forall_cons_iff in Hi as [Hi _].
      rewrite map_app, app_assoc. cbn [map]. rewrite closest_snoc, List.filter_app. cbn. destruct (matchesHTMLTag i name).
      * by rewrite last_snoc, (goodItem_element i Hi).
      * rewrite app_nil_r. by apply IH.
  - intros i Hin. apply items_split in Hin as (l1 & l2 & E). split.
    + unfold contains, find. rewrite E in Hl |- *. by rewrite reverseFind_some.
    + exists l1, l2. split; [done|]. unfold remove. rewrite E in Hl |- *. rewrite reverseFind_some by done. by rewrite delete_middle.
Qed.

(** ** An example: a marker and three equal items *)

Definition exampleFormatting (k : nat) : HTMLStackItem :=
  itemForToken (mkNode k (htmlName "b") true) (lit "b") [mkAttribute (mkName (lit "id") None) (lit "x")] xhtmlNamespaceURI.

Definition exampleList : list Entry := [Some (exampleFormatting 0); None] ++ map Some (map exampleFormatting [1; 2; 3]%nat).

Lemma exampleFormatting_good k : goodItem (exampleFormatting k).
Proof. split_and!; [done|by eexists|]. apply list.NoDup_singleton. Qed.

Lemma exampleList_good : good exampleList.
Proof.
  split; [repeat (apply List.Forall_cons; [apply exampleFormatting_good|]); constructor|].
  apply (bool_decide_eq_true_1 _). by vm_compute.
Qed.

Lemma noahs_ark_witness :
  append (exampleFormatting 4) exampleList =
  Some ([Some (exampleFormatting 0); None] ++ map Some (map exampleFormatting [2; 3]%nat ++ [exampleFormatting 4])).
Proof.
  apply (noahs_ark (exampleFormatting 4) exampleList [Some (exampleFormatting 0); None] (map exampleFormatting [1; 2; 3]%nat));
    [apply exampleFormatting_good|apply exampleList_good|]. split; [done|]. right. by exists [Some (exampleFormatting 0)].
Defined.

Lemma formatting_scope_witness :
  clearToLastMarker exampleList = [Some (exampleFormatting 0)] /\
  closestElementInScopeWithName (lit "b") exampleList = Some (Some (m_node (exampleFormatting 3))).
Proof.
  destruct (formatting_scope exampleList [Some (exampleFormatting 0); None] (map exampleFormatting [1; 2; 3]%nat) (lit "b")) as (H1 & H2 & _);
    [apply exampleList_good|split; [done|right; by exists [Some (exampleFormatting 0)]]|]. split; [exact H1|exact H2].
Defined.
