(* ===== verification/HTMLConstructionSite.v ===== *)
(** * The construction site: html/parser/HTMLConstructionSite.h and HTMLConstructionSite.cpp

    The stack of open elements, the list of active formatting elements and the
    queue of changes to the document that the parser has decided on.  The document
    itself is not changed before the queue is executed; what the code asks of it in
    the meantime is a parameter ([DOM]).  Created nodes get new identities.  [None]
    as a result is a failed assertion or a null pointer that is dereferenced. *)
From S2P Require Import Prelude HTMLStackItem HTMLElementStack HTMLFormattingElementList.
From Stdlib Require Import String ZArith Lia.
From stdpp Require Import base list numbers option.
#[local] Open Scope Z_scope.
Import HTMLStackItem HTMLElementStack.

Module HTMLConstructionSite.

(** ** The document *)

Class DOM : Type := mkDOM {
  parentNode : ContainerNode -> option ContainerNode;
  (** a document fragment that is the content of a template *)
  isTemplateContent : ContainerNode -> bool;
  isPluginElement : ContainerNode -> bool;
  (** [isEventHandlerAttribute], [isJavaScriptURLAttribute] and [isHTMLContentAttribute]
      of an element with a name *)
  isScriptingAttribute : QualifiedName -> Attribute -> bool
}.

(** ** State *)

Inductive Operation : Type := Insert | InsertAlreadyParsedChild | Reparent | TakeAllChildren.

Record HTMLConstructionSiteTask : Type := mkTask {
  operation : Operation;
  parent : ContainerNode;
  nextChild : option ContainerNode;
  child : ContainerNode;
  selfClosing : bool
}.

Inductive ParserContentPolicy : Type :=
| DisallowScriptingAndPluginContent
| DisallowScriptingContent
| AllowScriptingContent
| AllowScriptingContentAndDoNotMarkAlreadyStarted.

Definition scriptingContentIsAllowed (p : ParserContentPolicy) : bool :=
  match p with AllowScriptingContent | AllowScriptingContentAndDoNotMarkAlreadyStarted => true | _ => false end.

Definition pluginContentIsAllowed (p : ParserContentPolicy) : bool :=
  match p with DisallowScriptingAndPluginContent => false | _ => true end.

Record HTMLConstructionSite : Type := mkSite {
  m_attachmentRoot : ContainerNode;
  m_head : option HTMLStackItem;
  m_form : option ContainerNode;
  m_openElements : HTMLElementStack;
  m_activeFormattingElements : list HTMLFormattingElementList.Entry;
  m_taskQueue : list HTMLConstructionSiteTask;
  m_parserContentPolicy : ParserContentPolicy;
  m_isParsingFragment : bool;
  m_redirectAttachToFosterParent : bool;
  m_maximumDOMTreeDepth : Z;
  nextNode : nat
}.

Definition set_open s t := mkSite (m_attachmentRoot t) (m_head t) (m_form t) s (m_activeFormattingElements t) (m_taskQueue t)
  (m_parserContentPolicy t) (m_isParsingFragment t) (m_redirectAttachToFosterParent t) (m_maximumDOMTreeDepth t) (nextNode t).
Definition set_active l t := mkSite (m_attachmentRoot t) (m_head t) (m_form t) (m_openElements t) l (m_taskQueue t)
  (m_parserContentPolicy t) (m_isParsingFragment t) (m_redirectAttachToFosterParent t) (m_maximumDOMTreeDepth t) (nextNode t).
Definition set_head h t := mkSite (m_attachmentRoot t) h (m_form t) (m_openElements t) (m_activeFormattingElements t) (m_taskQueue t)
  (m_parserContentPolicy t) (m_isParsingFragment t) (m_redirectAttachToFosterParent t) (m_maximumDOMTreeDepth t) (nextNode t).
Definition set_form f t := mkSite (m_attachmentRoot t) (m_head t) f (m_openElements t) (m_activeFormattingElements t) (m_taskQueue t)
  (m_parserContentPolicy t) (m_isParsingFragment t) (m_redirectAttachToFosterParent t) (m_maximumDOMTreeDepth t) (nextNode t).
Definition enqueue q t := mkSite (m_attachmentRoot t) (m_head t) (m_form t) (m_openElements t) (m_activeFormattingElements t) (m_taskQueue t ++ [q])
  (m_parserContentPolicy t) (m_isParsingFragment t) (m_redirectAttachToFosterParent t) (m_maximumDOMTreeDepth t) (nextNode t).
Definition set_nextNode k t := mkSite (m_attachmentRoot t) (m_head t) (m_form t) (m_openElements t) (m_activeFormattingElements t) (m_taskQueue t)
  (m_parserContentPolicy t) (m_isParsingFragment t) (m_redirectAttachToFosterParent t) (m_maximumDOMTreeDepth t) k.

Definition set_queue q t := mkSite (m_attachmentRoot t) (m_head t) (m_form t) (m_openElements t) (m_activeFormattingElements t) q
  (m_parserContentPolicy t) (m_isParsingFragment t) (m_redirectAttachToFosterParent t) (m_maximumDOMTreeDepth t) (nextNode t).
Definition set_redirect b t := mkSite (m_attachmentRoot t) (m_head t) (m_form t) (m_openElements t) (m_activeFormattingElements t) (m_taskQueue t)
  (m_parserContentPolicy t) (m_isParsingFragment t) b (m_maximumDOMTreeDepth t) (nextNode t).

Definition currentElementRecord (t : HTMLConstructionSite) : option ElementRecord := topRecord (m_openElements t).
Definition currentElement (t : HTMLConstructionSite) : option ContainerNode := top (m_openElements t).
Definition currentNode (t : HTMLConstructionSite) : option ContainerNode := topNode (m_openElements t).
Definition currentStackItem (t : HTMLConstructionSite) : option HTMLStackItem := topStackItem (m_openElements t).

(** A start tag token. *)
Record Token : Type := mkToken { tokenName : AtomicString; tokenAttributes : list Attribute; tokenSelfClosing : bool }.

(** [toScriptElementIfPossible]. *)
Definition isScriptElement (n : ContainerNode) : bool :=
  node_hasTagName n (htmlName "script") || node_hasTagName n (svgName "script").

Definition hasImpliedEndTag (item : HTMLStackItem) : bool :=
  hasOneOf item (map htmlName ["dd"; "dt"; "li"]%string)
  || isHTMLOptionElement (m_node item) || isHTMLOptGroupElement (m_node item)
  || hasOneOf item (map htmlName ["p"; "rb"; "rp"; "rt"; "rtc"]%string).

Section Site.
Context {dom : DOM}.

(** ** Foster parents *)

Definition shouldFosterParent (t : HTMLConstructionSite) : option bool :=
  if negb (m_redirectAttachToFosterParent t) then Some false
  else match currentStackItem t with
       | None => None
       | Some item => Some (isElementNode item && causesFosterParenting item)
       end.

(** The foster parent of a table, or the root; the next child. *)
Definition fosterSiteOfTable (t : HTMLConstructionSite) : option (ContainerNode * option ContainerNode) :=
  match topmost (m_openElements t) (lit "table") with
  | Some lastTableElementRecord =>
      match element (m_item lastTableElementRecord) with
      | None => None
      | Some lastTableElement =>
          let canBeFosterParent parent :=
            isElement parent || (m_isParsingFragment t && isNode parent (rootNode (m_openElements t))) || isTemplateContent parent in
          match parentNode lastTableElement with
          | Some parent =>
              if canBeFosterParent parent then Some (parent, Some lastTableElement)
              else match next (m_openElements t) lastTableElementRecord with
                   | None => None
                   | Some r => match element (m_item r) with None => None | Some e => Some (e, None) end
                   end
          | None =>
              match next (m_openElements t) lastTableElementRecord with
              | None => None
              | Some r => match element (m_item r) with None => None | Some e => Some (e, None) end
              end
          end
      end
  | None => match rootNode (m_openElements t) with None => None | Some n => Some (n, None) end
  end.

Definition findFosterSite (t : HTMLConstructionSite) : option (ContainerNode * option ContainerNode) :=
  match topmost (m_openElements t) (lit "template") with
  | Some lastTemplateElement =>
      match inTableScope (m_openElements t) (lit "table") with
      | None => None
      | Some false => match element (m_item lastTemplateElement) with None => None | Some e => Some (e, None) end
      | Some true => fosterSiteOfTable t
      end
  | None => fosterSiteOfTable t
  end.

Definition fosterParent (node : ContainerNode) (t : HTMLConstructionSite) : option HTMLConstructionSite :=
  match findFosterSite t with
  | None => None
  | Some (p, nextChild) => Some (enqueue (mkTask Insert p nextChild node false) t)
  end.

(** ** Attaching and creating elements *)

Definition attachLater (p child : ContainerNode) (selfClosing : bool) (t : HTMLConstructionSite) : option HTMLConstructionSite :=
  guard! scriptingContentIsAllowed (m_parserContentPolicy t) || negb (isElement child) || negb (isScriptElement child) in
  guard! pluginContentIsAllowed (m_parserContentPolicy t) || negb (isPluginElement child) in
  match shouldFosterParent t with
  | None => None
  | Some true => fosterParent child t
  | Some false =>
      let p := if m_maximumDOMTreeDepth t <? m_stackDepth (m_openElements t)
               then match parentNode p with Some q => q | None => p end else p in
      Some (enqueue (mkTask Insert p None child selfClosing) t)
  end.

(** [setAttributes]: the attributes that are left. *)
Definition setAttributes (name : QualifiedName) (attributes : list Attribute) (t : HTMLConstructionSite) : list Attribute :=
  if scriptingContentIsAllowed (m_parserContentPolicy t) then attributes
  else List.filter (fun a => negb (isScriptingAttribute name a)) attributes.

(** A new element for a token, as an item; the owner document is that of the
    current node. *)
Definition createElement (token : Token) (namespaceURI : option AtomicString) (t : HTMLConstructionSite)
  : option (HTMLStackItem * HTMLConstructionSite) :=
  match currentNode t with
  | None => None
  | Some _ =>
      let name := mkName (tokenName token) namespaceURI in
      let node := mkNode (nextNode t) name true in
      Some (mkItem node (Some (tokenName token)) (setAttributes name (tokenAttributes token) t) namespaceURI false,
            set_nextNode (S (nextNode t)) t)
  end.

Definition createHTMLElement (token : Token) : HTMLConstructionSite -> option (HTMLStackItem * HTMLConstructionSite) :=
  createElement token (Some xhtmlNamespaceURI).

Definition createElementFromSavedToken (item : HTMLStackItem) (t : HTMLConstructionSite)
  : option (HTMLStackItem * HTMLConstructionSite) :=
  match m_tokenLocalName item, attributes item with
  | Some name, Some attributes =>
      let fakeToken := mkToken name attributes false in
      if bool_decide (m_namespaceURI item = Some xhtmlNamespaceURI) then createHTMLElement fakeToken t
      else createElement fakeToken (m_namespaceURI item) t
  | _, _ => None
  end.

Definition insertHTMLElement (token : Token) (t : HTMLConstructionSite) : option HTMLConstructionSite :=
  match createHTMLElement token t with
  | None => None
  | Some (item, t) =>
      match currentNode t with
      | None => None
      | Some p =>
          match attachLater p (m_node item) false t with
          | None => None
          | Some t => match push item (m_openElements t) with None => None | Some s => Some (set_open s t) end
          end
      end
  end.

Definition insertSelfClosingHTMLElement (token : Token) (t : HTMLConstructionSite) : option HTMLConstructionSite :=
  match createHTMLElement token t with
  | None => None
  | Some (item, t) =>
      match currentNode t with
      | None => None
      | Some p => attachLater p (m_node item) true t
      end
  end.

Definition insertFormattingElement (token : Token) (t : HTMLConstructionSite) : option HTMLConstructionSite :=
  match insertHTMLElement token t with
  | None => None
  | Some t =>
      match currentStackItem t with
      | None => None
      | Some item =>
          match HTMLFormattingElementList.append item (m_activeFormattingElements t) with
          | None => None
          | Some l => Some (set_active l t)
          end
      end
  end.

Definition insertHTMLHeadElement (token : Token) (t : HTMLConstructionSite) : option HTMLConstructionSite :=
  match shouldFosterParent t with
  | Some false =>
      match createHTMLElement token t with
      | None => None
      | Some (item, t) =>
          let t := set_head (Some item) t in
          match currentNode t, element item with
          | Some p, Some e =>
              match attachLater p e false t with
              | None => None
              | Some t => match pushHTMLHeadElement item (m_openElements t) with None => None | Some s => Some (set_open s t) end
              end
          | _, _ => None
          end
      end
  | _ => None
  end.

Definition insertHTMLBodyElement (token : Token) (t : HTMLConstructionSite) : option HTMLConstructionSite :=
  match shouldFosterParent t with
  | Some false =>
      match createHTMLElement token t with
      | None => None
      | Some (item, t) =>
          match currentNode t with
          | None => None
          | Some p =>
              match attachLater p (m_node item) false t with
              | None => None
              | Some t => match pushHTMLBodyElement item (m_openElements t) with None => None | Some s => Some (set_open s t) end
              end
          end
      end
  | _ => None
  end.

Definition insertHTMLFormElement (token : Token) (t : HTMLConstructionSite) : option HTMLConstructionSite :=
  match createHTMLElement token t with
  | None => None
  | Some (item, t) =>
      guard! node_hasTagName (m_node item) (htmlName "form") in
      let t := set_form (Some (m_node item)) t in
      match currentNode t with
      | None => None
      | Some p =>
          match attachLater p (m_node item) false t with
          | None => None
          | Some t => match push item (m_openElements t) with None => None | Some s => Some (set_open s t) end
          end
      end
  end.

(** The flags of a new script element ([parserInserted] and [alreadyStarted]) belong to
    the document. *)
Definition insertScriptElement (token : Token) (t : HTMLConstructionSite) : option HTMLConstructionSite :=
  match currentNode t with
  | None => None
  | Some p =>
      let node := mkNode (nextNode t) (htmlName "script") true in
      let item := mkItem node (Some (tokenName token)) (setAttributes (htmlName "script") (tokenAttributes token) t)
                    (Some xhtmlNamespaceURI) false in
      let t := set_nextNode (S (nextNode t)) t in
      match (if scriptingContentIsAllowed (m_parserContentPolicy t) then attachLater p node false t else Some t) with
      | None => None
      | Some t => match push item (m_openElements t) with None => None | Some s => Some (set_open s t) end
      end
  end.

Definition insertForeignElement (token : Token) (namespaceURI : AtomicString) (t : HTMLConstructionSite) : option HTMLConstructionSite :=
  match createElement token (Some namespaceURI) t with
  | None => None
  | Some (item, t) =>
      match currentNode t with
      | None => None
      | Some p =>
          match (if scriptingContentIsAllowed (m_parserContentPolicy t) || negb (isScriptElement (m_node item))
                 then attachLater p (m_node item) (tokenSelfClosing token) t else Some t) with
          | None => None
          | Some t =>
              if tokenSelfClosing token then Some t
              else match push item (m_openElements t) with None => None | Some s => Some (set_open s t) end
          end
      end
  end.

(** The html element, whose item becomes the root of the stack. *)
Definition insertHTMLHtmlElement (token : Token) (t : HTMLConstructionSite) : option HTMLConstructionSite :=
  let node := mkNode (nextNode t) (htmlName "html") true in
  let item := mkItem node (Some (tokenName token)) (setAttributes (htmlName "html") (tokenAttributes token) t)
                (Some xhtmlNamespaceURI) false in
  let t := set_nextNode (S (nextNode t)) t in
  match attachLater (m_attachmentRoot t) node false t with
  | None => None
  | Some t => match pushHTMLHtmlElement item (m_openElements t) with None => None | Some s => Some (set_open s t) end
  end.

(** The document type, a node that is not an element. *)
Definition insertDoctypeNode (name : AtomicString) (t : HTMLConstructionSite) : option HTMLConstructionSite :=
  attachLater (m_attachmentRoot t) (mkNode (nextNode t) (mkName name None) false) false (set_nextNode (S (nextNode t)) t).

(** A comment in the current node, in the document or in the root. *)
Definition createComment (t : HTMLConstructionSite) : ContainerNode * HTMLConstructionSite :=
  (mkNode (nextNode t) (mkName (lit "#comment") None) false, set_nextNode (S (nextNode t)) t).

Definition insertComment (t : HTMLConstructionSite) : option HTMLConstructionSite :=
  match currentNode t with
  | None => None
  | Some p => let '(comment, t) := createComment t in attachLater p comment false t
  end.

Definition insertCommentOnDocument (t : HTMLConstructionSite) : option HTMLConstructionSite :=
  let '(comment, t) := createComment t in attachLater (m_attachmentRoot t) comment false t.

Definition insertCommentOnHTMLHtmlElement (t : HTMLConstructionSite) : option HTMLConstructionSite :=
  match rootNode (m_openElements t) with
  | None => None
  | Some p => let '(comment, t) := createComment t in attachLater p comment false t
  end.

(** ** Tasks of the adoption agency *)

Definition reparent (newParent child : ContainerNode) (t : HTMLConstructionSite) : HTMLConstructionSite :=
  enqueue (mkTask Reparent newParent None child false) t.

Definition insertAlreadyParsedChild (newParent : HTMLStackItem) (child : ContainerNode) (t : HTMLConstructionSite)
  : option HTMLConstructionSite :=
  if causesFosterParenting newParent then fosterParent child t
  else Some (enqueue (mkTask InsertAlreadyParsedChild (m_node newParent) None child false) t).

Definition takeAllChildren (newParent : HTMLStackItem) (oldParent : ContainerNode) (t : HTMLConstructionSite) : HTMLConstructionSite :=
  enqueue (mkTask TakeAllChildren (m_node newParent) None oldParent false) t.

(** ** Reconstruction *)

(** The loop of [indexOfFirstUnopenFormattingElement]; [Some None] is a false result. *)
Fixpoint firstUnopenLoop (s : HTMLElementStack) (l : list HTMLFormattingElementList.Entry) (index : nat) : option (option nat) :=
  match index with
  | O => Some (Some O)
  | S index =>
      match l !! index with
      | None => None
      | Some None => Some (if (S index <? length l)%nat then Some (S index) else None)
      | Some (Some item) =>
          match element item with
          | None => None
          | Some e =>
              if containsNode s e then Some (if (S index <? length l)%nat then Some (S index) else None)
              else firstUnopenLoop s l index
          end
      end
  end.

Definition indexOfFirstUnopenFormattingElement (t : HTMLConstructionSite) : option (option nat) :=
  let l := m_activeFormattingElements t in
  if (length l =? 0)%nat then Some None else firstUnopenLoop (m_openElements t) l (length l).

(** The entries from [index] on are created again; [n] of them are left. *)
Fixpoint reconstructLoop (n : nat) (index : nat) (t : HTMLConstructionSite) : option HTMLConstructionSite :=
  match n with
  | O => Some t
  | S n =>
      match m_activeFormattingElements t !! index with
      | Some (Some item) =>
          match createElementFromSavedToken item t with
          | None => None
          | Some (reconstructed, t) =>
              match currentNode t with
              | None => None
              | Some p =>
                  match attachLater p (m_node reconstructed) false t with
                  | None => None
                  | Some t =>
                      match push reconstructed (m_openElements t) with
                      | None => None
                      | Some s =>
                          let t := set_open s t in
                          reconstructLoop n (S index)
                            (set_active (HTMLFormattingElementList.replaceEntry index reconstructed (m_activeFormattingElements t)) t)
                      end
                  end
              end
          end
      | _ => None
      end
  end.

Definition reconstructTheActiveFormattingElements (t : HTMLConstructionSite) : option HTMLConstructionSite :=
  match indexOfFirstUnopenFormattingElement t with
  | None => None
  | Some None => Some t
  | Some (Some first) =>
      guard! (first <? length (m_activeFormattingElements t))%nat in
      reconstructLoop (length (m_activeFormattingElements t) - first) first t
  end.

(** ** Implied end tags *)

Definition generateImpliedEndTagsWithExclusion (tagName : AtomicString) (t : HTMLConstructionSite) : option HTMLConstructionSite :=
  match popWhile (fun item => Some (negb (hasImpliedEndTag item) || matchesHTMLTag item tagName)) (m_openElements t) with
  | None => None
  | Some s => Some (set_open s t)
  end.

Definition generateImpliedEndTags (t : HTMLConstructionSite) : option HTMLConstructionSite :=
  match popWhile (fun item => Some (negb (hasImpliedEndTag item))) (m_openElements t) with
  | None => None
  | Some s => Some (set_open s t)
  end.

End Site.
End HTMLConstructionSite.
