(* ===== verification/CompatibilityMode.v ===== *)
(** * The compatibility mode of a document: HTMLConstructionSite::setCompatibilityModeFromDoctype

    A doctype selects quirks mode, limited quirks mode or no quirks by its name and
    by prefixes of its public identifier, compared without regard to case.  The
    comparison is that of WTF's strings: by a table for Latin-1 strings, and with
    the case folding of ICU, a parameter, for all others. *)
From S2P Require Import Prelude HTMLStackItem HTMLElementStack.
From Stdlib Require Import String ZArith Lia.
From stdpp Require Import base list numbers option.
#[local] Open Scope Z_scope.
Import HTMLStackItem HTMLElementStack.

Module CompatibilityMode.

Inductive DocumentCompatibilityMode : Type := NoQuirksMode | QuirksMode | LimitedQuirksMode.

(** [StringImpl::latin1CaseFoldTable]. *)
Definition latin1CaseFold (c : Z) : Z :=
  if (65 <=? c) && (c <=? 90) then c + 32
  else if c =? 181 then 956
  else if (192 <=? c) && (c <=? 222) && negb (c =? 215) then c + 32
  else c.

(** [String::startsWith] of a literal, without regard to case. *)
Definition startsWithIgnoringCase (u_foldCase : Z -> Z) (s matchString : list Z) : bool :=
  if (length s <? length matchString)%nat then false
  else
    let fold := if forallb (fun c => c <? 256) s then latin1CaseFold else u_foldCase in
    forallb (fun '(a, b) => fold a =? latin1CaseFold b) (zip s matchString).

(** The public identifiers of quirks mode. *)
Definition quirksPrefixes : list string :=
  [
   "+//Silmaril//dtd html Pro v0r11 19970101//";
   "-//AdvaSoft Ltd//DTD HTML 3.0 asWedit + extensions//";
   "-//AS//DTD HTML 3.0 asWedit + extensions//";
   "-//IETF//DTD HTML 2.0 Level 1//";
   "-//IETF//DTD HTML 2.0 Level 2//";
   "-//IETF//DTD HTML 2.0 Strict Level 1//";
   "-//IETF//DTD HTML 2.0 Strict Level 2//";
   "-//IETF//DTD HTML 2.0 Strict//";
   "-//IETF//DTD HTML 2.0//";
   "-//IETF//DTD HTML 2.1E//";
   "-//IETF//DTD HTML 3.0//";
   "-//IETF//DTD HTML 3.2 Final//";
   "-//IETF//DTD HTML 3.2//";
   "-//IETF//DTD HTML 3//";
   "-//IETF//DTD HTML Level 0//";
   "-//IETF//DTD HTML Level 1//";
   "-//IETF//DTD HTML Level 2//";
   "-//IETF//DTD HTML Level 3//";
   "-//IETF//DTD HTML Strict Level 0//";
   "-//IETF//DTD HTML Strict Level 1//";
   "-//IETF//DTD HTML Strict Level 2//";
   "-//IETF//DTD HTML Strict Level 3//";
   "-//IETF//DTD HTML Strict//";
   "-//IETF//DTD HTML//";
   "-//Metrius//DTD Metrius Presentational//";
   "-//Microsoft//DTD Internet Explorer 2.0 HTML Strict//";
   "-//Microsoft//DTD Internet Explorer 2.0 HTML//";
   "-//Microsoft//DTD Internet Explorer 2.0 Tables//";
   "-//Microsoft//DTD Internet Explorer 3.0 HTML Strict//";
   "-//Microsoft//DTD Internet Explorer 3.0 HTML//";
   "-//Microsoft//DTD Internet Explorer 3.0 Tables//";
   "-//Netscape Comm. Corp.//DTD HTML//";
   "-//Netscape Comm. Corp.//DTD Strict HTML//";
   "-//O'Reilly and Associates//DTD HTML 2.0//";
   "-//O'Reilly and Associates//DTD HTML Extended 1.0//";
   "-//O'Reilly and Associates//DTD HTML Extended Relaxed 1.0//";
   "-//SoftQuad Software//DTD HoTMetaL PRO 6.0::19990601::extensions to HTML 4.0//";
   "-//SoftQuad//DTD HoTMetaL PRO 4.0::19971010::extensions to HTML 4.0//";
   "-//Spyglass//DTD HTML 2.0 Extended//";
   "-//SQ//DTD HTML 2.0 HoTMetaL + extensions//";
   "-//Sun Microsystems Corp.//DTD HotJava HTML//";
   "-//Sun Microsystems Corp.//DTD HotJava Strict HTML//";
   "-//W3C//DTD HTML 3 1995-03-24//";
   "-//W3C//DTD HTML 3.2 Draft//";
   "-//W3C//DTD HTML 3.2 Final//";
   "-//W3C//DTD HTML 3.2//";
   "-//W3C//DTD HTML 3.2S Draft//";
   "-//W3C//DTD HTML 4.0 Frameset//";
   "-//W3C//DTD HTML 4.0 Transitional//";
   "-//W3C//DTD HTML Experimental 19960712//";
   "-//W3C//DTD HTML Experimental 970421//";
   "-//W3C//DTD W3 HTML//";
   "-//W3O//DTD W3 HTML 3.0//";
   "-//WebTechs//DTD Mozilla HTML 2.0//";
   "-//WebTechs//DTD Mozilla HTML//"]%string.

Definition limitedPrefixes : list string :=
  ["-//W3C//DTD XHTML 1.0 Frameset//"; "-//W3C//DTD XHTML 1.0 Transitional//"]%string.

Definition html401Prefixes : list string :=
  ["-//W3C//DTD HTML 4.01 Frameset//"; "-//W3C//DTD HTML 4.01 Transitional//"]%string.

Definition compatibilityModeFromDoctype (u_foldCase : Z -> Z) (name publicId systemId : list Z) : DocumentCompatibilityMode :=
  let publicStarts prefixes := existsb (fun p => startsWithIgnoringCase u_foldCase publicId (lit p)) prefixes in
  if negb (bool_decide (name = lit "html"))
     || publicStarts quirksPrefixes
     || equalIgnoringCase u_foldCase publicId (lit "-//W3O//DTD W3 HTML Strict 3.0//EN//")
     || equalIgnoringCase u_foldCase publicId (lit "-/W3C/DTD HTML 4.0 Transitional/EN")
     || equalIgnoringCase u_foldCase publicId (lit "HTML")
     || equalIgnoringCase u_foldCase systemId (lit "http://www.ibm.com/data/dtd/v11/ibmxhtml1-transitional.dtd")
     || (bool_decide (systemId = []) && publicStarts html401Prefixes)
  then QuirksMode
  else if publicStarts limitedPrefixes || (negb (bool_decide (systemId = [])) && publicStarts html401Prefixes)
  then LimitedQuirksMode
  else NoQuirksMode.

End CompatibilityMode.
