(* ===== verification/HTMLTreeBuilderState.v ===== *)
(** * The state of the tree builder: html/parser/HTMLTreeBuilder.h

    The members of HTMLTreeBuilder, the tokens it is given, and a state and error
    monad in which HTMLTreeBuilder.v writes its operations.  The document is the
    sequence of the changes that have been made to it.  What the builder asks of
    the document, of generated tables, of ICU and of the embedder is the class
    [Environment]. *)
From S2P Require Import Prelude HTMLTokenizer CompatibilityMode HTMLStackItem HTMLElementStack HTMLFormattingElementList HTMLConstructionSite.
From Stdlib Require Import String ZArith Lia.
From stdpp Require Import base list numbers option.
#[local] Open Scope Z_scope.
Import HTMLStackItem HTMLElementStack HTMLConstructionSite CompatibilityMode.

Module HTMLTreeBuilderState.

(** ** Data *)

Inductive InsertionMode : Type :=
| Initial | BeforeHTML | BeforeHead | InHead | InHeadNoscript | AfterHead | TemplateContents | InBody | Text
| InTable | InTableText | InCaption | InColumnGroup | InTableBody | InRow | InCell | InSelect | InSelectInTable
| AfterBody | InFrameset | AfterFrameset | AfterAfterBody | AfterAfterFrameset.

#[export] Instance InsertionMode_eq_dec : EqDecision InsertionMode.
Proof. solve_decision. Defined.

(** [AtomicHTMLToken]. *)
Inductive AtomicHTMLToken : Type :=
| Uninitialized
| DOCTYPE (name publicIdentifier systemIdentifier : AtomicString) (forceQuirks : bool)
| StartTag (token : Token)
| EndTag (name : AtomicString)
| Comment
| Character (characters : list Z)
| EndOfFile.

(** A change of the document. *)
Inductive Change : Type :=
| TaskExecuted (task : HTMLConstructionSiteTask)
| TextAppended (parent : ContainerNode) (nextChild : option ContainerNode) (characters : list Z)
| TextInserted (parent : ContainerNode) (nextChild : option ContainerNode) (characters : list Z)
| AttributesMerged (element : ContainerNode) (attributes : list Attribute)
| AttributeSet (element : ContainerNode) (name : QualifiedName) (value : AtomicString)
| NodeRemoved (node : ContainerNode)
| CompatibilityModeSet (mode : DocumentCompatibilityMode).

(** What the tree builder asks of others while it processes one token.  The document changes
    between tokens, and [Reachable] and [Answers] allow another environment for each. *)
Class Environment : Type := mkEnvironment {
  environmentDOM :: DOM;
  m_options : HTMLParserOptions;
  (** of ICU *)
  u_foldCase : Z -> Z;
  (** the generated tables of names *)
  svgTags : list QualifiedName;
  svgAttrs : list QualifiedName;
  mathmlAttrs : list QualifiedName;
  xlinkAttrs : list QualifiedName;
  xmlAttrs : list QualifiedName;
  (** a string of the localisation *)
  searchableIndexIntroduction : list Z;
  isSrcdocDocument : bool;
  (** the content of a template *)
  templateContent : ContainerNode -> ContainerNode;
  (** how many characters the text node before a place takes, and how long a text
      node for the characters from a position is *)
  parserAppendData : ContainerNode -> option ContainerNode -> list Z -> nat;
  createWithLengthLimit : ContainerNode -> list Z -> nat -> nat
}.

(** The members; [m_fragmentContext] is the context element of a fragment, and
    [tokenizer] the state of the tokenizer with its flags, if there is one. *)
Record HTMLTreeBuilder : Type := mkBuilder {
  m_framesetOk : bool;
  m_fragmentContext : option ContainerNode;
  m_tree : HTMLConstructionSite;
  m_insertionMode : InsertionMode;
  m_originalInsertionMode : InsertionMode;
  m_templateInsertionModes : list InsertionMode;
  m_pendingTableCharacters : list Z;
  m_shouldSkipLeadingNewline : bool;
  m_scriptToProcess : option ContainerNode;
  m_inQuirksMode : bool;
  tokenizer : option (State * bool * bool);
  document : list Change
}.

Definition set_framesetOk v b := mkBuilder v (m_fragmentContext b) (m_tree b) (m_insertionMode b) (m_originalInsertionMode b)
  (m_templateInsertionModes b) (m_pendingTableCharacters b) (m_shouldSkipLeadingNewline b) (m_scriptToProcess b) (m_inQuirksMode b) (tokenizer b) (document b).
Definition set_tree v b := mkBuilder (m_framesetOk b) (m_fragmentContext b) v (m_insertionMode b) (m_originalInsertionMode b)
  (m_templateInsertionModes b) (m_pendingTableCharacters b) (m_shouldSkipLeadingNewline b) (m_scriptToProcess b) (m_inQuirksMode b) (tokenizer b) (document b).
Definition set_mode v b := mkBuilder (m_framesetOk b) (m_fragmentContext b) (m_tree b) v (m_originalInsertionMode b)
  (m_templateInsertionModes b) (m_pendingTableCharacters b) (m_shouldSkipLeadingNewline b) (m_scriptToProcess b) (m_inQuirksMode b) (tokenizer b) (document b).
Definition set_originalMode v b := mkBuilder (m_framesetOk b) (m_fragmentContext b) (m_tree b) (m_insertionMode b) v
  (m_templateInsertionModes b) (m_pendingTableCharacters b) (m_shouldSkipLeadingNewline b) (m_scriptToProcess b) (m_inQuirksMode b) (tokenizer b) (document b).
Definition set_templateModes v b := mkBuilder (m_framesetOk b) (m_fragmentContext b) (m_tree b) (m_insertionMode b) (m_originalInsertionMode b)
  v (m_pendingTableCharacters b) (m_shouldSkipLeadingNewline b) (m_scriptToProcess b) (m_inQuirksMode b) (tokenizer b) (document b).
Definition set_pending v b := mkBuilder (m_framesetOk b) (m_fragmentContext b) (m_tree b) (m_insertionMode b) (m_originalInsertionMode b)
  (m_templateInsertionModes b) v (m_shouldSkipLeadingNewline b) (m_scriptToProcess b) (m_inQuirksMode b) (tokenizer b) (document b).
Definition set_skipNewline v b := mkBuilder (m_framesetOk b) (m_fragmentContext b) (m_tree b) (m_insertionMode b) (m_originalInsertionMode b)
  (m_templateInsertionModes b) (m_pendingTableCharacters b) v (m_scriptToProcess b) (m_inQuirksMode b) (tokenizer b) (document b).
Definition set_script v b := mkBuilder (m_framesetOk b) (m_fragmentContext b) (m_tree b) (m_insertionMode b) (m_originalInsertionMode b)
  (m_templateInsertionModes b) (m_pendingTableCharacters b) (m_shouldSkipLeadingNewline b) v (m_inQuirksMode b) (tokenizer b) (document b).
Definition set_quirks v b := mkBuilder (m_framesetOk b) (m_fragmentContext b) (m_tree b) (m_insertionMode b) (m_originalInsertionMode b)
  (m_templateInsertionModes b) (m_pendingTableCharacters b) (m_shouldSkipLeadingNewline b) (m_scriptToProcess b) v (tokenizer b) (document b).
Definition set_tokenizer v b := mkBuilder (m_framesetOk b) (m_fragmentContext b) (m_tree b) (m_insertionMode b) (m_originalInsertionMode b)
  (m_templateInsertionModes b) (m_pendingTableCharacters b) (m_shouldSkipLeadingNewline b) (m_scriptToProcess b) (m_inQuirksMode b) v (document b).
Definition changed c b := mkBuilder (m_framesetOk b) (m_fragmentContext b) (m_tree b) (m_insertionMode b) (m_originalInsertionMode b)
  (m_templateInsertionModes b) (m_pendingTableCharacters b) (m_shouldSkipLeadingNewline b) (m_scriptToProcess b) (m_inQuirksMode b) (tokenizer b)
  (document b ++ c).

Abbreviation openElements b := (m_openElements (m_tree b)) (only parsing).

Definition isParsingFragment (b : HTMLTreeBuilder) : bool := bool_decide (is_Some (m_fragmentContext b)).

(** ** The monad *)

Definition TB (A : Type) : Type := HTMLTreeBuilder -> option (A * HTMLTreeBuilder).

Definition ret {A} (a : A) : TB A := fun b => Some (a, b).

Definition bind {A B} (m : TB A) (k : A -> TB B) : TB B := fun b =>
  match m b with
  | None => None
  | Some (a, b) => k a b
  end.

Definition get : TB HTMLTreeBuilder := fun b => Some (b, b).

Definition modify (f : HTMLTreeBuilder -> HTMLTreeBuilder) : TB unit := fun b => Some (tt, f b).

(** [ASSERT(p)], or an assertion that is known when the operation is built. *)
Definition assert (p : HTMLTreeBuilder -> bool) : TB unit := fun b => guard! p b in Some (tt, b).

(** A question that may itself fail an assertion. *)
Definition ask {A} (f : HTMLTreeBuilder -> option A) : TB A := fun b =>
  match f b with None => None | Some a => Some (a, b) end.

(** A question about the stack, and operations on the stack, the list and the site. *)
Definition query {A} (f : HTMLElementStack -> option A) : TB A := ask (fun b => f (openElements b)).

Definition tree (f : HTMLConstructionSite -> option HTMLConstructionSite) : TB unit := fun b =>
  match f (m_tree b) with None => None | Some t => Some (tt, set_tree t b) end.

Definition stack (f : HTMLElementStack -> option HTMLElementStack) : TB unit :=
  tree (fun t => match f (m_openElements t) with None => None | Some s => Some (set_open s t) end).

Definition formatting (f : list HTMLFormattingElementList.Entry -> option (list HTMLFormattingElementList.Entry)) : TB unit :=
  tree (fun t => match f (m_activeFormattingElements t) with None => None | Some l => Some (set_active l t) end).

End HTMLTreeBuilderState.

(** The notation of the monad. *)
Declare Scope builder_scope.
Delimit Scope builder_scope with builder.
Notation "'let!' x := m 'in' k" := (HTMLTreeBuilderState.bind m (fun x => k))
  (at level 10, x binder, m at level 100, k at level 200) : builder_scope.
Notation "m ;; k" := (HTMLTreeBuilderState.bind m (fun _ => k))
  (at level 100, k at level 200, right associativity) : builder_scope.
