(* ===== verification/HTMLConstructionSiteProps.v ===== *)
(** * Properties of the construction site

    The invariant that ties the stack of open elements to the list of active
    formatting elements, foster parents, implied end tags, and the reconstruction
    of the active formatting elements. *)
From S2P Require Import Prelude HTMLStackItem HTMLElementStack HTMLElementStackProps HTMLElementStackProtocol HTMLFormattingElementList HTMLFormattingElementProps HTMLConstructionSite.
From Stdlib Require Import String ZArith Lia.
From stdpp Require Import base list numbers option.
#[local] Open Scope Z_scope.
Import HTMLStackItem HTMLElementStack HTMLConstructionSite.

(** ** The invariant *)

Definition formattingNames : list QualifiedName :=
  map htmlName ["a"; "b"; "big"; "code"; "em"; "font"; "i"; "nobr"; "s"; "small"; "strike"; "strong"; "tt"; "u"]%string.

(** An item of the list: an element with one of the formatting names. *)
Definition formattingItem (i : HTMLStackItem) : Prop :=
  wellFormed i /\ m_isDocumentFragmentNode i = false /\ hasOneOf i formattingNames = true.

(** The stack [s] and the list [l]; all nodes are older than [k], and an element that
    is in both has the same item in both. *)
Record core (s : HTMLElementStack) (l : list HTMLFormattingElementList.Entry) (k : nat) : Prop := mkCore {
  core_stack : inv s;
  core_nonempty : m_top s <> [];
  core_list : good l;
  core_items : Forall formattingItem (itemsOf l);
  core_fresh_stack : Forall (fun r => (nodeId (nodeOf r) < k)%nat) (m_top s);
  core_fresh_list : Forall (fun i => (itemId i < k)%nat) (itemsOf l);
  core_agree : forall r i, r ∈ m_top s -> i ∈ itemsOf l -> nodeId (nodeOf r) = itemId i -> m_item r = i
}.

Definition siteInv (t : HTMLConstructionSite) : Prop :=
  core (m_openElements t) (m_activeFormattingElements t) (nextNode t).

(** A formatting item has none of the other names. *)
Lemma formatting_noTag i names : formattingItem i -> (forall n, n ∈ names -> n ∉ formattingNames) -> hasOneOf i names = false.
Proof.
  intros (_ & _ & H) Hn. apply not_true_iff_false. intros H'. unfold hasOneOf in *.
  apply existsb_exists in H as (a & Ha & Ta), H' as (b & Hb & Tb). apply list_elem_of_In in Ha, Hb.
  rewrite (hasTagName_unique i a b Ta Tb) in Ha. by apply (Hn b).
Qed.

Ltac no_names := let n := fresh "n" in let Hn := fresh "Hn" in
  intros n Hn; repeat (apply elem_of_cons in Hn as [->|Hn]; [by apply (bool_decide_eq_true_1 _); vm_compute|]); by apply not_elem_of_nil in Hn.

Lemma formatting_plain i : formattingItem i -> plainItem i.
Proof.
  intros H. split; [apply H|]. unfold isPlain. rewrite formatting_noTag; [done|done|]. no_names.
Qed.

Lemma formatting_noTable i : formattingItem i -> hasTagName i (htmlName "table") = false.
Proof.
  intros H. pose proof (formatting_noTag i [htmlName "table"] H) as Hn. cbn in Hn. rewrite orb_false_r in Hn. apply Hn. no_names.
Qed.

Lemma formatting_noTemplate i : formattingItem i -> hasTagName i (htmlName "template") = false.
Proof.
  intros H. pose proof (formatting_noTag i [htmlName "template"] H) as Hn. cbn in Hn. rewrite orb_false_r in Hn. apply Hn. no_names.
Qed.

Lemma formatting_noScript i : formattingItem i -> isScriptElement (m_node i) = false.
Proof.
  intros H. unfold isScriptElement. rewrite !node_hasTagName_item by apply H.
  pose proof (formatting_noTag i [htmlName "script"; svgName "script"] H) as Hn. cbn in Hn. rewrite orb_false_r in Hn. apply Hn. no_names.
Qed.

(** ** Changes that keep the invariant *)

(** Records and entries disappear. *)
Lemma core_shrink s l k s' l' : core s l k -> inv s' -> m_top s' <> [] -> (forall r, r ∈ m_top s' -> r ∈ m_top s) ->
  good l' -> (forall i, i ∈ itemsOf l' -> i ∈ itemsOf l) -> core s' l' k.
Proof.
  intros [H1 H2 H3 H4 H5 H6 H7] Hi Hne Hs Hg Hl. rewrite list.Forall_forall in H4. rewrite list.Forall_forall in H5. rewrite list.Forall_forall in H6. constructor; try done.
  - rewrite list.Forall_forall. auto.
  - rewrite list.Forall_forall. auto.
  - rewrite list.Forall_forall. auto.
  - intros r i Hr Hin. by apply H7; [apply Hs|apply Hl].
Qed.

(** A new item takes the place of an old one in the list, and is put on the stack. *)
Lemma core_new s l k s' l' old new rest : core s l k -> inv s' -> m_top s' <> [] ->
  itemsOf l ≡ₚ old :: rest -> itemsOf l' ≡ₚ new :: rest -> goodItem new -> formattingItem new -> itemId new = k ->
  (forall r, r ∈ m_top s' -> r ∈ m_top s \/ m_item r = new) -> core s' l' (S k).
Proof.
  intros [H1 H2 H3 H4 H5 H6 H7] Hi Hne Hold Hnew Hg Hf Hk Hs. rewrite Hold in H4, H6. destruct H3 as [Hg1 Hg2]. rewrite Hold in Hg1, Hg2.
  cbn in Hg2. apply Forall_cons_iff in H4 as [_ H4], H6 as [_ H6], Hg1 as [_ Hg1]. apply list.NoDup_cons in Hg2 as [_ Hg2].
  rewrite list.Forall_forall in H5. rewrite list.Forall_forall in H6.
  constructor; [done|done| | | | |].
  - split; [rewrite Hnew; by constructor|]. rewrite Hnew. cbn. apply list.NoDup_cons. split; [|done]. intros Hin.
    apply list_elem_of_fmap in Hin as (x & Ex & Hx). specialize (H6 x Hx). cbn in H6. lia.
  - rewrite Hnew. by constructor.
  - rewrite list.Forall_forall. intros r Hr. destruct (Hs r Hr) as [Hr'|Hr']; [specialize (H5 r Hr'); cbn in H5; lia|]. unfold nodeOf. rewrite Hr'.
    unfold itemId in Hk. lia.
  - rewrite Hnew. constructor; [lia|]. rewrite list.Forall_forall. intros x Hx. specialize (H6 x Hx). cbn in H6. lia.
  - intros r i Hr Hin E. rewrite Hnew in Hin. apply elem_of_cons in Hin as [->|Hin].
    + destruct (Hs r Hr) as [Hr'|Hr']; [|done]. specialize (H5 r Hr'). cbn in H5. lia.
    + destruct (Hs r Hr) as [Hr'|Hr'].
      * apply H7; [done| |done]. rewrite Hold. by right.
      * specialize (H6 i Hin). cbn in H6. unfold nodeOf in E. rewrite Hr' in E. unfold itemId in *. lia.
Qed.

(** Replacing an entry. *)
Lemma replaceEntry_items l index old new : l !! index = Some (Some old) ->
  exists rest, itemsOf l ≡ₚ old :: rest /\ itemsOf (HTMLFormattingElementList.replaceEntry index new l) ≡ₚ new :: rest.
Proof.
  intros H. apply list_elem_of_split_length in H as (l1 & l2 & -> & ->). exists (itemsOf l1 ++ itemsOf l2). unfold HTMLFormattingElementList.replaceEntry.
  rewrite insert_app_r_alt, Nat.sub_diag by lia. cbn. rewrite !itemsOf_app. cbn. by rewrite <- !Permutation_middle.
Qed.

(** ** New elements *)

Section Site.
Context {dom : DOM}.

(** The item [b] is created again from [a]: it has the same name, and the same attributes
    but for the scripting attributes where scripts are not allowed. *)
Definition recreated (p : ParserContentPolicy) (a b : HTMLStackItem) : Prop :=
  m_tokenLocalName b = m_tokenLocalName a /\ m_namespaceURI b = m_namespaceURI a /\
  m_tokenAttributes b = (if scriptingContentIsAllowed p then m_tokenAttributes a
                         else List.filter (fun x => negb (isScriptingAttribute (nodeName (m_node b)) x)) (m_tokenAttributes a)).

(** An item that is created again has the same name, a new node, and good attributes. *)
Lemma createFromSaved_ok i t : siteInv t -> goodItem i -> formattingItem i ->
  exists new, createElementFromSavedToken i t = Some (new, set_nextNode (S (nextNode t)) t) /\
    goodItem new /\ formattingItem new /\ itemId new = nextNode t /\ element new = Some (m_node new) /\
    recreated (m_parserContentPolicy t) i new.
Proof.
  intros Ht (Hel & [name Hn] & Hd) Hf. unfold createElementFromSavedToken, createHTMLElement, createElement, attributes. rewrite Hn. cbn [bool_decide].
  rewrite bool_decide_eq_true_2 by (by eexists).
  destruct (currentNode t) as [p|] eqn:Ec.
  2: { exfalso. unfold currentNode, topNode, topStackItem, topRecord in Ec. pose proof (core_nonempty _ _ _ Ht). by destruct (m_top (m_openElements t)). }
  set (new := mkItem (mkNode (nextNode t) (mkName name (m_namespaceURI i)) true) (Some name)
    (setAttributes (mkName name (m_namespaceURI i)) (m_tokenAttributes i) t) (m_namespaceURI i) false).
  exists new. split.
  { case_bool_decide as E; cbn; [|done]. unfold new. by rewrite E. }
  assert (Hnames : forall n, hasTagName new n = hasTagName i n). { intros n. unfold hasTagName, hasLocalName, new. cbn. by rewrite Hn. }
  split; [|split; [|split_and!; [done|done|split; [done|split; [done|done]]]]].
  - split; [done|]. split; [cbn; by eexists|]. cbn. unfold setAttributes. destruct (scriptingContentIsAllowed _); [done|].
    clear - Hd. induction (m_tokenAttributes i) as [|a l IH]; cbn in *; [constructor|]. apply list.NoDup_cons in Hd as [Ha Hd].
    destruct (negb _); cbn; [|by apply IH]. apply list.NoDup_cons. split; [|by apply IH]. intros Hin. apply Ha.
    apply list_elem_of_fmap in Hin as (x & -> & Hx). apply list_elem_of_In, filter_In in Hx as [Hx _]. apply (list_elem_of_fmap_2 attributeName). by apply list_elem_of_In.
  - split; [done|]. split; [done|]. destruct Hf as (_ & _ & Hf). unfold hasOneOf in *. apply existsb_exists in Hf as (n & Hin & Hf). apply existsb_exists. exists n. by rewrite Hnames.
Qed.

(** ** Foster parents *)

(** When the root is a document fragment, every open table has a parent at which its
    foster children can be inserted. *)
Definition fosterReady (t : HTMLConstructionSite) : Prop :=
  (exists root, root ∈ m_top (m_openElements t) /\ m_isDocumentFragmentNode (m_item root) = true) ->
  forall r, r ∈ m_top (m_openElements t) -> hasTagName (m_item r) (htmlName "table") = true ->
  exists p, parentNode (nodeOf r) = Some p /\
    (isElement p || (m_isParsingFragment t && isNode p (rootNode (m_openElements t))) || isTemplateContent p)%bool = true.

Lemma tag_record_plain s r n : inv s -> r ∈ m_top s -> hasTagName (m_item r) (htmlName n) = true ->
  htmlName n <> htmlName "html" -> htmlName n <> htmlName "head" -> htmlName n <> htmlName "body" -> plainItem (m_item r).
Proof.
  intros H Hin Ht. apply tag_plain; [|done]. by apply (proj1 (list.Forall_forall _ _) (inv_items s H)).
Qed.

Lemma record_element s r : inv s -> r ∈ m_top s -> plainItem (m_item r) -> element (m_item r) = Some (nodeOf r).
Proof.
  intros H Hin Hp. apply wellFormed_element; [|apply Hp]. by apply (proj1 (list.Forall_forall _ _) (inv_items s H)).
Qed.

(** The record below a plain one. *)
Lemma next_ok s above r below : inv s -> m_top s = above ++ r :: below -> next s r = head below.
Proof.
  intros H E. unfold next. f_equal. pose proof (inv_ids s H) as Hd. rewrite E in Hd |- *. rewrite map_app in Hd.
  apply list.NoDup_app in Hd as (_ & Hd & _). clear E. induction above as [|a above IH]; cbn; [by rewrite Nat.eqb_refl|].
  destruct (Nat.eqb_spec (recordId a) (recordId r)) as [Ea|]; [|apply IH; intros x Hx; apply Hd; by right].
  exfalso. apply (Hd (recordId a)); [left|]. rewrite Ea. left.
Qed.

Lemma topmost_in s tag r : topmost s tag = Some r -> r ∈ m_top s /\ matchesHTMLTag (m_item r) tag = true.
Proof. intros H. apply find_some in H as [H1 H2]. split; [by apply list_elem_of_In|done]. Qed.

Lemma fosterSiteOfTable_ok t : siteInv t -> fosterReady t -> exists x, fosterSiteOfTable t = Some x.
Proof.
  intros Ht Hf. pose proof (core_stack _ _ _ Ht) as H. unfold fosterSiteOfTable.
  destruct (topmost (m_openElements t) (lit "table")) as [r|] eqn:Et.
  - apply topmost_in in Et as [Hin Htag]. rewrite matchesHTMLTag_eq in Htag.
    assert (Hp : plainItem (m_item r)) by (by apply (tag_record_plain (m_openElements t) r "table")).
    rewrite (record_element (m_openElements t) r) by done.
    assert (Hnext : (exists p, parentNode (nodeOf r) = Some p /\
      (isElement p || (m_isParsingFragment t && isNode p (rootNode (m_openElements t))) || isTemplateContent p)%bool = true) \/
      exists x e, next (m_openElements t) r = Some x /\ element (m_item x) = Some e).
    { pose proof Hin as Hin'. apply list_elem_of_split in Hin' as (above & below & E).
      destruct (shaped_above _ _ _ _ above r below (inv_shape _ H) E Hp) as [_ Hne]. destruct below as [|x below]; [done|].
      destruct (m_isDocumentFragmentNode (m_item x)) eqn:Ef.
      - left. apply Hf; [|done|done]. exists x. split; [|done]. rewrite E. apply elem_of_app. right. right. left.
      - right. exists x, (nodeOf x). split; [by rewrite (next_ok _ above r (x :: below))|]. apply wellFormed_element; [|done].
        apply (proj1 (list.Forall_forall _ _) (inv_items _ H)). rewrite E. apply elem_of_app. right. right. left. }
    destruct Hnext as [(p & -> & ->)|(x & e & E1 & E2)]; [by eexists|]. rewrite E1, E2.
    destruct (parentNode (nodeOf r)) as [p|]; [destruct (_ || _)|]; by eexists.
  - unfold rootNode. destruct (shaped_rootNode _ _ _ _ (inv_shape _ H) (core_nonempty _ _ _ Ht)) as [n ->]. by eexists.
Qed.

Lemma findFosterSite_ok t : siteInv t -> fosterReady t -> exists x, findFosterSite t = Some x.
Proof.
  intros Ht Hf. pose proof (core_stack _ _ _ Ht) as H. unfold findFosterSite.
  destruct (topmost (m_openElements t) (lit "template")) as [r|] eqn:Et; [|by apply fosterSiteOfTable_ok].
  destruct (inv_root _ H (core_nonempty _ _ _ Ht)) as (root & Hroot & Hr & _).
  destruct (inScopeCommon_spec isTableScopeMarker (hasTarget (lit "table")) (m_top (m_openElements t))) as (b & E & _).
  { exists root. split; [done|]. unfold isTableScopeMarker. by rewrite Hr, orb_true_r. }
  unfold inTableScope. rewrite E. destruct b; [by apply fosterSiteOfTable_ok|].
  apply topmost_in in Et as [Hin Htag]. rewrite matchesHTMLTag_eq in Htag.
  rewrite (record_element (m_openElements t) r); [by eexists|done|done|by apply (tag_record_plain (m_openElements t) r "template")].
Qed.

(** The task inserts the node. *)
Definition inserts (q : HTMLConstructionSiteTask) (n : ContainerNode) : Prop := operation q = Insert /\ child q = n /\ selfClosing q = false.

Lemma fosterParent_ok n t : siteInv t -> fosterReady t -> exists q, fosterParent n t = Some (enqueue q t) /\ inserts q n.
Proof. intros Ht Hf. unfold fosterParent. destruct (findFosterSite_ok t Ht Hf) as ([p nc] & ->). by eexists. Qed.

Lemma attachLater_ok p n t : siteInv t -> fosterReady t -> isScriptElement n = false -> isPluginElement n = false ->
  exists q, attachLater p n false t = Some (enqueue q t) /\ inserts q n.
Proof.
  intros Ht Hf Hs Hp. unfold attachLater. rewrite Hs, Hp, !orb_true_r. unfold shouldFosterParent, currentStackItem, topStackItem, topRecord.
  destruct (m_redirectAttachToFosterParent t); cbn [negb]; [|by eexists]. pose proof (core_nonempty _ _ _ Ht).
  destruct (m_top (m_openElements t)) as [|r l]; [done|]. cbn. destruct (_ && _); [by apply fosterParent_ok|by eexists].
Qed.

(** The foster parents stay available while no table is added. *)
Lemma fosterReady_step t t' : fosterReady t -> m_isParsingFragment t' = m_isParsingFragment t ->
  m_rootNode (m_openElements t') = m_rootNode (m_openElements t) ->
  (forall r, r ∈ m_top (m_openElements t') -> r ∈ m_top (m_openElements t) \/ formattingItem (m_item r)) -> fosterReady t'.
Proof.
  intros Hf E1 E2 Hs (root & Hroot & Hfr) r Hr Ht. unfold rootNode. rewrite E1, E2. apply Hf.
  - exists root. split; [|done]. destruct (Hs root Hroot) as [|(_ & Hn & _)]; [done|congruence].
  - destruct (Hs r Hr) as [|Hn]; [done|]. by rewrite formatting_noTable in Ht.
  - done.
Qed.

Lemma core_mono s l k k' : core s l k -> (k <= k')%nat -> core s l k'.
Proof.
  intros [H1 H2 H3 H4 H5 H6 H7] Hk. constructor; try done; (eapply List.Forall_impl; [|eassumption]); cbn; lia.
Qed.

(** ** What a change leaves as it is *)

(** The members other than the stack, the list, the queue and the counter. *)
Definition fixedParts (t : HTMLConstructionSite) :=
  (m_attachmentRoot t, m_head t, m_form t, m_parserContentPolicy t, m_isParsingFragment t, m_redirectAttachToFosterParent t, m_maximumDOMTreeDepth t).

(** From [t] to [t'] records and entries have disappeared, and new formatting elements
    have been added. *)
Record frame (t t' : HTMLConstructionSite) : Prop := mkFrame {
  frame_fixed : fixedParts t' = fixedParts t;
  frame_root : m_rootNode (m_openElements t') = m_rootNode (m_openElements t);
  frame_next : (nextNode t <= nextNode t')%nat;
  frame_records : forall r, r ∈ m_top (m_openElements t') ->
    r ∈ m_top (m_openElements t) \/ (formattingItem (m_item r) /\ (nextNode t <= nodeId (nodeOf r))%nat);
  frame_items : forall i, i ∈ itemsOf (m_activeFormattingElements t') ->
    i ∈ itemsOf (m_activeFormattingElements t) \/ (nextNode t <= itemId i)%nat
}.

Lemma frame_refl t : frame t t.
Proof. constructor; try done; by left. Qed.

Lemma frame_trans t1 t2 t3 : frame t1 t2 -> frame t2 t3 -> frame t1 t3.
Proof.
  intros [A1 A2 A3 A4 A5] [B1 B2 B3 B4 B5]. constructor; [congruence|congruence|lia|..].
  - intros r Hr. destruct (B4 r Hr) as [Hr'|[Hf Hn]]; [by apply A4|]. right. split; [done|lia].
  - intros i Hi. destruct (B5 i Hi) as [Hi'|Hn]; [by apply A5|]. right. lia.
Qed.

Lemma frame_foster t t' : frame t t' -> fosterReady t -> fosterReady t'.
Proof.
  intros [H1 H2 _ H4 _] Hf. apply (fosterReady_step t); [done|unfold fixedParts in H1; congruence|done|].
  intros r Hr. destruct (H4 r Hr) as [|[? _]]; [by left|by right].
Qed.

(** ** Implied end tags *)

Lemma implied_plain item : wellFormed item -> hasImpliedEndTag item = true -> plainItem item.
Proof.
  intros Hw H. unfold hasImpliedEndTag, isHTMLOptionElement, isHTMLOptGroupElement in H. rewrite !node_hasTagName_item in H by done.
  assert (Hn : exists n, n ∈ map htmlName ["dd"; "dt"; "li"; "option"; "optgroup"; "p"; "rb"; "rp"; "rt"; "rtc"]%string /\ hasTagName item n = true).
  { unfold hasOneOf in H. cbn in H. rewrite !orb_true_iff in H. destruct H as [[[H|H]|H]|H]; repeat destruct H as [H|H]; try done;
      (eexists; split; [|exact H]); apply (bool_decide_eq_true_1 _); by vm_compute. }
  destruct Hn as (n & Hin & Hn). apply (tag_plain item n Hw Hn); intros ->; revert Hin; apply (bool_decide_eq_false_1 _); by vm_compute.
Qed.

(** The loop pops the elements whose end tag is implied, down to the first other one. *)
Lemma implied_ok (ex : HTMLStackItem -> bool) s : inv s -> m_top s <> [] ->
  clearsTo (fun item => negb (hasImpliedEndTag item) || ex item) (popWhile (fun item => Some (negb (hasImpliedEndTag item) || ex item))) s.
Proof.
  intros H Hne. pose proof (inv_items s H) as Hw. rewrite list.Forall_forall in Hw. apply clears_marker; [done|done|].
  destruct (List.find (fun r => negb (hasImpliedEndTag (m_item r)) || ex (m_item r)) (m_top s)) as [r|] eqn:Ef.
  - destruct (find_split _ _ _ Ef) as (above & below & E & Hr & Ha). exists above, r, below. split_and!; [done|done|].
    rewrite list.Forall_forall in Ha |- *. intros x Hx. apply implied_plain; [apply Hw; rewrite E; apply elem_of_app; by left|].
    specialize (Ha x Hx). cbn in Ha. apply orb_false_iff in Ha as [Ha _]. by apply negb_false_iff in Ha.
  - exfalso. apply find_none_forall in Ef. rewrite list.Forall_forall in Ef. destruct (inv_root s H Hne) as (r & Hin & Hr & Hwr).
    specialize (Ef r Hin). cbn in Ef. apply orb_false_iff in Ef as [Ef _]. apply negb_false_iff in Ef. apply implied_plain in Ef; [|done].
    apply plain_not_root in Ef. congruence.
Qed.

End Site.

(** ** Reconstruction *)

(** An entry that ends the search for unopened elements. *)
Definition settled (s : HTMLElementStack) (e : HTMLFormattingElementList.Entry) : Prop :=
  match e with None => True | Some i => containsNode s (m_node i) = true end.

(** The entries [again] at the end of the list are to be reconstructed. *)
Definition unopened (s : HTMLElementStack) (l keep : list HTMLFormattingElementList.Entry) (again : list HTMLStackItem) : Prop :=
  l = keep ++ map Some again /\ Forall (fun i => containsNode s (m_node i) = false) again /\
  (keep = [] \/ exists p e, keep = p ++ [e] /\ settled s e).

Lemma unopened_exists s l : exists keep again, unopened s l keep again.
Proof.
  induction l as [|e l IH] using rev_ind; [exists [], []; split_and!; [done|constructor|by left]|].
  assert (Hend : settled s e -> exists keep again, unopened s (l ++ [e]) keep again).
  { intros He. exists (l ++ [e]), []. split_and!; [by rewrite app_nil_r|constructor|]. right. by exists l, e. }
  destruct e as [i|]; [|by apply Hend]. destruct (containsNode s (m_node i)) eqn:E; [by apply Hend|].
  destruct IH as (keep & again & -> & Ha & Hk). exists keep, (again ++ [i]). split_and!; [by rewrite map_app, app_assoc| |done].
  apply List.Forall_app. split; [done|]. by constructor.
Qed.

Lemma firstUnopenLoop_ok s l keep again j : unopened s l keep again -> Forall goodItem (itemsOf l) -> (j <= length again)%nat ->
  firstUnopenLoop s l (length keep + j) =
  Some (if decide (keep = []) then Some O else if (length keep <? length l)%nat then Some (length keep) else None).
Proof.
  intros (El & Ha & Hk) Hg. induction j as [|j IH]; intros Hj.
  - rewrite Nat.add_0_r. destruct Hk as [->|(p & e & -> & He)]; [done|]. rewrite decide_False by (by destruct p).
    rewrite length_app. cbn [length]. rewrite Nat.add_1_r. cbn [firstUnopenLoop].
    assert (Hl : l !! length p = Some e) by (rewrite El, <- app_assoc; by apply list_lookup_middle). rewrite Hl.
    destruct e as [i|]; [|done]. rewrite goodItem_element; [by rewrite He|].
    apply (proj1 (list.Forall_forall _ _) Hg). apply list_elem_of_omap. exists (Some i). split; [by apply list_elem_of_lookup_2 in Hl|done].
  - rewrite Nat.add_succ_r. cbn [firstUnopenLoop]. destruct (lookup_lt_is_Some_2 again j ltac:(lia)) as [i Hi].
    assert (Hl : l !! (length keep + j)%nat = Some (Some i)).
    { rewrite El, lookup_app_r by lia. replace (length keep + j - length keep)%nat with j by lia.
      change (map Some again) with (Some <$> again). by rewrite list_lookup_fmap, Hi. }
    rewrite Hl. rewrite goodItem_element.
    + rewrite (proj1 (list.Forall_forall _ _) Ha i) by (by apply list_elem_of_lookup_2 in Hi). rewrite IH by lia. done.
    + apply (proj1 (list.Forall_forall _ _) Hg). apply list_elem_of_omap. exists (Some i). split; [by apply list_elem_of_lookup_2 in Hl|done].
Qed.

Section Reconstruction.
Context {dom : DOM}.

(** Formatting elements are not plug-ins. *)
Hypothesis noPlugin : forall i, formattingItem i -> isPluginElement (m_node i) = false.

Lemma siteInv_enqueue q t : siteInv (enqueue q t) <-> siteInv t.
Proof. done. Qed.

(** Pushing a new formatting item. *)
Lemma push_new_ok new t : siteInv t -> formattingItem new -> freshNode (m_node new) (m_openElements t) ->
  exists s', push new (m_openElements t) = Some s' /\ inv s' /\ m_rootNode s' = m_rootNode (m_openElements t) /\
    m_top s' = mkRecord (nextRecord (m_openElements t)) new :: m_top (m_openElements t).
Proof.
  intros Ht Hf Hn. pose proof (core_stack _ _ _ Ht) as H. pose proof (core_nonempty _ _ _ Ht) as Hne.
  assert (E : exists s', push new (m_openElements t) = Some s' /\ m_rootNode s' = m_rootNode (m_openElements t) /\
    m_top s' = mkRecord (nextRecord (m_openElements t)) new :: m_top (m_openElements t)).
  { unfold push, pushCommon. rewrite (proj2 (formatting_plain new Hf)), (inv_hasRoot _ H Hne). by eexists. }
  destruct E as (s' & E & E2 & E3). exists s'. split_and!; try done. apply (push_inv new (m_openElements t)); try done.
  - split; [apply Hf|done].
  - unfold isElementNode. by rewrite (proj1 (formatting_plain new Hf)).
Qed.

Lemma fresh_new t n : siteInv t -> nodeId n = nextNode t -> freshNode n (m_openElements t).
Proof.
  intros Ht E Hin. apply list_elem_of_fmap in Hin as (r & Er & Hr). pose proof (core_fresh_stack _ _ _ Ht) as Hf.
  rewrite list.Forall_forall in Hf. specialize (Hf r Hr). cbn in Hf. lia.
Qed.

(** What reconstruction does besides replacing entries: the new elements are above the
    records there were, a task inserts each of them, their nodes are new, and everything
    else is as it was. *)
Record rebuilt (created : list HTMLStackItem) (t t' : HTMLConstructionSite) : Prop := mkRebuilt {
  rebuilt_fixed : fixedParts t' = fixedParts t;
  rebuilt_records : exists above, m_top (m_openElements t') = above ++ m_top (m_openElements t) /\ map m_item above = rev created;
  rebuilt_elements : m_rootNode (m_openElements t') = m_rootNode (m_openElements t) /\ m_headElement (m_openElements t') = m_headElement (m_openElements t) /\ m_bodyElement (m_openElements t') = m_bodyElement (m_openElements t);
  rebuilt_calls : calls (m_openElements t') = calls (m_openElements t);
  rebuilt_tasks : exists tasks, m_taskQueue t' = m_taskQueue t ++ tasks /\ Forall2 (fun q i => inserts q (m_node i)) tasks created;
  rebuilt_nodes : map itemId created = seq (nextNode t) (length created) /\ nextNode t' = (nextNode t + length created)%nat
}.

Lemma rebuilt_none t : rebuilt [] t t.
Proof. constructor; [done|by exists []|done|done|exists []; by rewrite app_nil_r|by cbn; rewrite Nat.add_0_r]. Qed.

Lemma rebuilt_one new q s' r t : push new (m_openElements t) = Some s' -> m_top s' = r :: m_top (m_openElements t) -> m_item r = new -> itemId new = nextNode t -> inserts q (m_node new) ->
  forall l, rebuilt [new] t (set_active l (set_open s' (enqueue q (set_nextNode (S (nextNode t)) t)))).
Proof.
  intros Ep Et Hr Hid Hq l. assert (Hk : m_rootNode s' = m_rootNode (m_openElements t) /\ m_headElement s' = m_headElement (m_openElements t) /\ m_bodyElement s' = m_bodyElement (m_openElements t) /\ calls s' = calls (m_openElements t)).
  { unfold push, pushCommon in Ep. destruct (isPlain new); [|done]. destruct (bool_decide _); [|done]. by injection Ep as <-. }
  destruct Hk as (K1 & K2 & K3 & K4). constructor; cbn; try done.
  - exists [r]. rewrite Et. by split; [|cbn; rewrite Hr].
  - exists [q]. split; [done|]. by constructor.
  - split; [by rewrite Hid|lia].
Qed.

Lemma rebuilt_trans l1 l2 t1 t2 t3 : rebuilt l1 t1 t2 -> rebuilt l2 t2 t3 -> rebuilt (l1 ++ l2) t1 t3.
Proof.
  intros [A1 (a & A2 & A3) (A4 & A5 & A6) A7 (qa & A8 & A9) (A10 & A11)] [B1 (b & B2 & B3) (B4 & B5 & B6) B7 (qb & B8 & B9) (B10 & B11)]. constructor.
  - congruence.
  - exists (b ++ a). split; [by rewrite B2, A2, app_assoc|by rewrite map_app, B3, A3, rev_app_distr].
  - split_and!; congruence.
  - congruence.
  - exists (qa ++ qb). split; [by rewrite B8, A8, app_assoc|by apply Forall2_app].
  - rewrite map_app, A10, B10, B11, A11, length_app, seq_app. split; [done|lia].
Qed.

Lemma reconstructLoop_ok again : forall keep t, m_activeFormattingElements t = keep ++ map Some again -> siteInv t -> fosterReady t ->
  exists t' created, reconstructLoop (length again) (length keep) t = Some t' /\ siteInv t' /\ frame t t' /\
    m_activeFormattingElements t' = keep ++ map Some created /\ Forall2 (recreated (m_parserContentPolicy t)) again created /\
    map m_item (m_top (m_openElements t')) = rev created ++ map m_item (m_top (m_openElements t)) /\ rebuilt created t t'.
Proof.
  induction again as [|i again IH]; intros keep t El Ht Hf.
  { exists t, []. cbn. split_and!; try done; [apply frame_refl|apply rebuilt_none]. }
  cbn [map] in El. cbn [length reconstructLoop]. rewrite El, list_lookup_middle by done.
  assert (Hin : i ∈ itemsOf (m_activeFormattingElements t)).
  { rewrite El, itemsOf_app. apply elem_of_app. right. cbn. left. }
  assert (Hg : goodItem i) by (apply (proj1 (list.Forall_forall _ _) (proj1 (core_list _ _ _ Ht))); done).
  assert (Hfi : formattingItem i) by (apply (proj1 (list.Forall_forall _ _) (core_items _ _ _ Ht)); done).
  destruct (createFromSaved_ok i t Ht Hg Hfi) as (new & -> & Hgn & Hfn & Hid & Hel & Hn).
  set (t1 := set_nextNode (S (nextNode t)) t).
  assert (Ht1 : siteInv t1) by (apply (core_mono _ _ (nextNode t)); [done|cbn; lia]).
  destruct (currentNode t1) as [p|] eqn:Ec.
  2: { exfalso. unfold currentNode, topNode, topStackItem, topRecord in Ec. pose proof (core_nonempty _ _ _ Ht). cbn in Ec. by destruct (m_top (m_openElements t)). }
  destruct (attachLater_ok p (m_node new) t1 Ht1 Hf) as (q & -> & Hq); [by apply formatting_noScript|by apply noPlugin|].
  destruct (push_new_ok new t Ht Hfn (fresh_new t (m_node new) Ht Hid)) as (s' & Ep & Hi & Er & Et).
  change (m_openElements (enqueue q t1)) with (m_openElements t). rewrite Ep.
  change (m_activeFormattingElements (set_open s' (enqueue q t1))) with (m_activeFormattingElements t).
  set (l' := HTMLFormattingElementList.replaceEntry (length keep) new (m_activeFormattingElements t)).
  assert (El' : l' = (keep ++ [Some new]) ++ map Some again).
  { unfold l', HTMLFormattingElementList.replaceEntry. rewrite El. rewrite insert_app_r_alt, Nat.sub_diag by lia. cbn. by rewrite <- app_assoc. }
  destruct (replaceEntry_items (m_activeFormattingElements t) (length keep) i new) as (rest & Hp1 & Hp2).
  { rewrite El. by apply list_lookup_middle. }
  assert (Hfr : frame t (set_active l' (set_open s' (enqueue q t1)))).
  { constructor; [done|done|cbn; lia|..]; cbn.
    - intros r. rewrite Et. intros Hr. apply elem_of_cons in Hr as [->|Hr]; [right|by left]. split; [done|]. unfold nodeOf. cbn. unfold itemId in Hid. lia.
    - intros x Hx. fold l' in Hp2. rewrite Hp2 in Hx. apply elem_of_cons in Hx as [->|Hx]; [right; lia|left]. rewrite Hp1. by right. }
  destruct (IH (keep ++ [Some new]) (set_active l' (set_open s' (enqueue q t1)))) as (t' & created & E1 & Ht' & Hf' & E2 & E3 & E4 & E5).
  - exact El'.
  - apply (core_new (m_openElements t) (m_activeFormattingElements t) (nextNode t) s' l' i new rest); try done.
    + by rewrite Et.
    + intros r. rewrite Et. intros Hr. apply elem_of_cons in Hr as [->|Hr]; [by right|by left].
  - by apply (frame_foster t).
  - exists t', (new :: created). rewrite length_app in E1. cbn [length] in E1. rewrite Nat.add_1_r in E1. split_and!; try done.
    + by apply (frame_trans t _ _ Hfr).
    + rewrite E2. by rewrite <- app_assoc.
    + constructor; [done|done].
    + rewrite E4. cbn. rewrite Et. cbn. by rewrite <- app_assoc.
    + exact (rebuilt_trans [new] created _ _ _ (rebuilt_one new q s' _ t Ep Et eq_refl Hid Hq l') E5).
Qed.

(** A new item is added to both. *)
Lemma core_add s l k s' new : core s l k -> inv s' -> (forall r, r ∈ m_top s' -> r ∈ m_top s \/ m_item r = new) -> m_top s' <> [] ->
  goodItem new -> formattingItem new -> itemId new = k -> core s' (l ++ [Some new]) (S k).
Proof.
  intros Hc Hi Hs Hne Hg Hf Hk. pose proof Hc as [H1 H2 H3 H4 H5 H6 H7].
  assert (Hc' : core s (l ++ [Some new]) (S k) -> core s' (l ++ [Some new]) (S k)).
  { intros [_ _ G3 G4 G5 G6 G7]. constructor; try done.
    - rewrite list.Forall_forall in G5 |- *. intros r Hr. destruct (Hs r Hr) as [Hr'|Hr']; [by apply G5|]. unfold nodeOf. rewrite Hr'. unfold itemId in Hk. lia.
    - intros r i Hr Hin E. destruct (Hs r Hr) as [Hr'|Hr']; [by apply G7|]. rewrite Hr'. rewrite itemsOf_app in Hin.
      apply elem_of_app in Hin as [Hin|Hin]; [|by apply list_elem_of_singleton in Hin].
      rewrite list.Forall_forall in H6. specialize (H6 i Hin). cbn in H6. unfold nodeOf in E. rewrite Hr' in E. unfold itemId in *. lia. }
  apply Hc'. constructor; try done.
  - destruct H3 as [Hg1 Hg2]. split; rewrite itemsOf_app; [apply List.Forall_app; split; [done|by constructor]|].
    rewrite map_app, Permutation_app_comm. cbn. apply list.NoDup_cons. split; [|done]. intros Hin. apply list_elem_of_fmap in Hin as (x & Ex & Hx).
    rewrite list.Forall_forall in H6. specialize (H6 x Hx). cbn in H6. lia.
  - rewrite itemsOf_app. apply List.Forall_app. split; [done|by constructor].
  - eapply List.Forall_impl; [|exact H5]. cbn. lia.
  - rewrite itemsOf_app. apply List.Forall_app. split; [eapply List.Forall_impl; [|exact H6]; cbn; lia|]. constructor; [lia|constructor].
  - intros r i Hr Hin E. rewrite itemsOf_app in Hin. apply elem_of_app in Hin as [Hin|Hin]; [by apply H7|].
    apply list_elem_of_singleton in Hin as ->. rewrite list.Forall_forall in H5. specialize (H5 r Hr). cbn in H5. lia.
Qed.

(** An item for a token with a formatting name. *)
Lemma createFormatting_ok token t : siteInv t -> mkName (tokenName token) (Some xhtmlNamespaceURI) ∈ formattingNames ->
  NoDup (map attributeName (tokenAttributes token)) ->
  exists new, createHTMLElement token t = Some (new, set_nextNode (S (nextNode t)) t) /\ goodItem new /\ formattingItem new /\ itemId new = nextNode t.
Proof.
  intros Ht Hname Hd. set (fake := mkItem (mkNode 0 (mkName (tokenName token) (Some xhtmlNamespaceURI)) true) (Some (tokenName token))
    (tokenAttributes token) (Some xhtmlNamespaceURI) false).
  assert (Hff : formattingItem fake).
  { split; [done|]. split; [done|]. apply existsb_exists. exists (mkName (tokenName token) (Some xhtmlNamespaceURI)). split; [by apply list_elem_of_In|]. by apply hasTagName_eq. }
  assert (Hgf : goodItem fake) by (split; [done|split; [by eexists|done]]).
  destruct (createFromSaved_ok fake t Ht Hgf Hff) as (new & E & Hg & Hf & Hid & _). exists new. split_and!; try done.
Qed.

(** Inserting a formatting element. *)
Lemma insertFormatting_ok token t : siteInv t -> fosterReady t ->
  mkName (tokenName token) (Some xhtmlNamespaceURI) ∈ formattingNames -> NoDup (map attributeName (tokenAttributes token)) ->
  exists t' new l, insertFormattingElement token t = Some t' /\ siteInv t' /\ frame t t' /\
    map m_item (m_top (m_openElements t')) = new :: map m_item (m_top (m_openElements t)) /\
    m_activeFormattingElements t' = l ++ [Some new] /\ m_tokenLocalName new = Some (tokenName token) /\
    (forall i, i ∈ itemsOf l -> i ∈ itemsOf (m_activeFormattingElements t)).
Proof.
  intros Ht Hf Hname Hd. unfold insertFormattingElement, insertHTMLElement.
  destruct (createFormatting_ok token t Ht Hname Hd) as (new & Ec & Hgn & Hfn & Hid). rewrite Ec.
  assert (Hn : m_tokenLocalName new = Some (tokenName token)).
  { unfold createHTMLElement, createElement in Ec. destruct (currentNode t); [|done]. by injection Ec as <-. }
  set (t1 := set_nextNode (S (nextNode t)) t).
  assert (Ht1 : siteInv t1) by (apply (core_mono _ _ (nextNode t)); [done|cbn; lia]).
  destruct (currentNode t1) as [p|] eqn:Ecn.
  2: { exfalso. unfold currentNode, topNode, topStackItem, topRecord in Ecn. pose proof (core_nonempty _ _ _ Ht). cbn in Ecn. by destruct (m_top (m_openElements t)). }
  destruct (attachLater_ok p (m_node new) t1 Ht1 Hf) as (q & -> & Hq); [by apply formatting_noScript|by apply noPlugin|].
  destruct (push_new_ok new t Ht Hfn (fresh_new t (m_node new) Ht Hid)) as (s' & Ep & Hi & Er & Et).
  change (m_openElements (enqueue q t1)) with (m_openElements t). rewrite Ep. unfold currentStackItem, topStackItem, topRecord. cbn [set_open m_openElements].
  rewrite Et. cbn [head fmap option_fmap option_map m_item]. change (m_activeFormattingElements (set_open s' (enqueue q t1))) with (m_activeFormattingElements t).
  destruct (lastSegment_exists (m_activeFormattingElements t)) as (pre & seg & Hseg). unfold HTMLFormattingElementList.append.
  rewrite (ensure_ok new _ pre seg Hgn (core_list _ _ _ Ht) Hseg). set (l := others _ _).
  assert (Hsub : forall i, i ∈ itemsOf l -> i ∈ itemsOf (m_activeFormattingElements t)).
  { intros i Hin. apply list_elem_of_omap in Hin as (e & He & Hx). apply list_elem_of_filter in He as [_ He]. apply list_elem_of_omap. by exists e. }
  eexists _, new, l. split; [reflexivity|]. split_and!; [| |cbn [set_active set_open m_openElements]; by rewrite Et|done|done|done].
  2: { constructor; [done|done|cbn; lia|..]; cbn.
    - intros r. rewrite Et. intros Hr. apply elem_of_cons in Hr as [->|Hr]; [right|by left]. split; [done|]. unfold nodeOf. cbn. unfold itemId in Hid. lia.
    - intros x Hx. rewrite itemsOf_app in Hx. apply elem_of_app in Hx as [Hx|Hx]; [left; by apply Hsub|]. apply list_elem_of_singleton in Hx as ->. right. lia. }
  apply (core_add (m_openElements t) l (nextNode t) s' new); try done; [|intros r; rewrite Et; intros Hr; apply elem_of_cons in Hr as [->|Hr]; [by right|by left]|by rewrite Et].
  apply (core_shrink (m_openElements t) (m_activeFormattingElements t)); try done; [apply Ht|apply Ht|by apply good_filter, (core_list _ _ _ Ht)].
Qed.

(** Inserting a formatting element succeeds; its item is then on
    top of the stack and at the end of the list, nothing else changes on the stack, and
    the invariant is kept. *)
Theorem insert_formatting token t : siteInv t -> fosterReady t ->
  mkName (tokenName token) (Some xhtmlNamespaceURI) ∈ formattingNames -> NoDup (map attributeName (tokenAttributes token)) ->
  exists t' new l, insertFormattingElement token t = Some t' /\ siteInv t' /\
    map m_item (m_top (m_openElements t')) = new :: map m_item (m_top (m_openElements t)) /\
    m_activeFormattingElements t' = l ++ [Some new] /\ m_tokenLocalName new = Some (tokenName token) /\
    (forall i, i ∈ itemsOf l -> i ∈ itemsOf (m_activeFormattingElements t)).
Proof.
  intros Ht Hf Hname Hd. destruct (insertFormatting_ok token t Ht Hf Hname Hd) as (t' & new & l & E & Hi & _ & Hrest). by exists t', new, l.
Qed.

(** Reconstruction. *)
Lemma reconstruct_ok t : siteInv t -> fosterReady t ->
  exists t' keep again created, unopened (m_openElements t) (m_activeFormattingElements t) keep again /\
    reconstructTheActiveFormattingElements t = Some t' /\ siteInv t' /\ frame t t' /\
    m_activeFormattingElements t' = keep ++ map Some created /\ Forall2 (recreated (m_parserContentPolicy t)) again created /\
    map m_item (m_top (m_openElements t')) = rev created ++ map m_item (m_top (m_openElements t)) /\ rebuilt created t t'.
Proof.
  intros Ht Hf. destruct (unopened_exists (m_openElements t) (m_activeFormattingElements t)) as (keep & again & Hu).
  pose proof Hu as (El & Ha & Hk). pose proof (proj1 (core_list _ _ _ Ht)) as Hg.
  pose proof (firstUnopenLoop_ok _ _ _ _ (length again) Hu Hg ltac:(lia)) as Hloop.
  replace (length keep + length again)%nat with (length (m_activeFormattingElements t)) in Hloop by (by rewrite El, length_app, length_map).
  unfold reconstructTheActiveFormattingElements, indexOfFirstUnopenFormattingElement. rewrite Hloop.
  destruct again as [|i again].
  - rewrite app_nil_r in El. exists t, keep, [], []. split_and!; try done; [|apply frame_refl| |apply rebuilt_none].
    + rewrite El. destruct (decide (keep = [])) as [->|Hne]; [done|]. rewrite Nat.ltb_irrefl. by destruct (_ =? 0)%nat.
    + by rewrite app_nil_r.
  - destruct (reconstructLoop_ok (i :: again) keep t El Ht Hf) as (t' & created & E1 & Ht' & Hfr & E2 & E3 & E4 & E5).
    exists t', keep, (i :: again), created. split_and!; try done.
    assert (Hlen : (length (m_activeFormattingElements t) = length keep + S (length again))%nat).
    { rewrite El, length_app, length_map. done. }
    destruct (Nat.eqb_spec (length (m_activeFormattingElements t)) 0) as [H0|_]; [lia|].
    assert (Hfirst : (if decide (keep = []) then Some O else if (length keep <? length (m_activeFormattingElements t))%nat
      then Some (length keep) else None) = Some (length keep)).
    { destruct (decide (keep = [])) as [->|_]; [done|]. destruct (Nat.ltb_spec (length keep) (length (m_activeFormattingElements t))); [done|lia]. }
    rewrite Hfirst. destruct (Nat.ltb_spec (length keep) (length (m_activeFormattingElements t))); [|lia].
    replace (length (m_activeFormattingElements t) - length keep)%nat with (length (i :: again)) by (cbn; lia). done.
Qed.

(** C23: in a site that satisfies the invariant, with foster parents available
    ([fosterReady]: when the root is a document fragment, every open table has a suitable
    parent) and formatting elements that are not plug-ins, reconstructing the active
    formatting elements succeeds: the entries behind the last one that is a marker or open
    are replaced by new items with the same names and attributes (less the scripting
    attributes where scripts are not allowed), pushed onto the stack in their order, with
    new nodes and a task each that inserts them; the other entries and records, the
    remembered elements and the members of the site do not change ([rebuilt]), and the
    invariant is kept. *)
Theorem reconstruct_correct t : siteInv t -> fosterReady t ->
  exists t' keep again created, unopened (m_openElements t) (m_activeFormattingElements t) keep again /\
    reconstructTheActiveFormattingElements t = Some t' /\ siteInv t' /\
    m_activeFormattingElements t' = keep ++ map Some created /\ Forall2 (recreated (m_parserContentPolicy t)) again created /\
    rebuilt created t t'.
Proof.
  intros Ht Hf. destruct (reconstruct_ok t Ht Hf) as (t' & keep & again & created & Hu & E & Hi & _ & El & Hr & _ & Hb). by exists t', keep, again, created.
Qed.

End Reconstruction.

Lemma popWhile_ext f g s : (forall i, f i = g i) -> popWhile f s = popWhile g s.
Proof.
  intros H. unfold popWhile. generalize (S (length (m_top s))) as n. intros n. revert s. induction n as [|n IH]; intros s; [done|]. cbn [popLoop].
  destruct (topStackItem s) as [i|]; [|done]. rewrite H. destruct (g i) as [[|]|]; [done| |done]. destruct (pop s) as [s'|]; [apply IH|done].
Qed.

(** Generating implied end tags pops exactly the elements on top of
    the stack whose end tag is implied, down to the first other one (or the first with
    the excluded name), and never the root, head or body. *)
Theorem implied_end_tags name t : siteInv t ->
  clearsTo (fun item => negb (hasImpliedEndTag item)) (fun s => m_openElements <$> generateImpliedEndTags (set_open s t)) (m_openElements t) /\
  clearsTo (fun item => negb (hasImpliedEndTag item) || matchesHTMLTag item name)
    (fun s => m_openElements <$> generateImpliedEndTagsWithExclusion name (set_open s t)) (m_openElements t).
Proof.
  intros Ht. pose proof (core_stack _ _ _ Ht) as H. pose proof (core_nonempty _ _ _ Ht) as Hne. split.
  - destruct (implied_ok (fun _ => false) _ H Hne) as (above & r & below & E & Hr & Ha & Ep & Hi). exists above, r, below.
    rewrite orb_false_r in Hr. split_and!; try done.
    + eapply List.Forall_impl; [|exact Ha]. intros x Hx. cbn in Hx. by rewrite orb_false_r in Hx.
    + unfold generateImpliedEndTags. cbn [set_open m_openElements].
      rewrite (popWhile_ext _ (fun item => Some (negb (hasImpliedEndTag item) || false))) by (intros; by rewrite orb_false_r). by rewrite Ep.
  - destruct (implied_ok (fun item => matchesHTMLTag item name) _ H Hne) as (above & r & below & E & Hr & Ha & Ep & Hi). exists above, r, below.
    split_and!; try done. unfold generateImpliedEndTagsWithExclusion. cbn [set_open m_openElements]. by rewrite Ep.
Qed.

(** ** An example: html, body, b and a list with b and i *)

Definition exampleDOM : DOM := mkDOM (fun _ => None) (fun _ => false) (fun _ => false) (fun _ _ => false).

Definition exampleOpen : HTMLElementStack :=
  mkStack [mkRecord 2 (exampleItem 2 "b"); mkRecord 1 (exampleItem 1 "body"); mkRecord 0 (exampleItem 0 "html")]
    (Some (m_node (exampleItem 0 "html"))) None (Some (m_node (exampleItem 1 "body"))) 3 3 [].

Definition exampleSite : HTMLConstructionSite :=
  mkSite (mkNode 9 (mkName (lit "#document") None) false) None None exampleOpen [None; Some (exampleItem 2 "b"); Some (exampleItem 5 "i")] []
    AllowScriptingContent false false 512 10.

Lemma exampleSite_inv : siteInv exampleSite.
Proof.
  constructor.
  - constructor.
    + cbn. apply shaped_plain; [by apply exampleItem_plain|].
      by apply (shaped_body (mkRecord 1 (exampleItem 1 "body")) (mkRecord 0 (exampleItem 0 "html"))).
    + repeat constructor.
    + apply (bool_decide_eq_true_1 _). by vm_compute.
    + apply (bool_decide_eq_true_1 _). by vm_compute.
    + repeat constructor.
    + reflexivity.
  - done.
  - split; [|apply (bool_decide_eq_true_1 _); by vm_compute].
    repeat (apply List.Forall_cons; [split; [done|split; [by eexists|constructor]]|]). constructor.
  - repeat (apply List.Forall_cons; [split; [done|split; [done|by vm_compute]]|]). constructor.
  - cbn. repeat (apply List.Forall_cons; [cbn; lia|]). constructor.
  - cbn. repeat (apply List.Forall_cons; [cbn; lia|]). constructor.
  - intros r i Hr Hi. cbn in Hr, Hi. rewrite !elem_of_cons in Hr. rewrite !elem_of_cons in Hi.
    destruct Hr as [->|[->|[->|Hr]]], Hi as [->|[->|Hi]]; try done; try (by apply not_elem_of_nil in Hr); by apply not_elem_of_nil in Hi.
Qed.

Lemma exampleSite_foster : @fosterReady exampleDOM exampleSite.
Proof.
  intros (root & Hr & Hf). exfalso. cbn in Hr. rewrite !elem_of_cons in Hr.
  destruct Hr as [->|[->|[->|Hr]]]; try done. by apply not_elem_of_nil in Hr.
Qed.

Lemma insert_formatting_witness :
  exists t' new l, @insertFormattingElement exampleDOM (mkToken (lit "u") [] false) exampleSite = Some t' /\ siteInv t' /\
    map m_item (m_top (m_openElements t')) = new :: map m_item (m_top (m_openElements exampleSite)) /\
    m_activeFormattingElements t' = l ++ [Some new] /\ m_tokenLocalName new = Some (lit "u") /\
    (forall i, i ∈ itemsOf l -> i ∈ itemsOf (m_activeFormattingElements exampleSite)).
Proof.
  apply (@insert_formatting exampleDOM ltac:(done) (mkToken (lit "u") [] false) exampleSite exampleSite_inv exampleSite_foster);
    [apply (bool_decide_eq_true_1 _); by vm_compute|constructor].
Defined.

Lemma reconstruct_correct_witness :
  exists t' keep again created, unopened (m_openElements exampleSite) (m_activeFormattingElements exampleSite) keep again /\
    @reconstructTheActiveFormattingElements exampleDOM exampleSite = Some t' /\ siteInv t' /\
    m_activeFormattingElements t' = keep ++ map Some created /\ Forall2 (recreated (dom := exampleDOM) AllowScriptingContent) again created /\
    rebuilt created exampleSite t'.
Proof. apply (@reconstruct_correct exampleDOM ltac:(done) exampleSite exampleSite_inv exampleSite_foster). Defined.

Lemma implied_end_tags_witness :
  clearsTo (fun item => negb (hasImpliedEndTag item)) (fun s => m_openElements <$> generateImpliedEndTags (set_open s exampleSite)) exampleOpen.
Proof. apply (implied_end_tags (lit "p") exampleSite exampleSite_inv). Defined.
