(* ===== verification/AdoptionAgency.v ===== *)
(** * End tags in the body: html/parser/HTMLTreeBuilder.cpp

    [callTheAdoptionAgency], which repairs misnested formatting elements, and
    [processAnyOtherEndTagForInBody].  Pointers to records of the stack are kept as
    records and dereferenced by their identity, because the item of a record is
    replaced on the way. *)
From S2P Require Import Prelude HTMLStackItem HTMLElementStack HTMLFormattingElementList HTMLConstructionSite.
From Stdlib Require Import String ZArith Lia.
From stdpp Require Import base list numbers option.
#[local] Open Scope Z_scope.
Import HTMLStackItem HTMLElementStack HTMLConstructionSite.

Module AdoptionAgency.

Definition outerIterationLimit : nat := 8.
Definition innerIterationLimit : nat := 3.

(** What a pointer to a record points to. *)
Definition deref (t : HTMLConstructionSite) (r : ElementRecord) : option ElementRecord :=
  List.find (fun x => recordId x =? recordId r)%nat (m_top (m_openElements t)).

Definition nodeAt (t : HTMLConstructionSite) (r : ElementRecord) : option ContainerNode :=
  match deref t r with None => None | Some r => Some (m_node (m_item r)) end.

Definition elementAt (t : HTMLConstructionSite) (r : ElementRecord) : option ContainerNode :=
  match deref t r with None => None | Some r => element (m_item r) end.

Definition sameRecord (a b : ElementRecord) : bool := (recordId a =? recordId b)%nat.

Section Agency.
Context {dom : DOM}.

(** The search of [processAnyOtherEndTagForInBody], from a record down. *)
Fixpoint anyOtherLoop (name : AtomicString) (t : HTMLConstructionSite) (l : list ElementRecord) : option HTMLConstructionSite :=
  match l with
  | [] => None
  | record :: l =>
      let item := m_item record in
      if matchesHTMLTag item name then
        match generateImpliedEndTagsWithExclusion name t, element item with
        | Some t, Some e =>
            match popUntilElementPopped e (m_openElements t) with None => None | Some s => Some (set_open s t) end
        | _, _ => None
        end
      else if isSpecialNode item then Some t
      else anyOtherLoop name t l
  end.

Definition processAnyOtherEndTagForInBody (name : AtomicString) (t : HTMLConstructionSite) : option HTMLConstructionSite :=
  anyOtherLoop name t (m_top (m_openElements t)).

(** Step 9 of the algorithm: the records below [nextNode], [n] rounds of them. *)
Fixpoint innerLoop (n : nat) (formattingElementRecord furthestBlock : ElementRecord) (nextNode : option ElementRecord)
  (lastNode : ElementRecord) (bookmark : HTMLFormattingElementList.Bookmark) (t : HTMLConstructionSite)
  : option (ElementRecord * HTMLFormattingElementList.Bookmark * HTMLConstructionSite) :=
  match n with
  | O => Some (lastNode, bookmark, t)
  | S n =>
      match nextNode with
      | None => None
      | Some node =>
          let nextNode := next (m_openElements t) node in
          match elementAt t node with
          | None => None
          | Some e =>
              match HTMLFormattingElementList.contains e (m_activeFormattingElements t) with
              | None => None
              | Some false =>
                  match remove e (m_openElements t) with
                  | None => None
                  | Some s => innerLoop n formattingElementRecord furthestBlock nextNode lastNode bookmark (set_open s t)
                  end
              | Some true =>
                  if sameRecord node formattingElementRecord then Some (lastNode, bookmark, t)
                  else
                    match (match deref t node with None => None | Some r => createElementFromSavedToken (m_item r) t end) with
                    | None => None
                    | Some (newItem, t) =>
                        match HTMLFormattingElementList.find e (m_activeFormattingElements t), replaceElement node newItem (m_openElements t) with
                        | Some (Some nodeEntry), Some s =>
                            let t := set_open s (set_active (HTMLFormattingElementList.replaceEntry nodeEntry newItem (m_activeFormattingElements t)) t) in
                            let bookmark := if sameRecord lastNode furthestBlock
                                            then HTMLFormattingElementList.moveToAfter nodeEntry bookmark else bookmark in
                            match nodeAt t node, elementAt t lastNode with
                            | Some p, Some c =>
                                innerLoop n formattingElementRecord furthestBlock nextNode node bookmark (reparent p c t)
                            | _, _ => None
                            end
                        | _, _ => None
                        end
                    end
              end
          end
      end
  end.

(** Steps 7 to 15, with a furthest block. *)
Definition adopt (formattingElement : ContainerNode) (formattingElementRecord furthestBlock : ElementRecord) (t : HTMLConstructionSite)
  : option HTMLConstructionSite :=
  guard! isAbove (m_openElements t) furthestBlock formattingElementRecord in
  match next (m_openElements t) formattingElementRecord,
        HTMLFormattingElementList.bookmarkFor formattingElement (m_activeFormattingElements t) with
  | Some below, Some bookmark =>
      let commonAncestor := m_item below in
      match innerLoop innerIterationLimit formattingElementRecord furthestBlock (next (m_openElements t) furthestBlock)
              furthestBlock bookmark t with
      | None => None
      | Some (lastNode, bookmark, t) =>
          match (match elementAt t lastNode with None => None | Some c => insertAlreadyParsedChild commonAncestor c t end) with
          | None => None
          | Some t =>
              match (match deref t formattingElementRecord with None => None | Some r => createElementFromSavedToken (m_item r) t end) with
              | None => None
              | Some (newItem, t) =>
                  match nodeAt t furthestBlock, element newItem with
                  | Some fb, Some e =>
                      let t := reparent fb e (takeAllChildren newItem fb t) in
                      match HTMLFormattingElementList.swapTo formattingElement newItem bookmark (m_activeFormattingElements t) with
                      | None => None
                      | Some l =>
                          let t := set_active l t in
                          match remove formattingElement (m_openElements t) with
                          | None => None
                          | Some s =>
                              match insertAbove newItem furthestBlock s with None => None | Some s => Some (set_open s t) end
                          end
                      end
                  | _, _ => None
                  end
              end
          end
      end
  | _, _ => None
  end.

(** The outer loop. *)
Fixpoint agencyLoop (n : nat) (name : AtomicString) (t : HTMLConstructionSite) : option HTMLConstructionSite :=
  match n with
  | O => Some t
  | S n =>
      match HTMLFormattingElementList.closestElementInScopeWithName name (m_activeFormattingElements t) with
      | None => None
      | Some None => processAnyOtherEndTagForInBody name t
      | Some (Some formattingElement) =>
          match (if containsNode (m_openElements t) formattingElement then inScopeNode (m_openElements t) formattingElement else Some true) with
          | None => None
          | Some false => Some t
          | Some true =>
              match findNode (m_openElements t) formattingElement with
              | None =>
                  match HTMLFormattingElementList.remove formattingElement (m_activeFormattingElements t) with
                  | None => None
                  | Some l => Some (set_active l t)
                  end
              | Some formattingElementRecord =>
                  match currentElement t, furthestBlockForFormattingElement (m_openElements t) formattingElement with
                  | Some _, Some None =>
                      match popUntilElementPopped formattingElement (m_openElements t),
                            HTMLFormattingElementList.remove formattingElement (m_activeFormattingElements t) with
                      | Some s, Some l => Some (set_active l (set_open s t))
                      | _, _ => None
                      end
                  | Some _, Some (Some furthestBlock) =>
                      match adopt formattingElement formattingElementRecord furthestBlock t with
                      | None => None
                      | Some t => agencyLoop n name t
                      end
                  | _, _ => None
                  end
              end
          end
      end
  end.

Definition callTheAdoptionAgency (name : AtomicString) (t : HTMLConstructionSite) : option HTMLConstructionSite :=
  agencyLoop outerIterationLimit name t.

End Agency.
End AdoptionAgency.
