(* ===== verification/AdoptionAgencyProps.v ===== *)
(** * Properties of the adoption agency

    The agency and the treatment of other end tags return for every stack and list
    of the invariant, and keep it. *)
From S2P Require Import Prelude HTMLStackItem HTMLElementStack HTMLElementStackProps HTMLElementStackProtocol HTMLFormattingElementList HTMLFormattingElementProps HTMLConstructionSite HTMLConstructionSiteProps AdoptionAgency.
From Stdlib Require Import String ZArith Lia.
From stdpp Require Import base list numbers option.
#[local] Open Scope Z_scope.
Import HTMLStackItem HTMLElementStack HTMLConstructionSite AdoptionAgency.

(** ** Records and entries *)

Lemma deref_ok t l1 r l2 r0 : siteInv t -> m_top (m_openElements t) = l1 ++ r :: l2 -> recordId r0 = recordId r -> deref t r0 = Some r.
Proof.
  intros Ht E Hid. pose proof (inv_ids _ (core_stack _ _ _ Ht)) as Hd. unfold deref. rewrite E in Hd |- *. rewrite Hid.
  apply find_first; [|apply Nat.eqb_refl]. rewrite list.Forall_forall. intros x Hx. apply Nat.eqb_neq. intros Ex.
  rewrite map_app in Hd. apply list.NoDup_app in Hd as (_ & Hd & _). apply (Hd (recordId x)); [by apply (list_elem_of_fmap_2 recordId)|].
  rewrite Ex. left.
Qed.

Lemma elementAt_ok t l1 r l2 r0 : siteInv t -> m_top (m_openElements t) = l1 ++ r :: l2 -> recordId r0 = recordId r ->
  plainItem (m_item r) -> elementAt t r0 = Some (nodeOf r).
Proof.
  intros Ht E Hid Hp. unfold elementAt. rewrite (deref_ok t l1 r l2 r0) by done. apply (record_element (m_openElements t) r); [apply Ht| |done].
  rewrite E. apply elem_of_app. right. left.
Qed.

Lemma listContains_ok n l : good l -> HTMLFormattingElementList.contains n l = Some (bool_decide (nodeId n ∈ map itemId (itemsOf l))).
Proof.
  intros Hg. unfold HTMLFormattingElementList.contains, HTMLFormattingElementList.find. case_bool_decide as Hin.
  - apply list_elem_of_fmap in Hin as (i & Ei & Hin). apply items_split in Hin as (l1 & l2 & ->).
    rewrite (reverseFind_same n (m_node i)), reverseFind_some by done. done.
  - by rewrite (reverseFind_none n l (proj1 Hg) Hin).
Qed.

Lemma find_ok i l : good l -> i ∈ itemsOf l -> exists index,
  HTMLFormattingElementList.find (m_node i) l = Some (Some index) /\ l !! index = Some (Some i) /\
  HTMLFormattingElementList.bookmarkFor (m_node i) l = Some (HTMLFormattingElementList.mkBookmark false index).
Proof.
  intros Hg Hin. apply items_split in Hin as (l1 & l2 & ->). exists (length l1).
  unfold HTMLFormattingElementList.find, HTMLFormattingElementList.bookmarkFor. rewrite reverseFind_some by done. split_and!; [done| |done].
  by apply list_lookup_middle.
Qed.

(** Two stacks with the same bottom have the same root. *)
Lemma root_same s s' a a' x : inv s -> inv s' -> m_top s = a ++ x -> m_top s' = a' ++ x -> x <> [] -> m_rootNode s' = m_rootNode s.
Proof.
  intros H H' E E' Hne. destruct x as [|y x _] using rev_ind; [done|].
  destruct (shaped_bottom _ _ _ _ (inv_shape s H)) as (u & r & Eu & _ & ->); [rewrite E; by destruct a, x|].
  destruct (shaped_bottom _ _ _ _ (inv_shape s' H')) as (u' & r' & Eu' & _ & ->); [rewrite E'; by destruct a', x|].
  rewrite E, app_assoc in Eu. rewrite E', app_assoc in Eu'. apply app_inj_tail in Eu as [_ <-], Eu' as [_ <-]. done.
Qed.

(** A bookmark: before it is moved it marks the entry of the formatting element. *)
Definition bookmarkOk (b : HTMLFormattingElementList.Bookmark) (i : HTMLStackItem) (l : list HTMLFormattingElementList.Entry) : Prop :=
  if HTMLFormattingElementList.m_hasBeenMoved b then (HTMLFormattingElementList.m_mark b < length l)%nat
  else l !! HTMLFormattingElementList.m_mark b = Some (Some i).

Lemma swapTo_ok i new b l : good l -> i ∈ itemsOf l -> goodItem new -> ~ itemId new ∈ map itemId (itemsOf l) -> bookmarkOk b i l ->
  exists l' rest, HTMLFormattingElementList.swapTo (m_node i) new b l = Some l' /\ itemsOf l ≡ₚ i :: rest /\ itemsOf l' ≡ₚ new :: rest.
Proof.
  intros Hg Hin Hn Hfr Hb. unfold HTMLFormattingElementList.swapTo. rewrite listContains_ok by done.
  rewrite bool_decide_eq_true_2 by (by apply (list_elem_of_fmap_2 itemId)). rewrite (goodItem_element new Hn), listContains_ok by done.
  rewrite bool_decide_eq_false_2 by done. unfold bookmarkOk in Hb. destruct (HTMLFormattingElementList.m_hasBeenMoved b); cbn [negb].
  - destruct (Nat.ltb_spec (HTMLFormattingElementList.m_mark b) (length l)) as [_|]; [|lia].
    set (l2 := take (S (HTMLFormattingElementList.m_mark b)) l ++ Some new :: drop (S (HTMLFormattingElementList.m_mark b)) l).
    assert (Hp : itemsOf l2 ≡ₚ new :: itemsOf l).
    { unfold l2. rewrite itemsOf_app. cbn. rewrite <- Permutation_middle. rewrite <- itemsOf_app, take_drop. done. }
    assert (Hg2 : good l2).
    { destruct Hg as [H1 H2]. split; rewrite Hp; [by constructor|]. cbn. by apply list.NoDup_cons. }
    assert (Hin2 : i ∈ itemsOf l2) by (rewrite Hp; by right). apply items_split in Hin2 as (a & c & El).
    assert (Hin' := Hin). apply elem_of_Permutation in Hin' as (rest & Hrest).
    exists (a ++ c), rest. split_and!; [|done|].
    + unfold HTMLFormattingElementList.remove. rewrite El in Hg2 |- *. rewrite reverseFind_some by done. by rewrite delete_middle.
    + apply (Permutation_cons_inv (a := i)). rewrite itemsOf_app.
      assert (Hx : itemsOf l2 ≡ₚ i :: itemsOf a ++ itemsOf c) by (rewrite El, itemsOf_app; cbn; by rewrite <- Permutation_middle).
      rewrite <- Hx, Hp, Hrest. constructor.
  - rewrite Hb. rewrite goodItem_element by (by apply (proj1 (list.Forall_forall _ _) (proj1 Hg))).
    rewrite (proj2 (sameNode_eq _ _) eq_refl). destruct (replaceEntry_items l _ i new Hb) as (rest & ? & ?). by eexists _, rest.
Qed.

Section Agency.
Context {dom : DOM}.

(** ** The inner loop *)

(** The site after the item of a record and of its entry has been replaced. *)
Definition replaced (s : HTMLElementStack) (index : nat) (new : HTMLStackItem) (t : HTMLConstructionSite) : HTMLConstructionSite :=
  set_open s (set_active (HTMLFormattingElementList.replaceEntry index new (m_activeFormattingElements t)) (set_nextNode (S (nextNode t)) t)).

(** Step 9.7: a record whose element is in the list gets a new element. *)
Lemma recreate_ok t pre m post : siteInv t -> fosterReady t -> m_top (m_openElements t) = pre ++ m :: post -> post <> [] ->
  m_item m ∈ itemsOf (m_activeFormattingElements t) ->
  exists new index s', createElementFromSavedToken (m_item m) t = Some (new, set_nextNode (S (nextNode t)) t) /\
    HTMLFormattingElementList.find (nodeOf m) (m_activeFormattingElements t) = Some (Some index) /\
    m_activeFormattingElements t !! index = Some (Some (m_item m)) /\
    replaceElement m new (m_openElements t) = Some s' /\
    m_top s' = pre ++ mkRecord (recordId m) new :: post /\
    siteInv (replaced s' index new t) /\ frame t (replaced s' index new t) /\ formattingItem new /\
    (forall i, i ∈ itemsOf (m_activeFormattingElements t) -> i <> m_item m ->
       i ∈ itemsOf (HTMLFormattingElementList.replaceEntry index new (m_activeFormattingElements t))).
Proof.
  intros Ht Hf Et Hpost Hin. pose proof (core_stack _ _ _ Ht) as H. pose proof (core_list _ _ _ Ht) as Hg.
  assert (Hgi : goodItem (m_item m)) by (by apply (proj1 (list.Forall_forall _ _) (proj1 Hg))).
  assert (Hfi : formattingItem (m_item m)) by (by apply (proj1 (list.Forall_forall _ _) (core_items _ _ _ Ht))).
  destruct (createFromSaved_ok (m_item m) t Ht Hgi Hfi) as (new & Ec & Hgn & Hfn & Hid & Hel & _).
  destruct (find_ok (m_item m) (m_activeFormattingElements t) Hg Hin) as (index & Efind & Eidx & _).
  destruct (replace_ok (m_openElements t) pre m post new H Et (formatting_plain _ Hfi) (formatting_plain _ Hfn) (proj1 Hfn)) as (s' & Er & Es' & Hi').
  { apply (fresh_new t (m_node new) Ht Hid). }
  destruct (replaceEntry_items (m_activeFormattingElements t) index (m_item m) new Eidx) as (rest & Hp1 & Hp2).
  assert (Hsub : forall r, r ∈ m_top s' -> r ∈ m_top (m_openElements t) \/ m_item r = new).
  { intros r Hr. rewrite Es' in Hr. apply elem_of_app in Hr as [Hr|Hr]; [left; rewrite Et; apply elem_of_app; by left|].
    apply elem_of_cons in Hr as [->|Hr]; [by right|]. left. rewrite Et. apply elem_of_app. right. by right. }
  exists new, index, s'. split_and!; try done.
  - apply (core_new (m_openElements t) (m_activeFormattingElements t) (nextNode t) s' _ (m_item m) new rest); try done.
    rewrite Es'. by destruct pre.
  - constructor; [done| |cbn; lia|..].
    + apply (root_same (m_openElements t) s' (pre ++ [m]) (pre ++ [mkRecord (recordId m) new]) post); try done; by rewrite <- app_assoc.
    + intros r Hr. destruct (Hsub r Hr) as [|Hnew]; [by left|right]. unfold nodeOf. rewrite Hnew. split; [done|]. unfold itemId in Hid. lia.
    + cbn. intros x Hx. rewrite Hp2 in Hx. apply elem_of_cons in Hx as [->|Hx]; [right; lia|left]. rewrite Hp1. by right.
  - intros i Hi Hne. rewrite Hp2. right. rewrite Hp1 in Hi. by apply elem_of_cons in Hi as [|].
Qed.

(** Step 9.5: a record whose element is not in the list is removed. *)
Lemma removeRecord_ok t pre m post : siteInv t -> fosterReady t -> m_top (m_openElements t) = pre ++ m :: post -> pre <> [] -> post <> [] ->
  plainItem (m_item m) ->
  exists s', remove (nodeOf m) (m_openElements t) = Some s' /\ m_top s' = pre ++ post /\ siteInv (set_open s' t) /\ frame t (set_open s' t).
Proof.
  intros Ht Hf Et Hpre Hpost Hp. destruct (remove_ok (m_openElements t) pre m post (core_stack _ _ _ Ht) Et Hp) as (s' & Er & Es' & _ & Hi').
  assert (Hsub : forall r, r ∈ m_top s' -> r ∈ m_top (m_openElements t)).
  { intros r Hr. rewrite Es' in Hr. rewrite Et. apply elem_of_app in Hr as [Hr|Hr]; apply elem_of_app; [by left|right; by right]. }
  exists s'. split_and!; try done.
  - apply (core_shrink (m_openElements t) (m_activeFormattingElements t)); try done; [|apply Ht]. cbn. rewrite Es'. by destruct pre.
  - constructor; [done| |cbn; lia|intros r Hr; left; by apply Hsub|cbn; by left].
    apply (root_same (m_openElements t) s' (pre ++ [m]) pre post); try done; [apply Ht|by rewrite <- app_assoc].
Qed.

(** The records of a stack differ. *)
Lemma records_differ s a m b F c : inv s -> m_top s = a ++ m :: b ++ F :: c -> recordId m <> recordId F /\ m_item F <> m_item m.
Proof.
  intros H E. assert (Hne : recordId m <> recordId F).
  { intros Eid. pose proof (inv_ids _ H) as Hd. rewrite E, map_app in Hd. apply list.NoDup_app in Hd as (_ & _ & Hd). cbn in Hd.
    apply list.NoDup_cons in Hd as [Hd _]. apply Hd. rewrite Eid, map_app. apply elem_of_app. right. left. }
  split; [done|]. intros Em. apply Hne. f_equal. symmetry. apply (inv_same s); [done|..].
  - rewrite E. apply elem_of_app. right. right. apply elem_of_app. right. left.
  - rewrite E. apply elem_of_app. right. left.
  - unfold nodeOf. by rewrite Em.
Qed.

(** A bookmark after an entry other than that of the formatting element was replaced. *)
Lemma bookmark_replaced b i index old new l : bookmarkOk b i l -> l !! index = Some (Some old) -> i <> old ->
  bookmarkOk b i (HTMLFormattingElementList.replaceEntry index new l) /\
  bookmarkOk (HTMLFormattingElementList.moveToAfter index b) i (HTMLFormattingElementList.replaceEntry index new l).
Proof.
  intros Hb Eidx Hne. unfold bookmarkOk, HTMLFormattingElementList.replaceEntry in *. cbn. rewrite length_insert.
  split; [|by apply lookup_lt_Some in Eidx]. destruct (HTMLFormattingElementList.m_hasBeenMoved b); [done|].
  rewrite list_lookup_insert_ne; [done|]. intros Eq. rewrite <- Eq, Eidx in Hb. congruence.
Qed.

(** The records above the formatting element are plain. *)
Lemma above_plain t pre F B : siteInv t -> m_top (m_openElements t) = pre ++ F :: B -> m_item F ∈ itemsOf (m_activeFormattingElements t) ->
  Forall (fun x => plainItem (m_item x)) pre /\ plainItem (m_item F) /\ B <> [].
Proof.
  intros Ht Et HF.
  assert (Hp : plainItem (m_item F)) by (apply formatting_plain, (proj1 (list.Forall_forall _ _) (core_items _ _ _ Ht)); done).
  destruct (shaped_above _ _ _ _ pre F B (inv_shape _ (core_stack _ _ _ Ht)) Et Hp). done.
Qed.

Lemma innerLoop_ok n : forall t pre M F B FB lastNode b, siteInv t -> fosterReady t ->
  m_top (m_openElements t) = pre ++ M ++ F :: B -> pre <> [] -> m_item F ∈ itemsOf (m_activeFormattingElements t) ->
  (exists x, x ∈ pre /\ recordId x = recordId lastNode) -> bookmarkOk b (m_item F) (m_activeFormattingElements t) ->
  exists lastNode' b' t' M', innerLoop n F FB (head (M ++ F :: B)) lastNode b t = Some (lastNode', b', t') /\
    siteInv t' /\ frame t t' /\ m_top (m_openElements t') = pre ++ M' ++ F :: B /\
    (forall r, r ∈ M' -> r ∈ M \/ formattingItem (m_item r)) /\
    m_item F ∈ itemsOf (m_activeFormattingElements t') /\
    (exists x, x ∈ pre ++ M' /\ recordId x = recordId lastNode') /\ bookmarkOk b' (m_item F) (m_activeFormattingElements t').
Proof.
  induction n as [|n IH]; intros t pre M F B FB lastNode b Ht Hf Et Hpre HF Hlast Hb.
  { exists lastNode, b, t, M. cbn. split_and!; try done; [apply frame_refl|intros; by left|]. destruct Hlast as (x & Hx & ?). exists x. split; [|done]. apply elem_of_app. by left. }
  pose proof (core_list _ _ _ Ht) as Hg. destruct (above_plain t (pre ++ M) F B Ht) as (Hplain & HFp & HB); [by rewrite <- app_assoc|done|].
  destruct M as [|m M]; cbn [app head innerLoop].
  - rewrite (elementAt_ok t (pre ++ []) F B F) by (done || by rewrite <- app_assoc).
    rewrite listContains_ok by done. rewrite bool_decide_eq_true_2 by (by apply (list_elem_of_fmap_2 itemId)).
    unfold sameRecord. rewrite Nat.eqb_refl. exists lastNode, b, t, []. split_and!; try done; [apply frame_refl|intros; by left|by rewrite app_nil_r].
  - cbn [app] in Et. apply List.Forall_app in Hplain as [_ Hplain]. apply Forall_cons_iff in Hplain as [Hmp _].
    assert (Hmin : m ∈ m_top (m_openElements t)) by (rewrite Et; apply elem_of_app; right; left).
    assert (Hpost : M ++ F :: B <> []) by (by destruct M). destruct (records_differ _ pre m M F B (core_stack _ _ _ Ht) Et) as [Hne HFne].
    rewrite (next_ok _ pre m (M ++ F :: B) (core_stack _ _ _ Ht) Et), (elementAt_ok t pre m (M ++ F :: B) m), listContains_ok by done.
    case_bool_decide as Hin.
    + apply list_elem_of_fmap in Hin as (i & Ei & Hin). pose proof (core_agree _ _ _ Ht m i Hmin Hin Ei) as <-.
      unfold sameRecord at 1. rewrite (proj2 (Nat.eqb_neq _ _) Hne), (deref_ok t pre m (M ++ F :: B) m) by done.
      destruct (recreate_ok t pre m (M ++ F :: B) Ht Hf Et Hpost Hin) as (new & index & s' & -> & Efind & Eidx & Er & Es' & Ht1 & Hfr1 & Hfn & Hitems).
      pose proof (frame_foster _ _ Hfr1 Hf) as Hf1.
      cbn [m_activeFormattingElements set_nextNode m_openElements]. rewrite Efind, Er. fold (replaced s' index new t).
      destruct Hlast as (x & Hx & Hxid). apply list_elem_of_split in Hx as (p1 & p2 & Ep).
      assert (Et1 : m_top (m_openElements (replaced s' index new t)) = (pre ++ [mkRecord (recordId m) new]) ++ M ++ F :: B)
        by (rewrite <- app_assoc; exact Es').
      assert (Hxs : m_top (m_openElements (replaced s' index new t)) = p1 ++ x :: p2 ++ [mkRecord (recordId m) new] ++ M ++ F :: B)
        by (rewrite Et1, Ep, <- !app_assoc; done).
      assert (Hpx : plainItem (m_item x)).
      { destruct (above_plain _ ((pre ++ [mkRecord (recordId m) new]) ++ M) F B Ht1) as (Hpl & _);
          [by rewrite <- app_assoc|by apply Hitems|]. rewrite list.Forall_forall in Hpl. apply Hpl. rewrite Ep. apply elem_of_app. left.
        apply elem_of_app. left. apply elem_of_app. right. left. }
      unfold nodeAt. rewrite (deref_ok _ pre (mkRecord (recordId m) new) (M ++ F :: B) m), (elementAt_ok _ p1 x _ lastNode Ht1 Hxs) by done.
      destruct (bookmark_replaced b (m_item F) index (m_item m) new _ Hb Eidx HFne) as [Hb1 Hb2].
      destruct (IH (reparent (m_node new) (nodeOf x) (replaced s' index new t)) (pre ++ [mkRecord (recordId m) new]) M F B FB m
        (if sameRecord lastNode FB then HTMLFormattingElementList.moveToAfter index b else b)) as (ln & b' & t' & M' & E1 & E2 & E3 & E4 & EM & E5 & E6 & E7); try done.
      * by destruct pre.
      * by apply Hitems.
      * exists (mkRecord (recordId m) new). split; [|done]. apply elem_of_app. right. left.
      * by destruct (sameRecord lastNode FB).
      * exists ln, b', t', (mkRecord (recordId m) new :: M'). split_and!; try done; [|by rewrite E4, <- app_assoc| |by rewrite <- app_assoc in E6].
        -- apply (frame_trans t (reparent (m_node new) (nodeOf x) (replaced s' index new t))); [|done]. destruct Hfr1. by constructor.
        -- intros r Hr. apply elem_of_cons in Hr as [->|Hr]; [by right|]. destruct (EM r Hr); [left; by right|by right].
    + destruct (removeRecord_ok t pre m (M ++ F :: B) Ht Hf Et Hpre Hpost Hmp) as (s' & -> & Es' & Ht1 & Hfr1).
      destruct (IH (set_open s' t) pre M F B FB lastNode b) as (ln & b' & t' & M' & E1 & E2 & E3 & E4 & EM & E5); try done; [by apply (frame_foster t)|].
      exists ln, b', t', M'. split_and!; try done; try apply E5; [by apply (frame_trans t _ _ Hfr1)|].
      intros r Hr. destruct (EM r Hr); [left; by right|by right].
Qed.

(** ** One round of the agency *)

Lemma insertAlreadyParsed_ok ca c t : siteInv t -> fosterReady t -> exists q, insertAlreadyParsedChild ca c t = Some (enqueue q t).
Proof.
  intros Ht Hf. unfold insertAlreadyParsedChild. destruct (causesFosterParenting ca); [destruct (fosterParent_ok c t Ht Hf) as (q & E & _); by exists q|by eexists].
Qed.

(** Steps 11 to 15: the formatting element moves above the furthest block. *)
Lemma moveFormatting_ok t A FB M F B new b : siteInv t -> fosterReady t -> m_top (m_openElements t) = A ++ FB :: M ++ F :: B ->
  m_item F ∈ itemsOf (m_activeFormattingElements t) -> bookmarkOk b (m_item F) (m_activeFormattingElements t) ->
  goodItem new -> formattingItem new -> itemId new = nextNode t ->
  exists l s s', HTMLFormattingElementList.swapTo (nodeOf F) new b (m_activeFormattingElements t) = Some l /\
    remove (nodeOf F) (m_openElements t) = Some s /\ insertAbove new FB s = Some s' /\
    core s' l (S (nextNode t)) /\ m_rootNode s' = m_rootNode (m_openElements t) /\
    (forall r, r ∈ m_top s' -> r ∈ m_top (m_openElements t) \/ m_item r = new) /\
    (exists k, m_top s' = A ++ mkRecord k new :: FB :: M ++ B) /\
    (forall i, i ∈ itemsOf l -> i ∈ itemsOf (m_activeFormattingElements t) \/ i = new).
Proof.
  intros Ht Hf Et HF Hb Hgn Hfn Hid. pose proof (core_list _ _ _ Ht) as Hg.
  destruct (above_plain t (A ++ FB :: M) F B Ht) as (_ & HFp & HB); [by rewrite <- app_assoc|done|].
  destruct (swapTo_ok (m_item F) new b (m_activeFormattingElements t)) as (l & rest & El & Hp1 & Hp2); try done.
  { intros Hin. apply list_elem_of_fmap in Hin as (x & Ex & Hx). pose proof (core_fresh_list _ _ _ Ht) as Hfr. rewrite list.Forall_forall in Hfr.
    specialize (Hfr x Hx). cbn in Hfr. lia. }
  destruct (remove_ok (m_openElements t) (A ++ FB :: M) F B (core_stack _ _ _ Ht)) as (s & Er & Es & _ & Hi); [by rewrite <- app_assoc|done|].
  rewrite <- app_assoc in Es. cbn [app] in Es.
  destruct (insertAbove_ok s A FB (M ++ B) new Hi Es (formatting_plain _ Hfn) (proj1 Hfn)) as (s' & Ei & Es' & Hi').
  { intros Hin. apply (fresh_new t (m_node new) Ht Hid). apply list_elem_of_fmap in Hin as (x & Ex & Hx). rewrite Ex.
    apply (list_elem_of_fmap_2 (fun r => nodeId (nodeOf r))). rewrite Es in Hx. rewrite Et. apply elem_of_app in Hx as [Hx|Hx]; apply elem_of_app; [by left|right].
    apply elem_of_cons in Hx as [->|Hx]; [left|right]. apply elem_of_app in Hx as [Hx|Hx]; apply elem_of_app; [by left|right; by right]. }
  { left. destruct M; [|done]. done. }
  assert (Hsub : forall r, r ∈ m_top s' -> r ∈ m_top (m_openElements t) \/ m_item r = new).
  { intros r Hr. rewrite Es' in Hr. rewrite Et. apply elem_of_app in Hr as [Hr|Hr]; [left; apply elem_of_app; by left|].
    apply elem_of_cons in Hr as [->|Hr]; [by right|left]. apply elem_of_app. right. apply elem_of_cons in Hr as [->|Hr]; [left|right].
    apply elem_of_app in Hr as [Hr|Hr]; apply elem_of_app; [by left|right; by right]. }
  exists l, s, s'. split_and!; try done.
  - apply (core_new (m_openElements t) (m_activeFormattingElements t) (nextNode t) s' l (m_item F) new rest); try done. rewrite Es'. by destruct A.
  - apply (root_same (m_openElements t) s' (A ++ FB :: M ++ [F]) (A ++ mkRecord (nextRecord s) new :: FB :: M) B); try done; [apply Ht|..].
    + rewrite Et, <- !app_assoc. cbn. by rewrite <- !app_assoc.
    + rewrite Es', <- !app_assoc. done.
  - by eexists.
  - intros i Hi'2. rewrite Hp2 in Hi'2. apply elem_of_cons in Hi'2 as [->|Hx]; [by right|left]. rewrite Hp1. by right.
Qed.

Lemma adopt_ok t A FB M F B : siteInv t -> fosterReady t -> m_top (m_openElements t) = A ++ FB :: M ++ F :: B ->
  isAbove (m_openElements t) FB F = true -> m_item F ∈ itemsOf (m_activeFormattingElements t) ->
  exists t' M' k new, adopt (nodeOf F) F FB t = Some t' /\ siteInv t' /\ frame t t' /\
    m_top (m_openElements t') = A ++ mkRecord k new :: FB :: M' ++ B /\ formattingItem new /\
    (forall r, r ∈ M' -> r ∈ M \/ formattingItem (m_item r)).
Proof.
  intros Ht Hf Et Hab HF. pose proof (core_stack _ _ _ Ht) as H. unfold adopt. rewrite Hab.
  destruct (above_plain t (A ++ FB :: M) F B Ht) as (_ & HFp & HB); [by rewrite <- app_assoc|done|].
  rewrite (next_ok _ (A ++ FB :: M) F B H) by (by rewrite <- app_assoc). destruct B as [|below B]; [done|]. cbn [head].
  destruct (find_ok (m_item F) _ (core_list _ _ _ Ht) HF) as (index & _ & Eidx & Ebm). unfold nodeOf at 1. rewrite Ebm.
  rewrite (next_ok _ A FB (M ++ F :: below :: B) H Et).
  destruct (innerLoop_ok innerIterationLimit t (A ++ [FB]) M F (below :: B) FB FB (HTMLFormattingElementList.mkBookmark false index))
    as (ln & b' & t1 & M' & E1 & Ht1 & Hfr1 & Et1 & EM & HF1 & Hln & Hb1); try done.
  { by rewrite <- app_assoc. }
  { by destruct A. }
  { exists FB. split; [|done]. apply elem_of_app. right. left. }
  rewrite E1. destruct Hln as (x & Hx & Hxid). pose proof (frame_foster _ _ Hfr1 Hf) as Hf1.
  destruct (above_plain t1 ((A ++ [FB]) ++ M') F (below :: B) Ht1) as (Hpl & _); [by rewrite <- app_assoc|done|].
  rewrite list.Forall_forall in Hpl. specialize (Hpl x Hx). apply list_elem_of_split in Hx as (p1 & p2 & Ep).
  assert (Hxs : m_top (m_openElements t1) = p1 ++ x :: p2 ++ F :: below :: B).
  { rewrite Et1, app_assoc, Ep, <- app_assoc. done. }
  rewrite (elementAt_ok t1 p1 x _ ln Ht1 Hxs) by done.
  destruct (insertAlreadyParsed_ok (m_item below) (nodeOf x) t1 Ht1 Hf1) as (q & ->).
  change (deref (enqueue q t1) F) with (deref t1 F).
  assert (EtF : m_top (m_openElements t1) = A ++ FB :: M' ++ F :: below :: B) by (rewrite Et1, <- app_assoc; done).
  rewrite (deref_ok t1 (A ++ FB :: M') F (below :: B) F) by (done || by rewrite <- app_assoc).
  assert (Hgi : goodItem (m_item F)) by (by apply (proj1 (list.Forall_forall _ _) (proj1 (core_list _ _ _ Ht1)))).
  assert (Hfi : formattingItem (m_item F)) by (by apply (proj1 (list.Forall_forall _ _) (core_items _ _ _ Ht1))).
  destruct (createFromSaved_ok (m_item F) (enqueue q t1) Ht1 Hgi Hfi) as (new & -> & Hgn & Hfn & Hid & Hel & _).
  unfold nodeAt. change (deref (set_nextNode (S (nextNode (enqueue q t1))) (enqueue q t1)) FB) with (deref t1 FB).
  rewrite (deref_ok t1 A FB (M' ++ F :: below :: B) FB) by done. rewrite Hel.
  destruct (moveFormatting_ok t1 A FB M' F (below :: B) new b' Ht1 Hf1 EtF HF1 Hb1 Hgn Hfn Hid) as (l & s & s' & E2 & E3 & E4 & Hc & Hr & Hsub & (k & Es') & Hl).
  cbn [m_activeFormattingElements reparent takeAllChildren enqueue set_nextNode set_active m_openElements]. unfold nodeOf in E2, E3 |- *.
  rewrite E2, E3, E4. eexists _, M', k, new. split; [reflexivity|]. split_and!; [exact Hc| |exact Es'|done|done].
  apply (frame_trans t t1); [done|]. constructor; [done|done|cbn; lia|..]; cbn.
  - intros r Hr'. destruct (Hsub r Hr') as [|Hnew]; [by left|right]. unfold nodeOf. rewrite Hnew. split; [done|]. unfold itemId in Hid. cbn in Hid. lia.
  - intros i Hi. destruct (Hl i Hi) as [|Ei]; [by left|right]. rewrite Ei. cbn in Hid. lia.
Qed.

(** ** Other end tags *)

Lemma split_unique {A} (a b a' b' : list A) x : NoDup (a ++ x :: b) -> a ++ x :: b = a' ++ x :: b' -> a = a' /\ b = b'.
Proof.
  revert a'. induction a as [|y a IH]; intros [|y' a'] Hd E; simplify_eq/=; [done|..].
  - apply list.NoDup_cons in Hd as [Hd _]. exfalso. apply Hd. apply elem_of_app. right. left.
  - apply list.NoDup_cons in Hd as [Hd _]. exfalso. apply Hd. apply elem_of_app. right. left.
  - apply list.NoDup_cons in Hd as [_ Hd]. destruct (IH a' Hd) as [-> ->]; done.
Qed.

Lemma root_special item : isRootNode item = true -> isSpecialNode item = true.
Proof.
  intros H. unfold isSpecialNode, isInHTMLNamespace. destruct (hasOneOf item integrationNames); [done|]. unfold isRootNode in H.
  destruct (m_isDocumentFragmentNode item); [done|]. cbn [orb] in H. apply hasTagName_eq in H as [Hn Hns]. rewrite Hns.
  rewrite (bool_decide_eq_true_2 (namespaceOf _ = _)) by done. cbn [negb orb]. apply orb_true_iff. left. apply orb_true_iff. left. apply existsb_exists. exists "html"%string.
  split; [unfold specialNames; repeat (first [left; reflexivity|right])|]. unfold hasLocalName. rewrite Hn. by apply bool_decide_eq_true_2.
Qed.

(** An element that was found is popped with everything above it. *)
Lemma popFound_ok name t pre r l : siteInv t -> m_top (m_openElements t) = pre ++ r :: l -> matchesHTMLTag (m_item r) name = true ->
  Forall (fun x => matchesHTMLTag (m_item x) name = false) pre -> plainItem (m_item r) ->
  exists t1 s', generateImpliedEndTagsWithExclusion name t = Some t1 /\ element (m_item r) = Some (nodeOf r) /\
    popUntilElementPopped (nodeOf r) (m_openElements t1) = Some s' /\ set_open s' t1 = set_open s' t /\ m_top s' = l /\ inv s'.
Proof.
  intros Ht Et Hm Hpre Hp. pose proof (core_stack _ _ _ Ht) as H.
  assert (Hrin : r ∈ m_top (m_openElements t)) by (rewrite Et; apply elem_of_app; right; left).
  destruct (implied_ok (fun item => matchesHTMLTag item name) _ H (core_nonempty _ _ _ Ht)) as (above & r' & below & E & Hr' & Ha & Epop & Hi).
  unfold generateImpliedEndTagsWithExclusion. rewrite Epop. set (s1 := popped (length above) (m_openElements t)) in *.
  assert (Es1 : m_top s1 = r' :: below) by (unfold s1, popped; cbn; by rewrite E, drop_app_length).
  assert (Hr1 : r ∈ m_top s1).
  { rewrite E in Hrin. rewrite Es1. apply elem_of_app in Hrin as [Hr|Hr]; [|done]. rewrite list.Forall_forall in Ha. specialize (Ha r Hr). cbn in Ha.
    apply orb_false_iff in Ha as [_ Ha]. congruence. }
  destruct (popUntilElement_ok s1 r Hi Hr1 Hp) as (a2 & b2 & E2 & _ & Epp & Hi2).
  exists (set_open s1 t), (popped (S (length a2)) s1). split_and!; try done; [by apply (record_element (m_openElements t))|].
  unfold popped at 1. cbn [m_top]. rewrite E2. replace (drop (S (length a2)) (a2 ++ r :: b2)) with b2.
  2: { change (r :: b2) with ([r] ++ b2). rewrite app_assoc, drop_app_length'; [done|]. rewrite length_app. cbn. lia. }
  assert (Hd : NoDup (m_top (m_openElements t))) by (apply (list.NoDup_fmap_1 recordId), (inv_ids _ H)).
  rewrite Et in Hd. symmetry. apply (split_unique pre l (above ++ a2) b2 r Hd). rewrite <- Et, E, <- Es1, E2. by rewrite <- app_assoc.
Qed.

Lemma anyOtherLoop_ok name t l : forall pre, siteInv t -> name <> lit "html" -> name <> lit "head" -> name <> lit "body" ->
  m_top (m_openElements t) = pre ++ l -> l <> [] ->
  Forall (fun x => hasTarget name (m_item x) = false /\ isSpecialNode (m_item x) = false) pre ->
  exists t', anyOtherLoop name t l = Some t' /\
    ((t' = t /\ ~ reaches isSpecialNode (hasTarget name) l) \/
     exists above r below s', l = above ++ r :: below /\ hasTarget name (m_item r) = true /\
       Forall (fun x => hasTarget name (m_item x) = false /\ isSpecialNode (m_item x) = false) above /\
       t' = set_open s' t /\ m_top s' = below /\ inv s').
Proof.
  induction l as [|r l IH]; intros pre Ht N1 N2 N3 Et Hne Hpre; [done|]. cbn [anyOtherLoop]. pose proof (core_stack _ _ _ Ht) as H.
  assert (Hrin : r ∈ m_top (m_openElements t)) by (rewrite Et; apply elem_of_app; right; left).
  destruct (matchesHTMLTag (m_item r) name) eqn:Em.
  - assert (Hp : plainItem (m_item r)).
    { apply (tag_plain (m_item r) (mkName name (Some xhtmlNamespaceURI))); [|done|..]; [|by intros [= ->]..].
      by apply (proj1 (list.Forall_forall _ _) (inv_items _ H)). }
    destruct (popFound_ok name t pre r l Ht Et Em) as (t1 & s' & -> & -> & -> & Eo & Es & Hi); [|done|].
    { eapply List.Forall_impl; [|exact Hpre]. by intros x [? _]. }
    eexists. split; [reflexivity|]. right. exists [], r, l, s'. split_and!; try done.
  - destruct (isSpecialNode (m_item r)) eqn:Es.
    + exists t. split; [done|]. left. split; [done|]. intros ([|a above] & x & below & E & Hx & Ha); simplify_eq/=; [unfold hasTarget in Hx; congruence|].
      apply Forall_cons_iff in Ha as [[_ Ha] _]. congruence.
    + destruct l as [|r' l].
      { exfalso. destruct (shaped_bottom _ _ _ _ (inv_shape _ H) (core_nonempty _ _ _ Ht)) as (u & x & Eu & Hx & _).
        rewrite Et in Eu. apply app_inj_tail in Eu as [_ <-]. apply root_special in Hx. congruence. }
      destruct (IH (pre ++ [r])) as (t' & E & Hcase); try done.
      { by rewrite <- app_assoc. }
      { apply List.Forall_app. split; [done|]. by constructor. }
      exists t'. split; [done|]. destruct Hcase as [[-> Hn]|(above & x & below & s' & El & Hx & Ha & ?)].
      * left. split; [done|]. intros ([|a above] & x & below & El & Hx & Ha); simplify_eq/=; [unfold hasTarget in Hx; congruence|].
        apply Forall_cons_iff in Ha as [_ Ha]. apply Hn. by exists above, x, below.
      * right. exists (r :: above), x, below, s'. split_and!; try done; [by rewrite El|by constructor|tauto..].
Qed.

(** The site after the stack has lost its upper part. *)
Lemma siteInv_below name t above r below s' : siteInv t -> fosterReady t -> m_top (m_openElements t) = above ++ r :: below ->
  hasTarget name (m_item r) = true -> name <> lit "html" -> name <> lit "head" -> name <> lit "body" -> m_top s' = below -> inv s' ->
  siteInv (set_open s' t) /\ frame t (set_open s' t).
Proof.
  intros Ht Hf E Hm N1 N2 N3 Es Hi. pose proof (core_stack _ _ _ Ht) as H.
  assert (Hp : plainItem (m_item r)).
  { apply (tag_plain (m_item r) (mkName name (Some xhtmlNamespaceURI))); [|done|..]; [|by intros [= ->]..].
    apply (proj1 (list.Forall_forall _ _) (inv_items _ H)). rewrite E. apply elem_of_app. right. left. }
  destruct (shaped_above _ _ _ _ above r below (inv_shape _ H) E Hp) as [_ Hne].
  assert (Hsub : forall x, x ∈ m_top s' -> x ∈ m_top (m_openElements t)) by (intros x Hx; rewrite Es in Hx; rewrite E; apply elem_of_app; right; by right).
  split.
  - apply (core_shrink (m_openElements t) (m_activeFormattingElements t)); try done; [cbn; by rewrite Es|apply Ht].
  - constructor; [done| |cbn; lia|intros x Hx; left; by apply Hsub|cbn; by left].
    apply (root_same (m_openElements t) s' (above ++ [r]) [] below); try done. by rewrite <- app_assoc.
Qed.

(** What the agency does to the stack for an end tag: elements above a formatting
    element in scope are replaced by formatting elements, moved or removed with it, or
    an element with the name is popped with everything above it. *)
Inductive reworked (name : AtomicString) : list ElementRecord -> list ElementRecord -> Prop :=
| reworked_same l : reworked name l l
| reworked_upper A F B A' l :
    formattingItem (m_item F) -> Forall (fun r => isScopeMarker (m_item r) = false) A ->
    (forall r, r ∈ A' -> r ∈ A \/ formattingItem (m_item r)) -> reworked name (A' ++ B) l -> reworked name (A ++ F :: B) l
| reworked_closed A r B :
    hasTarget name (m_item r) = true -> Forall (fun x => isSpecialNode (m_item x) = false) A -> reworked name (A ++ r :: B) B.

Lemma anyOther_ok name t : siteInv t -> fosterReady t -> name <> lit "html" -> name <> lit "head" -> name <> lit "body" ->
  exists t', processAnyOtherEndTagForInBody name t = Some t' /\ siteInv t' /\ frame t t' /\
    reworked name (m_top (m_openElements t)) (m_top (m_openElements t')).
Proof.
  intros Ht Hf N1 N2 N3.
  destruct (anyOtherLoop_ok name t (m_top (m_openElements t)) [] Ht N1 N2 N3 eq_refl (core_nonempty _ _ _ Ht)) as (t' & E & Hc); [constructor|].
  exists t'. split; [exact E|]. destruct Hc as [[-> _]|(above & r & below & s' & El & Hm & Ha & -> & Es & Hi)];
    [split_and!; [done|apply frame_refl|constructor]|].
  destruct (siteInv_below name t above r below s') as [H1 H2]; try done. split_and!; [done|done|]. rewrite El. cbn. rewrite Es. constructor; [done|].
  eapply List.Forall_impl; [|exact Ha]. by intros x [_ ?].
Qed.

(** C24: For every name other than html, head and body, from every site of the invariant
    whose open tables have foster parents where the root is a fragment (fosterReady), any
    other end tag in the body pops the closest element of its name with everything above
    it when no special element is reached before, and otherwise changes nothing; it always
    returns, without a failed assertion, and the invariant is kept. *)
Theorem any_other_end_tag name t : siteInv t -> fosterReady t ->
  name <> lit "html" -> name <> lit "head" -> name <> lit "body" ->
  exists t', processAnyOtherEndTagForInBody name t = Some t' /\ siteInv t' /\
    (~ reaches isSpecialNode (hasTarget name) (m_top (m_openElements t)) -> t' = t) /\
    (forall above r below, m_top (m_openElements t) = above ++ r :: below -> hasTarget name (m_item r) = true ->
       Forall (fun x => hasTarget name (m_item x) = false /\ isSpecialNode (m_item x) = false) above ->
       m_top (m_openElements t') = below /\ m_activeFormattingElements t' = m_activeFormattingElements t).
Proof.
  intros Ht Hf N1 N2 N3. destruct (anyOtherLoop_ok name t (m_top (m_openElements t)) [] Ht N1 N2 N3 eq_refl (core_nonempty _ _ _ Ht)) as (t' & E & Hc);
    [constructor|]. exists t'. split; [exact E|]. destruct Hc as [[-> Hn]|(above & r & below & s' & El & Hm & Ha & -> & Es & Hi)].
  - split_and!; [done|done|]. intros above r below El Hm Ha. exfalso. apply Hn. by exists above, r, below.
  - split_and!.
    + by apply (siteInv_below name t above r below s').
    + intros Hn. exfalso. apply Hn. by exists above, r, below.
    + intros a' r' b' El' Hm' Ha'. split; [|done]. cbn. rewrite Es. rewrite El in El'. clear - El' Hm Hm' Ha Ha'.
      revert a' Ha' El'. induction Ha as [|x above [Hx _] _ IH]; intros [|y a'] Ha' El'; simplify_eq/=; [done|..].
      * apply Forall_cons_iff in Ha' as [[Hy _] _]. congruence.
      * congruence.
      * apply Forall_cons_iff in Ha' as [_ Ha']. by apply (IH a').
Qed.

(** ** The agency *)

(** The closest element with a name is one of the list. *)
Lemma closest_in_list name l pre seg : good l -> lastSegment l pre seg ->
  HTMLFormattingElementList.closestElementInScopeWithName name l = Some None \/
  exists i, i ∈ itemsOf l /\ HTMLFormattingElementList.closestElementInScopeWithName name l = Some (Some (m_node i)).
Proof.
  intros [Hg _] [El Hpre]. subst l. induction seg as [|i seg IH] using rev_ind.
  - cbn. rewrite app_nil_r. destruct Hpre as [->|[p ->]]; left; [done|by rewrite closest_snoc].
  - rewrite map_app, app_assoc in *. cbn [map] in *. rewrite closest_snoc. rewrite itemsOf_app in Hg. apply List.Forall_app in Hg as [Hg Hi].
    apply Forall_cons_iff in Hi as [Hi _]. destruct (matchesHTMLTag i name).
    + right. exists i. rewrite (goodItem_element i Hi). split; [|done]. rewrite itemsOf_app. apply elem_of_app. right. left.
    + destruct (IH Hg) as [->|(x & Hx & ->)]; [by left|]. right. exists x. split; [|done]. rewrite itemsOf_app. apply elem_of_app. by left.
Qed.

(** An element in scope has no markers above it. *)
Lemma inScope_above isMarker isTarget above r below : inScopeCommon isMarker isTarget (above ++ r :: below) = Some true ->
  Forall (fun x => isTarget (m_item x) = false) above -> Forall (fun x => isMarker (m_item x) = false) above.
Proof.
  induction above as [|a above IH]; intros H Ha; [constructor|]. apply Forall_cons_iff in Ha as [Ha Hrest]. cbn in H. rewrite Ha in H.
  destruct (isMarker (m_item a)) eqn:E; [done|]. constructor; [done|]. by apply IH.
Qed.

Lemma inScopeNode_above s above F below : inv s -> m_top s = above ++ F :: below -> inScopeNode s (nodeOf F) = Some true ->
  Forall (fun x => isScopeMarker (m_item x) = false) above.
Proof.
  intros H E Hs. unfold inScopeNode in Hs. rewrite E in Hs. apply (inScope_above _ _ _ _ _ Hs). rewrite list.Forall_forall. intros x Hx.
  apply sameNode_neq. intros Eid. pose proof (inv_nodes s H) as Hd. rewrite E, map_app in Hd. apply list.NoDup_app in Hd as (_ & Hd & _).
  apply (Hd (nodeId (nodeOf x))); [by apply (list_elem_of_fmap_2 (fun r => nodeId (nodeOf r)))|]. unfold nodeOf at 1. rewrite Eid. left.
Qed.

(** Step 6: without a furthest block the formatting element is closed. *)
Lemma noFurthestBlock_ok t F : siteInv t -> fosterReady t -> F ∈ m_top (m_openElements t) -> m_item F ∈ itemsOf (m_activeFormattingElements t) ->
  exists t', match popUntilElementPopped (nodeOf F) (m_openElements t), HTMLFormattingElementList.remove (nodeOf F) (m_activeFormattingElements t) with
             | Some s, Some l => Some (set_active l (set_open s t)) | _, _ => None end = Some t' /\ siteInv t' /\ frame t t' /\
    exists above, m_top (m_openElements t) = above ++ F :: m_top (m_openElements t').
Proof.
  intros Ht Hf HF Hin. assert (Hp : plainItem (m_item F)) by (apply formatting_plain, (proj1 (list.Forall_forall _ _) (core_items _ _ _ Ht)); done).
  destruct (popUntilElement_ok (m_openElements t) F (core_stack _ _ _ Ht) HF Hp) as (above & below & E & _ & Ep & Hi). rewrite Ep.
  rewrite remove_filter by apply Ht. eexists. split; [reflexivity|].
  assert (Es : m_top (popped (S (length above)) (m_openElements t)) = below).
  { unfold popped. cbn [m_top]. rewrite E. change (F :: below) with ([F] ++ below). rewrite app_assoc, drop_app_length'; [done|]. rewrite length_app. cbn. lia. }
  assert (Hne : below <> []) by (by apply (shaped_above _ _ _ _ above F below (inv_shape _ (core_stack _ _ _ Ht)) E Hp)).
  assert (Hsub : forall r, r ∈ below -> r ∈ m_top (m_openElements t)) by (intros r Hr; rewrite E; apply elem_of_app; right; by right).
  split; [|split; [|exists above; rewrite E; do 2 f_equal; symmetry; exact Es]].
  - apply (core_shrink (m_openElements t) (m_activeFormattingElements t)); try done.
    + cbn. by rewrite <- Es in Hne.
    + cbn. intros r Hr. apply Hsub. by rewrite <- Es.
    + by apply good_filter, (core_list _ _ _ Ht).
    + intros x Hx. apply list_elem_of_omap in Hx as (e & He & Hx). apply list_elem_of_filter in He as [_ He]. apply list_elem_of_omap. by exists e.
  - constructor; [done|done|cbn; lia|cbn; intros r Hr; left; apply Hsub; by rewrite <- Es|].
    cbn. intros x Hx. left. apply list_elem_of_omap in Hx as (e & He & Hx). apply list_elem_of_filter in He as [_ He]. apply list_elem_of_omap. by exists e.
Qed.

Lemma agencyLoop_ok n name : forall t, siteInv t -> fosterReady t -> name <> lit "html" -> name <> lit "head" -> name <> lit "body" ->
  exists t', agencyLoop n name t = Some t' /\ siteInv t' /\ frame t t' /\ reworked name (m_top (m_openElements t)) (m_top (m_openElements t')).
Proof.
  induction n as [|n IH]; intros t Ht Hf N1 N2 N3; cbn [agencyLoop]; [exists t; split_and!; [done|done|apply frame_refl|constructor]|]. pose proof (core_stack _ _ _ Ht) as H.
  pose proof (core_list _ _ _ Ht) as Hg.
  destruct (lastSegment_exists (m_activeFormattingElements t)) as (pre & seg & Hseg).
  destruct (closest_in_list name _ pre seg Hg Hseg) as [->|(i & Hin & ->)].
  { by apply anyOther_ok. }
  assert (Hscope : exists b, (if containsNode (m_openElements t) (m_node i) then inScopeNode (m_openElements t) (m_node i) else Some true) = Some b).
  { destruct (containsNode _ _); [|by eexists]. destruct (inv_root _ H (core_nonempty _ _ _ Ht)) as (root & Hroot & Hr & _).
    destruct (inScopeCommon_spec isScopeMarker (fun item => sameNode (m_node item) (m_node i)) (m_top (m_openElements t))) as (b & E & _); [|by exists b].
    exists root. split; [done|by apply root_isScopeMarker]. }
  destruct Hscope as ([|] & Es); rewrite Es; [|exists t; split_and!; [done|done|apply frame_refl|constructor]].
  destruct (findNode (m_openElements t) (m_node i)) as [F|] eqn:EF.
  2: { rewrite remove_filter by done. eexists. split; [reflexivity|].
       assert (Hsub : forall x, x ∈ itemsOf (filter (fun e => entryId e <> Some (nodeId (m_node i))) (m_activeFormattingElements t)) -> x ∈ itemsOf (m_activeFormattingElements t)).
       { intros x Hx. apply list_elem_of_omap in Hx as (e & He & Hx). apply list_elem_of_filter in He as [_ He]. apply list_elem_of_omap. by exists e. }
       split_and!; [|constructor; [done|done|cbn; lia|by left|cbn; intros x Hx; left; by apply Hsub]|constructor].
       apply (core_shrink (m_openElements t) (m_activeFormattingElements t)); try done; [apply Ht|by apply good_filter]. }
  unfold containsNode in Es. rewrite EF, bool_decide_eq_true_2 in Es by (by eexists).
  apply find_some in EF as [HF Hid]. apply list_elem_of_In in HF. apply sameNode_eq in Hid.
  assert (EFi : m_item F = i) by (by apply (core_agree _ _ _ Ht)). subst i. fold (nodeOf F). fold (nodeOf F) in Es.
  assert (HFf : formattingItem (m_item F)) by (by apply (proj1 (list.Forall_forall _ _) (core_items _ _ _ Ht))).
  destruct (furthestBlock_ok (m_openElements t) F H HF) as (above & below & fb & Et & Efb & Hfb).
  { pose proof (record_element _ F H HF (formatting_plain _ HFf)) as Hel. by apply element_Some in Hel as [? _]. }
  pose proof (inScopeNode_above _ above F below H Et Es) as Hmark.
  assert (Htop : is_Some (currentElement t)).
  { destruct (above_plain t above F below Ht Et Hin) as (Hpl & HFp & _). unfold currentElement, top, topStackItem, topRecord.
    destruct above as [|x above]; rewrite Et; cbn.
    - rewrite (record_element _ F H HF HFp). by eexists.
    - apply Forall_cons_iff in Hpl as [Hx _]. rewrite (record_element _ x H); [by eexists| |done]. rewrite Et. left. }
  destruct Htop as [e ->]. rewrite Efb. destruct fb as [FB|].
  - destruct Hfb as (_ & Hab & A & M & Ea & _). pose proof Et as Et'. rewrite Ea, <- app_assoc in Et. cbn [app] in Et.
    destruct (adopt_ok t A FB M F below Ht Hf Et Hab Hin) as (t1 & M' & k & new & -> & Ht1 & Hf1 & Et1 & Hnew & HM).
    destruct (IH t1 Ht1 (frame_foster _ _ Hf1 Hf) N1 N2 N3) as (t' & E & Ht' & Hf' & Hr). exists t'. split_and!; [done|done|by apply (frame_trans t t1)|].
    rewrite Et'. apply (reworked_upper name above F below (A ++ mkRecord k new :: FB :: M')); [done|done| |].
    + intros r Hr'. rewrite Ea. apply elem_of_app in Hr' as [Hr'|Hr']; [left; apply elem_of_app; by left|].
      apply elem_of_cons in Hr' as [->|Hr']; [by right|]. apply elem_of_cons in Hr' as [->|Hr']; [left; apply elem_of_app; right; left|].
      destruct (HM r Hr'); [left; apply elem_of_app; right; by right|by right].
    + rewrite Et1 in Hr. rewrite <- app_assoc. exact Hr.
  - destruct (noFurthestBlock_ok t F Ht Hf HF Hin) as (t' & -> & Ht' & Hf' & above' & Et'). exists t'. split_and!; [done|done|done|].
    assert (Hd : NoDup (m_top (m_openElements t))) by (apply (list.NoDup_fmap_1 recordId), (inv_ids _ H)).
    rewrite Et in Hd. rewrite Et in Et'. destruct (split_unique _ _ _ _ _ Hd Et') as [<- Eb]. rewrite Et, Eb.
    apply (reworked_upper name above F _ []); [done|done| |constructor]. intros r Hr. by apply not_elem_of_nil in Hr.
Qed.

(** C19: The adoption agency returns for every name other than html, head and body, from
    every site of the invariant whose open tables have foster parents where the root is a
    fragment (fosterReady; it always holds in a document): none of the assertions of the
    agency, the stack or the list fails, and both conditions are kept. *)
Theorem adoption_agency_safe name t : siteInv t -> fosterReady t ->
  name <> lit "html" -> name <> lit "head" -> name <> lit "body" ->
  exists t', callTheAdoptionAgency name t = Some t' /\ siteInv t' /\ fosterReady t'.
Proof.
  intros Ht Hf N1 N2 N3. destruct (agencyLoop_ok outerIterationLimit name t Ht Hf N1 N2 N3) as (t' & E & Hi & Hfr & _).
  exists t'. split_and!; [done|done|by apply (frame_foster t)].
Qed.

End Agency.

(** ** Examples *)

Lemma any_other_end_tag_witness :
  exists t', @processAnyOtherEndTagForInBody (lit "span") exampleSite = Some t' /\ siteInv t'.
Proof.
  destruct (@any_other_end_tag exampleDOM (lit "span") exampleSite exampleSite_inv exampleSite_foster) as (t' & E & H & _); [by vm_compute..|].
  by exists t'.
Defined.

Lemma adoption_agency_safe_witness :
  exists t', @callTheAdoptionAgency exampleDOM (lit "b") exampleSite = Some t' /\ siteInv t' /\ @fosterReady exampleDOM t'.
Proof.
  apply (@adoption_agency_safe exampleDOM (lit "b") exampleSite exampleSite_inv exampleSite_foster); by vm_compute.
Defined.

(** The markup [<b><i><p></b>]: the paragraph gets a copy of b, and the i between them
    is created again. *)
Definition misnested : HTMLConstructionSite :=
  mkSite (mkNode 9 (mkName (lit "#document") None) false) None None
    (mkStack [mkRecord 4 (exampleItem 4 "p"); mkRecord 3 (exampleItem 3 "i"); mkRecord 2 (exampleItem 2 "b");
              mkRecord 1 (exampleItem 1 "body"); mkRecord 0 (exampleItem 0 "html")]
       (Some (m_node (exampleItem 0 "html"))) None (Some (m_node (exampleItem 1 "body"))) 5 5 [])
    [Some (exampleItem 2 "b"); Some (exampleItem 3 "i")] [] AllowScriptingContent false false 512 10.

Example misnested_repaired :
  match @callTheAdoptionAgency exampleDOM (lit "b") misnested with
  | Some t =>
      map (fun r => m_tokenLocalName (m_item r)) (m_top (m_openElements t)) =
        map (fun n => Some (lit n)) ["p"; "i"; "body"; "html"]%string /\
      map (fun q => (operation q, nodeId (parent q), nodeId (child q))) (m_taskQueue t) =
        [(Reparent, 10, 4); (InsertAlreadyParsedChild, 1, 10); (TakeAllChildren, 11, 4); (Reparent, 4, 11)]%nat /\
      m_activeFormattingElements t = [Some (exampleItem 10 "i")]
  | None => False
  end.
Proof. vm_compute. repeat split. Qed.
