(* ===== verification/HTMLTreeBuilder.v ===== *)
(** * The tree builder: html/parser/HTMLTreeBuilder.cpp

    One definition per operation of HTMLTreeBuilder.  The operations call each other
    recursively (a start tag can imply end tags, which can imply start tags); those
    that are called back are variables of the section [Operations], and [process]
    ties the knot with fuel.  [None] is a failed assertion, a null pointer that is
    dereferenced, or fuel that is used up. *)
From S2P Require Import Prelude HTMLTokenizer CompatibilityMode HTMLStackItem HTMLElementStack HTMLFormattingElementList HTMLConstructionSite HTMLTreeBuilderState AdoptionAgency CSSPreloadScanner.
From Stdlib Require Import String ZArith Lia.
From stdpp Require Import base list numbers option.
#[local] Open Scope Z_scope.
#[local] Open Scope builder_scope.
Import HTMLStackItem HTMLElementStack HTMLConstructionSite CompatibilityMode HTMLTreeBuilderState.

Module HTMLTreeBuilder.

(** ** Names *)

Definition isTag (name : AtomicString) (s : string) : bool := bool_decide (name = lit s).

(** A chain of comparisons of a name. *)
Definition oneOf (name : AtomicString) (l : list string) : bool := existsb (isTag name) l.

Arguments isTag name s%_string.

Definition isNumberedHeaderTag (tagName : AtomicString) : bool := oneOf tagName ["h1"; "h2"; "h3"; "h4"; "h5"; "h6"]%string.
Definition isCaptionColOrColgroupTag (tagName : AtomicString) : bool := oneOf tagName ["caption"; "col"; "colgroup"]%string.
Definition isTableCellContextTag (tagName : AtomicString) : bool := oneOf tagName ["th"; "td"]%string.
Definition isTableBodyContextTag (tagName : AtomicString) : bool := oneOf tagName ["tbody"; "tfoot"; "thead"]%string.
Definition isNonAnchorNonNobrFormattingTag (tagName : AtomicString) : bool :=
  oneOf tagName ["b"; "big"; "code"; "em"; "font"; "i"; "s"; "small"; "strike"; "strong"; "tt"; "u"]%string.
Definition isNonAnchorFormattingTag (tagName : AtomicString) : bool :=
  isTag tagName "nobr" || isNonAnchorNonNobrFormattingTag tagName.
Definition isFormattingTag (tagName : AtomicString) : bool := isTag tagName "a" || isNonAnchorFormattingTag tagName.

Definition isHTMLSpaceOrReplacementCharacter (c : Z) : bool := CSSPreloadScanner.isHTMLSpace c || (c =? 0xFFFD).
Definition isAllWhitespace (s : list Z) : bool := forallb CSSPreloadScanner.isHTMLSpace s.
Definition isAllWhitespaceOrReplacementCharacters (s : list Z) : bool := forallb isHTMLSpaceOrReplacementCharacter s.

(** A start tag token without attributes. *)
Definition fakeToken (name : string) : Token := mkToken (lit name) [] false.
Arguments fakeToken name%_string.

Definition tokenAttribute (token : Token) (name : string) : option Attribute :=
  findAttributeInVector (tokenAttributes token) (mkName (lit name) None).
Arguments tokenAttribute token name%_string.

(** ** The character buffer *)

(** The loop of [skipLeading]: what is left. *)
Fixpoint dropLeading (p : Z -> bool) (s : list Z) : list Z :=
  match s with [] => [] | c :: s' => if p c then dropLeading p s' else s end.

(** [takeLeading] without the assertion that the buffer is not empty. *)
Definition takeLeading (p : Z -> bool) (s : list Z) : list Z * list Z :=
  let rest := dropLeading p s in (take (length s - length rest) s, rest).

Definition skipAtMostOneLeadingNewline (s : list Z) : list Z :=
  match s with c :: s' => if c =? 10 then s' else s | [] => [] end.

Definition remainingWhitespace (s : list Z) : list Z := List.filter CSSPreloadScanner.isHTMLSpace s.

(** ** Names of foreign elements and attributes *)

Definition lower (s : AtomicString) : AtomicString := map toASCIILower s.

(** The maps from lower-case names; [HashMap::add] keeps the first entry of a key. *)
Definition createCaseMap (names : list QualifiedName) : list (AtomicString * QualifiedName) :=
  map (fun n => (lower (localNameOf n), n))
    (List.filter (fun n => negb (bool_decide (lower (localNameOf n) = localNameOf n))) names).

Definition lookupName (m : list (AtomicString * QualifiedName)) (key : AtomicString) : option QualifiedName :=
  snd <$> List.find (fun e => bool_decide (fst e = key)) m.

Definition adjustAttributes (m : list (AtomicString * QualifiedName)) (token : Token) : Token :=
  mkToken (tokenName token)
    (map (fun a => match lookupName m (localNameOf (attributeName a)) with
                   | Some n => mkAttribute n (attributeValue a)
                   | None => a
                   end) (tokenAttributes token))
    (tokenSelfClosing token).

Definition withPrefix (prefix : string) (names : list QualifiedName) : list (AtomicString * QualifiedName) :=
  map (fun n => (lit prefix ++ lit ":" ++ localNameOf n, n)) names.
Arguments withPrefix prefix%_string names.

Definition xmlnsNamespaceURI : AtomicString := lit "http://www.w3.org/2000/xmlns/".

Section Environment.
Context `{env : Environment}.

Definition adjustSVGTagNameCase (name : AtomicString) : AtomicString :=
  match lookupName (createCaseMap svgTags) name with Some n => localNameOf n | None => name end.

Definition adjustSVGAttributes : Token -> Token := adjustAttributes (createCaseMap svgAttrs).
Definition adjustMathMLAttributes : Token -> Token := adjustAttributes (createCaseMap mathmlAttrs).

Definition foreignAttributesMap : list (AtomicString * QualifiedName) :=
  withPrefix "xlink" xlinkAttrs ++ withPrefix "xml" xmlAttrs ++
  [(lit "xmlns", mkName (lit "xmlns") (Some xmlnsNamespaceURI)); (lit "xmlns:xlink", mkName (lit "xlink") (Some xmlnsNamespaceURI))].

Definition adjustForeignAttributes : Token -> Token := adjustAttributes foreignAttributesMap.

(** ** Conditions *)

Definition isParsingTemplateContents : TB bool := query hasTemplateInHTMLScope.

Definition isParsingFragmentOrTemplateContents : TB bool :=
  let! b := get in if isParsingFragment b then ret true else isParsingTemplateContents.

Definition assertThat (m : TB bool) : TB unit := let! v := m in assert (fun _ => v).
Definition assertMode (l : list InsertionMode) : TB unit := assert (fun b => bool_decide (m_insertionMode b ∈ l)).
Definition assertFragment : TB unit := assert isParsingFragment.
Definition assertFragmentOrTemplate : TB unit := assertThat isParsingFragmentOrTemplateContents.

Definition setInsertionMode (m : InsertionMode) : TB unit := modify (set_mode m).
Definition currentItem : TB HTMLStackItem := query topStackItem.
Definition currentIsRootNode : TB bool :=
  query (fun s => match topNode s with None => None | Some n => Some (isNode n (rootNode s)) end).

(** [m_parser.tokenizer()->setState], if there is a tokenizer. *)
Definition setTokenizerState (st : State) : TB unit :=
  modify (fun b => set_tokenizer (match tokenizer b with Some (_, f, c) => Some (st, f, c) | None => None end) b).

(** [RedirectToFosterParentGuard]. *)
Definition redirecting {A} (m : TB A) : TB A :=
  let! b := get in
  let was := m_redirectAttachToFosterParent (m_tree b) in
  modify (fun b => set_tree (set_redirect true (m_tree b)) b) ;;
  let! a := m in
  modify (fun b => set_tree (set_redirect was (m_tree b)) b) ;;
  ret a.

(** ** Operations of the construction site that change the document at once *)

Definition executeQueuedTasks : TB unit :=
  modify (fun b => changed (map TaskExecuted (m_taskQueue (m_tree b))) (set_tree (set_queue [] (m_tree b)) b)).

(** The loop of [insertTextNode]. *)
Fixpoint textLoop (fuel : nat) (parent : ContainerNode) (nextChild : option ContainerNode) (characters : list Z) (currentPosition : nat)
  : TB unit :=
  match fuel with
  | O => fun _ => None
  | S fuel =>
      if (currentPosition <? length characters)%nat then
        let created := createWithLengthLimit parent characters currentPosition in
        let len := if (created =? 0)%nat then (length characters - currentPosition)%nat else created in
        assert (fun _ => (currentPosition + len <=? length characters)%nat) ;;
        modify (changed [TextInserted parent nextChild (take len (drop currentPosition characters))]) ;;
        textLoop fuel parent nextChild characters (currentPosition + len)
      else ret tt
  end.

Definition insertTextNode (characters : list Z) : TB unit :=
  let! site := ask (fun b =>
    match shouldFosterParent (m_tree b) with
    | None => None
    | Some true => findFosterSite (m_tree b)
    | Some false => match currentNode (m_tree b) with None => None | Some p => Some (p, None) end
    end) in
  let '(parent, nextChild) := site in
  let parent := if node_hasTagName parent (htmlName "template") then templateContent parent else parent in
  let appended := parserAppendData parent nextChild characters in
  (if (0 <? appended)%nat then modify (changed [TextAppended parent nextChild (take appended characters)]) else ret tt) ;;
  textLoop (S (length characters)) parent nextChild characters appended.

Definition mergeAttributesFromTokenIntoElement (token : Token) (element : option ContainerNode) : TB unit :=
  match tokenAttributes token with
  | [] => ret tt
  | _ => let! e := ask (fun _ => element) in modify (changed [AttributesMerged e (tokenAttributes token)])
  end.

Definition insertHTMLHtmlStartTagBeforeHTML (token : Token) : TB unit :=
  tree (insertHTMLHtmlElement token) ;; executeQueuedTasks.

Definition insertHTMLHtmlStartTagInBody (token : Token) : TB unit :=
  let! b := get in
  if m_isParsingFragment (m_tree b) then ret tt
  else let! html := query htmlElement in mergeAttributesFromTokenIntoElement token (Some html).

Definition insertHTMLBodyStartTagInBody (token : Token) : TB unit :=
  let! b := get in mergeAttributesFromTokenIntoElement token (bodyElement (openElements b)).

Definition setCompatibilityMode (mode : DocumentCompatibilityMode) : TB unit :=
  modify (fun b => changed [CompatibilityModeSet mode] (set_quirks (match mode with QuirksMode => true | _ => false end) b)).

Definition setDefaultCompatibilityMode : TB unit :=
  let! b := get in
  if m_isParsingFragment (m_tree b) then ret tt
  else if isSrcdocDocument then ret tt
  else setCompatibilityMode QuirksMode.

Definition insertDoctype (name publicId systemId : AtomicString) (forceQuirks : bool) : TB unit :=
  tree (insertDoctypeNode name) ;;
  assert (fun b => negb (m_isParsingFragment (m_tree b))) ;;
  if forceQuirks then setCompatibilityMode QuirksMode
  else setCompatibilityMode (compatibilityModeFromDoctype u_foldCase name publicId systemId).

(** ** The appropriate insertion mode *)

(** The loop of a select element: whether a table is below the item, above a template
    and the root. *)
Fixpoint selectInTable (root : option ContainerNode) (item : HTMLStackItem) (below : list ElementRecord) : option bool :=
  if isNode (m_node item) root || hasTagName item (htmlName "template") then Some false
  else
    match below with
    | [] => None
    | r :: below => if isHTMLTableElement (m_node (m_item r)) then Some true else selectInTable root (m_item r) below
    end.

Fixpoint resetLoop (b : HTMLTreeBuilder) (l : list ElementRecord) : option InsertionMode :=
  match l with
  | [] => None
  | r :: l =>
      let last := isNode (m_node (m_item r)) (rootNode (openElements b)) in
      let item := match m_fragmentContext b with
                  | Some context => if last then itemForContextElement context else m_item r
                  | None => m_item r
                  end in
      if hasTagName item (htmlName "template") then list.last (m_templateInsertionModes b)
      else if hasTagName item (htmlName "select") then
        if last then Some InSelect
        else match selectInTable (rootNode (openElements b)) item l with
             | None => None
             | Some true => Some InSelectInTable
             | Some false => Some InSelect
             end
      else if hasOneOf item (map htmlName ["td"; "th"]%string) then Some InCell
      else if hasTagName item (htmlName "tr") then Some InRow
      else if hasOneOf item (map htmlName ["tbody"; "thead"; "tfoot"]%string) then Some InTableBody
      else if hasTagName item (htmlName "caption") then Some InCaption
      else if hasTagName item (htmlName "colgroup") then Some InColumnGroup
      else if isHTMLTableElement (m_node item) then Some InTable
      else if hasTagName item (htmlName "head") then
        match m_fragmentContext b with
        | Some context => if sameNode context (m_node item) then Some InBody else Some InHead
        | None => Some InHead
        end
      else if hasTagName item (htmlName "body") then Some InBody
      else if hasTagName item (htmlName "frameset") then Some InFrameset
      else if hasTagName item (htmlName "html") then
        if bool_decide (is_Some (m_head (m_tree b))) then Some AfterHead
        else guard! isParsingFragment b in Some BeforeHead
      else if last then guard! isParsingFragment b in Some InBody
      else resetLoop b l
  end.

Definition resetInsertionModeAppropriately : TB unit :=
  let! m := ask (fun b => resetLoop b (m_top (openElements b))) in setInsertionMode m.

(** ** Elements with text *)

Definition processGenericRCDATAStartTag (token : Token) : TB unit :=
  tree (insertHTMLElement token) ;; setTokenizerState RCDATAState ;;
  modify (fun b => set_originalMode (m_insertionMode b) b) ;; setInsertionMode Text.

Definition processGenericRawTextStartTag (token : Token) : TB unit :=
  tree (insertHTMLElement token) ;; setTokenizerState RAWTEXTState ;;
  modify (fun b => set_originalMode (m_insertionMode b) b) ;; setInsertionMode Text.

Definition processScriptStartTag (token : Token) : TB unit :=
  tree (insertScriptElement token) ;; setTokenizerState ScriptDataState ;;
  modify (fun b => set_originalMode (m_insertionMode b) b) ;; setInsertionMode Text.

(** ** Templates *)

Definition processTemplateStartTag (token : Token) : TB unit :=
  formatting (fun l => Some (HTMLFormattingElementList.appendMarker l)) ;;
  tree (insertHTMLElement token) ;;
  modify (fun b => set_templateModes (m_templateInsertionModes b ++ [TemplateContents]) b) ;;
  setInsertionMode TemplateContents.

(** [m_fragmentContext.contextElement()] asserts that there is a fragment. *)
Definition processTemplateEndTag : TB bool :=
  let! inside := query hasTemplateInHTMLScope in
  if negb inside then
    assert (fun b => match m_templateInsertionModes b, m_fragmentContext b with
                     | [], _ => true
                     | [_], Some context => node_hasTagName context (htmlName "template")
                     | _, _ => false
                     end) ;;
    ret false
  else
    tree generateImpliedEndTags ;;
    stack (popUntilPopped (lit "template")) ;;
    formatting (fun l => Some (HTMLFormattingElementList.clearToLastMarker l)) ;;
    assert (fun b => match m_templateInsertionModes b with [] => false | _ => true end) ;;
    modify (fun b => set_templateModes (removelast (m_templateInsertionModes b)) b) ;;
    resetInsertionModeAppropriately ;;
    ret true.

(** ** End tags that are implied in tables *)

Definition processColgroupEndTagForInColumnGroup : TB bool :=
  let! isRoot := currentIsRootNode in
  let! item := currentItem in
  if isRoot || node_hasTagName (m_node item) (htmlName "template") then assertFragmentOrTemplate ;; ret false
  else stack pop ;; setInsertionMode InTable ;; ret true.

Definition processCaptionEndTagForInCaption : TB bool :=
  let! inside := query (fun s => inTableScope s (lit "caption")) in
  if negb inside then assertFragment ;; ret false
  else
    tree generateImpliedEndTags ;;
    stack (popUntilPopped (lit "caption")) ;;
    formatting (fun l => Some (HTMLFormattingElementList.clearToLastMarker l)) ;;
    setInsertionMode InTable ;;
    ret true.

Definition processTrEndTagForInRow : TB bool :=
  let! inside := query (fun s => inTableScope s (lit "tr")) in
  if negb inside then assertFragmentOrTemplate ;; ret false
  else
    stack popUntilTableRowScopeMarker ;;
    let! item := currentItem in
    assert (fun _ => hasTagName item (htmlName "tr")) ;;
    stack pop ;; setInsertionMode InTableBody ;; ret true.

Definition processTableEndTagForInTable : TB bool :=
  let! inside := query (fun s => inTableScope s (lit "table")) in
  if negb inside then assertFragmentOrTemplate ;; ret false
  else stack (popUntilPopped (lit "table")) ;; resetInsertionModeAppropriately ;; ret true.

(** Whether a table body is in table scope. *)
Definition tableBodyInTableScope : TB bool :=
  query (fun s =>
    match inTableScope s (lit "tbody") with
    | Some false =>
        match inTableScope s (lit "thead") with
        | Some false => inTableScope s (lit "tfoot")
        | r => r
        end
    | r => r
    end).

Definition cellInTableScope : TB bool :=
  query (fun s => match inTableScope s (lit "td") with Some false => inTableScope s (lit "th") | r => r end).

(** The name of the current item, which must be a table body. *)
Definition currentTableBodyName : TB AtomicString :=
  let! item := currentItem in
  let! name := ask (fun _ => m_tokenLocalName item) in
  assert (fun _ => isTableBodyContextTag name) ;; ret name.

(** ** In body *)

Definition processHtmlStartTagForInBody (token : Token) : TB unit :=
  let! inside := query hasTemplateInHTMLScope in
  if inside then assertThat isParsingTemplateContents else insertHTMLHtmlStartTagInBody token.

Definition processBodyEndTagForInBody : TB bool :=
  let! inside := query (fun s => inScope s (lit "body")) in
  if negb inside then ret false else setInsertionMode AfterBody ;; ret true.

(** The loop of [processCloseWhenNestedTag]: the name of the element to close, if any. *)
Fixpoint closeLoop (shouldClose : HTMLStackItem -> bool) (l : list ElementRecord) : option (option AtomicString) :=
  match l with
  | [] => None
  | r :: l =>
      let item := m_item r in
      if shouldClose item then guard! isElementNode item in Some <$> m_tokenLocalName item
      else if isSpecialNode item && negb (hasOneOf item (map htmlName ["address"; "div"; "p"]%string)) then Some None
      else closeLoop shouldClose l
  end.

Definition isLi (item : HTMLStackItem) : bool := hasTagName item (htmlName "li").
Definition isDdOrDt (item : HTMLStackItem) : bool := hasOneOf item (map htmlName ["dd"; "dt"]%string).

Definition attributesForIsindexInput (token : Token) : list Attribute :=
  List.filter (fun a => negb (matches (attributeName a) (mkName (lit "name") None) || matches (attributeName a) (mkName (lit "action") None)
                              || matches (attributeName a) (mkName (lit "prompt") None))) (tokenAttributes token)
  ++ [mkAttribute (mkName (lit "name") None) (lit "isindex")].

Definition reconstruct : TB unit := tree reconstructTheActiveFormattingElements.
Definition framesetNotOk : TB unit := modify (set_framesetOk false).

(** Whether an input element is hidden. *)
Definition isHiddenInput (token : Token) : bool :=
  match tokenAttribute token "type" with
  | Some a => equalIgnoringCase u_foldCase (attributeValue a) (lit "hidden")
  | None => false
  end.

(** ** Start and end tags *)

Section Operations.
(** [processStartTag], [processEndTag], [processFakeCharacters] and [processEndOfFile]. *)
Variable startTag : Token -> TB unit.
Variable endTag : AtomicString -> TB unit.
Variable fakeCharacters : list Z -> TB unit.
Variable endOfFile : TB unit.

Definition processFakeStartTag (name : string) : TB unit := startTag (fakeToken name).
Definition processFakeEndTag (name : string) : TB unit := endTag (lit name).

Definition processFakePEndTagIfPInButtonScope : TB unit :=
  let! inside := query (fun s => inButtonScope s (lit "p")) in
  if inside then endTag (lit "p") else ret tt.

Definition defaultForInitial : TB unit := setDefaultCompatibilityMode ;; setInsertionMode BeforeHTML.

Definition defaultForBeforeHTML : TB unit :=
  insertHTMLHtmlStartTagBeforeHTML (fakeToken "html") ;; setInsertionMode BeforeHead.

Definition defaultForBeforeHead : TB unit := startTag (fakeToken "head").
Definition defaultForInHead : TB unit := endTag (lit "head").
Definition defaultForInHeadNoscript : TB unit := endTag (lit "noscript").

Definition defaultForAfterHead : TB unit :=
  startTag (fakeToken "body") ;; modify (set_framesetOk true).

Definition defaultForInTableText : TB unit :=
  let! b := get in
  let characters := m_pendingTableCharacters b in
  modify (set_pending []) ;;
  (if negb (isAllWhitespace characters)
   then redirecting (reconstruct ;; insertTextNode characters ;; framesetNotOk ;; modify (fun b => set_mode (m_originalInsertionMode b) b))
   else insertTextNode characters ;; modify (fun b => set_mode (m_originalInsertionMode b) b)).

Definition processIsindexStartTagForInBody (token : Token) : TB unit :=
  assert (fun _ => isTag (tokenName token) "isindex") ;;
  let! b := get in
  let! template := (if bool_decide (is_Some (m_form (m_tree b))) then isParsingTemplateContents else ret true) in
  if negb template then ret tt
  else
    processFakeStartTag "form" ;;
    (match tokenAttribute token "action" with
     | Some action =>
         let! form := ask (fun b => m_form (m_tree b)) in
         modify (changed [AttributeSet form (mkName (lit "action") None) (attributeValue action)])
     | None => ret tt
     end) ;;
    processFakeStartTag "hr" ;;
    processFakeStartTag "label" ;;
    fakeCharacters (match tokenAttribute token "prompt" with
                    | Some prompt => attributeValue prompt
                    | None => searchableIndexIntroduction
                    end) ;;
    startTag (mkToken (lit "input") (attributesForIsindexInput token) false) ;;
    processFakeEndTag "label" ;;
    processFakeStartTag "hr" ;;
    processFakeEndTag "form".

Definition processCloseWhenNestedTag (shouldClose : HTMLStackItem -> bool) (token : Token) : TB unit :=
  framesetNotOk ;;
  let! name := query (fun s => closeLoop shouldClose (m_top s)) in
  (match name with Some name => endTag name | None => ret tt end) ;;
  processFakePEndTagIfPInButtonScope ;;
  tree (insertHTMLElement token).

(** [true] if the token was processed. *)
Definition processStartTagForInHead (token : Token) : TB bool :=
  let name := tokenName token in
  if isTag name "html" then processHtmlStartTagForInBody token ;; ret true
  else if oneOf name ["base"; "basefont"; "bgsound"; "command"; "link"; "meta"]%string
  then tree (insertSelfClosingHTMLElement token) ;; ret true
  else if isTag name "title" then processGenericRCDATAStartTag token ;; ret true
  else if isTag name "noscript" then
    if scriptEnabled m_options then processGenericRawTextStartTag token ;; ret true
    else tree (insertHTMLElement token) ;; setInsertionMode InHeadNoscript ;; ret true
  else if oneOf name ["noframes"; "style"]%string then processGenericRawTextStartTag token ;; ret true
  else if isTag name "script" then
    processScriptStartTag token ;;
    (if usePreHTML5ParserQuirks m_options && tokenSelfClosing token then processFakeEndTag "script" else ret tt) ;;
    ret true
  else if isTag name "template" then processTemplateStartTag token ;; ret true
  else if isTag name "head" then ret true
  else ret false.

Definition inHeadProcessed (token : Token) : TB unit := assertThat (processStartTagForInHead token).
Definition inHeadIgnored (token : Token) : TB unit := processStartTagForInHead token ;; ret tt.

(** The branches of [processStartTagForInBody] with more than a line or two. *)
Definition bodyStartTagForInBody (token : Token) : TB unit :=
  let! second := query secondElementIsHTMLBodyElement in
  let! fragmentOrTemplateCase :=
    (if negb second then ret true
     else let! one := query hasOnlyOneElement in if one then ret true else query hasTemplateInHTMLScope) in
  if fragmentOrTemplateCase then assertFragmentOrTemplate
  else framesetNotOk ;; insertHTMLBodyStartTagInBody token.

Definition framesetStartTagForInBody (token : Token) : TB unit :=
  let! second := query secondElementIsHTMLBodyElement in
  let! ignored := (if negb second then ret true else query hasOnlyOneElement) in
  if ignored then assertFragmentOrTemplate
  else
    let! b := get in
    if negb (m_framesetOk b) then ret tt
    else
      let! body := query bodyElement in
      modify (changed [NodeRemoved body]) ;;
      stack (popUntilElement body) ;;
      stack popHTMLBodyElement ;;
      assert (fun b => match top (openElements b), htmlElement (openElements b) with
                       | Some t, Some h => sameNode t h
                       | _, _ => false
                       end) ;;
      tree (insertHTMLElement token) ;;
      setInsertionMode InFrameset.

Definition anchorStartTagForInBody (token : Token) : TB unit :=
  let! activeATag := ask (fun b => HTMLFormattingElementList.closestElementInScopeWithName (lit "a") (m_activeFormattingElements (m_tree b))) in
  (match activeATag with
   | Some a =>
       processFakeEndTag "a" ;;
       formatting (HTMLFormattingElementList.remove a) ;;
       let! b := get in
       if containsNode (openElements b) a then stack (remove a) else ret tt
   | None => ret tt
   end) ;;
  reconstruct ;; tree (insertFormattingElement token).

Definition nobrStartTagForInBody (token : Token) : TB unit :=
  reconstruct ;;
  let! inside := query (fun s => inScope s (lit "nobr")) in
  (if inside then processFakeEndTag "nobr" ;; reconstruct else ret tt) ;;
  tree (insertFormattingElement token).

Definition buttonStartTagForInBody (token : Token) : TB unit :=
  let! inside := query (fun s => inScope s (lit "button")) in
  if inside then processFakeEndTag "button" ;; startTag token
  else reconstruct ;; tree (insertHTMLElement token) ;; framesetNotOk.

Definition tableStartTagForInBody (token : Token) : TB unit :=
  let! b := get in
  let! inside := (if m_inQuirksMode b then ret false else query (fun s => inButtonScope s (lit "p"))) in
  (if inside then processFakeEndTag "p" else ret tt) ;;
  tree (insertHTMLElement token) ;; framesetNotOk ;; setInsertionMode InTable.

Definition selectStartTagForInBody (token : Token) : TB unit :=
  reconstruct ;; tree (insertHTMLElement token) ;; framesetNotOk ;;
  let! b := get in
  if bool_decide (m_insertionMode b ∈ [InTable; InCaption; InColumnGroup; InTableBody; InRow; InCell])
  then setInsertionMode InSelectInTable else setInsertionMode InSelect.

Definition closeOption : TB unit :=
  let! item := currentItem in
  if isHTMLOptionElement (m_node item) then endTag (lit "option") else ret tt.

(** The tests of [processStartTagForInBody] from the plug-ins on. *)
Definition laterStartTagForInBody (token : Token) : TB unit :=
  let name := tokenName token in
  let! b := get in
  if oneOf name ["applet"; "embed"; "object"]%string && negb (pluginContentIsAllowed (m_parserContentPolicy (m_tree b))) then ret tt
  else if oneOf name ["applet"; "marquee"; "object"]%string then
    reconstruct ;; tree (insertHTMLElement token) ;;
    formatting (fun l => Some (HTMLFormattingElementList.appendMarker l)) ;; framesetNotOk
  else if isTag name "table" then tableStartTagForInBody token
  else
    let token := if isTag name "image" then mkToken (lit "img") (tokenAttributes token) (tokenSelfClosing token) else token in
    let name := tokenName token in
    if oneOf name ["area"; "br"; "embed"; "img"; "keygen"; "wbr"]%string then
      reconstruct ;; tree (insertSelfClosingHTMLElement token) ;; framesetNotOk
    else if isTag name "input" then
      reconstruct ;; tree (insertSelfClosingHTMLElement token) ;; (if isHiddenInput token then ret tt else framesetNotOk)
    else if oneOf name ["param"; "source"; "track"]%string then tree (insertSelfClosingHTMLElement token)
    else if isTag name "hr" then
      processFakePEndTagIfPInButtonScope ;; tree (insertSelfClosingHTMLElement token) ;; framesetNotOk
    else if isTag name "isindex" then processIsindexStartTagForInBody token
    else if isTag name "textarea" then
      tree (insertHTMLElement token) ;; modify (set_skipNewline true) ;; setTokenizerState RCDATAState ;;
      modify (fun b => set_originalMode (m_insertionMode b) b) ;; framesetNotOk ;; setInsertionMode Text
    else if isTag name "xmp" then
      processFakePEndTagIfPInButtonScope ;; reconstruct ;; framesetNotOk ;; processGenericRawTextStartTag token
    else if isTag name "iframe" then framesetNotOk ;; processGenericRawTextStartTag token
    else if isTag name "noembed" && pluginsEnabled m_options then processGenericRawTextStartTag token
    else if isTag name "noscript" && scriptEnabled m_options then processGenericRawTextStartTag token
    else if isTag name "select" then selectStartTagForInBody token
    else if oneOf name ["optgroup"; "option"]%string then closeOption ;; reconstruct ;; tree (insertHTMLElement token)
    else if oneOf name ["rb"; "rtc"]%string then
      let! inside := query (fun s => inScope s (lit "ruby")) in
      (if inside then tree generateImpliedEndTags else ret tt) ;; tree (insertHTMLElement token)
    else if oneOf name ["rt"; "rp"]%string then
      let! inside := query (fun s => inScope s (lit "ruby")) in
      (if inside then tree (generateImpliedEndTagsWithExclusion (lit "rtc")) else ret tt) ;; tree (insertHTMLElement token)
    else if isTag name "math" then
      reconstruct ;; tree (insertForeignElement (adjustForeignAttributes (adjustMathMLAttributes token)) mathmlNamespaceURI)
    else if isTag name "svg" then
      reconstruct ;; tree (insertForeignElement (adjustForeignAttributes (adjustSVGAttributes token)) svgNamespaceURI)
    else if isCaptionColOrColgroupTag name || oneOf name ["frame"; "head"]%string || isTableBodyContextTag name
            || isTableCellContextTag name || isTag name "tr"
    then ret tt
    else if isTag name "template" then processTemplateStartTag token
    else reconstruct ;; tree (insertHTMLElement token).

Definition processStartTagForInBody (token : Token) : TB unit :=
  let name := tokenName token in
  if isTag name "html" then processHtmlStartTagForInBody token
  else if oneOf name ["base"; "basefont"; "bgsound"; "command"; "link"; "meta"; "noframes"; "script"; "style"; "title"]%string
  then inHeadProcessed token
  else if isTag name "body" then bodyStartTagForInBody token
  else if isTag name "frameset" then framesetStartTagForInBody token
  else if oneOf name ["address"; "article"; "aside"; "blockquote"; "center"; "details"; "dir"; "div"; "dl"; "fieldset"; "figcaption";
                      "figure"; "footer"; "header"; "hgroup"; "main"; "menu"; "nav"; "ol"; "p"; "section"; "summary"; "ul"]%string
  then processFakePEndTagIfPInButtonScope ;; tree (insertHTMLElement token)
  else if isNumberedHeaderTag name then
    processFakePEndTagIfPInButtonScope ;;
    let! item := currentItem in
    (if isNumberedHeaderElement item then stack pop else ret tt) ;;
    tree (insertHTMLElement token)
  else if oneOf name ["pre"; "listing"]%string then
    processFakePEndTagIfPInButtonScope ;; tree (insertHTMLElement token) ;;
    modify (set_skipNewline true) ;; framesetNotOk
  else if isTag name "form" then
    let! b := get in
    let! template := (if bool_decide (is_Some (m_form (m_tree b))) then isParsingTemplateContents else ret true) in
    if negb template then ret tt
    else processFakePEndTagIfPInButtonScope ;; tree (insertHTMLFormElement token)
  else if isTag name "li" then processCloseWhenNestedTag isLi token
  else if oneOf name ["dd"; "dt"]%string then processCloseWhenNestedTag isDdOrDt token
  else if isTag name "plaintext" then
    processFakePEndTagIfPInButtonScope ;; tree (insertHTMLElement token) ;; setTokenizerState PLAINTEXTState
  else if isTag name "button" then buttonStartTagForInBody token
  else if isTag name "a" then anchorStartTagForInBody token
  else if isNonAnchorNonNobrFormattingTag name then reconstruct ;; tree (insertFormattingElement token)
  else if isTag name "nobr" then nobrStartTagForInBody token
  else laterStartTagForInBody token.

(** ** Start tags in tables *)

Definition closeTheCell : TB unit :=
  assertMode [InCell] ;;
  let! td := query (fun s => inTableScope s (lit "td")) in
  let! th := query (fun s => inTableScope s (lit "th")) in
  if td then assert (fun _ => negb th) ;; processFakeEndTag "td"
  else assert (fun _ => th) ;; processFakeEndTag "th" ;; assertMode [InRow].

Definition processStartTagForInTable (token : Token) : TB unit :=
  let name := tokenName token in
  if isTag name "caption" then
    stack popUntilTableScopeMarker ;; formatting (fun l => Some (HTMLFormattingElementList.appendMarker l)) ;;
    tree (insertHTMLElement token) ;; setInsertionMode InCaption
  else if isTag name "colgroup" then
    stack popUntilTableScopeMarker ;; tree (insertHTMLElement token) ;; setInsertionMode InColumnGroup
  else if isTag name "col" then processFakeStartTag "colgroup" ;; assertMode [InColumnGroup] ;; startTag token
  else if isTableBodyContextTag name then
    stack popUntilTableScopeMarker ;; tree (insertHTMLElement token) ;; setInsertionMode InTableBody
  else if isTableCellContextTag name || isTag name "tr" then
    processFakeStartTag "tbody" ;; assertMode [InTableBody] ;; startTag token
  else if isTag name "table" then
    let! closed := processTableEndTagForInTable in
    if closed then startTag token else assertFragmentOrTemplate
  else if oneOf name ["style"; "script"]%string then inHeadIgnored token
  else if isTag name "input" && isHiddenInput token then tree (insertSelfClosingHTMLElement token)
  else if isTag name "form" then
    let! b := get in
    let! template := (if bool_decide (is_Some (m_form (m_tree b))) then isParsingTemplateContents else ret true) in
    if negb template then ret tt else tree (insertHTMLFormElement token) ;; stack pop
  else if isTag name "template" then processTemplateStartTag token
  else redirecting (processStartTagForInBody token).

(** ** [processStartTag], one definition per insertion mode; the cases up to
    [AfterHead] fall through into the next one *)

Definition startTagInBody (token : Token) : TB unit := assertMode [InBody] ;; processStartTagForInBody token.

Definition startTagAfterHead (token : Token) : TB unit :=
  let name := tokenName token in
  assertMode [AfterHead] ;;
  if isTag name "html" then processHtmlStartTagForInBody token
  else if isTag name "body" then framesetNotOk ;; tree (insertHTMLBodyElement token) ;; setInsertionMode InBody
  else if isTag name "frameset" then tree (insertHTMLElement token) ;; setInsertionMode InFrameset
  else if oneOf name ["base"; "basefont"; "bgsound"; "link"; "meta"; "noframes"; "script"; "style"; "template"; "title"]%string then
    let! headItem := ask (fun b => m_head (m_tree b)) in
    let! head := ask (fun _ => element headItem) in
    stack (pushHTMLHeadElement headItem) ;;
    inHeadIgnored token ;;
    stack (removeHTMLHeadElement head)
  else if isTag name "head" then ret tt
  else defaultForAfterHead ;; startTagInBody token.

Definition startTagInHead (token : Token) : TB unit :=
  assertMode [InHead] ;;
  let! processed := processStartTagForInHead token in
  if processed then ret tt else defaultForInHead ;; startTagAfterHead token.

Definition startTagBeforeHead (token : Token) : TB unit :=
  let name := tokenName token in
  assertMode [BeforeHead] ;;
  if isTag name "html" then processHtmlStartTagForInBody token
  else if isTag name "head" then tree (insertHTMLHeadElement token) ;; setInsertionMode InHead
  else defaultForBeforeHead ;; startTagInHead token.

Definition startTagBeforeHTML (token : Token) : TB unit :=
  assertMode [BeforeHTML] ;;
  if isTag (tokenName token) "html" then insertHTMLHtmlStartTagBeforeHTML token ;; setInsertionMode BeforeHead
  else defaultForBeforeHTML ;; startTagBeforeHead token.

Definition startTagInCaption (token : Token) : TB unit :=
  let name := tokenName token in
  if isCaptionColOrColgroupTag name || isTableBodyContextTag name || isTableCellContextTag name || isTag name "tr" then
    let! closed := processCaptionEndTagForInCaption in
    if closed then startTag token else assertFragment
  else processStartTagForInBody token.

Definition startTagInColumnGroup (token : Token) : TB unit :=
  let name := tokenName token in
  if isTag name "html" then processHtmlStartTagForInBody token
  else if isTag name "col" then tree (insertSelfClosingHTMLElement token)
  else if isTag name "template" then processTemplateStartTag token
  else
    let! closed := processColgroupEndTagForInColumnGroup in
    if closed then startTag token else assertFragmentOrTemplate.

Definition startTagInTableBody (token : Token) : TB unit :=
  let name := tokenName token in
  if isTag name "tr" then
    stack popUntilTableBodyScopeMarker ;; tree (insertHTMLElement token) ;; setInsertionMode InRow
  else if isTableCellContextTag name then processFakeStartTag "tr" ;; assertMode [InRow] ;; startTag token
  else if isCaptionColOrColgroupTag name || isTableBodyContextTag name then
    let! inside := tableBodyInTableScope in
    if negb inside then assertFragmentOrTemplate
    else
      stack popUntilTableBodyScopeMarker ;;
      let! body := currentTableBodyName in
      endTag body ;; startTag token
  else processStartTagForInTable token.

Definition startTagInRow (token : Token) : TB unit :=
  let name := tokenName token in
  if isTableCellContextTag name then
    stack popUntilTableRowScopeMarker ;; tree (insertHTMLElement token) ;; setInsertionMode InCell ;;
    formatting (fun l => Some (HTMLFormattingElementList.appendMarker l))
  else if isTag name "tr" || isCaptionColOrColgroupTag name || isTableBodyContextTag name then
    let! closed := processTrEndTagForInRow in
    if closed then assertMode [InTableBody] ;; startTag token else assertFragmentOrTemplate
  else processStartTagForInTable token.

Definition startTagInCell (token : Token) : TB unit :=
  let name := tokenName token in
  if isCaptionColOrColgroupTag name || isTableCellContextTag name || isTag name "tr" || isTableBodyContextTag name then
    let! inside := cellInTableScope in
    if negb inside then assertFragment else closeTheCell ;; startTag token
  else processStartTagForInBody token.

Definition startTagAfterBody (token : Token) : TB unit :=
  if isTag (tokenName token) "html" then processHtmlStartTagForInBody token
  else setInsertionMode InBody ;; startTag token.

(** [processToken] forgets a leading newline before it processes the tag. *)
Definition startTagInHeadNoscript (token : Token) : TB unit :=
  let name := tokenName token in
  if isTag name "html" then processHtmlStartTagForInBody token
  else if oneOf name ["basefont"; "bgsound"; "link"; "meta"; "noframes"; "style"]%string then inHeadProcessed token
  else if isTag name "noscript" then ret tt
  else defaultForInHeadNoscript ;; modify (set_skipNewline false) ;; startTag token.

Definition startTagInFrameset (token : Token) : TB unit :=
  let name := tokenName token in
  if isTag name "html" then processHtmlStartTagForInBody token
  else if isTag name "frameset" then tree (insertHTMLElement token)
  else if isTag name "frame" then tree (insertSelfClosingHTMLElement token)
  else if isTag name "noframes" then inHeadIgnored token
  else if isTag name "template" then processTemplateStartTag token
  else ret tt.

Definition startTagAfterFrameset (token : Token) : TB unit :=
  let name := tokenName token in
  if isTag name "html" then processHtmlStartTagForInBody token
  else if isTag name "noframes" then inHeadIgnored token
  else ret tt.

Definition closeOptgroup : TB unit :=
  let! item := currentItem in
  if isHTMLOptGroupElement (m_node item) then endTag (lit "optgroup") else ret tt.

Definition startTagInSelect (token : Token) : TB unit :=
  let name := tokenName token in
  if isTag name "html" then processHtmlStartTagForInBody token
  else if isTag name "option" then closeOption ;; tree (insertHTMLElement token)
  else if isTag name "optgroup" then closeOption ;; closeOptgroup ;; tree (insertHTMLElement token)
  else if isTag name "select" then endTag (lit "select")
  else if oneOf name ["input"; "keygen"; "textarea"]%string then
    let! inside := query (fun s => inSelectScope s (lit "select")) in
    if negb inside then assertFragment else endTag (lit "select") ;; startTag token
  else if isTag name "script" then inHeadProcessed token
  else if isTag name "template" then processTemplateStartTag token
  else ret tt.

Definition inSelectInTableClosing (name : AtomicString) : bool :=
  oneOf name ["caption"; "table"]%string || isTableBodyContextTag name || isTag name "tr" || isTableCellContextTag name.

Definition startTagInSelectInTable (token : Token) : TB unit :=
  if inSelectInTableClosing (tokenName token) then endTag (lit "select") ;; startTag token
  else startTagInSelect token.

Definition modeInTemplate (name : AtomicString) : InsertionMode :=
  if isTag name "frame" then InFrameset
  else if isTag name "col" then InColumnGroup
  else if isCaptionColOrColgroupTag name || isTableBodyContextTag name then InTable
  else if isTag name "tr" then InTableBody
  else if isTableCellContextTag name then InRow
  else InBody.

Definition startTagTemplateContents (token : Token) : TB unit :=
  let name := tokenName token in
  if isTag name "template" then processTemplateStartTag token
  else if oneOf name ["link"; "script"; "style"; "meta"]%string then inHeadIgnored token
  else
    assert (fun b => bool_decide (list.last (m_templateInsertionModes b) = Some TemplateContents)) ;;
    modify (fun b => set_templateModes (removelast (m_templateInsertionModes b) ++ [modeInTemplate name]) b) ;;
    setInsertionMode (modeInTemplate name) ;;
    startTag token.

Definition processStartTag (token : Token) : TB unit :=
  let! b := get in
  match m_insertionMode b with
  | Initial => defaultForInitial ;; startTagBeforeHTML token
  | BeforeHTML => startTagBeforeHTML token
  | BeforeHead => startTagBeforeHead token
  | InHead => startTagInHead token
  | AfterHead => startTagAfterHead token
  | InBody => startTagInBody token
  | InTable => processStartTagForInTable token
  | InCaption => startTagInCaption token
  | InColumnGroup => startTagInColumnGroup token
  | InTableBody => startTagInTableBody token
  | InRow => startTagInRow token
  | InCell => startTagInCell token
  | AfterBody | AfterAfterBody => startTagAfterBody token
  | InHeadNoscript => startTagInHeadNoscript token
  | InFrameset => startTagInFrameset token
  | AfterFrameset | AfterAfterFrameset => startTagAfterFrameset token
  | InSelectInTable => startTagInSelectInTable token
  | InSelect => startTagInSelect token
  | InTableText => defaultForInTableText ;; startTag token
  | Text => fun _ => None
  | TemplateContents => startTagTemplateContents token
  end.

(** ** End tags *)

(** The end of an element in a scope: implied end tags, and everything down to the
    element is popped; [false] when the element is not in the scope. *)
Definition closeInScope (scope : HTMLElementStack -> option bool) (implied : HTMLConstructionSite -> option HTMLConstructionSite)
  (close : HTMLElementStack -> option HTMLElementStack) : TB bool :=
  let! inside := query scope in
  if negb inside then ret false else tree implied ;; stack close ;; ret true.

(** The branch of the form element, which does not return when a form was closed. *)
Definition formEndTagForInBody : TB bool :=
  let! template := isParsingTemplateContents in
  if negb template then
    let! b := get in
    modify (fun b => set_tree (set_form None (m_tree b)) b) ;;
    match m_form (m_tree b) with
    | None => ret false
    | Some node => closeInScope (fun s => inScopeNode s node) generateImpliedEndTags (remove node)
    end
  else closeInScope (fun s => inScope s (lit "form")) generateImpliedEndTags (popUntilPopped (lit "form")).

Definition processEndTagForInBody (name : AtomicString) : TB unit :=
  if isTag name "body" then processBodyEndTagForInBody ;; ret tt
  else if isTag name "html" then
    let! closed := processBodyEndTagForInBody in if closed then endTag name else ret tt
  else if oneOf name ["address"; "article"; "aside"; "blockquote"; "button"; "center"; "details"; "dir"; "div"; "dl"; "fieldset";
                      "figcaption"; "figure"; "footer"; "header"; "hgroup"; "listing"; "main"; "menu"; "nav"; "ol"; "pre";
                      "section"; "summary"; "ul"]%string
  then closeInScope (fun s => inScope s name) generateImpliedEndTags (popUntilPopped name) ;; ret tt
  else if isTag name "form" then
    let! closed := formEndTagForInBody in
    if closed then tree (AdoptionAgency.processAnyOtherEndTagForInBody name) else ret tt
  else if isTag name "p" then
    let! inside := query (fun s => inButtonScope s name) in
    if negb inside then
      processFakeStartTag "p" ;; assertThat (query (fun s => inScope s name)) ;; endTag name
    else tree (generateImpliedEndTagsWithExclusion name) ;; stack (popUntilPopped name)
  else if isTag name "li" then
    closeInScope (fun s => inListItemScope s name) (generateImpliedEndTagsWithExclusion name) (popUntilPopped name) ;; ret tt
  else if oneOf name ["dd"; "dt"]%string then
    closeInScope (fun s => inScope s name) (generateImpliedEndTagsWithExclusion name) (popUntilPopped name) ;; ret tt
  else if isNumberedHeaderTag name then
    closeInScope hasNumberedHeaderElementInScope generateImpliedEndTags popUntilNumberedHeaderElementPopped ;; ret tt
  else if isFormattingTag name then tree (AdoptionAgency.callTheAdoptionAgency name)
  else if oneOf name ["applet"; "marquee"; "object"]%string then
    let! inside := query (fun s => inScope s name) in
    if negb inside then ret tt
    else
      tree generateImpliedEndTags ;; stack (popUntilPopped name) ;;
      formatting (fun l => Some (HTMLFormattingElementList.clearToLastMarker l))
  else if isTag name "br" then processFakeStartTag "br"
  else if isTag name "template" then processTemplateEndTag ;; ret tt
  else tree (AdoptionAgency.processAnyOtherEndTagForInBody name).

Definition processEndTagForInTable (name : AtomicString) : TB unit :=
  if isTag name "table" then processTableEndTagForInTable ;; ret tt
  else if isTag name "body" || isCaptionColOrColgroupTag name || isTag name "html" || isTableBodyContextTag name
          || isTableCellContextTag name || isTag name "tr"
  then ret tt
  else redirecting (processEndTagForInBody name).

Definition processEndTagForInTableBody (name : AtomicString) : TB unit :=
  if isTableBodyContextTag name then
    let! inside := query (fun s => inTableScope s name) in
    if negb inside then ret tt
    else stack popUntilTableBodyScopeMarker ;; stack pop ;; setInsertionMode InTable
  else if isTag name "table" then
    let! inside := tableBodyInTableScope in
    if negb inside then assertFragmentOrTemplate
    else
      stack popUntilTableBodyScopeMarker ;;
      let! body := currentTableBodyName in
      endTag body ;; endTag name
  else if isTag name "body" || isCaptionColOrColgroupTag name || isTag name "html" || isTableCellContextTag name || isTag name "tr"
  then ret tt
  else processEndTagForInTable name.

Definition processEndTagForInRow (name : AtomicString) : TB unit :=
  if isTag name "tr" then processTrEndTagForInRow ;; ret tt
  else if isTag name "table" then
    let! closed := processTrEndTagForInRow in
    if closed then assertMode [InTableBody] ;; endTag name else assertFragmentOrTemplate
  else if isTableBodyContextTag name then
    let! inside := query (fun s => inTableScope s name) in
    if negb inside then ret tt
    else processFakeEndTag "tr" ;; assertMode [InTableBody] ;; endTag name
  else if isTag name "body" || isCaptionColOrColgroupTag name || isTag name "html" || isTableCellContextTag name then ret tt
  else processEndTagForInTable name.

Definition processEndTagForInCell (name : AtomicString) : TB unit :=
  if isTableCellContextTag name then
    let! inside := query (fun s => inTableScope s name) in
    if negb inside then ret tt
    else
      tree generateImpliedEndTags ;; stack (popUntilPopped name) ;;
      formatting (fun l => Some (HTMLFormattingElementList.clearToLastMarker l)) ;; setInsertionMode InRow
  else if isTag name "body" || isCaptionColOrColgroupTag name || isTag name "html" then ret tt
  else if isTag name "table" || isTag name "tr" || isTableBodyContextTag name then
    let! inside := query (fun s => inTableScope s name) in
    if negb inside then
      let! b := get in
      let! template := query (fun s => inTableScope s (lit "template")) in
      assert (fun _ => isTableBodyContextTag name || template || isParsingFragment b)
    else closeTheCell ;; endTag name
  else processEndTagForInBody name.

(** ** [processEndTag], by insertion mode *)

Definition endTagInBody (name : AtomicString) : TB unit := assertMode [InBody] ;; processEndTagForInBody name.

Definition endTagAfterHead (name : AtomicString) : TB unit :=
  assertMode [AfterHead] ;;
  if negb (oneOf name ["body"; "html"; "br"]%string) then ret tt
  else defaultForAfterHead ;; endTagInBody name.

Definition endTagInHead (name : AtomicString) : TB unit :=
  assertMode [InHead] ;;
  if isTag name "template" then processTemplateEndTag ;; ret tt
  else if isTag name "head" then stack popHTMLHeadElement ;; setInsertionMode AfterHead
  else if negb (oneOf name ["body"; "html"; "br"]%string) then ret tt
  else defaultForInHead ;; endTagAfterHead name.

Definition endTagBeforeHead (name : AtomicString) : TB unit :=
  assertMode [BeforeHead] ;;
  if negb (oneOf name ["head"; "body"; "html"; "br"]%string) then ret tt
  else defaultForBeforeHead ;; endTagInHead name.

Definition endTagBeforeHTML (name : AtomicString) : TB unit :=
  assertMode [BeforeHTML] ;;
  if negb (oneOf name ["head"; "body"; "html"; "br"]%string) then ret tt
  else defaultForBeforeHTML ;; endTagBeforeHead name.

Definition endTagInCaption (name : AtomicString) : TB unit :=
  if isTag name "caption" then processCaptionEndTagForInCaption ;; ret tt
  else if isTag name "table" then
    let! closed := processCaptionEndTagForInCaption in if closed then endTag name else assertFragment
  else if oneOf name ["body"; "col"; "colgroup"; "html"]%string || isTableBodyContextTag name || isTableCellContextTag name || isTag name "tr"
  then ret tt
  else processEndTagForInBody name.

Definition endTagInColumnGroup (name : AtomicString) : TB unit :=
  if isTag name "colgroup" then processColgroupEndTagForInColumnGroup ;; ret tt
  else if isTag name "col" then ret tt
  else if isTag name "template" then processTemplateEndTag ;; ret tt
  else
    let! closed := processColgroupEndTagForInColumnGroup in
    if closed then endTag name else assertFragmentOrTemplate.

Definition endTagAfterAfterBody (name : AtomicString) : TB unit := setInsertionMode InBody ;; endTag name.

Definition endTagAfterBody (name : AtomicString) : TB unit :=
  if isTag name "html" then
    let! b := get in if isParsingFragment b then ret tt else setInsertionMode AfterAfterBody
  else endTagAfterAfterBody name.

Definition endTagInHeadNoscript (name : AtomicString) : TB unit :=
  if isTag name "noscript" then
    let! item := currentItem in
    assert (fun _ => hasTagName item (htmlName "noscript")) ;;
    stack pop ;;
    let! item := currentItem in
    assert (fun _ => hasTagName item (htmlName "head")) ;;
    setInsertionMode InHead
  else if negb (isTag name "br") then ret tt
  else defaultForInHeadNoscript ;; modify (set_skipNewline false) ;; endTag name.

Definition endTagText (name : AtomicString) : TB unit :=
  if isTag name "script" then
    let! item := currentItem in
    assert (fun _ => hasTagName item (htmlName "script")) ;;
    let! b := get in
    (if scriptingContentIsAllowed (m_parserContentPolicy (m_tree b))
     then let! script := query top in modify (set_script (Some script)) else ret tt) ;;
    stack pop ;;
    modify (fun b => set_mode (m_originalInsertionMode b) b) ;;
    assert (fun b => match tokenizer b with
                     | Some (st, _, _) => bool_decide (st = DataState) || usePreHTML5ParserQuirks m_options
                     | None => true
                     end) ;;
    setTokenizerState DataState
  else stack pop ;; modify (fun b => set_mode (m_originalInsertionMode b) b).

Definition endTagInFrameset (name : AtomicString) : TB unit :=
  if isTag name "frameset" then
    let! isRoot := currentIsRootNode in
    let! ignored := (if isRoot then ret true else query hasTemplateInHTMLScope) in
    if ignored then assertFragmentOrTemplate
    else
      stack pop ;;
      let! b := get in
      let! item := currentItem in
      if negb (isParsingFragment b) && negb (hasTagName item (htmlName "frameset")) then setInsertionMode AfterFrameset else ret tt
  else if isTag name "template" then processTemplateEndTag ;; ret tt
  else ret tt.

Definition endTagAfterFrameset (name : AtomicString) : TB unit :=
  if isTag name "html" then setInsertionMode AfterAfterFrameset else ret tt.

(** [oneBelowTop] is only asked for when the current element is an option. *)
Definition endTagInSelect (name : AtomicString) : TB unit :=
  if isTag name "optgroup" then
    let! item := currentItem in
    (if isHTMLOptionElement (m_node item) then
       let! below := query oneBelowTop in
       match below with
       | Some below => if isHTMLOptGroupElement (m_node below) then processFakeEndTag "option" else ret tt
       | None => ret tt
       end
     else ret tt) ;;
    let! item := currentItem in
    if isHTMLOptGroupElement (m_node item) then stack pop else ret tt
  else if isTag name "option" then
    let! item := currentItem in
    if isHTMLOptionElement (m_node item) then stack pop else ret tt
  else if isTag name "select" then
    let! inside := query (fun s => inSelectScope s name) in
    if negb inside then assertFragment
    else stack (popUntilPopped (lit "select")) ;; resetInsertionModeAppropriately
  else if isTag name "template" then processTemplateEndTag ;; ret tt
  else ret tt.

Definition endTagInSelectInTable (name : AtomicString) : TB unit :=
  if inSelectInTableClosing name then
    let! inside := query (fun s => inTableScope s name) in
    if inside then endTag (lit "select") ;; endTag name else ret tt
  else endTagInSelect name.

Definition processEndTag (name : AtomicString) : TB unit :=
  let! b := get in
  match m_insertionMode b with
  | Initial => defaultForInitial ;; endTagBeforeHTML name
  | BeforeHTML => endTagBeforeHTML name
  | BeforeHead => endTagBeforeHead name
  | InHead => endTagInHead name
  | AfterHead => endTagAfterHead name
  | InBody => endTagInBody name
  | InTable => processEndTagForInTable name
  | InCaption => endTagInCaption name
  | InColumnGroup => endTagInColumnGroup name
  | InRow => processEndTagForInRow name
  | InCell => processEndTagForInCell name
  | InTableBody => processEndTagForInTableBody name
  | AfterBody => endTagAfterBody name
  | AfterAfterBody => endTagAfterAfterBody name
  | InHeadNoscript => endTagInHeadNoscript name
  | Text => endTagText name
  | InFrameset => endTagInFrameset name
  | AfterFrameset => endTagAfterFrameset name
  | AfterAfterFrameset => ret tt
  | InSelectInTable => endTagInSelectInTable name
  | InSelect => endTagInSelect name
  | InTableText => defaultForInTableText ;; endTag name
  | TemplateContents => if isTag name "template" then processTemplateEndTag ;; ret tt else ret tt
  end.

(** ** Characters *)

Definition processCharacterBufferForInBody (characters : list Z) : TB unit :=
  reconstruct ;; insertTextNode characters ;;
  let! b := get in
  if m_framesetOk b && negb (isAllWhitespaceOrReplacementCharacters characters) then framesetNotOk else ret tt.

(** [takeLeadingWhitespace], and the text node for it; what is left. *)
Definition insertLeadingWhitespace (buffer : list Z) : TB (list Z) :=
  let '(whitespace, rest) := takeLeading CSSPreloadScanner.isHTMLSpace buffer in
  (if bool_decide (whitespace = []) then ret tt else insertTextNode whitespace) ;; ret rest.

(** The cases of [processCharacterBuffer] that fall through; the result is what is left
    in the buffer. *)
Definition charactersInBody (buffer : list Z) : TB (list Z) :=
  assertMode [InBody; InCaption; InCell; TemplateContents] ;; processCharacterBufferForInBody buffer ;; ret [].

Definition charactersAfterHead (buffer : list Z) : TB (list Z) :=
  assertMode [AfterHead] ;;
  let! buffer := insertLeadingWhitespace buffer in
  if bool_decide (buffer = []) then ret [] else defaultForAfterHead ;; charactersInBody buffer.

Definition charactersInHead (buffer : list Z) : TB (list Z) :=
  assertMode [InHead] ;;
  let! buffer := insertLeadingWhitespace buffer in
  if bool_decide (buffer = []) then ret [] else defaultForInHead ;; charactersAfterHead buffer.

Definition charactersBeforeHead (buffer : list Z) : TB (list Z) :=
  assertMode [BeforeHead] ;;
  let buffer := dropLeading CSSPreloadScanner.isHTMLSpace buffer in
  if bool_decide (buffer = []) then ret [] else defaultForBeforeHead ;; charactersInHead buffer.

Definition charactersBeforeHTML (buffer : list Z) : TB (list Z) :=
  assertMode [BeforeHTML] ;;
  let buffer := dropLeading CSSPreloadScanner.isHTMLSpace buffer in
  if bool_decide (buffer = []) then ret [] else defaultForBeforeHTML ;; charactersBeforeHead buffer.

Definition charactersInitial (buffer : list Z) : TB (list Z) :=
  let buffer := dropLeading CSSPreloadScanner.isHTMLSpace buffer in
  if bool_decide (buffer = []) then ret [] else defaultForInitial ;; charactersBeforeHTML buffer.

Definition charactersInTable (buffer : list Z) : TB (list Z) :=
  assert (fun b => bool_decide (m_pendingTableCharacters b = [])) ;;
  let! item := currentItem in
  if isElementNode item && (isHTMLTableElement (m_node item) || hasOneOf item (map htmlName ["tbody"; "tfoot"; "thead"; "tr"]%string))
  then
    modify (fun b => set_originalMode (m_insertionMode b) b) ;; setInsertionMode InTableText ;;
    modify (fun b => set_pending (m_pendingTableCharacters b ++ buffer) b) ;; ret []
  else redirecting (processCharacterBufferForInBody buffer) ;; ret [].

Definition insertRemainingWhitespace (buffer : list Z) (before : TB unit) : TB (list Z) :=
  let whitespace := remainingWhitespace buffer in
  (if bool_decide (whitespace = []) then ret tt else before ;; insertTextNode whitespace) ;; ret [].

(** [processCharacterBuffer]; [goto ReprocessBuffer] is a recursive call. *)
Fixpoint reprocessBuffer (fuel : nat) (buffer : list Z) : TB (list Z) :=
  match fuel with
  | O => fun _ => None
  | S fuel =>
      let! b := get in
      let skipped := m_shouldSkipLeadingNewline b in
      (if skipped then modify (set_skipNewline false) ;; assert (fun _ => negb (bool_decide (buffer = []))) else ret tt) ;;
      let buffer := if skipped then skipAtMostOneLeadingNewline buffer else buffer in
      if skipped && bool_decide (buffer = []) then ret []
      else
        match m_insertionMode b with
        | Initial => charactersInitial buffer
        | BeforeHTML => charactersBeforeHTML buffer
        | BeforeHead => charactersBeforeHead buffer
        | InHead => charactersInHead buffer
        | AfterHead => charactersAfterHead buffer
        | InBody | InCaption | TemplateContents | InCell => charactersInBody buffer
        | InTable | InTableBody | InRow => charactersInTable buffer
        | InTableText => modify (fun b => set_pending (m_pendingTableCharacters b ++ buffer) b) ;; ret []
        | InColumnGroup =>
            let! buffer := insertLeadingWhitespace buffer in
            if bool_decide (buffer = []) then ret []
            else
              let! closed := processColgroupEndTagForInColumnGroup in
              if closed then reprocessBuffer fuel buffer
              else
                assertFragmentOrTemplate ;;
                let buffer := dropLeading (fun c => negb (CSSPreloadScanner.isHTMLSpace c)) buffer in
                if bool_decide (buffer = []) then ret [] else reprocessBuffer fuel buffer
        | AfterBody | AfterAfterBody => setInsertionMode InBody ;; reprocessBuffer fuel buffer
        | Text => insertTextNode buffer ;; ret []
        | InHeadNoscript =>
            let! buffer := insertLeadingWhitespace buffer in
            if bool_decide (buffer = []) then ret [] else defaultForInHeadNoscript ;; reprocessBuffer fuel buffer
        | InFrameset | AfterFrameset => insertRemainingWhitespace buffer (ret tt)
        | InSelectInTable | InSelect => insertTextNode buffer ;; ret []
        | AfterAfterFrameset => insertRemainingWhitespace buffer reconstruct
        end
  end.

(** A buffer is not empty when it is constructed, and empty when it is destroyed. *)
Definition processCharacterBuffer (characters : list Z) : TB unit :=
  assert (fun _ => negb (bool_decide (characters = []))) ;;
  let! rest := reprocessBuffer (length characters + 3) characters in
  assert (fun _ => bool_decide (rest = [])).

(** ** The end of the file *)

Definition processEndOfFileForInTemplateContents : TB bool :=
  let! closed := processTemplateEndTag in
  if negb closed then ret false else endOfFile ;; ret true.

Definition stopParsing : TB unit :=
  assert (fun b => bool_decide (is_Some (topNode (openElements b)))) ;; stack (fun s => Some (popAll s)).

Definition endOfFileWithTemplates : TB unit :=
  let! b := get in
  let! processed := (match m_templateInsertionModes b with [] => ret false | _ => processEndOfFileForInTemplateContents end) in
  if processed then ret tt else stopParsing.

Definition endOfFileInBody : TB unit :=
  assertMode [InBody; InCell; InCaption; InRow; TemplateContents] ;; endOfFileWithTemplates.

Definition endOfFileAfterHead : TB unit := assertMode [AfterHead] ;; defaultForAfterHead ;; endOfFileInBody.
Definition endOfFileInHead : TB unit := assertMode [InHead] ;; defaultForInHead ;; endOfFileAfterHead.
Definition endOfFileBeforeHead : TB unit := assertMode [BeforeHead] ;; defaultForBeforeHead ;; endOfFileInHead.
Definition endOfFileBeforeHTML : TB unit := assertMode [BeforeHTML] ;; defaultForBeforeHTML ;; endOfFileBeforeHead.

Definition endOfFileInTable : TB unit :=
  assertMode [InSelect; InSelectInTable; InTable; InFrameset; InTableBody; InColumnGroup] ;; endOfFileWithTemplates.

Definition endOfFileInColumnGroup : TB unit :=
  let! isRoot := currentIsRootNode in
  if isRoot then assertFragment
  else
    let! item := currentItem in
    assert (fun _ => node_hasTagName (m_node item) (htmlName "colgroup") || node_hasTagName (m_node item) (htmlName "template")) ;;
    processColgroupEndTagForInColumnGroup ;; endOfFileInTable.

Definition processEndOfFile : TB unit :=
  let! b := get in
  match m_insertionMode b with
  | Initial => defaultForInitial ;; endOfFileBeforeHTML
  | BeforeHTML => endOfFileBeforeHTML
  | BeforeHead => endOfFileBeforeHead
  | InHead => endOfFileInHead
  | AfterHead => endOfFileAfterHead
  | InBody | InCell | InCaption | InRow => endOfFileInBody
  | AfterBody | AfterAfterBody => stopParsing
  | InHeadNoscript => defaultForInHeadNoscript ;; endOfFile
  | AfterFrameset | AfterAfterFrameset => stopParsing
  | InColumnGroup => endOfFileInColumnGroup
  | InFrameset | InTable | InTableBody | InSelectInTable | InSelect => endOfFileInTable
  | InTableText => defaultForInTableText ;; endOfFile
  | Text =>
      stack pop ;;
      assert (fun b => negb (bool_decide (m_originalInsertionMode b = Text))) ;;
      modify (fun b => set_mode (m_originalInsertionMode b) b) ;;
      endOfFile
  | TemplateContents =>
      let! processed := processEndOfFileForInTemplateContents in
      if processed then ret tt else stopParsing
  end.

End Operations.

(** ** Tying the knot *)

Inductive Call : Type :=
| CallStartTag (token : Token)
| CallEndTag (name : AtomicString)
| CallCharacters (characters : list Z)
| CallEndOfFile.

Fixpoint process (fuel : nat) (c : Call) : TB unit :=
  match fuel with
  | O => fun _ => None
  | S fuel =>
      let startTag token := process fuel (CallStartTag token) in
      let endTag name := process fuel (CallEndTag name) in
      let fakeCharacters characters := process fuel (CallCharacters characters) in
      let endOfFile := process fuel CallEndOfFile in
      match c with
      | CallStartTag token => processStartTag startTag endTag fakeCharacters token
      | CallEndTag name => processEndTag startTag endTag name
      | CallCharacters characters => processCharacterBuffer startTag endTag characters
      | CallEndOfFile => processEndOfFile startTag endTag endOfFile
      end
  end.

(** Enough rounds for every token: a constant, one per open template at the end of the
    file, and one per open button at the start of a button. *)
Definition rounds (b : HTMLTreeBuilder) : nat :=
  20 + length (m_templateInsertionModes b) + length (m_top (openElements b)).

Definition processCall (c : Call) : TB unit := let! b := get in process (rounds b) c.

(** ** Tokens *)

(** [processDoctypeToken] and [processComment] call themselves once, when the mode is
    [InTableText]. *)
Definition processDoctypeToken (name publicId systemId : AtomicString) (forceQuirks : bool) : TB unit :=
  let! b := get in
  (if bool_decide (m_insertionMode b = InTableText) then defaultForInTableText else ret tt) ;;
  let! b := get in
  if bool_decide (m_insertionMode b = Initial)
  then insertDoctype name publicId systemId forceQuirks ;; setInsertionMode BeforeHTML
  else if bool_decide (m_insertionMode b = InTableText) then (fun _ => None) else ret tt.

Definition processComment : TB unit :=
  let! b := get in
  (if bool_decide (m_insertionMode b = InTableText) then defaultForInTableText else ret tt) ;;
  let! b := get in
  match m_insertionMode b with
  | Initial | BeforeHTML | AfterAfterBody | AfterAfterFrameset => tree insertCommentOnDocument
  | AfterBody => tree insertCommentOnHTMLHtmlElement
  | InTableText => fun _ => None
  | _ => tree insertComment
  end.

Definition forgetNewline : TB unit := modify (set_skipNewline false).

Definition processToken (token : AtomicHTMLToken) : TB unit :=
  match token with
  | Uninitialized => fun _ => None
  | DOCTYPE name publicId systemId forceQuirks => forgetNewline ;; processDoctypeToken name publicId systemId forceQuirks
  | StartTag token => forgetNewline ;; processCall (CallStartTag token)
  | EndTag name => forgetNewline ;; processCall (CallEndTag name)
  | Comment => forgetNewline ;; processComment
  | Character characters => processCall (CallCharacters characters)
  | EndOfFile => forgetNewline ;; processCall CallEndOfFile
  end.

(** ** Foreign content *)

Definition shouldProcessTokenInForeignContent (token : AtomicHTMLToken) : TB bool :=
  let! b := get in
  match topStackItem (openElements b) with
  | None => ret false
  | Some item =>
      if isInHTMLNamespace item then ret false
      else if isMathMLTextIntegrationPoint item
              && match token with
                 | StartTag t => negb (oneOf (tokenName t) ["mglyph"; "malignmark"]%string)
                 | Character _ => true
                 | _ => false
                 end then ret false
      else if hasTagName item (mathmlName "annotation-xml")
              && match token with StartTag t => isTag (tokenName t) "svg" | _ => false end then ret false
      else
        let! integration := ask (fun _ => isHTMLIntegrationPoint u_foldCase item) in
        if integration && match token with StartTag _ | Character _ => true | _ => false end then ret false
        else ret (match token with EndOfFile => false | _ => true end)
  end.

(** Start tags that leave foreign content. *)
Definition leavesForeignContent (token : Token) : bool :=
  let name := tokenName token in
  oneOf name ["b"; "big"; "blockquote"; "body"; "br"; "center"; "code"; "dd"; "div"; "dl"; "dt"; "em"; "embed"]%string
  || isNumberedHeaderTag name
  || oneOf name ["head"; "hr"; "i"; "img"; "li"; "listing"; "menu"; "meta"; "nobr"; "ol"; "p"; "pre"; "ruby"; "s"; "small"; "span";
                 "strong"; "strike"; "sub"; "sup"; "table"; "tt"; "u"; "ul"; "var"]%string
  || (isTag name "font"
      && existsb (fun a => bool_decide (is_Some (tokenAttribute token a))) ["color"; "face"; "size"]%string).

(** The loop over the foreign elements: the element to close, if any. *)
Fixpoint foreignLoop (name : AtomicString) (l : list ElementRecord) : option (option ContainerNode) :=
  match l with
  | [] => None
  | r :: l =>
      if hasLocalName (m_item r) name then match element (m_item r) with None => None | Some e => Some (Some e) end
      else
        match l with
        | [] => None
        | below :: _ => if isInHTMLNamespace (m_item below) then Some None else foreignLoop name l
        end
  end.

Definition processStartTagInForeignContent (token : Token) : TB unit :=
  if leavesForeignContent token then
    stack (popUntilForeignContentScopeMarker u_foldCase) ;; processCall (CallStartTag token)
  else
    let! item := currentItem in
    let! currentNamespace := ask (fun _ => m_namespaceURI item) in
    let token := if bool_decide (currentNamespace = mathmlNamespaceURI) then adjustMathMLAttributes token else token in
    let token := if bool_decide (currentNamespace = svgNamespaceURI)
                 then adjustSVGAttributes (mkToken (adjustSVGTagNameCase (tokenName token)) (tokenAttributes token) (tokenSelfClosing token))
                 else token in
    tree (insertForeignElement (adjustForeignAttributes token) currentNamespace).

Definition processEndTagInForeignContent (name : AtomicString) : TB unit :=
  let! item := currentItem in
  let name := if bool_decide (m_namespaceURI item = Some svgNamespaceURI) then adjustSVGTagNameCase name else name in
  if isTag name "script" && hasTagName item (svgName "script") then
    let! b := get in
    (if scriptingContentIsAllowed (m_parserContentPolicy (m_tree b))
     then let! script := query top in modify (set_script (Some script)) else ret tt) ;;
    stack pop
  else
    let! closed := (if isInHTMLNamespace item then ret None else query (fun s => foreignLoop name (m_top s))) in
    match closed with
    | Some e => stack (popUntilElementPopped e)
    | None => processCall (CallEndTag name)
    end.

Definition processTokenInForeignContent (token : AtomicHTMLToken) : TB unit :=
  match token with
  | Uninitialized => fun _ => None
  | DOCTYPE _ _ _ _ => ret tt
  | StartTag token => processStartTagInForeignContent token
  | EndTag name => processEndTagInForeignContent name
  | Comment => tree insertComment
  | Character characters =>
      insertTextNode characters ;;
      let! b := get in
      if m_framesetOk b && negb (isAllWhitespaceOrReplacementCharacters characters) then framesetNotOk else ret tt
  | EndOfFile => fun _ => None
  end.

(** ** The entry point *)

Definition updateTokenizer : TB unit :=
  let! b := get in
  match tokenizer b with
  | None => ret tt
  | Some (st, _, _) =>
      let! inForeignContent := (match topStackItem (openElements b) with
        | None => ret false
        | Some item =>
            if isInHTMLNamespace item then ret false
            else
              let! integration := ask (fun _ => isHTMLIntegrationPoint u_foldCase item) in
              ret (negb integration && negb (isMathMLTextIntegrationPoint item))
        end) in
      modify (set_tokenizer (Some (st, bool_decide (m_insertionMode b = Text) || inForeignContent, inForeignContent)))
  end.

Definition constructTree (token : AtomicHTMLToken) : TB unit :=
  let! foreign := shouldProcessTokenInForeignContent token in
  (if foreign then processTokenInForeignContent token else processToken token) ;;
  updateTokenizer ;;
  executeQueuedTasks.

Definition takeScriptToProcess : TB ContainerNode :=
  let! script := ask m_scriptToProcess in modify (set_script None) ;; ret script.

Definition finished : TB unit :=
  let! b := get in
  if isParsingFragment b then ret tt
  else assert (fun b => bool_decide (m_templateInsertionModes b = [])).

(** ** Construction *)

(** The tree builder of a document. *)
Definition newBuilder (root : ContainerNode) (policy : ParserContentPolicy) (maximumDOMTreeDepth : Z) (inQuirksMode : bool)
  (tokenizer : option (State * bool * bool)) (next : nat) : HTMLTreeBuilder :=
  mkBuilder true None
    (mkSite root None None newStack [] [] policy false false maximumDOMTreeDepth next)
    Initial Initial [] [] false None inQuirksMode tokenizer [].

(** The tree builder of a fragment; [form] is the closest form of the context element. *)
Definition newFragmentBuilder (fragment context : ContainerNode) (form : option ContainerNode) (policy : ParserContentPolicy)
  (maximumDOMTreeDepth : Z) (inQuirksMode : bool) (tokenizer : option (State * bool * bool)) (next : nat) : option HTMLTreeBuilder :=
  let b := mkBuilder true (Some context)
    (mkSite fragment None None newStack [] [] policy true false maximumDOMTreeDepth next)
    Initial Initial [] [] false None inQuirksMode tokenizer [] in
  match (stack (pushRootNode (itemForDocumentFragmentNode fragment)) ;;
         (if node_hasTagName context (htmlName "template") then modify (set_templateModes [TemplateContents]) else ret tt) ;;
         resetInsertionModeAppropriately ;;
         modify (fun b => set_tree (set_form form (m_tree b)) b)) b with
  | None => None
  | Some (_, b) => Some b
  end.

End Environment.
End HTMLTreeBuilder.
