(* ===== verification/HTMLTreeBuilderExamples.v ===== *)
(** * Documents that the tree builder is run on

    A concrete environment, a run of whole documents, and four documents for
    which the code does not do what it means to. *)
From S2P Require Import Prelude HTMLTokenizer CompatibilityMode HTMLStackItem HTMLElementStack HTMLFormattingElementList HTMLConstructionSite HTMLTreeBuilderState HTMLTreeBuilder.
From Stdlib Require Import String ZArith Lia.
From stdpp Require Import base list numbers option.
#[local] Open Scope Z_scope.
Import HTMLStackItem HTMLElementStack HTMLConstructionSite CompatibilityMode HTMLTreeBuilderState HTMLTreeBuilder.

(** The tokens of a document, one after the other. *)
Fixpoint constructAll {env : Environment} (tokens : list AtomicHTMLToken) (b : HTMLTreeBuilder) : option HTMLTreeBuilder :=
  match tokens with
  | [] => Some b
  | token :: tokens =>
      match constructTree token b with
      | None => None
      | Some (_, b) => constructAll tokens b
      end
  end.

Definition emptyDOM : DOM := mkDOM (fun _ => None) (fun _ => false) (fun _ => false) (fun _ _ => false).

Definition exampleOptions : HTMLParserOptions := mkOptions true true false.

Definition exampleEnvironment : Environment :=
  mkEnvironment emptyDOM exampleOptions toASCIILower [svgName "foreignObject"] [] [] [] [] (lit "search") false
    (fun n => n) (fun _ _ _ => O) (fun _ l position => (length l - position)%nat).

Definition exampleDocument : ContainerNode := mkNode 0 (mkName (lit "#document") None) false.

Definition exampleBuilder : HTMLTreeBuilder := newBuilder exampleDocument AllowScriptingContent 512 false None 1.

Definition startOf (name : string) : AtomicHTMLToken := StartTag (fakeToken name).
Definition endOf (name : string) : AtomicHTMLToken := EndTag (lit name).
Arguments startOf name%_string.
Arguments endOf name%_string.

(** What is open after some tokens: the mode and the names of the elements. *)
Definition openAfter (tokens : list AtomicHTMLToken) : option (InsertionMode * list (option AtomicString)) :=
  match constructAll (env := exampleEnvironment) tokens exampleBuilder with
  | None => None
  | Some b => Some (m_insertionMode b, map (fun r => m_tokenLocalName (m_item r)) (m_top (m_openElements (m_tree b))))
  end.

Definition opened (l : list string) : list (option AtomicString) := map (fun s => Some (lit s)) l.

(** A table with text in it: the cell is implied, and the text in the row is put
    before the table. *)
Example table_implied :
  openAfter [startOf "table"; startOf "td"; Character (lit "x"); startOf "tr"; Character (lit "y"); startOf "b"]
  = Some (InRow, opened ["b"; "tr"; "tbody"; "table"; "body"; "html"]%string).
Proof. vm_compute. reflexivity. Qed.

(** A select in a table is closed by the next row. *)
Example select_closed :
  openAfter [startOf "table"; startOf "tr"; startOf "td"; startOf "select"; startOf "option"; startOf "tr"]
  = Some (InRow, opened ["tr"; "tbody"; "table"; "body"; "html"]%string).
Proof. vm_compute. reflexivity. Qed.

(** A frameset in a template removes the body with the template, but the insertion
    mode of the template stays; the end of the file then pops a template that is not
    there. *)
Example frameset_in_template :
  openAfter [startOf "b"; startOf "template"; startOf "frameset"]
    = Some (InFrameset, opened ["frameset"; "html"]%string)
  /\ openAfter [startOf "b"; startOf "template"; startOf "frameset"; EndOfFile] = None.
Proof. vm_compute. split; reflexivity. Qed.

(** Two forms in a template are closed by one end tag. *)
Example two_forms_closed :
  openAfter [startOf "b"; startOf "template"; startOf "form"; startOf "form"]
    = Some (InBody, opened ["form"; "form"; "template"; "b"; "body"; "html"]%string)
  /\ openAfter [startOf "b"; startOf "template"; startOf "form"; startOf "form"; endOf "form"]
     = Some (InBody, opened ["template"; "b"; "body"; "html"]%string).
Proof. vm_compute. split; reflexivity. Qed.

(** An isindex element with an empty prompt makes an empty buffer of characters. *)
Example isindex_empty_prompt :
  openAfter [StartTag (mkToken (lit "isindex") [mkAttribute (mkName (lit "prompt") None) []] false)] = None
  /\ openAfter [StartTag (mkToken (lit "isindex") [mkAttribute (mkName (lit "prompt") None) (lit "?")] false)]
     = Some (InBody, opened ["body"; "html"]%string).
Proof. vm_compute. split; reflexivity. Qed.

(** A formatting element of an inner template is reconstructed in the outer one, whose
    first tag is then [col]: the mode is the one for column groups, but the current
    element is neither a column group nor the template. *)
Example col_after_text :
  openAfter [startOf "template"; startOf "template"; startOf "b"; startOf "applet"; endOf "template"; Character (lit "x"); startOf "col"]
    = Some (InColumnGroup, opened ["b"; "template"; "head"; "html"]%string)
  /\ openAfter [startOf "template"; startOf "template"; startOf "b"; startOf "applet"; endOf "template"; Character (lit "x"); startOf "col"; EndOfFile] = None.
Proof. vm_compute. split; reflexivity. Qed.
