(* ===== verification/HTMLTreeBuilderKinds.v ===== *)
(** * The nesting of open elements

    What the insertion modes of the tree builder depend on is which structural
    elements are open and how they are nested.  A record of the stack is
    abstracted to its [Kind]; [okStack] is the nesting that the tree builder keeps,
    and [ctx] the insertion mode that belongs to a stack. *)
From S2P Require Import Prelude HTMLTokenizer HTMLStackItem HTMLElementStack HTMLElementStackProps HTMLFormattingElementList HTMLFormattingElementProps HTMLConstructionSite HTMLConstructionSiteProps HTMLTreeBuilderState HTMLTreeBuilder.
From Stdlib Require Import String ZArith Lia.
From stdpp Require Import base list numbers option.
#[local] Open Scope Z_scope.
Import HTMLStackItem HTMLElementStack HTMLConstructionSite HTMLTreeBuilderState HTMLTreeBuilder.

(** ** Kinds *)

Inductive Kind : Type :=
| KHtml | KHead | KBody | KFrameset | KTemplate | KSelect | KCell | KRow | KTableBody | KCaption | KColgroup | KTable
| KOption | KNoscript | KOther | KForeign.

#[export] Instance Kind_eq_dec : EqDecision Kind.
Proof. solve_decision. Defined.

Definition kindTable : list (string * Kind) :=
  [("html", KHtml); ("head", KHead); ("body", KBody); ("frameset", KFrameset); ("template", KTemplate); ("select", KSelect);
   ("td", KCell); ("th", KCell); ("tr", KRow); ("tbody", KTableBody); ("thead", KTableBody); ("tfoot", KTableBody);
   ("caption", KCaption); ("colgroup", KColgroup); ("table", KTable); ("option", KOption); ("optgroup", KOption); ("noscript", KNoscript)]%string.

Definition nameKind (name : AtomicString) : Kind :=
  match List.find (fun e => isTag name (fst e)) kindTable with Some e => snd e | None => KOther end.

Definition kindOf (item : HTMLStackItem) : Kind :=
  if negb (isInHTMLNamespace item) then KForeign
  else match m_tokenLocalName item with Some name => nameKind name | None => KOther end.

(** The kinds that do not matter for the insertion mode. *)
Definition loose (k : Kind) : bool := match k with KOption | KNoscript | KOther | KForeign => true | _ => false end.

(** The kinds of the elements with text. *)
Definition textKind (k : Kind) : bool := match k with KOption | KNoscript | KOther => true | _ => false end.

Lemma textKind_loose k : textKind k = true -> loose k = true.
Proof. by destruct k. Qed.

Definition looseName (name : AtomicString) : bool := loose (nameKind name).

(** ** Nesting *)

(** The insertion mode of a stack; [ms] are the modes of the open templates, the
    innermost one first. *)
Fixpoint ctx (ks : list Kind) (ms : list InsertionMode) : InsertionMode :=
  match ks with
  | [] => Initial
  | k :: ks =>
      match k with
      | KHtml => AfterHead | KHead => InHead | KBody => InBody | KFrameset => InFrameset | KSelect => InSelect
      | KCell => InCell | KRow => InRow | KTableBody => InTableBody | KCaption => InCaption | KColgroup => InColumnGroup
      | KTable => InTable
      | KTemplate => match ms with m :: _ => m | [] => Initial end
      | KOption | KNoscript | KOther | KForeign => ctx ks ms
      end
  end.

(** The modes for content of the body, inside and outside of tables. *)
Definition bodyMode (m : InsertionMode) : bool := match m with InBody | InCaption | InCell => true | _ => false end.
Definition tableMode (m : InsertionMode) : bool := match m with InTable | InTableBody | InRow => true | _ => false end.
Definition flexMode (m : InsertionMode) : bool := bodyMode m || tableMode m.

(** The modes of a template. *)
Definition templateMode (m : InsertionMode) : bool :=
  match m with TemplateContents | InFrameset | InColumnGroup | InTable | InTableBody | InRow | InBody => true | _ => false end.

(** Where elements without structure can be open.  A template switches to [InFrameset]
    at a frame, whatever is open in it. *)
Definition flexibleMode (m : InsertionMode) (ms : list InsertionMode) : Prop :=
  flexMode m = true \/ m = TemplateContents \/ (m = InFrameset /\ ms <> []).
Definition flexible (ks : list Kind) (ms : list InsertionMode) : Prop := flexibleMode (ctx ks ms) ms.

Definition structuralTop (ks : list Kind) : bool := match ks with k :: _ => negb (loose k) | [] => false end.

Inductive okStack : list Kind -> list InsertionMode -> Prop :=
| ok_html : okStack [KHtml] []
| ok_head : okStack [KHead; KHtml] []
| ok_body : okStack [KBody; KHtml] []
| ok_frameset ks : ks = [KHtml] \/ head ks = Some KFrameset -> okStack ks [] -> okStack (KFrameset :: ks) []
| ok_template m ks ms : templateMode m = true -> okStack ks ms -> okStack (KTemplate :: ks) (m :: ms)
| ok_loose k ks ms : loose k = true -> flexible ks ms -> okStack ks ms -> okStack (k :: ks) ms
| ok_option ks ms : ctx ks ms = InSelect -> okStack ks ms -> okStack (KOption :: ks) ms
| ok_select ks ms : flexMode (ctx ks ms) = true -> okStack ks ms -> okStack (KSelect :: ks) ms
| ok_table ks ms : bodyMode (ctx ks ms) = true -> okStack ks ms -> okStack (KTable :: ks) ms
| ok_caption ks ms : ctx ks ms = InTable -> structuralTop ks = true -> okStack ks ms -> okStack (KCaption :: ks) ms
| ok_colgroup ks ms : ctx ks ms = InTable -> structuralTop ks = true -> okStack ks ms -> okStack (KColgroup :: ks) ms
| ok_tablebody ks ms : ctx ks ms = InTable -> structuralTop ks = true -> okStack ks ms -> okStack (KTableBody :: ks) ms
| ok_row ks ms : ctx ks ms = InTableBody -> structuralTop ks = true -> okStack ks ms -> okStack (KRow :: ks) ms
| ok_cell ks ms : ctx ks ms = InRow -> structuralTop ks = true -> okStack ks ms -> okStack (KCell :: ks) ms.

Create HintDb nesting.
#[export] Hint Constructors okStack : nesting.

(** What is below the loose elements. *)
Fixpoint base (ks : list Kind) : list Kind :=
  match ks with [] => [] | k :: ks' => if loose k then base ks' else ks end.

(** ** Lemmas on nesting *)

Lemma ok_bottom ks ms : okStack ks ms -> exists upper, ks = upper ++ [KHtml].
Proof.
  induction 1 as [| | |ks _ _ [u ->]|m ks ms _ _ [u ->]|k ks ms _ _ _ [u ->]|ks ms _ _ [u ->]|ks ms _ _ [u ->]|ks ms _ _ [u ->]
    |ks ms _ _ _ [u ->]|ks ms _ _ _ [u ->]|ks ms _ _ _ [u ->]|ks ms _ _ _ [u ->]|ks ms _ _ _ [u ->]];
    [by exists []|by exists [KHead]|by exists [KBody]|..]; by eexists (_ :: u).
Qed.

Lemma ok_nonempty ks ms : okStack ks ms -> ks <> [].
Proof. by destruct 1. Qed.

Lemma ctx_loose A B ms : Forall (fun k => loose k = true) A -> ctx (A ++ B) ms = ctx B ms.
Proof. induction 1 as [|k A Hk _ IH]; [done|]. by destruct k. Qed.

Lemma base_loose A B : Forall (fun k => loose k = true) A -> base (A ++ B) = base B.
Proof. induction 1 as [|k A Hk _ IH]; [done|]. cbn. by rewrite Hk. Qed.

Lemma base_split ks : exists A, ks = A ++ base ks /\ Forall (fun k => loose k = true) A.
Proof.
  induction ks as [|k ks (A & E & HA)]; [by exists []|]. cbn. destruct (loose k) eqn:Ek; [|by exists []].
  exists (k :: A). split; [by rewrite E at 1|by constructor].
Qed.

Lemma ctx_base ks ms : ctx (base ks) ms = ctx ks ms.
Proof. destruct (base_split ks) as (A & E & HA). rewrite E at 2. by rewrite ctx_loose. Qed.

Lemma structural_base ks : structuralTop ks = true -> base ks = ks.
Proof. destruct ks as [|k ks]; [done|]. cbn. by destruct (loose k). Qed.

Lemma ok_tail k ks ms : loose k = true -> okStack (k :: ks) ms -> okStack ks ms.
Proof. intros Hk H. inversion H; subst; done. Qed.

Lemma ok_drop A B ms : Forall (fun k => loose k = true) A -> okStack (A ++ B) ms -> okStack B ms.
Proof. induction 1 as [|k A Hk _ IH]; [done|]. intros H. by apply ok_tail, IH in H. Qed.

Lemma ok_base ks ms : okStack ks ms -> okStack (base ks) ms.
Proof. destruct (base_split ks) as (A & E & HA). intros H. rewrite E in H. by apply ok_drop in H. Qed.

Lemma base_structural ks ms : okStack ks ms -> structuralTop (base ks) = true.
Proof.
  intros H. destruct (ok_bottom _ _ H) as (u & ->). clear H. induction u as [|k u IH]; [done|]. cbn. destruct (loose k) eqn:E; [done|].
  cbn. by rewrite E.
Qed.

Lemma ok_push A B ms : Forall (fun k => loose k = true) A -> flexible B ms -> okStack B ms -> okStack (A ++ B) ms.
Proof.
  induction 1 as [|k A Hk HA IH]; [done|]. intros Hf H. cbn. apply ok_loose; [done|unfold flexible; rewrite ctx_loose by done; exact Hf|by apply IH].
Qed.

(** In a flexible context the loose elements on top can be exchanged. *)
Lemma ok_exchange ks ks' ms : okStack ks ms -> flexible ks ms -> base ks' = base ks -> okStack ks' ms /\ ctx ks' ms = ctx ks ms.
Proof.
  intros H Hf E. split; [|by rewrite <- (ctx_base ks), <- (ctx_base ks'), E].
  destruct (base_split ks') as (A & E' & HA). rewrite E', E. apply ok_push; [done| |by apply ok_base]. unfold flexible. by rewrite ctx_base.
Qed.

(** There is one mode for every open template. *)
Lemma ok_templates ks ms : okStack ks ms -> length ms = length (List.filter (fun k => bool_decide (k = KTemplate)) ks).
Proof.
  induction 1 as [| | |ks _ _ IH|m ks ms _ _ IH|k ks ms Hk _ _ IH|ks ms _ _ IH|ks ms _ _ IH|ks ms _ _ IH
    |ks ms _ _ _ IH|ks ms _ _ _ IH|ks ms _ _ _ IH|ks ms _ _ _ IH|ks ms _ _ _ IH]; try done; cbn in *; [by rewrite IH|by destruct k].
Qed.

Lemma ok_noTemplate ks ms : okStack ks ms -> ms = [] <-> KTemplate ∉ ks.
Proof.
  intros H. apply ok_templates in H. split.
  - intros -> Hin. apply list_elem_of_split in Hin as (A & B & ->). rewrite List.filter_app, length_app in H. cbn [List.filter] in H.
    rewrite bool_decide_eq_true_2 in H by done. cbn [length] in H. lia.
  - intros Hn. destruct ms as [|m ms]; [done|]. destruct (List.filter _ ks) as [|k l] eqn:E; [done|].
    assert (Hin : In k (List.filter (fun k => bool_decide (k = KTemplate)) ks)) by (rewrite E; by left).
    apply filter_In in Hin as [Hin Hk]. apply bool_decide_eq_true in Hk as ->. by apply list_elem_of_In in Hin.
Qed.

(** Below the innermost template. *)
Lemma ok_below_template A B m ms : okStack (A ++ KTemplate :: B) (m :: ms) -> KTemplate ∉ A -> okStack B ms /\ templateMode m = true.
Proof.
  induction A as [|a A IH]; intros H Hn; [inversion H; subst; done|].
  assert (Ha : a <> KTemplate) by (intros ->; apply Hn; left). assert (HA : KTemplate ∉ A) by (intros Hx; apply Hn; by right).
  inversion H; subst; try done; by apply IH.
Qed.

(** ** Scopes *)

(** The kinds that are scope markers. *)
Definition scopeKind (k : Kind) : bool := match k with KTable | KCell | KCaption | KTemplate | KHtml => true | _ => false end.

Lemma structural_ctx ks ms m : ctx ks ms = m -> structuralTop ks = true ->
  exists k ks', ks = k :: ks' /\ loose k = false /\ ctx (k :: ks') ms = m.
Proof. intros H Hs. destruct ks as [|k ks]; [done|]. exists k, ks. cbn in Hs. by destruct (loose k). Qed.

Lemma ok_scope A k B ms : okStack (A ++ k :: B) ms -> flexible (A ++ k :: B) ms -> loose k = true ->
  Forall (fun x => scopeKind x = false) A -> Forall (fun x => loose x = true) A.
Proof.
  induction A as [|a A IH]; intros H Hf Hk HA; [constructor|]. apply Forall_cons_iff in HA as [Ha HA]. cbn [app] in H, Hf.
  destruct (loose a) eqn:El.
  { constructor; [done|]. apply IH; [by apply ok_tail in H| |done|done]. unfold flexible in *. by destruct a. }
  exfalso. assert (Hbody : forall l, okStack (KTableBody :: l) ms -> exists k l', l = k :: l' /\ scopeKind k = true).
  { intros l Hl. inversion Hl as [| | | | |? ? ? Hx| | | | | |? ? Hc Hs| |]; subst; [done|]. destruct (structural_ctx _ _ _ Hc Hs) as (x & l' & -> & Hx & Hc').
    exists x, l'. split; [done|]. destruct x; cbn in *; try done; discriminate Hc'. }
  destruct a; try done; try (destruct Hf as [Hf|[Hf|[Hf _]]]; discriminate Hf).
  - inversion H as [| |E| | |? ? ? Hx| | | | | | | |]; subst; [|done]. destruct A as [|? [|? A]]; simplify_eq/=.
  - inversion H; subst; [|done]. by destruct Hf as [Hf|[Hf|[_ Hf]]].
  - inversion H as [| | | | |? ? ? Hx| | | | | | |? ? Hc Hs Ho|]; subst; [done|]. destruct (structural_ctx _ _ _ Hc Hs) as (x & l & E & Hx & Hc').
    destruct A as [|y A]; cbn in E; injection E as <- <-; [congruence|]. apply Forall_cons_iff in HA as [Hy HA].
    destruct y; try done; try discriminate Hc'. destruct (Hbody _ Ho) as (z & l' & E & Hz).
    destruct A as [|w A]; cbn in E; injection E as <- <-; [by destruct k|]. apply Forall_cons_iff in HA as [Hw _]. congruence.
  - destruct (Hbody _ H) as (z & l' & E & Hz). destruct A as [|w A]; cbn in E; injection E as <- <-; [by destruct k|].
    apply Forall_cons_iff in HA as [Hw _]. congruence.
Qed.

(** ** Items of documents *)

Definition docItem (item : HTMLStackItem) : Prop := wellFormed item /\ m_isDocumentFragmentNode item = false.

Lemma isTag_eq name s : isTag name s = true <-> name = lit s.
Proof. apply bool_decide_eq_true. Qed.

Lemma nameKind_cases name : (nameKind name = KOther /\ Forall (fun e => isTag name (fst e) = false) kindTable) \/
  exists e, e ∈ kindTable /\ name = lit (fst e) /\ nameKind name = snd e.
Proof.
  unfold nameKind. destruct (List.find _ kindTable) as [e|] eqn:E.
  - right. exists e. apply find_some in E as [E1 E2]. split_and!; [by apply list_elem_of_In|by apply isTag_eq|done].
  - left. split; [done|]. by apply find_none_forall in E.
Qed.

Lemma nameKind_foreign name : nameKind name <> KForeign.
Proof.
  destruct (nameKind_cases name) as [[-> _]|(e & He & _ & ->)]; [done|]. revert e He. apply list.Forall_forall. by repeat constructor.
Qed.

Lemma nameKind_text name : loose (nameKind name) = true -> textKind (nameKind name) = true.
Proof. pose proof (nameKind_foreign name). by destruct (nameKind name). Qed.

Lemma item_cases item : docItem item ->
  (kindOf item = KForeign /\ m_namespaceURI item <> Some xhtmlNamespaceURI) \/
  exists n, m_tokenLocalName item = Some n /\ m_namespaceURI item = Some xhtmlNamespaceURI /\ kindOf item = nameKind n.
Proof.
  intros [Hw Hf]. unfold kindOf, isInHTMLNamespace. rewrite Hf, orb_false_r. unfold wellFormed in Hw. rewrite Hf in Hw. destruct Hw as (_ & -> & _).
  destruct (bool_decide_reflect (m_namespaceURI item = Some xhtmlNamespaceURI)) as [E|E]; [right|by left]. by eexists.
Qed.

Lemma tag_kind item s : docItem item -> hasTagName item (htmlName s) = true -> kindOf item = nameKind (lit s).
Proof.
  intros Hd Ht. apply hasTagName_eq in Ht as [H1 H2]. cbn in H1, H2. destruct (item_cases item Hd) as [[_ Hn]|(n & E1 & _ & ->)]; [done|].
  congruence.
Qed.

Lemma tag_false item s : docItem item -> kindOf item <> nameKind (lit s) -> hasTagName item (htmlName s) = false.
Proof. intros Hd Hn. apply not_true_iff_false. intros H. by apply Hn, tag_kind. Qed.

(** Tests for names that have other kinds, and for all names of a kind. *)
Lemma oneOf_false item L : docItem item -> forallb (fun s => negb (bool_decide (nameKind (lit s) = kindOf item))) L = true ->
  hasOneOf item (map htmlName L) = false.
Proof.
  intros Hd. unfold hasOneOf. induction L as [|s L IH]; [done|]. cbn. rewrite andb_true_iff, negb_true_iff, bool_decide_eq_false.
  intros [Hs HL]. rewrite IH by done. rewrite tag_false; [done|done|congruence].
Qed.

Lemma oneOf_true item L : docItem item -> loose (kindOf item) = false ->
  forallb (fun e => negb (bool_decide (snd e = kindOf item)) || existsb (String.eqb (fst e)) L) kindTable = true ->
  hasOneOf item (map htmlName L) = true.
Proof.
  intros Hd Hl H. destruct (item_cases item Hd) as [[E _]|(n & E1 & E2 & E3)]; [by rewrite E in Hl|].
  destruct (nameKind_cases n) as [[E4 _]|(e & He & E4 & E5)]; [by rewrite E3, E4 in Hl|].
  rewrite forallb_forall in H. apply list_elem_of_In in He. specialize (H e He). rewrite bool_decide_eq_true_2 in H by congruence. cbn in H.
  apply existsb_exists in H as (s & Hs & Es). apply String.eqb_eq in Es as <-. apply existsb_exists. exists (htmlName (fst e)).
  split; [by apply in_map|]. apply hasTagName_eq. cbn. by rewrite E1, E4.
Qed.

Lemma hasTagName_oneOf item s : hasTagName item (htmlName s) = hasOneOf item (map htmlName [s]).
Proof. unfold hasOneOf. cbn. by rewrite orb_false_r. Qed.

Lemma tag_true item s : docItem item -> loose (kindOf item) = false ->
  forallb (fun e => negb (bool_decide (snd e = kindOf item)) || String.eqb (fst e) s) kindTable = true -> hasTagName item (htmlName s) = true.
Proof.
  intros Hd Hl H. rewrite hasTagName_oneOf. apply oneOf_true; [done|done|]. revert H. rewrite !forallb_forall. intros H e He. specialize (H e He). cbn.
  by rewrite orb_false_r.
Qed.

Lemma foreign_true item : docItem item -> isInHTMLNamespace item = negb (bool_decide (kindOf item = KForeign)).
Proof.
  intros Hd. destruct (item_cases item Hd) as [[-> Hn]|(n & _ & E2 & ->)]; unfold isInHTMLNamespace; rewrite (proj2 Hd), orb_false_r.
  - by rewrite bool_decide_eq_false_2.
  - rewrite E2, (bool_decide_eq_false_2 (nameKind n = KForeign)) by apply nameKind_foreign. by rewrite bool_decide_eq_true_2.
Qed.

Lemma integration_html item : docItem item -> kindOf item <> KForeign -> hasOneOf item integrationNames = false.
Proof.
  intros Hd Hk. destruct (item_cases item Hd) as [[E _]|(n & E1 & E2 & E3)]; [done|]. unfold hasOneOf, integrationNames. rewrite existsb_app.
  unfold hasTagName. rewrite E2. cbn. by rewrite !andb_false_r.
Qed.

(** All tests of an item whose kind is known. *)
Ltac kind_of_item Hd E :=
  repeat (match goal with
  | |- context [hasTagName ?i (htmlName ?s)] => rewrite (tag_false i s Hd) by (rewrite E; vm_compute; discriminate)
  | |- context [hasTagName ?i (htmlName ?s)] => rewrite (tag_true i s Hd) by (rewrite E; vm_compute; reflexivity)
  | |- context [hasOneOf ?i (map htmlName ?l)] => rewrite (oneOf_false i l Hd) by (rewrite E; vm_compute; reflexivity)
  | |- context [hasOneOf ?i (map htmlName ?l)] => rewrite (oneOf_true i l Hd) by (rewrite E; vm_compute; reflexivity)
  | |- context [hasOneOf ?i integrationNames] => rewrite (integration_html i Hd) by (rewrite E; discriminate)
  end); rewrite ?orb_true_r, ?orb_false_r, ?andb_true_r, ?andb_false_r; cbn [orb andb negb].

Lemma doc_node item s : docItem item -> node_hasTagName (m_node item) (htmlName s) = hasTagName item (htmlName s).
Proof. intros [Hw _]. by apply node_hasTagName_item. Qed.

Lemma kind_isRoot item : docItem item -> isRootNode item = bool_decide (kindOf item = KHtml).
Proof.
  intros Hd. unfold isRootNode. rewrite (proj2 Hd). cbn [orb]. destruct (kindOf item) eqn:E; kind_of_item Hd E; by vm_compute.
Qed.

Lemma kind_tableScope item : docItem item -> isTableScopeMarker item = match kindOf item with KTable | KTemplate | KHtml => true | _ => false end.
Proof.
  intros Hd. unfold isTableScopeMarker, isHTMLTableElement. rewrite kind_isRoot, doc_node by done. destruct (kindOf item) eqn:E; kind_of_item Hd E; by vm_compute.
Qed.

Lemma kind_tableBodyScope item : docItem item ->
  isTableBodyScopeMarker item = match kindOf item with KTableBody | KTemplate | KHtml => true | _ => false end.
Proof.
  intros Hd. unfold isTableBodyScopeMarker. rewrite kind_isRoot by done. destruct (kindOf item) eqn:E; kind_of_item Hd E; by vm_compute.
Qed.

Lemma kind_tableRowScope item : docItem item ->
  isTableRowScopeMarker item = match kindOf item with KRow | KTemplate | KHtml => true | _ => false end.
Proof.
  intros Hd. unfold isTableRowScopeMarker. rewrite kind_isRoot by done. destruct (kindOf item) eqn:E; kind_of_item Hd E; by vm_compute.
Qed.

Lemma kind_scope item : docItem item -> scopeKind (kindOf item) = true -> isScopeMarker item = true.
Proof.
  intros Hd. unfold isScopeMarker, isHTMLTableElement. rewrite kind_isRoot, doc_node by done.
  destruct (kindOf item) eqn:E; intros Hs; try done; kind_of_item Hd E; done.
Qed.

Lemma kind_selectScope item : docItem item -> isSelectScopeMarker item = negb (bool_decide (kindOf item = KOption)).
Proof.
  intros Hd. unfold isSelectScopeMarker, isHTMLOptGroupElement, isHTMLOptionElement. rewrite !doc_node by done.
  destruct (kindOf item) eqn:E; kind_of_item Hd E; try by vm_compute. rewrite bool_decide_eq_true_2 by done.
  destruct (item_cases item Hd) as [[E1 _]|(n & E1 & E2 & E3)]; [congruence|]. rewrite E in E3. symmetry in E3.
  destruct (nameKind_cases n) as [[E4 _]|(e & He & E4 & E5)]; [congruence|]. rewrite E3 in E5. unfold hasTagName, hasLocalName. rewrite E1, E2, E4.
  apply list_elem_of_In in He. cbn in He. repeat destruct He as [<-|He]; try discriminate E5; try done.
Qed.

Lemma kind_foster item : docItem item -> causesFosterParenting item = true ->
  kindOf item = KTable \/ kindOf item = KTableBody \/ kindOf item = KRow.
Proof.
  intros Hd. unfold causesFosterParenting. destruct (kindOf item) eqn:E; auto; kind_of_item Hd E; done.
Qed.

Lemma kind_special item : docItem item -> loose (kindOf item) = false -> isSpecialNode item = true.
Proof.
  intros Hd Hl. unfold isSpecialNode. rewrite integration_html by (done || intros E; by rewrite E in Hl). rewrite (proj2 Hd), foreign_true by done.
  rewrite bool_decide_eq_false_2 by (intros E; by rewrite E in Hl). cbn [negb]. destruct (item_cases item Hd) as [[E1 _]|(n & E1 & E2 & E3)]; [by rewrite E1 in Hl|].
  destruct (nameKind_cases n) as [[E4 _]|(e & He & E4 & E5)]; [by rewrite E3, E4 in Hl|]. rewrite E3, E5 in Hl. unfold isNumberedHeaderElement, isTableBodyContextElement, hasOneOf, hasTagName, hasLocalName.
  rewrite E1, E2, E4. apply list_elem_of_In in He. cbn in He. repeat destruct He as [<-|He]; try done; cbn [fst snd] in *; try done; by vm_compute.
Qed.

Lemma kind_implied item : docItem item -> hasImpliedEndTag item = true -> loose (kindOf item) = true.
Proof.
  intros Hd. unfold hasImpliedEndTag, isHTMLOptionElement, isHTMLOptGroupElement. rewrite !doc_node by done.
  destruct (kindOf item) eqn:E; try done; kind_of_item Hd E; done.
Qed.

Definition plainKind (k : Kind) : bool := match k with KHtml | KHead | KBody => false | _ => true end.

Lemma kind_plain item : docItem item -> plainKind (kindOf item) = true -> plainItem item.
Proof.
  intros Hd Hk. split; [apply Hd|]. unfold isPlain. destruct (kindOf item) eqn:E; try done; kind_of_item Hd E; done.
Qed.

Lemma loose_plain k : loose k = true -> plainKind k = true.
Proof. by destruct k. Qed.

Lemma formatting_loose i : formattingItem i -> docItem i /\ kindOf i = KOther.
Proof.
  intros (Hw & Hf & Hn). assert (Hd : docItem i) by done. split; [done|]. apply existsb_exists in Hn as (n & Hin & Hn).
  unfold formattingNames in Hin. apply in_map_iff in Hin as (s & <- & Hs). rewrite (tag_kind i s Hd Hn). clear Hn. revert s Hs.
  apply List.Forall_forall. repeat constructor.
Qed.

(** The names of a kind that has one name. *)
Lemma kind_table_tag item : docItem item -> kindOf item = KTable -> hasTagName item (htmlName "table") = true.
Proof. intros Hd E. by kind_of_item Hd E. Qed.

(** What is known of the element that a start tag creates. *)
Lemma itemForToken_kind node name attrs : kindOf (mkItem node (Some name) attrs (Some xhtmlNamespaceURI) false) = nameKind name.
Proof. done. Qed.

Lemma oneOf_elem name L : oneOf name L = true <-> exists s, s ∈ L /\ name = lit s.
Proof.
  unfold oneOf. rewrite existsb_exists. split; intros (s & H1 & H2); exists s; (split; [by apply list_elem_of_In|]); by apply isTag_eq.
Qed.

(** One of many names: what can be checked for each of them. *)
Lemma oneOf_forall name L (P : AtomicString -> bool) : oneOf name L = true -> forallb (fun s => P (lit s)) L = true -> P name = true.
Proof.
  intros H HL. apply oneOf_elem in H as (s & Hs & ->). rewrite forallb_forall in HL. apply HL. by apply list_elem_of_In.
Qed.

(** A name that fails the tests for the structural names. *)
Definition structuralNames : list string :=
  ["html"; "head"; "body"; "frameset"; "template"; "select"; "td"; "th"; "tr"; "tbody"; "thead"; "tfoot"; "caption"; "colgroup"; "table"]%string.

Lemma looseName_other name : oneOf name structuralNames = false -> looseName name = true.
Proof.
  intros H. unfold looseName. destruct (nameKind_cases name) as [[-> _]|(e & He & -> & ->)]; [done|]. apply list_elem_of_In in He. cbn in He.
  repeat destruct He as [<-|He]; try done; discriminate H.
Qed.
