(* ===== verification/HTMLTreeBuilderSite.v ===== *)
(** * The construction site of a document

    The invariant of the construction site while a document is parsed, and what each
    operation on the stack, the list and the queue does to it: it succeeds, keeps the
    invariant, and changes the kinds of the open elements in a known way. *)
From S2P Require Import Prelude HTMLTokenizer HTMLStackItem HTMLElementStack HTMLElementStackProps HTMLElementStackProtocol HTMLFormattingElementList HTMLFormattingElementProps HTMLConstructionSite HTMLConstructionSiteProps AdoptionAgency AdoptionAgencyProps HTMLTreeBuilderState HTMLTreeBuilder HTMLTreeBuilderKinds.
From Stdlib Require Import String ZArith Lia.
From stdpp Require Import base list numbers option.
#[local] Open Scope Z_scope.
Import HTMLStackItem HTMLElementStack HTMLConstructionSite HTMLTreeBuilderState HTMLTreeBuilder.

Abbreviation records t := (m_top (m_openElements t)).
Abbreviation entries t := (m_activeFormattingElements t).

(** ** The invariant *)

Definition kinds (t : HTMLConstructionSite) : list Kind := map (fun r => kindOf (m_item r)) (records t).

(** A node that is remembered outside of the stack and the list. *)
Definition remembers (t : HTMLConstructionSite) (n : ContainerNode) : Prop :=
  (nodeId n < nextNode t)%nat /\
  (forall r, r ∈ records t -> nodeId (nodeOf r) = nodeId n -> nodeOf r = n) /\
  (forall i, i ∈ itemsOf (entries t) -> itemId i = nodeId n -> m_node i = n).

Record docSite (t : HTMLConstructionSite) : Prop := mkDocSite {
  doc_inv : siteInv t;
  doc_items : Forall (fun r => m_isDocumentFragmentNode (m_item r) = false /\ is_Some (m_namespaceURI (m_item r))) (records t);
  doc_fragment : m_isParsingFragment t = false;
  doc_head : forall h, m_head t = Some h -> docItem h /\ kindOf h = KHead /\ remembers t (m_node h);
  doc_form : forall n, m_form t = Some n -> node_hasTagName n (htmlName "form") = true /\ remembers t n;
  doc_apart : forall h n, m_head t = Some h -> m_form t = Some n -> itemId h <> nodeId n;
  doc_headRecord : forall h r, m_head t = Some h -> r ∈ records t -> kindOf (m_item r) = KHead -> nodeOf r = m_node h
}.

Lemma doc_item t r : docSite t -> r ∈ records t -> docItem (m_item r).
Proof.
  intros H Hr. split.
  - apply (proj1 (list.Forall_forall _ _) (inv_items _ (core_stack _ _ _ (doc_inv t H))) r Hr).
  - pose proof (doc_items t H) as Hi. rewrite list.Forall_forall in Hi. by apply Hi.
Qed.

Lemma doc_namespace t r : docSite t -> r ∈ records t -> is_Some (m_namespaceURI (m_item r)).
Proof. intros H Hr. pose proof (doc_items t H) as Hi. rewrite list.Forall_forall in Hi. by apply Hi. Qed.

Lemma doc_foster {dom : DOM} t : docSite t -> fosterReady t.
Proof.
  intros H (r & Hr & Hf). apply doc_item in Hr as [_ Hr]; [congruence|done].
Qed.

Lemma doc_nonempty t : docSite t -> records t <> [].
Proof. intros H. apply (core_nonempty _ _ _ (doc_inv t H)). Qed.

(** ** Changes *)

(** Records and entries have disappeared, and new ones have been added. *)
Record grows (t t' : HTMLConstructionSite) : Prop := mkGrows {
  grows_next : (nextNode t <= nextNode t')%nat;
  grows_records : forall r, r ∈ records t' ->
    r ∈ records t \/ (m_isDocumentFragmentNode (m_item r) = false /\ (nextNode t <= nodeId (nodeOf r))%nat /\ kindOf (m_item r) <> KHead /\
      is_Some (m_namespaceURI (m_item r)));
  grows_items : forall i, i ∈ itemsOf (entries t') -> i ∈ itemsOf (entries t) \/ (nextNode t <= itemId i)%nat
}.

Lemma remembers_grows t t' n : remembers t n -> grows t t' -> remembers t' n.
Proof.
  intros (H1 & H2 & H3) [G1 G2 G3]. split_and!; [lia|..].
  - intros r Hr E. destruct (G2 r Hr) as [Hr'|(_ & Hn & _)]; [by apply H2|lia].
  - intros i Hi E. destruct (G3 i Hi) as [Hi'|Hn]; [by apply H3|lia].
Qed.

(** The invariant after a change that keeps the pointers to head and form. *)
Lemma doc_grows t t' : docSite t -> siteInv t' -> grows t t' -> m_isParsingFragment t' = m_isParsingFragment t ->
  m_head t' = m_head t -> m_form t' = m_form t -> docSite t'.
Proof.
  intros [H1 H2 H3 H4 H5 H6 H7] Hi Hg E1 E2 E3. constructor; rewrite ?E1, ?E2, ?E3; try done.
  - rewrite list.Forall_forall in H2 |- *. intros r Hr. destruct (grows_records _ _ Hg r Hr) as [Hr'|(? & _ & _ & ?)]; [by apply H2|done].
  - intros h Eh. destruct (H4 h Eh) as (? & ? & ?). split_and!; [done|done|by apply (remembers_grows t)].
  - intros n En. destruct (H5 n En) as (? & ?). split; [done|by apply (remembers_grows t)].
  - intros h r Eh Hr Hk. destruct (grows_records _ _ Hg r Hr) as [Hr'|(_ & _ & ? & _)]; [by apply (H7 h)|done].
Qed.

Lemma frame_grows t t' : frame t t' -> grows t t'.
Proof.
  intros [_ _ H1 H2 H3]. constructor; [done| |done]. intros r Hr. destruct (H2 r Hr) as [|[Hf Hn]]; [by left|right].
  destruct (formatting_loose _ Hf) as [[_ ?] Hk]. split_and!; [done|done|by rewrite Hk|].
  destruct Hf as (_ & _ & Ht). apply existsb_exists in Ht as (n & Hin & Ht). apply hasTagName_eq in Ht as [_ ->]. unfold formattingNames in Hin. apply in_map_iff in Hin as (s & <- & _). by eexists.
Qed.

Lemma doc_frame t t' : docSite t -> siteInv t' -> frame t t' -> docSite t'.
Proof.
  intros H Hi Hf. pose proof (frame_fixed _ _ Hf) as E. unfold fixedParts in E. injection E as _ E1 E2 _ E3 _ _.
  by apply (doc_grows t); [| |apply frame_grows|..].
Qed.

(** Tasks and the counter of nodes. *)
Lemma doc_enqueue t q : docSite t -> docSite (enqueue q t).
Proof. intros [H1 H2 H3 H4 H5 H6 H7]. by constructor. Qed.

Lemma doc_next t k : docSite t -> (nextNode t <= k)%nat -> docSite (set_nextNode k t).
Proof.
  intros H Hk. apply (doc_grows t); try done; [by apply (core_mono _ _ (nextNode t)); [apply H|]|].
  constructor; [done|cbn; by left|cbn; by left].
Qed.

(** ** Popping *)

Definition dropped (n : nat) (t : HTMLConstructionSite) : HTMLConstructionSite := set_open (popped n (m_openElements t)) t.

Definition plainRecord (r : ElementRecord) : Prop := plainKind (kindOf (m_item r)) = true.

Lemma plain_records t A B : docSite t -> records t = A ++ B -> Forall plainRecord A -> Forall (fun r => plainItem (m_item r)) A.
Proof.
  intros H E HA. rewrite list.Forall_forall in HA |- *. intros r Hr. apply kind_plain; [|by apply HA]. apply (doc_item t); [done|].
  rewrite E. apply elem_of_app. by left.
Qed.

Lemma dropped_ok t A B : docSite t -> records t = A ++ B -> B <> [] -> Forall plainRecord A ->
  docSite (dropped (length A) t) /\ records (dropped (length A) t) = B /\ fixedParts (dropped (length A) t) = fixedParts t.
Proof.
  intros H E HB HA. assert (E' : records (dropped (length A) t) = B) by (cbn; by rewrite E, drop_app_length).
  split_and!; [|done|done].
  assert (Hsub : forall r, r ∈ records (dropped (length A) t) -> r ∈ records t) by (intros r; rewrite E', E; intros Hr; apply elem_of_app; by right).
  apply (doc_grows t); try done.
  - apply (core_shrink (m_openElements t) (entries t) (nextNode t)); try done; [apply H| |by rewrite E'|apply (doc_inv t H)].
    apply (inv_popped _ A B); [apply (core_stack _ _ _ (doc_inv t H))|done|by apply (plain_records t A B)|done].
  - constructor; [done|intros r Hr; left; by apply Hsub|by left].
Qed.

Lemma pop_ok t r B : docSite t -> records t = r :: B -> plainRecord r -> pop (m_openElements t) = Some (popped 1 (m_openElements t)).
Proof.
  intros H E Hr. apply (pop_plain _ r B); [apply (core_stack _ _ _ (doc_inv t H))|done|]. apply kind_plain; [|done].
  apply (doc_item t); [done|]. rewrite E. left.
Qed.

Lemma popWhile_doc t stop A r B : docSite t -> records t = A ++ r :: B -> Forall plainRecord A ->
  Forall (fun x => stop (m_item x) = Some false) A -> stop (m_item r) = Some true ->
  popWhile stop (m_openElements t) = Some (popped (length A) (m_openElements t)).
Proof.
  intros H E HA Hs Hr. apply (popWhile_ok stop A r B); [apply (core_stack _ _ _ (doc_inv t H))|done| |done].
  pose proof (plain_records t A (r :: B) H E HA) as Hp. rewrite list.Forall_forall in Hs, Hp |- *. auto.
Qed.

Lemma popped_popped n m s : popped m (popped n s) = popped (n + m) s.
Proof.
  unfold popped. cbn [m_top m_rootNode m_headElement m_bodyElement m_stackDepth nextRecord calls]. rewrite drop_drop, <- app_assoc, <- map_app.
  rewrite take_take_drop. f_equal. unfold uwrap. rewrite Zminus_mod_idemp_l. f_equal. lia.
Qed.

Lemma popWhile_pop_doc t stop A r B : docSite t -> records t = A ++ r :: B -> B <> [] -> Forall plainRecord A -> plainRecord r ->
  Forall (fun x => stop (m_item x) = Some false) A -> stop (m_item r) = Some true ->
  match popWhile stop (m_openElements t) with Some s => pop s | None => None end = Some (popped (S (length A)) (m_openElements t)).
Proof.
  intros H E HB HA Hr Hs Hsr. rewrite (popWhile_doc t stop A r B) by done.
  destruct (dropped_ok t A (r :: B) H E ltac:(done) HA) as (H' & E' & _).
  pose proof (pop_ok _ r B H' E' Hr) as Hp. cbn [dropped set_open m_openElements] in Hp. rewrite Hp, popped_popped. do 2 f_equal. lia.
Qed.

(** ** Attaching and pushing *)

Section Site.
Context {dom : DOM}.

(** Plug-ins are the elements applet, embed and object. *)
Hypothesis pluginElements : forall n, isPluginElement n = true -> exists s, s ∈ ["applet"; "embed"; "object"]%string /\ nodeName n = htmlName s.

(** An element that may be attached. *)
Definition attachable (p : ParserContentPolicy) (n : ContainerNode) : Prop :=
  (scriptingContentIsAllowed p = true \/ isScriptElement n = false) /\ (pluginContentIsAllowed p = true \/ isPluginElement n = false).

Lemma attach_ok p n b t : docSite t -> attachable (m_parserContentPolicy t) n -> exists q, attachLater p n b t = Some (enqueue q t).
Proof.
  intros H [Hs Hp]. unfold attachLater.
  assert (E1 : (scriptingContentIsAllowed (m_parserContentPolicy t) || negb (isElement n) || negb (isScriptElement n))%bool = true)
    by (destruct Hs as [->| ->]; by rewrite ?orb_true_r).
  assert (E2 : (pluginContentIsAllowed (m_parserContentPolicy t) || negb (isPluginElement n))%bool = true) by (destruct Hp as [->| ->]; by rewrite ?orb_true_r).
  rewrite E1, E2. unfold shouldFosterParent, currentStackItem, topStackItem, topRecord.
  destruct (m_redirectAttachToFosterParent t); cbn [negb]; [|by eexists]. pose proof (doc_nonempty t H).
  destruct (records t) as [|r l]; [done|]. cbn. destruct (_ && _); [|by eexists]. destruct (fosterParent_ok n t (doc_inv t H) (doc_foster t H)) as (q & E & _). by exists q.
Qed.

(** Names that may be attached with every policy, and with this one. *)
Definition attachableName (p : ParserContentPolicy) (name : AtomicString) : bool :=
  (scriptingContentIsAllowed p || negb (isTag name "script")) && (pluginContentIsAllowed p || negb (oneOf name ["applet"; "embed"; "object"]%string)).

Lemma attachable_html p name k : attachableName p name = true -> attachable p (mkNode k (mkName name (Some xhtmlNamespaceURI)) true).
Proof.
  unfold attachableName. rewrite andb_true_iff, !orb_true_iff, !negb_true_iff. intros [Hs Hp]. split.
  - destruct Hs as [|Hs]; [by left|right]. unfold isScriptElement, node_hasTagName, matches.
    cbn [isElement nodeName localNameOf htmlName svgName namespaceOf andb].
    by rewrite !(bool_decide_eq_false_2 (name = lit "script")) by (intros ->; discriminate Hs).
  - destruct Hp as [|Hp]; [by left|right]. apply not_true_iff_false. intros Hpl. apply pluginElements in Hpl as (s & Hs' & E). cbn in E.
    injection E as ->. assert (Ht : oneOf (lit s) ["applet"; "embed"; "object"]%string = true) by (apply oneOf_elem; by exists s). congruence.
Qed.

Lemma attachable_foreign p name ns k : ns <> xhtmlNamespaceURI ->
  (scriptingContentIsAllowed p || negb (isScriptElement (mkNode k (mkName name (Some ns)) true)))%bool = true ->
  attachable p (mkNode k (mkName name (Some ns)) true).
Proof.
  intros Hns Hs. split.
  - apply orb_true_iff in Hs as [|Hs]; [by left|right]. by apply negb_true_iff in Hs.
  - right. apply not_true_iff_false. intros Hpl. apply pluginElements in Hpl as (s & _ & E). injection E as _ E. by apply Hns.
Qed.

Lemma attachable_other p name k e : attachable p (mkNode k (mkName name None) e).
Proof.
  split; right.
  - unfold isScriptElement, node_hasTagName, matches. cbn. by rewrite !andb_false_r.
  - apply not_true_iff_false. intros Hpl. by apply pluginElements in Hpl as (s & _ & E).
Qed.

(** An item of the stack or the list is older than the next node. *)
Lemma doc_older t : docSite t -> (forall r, r ∈ records t -> (nodeId (nodeOf r) < nextNode t)%nat) /\
  (forall i, i ∈ itemsOf (entries t) -> (itemId i < nextNode t)%nat).
Proof.
  intros H. pose proof (doc_inv t H) as Hi. split.
  - apply (proj1 (list.Forall_forall _ _) (core_fresh_stack _ _ _ Hi)).
  - apply (proj1 (list.Forall_forall _ _) (core_fresh_list _ _ _ Hi)).
Qed.

(** A node that is neither on the stack nor in the list; what else remembers it agrees. *)
Definition unused (t : HTMLConstructionSite) (n : ContainerNode) : Prop :=
  (nodeId n < nextNode t)%nat /\
  (forall r, r ∈ records t -> nodeId (nodeOf r) <> nodeId n) /\ (forall i, i ∈ itemsOf (entries t) -> itemId i <> nodeId n) /\
  (forall h, m_head t = Some h -> itemId h = nodeId n -> m_node h = n) /\ (forall m, m_form t = Some m -> nodeId m = nodeId n -> m = n).

Lemma unused_next t n : docSite t -> nodeId n = nextNode t -> unused (set_nextNode (S (nextNode t)) t) n.
Proof.
  intros H E. destruct (doc_older t H) as [H1 H2]. split_and!; cbn; [lia|..].
  - intros r Hr. specialize (H1 r Hr). lia.
  - intros i Hi. specialize (H2 i Hi). lia.
  - intros h Eh Ei. destruct (doc_head t H h Eh) as (_ & _ & Hr & _). unfold itemId in Ei. lia.
  - intros m Em Ei. destruct (doc_form t H m Em) as (_ & Hr & _). lia.
Qed.

(** The site after a record for the item has been put on the stack. *)
Lemma doc_pushed t new s' : docSite t -> docItem new -> is_Some (m_namespaceURI new) -> unused t (m_node new) -> (kindOf new = KHead -> forall h, m_head t = Some h -> m_node new = m_node h) -> inv s' ->
  m_top s' = mkRecord (nextRecord (m_openElements t)) new :: records t -> docSite (set_open s' t).
Proof.
  intros H Hd Hns (U1 & U2 & U3 & U4 & U5) Hhead Hi Es. destruct H as [H1 H2 H3 H4 H5 H6 H7].
  assert (Hin : forall r, r ∈ m_top s' -> r ∈ records t \/ m_item r = new).
  { intros r. rewrite Es. intros Hr. apply elem_of_cons in Hr as [->|Hr]; [by right|by left]. }
  assert (Hrem : forall n, remembers t n -> (nodeId n = itemId new -> n = m_node new) -> remembers (set_open s' t) n).
  { intros n (R1 & R2 & R3) R4. split_and!; [done| |done]. cbn. intros r Hr E. destruct (Hin r Hr) as [Hr'|En]; [by apply R2|].
    unfold nodeOf in *. rewrite En in *. symmetry. by apply R4. }
  constructor; try done.
  - destruct H1 as [C1 C2 C3 C4 C5 C6 C7]. constructor; try done; cbn.
    + by rewrite Es.
    + rewrite Es. by constructor.
    + intros r i Hr Hi' E. destruct (Hin r Hr) as [Hr'|En]; [by apply C7|]. exfalso. apply (U3 i Hi'). unfold nodeOf in E. by rewrite En in E.
  - cbn. rewrite Es. constructor; [split; [apply Hd|done]|done].
  - intros h Eh. destruct (H4 h Eh) as (? & ? & ?). split_and!; [done|done|]. apply Hrem; [done|]. intros E. by apply U4.
  - intros n En. destruct (H5 n En) as (? & ?). split; [done|]. apply Hrem; [done|]. intros E. by apply U5.
  - cbn. intros h r Eh Hr Hk. destruct (Hin r Hr) as [Hr'|En]; [by apply (H7 h)|]. unfold nodeOf. rewrite En in *. by apply Hhead.
Qed.

Lemma push_doc t new : docSite t -> docItem new -> is_Some (m_namespaceURI new) -> plainKind (kindOf new) = true -> unused t (m_node new) ->
  exists s', push new (m_openElements t) = Some s' /\ docSite (set_open s' t) /\ m_top s' = mkRecord (nextRecord (m_openElements t)) new :: records t.
Proof.
  intros H Hd Hns Hk Hu. pose proof (core_stack _ _ _ (doc_inv t H)) as Hi. pose proof (doc_nonempty t H) as Hne.
  pose proof (kind_plain new Hd Hk) as Hp.
  assert (E : exists s', push new (m_openElements t) = Some s' /\ m_top s' = mkRecord (nextRecord (m_openElements t)) new :: records t).
  { unfold push, pushCommon. rewrite (proj2 Hp), (inv_hasRoot _ Hi Hne). by eexists. }
  destruct E as (s' & E & Es). exists s'. split_and!; [done| |done]. apply (doc_pushed t new); try done; [by intros Eh; rewrite Eh in Hk|]. apply (push_inv new (m_openElements t)); try done.
  - split; [apply Hd|]. intros Hin. apply list_elem_of_fmap in Hin as (r & Er & Hr). destruct Hu as (_ & U2 & _). by apply (U2 r Hr).
  - unfold isElementNode. by rewrite (proj2 Hd).
Qed.

(** ** Inserting *)

(** A record with the name and the kind has been pushed, and nothing else has changed. *)
Definition pushedOn (t : HTMLConstructionSite) (name : AtomicString) (k : Kind) (t' : HTMLConstructionSite) : Prop :=
  docSite t' /\ fixedParts t' = fixedParts t /\ entries t' = entries t /\
  exists r, records t' = r :: records t /\ kindOf (m_item r) = k /\ m_tokenLocalName (m_item r) = Some name.

(** The queue and the counter have changed. *)
Definition sameSite (t t' : HTMLConstructionSite) : Prop :=
  docSite t' /\ fixedParts t' = fixedParts t /\ entries t' = entries t /\ records t' = records t.

Lemma doc_current t : docSite t -> exists p, currentNode t = Some p.
Proof.
  intros H. unfold currentNode, topNode, topStackItem, topRecord. pose proof (doc_nonempty t H). destruct (records t); [done|]. by eexists.
Qed.

Lemma createElement_ok token ns t : docSite t ->
  exists new, createElement token ns t = Some (new, set_nextNode (S (nextNode t)) t) /\
    m_node new = mkNode (nextNode t) (mkName (tokenName token) ns) true /\ m_tokenLocalName new = Some (tokenName token) /\
    m_namespaceURI new = ns /\ docItem new.
Proof.
  intros H. unfold createElement. destruct (doc_current t H) as (p & ->). eexists. split; [reflexivity|]. by split_and!.
Qed.

Lemma kindOf_html new name : docItem new -> m_tokenLocalName new = Some name -> m_namespaceURI new = Some xhtmlNamespaceURI -> kindOf new = nameKind name.
Proof. intros Hd E1 E2. destruct (item_cases new Hd) as [[_ E]|(n & E3 & _ & ->)]; congruence. Qed.

Lemma insertHTMLElement_ok token t : docSite t -> plainKind (nameKind (tokenName token)) = true ->
  attachableName (m_parserContentPolicy t) (tokenName token) = true ->
  exists t', insertHTMLElement token t = Some t' /\ pushedOn t (tokenName token) (nameKind (tokenName token)) t'.
Proof.
  intros H Hk Ha. unfold insertHTMLElement, createHTMLElement.
  destruct (createElement_ok token (Some xhtmlNamespaceURI) t H) as (new & -> & En & E1 & E2 & Hd).
  set (t1 := set_nextNode (S (nextNode t)) t). assert (H1 : docSite t1) by (apply doc_next; [done|lia]).
  destruct (doc_current t1 H1) as (p & ->).
  destruct (attach_ok p (m_node new) false t1 H1) as (q & ->); [rewrite En; by apply attachable_html|].
  pose proof (kindOf_html new _ Hd E1 E2) as Ek.
  destruct (push_doc (enqueue q t1) new) as (s' & -> & H' & Es); [by apply doc_enqueue|done|by rewrite E2|by rewrite Ek| |].
  { apply (unused_next t); [done|]. by rewrite En. }
  eexists. split; [reflexivity|]. split_and!; [done|done|done|]. cbn. rewrite Es. eexists. by split_and!.
Qed.

Lemma insertSelfClosing_ok token t : docSite t -> attachableName (m_parserContentPolicy t) (tokenName token) = true ->
  exists t', insertSelfClosingHTMLElement token t = Some t' /\ sameSite t t'.
Proof.
  intros H Ha. unfold insertSelfClosingHTMLElement, createHTMLElement.
  destruct (createElement_ok token (Some xhtmlNamespaceURI) t H) as (new & -> & En & E1 & E2 & Hd).
  set (t1 := set_nextNode (S (nextNode t)) t). assert (H1 : docSite t1) by (apply doc_next; [done|lia]).
  destruct (doc_current t1 H1) as (p & ->).
  destruct (attach_ok p (m_node new) true t1 H1) as (q & ->); [rewrite En; by apply attachable_html|].
  eexists. split; [reflexivity|]. split_and!; try done. by apply doc_enqueue.
Qed.

Lemma insertForm_ok token t : docSite t -> tokenName token = lit "form" ->
  exists t' n, insertHTMLFormElement token t = Some t' /\ docSite t' /\ m_form t' = Some n /\ fixedParts (set_form None t') = fixedParts (set_form None t) /\
    entries t' = entries t /\ exists r, records t' = r :: records t /\ kindOf (m_item r) = KOther.
Proof.
  intros H Et. unfold insertHTMLFormElement, createHTMLElement.
  destruct (createElement_ok token (Some xhtmlNamespaceURI) t H) as (new & -> & En & E1 & E2 & Hd).
  assert (Htag : node_hasTagName (m_node new) (htmlName "form") = true) by (rewrite En, Et; done). rewrite Htag.
  set (t0 := set_nextNode (S (nextNode t)) t). set (t1 := set_form (Some (m_node new)) t0).
  assert (H0 : docSite t0) by (apply doc_next; [done|lia]). destruct (doc_older t H) as [Ho1 Ho2].
  assert (Eid : nodeId (m_node new) = nextNode t) by (by rewrite En).
  assert (H1 : docSite t1).
  { destruct H0 as [D1 D2 D3 D4 D5 D6 D7]. constructor; try done.
    - cbn. intros n [= <-]. split; [done|]. split_and!; cbn; [lia|..].
      + intros r Hr. specialize (Ho1 r Hr). lia.
      + intros i Hi. specialize (Ho2 i Hi). lia.
    - cbn. intros h n Eh [= <-]. destruct (doc_head t H h Eh) as (_ & _ & Hr & _). unfold itemId. lia. }
  destruct (doc_current t1 H1) as (p & ->).
  destruct (attach_ok p (m_node new) false t1 H1) as (q & ->); [rewrite En, Et; apply attachable_html; unfold attachableName; by rewrite !orb_true_r|].
  pose proof (kindOf_html new _ Hd E1 E2) as Ek. rewrite Et in Ek.
  destruct (push_doc (enqueue q t1) new) as (s' & -> & H' & Es); [by apply doc_enqueue|done|by rewrite E2|by rewrite Ek| |].
  { destruct (unused_next t (m_node new) H Eid) as (U1 & U2 & U3 & U4 & U5). split_and!; try done. cbn. by intros m [= <-] _. }
  eexists _, (m_node new). split; [reflexivity|]. split_and!; [done|done|done|done|]. cbn. rewrite Es. eexists. by split_and!.
Qed.

Lemma insertScript_ok token t : docSite t -> tokenName token = lit "script" ->
  exists t', insertScriptElement token t = Some t' /\ pushedOn t (tokenName token) KOther t'.
Proof.
  intros H Et. unfold insertScriptElement. destruct (doc_current t H) as (p & ->).
  set (new := mkItem _ _ _ _ _). set (t1 := set_nextNode (S (nextNode t)) t). assert (H1 : docSite t1) by (apply doc_next; [done|lia]).
  assert (Hd : docItem new) by (split; [|done]; unfold wellFormed, new; cbn; by rewrite Et).
  assert (Hk : kindOf new = KOther) by (rewrite (kindOf_html new (tokenName token)) by done; by rewrite Et).
  assert (Hatt : exists t2, (if scriptingContentIsAllowed (m_parserContentPolicy t1)
    then attachLater p (mkNode (nextNode t) (htmlName "script") true) false t1 else Some t1) = Some t2 /\ docSite t2 /\
      fixedParts t2 = fixedParts t /\ entries t2 = entries t /\ m_openElements t2 = m_openElements t /\ unused t2 (m_node new)).
  { assert (Hu : unused t1 (m_node new)) by (by apply (unused_next t)). destruct (scriptingContentIsAllowed _) eqn:Ep; [|by exists t1].
    destruct (attach_ok p (mkNode (nextNode t) (htmlName "script") true) false t1 H1) as (q & ->).
    { apply attachable_html. unfold attachableName. by rewrite Ep, !orb_true_r. }
    eexists. split; [reflexivity|]. split_and!; try done; [by apply doc_enqueue|apply Hu..]. }
  destruct Hatt as (t2 & -> & H2 & F2 & L2 & O2 & Hu).
  destruct (push_doc t2 new H2 Hd) as (s' & -> & H' & Es); [by eexists|by rewrite Hk|done|]. eexists. split; [reflexivity|].
  split_and!; [done|done|done|]. cbn. rewrite Es, O2. eexists. by split_and!.
Qed.

Lemma insertForeign_ok token ns t : docSite t -> ns <> xhtmlNamespaceURI ->
  exists t', insertForeignElement token ns t = Some t' /\ (sameSite t t' \/ pushedOn t (tokenName token) KForeign t').
Proof.
  intros H Hns. unfold insertForeignElement. destruct (createElement_ok token (Some ns) t H) as (new & -> & En & E1 & E2 & Hd).
  set (t1 := set_nextNode (S (nextNode t)) t). assert (H1 : docSite t1) by (apply doc_next; [done|lia]). destruct (doc_current t1 H1) as (p & ->).
  assert (Hk : kindOf new = KForeign) by (destruct (item_cases new Hd) as [[? _]|(n & _ & E3 & _)]; congruence).
  assert (Hatt : exists t2, (if scriptingContentIsAllowed (m_parserContentPolicy t1) || negb (isScriptElement (m_node new))
    then attachLater p (m_node new) (tokenSelfClosing token) t1 else Some t1) = Some t2 /\ docSite t2 /\
      fixedParts t2 = fixedParts t /\ entries t2 = entries t /\ m_openElements t2 = m_openElements t /\ unused t2 (m_node new)).
  { assert (Hu : unused t1 (m_node new)) by (apply (unused_next t); [done|by rewrite En]). destruct (_ || _) eqn:Ep; [|by exists t1].
    destruct (attach_ok p (m_node new) (tokenSelfClosing token) t1 H1) as (q & ->).
    { rewrite En in Ep |- *. by apply attachable_foreign. }
    eexists. split; [reflexivity|]. split_and!; try done; [by apply doc_enqueue|apply Hu..]. }
  destruct Hatt as (t2 & -> & H2 & F2 & L2 & O2 & Hu). destruct (tokenSelfClosing token).
  - exists t2. split; [done|]. left. split_and!; try done. by rewrite O2.
  - destruct (push_doc t2 new H2 Hd) as (s' & -> & H' & Es); [by rewrite E2|by rewrite Hk|done|]. eexists. split; [reflexivity|]. right.
    split_and!; [done|done|done|]. cbn. rewrite Es, O2. eexists. by split_and!.
Qed.

(** ** Formatting elements *)

(** Only loose elements on top have changed. *)
Definition loosened (t t' : HTMLConstructionSite) : Prop :=
  docSite t' /\ fixedParts t' = fixedParts t /\ base (kinds t') = base (kinds t).

Lemma formatting_noPlugin i : formattingItem i -> isPluginElement (m_node i) = false.
Proof.
  intros Hf. apply not_true_iff_false. intros Hp. apply pluginElements in Hp as (s & Hs & E). destruct (formatting_loose i Hf) as [[Hw Hfr] _].
  destruct Hf as (_ & _ & Hn). apply existsb_exists in Hn as (n & Hin & Hn). apply hasTagName_eq in Hn as [Hn _].
  unfold wellFormed in Hw. rewrite Hfr in Hw. destruct Hw as (_ & Hw & _). rewrite E in Hw. rewrite Hw in Hn. cbn [localNameOf htmlName] in Hn.
  injection Hn as Hn. unfold formattingNames in Hin. apply in_map_iff in Hin as (f & <- & Hf). cbn [localNameOf htmlName] in Hn.
  apply list_elem_of_In in Hs. revert Hn. cbn in Hs, Hf. repeat (destruct Hs as [<-|Hs]; [repeat (destruct Hf as [<-|Hf]; [discriminate|]); done|]). done.
Qed.

Lemma map_items_kinds t t' l : map m_item (records t') = l ++ map m_item (records t) -> kinds t' = map kindOf l ++ kinds t.
Proof.
  intros E. unfold kinds. rewrite <- !(map_map m_item kindOf), E, map_app. done.
Qed.

Lemma reconstruct_doc t : docSite t -> exists t', reconstructTheActiveFormattingElements t = Some t' /\ docSite t' /\ fixedParts t' = fixedParts t /\
  exists l, kinds t' = l ++ kinds t /\ Forall (fun k => k = KOther) l.
Proof.
  intros H. destruct (reconstruct_ok formatting_noPlugin t (doc_inv t H) (doc_foster t H)) as (t' & keep & again & created & Hu & E & Hi & Hf & El & H2 & Et & _).
  exists t'. split_and!; [done|by apply (doc_frame t)|apply Hf|]. exists (map kindOf (rev created)). split; [by apply map_items_kinds|].
  assert (Hc : Forall formattingItem created).
  { pose proof (core_items _ _ _ Hi) as Hc. rewrite El, itemsOf_app in Hc. apply List.Forall_app in Hc as [_ Hc]. by rewrite itemsOf_map in Hc. }
  rewrite list.Forall_forall. intros k Hk. apply list_elem_of_fmap in Hk as (i & -> & Hin). apply list_elem_of_In, in_rev in Hin.
  rewrite List.Forall_forall in Hc. by apply formatting_loose, Hc.
Qed.

Lemma insertFormatting_doc token t : docSite t -> mkName (tokenName token) (Some xhtmlNamespaceURI) ∈ formattingNames ->
  NoDup (map attributeName (tokenAttributes token)) ->
  exists t', insertFormattingElement token t = Some t' /\ docSite t' /\ fixedParts t' = fixedParts t /\ kinds t' = KOther :: kinds t.
Proof.
  intros H Hn Hd. destruct (insertFormatting_ok formatting_noPlugin token t (doc_inv t H) (doc_foster t H) Hn Hd) as (t' & new & l & E & Hi & Hf & Et & El & _).
  exists t'. split_and!; [done|by apply (doc_frame t)|apply Hf|]. rewrite (map_items_kinds t t' [new]) by done. cbn. f_equal.
  pose proof (core_items _ _ _ Hi) as Hc. rewrite El, itemsOf_app in Hc. apply List.Forall_app in Hc as [_ Hc]. apply Forall_cons_iff in Hc as [Hc _].
  by apply formatting_loose.
Qed.

Abbreviation kindsOf l := (map (fun r => kindOf (m_item r)) l).

Lemma kinds_special A : Forall (fun r => docItem (m_item r)) A -> Forall (fun x => isSpecialNode (m_item x) = false) A -> Forall (fun k => loose k = true) (kindsOf A).
Proof.
  induction 1 as [|r A Hr _ IH]; intros Hs; cbn; [constructor|]. apply Forall_cons_iff in Hs as [Hs HA]. constructor; [|by apply IH].
  destruct (loose (kindOf (m_item r))) eqn:E; [done|]. by rewrite kind_special in Hs.
Qed.

(** The agency changes only loose elements. *)
Lemma reworked_base name l l' ms : reworked name l l' -> Forall (fun r => docItem (m_item r)) l -> okStack (kindsOf l) ms -> flexible (kindsOf l) ms ->
  head (base (kindsOf l)) <> Some (nameKind name) -> base (kindsOf l') = base (kindsOf l).
Proof.
  induction 1 as [l|A F B A' l HF HA HA' _ IH|A r B Hr HA]; intros Hd Hok Hflex Hname; [done| |].
  - apply List.Forall_app in Hd as [HdA Hd]. apply Forall_cons_iff in Hd as [HdF HdB]. destruct (formatting_loose _ HF) as [_ EF].
    rewrite map_app in *. cbn [map] in *. rewrite EF in *.
    assert (HlA : Forall (fun k => loose k = true) (kindsOf A)).
    { apply (ok_scope _ KOther (kindsOf B) ms Hok Hflex); [done|]. rewrite list.Forall_forall in HA. rewrite list.Forall_forall in HdA. rewrite list.Forall_forall. intros k Hk.
      apply list_elem_of_fmap in Hk as (x & -> & Hx). destruct (scopeKind _) eqn:Es; [|done]. specialize (HA x Hx). cbn in HA. by rewrite kind_scope in HA by auto. }
    assert (Hrec : forall x, x ∈ A' -> docItem (m_item x) /\ loose (kindOf (m_item x)) = true).
    { intros x Hx. rewrite list.Forall_forall in HdA. rewrite list.Forall_forall in HlA. destruct (HA' x Hx) as [Hin|Hf].
      - split; [by apply HdA|]. apply HlA. by apply (list_elem_of_fmap_2 (fun r => kindOf (m_item r))).
      - destruct (formatting_loose _ Hf) as [? ->]. done. }
    assert (HlA' : Forall (fun k => loose k = true) (kindsOf A')).
    { rewrite list.Forall_forall. intros k Hk. apply list_elem_of_fmap in Hk as (x & -> & Hx). by apply Hrec. }
    assert (Eb : base (kindsOf (A' ++ B)) = base (kindsOf A ++ KOther :: kindsOf B)) by (by rewrite map_app, !base_loose).
    destruct (ok_exchange (kindsOf A ++ KOther :: kindsOf B) (kindsOf (A' ++ B)) ms Hok Hflex Eb) as [Hok' Ec].
    rewrite map_app in Eb, Hok', Ec. rewrite IH; [done| |done|unfold flexible; by rewrite Ec|by rewrite Eb].
    apply List.Forall_app. split; [|done]. rewrite list.Forall_forall. intros x Hx. by apply Hrec.
  - apply List.Forall_app in Hd as [HdA Hd]. apply Forall_cons_iff in Hd as [HdF HdB]. rewrite map_app in *. cbn [map] in *.
    pose proof (kinds_special A HdA HA) as HlA. rewrite base_loose in * by done. pose proof Hr as Ek. unfold hasTarget in Ek.
    assert (Er : kindOf (m_item r) = nameKind name).
    { unfold matchesHTMLTag, hasLocalName in Ek. apply andb_true_iff in Ek as [E1 E2]. apply bool_decide_eq_true in E1, E2. by apply kindOf_html. }
    cbn [base] in *. destruct (loose (kindOf (m_item r))) eqn:El; [done|]. cbn in Hname. congruence.
Qed.

Lemma doc_records t : docSite t -> Forall (fun r => docItem (m_item r)) (records t).
Proof. intros H. rewrite list.Forall_forall. intros r Hr. by apply (doc_item t). Qed.

Lemma agency_doc name t ms : docSite t -> okStack (kinds t) ms -> flexible (kinds t) ms -> looseName name = true ->
  exists t', AdoptionAgency.callTheAdoptionAgency name t = Some t' /\ loosened t t' /\ grows t t'.
Proof.
  intros H Hok Hf Hn. assert (Hne : name <> lit "html" /\ name <> lit "head" /\ name <> lit "body") by (split_and!; by intros ->).
  destruct Hne as (N1 & N2 & N3).
  destruct (agencyLoop_ok AdoptionAgency.outerIterationLimit name t (doc_inv t H) (doc_foster t H) N1 N2 N3) as (t' & E & Hi & Hfr & Hr).
  exists t'. split_and!; [done| |by apply frame_grows]. split_and!; [by apply (doc_frame t)|apply Hfr|].
  apply (reworked_base name (records t) (records t') ms Hr); [by apply doc_records|done|done|]. intros Eb. unfold looseName in Hn.
  pose proof (base_structural _ _ Hok) as Hs. fold (kinds t) in Eb. destruct (base (kinds t)) as [|k l]; [done|]. injection Eb as ->. cbn in Hs. by rewrite Hn in Hs.
Qed.

(** A structural name that is not that of the innermost structural element. *)
Lemma anyOther_structural name t A g B : docSite t -> Forall (fun r => docItem (m_item r)) (A ++ g :: B) ->
  Forall (fun r => loose (kindOf (m_item r)) = true) A -> looseName name = false -> loose (kindOf (m_item g)) = false ->
  kindOf (m_item g) <> nameKind name -> AdoptionAgency.anyOtherLoop name t (A ++ g :: B) = Some t.
Proof.
  intros H Hd HA Hn Hg Hgn. assert (Hno : forall r, docItem (m_item r) -> kindOf (m_item r) <> nameKind name -> matchesHTMLTag (m_item r) name = false).
  { intros r Hr Hne. apply not_true_iff_false. unfold matchesHTMLTag, hasLocalName. rewrite andb_true_iff, !bool_decide_eq_true. intros [E1 E2].
    by apply Hne, kindOf_html. }
  induction HA as [|a A Ha HA IH]; cbn [app AdoptionAgency.anyOtherLoop].
  - apply List.Forall_app in Hd as [_ Hd]. apply Forall_cons_iff in Hd as [Hd _]. rewrite Hno by done. by rewrite kind_special.
  - cbn [app] in Hd. apply Forall_cons_iff in Hd as [Hda Hd]. rewrite Hno; [|done|intros E; unfold looseName in Hn; congruence].
    destruct (isSpecialNode _); [done|]. by apply IH.
Qed.

Lemma records_base t ms : docSite t -> okStack (kinds t) ms -> exists A g B, records t = A ++ g :: B /\
  Forall (fun r => loose (kindOf (m_item r)) = true) A /\ loose (kindOf (m_item g)) = false /\ base (kinds t) = kindsOf (g :: B).
Proof.
  intros H Hok. pose proof (base_structural _ _ Hok) as Hs. unfold kinds in *. clear Hok. induction (records t) as [|r l IH]; [done|]. cbn [map base] in *.
  destruct (loose (kindOf (m_item r))) eqn:E; [|by exists [], r, l].
  destruct IH as (A & g & B & -> & HA & Hg & Eb); [done|]. exists (r :: A), g, B. split_and!; [done|by constructor|done|done].
Qed.

Lemma anyOther_doc name t ms : docSite t -> okStack (kinds t) ms -> flexible (kinds t) ms -> head (base (kinds t)) <> Some (nameKind name) ->
  exists t', AdoptionAgency.processAnyOtherEndTagForInBody name t = Some t' /\ loosened t t'.
Proof.
  intros H Hok Hf Hn. destruct (looseName name) eqn:El.
  - assert (Hne : name <> lit "html" /\ name <> lit "head" /\ name <> lit "body") by (split_and!; by intros ->).
    destruct Hne as (N1 & N2 & N3).
    destruct (anyOther_ok name t (doc_inv t H) (doc_foster t H) N1 N2 N3) as (t' & E & Hi & Hfr & Hr).
    exists t'. split_and!; [done|]. split_and!; [by apply (doc_frame t)|apply Hfr|].
    by apply (reworked_base name (records t) (records t') ms Hr); [apply doc_records|..].
  - exists t. split; [|done]. destruct (records_base t ms H Hok) as (A & g & B & E & HA & Hg & Eb). rewrite Eb in Hn. cbn in Hn.
    unfold AdoptionAgency.processAnyOtherEndTagForInBody. pose proof (doc_records t H) as Hd. rewrite E in Hd |- *. apply anyOther_structural; try done. congruence.
Qed.

End Site.
