(* ===== verification/HTMLTreeBuilderStack.v ===== *)
(** * Other operations on the site of a document

    Implied end tags, head and body, removal of elements, markers, and the searches in
    the scopes. *)
From S2P Require Import Prelude HTMLTokenizer HTMLStackItem HTMLElementStack HTMLElementStackProps HTMLElementStackProtocol HTMLFormattingElementList HTMLFormattingElementProps HTMLConstructionSite HTMLConstructionSiteProps AdoptionAgency AdoptionAgencyProps HTMLTreeBuilderState HTMLTreeBuilder HTMLTreeBuilderKinds HTMLTreeBuilderSite.
From Stdlib Require Import String ZArith Lia.
From stdpp Require Import base list numbers option.
#[local] Open Scope Z_scope.
Import HTMLStackItem HTMLElementStack HTMLConstructionSite HTMLTreeBuilderState HTMLTreeBuilder.

Abbreviation kindsOf l := (map (fun r => kindOf (m_item r)) l).

(** ** Implied end tags *)

(** Both forms: [ex] tells the elements that are left open. *)
Lemma implied_doc (ex : HTMLStackItem -> bool) t : docSite t ->
  exists n A B, popWhile (fun item => Some (negb (hasImpliedEndTag item) || ex item)) (m_openElements t) = Some (popped n (m_openElements t)) /\
    records t = A ++ B /\ n = length A /\ B <> [] /\ Forall (fun r => loose (kindOf (m_item r)) = true) A /\
    Forall (fun r => (negb (hasImpliedEndTag (m_item r)) || ex (m_item r)) = false) A.
Proof.
  intros H. destruct (implied_ok ex (m_openElements t) (core_stack _ _ _ (doc_inv t H)) (doc_nonempty t H)) as (A & r & B & E & Hr & HA & Ep & _).
  exists (length A), A, (r :: B). split_and!; try done. rewrite list.Forall_forall in HA. rewrite list.Forall_forall. intros x Hx.
  apply kind_implied; [apply (doc_item t); [done|]; rewrite E; apply elem_of_app; by left|]. specialize (HA x Hx). cbn in HA.
  apply orb_false_iff in HA as [HA _]. by apply negb_false_iff in HA.
Qed.

Lemma loose_records A : Forall (fun r => loose (kindOf (m_item r)) = true) A -> Forall plainRecord A.
Proof. intros H. eapply List.Forall_impl; [|exact H]. intros r. apply loose_plain. Qed.

Lemma loose_kinds A : Forall (fun r => loose (kindOf (m_item r)) = true) A <-> Forall (fun k => loose k = true) (kindsOf A).
Proof.
  rewrite !List.Forall_forall. split.
  - intros H k Hk. apply in_map_iff in Hk as (r & <- & Hr). by apply H.
  - intros H r Hr. apply H. by apply (in_map (fun r => kindOf (m_item r))).
Qed.

(** The elements with implied end tags are above every element that is not closed. *)
Lemma prefix_split {X} (P : X -> bool) (A B U : list X) x V : A ++ B = U ++ x :: V -> Forall (fun y => P y = false) A -> P x = true ->
  exists U', U = A ++ U' /\ B = U' ++ x :: V.
Proof.
  revert U. induction A as [|a A IH]; intros U E HA Hx; [by exists U|]. apply Forall_cons_iff in HA as [Ha HA].
  destruct U as [|u U]; cbn in E; injection E as -> E; [congruence|]. destruct (IH U E HA Hx) as (U' & -> & ->). by exists U'.
Qed.

(** The end of an element that is in a scope: implied end tags are generated, and
    everything down to the element is popped. *)
Lemma close_doc (ex target : HTMLStackItem -> bool) t A r B : docSite t -> records t = A ++ r :: B -> B <> [] ->
  Forall plainRecord A -> plainRecord r -> target (m_item r) = true -> Forall (fun x => target (m_item x) = false) A ->
  (hasImpliedEndTag (m_item r) = false \/ ex (m_item r) = true) ->
  exists s s', popWhile (fun item => Some (negb (hasImpliedEndTag item) || ex item)) (m_openElements t) = Some s /\
    match popWhile (fun item => Some (target item)) s with Some s => pop s | None => None end = Some s' /\
    m_top s' = B /\ docSite (set_open s' t).
Proof.
  intros H E HB HA Hr Ht HAt Hex. destruct (implied_doc ex t H) as (n & A1 & B1 & Ep & E1 & En & HB1 & HA1 & HA1').
  assert (Es : A1 ++ B1 = A ++ r :: B) by congruence.
  destruct (prefix_split (fun r => negb (hasImpliedEndTag (m_item r)) || ex (m_item r)) A1 B1 A r B Es HA1') as (U & EA & EB).
  { destruct Hex as [->| ->]; [done|by rewrite orb_true_r]. }
  destruct (dropped_ok t A1 B1 H E1 HB1 (loose_records _ HA1)) as (H1 & R1 & F1). subst n.
  eexists _, (popped (S (length U)) (popped (length A1) (m_openElements t))). split; [exact Ep|]. rewrite EA in HA, HAt.
  apply List.Forall_app in HA as [_ HU]. apply List.Forall_app in HAt as [_ HUt].
  pose proof (popWhile_pop_doc (dropped (length A1) t) (fun item => Some (target item)) U r B H1) as Hp. rewrite R1, EB in Hp.
  specialize (Hp eq_refl HB HU Hr). cbn [dropped set_open m_openElements] in Hp. rewrite Hp; [| |by rewrite Ht].
  2: { eapply List.Forall_impl; [|exact HUt]. cbn. by intros x ->. }
  destruct (dropped_ok (dropped (length A1) t) (U ++ [r]) B H1) as (H2 & R2 & F2); [by rewrite R1, EB, <- app_assoc|done| |].
  { apply List.Forall_app. split; [done|by constructor]. }
  rewrite length_app, Nat.add_1_r in H2, R2. split_and!; [done|exact R2|exact H2].
Qed.

(** ** Head and body *)

(** The stack with the root alone. *)
Lemma kinds_html t : docSite t -> kinds t = [KHtml] -> exists r, records t = [r] /\ kindOf (m_item r) = KHtml /\ hasOnlyOneElement (m_openElements t) = Some true.
Proof.
  intros H E. unfold kinds in E. destruct (records t) as [|r [|]] eqn:Er; try done. injection E as E. exists r. split_and!; [done|done|].
  unfold hasOnlyOneElement. by rewrite Er.
Qed.

Lemma html_noFoster t : docSite t -> kinds t = [KHtml] -> shouldFosterParent t = Some false.
Proof.
  intros H E. destruct (kinds_html t H E) as (r & Er & Ek & _). unfold shouldFosterParent, currentStackItem, topStackItem, topRecord. rewrite Er.
  destruct (negb _); [done|]. cbn [head fmap option_fmap option_map]. destruct (causesFosterParenting (m_item r)) eqn:Ef; [|by rewrite andb_false_r].
  destruct (kind_foster (m_item r)) as [?|[?|?]]; [apply (doc_item t); [done|]; rewrite Er; left|done|congruence..].
Qed.

Lemma kind_of_node a b : docItem a -> docItem b -> m_node a = m_node b -> kindOf a = kindOf b.
Proof.
  intros [Ha Fa] [Hb Fb] E. unfold wellFormed in *. rewrite Fa in Ha. rewrite Fb in Hb. destruct Ha as (_ & A1 & A2), Hb as (_ & B1 & B2).
  unfold kindOf, isInHTMLNamespace. by rewrite Fa, Fb, A1, A2, B1, B2, E.
Qed.

Lemma head_unused t h : docSite t -> kinds t = [KHtml] -> m_head t = Some h -> unused t (m_node h).
Proof.
  intros H E Eh. destruct (doc_head t H h Eh) as (Hd & Hk & R1 & R2 & R3). destruct (kinds_html t H E) as (r & Er & Ek & _). split_and!; [done|..].
  - intros x Hx Ei. rewrite Er in Hx. apply list_elem_of_singleton in Hx as ->. rewrite Er in R2. specialize (R2 r (list_elem_of_here _ _) Ei).
    assert (kindOf (m_item r) = kindOf h); [|congruence]. apply kind_of_node; [apply (doc_item t); [done|]; rewrite Er; left|done|done].
  - intros i Hi Ei. specialize (R3 i Hi Ei). pose proof (core_items _ _ _ (doc_inv t H)) as Hf. rewrite list.Forall_forall in Hf.
    destruct (formatting_loose i (Hf i Hi)) as [Hdi Hki]. assert (kindOf i = kindOf h); [|congruence]. by apply kind_of_node.
  - intros h' Eh' _. congruence.
  - intros m Em Ei. exfalso. apply (doc_apart t H h m Eh Em). done.
Qed.

(** Pushing head or body. *)
Lemma pushSecond_ok t new : docSite t -> kinds t = [KHtml] -> docItem new -> unused t (m_node new) ->
  (kindOf new = KHead -> forall h, m_head t = Some h -> m_node new = m_node h) ->
  (kindOf new = KHead -> exists s', pushHTMLHeadElement new (m_openElements t) = Some s' /\ docSite (set_open s' t) /\
     m_top s' = mkRecord (nextRecord (m_openElements t)) new :: records t) /\
  (kindOf new = KBody -> exists s', pushHTMLBodyElement new (m_openElements t) = Some s' /\ docSite (set_open s' t) /\
     m_top s' = mkRecord (nextRecord (m_openElements t)) new :: records t).
Proof.
  intros H E Hd Hu Hhead. destruct (kinds_html t H E) as (r & Er & Ek & Ho). pose proof (core_stack _ _ _ (doc_inv t H)) as Hi.
  destruct (only_one _ Hi Ho) as (r' & Er' & Hroot & Ern & Eh & Eb). pose proof (wellFormed_element _ (proj1 Hd) (proj2 Hd)) as Hel.
  assert (Hn : newItem new (m_openElements t)).
  { split; [apply Hd|]. intros Hin. apply list_elem_of_fmap in Hin as (x & Ex & Hx). destruct Hu as (_ & U2 & _). by apply (U2 x Hx). }
  assert (Hns : kindOf new <> KForeign -> is_Some (m_namespaceURI new)) by (intros Hk; destruct (item_cases new Hd) as [[? _]|(n & _ & -> & _)]; [done|by eexists]).
  split; intros Hk; rewrite Hk in Hns; specialize (Hns ltac:(done)).
  - assert (Es : exists s', pushHTMLHeadElement new (m_openElements t) = Some s' /\ m_top s' = mkRecord (nextRecord (m_openElements t)) new :: records t).
    { unfold pushHTMLHeadElement, pushCommon. rewrite Eh, Hel. kind_of_item Hd Hk. rewrite bool_decide_eq_true_2 by done. cbn. rewrite Ern. by eexists. }
    destruct Es as (s' & Es & Et). exists s'. split_and!; [done| |done]. apply (doc_pushed t new); try done.
    apply (push_head_inv new (m_openElements t)); try done. by left.
  - assert (Es : exists s', pushHTMLBodyElement new (m_openElements t) = Some s' /\ m_top s' = mkRecord (nextRecord (m_openElements t)) new :: records t).
    { unfold pushHTMLBodyElement, pushCommon. rewrite Eb, Hel. kind_of_item Hd Hk. rewrite bool_decide_eq_true_2 by done. cbn. rewrite Ern. by eexists. }
    destruct Es as (s' & Es & Et). exists s'. split_and!; [done| |done]. apply (doc_pushed t new); try done.
    apply (push_head_inv new (m_openElements t)); try done. by right.
Qed.

(** The records of head and body are remembered. *)
Lemma second_ok t U r root : docSite t -> records t = U ++ [r; root] ->
  (kindOf (m_item r) = KHead -> m_headElement (m_openElements t) = Some (nodeOf r)) /\
  (kindOf (m_item r) = KBody -> m_bodyElement (m_openElements t) = Some (nodeOf r)).
Proof.
  intros H E. pose proof (core_stack _ _ _ (doc_inv t H)) as Hi. assert (Hin : r ∈ records t) by (rewrite E; apply elem_of_app; right; left).
  pose proof (doc_item t r H Hin) as Hd. destruct (shaped_remembered _ _ _ _ r (inv_shape _ Hi) (inv_items _ Hi) Hin) as [H1 H2].
  split; intros Hk; [apply H1|apply H2]; by kind_of_item Hd Hk.
Qed.

(** The site after a record below the top has disappeared. *)
Lemma doc_removed t s' : docSite t -> inv s' -> m_top s' <> [] -> (forall r, r ∈ m_top s' -> r ∈ records t) -> docSite (set_open s' t).
Proof.
  intros H Hi Hne Hs. apply (doc_grows t); try done.
  - apply (core_shrink (m_openElements t) (entries t) (nextNode t)); try done; apply (doc_inv t H).
  - constructor; [done|intros r Hr; left; by apply Hs|by left].
Qed.

Lemma popSecond_ok t r root : docSite t -> records t = [r; root] ->
  (kindOf (m_item r) = KHead -> exists s', popHTMLHeadElement (m_openElements t) = Some s' /\ docSite (set_open s' t) /\ m_top s' = [root]) /\
  (kindOf (m_item r) = KBody -> exists s', popHTMLBodyElement (m_openElements t) = Some s' /\ docSite (set_open s' t) /\ m_top s' = [root]).
Proof.
  intros H E. pose proof (core_stack _ _ _ (doc_inv t H)) as Hi. destruct (second_ok t [] r root H E) as [H1 H2].
  assert (Hd : docItem (m_item r)) by (apply (doc_item t); [done|]; rewrite E; left). pose proof (wellFormed_element _ (proj1 Hd) (proj2 Hd)) as Hel.
  assert (Hfin : forall s', inv s' -> m_top s' = [root] -> docSite (set_open s' t)).
  { intros s' Hi' Et. apply doc_removed; [done|done|by rewrite Et|]. rewrite Et, E. intros x Hx. apply list_elem_of_singleton in Hx as ->. right. left. }
  split; intros Hk.
  - assert (Es : exists s', popHTMLHeadElement (m_openElements t) = Some s' /\ m_top s' = [root]).
    { unfold popHTMLHeadElement, top, topStackItem, topRecord. rewrite E. cbn [head fmap option_fmap option_map]. rewrite Hel, (H1 Hk). cbn [isNode].
      rewrite (proj2 (sameNode_eq _ _) eq_refl). unfold popCommon. cbn [m_top set_headElement]. rewrite E. kind_of_item Hd Hk. rewrite Hel. by eexists. }
    destruct Es as (s' & Es & Et). exists s'. split_and!; [done| |done]. apply Hfin; [|done]. apply (pop_second_inv (m_openElements t)); [done|by left].
  - assert (Es : exists s', popHTMLBodyElement (m_openElements t) = Some s' /\ m_top s' = [root]).
    { unfold popHTMLBodyElement, top, topStackItem, topRecord. rewrite E. cbn [head fmap option_fmap option_map]. rewrite Hel, (H2 Hk). cbn [isNode].
      rewrite (proj2 (sameNode_eq _ _) eq_refl). unfold popCommon. cbn [m_top set_bodyElement]. rewrite E. kind_of_item Hd Hk. rewrite Hel. by eexists. }
    destruct Es as (s' & Es & Et). exists s'. split_and!; [done| |done]. apply Hfin; [|done]. apply (pop_second_inv (m_openElements t)); [done|by right].
Qed.

(** The head that was pushed for one start tag is removed again. *)
Lemma removeHead_ok t U r root : docSite t -> records t = U ++ [r; root] -> kindOf (m_item r) = KHead ->
  exists s', removeHTMLHeadElement (nodeOf r) (m_openElements t) = Some s' /\ docSite (set_open s' t) /\ m_top s' = U ++ [root].
Proof.
  intros H E Hk. pose proof (core_stack _ _ _ (doc_inv t H)) as Hi. destruct (second_ok t U r root H E) as [H1 _]. specialize (H1 Hk).
  assert (Hr : r ∈ records t) by (rewrite E; apply elem_of_app; right; left). pose proof (doc_item t r H Hr) as Hd.
  destruct U as [|u U].
  - destruct (proj1 (popSecond_ok t r root H E) Hk) as (s' & Es & H' & Et). exists s'. split_and!; [|done|done].
    unfold removeHTMLHeadElement. rewrite H1. cbn [isNode]. rewrite (proj2 (sameNode_eq _ _) eq_refl). unfold top, topStackItem, topRecord. rewrite E. cbn.
    rewrite (wellFormed_element _ (proj1 Hd) (proj2 Hd)). fold (nodeOf r). by rewrite (proj2 (sameNode_eq _ _) eq_refl).
  - assert (Hu : u ∈ records t) by (rewrite E; left). pose proof (doc_item t u H Hu) as Hdu. pose proof (inv_nodes _ Hi) as Hnd. rewrite E in Hnd.
    assert (Hne : nodeId (nodeOf u) <> nodeId (nodeOf r)).
    { intros Eq. cbn in Hnd. apply list.NoDup_cons in Hnd as [Hnd _]. apply Hnd. rewrite Eq, map_app. apply elem_of_app. right. left. }
    assert (Hel : Forall (fun x => isElement (nodeOf x) = true) ((u :: U) ++ [r])).
    { pose proof (inv_above_elements (m_openElements t) ((u :: U) ++ [r]) root [] Hi) as Ha. rewrite <- app_assoc in Ha. by specialize (Ha E). }
    apply List.Forall_app in Hel as [Hel1 Hel2]. apply Forall_cons_iff in Hel2 as [Hel2 _].
    assert (Es : exists s', removeHTMLHeadElement (nodeOf r) (m_openElements t) = Some s' /\ m_top s' = (u :: U) ++ [root]).
    { unfold removeHTMLHeadElement. rewrite H1. cbn [isNode]. rewrite (proj2 (sameNode_eq _ _) eq_refl). unfold top, topStackItem, topRecord. rewrite E.
      cbn [app head fmap option_fmap option_map]. rewrite (wellFormed_element _ (proj1 Hdu) (proj2 Hdu)). fold (nodeOf u).
      rewrite (proj2 (sameNode_neq _ _) Hne). unfold removeNonTopCommon, nodeOf. rewrite !doc_node by done. kind_of_item Hd Hk.
      unfold top, topStackItem, topRecord. cbn [m_top set_headElement]. rewrite E. cbn [app head fmap option_fmap option_map].
      rewrite (wellFormed_element _ (proj1 Hdu) (proj2 Hdu)). fold (nodeOf u) (nodeOf r). rewrite (proj2 (sameNode_neq _ _) Hne). cbn [negb].
      change (u :: U ++ [r; root]) with ((u :: U) ++ r :: [root]). rewrite removeLoop_ok by done. by eexists. }
    destruct Es as (s' & Es & Et). exists s'. split_and!; [done| |done]. apply doc_removed; [done| |by rewrite Et|].
    + apply (removeHead_inv (nodeOf r) (m_openElements t)); [done| |done]. intros x Hx Hs. apply sameNode_eq in Hs. by rewrite (inv_same _ x r Hi Hx Hr Hs).
    + rewrite Et, E. intros x Hx. apply elem_of_app in Hx as [Hx|Hx]; apply elem_of_app; [by left|right]. apply list_elem_of_singleton in Hx as ->. right. left.
Qed.

(** ** Removing elements and entries *)

Lemma remove_doc t A r B : docSite t -> records t = A ++ r :: B -> B <> [] -> plainRecord r ->
  exists s', remove (nodeOf r) (m_openElements t) = Some s' /\ docSite (set_open s' t) /\ m_top s' = A ++ B.
Proof.
  intros H E HB Hr. assert (Hin : r ∈ records t) by (rewrite E; apply elem_of_app; right; left).
  destruct (remove_ok (m_openElements t) A r B (core_stack _ _ _ (doc_inv t H)) E) as (s' & Es & Et & _ & Hi).
  { apply kind_plain; [by apply (doc_item t)|done]. }
  exists s'. split_and!; [done| |done]. apply doc_removed; [done|done|rewrite Et; by destruct A, B|]. rewrite Et, E. intros x Hx.
  apply elem_of_app in Hx as [Hx|Hx]; apply elem_of_app; [by left|right; by right].
Qed.

(** The list loses entries. *)
Lemma doc_entries t l : docSite t -> good l -> (forall i, i ∈ itemsOf l -> i ∈ itemsOf (entries t)) -> docSite (set_active l t).
Proof.
  intros H Hg Hs. apply (doc_grows t); try done.
  - apply (core_shrink (m_openElements t) (entries t) (nextNode t)); try done; apply (doc_inv t H).
  - constructor; [done|by left|intros i Hi; left; by apply Hs].
Qed.

Lemma doc_marker t : docSite t -> docSite (set_active (HTMLFormattingElementList.appendMarker (entries t)) t).
Proof.
  intros H. assert (E : itemsOf (HTMLFormattingElementList.appendMarker (entries t)) = itemsOf (entries t)).
  { unfold HTMLFormattingElementList.appendMarker. rewrite itemsOf_app. cbn. by rewrite app_nil_r. }
  apply doc_entries; [done| |by rewrite E]. unfold good. rewrite E. apply (core_list _ _ _ (doc_inv t H)).
Qed.

Lemma doc_clear t : docSite t -> docSite (set_active (HTMLFormattingElementList.clearToLastMarker (entries t)) t).
Proof.
  intros H. assert (Hp : exists rest, entries t = HTMLFormattingElementList.clearToLastMarker (entries t) ++ rest).
  { clear H. induction (entries t) as [|e l IH] using rev_ind; [by exists []|]. rewrite clear_snoc. destruct (HTMLFormattingElementList.isMarker e); [by exists [e]|].
    destruct IH as (rest & E). exists (rest ++ [e]). rewrite E at 1. by rewrite <- app_assoc. }
  destruct Hp as (rest & E). pose proof (core_list _ _ _ (doc_inv t H)) as Hg. apply doc_entries; [done|..].
  - rewrite E in Hg. destruct Hg as [G1 G2]. rewrite itemsOf_app in G1, G2. rewrite map_app in G2. apply List.Forall_app in G1 as [G1 _].
    apply list.NoDup_app in G2 as (G2 & _). done.
  - intros i Hi. rewrite E, itemsOf_app. apply elem_of_app. by left.
Qed.

Lemma formattingRemove_ok t n : docSite t -> exists l, HTMLFormattingElementList.remove n (entries t) = Some l /\ docSite (set_active l t).
Proof.
  intros H. pose proof (core_list _ _ _ (doc_inv t H)) as Hg. rewrite remove_filter by done. eexists. split; [reflexivity|].
  apply doc_entries; [done|by apply good_filter|]. intros x Hx. apply list_elem_of_omap in Hx as (e & He & Hx).
  apply list_elem_of_filter in He as [_ He]. apply list_elem_of_omap. by exists e.
Qed.

(** ** Inserting head, body and comments *)

Section Site.
Context {dom : DOM}.
Hypothesis pluginElements : forall n, isPluginElement n = true -> exists s, s ∈ ["applet"; "embed"; "object"]%string /\ nodeName n = htmlName s.

Lemma insertBody_ok token t : docSite t -> kinds t = [KHtml] -> tokenName token = lit "body" ->
  exists t', insertHTMLBodyElement token t = Some t' /\ docSite t' /\ fixedParts t' = fixedParts t /\ kinds t' = [KBody; KHtml].
Proof.
  intros H E Et. unfold insertHTMLBodyElement, createHTMLElement. rewrite html_noFoster by done.
  destruct (createElement_ok token (Some xhtmlNamespaceURI) t H) as (new & -> & En & E1 & E2 & Hd).
  set (t1 := set_nextNode (S (nextNode t)) t). assert (H1 : docSite t1) by (apply doc_next; [done|lia]). destruct (doc_current t1 H1) as (p & ->).
  destruct (attach_ok p (m_node new) false t1 H1) as (q & ->); [rewrite En, Et; apply attachable_html; [done|]; unfold attachableName; by rewrite !orb_true_r|].
  pose proof (kindOf_html new _ Hd E1 E2) as Ek. rewrite Et in Ek.
  destruct (proj2 (pushSecond_ok (enqueue q t1) new (doc_enqueue _ q H1) E Hd (unused_next t (m_node new) H ltac:(by rewrite En)) ltac:(by rewrite Ek)) Ek) as (s' & -> & H' & Es).
  eexists. split; [reflexivity|]. split_and!; [done|done|]. unfold kinds. cbn. rewrite Es. cbn. rewrite Ek. f_equal. exact E.
Qed.

Lemma insertHead_ok token t : docSite t -> kinds t = [KHtml] -> tokenName token = lit "head" ->
  exists t' h, insertHTMLHeadElement token t = Some t' /\ docSite t' /\ m_head t' = Some h /\ fixedParts (set_head None t') = fixedParts (set_head None t) /\
    kinds t' = [KHead; KHtml].
Proof.
  intros H E Et. unfold insertHTMLHeadElement, createHTMLElement. rewrite html_noFoster by done.
  destruct (createElement_ok token (Some xhtmlNamespaceURI) t H) as (new & -> & En & E1 & E2 & Hd). pose proof (kindOf_html new _ Hd E1 E2) as Ek. rewrite Et in Ek.
  set (t0 := set_nextNode (S (nextNode t)) t). set (t1 := set_head (Some new) t0). destruct (doc_older t H) as [Ho1 Ho2].
  assert (Eid : nodeId (m_node new) = nextNode t) by (by rewrite En).
  assert (H1 : docSite t1).
  { assert (H0 : docSite t0) by (apply doc_next; [done|lia]). destruct H0 as [D1 D2 D3 D4 D5 D6 D7]. constructor; try done.
    - cbn. intros h [= <-]. split_and!; [done|done|]. split_and!; cbn; [lia|..].
      + intros r Hr. specialize (Ho1 r Hr). lia.
      + intros i Hi. specialize (Ho2 i Hi). lia.
    - cbn. intros h n [= <-] En'. destruct (doc_form t H n En') as (_ & Hr & _). unfold itemId. lia.
    - cbn. intros h r _ Hr Hk. destruct (kinds_html t H E) as (x & Ex & Ekx & _). rewrite Ex in Hr. apply list_elem_of_singleton in Hr as ->. congruence. }
  destruct (doc_current t1 H1) as (p & ->). rewrite (wellFormed_element _ (proj1 Hd) (proj2 Hd)).
  destruct (attach_ok p (m_node new) false t1 H1) as (q & ->); [rewrite En, Et; apply attachable_html; [done|]; unfold attachableName; by rewrite !orb_true_r|].
  assert (Hu : unused (enqueue q t1) (m_node new)).
  { destruct (unused_next t (m_node new) H Eid) as (U1 & U2 & U3 & U4 & U5). split_and!; try done. cbn. by intros m [= <-] _. }
  destruct (proj1 (pushSecond_ok (enqueue q t1) new (doc_enqueue _ q H1) E Hd Hu ltac:(by intros _ h [= <-])) Ek) as (s' & -> & H' & Es).
  eexists _, new. split; [reflexivity|]. split_and!; [done|done|done|]. unfold kinds. cbn. rewrite Es. cbn. rewrite Ek. f_equal. exact E.
Qed.

Lemma insertComment_ok t : docSite t -> exists t', insertComment t = Some t' /\ sameSite t t'.
Proof.
  intros H. unfold insertComment, createComment. destruct (doc_current t H) as (p & ->).
  assert (H1 : docSite (set_nextNode (S (nextNode t)) t)) by (apply doc_next; [done|lia]).
  destruct (attach_ok p (mkNode (nextNode t) (mkName (lit "#comment") None) false) false _ H1) as (q & ->); [by apply attachable_other|].
  eexists. split; [reflexivity|]. split_and!; try done. by apply doc_enqueue.
Qed.

Lemma insertCommentOnDocument_ok t : docSite t -> exists t', insertCommentOnDocument t = Some t' /\ sameSite t t'.
Proof.
  intros H. unfold insertCommentOnDocument, createComment. assert (H1 : docSite (set_nextNode (S (nextNode t)) t)) by (apply doc_next; [done|lia]).
  destruct (attach_ok (m_attachmentRoot (set_nextNode (S (nextNode t)) t)) (mkNode (nextNode t) (mkName (lit "#comment") None) false) false _ H1) as (q & ->);
    [by apply attachable_other|]. eexists. split; [reflexivity|]. split_and!; try done. by apply doc_enqueue.
Qed.

Lemma insertCommentOnHTMLHtmlElement_ok t : docSite t -> exists t', insertCommentOnHTMLHtmlElement t = Some t' /\ sameSite t t'.
Proof.
  intros H. unfold insertCommentOnHTMLHtmlElement, createComment, rootNode. assert (H1 : docSite (set_nextNode (S (nextNode t)) t)) by (apply doc_next; [done|lia]).
  destruct (shaped_rootNode _ _ _ _ (inv_shape _ (core_stack _ _ _ (doc_inv t H))) (doc_nonempty t H)) as [p ->].
  destruct (attach_ok p (mkNode (nextNode t) (mkName (lit "#comment") None) false) false _ H1) as (q & ->); [by apply attachable_other|].
  eexists. split; [reflexivity|]. split_and!; try done. by apply doc_enqueue.
Qed.

End Site.

(** ** Scopes *)

Lemma inScope_skip isMarker isTarget A l : Forall (fun r => isTarget (m_item r) = false /\ isMarker (m_item r) = false) A ->
  inScopeCommon isMarker isTarget (A ++ l) = inScopeCommon isMarker isTarget l.
Proof. induction 1 as [|r A [H1 H2] _ IH]; [done|]. cbn. by rewrite H1, H2. Qed.

(** [popUntilElement] stops at the element itself. *)
Lemma stop_node t A g B : docSite t -> records t = A ++ g :: B ->
  Forall (fun x => match element (m_item x) with None => None | Some e => Some (sameNode e (nodeOf g)) end = Some false) A /\
  match element (m_item g) with None => None | Some e => Some (sameNode e (nodeOf g)) end = Some true.
Proof.
  intros H E. assert (Hdoc : forall x, x ∈ A ++ g :: B -> docItem (m_item x)) by (intros x Hx; apply (doc_item t); [done|by rewrite E]). split.
  - rewrite list.Forall_forall. intros x Hx. destruct (Hdoc x) as [Hw Hfr]; [apply elem_of_app; by left|]. rewrite (wellFormed_element _ Hw Hfr). f_equal.
    apply sameNode_neq. intros Eq. pose proof (inv_nodes _ (core_stack _ _ _ (doc_inv _ H))) as Hnd. rewrite E, map_app in Hnd. apply list.NoDup_app in Hnd as (_ & Hnd & _).
    apply (Hnd (nodeId (nodeOf x))); [by apply (list_elem_of_fmap_2 (fun r => nodeId (nodeOf r)))|]. fold (nodeOf x) in Eq. rewrite Eq. left.
  - destruct (Hdoc g) as [Hw Hfr]; [apply elem_of_app; right; left|]. rewrite (wellFormed_element _ Hw Hfr). f_equal. by apply sameNode_eq.
Qed.

(** Every scope ends at the root. *)
Lemma inScope_total isMarker isTarget t : docSite t -> (forall item, isRootNode item = true -> isMarker item = true) ->
  exists b, inScopeCommon isMarker isTarget (records t) = Some b.
Proof.
  intros H Hm. destruct (inv_root _ (core_stack _ _ _ (doc_inv t H)) (doc_nonempty t H)) as (root & Hroot & Hr & _).
  destruct (inScopeCommon_spec isMarker isTarget (records t)) as (b & E & _); [|by exists b]. exists root. auto.
Qed.

Lemma inScope_found isMarker isTarget l : inScopeCommon isMarker isTarget l = Some true ->
  exists A r B, l = A ++ r :: B /\ isTarget (m_item r) = true /\ Forall (fun x => isTarget (m_item x) = false /\ isMarker (m_item x) = false) A.
Proof.
  induction l as [|a l IH]; [done|]. cbn. destruct (isTarget (m_item a)) eqn:Et; [intros _; by exists [], a, l|].
  destruct (isMarker (m_item a)) eqn:Em; [done|]. intros H. destruct (IH H) as (A & r & B & -> & Hr & HA). exists (a :: A), r, B. split_and!; [done|done|by constructor].
Qed.

(** A loose element that is in scope is above all structural ones. *)
Lemma scope_loose isMarker isTarget t ms : docSite t -> okStack (kinds t) ms -> flexible (kinds t) ms ->
  (forall item, isScopeMarker item = true -> isMarker item = true) ->
  (forall r, r ∈ records t -> isTarget (m_item r) = true -> loose (kindOf (m_item r)) = true) ->
  inScopeCommon isMarker isTarget (records t) = Some true ->
  exists A r B, records t = A ++ r :: B /\ isTarget (m_item r) = true /\ Forall (fun x => isTarget (m_item x) = false) A /\
    Forall (fun x => loose (kindOf (m_item x)) = true) A /\ loose (kindOf (m_item r)) = true /\ B <> [].
Proof.
  intros H Hok Hf Hm Ht Hs. destruct (inScope_found _ _ _ Hs) as (A & r & B & E & Hr & HA). exists A, r, B.
  assert (Hlr : loose (kindOf (m_item r)) = true) by (apply Ht; [rewrite E; apply elem_of_app; right; left|done]).
  assert (Ek : kinds t = kindsOf A ++ kindOf (m_item r) :: kindsOf B) by (unfold kinds; by rewrite E, map_app).
  split_and!; [done|done| | |done|].
  - eapply List.Forall_impl; [|exact HA]. by intros x [? _].
  - apply loose_kinds. rewrite Ek in Hok, Hf. apply (ok_scope _ _ _ _ Hok Hf Hlr). rewrite list.Forall_forall. intros k Hk.
    apply list_elem_of_fmap in Hk as (x & -> & Hx). rewrite list.Forall_forall in HA. destruct (HA x Hx) as [_ HxM].
    destruct (scopeKind _) eqn:Es; [|done]. rewrite Hm in HxM; [done|]. apply kind_scope; [|done]. apply (doc_item t); [done|]. rewrite E. apply elem_of_app. by left.
  - intros ->. destruct (ok_bottom _ _ Hok) as (u & Eu). rewrite Ek in Eu. cbn in Eu. apply app_inj_tail in Eu as [_ Eu]. by rewrite Eu in Hlr.
Qed.

Lemma target_kind t name r : docSite t -> r ∈ records t -> hasTarget name (m_item r) = true -> kindOf (m_item r) = nameKind name.
Proof.
  intros H Hr Ht. unfold hasTarget, matchesHTMLTag, hasLocalName in Ht. apply andb_true_iff in Ht as [E1 E2]. apply bool_decide_eq_true in E1, E2.
  apply kindOf_html; [by apply (doc_item t)|done|done].
Qed.
