(* ===== verification/HTMLTreeBuilderRules.v ===== *)
(** * Rules for the operations of the tree builder

    A weakest precondition for the monad, the states of a tree builder that parses a
    document, described by the kinds of the open elements, and the effect of the basic
    operations on these states. *)
From S2P Require Import Prelude HTMLTokenizer CompatibilityMode HTMLStackItem HTMLElementStack HTMLElementStackProps HTMLElementStackProtocol HTMLFormattingElementList HTMLFormattingElementProps HTMLConstructionSite HTMLConstructionSiteProps AdoptionAgency HTMLTreeBuilderState HTMLTreeBuilder HTMLTreeBuilderKinds HTMLTreeBuilderSite HTMLTreeBuilderStack.
From Stdlib Require Import String ZArith Lia.
From stdpp Require Import base list numbers option.
#[local] Open Scope Z_scope.
#[local] Open Scope builder_scope.
Import HTMLStackItem HTMLElementStack HTMLConstructionSite CompatibilityMode HTMLTreeBuilderState HTMLTreeBuilder.

(** ** The monad *)

Definition wp {A} (m : TB A) (Q : A -> HTMLTreeBuilder -> Prop) (b : HTMLTreeBuilder) : Prop :=
  match m b with Some (a, b') => Q a b' | None => False end.

Lemma tb_bind {A B} (m : TB A) (k : A -> TB B) Q b : wp m (fun a b' => wp (k a) Q b') b -> wp (bind m k) Q b.
Proof. unfold wp, bind. by destruct (m b) as [[a b']|]. Qed.

Lemma tb_mono {A} (m : TB A) (P Q : A -> HTMLTreeBuilder -> Prop) b : wp m P b -> (forall a b', P a b' -> Q a b') -> wp m Q b.
Proof. unfold wp. destruct (m b) as [[a b']|]; [|done]. auto. Qed.

Lemma tb_use {A B} (m : TB A) (k : A -> TB B) P Q b : wp m P b -> (forall a b', P a b' -> wp (k a) Q b') -> wp (bind m k) Q b.
Proof. intros H Hk. apply tb_bind. by eapply tb_mono. Qed.

Lemma tb_ask {A} (f : HTMLTreeBuilder -> option A) a Q b : f b = Some a -> Q a b -> wp (ask f) Q b.
Proof. intros E H. unfold wp, ask. by rewrite E. Qed.

Lemma tb_get (Q : HTMLTreeBuilder -> HTMLTreeBuilder -> Prop) b : Q b b -> wp get Q b.
Proof. done. Qed.

Lemma tb_ret {A} (a : A) (Q : A -> HTMLTreeBuilder -> Prop) b : Q a b -> wp (ret a) Q b.
Proof. done. Qed.

Lemma tb_modify f (Q : unit -> HTMLTreeBuilder -> Prop) b : Q tt (f b) -> wp (modify f) Q b.
Proof. done. Qed.

Lemma tb_query {A} (f : HTMLElementStack -> option A) a Q b : f (m_openElements (m_tree b)) = Some a -> Q a b -> wp (query f) Q b.
Proof. apply (tb_ask (fun b => f (m_openElements (m_tree b)))). Qed.

Lemma tb_tree f t' Q b : f (m_tree b) = Some t' -> Q tt (set_tree t' b) -> wp (tree f) Q b.
Proof. intros E H. unfold wp, tree. by rewrite E. Qed.

Lemma tb_stack f s' Q b : f (m_openElements (m_tree b)) = Some s' -> Q tt (set_tree (set_open s' (m_tree b)) b) -> wp (stack f) Q b.
Proof. intros E. apply tb_tree. by rewrite E. Qed.

Lemma tb_formatting f l Q b : f (m_activeFormattingElements (m_tree b)) = Some l -> Q tt (set_tree (set_active l (m_tree b)) b) -> wp (formatting f) Q b.
Proof. intros E. apply tb_tree. by rewrite E. Qed.

Lemma tb_assert (p : HTMLTreeBuilder -> bool) (Q : unit -> HTMLTreeBuilder -> Prop) b : p b = true -> Q tt b -> wp (assert p) Q b.
Proof. intros E H. unfold wp, assert. by rewrite E. Qed.

(** An operation that keeps a property of the state. *)
Definition keeps {A} (P : HTMLTreeBuilder -> Prop) (m : TB A) : Prop := forall b, P b -> wp m (fun _ b' => P b') b.

Lemma keeps_bind {A B} P (m : TB A) (k : A -> TB B) : keeps P m -> (forall a, keeps P (k a)) -> keeps P (bind m k).
Proof. intros Hm Hk b Hb. eapply tb_use; [by apply Hm|]. intros a b' Hb'. by apply Hk. Qed.

Lemma keeps_ret {A} P (a : A) : keeps P (ret a).
Proof. by intros b Hb. Qed.

Lemma keeps_get P : keeps P get.
Proof. intros b Hb. exact Hb. Qed.

Lemma keeps_if {A} P (c : bool) (m n : TB A) : keeps P m -> keeps P n -> keeps P (if c then m else n).
Proof. by destruct c. Qed.

Lemma keeps_modify P f : (forall b, P b -> P (f b)) -> keeps P (modify f).
Proof. intros H b Hb. apply H, Hb. Qed.

Lemma tb_keep {A B} P (m : TB A) (k : A -> TB B) Q b : keeps P m -> P b -> (forall a b', P b' -> wp (k a) Q b') -> wp (bind m k) Q b.
Proof. intros Hm Hb Hk. eapply tb_use; [by apply Hm|done]. Qed.

Create HintDb keeps.
#[export] Hint Resolve keeps_bind keeps_ret keeps_get keeps_if : keeps.

(** ** States *)

(** What does not change once there is a head: the policy and the head. *)
Record Fixed : Type := mkFixed { policy : ParserContentPolicy; headItem : option HTMLStackItem }.

(** The tree builder parses a document: [r] tells whether children are redirected to a
    foster parent, [m] is the insertion mode, [ks] are the kinds of the open elements and
    [ms] the modes of the open templates, the innermost first. *)
Record St (r : bool) (p : Fixed) (m : InsertionMode) (ks : list Kind) (ms : list InsertionMode) (b : HTMLTreeBuilder) : Prop := mkSt {
  st_site : docSite (m_tree b);
  st_kinds : kinds (m_tree b) = ks;
  st_context : m_fragmentContext b = None;
  st_mode : m_insertionMode b = m;
  st_modes : m_templateInsertionModes b = rev ms;
  st_redirect : m_redirectAttachToFosterParent (m_tree b) = r;
  st_policy : m_parserContentPolicy (m_tree b) = policy p;
  st_headItem : m_head (m_tree b) = headItem p;
  st_head : m <> BeforeHead -> is_Some (headItem p);
  st_pending : m <> InTableText -> m_pendingTableCharacters b = []
}.

Lemma st_tree r p m ks ms b t ks' : St r p m ks ms b -> docSite t -> fixedParts t = fixedParts (m_tree b) -> kinds t = ks' ->
  St r p m ks' ms (set_tree t b).
Proof.
  intros [S1 S2 S3 S4 S5 S6 S7 S8 S9 S10] Ht Hf Hk. unfold fixedParts in Hf. injection Hf as F1 F2 F3 F4 F5 F6 F7. constructor; cbn; try done; congruence.
Qed.

(** The same when the form or the head changes. *)
Lemma st_site_change r p m ks ms b t ks' : St r p m ks ms b -> docSite t -> m_redirectAttachToFosterParent t = r -> m_parserContentPolicy t = policy p ->
  m_head t = headItem p -> kinds t = ks' -> St r p m ks' ms (set_tree t b).
Proof. intros [] Ht F1 F2 F3 Hk. by constructor. Qed.

(** Members that do not matter. *)
Lemma st_framesetOk r p m ks ms b v : St r p m ks ms b -> St r p m ks ms (set_framesetOk v b).
Proof. intros []. by constructor. Qed.
Lemma st_skipNewline r p m ks ms b v : St r p m ks ms b -> St r p m ks ms (set_skipNewline v b).
Proof. intros []. by constructor. Qed.
Lemma st_script r p m ks ms b v : St r p m ks ms b -> St r p m ks ms (set_script v b).
Proof. intros []. by constructor. Qed.
Lemma st_quirks r p m ks ms b v : St r p m ks ms b -> St r p m ks ms (set_quirks v b).
Proof. intros []. by constructor. Qed.
Lemma st_tokenizer r p m ks ms b v : St r p m ks ms b -> St r p m ks ms (set_tokenizer v b).
Proof. intros []. by constructor. Qed.
Lemma st_originalMode r p m ks ms b v : St r p m ks ms b -> St r p m ks ms (set_originalMode v b).
Proof. intros []. by constructor. Qed.
Lemma st_changed r p m ks ms b c : St r p m ks ms b -> St r p m ks ms (changed c b).
Proof. intros []. by constructor. Qed.

#[export] Hint Resolve st_framesetOk st_skipNewline st_script st_quirks st_tokenizer st_originalMode st_changed : keeps.

Lemma st_setMode r p m m' ks ms b : St r p m ks ms b -> m <> BeforeHead -> m <> InTableText -> St r p m' ks ms (set_mode m' b).
Proof. intros [S1 S2 S3 S4 S5 S6 S7 S8 S9 S10] H1 H2. constructor; cbn; auto. Qed.

Lemma st_setTemplateModes r p m ks ms ms' b : St r p m ks ms b -> St r p m ks ms' (set_templateModes (rev ms') b).
Proof. intros []. by constructor. Qed.

Lemma st_setRedirect r r' p m ks ms b : St r p m ks ms b -> St r' p m ks ms (set_tree (set_redirect r' (m_tree b)) b).
Proof.
  intros [S1 S2 S3 S4 S5 S6 S7 S8 S9 S10]. constructor; cbn; try done. destruct S1 as [D1 D2 D3 D4 D5 D6 D7]. by constructor.
Qed.

(** [redirecting] restores the flag. *)
Lemma tb_redirecting {A} (o : TB A) r p m ks ms Q b : St r p m ks ms b ->
  wp o (fun a b' => Q a (set_tree (set_redirect r (m_tree b')) b')) (set_tree (set_redirect true (m_tree b)) b) -> wp (redirecting o) Q b.
Proof.
  intros Hb Ho. unfold redirecting. apply tb_bind. cbn. apply tb_bind. eapply tb_use; [exact Ho|].
  intros a b' HQ. rewrite (st_redirect _ _ _ _ _ _ Hb). exact HQ.
Qed.

(** ** Basic operations *)

Section Rules.
Context `{env : Environment}.

(** What is known of plug-ins and of text nodes. *)
Hypothesis pluginElements : forall n, isPluginElement n = true -> exists s, s ∈ ["applet"; "embed"; "object"]%string /\ nodeName n = htmlName s.
Hypothesis textLength : forall parent l position, (position < length l)%nat -> (createWithLengthLimit parent l position <= length l - position)%nat.

Lemma changed_app c c' b : changed c' (changed c b) = changed (c ++ c') b.
Proof. unfold changed. cbn. by rewrite app_assoc. Qed.

Lemma textLoop_ok fuel parent nextChild l position b : (length l - position < fuel)%nat ->
  wp (textLoop fuel parent nextChild l position) (fun _ b' => exists c, b' = changed c b) b.
Proof.
  revert position b. induction fuel as [|fuel IH]; intros position b Hf; [lia|]. cbn [textLoop].
  destruct (Nat.ltb_spec position (length l)) as [Hp|Hp].
  2: { exists []. destruct b. unfold changed. cbn. by rewrite app_nil_r. }
  pose proof (textLength parent l position Hp) as Hl. set (len := if (_ =? 0)%nat then _ else _).
  assert (Hlen : (0 < len <= length l - position)%nat) by (unfold len; destruct (Nat.eqb_spec (createWithLengthLimit parent l position) 0); lia).
  apply tb_bind, tb_assert; [apply Nat.leb_le; lia|]. apply tb_bind. cbn. eapply tb_mono; [apply IH; lia|].
  intros _ b' (c & ->). rewrite changed_app. by eexists.
Qed.

Lemma insertTextNode_ok l b : docSite (m_tree b) -> wp (insertTextNode l) (fun _ b' => exists c, b' = changed c b) b.
Proof.
  intros H. unfold insertTextNode.
  assert (Hsite : exists site, (match shouldFosterParent (m_tree b) with
    | None => None | Some true => findFosterSite (m_tree b)
    | Some false => match currentNode (m_tree b) with None => None | Some p => Some (p, None) end end) = Some site).
  { destruct (doc_current _ H) as (n & En). unfold shouldFosterParent, currentStackItem. unfold currentNode, topNode in En.
    destruct (topStackItem (m_openElements (m_tree b))) as [i|] eqn:Ei; [|done]. unfold currentNode, topNode. rewrite Ei. cbn.
    destruct (negb _); [by eexists|]. destruct (_ && _); [|by eexists]. apply findFosterSite_ok; [apply H|by apply doc_foster]. }
  destruct Hsite as ([parent nextChild] & Es). apply tb_bind. apply (tb_ask _ (parent, nextChild)); [exact Es|]. cbn zeta.
  set (p := if node_hasTagName parent _ then _ else _). set (appended := parserAppendData _ _ _). destruct (0 <? appended)%nat; apply tb_bind; cbn.
  - eapply tb_mono; [apply (textLoop_ok (S (length l))); lia|]. intros _ b' (c & ->). rewrite changed_app. by eexists.
  - apply (textLoop_ok (S (length l))). lia.
Qed.

Lemma keeps_text r p m ks ms l : keeps (St r p m ks ms) (insertTextNode l).
Proof. intros b Hb. eapply tb_mono; [by apply insertTextNode_ok, Hb|]. intros _ b' (c & ->). by apply st_changed. Qed.

(** ** Operations in flexible contexts *)

(** The structural elements [B] on the stack fix the mode, which allows loose elements
    above them. *)
Definition flexOK (m : InsertionMode) (B : list Kind) (ms : list InsertionMode) : Prop :=
  okStack B ms /\ ctx B ms = m /\ flexibleMode m ms /\ structuralTop B = true.

Definition Flex (r : bool) (p : Fixed) (m : InsertionMode) (B : list Kind) (ms : list InsertionMode) (b : HTMLTreeBuilder) : Prop :=
  flexOK m B ms /\ exists ks, base ks = B /\ St r p m ks ms b.

Lemma flex_ok m B ms ks : flexOK m B ms -> base ks = B -> okStack ks ms /\ ctx ks ms = m /\ flexible ks ms.
Proof.
  intros (H1 & H2 & H3 & H4) E. assert (EB : base ks = base B) by (by rewrite (structural_base B H4)).
  assert (Hf : flexible B ms) by (unfold flexible; rewrite H2; exact H3).
  destruct (ok_exchange B ks ms H1 Hf EB) as [Hk Hc]. split_and!; [done|congruence|]. unfold flexible. rewrite Hc. exact Hf.
Qed.

Lemma flex_tree r p m B ms b t : Flex r p m B ms b -> docSite t -> fixedParts t = fixedParts (m_tree b) -> base (kinds t) = B ->
  Flex r p m B ms (set_tree t b).
Proof. intros (Hok & ks & Eb & Hb) Ht Hf Hk. split; [done|]. exists (kinds t). split; [done|]. by apply (st_tree r p m ks ms). Qed.

Lemma flex_site r p m B ms b : Flex r p m B ms b -> docSite (m_tree b) /\ base (kinds (m_tree b)) = B /\ m_parserContentPolicy (m_tree b) = policy p /\
  okStack (kinds (m_tree b)) ms /\ flexible (kinds (m_tree b)) ms.
Proof.
  intros (Hok & ks & Eb & Hb). destruct (flex_ok m B ms ks Hok Eb) as (H1 & _ & H2). rewrite (st_kinds _ _ _ _ _ _ Hb). split_and!; try done; apply Hb.
Qed.

(** An operation on the site that changes only loose elements. *)
Lemma keeps_loosened r p m B ms f : (forall b, Flex r p m B ms b -> exists t', f (m_tree b) = Some t' /\ loosened (m_tree b) t') ->
  keeps (Flex r p m B ms) (tree f).
Proof.
  intros H b Hb. destruct (H b Hb) as (t' & E & H1 & H2 & H3). apply (tb_tree f t'); [done|]. apply flex_tree; [done|done|done|].
  rewrite H3. by apply (flex_site _ _ _ _ _ _ Hb).
Qed.

Lemma keeps_reconstruct r p m B ms : keeps (Flex r p m B ms) reconstruct.
Proof.
  apply keeps_loosened. intros b Hb. destruct (reconstruct_doc pluginElements (m_tree b)) as (t' & E & H1 & H2 & l & Ek & Hl); [by apply (flex_site _ _ _ _ _ _ Hb)|].
  exists t'. split; [done|]. split_and!; [done|done|]. rewrite Ek. apply base_loose. eapply List.Forall_impl; [|exact Hl]. by intros k ->.
Qed.

Lemma pushed_kinds t name k t' : pushedOn t name k t' -> kinds t' = k :: kinds t.
Proof. intros (_ & _ & _ & rec & E & Ek & _). unfold kinds. rewrite E. cbn. by rewrite Ek. Qed.

Lemma pushed_loosened t name k t' : loose k = true -> pushedOn t name k t' -> loosened t t'.
Proof. intros Hk H. pose proof (pushed_kinds _ _ _ _ H) as E. destruct H as (H1 & H2 & _). split_and!; [done|done|]. rewrite E. cbn. by rewrite Hk. Qed.

Lemma same_loosened t t' : sameSite t t' -> loosened t t'.
Proof. intros (H1 & H2 & _ & H3). split_and!; [done|done|]. unfold kinds. by rewrite H3. Qed.

Lemma keeps_insert r p m B ms token : looseName (tokenName token) = true -> attachableName (policy p) (tokenName token) = true ->
  keeps (Flex r p m B ms) (tree (insertHTMLElement token)).
Proof.
  intros Hl Ha. apply keeps_loosened. intros b Hb. destruct (flex_site _ _ _ _ _ _ Hb) as (H & _ & Hp & _).
  destruct (insertHTMLElement_ok pluginElements token (m_tree b) H) as (t' & E & Ht'); [by apply loose_plain|by rewrite Hp|].
  exists t'. split; [done|]. by apply (pushed_loosened _ (tokenName token) (nameKind (tokenName token))).
Qed.

Lemma keeps_insertSelfClosing r p m B ms token : attachableName (policy p) (tokenName token) = true ->
  keeps (Flex r p m B ms) (tree (insertSelfClosingHTMLElement token)).
Proof.
  intros Ha. apply keeps_loosened. intros b Hb. destruct (flex_site _ _ _ _ _ _ Hb) as (H & _ & Hp & _).
  destruct (insertSelfClosing_ok pluginElements token (m_tree b) H) as (t' & E & Ht'); [by rewrite Hp|]. exists t'. split; [done|]. by apply same_loosened.
Qed.

Lemma keeps_insertFormatting r p m B ms token : mkName (tokenName token) (Some xhtmlNamespaceURI) ∈ formattingNames ->
  NoDup (map attributeName (tokenAttributes token)) -> keeps (Flex r p m B ms) (tree (insertFormattingElement token)).
Proof.
  intros Hn Hd. apply keeps_loosened. intros b Hb. destruct (flex_site _ _ _ _ _ _ Hb) as (H & _).
  destruct (insertFormatting_doc pluginElements token (m_tree b) H Hn Hd) as (t' & E & H1 & H2 & Ek). exists t'. split; [done|]. split_and!; [done|done|]. by rewrite Ek.
Qed.

Lemma keeps_insertForeign r p m B ms token ns : ns <> xhtmlNamespaceURI -> keeps (Flex r p m B ms) (tree (insertForeignElement token ns)).
Proof.
  intros Hns. apply keeps_loosened. intros b Hb. destruct (flex_site _ _ _ _ _ _ Hb) as (H & _).
  destruct (insertForeign_ok pluginElements token ns (m_tree b) H Hns) as (t' & E & [Ht'|Ht']); exists t'; (split; [done|]); [by apply same_loosened|].
  by apply (pushed_loosened _ (tokenName token) KForeign).
Qed.

Lemma keeps_insertForm r p m B ms token : tokenName token = lit "form" -> keeps (Flex r p m B ms) (tree (insertHTMLFormElement token)).
Proof.
  intros Hn b Hb. pose proof Hb as (Hok & ks & Eb & Hs). destruct (flex_site _ _ _ _ _ _ Hb) as (H & Ebase & _).
  destruct (insertForm_ok pluginElements token (m_tree b) H Hn) as (t' & n & E & H1 & _ & H2 & _ & rec & Er & Ek). apply (tb_tree _ t'); [done|].
  split; [done|]. exists (kinds t'). split; [unfold kinds; rewrite Er; cbn; rewrite Ek; exact Ebase|].
  unfold fixedParts in H2. cbn in H2. injection H2 as F1 F2 F3 F4 F5 F6. apply (st_site_change r p m ks ms); try done; [by rewrite F5; apply Hs|by rewrite F3; apply Hs|].
  rewrite F2. apply Hs.
Qed.

Lemma keeps_agency r p m B ms name : looseName name = true -> keeps (Flex r p m B ms) (tree (AdoptionAgency.callTheAdoptionAgency name)).
Proof.
  intros Hn. apply keeps_loosened. intros b Hb. destruct (flex_site _ _ _ _ _ _ Hb) as (H & _ & _ & Hok & Hf). 
  destruct (agency_doc name (m_tree b) ms H Hok Hf Hn) as (t' & E & Ht' & _). by exists t'.
Qed.

Lemma keeps_anyOther r p m B ms name : head B <> Some (nameKind name) ->
  keeps (Flex r p m B ms) (tree (AdoptionAgency.processAnyOtherEndTagForInBody name)).
Proof.
  intros Hn. apply keeps_loosened. intros b Hb. destruct (flex_site _ _ _ _ _ _ Hb) as (H & Eb & _ & Hok & Hf). apply (anyOther_doc name (m_tree b) ms); try done. by rewrite Eb.
Qed.

Lemma keeps_implied r p m B ms (ex : HTMLStackItem -> bool) f :
  (forall t, f t = match popWhile (fun item => Some (negb (hasImpliedEndTag item) || ex item)) (m_openElements t) with None => None | Some s => Some (set_open s t) end) ->
  keeps (Flex r p m B ms) (tree f).
Proof.
  intros Hf. apply keeps_loosened. intros b Hb. destruct (flex_site _ _ _ _ _ _ Hb) as (H & _).
  destruct (implied_doc ex (m_tree b) H) as (n & A & L & Ep & E & En & HL & HA & _). rewrite Hf, Ep. eexists. split; [reflexivity|]. subst n.
  destruct (dropped_ok (m_tree b) A L H E HL (loose_records _ HA)) as (H1 & R1 & F1). split_and!; [done|done|].
  change (base (kinds (dropped (length A) (m_tree b))) = base (kinds (m_tree b))). unfold kinds. rewrite R1, E, map_app, base_loose; [done|]. by apply loose_kinds.
Qed.

Lemma generateImplied_eq t : generateImpliedEndTags t =
  match popWhile (fun item => Some (negb (hasImpliedEndTag item) || false)) (m_openElements t) with None => None | Some s => Some (set_open s t) end.
Proof. unfold generateImpliedEndTags. rewrite (popWhile_ext _ (fun item => Some (negb (hasImpliedEndTag item) || false))); [done|]. intros i. by rewrite orb_false_r. Qed.

Lemma keeps_generateImplied r p m B ms : keeps (Flex r p m B ms) (tree generateImpliedEndTags).
Proof. apply (keeps_implied _ _ _ _ _ (fun _ => false)). apply generateImplied_eq. Qed.

Lemma keeps_generateImpliedEx r p m B ms name : keeps (Flex r p m B ms) (tree (generateImpliedEndTagsWithExclusion name)).
Proof. by apply (keeps_implied _ _ _ _ _ (fun item => matchesHTMLTag item name)). Qed.

(** ** Closing elements that are in scope *)

Lemma root_marker item : isRootNode item = true -> isScopeMarker item = true /\ isListItemScopeMarker item = true /\ isButtonScopeMarker item = true /\
  isTableScopeMarker item = true.
Proof.
  intros H. unfold isListItemScopeMarker, isButtonScopeMarker, isTableScopeMarker. rewrite (root_isScopeMarker item H), H. by rewrite !orb_true_r.
Qed.

(** A question about a scope has an answer. *)
Lemma keeps_scope (P : HTMLTreeBuilder -> Prop) isMarker isTarget : (forall b, P b -> docSite (m_tree b)) ->
  (forall item, isRootNode item = true -> isMarker item = true) -> keeps P (query (fun s => inScopeCommon isMarker isTarget (m_top s))).
Proof.
  intros HP Hm b Hb. destruct (inScope_total isMarker isTarget (m_tree b) (HP b Hb) Hm) as (v & E). by apply (tb_query _ v).
Qed.

(** [closeInScope] with the loops that pop to the target. *)
Lemma closeScope_ok r p m B ms isMarker target ex scope implied close :
  (forall s, scope s = inScopeCommon isMarker target (m_top s)) ->
  (forall t, implied t = match popWhile (fun item => Some (negb (hasImpliedEndTag item) || ex item)) (m_openElements t) with None => None | Some s => Some (set_open s t) end) ->
  (forall s, close s = match popWhile (fun item => Some (target item)) s with Some s => pop s | None => None end) ->
  (forall item, isScopeMarker item = true -> isMarker item = true) ->
  (forall item, docItem item -> target item = true -> loose (kindOf item) = true /\ (hasImpliedEndTag item = false \/ ex item = true)) ->
  forall b, Flex r p m B ms b -> wp (closeInScope scope implied close)
    (fun v b' => Flex r p m B ms b' /\ if v then exists A g, records (m_tree b) = A ++ g :: records (m_tree b') /\ target (m_item g) = true else scope (m_openElements (m_tree b)) = Some false) b.
Proof.
  intros Hs Hi Hc Hm Ht b Hb. destruct (flex_site _ _ _ _ _ _ Hb) as (H & Eb & _ & Hok & Hf). unfold closeInScope.
  destruct (inScope_total isMarker target (m_tree b) H) as (v & E); [intros item Hr; by apply Hm, root_marker|].
  apply tb_bind, (tb_query _ v); [by rewrite Hs|]. destruct v; [|split; [exact Hb|by rewrite Hs]]. cbn [negb].
  destruct (scope_loose isMarker target (m_tree b) ms H Hok Hf Hm) as (A & rec & L & Er & Hr & HAt & HA & Hlr & HL); [|done|].
  { intros x Hx Htx. apply (Ht (m_item x)); [by apply (doc_item (m_tree b))|done]. }
  assert (Hd : docItem (m_item rec)) by (apply (doc_item (m_tree b)); [done|]; rewrite Er; apply elem_of_app; right; left).
  destruct (close_doc ex target (m_tree b) A rec L H Er HL (loose_records _ HA)) as (s1 & s2 & E1 & E2 & E3 & H2); [by apply loose_plain|done|done|by apply Ht|].
  apply tb_bind, (tb_tree _ (set_open s1 (m_tree b))); [by rewrite Hi, E1|]. apply tb_bind, (tb_stack _ s2); [cbn; by rewrite Hc|].
  split; [|by exists A, rec; rewrite Er, <- E3]. apply (flex_tree r p m B ms b (set_open s2 (m_tree b))); [done|done|done|].
  unfold kinds. cbn. rewrite E3, <- Eb. unfold kinds. rewrite Er, map_app, base_loose by (by apply loose_kinds). cbn. by rewrite Hlr.
Qed.

Lemma keeps_close r p m B ms isMarker target ex scope implied close :
  (forall s, scope s = inScopeCommon isMarker target (m_top s)) ->
  (forall t, implied t = match popWhile (fun item => Some (negb (hasImpliedEndTag item) || ex item)) (m_openElements t) with None => None | Some s => Some (set_open s t) end) ->
  (forall s, close s = match popWhile (fun item => Some (target item)) s with Some s => pop s | None => None end) ->
  (forall item, isScopeMarker item = true -> isMarker item = true) ->
  (forall item, docItem item -> target item = true -> loose (kindOf item) = true /\ (hasImpliedEndTag item = false \/ ex item = true)) ->
  keeps (Flex r p m B ms) (closeInScope scope implied close).
Proof. intros H1 H2 H3 H4 H5 b Hb. eapply tb_mono; [by apply (closeScope_ok r p m B ms isMarker target ex)|]. by intros v b' [? _]. Qed.

Lemma list_marker item : isScopeMarker item = true -> isListItemScopeMarker item = true.
Proof. intros H. unfold isListItemScopeMarker. by rewrite H. Qed.
Lemma button_marker item : isScopeMarker item = true -> isButtonScopeMarker item = true.
Proof. intros H. unfold isButtonScopeMarker. by rewrite H. Qed.

Lemma target_docKind name item : docItem item -> hasTarget name item = true -> kindOf item = nameKind name.
Proof.
  intros Hd H. unfold hasTarget, matchesHTMLTag, hasLocalName in H. apply andb_true_iff in H as [E1 E2]. apply bool_decide_eq_true in E1, E2. by apply kindOf_html.
Qed.

(** The names whose end tags are implied. *)
Definition impliedNames : list string := ["dd"; "dt"; "li"; "option"; "optgroup"; "p"; "rb"; "rp"; "rt"; "rtc"]%string.

Lemma implied_name name item : docItem item -> hasTarget name item = true -> oneOf name impliedNames = false -> hasImpliedEndTag item = false.
Proof.
  intros Hd Ht Hn. apply not_true_iff_false. unfold hasImpliedEndTag, isHTMLOptionElement, isHTMLOptGroupElement. rewrite !doc_node by done. intros Hi.
  unfold hasTarget, matchesHTMLTag, hasLocalName in Ht. apply andb_true_iff in Ht as [E1 _]. apply bool_decide_eq_true in E1.
  assert (Hex : exists s, s ∈ impliedNames /\ hasTagName item (htmlName s) = true).
  { unfold hasOneOf in Hi. cbn in Hi. rewrite !orb_true_iff in Hi. destruct Hi as [[[Hi|Hi]|Hi]|Hi]; repeat destruct Hi as [Hi|Hi]; try done;
      (eexists; split; [|exact Hi]); apply list_elem_of_In; cbn; tauto. }
  destruct Hex as (s & Hin & Hs). apply hasTagName_eq in Hs as [Hs _]. cbn in Hs. rewrite E1 in Hs. injection Hs as ->.
  assert (Hx : oneOf (lit s) impliedNames = true) by (apply oneOf_elem; by exists s). congruence.
Qed.

Lemma closeName_ok r p m B ms name b : looseName name = true -> oneOf name impliedNames = false -> Flex r p m B ms b ->
  wp (closeInScope (fun s => inScope s name) generateImpliedEndTags (popUntilPopped name))
    (fun v b' => Flex r p m B ms b' /\ if v then exists A g, records (m_tree b) = A ++ g :: records (m_tree b') /\ hasTarget name (m_item g) = true
      else inScope (m_openElements (m_tree b)) name = Some false) b.
Proof.
  intros Hl Hi. apply (closeScope_ok _ _ _ _ _ isScopeMarker (hasTarget name) (fun _ => false)); [done|apply generateImplied_eq|done|done|].
  intros item Hd Ht. rewrite (target_docKind name item Hd Ht). split; [done|]. left. by apply (implied_name name).
Qed.

Lemma keeps_closeName r p m B ms name : looseName name = true -> oneOf name impliedNames = false ->
  keeps (Flex r p m B ms) (closeInScope (fun s => inScope s name) generateImpliedEndTags (popUntilPopped name)).
Proof. intros Hl Hi b Hb. eapply tb_mono; [by apply closeName_ok|]. by intros v b' [? _]. Qed.

Lemma keeps_closeEx r p m B ms name isMarker : looseName name = true -> (forall item, isScopeMarker item = true -> isMarker item = true) ->
  keeps (Flex r p m B ms) (closeInScope (fun s => inScopeCommon isMarker (hasTarget name) (m_top s)) (generateImpliedEndTagsWithExclusion name) (popUntilPopped name)).
Proof.
  intros Hl Hm. apply (keeps_close _ _ _ _ _ isMarker (hasTarget name) (fun item => matchesHTMLTag item name)); try done.
  intros item Hd Ht. rewrite (target_docKind name item Hd Ht). split; [done|]. by right.
Qed.

Lemma keeps_closeHeader r p m B ms :
  keeps (Flex r p m B ms) (closeInScope hasNumberedHeaderElementInScope generateImpliedEndTags popUntilNumberedHeaderElementPopped).
Proof.
  apply (keeps_close _ _ _ _ _ isScopeMarker isNumberedHeaderElement (fun _ => false)); [done|apply generateImplied_eq|done|done|].
  intros item Hd Ht. unfold isNumberedHeaderElement, hasOneOf in Ht. apply existsb_exists in Ht as (n & Hin & Hn). apply in_map_iff in Hin as (s & <- & Hs).
  assert (Hi : nameKind (lit s) = KOther /\ oneOf (lit s) impliedNames = false).
  { clear Hn. cbn in Hs. repeat (destruct Hs as [<-|Hs]; [by split; vm_compute|]). done. }
  destruct Hi as [Hk Hi]. split; [by rewrite (tag_kind item s Hd Hn), Hk|]. left. by apply (implied_name (lit s)).
Qed.

(** ** Forms *)

Lemma flex_modify r p m B ms f : (forall ks b, St r p m ks ms b -> St r p m ks ms (f b)) -> keeps (Flex r p m B ms) (modify f).
Proof. intros H b (Hok & ks & Eb & Hb). split; [done|]. exists ks. split; [done|]. by apply H. Qed.

Lemma doc_noForm t : docSite t -> docSite (set_form None t).
Proof. intros []. by constructor. Qed.

Lemma st_noForm r p m ks ms b : St r p m ks ms b -> St r p m ks ms (set_tree (set_form None (m_tree b)) b).
Proof. intros H. pose proof H as []. apply (st_site_change r p m ks ms); try done. by apply doc_noForm. Qed.

Lemma keeps_closeForm r p m B ms b node : Flex r p m B ms b -> node_hasTagName node (htmlName "form") = true -> remembers (m_tree b) node ->
  wp (closeInScope (fun s => inScopeNode s node) generateImpliedEndTags (remove node)) (fun _ b' => Flex r p m B ms b') b.
Proof.
  intros Hb Hn (_ & Hrem & _). destruct (flex_site _ _ _ _ _ _ Hb) as (H & Eb & _ & Hok & Hf). unfold closeInScope, inScopeNode.
  set (target := fun item => sameNode (m_node item) node).
  destruct (inScope_total isScopeMarker target (m_tree b) H) as (v & E); [intros item Hr; by apply root_marker|].
  apply tb_bind, (tb_query _ v); [done|]. destruct v; [|exact Hb]. cbn [negb].
  assert (Hform : forall x, x ∈ records (m_tree b) -> target (m_item x) = true ->
    nodeOf x = node /\ kindOf (m_item x) = KOther /\ hasImpliedEndTag (m_item x) = false).
  { intros x Hx Ht. apply sameNode_eq in Ht. pose proof (Hrem x Hx Ht) as En. pose proof (doc_item _ x H Hx) as Hd. rewrite <- En in Hn.
    unfold nodeOf in Hn. rewrite doc_node in Hn by done. split_and!; [done|by apply (tag_kind (m_item x) "form")|]. by apply (implied_name (lit "form")). }
  destruct (scope_loose isScopeMarker target (m_tree b) ms H Hok Hf) as (A & rec & L & Er & Hr & HAt & HA & Hlr & HL); [done| |done|].
  { intros x Hx Htx. by destruct (Hform x Hx Htx) as (_ & -> & _). }
  destruct (Hform rec) as (En & Hk & Hi); [rewrite Er; apply elem_of_app; right; left|done|]. subst node.
  destruct (implied_doc (fun _ => false) (m_tree b) H) as (n & A1 & B1 & Ep & E1 & En & HB1 & HA1 & HA1').
  destruct (prefix_split (fun r => negb (hasImpliedEndTag (m_item r)) || false) A1 B1 A rec L) as (U & EA & EB); [congruence|done|by rewrite Hi|].
  destruct (dropped_ok (m_tree b) A1 B1 H E1 HB1 (loose_records _ HA1)) as (H1 & R1 & F1). subst n.
  apply tb_bind, (tb_tree _ (dropped (length A1) (m_tree b))); [by rewrite generateImplied_eq, Ep|].
  destruct (remove_doc (dropped (length A1) (m_tree b)) U rec L H1) as (s' & Es & H2 & Et); [by rewrite R1, EB|done|by apply loose_plain|].
  apply tb_bind, (tb_stack _ s'); [done|]. apply (flex_tree r p m B ms b (set_open s' (dropped (length A1) (m_tree b)))); [done|done|done|].
  rewrite EA in HA. apply List.Forall_app in HA as [_ HU]. unfold kinds. cbn. rewrite Et, <- Eb. unfold kinds. rewrite Er, EA, !map_app, <- app_assoc, !base_loose; try (by apply loose_kinds).
  cbn. by rewrite Hlr.
Qed.

Lemma keeps_template (P : HTMLTreeBuilder -> Prop) : (forall b, P b -> docSite (m_tree b)) -> keeps P isParsingTemplateContents.
Proof. intros HP. by apply (keeps_scope P isRootNode (hasTarget (lit "template"))). Qed.

Lemma flex_doc r p m B ms b : Flex r p m B ms b -> docSite (m_tree b).
Proof. intros H. apply (flex_site _ _ _ _ _ _ H). Qed.

Lemma keeps_formEndTag r p m B ms : keeps (Flex r p m B ms) formEndTagForInBody.
Proof.
  unfold formEndTagForInBody. apply keeps_bind; [apply keeps_template, flex_doc|]. intros [|]; cbn [negb]; [by apply keeps_closeName|].
  intros b Hb. apply tb_bind. cbn. apply tb_bind. cbn.
  assert (Hb' : Flex r p m B ms (set_tree (set_form None (m_tree b)) b)).
  { destruct Hb as (Hok & ks & Eb & Hb). split; [done|]. exists ks. split; [done|]. by apply st_noForm. }
  destruct (m_form (m_tree b)) as [node|] eqn:En; [|exact Hb']. destruct (doc_form _ (flex_doc _ _ _ _ _ _ Hb) node En) as [Hn Hrem].
  apply keeps_closeForm; [done|done|]. exact Hrem.
Qed.

End Rules.

(** ** Automation *)

Lemma keeps_framesetNotOk r p m B ms : keeps (Flex r p m B ms) framesetNotOk.
Proof. apply flex_modify. intros ks b. apply st_framesetOk. Qed.

Lemma keeps_skipNewline r p m B ms v : keeps (Flex r p m B ms) (modify (set_skipNewline v)).
Proof. apply flex_modify. intros ks b. apply st_skipNewline. Qed.

Lemma keeps_setFrameset r p m B ms v : keeps (Flex r p m B ms) (modify (set_framesetOk v)).
Proof. apply flex_modify. intros ks b. apply st_framesetOk. Qed.

Lemma keeps_tokenizerState r p m B ms st : keeps (Flex r p m B ms) (setTokenizerState st).
Proof. apply flex_modify. intros ks b. apply st_tokenizer. Qed.

Lemma keeps_changed r p m B ms c : keeps (Flex r p m B ms) (modify (changed c)).
Proof. apply flex_modify. intros ks b. apply st_changed. Qed.

Lemma keeps_flexText `{env : Environment} r p m B ms l :
  (forall parent l position, (position < length l)%nat -> (createWithLengthLimit parent l position <= length l - position)%nat) ->
  keeps (Flex r p m B ms) (insertTextNode l).
Proof. intros Hl b (Hok & ks & Eb & Hb). eapply tb_mono; [by apply (keeps_text Hl r p m ks ms)|]. intros ? b' Hb'. split; [done|]. by exists ks. Qed.

Lemma keeps_marker r p m B ms : keeps (Flex r p m B ms) (formatting (fun l => Some (HTMLFormattingElementList.appendMarker l))).
Proof.
  intros b Hb. apply (tb_formatting _ (HTMLFormattingElementList.appendMarker (entries (m_tree b)))); [done|].
  apply flex_tree; [done|by apply doc_marker, (flex_doc _ _ _ _ _ _ Hb)|done|]. by apply (flex_site _ _ _ _ _ _ Hb).
Qed.

Lemma keeps_clear r p m B ms : keeps (Flex r p m B ms) (formatting (fun l => Some (HTMLFormattingElementList.clearToLastMarker l))).
Proof.
  intros b Hb. apply (tb_formatting _ (HTMLFormattingElementList.clearToLastMarker (entries (m_tree b)))); [done|].
  apply flex_tree; [done|by apply doc_clear, (flex_doc _ _ _ _ _ _ Hb)|done|]. by apply (flex_site _ _ _ _ _ _ Hb).
Qed.

Lemma keeps_inScope r p m B ms name : keeps (Flex r p m B ms) (query (fun s => inScope s name)).
Proof. apply (keeps_scope _ isScopeMarker); [apply flex_doc|intros; by apply root_marker]. Qed.
Lemma keeps_inButtonScope r p m B ms name : keeps (Flex r p m B ms) (query (fun s => inButtonScope s name)).
Proof. apply (keeps_scope _ isButtonScopeMarker); [apply flex_doc|intros; by apply root_marker]. Qed.
Lemma keeps_inTableScope r p m B ms name : keeps (Flex r p m B ms) (query (fun s => inTableScope s name)).
Proof. apply (keeps_scope _ isTableScopeMarker); [apply flex_doc|intros; by apply root_marker]. Qed.
Lemma keeps_inTemplate r p m B ms : keeps (Flex r p m B ms) (query hasTemplateInHTMLScope).
Proof. apply (keeps_scope _ isRootNode); [apply flex_doc|done]. Qed.

#[export] Hint Resolve keeps_framesetNotOk keeps_skipNewline keeps_setFrameset keeps_tokenizerState keeps_changed keeps_flexText keeps_marker keeps_clear
  keeps_inScope keeps_inButtonScope keeps_inTableScope keeps_inTemplate keeps_reconstruct keeps_insert keeps_insertSelfClosing keeps_insertFormatting
  keeps_insertForeign keeps_insertForm keeps_agency keeps_anyOther keeps_generateImplied keeps_generateImpliedEx keeps_closeName keeps_closeHeader
  keeps_formEndTag : keeps.

(** The condition of the next test of a name. *)
Ltac name_case E :=
  lazymatch goal with
  | |- context [if ?c then _ else _] => destruct c eqn:E
  end.

(** A fact that holds for each of the names of a test. *)
Ltac by_names := eapply oneOf_forall; [eassumption|vm_compute; reflexivity].
