(* ===== verification/HTMLTreeBuilderBody.v ===== *)
(** * Safety of the tree builder in the body

    Start tags, end tags and characters in the insertion modes for the content of the
    body, inside and outside of tables. *)
From S2P Require Import Prelude HTMLTokenizer CompatibilityMode HTMLStackItem HTMLElementStack HTMLElementStackProps HTMLElementStackProtocol HTMLFormattingElementList HTMLFormattingElementProps HTMLConstructionSite HTMLConstructionSiteProps AdoptionAgency HTMLTreeBuilderState HTMLTreeBuilder HTMLTreeBuilderKinds HTMLTreeBuilderSite HTMLTreeBuilderStack HTMLTreeBuilderRules.
From Stdlib Require Import String ZArith Lia.
From stdpp Require Import base list numbers option.
#[local] Open Scope Z_scope.
#[local] Open Scope builder_scope.
Import HTMLStackItem HTMLElementStack HTMLConstructionSite CompatibilityMode HTMLTreeBuilderState HTMLTreeBuilder.

Section Body.
Context `{env : Environment}.
Hypothesis pluginElements : forall n, isPluginElement n = true -> exists s, s ∈ ["applet"; "embed"; "object"]%string /\ nodeName n = htmlName s.
Hypothesis textLength : forall parent l position, (position < length l)%nat -> (createWithLengthLimit parent l position <= length l - position)%nat.

(** ** End tags *)

Lemma applet_end r p m B ms name : looseName name = true -> oneOf name impliedNames = false ->
  keeps (Flex r p m B ms) (let! inside := query (fun s => inScope s name) in
    if negb inside then ret tt
    else tree generateImpliedEndTags ;; stack (popUntilPopped name) ;; formatting (fun l => Some (HTMLFormattingElementList.clearToLastMarker l))).
Proof.
  intros Hl Hi b Hb. pose proof (keeps_closeName r p m B ms name Hl Hi b Hb) as Hc. unfold closeInScope in Hc. unfold wp, bind in *.
  destruct (query _ b) as [[[|] b1]|]; cbn [negb] in *; [|exact Hc|done].
  destruct (tree _ b1) as [[_ b2]|]; [|done]. destruct (stack _ b2) as [[_ b3]|]; [|done]. by apply keeps_clear.
Qed.

(** The end tags that are treated alike in all these modes. *)
Definition plainEndTag (name : AtomicString) : bool := negb (oneOf name ["body"; "html"; "p"; "br"; "template"]%string).

Lemma bodyEnd r p m B ms startTag endTag name : plainEndTag name = true -> head B <> Some (nameKind name) ->
  keeps (Flex r p m B ms) (processEndTagForInBody startTag endTag name).
Proof.
  intros Hn Hh. unfold plainEndTag in Hn. apply negb_true_iff in Hn. unfold oneOf in Hn. cbn [existsb] in Hn. rewrite !orb_false_iff in Hn.
  destruct Hn as (N1 & N2 & N3 & N4 & N5 & _). unfold processEndTagForInBody. rewrite N1, N2, N3, N4, N5.
  name_case E1; [apply keeps_bind; [apply keeps_closeName; [by_names|]|intros; apply keeps_ret]|].
  { apply negb_true_iff. eapply (oneOf_forall _ _ (fun n => negb (oneOf n impliedNames))); [exact E1|by vm_compute]. }
  name_case E2; [apply isTag_eq in E2 as ->; eauto 6 with keeps|].
  name_case E3; [apply isTag_eq in E3 as ->; apply keeps_bind; [by apply (keeps_closeEx _ _ _ _ _ _ isListItemScopeMarker), list_marker|intros; apply keeps_ret]|].
  name_case E4; [apply keeps_bind; [apply (keeps_closeEx _ _ _ _ _ _ isScopeMarker); [by_names|done]|intros; apply keeps_ret]|].
  name_case E5; [eauto 6 with keeps|].
  name_case E6; [apply keeps_agency; unfold isFormattingTag, isNonAnchorFormattingTag, isNonAnchorNonNobrFormattingTag in E6; rewrite !orb_true_iff in E6|].
  { destruct E6 as [E6|[E6|E6]]; [by apply isTag_eq in E6 as ->|by apply isTag_eq in E6 as ->|by_names]. }
  name_case E7; [apply applet_end; [by_names|]|eauto with keeps].
  apply negb_true_iff. eapply (oneOf_forall _ _ (fun n => negb (oneOf n impliedNames))); [exact E7|by vm_compute].
Qed.

(** A name without structure fails the tests for the others. *)
Lemma loose_isTag name s : looseName name = true -> looseName (lit s) = false -> isTag name s = false.
Proof. intros H1 H2. apply not_true_iff_false. intros H. apply isTag_eq in H as ->. congruence. Qed.

Lemma flex_head r p m B ms b name : Flex r p m B ms b -> looseName name = true -> head B <> Some (nameKind name).
Proof.
  intros ((_ & _ & _ & Hs) & _) Hl E. destruct B as [|k B]; [done|]. injection E as ->. unfold looseName in Hl. cbn in Hs. by rewrite Hl in Hs.
Qed.

Lemma flex_redirect r r' p m B ms b : Flex r p m B ms b -> Flex r' p m B ms (set_tree (set_redirect r' (m_tree b)) b).
Proof. intros (Hok & ks & Eb & Hb). split; [done|]. exists ks. split; [done|]. by apply (st_setRedirect r). Qed.

Lemma keeps_redirecting {A} (o : TB A) r p m B ms : keeps (Flex true p m B ms) o -> keeps (Flex r p m B ms) (redirecting o).
Proof.
  intros Ho b Hb. pose proof Hb as (_ & ks & _ & Hs). apply (tb_redirecting o r p m ks ms); [done|].
  eapply tb_mono; [by apply Ho, (flex_redirect r)|]. intros a b' Hb'. by apply (flex_redirect true).
Qed.

Lemma flex_mode r p m B ms b : Flex r p m B ms b -> m_insertionMode b = m.
Proof. intros (_ & ks & _ & Hb). apply Hb. Qed.

Lemma keeps_assertMode r p m B ms l : bool_decide (m ∈ l) = true -> keeps (Flex r p m B ms) (assertMode l).
Proof. intros H b Hb. apply tb_assert; [by rewrite (flex_mode _ _ _ _ _ _ Hb)|done]. Qed.
End Body.

(** All tests of a name without structure. *)
Ltac loose_tests H :=
  unfold isCaptionColOrColgroupTag, isTableCellContextTag, isTableBodyContextTag, inSelectInTableClosing, oneOf; cbn [existsb];
  repeat (match goal with |- context [isTag ?n ?s] => rewrite (loose_isTag n s H) by (vm_compute; reflexivity) end); cbn [orb].

(** The test of a closed name. *)
Ltac closed_tests :=
  repeat (match goal with
  | |- context [isTag (ascii_literal ?a) ?s] => let v := eval vm_compute in (isTag (ascii_literal a) s) in change (isTag (ascii_literal a) s) with v
  | |- context [oneOf (ascii_literal ?a) ?l] => let v := eval vm_compute in (oneOf (ascii_literal a) l) in change (oneOf (ascii_literal a) l) with v
  end); cbn [orb andb negb].

Section Body2.
Context `{env : Environment}.
Hypothesis pluginElements : forall n, isPluginElement n = true -> exists s, s ∈ ["applet"; "embed"; "object"]%string /\ nodeName n = htmlName s.
Hypothesis textLength : forall parent l position, (position < length l)%nat -> (createWithLengthLimit parent l position <= length l - position)%nat.

(** A property of the state that holds with and without redirection. *)
Definition redirected (r : bool) (b : HTMLTreeBuilder) : HTMLTreeBuilder := set_tree (set_redirect r (m_tree b)) b.

Section Dispatch.
Variables (p : Fixed) (m : InsertionMode) (B : list Kind) (ms : list InsertionMode).
Variables P Q : bool -> HTMLTreeBuilder -> Prop.
Hypothesis P_flex : forall r b, P r b -> Flex r p m B ms b.
Hypothesis P_redirect : forall r r' b, P r b -> P r' (redirected r' b).
Hypothesis Q_redirect : forall r r' b, Q r b -> Q r' (redirected r' b).
Hypothesis flexible_mode : flexMode m = true.

Lemma dispatch_redirecting (o : TB unit) r b : (forall r b, P r b -> wp o (fun _ b' => Q r b') b) -> P r b -> wp (redirecting o) (fun _ b' => Q r b') b.
Proof.
  intros Ho Hb. pose proof (P_flex r b Hb) as (_ & ks & _ & Hs). apply (tb_redirecting o r p m ks ms); [done|].
  eapply tb_mono; [by apply (Ho true), (P_redirect r)|]. intros a b' Hb'. by apply (Q_redirect true).
Qed.

(** End tags of names without structure, by insertion mode. *)
Lemma endTag_dispatch startTag endTag name r b : looseName name = true -> (isTag name "col" = true -> forall r b, P r b -> Q r b) ->
  (forall r b, P r b -> wp (processEndTagForInBody startTag endTag name) (fun _ b' => Q r b') b) -> P r b ->
  wp (processEndTag startTag endTag name) (fun _ b' => Q r b') b.
Proof.
  intros Hl Hcol Hbody Hb. unfold processEndTag. apply tb_bind. cbn. rewrite (flex_mode _ _ _ _ _ _ (P_flex r b Hb)).
  pose proof (dispatch_redirecting (processEndTagForInBody startTag endTag name) r b Hbody Hb) as Hred.
  assert (Hc : forall c : TB unit, wp c (fun _ b' => Q r b') b -> wp (if isTag name "col" then ret tt else c) (fun _ b' => Q r b') b).
  { intros c Hc. destruct (isTag name "col"); [by apply Hcol|done]. }
  destruct m; try discriminate flexible_mode.
  - unfold endTagInBody, assertMode. apply tb_bind, tb_assert; [by rewrite (flex_mode _ _ _ _ _ _ (P_flex r b Hb))|]. by apply Hbody.
  - unfold processEndTagForInTable. loose_tests Hl. rewrite ?orb_false_r. by apply Hc.
  - unfold endTagInCaption. loose_tests Hl. rewrite ?orb_false_r. apply Hc. by apply Hbody.
  - unfold processEndTagForInTableBody, processEndTagForInTable. loose_tests Hl. rewrite ?orb_false_r. by apply Hc, Hc.
  - unfold processEndTagForInRow, processEndTagForInTable. loose_tests Hl. rewrite ?orb_false_r. by apply Hc, Hc.
  - unfold processEndTagForInCell. loose_tests Hl. rewrite ?orb_false_r. apply Hc. by apply Hbody.
Qed.

(** Start tags that are processed as in the body. *)
Definition plainStartTag (name : AtomicString) : bool := looseName name && negb (oneOf name ["col"; "style"; "script"; "input"; "form"]%string).

Lemma startTag_dispatch startTag endTag fakeCharacters token r b : plainStartTag (tokenName token) = true ->
  (forall r b, P r b -> wp (processStartTagForInBody startTag endTag fakeCharacters token) (fun _ b' => Q r b') b) -> P r b ->
  wp (processStartTag startTag endTag fakeCharacters token) (fun _ b' => Q r b') b.
Proof.
  intros Hn Hbody Hb. apply andb_true_iff in Hn as [Hl Hn]. apply negb_true_iff in Hn. unfold oneOf in Hn. cbn [existsb] in Hn. rewrite !orb_false_iff in Hn.
  destruct Hn as (N1 & N2 & N3 & N4 & N5 & _). unfold processStartTag. apply tb_bind. cbn. rewrite (flex_mode _ _ _ _ _ _ (P_flex r b Hb)).
  pose proof (dispatch_redirecting _ r b Hbody Hb) as Hred.
  assert (Htable : wp (processStartTagForInTable startTag endTag fakeCharacters token) (fun _ b' => Q r b') b).
  { unfold processStartTagForInTable. loose_tests Hl. by rewrite N1, N2, N3, N4, N5. }
  destruct m; try discriminate flexible_mode.
  - unfold startTagInBody, assertMode. apply tb_bind, tb_assert; [by rewrite (flex_mode _ _ _ _ _ _ (P_flex r b Hb))|]. by apply Hbody.
  - done.
  - unfold startTagInCaption. loose_tests Hl. rewrite N1. by apply Hbody.
  - unfold startTagInTableBody. loose_tests Hl. by rewrite N1.
  - unfold startTagInRow. loose_tests Hl. by rewrite N1.
  - unfold startTagInCell. loose_tests Hl. rewrite N1. by apply Hbody.
Qed.

End Dispatch.

(** The end tags that need no other tags. *)
Lemma endTag_plain r p m B ms n name : flexMode m = true -> looseName name = true -> plainEndTag name = true ->
  keeps (Flex r p m B ms) (process (S n) (CallEndTag name)).
Proof.
  intros Hm Hl Hp b Hb. cbn [process]. apply (endTag_dispatch p m B ms (fun r => Flex r p m B ms) (fun r => Flex r p m B ms)); try done.
  - intros r0 r' b0. apply (flex_redirect r0).
  - intros r0 r' b0. apply (flex_redirect r0).
  - intros r' b' Hb'. apply bodyEnd; try done. by apply (flex_head _ _ _ _ _ _ _ Hb').
Qed.

(** ** Paragraphs *)

Definition topIs (name : AtomicString) (b : HTMLTreeBuilder) : Prop :=
  exists rec l, records (m_tree b) = rec :: l /\ hasTarget name (m_item rec) = true.

Lemma insert_top r p m B ms token b : Flex r p m B ms b -> looseName (tokenName token) = true -> attachableName (policy p) (tokenName token) = true ->
  wp (tree (insertHTMLElement token)) (fun _ b' => Flex r p m B ms b' /\ topIs (tokenName token) b') b.
Proof.
  intros Hb Hl Ha. destruct (flex_site _ _ _ _ _ _ Hb) as (H & Eb & Hp & _).
  destruct (insertHTMLElement_ok pluginElements token (m_tree b) H) as (t' & E & Ht'); [by apply loose_plain|by rewrite Hp|].
  apply (tb_tree _ t'); [done|]. pose proof (pushed_loosened _ _ _ _ Hl Ht') as (L1 & L2 & L3). split; [apply flex_tree; try done; by rewrite L3|].
  destruct Ht' as (_ & _ & _ & rec & Er & Ek & En). exists rec, (records (m_tree b)). split; [done|].
  assert (Hd : docItem (m_item rec)) by (apply (doc_item t'); [done|]; rewrite Er; left).
  unfold hasTarget, matchesHTMLTag, hasLocalName. rewrite En, bool_decide_eq_true_2 by done. cbn [andb]. apply bool_decide_eq_true.
  destruct (item_cases _ Hd) as [[Ef _]|(n & _ & ? & _)]; [|done]. exfalso. rewrite Ek in Ef. by apply nameKind_foreign in Ef.
Qed.

Lemma topIs_scope name b isMarker : topIs name b -> inScopeCommon isMarker (hasTarget name) (records (m_tree b)) = Some true.
Proof. intros (rec & l & -> & H). cbn. by rewrite H. Qed.

Definition pInButtonScope (b : HTMLTreeBuilder) : Prop := inButtonScope (m_openElements (m_tree b)) (lit "p") = Some true.

Lemma closeP r p m B ms b : Flex r p m B ms b -> pInButtonScope b ->
  wp (tree (generateImpliedEndTagsWithExclusion (lit "p")) ;; stack (popUntilPopped (lit "p"))) (fun _ b' => Flex r p m B ms b') b.
Proof.
  intros Hb Hp. pose proof (keeps_closeEx r p m B ms (lit "p") isButtonScopeMarker eq_refl button_marker b Hb) as Hc. unfold closeInScope in Hc.
  unfold wp, bind in *. unfold query at 1, ask at 1 in Hc. unfold pInButtonScope, inButtonScope in Hp. rewrite Hp in Hc. cbn [negb] in Hc.
  destruct (tree _ b) as [[_ b2]|]; [|done]. by destruct (stack _ b2) as [[_ b3]|].
Qed.

Lemma endP_in r p m B ms n b : flexMode m = true -> Flex r p m B ms b -> pInButtonScope b ->
  wp (process (S n) (CallEndTag (lit "p"))) (fun _ b' => Flex r p m B ms b') b.
Proof.
  intros Hm Hb Hp. cbn [process]. apply (endTag_dispatch p m B ms (fun r b => Flex r p m B ms b /\ pInButtonScope b) (fun r => Flex r p m B ms)); try done.
  - by intros r0 b0 [? _].
  - intros r0 r' b0 [H ?]. split; [by apply (flex_redirect r0)|done].
  - intros r0 r' b0. apply (flex_redirect r0).
  - intros r' b' [Hb' Hp']. unfold processEndTagForInBody. closed_tests. apply tb_bind, (tb_query _ true); [done|]. by apply closeP.
Qed.

(** A paragraph in button scope is closed first. *)
Lemma pEndIfInScope r p m B ms n : flexMode m = true ->
  keeps (Flex r p m B ms) (processFakePEndTagIfPInButtonScope (fun name => process (S n) (CallEndTag name))).
Proof.
  intros Hm b Hb. unfold processFakePEndTagIfPInButtonScope.
  destruct (inScope_total isButtonScopeMarker (hasTarget (lit "p")) (m_tree b)) as (v & E); [by apply (flex_doc _ _ _ _ _ _ Hb)|intros; by apply root_marker|].
  apply tb_bind, (tb_query _ v); [exact E|]. destruct v; [|exact Hb]. by apply endP_in.
Qed.

(** A start tag of a paragraph. *)
Lemma startP r p m B ms n token b : flexMode m = true -> tokenName token = lit "p" -> Flex r p m B ms b ->
  wp (process (S (S n)) (CallStartTag token)) (fun _ b' => Flex r p m B ms b' /\ topIs (lit "p") b') b.
Proof.
  intros Hm Ht Hb. cbn [process].
  apply (startTag_dispatch p m B ms (fun r => Flex r p m B ms) (fun r b => Flex r p m B ms b /\ topIs (lit "p") b)); try done.
  - intros r0 r' b0. apply (flex_redirect r0).
  - intros r0 r' b0 [H ?]. split; [by apply (flex_redirect r0)|done].
  - by rewrite Ht.
  - intros r' b' Hb'. unfold processStartTagForInBody. rewrite Ht. unfold isNumberedHeaderTag. closed_tests.
    eapply tb_keep; [by apply (pEndIfInScope r' p m B ms n)|done|]. intros ? b2 Hb2. rewrite <- Ht.
    apply insert_top; [done|by rewrite Ht|]. rewrite Ht. unfold attachableName. by rewrite !orb_true_r.
Qed.

Lemma bodyEndP r p m B ms n : flexMode m = true ->
  keeps (Flex r p m B ms) (processEndTagForInBody (fun token => process (S (S n)) (CallStartTag token)) (fun name => process (S (S n)) (CallEndTag name)) (lit "p")).
Proof.
  intros Hm b Hb. unfold processEndTagForInBody. closed_tests.
  destruct (inScope_total isButtonScopeMarker (hasTarget (lit "p")) (m_tree b)) as (v & E); [by apply (flex_doc _ _ _ _ _ _ Hb)|intros; by apply root_marker|].
  apply tb_bind, (tb_query _ v); [exact E|]. destruct v; cbn [negb]; [by apply closeP|].
  unfold processFakeStartTag. eapply tb_use; [by apply (startP r p m B ms n (fakeToken "p"))|]. intros ? b2 [Hb2 Ht].
  unfold assertThat. apply tb_bind, tb_bind, (tb_query _ true); [by apply topIs_scope|]. apply tb_assert; [done|].
  apply (endP_in r p m B ms (S n)); [done|done|]. by apply topIs_scope.
Qed.

End Body2.
