(* ===== verification/HTMLTreeBuilderStates.v ===== *)
(** * States of the tree builder between tokens

    [fits] ties the insertion mode to the nesting of the open elements, [Ready] is the
    invariant of the tree builder, and the operations that change the insertion mode
    lead from one such state to another. *)
From S2P Require Import Prelude HTMLTokenizer CompatibilityMode HTMLStackItem HTMLElementStack HTMLElementStackProps HTMLElementStackProtocol HTMLFormattingElementList HTMLFormattingElementProps HTMLConstructionSite HTMLConstructionSiteProps AdoptionAgency HTMLTreeBuilderState HTMLTreeBuilder HTMLTreeBuilderKinds HTMLTreeBuilderSite HTMLTreeBuilderStack HTMLTreeBuilderRules HTMLTreeBuilderBody.
From Stdlib Require Import String ZArith Lia.
From stdpp Require Import base list numbers option.
#[local] Open Scope Z_scope.
#[local] Open Scope builder_scope.
Import HTMLStackItem HTMLElementStack HTMLConstructionSite CompatibilityMode HTMLTreeBuilderState HTMLTreeBuilder.

(** ** The insertion mode and the stack *)

(** The modes that are determined by the stack. *)
Definition normal (m : InsertionMode) : bool :=
  match m with
  | AfterHead | InHead | TemplateContents | InBody | InTable | InCaption | InColumnGroup | InTableBody | InRow | InCell | InSelect | InFrameset => true
  | _ => false
  end.

Definition fits (m : InsertionMode) (ks : list Kind) (ms : list InsertionMode) : Prop :=
  match m with
  | Initial | BeforeHTML | Text | InTableText => False
  | BeforeHead | AfterFrameset => ks = [KHtml] /\ ms = []
  | AfterAfterFrameset => ms = [] /\ exists A, ks = A ++ [KHtml] /\ Forall (fun k => k = KOther) A
  | InHeadNoscript => ks = [KNoscript; KHead; KHtml] /\ ms = []
  | AfterBody | AfterAfterBody => okStack ks ms /\ ctx ks ms = InBody /\ ms = []
  | InSelectInTable => okStack ks ms /\ ctx ks ms = InSelect
  | _ => okStack ks ms /\ ctx ks ms = m
  end.

Lemma fits_normal m ks ms : normal m = true -> okStack ks ms -> ctx ks ms = m -> fits m ks ms.
Proof. by destruct m. Qed.

Lemma normal_fits m ks ms : normal m = true -> fits m ks ms -> okStack ks ms /\ ctx ks ms = m.
Proof. by destruct m. Qed.

Lemma ctx_normal ks ms : okStack ks ms -> normal (ctx ks ms) = true.
Proof.
  induction 1 as [| | |ks _ _ IH|m ks ms Hm _ IH|k ks ms Hk _ _ IH|ks ms _ _ IH|ks ms _ _ IH|ks ms _ _ IH
    |ks ms _ _ _ IH|ks ms _ _ _ IH|ks ms _ _ _ IH|ks ms _ _ _ IH|ks ms _ _ _ IH]; try done; [by destruct m|by destruct k].
Qed.

Lemma fits_ctx ks ms : okStack ks ms -> fits (ctx ks ms) ks ms.
Proof. intros H. by apply fits_normal; [apply ctx_normal| |]. Qed.

Lemma fits_nonempty m ks ms : fits m ks ms -> ks <> [].
Proof.
  destruct m; cbn; try done; try (by intros [-> _]); try (by intros [H _]; destruct H).
  by intros (_ & [|] & -> & _).
Qed.

(** The invariant of the tree builder of a document after the html element has been
    inserted. *)
Definition Ready (r : bool) (p : Fixed) (b : HTMLTreeBuilder) : Prop :=
  exists ks ms, St r p (m_insertionMode b) ks ms b /\
    match m_insertionMode b with
    | Text => m_originalInsertionMode b <> BeforeHead /\ exists k ks', ks = k :: ks' /\ textKind k = true /\ fits (m_originalInsertionMode b) ks' ms
    | InTableText => tableMode (m_originalInsertionMode b) = true /\ structuralTop ks = true /\ fits (m_originalInsertionMode b) ks ms
    | m => fits m ks ms
    end.

Lemma ready_fits r p m ks ms b : St r p m ks ms b -> fits m ks ms -> Ready r p b.
Proof.
  intros Hb Hf. exists ks, ms. rewrite (st_mode _ _ _ _ _ _ Hb). split; [done|]. by destruct m.
Qed.

Lemma ready_flex r p m B ms b : Flex r p m B ms b -> Ready r p b.
Proof.
  intros (Hok & ks & Eb & Hb). destruct (flex_ok m B ms ks Hok Eb) as (H1 & H2 & _). apply (ready_fits r p m ks ms); [done|]. rewrite <- H2. by apply fits_ctx.
Qed.

Lemma flex_intro r p m ks ms b : St r p m ks ms b -> okStack ks ms -> ctx ks ms = m -> flexibleMode m ms -> Flex r p m (base ks) ms b.
Proof.
  intros Hb Hok Hc Hm. split; [|by exists ks]. split_and!; [by apply ok_base|by rewrite ctx_base|done|by apply (base_structural ks ms)].
Qed.

(** ** The appropriate insertion mode *)

Lemma root_is_bottom t r : docSite t -> r ∈ records t -> isNode (nodeOf r) (rootNode (m_openElements t)) = true -> kindOf (m_item r) = KHtml.
Proof.
  intros H Hr Hn. pose proof (core_stack _ _ _ (doc_inv t H)) as Hi.
  destruct (shaped_bottom _ _ _ _ (inv_shape _ Hi) (doc_nonempty t H)) as (u & root & E & Hroot & En).
  unfold rootNode in Hn. rewrite En in Hn. cbn in Hn. apply sameNode_eq in Hn.
  assert (Hin : root ∈ records t) by (rewrite E; apply elem_of_app; right; left).
  rewrite (inv_same _ r root Hi Hr Hin Hn). pose proof (doc_item t root H Hin) as Hd. rewrite kind_isRoot in Hroot by done. by apply bool_decide_eq_true in Hroot.
Qed.

Lemma bottom_is_root t u r : docSite t -> records t = u ++ [r] -> isNode (nodeOf r) (rootNode (m_openElements t)) = true.
Proof.
  intros H E. pose proof (core_stack _ _ _ (doc_inv t H)) as Hi.
  destruct (shaped_bottom _ _ _ _ (inv_shape _ Hi) (doc_nonempty t H)) as (u' & root & E' & _ & En). rewrite E in E'. apply app_inj_tail in E' as [_ <-].
  unfold rootNode. rewrite En. by apply sameNode_eq.
Qed.

Lemma selectInTable_total t u r l : docSite t -> records t = u ++ r :: l -> exists v, selectInTable (rootNode (m_openElements t)) (m_item r) l = Some v.
Proof.
  intros H. revert u r. induction l as [|x l IH]; intros u r E; cbn [selectInTable].
  - fold (nodeOf r). rewrite (bottom_is_root t u r H E). by eexists.
  - destruct (_ || _); [by eexists|]. destruct (isHTMLTableElement _); [by eexists|]. apply (IH (u ++ [r])). by rewrite <- app_assoc.
Qed.

Lemma resetLoop_ok b u l ms : docSite (m_tree b) -> m_fragmentContext b = None -> m_templateInsertionModes b = rev ms -> is_Some (m_head (m_tree b)) ->
  records (m_tree b) = u ++ l -> okStack (kindsOf l) ms ->
  exists m, resetLoop b l = Some m /\ (m = ctx (kindsOf l) ms \/ (m = InSelectInTable /\ ctx (kindsOf l) ms = InSelect)).
Proof.
  intros H Ec Em Eh. revert u. induction l as [|r l IH]; intros u E Hok; [by inversion Hok|].
  assert (Hr : r ∈ records (m_tree b)) by (rewrite E; apply elem_of_app; right; left). pose proof (doc_item _ r H Hr) as Hd.
  assert (Hroot : kindOf (m_item r) <> KHtml -> isNode (m_node (m_item r)) (rootNode (m_openElements (m_tree b))) = false).
  { intros Hk. apply not_true_iff_false. intros Hn. by apply Hk, (root_is_bottom (m_tree b) r H Hr). }
  cbn [resetLoop]. change (kindsOf (r :: l)) with (kindOf (m_item r) :: kindsOf l) in *. rewrite Ec. unfold isHTMLTableElement. rewrite doc_node by done.
  assert (Hloose : loose (kindOf (m_item r)) = true -> exists m, resetLoop b l = Some m /\
    (m = ctx (kindOf (m_item r) :: kindsOf l) ms \/ (m = InSelectInTable /\ ctx (kindOf (m_item r) :: kindsOf l) ms = InSelect))).
  { intros Hl. destruct (IH (u ++ [r])) as (m & Er & Hm); [by rewrite <- app_assoc|by apply ok_tail in Hok|]. exists m. split; [done|].
    by destruct (kindOf (m_item r)). }
  destruct (kindOf (m_item r)) eqn:Ek; rewrite ?Hroot by done; kind_of_item Hd Ek; try (eexists; split; [reflexivity|by left]);
    try (by apply Hloose).
  - rewrite bool_decide_eq_true_2 by done. eexists. split; [reflexivity|by left].
  - rewrite Em. inversion Hok as [| | | |m ks' ms' Hm Hrest| | | | | | | | |]; subst; [|done]. cbn [rev]. rewrite last_snoc. eexists. split; [reflexivity|by left].
  - destruct (selectInTable_total (m_tree b) u r l H E) as ([|] & ->); eexists; (split; [reflexivity|]); [by right|by left].
Qed.

(** The mode is then the one of the stack. *)
Lemma reset_ok r p m ks ms b : St r p m ks ms b -> m <> BeforeHead -> m <> InTableText -> okStack ks ms ->
  wp resetInsertionModeAppropriately (fun _ b' => exists m', St r p m' ks ms b' /\ fits m' ks ms /\ (m' = ctx ks ms \/ (m' = InSelectInTable /\ ctx ks ms = InSelect))) b.
Proof.
  intros Hb H1 H2 Hok. pose proof (st_site _ _ _ _ _ _ Hb) as Hd. pose proof (st_kinds _ _ _ _ _ _ Hb) as Ek.
  assert (Hhead : is_Some (m_head (m_tree b))) by (rewrite (st_headItem _ _ _ _ _ _ Hb); by apply (st_head _ _ _ _ _ _ Hb)).
  destruct (resetLoop_ok b [] (records (m_tree b)) ms Hd (st_context _ _ _ _ _ _ Hb) (st_modes _ _ _ _ _ _ Hb) Hhead eq_refl) as (m' & E & Hm).
  { unfold kinds in Ek. by rewrite Ek. }
  unfold kinds in Ek. rewrite Ek in Hm. unfold resetInsertionModeAppropriately. apply tb_bind, (tb_ask _ m'); [done|]. exists m'.
  split_and!; [by apply (st_setMode r p m)| |done]. destruct Hm as [->|[-> Hc]]; [by apply fits_ctx|done].
Qed.
