(* ===== verification/HTMLTreeBuilderMoves.v ===== *)
(** * Moves between structural contexts

    What the operations that open, close and leave structural elements do to the kinds
    of the open elements: pushing and popping, the scopes, templates, and elements with
    text. *)
From S2P Require Import Prelude HTMLTokenizer CompatibilityMode HTMLStackItem HTMLElementStack HTMLElementStackProps HTMLElementStackProtocol HTMLFormattingElementList HTMLFormattingElementProps HTMLConstructionSite HTMLConstructionSiteProps AdoptionAgency HTMLTreeBuilderState HTMLTreeBuilder HTMLTreeBuilderKinds HTMLTreeBuilderSite HTMLTreeBuilderStack HTMLTreeBuilderRules HTMLTreeBuilderBody HTMLTreeBuilderStates.
From Stdlib Require Import String ZArith Lia.
From stdpp Require Import base list numbers option.
#[local] Open Scope Z_scope.
#[local] Open Scope builder_scope.
Import HTMLStackItem HTMLElementStack HTMLConstructionSite CompatibilityMode HTMLTreeBuilderState HTMLTreeBuilder.

(** ** More on nesting *)

Lemma ok_root ks ms : okStack ks ms -> exists upper, ks = upper ++ [KHtml] /\ KHtml ∉ upper.
Proof.
  assert (Hcons : forall k ks, k <> KHtml -> (exists u, ks = u ++ [KHtml] /\ KHtml ∉ u) -> exists u, k :: ks = u ++ [KHtml] /\ KHtml ∉ u).
  { intros k l Hk (u & -> & Hu). exists (k :: u). split; [done|]. rewrite not_elem_of_cons. by split. }
  assert (H0 : exists u, [KHtml] = u ++ [KHtml] /\ KHtml ∉ u) by (exists []; split; [done|apply not_elem_of_nil]).
  induction 1 as [| | |ks _ _ IH|m ks ms _ _ IH|k ks ms Hk _ _ IH|ks ms _ _ IH|ks ms _ _ IH|ks ms _ _ IH
    |ks ms _ _ _ IH|ks ms _ _ _ IH|ks ms _ _ _ IH|ks ms _ _ _ IH|ks ms _ _ _ IH]; try done; try (by apply Hcons).
  apply Hcons; [by intros ->|done].
Qed.

(** Head and body are only next to the root. *)
Lemma ok_second ks ms A k B : okStack ks ms -> ks = A ++ k :: B -> B <> [] -> plainKind k = false -> B = [KHtml].
Proof.
  intros H. revert A. induction H as [| | |ks _ _ IH|m ks ms _ _ IH|k0 ks ms Hk _ _ IH|ks ms _ _ IH|ks ms _ _ IH|ks ms _ _ IH
    |ks ms _ _ _ IH|ks ms _ _ _ IH|ks ms _ _ _ IH|ks ms _ _ _ IH|ks ms _ _ _ IH]; intros A E HB Hp;
    try apply loose_plain in Hk; try (destruct A as [|a A]; [injection E as <- <-; (discriminate Hp || congruence)|injection E as _ E; by apply (IH A)]);
    destruct A as [|? [|? [|? A]]]; simplify_eq/=; try done.
Qed.

Lemma ok_plainAbove ks ms A k B : okStack ks ms -> ks = A ++ k :: B -> plainKind k = true -> Forall (fun x => plainKind x = true) A.
Proof.
  intros H E Hk. rewrite list.Forall_forall. intros x Hx. destruct (plainKind x) eqn:Ex; [done|].
  apply list_elem_of_split in Hx as (A1 & A2 & ->). rewrite <- app_assoc in E. cbn in E.
  assert (Hne : A2 ++ k :: B <> []) by (by destruct A2). pose proof (ok_second ks ms A1 x _ H E Hne Ex) as Hs.
  destruct A2 as [|? [|]]; simplify_eq/=.
Qed.

(** Without templates the content of the body is in the body. *)
Lemma ok_inBody ks : okStack ks [] -> flexible ks [] \/ ctx ks [] = InSelect \/ ctx ks [] = InColumnGroup -> exists U, ks = U ++ [KBody; KHtml].
Proof.
  intros H. remember [] as ms eqn:Em. induction H as [| | |ks _ _ IH|m ks ms _ _ IH|k ks ms Hk Hf _ IH|ks ms Ho _ IH|ks ms Hf _ IH|ks ms Hf _ IH
    |ks ms Hc _ _ IH|ks ms Hc _ _ IH|ks ms Hc _ _ IH|ks ms Hc _ _ IH|ks ms Hc _ _ IH]; subst; intros Hflex; try done;
    try (by destruct Hflex as [[?|[?|[_ ?]]]|[?|?]]); try (by exists []).
  1: destruct IH as (U & ->); [done|by left|by exists (k :: U)].
  1: destruct IH as (U & ->); [done|right; by left|by exists (KOption :: U)].
  1: destruct IH as (U & ->); [done|left; by left|by exists (KSelect :: U)].
  1: destruct IH as (U & ->); [done|left; left; unfold flexMode; by rewrite Hf|by exists (KTable :: U)].
  all: destruct IH as (U & ->); [done|left; left; by rewrite Hc|by eexists (_ :: U)].
Qed.

(** An element without structure can disappear from anywhere. *)
Lemma ctx_remove A k B ms : loose k = true -> ctx (A ++ k :: B) ms = ctx (A ++ B) ms.
Proof. intros Hk. induction A as [|a A IH]; cbn [app]; [by destruct k|]. by destruct a; cbn. Qed.

Lemma structural_remove A k B : loose k = true -> structuralTop (A ++ k :: B) = true -> structuralTop (A ++ B) = true.
Proof. intros Hk. destruct A; cbn; [by rewrite Hk|done]. Qed.

Lemma ok_remove A k B ms : loose k = true -> okStack (A ++ k :: B) ms -> okStack (A ++ B) ms.
Proof.
  intros Hk. revert ms. induction A as [|a A IH]; intros ms H; cbn [app] in *; [by apply ok_tail in H|].
  inversion H; subst; unfold flexible in *;
    repeat match goal with
    | H : context [ctx (A ++ k :: B) _] |- _ => rewrite (ctx_remove A k B _ Hk) in H
    | H : structuralTop (A ++ k :: B) = true |- _ => apply (structural_remove A k B Hk) in H
    end; eauto with nesting; try (destruct A as [|? [|? A]]; simplify_eq/=; by (eauto with nesting || destruct k)).
  apply ok_frameset; [|by apply IH]. destruct A as [|? [|? A]]; simplify_eq/=; intuition (try done; simplify_eq/=; try (by destruct k)).
Qed.

(** ** Scopes by kinds *)

(** The names whose kind has no other name. *)
Definition singleNames : list string := ["html"; "head"; "body"; "frameset"; "template"; "select"; "tr"; "caption"; "colgroup"; "table"]%string.

Lemma target_single s item : s ∈ singleNames -> docItem item -> hasTarget (lit s) item = bool_decide (kindOf item = nameKind (lit s)).
Proof.
  intros Hs Hd. destruct (bool_decide_reflect (kindOf item = nameKind (lit s))) as [E|E].
  2: { apply not_true_iff_false. intros Ht. by apply E, target_docKind. }
  assert (Ht : hasTagName item (htmlName s) = true).
  { apply list_elem_of_In in Hs. cbn in Hs. repeat (destruct Hs as [<-|Hs]; [match type of E with _ = ?k => let v := eval vm_compute in k in change k with v in E end; by kind_of_item Hd E|]).
    done. }
  apply hasTagName_eq in Ht as [E1 E2]. cbn in E1, E2. unfold hasTarget, matchesHTMLTag, hasLocalName. by rewrite E1, E2, !bool_decide_eq_true_2.
Qed.

(** The element is found below others that are neither markers nor of its kind. *)
Lemma scope_yes isMarker name t A g B : docSite t -> records t = A ++ g :: B -> hasTarget name (m_item g) = true ->
  Forall (fun r => kindOf (m_item r) <> nameKind name /\ isMarker (m_item r) = false) A -> inScopeCommon isMarker (hasTarget name) (records t) = Some true.
Proof.
  intros H E Hg HA. rewrite E, inScope_skip; [cbn; by rewrite Hg|]. rewrite list.Forall_forall in HA |- *. intros x Hx. destruct (HA x Hx) as [H1 H2].
  split; [|done]. apply not_true_iff_false. intros Ht. apply H1. apply (target_kind t); [done|rewrite E; apply elem_of_app; by left|done].
Qed.

(** It is not found when a marker comes first. *)
Lemma scope_no isMarker name t A g B : docSite t -> records t = A ++ g :: B -> isMarker (m_item g) = true ->
  Forall (fun r => kindOf (m_item r) <> nameKind name) (A ++ [g]) -> Forall (fun r => isMarker (m_item r) = false) A ->
  inScopeCommon isMarker (hasTarget name) (records t) = Some false.
Proof.
  intros H E Hm Hk HA. assert (Hno : forall x, x ∈ A ++ [g] -> hasTarget name (m_item x) = false).
  { intros x Hx. apply not_true_iff_false. intros Ht. rewrite list.Forall_forall in Hk. apply (Hk x Hx). apply (target_kind t); [done| |done].
    rewrite E. change (g :: B) with ([g] ++ B). rewrite app_assoc. apply elem_of_app. by left. }
  rewrite E, inScope_skip.
  - cbn. rewrite Hno by (apply elem_of_app; right; left). by rewrite Hm.
  - rewrite list.Forall_forall in HA |- *. intros x Hx. split; [|by apply HA]. apply Hno. apply elem_of_app. by left.
Qed.

(** The same with markers that are determined by the kind. *)
Definition marks (isMarker : HTMLStackItem -> bool) (mark : Kind -> bool) : Prop := forall item, docItem item -> isMarker item = mark (kindOf item).

Definition tableMark (k : Kind) : bool := match k with KTable | KTemplate | KHtml => true | _ => false end.

Lemma marks_table : marks isTableScopeMarker tableMark.
Proof. intros item. apply kind_tableScope. Qed.
Lemma marks_root : marks isRootNode (fun k => bool_decide (k = KHtml)).
Proof. intros item. apply kind_isRoot. Qed.
Lemma marks_select : marks isSelectScopeMarker (fun k => negb (bool_decide (k = KOption))).
Proof. intros item. apply kind_selectScope. Qed.

Lemma kinds_split t A k B : kinds t = A ++ k :: B -> exists RA g RB, records t = RA ++ g :: RB /\ kindsOf RA = A /\ kindOf (m_item g) = k /\ kindsOf RB = B.
Proof.
  unfold kinds. intros E. apply map_eq_app in E as (RA & R & E & EA & ER). destruct R as [|g RB]; [done|]. injection ER as Ek EB.
  by exists RA, g, RB.
Qed.

Lemma kindsOf_forall (P : Kind -> Prop) l : Forall P (kindsOf l) <-> Forall (fun r => P (kindOf (m_item r))) l.
Proof. rewrite !List.Forall_forall. split; [intros H r Hr; apply H, (in_map (fun r => kindOf (m_item r))), Hr|intros H k Hk; apply in_map_iff in Hk as (r & <- & Hr); by apply H]. Qed.

Lemma marks_none isMarker mark t A R : marks isMarker mark -> docSite t -> records t = A ++ R ->
  Forall (fun k => mark k = false) (kindsOf A) -> Forall (fun r => isMarker (m_item r) = false) A.
Proof.
  intros Hm H E HA. apply kindsOf_forall in HA. rewrite list.Forall_forall in HA |- *. intros x Hx. rewrite Hm by (apply (doc_item t); [done|]; rewrite E; apply elem_of_app; by left).
  by apply HA.
Qed.

Lemma scope_kind_yes isMarker mark s t A B : marks isMarker mark -> s ∈ singleNames -> docSite t -> kinds t = A ++ nameKind (lit s) :: B ->
  Forall (fun k => k <> nameKind (lit s) /\ mark k = false) A -> inScopeCommon isMarker (hasTarget (lit s)) (records t) = Some true.
Proof.
  intros Hm Hs H E HA. destruct (kinds_split t A _ B E) as (RA & g & RB & Er & <- & Ek & _).
  assert (Hg : g ∈ records t) by (rewrite Er; apply elem_of_app; right; left).
  apply (scope_yes isMarker (lit s) t RA g RB); [done|done| |].
  - rewrite target_single by (done || by apply (doc_item t)). by apply bool_decide_eq_true.
  - apply kindsOf_forall in HA. rewrite list.Forall_forall in HA |- *. intros x Hx. destruct (HA x Hx) as [H1 H2]. split; [done|].
    rewrite Hm; [done|]. apply (doc_item t); [done|]. rewrite Er. apply elem_of_app. by left.
Qed.

Lemma scope_kind_no isMarker mark name t A k B : marks isMarker mark -> docSite t -> kinds t = A ++ k :: B ->
  Forall (fun k => k <> nameKind name) (A ++ [k]) -> Forall (fun k => mark k = false) A -> mark k = true ->
  inScopeCommon isMarker (hasTarget name) (records t) = Some false.
Proof.
  intros Hm H E Hk HA Hmk. destruct (kinds_split t A k B E) as (RA & g & RB & Er & <- & Ek & _).
  assert (Hg : g ∈ records t) by (rewrite Er; apply elem_of_app; right; left).
  apply (scope_no isMarker name t RA g RB); [done|done|by rewrite Hm, Ek by (by apply (doc_item t))| |by apply (marks_none isMarker mark t RA (g :: RB))].
  apply (kindsOf_forall (fun k => k <> nameKind name)). rewrite map_app. cbn. by rewrite Ek.
Qed.

(** ** Pushing and popping *)

(** Operations on the site change nothing else. *)
Lemma tree_frame f P b : wp (tree f) P b -> wp (tree f) (fun a b' => P a b' /\ exists t, b' = set_tree t b) b.
Proof. unfold wp, tree. destruct (f (m_tree b)) as [t|]; [|done]. intros H. split; [done|by exists t]. Qed.

Lemma st_dropped r p m A B ms b RA RB : St r p m (A ++ B) ms b -> records (m_tree b) = RA ++ RB -> kindsOf RA = A -> B <> [] ->
  Forall (fun k => plainKind k = true) A ->
  St r p m B ms (set_tree (dropped (length RA) (m_tree b)) b) /\ records (dropped (length RA) (m_tree b)) = RB.
Proof.
  intros Hb E EA HB HA. pose proof (st_kinds _ _ _ _ _ _ Hb) as Ek. unfold kinds in Ek. rewrite E, map_app, EA in Ek. apply app_inv_head in Ek.
  subst A. destruct (dropped_ok (m_tree b) RA RB (st_site _ _ _ _ _ _ Hb) E) as (H1 & H2 & H3); [by intros ->; subst|by apply kindsOf_forall in HA|].
  split; [|done]. apply (st_tree r p m (kindsOf RA ++ B) ms b); try done. unfold kinds. by rewrite H2.
Qed.

Lemma popTail_st r p m k ks ms b : St r p m (k :: ks) ms b -> plainKind k = true -> ks <> [] ->
  wp (stack pop) (fun _ b' => St r p m ks ms b' /\ records (m_tree b') = tail (records (m_tree b))) b.
Proof.
  intros Hb Hk Hne. destruct (kinds_split (m_tree b) [] k ks (st_kinds _ _ _ _ _ _ Hb)) as (RA & g & RB & E & EA & Eg & EB).
  destruct RA; [|done]. cbn in E. apply (tb_stack _ (popped 1 (m_openElements (m_tree b)))).
  - apply (pop_ok (m_tree b) g RB); [apply Hb|done|]. unfold plainRecord. by rewrite Eg.
  - rewrite E. apply (st_dropped r p m [k] ks ms b [g] RB); try done; [by cbn; rewrite Eg|by constructor].
Qed.

Lemma pop_st r p m k ks ms b : St r p m (k :: ks) ms b -> plainKind k = true -> ks <> [] -> wp (stack pop) (fun _ b' => St r p m ks ms b') b.
Proof. intros Hb Hk Hne. eapply tb_mono; [by apply (popTail_st r p m k ks ms)|]. by intros ? b' [? _]. Qed.

(** Popping down to an element, and the element too. *)
Lemma popTo_st r p m A k B ms b stop g RA RB : St r p m (A ++ k :: B) ms b -> records (m_tree b) = RA ++ g :: RB -> kindsOf RA = A ->
  Forall (fun k => plainKind k = true) A -> Forall (fun x => stop (m_item x) = Some false) RA -> stop (m_item g) = Some true ->
  wp (stack (popWhile stop)) (fun _ b' => St r p m (k :: B) ms b' /\ records (m_tree b') = g :: RB) b.
Proof.
  intros Hb E EA HA Hs Hg. destruct (st_dropped r p m A (k :: B) ms b RA (g :: RB) Hb E EA) as [H1 H2]; [done|done|].
  apply (tb_stack _ (popped (length RA) (m_openElements (m_tree b)))); [|by split].
  apply (popWhile_doc (m_tree b) stop RA g RB); try done; [apply Hb|]. subst A. by apply kindsOf_forall in HA.
Qed.

Lemma popAway_st r p m A k B ms b stop g RA RB : St r p m (A ++ k :: B) ms b -> records (m_tree b) = RA ++ g :: RB -> kindsOf RA = A -> B <> [] ->
  Forall (fun k => plainKind k = true) (A ++ [k]) -> Forall (fun x => stop (m_item x) = Some false) RA -> stop (m_item g) = Some true ->
  wp (stack (fun s => match popWhile stop s with Some s => pop s | None => None end)) (fun _ b' => St r p m B ms b' /\ records (m_tree b') = RB) b.
Proof.
  intros Hb E EA HB HA Hs Hg. apply List.Forall_app in HA as [HA Hk]. apply Forall_cons_iff in Hk as [Hk _].
  assert (Ek : kindOf (m_item g) = k /\ kindsOf RB = B).
  { pose proof (st_kinds _ _ _ _ _ _ Hb) as Ek. unfold kinds in Ek. rewrite E, map_app, EA in Ek. apply app_inv_head in Ek. by injection Ek as -> ->. }
  destruct Ek as [Ek EB].
  destruct (st_dropped r p m (A ++ [k]) B ms b (RA ++ [g]) RB) as [H1 H2]; try done; [by rewrite <- app_assoc|by rewrite <- app_assoc|by rewrite map_app, EA; cbn; rewrite Ek
    |apply List.Forall_app; split; [done|by constructor]|].
  rewrite length_app, Nat.add_1_r in H1, H2. apply (tb_stack _ (popped (S (length RA)) (m_openElements (m_tree b)))); [|by split].
  pose proof (popWhile_pop_doc (m_tree b) stop RA g RB (st_site _ _ _ _ _ _ Hb) E) as Hp. unfold plainRecord in Hp. rewrite Ek in Hp.
  apply Hp; try done; [by intros ->; subst|subst A; by apply kindsOf_forall in HA].
Qed.

(** Popping down to the innermost element of some kinds. *)
Lemma popMark_st r p m A k B ms b isMarker mark : marks isMarker mark -> St r p m (A ++ k :: B) ms b -> Forall (fun k => plainKind k = true) A ->
  Forall (fun k => mark k = false) A -> mark k = true -> wp (stack (popWhile (fun item => Some (isMarker item)))) (fun _ b' => St r p m (k :: B) ms b') b.
Proof.
  intros Hm Hb HA HAm Hk. pose proof (st_site _ _ _ _ _ _ Hb) as Hd. destruct (kinds_split (m_tree b) A k B (st_kinds _ _ _ _ _ _ Hb)) as (RA & g & RB & E & EA & Eg & EB).
  eapply tb_mono; [apply (popTo_st r p m A k B ms b _ g RA RB Hb E EA HA)|by intros ? b' [? _]].
  - subst A. pose proof (marks_none isMarker mark (m_tree b) RA (g :: RB) Hm Hd E HAm) as Hn. eapply List.Forall_impl; [|exact Hn]. cbn. by intros x ->.
  - rewrite Hm, Eg, Hk; [done|]. apply (doc_item (m_tree b)); [done|]. rewrite E. apply elem_of_app. right. left.
Qed.

(** Popping an element that is the innermost one of its kind. *)
Lemma popName_st r p m A B ms b s : s ∈ singleNames -> St r p m (A ++ nameKind (lit s) :: B) ms b -> B <> [] -> plainKind (nameKind (lit s)) = true ->
  Forall (fun k => plainKind k = true /\ k <> nameKind (lit s)) A -> wp (stack (popUntilPopped (lit s))) (fun _ b' => St r p m B ms b') b.
Proof.
  intros Hs Hb HB Hk HA. pose proof (st_site _ _ _ _ _ _ Hb) as Hd. destruct (kinds_split (m_tree b) A _ B (st_kinds _ _ _ _ _ _ Hb)) as (RA & g & RB & E & EA & Eg & EB).
  assert (Hdoc : forall x, x ∈ RA ++ g :: RB -> docItem (m_item x)) by (intros x Hx; apply (doc_item (m_tree b)); [done|by rewrite E]).
  eapply tb_mono; [apply (popAway_st r p m A _ B ms b (fun item => Some (matchesHTMLTag item (lit s))) g RA RB Hb E EA HB)|by intros ? b' [? _]].
  - apply List.Forall_app. split; [|by constructor]. eapply List.Forall_impl; [|exact HA]. by intros k [? _].
  - subst A. apply (kindsOf_forall (fun k => plainKind k = true /\ k <> nameKind (lit s))) in HA. rewrite list.Forall_forall in HA |- *. intros x Hx. f_equal.
    change (hasTarget (lit s) (m_item x) = false). rewrite target_single; [|done|apply Hdoc, elem_of_app; by left]. apply bool_decide_eq_false. by apply HA.
  - f_equal. change (hasTarget (lit s) (m_item g) = true). rewrite target_single; [by apply bool_decide_eq_true|done|apply Hdoc, elem_of_app; right; left].
Qed.

(** Implied end tags close elements without structure. *)
Lemma implied_st r p m ks ms b : St r p m ks ms b ->
  wp (tree generateImpliedEndTags) (fun _ b' => exists A ks', ks = A ++ ks' /\ Forall (fun k => loose k = true) A /\ ks' <> [] /\ St r p m ks' ms b') b.
Proof.
  intros Hb. destruct (implied_doc (fun _ => false) (m_tree b) (st_site _ _ _ _ _ _ Hb)) as (n & RA & RB & Ep & E & -> & HB & HA & _).
  pose proof (st_kinds _ _ _ _ _ _ Hb) as Ek. unfold kinds in Ek. rewrite E, map_app in Ek.
  apply (tb_tree _ (dropped (length RA) (m_tree b))); [by rewrite generateImplied_eq, Ep|]. apply loose_kinds in HA.
  exists (kindsOf RA), (kindsOf RB). split_and!; [done|done|by destruct RB|]. rewrite <- Ek in Hb.
  apply (st_dropped r p m (kindsOf RA) (kindsOf RB) ms b RA RB Hb E); [done|by destruct RB|]. eapply List.Forall_impl; [|exact HA]. intros k. apply loose_plain.
Qed.

(** ** Changes of the mode *)

Definition settled (m : InsertionMode) : bool := match m with BeforeHead | InTableText => false | _ => true end.

Lemma st_goto r p m m' ks ms b : St r p m ks ms b -> settled m = true -> St r p m' ks ms (set_mode m' b).
Proof. intros Hb Hm. apply (st_setMode r p m); [done|by intros ->..]. Qed.

Lemma normal_settled m : normal m = true -> settled m = true.
Proof. by destruct m. Qed.

Lemma goto_st r p m m' ks ms b : St r p m ks ms b -> settled m = true -> wp (setInsertionMode m') (fun _ b' => St r p m' ks ms b') b.
Proof. intros Hb Hm. by apply (st_goto r p m). Qed.

Lemma st_doc r p m ks ms b : St r p m ks ms b -> docSite (m_tree b).
Proof. intros H. apply H. Qed.

Lemma marker_st r p m ks ms b : St r p m ks ms b -> wp (formatting (fun l => Some (HTMLFormattingElementList.appendMarker l))) (fun _ b' => St r p m ks ms b') b.
Proof.
  intros Hb. apply (tb_formatting _ (HTMLFormattingElementList.appendMarker (entries (m_tree b)))); [done|].
  apply (st_tree r p m ks); [done|by apply doc_marker, (st_doc _ _ _ _ _ _ Hb)|done|apply Hb].
Qed.

Lemma clear_st r p m ks ms b : St r p m ks ms b -> wp (formatting (fun l => Some (HTMLFormattingElementList.clearToLastMarker l))) (fun _ b' => St r p m ks ms b') b.
Proof.
  intros Hb. apply (tb_formatting _ (HTMLFormattingElementList.clearToLastMarker (entries (m_tree b)))); [done|].
  apply (st_tree r p m ks); [done|by apply doc_clear, (st_doc _ _ _ _ _ _ Hb)|done|apply Hb].
Qed.

Section Moves.
Context `{env : Environment}.
Hypothesis pluginElements : forall n, isPluginElement n = true -> exists s, s ∈ ["applet"; "embed"; "object"]%string /\ nodeName n = htmlName s.

Lemma push_st r p m ks ms b token : St r p m ks ms b -> plainKind (nameKind (tokenName token)) = true -> attachableName (policy p) (tokenName token) = true ->
  wp (tree (insertHTMLElement token)) (fun _ b' => St r p m (nameKind (tokenName token) :: ks) ms b') b.
Proof.
  intros Hb Hk Ha. destruct (insertHTMLElement_ok pluginElements token (m_tree b)) as (t' & E & Ht'); [apply Hb|done|by rewrite (st_policy _ _ _ _ _ _ Hb)|].
  apply (tb_tree _ t'); [done|]. pose proof (pushed_kinds _ _ _ _ Ht') as Ek. destruct Ht' as (H1 & H2 & _). apply (st_tree r p m ks); try done.
  by rewrite Ek, (st_kinds _ _ _ _ _ _ Hb).
Qed.

Lemma selfClosing_st r p m ks ms b token : St r p m ks ms b -> attachableName (policy p) (tokenName token) = true ->
  wp (tree (insertSelfClosingHTMLElement token)) (fun _ b' => St r p m ks ms b') b.
Proof.
  intros Hb Ha. destruct (insertSelfClosing_ok pluginElements token (m_tree b)) as (t' & E & H1 & H2 & _ & H3); [apply Hb|by rewrite (st_policy _ _ _ _ _ _ Hb)|].
  apply (tb_tree _ t'); [done|]. apply (st_tree r p m ks); try done. unfold kinds. rewrite H3. apply Hb.
Qed.

Lemma script_st r p m ks ms b token : St r p m ks ms b -> tokenName token = lit "script" ->
  wp (tree (insertScriptElement token)) (fun _ b' => St r p m (KOther :: ks) ms b' /\ topIs (lit "script") b') b.
Proof.
  intros Hb Hn. destruct (insertScript_ok pluginElements token (m_tree b)) as (t' & E & Ht'); [apply Hb|done|].
  apply (tb_tree _ t'); [done|]. pose proof (pushed_kinds _ _ _ _ Ht') as Ek. destruct Ht' as (H1 & H2 & _ & rec & Er & Ekr & En). split.
  - apply (st_tree r p m ks); try done. by rewrite Ek, (st_kinds _ _ _ _ _ _ Hb).
  - exists rec, (records (m_tree b)). split; [done|]. assert (Hd : docItem (m_item rec)) by (apply (doc_item t'); [done|]; rewrite Er; left).
    destruct (item_cases _ Hd) as [[Ef _]|(n & E1 & E2 & _)]; [congruence|]. unfold hasTarget, matchesHTMLTag, hasLocalName.
    rewrite En, Hn, E2. by rewrite !bool_decide_eq_true_2.
Qed.

(** ** Templates *)

Lemma app_elem_split {X} (A B u : list X) k x : A ++ k :: B = u ++ [x] -> x ∈ A -> x ∈ u.
Proof.
  intros E Hx. destruct (exists_last (l := k :: B)) as (l & z & El); [done|]. rewrite El, app_assoc in E. apply app_inj_tail in E as [<- _].
  apply elem_of_app. by left.
Qed.

Lemma template_scope r p m ks ms b : St r p m ks ms b -> okStack ks ms ->
  hasTemplateInHTMLScope (m_openElements (m_tree b)) = Some (match ms with [] => false | _ => true end).
Proof.
  intros Hb Hok. pose proof (st_kinds _ _ _ _ _ _ Hb) as Ek. destruct (ok_root ks ms Hok) as (u & Eu & Hu). pose proof (ok_noTemplate ks ms Hok) as Hn.
  unfold hasTemplateInHTMLScope. destruct ms as [|m0 ms].
  - pose proof (proj1 Hn eq_refl) as Hk. apply (scope_kind_no isRootNode _ (lit "template") (m_tree b) u KHtml [] marks_root); [apply Hb|by rewrite Ek| | |done].
    + rewrite <- Eu. rewrite list.Forall_forall. intros k Hin ->. by apply Hk.
    + rewrite list.Forall_forall. intros k Hin. apply bool_decide_eq_false. by intros ->.
  - assert (Hin : KTemplate ∈ ks) by (destruct (decide (KTemplate ∈ ks)) as [|Hx]; [done|by apply Hn in Hx]).
    apply list_elem_of_split_l in Hin as (A & B & E & HA).
    apply (scope_kind_yes isRootNode _ "template" (m_tree b) A B marks_root); [by apply list_elem_of_In; cbn; tauto|apply Hb|by rewrite Ek|].
    rewrite list.Forall_forall. intros k Hin. split; [by intros ->|]. apply bool_decide_eq_false. intros ->. apply Hu. apply (app_elem_split A B u KTemplate); congruence.
Qed.

Lemma templateStart_ok r p m ks ms b token : St r p m ks ms b -> settled m = true -> okStack ks ms -> tokenName token = lit "template" ->
  wp (processTemplateStartTag token) (fun _ b' => St r p TemplateContents (KTemplate :: ks) (TemplateContents :: ms) b') b.
Proof.
  intros Hb Hm Hok Hn. unfold processTemplateStartTag. eapply tb_use; [by apply (marker_st r p m ks ms)|]. intros ? b1 H1.
  eapply tb_use; [apply (push_st r p m ks ms); [done|by rewrite Hn|rewrite Hn; unfold attachableName; by rewrite !orb_true_r]|]. intros ? b2 H2. rewrite Hn in H2.
  apply tb_bind. cbn. apply (st_goto r p m); [|done].
  pose proof (st_setTemplateModes r p m (KTemplate :: ks) ms (TemplateContents :: ms) b2 H2) as H3. cbn in H3. by rewrite <- (st_modes _ _ _ _ _ _ H2) in H3.
Qed.

(** What is left when the innermost template is closed. *)
Lemma templateEnd_ok r p m ks ms b : St r p m ks ms b -> settled m = true -> okStack ks ms ->
  wp processTemplateEndTag (fun v b' => match ms with
    | [] => v = false /\ b' = b
    | _ :: ms' => v = true /\ exists m' ks', St r p m' ks' ms' b' /\ fits m' ks' ms' /\ (normal m' = true \/ m' = InSelectInTable)
    end) b.
Proof.
  intros Hb Hm Hok. unfold processTemplateEndTag. apply tb_bind. eapply tb_query; [by apply (template_scope r p m ks ms)|]. destruct ms as [|m0 ms]; cbn [negb].
  { apply tb_bind, tb_assert; [by rewrite (st_modes _ _ _ _ _ _ Hb)|done]. }
  eapply tb_use; [by apply (implied_st r p m ks (m0 :: ms))|]. intros ? b1 (L & ks1 & E1 & HL & _ & H1). rewrite E1 in Hok. pose proof (ok_drop L ks1 (m0 :: ms) HL Hok) as Hok1.
  assert (Hin : KTemplate ∈ ks1) by (destruct (decide (KTemplate ∈ ks1)) as [|Hx]; [done|by apply (ok_noTemplate ks1 _ Hok1) in Hx]).
  apply list_elem_of_split_l in Hin as (A & B & -> & HA). destruct (ok_below_template A B m0 ms Hok1 HA) as [Hok2 Hm0].
  pose proof (ok_plainAbove _ _ A KTemplate B Hok1 eq_refl eq_refl) as Hp.
  eapply tb_use; [apply (popName_st r p m A B (m0 :: ms) b1 "template"); [by apply list_elem_of_In; cbn; tauto|done|by destruct Hok2|done|]|].
  { rewrite list.Forall_forall in Hp |- *. intros k Hk. split; [by apply Hp|by intros ->]. }
  intros ? b2 H2. eapply tb_use; [by apply (clear_st r p m B (m0 :: ms))|]. intros ? b3 H3.
  apply tb_bind, tb_assert; [rewrite (st_modes _ _ _ _ _ _ H3); cbn; by destruct (rev ms)|].
  apply tb_bind. cbn. assert (H4 : St r p m B ms (set_templateModes (removelast (m_templateInsertionModes b3)) b3)).
  { rewrite (st_modes _ _ _ _ _ _ H3). cbn. rewrite removelast_last. by apply (st_setTemplateModes r p m B (m0 :: ms)). }
  eapply tb_use; [apply (reset_ok r p m B ms); [done|by intros ->..|done]|]. intros ? b5 (m' & H5 & Hf & Hc). split; [done|]. exists m', B. split_and!; [done|done|].
  destruct Hc as [->|[-> _]]; [left; by apply ctx_normal|by right].
Qed.

(** ** Elements with text *)

(** The mode is [Text], and the original mode is remembered. *)
Definition InText (r : bool) (p : Fixed) (m : InsertionMode) (ks : list Kind) (ms : list InsertionMode) (b : HTMLTreeBuilder) : Prop :=
  m_originalInsertionMode b = m /\ exists k, textKind k = true /\ St r p Text (k :: ks) ms b.

Lemma ready_text r p m ks ms b : InText r p m ks ms b -> fits m ks ms -> m <> BeforeHead -> Ready r p b.
Proof.
  intros (Eo & k & Hk & Hb) Hf Hm. exists (k :: ks), ms. rewrite (st_mode _ _ _ _ _ _ Hb), Eo. split; [done|]. split; [done|]. by exists k, ks.
Qed.

Lemma toText_ok r p m k ks ms b st : St r p m (k :: ks) ms b -> textKind k = true -> settled m = true ->
  wp (setTokenizerState st ;; modify (fun b => set_originalMode (m_insertionMode b) b) ;; setInsertionMode Text)
    (fun _ b' => InText r p m ks ms b' /\ m_tree b' = m_tree b) b.
Proof.
  intros Hb Hk Hm. apply tb_bind. cbn. split; [|done]. split; [apply Hb|]. exists k. split; [done|]. apply (st_goto r p m); [|done]. by apply st_originalMode, st_tokenizer.
Qed.

Definition textElement (name : AtomicString) : bool := looseName name &&
  negb (oneOf name ["script"; "applet"; "embed"; "object"]%string).

Lemma textElement_ok p name : textElement name = true -> plainKind (nameKind name) = true /\ loose (nameKind name) = true /\ attachableName p name = true.
Proof.
  unfold textElement, looseName. rewrite !andb_true_iff, !negb_true_iff. intros [Hl Hn]. unfold oneOf in Hn. cbn [existsb] in Hn.
  rewrite !orb_false_iff in Hn. destruct Hn as (N1 & N2 & N3 & N4 & _).
  split_and!; [by apply loose_plain|done|]. unfold attachableName, oneOf. cbn [existsb]. rewrite N1, N2, N3, N4. by rewrite !orb_true_r.
Qed.

Lemma rawText_ok r p m ks ms b token : St r p m ks ms b -> settled m = true -> textElement (tokenName token) = true ->
  wp (processGenericRawTextStartTag token) (fun _ b' => InText r p m ks ms b') b.
Proof.
  intros Hb Hm Hn. destruct (textElement_ok (policy p) _ Hn) as (H1 & H2 & H3). unfold processGenericRawTextStartTag. eapply tb_use; [by apply (push_st r p m ks ms)|].
  intros ? b' Hb'. eapply tb_mono; [apply (toText_ok _ _ _ _ _ _ _ _ Hb'); [by apply nameKind_text|done]|]. by intros ? ? [? _].
Qed.

Lemma rcdata_ok r p m ks ms b token : St r p m ks ms b -> settled m = true -> textElement (tokenName token) = true ->
  wp (processGenericRCDATAStartTag token) (fun _ b' => InText r p m ks ms b') b.
Proof.
  intros Hb Hm Hn. destruct (textElement_ok (policy p) _ Hn) as (H1 & H2 & H3). unfold processGenericRCDATAStartTag. eapply tb_use; [by apply (push_st r p m ks ms)|].
  intros ? b' Hb'. eapply tb_mono; [apply (toText_ok _ _ _ _ _ _ _ _ Hb'); [by apply nameKind_text|done]|]. by intros ? ? [? _].
Qed.

Lemma scriptStart_ok r p m ks ms b token : St r p m ks ms b -> settled m = true -> tokenName token = lit "script" ->
  wp (processScriptStartTag token) (fun _ b' => InText r p m ks ms b' /\ topIs (lit "script") b') b.
Proof.
  intros Hb Hm Hn. unfold processScriptStartTag. eapply tb_use; [by apply (script_st r p m ks ms)|]. intros ? b' [Hb' Ht].
  eapply tb_mono; [by apply (toText_ok _ _ _ _ _ _ _ _ Hb')|]. intros ? b2 [H2 E2]. split; [done|]. unfold topIs. by rewrite E2.
Qed.

(** The current item. *)
Lemma current_st r p m k ks ms b : St r p m (k :: ks) ms b -> exists item, topStackItem (m_openElements (m_tree b)) = Some item /\ docItem item /\ kindOf item = k /\
  top (m_openElements (m_tree b)) = Some (m_node item).
Proof.
  intros Hb. destruct (kinds_split (m_tree b) [] k ks (st_kinds _ _ _ _ _ _ Hb)) as (RA & g & RB & E & EA & Eg & EB). destruct RA; [|done]. cbn in E.
  assert (Hd : docItem (m_item g)) by (apply (doc_item (m_tree b)); [apply Hb|rewrite E; left]).
  assert (Et : topStackItem (m_openElements (m_tree b)) = Some (m_item g)) by (unfold topStackItem, topRecord; by rewrite E).
  exists (m_item g). split_and!; [done|done|done|]. unfold top. rewrite Et. apply wellFormed_element; apply Hd.
Qed.

Lemma topIs_tag s b item : topIs (lit s) b -> topStackItem (m_openElements (m_tree b)) = Some item -> hasTagName item (htmlName s) = true.
Proof.
  intros (rec & l & E & Ht) Ei. unfold topStackItem, topRecord in Ei. rewrite E in Ei. injection Ei as <-. unfold hasTarget, matchesHTMLTag in Ht.
  unfold hasTagName. cbn [localNameOf namespaceOf htmlName]. exact Ht.
Qed.

(** The end tag of an element with text; the tokenizer has left the script. *)
Definition scriptEnds (b : HTMLTreeBuilder) : Prop :=
  match tokenizer b with Some (st, _, _) => st = DataState \/ usePreHTML5ParserQuirks m_options = true | None => True end.

Lemma textEnd_ok r p m ks ms b n name : InText r p m ks ms b -> ks <> [] -> (name = lit "script" -> topIs (lit "script") b /\ scriptEnds b) ->
  wp (process (S n) (CallEndTag name)) (fun _ b' => St r p m ks ms b') b.
Proof.
  intros (Eo & k & Hlk & Hb) Hne Hscript. pose proof (loose_plain k (textKind_loose k Hlk)) as Hpk. cbn [process]. unfold processEndTag. apply tb_bind. cbn. rewrite (st_mode _ _ _ _ _ _ Hb). unfold endTagText.
  destruct (isTag name "script") eqn:En.
  - apply isTag_eq in En. destruct (Hscript En) as [Ht Hs]. destruct (current_st r p Text k ks ms b Hb) as (item & Ei & Hd & Hk & Etop).
    apply tb_bind, (tb_query _ item); [done|]. apply tb_bind, tb_assert; [by apply (topIs_tag "script" b)|]. apply tb_bind. cbn.
    apply tb_bind. assert (H1 : wp (if scriptingContentIsAllowed (m_parserContentPolicy (m_tree b)) then let! script := query top in modify (set_script (Some script)) else ret tt)
      (fun _ b' => St r p Text (k :: ks) ms b' /\ m_originalInsertionMode b' = m /\ scriptEnds b') b).
    { destruct (scriptingContentIsAllowed _); [|done]. apply tb_bind, (tb_query _ (m_node item)); [done|]. split; [by apply st_script|done]. }
    eapply tb_mono; [exact H1|]. intros ? b1 (Hb1 & Eo1 & Hs1). clear H1.
    eapply tb_use; [by apply (tree_frame _ _ _ (pop_st r p Text k ks ms b1 Hb1 Hpk Hne))|]. intros ? b2 [H2 (t & E2)].
    apply tb_bind. cbn. apply tb_bind, tb_assert.
    + unfold scriptEnds in Hs1. rewrite E2. cbn. destruct (tokenizer b1) as [[[st ?] ?]|]; [|done]. destruct Hs1 as [->| ->]; [done|by rewrite orb_true_r].
    + cbn. apply st_tokenizer. replace (m_originalInsertionMode b2) with m by (by rewrite E2). by apply (st_goto r p Text).
  - eapply tb_use; [by apply (tree_frame _ _ _ (pop_st r p Text k ks ms b Hb Hpk Hne))|]. intros ? b2 [H2 (t & E2)]. cbn.
    replace (m_originalInsertionMode b2) with m by (by rewrite E2). by apply (st_goto r p Text).
Qed.

(** ** The start tags of the head *)

Lemma html_st r p m ks ms b token : St r p m ks ms b -> wp (processHtmlStartTagForInBody token) (fun _ b' => St r p m ks ms b') b.
Proof.
  intros Hb. pose proof (st_doc _ _ _ _ _ _ Hb) as Hd. unfold processHtmlStartTagForInBody.
  destruct (inScope_total isRootNode (hasTarget (lit "template")) (m_tree b) Hd) as (v & E); [done|]. apply tb_bind, (tb_query _ v); [done|].
  destruct v; [unfold assertThat, isParsingTemplateContents; apply tb_bind, (tb_query _ true); [done|]; by apply tb_assert|].
  unfold insertHTMLHtmlStartTagInBody. apply tb_bind. cbn. rewrite (doc_fragment _ Hd).
  pose proof (core_stack _ _ _ (doc_inv _ Hd)) as Hi. destruct (shaped_bottom _ _ _ _ (inv_shape _ Hi) (doc_nonempty _ Hd)) as (u & root & Er & Hroot & En).
  assert (Hin : root ∈ records (m_tree b)) by (rewrite Er; apply elem_of_app; right; left). pose proof (doc_item _ root Hd Hin) as Hdr.
  apply tb_bind, (tb_query _ (nodeOf root)).
  { unfold htmlElement. rewrite En. pose proof (wellFormed_element _ (proj1 Hdr) (proj2 Hdr)) as Hel. unfold element in Hel. unfold nodeOf.
    destruct (isElement (m_node (m_item root))) eqn:Ee; [done|]. destruct Hdr as [Hw Hf]. unfold wellFormed in Hw. rewrite Hf in Hw. by destruct Hw as (? & _); congruence. }
  unfold mergeAttributesFromTokenIntoElement. destruct (tokenAttributes token); [exact Hb|]. apply tb_bind. cbn. by apply st_changed.
Qed.

(** The start tags that are processed as in the head. *)
Definition headName (name : AtomicString) : bool :=
  oneOf name ["html"; "base"; "basefont"; "bgsound"; "command"; "link"; "meta"; "title"; "noscript"; "noframes"; "style"; "script"; "template"; "head"]%string.

(** What they do: nothing to the stack, an element with text, or [noscript] or
    [template] with their modes. *)
Inductive headStep (r : bool) (p : Fixed) (m : InsertionMode) (ks : list Kind) (ms : list InsertionMode) (name : AtomicString) (b : HTMLTreeBuilder) : Prop :=
| head_same : St r p m ks ms b -> headStep r p m ks ms name b
| head_text : InText r p m ks ms b -> headStep r p m ks ms name b
| head_noscript : name = lit "noscript" -> St r p InHeadNoscript (KNoscript :: ks) ms b -> headStep r p m ks ms name b
| head_template : name = lit "template" -> St r p TemplateContents (KTemplate :: ks) (TemplateContents :: ms) b -> headStep r p m ks ms name b.

Lemma inHead_ok r p m ks ms b n token : St r p m ks ms b -> settled m = true -> okStack ks ms \/ tokenName token <> lit "template" ->
  wp (processStartTagForInHead (fun name => process (S n) (CallEndTag name)) token)
    (fun v b' => v = headName (tokenName token) /\ headStep r p m ks ms (tokenName token) b') b.
Proof.
  intros Hb Hm Htemplate. unfold processStartTagForInHead.
  assert (Hin : forall l, oneOf (tokenName token) l = true -> forallb (fun s => headName (lit s)) l = true -> headName (tokenName token) = true).
  { intros l H1 H2. by apply (oneOf_forall _ l headName). }
  assert (Hone : forall s, isTag (tokenName token) s = true -> headName (lit s) = true -> true = headName (tokenName token)) by (intros s H1 H2; apply isTag_eq in H1; congruence).
  name_case E1; [eapply tb_use; [by apply (html_st r p m ks ms)|]; intros ? b' Hb'; split; [by apply (Hone "html"%string)|by apply head_same]|].
  name_case E2; [eapply tb_use; [apply (selfClosing_st r p m ks ms); [done|]|intros ? b' Hb'; split; [symmetry; by apply (Hin _ E2)|by apply head_same]]|].
  { unfold attachableName. eapply oneOf_forall with (P := fun name => (_ || negb (isTag name "script")) && (_ || negb (oneOf name _))); [exact E2|].
    destruct (scriptingContentIsAllowed (policy p)), (pluginContentIsAllowed (policy p)); by vm_compute. }
  name_case E3; [eapply tb_use; [apply (rcdata_ok r p m ks ms); [done|done|]|intros ? b' Hb'; split; [by apply (Hone "title"%string)|by apply head_text]]|].
  { by apply isTag_eq in E3 as ->. }
  name_case E4.
  { assert (Ht : textElement (tokenName token) = true) by (by apply isTag_eq in E4 as ->). destruct (textElement_ok (policy p) _ Ht) as (T1 & T2 & T3).
    destruct (scriptEnabled m_options); [eapply tb_use; [by apply (rawText_ok r p m ks ms)|intros ? b' Hb'; split; [by apply (Hone "noscript"%string)|by apply head_text]]|].
    eapply tb_use; [by apply (push_st r p m ks ms)|]. intros ? b1 H1. eapply tb_use; [by apply (goto_st _ _ _ _ _ _ _ H1)|]. intros ? b2 H2. apply isTag_eq in E4 as En. rewrite En in H2.
    split; [by apply (Hone "noscript"%string)|]. apply head_noscript; [by apply isTag_eq in E4|done]. }
  name_case E5; [eapply tb_use; [apply (rawText_ok r p m ks ms); [done|done|by_names]|intros ? b' Hb'; split; [symmetry; by apply (Hin _ E5)|by apply head_text]]|].
  name_case E6.
  { apply isTag_eq in E6 as Et. eapply tb_use; [by apply (scriptStart_ok r p m ks ms)|]. intros ? b1 [H1 Htop]. destruct (_ && _) eqn:Eq.
    - apply andb_true_iff in Eq as [Eq _]. eapply tb_use; [apply (textEnd_ok r p m ks ms b1 n (lit "script") H1)|].
      + intros ->. destruct (st_doc _ _ _ _ _ _ Hb) as [D]. pose proof (core_nonempty _ _ _ D) as Hne. pose proof (st_kinds _ _ _ _ _ _ Hb) as Ek. unfold kinds in Ek.
        by destruct (records (m_tree b)).
      + intros _. split; [done|]. unfold scriptEnds. destruct (tokenizer b1) as [[[? ?] ?]|]; [by right|done].
      + intros ? b2 H2. split; [by apply (Hone "script"%string)|by apply head_same].
    - apply tb_bind. split; [by apply (Hone "script"%string)|by apply head_text]. }
  name_case E7.
  { apply isTag_eq in E7 as Et. destruct Htemplate as [Hok|?]; [|done]. eapply tb_use; [by apply (templateStart_ok r p m ks ms)|]. intros ? b1 H1.
    split; [by apply (Hone "template"%string)|by apply head_template]. }
  name_case E8; [split; [by apply (Hone "head"%string)|by apply head_same]|]. split; [|by apply head_same]. symmetry. unfold headName, oneOf. cbn [existsb].
  unfold oneOf in E2, E5. cbn [existsb] in E2, E5. rewrite !orb_false_iff in E2. rewrite !orb_false_iff in E5.
  destruct E2 as (-> & -> & -> & -> & -> & -> & _). destruct E5 as (-> & -> & _). by rewrite E1, E3, E4, E6, E7, E8.
Qed.

End Moves.
