(* ===== verification/HTMLTreeBuilderStart.v ===== *)
(** * Safety of the start tags of the body

    [processStartTagForInBody] in the insertion modes for the content of the body,
    inside and outside of tables, leads to a state that fits its mode. *)
From S2P Require Import Prelude HTMLTokenizer CompatibilityMode HTMLStackItem HTMLElementStack HTMLElementStackProps HTMLElementStackProtocol HTMLFormattingElementList HTMLFormattingElementProps HTMLConstructionSite HTMLConstructionSiteProps AdoptionAgency HTMLTreeBuilderState HTMLTreeBuilder HTMLTreeBuilderKinds HTMLTreeBuilderSite HTMLTreeBuilderStack HTMLTreeBuilderRules HTMLTreeBuilderBody HTMLTreeBuilderStates HTMLTreeBuilderMoves.
From Stdlib Require Import String ZArith Lia.
From stdpp Require Import base list numbers option.
#[local] Open Scope Z_scope.
#[local] Open Scope builder_scope.
Import HTMLStackItem HTMLElementStack HTMLConstructionSite CompatibilityMode HTMLTreeBuilderState HTMLTreeBuilder.

(** ** Flexible states *)

Lemma flex_st r p m B ms b : Flex r p m B ms b -> exists ks, St r p m ks ms b /\ okStack ks ms /\ ctx ks ms = m /\ flexible ks ms /\ base ks = B.
Proof. intros (Hok & ks & Eb & Hb). exists ks. destruct (flex_ok m B ms ks Hok Eb) as (H1 & H2 & H3). by split_and!. Qed.

Lemma flex_settled r p m B ms b : Flex r p m B ms b -> settled m = true.
Proof. intros H. destruct (flex_st _ _ _ _ _ _ H) as (ks & _ & Hok & <- & _). by apply normal_settled, ctx_normal. Qed.

Lemma ready_redirect r r' p b : Ready r p b -> Ready r' p (redirected r' b).
Proof. intros (ks & ms & Hb & Hf). exists ks, ms. split; [by apply (st_setRedirect r)|exact Hf]. Qed.

Lemma keep_ready {A} r p m B ms (o : TB A) b : keeps (Flex r p m B ms) o -> Flex r p m B ms b -> wp o (fun _ b' => Ready r p b') b.
Proof. intros Ho Hb. eapply tb_mono; [by apply Ho|]. intros ? b'. apply ready_flex. Qed.

(** Names that every policy allows. *)
Definition safeName (name : AtomicString) : bool := negb (oneOf name ["script"; "applet"; "embed"; "object"]%string).

Lemma safe_attachable p name : safeName name = true -> attachableName p name = true.
Proof.
  unfold safeName, attachableName, oneOf. cbn [existsb]. rewrite negb_true_iff, !orb_false_iff. intros (-> & -> & -> & -> & _). by rewrite !orb_true_r.
Qed.

Definition insertable (name : AtomicString) : bool := looseName name && safeName name.

Lemma insertable_ok p name : insertable name = true -> looseName name = true /\ attachableName p name = true.
Proof. intros H. apply andb_true_iff in H as [? ?]. split; [done|by apply safe_attachable]. Qed.

(** What is required of start tags. *)
Record tokenOK (token : Token) : Prop := mkTokenOK {
  token_attributes : NoDup (map attributeName (tokenAttributes token));
  token_prompt : tokenName token = lit "isindex" -> forall a, tokenAttribute token "prompt" = Some a -> attributeValue a <> []
}.

Section Start.
Context `{env : Environment}.
Hypothesis pluginElements : forall n, isPluginElement n = true -> exists s, s ∈ ["applet"; "embed"; "object"]%string /\ nodeName n = htmlName s.
Hypothesis textLength : forall parent l position, (position < length l)%nat -> (createWithLengthLimit parent l position <= length l - position)%nat.

Lemma keeps_inserted r p m B ms token : insertable (tokenName token) = true -> keeps (Flex r p m B ms) (tree (insertHTMLElement token)).
Proof. intros H. destruct (insertable_ok (policy p) _ H). by apply keeps_insert. Qed.

Lemma keeps_insertedSelfClosing r p m B ms token : safeName (tokenName token) = true -> keeps (Flex r p m B ms) (tree (insertSelfClosingHTMLElement token)).
Proof. intros H. by apply keeps_insertSelfClosing, safe_attachable. Qed.

(** The current item. *)
Lemma keeps_current r p m B ms : keeps (Flex r p m B ms) currentItem.
Proof.
  intros b Hb. destruct (flex_st _ _ _ _ _ _ Hb) as (ks & Hs & Hok & _). destruct ks as [|k ks]; [by apply ok_nonempty in Hok|].
  destruct (current_st r p m k ks ms b Hs) as (item & E & _). by apply (tb_query _ item).
Qed.

(** Popping the current element when it has no structure. *)
Lemma popLoose r p m B ms b item : Flex r p m B ms b -> topStackItem (m_openElements (m_tree b)) = Some item -> loose (kindOf item) = true ->
  wp (stack pop) (fun _ b' => Flex r p m B ms b') b.
Proof.
  intros Hb Et Hl. destruct (flex_st _ _ _ _ _ _ Hb) as (ks & Hs & Hok & _ & _ & Eb). destruct ks as [|k ks]; [by apply ok_nonempty in Hok|].
  destruct (current_st r p m k ks ms b Hs) as (item' & E & _ & <- & _). rewrite Et in E. injection E as <-. apply ok_tail in Hok as Hok'; [|done].
  eapply tb_mono; [apply (pop_st r p m (kindOf item) ks ms b Hs); [by apply loose_plain|by apply ok_nonempty in Hok']|]. intros ? b' Hb'. split; [apply Hb|].
  exists ks. split; [|done]. cbn in Eb. by rewrite Hl in Eb.
Qed.

Lemma header_loose item : docItem item -> isNumberedHeaderElement item = true -> loose (kindOf item) = true.
Proof.
  intros Hd H. unfold isNumberedHeaderElement, hasOneOf in H. apply existsb_exists in H as (q & Hin & Hq). apply in_map_iff in Hin as (s & <- & Hs).
  rewrite (tag_kind item s Hd Hq). clear Hq. cbn in Hs. repeat (destruct Hs as [<-|Hs]; [by vm_compute|]). done.
Qed.

Lemma keeps_closeHeading r p m B ms : keeps (Flex r p m B ms) (let! item := currentItem in if isNumberedHeaderElement item then stack pop else ret tt).
Proof.
  intros b Hb. destruct (flex_st _ _ _ _ _ _ Hb) as (ks & Hs & Hok & _). destruct ks as [|k ks]; [by apply ok_nonempty in Hok|].
  destruct (current_st r p m k ks ms b Hs) as (item & E & Hd & _). apply tb_bind, (tb_query _ item); [done|].
  destruct (isNumberedHeaderElement item) eqn:Eh; [|exact Hb]. apply (popLoose r p m B ms b item); [done|done|by apply header_loose].
Qed.

(** ** Items that are closed by others *)

Lemma closeLoop_ok t (should : HTMLStackItem -> bool) L : docSite t -> (forall item, docItem item -> should item = true -> exists s, s ∈ L /\ m_tokenLocalName item = Some (lit s)) ->
  exists v, closeLoop should (records t) = Some v /\ forall name, v = Some name -> oneOf name L = true.
Proof.
  intros H Hs. destruct (inv_root _ (core_stack _ _ _ (doc_inv t H)) (doc_nonempty t H)) as (root & Hr & Hroot & _).
  assert (Hd : forall r, r ∈ records t -> docItem (m_item r)) by (intros; by apply (doc_item t)). revert Hr Hd. induction (records t) as [|x l IH]; intros Hr Hd; [by apply not_elem_of_nil in Hr|].
  pose proof (Hd x (list_elem_of_here _ _)) as Hdx. cbn [closeLoop]. destruct (should (m_item x)) eqn:Ex.
  { destruct (Hs _ Hdx Ex) as (s & Hin & ->). unfold isElementNode. rewrite (proj2 Hdx). eexists. split; [reflexivity|]. intros name [= <-]. apply oneOf_elem. by exists s. }
  destruct (_ && _) eqn:Esp; [by exists None|]. apply elem_of_cons in Hr as [<-|Hr]; [|apply IH; [done|]; intros r Hin; apply Hd; by right].
  exfalso. rewrite kind_isRoot in Hroot by done. apply bool_decide_eq_true in Hroot. rewrite kind_special in Esp by (done || by rewrite Hroot).
  revert Esp. by kind_of_item Hdx Hroot.
Qed.

Lemma keeps_closeNested r p m B ms n should L token : flexMode m = true -> insertable (tokenName token) = true ->
  (forall item, docItem item -> should item = true -> exists s, s ∈ L /\ m_tokenLocalName item = Some (lit s)) ->
  forallb (fun s => looseName (lit s) && plainEndTag (lit s)) L = true ->
  keeps (Flex r p m B ms) (processCloseWhenNestedTag (fun name => process (S n) (CallEndTag name)) should token).
Proof.
  intros Hm Hn Hs HL. unfold processCloseWhenNestedTag. apply keeps_bind; [apply keeps_framesetNotOk|]. intros _ b Hb.
  destruct (closeLoop_ok (m_tree b) should L (flex_doc _ _ _ _ _ _ Hb) Hs) as (v & E & Hv). apply tb_bind, (tb_query _ v); [done|].
  assert (Hclose : keeps (Flex r p m B ms) (match v with Some name => process (S n) (CallEndTag name) | None => ret tt end)).
  { destruct v as [name|]; [|apply keeps_ret]. pose proof (oneOf_forall name L (fun n => looseName n && plainEndTag n) (Hv name eq_refl) HL) as Hp.
    apply andb_true_iff in Hp as [? ?]. by apply endTag_plain. }
  revert b Hb E. intros b Hb _. apply (keeps_bind _ _ _ Hclose); [|done]. intros _. apply keeps_bind; [by apply pEndIfInScope|]. intros _. by apply keeps_inserted.
Qed.

(** ** Buttons *)

(** How many buttons are open. *)
Definition buttons (b : HTMLTreeBuilder) : nat := length (List.filter (fun rec => hasTarget (lit "button") (m_item rec)) (records (m_tree b))).

Lemma buttons_records b : (buttons b <= length (records (m_tree b)))%nat.
Proof. apply filter_length_le. Qed.

Lemma endButton r p m B ms n k b : flexMode m = true -> Flex r p m B ms b -> inScope (m_openElements (m_tree b)) (lit "button") = Some true -> (buttons b <= S k)%nat ->
  wp (process (S n) (CallEndTag (lit "button"))) (fun _ b' => Flex r p m B ms b' /\ (buttons b' <= k)%nat) b.
Proof.
  intros Hm Hb Hs Hk. cbn [process].
  apply (endTag_dispatch p m B ms (fun r b => Flex r p m B ms b /\ inScope (m_openElements (m_tree b)) (lit "button") = Some true /\ (buttons b <= S k)%nat)
    (fun r b => Flex r p m B ms b /\ (buttons b <= k)%nat)); try done.
  - by intros r0 b0 [? _].
  - intros r0 r' b0 (H & ? & ?). split_and!; [by apply (flex_redirect r0)|done|done].
  - intros r0 r' b0 [H ?]. split; [by apply (flex_redirect r0)|done].
  - intros r' b' (Hb' & Hs' & Hk'). unfold processEndTagForInBody. closed_tests. eapply tb_use; [by apply (closeName_ok r' p m B ms (lit "button") b')|].
    intros v b2 [H2 Hv]. split; [done|]. destruct v; [|congruence]. destruct Hv as (A & g & E & Hg). unfold buttons in *. rewrite E, List.filter_app in Hk'.
    cbn [List.filter] in Hk'. rewrite Hg, length_app in Hk'. cbn [length] in Hk'. lia.
Qed.

Lemma buttonBody p m B ms token k n startTag r b : flexMode m = true -> tokenName token = lit "button" ->
  (forall r b, Flex r p m B ms b -> (buttons b < k)%nat -> wp (startTag token) (fun _ b' => Flex r p m B ms b') b) -> Flex r p m B ms b -> (buttons b <= k)%nat ->
  wp (buttonStartTagForInBody startTag (fun name => process (S n) (CallEndTag name)) token) (fun _ b' => Flex r p m B ms b') b.
Proof.
  intros Hm Hn IH Hb Hk. unfold buttonStartTagForInBody.
  destruct (inScope_total isScopeMarker (hasTarget (lit "button")) (m_tree b)) as (v & E); [by apply (flex_doc _ _ _ _ _ _ Hb)|intros; by apply root_marker|].
  apply tb_bind, (tb_query _ v); [exact E|]. destruct v.
  2: { apply (keeps_bind (Flex r p m B ms)); [by apply keeps_reconstruct|intros _; apply keeps_bind; [apply keeps_inserted; by rewrite Hn|intros _; apply keeps_framesetNotOk]|done]. }
  assert (Hpos : (0 < buttons b)%nat).
  { destruct (inScope_found _ _ _ E) as (A & g & L & Er & Hg & _). unfold buttons. rewrite Er, List.filter_app. cbn [List.filter]. rewrite Hg, length_app. cbn [length]. lia. }
  unfold processFakeEndTag. eapply tb_use; [apply (endButton r p m B ms n (pred k)); [done|done|done|lia]|]. intros ? b2 [H2 Hk2]. apply IH; [done|lia].
Qed.

Lemma buttonStep p m B ms token k n startTag chars : flexMode m = true -> tokenName token = lit "button" ->
  (forall r b, Flex r p m B ms b -> (buttons b < k)%nat -> wp (startTag token) (fun _ b' => Flex r p m B ms b') b) ->
  forall r b, Flex r p m B ms b -> (buttons b <= k)%nat ->
  wp (processStartTag startTag (fun name => process (S n) (CallEndTag name)) chars token) (fun _ b' => Flex r p m B ms b') b.
Proof.
  intros Hm Hn IH r b Hb Hk.
  apply (startTag_dispatch p m B ms (fun r b => Flex r p m B ms b /\ (buttons b <= k)%nat) (fun r => Flex r p m B ms)); try done.
  - by intros r0 b0 [? _].
  - intros r0 r' b0 [H ?]. split; [by apply (flex_redirect r0)|done].
  - intros r0 r' b0. apply (flex_redirect r0).
  - by rewrite Hn.
  - intros r' b' [Hb' Hk']. unfold processStartTagForInBody. rewrite Hn. unfold isNumberedHeaderTag. closed_tests. by apply (buttonBody p m B ms token k n).
Qed.

Lemma buttonStart p m B ms token k : flexMode m = true -> tokenName token = lit "button" -> forall n r b, Flex r p m B ms b -> (buttons b <= k)%nat ->
  wp (process (S (S (k + n))) (CallStartTag token)) (fun _ b' => Flex r p m B ms b') b.
Proof.
  intros Hm Hn. induction k as [|k IH]; intros n r b Hb Hk.
  - apply (buttonStep p m B ms token 0 n); [done|done|lia|done|done].
  - apply (buttonStep p m B ms token (S k) (S (k + n))); [done|done| |done|done]. intros r' b' Hb' Hk'. apply IH; [done|lia].
Qed.

(** ** Anchors *)

Lemma closest_ok t name : docSite t -> exists v, HTMLFormattingElementList.closestElementInScopeWithName name (entries t) = Some v /\
  forall n, v = Some n -> exists i, i ∈ itemsOf (entries t) /\ m_node i = n /\ matchesHTMLTag i name = true.
Proof.
  intros H. pose proof (core_items _ _ _ (doc_inv t H)) as Hi. revert Hi. induction (entries t) as [|e l IH] using rev_ind; intros Hi; [by exists None|].
  rewrite itemsOf_app in Hi. apply List.Forall_app in Hi as [Hl He]. destruct (IH Hl) as (v & Ev & Hv). rewrite closest_snoc. destruct e as [i|]; [|by exists None].
  cbn in He. apply Forall_cons_iff in He as [Hf _]. destruct (formatting_loose i Hf) as [[Hw Hfr] _].
  destruct (matchesHTMLTag i name) eqn:Em.
  - rewrite (wellFormed_element i Hw Hfr). eexists. split; [reflexivity|]. intros n [= <-]. exists i. split_and!; [|done|done]. rewrite itemsOf_app. apply elem_of_app. right. left.
  - exists v. split; [done|]. intros n Hn. destruct (Hv n Hn) as (j & Hj & ?). exists j. split; [|done]. rewrite itemsOf_app. apply elem_of_app. by left.
Qed.

Lemma remembers_item t i : docSite t -> i ∈ itemsOf (entries t) -> remembers t (m_node i).
Proof.
  intros H Hi. pose proof (doc_inv t H) as Hc. split_and!; [by apply (proj2 (doc_older t H))|..].
  - intros rec Hr E. pose proof (core_agree _ _ _ Hc rec i Hr Hi E) as Ei. unfold nodeOf. by rewrite Ei.
  - intros j Hj E. destruct (core_list _ _ _ Hc) as [_ Hnd]. f_equal. apply list_elem_of_lookup in Hi as (a & Ha). apply list_elem_of_lookup in Hj as (c & Hcj).
    assert (a = c); [|by subst; congruence]. apply (NoDup_lookup (map itemId (itemsOf (entries t))) a c (itemId i)); [done|by rewrite list_lookup_fmap, Ha|].
    rewrite list_lookup_fmap, Hcj. cbn. by rewrite E.
Qed.

Lemma endAnchor r p m B ms n a b : flexMode m = true -> Flex r p m B ms b -> remembers (m_tree b) a ->
  wp (process (S n) (CallEndTag (lit "a"))) (fun _ b' => Flex r p m B ms b' /\ remembers (m_tree b') a) b.
Proof.
  intros Hm Hb Ha. cbn [process].
  apply (endTag_dispatch p m B ms (fun r b => Flex r p m B ms b /\ remembers (m_tree b) a) (fun r b => Flex r p m B ms b /\ remembers (m_tree b) a)); try done.
  - by intros r0 b0 [? _].
  - intros r0 r' b0 [H ?]. split; [by apply (flex_redirect r0)|done].
  - intros r0 r' b0 [H ?]. split; [by apply (flex_redirect r0)|done].
  - intros r' b' [Hb' Ha']. unfold processEndTagForInBody, isNumberedHeaderTag, isFormattingTag. closed_tests.
    destruct (flex_site _ _ _ _ _ _ Hb') as (H & Eb & _ & Hok & Hf).
    destruct (agency_doc (lit "a") (m_tree b') ms H Hok Hf eq_refl) as (t' & E & (L1 & L2 & L3) & Hg). apply (tb_tree _ t'); [done|].
    split; [apply flex_tree; try done; by rewrite L3|by apply (remembers_grows (m_tree b'))].
Qed.

(** The element is removed wherever it is. *)
Lemma removeAnchor r p m B ms a b : Flex r p m B ms b -> remembers (m_tree b) a -> node_hasTagName a (htmlName "a") = true ->
  wp (let! b := get in if containsNode (m_openElements (m_tree b)) a then stack (remove a) else ret tt) (fun _ b' => exists B', Flex r p m B' ms b') b.
Proof.
  intros Hb (_ & Ha & _) Ht. apply tb_bind. cbn. destruct (containsNode _ _) eqn:Ec; [|by exists B]. unfold containsNode in Ec. apply bool_decide_eq_true in Ec as [g Eg].
  unfold findNode in Eg. apply find_some in Eg as [Hg Es]. apply list_elem_of_In in Hg. apply sameNode_eq in Es. pose proof (Ha g Hg Es) as En. subst a.
  destruct (flex_st _ _ _ _ _ _ Hb) as (ks & Hs & Hok & Hc & Hf & Eb). pose proof (flex_doc _ _ _ _ _ _ Hb) as H. pose proof (doc_item _ g H Hg) as Hd.
  assert (Ek : kindOf (m_item g) = KOther) by (unfold nodeOf in Ht; rewrite doc_node in Ht by done; by apply (tag_kind _ "a" Hd)).
  apply list_elem_of_split in Hg as (A & L & Er). pose proof (st_kinds _ _ _ _ _ _ Hs) as Eks. unfold kinds in Eks. rewrite Er, map_app in Eks. cbn in Eks. rewrite Ek in Eks.
  rewrite <- Eks in Hok, Hc, Hf. destruct (remove_doc (m_tree b) A g L H Er) as (s' & Es' & H' & Et); [|unfold plainRecord; by rewrite Ek|].
  { intros ->. destruct (ok_bottom _ _ Hok) as (u & Eu). cbn in Eu. by apply app_inj_tail in Eu as [_ ?]. }
  apply (tb_stack _ s'); [done|]. pose proof (ctx_remove (kindsOf A) KOther (kindsOf L) ms eq_refl) as Ecx. apply ok_remove in Hok; [|done].
  exists (base (kindsOf A ++ kindsOf L)). apply flex_intro; [|done|congruence|by unfold flexible in Hf; rewrite Hc in Hf].
  apply (st_tree r p m ks); [done|done|done|]. unfold kinds. cbn. by rewrite Et, map_app.
Qed.

Lemma anchorStart r p m B ms n token b : flexMode m = true -> Flex r p m B ms b -> tokenName token = lit "a" -> NoDup (map attributeName (tokenAttributes token)) ->
  wp (anchorStartTagForInBody (fun name => process (S n) (CallEndTag name)) token) (fun _ b' => Ready r p b') b.
Proof.
  intros Hm Hb Hn Hd. unfold anchorStartTagForInBody. pose proof (flex_doc _ _ _ _ _ _ Hb) as H. destruct (closest_ok (m_tree b) (lit "a") H) as (v & Ev & Hv).
  apply tb_bind, (tb_ask _ v); [done|].
  assert (Hend : forall B b, Flex r p m B ms b -> wp (reconstruct ;; tree (insertFormattingElement token)) (fun _ b' => Ready r p b') b).
  { intros B1 b1 H1. apply (keep_ready r p m B1 ms); [|done]. apply keeps_bind; [by apply keeps_reconstruct|]. intros _. apply keeps_insertFormatting; [done| |done].
    rewrite Hn. apply list_elem_of_In. cbn. by left. }
  destruct v as [a|]; [|apply tb_bind; by apply (Hend B)]. destruct (Hv a eq_refl) as (i & Hi & <- & Hmatch). unfold processFakeEndTag.
  assert (Htag : node_hasTagName (m_node i) (htmlName "a") = true).
  { pose proof (core_items _ _ _ (doc_inv _ H)) as Hf. rewrite list.Forall_forall in Hf. destruct (formatting_loose i (Hf i Hi)) as [Hdi _].
    rewrite doc_node by done. exact Hmatch. }
  apply tb_bind. eapply tb_use; [apply (endAnchor r p m B ms n (m_node i)); [done|done|by apply remembers_item]|]. intros ? b1 [H1 R1].
  destruct (formattingRemove_ok (m_tree b1) (m_node i) (flex_doc _ _ _ _ _ _ H1)) as (l & El & Hl).
  apply tb_bind, (tb_formatting _ l); [done|].
  assert (Hsub : remembers (set_active l (m_tree b1)) (m_node i)).
  { destruct R1 as (R1 & R2 & R3). split_and!; [done|done|]. cbn. intros x Hx. apply R3. rewrite remove_filter in El by (apply (core_list _ _ _ (doc_inv _ (flex_doc _ _ _ _ _ _ H1)))).
    injection El as <-. apply list_elem_of_omap in Hx as (e & He & Hx). apply list_elem_of_filter in He as [_ He]. apply list_elem_of_omap. by exists e. }
  eapply tb_mono; [apply (removeAnchor r p m B ms (m_node i) (set_tree (set_active l (m_tree b1)) b1)); [|done|done]|].
  { apply flex_tree; try done. apply (flex_site _ _ _ _ _ _ H1). }
  intros ? b2 (B' & H2). by apply (Hend B').
Qed.

Lemma keeps_nobr r p m B ms n token : flexMode m = true -> tokenName token = lit "nobr" -> NoDup (map attributeName (tokenAttributes token)) ->
  keeps (Flex r p m B ms) (nobrStartTagForInBody (fun name => process (S n) (CallEndTag name)) token).
Proof.
  intros Hm Hn Hd. unfold nobrStartTagForInBody. apply keeps_bind; [by apply keeps_reconstruct|]. intros _. apply keeps_bind; [by apply keeps_inScope|]. intros inside.
  apply keeps_bind; [destruct inside; [|apply keeps_ret]; apply keeps_bind; [by apply endTag_plain|intros _; by apply keeps_reconstruct]|].
  intros _. apply keeps_insertFormatting; [done| |done]. rewrite Hn. apply list_elem_of_In. cbn. tauto.
Qed.

(** ** Body and frameset *)

Lemma root_st r p m ks ms b : St r p m ks ms b -> exists u root, records (m_tree b) = u ++ [root] /\ m_rootNode (m_openElements (m_tree b)) = Some (nodeOf root) /\
  htmlElement (m_openElements (m_tree b)) = Some (nodeOf root).
Proof.
  intros Hb. pose proof (st_doc _ _ _ _ _ _ Hb) as Hd. pose proof (core_stack _ _ _ (doc_inv _ Hd)) as Hi.
  destruct (shaped_bottom _ _ _ _ (inv_shape _ Hi) (doc_nonempty _ Hd)) as (u & root & Er & _ & En). exists u, root. split_and!; [done|done|].
  assert (Hin : root ∈ records (m_tree b)) by (rewrite Er; apply elem_of_app; right; left). destruct (doc_item _ root Hd Hin) as [Hw Hf].
  unfold wellFormed in Hw. rewrite Hf in Hw. destruct Hw as (He & _). unfold htmlElement. rewrite En. unfold nodeOf. by rewrite He.
Qed.

Lemma assertTemplate_st r p m ks m0 ms b : St r p m ks (m0 :: ms) b -> okStack ks (m0 :: ms) -> wp assertFragmentOrTemplate (fun _ b' => b' = b) b.
Proof.
  intros Hb Hok. unfold assertFragmentOrTemplate, assertThat, isParsingFragmentOrTemplateContents. apply tb_bind, tb_bind. cbn.
  assert (Ef : isParsingFragment b = false) by (unfold isParsingFragment; by rewrite (st_context _ _ _ _ _ _ Hb)). rewrite Ef.
  unfold isParsingTemplateContents. eapply tb_query; [by apply (template_scope r p m ks)|]. by apply tb_assert.
Qed.

(** The body, when no template is open. *)
Lemma body_st r p m ks b : St r p m ks [] b -> okStack ks [] -> flexible ks [] -> exists RU body root U, records (m_tree b) = RU ++ [body; root] /\ kindsOf RU = U /\
  ks = U ++ [KBody; KHtml] /\ kindOf (m_item body) = KBody /\ m_bodyElement (m_openElements (m_tree b)) = Some (nodeOf body) /\ Forall (fun k => plainKind k = true) U.
Proof.
  intros Hb Hok Hf. destruct (ok_inBody ks Hok) as (U & E); [by left|]. pose proof (st_kinds _ _ _ _ _ _ Hb) as Ek. rewrite E in Ek.
  destruct (kinds_split (m_tree b) U KBody [KHtml] Ek) as (RU & body & RB & Er & EU & Eb & ERB). destruct RB as [|root [|]]; [done| |done].
  exists RU, body, root, U. split_and!; try done.
  - by apply (second_ok (m_tree b) RU body root (st_doc _ _ _ _ _ _ Hb) Er).
  - rewrite list.Forall_forall. intros x Hx. destruct (plainKind x) eqn:Ex; [done|]. apply list_elem_of_split in Hx as (A1 & A2 & ->).
    rewrite <- app_assoc in E. cbn in E. pose proof (ok_second ks [] A1 x _ Hok E ltac:(by destruct A2) Ex) as Hs. by destruct A2 as [|? [|]]; simplify_eq/=.
Qed.

Lemma keeps_body r p m B ms token : keeps (Flex r p m B ms) (bodyStartTagForInBody token).
Proof.
  intros b Hb. destruct (flex_st _ _ _ _ _ _ Hb) as (ks & Hs & Hok & Hc & Hf & Eb). destruct (root_st _ _ _ _ _ _ Hs) as (u & root & Er & En & _).
  unfold bodyStartTagForInBody. apply tb_bind. eapply tb_query; [unfold secondElementIsHTMLBodyElement; by rewrite En|]. apply tb_bind.
  assert (Hone : exists one, hasOnlyOneElement (m_openElements (m_tree b)) = Some one /\ (one = true -> u = [])).
  { unfold hasOnlyOneElement. rewrite Er. destruct u as [|x u]; [by exists true|]. exists false. cbn [app]. split; [|done]. rewrite length_app. f_equal. apply Nat.eqb_neq. cbn. lia. }
  destruct Hone as (one & Eone & Hone). destruct ms as [|m0 ms].
  - destruct (body_st r p m ks b Hs Hok Hf) as (RU & body & root' & U & Er' & _ & E & _ & Ebody & _). rewrite Ebody. rewrite bool_decide_eq_true_2 by done. cbn [negb].
    apply tb_bind, (tb_query _ one); [done|]. destruct one; [rewrite Er', Hone in Er by done; by destruct RU as [|? [|]]|].
    eapply tb_query; [by apply (template_scope r p m ks)|]. apply tb_bind. cbn. unfold insertHTMLBodyStartTagInBody, bodyElement. apply tb_bind. cbn. rewrite Ebody.
    unfold mergeAttributesFromTokenIntoElement. assert (Hb' : Flex r p m B [] (set_framesetOk false b)) by (split; [apply Hb|]; exists ks; split; [done|by apply st_framesetOk]).
    destruct (tokenAttributes token); [exact Hb'|]. apply tb_bind. cbn. destruct Hb' as (H1 & ks' & H2 & H3). split; [done|]. exists ks'. split; [done|]. by apply st_changed.
  - assert (Hcase : wp (if negb (bool_decide (is_Some (m_bodyElement (m_openElements (m_tree b))))) then ret true
      else let! one := query hasOnlyOneElement in if one then ret true else query hasTemplateInHTMLScope) (fun v b' => v = true /\ b' = b) b).
    { destruct (bool_decide _); [|done]. apply tb_bind, (tb_query _ one); [done|]. destruct one; [done|]. eapply tb_query; [by apply (template_scope r p m ks)|done]. }
    eapply tb_mono; [exact Hcase|]. intros v b' [-> ->]. eapply tb_mono; [by apply (assertTemplate_st r p m ks m0 ms)|]. by intros ? b' ->.
Qed.

Lemma framesetStart r p m B token b : Flex r p m B [] b -> tokenName token = lit "frameset" -> wp (framesetStartTagForInBody token) (fun _ b' => Ready r p b') b.
Proof.
  intros Hb Hn. destruct (flex_st _ _ _ _ _ _ Hb) as (ks & Hs & Hok & Hc & Hf & Eb). destruct (root_st _ _ _ _ _ _ Hs) as (u & root & Er & En & _).
  destruct (body_st r p m ks b Hs Hok Hf) as (RU & body & root' & U & Er' & EU & E & Ekb & Ebody & HU).
  unfold framesetStartTagForInBody. apply tb_bind. eapply tb_query; [unfold secondElementIsHTMLBodyElement; by rewrite En|]. rewrite Ebody, bool_decide_eq_true_2 by done. cbn [negb].
  assert (Hone : hasOnlyOneElement (m_openElements (m_tree b)) = Some false).
  { unfold hasOnlyOneElement. rewrite Er'. destruct RU as [|x RU]; [done|]. cbn [app]. rewrite length_app. f_equal. apply Nat.eqb_neq. cbn. lia. }
  apply tb_bind, (tb_query _ false); [done|]. apply tb_bind. cbn. destruct (m_framesetOk b); cbn [negb]; [|by apply (ready_flex r p m B [])]. rewrite E in Hs.
  apply tb_bind. eapply tb_query; [exact Ebody|]. apply tb_bind. cbn.
  pose proof (st_changed r p m _ [] b [NodeRemoved (nodeOf body)] Hs) as H1. pose proof (st_doc _ _ _ _ _ _ Hs) as Hd.
  destruct (stop_node (m_tree b) RU body [root'] Hd Er') as [S1 S2]. eapply tb_use; [apply (popTo_st r p m U KBody [KHtml] [] _ _ body RU [root'] H1 Er' EU HU S1 S2)|].
  intros ? b2 [H2 R2]. destruct (proj2 (popSecond_ok (m_tree b2) body root' (st_doc _ _ _ _ _ _ H2) R2) Ekb) as (s' & Es & Hd' & Et).
  apply tb_bind, (tb_stack _ s'); [done|]. set (b3 := set_tree (set_open s' (m_tree b2)) b2).
  assert (Ekr : kindOf (m_item root') = KHtml) by (pose proof (st_kinds _ _ _ _ _ _ H2) as Ek; unfold kinds in Ek; rewrite R2 in Ek; by injection Ek).
  assert (H3 : St r p m [KHtml] [] b3) by (apply (st_tree r p m [KBody; KHtml]); try done; unfold kinds; cbn; rewrite Et; cbn; by rewrite Ekr).
  destruct (root_st _ _ _ _ _ _ H3) as (u3 & root3 & Er3 & _ & Eh3). destruct (current_st _ _ _ _ _ _ _ H3) as (item & Ei & _ & _ & Etop).
  assert (Eitem : item = m_item root3).
  { unfold topStackItem, topRecord in Ei. pose proof (st_kinds _ _ _ _ _ _ H3) as Ek. unfold kinds in Ek. rewrite Er3 in *. destruct u3 as [|? [|]]; [by injection Ei|done|done]. }
  apply tb_bind, tb_assert; [rewrite Etop, Eh3, Eitem; by apply sameNode_eq|].
  eapply tb_use; [apply (push_st pluginElements r p m [KHtml] []); [done|by rewrite Hn|rewrite Hn; unfold attachableName; by rewrite !orb_true_r]|]. intros ? b4 H4. rewrite Hn in H4.
  eapply tb_mono; [apply (goto_st _ _ _ InFrameset _ _ _ H4); by apply (flex_settled _ _ _ _ _ _ Hb)|]. intros ? b5 H5. apply (ready_fits _ _ _ _ _ _ H5).
  split; [|done]. apply ok_frameset; [by left|constructor].
Qed.

(** ** Elements with structure or text *)

Lemma tableStart r p m B ms n token b : bodyMode m = true -> Flex r p m B ms b -> tokenName token = lit "table" ->
  wp (tableStartTagForInBody (fun name => process (S n) (CallEndTag name)) token) (fun _ b' => Ready r p b') b.
Proof.
  intros Hm Hb Hn. assert (Hflex : flexMode m = true) by (unfold flexMode; by rewrite Hm). unfold tableStartTagForInBody. apply tb_bind. cbn.
  assert (Hq : exists v, wp (if m_inQuirksMode b then ret false else query (fun s => inButtonScope s (lit "p"))) (fun w b' => w = v /\ b' = b) b /\ (v = true -> pInButtonScope b)).
  { destruct (m_inQuirksMode b); [by exists false|].
    destruct (inScope_total isButtonScopeMarker (hasTarget (lit "p")) (m_tree b)) as (v & E); [by apply (flex_doc _ _ _ _ _ _ Hb)|intros; by apply root_marker|].
    exists v. split; [by apply (tb_query _ v)|by intros ->]. }
  destruct Hq as (v & Hq & Hp). eapply tb_use; [exact Hq|]. intros w b1 [-> ->]. clear Hq.
  assert (Hclose : wp (if v then processFakeEndTag (fun name => process (S n) (CallEndTag name)) "p" else ret tt) (fun _ b' => Flex r p m B ms b') b).
  { destruct v; [|exact Hb]. apply endP_in; [done|done|by apply Hp]. }
  eapply tb_use; [exact Hclose|]. intros ? b2 H2. destruct (flex_st _ _ _ _ _ _ H2) as (ks & Hs & Hok & Hc & _).
  eapply tb_use; [apply (push_st pluginElements r p m ks ms); [done|by rewrite Hn|rewrite Hn; by apply safe_attachable]|]. intros ? b3 H3. rewrite Hn in H3.
  apply tb_bind. cbn. apply (ready_fits r p InTable (KTable :: ks) ms); [apply (st_goto r p m); [by apply st_framesetOk|by apply (flex_settled _ _ _ _ _ _ Hb)]|].
  split; [|done]. apply ok_table; [by rewrite Hc|done].
Qed.

Lemma selectStart r p m B ms token b : flexMode m = true -> Flex r p m B ms b -> tokenName token = lit "select" ->
  wp (selectStartTagForInBody token) (fun _ b' => Ready r p b') b.
Proof.
  intros Hm Hb Hn. unfold selectStartTagForInBody. eapply tb_keep; [by apply keeps_reconstruct|exact Hb|]. intros ? b1 H1. destruct (flex_st _ _ _ _ _ _ H1) as (ks & Hs & Hok & Hc & _).
  eapply tb_use; [apply (push_st pluginElements r p m ks ms); [done|by rewrite Hn|rewrite Hn; by apply safe_attachable]|]. intros ? b2 H2. rewrite Hn in H2.
  apply tb_bind. cbn. assert (H3 : forall m', St r p m' (KSelect :: ks) ms (set_mode m' (set_framesetOk false b2))).
  { intros m'. apply (st_goto r p m); [by apply st_framesetOk|by apply (flex_settled _ _ _ _ _ _ Hb)]. }
  assert (Hok' : okStack (KSelect :: ks) ms) by (apply ok_select; [by rewrite Hc|done]). apply tb_bind. cbn. case_bool_decide; apply (ready_fits _ _ _ _ _ _ (H3 _)); by split.
Qed.

Lemma ready_inText r p m B ms b ks : Flex r p m B ms b -> okStack ks ms -> ctx ks ms = m -> forall b', InText r p m ks ms b' -> Ready r p b'.
Proof.
  intros Hb Hok Hc b' Hb'. apply (ready_text r p m ks ms); [done|rewrite <- Hc; by apply fits_ctx|]. intros ->. by apply flex_settled in Hb.
Qed.

Lemma rawTextStart r p m B ms token b : Flex r p m B ms b -> textElement (tokenName token) = true -> wp (processGenericRawTextStartTag token) (fun _ b' => Ready r p b') b.
Proof.
  intros Hb Hn. destruct (flex_st _ _ _ _ _ _ Hb) as (ks & Hs & Hok & Hc & _). eapply tb_mono; [apply (rawText_ok pluginElements r p m ks ms); [done|by apply (flex_settled _ _ _ _ _ _ Hb)|done]|].
  intros ? b'. by apply (ready_inText r p m B ms b).
Qed.

Lemma textareaStart r p m B ms token b : Flex r p m B ms b -> tokenName token = lit "textarea" ->
  wp (tree (insertHTMLElement token) ;; modify (set_skipNewline true) ;; setTokenizerState RCDATAState ;;
      modify (fun b => set_originalMode (m_insertionMode b) b) ;; framesetNotOk ;; setInsertionMode Text) (fun _ b' => Ready r p b') b.
Proof.
  intros Hb Hn. destruct (flex_st _ _ _ _ _ _ Hb) as (ks & Hs & Hok & Hc & _).
  eapply tb_use; [apply (push_st pluginElements r p m ks ms); [done|by rewrite Hn|rewrite Hn; by apply safe_attachable]|]. intros ? b1 H1. rewrite Hn in H1.
  apply tb_bind. cbn. apply (ready_inText r p m B ms b ks Hb Hok Hc). split; [apply H1|]. exists KOther. split; [done|].
  apply (st_goto r p m); [|by apply (flex_settled _ _ _ _ _ _ Hb)]. by apply st_framesetOk, st_originalMode, st_tokenizer, st_skipNewline.
Qed.

Lemma keeps_closeOption r p m B ms n : flexMode m = true -> keeps (Flex r p m B ms) (closeOption (fun name => process (S n) (CallEndTag name))).
Proof.
  intros Hm. unfold closeOption. apply keeps_bind; [apply keeps_current|]. intros item. destruct (isHTMLOptionElement _); [|apply keeps_ret]. by apply endTag_plain.
Qed.

(** The start tags of the head in the body. *)
Lemma inHeadStart r p m B ms n token b : Flex r p m B ms b -> headName (tokenName token) = true -> tokenName token <> lit "noscript" ->
  wp (processStartTagForInHead (fun name => process (S n) (CallEndTag name)) token) (fun v b' => v = true /\ Ready r p b') b.
Proof.
  intros Hb Hn Hno. destruct (flex_st _ _ _ _ _ _ Hb) as (ks & Hs & Hok & Hc & Hf & Eb).
  eapply tb_mono; [apply (inHead_ok pluginElements r p m ks ms); [done|by apply (flex_settled _ _ _ _ _ _ Hb)|by left]|]. intros v b' [-> Hstep]. split; [done|].
  destruct Hstep as [H1|H1|H1 _|_ H1]; [|by apply (ready_inText r p m B ms b ks Hb Hok Hc)|done|].
  - apply (ready_fits r p m ks ms); [done|]. rewrite <- Hc. by apply fits_ctx.
  - apply (ready_fits _ _ _ _ _ _ H1). split; [|done]. by apply ok_template.
Qed.

Lemma inHeadProcessedStart r p m B ms n token b : Flex r p m B ms b -> headName (tokenName token) = true -> tokenName token <> lit "noscript" ->
  wp (inHeadProcessed (fun name => process (S n) (CallEndTag name)) token) (fun _ b' => Ready r p b') b.
Proof.
  intros Hb Hn Hno. unfold inHeadProcessed, assertThat. eapply tb_use; [by apply (inHeadStart r p m B ms n)|]. intros v b' [-> H']. by apply tb_assert.
Qed.

(** ** Characters *)

Lemma skip_newline startTag endTag fuel c Q b : c <> [] ->
  (forall b' c', c' <> [] -> (length c' <= length c)%nat -> b' = b \/ b' = set_skipNewline false b -> m_shouldSkipLeadingNewline b' = false ->
     wp (reprocessBuffer startTag endTag (S fuel) c') Q b') ->
  Q [] (set_skipNewline false b) -> wp (reprocessBuffer startTag endTag (S fuel) c) Q b.
Proof.
  intros Hc H Hend. destruct (m_shouldSkipLeadingNewline b) eqn:Es; [|apply H; [done|lia|by left|done]].
  destruct (decide (skipAtMostOneLeadingNewline c = [])) as [E|E].
  - unfold wp, reprocessBuffer, bind, get, modify, assert. rewrite Es. cbn zeta iota beta. rewrite (bool_decide_eq_false_2 (c = [])) by done. cbn [negb andb].
    rewrite E, bool_decide_eq_true_2 by done. exact Hend.
  - specialize (H (set_skipNewline false b) (skipAtMostOneLeadingNewline c) E). unfold wp in H |- *. cbn [reprocessBuffer] in H |- *. unfold bind at 1, get at 1 in H. unfold bind at 1, get at 1.
    rewrite Es. cbn [m_shouldSkipLeadingNewline set_skipNewline m_insertionMode] in H. unfold bind at 1, ret at 1 in H. cbn zeta iota beta in H. cbn [andb] in H.
    unfold bind at 1. unfold bind at 1, modify at 1, assert at 1. rewrite (bool_decide_eq_false_2 (c = [])) by done. cbn [negb andb]. cbn zeta.
    rewrite (bool_decide_eq_false_2 (skipAtMostOneLeadingNewline c = [])) by done. apply H; [|by right|done].
    destruct c as [|x c]; [done|]. cbn. destruct (x =? 10); cbn; lia.
Qed.

Lemma keeps_bodyText r p m B ms c : keeps (Flex r p m B ms) (processCharacterBufferForInBody c).
Proof.
  unfold processCharacterBufferForInBody. apply keeps_bind; [by apply keeps_reconstruct|]. intros _. apply keeps_bind; [by apply keeps_flexText|]. intros _.
  apply keeps_bind; [apply keeps_get|]. intros b. destruct (_ && _); [apply keeps_framesetNotOk|apply keeps_ret].
Qed.

(** The elements that do not take characters. *)
Definition tableItem (item : HTMLStackItem) : bool :=
  isElementNode item && (isHTMLTableElement (m_node item) || hasOneOf item (map htmlName ["tbody"; "tfoot"; "thead"; "tr"]%string)).

Lemma tableItem_loose item : docItem item -> loose (kindOf item) = true -> tableItem item = false.
Proof.
  intros Hd Hl. unfold tableItem, isHTMLTableElement. rewrite doc_node by done. destruct (kindOf item) eqn:E; try done; kind_of_item Hd E; by rewrite ?andb_false_r.
Qed.

Lemma flex_skip r p m B ms v b : Flex r p m B ms b -> Flex r p m B ms (set_skipNewline v b).
Proof. intros (Hok & ks & Eb & Hb). split; [done|]. exists ks. split; [done|]. by apply st_skipNewline. Qed.

Lemma looseCharacters r p m B ms n c b : flexMode m = true \/ m = TemplateContents -> Flex r p m B ms b -> c <> [] ->
  (tableMode m = true -> exists item, topStackItem (m_openElements (m_tree b)) = Some item /\ loose (kindOf item) = true /\ docItem item) ->
  wp (process (S n) (CallCharacters c)) (fun _ b' => Flex r p m B ms b') b.
Proof.
  intros Hm Hb Hc Htop. change (process (S n) (CallCharacters c)) with (processCharacterBuffer (fun token => process n (CallStartTag token)) (fun name => process n (CallEndTag name)) c).
  unfold processCharacterBuffer. apply tb_bind, tb_assert; [by rewrite bool_decide_eq_false_2|].
  eapply tb_use with (P := fun rest b' => rest = [] /\ Flex r p m B ms b'); [|intros rest b' [-> Hb']; by apply tb_assert].
  rewrite Nat.add_comm. cbn [Nat.add]. apply skip_newline; [done| |split; [done|by apply flex_skip]].
  intros b' c' Hc' _ Hb' Hskip. assert (H' : Flex r p m B ms b') by (destruct Hb' as [->| ->]; [done|by apply flex_skip]).
  assert (Htop' : m_tree b' = m_tree b) by (by destruct Hb' as [->| ->]). cbn [reprocessBuffer]. apply tb_bind. cbn. rewrite Hskip. apply tb_bind. cbn [andb].
  rewrite (flex_mode _ _ _ _ _ _ H').
  assert (Hbody : bodyMode m = true \/ m = TemplateContents -> wp (charactersInBody c') (fun rest b' => rest = [] /\ Flex r p m B ms b') b').
  { intros Hbm. unfold charactersInBody. apply tb_bind. apply tb_assert; [rewrite (flex_mode _ _ _ _ _ _ H'); by destruct Hbm as [Hbm| ->]; [destruct m|]|].
    eapply tb_keep; [apply (keeps_bodyText r p m B ms)|done|]. intros ? b2 H2. by split. }
  assert (Htable : tableMode m = true -> wp (charactersInTable c') (fun rest b' => rest = [] /\ Flex r p m B ms b') b').
  { intros Htm. destruct (Htop Htm) as (item & Ei & Hl & Hd). rewrite <- Htop' in Ei. unfold charactersInTable. apply tb_bind, tb_assert.
    { destruct (flex_st _ _ _ _ _ _ H') as (ks & Hs & _). rewrite (st_pending _ _ _ _ _ _ Hs); [done|]. intros ->. by apply flex_settled in H'. }
    apply tb_bind, (tb_query _ item); [done|]. pose proof (tableItem_loose item Hd Hl) as Ht. unfold tableItem in Ht. rewrite Ht.
    eapply tb_keep; [apply (keeps_redirecting _ r p m B ms), keeps_bodyText|done|]. intros ? b2 H2. by split. }
  destruct Hm as [Hm| ->]; [|by apply Hbody; right]. destruct m; try discriminate Hm; (by apply Hbody; left) || (by apply Htable).
Qed.

(** ** Forms and isindex *)

(** Start tags without structure: as in the body, or as in a table. *)
Lemma startTag_modes r p m B ms startTag endTag chars token Q b : flexMode m = true -> Flex r p m B ms b -> looseName (tokenName token) = true ->
  isTag (tokenName token) "col" = false ->
  (bodyMode m = true -> wp (processStartTagForInBody startTag endTag chars token) Q b) ->
  (tableMode m = true -> wp (processStartTagForInTable startTag endTag chars token) Q b) -> wp (processStartTag startTag endTag chars token) Q b.
Proof.
  intros Hm Hb Hl Hcol Hbody Htable. unfold processStartTag. apply tb_bind. cbn. rewrite (flex_mode _ _ _ _ _ _ Hb). destruct m eqn:Em; try discriminate Hm.
  - unfold startTagInBody, assertMode. apply tb_bind, tb_assert; [by rewrite (flex_mode _ _ _ _ _ _ Hb)|]. by apply Hbody.
  - by apply Htable.
  - unfold startTagInCaption. loose_tests Hl. rewrite Hcol. by apply Hbody.
  - unfold startTagInTableBody. loose_tests Hl. rewrite Hcol. by apply Htable.
  - unfold startTagInRow. loose_tests Hl. rewrite Hcol. by apply Htable.
  - unfold startTagInCell. loose_tests Hl. rewrite Hcol. by apply Hbody.
Qed.

(** A form may be opened. *)
Definition formAllowed (ms : list InsertionMode) (b : HTMLTreeBuilder) : Prop := m_form (m_tree b) = None \/ ms <> [].

Lemma formTest r p m ks ms b : St r p m ks ms b -> okStack ks ms ->
  wp (if bool_decide (is_Some (m_form (m_tree b))) then isParsingTemplateContents else ret true) (fun v b' => b' = b /\ (v = true <-> formAllowed ms b)) b.
Proof.
  intros Hb Hok. unfold formAllowed. destruct (m_form (m_tree b)) as [f|] eqn:Ef.
  - rewrite bool_decide_eq_true_2 by done. eapply tb_query; [by apply (template_scope r p m ks ms)|]. split; [done|]. destruct ms; split; try done; [by intros [?|?]|by right].
  - rewrite bool_decide_eq_false_2 by (by intros [? ?]). split; [done|]. split; [by left|done].
Qed.

Lemma insertFormStart r p m B ms token b : Flex r p m B ms b -> tokenName token = lit "form" ->
  wp (tree (insertHTMLFormElement token)) (fun _ b' => Flex r p m B ms b' /\ is_Some (m_form (m_tree b')) /\
    exists item, topStackItem (m_openElements (m_tree b')) = Some item /\ loose (kindOf item) = true) b.
Proof.
  intros Hb Hn. pose proof (keeps_insertForm pluginElements r p m B ms token Hn b Hb) as Hk.
  destruct (insertForm_ok pluginElements token (m_tree b) (flex_doc _ _ _ _ _ _ Hb) Hn) as (t' & f & E & _ & Ef & _ & _ & rec & Er & Ek).
  unfold wp, tree in *. rewrite E in *. split; [done|]. cbn. rewrite Ef. split; [done|]. exists (m_item rec). unfold topStackItem, topRecord. rewrite Er. cbn. by rewrite Ek.
Qed.

(** Operations on the stack keep everything else. *)
Lemma stack_frame f P b : wp (stack f) P b -> wp (stack f) (fun a b' => P a b' /\ exists s, b' = set_tree (set_open s (m_tree b)) b) b.
Proof. unfold wp, stack, tree. destruct (f _) as [s|]; [|done]. intros H. split; [done|by exists s]. Qed.

Lemma formStart r p m B ms n token b : flexMode m = true -> Flex r p m B ms b -> tokenName token = lit "form" ->
  wp (process (S (S n)) (CallStartTag token)) (fun _ b' => Flex r p m B ms b' /\ (formAllowed ms b -> is_Some (m_form (m_tree b')))) b.
Proof.
  intros Hm Hb Hn. cbn [process]. destruct (flex_st _ _ _ _ _ _ Hb) as (ks & Hs & Hok & _). apply (startTag_modes r p m B ms); try done; [by rewrite Hn|by rewrite Hn|..]; intros _.
  - unfold processStartTagForInBody. rewrite Hn. unfold isNumberedHeaderTag. closed_tests. apply tb_bind. cbn. eapply tb_use; [by apply (formTest r p m ks ms)|]. intros v b' [-> Hv].
    destruct v; cbn [negb]; [|split; [done|]; intros Hf; by apply Hv in Hf]. eapply tb_keep; [by apply (pEndIfInScope r p m B ms n)|done|]. intros ? b1 H1.
    eapply tb_mono; [by apply (insertFormStart r p m B ms)|]. intros ? b2 (H2 & Hf & _). by split.
  - unfold processStartTagForInTable. rewrite Hn. unfold isTableBodyContextTag, isTableCellContextTag. closed_tests. apply tb_bind. cbn.
    eapply tb_use; [by apply (formTest r p m ks ms)|]. intros v b' [-> Hv]. destruct v; cbn [negb]; [|split; [done|]; intros Hf; by apply Hv in Hf].
    eapply tb_use; [by apply (insertFormStart r p m B ms)|]. intros ? b1 (H1 & Hf & item & Ei & Hl).
    eapply tb_mono; [apply stack_frame; by apply (popLoose r p m B ms b1 item)|]. intros ? b2 [H2 (s & ->)]. by split.
Qed.

Lemma hrStart r p m B ms n token : flexMode m = true -> tokenName token = lit "hr" -> keeps (Flex r p m B ms) (process (S (S n)) (CallStartTag token)).
Proof.
  intros Hm Hn b Hb. cbn [process]. apply (startTag_dispatch p m B ms (fun r => Flex r p m B ms) (fun r => Flex r p m B ms)); try done.
  - intros r0 r' b0. apply (flex_redirect r0).
  - intros r0 r' b0. apply (flex_redirect r0).
  - by rewrite Hn.
  - intros r' b' Hb'. unfold processStartTagForInBody, laterStartTagForInBody. rewrite Hn. unfold isNumberedHeaderTag, isNonAnchorNonNobrFormattingTag. closed_tests.
    apply tb_bind. cbn. rewrite Hn. closed_tests. apply (keeps_bind (Flex r' p m B ms)); [by apply (pEndIfInScope r' p m B ms n)| |done]. intros _.
    apply keeps_bind; [apply keeps_insertedSelfClosing; by rewrite Hn|intros _; apply keeps_framesetNotOk].
Qed.

Lemma labelStart r p m B ms n token b : flexMode m = true -> Flex r p m B ms b -> tokenName token = lit "label" ->
  wp (process (S n) (CallStartTag token)) (fun _ b' => Flex r p m B ms b' /\ topIs (lit "label") b') b.
Proof.
  intros Hm Hb Hn. cbn [process]. apply (startTag_dispatch p m B ms (fun r => Flex r p m B ms) (fun r b => Flex r p m B ms b /\ topIs (lit "label") b)); try done.
  - intros r0 r' b0. apply (flex_redirect r0).
  - intros r0 r' b0 [H ?]. split; [by apply (flex_redirect r0)|done].
  - by rewrite Hn.
  - intros r' b' Hb'. unfold processStartTagForInBody, laterStartTagForInBody. rewrite Hn.
    unfold isNumberedHeaderTag, isNonAnchorNonNobrFormattingTag, isCaptionColOrColgroupTag, isTableBodyContextTag, isTableCellContextTag. closed_tests.
    apply tb_bind, tb_get. rewrite Hn. closed_tests. eapply tb_keep; [by apply (keeps_reconstruct pluginElements r' p m B ms)|done|]. intros ? b2 H2. rewrite <- Hn.
    apply insert_top; [done|done|by rewrite Hn|rewrite Hn; by apply safe_attachable].
Qed.

Lemma inputStart r p m B ms n token : flexMode m = true -> tokenName token = lit "input" -> keeps (Flex r p m B ms) (process (S n) (CallStartTag token)).
Proof.
  intros Hm Hn b Hb. cbn [process].
  assert (Hbody : forall r st et ch, keeps (Flex r p m B ms) (processStartTagForInBody st et ch token)).
  { intros r' st et ch b' Hb'. unfold processStartTagForInBody, laterStartTagForInBody. rewrite Hn. unfold isNumberedHeaderTag, isNonAnchorNonNobrFormattingTag. closed_tests.
    apply tb_bind, tb_get. rewrite Hn. closed_tests. apply (keeps_bind (Flex r' p m B ms)); [by apply keeps_reconstruct| |done]. intros _.
    apply keeps_bind; [apply keeps_insertedSelfClosing; by rewrite Hn|]. intros _. destruct (isHiddenInput token); [apply keeps_ret|apply keeps_framesetNotOk]. }
  apply (startTag_modes r p m B ms); try done; [by rewrite Hn|by rewrite Hn|intros _; by apply Hbody|intros _].
  unfold processStartTagForInTable. rewrite Hn. unfold isTableBodyContextTag, isTableCellContextTag. closed_tests. destruct (isHiddenInput token).
  - apply keeps_insertedSelfClosing; [by rewrite Hn|done].
  - by apply keeps_redirecting.
Qed.

Hypothesis searchable : searchableIndexIntroduction <> [].

Lemma isindexStart r p m B ms n token b : flexMode m = true -> Flex r p m B ms b -> tokenOK token -> tokenName token = lit "isindex" ->
  wp (processIsindexStartTagForInBody (fun token => process (S (S n)) (CallStartTag token)) (fun name => process (S (S n)) (CallEndTag name))
    (fun c => process (S (S n)) (CallCharacters c)) token) (fun _ b' => Flex r p m B ms b') b.
Proof.
  intros Hm Hb Htok Hn. destruct (flex_st _ _ _ _ _ _ Hb) as (ks & Hs & Hok & _). unfold processIsindexStartTagForInBody, processFakeStartTag, processFakeEndTag.
  apply tb_bind, tb_assert; [by rewrite Hn|]. apply tb_bind, tb_get. eapply tb_use; [by apply (formTest r p m ks ms)|]. intros v b' [-> Hv].
  destruct v; cbn [negb]; [|exact Hb]. eapply tb_use; [by apply (formStart r p m B ms n)|]. intros ? b1 [H1 Hf]. specialize (Hf (proj1 Hv eq_refl)).
  assert (Haction : wp (match tokenAttribute token "action" with Some action => let! form := ask (fun b => m_form (m_tree b)) in
      modify (changed [AttributeSet form (mkName (lit "action") None) (attributeValue action)]) | None => ret tt end) (fun _ b' => Flex r p m B ms b') b1).
  { destruct (tokenAttribute token "action"); [|exact H1]. destruct Hf as [f Ef]. apply tb_bind, (tb_ask _ f); [done|]. by apply keeps_changed. }
  eapply tb_use; [exact Haction|]. intros ? b2 H2. eapply tb_keep; [by apply (hrStart r p m B ms n)|done|]. intros ? b3 H3.
  eapply tb_use; [by apply (labelStart r p m B ms (S n))|]. intros ? b4 [H4 Htop].
  eapply tb_use; [apply (looseCharacters r p m B ms (S n)); [by left|done| |]|].
  { destruct (tokenAttribute token "prompt") as [q|] eqn:Eq; [by apply (token_prompt token Htok Hn q)|done]. }
  { intros _. destruct Htop as (rec & l & Er & Ht). exists (m_item rec). assert (Hd : docItem (m_item rec)) by (apply (doc_item (m_tree b4)); [by apply (flex_doc _ _ _ _ _ _ H4)|rewrite Er; left]).
    split_and!; [unfold topStackItem, topRecord; by rewrite Er|by rewrite (target_docKind (lit "label"))|done]. }
  intros ? b5 H5. eapply tb_keep; [by apply (inputStart r p m B ms (S n))|done|]. intros ? b6 H6.
  eapply tb_keep; [by apply (endTag_plain r p m B ms (S n))|done|]. intros ? b7 H7. eapply tb_keep; [by apply (hrStart r p m B ms n)|done|]. intros ? b8 H8.
  by apply (endTag_plain r p m B ms (S n)).
Qed.

(** ** All start tags *)

Lemma formatting_name name : isNonAnchorNonNobrFormattingTag name = true -> mkName name (Some xhtmlNamespaceURI) ∈ formattingNames.
Proof.
  intros H. apply oneOf_elem in H as (s & Hs & ->). apply list_elem_of_In in Hs. apply list_elem_of_In. cbn in Hs.
  repeat (destruct Hs as [<-|Hs]; [cbn; tauto|]). done.
Qed.

(** The names that remain are those without structure. *)
Lemma insertable_other name : oneOf name structuralNames = false -> oneOf name ["script"; "applet"; "embed"; "object"]%string = false -> insertable name = true.
Proof. intros H1 H2. unfold insertable, safeName. by rewrite looseName_other, H2. Qed.

Lemma allowed_attachable p name : (oneOf name ["applet"; "embed"; "object"]%string && negb (pluginContentIsAllowed p)) = false -> isTag name "script" = false ->
  attachableName p name = true.
Proof.
  unfold attachableName. intros H ->. rewrite orb_true_r. cbn [negb andb]. apply andb_false_iff in H as [->|H]; [by rewrite orb_true_r|].
  apply negb_false_iff in H. by rewrite H.
Qed.

(** The end of [laterStartTagForInBody]. *)
(** The operations that keep the state, one after the other. *)
#[local] Ltac kept_step r p m B ms :=
  match goal with
  | |- keeps _ (bind _ _) => apply keeps_bind; [|intros ?]
  | |- keeps _ (match ?v with _ => _ end) => destruct v
  | |- _ => first [done | by apply keeps_reconstruct | by apply keeps_closeOption | by eapply (pEndIfInScope r p m B ms) | by apply keeps_insertForeign
      | apply keeps_ret | apply keeps_marker | apply keeps_framesetNotOk | apply keeps_inScope | apply keeps_generateImplied | apply keeps_generateImpliedEx
      | apply keeps_insert; [done|by_names|done] | apply keeps_inserted; by_names]
  end.
#[local] Ltac kept r p m B ms := apply (keep_ready r p m B ms); [repeat kept_step r p m B ms|done].

Lemma laterStart r p m B ms n token b : flexMode m = true -> Flex r p m B ms b -> tokenOK token ->
  oneOf (tokenName token) ["html"; "body"; "frameset"; "script"]%string = false -> (tokenName token = lit "table" -> bodyMode m = true) ->
  wp (laterStartTagForInBody (fun token => process (S (S n)) (CallStartTag token)) (fun name => process (S (S n)) (CallEndTag name))
    (fun c => process (S (S n)) (CallCharacters c)) token) (fun _ b' => Ready r p b') b.
Proof.
  intros Hm Hb Htok Hno Htable. unfold laterStartTagForInBody. apply tb_bind, tb_get.
  destruct (flex_site _ _ _ _ _ _ Hb) as (_ & _ & Hp & _). rewrite Hp. name_case E1; [by apply (ready_flex r p m B ms)|].
  assert (Hscript : isTag (tokenName token) "script" = false).
  { unfold oneOf in Hno. cbn [existsb] in Hno. rewrite !orb_false_iff in Hno. tauto. }
  pose proof (allowed_attachable (policy p) _ E1 Hscript) as Hatt.
  name_case E2; [kept r p m B ms|].
  name_case E3; [apply isTag_eq in E3; by apply (tableStart r p m B ms (S n)); [apply Htable| |]|].
  set (token' := if isTag (tokenName token) "image" then mkToken (lit "img") (tokenAttributes token) (tokenSelfClosing token) else token).
  assert (Hok : tokenOK token' /\ attachableName (policy p) (tokenName token') = true /\
    oneOf (tokenName token') ["html"; "body"; "frameset"; "script"; "applet"; "marquee"; "object"; "table"]%string = false).
  { unfold token'. destruct (isTag (tokenName token) "image").
    - split_and!; [|by apply safe_attachable|by vm_compute]. destruct Htok as [T1 T2]. constructor; [done|]. cbn. discriminate.
    - split_and!; [done|done|]. unfold oneOf in *. cbn [existsb] in *. rewrite !orb_false_iff in Hno. rewrite !orb_false_iff in E2. destruct Hno as (-> & -> & -> & -> & _).
      destruct E2 as (-> & -> & -> & _). by rewrite E3. }
  clearbody token'. clear Htok Hno Htable E1 E2 E3 Hscript Hatt token. destruct Hok as (Htok & Hatt & Hno). rename token' into token. cbn zeta.
  assert (Hself : keeps (Flex r p m B ms) (tree (insertSelfClosingHTMLElement token))) by (by apply keeps_insertSelfClosing).
  name_case E1; [kept r p m B ms|].
  name_case E2; [kept r p m B ms|].
  name_case E3; [kept r p m B ms|].
  name_case E4; [kept r p m B ms|].
  name_case E5; [apply isTag_eq in E5; eapply tb_mono; [by apply (isindexStart r p m B ms n)|intros ? b'; apply ready_flex]|].
  name_case E6; [apply isTag_eq in E6; by apply (textareaStart r p m B ms)|].
  name_case E7.
  { apply isTag_eq in E7 as Et. eapply tb_keep; [by apply (pEndIfInScope r p m B ms (S n))|done|]. intros ? b1 H1.
    eapply tb_keep; [by apply (keeps_reconstruct pluginElements r p m B ms)|done|]. intros ? b2 H2. eapply tb_keep; [by apply (keeps_framesetNotOk r p m B ms)|done|]. intros ? b3 H3.
    apply (rawTextStart r p m B ms); [done|by rewrite Et]. }
  name_case E8.
  { apply isTag_eq in E8 as Et. eapply tb_keep; [by apply (keeps_framesetNotOk r p m B ms)|done|]. intros ? b3 H3. apply (rawTextStart r p m B ms); [done|by rewrite Et]. }
  name_case E9; [apply andb_true_iff in E9 as [E9 _]; apply isTag_eq in E9; apply (rawTextStart r p m B ms); [done|by rewrite E9]|]. clear E9.
  name_case E9; [apply andb_true_iff in E9 as [E9 _]; apply isTag_eq in E9; apply (rawTextStart r p m B ms); [done|by rewrite E9]|]. clear E9.
  name_case E9; [apply isTag_eq in E9; by apply (selectStart r p m B ms)|].
  name_case E10; [kept r p m B ms|].
  name_case E11; [kept r p m B ms|].
  name_case E12; [kept r p m B ms|].
  name_case E13; [kept r p m B ms|].
  name_case E14; [kept r p m B ms|].
  name_case E15; [by apply (ready_flex r p m B ms)|].
  name_case E16.
  { apply isTag_eq in E16. destruct (flex_st _ _ _ _ _ _ Hb) as (ks & Hs & Hok & Hc & _). eapply tb_mono; [apply (templateStart_ok pluginElements r p m ks ms); try done; by apply (flex_settled _ _ _ _ _ _ Hb)|].
    intros ? b1 H1. apply (ready_fits _ _ _ _ _ _ H1). split; [|done]. by apply ok_template. }
  apply (keep_ready r p m B ms); [|done]. apply keeps_bind; [by apply keeps_reconstruct|]. intros _. apply keeps_inserted, insertable_other.
  all: unfold isCaptionColOrColgroupTag, isTableBodyContextTag, isTableCellContextTag, oneOf, structuralNames in *; cbn [existsb] in *;
    rewrite !orb_false_iff in Hno; rewrite !orb_false_iff in E15; rewrite !orb_false_iff in E1; rewrite !orb_false_iff; tauto.
Qed.

(** Start tags in the body; [k] bounds the number of open buttons. *)
Lemma bodyStart r p m B ms n k token b : flexMode m = true -> Flex r p m B ms b -> tokenOK token -> (tokenName token = lit "frameset" -> ms = []) ->
  (tokenName token = lit "table" -> bodyMode m = true) -> (tokenName token = lit "button" -> (buttons b <= k)%nat) -> (k <= n)%nat ->
  wp (processStartTagForInBody (fun token => process (S (S n)) (CallStartTag token)) (fun name => process (S (S n)) (CallEndTag name))
    (fun c => process (S (S n)) (CallCharacters c)) token) (fun _ b' => Ready r p b') b.
Proof.
  intros Hm Hb Htok Hframeset Htable Hbutton Hk. unfold processStartTagForInBody. pose proof (pEndIfInScope r p m B ms (S n) Hm) as Hp.
  assert (Hkeep : forall o : TB unit, keeps (Flex r p m B ms) o -> wp o (fun _ b' => Ready r p b') b) by (intros o Ho; by apply (keep_ready r p m B ms)).
  name_case E1.
  { destruct (flex_st _ _ _ _ _ _ Hb) as (ks & Hs & Hok & Hc & _). eapply tb_mono; [by apply (html_st r p m ks ms)|]. intros ? b' Hb'.
    apply (ready_fits _ _ _ _ _ _ Hb'). rewrite <- Hc. by apply fits_ctx. }
  name_case E2; [apply (inHeadProcessedStart r p m B ms (S n)); [done|by_names|by intros E; rewrite E in E2]|].
  name_case E3; [apply Hkeep, keeps_body|].
  name_case E4; [apply isTag_eq in E4; rewrite (Hframeset E4) in Hb; by apply (framesetStart r p m B)|].
  name_case E5; [apply Hkeep, keeps_bind; [done|]; intros _; apply keeps_inserted; by_names|].
  name_case E6.
  { apply Hkeep, keeps_bind; [done|]. intros _. pose proof (keeps_closeHeading r p m B ms) as Hh. intros b1 H1. specialize (Hh b1 H1). unfold wp, bind in Hh |- *.
    destruct (currentItem b1) as [[item b2]|]; [|done]. destruct (isNumberedHeaderElement item).
    - destruct (stack pop b2) as [[? b3]|]; [|done]. apply keeps_inserted; [by_names|done].
    - apply keeps_inserted; [by_names|done]. }
  name_case E7.
  { apply Hkeep, keeps_bind; [done|]. intros _. apply keeps_bind; [apply keeps_inserted; by_names|]. intros _. apply keeps_bind; [apply keeps_skipNewline|]. intros _. apply keeps_framesetNotOk. }
  name_case E8.
  { apply isTag_eq in E8. apply tb_bind, tb_get. destruct (flex_st _ _ _ _ _ _ Hb) as (ks & Hs & Hok & _). eapply tb_use; [by apply (formTest r p m ks ms)|]. intros v b' [-> _].
    destruct v; cbn [negb]; [|by apply (ready_flex r p m B ms)]. apply Hkeep, keeps_bind; [done|]. intros _. by apply keeps_insertForm. }
  name_case E9; [apply isTag_eq in E9; apply Hkeep, (keeps_closeNested r p m B ms (S n) _ ["li"%string]); [done|by rewrite E9| |by vm_compute]|].
  { intros item Hd Hi. exists "li"%string. split; [left|]. by apply hasTagName_eq in Hi as [-> _]. }
  name_case E10; [apply Hkeep, (keeps_closeNested r p m B ms (S n) _ ["dd"; "dt"]%string); [done|by_names| |by vm_compute]|].
  { intros item Hd Hi. apply existsb_exists in Hi as (q & Hin & Hq). apply in_map_iff in Hin as (s & <- & Hs). exists s. split; [by apply list_elem_of_In|]. by apply hasTagName_eq in Hq as [-> _]. }
  name_case E11; [apply isTag_eq in E11; apply Hkeep, keeps_bind; [done|]; intros _; apply keeps_bind; [apply keeps_inserted; by rewrite E11|]; intros _; apply keeps_tokenizerState|].
  name_case E12.
  { apply isTag_eq in E12. eapply tb_mono; [apply (buttonBody p m B ms token k (S n) _ r b Hm E12)|intros ? b'; apply ready_flex]; [|done|by apply Hbutton].
    intros r' b' Hb' Hlt. destruct k as [|k]; [lia|]. replace (S (S n)) with (S (S (k + (n - k)))) by lia. apply (buttonStart p m B ms token k); [done|done|done|lia]. }
  name_case E13; [apply isTag_eq in E13; apply (anchorStart r p m B ms (S n)); try done; apply Htok|].
  name_case E14; [apply Hkeep, keeps_bind; [by apply keeps_reconstruct|]; intros _; apply keeps_insertFormatting; [done|by apply formatting_name|apply Htok]|].
  name_case E15; [apply isTag_eq in E15; apply Hkeep, keeps_nobr; try done; apply Htok|].
  apply (laterStart r p m B ms n); try done. unfold oneOf in *. cbn [existsb] in *. rewrite !orb_false_iff in E2. destruct E2 as (_ & _ & _ & _ & _ & _ & _ & E2 & _). by rewrite E1, E3, E4, E2.
Qed.

End Start.
