(* ===== verification/HTMLTreeBuilderEnd.v ===== *)
(** * Safety of end tags

    End tags in the insertion modes for the content of the body and of tables lead to a
    state that fits its mode. *)
From S2P Require Import Prelude HTMLTokenizer CompatibilityMode HTMLStackItem HTMLElementStack HTMLElementStackProps HTMLElementStackProtocol HTMLFormattingElementList HTMLFormattingElementProps HTMLConstructionSite HTMLConstructionSiteProps AdoptionAgency HTMLTreeBuilderState HTMLTreeBuilder HTMLTreeBuilderKinds HTMLTreeBuilderSite HTMLTreeBuilderStack HTMLTreeBuilderRules HTMLTreeBuilderBody HTMLTreeBuilderStates HTMLTreeBuilderMoves HTMLTreeBuilderStart.
From Stdlib Require Import String ZArith Lia.
From stdpp Require Import base list numbers option.
#[local] Open Scope Z_scope.
#[local] Open Scope builder_scope.
Import HTMLStackItem HTMLElementStack HTMLConstructionSite CompatibilityMode HTMLTreeBuilderState HTMLTreeBuilder.

(** ** States whose mode is the one of the stack *)

Definition At (r : bool) (p : Fixed) (m : InsertionMode) (ms : list InsertionMode) (b : HTMLTreeBuilder) : Prop :=
  exists ks, St r p m ks ms b /\ okStack ks ms /\ ctx ks ms = m.

Lemma at_ready r p m ms b : At r p m ms b -> Ready r p b.
Proof. intros (ks & Hb & Hok & Hc). apply (ready_fits r p m ks ms); [done|]. rewrite <- Hc. by apply fits_ctx. Qed.

Lemma at_settled r p m ms b : At r p m ms b -> settled m = true.
Proof. intros (ks & Hb & Hok & Hc). rewrite <- Hc. by apply normal_settled, ctx_normal. Qed.

Lemma at_flex r p m ms b : At r p m ms b -> flexibleMode m ms -> exists B, Flex r p m B ms b.
Proof. intros (ks & Hb & Hok & Hc) Hm. exists (base ks). by apply flex_intro. Qed.

Lemma flex_at r p m B ms b : Flex r p m B ms b -> At r p m ms b.
Proof. intros Hb. destruct (flex_st _ _ _ _ _ _ Hb) as (ks & H1 & H2 & H3 & _). by exists ks. Qed.

Lemma at_mode r p m ms b : At r p m ms b -> m_insertionMode b = m.
Proof. intros (ks & Hb & _). apply Hb. Qed.

Lemma at_doc r p m ms b : At r p m ms b -> docSite (m_tree b).
Proof. intros (ks & Hb & _). apply Hb. Qed.

Lemma at_redirect r r' p m ms b : At r p m ms b -> At r' p m ms (redirected r' b).
Proof. intros (ks & Hb & Hok & Hc). exists ks. split; [by apply (st_setRedirect r)|done]. Qed.

Lemma at_step r p m' ks ms b : St r p m' ks ms b -> fits m' ks ms -> normal m' = true -> At r p m' ms b.
Proof. intros Hb Hf Hn. exists ks. split; [done|]. by apply normal_fits. Qed.

(** ** Stacks in tables *)

Ltac shape := intros H Hs Hc; destruct H; cbn in Hs, Hc; try done; try congruence.

Lemma shape_table ks ms : okStack ks ms -> structuralTop ks = true -> ctx ks ms = InTable ->
  (exists C, ks = KTable :: C /\ okStack C ms /\ bodyMode (ctx C ms) = true) \/ (exists C ms', ks = KTemplate :: C /\ ms = InTable :: ms').
Proof. shape; [right; subst; by eexists _, _|by destruct k|left; by eexists]. Qed.

Lemma shape_tableBody ks ms : okStack ks ms -> structuralTop ks = true -> ctx ks ms = InTableBody ->
  (exists C, ks = KTableBody :: C /\ okStack C ms /\ ctx C ms = InTable /\ structuralTop C = true) \/ (exists C ms', ks = KTemplate :: C /\ ms = InTableBody :: ms').
Proof. shape; [right; subst; by eexists _, _|by destruct k|left; by eexists]. Qed.

Lemma shape_row ks ms : okStack ks ms -> structuralTop ks = true -> ctx ks ms = InRow ->
  (exists C, ks = KRow :: C /\ okStack C ms /\ ctx C ms = InTableBody /\ structuralTop C = true) \/ (exists C ms', ks = KTemplate :: C /\ ms = InRow :: ms').
Proof. shape; [right; subst; by eexists _, _|by destruct k|left; by eexists]. Qed.

Lemma shape_cell ks ms : okStack ks ms -> structuralTop ks = true -> ctx ks ms = InCell ->
  exists C, ks = KCell :: C /\ okStack C ms /\ ctx C ms = InRow /\ structuralTop C = true.
Proof. shape; [by subst|by destruct k|by eexists]. Qed.

Lemma shape_caption ks ms : okStack ks ms -> structuralTop ks = true -> ctx ks ms = InCaption ->
  exists C, ks = KCaption :: C /\ okStack C ms /\ ctx C ms = InTable /\ structuralTop C = true.
Proof. shape; [by subst|by destruct k|by eexists]. Qed.

Lemma shape_colgroup ks ms : okStack ks ms -> ctx ks ms = InColumnGroup ->
  (exists C, ks = KColgroup :: C /\ okStack C ms /\ ctx C ms = InTable /\ structuralTop C = true) \/ (exists C ms', ks = KTemplate :: C /\ ms = InColumnGroup :: ms').
Proof.
  intros H Hc. destruct H; cbn in Hc; try done; try congruence.
  - right. subst. by eexists _, _.
  - exfalso. assert (E : ctx ks ms = InColumnGroup) by (by destruct k). unfold flexible in *. rewrite E in *. by destruct H0 as [?|[?|[? _]]].
  - left. by eexists.
Qed.

Lemma shape_select ks ms : okStack ks ms -> ctx ks ms = InSelect ->
  exists A C, ks = A ++ KSelect :: C /\ Forall (fun k => k = KOption) A /\ okStack C ms /\ flexMode (ctx C ms) = true.
Proof.
  induction 1 as [| | |ks _ _ IH|m ks ms Hm _ IH|k ks ms Hk Hf _ IH|ks ms Ho Hok IH|ks ms Hf Hok IH|ks ms Hf _ IH
    |ks ms Hc _ _ IH|ks ms Hc _ _ IH|ks ms Hc _ _ IH|ks ms Hc _ _ IH|ks ms Hc _ _ IH]; intros E; try done.
  - cbn in E. subst. done.
  - exfalso. assert (E' : ctx ks ms = InSelect) by (by destruct k). unfold flexible in Hf. rewrite E' in Hf. by destruct Hf as [?|[?|[? _]]].
  - destruct (IH Ho) as (A & C & -> & HA & ?). exists (KOption :: A), C. split_and!; [done|by constructor|tauto|tauto].
  - by exists [], ks.
Qed.

(** Rows and groups of rows, down to the table or the template. *)
Lemma shape_chain ks ms : okStack ks ms -> structuralTop ks = true -> tableMode (ctx ks ms) = true ->
  exists U X C, ks = U ++ X :: C /\ Forall (fun k => k = KRow \/ k = KTableBody) U /\
    ((X = KTable /\ okStack C ms /\ bodyMode (ctx C ms) = true) \/ (X = KTemplate /\ ms <> [])).
Proof.
  assert (Htable : forall ks ms, okStack ks ms -> structuralTop ks = true -> ctx ks ms = InTable -> exists U X C, ks = U ++ X :: C /\ Forall (fun k => k = KRow \/ k = KTableBody) U /\
    ((X = KTable /\ okStack C ms /\ bodyMode (ctx C ms) = true) \/ (X = KTemplate /\ ms <> []))).
  { intros l ms0 H1 H2 H3. destruct (shape_table l ms0 H1 H2 H3) as [(C & -> & ? & ?)|(C & ms' & -> & ->)]; eexists [], _, C; split_and!; [done..|by left|done|done|by right]. }
  assert (Hbody : forall ks ms, okStack ks ms -> structuralTop ks = true -> ctx ks ms = InTableBody -> exists U X C, ks = U ++ X :: C /\ Forall (fun k => k = KRow \/ k = KTableBody) U /\
    ((X = KTable /\ okStack C ms /\ bodyMode (ctx C ms) = true) \/ (X = KTemplate /\ ms <> []))).
  { intros l ms0 H1 H2 H3. destruct (shape_tableBody l ms0 H1 H2 H3) as [(C & -> & ? & ? & ?)|(C & ms' & -> & ->)].
    - destruct (Htable C ms0) as (U & X & C' & -> & HU & HX); [done..|]. exists (KTableBody :: U), X, C'. split_and!; [done|constructor; [by right|done]|done].
    - eexists [], _, C. split_and!; [done|done|by right]. }
  intros H Hs Hm. destruct (ctx ks ms) eqn:Ec; try discriminate Hm; [by apply Htable|by apply Hbody|].
  destruct (shape_row ks ms H Hs Ec) as [(C & -> & ? & ? & ?)|(C & ms' & -> & ->)].
  - destruct (Hbody C ms) as (U & X & C' & -> & HU & HX); [done..|]. exists (KRow :: U), X, C'. split_and!; [done|constructor; [by left|done]|done].
  - eexists [], _, C. split_and!; [done|done|by right].
Qed.

(** ** The end of tables and their parts *)

Lemma at_split r p m ms b : At r p m ms b -> exists A K, St r p m (A ++ K) ms b /\ okStack (A ++ K) ms /\ Forall (fun k => loose k = true) A /\
  structuralTop K = true /\ okStack K ms /\ ctx K ms = m.
Proof.
  intros (ks & Hb & Hok & Hc). destruct (base_split ks) as (A & E & HA). exists A, (base ks). rewrite <- E. split_and!; [done|done|done|by apply (base_structural ks ms)|by apply ok_base|].
  by rewrite ctx_base.
Qed.

(** Kinds that are neither marks of tables nor one of some others. *)
Definition betweenTables (k : Kind) : bool := match k with KTable | KTemplate | KHtml | KHead | KBody => false | _ => true end.

Lemma loose_between A : Forall (fun k => loose k = true) A -> Forall (fun k => betweenTables k = true) A.
Proof. apply List.Forall_impl. by intros []. Qed.

Lemma chain_between U : Forall (fun k => k = KRow \/ k = KTableBody) U -> Forall (fun k => betweenTables k = true) U.
Proof. apply List.Forall_impl. by intros k [->| ->]. Qed.

Lemma between_plain A : Forall (fun k => betweenTables k = true) A -> Forall (fun k => plainKind k = true) A.
Proof. apply List.Forall_impl. by intros []. Qed.

Lemma between_mark A : Forall (fun k => betweenTables k = true) A -> Forall (fun k => tableMark k = false) A.
Proof. apply List.Forall_impl. by intros []. Qed.

Lemma single_elem s : existsb (String.eqb s) singleNames = true -> s ∈ singleNames.
Proof. intros H. apply existsb_exists in H as (s' & Hin & E). apply String.eqb_eq in E as ->. by apply list_elem_of_In. Qed.

Section End.
Context `{env : Environment}.
Hypothesis pluginElements : forall n, isPluginElement n = true -> exists s, s ∈ ["applet"; "embed"; "object"]%string /\ nodeName n = htmlName s.
Hypothesis textLength : forall parent l position, (position < length l)%nat -> (createWithLengthLimit parent l position <= length l - position)%nat.

(** The mode is reset where elements of the body can be. *)
Lemma reset_at r p m ks ms b : St r p m ks ms b -> settled m = true -> okStack ks ms -> ctx ks ms <> InSelect ->
  wp resetInsertionModeAppropriately (fun _ b' => At r p (ctx ks ms) ms b') b.
Proof.
  intros Hb Hm Hok Hc. eapply tb_mono; [apply (reset_ok r p m ks ms); [done|by intros ->..|done]|]. intros ? b' (m' & H' & _ & [->|[_ ?]]); [|done]. by exists ks.
Qed.

Lemma tableEnd_ok r p m ms b : At r p m ms b -> tableMode m = true ->
  wp processTableEndTagForInTable (fun v b' => if v then exists m', At r p m' ms b' /\ bodyMode m' = true else b' = b /\ ms <> []) b.
Proof.
  intros Hat Hm. pose proof (at_settled _ _ _ _ _ Hat) as Hset. destruct (at_split _ _ _ _ _ Hat) as (A & K & Hb & Hok & HA & Hs & HokK & Hc). rewrite <- Hc in Hm.
  destruct (shape_chain K ms HokK Hs Hm) as (U & X & C & -> & HU & HX).
  assert (Hbetween : Forall (fun k => betweenTables k = true) (A ++ U)) by (apply List.Forall_app; split; [by apply loose_between|by apply chain_between]).
  rewrite app_assoc in Hb, Hok. unfold processTableEndTagForInTable. apply tb_bind. destruct HX as [(-> & HokC & HC)|(-> & Hms)].
  - apply (tb_query _ true).
    { apply (scope_kind_yes isTableScopeMarker tableMark "table" (m_tree b) (A ++ U) C marks_table); [by apply single_elem|apply Hb|apply Hb|].
      eapply List.Forall_impl; [|exact Hbetween]. by intros []. }
    cbn [negb]. eapply tb_use; [apply (popName_st r p m (A ++ U) C ms b "table"); [by apply single_elem|done|by apply ok_nonempty in HokC|done|]|].
    { eapply List.Forall_impl; [|exact Hbetween]. by intros []. }
    intros ? b1 H1. eapply tb_use; [apply (reset_at r p m C ms); [done|done|done|by intros E; rewrite E in HC]|]. intros ? b2 H2. by exists (ctx C ms).
  - apply (tb_query _ false).
    { apply (scope_kind_no isTableScopeMarker tableMark (lit "table") (m_tree b) (A ++ U) KTemplate C marks_table); [apply Hb|apply Hb| |by apply between_mark|done].
      apply List.Forall_app. split; [eapply List.Forall_impl; [|exact Hbetween]; by intros []|by constructor]. }
    cbn [negb]. destruct ms as [|m0 ms]; [done|]. eapply tb_use; [apply (assertTemplate_st _ _ _ _ _ _ _ Hb Hok)|]. by intros ? b' ->.
Qed.

Lemma captionEnd_ok r p ms b : At r p InCaption ms b -> wp processCaptionEndTagForInCaption (fun v b' => v = true /\ At r p InTable ms b') b.
Proof.
  intros Hat. destruct (at_split _ _ _ _ _ Hat) as (A & K & Hb & Hok & HA & Hs & HokK & Hc). destruct (shape_caption K ms HokK Hs Hc) as (C & -> & HokC & HcC & _).
  unfold processCaptionEndTagForInCaption. apply tb_bind, (tb_query _ true).
  { apply (scope_kind_yes isTableScopeMarker tableMark "caption" (m_tree b) A C marks_table); [by apply single_elem|apply Hb|apply Hb|]. eapply List.Forall_impl; [|exact HA]. by intros []. }
  cbn [negb]. eapply tb_use; [apply (implied_st _ _ _ _ _ _ Hb)|]. intros ? b1 (L & ks1 & E1 & HL & _ & H1).
  assert (Hks1 : exists A1, ks1 = A1 ++ KCaption :: C /\ Forall (fun k => loose k = true) A1).
  { destruct (prefix_split (fun k => negb (loose k)) L ks1 A KCaption C) as (A1 & -> & ->); [done| |done|]; [eapply List.Forall_impl; [|exact HL]; by intros k ->|].
    exists A1. split; [done|]. by apply List.Forall_app in HA as [_ ?]. }
  destruct Hks1 as (A1 & -> & HA1).
  eapply tb_use; [apply (popName_st r p InCaption A1 C ms b1 "caption"); [by apply single_elem|done|by apply ok_nonempty in HokC|done|]|].
  { eapply List.Forall_impl; [|exact HA1]. by intros []. }
  intros ? b2 H2. eapply tb_use; [by apply (clear_st r p InCaption C ms)|]. intros ? b3 H3. eapply tb_use; [by apply (goto_st _ _ _ InTable _ _ _ H3)|]. intros ? b4 H4.
  split; [done|]. by exists C.
Qed.

(** Popping to a part of the table that is at the base of the stack. *)
Lemma popBase_st r p m A k C ms b isMarker mark : marks isMarker mark -> St r p m (A ++ k :: C) ms b -> Forall (fun k => loose k = true) A -> mark k = true ->
  (forall k, loose k = true -> mark k = false) -> wp (stack (popWhile (fun item => Some (isMarker item)))) (fun _ b' => St r p m (k :: C) ms b') b.
Proof.
  intros Hm Hb HA Hk Hl. apply (popMark_st r p m A k C ms b isMarker mark Hm Hb); [by apply between_plain, loose_between| |done]. eapply List.Forall_impl; [|exact HA]. exact Hl.
Qed.

Definition rowMark (k : Kind) : bool := match k with KRow | KTemplate | KHtml => true | _ => false end.
Definition tableBodyMark (k : Kind) : bool := match k with KTableBody | KTemplate | KHtml => true | _ => false end.

Lemma marks_row : marks isTableRowScopeMarker rowMark.
Proof. intros item. apply kind_tableRowScope. Qed.
Lemma marks_tableBody : marks isTableBodyScopeMarker tableBodyMark.
Proof. intros item. apply kind_tableBodyScope. Qed.

Lemma trEnd_ok r p ms b : At r p InRow ms b ->
  wp processTrEndTagForInRow (fun v b' => if v then At r p InTableBody ms b'
    else b' = b /\ ms <> [] /\ exists A C, St r p InRow (A ++ KTemplate :: C) ms b /\ Forall (fun k => loose k = true) A) b.
Proof.
  intros Hat. destruct (at_split _ _ _ _ _ Hat) as (A & K & Hb & Hok & HA & Hs & HokK & Hc). unfold processTrEndTagForInRow. apply tb_bind.
  destruct (shape_row K ms HokK Hs Hc) as [(C & -> & HokC & HcC & HsC)|(C & ms' & -> & ->)].
  - apply (tb_query _ true).
    { apply (scope_kind_yes isTableScopeMarker tableMark "tr" (m_tree b) A C marks_table); [by apply single_elem|apply Hb|apply Hb|]. eapply List.Forall_impl; [|exact HA]. by intros []. }
    cbn [negb]. eapply tb_use; [apply (popBase_st r p InRow A KRow C ms b _ _ marks_row); [done|done|done|by intros []]|]. intros ? b1 H1.
    destruct (current_st r p InRow KRow C ms b1 H1) as (item & Ei & Hd & Hk & _). apply tb_bind, (tb_query _ item); [done|]. apply tb_bind, tb_assert; [by kind_of_item Hd Hk|].
    eapply tb_use; [apply (pop_st r p InRow KRow C ms b1); [done|done|by apply ok_nonempty in HokC]|]. intros ? b2 H2.
    eapply tb_use; [by apply (goto_st _ _ _ InTableBody _ _ _ H2)|]. intros ? b3 H3. by exists C.
  - apply (tb_query _ false).
    { apply (scope_kind_no isTableScopeMarker tableMark (lit "tr") (m_tree b) A KTemplate C marks_table); [apply Hb|apply Hb| |by apply between_mark, loose_between|done].
      apply List.Forall_app. split; [eapply List.Forall_impl; [|exact HA]; by intros []|by constructor]. }
    cbn [negb]. eapply tb_use; [apply (assertTemplate_st _ _ _ _ _ _ _ Hb Hok)|]. intros ? b' ->. split_and!; [done|done|by exists A, C].
Qed.

(** The current node is the root only when nothing else is open. *)
Lemma currentIsRoot_st r p m k ks ms b : St r p m (k :: ks) ms b -> k <> KHtml -> wp currentIsRootNode (fun v b' => v = false /\ b' = b) b.
Proof.
  intros Hb Hk. destruct (kinds_split (m_tree b) [] k ks (st_kinds _ _ _ _ _ _ Hb)) as (RA & g & RB & E & EA & Eg & EB). destruct RA; [|done]. cbn in E.
  unfold currentIsRootNode. apply (tb_query _ false); [|done]. unfold topNode, topStackItem, topRecord. rewrite E. cbn. f_equal. apply not_true_iff_false. intros Hn.
  apply Hk. rewrite <- Eg. apply (root_is_bottom (m_tree b) g); [apply Hb|rewrite E; left|done].
Qed.

Lemma colgroupEnd_ok r p ms b : At r p InColumnGroup ms b ->
  wp processColgroupEndTagForInColumnGroup (fun v b' => if v then At r p InTable ms b' /\ (buttons b' <= buttons b)%nat else b' = b /\ ms <> []) b.
Proof.
  intros (ks & Hb & Hok & Hc). unfold processColgroupEndTagForInColumnGroup. destruct (shape_colgroup ks ms Hok Hc) as [(C & -> & HokC & HcC & HsC)|(C & ms' & -> & ->)].
  - eapply tb_use; [by apply (currentIsRoot_st r p InColumnGroup KColgroup C ms)|]. intros v b' [-> ->]. destruct (current_st _ _ _ _ _ _ _ Hb) as (item & Ei & Hd & Hk & _).
    apply tb_bind, (tb_query _ item); [done|]. cbn [orb]. rewrite doc_node by done. kind_of_item Hd Hk.
    eapply tb_use; [apply (popTail_st r p InColumnGroup KColgroup C ms b); [done|done|by apply ok_nonempty in HokC]|]. intros ? b2 [H2 R2].
    apply tb_bind. cbn. split; [exists C; split; [by apply (st_goto r p InColumnGroup)|done]|]. unfold buttons. cbn. rewrite R2.
    destruct (records (m_tree b)) as [|g l]; [done|]. cbn. destruct (hasTarget _ _); cbn; lia.
  - eapply tb_use; [by apply (currentIsRoot_st r p InColumnGroup KTemplate C (InColumnGroup :: ms'))|]. intros v b' [-> ->]. destruct (current_st _ _ _ _ _ _ _ Hb) as (item & Ei & Hd & Hk & _).
    apply tb_bind, (tb_query _ item); [done|]. cbn [orb]. rewrite doc_node by done. kind_of_item Hd Hk.
    eapply tb_use; [apply (assertTemplate_st _ _ _ _ _ _ _ Hb Hok)|]. by intros ? b' ->.
Qed.

(** ** Groups of rows *)

Lemma tableBody_name item : docItem item -> kindOf item = KTableBody -> exists name, m_tokenLocalName item = Some name /\ isTableBodyContextTag name = true /\ hasTarget name item = true.
Proof.
  intros Hd Ek. destruct (item_cases item Hd) as [[E _]|(n & E1 & E2 & E3)]; [congruence|]. exists n. split_and!; [done| |].
  - destruct (nameKind_cases n) as [[E4 _]|(e & He & E4 & E5)]; [congruence|]. rewrite E4. assert (Es : snd e = KTableBody) by congruence.
    apply list_elem_of_In in He. cbn in He. repeat destruct He as [<-|He]; try discriminate Es; try done.
  - unfold hasTarget, matchesHTMLTag, hasLocalName. by rewrite E1, E2, !bool_decide_eq_true_2.
Qed.

Lemma tableBodyTag_names name : isTableBodyContextTag name = true -> name = lit "tbody" \/ name = lit "tfoot" \/ name = lit "thead".
Proof.
  intros H. unfold isTableBodyContextTag, oneOf in H. cbn [existsb] in H. rewrite !orb_true_iff in H.
  destruct H as [H|[H|[H|H]]]; [apply isTag_eq in H; tauto..|done].
Qed.

Lemma st_records r p m A k C ms b : St r p m (A ++ k :: C) ms b -> exists RA g RC, records (m_tree b) = RA ++ g :: RC /\ kindsOf RA = A /\ kindOf (m_item g) = k /\
  kindsOf RC = C /\ docItem (m_item g).
Proof.
  intros Hb. destruct (kinds_split (m_tree b) A k C (st_kinds _ _ _ _ _ _ Hb)) as (RA & g & RC & E & EA & Eg & EC). exists RA, g, RC. split_and!; try done.
  apply (doc_item (m_tree b)); [apply Hb|]. rewrite E. apply elem_of_app. right. left.
Qed.

(** Some scope of tables with the answer for the names of a kind. *)
Lemma tableScope_yes r p m A k C ms b RA g RC name : St r p m (A ++ k :: C) ms b -> records (m_tree b) = RA ++ g :: RC -> kindsOf RA = A ->
  Forall (fun k => betweenTables k = true /\ k <> nameKind name) A -> hasTarget name (m_item g) = true -> inTableScope (m_openElements (m_tree b)) name = Some true.
Proof.
  intros Hb E EA HA Hg. apply (scope_yes isTableScopeMarker name (m_tree b) RA g RC); [apply Hb|done|done|]. subst A.
  apply (kindsOf_forall (fun k => betweenTables k = true /\ k <> nameKind name)) in HA. rewrite list.Forall_forall in HA |- *. intros x Hx. destruct (HA x Hx) as [H1 H2]. split; [done|].
  rewrite marks_table; [by destruct (kindOf (m_item x))|]. apply (doc_item (m_tree b)); [apply Hb|]. rewrite E. apply elem_of_app. by left.
Qed.

Lemma tableScope_no r p m A X C ms b name : St r p m (A ++ X :: C) ms b -> Forall (fun k => betweenTables k = true /\ k <> nameKind name) A -> tableMark X = true ->
  X <> nameKind name -> inTableScope (m_openElements (m_tree b)) name = Some false.
Proof.
  intros Hb HA HX Hne. apply (scope_kind_no isTableScopeMarker tableMark name (m_tree b) A X C marks_table); [apply Hb|apply Hb| | |done].
  - apply List.Forall_app. split; [eapply List.Forall_impl; [|exact HA]; by intros k [_ ?]|by constructor].
  - apply between_mark. eapply List.Forall_impl; [|exact HA]. by intros k [? _].
Qed.

Lemma loose_not A name : Forall (fun k => loose k = true) A -> looseName name = false -> Forall (fun k => betweenTables k = true /\ k <> nameKind name) A.
Proof.
  intros HA Hn. eapply List.Forall_impl; [|exact HA]. intros k Hk. split; [by destruct k|]. intros ->. unfold looseName in Hn. congruence.
Qed.

(** Everything down to the group of rows is popped, and the group too. *)
Lemma closeTableBody_ok r p ms b n (k : TB unit) Q : At r p InTableBody ms b -> (forall b', At r p InTable ms b' -> wp k Q b') -> (ms <> [] -> Q tt b) ->
  wp (let! inside := tableBodyInTableScope in
      if negb inside then assertFragmentOrTemplate
      else stack popUntilTableBodyScopeMarker ;; let! body := currentTableBodyName in process (S n) (CallEndTag body) ;; k) Q b.
Proof.
  intros Hat Hk Hskip. destruct (at_split _ _ _ _ _ Hat) as (A & K & Hb & Hok & HA & Hs & HokK & Hc). unfold tableBodyInTableScope. apply tb_bind.
  destruct (shape_tableBody K ms HokK Hs Hc) as [(C & -> & HokC & HcC & HsC)|(C & ms' & -> & ->)].
  2: { assert (Hno : forall s, nameKind (lit s) = KTableBody -> inTableScope (m_openElements (m_tree b)) (lit s) = Some false).
       { intros s Es. apply (tableScope_no r p InTableBody A KTemplate C (InTableBody :: ms')); [done| |done|by rewrite Es]. apply loose_not; [done|]. unfold looseName. by rewrite Es. }
       apply (tb_query _ false); [by rewrite !Hno|]. cbn [negb]. eapply tb_mono; [apply (assertTemplate_st _ _ _ _ _ _ _ Hb Hok)|]. intros [] b' ->. by apply Hskip. }
  destruct (st_records _ _ _ _ _ _ _ _ Hb) as (RA & g & RC & Er & ERA & Eg & ERC & Hdg). destruct (tableBody_name _ Hdg Eg) as (name & En & Hname & Htarget).
  assert (Hyes : inTableScope (m_openElements (m_tree b)) name = Some true).
  { apply (tableScope_yes r p InTableBody A KTableBody C ms b RA g RC); try done. apply loose_not; [done|].
    destruct (tableBodyTag_names name Hname) as [->|[->| ->]]; by vm_compute. }
  assert (Htotal : forall s, exists v, inTableScope (m_openElements (m_tree b)) (lit s) = Some v).
  { intros s. destruct (inScope_total isTableScopeMarker (hasTarget (lit s)) (m_tree b)) as (v & Ev); [apply Hb|intros; by apply root_marker|by exists v]. }
  destruct (Htotal "tbody"%string) as (v1 & E1), (Htotal "thead"%string) as (v2 & E2). apply (tb_query _ true).
  { rewrite E1, E2. destruct v1; [done|]. destruct v2; [done|]. destruct (tableBodyTag_names name Hname) as [->|[->| ->]]; congruence. }
  cbn [negb]. eapply tb_use; [apply (popTo_st r p InTableBody A KTableBody C ms b _ g RA RC Hb Er ERA); [by apply between_plain, loose_between| |]|].
  { rewrite list.Forall_forall. intros x Hx. f_equal. rewrite marks_tableBody by (apply (doc_item (m_tree b)); [apply Hb|rewrite Er; apply elem_of_app; by left]).
    subst A. apply (kindsOf_forall (fun k => loose k = true)) in HA. rewrite list.Forall_forall in HA. specialize (HA x Hx). cbn in HA. by destruct (kindOf (m_item x)). }
  { f_equal. by rewrite marks_tableBody, Eg by done. }
  intros ? b1 [H1 R1]. unfold currentTableBodyName. apply tb_bind, tb_bind, (tb_query _ (m_item g)); [unfold topStackItem, topRecord; by rewrite R1|].
  apply tb_bind, (tb_ask _ name); [done|]. apply tb_bind, tb_assert; [done|].
  eapply tb_use with (P := fun _ b' => At r p InTable ms b'); [|intros ? b'; apply Hk].
  cbn [process]. unfold processEndTag. apply tb_bind, tb_get. rewrite (st_mode _ _ _ _ _ _ H1). unfold processEndTagForInTableBody. rewrite Hname.
  apply tb_bind, (tb_query _ true); [unfold inTableScope; rewrite R1; cbn; by rewrite Htarget|]. cbn [negb].
  eapply tb_use; [by apply (popBase_st r p InTableBody [] KTableBody C ms b1 _ _ marks_tableBody); [|constructor| |intros []]|]. intros ? b2 H2.
  eapply tb_use; [apply (pop_st r p InTableBody KTableBody C ms b2); [done|done|by apply ok_nonempty in HokC]|]. intros ? b3 H3.
  eapply tb_mono; [by apply (goto_st _ _ _ InTable _ _ _ H3)|]. intros ? b4 H4. by exists C.
Qed.

Lemma tbodyEnd_ok r p ms b startTag endTag name : At r p InTableBody ms b -> isTableBodyContextTag name = true ->
  wp (processEndTagForInTableBody startTag endTag name) (fun _ b' => Ready r p b') b.
Proof.
  intros Hat Hname. destruct (at_split _ _ _ _ _ Hat) as (A & K & Hb & Hok & HA & Hs & HokK & Hc). unfold processEndTagForInTableBody. rewrite Hname.
  destruct (inScope_total isTableScopeMarker (hasTarget name) (m_tree b)) as (v & Ev); [apply Hb|intros; by apply root_marker|].
  apply tb_bind, (tb_query _ v); [done|]. destruct v; cbn [negb]; [|by apply (at_ready r p InTableBody ms)].
  destruct (shape_tableBody K ms HokK Hs Hc) as [(C & -> & HokC & HcC & HsC)|(C & ms' & -> & ->)].
  - eapply tb_use; [by apply (popBase_st r p InTableBody A KTableBody C ms b _ _ marks_tableBody); [| | |intros []]|]. intros ? b2 H2.
    eapply tb_use; [apply (pop_st r p InTableBody KTableBody C ms b2); [done|done|by apply ok_nonempty in HokC]|]. intros ? b3 H3.
    eapply tb_mono; [by apply (goto_st _ _ _ InTable _ _ _ H3)|]. intros ? b4 H4. apply (at_ready r p InTable ms). by exists C.
  - exfalso. assert (Hno : inTableScope (m_openElements (m_tree b)) name = Some false); [|unfold inTableScope in Hno; congruence].
    apply (tableScope_no r p InTableBody A KTemplate C (InTableBody :: ms')); [done|apply loose_not; [done|]|done|];
      destruct (tableBodyTag_names name Hname) as [->|[->| ->]]; by vm_compute.
Qed.

(** ** Cells *)

Lemma cellTag_names name : isTableCellContextTag name = true -> name = lit "th" \/ name = lit "td".
Proof.
  intros H. unfold isTableCellContextTag, oneOf in H. cbn [existsb] in H. rewrite !orb_true_iff in H. destruct H as [H|[H|H]]; [apply isTag_eq in H; tauto..|done].
Qed.

Lemma cell_name item : docItem item -> kindOf item = KCell -> hasTarget (lit "td") item = negb (hasTarget (lit "th") item).
Proof.
  intros Hd Ek. destruct (item_cases item Hd) as [[E _]|(n & E1 & E2 & E3)]; [congruence|]. unfold hasTarget, matchesHTMLTag, hasLocalName. rewrite E1, E2.
  destruct (nameKind_cases n) as [[E4 _]|(e & He & E4 & E5)]; [congruence|]. rewrite E4. assert (Es : snd e = KCell) by congruence.
  apply list_elem_of_In in He. cbn in He. repeat destruct He as [<-|He]; try discriminate Es; try done.
Qed.

(** The cell that is open, and the answers of the scope for its names. *)
Lemma cell_st r p ms b : At r p InCell ms b -> exists A C RA g RC, St r p InCell (A ++ KCell :: C) ms b /\ records (m_tree b) = RA ++ g :: RC /\ kindsOf RA = A /\
  kindOf (m_item g) = KCell /\ docItem (m_item g) /\ Forall (fun k => loose k = true) A /\ okStack C ms /\ ctx C ms = InRow /\
  forall name, isTableCellContextTag name = true -> inTableScope (m_openElements (m_tree b)) name = Some (hasTarget name (m_item g)).
Proof.
  intros Hat. destruct (at_split _ _ _ _ _ Hat) as (A & K & Hb & Hok & HA & Hs & HokK & Hc). destruct (shape_cell K ms HokK Hs Hc) as (C & -> & HokC & HcC & HsC).
  destruct (st_records _ _ _ _ _ _ _ _ Hb) as (RA & g & RC & Er & ERA & Eg & ERC & Hdg). exists A, C, RA, g, RC. split_and!; try done. intros name Hname.
  assert (Hk : nameKind name = KCell) by (destruct (cellTag_names name Hname) as [->| ->]; by vm_compute).
  assert (Hl : Forall (fun k => betweenTables k = true /\ k <> nameKind name) A) by (apply loose_not; [done|]; unfold looseName; by rewrite Hk).
  destruct (hasTarget name (m_item g)) eqn:Et; [by apply (tableScope_yes r p InCell A KCell C ms b RA g RC)|].
  destruct (shape_chain C ms HokC HsC) as (U & X & D & EC & HU & HX); [by rewrite HcC|].
  assert (HX' : tableMark X = true /\ X <> KCell) by (destruct HX as [(-> & _)|(-> & _)]; done).
  subst A. rewrite EC in ERC. destruct (map_eq_app _ _ _ _ ERC) as (RU & RD & -> & <- & ED). destruct RD as [|x RD]; [done|]. injection ED as Ex _.
  assert (Hdoc : forall y, y ∈ records (m_tree b) -> docItem (m_item y)) by (intros y Hy; apply (doc_item (m_tree b)); [apply Hb|done]).
  assert (Hno : forall y, y ∈ records (m_tree b) -> kindOf (m_item y) <> KCell -> hasTarget name (m_item y) = false).
  { intros y Hy Hne. apply not_true_iff_false. intros Ht. apply Hne. by rewrite (target_docKind name _ (Hdoc y Hy) Ht). }
  assert (Hin : forall y, y ∈ RA ++ g :: RU ++ x :: RD -> y ∈ records (m_tree b)) by (intros y; by rewrite Er).
  unfold inTableScope. rewrite Er. change (RA ++ g :: RU ++ x :: RD) with (RA ++ [g] ++ RU ++ x :: RD). rewrite !app_assoc, inScope_skip.
  - cbn. rewrite Hno; [|apply Hin, elem_of_app; right; right; apply elem_of_app; right; left|rewrite Ex; apply HX']. rewrite marks_table, Ex; [by rewrite (proj1 HX')|].
    apply Hdoc, Hin, elem_of_app. right. right. apply elem_of_app. right. left.
  - rewrite !List.Forall_app. apply (kindsOf_forall (fun k => loose k = true)) in HA. apply (kindsOf_forall (fun k => k = KRow \/ k = KTableBody)) in HU. split_and!.
    + rewrite list.Forall_forall in HA |- *. intros y Hy. assert (Hr : y ∈ records (m_tree b)) by (apply Hin, elem_of_app; by left). specialize (HA y Hy). cbn in HA.
      split; [apply Hno; [done|]; by intros E; rewrite E in HA|]. rewrite marks_table by (by apply Hdoc). by destruct (kindOf (m_item y)).
    + constructor; [|constructor]. split; [done|]. by rewrite marks_table, Eg.
    + rewrite list.Forall_forall in HU |- *. intros y Hy. assert (Hr : y ∈ records (m_tree b)) by (apply Hin, elem_of_app; right; right; apply elem_of_app; by left).
      specialize (HU y Hy). cbn in HU. split; [apply Hno; [done|]; destruct HU as [->| ->]; done|]. rewrite marks_table by (by apply Hdoc). by destruct HU as [->| ->].
Qed.

(** Implied end tags, and everything down to the element is popped. *)
Lemma closeTo_st {X} r p m A k C ms b RA g RC name (o : TB X) Q : St r p m (A ++ k :: C) ms b -> records (m_tree b) = RA ++ g :: RC -> kindsOf RA = A ->
  Forall (fun k => loose k = true) A -> loose k = false -> plainKind k = true -> C <> [] -> nameKind name = k -> hasTarget name (m_item g) = true ->
  (forall b', St r p m C ms b' -> wp o Q b') -> wp (tree generateImpliedEndTags ;; stack (popUntilPopped name) ;; o) Q b.
Proof.
  intros Hb Er EA HA Hlk Hk HC Hn Hg Ho. pose proof (st_doc _ _ _ _ _ _ Hb) as Hd. pose proof (st_kinds _ _ _ _ _ _ Hb) as Ek. unfold kinds in Ek. rewrite Er, map_app, EA in Ek.
  apply app_inv_head in Ek. injection Ek as Eg ERC. subst A. assert (HRC : RC <> []) by (by intros ->; subst).
  assert (Hdg : docItem (m_item g)) by (apply (doc_item (m_tree b)); [done|]; rewrite Er; apply elem_of_app; right; left).
  destruct (close_doc (fun _ => false) (hasTarget name) (m_tree b) RA g RC Hd Er HRC) as (s1 & s2 & E1 & E2 & E3 & H2).
  - apply loose_kinds in HA. by apply loose_records.
  - unfold plainRecord. by rewrite Eg.
  - done.
  - apply (kindsOf_forall (fun k => loose k = true)) in HA. rewrite list.Forall_forall in HA |- *. intros x Hx. apply not_true_iff_false. intros Ht.
    assert (Hdx : docItem (m_item x)) by (apply (doc_item (m_tree b)); [done|]; rewrite Er; apply elem_of_app; by left).
    specialize (HA x Hx). cbn in HA. rewrite (target_docKind name _ Hdx Ht), Hn in HA. congruence.
  - left. apply not_true_iff_false. intros Hi. apply kind_implied in Hi; [|done]. rewrite Eg in Hi. congruence.
  - apply tb_bind, (tb_tree _ (set_open s1 (m_tree b))); [by rewrite generateImplied_eq, E1|]. apply tb_bind, (tb_stack _ s2); [done|]. apply Ho.
    apply (st_tree r p m (kindsOf RA ++ k :: C) ms b (set_open s2 (m_tree b))); [done|done|done|]. unfold kinds. cbn. by rewrite E3.
Qed.

Lemma cellEnd_ok r p ms b startTag endTag name : At r p InCell ms b -> isTableCellContextTag name = true ->
  wp (processEndTagForInCell startTag endTag name)
    (fun _ b' => if decide (inTableScope (m_openElements (m_tree b)) name = Some true) then At r p InRow ms b' else b' = b) b.
Proof.
  intros Hat Hname. destruct (cell_st r p ms b Hat) as (A & C & RA & g & RC & Hb & Er & ERA & Eg & Hdg & HA & HokC & HcC & Hscope).
  unfold processEndTagForInCell. rewrite Hname. apply tb_bind. eapply tb_query; [by apply Hscope|]. rewrite Hscope by done.
  destruct (decide (Some (hasTarget name (m_item g)) = Some true)) as [Et|Et]; destruct (hasTarget name (m_item g)) eqn:Ht; try done; cbn [negb].
  assert (Hk : nameKind name = KCell) by (destruct (cellTag_names name Hname) as [->| ->]; by vm_compute).
  apply (closeTo_st r p InCell A KCell C ms b RA g RC name); try done; [by apply ok_nonempty in HokC|]. intros b1 H1.
  eapply tb_use; [by apply (clear_st r p InCell C ms)|]. intros ? b2 H2. eapply tb_mono; [by apply (goto_st _ _ _ InRow _ _ _ H2)|]. intros ? b3 H3. by exists C.
Qed.

Lemma closeTheCell_ok r p ms b n : At r p InCell ms b -> wp (closeTheCell (fun name => process (S n) (CallEndTag name))) (fun _ b' => At r p InRow ms b') b.
Proof.
  intros Hat. destruct (cell_st r p ms b Hat) as (A & C & RA & g & RC & Hb & Er & ERA & Eg & Hdg & HA & HokC & HcC & Hscope).
  pose proof (cell_name _ Hdg Eg) as Hcell.
  assert (Hend : forall name, isTableCellContextTag name = true -> inTableScope (m_openElements (m_tree b)) name = Some true ->
    wp (process (S n) (CallEndTag name)) (fun _ b' => At r p InRow ms b') b).
  { intros name Hname Hs. cbn [process]. unfold processEndTag. apply tb_bind, tb_get. rewrite (at_mode _ _ _ _ _ Hat). eapply tb_mono; [by apply (cellEnd_ok r p ms)|].
    intros ? b'. cbv beta. by rewrite decide_True by done. }
  unfold closeTheCell. apply tb_bind, tb_assert; [by rewrite (at_mode _ _ _ _ _ Hat)|]. apply tb_bind. eapply tb_query; [by apply Hscope|]. apply tb_bind. eapply tb_query; [by apply Hscope|].
  pose proof (Hscope (lit "td") eq_refl) as E1. pose proof (Hscope (lit "th") eq_refl) as E2. rewrite Hcell in E1. rewrite Hcell.
  destruct (hasTarget (lit "th") (m_item g)); cbn [negb] in *.
  - apply tb_bind, tb_assert; [done|]. eapply tb_use; [by apply (Hend (lit "th"))|]. intros ? b' H'. apply tb_assert; [by rewrite (at_mode _ _ _ _ _ H')|done].
  - apply tb_bind, tb_assert; [done|]. by apply (Hend (lit "td")).
Qed.

(** ** End tags as in the body *)

Lemma brStart r p m B ms n : flexMode m = true -> keeps (Flex r p m B ms) (process (S n) (CallStartTag (fakeToken "br"))).
Proof.
  intros Hm b Hb. cbn [process]. apply (startTag_dispatch p m B ms (fun r => Flex r p m B ms) (fun r => Flex r p m B ms)); try done.
  - intros r0 r' b0. apply (flex_redirect r0).
  - intros r0 r' b0. apply (flex_redirect r0).
  - intros r' b' Hb'. unfold processStartTagForInBody, laterStartTagForInBody. cbn [fakeToken tokenName]. unfold isNumberedHeaderTag, isNonAnchorNonNobrFormattingTag. closed_tests.
    apply tb_bind, tb_get. cbn [tokenName]. closed_tests. apply (keeps_bind (Flex r' p m B ms)); [by apply keeps_reconstruct| |done]. intros _.
    apply keeps_bind; [by apply keeps_insertedSelfClosing|intros _; apply keeps_framesetNotOk].
Qed.

(** The end of a template, wherever it is. *)
Lemma templateEnd_at r p m ms b : At r p m ms b -> wp (processTemplateEndTag ;; ret tt) (fun _ b' => Ready r p b') b.
Proof.
  intros Hat. pose proof (at_settled _ _ _ _ _ Hat) as Hm. pose proof Hat as (ks & Hb & Hok & Hc). eapply tb_use; [by apply (templateEnd_ok r p m ks ms)|]. intros v b' Hv. destruct ms as [|m0 ms].
  - destruct Hv as [_ ->]. by apply (at_ready r p m []).
  - destruct Hv as (_ & m' & ks' & H' & Hf & _). by apply (ready_fits r p m' ks' ms).
Qed.

Lemma bodyEndAll r p m B ms n name b : flexMode m = true -> Flex r p m B ms b -> oneOf name ["body"; "html"]%string = false ->
  (name <> lit "template" -> head B <> Some (nameKind name)) ->
  wp (processEndTagForInBody (fun token => process (S (S n)) (CallStartTag token)) (fun name => process (S (S n)) (CallEndTag name)) name) (fun _ b' => Ready r p b') b.
Proof.
  intros Hm Hb Hno Hhead. assert (Hkeep : forall o : TB unit, keeps (Flex r p m B ms) o -> wp o (fun _ b' => Ready r p b') b) by (intros o Ho; by apply (keep_ready r p m B ms)).
  destruct (isTag name "p") eqn:Ep; [apply isTag_eq in Ep as ->; by apply Hkeep, bodyEndP|].
  destruct (isTag name "br") eqn:Ebr; [apply isTag_eq in Ebr as ->; apply Hkeep|].
  { intros b' Hb'. unfold processEndTagForInBody, isNumberedHeaderTag, isFormattingTag, isNonAnchorFormattingTag, isNonAnchorNonNobrFormattingTag. closed_tests. by apply (brStart r p m B ms (S n)). }
  destruct (isTag name "template") eqn:Et; [apply isTag_eq in Et as ->|].
  { unfold processEndTagForInBody, isNumberedHeaderTag, isFormattingTag, isNonAnchorFormattingTag, isNonAnchorNonNobrFormattingTag. closed_tests.
    apply (templateEnd_at r p m ms). by apply (flex_at r p m B). }
  apply Hkeep, bodyEnd; [|apply Hhead; intros ->; discriminate Et]. unfold plainEndTag, oneOf in *. cbn [existsb] in *. rewrite !orb_false_iff in Hno. destruct Hno as (-> & -> & _).
  by rewrite Ep, Ebr, Et.
Qed.

Lemma redirecting_ready {A} (o : TB A) r p m B ms b : Flex r p m B ms b -> wp o (fun _ b' => Ready true p b') (redirected true b) -> wp (redirecting o) (fun _ b' => Ready r p b') b.
Proof.
  intros Hb Ho. pose proof Hb as (_ & ks & _ & Hs). apply (tb_redirecting o r p m ks ms); [done|]. eapply tb_mono; [exact Ho|].
  intros a b' Hb'. by apply (ready_redirect true).
Qed.

(** The body is closed only when no template is open. *)
Lemma bodyScope_ok r p m ks ms b : St r p m ks ms b -> okStack ks ms -> inScope (m_openElements (m_tree b)) (lit "body") = Some true -> ms = [].
Proof.
  intros Hb Hok Hs. apply (ok_noTemplate ks ms Hok). intros Ht. destruct (inScope_found _ _ _ Hs) as (A & g & C & Er & Hg & HA). pose proof (st_kinds _ _ _ _ _ _ Hb) as Ek.
  pose proof (st_doc _ _ _ _ _ _ Hb) as Hd. assert (Hkg : kindOf (m_item g) = KBody) by (rewrite (target_kind (m_tree b) (lit "body") g Hd); [done|rewrite Er; apply elem_of_app; right; left|done]).
  unfold kinds in Ek. rewrite Er, map_app in Ek. cbn in Ek. rewrite Hkg in Ek. rewrite <- Ek in Ht.
  assert (HC : kindsOf C = [KHtml]).
  { symmetry in Ek. apply (ok_second ks ms (kindsOf A) KBody (kindsOf C) Hok Ek); [|done]. intros E. rewrite E in Ek. destruct (ok_bottom ks ms Hok) as (u & Eu). rewrite Ek in Eu.
    by apply app_inj_tail in Eu as [_ ?]. }
  rewrite HC in Ht. apply elem_of_app in Ht as [Ht|Ht]; [|apply elem_of_cons in Ht as [?|Ht]; [done|]; by apply list_elem_of_singleton in Ht]. apply list_elem_of_fmap in Ht as (x & Ex & Hx).
  rewrite list.Forall_forall in HA. destruct (HA x Hx) as [_ Hm]. rewrite kind_scope in Hm; [done| |by rewrite <- Ex]. apply (doc_item (m_tree b)); [done|]. rewrite Er. apply elem_of_app. by left.
Qed.

Lemma bodyEndTag_ok r p ms b : At r p InBody ms b ->
  wp processBodyEndTagForInBody (fun v b' => if v then exists ks, St r p AfterBody ks ms b' /\ fits AfterBody ks ms else b' = b) b.
Proof.
  intros (ks & Hb & Hok & Hc). unfold processBodyEndTagForInBody.
  destruct (inScope_total isScopeMarker (hasTarget (lit "body")) (m_tree b)) as (v & E); [apply Hb|intros; by apply root_marker|].
  apply tb_bind, (tb_query _ v); [done|]. destruct v; cbn [negb]; [|done]. pose proof (bodyScope_ok r p InBody ks ms b Hb Hok E) as ->.
  eapply tb_use; [by apply (goto_st _ _ _ AfterBody _ _ _ Hb)|]. intros ? b' H'. by exists ks.
Qed.

Lemma at_flexMode r p m ms b : At r p m ms b -> flexMode m = true -> exists B, Flex r p m B ms b /\ structuralTop B = true /\ ctx B ms = m /\ okStack B ms.
Proof.
  intros (ks & Hb & Hok & Hc) Hm. exists (base ks). split_and!; [apply flex_intro; [done|done|done|by left]|by apply (base_structural ks ms)|by rewrite ctx_base|by apply ok_base].
Qed.

(** The end tag of the innermost structural element belongs to the mode. *)
Lemma kindMode_names name B ms m : structuralTop B = true -> ctx B ms = m -> head B = Some (nameKind name) -> name <> lit "template" ->
  match m with
  | InBody => isTag name "body" = true | InTable => isTag name "table" = true | InCaption => isTag name "caption" = true
  | InTableBody => isTableBodyContextTag name = true | InRow => isTag name "tr" = true | InCell => isTableCellContextTag name = true
  | _ => True
  end.
Proof.
  intros Hs Hc Hh Hn. destruct B as [|k B]; [done|]. injection Hh as ->. destruct (nameKind_cases name) as [[E _]|(e & He & -> & E)]; [by rewrite E in Hs|]. rewrite E in *.
  apply list_elem_of_In in He. cbn in He. repeat (destruct He as [<-|He]; [cbn in Hs, Hc; subst m; by try done|]). done.
Qed.

Lemma inBodyEnd r p ms n name b : At r p InBody ms b -> wp (process (S (S (S n))) (CallEndTag name)) (fun _ b' => Ready r p b') b.
Proof.
  intros Hat. cbn [process]. unfold processEndTag. apply tb_bind, tb_get. rewrite (at_mode _ _ _ _ _ Hat). unfold endTagInBody.
  apply tb_bind, tb_assert; [by rewrite (at_mode _ _ _ _ _ Hat)|]. destruct (at_flexMode _ _ _ _ _ Hat eq_refl) as (B & HB & Hs & Hc & _).
  destruct (isTag name "body") eqn:E1.
  { unfold processEndTagForInBody. rewrite E1. eapply tb_use; [by apply (bodyEndTag_ok r p ms)|]. intros [|] b' Hv; [|subst; by apply (at_ready r p InBody ms)].
    destruct Hv as (ks & H' & Hf). by apply (ready_fits r p AfterBody ks ms). }
  destruct (isTag name "html") eqn:E2.
  { unfold processEndTagForInBody. rewrite E1, E2. eapply tb_use; [by apply (bodyEndTag_ok r p ms)|]. intros [|] b' Hv; [|subst; by apply (at_ready r p InBody ms)].
    destruct Hv as (ks & H' & Hf). cbn [process]. unfold processEndTag. apply tb_bind, tb_get. rewrite (st_mode _ _ _ _ _ _ H'). unfold endTagAfterBody. rewrite E2.
    apply tb_bind, tb_get. unfold isParsingFragment. rewrite (st_context _ _ _ _ _ _ H'). rewrite bool_decide_eq_false_2 by (by intros [? ?]).
    eapply tb_mono; [by apply (goto_st _ _ _ AfterAfterBody _ _ _ H')|]. intros ? b2 H2. by apply (ready_fits r p AfterAfterBody ks ms). }
  apply (bodyEndAll r p InBody B ms n); [done|done|unfold oneOf; cbn [existsb]; by rewrite E1, E2|]. intros Ht Hh.
  pose proof (kindMode_names name B ms InBody Hs Hc Hh Ht). congruence.
Qed.

(** ** End tags in tables *)

Lemma process_endTag n name : process (S n) (CallEndTag name) = processEndTag (fun token => process n (CallStartTag token)) (fun name => process n (CallEndTag name)) name.
Proof. done. Qed.

Ltac in_mode Hat := cbn [Nat.add]; rewrite process_endTag; unfold processEndTag; apply tb_bind, tb_get; rewrite (at_mode _ _ _ _ _ Hat).

Lemma tableEndReady r p m ms b : At r p m ms b -> tableMode m = true -> wp (processTableEndTagForInTable ;; ret tt) (fun _ b' => Ready r p b') b.
Proof.
  intros Hat Hm. eapply tb_use; [by apply (tableEnd_ok r p m ms)|]. intros [|] b' Hv; [destruct Hv as (m' & H' & _); by apply (at_ready r p m' ms)|].
  destruct Hv as [-> _]. by apply (at_ready r p m ms).
Qed.

(** End tags that are processed as in a table, in one of its modes. *)
Lemma asTableEnd r p m ms n name b : At r p m ms b -> tableMode m = true -> (m = InTableBody -> isTableBodyContextTag name = false) -> (m = InRow -> isTag name "tr" = false) ->
  wp (processEndTagForInTable (fun token => process (S (S n)) (CallStartTag token)) (fun name => process (S (S n)) (CallEndTag name)) name) (fun _ b' => Ready r p b') b.
Proof.
  intros Hat Hm H1 H2. assert (Hflex : flexMode m = true) by (unfold flexMode; by rewrite Hm, orb_true_r). unfold processEndTagForInTable.
  destruct (isTag name "table") eqn:Et; [by apply (tableEndReady r p m ms)|]. name_case E1; [by apply (at_ready r p m ms)|].
  destruct (at_flexMode _ _ _ _ _ Hat Hflex) as (B & HB & Hs & Hc & _). apply (redirecting_ready _ r p m B ms); [done|]. apply (flex_redirect r true) in HB as Hb'.
  rewrite !orb_false_iff in E1. apply (bodyEndAll true p m B ms n); [done|done|unfold oneOf; cbn [existsb]; rewrite !orb_false_iff; tauto|]. intros Hn Hh.
  pose proof (kindMode_names name B ms m Hs Hc Hh Hn) as Hk. destruct m; try discriminate Hm; [congruence|by rewrite H1 in Hk|by rewrite H2 in Hk].
Qed.

Lemma inTableEnd r p ms n name b : At r p InTable ms b -> wp (process (S (S (S n))) (CallEndTag name)) (fun _ b' => Ready r p b') b.
Proof. intros Hat. in_mode Hat. by apply (asTableEnd r p InTable ms n). Qed.

Lemma inTableBodyEnd r p ms n name b : At r p InTableBody ms b -> wp (process (S (S (S (S n)))) (CallEndTag name)) (fun _ b' => Ready r p b') b.
Proof.
  intros Hat. in_mode Hat. destruct (isTableBodyContextTag name) eqn:E1; [by apply (tbodyEnd_ok r p ms)|]. unfold processEndTagForInTableBody. rewrite E1.
  destruct (isTag name "table") eqn:E2.
  { apply (closeTableBody_ok r p ms b (S (S n))); [done| |intros _; by apply (at_ready r p InTableBody ms)]. intros b' Hb'. by apply (inTableEnd r p ms n). }
  name_case E3; [by apply (at_ready r p InTableBody ms)|]. by apply (asTableEnd r p InTableBody ms (S n)).
Qed.

Lemma inRowEnd r p ms n name b : At r p InRow ms b -> wp (process (S (S (S (S (S n))))) (CallEndTag name)) (fun _ b' => Ready r p b') b.
Proof.
  intros Hat. in_mode Hat. unfold processEndTagForInRow. destruct (isTag name "tr") eqn:E1.
  { eapply tb_use; [by apply (trEnd_ok r p ms)|]. intros [|] b' Hv; [by apply (at_ready r p InTableBody ms)|]. destruct Hv as [-> _]. by apply (at_ready r p InRow ms). }
  destruct (isTag name "table") eqn:E2.
  { eapply tb_use; [by apply (trEnd_ok r p ms)|]. intros [|] b' Hv.
    - apply tb_bind, tb_assert; [by rewrite (at_mode _ _ _ _ _ Hv)|]. by apply (inTableBodyEnd r p ms n).
    - destruct Hv as (-> & Hms & _). destruct Hat as (ks & Hb & Hok & Hc). destruct ms as [|m0 ms]; [done|]. eapply tb_mono; [apply (assertTemplate_st _ _ _ _ _ _ _ Hb Hok)|].
      intros ? b' ->. apply (at_ready r p InRow (m0 :: ms)). by exists ks. }
  name_case E3.
  { destruct (inScope_total isTableScopeMarker (hasTarget name) (m_tree b)) as (v & Ev); [by apply (at_doc _ _ _ _ _ Hat)|intros; by apply root_marker|].
    apply tb_bind, (tb_query _ v); [done|]. destruct v; cbn [negb]; [|by apply (at_ready r p InRow ms)].
    assert (Htr : wp (process (S (S (S (S n)))) (CallEndTag (lit "tr"))) (fun _ b' => At r p InTableBody ms b') b).
    { in_mode Hat. unfold processEndTagForInRow. closed_tests. eapply tb_use; [by apply (trEnd_ok r p ms)|]. intros [|] b' Hv; [done|]. exfalso. destruct Hv as (_ & _ & A & C & Hb & HA).
      assert (Hno : inTableScope (m_openElements (m_tree b)) name = Some false); [|unfold inTableScope in Hno; congruence].
      apply (tableScope_no r p InRow A KTemplate C ms); [done|apply loose_not; [done|]|done|]; destruct (tableBodyTag_names name E3) as [->|[->| ->]]; by vm_compute. }
    eapply tb_use; [exact Htr|]. intros ? b' H'. apply tb_bind, tb_assert; [by rewrite (at_mode _ _ _ _ _ H')|]. by apply (inTableBodyEnd r p ms n). }
  name_case E4; [by apply (at_ready r p InRow ms)|]. by apply (asTableEnd r p InRow ms (S (S n))).
Qed.

(** In a cell the table and the row are in scope, unless there is a template. *)
Lemma cell_scope r p ms b name : At r p InCell ms b -> isTag name "table" || isTag name "tr" = true -> inTableScope (m_openElements (m_tree b)) name = Some false ->
  inTableScope (m_openElements (m_tree b)) (lit "template") = Some true.
Proof.
  intros Hat Hn Hno. destruct (at_split _ _ _ _ _ Hat) as (A & K & Hb & Hok & HA & Hs & HokK & Hc). destruct (shape_cell K ms HokK Hs Hc) as (C & -> & HokC & HcC & HsC).
  assert (Htemplate : forall U D, A ++ KCell :: C = U ++ KTemplate :: D -> Forall (fun k => betweenTables k = true) U -> inTableScope (m_openElements (m_tree b)) (lit "template") = Some true).
  { intros U D E HU. rewrite E in Hb. apply (scope_kind_yes isTableScopeMarker tableMark "template" (m_tree b) U D marks_table); [by apply single_elem|apply Hb|apply Hb|].
    eapply List.Forall_impl; [|exact HU]. by intros []. }
  assert (Hyes : forall s U D, s ∈ singleNames -> name = lit s -> A ++ KCell :: C = U ++ nameKind (lit s) :: D -> Forall (fun k => betweenTables k = true /\ k <> nameKind (lit s)) U -> False).
  { intros s U D Hin -> E HU. rewrite E in Hb. pose proof (scope_kind_yes isTableScopeMarker tableMark s (m_tree b) U D marks_table Hin (st_doc _ _ _ _ _ _ Hb) (st_kinds _ _ _ _ _ _ Hb)) as Hy.
    unfold inTableScope in Hno. rewrite Hy in Hno; [done|]. eapply List.Forall_impl; [|exact HU]. intros k [H1 H2]. split; [done|by destruct k]. }
  pose proof (loose_between A HA) as HA'. apply orb_true_iff in Hn as [Hn|Hn]; apply isTag_eq in Hn.
  - destruct (shape_chain C ms HokC HsC) as (U & X & D & -> & HU & [(-> & _)|(-> & _)]); [by rewrite HcC| |].
    + exfalso. apply (Hyes "table"%string (A ++ KCell :: U) D); [by apply single_elem|done|by rewrite <- app_assoc|]. apply List.Forall_app. split; [eapply List.Forall_impl; [|exact HA]; by intros []|].
      constructor; [done|]. eapply List.Forall_impl; [|exact HU]. by intros k [->| ->].
    + apply (Htemplate (A ++ KCell :: U) D); [by rewrite <- app_assoc|]. apply List.Forall_app. split; [done|]. constructor; [done|by apply chain_between].
  - destruct (shape_row C ms HokC HsC HcC) as [(D & -> & _)|(D & ms' & -> & _)].
    + exfalso. apply (Hyes "tr"%string (A ++ [KCell]) D); [by apply single_elem|done|by rewrite <- app_assoc|]. apply List.Forall_app. split; [eapply List.Forall_impl; [|exact HA]; by intros []|by constructor].
    + apply (Htemplate (A ++ [KCell]) D); [by rewrite <- app_assoc|]. apply List.Forall_app. split; [done|by constructor].
Qed.

Lemma inCellEnd r p ms n name b : At r p InCell ms b -> wp (process (6 + n) (CallEndTag name)) (fun _ b' => Ready r p b') b.
Proof.
  intros Hat. in_mode Hat. destruct (isTableCellContextTag name) eqn:E1.
  { eapply tb_mono; [by apply (cellEnd_ok r p ms)|]. intros ? b' Hv. cbv beta in Hv. destruct (decide _); [by apply (at_ready r p InRow ms)|subst; by apply (at_ready r p InCell ms)]. }
  unfold processEndTagForInCell. rewrite E1. name_case E2; [by apply (at_ready r p InCell ms)|]. name_case E3.
  { assert (Htotal : forall nm, exists v, inTableScope (m_openElements (m_tree b)) nm = Some v).
    { intros nm. destruct (inScope_total isTableScopeMarker (hasTarget nm) (m_tree b)) as (v & Ev); [by apply (at_doc _ _ _ _ _ Hat)|intros; by apply root_marker|by exists v]. }
    destruct (Htotal name) as (v & Ev). apply tb_bind, (tb_query _ v); [done|]. destruct v; cbn [negb].
    - eapply tb_use; [by apply (closeTheCell_ok r p ms)|]. intros ? b' H'. by apply (inRowEnd r p ms n).
    - apply tb_bind, tb_get. destruct (Htotal (lit "template")) as (w & Ew). apply tb_bind, (tb_query _ w); [done|].
      apply tb_assert; [|by apply (at_ready r p InCell ms)]. destruct (isTableBodyContextTag name) eqn:E4; [done|]. rewrite orb_false_r in E3. rewrite (cell_scope r p ms b name) in Ew by done.
      by injection Ew as <-. }
  destruct (at_flexMode _ _ _ _ _ Hat eq_refl) as (B & HB & Hs & Hc & _). rewrite !orb_false_iff in E2.
  apply (bodyEndAll r p InCell B ms (3 + n)); [done|done|unfold oneOf; cbn [existsb]; rewrite !orb_false_iff; tauto|]. intros Hn Hh.
  pose proof (kindMode_names name B ms InCell Hs Hc Hh Hn). congruence.
Qed.

Lemma inCaptionEnd r p ms n name b : At r p InCaption ms b -> wp (process (4 + n) (CallEndTag name)) (fun _ b' => Ready r p b') b.
Proof.
  intros Hat. in_mode Hat. unfold endTagInCaption. destruct (isTag name "caption") eqn:E1.
  { eapply tb_use; [by apply (captionEnd_ok r p ms)|]. intros v b' [_ H']. by apply (at_ready r p InTable ms). }
  destruct (isTag name "table") eqn:E2.
  { eapply tb_use; [by apply (captionEnd_ok r p ms)|]. intros v b' [-> H']. by apply (inTableEnd r p ms n). }
  name_case E3; [by apply (at_ready r p InCaption ms)|].
  destruct (at_flexMode _ _ _ _ _ Hat eq_refl) as (B & HB & Hs & Hc & _). unfold oneOf in E3. cbn [existsb] in E3. rewrite !orb_false_iff in E3.
  apply (bodyEndAll r p InCaption B ms (S n)); [done|done|unfold oneOf; cbn [existsb]; rewrite !orb_false_iff; tauto|]. intros Hn Hh.
  pose proof (kindMode_names name B ms InCaption Hs Hc Hh Hn). congruence.
Qed.

Lemma assertTemplate_at r p m ms b : At r p m ms b -> ms <> [] -> wp assertFragmentOrTemplate (fun _ b' => Ready r p b') b.
Proof.
  intros Hat Hms. pose proof Hat as (ks & Hb & Hok & Hc). destruct ms as [|m0 ms]; [done|]. eapply tb_mono; [apply (assertTemplate_st _ _ _ _ _ _ _ Hb Hok)|].
  intros ? b' ->. by apply (at_ready r p m (m0 :: ms)).
Qed.

Lemma inColumnGroupEnd r p ms n name b : At r p InColumnGroup ms b -> wp (process (4 + n) (CallEndTag name)) (fun _ b' => Ready r p b') b.
Proof.
  intros Hat. in_mode Hat. unfold endTagInColumnGroup. name_case E1.
  { eapply tb_use; [by apply (colgroupEnd_ok r p ms)|]. intros [|] b' Hv; [by apply (at_ready r p InTable ms), Hv|]. destruct Hv as [-> _]. by apply (at_ready r p InColumnGroup ms). }
  name_case E2; [by apply (at_ready r p InColumnGroup ms)|]. name_case E3; [by apply (templateEnd_at r p InColumnGroup ms)|].
  eapply tb_use; [by apply (colgroupEnd_ok r p ms)|]. intros [|] b' Hv; [by apply (inTableEnd r p ms n), Hv|]. destruct Hv as [-> Hms]. by apply (assertTemplate_at r p InColumnGroup ms).
Qed.

(** End tags in all modes for the content of the body and of tables. *)
Lemma contentEnd r p m ms n name b : At r p m ms b -> flexMode m = true \/ m = InColumnGroup -> wp (process (6 + n) (CallEndTag name)) (fun _ b' => Ready r p b') b.
Proof.
  intros Hat Hm. destruct m; try (by destruct Hm).
  - by apply (inBodyEnd r p ms (3 + n)).
  - by apply (inTableEnd r p ms (3 + n)).
  - by apply (inCaptionEnd r p ms (2 + n)).
  - by apply (inColumnGroupEnd r p ms (2 + n)).
  - by apply (inTableBodyEnd r p ms (2 + n)).
  - by apply (inRowEnd r p ms (1 + n)).
  - by apply (inCellEnd r p ms n).
Qed.

(** ** Select elements *)

Definition InSel (r : bool) (p : Fixed) (m : InsertionMode) (ms : list InsertionMode) (b : HTMLTreeBuilder) : Prop :=
  (m = InSelect \/ m = InSelectInTable) /\ exists ks, St r p m ks ms b /\ okStack ks ms /\ ctx ks ms = InSelect.

Lemma sel_ready r p m ms b : InSel r p m ms b -> Ready r p b.
Proof. intros ([->| ->] & ks & Hb & Hok & Hc); by apply (ready_fits _ _ _ _ _ _ Hb). Qed.

Lemma sel_mode r p m ms b : InSel r p m ms b -> m_insertionMode b = m.
Proof. intros (_ & ks & Hb & _). apply Hb. Qed.

(** The options that are open, and the select element. *)
Lemma sel_split r p m ms b : InSel r p m ms b -> exists A C, St r p m (A ++ KSelect :: C) ms b /\ Forall (fun k => k = KOption) A /\ okStack C ms /\ flexMode (ctx C ms) = true /\
  settled m = true /\ okStack (A ++ KSelect :: C) ms.
Proof.
  intros (Hm & ks & Hb & Hok & Hc). destruct (shape_select ks ms Hok Hc) as (A & C & -> & HA & HokC & HcC). exists A, C. split_and!; try done. by destruct Hm as [->| ->].
Qed.

Lemma sel_intro r p m A C ms b : m = InSelect \/ m = InSelectInTable -> St r p m (A ++ KSelect :: C) ms b -> Forall (fun k => k = KOption) A -> okStack C ms -> flexMode (ctx C ms) = true ->
  InSel r p m ms b.
Proof.
  intros Hm Hb HA HokC HcC. split; [done|]. exists (A ++ KSelect :: C). assert (Hc : ctx (A ++ KSelect :: C) ms = InSelect) by (rewrite ctx_loose; [done|]; eapply List.Forall_impl; [|exact HA]; by intros k ->).
  split_and!; [done| |done]. clear Hb Hc. induction HA as [|k A -> HA IH]; [by apply ok_select|]. apply ok_option; [|done]. rewrite ctx_loose; [done|]. eapply List.Forall_impl; [|exact HA]. by intros k ->.
Qed.

Lemma option_kind item : docItem item -> isHTMLOptionElement (m_node item) || isHTMLOptGroupElement (m_node item) = true -> kindOf item = KOption.
Proof.
  intros Hd H. unfold isHTMLOptionElement, isHTMLOptGroupElement in H. rewrite !doc_node in H by done. apply orb_true_iff in H as [H|H]; by rewrite (tag_kind item _ Hd H).
Qed.

(** An option is popped when it is the current element. *)
Lemma popOption_ok r p m ms b (test : ContainerNode -> bool) : InSel r p m ms b -> (forall n, test n = true -> isHTMLOptionElement n || isHTMLOptGroupElement n = true) ->
  wp (let! item := currentItem in if test (m_node item) then stack pop else ret tt) (fun _ b' => InSel r p m ms b') b.
Proof.
  intros Hs Ht. pose proof Hs as (Hm & _). destruct (sel_split _ _ _ _ _ Hs) as (A & C & Hb & HA & HokC & HcC & Hset & Hok). destruct A as [|k A].
  - destruct (current_st _ _ _ _ _ _ _ Hb) as (item & Ei & Hd & Hk & _). apply tb_bind, (tb_query _ item); [done|]. destruct (test (m_node item)) eqn:Et; [|exact Hs].
    apply Ht, option_kind in Et; [congruence|done].
  - destruct (current_st _ _ _ _ _ _ _ Hb) as (item & Ei & Hd & Hk & _). apply tb_bind, (tb_query _ item); [done|]. destruct (test (m_node item)); [|exact Hs].
    apply Forall_cons_iff in HA as [-> HA]. eapply tb_mono; [apply (pop_st r p m KOption (A ++ KSelect :: C) ms b Hb); [done|by destruct A]|]. intros ? b' H'. by apply (sel_intro r p m A C ms).
Qed.

Lemma process_sel r p m ms n name b Q : InSel r p m ms b -> (m = InSelectInTable -> inSelectInTableClosing name = false) ->
  wp (endTagInSelect (fun name => process n (CallEndTag name)) name) Q b -> wp (process (S n) (CallEndTag name)) Q b.
Proof.
  intros Hs Hn H. rewrite process_endTag. unfold processEndTag. apply tb_bind, tb_get. rewrite (sel_mode _ _ _ _ _ Hs). destruct Hs as ([->| ->] & _); [done|].
  unfold endTagInSelectInTable. by rewrite Hn.
Qed.

Lemma selectEnd_ok r p m ms n b : InSel r p m ms b -> wp (process (S n) (CallEndTag (lit "select"))) (fun _ b' => exists m', At r p m' ms b' /\ flexMode m' = true) b.
Proof.
  intros Hs. apply (process_sel r p m ms); [done|by intros _|]. destruct (sel_split _ _ _ _ _ Hs) as (A & C & Hb & HA & HokC & HcC & Hset & Hok).
  unfold endTagInSelect. closed_tests. apply tb_bind, (tb_query _ true).
  { apply (scope_kind_yes isSelectScopeMarker _ "select" (m_tree b) A C marks_select); [by apply single_elem|apply Hb|apply Hb|]. eapply List.Forall_impl; [|exact HA]. by intros k ->. }
  cbn [negb]. eapply tb_use; [apply (popName_st r p m A C ms b "select"); [by apply single_elem|done|by apply ok_nonempty in HokC|done|]|].
  { eapply List.Forall_impl; [|exact HA]. by intros k ->. }
  intros ? b1 H1. eapply tb_mono; [apply (reset_at r p m C ms); [done|done|done|by intros E; rewrite E in HcC]|]. intros ? b2 H2. by exists (ctx C ms).
Qed.

Lemma optionEnd_ok r p m ms n b : InSel r p m ms b -> wp (process (S n) (CallEndTag (lit "option"))) (fun _ b' => InSel r p m ms b') b.
Proof.
  intros Hs. apply (process_sel r p m ms); [done|by intros _|]. unfold endTagInSelect. closed_tests.
  apply (popOption_ok r p m ms b isHTMLOptionElement Hs). by intros n' ->.
Qed.

Lemma optgroupEnd_ok r p m ms n b : InSel r p m ms b -> wp (process (S (S n)) (CallEndTag (lit "optgroup"))) (fun _ b' => InSel r p m ms b') b.
Proof.
  intros Hs. apply (process_sel r p m ms); [done|by intros _|]. unfold endTagInSelect. closed_tests.
  assert (Hpop : forall b, InSel r p m ms b -> wp (let! item := currentItem in if isHTMLOptGroupElement (m_node item) then stack pop else ret tt) (fun _ b' => InSel r p m ms b') b).
  { intros b' H'. apply popOption_ok; [done|]. intros n' ->. by rewrite orb_true_r. }
  destruct (sel_split _ _ _ _ _ Hs) as (A & C & Hb & HA & HokC & HcC & Hset & Hok).
  assert (Hcur : exists item below, topStackItem (m_openElements (m_tree b)) = Some item /\ (isHTMLOptionElement (m_node item) = true -> oneBelowTop (m_openElements (m_tree b)) = Some below)).
  { destruct A as [|k A]; destruct (st_records _ _ _ [] _ _ _ _ Hb) as (RA & g & RC & Er & ERA & Eg & ERC & Hdg); (destruct RA; [|done]); cbn [app] in Er.
    - exists (m_item g), None. split; [unfold topStackItem, topRecord; by rewrite Er|]. intros Ho. pose proof (option_kind _ Hdg) as Hk. rewrite Ho in Hk. rewrite Hk in Eg by done. done.
    - destruct RC as [|x RC]; [by destruct A|]. exists (m_item g). eexists. split; [unfold topStackItem, topRecord; by rewrite Er|]. intros _. unfold oneBelowTop. by rewrite Er. }
  destruct Hcur as (item & below & Ei & Hbelow).
  assert (Hfirst : wp (let! item := currentItem in if isHTMLOptionElement (m_node item) then let! below := query oneBelowTop in match below with
      | Some below => if isHTMLOptGroupElement (m_node below) then processFakeEndTag (fun name => process (S n) (CallEndTag name)) "option" else ret tt | None => ret tt end else ret tt)
      (fun _ b' => InSel r p m ms b') b).
  { apply tb_bind, (tb_query _ item); [done|]. destruct (isHTMLOptionElement (m_node item)) eqn:Eo; [|exact Hs]. apply tb_bind, (tb_query _ below); [by apply Hbelow|].
    destruct below as [below|]; [|exact Hs]. destruct (isHTMLOptGroupElement (m_node below)); [|exact Hs]. by apply optionEnd_ok. }
  unfold wp, bind in Hfirst |- *. destruct (currentItem b) as [[item' b1]|]; [|done]. destruct (if isHTMLOptionElement (m_node item') then _ else _) as [[? b2]|]; [|done].
  by apply Hpop.
Qed.

Lemma inSelectEnd r p m ms n name b : InSel r p m ms b -> (m = InSelectInTable -> inSelectInTableClosing name = false) ->
  wp (process (S (S n)) (CallEndTag name)) (fun _ b' => Ready r p b') b.
Proof.
  intros Hs Hn. destruct (isTag name "optgroup") eqn:E1; [apply isTag_eq in E1 as ->; eapply tb_mono; [by apply (optgroupEnd_ok r p m ms n)|intros ? b'; apply sel_ready]|].
  destruct (isTag name "option") eqn:E2; [apply isTag_eq in E2 as ->; eapply tb_mono; [by apply (optionEnd_ok r p m ms (S n))|intros ? b'; apply sel_ready]|].
  destruct (isTag name "select") eqn:E3; [apply isTag_eq in E3 as ->; eapply tb_mono; [by apply (selectEnd_ok r p m ms (S n))|intros ? b' (m' & H' & _); by apply (at_ready r p m' ms)]|].
  apply (process_sel r p m ms); [done|done|]. unfold endTagInSelect. rewrite E1, E2, E3. destruct (isTag name "template"); [|by apply (sel_ready r p m ms)].
  destruct (sel_split _ _ _ _ _ Hs) as (A & C & Hb & HA & HokC & HcC & Hset & Hok). eapply tb_use; [apply (templateEnd_ok _ _ _ _ _ _ Hb Hset Hok)|]. intros v b' Hv. destruct ms as [|m0 ms].
  - destruct Hv as [_ ->]. by apply (sel_ready r p m []).
  - destruct Hv as (_ & m' & ks' & H' & Hf & _). by apply (ready_fits r p m' ks' ms).
Qed.

Lemma anySelectEnd r p m ms n name b : InSel r p m ms b -> wp (process (7 + n) (CallEndTag name)) (fun _ b' => Ready r p b') b.
Proof.
  intros Hs. destruct (decide (m = InSelectInTable)) as [->|Hm]; [|by apply (inSelectEnd r p m ms (5 + n))].
  destruct (inSelectInTableClosing name) eqn:Ec; [|by apply (inSelectEnd r p InSelectInTable ms (5 + n))].
  cbn [Nat.add]. rewrite process_endTag. unfold processEndTag. apply tb_bind, tb_get. rewrite (sel_mode _ _ _ _ _ Hs). unfold endTagInSelectInTable. rewrite Ec.
  destruct (inScope_total isTableScopeMarker (hasTarget name) (m_tree b)) as (v & Ev); [destruct Hs as (_ & ks & Hb & _); apply Hb|intros; by apply root_marker|].
  apply tb_bind, (tb_query _ v); [done|]. destruct v; [|by apply (sel_ready r p InSelectInTable ms)].
  eapply tb_use; [by apply (selectEnd_ok r p InSelectInTable ms)|]. intros ? b' (m' & H' & Hf). apply (contentEnd r p m' ms n); [done|by left].
Qed.

End End.
