(* ===== verification/HTMLTreeBuilderTables.v ===== *)
(** * Safety of start tags in tables

    Start tags in the insertion modes for tables, captions, columns, rows, cells and
    select elements lead to a state that fits its mode. *)
From S2P Require Import Prelude HTMLTokenizer CompatibilityMode HTMLStackItem HTMLElementStack HTMLElementStackProps HTMLElementStackProtocol HTMLFormattingElementList HTMLFormattingElementProps HTMLConstructionSite HTMLConstructionSiteProps AdoptionAgency HTMLTreeBuilderState HTMLTreeBuilder HTMLTreeBuilderKinds HTMLTreeBuilderSite HTMLTreeBuilderStack HTMLTreeBuilderRules HTMLTreeBuilderBody HTMLTreeBuilderStates HTMLTreeBuilderMoves HTMLTreeBuilderStart HTMLTreeBuilderEnd.
From Stdlib Require Import String ZArith Lia.
From stdpp Require Import base list numbers option.
#[local] Open Scope Z_scope.
#[local] Open Scope builder_scope.
Import HTMLStackItem HTMLElementStack HTMLConstructionSite CompatibilityMode HTMLTreeBuilderState HTMLTreeBuilder.

Lemma process_startTag `{env : Environment} n token : process (S n) (CallStartTag token) =
  processStartTag (fun token => process n (CallStartTag token)) (fun name => process n (CallEndTag name)) (fun c => process n (CallCharacters c)) token.
Proof. done. Qed.

Ltac start_in Hat := cbn [Nat.add]; rewrite process_startTag; unfold processStartTag; apply tb_bind, tb_get; rewrite (at_mode _ _ _ _ _ Hat).

(** ** What is required of a start tag in a state *)

(** Framesets are not allowed in templates, and [k] bounds the number of open buttons. *)
Record allowed (ms : list InsertionMode) (k : nat) (token : Token) (b : HTMLTreeBuilder) : Prop := mkAllowed {
  allowed_token : tokenOK token;
  allowed_frameset : tokenName token = lit "frameset" -> ms = [];
  allowed_button : tokenName token = lit "button" -> (buttons b <= k)%nat
}.

(** A name that is not that of a button. *)
Lemma allowed_other ms k token b ms' b' : allowed ms k token b -> tokenName token <> lit "button" -> tokenName token <> lit "frameset" -> allowed ms' k token b'.
Proof. intros [] H1 H2. by constructor. Qed.

Lemma allowed_same ms k token b b' : allowed ms k token b -> records (m_tree b') = records (m_tree b) -> allowed ms k token b'.
Proof. intros [H1 H2 H3] E. constructor; [done|done|]. unfold buttons in *. by rewrite E. Qed.

Lemma allowed_fake ms k s b : isTag (lit s) "isindex" = false -> isTag (lit s) "frameset" = false -> isTag (lit s) "button" = false -> allowed ms k (fakeToken s) b.
Proof.
  intros H1 H2 H3. assert (Hne : forall x, isTag (lit s) x = false -> lit s <> lit x) by (intros x H E; apply isTag_eq in E; congruence).
  constructor; [constructor; [apply NoDup_nil_2|]|..]; intros E; exfalso; [exact (Hne _ H1 E)|exact (Hne _ H2 E)|exact (Hne _ H3 E)].
Qed.

Section Tables.
Context `{env : Environment}.
Hypothesis pluginElements : forall n, isPluginElement n = true -> exists s, s ∈ ["applet"; "embed"; "object"]%string /\ nodeName n = htmlName s.
Hypothesis textLength : forall parent l position, (position < length l)%nat -> (createWithLengthLimit parent l position <= length l - position)%nat.
Hypothesis searchable : searchableIndexIntroduction <> [].

(** As in the body. *)
Lemma asBodyStart r p m ms n k token b : At r p m ms b -> flexMode m = true -> allowed ms k token b -> (k <= n)%nat -> (tokenName token = lit "table" -> bodyMode m = true) ->
  wp (processStartTagForInBody (fun token => process (2 + n) (CallStartTag token)) (fun name => process (2 + n) (CallEndTag name))
    (fun c => process (2 + n) (CallCharacters c)) token) (fun _ b' => Ready r p b') b.
Proof.
  intros Hat Hm [A1 A2 A3] Hk Ht. destruct (at_flexMode _ _ _ _ _ Hat Hm) as (B & HB & _). by apply (bodyStart pluginElements textLength searchable r p m B ms n k).
Qed.

(** The start tags that close cells and captions. *)
Definition tablePart (name : AtomicString) : bool :=
  isCaptionColOrColgroupTag name || isTableBodyContextTag name || isTableCellContextTag name || isTag name "tr".

Lemma bodyModeStart r p m ms n k token b : At r p m ms b -> bodyMode m = true -> m = InBody \/ tablePart (tokenName token) = false -> allowed ms k token b -> (k <= n)%nat ->
  wp (process (3 + n) (CallStartTag token)) (fun _ b' => Ready r p b') b.
Proof.
  intros Hat Hm Hpart Hal Hk. assert (Hflex : flexMode m = true) by (unfold flexMode; by rewrite Hm). start_in Hat.
  pose proof (asBodyStart r p m ms n k token b Hat Hflex Hal Hk (fun _ => Hm)) as H. destruct m; try discriminate Hm.
  - unfold startTagInBody. apply tb_bind, tb_assert; [by rewrite (at_mode _ _ _ _ _ Hat)|done].
  - destruct Hpart as [?|Hpart]; [done|]. unfold startTagInCaption. unfold tablePart in Hpart. by rewrite Hpart.
  - destruct Hpart as [?|Hpart]; [done|]. unfold startTagInCell. unfold tablePart in Hpart. rewrite !orb_false_iff in Hpart. destruct Hpart as (((-> & ->) & ->) & ->). done.
Qed.

(** ** Opening parts of tables *)

(** A part that has a mode of its own. *)
Lemma openAs r p m m' ks ms b token : St r p m ks ms b -> settled m = true -> plainKind (nameKind (tokenName token)) && safeName (tokenName token) = true ->
  okStack (nameKind (tokenName token) :: ks) ms -> ctx (nameKind (tokenName token) :: ks) ms = m' ->
  wp (tree (insertHTMLElement token) ;; setInsertionMode m') (fun _ b' => At r p m' ms b') b.
Proof.
  intros Hb Hm Hn Hok Hc. apply andb_true_iff in Hn as [H1 H2]. eapply tb_use; [apply (push_st pluginElements r p m ks ms); [done|done|by apply safe_attachable]|]. intros ? b2 H3.
  eapply tb_mono; [by apply (goto_st _ _ _ m' _ _ _ H3)|]. intros ? b3 H4. by exists (nameKind (tokenName token) :: ks).
Qed.

(** The innermost structural element of a state, where something can be opened. *)
Lemma toBase r p m ms b isMarker mark : marks isMarker mark -> At r p m ms b -> (forall k, loose k = true -> mark k = false) ->
  (forall k C, structuralTop (k :: C) = true -> okStack (k :: C) ms -> ctx (k :: C) ms = m -> mark k = true) ->
  wp (stack (popWhile (fun item => Some (isMarker item)))) (fun _ b' => exists K, St r p m K ms b' /\ structuralTop K = true /\ okStack K ms /\ ctx K ms = m) b.
Proof.
  intros Hm Hat Hl Hk. destruct (at_split _ _ _ _ _ Hat) as (A & K & Hb & Hok & HA & Hs & HokK & Hc). destruct K as [|k C]; [done|].
  eapply tb_mono; [apply (popBase_st r p m A k C ms b isMarker mark Hm Hb HA); [by apply (Hk k C)|done]|]. intros ? b' H'. by exists (k :: C).
Qed.

Lemma toTable r p ms b : At r p InTable ms b ->
  wp (stack popUntilTableScopeMarker) (fun _ b' => exists K, St r p InTable K ms b' /\ structuralTop K = true /\ okStack K ms /\ ctx K ms = InTable) b.
Proof.
  intros Hat. apply (toBase r p InTable ms b isTableScopeMarker tableMark marks_table Hat); [by intros []|]. intros k C H1 H2 H3.
  destruct (shape_table _ _ H2 H1 H3) as [(? & [= -> ->] & _)|(? & ? & [= -> ->] & _)]; done.
Qed.

Lemma toTableBody r p ms b : At r p InTableBody ms b ->
  wp (stack popUntilTableBodyScopeMarker) (fun _ b' => exists K, St r p InTableBody K ms b' /\ structuralTop K = true /\ okStack K ms /\ ctx K ms = InTableBody) b.
Proof.
  intros Hat. apply (toBase r p InTableBody ms b isTableBodyScopeMarker tableBodyMark marks_tableBody Hat); [by intros []|]. intros k C H1 H2 H3.
  destruct (shape_tableBody _ _ H2 H1 H3) as [(? & [= -> ->] & _)|(? & ? & [= -> ->] & _)]; done.
Qed.

Lemma toRow r p ms b : At r p InRow ms b ->
  wp (stack popUntilTableRowScopeMarker) (fun _ b' => exists K, St r p InRow K ms b' /\ structuralTop K = true /\ okStack K ms /\ ctx K ms = InRow) b.
Proof.
  intros Hat. apply (toBase r p InRow ms b isTableRowScopeMarker rowMark marks_row Hat); [by intros []|]. intros k C H1 H2 H3.
  destruct (shape_row _ _ H2 H1 H3) as [(? & [= -> ->] & _)|(? & ? & [= -> ->] & _)]; done.
Qed.

Lemma cellKind name : isTableCellContextTag name = true -> nameKind name = KCell /\ safeName name = true.
Proof. intros H. destruct (cellTag_names name H) as [->| ->]; by vm_compute. Qed.

Lemma tableBodyKind name : isTableBodyContextTag name = true -> nameKind name = KTableBody /\ safeName name = true.
Proof. intros H. destruct (tableBodyTag_names name H) as [->|[->| ->]]; by vm_compute. Qed.

(** Cells in rows, rows in groups, groups and columns in tables. *)
Lemma cellStart r p ms n token b : At r p InRow ms b -> isTableCellContextTag (tokenName token) = true ->
  wp (process (1 + n) (CallStartTag token)) (fun _ b' => At r p InCell ms b') b.
Proof.
  intros Hat Hn. destruct (cellKind _ Hn) as [Hk Hsafe]. start_in Hat. unfold startTagInRow. rewrite Hn. eapply tb_use; [by apply (toRow r p ms)|]. intros ? b1 (K & H1 & Hs & Hok & Hc).
  eapply tb_use; [apply (push_st pluginElements r p InRow K ms); [done|by rewrite Hk|by apply safe_attachable]|]. intros ? b2 H2. rewrite Hk in H2.
  eapply tb_use; [by apply (goto_st _ _ _ InCell _ _ _ H2)|]. intros ? b3 H3. eapply tb_mono; [apply (marker_st _ _ _ _ _ _ H3)|]. intros ? b4 H4. exists (KCell :: K). split_and!; [done| |done].
  by apply ok_cell.
Qed.

Lemma rowStart r p ms n token b : At r p InTableBody ms b -> tokenName token = lit "tr" -> wp (process (1 + n) (CallStartTag token)) (fun _ b' => At r p InRow ms b') b.
Proof.
  intros Hat Hn. start_in Hat. unfold startTagInTableBody. rewrite Hn. closed_tests. eapply tb_use; [by apply (toTableBody r p ms)|]. intros ? b1 (K & H1 & Hs & Hok & Hc).
  apply (openAs r p InTableBody InRow K ms); [done|done|by rewrite Hn|rewrite Hn; by apply ok_row|by rewrite Hn].
Qed.

Lemma tableBodyStart r p ms n token b : At r p InTable ms b -> isTableBodyContextTag (tokenName token) = true ->
  wp (process (1 + n) (CallStartTag token)) (fun _ b' => At r p InTableBody ms b') b.
Proof.
  intros Hat Hn. destruct (tableBodyKind _ Hn) as [Hk Hsafe]. start_in Hat. unfold processStartTagForInTable. rewrite Hn.
  assert (Hother : isTag (tokenName token) "caption" = false /\ isTag (tokenName token) "colgroup" = false /\ isTag (tokenName token) "col" = false)
    by (destruct (tableBodyTag_names _ Hn) as [->|[->| ->]]; by vm_compute). destruct Hother as (-> & -> & ->).
  eapply tb_use; [by apply (toTable r p ms)|]. intros ? b1 (K & H1 & Hs & Hok & Hc).
  apply (openAs r p InTable InTableBody K ms); [done|done|by rewrite Hk, Hsafe|rewrite Hk; by apply ok_tablebody|by rewrite Hk].
Qed.

Lemma colgroupStart r p ms n token b : At r p InTable ms b -> tokenName token = lit "colgroup" -> wp (process (1 + n) (CallStartTag token)) (fun _ b' => At r p InColumnGroup ms b') b.
Proof.
  intros Hat Hn. start_in Hat. unfold processStartTagForInTable. rewrite Hn. closed_tests. eapply tb_use; [by apply (toTable r p ms)|]. intros ? b1 (K & H1 & Hs & Hok & Hc).
  apply (openAs r p InTable InColumnGroup K ms); [done|done|by rewrite Hn|rewrite Hn; by apply ok_colgroup|by rewrite Hn].
Qed.

Lemma captionStart r p ms n token b : At r p InTable ms b -> tokenName token = lit "caption" -> wp (process (1 + n) (CallStartTag token)) (fun _ b' => At r p InCaption ms b') b.
Proof.
  intros Hat Hn. start_in Hat. unfold processStartTagForInTable. rewrite Hn. closed_tests. eapply tb_use; [by apply (toTable r p ms)|]. intros ? b1 (K & H1 & Hs & Hok & Hc).
  eapply tb_use; [apply (marker_st _ _ _ _ _ _ H1)|]. intros ? b2 H2. apply (openAs r p InTable InCaption K ms); [done|done|by rewrite Hn|rewrite Hn; by apply ok_caption|by rewrite Hn].
Qed.

Lemma colStart r p ms n token b : At r p InColumnGroup ms b -> tokenName token = lit "col" -> wp (process (1 + n) (CallStartTag token)) (fun _ b' => At r p InColumnGroup ms b') b.
Proof.
  intros Hat Hn. start_in Hat. unfold startTagInColumnGroup. rewrite Hn. closed_tests. destruct Hat as (ks & Hb & Hok & Hc).
  eapply tb_mono; [apply (selfClosing_st pluginElements r p InColumnGroup ks ms); [done|rewrite Hn; by apply safe_attachable]|]. intros ? b' H'. by exists ks.
Qed.

(** Rows and cells imply what is between them and the table. *)
Lemma rowOrCellStart r p ms n token b : At r p InTableBody ms b -> isTableCellContextTag (tokenName token) || isTag (tokenName token) "tr" = true ->
  wp (process (2 + n) (CallStartTag token)) (fun _ b' => Ready r p b') b.
Proof.
  intros Hat Hn. destruct (isTag (tokenName token) "tr") eqn:Etr.
  { apply isTag_eq in Etr. eapply tb_mono; [by apply (rowStart r p ms (1 + n))|]. intros ? b'. apply at_ready. }
  rewrite orb_false_r in Hn. start_in Hat. unfold startTagInTableBody. rewrite Etr, Hn. unfold processFakeStartTag. eapply tb_use; [by apply (rowStart r p ms n)|]. intros ? b1 H1.
  apply tb_bind, tb_assert; [by rewrite (at_mode _ _ _ _ _ H1)|]. eapply tb_mono; [by apply (cellStart r p ms n)|]. intros ? b'. apply at_ready.
Qed.

Lemma templateStart_at r p m ms token b : At r p m ms b -> tokenName token = lit "template" -> wp (processTemplateStartTag token) (fun _ b' => Ready r p b') b.
Proof.
  intros Hat Hn. pose proof (at_settled _ _ _ _ _ Hat) as Hm. destruct Hat as (ks & Hb & Hok & Hc). eapply tb_mono; [by apply (templateStart_ok pluginElements r p m ks ms)|].
  intros ? b' H'. apply (ready_fits _ _ _ _ _ _ H'). split; [|done]. by apply ok_template.
Qed.

(** Start tags as in a table, other than its parts. *)
Lemma asTableStart r p m ms n k token b : At r p m ms b -> tableMode m = true -> tablePart (tokenName token) = false -> allowed ms k token b -> (k <= n)%nat ->
  wp (processStartTagForInTable (fun token => process (3 + n) (CallStartTag token)) (fun name => process (3 + n) (CallEndTag name))
    (fun c => process (3 + n) (CallCharacters c)) token) (fun _ b' => Ready r p b') b.
Proof.
  intros Hat Hm Hpart Hal Hk. assert (Hflex : flexMode m = true) by (unfold flexMode; by rewrite Hm, orb_true_r).
  destruct (at_flexMode _ _ _ _ _ Hat Hflex) as (B & HB & _). pose proof Hpart as Hp. unfold tablePart, isCaptionColOrColgroupTag, oneOf in Hp. cbn [existsb] in Hp. rewrite !orb_false_iff in Hp.
  destruct Hp as ((((P1 & P2 & P3 & _) & P4) & P5) & P6). unfold processStartTagForInTable. rewrite P1, P3, P2, P4, P5, P6. cbn [orb].
  name_case E1.
  { apply isTag_eq in E1. eapply tb_use; [by apply (tableEnd_ok r p m ms)|]. intros [|] b' Hv.
    - destruct Hv as (m' & H' & Hm'). apply (bodyModeStart r p m' ms n k); [done|done|by right|by apply (allowed_other ms k token b); [|rewrite E1..]|done].
    - destruct Hv as [-> Hms]. by apply (assertTemplate_at r p m ms). }
  name_case E2.
  { unfold inHeadIgnored. eapply tb_use; [apply (inHeadStart pluginElements r p m B ms (2 + n)); [done|by_names|by intros E; rewrite E in E2]|]. by intros v b' [_ H']. }
  name_case E3; [apply andb_true_iff in E3 as [E3 _]; apply isTag_eq in E3; apply (keep_ready r p m B ms); [|done]; apply keeps_insertedSelfClosing; [done|by rewrite E3]|].
  name_case E4.
  { apply isTag_eq in E4. apply tb_bind, tb_get. destruct (flex_st _ _ _ _ _ _ HB) as (ks & Hs & Hok & _). eapply tb_use; [by apply (formTest r p m ks ms)|]. intros v b' [-> _].
    destruct v; cbn [negb]; [|by apply (at_ready r p m ms)]. eapply tb_use; [by apply (insertFormStart pluginElements r p m B ms)|]. intros ? b1 (H1 & _ & item & Ei & Hl).
    eapply tb_mono; [by apply (popLoose r p m B ms b1 item)|]. intros ? b2. apply ready_flex. }
  name_case E5; [apply isTag_eq in E5; by apply (templateStart_at r p m ms)|].
  apply (redirecting_ready _ r p m B ms); [done|]. apply (asBodyStart true p m ms (1 + n) k); [by apply (at_redirect r)|done|by apply (allowed_same ms k token b)|lia|].
  intros E. rewrite E in E1. discriminate E1.
Qed.

(** ** Start tags by mode *)

Lemma inTableStart r p ms n k token b : At r p InTable ms b -> allowed ms k token b -> (k <= n)%nat -> wp (process (4 + n) (CallStartTag token)) (fun _ b' => Ready r p b') b.
Proof.
  intros Hat Hal Hk. destruct (tablePart (tokenName token)) eqn:Hpart.
  2: { start_in Hat. by apply (asTableStart r p InTable ms n k). }
  destruct (isTag (tokenName token) "caption") eqn:E1; [apply isTag_eq in E1; eapply tb_mono; [by apply (captionStart r p ms (3 + n))|intros ? b'; apply at_ready]|].
  destruct (isTag (tokenName token) "colgroup") eqn:E2; [apply isTag_eq in E2; eapply tb_mono; [by apply (colgroupStart r p ms (3 + n))|intros ? b'; apply at_ready]|].
  destruct (isTableBodyContextTag (tokenName token)) eqn:E3; [eapply tb_mono; [by apply (tableBodyStart r p ms (3 + n))|intros ? b'; apply at_ready]|].
  start_in Hat. unfold processStartTagForInTable. rewrite E1, E2, E3. name_case E4.
  { apply isTag_eq in E4. unfold processFakeStartTag. eapply tb_use; [by apply (colgroupStart r p ms (2 + n))|]. intros ? b1 H1. apply tb_bind, tb_assert; [by rewrite (at_mode _ _ _ _ _ H1)|].
    eapply tb_mono; [by apply (colStart r p ms (2 + n))|]. intros ? b'. apply at_ready. }
  assert (Hn : isTableCellContextTag (tokenName token) || isTag (tokenName token) "tr" = true).
  { unfold tablePart, isCaptionColOrColgroupTag, oneOf in Hpart. cbn [existsb] in Hpart. rewrite E1, E4, E2, E3 in Hpart. exact Hpart. }
  rewrite Hn. unfold processFakeStartTag. eapply tb_use; [by apply (tableBodyStart r p ms (2 + n))|]. intros ? b1 H1. apply tb_bind, tb_assert; [by rewrite (at_mode _ _ _ _ _ H1)|].
  by apply (rowOrCellStart r p ms (1 + n)).
Qed.

(** A part of a table is none of the names with conditions. *)
Lemma tablePart_allowed name : tablePart name = true -> name <> lit "button" /\ name <> lit "frameset".
Proof. intros H. split; intros ->; discriminate H. Qed.

Lemma allowed_part ms k token b ms' b' : allowed ms k token b -> tablePart (tokenName token) = true -> allowed ms' k token b'.
Proof. intros H Hp. destruct (tablePart_allowed _ Hp). by apply (allowed_other ms k token b). Qed.

Lemma inTableBodyStart r p ms n k token b : At r p InTableBody ms b -> allowed ms k token b -> (k <= n)%nat -> wp (process (5 + n) (CallStartTag token)) (fun _ b' => Ready r p b') b.
Proof.
  intros Hat Hal Hk. destruct (isTableCellContextTag (tokenName token) || isTag (tokenName token) "tr") eqn:E1; [by apply (rowOrCellStart r p ms (3 + n))|].
  apply orb_false_iff in E1 as [E1 E2]. start_in Hat. unfold startTagInTableBody. rewrite E2, E1. name_case E3.
  { assert (Hpart : tablePart (tokenName token) = true) by (unfold tablePart; by rewrite E3).
    apply (closeTableBody_ok r p ms b (3 + n)); [done| |intros _; by apply (at_ready r p InTableBody ms)]. intros b' H'. apply (inTableStart r p ms n k); [done|by apply (allowed_part ms k token b)|done]. }
  apply (asTableStart r p InTableBody ms (1 + n) k); [done|done|unfold tablePart; by rewrite E3, E1, E2|done|lia].
Qed.

Lemma inRowStart r p ms n k token b : At r p InRow ms b -> allowed ms k token b -> (k <= n)%nat -> wp (process (6 + n) (CallStartTag token)) (fun _ b' => Ready r p b') b.
Proof.
  intros Hat Hal Hk. destruct (isTableCellContextTag (tokenName token)) eqn:E1; [eapply tb_mono; [by apply (cellStart r p ms (5 + n))|intros ? b'; apply at_ready]|].
  start_in Hat. unfold startTagInRow. rewrite E1. name_case E2.
  { assert (Hpart : tablePart (tokenName token) = true) by (unfold tablePart; rewrite E1; rewrite !orb_true_iff in E2; rewrite orb_false_r, !orb_true_iff; tauto).
    eapply tb_use; [by apply (trEnd_ok r p ms)|]. intros [|] b' Hv.
    - apply tb_bind, tb_assert; [by rewrite (at_mode _ _ _ _ _ Hv)|]. apply (inTableBodyStart r p ms n k); [done|by apply (allowed_part ms k token b)|done].
    - destruct Hv as (-> & Hms & _). by apply (assertTemplate_at r p InRow ms). }
  apply (asTableStart r p InRow ms (2 + n) k); [done|done| |done|lia]. unfold tablePart. rewrite E1. rewrite !orb_false_iff in E2. destruct E2 as ((-> & ->) & ->). done.
Qed.

Lemma inCellStart r p ms n k token b : At r p InCell ms b -> allowed ms k token b -> (k <= n)%nat -> wp (process (7 + n) (CallStartTag token)) (fun _ b' => Ready r p b') b.
Proof.
  intros Hat Hal Hk. destruct (tablePart (tokenName token)) eqn:Hpart; [|apply (bodyModeStart r p InCell ms (4 + n) k); [done|done|by right|done|lia]].
  start_in Hat. unfold startTagInCell. replace (isCaptionColOrColgroupTag (tokenName token) || isTableCellContextTag (tokenName token) || isTag (tokenName token) "tr" || isTableBodyContextTag (tokenName token)) with true
    by (symmetry; unfold tablePart in Hpart; rewrite !orb_true_iff in Hpart; rewrite !orb_true_iff; tauto).
  assert (Hscope : wp cellInTableScope (fun v b' => v = true /\ b' = b) b).
  { destruct (cell_st r p ms b Hat) as (A & C & RA & g & RC & Hb & Er & ERA & Eg & Hdg & HA & HokC & HcC & Hscope). unfold cellInTableScope. apply (tb_query _ true); [|done].
    rewrite !Hscope by done. rewrite (cell_name _ Hdg Eg). by destruct (hasTarget (lit "th") (m_item g)). }
  eapply tb_use; [exact Hscope|]. intros v b' [-> ->]. cbn [negb]. eapply tb_use; [by apply (closeTheCell_ok r p ms)|]. intros ? b1 H1.
  apply (inRowStart r p ms n k); [done|by apply (allowed_part ms k token b)|done].
Qed.

Lemma inCaptionStart r p ms n k token b : At r p InCaption ms b -> allowed ms k token b -> (k <= n)%nat -> wp (process (5 + n) (CallStartTag token)) (fun _ b' => Ready r p b') b.
Proof.
  intros Hat Hal Hk. destruct (tablePart (tokenName token)) eqn:Hpart; [|apply (bodyModeStart r p InCaption ms (2 + n) k); [done|done|by right|done|lia]].
  start_in Hat. unfold startTagInCaption. unfold tablePart in Hpart. rewrite Hpart. eapply tb_use; [by apply (captionEnd_ok r p ms)|]. intros v b' [-> H'].
  apply (inTableStart r p ms n k); [done|by apply (allowed_part ms k token b)|done].
Qed.

Lemma html_at r p m ms token b : At r p m ms b -> wp (processHtmlStartTagForInBody token) (fun _ b' => Ready r p b') b.
Proof.
  intros (ks & Hb & Hok & Hc). eapply tb_mono; [by apply (html_st r p m ks ms)|]. intros ? b' H'. apply (at_ready r p m ms). by exists ks.
Qed.


Lemma inColumnGroupStart r p ms n k token b : At r p InColumnGroup ms b -> allowed ms k token b -> (k <= n)%nat -> wp (process (5 + n) (CallStartTag token)) (fun _ b' => Ready r p b') b.
Proof.
  intros Hat [A1 A2 A3] Hk. destruct (isTag (tokenName token) "col") eqn:E1; [apply isTag_eq in E1; eapply tb_mono; [by apply (colStart r p ms (4 + n))|intros ? b'; apply at_ready]|].
  start_in Hat. unfold startTagInColumnGroup. name_case E2; [by apply (html_at r p InColumnGroup ms)|]. rewrite E1.
  name_case E3; [apply isTag_eq in E3; by apply (templateStart_at r p InColumnGroup ms)|].
  eapply tb_use; [by apply (colgroupEnd_ok r p ms)|]. intros [|] b' Hv.
  - destruct Hv as [Hv Hle]. apply (inTableStart r p ms n k); [done| |done]. constructor; [done|done|]. intros E. specialize (A3 E). lia.
  - destruct Hv as [-> Hms]. by apply (assertTemplate_at r p InColumnGroup ms).
Qed.

(** Start tags in all modes for the content of the body and of tables. *)
Lemma contentStart r p m ms n k token b : At r p m ms b -> flexMode m = true \/ m = InColumnGroup -> allowed ms k token b -> (k <= n)%nat ->
  wp (process (7 + n) (CallStartTag token)) (fun _ b' => Ready r p b') b.
Proof.
  intros Hat Hm Hal Hk. destruct m; try (by destruct Hm).
  - apply (bodyModeStart r p InBody ms (4 + n) k); [done|done|by left|done|lia].
  - apply (inTableStart r p ms (3 + n) k); [done|done|lia].
  - apply (inCaptionStart r p ms (2 + n) k); [done|done|lia].
  - apply (inColumnGroupStart r p ms (2 + n) k); [done|done|lia].
  - apply (inTableBodyStart r p ms (2 + n) k); [done|done|lia].
  - apply (inRowStart r p ms (1 + n) k); [done|done|lia].
  - by apply (inCellStart r p ms n k).
Qed.

(** ** Select elements *)

Lemma sel_push r p m ms b token : InSel r p m ms b -> nameKind (tokenName token) = KOption -> safeName (tokenName token) = true ->
  wp (tree (insertHTMLElement token)) (fun _ b' => Ready r p b') b.
Proof.
  intros Hs Hk Hn. pose proof Hs as (Hm & _). destruct (sel_split _ _ _ _ _ Hs) as (A & C & Hb & HA & HokC & HcC & Hset & Hok).
  eapply tb_mono; [apply (push_st pluginElements r p m _ ms _ token Hb); [by rewrite Hk|by apply safe_attachable]|]. intros ? b' H'. rewrite Hk in H'.
  apply (sel_ready r p m ms). apply (sel_intro r p m (KOption :: A) C ms); [done|done|by constructor|done|done].
Qed.

Lemma sel_closeOption r p m ms n b : InSel r p m ms b -> wp (closeOption (fun name => process (S n) (CallEndTag name))) (fun _ b' => InSel r p m ms b') b.
Proof.
  intros Hs. pose proof Hs as (_ & ks & Hb & Hok & _). destruct ks as [|k ks]; [by apply ok_nonempty in Hok|]. destruct (current_st _ _ _ _ _ _ _ Hb) as (item & Ei & _).
  unfold closeOption. apply tb_bind, (tb_query _ item); [done|]. destruct (isHTMLOptionElement (m_node item)); [by apply optionEnd_ok|exact Hs].
Qed.

Lemma sel_closeOptgroup r p m ms n b : InSel r p m ms b -> wp (closeOptgroup (fun name => process (S (S n)) (CallEndTag name))) (fun _ b' => InSel r p m ms b') b.
Proof.
  intros Hs. pose proof Hs as (_ & ks & Hb & Hok & _). destruct ks as [|k ks]; [by apply ok_nonempty in Hok|]. destruct (current_st _ _ _ _ _ _ _ Hb) as (item & Ei & _).
  unfold closeOptgroup. apply tb_bind, (tb_query _ item); [done|]. destruct (isHTMLOptGroupElement (m_node item)); [by apply optgroupEnd_ok|exact Hs].
Qed.

Lemma inSelectStart r p m ms n token b : InSel r p m ms b -> tokenOK token ->
  wp (startTagInSelect (fun token => process (7 + n) (CallStartTag token)) (fun name => process (7 + n) (CallEndTag name)) token) (fun _ b' => Ready r p b') b.
Proof.
  intros Hs Htok. pose proof Hs as (Hm & ks & Hb & Hok & Hc). assert (Hset : settled m = true) by (by destruct Hm as [->| ->]). unfold startTagInSelect.
  assert (Hfits : fits m ks ms) by (destruct Hm as [->| ->]; by split).
  name_case E1; [eapply tb_mono; [by apply (html_st r p m ks ms)|]; intros ? b' H'; by apply (ready_fits r p m ks ms)|].
  name_case E2; [apply isTag_eq in E2; eapply tb_use; [by apply (sel_closeOption r p m ms)|]; intros ? b1 H1; apply (sel_push r p m ms); [done|by rewrite E2|by rewrite E2]|].
  name_case E3.
  { apply isTag_eq in E3. eapply tb_use; [by apply (sel_closeOption r p m ms)|]. intros ? b1 H1. eapply tb_use; [by apply (sel_closeOptgroup r p m ms)|]. intros ? b2 H2.
    apply (sel_push r p m ms); [done|by rewrite E3|by rewrite E3]. }
  name_case E4; [eapply tb_mono; [by apply (selectEnd_ok r p m ms)|]; intros ? b' (m' & H' & _); by apply (at_ready r p m' ms)|].
  name_case E5.
  { destruct (sel_split _ _ _ _ _ Hs) as (A & C & Hb' & HA & _). apply tb_bind, (tb_query _ true).
    { apply (scope_kind_yes isSelectScopeMarker _ "select" (m_tree b) A C marks_select); [by apply single_elem|apply Hb'|apply Hb'|]. eapply List.Forall_impl; [|exact HA]. by intros k ->. }
    cbn [negb]. eapply tb_use; [by apply (selectEnd_ok r p m ms)|]. intros ? b1 (m' & H1 & Hm'). apply (contentStart r p m' ms n 0); [done|by left| |lia].
    constructor; [done|intros E; by rewrite E in E5..]. }
  name_case E6.
  { apply isTag_eq in E6. unfold inHeadProcessed, assertThat. eapply tb_use; [apply (inHead_ok pluginElements r p m ks ms); [done|done|by left]|]. intros v b1 [-> Hstep].
    apply tb_assert; [by rewrite E6|]. destruct Hstep as [H1|H1|H1 _|H1 _]; [by apply (ready_fits r p m ks ms)| |rewrite E6 in H1; discriminate H1..]. apply (ready_text r p m ks ms); [done|done|by intros ->]. }
  name_case E7; [|by apply (sel_ready r p m ms)].
  apply isTag_eq in E7. eapply tb_mono; [by apply (templateStart_ok pluginElements r p m ks ms)|]. intros ? b1 H1. apply (ready_fits _ _ _ _ _ _ H1). split; [|done]. by apply ok_template.
Qed.

Lemma anySelectStart r p m ms n token b : InSel r p m ms b -> tokenOK token -> wp (process (8 + n) (CallStartTag token)) (fun _ b' => Ready r p b') b.
Proof.
  intros Hs Htok. cbn [Nat.add]. rewrite process_startTag. unfold processStartTag. apply tb_bind, tb_get. rewrite (sel_mode _ _ _ _ _ Hs). pose proof Hs as ([->| ->] & _); [by apply (inSelectStart r p InSelect ms n)|].
  unfold startTagInSelectInTable. destruct (inSelectInTableClosing (tokenName token)) eqn:Ec; [|by apply (inSelectStart r p InSelectInTable ms n)].
  eapply tb_use; [by apply (selectEnd_ok r p InSelectInTable ms)|]. intros ? b1 (m' & H1 & Hm'). apply (contentStart r p m' ms n 0); [done|by left| |lia].
  constructor; [done|intros E; by rewrite E in Ec..].
Qed.

End Tables.
