(* ===== verification/HTMLTreeBuilderModes.v ===== *)
(** * Safety of tags in the other insertion modes

    The modes before and in the head, after the body, of framesets, of templates and of
    text in tables. *)
From S2P Require Import Prelude HTMLTokenizer CompatibilityMode HTMLStackItem HTMLElementStack HTMLElementStackProps HTMLElementStackProtocol HTMLFormattingElementList HTMLFormattingElementProps HTMLConstructionSite HTMLConstructionSiteProps AdoptionAgency HTMLTreeBuilderState HTMLTreeBuilder HTMLTreeBuilderKinds HTMLTreeBuilderSite HTMLTreeBuilderStack HTMLTreeBuilderRules HTMLTreeBuilderBody HTMLTreeBuilderStates HTMLTreeBuilderMoves HTMLTreeBuilderStart HTMLTreeBuilderEnd HTMLTreeBuilderTables.
From Stdlib Require Import String ZArith Lia.
From stdpp Require Import base list numbers option.
#[local] Open Scope Z_scope.
#[local] Open Scope builder_scope.
Import HTMLStackItem HTMLElementStack HTMLConstructionSite CompatibilityMode HTMLTreeBuilderState HTMLTreeBuilder.

Ltac end_in Hat := cbn [Nat.add]; rewrite process_endTag; unfold processEndTag; apply tb_bind, tb_get; rewrite (at_mode _ _ _ _ _ Hat).

(** ** Stacks of the head and of framesets *)

Lemma shape_head ks ms : okStack ks ms -> ctx ks ms = InHead -> ks = [KHead; KHtml] /\ ms = [].
Proof.
  intros H Hc. destruct H; cbn in Hc; try done; try congruence; subst; try done.
  exfalso. assert (E : ctx ks ms = InHead) by (by destruct k). unfold flexible in *. rewrite E in *. by destruct H0 as [?|[?|[? _]]].
Qed.

Lemma shape_afterHead ks ms : okStack ks ms -> ctx ks ms = AfterHead -> ks = [KHtml] /\ ms = [].
Proof.
  intros H Hc. destruct H; cbn in Hc; try done; try congruence; subst; try done.
  exfalso. assert (E : ctx ks ms = AfterHead) by (by destruct k). unfold flexible in *. rewrite E in *. by destruct H0 as [?|[?|[? _]]].
Qed.

Lemma shape_frameset ks : okStack ks [] -> ctx ks [] = InFrameset -> exists C, ks = KFrameset :: C /\ okStack C [] /\ (C = [KHtml] \/ head C = Some KFrameset).
Proof.
  intros H Hc. remember [] as ms eqn:Em. destruct H; cbn in Hc; subst; try done.
  - by exists ks.
  - exfalso. assert (E : ctx ks [] = InFrameset) by (by destruct k). unfold flexible in *. rewrite E in *. by destruct H0 as [?|[?|[_ ?]]].
  - congruence.
Qed.

Lemma shape_template ks ms : okStack ks ms -> ctx ks ms = TemplateContents -> exists A C ms', ks = A ++ KTemplate :: C /\ ms = TemplateContents :: ms' /\
  Forall (fun k => loose k = true) A /\ okStack C ms'.
Proof.
  intros H Hc. destruct (base_split ks) as (A & E & HA). pose proof (ok_base ks ms H) as Hb. pose proof (base_structural ks ms H) as Hs. rewrite <- ctx_base in Hc.
  revert E Hb Hs Hc. generalize (base ks). intros K E Hb Hs Hc. destruct Hb; cbn in Hs, Hc; try done; try congruence.
  - subst. by exists A, ks0, ms.
  - by rewrite H0 in Hs.
Qed.

(** No button is open when nothing without structure is. *)
Lemma buttons_none r p m ks ms b : St r p m ks ms b -> Forall (fun k => k <> KOther) ks -> buttons b = 0%nat.
Proof.
  intros Hb Hk. pose proof (st_kinds _ _ _ _ _ _ Hb) as Ek. pose proof (st_doc _ _ _ _ _ _ Hb) as Hd. unfold buttons. rewrite <- Ek in Hk.
  apply (kindsOf_forall (fun k => k <> KOther)) in Hk. assert (Hdoc : forall r, r ∈ records (m_tree b) -> docItem (m_item r)) by (intros; by apply (doc_item (m_tree b))).
  revert Hk Hdoc. generalize (records (m_tree b)). intros l. induction l as [|x l IH]; intros Hk Hdoc; [done|]. apply Forall_cons_iff in Hk as [Hx Hk]. cbn [List.filter].
  destruct (hasTarget (lit "button") (m_item x)) eqn:Et; [|apply IH; [done|intros y Hy; apply Hdoc; by right]].
  exfalso. apply Hx. rewrite (target_docKind (lit "button")); [done|apply Hdoc; left|done].
Qed.

Section Modes.
Context `{env : Environment}.
Hypothesis pluginElements : forall n, isPluginElement n = true -> exists s, s ∈ ["applet"; "embed"; "object"]%string /\ nodeName n = htmlName s.
Hypothesis textLength : forall parent l position, (position < length l)%nat -> (createWithLengthLimit parent l position <= length l - position)%nat.
Hypothesis searchable : searchableIndexIntroduction <> [].

(** ** Head and body are opened and closed *)

(** The head becomes known. *)
Definition withHead (p : Fixed) (h : HTMLStackItem) : Fixed := mkFixed (policy p) (Some h).

Lemma insertHead_at r p b token : St r p BeforeHead [KHtml] [] b -> tokenName token = lit "head" ->
  wp (tree (insertHTMLHeadElement token) ;; setInsertionMode InHead) (fun _ b' => exists h, At r (withHead p h) InHead [] b') b.
Proof.
  intros Hb Hn. destruct (insertHead_ok pluginElements token (m_tree b)) as (t' & h & E & Ht' & Eh & Ef & Ek); [apply Hb|apply Hb|done|].
  unfold fixedParts in Ef. cbn in Ef. injection Ef as F1 F2 F3 F4 F5 F6. destruct Hb as [S1 S2 S3 S4 S5 S6 S7 S8 S9 S10].
  apply tb_bind, (tb_tree _ t'); [done|]. exists h, [KHead; KHtml]. split; [|split; [constructor|done]]. constructor; cbn; try done; try congruence. intros _. by apply S10.
Qed.

Lemma headStart r p n token b : St r p BeforeHead [KHtml] [] b -> tokenName token = lit "head" ->
  wp (process (1 + n) (CallStartTag token)) (fun _ b' => exists h, At r (withHead p h) InHead [] b') b.
Proof.
  intros Hb Hn. cbn [Nat.add]. rewrite process_startTag. unfold processStartTag. apply tb_bind, tb_get. rewrite (st_mode _ _ _ _ _ _ Hb). unfold startTagBeforeHead.
  apply tb_bind, tb_assert; [by rewrite (st_mode _ _ _ _ _ _ Hb)|]. rewrite Hn. closed_tests. by apply insertHead_at.
Qed.

Lemma headEnd r p ms n b : At r p InHead ms b -> wp (process (1 + n) (CallEndTag (lit "head"))) (fun _ b' => At r p AfterHead ms b') b.
Proof.
  intros Hat. end_in Hat. unfold endTagInHead. apply tb_bind, tb_assert; [by rewrite (at_mode _ _ _ _ _ Hat)|]. closed_tests. destruct Hat as (ks & Hb & Hok & Hc).
  destruct (shape_head ks ms Hok Hc) as [-> ->]. destruct (st_records _ _ _ [] _ _ _ _ Hb) as (RA & g & RC & Er & ERA & Eg & ERC & Hdg). destruct RA; [|done]. cbn in Er.
  destruct RC as [|root [|]]; [done| |done]. injection ERC as Ek. destruct (proj1 (popSecond_ok (m_tree b) g root (st_doc _ _ _ _ _ _ Hb) Er) Eg) as (s' & Es & Hd' & Et).
  apply tb_bind, (tb_stack _ s'); [done|]. eapply tb_mono; [apply (goto_st r p InHead AfterHead [KHtml] [])|]; [|done|].
  - apply (st_tree r p InHead [KHead; KHtml]); try done. unfold kinds. cbn. rewrite Et. cbn. by rewrite Ek.
  - intros ? b' H'. exists [KHtml]. split; [done|]. split; [constructor|done].
Qed.

(** The body with nothing in it. *)
Definition emptyBody (r : bool) (p : Fixed) (b : HTMLTreeBuilder) : Prop := St r p InBody [KBody; KHtml] [] b.

Lemma emptyBody_at r p b : emptyBody r p b -> At r p InBody [] b.
Proof. intros Hb. exists [KBody; KHtml]. split; [done|]. split; [constructor|done]. Qed.

Lemma insertBody_at r p b token : St r p AfterHead [KHtml] [] b -> tokenName token = lit "body" ->
  wp (tree (insertHTMLBodyElement token) ;; setInsertionMode InBody) (fun _ b' => emptyBody r p b') b.
Proof.
  intros Hb Hn. destruct (insertBody_ok pluginElements token (m_tree b)) as (t' & E & Ht' & Ef & Ek); [apply Hb|apply Hb|done|].
  apply tb_bind, (tb_tree _ t'); [done|]. apply (goto_st r p AfterHead); [|done]. by apply (st_tree r p AfterHead [KHtml]).
Qed.

Lemma at_afterHead r p ms b : At r p AfterHead ms b -> St r p AfterHead [KHtml] [] b /\ ms = [].
Proof. intros (ks & Hb & Hok & Hc). by destruct (shape_afterHead ks ms Hok Hc) as [-> ->]. Qed.

Lemma bodyTagStart r p ms n b : At r p AfterHead ms b -> wp (process (1 + n) (CallStartTag (fakeToken "body"))) (fun _ b' => emptyBody r p b') b.
Proof.
  intros Hat. cbn [Nat.add]. rewrite process_startTag. unfold processStartTag. apply tb_bind, tb_get. rewrite (at_mode _ _ _ _ _ Hat). unfold startTagAfterHead.
  apply tb_bind, tb_assert; [by rewrite (at_mode _ _ _ _ _ Hat)|]. cbn [fakeToken tokenName]. closed_tests. destruct (at_afterHead _ _ _ _ Hat) as [Hb _].
  apply tb_bind. cbn. apply insertBody_at; [by apply st_framesetOk|done].
Qed.

Lemma defaultAfterHead_ok r p ms n b : At r p AfterHead ms b -> wp (defaultForAfterHead (fun token => process (1 + n) (CallStartTag token))) (fun _ b' => emptyBody r p b') b.
Proof.
  intros Hat. unfold defaultForAfterHead. eapply tb_use; [by apply (bodyTagStart r p ms)|]. intros ? b' H'. by apply st_framesetOk.
Qed.

(** The head is opened again for some elements after it. *)
Lemma pushHead_st r p b : St r p AfterHead [KHtml] [] b -> exists h head, m_head (m_tree b) = Some h /\ element h = Some head /\
  wp (stack (pushHTMLHeadElement h)) (fun _ b' => St r p AfterHead [KHead; KHtml] [] b') b /\
  forall m U ms b', St r p m (U ++ [KHead; KHtml]) ms b' -> wp (stack (removeHTMLHeadElement head)) (fun _ b'' => St r p m (U ++ [KHtml]) ms b'' /\ exists t, b'' = set_tree t b') b'.
Proof.
  intros Hb. pose proof (st_doc _ _ _ _ _ _ Hb) as Hd. destruct (st_head _ _ _ _ _ _ Hb) as [h Eh]; [done|]. pose proof (st_headItem _ _ _ _ _ _ Hb) as Ep. rewrite Eh in Ep.
  destruct (doc_head _ Hd h Ep) as (Hdh & Hk & _). exists h, (m_node h). split_and!; [done|by apply wellFormed_element; apply Hdh|..].
  - destruct (proj1 (pushSecond_ok (m_tree b) h Hd (st_kinds _ _ _ _ _ _ Hb) Hdh (head_unused _ _ Hd (st_kinds _ _ _ _ _ _ Hb) Ep) ltac:(intros _ h' E'; congruence)) Hk)
      as (s' & Es & Hd' & Et). apply (tb_stack _ s'); [done|]. apply (st_tree r p AfterHead [KHtml]); try done. unfold kinds. cbn. rewrite Et. cbn.
    rewrite Hk. f_equal. apply (st_kinds _ _ _ _ _ _ Hb).
  - intros m U ms b' Hb'. destruct (st_records _ _ _ _ _ _ _ _ Hb') as (RA & g & RC & Er & ERA & Eg & ERC & Hdg). destruct RC as [|root [|]]; [done| |done]. injection ERC as Ek.
    destruct (removeHead_ok (m_tree b') RA g root (st_doc _ _ _ _ _ _ Hb') Er Eg) as (s' & Es & Hd' & Et).
    assert (En : nodeOf g = m_node h).
    { apply (doc_headRecord _ (st_doc _ _ _ _ _ _ Hb')); [by rewrite (st_headItem _ _ _ _ _ _ Hb')|rewrite Er; apply elem_of_app; right; left|done]. }
    apply (tb_stack _ s'); [by rewrite <- En|]. split; [|by eexists]. apply (st_tree r p m (U ++ [KHead; KHtml])); try done. unfold kinds. cbn. rewrite Et, map_app. cbn. by rewrite Ek, ERA.
Qed.

Definition headContent (name : AtomicString) : bool :=
  oneOf name ["base"; "basefont"; "bgsound"; "link"; "meta"; "noframes"; "script"; "style"; "template"; "title"]%string.

Lemma headContentStart r p n token b : St r p AfterHead [KHtml] [] b -> headContent (tokenName token) = true ->
  wp (let! headItem := ask (fun b => m_head (m_tree b)) in
      let! head := ask (fun _ => element headItem) in
      stack (pushHTMLHeadElement headItem) ;;
      inHeadIgnored (fun name => process (S n) (CallEndTag name)) token ;;
      stack (removeHTMLHeadElement head)) (fun _ b' => Ready r p b') b.
Proof.
  intros Hb Hn. destruct (pushHead_st r p b Hb) as (h & head & Eh & Ee & Hpush & Hremove). apply tb_bind, (tb_ask _ h); [done|]. apply tb_bind, (tb_ask _ head); [done|].
  eapply tb_use; [exact Hpush|]. intros ? b1 H1. apply tb_bind. unfold inHeadIgnored.
  eapply tb_use; [apply (inHead_ok pluginElements r p AfterHead [KHead; KHtml] []); [done|done|left; constructor]|].
  intros v b2 [_ Hstep]. change (wp (stack (removeHTMLHeadElement head)) (fun _ b' => Ready r p b') b2). destruct Hstep as [H2|H2|Hno H2|Ht H2].
  - eapply tb_mono; [apply (Hremove AfterHead [] [] b2 H2)|]. intros ? b3 [H3 _]. apply (ready_fits _ _ _ _ _ _ H3). split; [constructor|done].
  - destruct H2 as (Eo & k & Hk & H2). eapply tb_mono; [apply (Hremove Text [k] [] b2 H2)|]. intros ? b3 [H3 (t & ->)]. apply (ready_text r p AfterHead [KHtml] []); [|split; [constructor|done]|done].
    split; [done|]. by exists k.
  - exfalso. rewrite Hno in Hn. discriminate Hn.
  - eapply tb_mono; [apply (Hremove TemplateContents [KTemplate] _ b2 H2)|]. intros ? b3 [H3 _]. apply (ready_fits _ _ _ _ _ _ H3). split; [|done]. apply ok_template; [done|constructor].
Qed.

(** ** Start tags after, in and before the head *)

Lemma afterHeadStart r p ms n token b : At r p AfterHead ms b -> tokenOK token ->
  wp (startTagAfterHead (fun token => process (2 + n) (CallStartTag token)) (fun name => process (2 + n) (CallEndTag name)) (fun c => process (2 + n) (CallCharacters c)) token)
    (fun _ b' => Ready r p b') b.
Proof.
  intros Hat Htok. destruct (at_afterHead _ _ _ _ Hat) as [Hb ->]. unfold startTagAfterHead. apply tb_bind, tb_assert; [by rewrite (at_mode _ _ _ _ _ Hat)|].
  name_case E1; [by apply (html_at r p AfterHead [])|].
  name_case E2; [apply isTag_eq in E2; apply tb_bind; cbn; eapply tb_mono; [apply (insertBody_at r p); [by apply st_framesetOk|done]|]; intros ? b'; by intros H'%emptyBody_at%at_ready|].
  name_case E3.
  { apply isTag_eq in E3. eapply tb_mono; [apply (openAs pluginElements r p AfterHead InFrameset [KHtml] []); [done|done|by rewrite E3|rewrite E3; apply ok_frameset; [by left|constructor]|by rewrite E3]|].
    intros ? b'. apply at_ready. }
  name_case E4; [by apply headContentStart|]. name_case E5; [by apply (at_ready r p AfterHead [])|].
  eapply tb_use; [by apply (defaultAfterHead_ok r p [] (1 + n))|]. intros ? b' H'. unfold startTagInBody. pose proof (emptyBody_at _ _ _ H') as Hat'.
  apply tb_bind, tb_assert; [by rewrite (at_mode _ _ _ _ _ Hat')|]. apply (asBodyStart pluginElements textLength searchable r p InBody [] n 0); [done|done| |lia|done].
  constructor; [done|done|]. intros _. rewrite (buttons_none _ _ _ _ _ _ H'); [done|]. by repeat constructor.
Qed.

Lemma inHead_other endTag token b : headName (tokenName token) = false -> processStartTagForInHead endTag token b = Some (false, b).
Proof.
  unfold headName, processStartTagForInHead, oneOf. cbn [existsb]. rewrite !orb_false_iff.
  intros (-> & -> & -> & -> & -> & -> & -> & -> & -> & -> & -> & -> & -> & -> & _). done.
Qed.

Lemma inHeadModeStart r p ms n token b : At r p InHead ms b -> tokenOK token ->
  wp (startTagInHead (fun token => process (2 + n) (CallStartTag token)) (fun name => process (2 + n) (CallEndTag name)) (fun c => process (2 + n) (CallCharacters c)) token)
    (fun _ b' => Ready r p b') b.
Proof.
  intros Hat Htok. unfold startTagInHead. apply tb_bind, tb_assert; [by rewrite (at_mode _ _ _ _ _ Hat)|]. destruct (headName (tokenName token)) eqn:En.
  - destruct Hat as (ks & Hb & Hok & Hc). destruct (shape_head ks ms Hok Hc) as [-> ->].
    eapply tb_use; [apply (inHead_ok pluginElements r p InHead [KHead; KHtml] []); [done|done|by left]|]. intros v b' [-> Hstep]. rewrite En. destruct Hstep as [H'|H'|_ H'|_ H'].
    + by apply (ready_fits _ _ _ _ _ _ H').
    + by apply (ready_text _ _ _ _ _ _ H').
    + by apply (ready_fits _ _ _ _ _ _ H').
    + apply (ready_fits _ _ _ _ _ _ H'). split; [|done]. by apply ok_template.
  - apply tb_bind. unfold wp. rewrite inHead_other by done. change (wp (defaultForInHead (fun name => process (2 + n) (CallEndTag name)) ;;
      startTagAfterHead (fun token => process (2 + n) (CallStartTag token)) (fun name => process (2 + n) (CallEndTag name)) (fun c => process (2 + n) (CallCharacters c)) token)
      (fun _ b' => Ready r p b') b).
    eapply tb_use; [by apply (headEnd r p ms (1 + n))|]. intros ? b' H'. by apply (afterHeadStart r p ms n).
Qed.

(** Before the head, the head becomes known. *)
Definition ReadyHead (r : bool) (pol : ParserContentPolicy) (b : HTMLTreeBuilder) : Prop := exists p, policy p = pol /\ Ready r p b.

Lemma readyHead r p b : Ready r p b -> ReadyHead r (policy p) b.
Proof. intros H. by exists p. Qed.

Lemma beforeHeadStart r p n token b : St r p BeforeHead [KHtml] [] b -> tokenOK token ->
  wp (startTagBeforeHead (fun token => process (2 + n) (CallStartTag token)) (fun name => process (2 + n) (CallEndTag name)) (fun c => process (2 + n) (CallCharacters c)) token)
    (fun _ b' => ReadyHead r (policy p) b') b.
Proof.
  intros Hb Htok. unfold startTagBeforeHead. apply tb_bind, tb_assert; [by rewrite (st_mode _ _ _ _ _ _ Hb)|].
  name_case E1; [eapply tb_mono; [apply (html_st _ _ _ _ _ _ _ Hb)|]; intros ? b' H'; by apply readyHead, (ready_fits r p BeforeHead [KHtml] [])|].
  name_case E2; [apply isTag_eq in E2; eapply tb_mono; [by apply (insertHead_at r p)|]; intros ? b' (h & H'); by apply (readyHead r (withHead p h)), (at_ready r _ InHead [])|].
  eapply tb_use; [apply (headStart r p (1 + n)); [done|done]|]. intros ? b' (h & H'). eapply tb_mono; [by apply (inHeadModeStart r (withHead p h) [] n)|]. intros ? b''. apply (readyHead r (withHead p h)).
Qed.

(** ** End tags after, in and before the head *)

Lemma asInBodyEnd r p ms n name b : At r p InBody ms b ->
  wp (endTagInBody (fun token => process (2 + n) (CallStartTag token)) (fun name => process (2 + n) (CallEndTag name)) name) (fun _ b' => Ready r p b') b.
Proof.
  intros Hat. pose proof (inBodyEnd pluginElements r p ms n name b Hat) as H. rewrite process_endTag in H. unfold processEndTag in H. unfold wp, bind at 1, get in H.
  by rewrite (at_mode _ _ _ _ _ Hat) in H.
Qed.

Lemma afterHeadEnd r p ms n name b : At r p AfterHead ms b ->
  wp (endTagAfterHead (fun token => process (2 + n) (CallStartTag token)) (fun name => process (2 + n) (CallEndTag name)) name) (fun _ b' => Ready r p b') b.
Proof.
  intros Hat. unfold endTagAfterHead. apply tb_bind, tb_assert; [by rewrite (at_mode _ _ _ _ _ Hat)|]. destruct (negb _); [by apply (at_ready r p AfterHead ms)|].
  eapply tb_use; [by apply (defaultAfterHead_ok r p ms (1 + n))|]. intros ? b' H'. by apply (asInBodyEnd r p []), emptyBody_at.
Qed.

Lemma inHeadModeEnd r p ms n name b : At r p InHead ms b ->
  wp (endTagInHead (fun token => process (2 + n) (CallStartTag token)) (fun name => process (2 + n) (CallEndTag name)) name) (fun _ b' => Ready r p b') b.
Proof.
  intros Hat. destruct (isTag name "head") eqn:E1.
  { apply isTag_eq in E1 as ->. pose proof (headEnd r p ms (2 + n) b Hat) as H. rewrite process_endTag in H. unfold processEndTag in H. unfold wp, bind at 1, get in H.
    rewrite (at_mode _ _ _ _ _ Hat) in H. eapply tb_mono; [exact H|]. intros ? b'. apply at_ready. }
  unfold endTagInHead. apply tb_bind, tb_assert; [by rewrite (at_mode _ _ _ _ _ Hat)|]. name_case E2; [by apply (templateEnd_at r p InHead ms)|]. rewrite E1.
  destruct (negb _); [by apply (at_ready r p InHead ms)|]. eapply tb_use; [by apply (headEnd r p ms (1 + n))|]. intros ? b' H'. by apply (afterHeadEnd r p ms n).
Qed.

Lemma beforeHeadEnd r p n name b : St r p BeforeHead [KHtml] [] b ->
  wp (endTagBeforeHead (fun token => process (2 + n) (CallStartTag token)) (fun name => process (2 + n) (CallEndTag name)) name) (fun _ b' => ReadyHead r (policy p) b') b.
Proof.
  intros Hb. unfold endTagBeforeHead. apply tb_bind, tb_assert; [by rewrite (st_mode _ _ _ _ _ _ Hb)|].
  destruct (negb _); [by apply (readyHead r p), (ready_fits r p BeforeHead [KHtml] [])|].
  eapply tb_use; [apply (headStart r p (1 + n)); [done|done]|]. intros ? b' (h & H'). eapply tb_mono; [by apply (inHeadModeEnd r (withHead p h) [] n)|]. intros ? b''. apply (readyHead r (withHead p h)).
Qed.

(** ** Noscript in the head *)

Lemma noscript_tag item : docItem item -> kindOf item = KNoscript -> hasTagName item (htmlName "noscript") = true.
Proof.
  intros Hd Hk. destruct (item_cases item Hd) as [[E _]|(n & E1 & E2 & E3)]; [congruence|]. rewrite Hk in E3. symmetry in E3.
  destruct (nameKind_cases n) as [[E _]|(e & He & -> & E)]; [congruence|]. rewrite E in E3. unfold hasTagName, hasLocalName. rewrite E1, E2. apply list_elem_of_In in He. cbn in He.
  repeat (destruct He as [<-|He]; [first [discriminate E3|by vm_compute]|]). done.
Qed.

Lemma noscriptEnd r p n b : St r p InHeadNoscript [KNoscript; KHead; KHtml] [] b ->
  wp (process (1 + n) (CallEndTag (lit "noscript"))) (fun _ b' => At r p InHead [] b') b.
Proof.
  intros Hb. cbn [Nat.add]. rewrite process_endTag. unfold processEndTag. apply tb_bind, tb_get. rewrite (st_mode _ _ _ _ _ _ Hb). unfold endTagInHeadNoscript. closed_tests.
  destruct (current_st _ _ _ _ _ _ _ Hb) as (item & Ei & Hd & Hk & _). apply tb_bind, (tb_query _ item); [done|]. apply tb_bind, tb_assert; [by apply noscript_tag|].
  eapply tb_use; [by apply (pop_st _ _ _ _ _ _ _ Hb)|]. intros ? b1 H1. destruct (current_st _ _ _ _ _ _ _ H1) as (item' & Ei' & Hd' & Hk' & _). apply tb_bind, (tb_query _ item'); [done|].
  apply tb_bind, tb_assert; [by kind_of_item Hd' Hk'|]. eapply tb_mono; [by apply (goto_st _ _ _ InHead _ _ _ H1)|]. intros ? b2 H2. exists [KHead; KHtml]. split; [done|]. split; [constructor|done].
Qed.

Lemma at_skip r p m ms b v : At r p m ms b -> At r p m ms (set_skipNewline v b).
Proof. intros (ks & Hb & H). exists ks. split; [by apply st_skipNewline|done]. Qed.

Lemma noscriptModeStart r p n token b : St r p InHeadNoscript [KNoscript; KHead; KHtml] [] b -> tokenOK token ->
  wp (process (4 + n) (CallStartTag token)) (fun _ b' => Ready r p b') b.
Proof.
  intros Hb Htok. cbn [Nat.add]. rewrite process_startTag. unfold processStartTag. apply tb_bind, tb_get. rewrite (st_mode _ _ _ _ _ _ Hb). unfold startTagInHeadNoscript.
  assert (Hf : fits InHeadNoscript [KNoscript; KHead; KHtml] []) by done.
  name_case E1; [eapply tb_mono; [apply (html_st _ _ _ _ _ _ _ Hb)|]; intros ? b' H'; by apply (ready_fits _ _ _ _ _ _ H')|].
  name_case E2.
  { assert (Hh : headName (tokenName token) && negb (isTag (tokenName token) "noscript") && negb (isTag (tokenName token) "template") = true)
      by (apply (oneOf_forall _ _ (fun n => headName n && negb (isTag n "noscript") && negb (isTag n "template")) E2); by vm_compute).
    rewrite !andb_true_iff, !negb_true_iff in Hh. destruct Hh as [[Hh Hno] Ht]. unfold inHeadProcessed, assertThat.
    assert (Hne : forall s, isTag (tokenName token) s = false -> tokenName token <> lit s) by (intros s Hs E; apply isTag_eq in E; congruence).
    eapply tb_use; [apply (inHead_ok pluginElements r p InHeadNoscript _ [] b (2 + n) token Hb); [done|right; by apply Hne]|]. intros v b' [-> Hstep]. apply tb_assert; [done|].
    destruct Hstep as [H'|H'|E _|E _]; [by apply (ready_fits _ _ _ _ _ _ H')|by apply (ready_text _ _ _ _ _ _ H')|exfalso; exact (Hne _ Hno E)|exfalso; exact (Hne _ Ht E)]. }
  name_case E3; [by apply (ready_fits _ _ _ _ _ _ Hb)|].
  eapply tb_use; [by apply (noscriptEnd r p (2 + n))|]. intros ? b1 H1. apply tb_bind. cbn [wp modify]. apply (at_skip _ _ _ _ _ false) in H1. start_in H1.
  by apply (inHeadModeStart r p [] n).
Qed.

Lemma noscriptModeEnd r p n name b : St r p InHeadNoscript [KNoscript; KHead; KHtml] [] b -> wp (process (4 + n) (CallEndTag name)) (fun _ b' => Ready r p b') b.
Proof.
  intros Hb. destruct (isTag name "noscript") eqn:E1; [apply isTag_eq in E1 as ->; eapply tb_mono; [by apply (noscriptEnd r p (3 + n))|]; intros ? b'; apply at_ready|].
  cbn [Nat.add]. rewrite process_endTag. unfold processEndTag. apply tb_bind, tb_get. rewrite (st_mode _ _ _ _ _ _ Hb). unfold endTagInHeadNoscript. rewrite E1.
  destruct (negb _); [by apply (ready_fits _ _ _ _ _ _ Hb)|]. eapply tb_use; [by apply (noscriptEnd r p (2 + n))|]. intros ? b1 H1. apply tb_bind. cbn [wp modify].
  apply (at_skip _ _ _ _ _ false) in H1. end_in H1. by apply (inHeadModeEnd r p [] n).
Qed.

(** ** Framesets *)

(** [noframes], where no other start tag of the head is processed. *)
Lemma noframesStart r p m ks ms n token b : St r p m ks ms b -> settled m = true -> fits m ks ms -> tokenName token = lit "noframes" ->
  wp (inHeadIgnored (fun name => process (S n) (CallEndTag name)) token) (fun _ b' => Ready r p b') b.
Proof.
  intros Hb Hm Hf Hn. unfold inHeadIgnored. eapply tb_use; [apply (inHead_ok pluginElements r p m ks ms); [done|done|right; rewrite Hn; discriminate]|]. intros v b' [_ Hstep].
  destruct Hstep as [H'|H'|E _|E _]; [by apply (ready_fits _ _ _ _ _ _ H')| |rewrite Hn in E; discriminate E..]. apply (ready_text _ _ _ _ _ _ H'); [done|by intros ->].
Qed.

Lemma inFramesetStart r p ms n token b : At r p InFrameset ms b -> (tokenName token = lit "frameset" -> ms = []) ->
  wp (process (2 + n) (CallStartTag token)) (fun _ b' => Ready r p b') b.
Proof.
  intros Hat Hms. start_in Hat. unfold startTagInFrameset. name_case E1; [by apply (html_at r p InFrameset ms)|]. pose proof Hat as (ks & Hb & Hok & Hc).
  name_case E2.
  { apply isTag_eq in E2. specialize (Hms E2) as ->. destruct (shape_frameset ks Hok Hc) as (C & -> & HokC & HC).
    eapply tb_mono; [apply (push_st pluginElements r p InFrameset _ [] b token Hb); [by rewrite E2|rewrite E2; by apply safe_attachable]|]. intros ? b' H'. rewrite E2 in H'.
    apply (at_ready r p InFrameset []). exists (KFrameset :: KFrameset :: C). split_and!; [done| |done]. apply ok_frameset; [by right|done]. }
  name_case E3.
  { apply isTag_eq in E3. eapply tb_mono; [apply (selfClosing_st pluginElements r p InFrameset ks ms); [done|rewrite E3; by apply safe_attachable]|]. intros ? b' H'.
    apply (at_ready r p InFrameset ms). by exists ks. }
  name_case E4; [apply isTag_eq in E4; by apply (noframesStart r p InFrameset ks ms)|].
  name_case E5; [apply isTag_eq in E5; by apply (templateStart_at pluginElements r p InFrameset ms)|]. by apply (at_ready r p InFrameset ms).
Qed.

Lemma inFramesetEnd r p ms n name b : At r p InFrameset ms b -> wp (process (1 + n) (CallEndTag name)) (fun _ b' => Ready r p b') b.
Proof.
  intros Hat. end_in Hat. unfold endTagInFrameset. pose proof Hat as (ks & Hb & Hok & Hc). name_case E1.
  - destruct ks as [|k ks]; [done|]. assert (Hk : k <> KHtml) by (by intros ->). eapply tb_use; [by apply (currentIsRoot_st _ _ _ _ _ _ _ Hb)|]. intros v b' [-> ->].
    apply tb_bind, (tb_query _ (match ms with [] => false | _ => true end)); [by apply (template_scope r p InFrameset (k :: ks) ms)|].
    destruct ms as [|m0 ms]; [|by apply (assertTemplate_at r p InFrameset (m0 :: ms))]. destruct (shape_frameset _ Hok Hc) as (C & [= -> ->] & HokC & HC).
    eapply tb_use; [apply (pop_st _ _ _ _ _ _ _ Hb); [done|by apply ok_nonempty in HokC]|]. intros ? b1 H1. apply tb_bind, tb_get. destruct C as [|c C]; [by apply ok_nonempty in HokC|].
    destruct (current_st _ _ _ _ _ _ _ H1) as (item & Ei & Hd & Hkc & _). apply tb_bind, (tb_query _ item); [done|]. unfold isParsingFragment. rewrite (st_context _ _ _ _ _ _ H1).
    rewrite bool_decide_eq_false_2 by (by intros [? ?]). cbn [negb andb]. destruct HC as [[= -> ->]|[= ->]]; kind_of_item Hd Hkc; cbn [negb].
    + eapply tb_mono; [by apply (goto_st _ _ _ AfterFrameset _ _ _ H1)|]. intros ? b2 H2. by apply (ready_fits _ _ _ _ _ _ H2).
    + apply (at_ready r p InFrameset []). by exists (KFrameset :: C).
  - name_case E2; [by apply (templateEnd_at r p InFrameset ms)|by apply (at_ready r p InFrameset ms)].
Qed.

Lemma afterFramesetStart r p m ks n token b : St r p m ks [] b -> m = AfterFrameset \/ m = AfterAfterFrameset -> fits m ks [] ->
  wp (process (2 + n) (CallStartTag token)) (fun _ b' => Ready r p b') b.
Proof.
  intros Hb Hm Hf. cbn [Nat.add]. rewrite process_startTag. unfold processStartTag. apply tb_bind, tb_get. rewrite (st_mode _ _ _ _ _ _ Hb).
  assert (H : wp (startTagAfterFrameset (fun name => process (S n) (CallEndTag name)) token) (fun _ b' => Ready r p b') b); [|by destruct Hm as [->| ->]].
  unfold startTagAfterFrameset. name_case E1; [eapply tb_mono; [apply (html_st _ _ _ _ _ _ _ Hb)|]; intros ? b' H'; by apply (ready_fits _ _ _ _ _ _ H')|].
  name_case E2; [|by apply (ready_fits _ _ _ _ _ _ Hb)]. apply isTag_eq in E2. apply (noframesStart r p m ks []); [done|by destruct Hm as [->| ->]|done|done].
Qed.

Lemma afterFramesetEnd r p m ks n name b : St r p m ks [] b -> m = AfterFrameset \/ m = AfterAfterFrameset -> fits m ks [] ->
  wp (process (1 + n) (CallEndTag name)) (fun _ b' => Ready r p b') b.
Proof.
  intros Hb Hm Hf. cbn [Nat.add]. rewrite process_endTag. unfold processEndTag. apply tb_bind, tb_get. rewrite (st_mode _ _ _ _ _ _ Hb).
  destruct Hm as [->| ->]; [|by apply (ready_fits _ _ _ _ _ _ Hb)]. unfold endTagAfterFrameset. name_case E1; [|by apply (ready_fits _ _ _ _ _ _ Hb)].
  eapply tb_mono; [by apply (goto_st _ _ _ AfterAfterFrameset _ _ _ Hb)|]. intros ? b' H'. apply (ready_fits _ _ _ _ _ _ H'). destruct Hf as [-> _]. split; [done|]. by exists [].
Qed.

(** ** After the body *)

Lemma afterBody_at r p m ks b : St r p m ks [] b -> m = AfterBody \/ m = AfterAfterBody -> fits m ks [] -> wp (setInsertionMode InBody) (fun _ b' => At r p InBody [] b') b.
Proof.
  intros Hb Hm Hf. eapply tb_mono; [apply (goto_st _ _ _ InBody _ _ _ Hb); by destruct Hm as [->| ->]|]. intros ? b' H'. exists ks. split; [done|]. by destruct Hm as [->| ->]; destruct Hf as (? & ? & _).
Qed.

Lemma afterBodyStart r p m ks n k token b : St r p m ks [] b -> m = AfterBody \/ m = AfterAfterBody -> fits m ks [] -> allowed [] k token b -> (k <= n)%nat ->
  wp (process (4 + n) (CallStartTag token)) (fun _ b' => Ready r p b') b.
Proof.
  intros Hb Hm Hf Hal Hk. cbn [Nat.add]. rewrite process_startTag. unfold processStartTag. apply tb_bind, tb_get. rewrite (st_mode _ _ _ _ _ _ Hb).
  assert (H : wp (startTagAfterBody (fun token => process (3 + n) (CallStartTag token)) token) (fun _ b' => Ready r p b') b); [|by destruct Hm as [->| ->]].
  unfold startTagAfterBody. name_case E1; [eapply tb_mono; [apply (html_st _ _ _ _ _ _ _ Hb)|]; intros ? b' H'; by apply (ready_fits _ _ _ _ _ _ H')|].
  pose proof (afterBody_at r p m ks b Hb Hm Hf) as Hat. apply tb_bind. cbn [setInsertionMode wp modify]. cbn [setInsertionMode wp modify] in Hat.
  apply (bodyModeStart pluginElements textLength searchable r p InBody [] n k); [exact Hat|done|by left| |done]. by apply (allowed_same [] k token b).
Qed.

Lemma afterBodyEnd r p m ks n name b : St r p m ks [] b -> m = AfterBody \/ m = AfterAfterBody -> fits m ks [] -> wp (process (4 + n) (CallEndTag name)) (fun _ b' => Ready r p b') b.
Proof.
  intros Hb Hm Hf. cbn [Nat.add]. rewrite process_endTag. unfold processEndTag. apply tb_bind, tb_get. rewrite (st_mode _ _ _ _ _ _ Hb).
  assert (H : wp (endTagAfterAfterBody (fun name => process (3 + n) (CallEndTag name)) name) (fun _ b' => Ready r p b') b).
  { unfold endTagAfterAfterBody. eapply tb_use; [by apply (afterBody_at r p m ks)|]. intros ? b' H'. by apply (inBodyEnd pluginElements r p [] n). }
  destruct Hm as [->| ->]; [|done]. unfold endTagAfterBody. name_case E1; [|done]. apply tb_bind, tb_get. unfold isParsingFragment. rewrite (st_context _ _ _ _ _ _ Hb).
  rewrite bool_decide_eq_false_2 by (by intros [? ?]). eapply tb_mono; [by apply (goto_st _ _ _ AfterAfterBody _ _ _ Hb)|]. intros ? b' H'. by apply (ready_fits _ _ _ _ _ _ H').
Qed.

(** ** Templates *)

Lemma modeInTemplate_mode name : templateMode (modeInTemplate name) = true /\ normal (modeInTemplate name) = true /\
  (modeInTemplate name <> InFrameset -> modeInTemplate name <> InColumnGroup -> flexMode (modeInTemplate name) = true).
Proof. unfold modeInTemplate. repeat (destruct (isTag _ _) || destruct (_ || _) || destruct (isTableCellContextTag _)); by split_and!. Qed.

(** The mode of the innermost template changes. *)
Lemma template_switch r p ms b m' : At r p TemplateContents ms b -> templateMode m' = true -> normal m' = true -> (m' = InColumnGroup -> exists C, kinds (m_tree b) = KTemplate :: C) ->
  exists ms', ms = TemplateContents :: ms' /\ list.last (m_templateInsertionModes b) = Some TemplateContents /\
    At r p m' (m' :: ms') (set_mode m' (set_templateModes (removelast (m_templateInsertionModes b) ++ [m']) b)).
Proof.
  intros (ks & Hb & Hok & Hc) Hm Hn Hcol. destruct (shape_template ks ms Hok Hc) as (A & C & ms' & -> & -> & HA & HokC). exists ms'. split; [done|].
  rewrite (st_modes _ _ _ _ _ _ Hb). cbn [rev]. split; [by rewrite last_snoc|]. rewrite removelast_last. exists (A ++ KTemplate :: C).
  assert (Hc' : ctx (A ++ KTemplate :: C) (m' :: ms') = m') by (by rewrite ctx_loose).
  split_and!; [|destruct (decide (m' = InColumnGroup)) as [Em|Em]|done].
  - apply (st_goto r p TemplateContents); [|done]. change (rev ms' ++ [m']) with (rev (m' :: ms')). by apply (st_setTemplateModes r p TemplateContents _ (TemplateContents :: ms')).
  - destruct (Hcol Em) as (C' & E). rewrite (st_kinds _ _ _ _ _ _ Hb) in E. destruct A as [|a A]; [by apply ok_template|]. cbn in E. injection E as -> _.
    by apply Forall_cons_iff in HA as [? _].
  - apply ok_push; [done| |by apply ok_template]. unfold flexible, flexibleMode. cbn. destruct m'; try done; first [by left|by right; left|by right; right].
Qed.

Lemma templateModeStart r p ms n k token b : At r p TemplateContents ms b -> allowed ms k token b -> (k <= n)%nat ->
  (tokenName token = lit "col" -> exists C, kinds (m_tree b) = KTemplate :: C) -> wp (process (8 + n) (CallStartTag token)) (fun _ b' => Ready r p b') b.
Proof.
  intros Hat [A1 A2 A3] Hk Hcol. start_in Hat. unfold startTagTemplateContents. name_case E1; [apply isTag_eq in E1; by apply (templateStart_at pluginElements r p TemplateContents ms)|].
  name_case E2.
  { destruct (at_flex _ _ _ _ _ Hat) as (B & HB); [by right; left|]. unfold inHeadIgnored.
    eapply tb_use; [apply (inHeadStart pluginElements r p TemplateContents B ms (6 + n)); [done|by_names|by intros E; rewrite E in E2]|]. by intros v b' [_ H']. }
  set (m' := modeInTemplate (tokenName token)). destruct (modeInTemplate_mode (tokenName token)) as (M1 & M2 & M3). fold m' in M1, M2, M3.
  assert (Hc : m' = InColumnGroup -> tokenName token = lit "col").
  { unfold m', modeInTemplate. destruct (isTag _ "frame"); [done|]. destruct (isTag _ "col") eqn:E; [intros _; by apply isTag_eq|]. by repeat (destruct (_ || _) || destruct (isTag _ _) || destruct (isTableCellContextTag _)). }
  assert (Hfr : m' = InFrameset -> tokenName token = lit "frame").
  { unfold m', modeInTemplate. destruct (isTag _ "frame") eqn:E; [intros _; by apply isTag_eq|]. by repeat (destruct (_ || _) || destruct (isTag _ _) || destruct (isTableCellContextTag _)). }
  destruct (template_switch r p ms b m' Hat M1 M2) as (ms' & -> & El & H'); [intros E; by apply Hcol, Hc|].
  apply tb_bind, tb_assert; [by rewrite El|]. apply tb_bind. cbn [wp modify]. apply tb_bind. cbn [wp modify setInsertionMode].
  assert (Hal : allowed (m' :: ms') k token (set_mode m' (set_templateModes (removelast (m_templateInsertionModes b) ++ [m']) b))) by (constructor; [done|by intros E; specialize (A2 E)|exact A3]).
  destruct (decide (m' = InFrameset)) as [Em|Em].
  { rewrite Em in H' at 1. apply (inFramesetStart r p (m' :: ms') (5 + n)); [exact H'|]. intros E. by specialize (A2 E). }
  apply (contentStart pluginElements textLength searchable r p m' (m' :: ms') n k); [exact H'| |done|done]. destruct (decide (m' = InColumnGroup)); [by right|left; by apply M3].
Qed.

Lemma templateModeEnd r p ms n name b : At r p TemplateContents ms b -> wp (process (1 + n) (CallEndTag name)) (fun _ b' => Ready r p b') b.
Proof. intros Hat. end_in Hat. destruct (isTag name "template"); [by apply (templateEnd_at r p TemplateContents ms)|by apply (at_ready r p TemplateContents ms)]. Qed.

End Modes.
