(* ===== verification/HTMLTreeBuilderTags.v ===== *)
(** * Safety of all tags

    Text that is collected in tables, and the start and end tags in every insertion
    mode of a document that has its html element. *)
From S2P Require Import Prelude HTMLTokenizer CompatibilityMode HTMLStackItem HTMLElementStack HTMLElementStackProps HTMLElementStackProtocol HTMLFormattingElementList HTMLFormattingElementProps HTMLConstructionSite HTMLConstructionSiteProps AdoptionAgency HTMLTreeBuilderState HTMLTreeBuilder HTMLTreeBuilderKinds HTMLTreeBuilderSite HTMLTreeBuilderStack HTMLTreeBuilderRules HTMLTreeBuilderBody HTMLTreeBuilderStates HTMLTreeBuilderMoves HTMLTreeBuilderStart HTMLTreeBuilderEnd HTMLTreeBuilderTables HTMLTreeBuilderModes.
From Stdlib Require Import String ZArith Lia.
From stdpp Require Import base list numbers option.
#[local] Open Scope Z_scope.
#[local] Open Scope builder_scope.
Import HTMLStackItem HTMLElementStack HTMLConstructionSite CompatibilityMode HTMLTreeBuilderState HTMLTreeBuilder.

(** ** What is required of tags *)

(** Start tags: the tokenizer sends none in the text of an element.  No frameset is
    opened in a template, and the first tag of a template is not [col] when something
    else is already open in it. *)
Record permitted (token : Token) (b : HTMLTreeBuilder) : Prop := mkPermitted {
  permitted_token : tokenOK token;
  permitted_text : m_insertionMode b <> Text;
  permitted_frameset : tokenName token = lit "frameset" -> m_templateInsertionModes b = [];
  permitted_col : tokenName token = lit "col" -> m_insertionMode b = TemplateContents ->
    exists item, topStackItem (m_openElements (m_tree b)) = Some item /\ hasTagName item (htmlName "template") = true
}.

Lemma permitted_allowed token r p m ks ms b : permitted token b -> St r p m ks ms b -> allowed ms (buttons b) token b.
Proof.
  intros [P1 P2 P3 P4] Hb. constructor; [done| |done]. intros E. specialize (P3 E). rewrite (st_modes _ _ _ _ _ _ Hb) in P3. by apply (f_equal (@rev _)) in P3; rewrite rev_involutive in P3.
Qed.

Section Tags.
Context `{env : Environment}.
Hypothesis pluginElements : forall n, isPluginElement n = true -> exists s, s ∈ ["applet"; "embed"; "object"]%string /\ nodeName n = htmlName s.
Hypothesis textLength : forall parent l position, (position < length l)%nat -> (createWithLengthLimit parent l position <= length l - position)%nat.
Hypothesis searchable : searchableIndexIntroduction <> [].

(** ** The text of a table *)

Lemma formatting_noButton i : formattingItem i -> hasTarget (lit "button") i = false.
Proof.
  intros Hf. pose proof (formatting_noTag i [htmlName "button"] Hf) as H. unfold hasOneOf in H. cbn [existsb] in H. rewrite orb_false_r in H. apply H.
  intros n Hn. apply list_elem_of_singleton in Hn as ->. by apply (bool_decide_eq_true_1 _); vm_compute.
Qed.

Lemma buttons_items t : length (List.filter (fun rec => hasTarget (lit "button") (m_item rec)) (records t)) = length (List.filter (hasTarget (lit "button")) (map m_item (records t))).
Proof. induction (records t) as [|x l IH]; [done|]. cbn [List.filter map]. destruct (hasTarget _ (m_item x)); cbn [length]; by rewrite IH. Qed.

(** Reconstruction opens no button. *)
Lemma reconstruct_buttons t : docSite t -> exists t', reconstructTheActiveFormattingElements t = Some t' /\ docSite t' /\ fixedParts t' = fixedParts t /\
  (exists l, kinds t' = l ++ kinds t /\ Forall (fun k => k = KOther) l) /\
  length (List.filter (fun rec => hasTarget (lit "button") (m_item rec)) (records t')) = length (List.filter (fun rec => hasTarget (lit "button") (m_item rec)) (records t)).
Proof.
  intros H. destruct (reconstruct_doc pluginElements t H) as (t1 & E1 & H1 & F1 & K1). exists t1. split_and!; try done.
  destruct (reconstruct_ok (formatting_noPlugin pluginElements) t (doc_inv t H) (doc_foster t H)) as (t' & keep & again & created & Hu & E & Hi & Hf & El & H2 & Et & _).
  rewrite E1 in E. injection E as <-. rewrite !buttons_items, Et, List.filter_app, length_app.
  assert (Hc : Forall formattingItem (rev created)).
  { pose proof (core_items _ _ _ Hi) as Hc. rewrite El, itemsOf_app in Hc. apply List.Forall_app in Hc as [_ Hc]. rewrite itemsOf_map in Hc. by apply List.Forall_rev. }
  clear - Hc. induction Hc as [|i l Hi Hl IH]; [done|]. cbn [List.filter]. by rewrite formatting_noButton.
Qed.

(** While the text is inserted. *)
Record Flushing (r : bool) (p : Fixed) (m : InsertionMode) (ms : list InsertionMode) (k : nat) (b : HTMLTreeBuilder) : Prop := mkFlushing {
  flush_state : exists ks, St r p InTableText ks ms b /\ okStack ks ms /\ ctx ks ms = m;
  flush_pending : m_pendingTableCharacters b = [];
  flush_original : m_originalInsertionMode b = m;
  flush_buttons : buttons b = k
}.

Lemma flushing_changed r p m ms k c b : Flushing r p m ms k b -> Flushing r p m ms k (changed c b).
Proof. intros [(ks & H1 & H2) F2 F3 F4]. constructor; try done. exists ks. split; [by apply st_changed|done]. Qed.

Lemma flushing_text r p m ms k c b : Flushing r p m ms k b -> wp (insertTextNode c) (fun _ b' => Flushing r p m ms k b') b.
Proof.
  intros Hb. pose proof Hb as [(ks & H1 & H2) _ _ _]. eapply tb_mono; [apply insertTextNode_ok; [done|apply H1]|]. intros ? b' (l & ->). by apply flushing_changed.
Qed.

Lemma flushing_end r p m ms k b : Flushing r p m ms k b -> m <> BeforeHead ->
  At r p m ms (set_mode (m_originalInsertionMode b) b) /\ buttons (set_mode (m_originalInsertionMode b) b) = k.
Proof.
  intros [(ks & [S1 S2 S3 S4 S5 S6 S7 S8 S9 S10] & Hok & Hc) F2 F3 F4] Hm. split; [|done]. exists ks. split; [|done]. rewrite F3. constructor; try done. intros _. by apply S9.
Qed.

Lemma flush_ok r p m ms b : tableMode m = true -> (exists ks, St r p InTableText ks ms b /\ okStack ks ms /\ ctx ks ms = m) -> m_originalInsertionMode b = m ->
  wp defaultForInTableText (fun _ b' => At r p m ms b' /\ buttons b' = buttons b) b.
Proof.
  intros Hm (ks & Hb & Hok & Hc) Eo. assert (Hne : m <> BeforeHead) by (by intros ->). unfold defaultForInTableText. apply tb_bind, tb_get. apply tb_bind. cbn [wp modify].
  assert (Hf : Flushing r p m ms (buttons b) (set_pending [] b)).
  { constructor; try done. exists ks. split; [|done]. destruct Hb. by constructor. }
  destruct (negb _).
  - destruct Hf as [(ks' & H1 & H2) F2 F3 F4]. apply (tb_redirecting _ r p InTableText ks' ms); [done|].
    destruct (reconstruct_buttons (m_tree (set_tree (set_redirect true (m_tree (set_pending [] b))) (set_pending [] b)))) as (t1 & E1 & D1 & P1 & (l & K1 & L1) & B1);
      [by apply (st_site true p InTableText ks' ms), (st_setRedirect r)|].
    apply tb_bind. unfold reconstruct. apply (tb_tree _ t1); [done|].
    assert (Hf : Flushing true p m ms (buttons b) (set_tree t1 (set_tree (set_redirect true (m_tree (set_pending [] b))) (set_pending [] b)))).
    { constructor; try done. exists (l ++ ks'). split_and!.
      - apply (st_tree true p InTableText ks'); [by apply (st_setRedirect r)|done|done|]. rewrite K1. f_equal. apply (st_kinds _ _ _ _ _ _ H1).
      - apply ok_push; [eapply List.Forall_impl; [|exact L1]; by intros k ->| |tauto]. unfold flexible. destruct H2 as [_ ->]. left. unfold flexMode. by rewrite Hm, orb_true_r.
      - rewrite ctx_loose; [tauto|]. eapply List.Forall_impl; [|exact L1]; by intros k ->. }
    eapply tb_use; [by apply (flushing_text true p m ms (buttons b))|]. intros ? b1 G1. apply tb_bind. cbn [wp modify framesetNotOk].
    assert (G2 : Flushing true p m ms (buttons b) (set_framesetOk false b1)) by (destruct G1 as [(ks1 & ? & ?) ? ? ?]; constructor; try done; exists ks1; split; [by apply st_framesetOk|done]).
    destruct (flushing_end _ _ _ _ _ _ G2 Hne) as [G3 G4]. split; [|exact G4]. by apply (at_redirect true).
  - eapply tb_use; [by apply (flushing_text r p m ms (buttons b))|]. intros ? b1 G1. by apply flushing_end.
Qed.

(** ** Tags in all modes *)

Lemma ready_normal r p b : Ready r p b -> normal (m_insertionMode b) = true -> exists ms, At r p (m_insertionMode b) ms b.
Proof.
  intros (ks & ms & Hb & Hf) Hn. exists ms, ks. split; [done|]. apply normal_fits; [done|]. by destruct (m_insertionMode b).
Qed.

Lemma ready_flush r p b : Ready r p b -> m_insertionMode b = InTableText -> exists m ms, tableMode m = true /\ m_templateInsertionModes b = rev ms /\
  wp defaultForInTableText (fun _ b' => At r p m ms b' /\ buttons b' = buttons b) b.
Proof.
  intros (ks & ms & Hb & Hf) Em. rewrite Em in Hb, Hf. destruct Hf as (Hm & _ & Hf). exists (m_originalInsertionMode b), ms. split; [done|]. split; [apply Hb|]. apply flush_ok; [done| |done].
  exists ks. split; [done|]. apply normal_fits; [by destruct (m_originalInsertionMode b)|done].
Qed.

Lemma startTag_ready r p n token b : Ready r p b -> permitted token b -> (buttons b <= n)%nat -> wp (process (9 + n) (CallStartTag token)) (fun _ b' => ReadyHead r (policy p) b') b.
Proof.
  intros Hr Hp Hn. pose proof Hr as (ks & ms & Hb & Hf). pose proof (permitted_allowed token r p _ ks ms b Hp Hb) as Hal. pose proof (permitted_token _ _ Hp) as Htok.
  assert (Hready : wp (process (9 + n) (CallStartTag token)) (fun _ b' => Ready r p b') b -> wp (process (9 + n) (CallStartTag token)) (fun _ b' => ReadyHead r (policy p) b') b)
    by (intros H; eapply tb_mono; [exact H|]; intros ? b'; apply readyHead).
  assert (Hcontent : forall m, okStack ks ms /\ ctx ks ms = m -> m_insertionMode b = m -> flexMode m = true \/ m = InColumnGroup -> wp (process (9 + n) (CallStartTag token)) (fun _ b' => ReadyHead r (policy p) b') b).
  { intros m [Hok Hc] Em Hm. apply Hready, (contentStart pluginElements textLength searchable r p m ms (2 + n) (buttons b)); [|done|done|lia]. exists ks. split_and!; [by rewrite <- Em|done|done]. }
  assert (Hsel : forall m, okStack ks ms /\ ctx ks ms = InSelect -> m_insertionMode b = m -> m = InSelect \/ m = InSelectInTable -> wp (process (9 + n) (CallStartTag token)) (fun _ b' => ReadyHead r (policy p) b') b).
  { intros m [Hok Hc] Em Hm. apply Hready, (anySelectStart pluginElements textLength searchable r p m ms (1 + n)); [|done]. split; [done|]. exists ks. split_and!; [by rewrite <- Em|done|done]. }
  destruct (m_insertionMode b) eqn:Em; try (by destruct Hf); try (by destruct (permitted_text _ _ Hp)); try solve [apply (Hcontent _ Hf eq_refl); first [by left|by right]];
    try solve [apply (Hsel _ Hf eq_refl); first [by left|by right]].
  - destruct Hf as [-> ->]. cbn [Nat.add]. rewrite process_startTag. unfold processStartTag. apply tb_bind, tb_get. rewrite Em. by apply (beforeHeadStart pluginElements textLength searchable r p (6 + n)).
  - apply Hready. assert (Hat : At r p InHead ms b) by (by exists ks). start_in Hat. by apply (inHeadModeStart pluginElements textLength searchable r p ms (6 + n)).
  - apply Hready. destruct Hf as [-> ->]. by apply (noscriptModeStart pluginElements textLength searchable r p (5 + n)).
  - apply Hready. assert (Hat : At r p AfterHead ms b) by (by exists ks). start_in Hat. by apply (afterHeadStart pluginElements textLength searchable r p ms (6 + n)).
  - apply Hready. apply (templateModeStart pluginElements textLength searchable r p ms (1 + n) (buttons b)); [by exists ks|done|lia|]. intros E. destruct (permitted_col _ _ Hp E Em) as (item & Ei & Ht).
    destruct ks as [|k ks]; [by destruct Hf as [? _]; apply ok_nonempty in H|]. destruct (current_st _ _ _ _ _ _ _ Hb) as (item' & Ei' & Hd & Hk & _). rewrite Ei in Ei'. injection Ei' as <-.
    exists ks. rewrite (st_kinds _ _ _ _ _ _ Hb), <- Hk. f_equal. by apply (tag_kind item "template").
  - apply Hready. destruct (ready_flush r p b Hr Em) as (m & ms' & Hm & Ems & Hflush). cbn [Nat.add]. rewrite process_startTag. unfold processStartTag. apply tb_bind, tb_get. rewrite Em.
    eapply tb_use; [exact Hflush|]. intros ? b' [Hat Eb]. apply (contentStart pluginElements textLength searchable r p m ms' (1 + n) (buttons b)); [done|left; unfold flexMode; by rewrite Hm, orb_true_r| |lia].
    constructor; [done| |intros _; by rewrite Eb]. intros E. pose proof (permitted_frameset _ _ Hp E) as Et. rewrite Et in Ems.
    apply (f_equal (@rev _)) in Ems. by rewrite rev_involutive in Ems.
  - apply Hready. pose proof Hf as (? & ? & ->). apply (afterBodyStart pluginElements textLength searchable r p AfterBody ks (5 + n) (buttons b)); [done|by left|done|done|lia].
  - apply Hready. apply (inFramesetStart pluginElements r p ms (7 + n)); [by exists ks|apply Hal].
  - apply Hready. pose proof Hf as [_ ->]. apply (afterFramesetStart pluginElements r p AfterFrameset ks (7 + n)); [done|by left|done].
  - apply Hready. pose proof Hf as (? & ? & ->). apply (afterBodyStart pluginElements textLength searchable r p AfterAfterBody ks (5 + n) (buttons b)); [done|by right|done|done|lia].
  - apply Hready. pose proof Hf as [-> _]. apply (afterFramesetStart pluginElements r p AfterAfterFrameset ks (7 + n)); [done|by right|done].
Qed.

(** End tags: in the text of an element, the tokenizer has sent the end of the script. *)
Definition permittedEnd (name : AtomicString) (b : HTMLTreeBuilder) : Prop :=
  m_insertionMode b = Text -> name = lit "script" -> topIs (lit "script") b /\ scriptEnds b.

Lemma endTag_ready r p n name b : Ready r p b -> permittedEnd name b -> wp (process (9 + n) (CallEndTag name)) (fun _ b' => ReadyHead r (policy p) b') b.
Proof.
  intros Hr Hp. pose proof Hr as (ks & ms & Hb & Hf).
  assert (Hready : wp (process (9 + n) (CallEndTag name)) (fun _ b' => Ready r p b') b -> wp (process (9 + n) (CallEndTag name)) (fun _ b' => ReadyHead r (policy p) b') b)
    by (intros H; eapply tb_mono; [exact H|]; intros ? b'; apply readyHead).
  assert (Hcontent : forall m, okStack ks ms /\ ctx ks ms = m -> m_insertionMode b = m -> flexMode m = true \/ m = InColumnGroup -> wp (process (9 + n) (CallEndTag name)) (fun _ b' => ReadyHead r (policy p) b') b).
  { intros m [Hok Hc] Em Hm. apply Hready, (contentEnd pluginElements r p m ms (3 + n)); [|done]. exists ks. split_and!; [by rewrite <- Em|done|done]. }
  assert (Hsel : forall m, okStack ks ms /\ ctx ks ms = InSelect -> m_insertionMode b = m -> m = InSelect \/ m = InSelectInTable -> wp (process (9 + n) (CallEndTag name)) (fun _ b' => ReadyHead r (policy p) b') b).
  { intros m [Hok Hc] Em Hm. apply Hready, (anySelectEnd pluginElements r p m ms (2 + n)). split; [done|]. exists ks. split_and!; [by rewrite <- Em|done|done]. }
  destruct (m_insertionMode b) eqn:Em; try (by destruct Hf); try solve [apply (Hcontent _ Hf eq_refl); first [by left|by right]]; try solve [apply (Hsel _ Hf eq_refl); first [by left|by right]].
  - destruct Hf as [-> ->]. cbn [Nat.add]. rewrite process_endTag. unfold processEndTag. apply tb_bind, tb_get. rewrite Em. by apply (beforeHeadEnd pluginElements r p (6 + n)).
  - apply Hready. assert (Hat : At r p InHead ms b) by (by exists ks). end_in Hat. by apply (inHeadModeEnd pluginElements r p ms (6 + n)).
  - apply Hready. destruct Hf as [-> ->]. by apply (noscriptModeEnd pluginElements r p (5 + n)).
  - apply Hready. assert (Hat : At r p AfterHead ms b) by (by exists ks). end_in Hat. by apply (afterHeadEnd pluginElements r p ms (6 + n)).
  - apply Hready, (templateModeEnd r p ms (8 + n)). by exists ks.
  - apply Hready. destruct Hf as (Hm & k & ks' & -> & Hk & Hf). eapply tb_mono; [apply (textEnd_ok r p (m_originalInsertionMode b) ks' ms b (8 + n) name)|].
    + split; [done|]. by exists k.
    + by apply fits_nonempty in Hf.
    + by apply Hp.
    + intros ? b' H'. by apply (ready_fits _ _ _ _ _ _ H').
  - apply Hready. destruct (ready_flush r p b Hr Em) as (m & ms' & Hm & _ & Hflush). cbn [Nat.add]. rewrite process_endTag. unfold processEndTag. apply tb_bind, tb_get. rewrite Em.
    eapply tb_use; [exact Hflush|]. intros ? b' [Hat _]. apply (contentEnd pluginElements r p m ms' (2 + n)); [done|left; unfold flexMode; by rewrite Hm, orb_true_r].
  - apply Hready. pose proof Hf as (? & ? & ->). apply (afterBodyEnd pluginElements r p AfterBody ks (5 + n)); [done|by left|done].
  - apply Hready. apply (inFramesetEnd r p ms (8 + n)). by exists ks.
  - apply Hready. pose proof Hf as [_ ->]. apply (afterFramesetEnd r p AfterFrameset ks (8 + n)); [done|by left|done].
  - apply Hready. pose proof Hf as (? & ? & ->). apply (afterBodyEnd pluginElements r p AfterAfterBody ks (5 + n)); [done|by right|done].
  - apply Hready. pose proof Hf as [-> _]. apply (afterFramesetEnd r p AfterAfterFrameset ks (8 + n)); [done|by right|done].
Qed.

End Tags.
