(* ===== verification/HTMLTreeBuilderText.v ===== *)
(** * Safety of characters

    A buffer of characters is consumed in every insertion mode of a document that has
    its html element, within the rounds of [processCharacterBuffer]. *)
From S2P Require Import Prelude HTMLTokenizer CompatibilityMode HTMLStackItem HTMLElementStack HTMLElementStackProps HTMLElementStackProtocol HTMLFormattingElementList HTMLFormattingElementProps HTMLConstructionSite HTMLConstructionSiteProps AdoptionAgency CSSPreloadScanner HTMLTreeBuilderState HTMLTreeBuilder HTMLTreeBuilderKinds HTMLTreeBuilderSite HTMLTreeBuilderStack HTMLTreeBuilderRules HTMLTreeBuilderBody HTMLTreeBuilderStates HTMLTreeBuilderMoves HTMLTreeBuilderStart HTMLTreeBuilderEnd HTMLTreeBuilderTables HTMLTreeBuilderModes HTMLTreeBuilderTags.
From Stdlib Require Import String ZArith Lia.
From stdpp Require Import base list numbers option.
#[local] Open Scope Z_scope.
#[local] Open Scope builder_scope.
Import HTMLStackItem HTMLElementStack HTMLConstructionSite CompatibilityMode HTMLTreeBuilderState HTMLTreeBuilder.

(** ** Buffers *)

Lemma dropLeading_length q c : (length (dropLeading q c) <= length c)%nat.
Proof. induction c as [|x c IH]; [done|]. cbn. destruct (q x); cbn; lia. Qed.

Lemma dropLeading_head q c x l : dropLeading q c = x :: l -> q x = false.
Proof. induction c as [|y c IH]; [done|]. cbn. destruct (q y) eqn:E; [done|]. by intros [= <- <-]. Qed.

(** Skipping from what the other loop has left makes progress. *)
Lemma dropLeading_alternate q c : dropLeading q c <> [] -> (length (dropLeading (fun x => negb (q x)) (dropLeading q c)) < length c)%nat.
Proof.
  intros Hne. pose proof (dropLeading_length q c) as Hl. destruct (dropLeading q c) as [|x l] eqn:E; [done|]. pose proof (dropLeading_head q c x l E) as Hx. cbn. rewrite Hx. cbn.
  pose proof (dropLeading_length (fun x => negb (q x)) l). cbn in Hl. lia.
Qed.

(** The end of a buffer, and a state that fits its mode. *)
Definition Consumed (r : bool) (pol : ParserContentPolicy) (rest : list Z) (b : HTMLTreeBuilder) : Prop := rest = [] /\ ReadyHead r pol b.

Lemma consumed r p b : Ready r p b -> Consumed r (policy p) [] b.
Proof. intros H. split; [done|by apply readyHead]. Qed.

Section Text.
Context `{env : Environment}.
Hypothesis pluginElements : forall n, isPluginElement n = true -> exists s, s ∈ ["applet"; "embed"; "object"]%string /\ nodeName n = htmlName s.
Hypothesis textLength : forall parent l position, (position < length l)%nat -> (createWithLengthLimit parent l position <= length l - position)%nat.

(** ** Operations *)

Lemma leading_st r p m ks ms c b : St r p m ks ms b -> wp (insertLeadingWhitespace c) (fun rest b' => rest = dropLeading CSSPreloadScanner.isHTMLSpace c /\ St r p m ks ms b') b.
Proof.
  intros Hb. unfold insertLeadingWhitespace, takeLeading. apply tb_bind. destruct (bool_decide _); [done|]. eapply tb_mono; [by apply (keeps_text textLength r p m ks ms)|]. done.
Qed.

Lemma remaining_st r p m ks ms c o b : St r p m ks ms b -> keeps (St r p m ks ms) o -> wp (insertRemainingWhitespace c o) (fun rest b' => rest = [] /\ St r p m ks ms b') b.
Proof.
  intros Hb Ho. unfold insertRemainingWhitespace. apply tb_bind. destruct (bool_decide _); [done|]. eapply tb_use; [by apply Ho|]. intros ? b1 H1.
  eapply tb_mono; [by apply (keeps_text textLength r p m ks ms)|]. done.
Qed.

Lemma bodyText_ok r p m ms c b : At r p m ms b -> bodyMode m = true \/ m = TemplateContents -> wp (charactersInBody c) (fun rest b' => Consumed r (policy p) rest b') b.
Proof.
  intros Hat Hm. destruct (at_flex _ _ _ _ _ Hat) as (B & HB); [destruct Hm as [Hm| ->]; [left; unfold flexMode; by rewrite Hm|by right; left]|].
  unfold charactersInBody. apply tb_bind, tb_assert; [rewrite (at_mode _ _ _ _ _ Hat); by destruct Hm as [Hm| ->]; [destruct m|]|].
  eapply tb_keep; [apply (keeps_bodyText pluginElements textLength r p m B ms)|done|]. intros ? b2 H2. by apply consumed, (ready_flex r p m B ms).
Qed.

(** Text directly in a table, a group of rows or a row is collected; other text there is
    put before the table. *)
Lemma tableText_ok r p m ms c b : At r p m ms b -> tableMode m = true -> wp (charactersInTable c) (fun rest b' => Consumed r (policy p) rest b') b.
Proof.
  intros Hat Hm. pose proof Hat as (ks & Hb & Hok & Hc). assert (Hset : settled m = true) by (by destruct m). unfold charactersInTable. apply tb_bind, tb_assert.
  { rewrite (st_pending _ _ _ _ _ _ Hb); [done|]. by intros ->. }
  destruct ks as [|k ks]; [by apply ok_nonempty in Hok|]. destruct (current_st _ _ _ _ _ _ _ Hb) as (item & Ei & Hd & Hkd & _). apply tb_bind, (tb_query _ item); [done|].
  destruct (_ && _) eqn:Et.
  - apply tb_bind. cbn [wp modify]. apply tb_bind. cbn [wp modify setInsertionMode]. apply tb_bind. cbn [wp modify ret]. apply consumed.
    exists (k :: ks), ms. cbn [m_insertionMode set_pending set_mode]. split.
    + apply (st_originalMode _ _ _ _ _ _ (m_insertionMode b)), (st_goto _ _ _ InTableText) in Hb; [|done]. destruct Hb. by constructor.
    + cbn. rewrite (st_mode _ _ _ _ _ _ Hb). split; [done|]. split; [|rewrite <- Hc; by apply fits_ctx].
      apply negb_true_iff, not_true_iff_false. intros Hl. rewrite <- Hkd in Hl. pose proof (tableItem_loose item Hd Hl) as Ht. unfold tableItem in Ht. congruence.
  - destruct (at_flexMode _ _ _ _ _ Hat) as (B & HB & _); [unfold flexMode; by rewrite Hm, orb_true_r|].
    eapply tb_keep; [apply (keeps_redirecting _ r p m B ms), (keeps_bodyText pluginElements textLength)|done|]. intros ? b2 H2. by apply consumed, (ready_flex r p m B ms).
Qed.

(** ** The head *)

Lemma afterHeadText r p ms n c b : At r p AfterHead ms b -> wp (charactersAfterHead (fun token => process (1 + n) (CallStartTag token)) c) (fun rest b' => Consumed r (policy p) rest b') b.
Proof.
  intros Hat. unfold charactersAfterHead. apply tb_bind, tb_assert; [by rewrite (at_mode _ _ _ _ _ Hat)|]. pose proof Hat as (ks & Hb & Hok & Hc).
  eapply tb_use; [apply (leading_st _ _ _ _ _ _ _ Hb)|]. intros rest b1 [_ H1]. assert (Hat1 : At r p AfterHead ms b1) by (by exists ks). destruct (bool_decide (rest = [])); [by apply consumed, (at_ready r p AfterHead ms)|].
  eapply tb_use; [by apply (defaultAfterHead_ok pluginElements r p ms n)|]. intros ? b2 H2. apply (bodyText_ok r p InBody []); [by apply emptyBody_at|by left].
Qed.

Lemma inHeadText r p ms n c b : At r p InHead ms b ->
  wp (charactersInHead (fun token => process (1 + n) (CallStartTag token)) (fun name => process (1 + n) (CallEndTag name)) c) (fun rest b' => Consumed r (policy p) rest b') b.
Proof.
  intros Hat. unfold charactersInHead. apply tb_bind, tb_assert; [by rewrite (at_mode _ _ _ _ _ Hat)|]. pose proof Hat as (ks & Hb & Hok & Hc).
  eapply tb_use; [apply (leading_st _ _ _ _ _ _ _ Hb)|]. intros rest b1 [_ H1]. assert (Hat1 : At r p InHead ms b1) by (by exists ks). destruct (bool_decide (rest = [])); [by apply consumed, (at_ready r p InHead ms)|].
  eapply tb_use; [by apply (headEnd r p ms n)|]. intros ? b2 H2. by apply (afterHeadText r p ms).
Qed.

Lemma beforeHeadText r p n c b : St r p BeforeHead [KHtml] [] b ->
  wp (charactersBeforeHead (fun token => process (1 + n) (CallStartTag token)) (fun name => process (1 + n) (CallEndTag name)) c) (fun rest b' => Consumed r (policy p) rest b') b.
Proof.
  intros Hb. unfold charactersBeforeHead. apply tb_bind, tb_assert; [by rewrite (st_mode _ _ _ _ _ _ Hb)|]. destruct (bool_decide (_ = [])); [by apply consumed, (ready_fits _ _ _ _ _ _ Hb)|].
  eapply tb_use; [by apply (headStart pluginElements r p n)|]. intros ? b2 (h & H2). by apply (inHeadText r (withHead p h) []).
Qed.

(** ** Reprocessing *)

Ltac text_in Hskip Hmode :=
  match goal with |- wp (reprocessBuffer _ _ (S ?x) _) _ _ => let f := fresh "f" in let E := fresh "E" in remember x as f eqn:E; cbn [reprocessBuffer]; subst f end;
  apply tb_bind, tb_get; rewrite Hskip; cbv zeta; apply tb_bind, tb_ret; cbn [andb]; rewrite Hmode.

Lemma ready_skip r p b v : Ready r p b -> Ready r p (set_skipNewline v b).
Proof. intros (ks & ms & Hb & Hf). exists ks, ms. split; [by apply st_skipNewline|done]. Qed.

(** Reprocessing in a mode that does not reprocess again. *)
Lemma reprocess_at r p m ms n fuel c b : At r p m ms b -> m = InBody \/ tableMode m = true \/ m = InHead -> c <> [] ->
  wp (reprocessBuffer (fun token => process (1 + n) (CallStartTag token)) (fun name => process (1 + n) (CallEndTag name)) (S fuel) c) (fun rest b' => Consumed r (policy p) rest b') b.
Proof.
  intros Hat Hm Hc. apply skip_newline; [done| |by apply consumed, ready_skip, (at_ready r p m ms)]. intros b' c' Hc' _ Hb' Hskip.
  assert (H' : At r p m ms b') by (destruct Hb' as [->| ->]; [done|by apply at_skip]). clear Hb'. text_in Hskip (at_mode _ _ _ _ _ H').
  destruct Hm as [->|[Hm| ->]]; [apply (bodyText_ok r p InBody ms); [done|by left]| |by apply (inHeadText r p ms)].
  destruct m; try discriminate Hm; apply (tableText_ok _ _ _ _ _ _ H' Hm).
Qed.

(** Columns take only white space. *)
Lemma columnText_ok r p ms n fuel c b : At r p InColumnGroup ms b -> (forall c' b', At r p InColumnGroup ms b' -> c' <> [] -> (length c' < length c)%nat ->
    wp (reprocessBuffer (fun token => process (1 + n) (CallStartTag token)) (fun name => process (1 + n) (CallEndTag name)) (S fuel) c') (fun rest b' => Consumed r (policy p) rest b') b') ->
  wp (let! buffer := insertLeadingWhitespace c in
      if bool_decide (buffer = []) then ret []
      else
        let! closed := processColgroupEndTagForInColumnGroup in
        if closed then reprocessBuffer (fun token => process (1 + n) (CallStartTag token)) (fun name => process (1 + n) (CallEndTag name)) (S fuel) buffer
        else
          assertFragmentOrTemplate ;;
          let buffer := dropLeading (fun c => negb (CSSPreloadScanner.isHTMLSpace c)) buffer in
          if bool_decide (buffer = []) then ret [] else reprocessBuffer (fun token => process (1 + n) (CallStartTag token)) (fun name => process (1 + n) (CallEndTag name)) (S fuel) buffer)
    (fun rest b' => Consumed r (policy p) rest b') b.
Proof.
  intros Hat IH. pose proof Hat as (ks & Hb & Hok & Hc). eapply tb_use; [apply (leading_st _ _ _ _ _ _ _ Hb)|]. intros rest b1 [Er H1]. assert (H1' : At r p InColumnGroup ms b1) by (by exists ks).
  destruct (bool_decide_reflect (rest = [])) as [E|E]; [by apply consumed, (at_ready r p InColumnGroup ms)|].
  eapply tb_use; [by apply (colgroupEnd_ok r p ms)|]. intros [|] b2 Hv.
  - destruct Hv as [H2 _]. apply (reprocess_at r p InTable ms n fuel); [done|by right; left|done].
  - destruct Hv as [-> Hms]. destruct ms as [|m0 ms]; [done|]. eapply tb_use; [apply (assertTemplate_st _ _ _ _ _ _ _ H1 Hok)|]. intros ? b2 ->. cbv zeta.
    destruct (bool_decide_reflect (dropLeading (fun c => negb (CSSPreloadScanner.isHTMLSpace c)) rest = [])) as [E2|E2]; [by apply consumed, (at_ready r p InColumnGroup (m0 :: ms))|].
    apply IH; [done|done|]. rewrite Er in E |- *. by apply dropLeading_alternate.
Qed.

(** The text after a frameset. *)
Lemma afterFramesetText r p ks c b : St r p AfterAfterFrameset ks [] b -> fits AfterAfterFrameset ks [] ->
  wp (insertRemainingWhitespace c reconstruct) (fun rest b' => Consumed r (policy p) rest b') b.
Proof.
  intros Hb Hf. unfold insertRemainingWhitespace. apply tb_bind. destruct (bool_decide _); [by apply consumed, (ready_fits _ _ _ _ _ _ Hb)|].
  destruct (reconstruct_doc pluginElements (m_tree b) (st_doc _ _ _ _ _ _ Hb)) as (t' & E & H1 & H2 & l & Ek & Hl). apply tb_bind. unfold reconstruct. apply (tb_tree _ t'); [done|].
  assert (H' : St r p AfterAfterFrameset (l ++ ks) [] (set_tree t' b)) by (apply (st_tree _ _ _ _ _ _ _ _ Hb); [done|done|]; by rewrite Ek, (st_kinds _ _ _ _ _ _ Hb)).
  eapply tb_mono; [apply (keeps_text textLength _ _ _ _ _ _ _ H')|]. intros ? b' Hb'. apply consumed, (ready_fits _ _ _ _ _ _ Hb').
  destruct Hf as (_ & A & -> & HA). split; [done|]. exists (l ++ A). rewrite app_assoc. split; [done|]. by apply List.Forall_app.
Qed.

Lemma reprocess_ready r p n fuel c b : Ready r p b -> c <> [] -> (length c < fuel)%nat ->
  wp (reprocessBuffer (fun token => process (1 + n) (CallStartTag token)) (fun name => process (1 + n) (CallEndTag name)) (S fuel) c) (fun rest b' => Consumed r (policy p) rest b') b.
Proof.
  revert c b. induction fuel as [|fuel IH]; intros c b Hr Hc Hfuel; [lia|]. apply skip_newline; [done| |by apply consumed, ready_skip]. intros b' c' Hc' Hlen Hb' Hskip.
  assert (Hr' : Ready r p b') by (destruct Hb' as [->| ->]; [done|by apply ready_skip]). clear Hb' Hr Hc b. rename b' into b. pose proof Hr' as (ks & ms & Hb & Hf).
  assert (Hbody : forall m, okStack ks ms /\ ctx ks ms = m -> m_insertionMode b = m -> bodyMode m = true \/ m = TemplateContents -> wp (charactersInBody c') (fun rest b' => Consumed r (policy p) rest b') b).
  { intros m [Hok Hcx] Em Hm. apply (bodyText_ok r p m ms); [|done]. exists ks. split_and!; [by rewrite <- Em|done|done]. }
  assert (Htable : forall m, okStack ks ms /\ ctx ks ms = m -> m_insertionMode b = m -> tableMode m = true -> wp (charactersInTable c') (fun rest b' => Consumed r (policy p) rest b') b).
  { intros m [Hok Hcx] Em Hm. apply (tableText_ok r p m ms); [|done]. exists ks. split_and!; [by rewrite <- Em|done|done]. }
  assert (Htext : wp (insertTextNode c' ;; ret []) (fun rest b' => Consumed r (policy p) rest b') b).
  { eapply tb_use; [apply insertTextNode_ok; [done|apply Hb]|]. intros ? b' (l & ->). apply consumed. exists ks, ms. split; [by apply st_changed|done]. }
  destruct (m_insertionMode b) eqn:Em; try (by destruct Hf); text_in Hskip Em.
  - destruct Hf as [-> ->]. by apply beforeHeadText.
  - apply (inHeadText r p ms). by exists ks.
  - pose proof Hf as [-> ->]. eapply tb_use; [apply (leading_st _ _ _ _ _ _ _ Hb)|]. intros rest b1 [_ H1].
    destruct (bool_decide_reflect (rest = [])) as [E|E]; [by apply consumed, (ready_fits _ _ _ _ _ _ H1)|]. eapply tb_use; [by apply (noscriptEnd r p n)|]. intros ? b2 H2.
    apply (reprocess_at r p InHead [] n fuel); [done|by right; right|done].
  - apply (afterHeadText r p ms). by exists ks.
  - apply (Hbody _ Hf eq_refl). by right.
  - apply (Hbody _ Hf eq_refl). by left.
  - exact Htext.
  - by apply (Htable _ Hf eq_refl).
  - apply tb_bind. cbn [wp modify]. apply consumed. exists ks, ms. cbn [m_insertionMode set_pending]. rewrite Em. split; [|done]. destruct Hb. by constructor.
  - apply (Hbody _ Hf eq_refl). by left.
  - apply (columnText_ok r p ms n fuel); [by exists ks|]. intros c2 b2 H2 Hc2 Hl2. apply IH; [by apply (at_ready r p InColumnGroup ms)|done|lia].
  - by apply (Htable _ Hf eq_refl).
  - by apply (Htable _ Hf eq_refl).
  - apply (Hbody _ Hf eq_refl). by left.
  - exact Htext.
  - exact Htext.
  - pose proof Hf as (_ & _ & ->). eapply tb_use; [apply (afterBody_at r p AfterBody ks); [done|by left|done]|]. intros ? b2 H2. apply (reprocess_at r p InBody [] n fuel); [done|by left|done].
  - eapply tb_mono; [apply (remaining_st _ _ _ _ _ _ _ _ Hb), keeps_ret|]. intros rest b' [-> H']. by apply consumed, (ready_fits _ _ _ _ _ _ H').
  - eapply tb_mono; [apply (remaining_st _ _ _ _ _ _ _ _ Hb), keeps_ret|]. intros rest b' [-> H']. by apply consumed, (ready_fits _ _ _ _ _ _ H').
  - pose proof Hf as (_ & _ & ->). eapply tb_use; [apply (afterBody_at r p AfterAfterBody ks); [done|by right|done]|]. intros ? b2 H2. apply (reprocess_at r p InBody [] n fuel); [done|by left|done].
  - pose proof Hf as [-> _]. by apply afterFramesetText with (ks := ks).
Qed.

Lemma characters_ready r p n c b : Ready r p b -> c <> [] -> wp (process (2 + n) (CallCharacters c)) (fun _ b' => ReadyHead r (policy p) b') b.
Proof.
  intros Hr Hc. change (process (2 + n) (CallCharacters c)) with (processCharacterBuffer (fun token => process (1 + n) (CallStartTag token)) (fun name => process (1 + n) (CallEndTag name)) c).
  unfold processCharacterBuffer. apply tb_bind, tb_assert; [by rewrite bool_decide_eq_false_2|].
  eapply tb_use with (P := fun rest b' => Consumed r (policy p) rest b'); [|intros rest b' [-> Hb']; by apply tb_assert].
  rewrite (Nat.add_comm _ 3). cbn [Nat.add]. apply (reprocess_ready r p n); [done|done|lia].
Qed.

End Text.
