(* ===== verification/HTMLTreeBuilderDocument.v ===== *)
(** * Safety of the end of the file, of foreign content and before the html element

    The end of the file closes the open templates one by one and empties the stack of
    open elements, in every insertion mode of a document; tokens that are processed by the
    rules for foreign content when the current element is an element of SVG or MathML; the
    insertion modes in which the stack of open elements is still empty. *)
From S2P Require Import Prelude HTMLTokenizer CSSPreloadScanner HTMLStackItem HTMLElementStack HTMLElementStackProps HTMLElementStackProtocol HTMLFormattingElementList HTMLFormattingElementProps HTMLConstructionSite CompatibilityMode HTMLTreeBuilderState HTMLConstructionSiteProps AdoptionAgency.
From S2P Require Import HTMLTreeBuilder HTMLTreeBuilderKinds HTMLTreeBuilderSite HTMLTreeBuilderStack HTMLTreeBuilderRules HTMLTreeBuilderBody HTMLTreeBuilderStates HTMLTreeBuilderMoves HTMLTreeBuilderStart HTMLTreeBuilderEnd HTMLTreeBuilderTables HTMLTreeBuilderModes HTMLTreeBuilderTags HTMLTreeBuilderText.
From Stdlib Require Import String ZArith Lia.
From stdpp Require Import base list numbers option.
#[local] Open Scope Z_scope.
#[local] Open Scope builder_scope.
Import HTMLStackItem HTMLElementStack HTMLConstructionSite CompatibilityMode HTMLTreeBuilderState HTMLTreeBuilder.

(** Parsing has stopped. *)
Record Stopped (b : HTMLTreeBuilder) : Prop := mkStopped {
  stopped_stack : m_top (m_openElements (m_tree b)) = [];
  stopped_modes : m_templateInsertionModes b = [];
  stopped_context : m_fragmentContext b = None
}.

Section Finish.
Context `{env : Environment}.
Hypothesis pluginElements : forall n, isPluginElement n = true -> exists s, s ∈ ["applet"; "embed"; "object"]%string /\ nodeName n = htmlName s.
Hypothesis textLength : forall parent l position, (position < length l)%nat -> (createWithLengthLimit parent l position <= length l - position)%nat.

Lemma stop_ok r p m ks b : St r p m ks [] b -> wp stopParsing (fun _ b' => Stopped b') b.
Proof.
  intros Hb. pose proof (doc_nonempty _ (st_doc _ _ _ _ _ _ Hb)) as Hne. unfold stopParsing. apply tb_bind, tb_assert.
  - unfold topNode, topStackItem, topRecord. by destruct (records (m_tree b)).
  - eapply tb_stack; [reflexivity|]. constructor; [done|apply (st_modes _ _ _ _ _ _ Hb)|apply Hb].
Qed.

Lemma process_endOfFile n : process (S n) CallEndOfFile = processEndOfFile (fun token => process n (CallStartTag token)) (fun name => process n (CallEndTag name)) (process n CallEndOfFile).
Proof. done. Qed.

(** The innermost template is closed first. *)
Section Templates.
Variable endOfFile : TB unit.
Variables (r : bool) (p : Fixed) (ms : list InsertionMode).
Hypothesis IH : forall m0 ms' m ks b, ms = m0 :: ms' -> St r p m ks ms' b -> fits m ks ms' -> normal m = true \/ m = InSelectInTable -> wp endOfFile (fun _ b' => Stopped b') b.

Lemma eof_inTemplate m ks b : St r p m ks ms b -> settled m = true -> okStack ks ms ->
  wp (processEndOfFileForInTemplateContents endOfFile) (fun v b' => if v then Stopped b' else ms = [] /\ b' = b) b.
Proof.
  intros Hb Hm Hok. unfold processEndOfFileForInTemplateContents. eapply tb_use; [by apply (templateEnd_ok r p m ks ms)|]. intros v b' Hv. destruct ms as [|m0 ms'] eqn:Ems.
  - destruct Hv as [-> ->]. done.
  - destruct Hv as (-> & m' & ks' & H' & Hf & Hm'). cbn [negb]. eapply tb_use; [by apply (IH m0 ms' m' ks')|]. done.
Qed.

Lemma eof_templates m ks b : St r p m ks ms b -> settled m = true -> okStack ks ms -> wp (endOfFileWithTemplates endOfFile) (fun _ b' => Stopped b') b.
Proof.
  intros Hb Hm Hok. unfold endOfFileWithTemplates. apply tb_bind, tb_get. rewrite (st_modes _ _ _ _ _ _ Hb). destruct (rev ms) eqn:Er.
  - assert (Ems : ms = []) by (by apply (f_equal (@rev _)) in Er; rewrite rev_involutive in Er). rewrite Ems in Hb. apply tb_bind. cbn [wp ret]. by apply (stop_ok r p m ks).
  - eapply tb_use; [by apply (eof_inTemplate m ks)|]. intros [|] b' Hv; [done|]. destruct Hv as [Ems _]. by rewrite Ems in Er.
Qed.

Lemma eof_inBody m ks b : St r p m ks ms b -> okStack ks ms -> bool_decide (m ∈ [InBody; InCell; InCaption; InRow; TemplateContents]) = true ->
  wp (endOfFileInBody endOfFile) (fun _ b' => Stopped b') b.
Proof.
  intros Hb Hok Hm. unfold endOfFileInBody, assertMode. apply tb_bind, tb_assert; [by rewrite (st_mode _ _ _ _ _ _ Hb)|]. apply (eof_templates m ks); [done|by destruct m|done].
Qed.

Lemma eof_inTable m ks b : St r p m ks ms b -> okStack ks ms -> bool_decide (m ∈ [InSelect; InSelectInTable; InTable; InFrameset; InTableBody; InColumnGroup]) = true ->
  wp (endOfFileInTable endOfFile) (fun _ b' => Stopped b') b.
Proof.
  intros Hb Hok Hm. unfold endOfFileInTable, assertMode. apply tb_bind, tb_assert; [by rewrite (st_mode _ _ _ _ _ _ Hb)|]. apply (eof_templates m ks); [done|by destruct m|done].
Qed.

Lemma eof_inColumnGroup b : At r p InColumnGroup ms b -> wp (endOfFileInColumnGroup endOfFile) (fun _ b' => Stopped b') b.
Proof.
  intros Hat. pose proof Hat as (ks & Hb & Hok & Hc). unfold endOfFileInColumnGroup.
  assert (Hks : exists k C, ks = k :: C /\ (k = KColgroup \/ k = KTemplate)) by (destruct (shape_colgroup ks ms Hok Hc) as [(C & -> & _)|(C & ms' & -> & _)]; eexists _, C; (split; [done|]); [by left|by right]).
  destruct Hks as (k & C & -> & Hk). eapply tb_use; [apply (currentIsRoot_st _ _ _ _ _ _ _ Hb); by destruct Hk as [->| ->]|]. intros v b' [-> ->].
  destruct (current_st _ _ _ _ _ _ _ Hb) as (item & Ei & Hd & Hkd & _). apply tb_bind, (tb_query _ item); [done|].
  apply tb_bind, tb_assert; [rewrite !doc_node by done; destruct Hk as [->| ->]; by kind_of_item Hd Hkd|].
  eapply tb_use; [by apply (colgroupEnd_ok r p ms)|]. intros [|] b' Hv.
  - destruct Hv as [(ks' & H' & Hok' & Hc') _]. by apply (eof_inTable InTable ks').
  - destruct Hv as [-> _]. by apply (eof_inTable InColumnGroup (k :: C)).
Qed.

End Templates.

(** ** The head *)

Lemma eof_afterHead r p n endOfFile b : At r p AfterHead [] b -> wp (endOfFileAfterHead (fun token => process (1 + n) (CallStartTag token)) endOfFile) (fun _ b' => Stopped b') b.
Proof.
  intros Hat. unfold endOfFileAfterHead. apply tb_bind, tb_assert; [by rewrite (at_mode _ _ _ _ _ Hat)|]. eapply tb_use; [by apply (defaultAfterHead_ok pluginElements r p [] n)|]. intros ? b' H'.
  apply (eof_inBody endOfFile r p [] ltac:(done) InBody [KBody; KHtml]); [done|constructor|done].
Qed.

Lemma eof_inHead r p n endOfFile b : At r p InHead [] b ->
  wp (endOfFileInHead (fun token => process (1 + n) (CallStartTag token)) (fun name => process (1 + n) (CallEndTag name)) endOfFile) (fun _ b' => Stopped b') b.
Proof.
  intros Hat. unfold endOfFileInHead. apply tb_bind, tb_assert; [by rewrite (at_mode _ _ _ _ _ Hat)|]. eapply tb_use; [by apply (headEnd r p [] n)|]. intros ? b' H'. by apply (eof_afterHead r p).
Qed.

Lemma eof_beforeHead r p n endOfFile b : St r p BeforeHead [KHtml] [] b ->
  wp (endOfFileBeforeHead (fun token => process (1 + n) (CallStartTag token)) (fun name => process (1 + n) (CallEndTag name)) endOfFile) (fun _ b' => Stopped b') b.
Proof.
  intros Hb. unfold endOfFileBeforeHead. apply tb_bind, tb_assert; [by rewrite (st_mode _ _ _ _ _ _ Hb)|]. eapply tb_use; [by apply (headStart pluginElements r p n)|]. intros ? b' (h & H').
  by apply (eof_inHead r (withHead p h)).
Qed.

(** ** All modes *)

(** One round per open template is enough. *)
Lemma eof_fits r p n ms : forall m ks b, St r p m ks ms b -> fits m ks ms -> m <> InHeadNoscript -> wp (process (2 + length ms + n) CallEndOfFile) (fun _ b' => Stopped b') b.
Proof.
  induction ms as [ms IHms] using (induction_ltof1 _ (@length _)). unfold ltof in IHms. intros m ks b Hb Hf Hm.
  assert (IH : forall m0 ms' m ks b, ms = m0 :: ms' -> St r p m ks ms' b -> fits m ks ms' -> normal m = true \/ m = InSelectInTable ->
    wp (process (1 + length ms + n) CallEndOfFile) (fun _ b' => Stopped b') b).
  { intros m0 ms' m' ks' b' -> H' Hf' Hm'. apply (IHms ms') with (ks := ks') (m := m'); [cbn; lia|done|done|]. by intros ->; destruct Hm'. }
  assert (Hbody : okStack ks ms /\ ctx ks ms = m -> bool_decide (m ∈ [InBody; InCell; InCaption; InRow; TemplateContents]) = true -> wp (endOfFileInBody (process (1 + length ms + n) CallEndOfFile)) (fun _ b' => Stopped b') b).
  { intros [Hok _] Hin. by apply (eof_inBody _ r p ms IH m ks). }
  assert (Htable : okStack ks ms -> bool_decide (m ∈ [InSelect; InSelectInTable; InTable; InFrameset; InTableBody; InColumnGroup]) = true -> wp (endOfFileInTable (process (1 + length ms + n) CallEndOfFile)) (fun _ b' => Stopped b') b).
  { intros Hok Hin. by apply (eof_inTable _ r p ms IH m ks). }
  change (2 + length ms + n)%nat with (S (1 + length ms + n)). rewrite process_endOfFile. unfold processEndOfFile. apply tb_bind, tb_get. rewrite (st_mode _ _ _ _ _ _ Hb).
  destruct m; try (by destruct Hf); try solve [apply (Hbody Hf); done]; try solve [destruct Hf as [Hok _]; by apply (Htable Hok)].
  - destruct Hf as [-> ->]. by apply (eof_beforeHead r p n).
  - destruct Hf as [Hok Hc]. destruct (shape_head _ _ Hok Hc) as [-> ->]. apply (eof_inHead r p n). by exists [KHead; KHtml].
  - destruct Hf as [Hok Hc]. destruct (shape_afterHead _ _ Hok Hc) as [-> ->]. apply (eof_afterHead r p n). by exists [KHtml].
  - destruct Hf as [Hok Hc]. eapply tb_use; [by apply (eof_inTemplate _ r p ms IH TemplateContents ks)|]. intros [|] b' Hv; [done|]. destruct Hv as [-> ->]. by apply (stop_ok r p TemplateContents ks).
  - apply (eof_inColumnGroup _ r p ms IH). by exists ks.
  - destruct Hf as (_ & _ & ->). by apply (stop_ok r p AfterBody ks).
  - destruct Hf as [_ ->]. by apply (stop_ok r p AfterFrameset ks).
  - destruct Hf as (_ & _ & ->). by apply (stop_ok r p AfterAfterBody ks).
  - destruct Hf as [-> _]. by apply (stop_ok r p AfterAfterFrameset ks).
Qed.

Lemma eof_anyFits r p n ms m ks b : St r p m ks ms b -> fits m ks ms -> wp (process (3 + length ms + n) CallEndOfFile) (fun _ b' => Stopped b') b.
Proof.
  intros Hb Hf. destruct (decide (m = InHeadNoscript)) as [->|Hm].
  - destruct Hf as [-> ->]. cbn [Nat.add length]. rewrite process_endOfFile. unfold processEndOfFile. apply tb_bind, tb_get. rewrite (st_mode _ _ _ _ _ _ Hb).
    eapply tb_use; [by apply (noscriptEnd r p (1 + n))|]. intros ? b' (ks & H' & Hok & Hc). apply (eof_fits r p n [] InHead ks); [done|by split|done].
  - replace (3 + length ms + n)%nat with (2 + length ms + (1 + n))%nat by lia. by apply (eof_fits r p _ ms m ks).
Qed.

Lemma endOfFile_ready r p n b : Ready r p b -> wp (process (4 + length (m_templateInsertionModes b) + n) CallEndOfFile) (fun _ b' => Stopped b') b.
Proof.
  intros Hr. pose proof Hr as (ks & ms & Hb & Hf). rewrite (st_modes _ _ _ _ _ _ Hb), length_rev.
  destruct (decide (m_insertionMode b = Text)) as [Em|Em]; [|destruct (decide (m_insertionMode b = InTableText)) as [Em'|Em']].
  - rewrite Em in Hf, Hb. destruct Hf as (Hm & k & ks' & -> & Hk & Hf). cbn [Nat.add]. rewrite process_endOfFile. unfold processEndOfFile. apply tb_bind, tb_get. rewrite Em.
    eapply tb_use; [apply (tree_frame _ _ _ (pop_st r p Text k ks' ms b Hb (loose_plain k (textKind_loose k Hk)) ltac:(by apply fits_nonempty in Hf)))|]. intros ? b' [H' (t & ->)].
    apply tb_bind, tb_assert; [apply negb_true_iff, bool_decide_eq_false; cbn; by intros E; rewrite E in Hf|]. apply tb_bind. cbn [wp modify m_originalInsertionMode set_tree].
    apply (eof_anyFits r p n ms (m_originalInsertionMode b) ks'); [by apply (st_goto r p Text)|done].
  - cbn [Nat.add]. rewrite process_endOfFile. unfold processEndOfFile. apply tb_bind, tb_get. rewrite Em'. destruct (ready_flush pluginElements textLength r p b Hr Em') as (m & ms' & Hm & Ems & Hflush).
    rewrite (st_modes _ _ _ _ _ _ Hb) in Ems. apply (f_equal (@rev _)) in Ems. rewrite !rev_involutive in Ems. subst ms'.
    eapply tb_use; [exact Hflush|]. intros ? b' [(ks' & H' & Hok & Hc) _]. apply (eof_anyFits r p n ms m ks'); [done|]. rewrite <- Hc. by apply fits_ctx.
  - replace (4 + length ms + n)%nat with (3 + length ms + (1 + n))%nat by lia. apply (eof_anyFits r p _ ms _ ks _ Hb). by destruct (m_insertionMode b).
Qed.

End Finish.

(** ** Foreign content *)

Lemma integration_total u item : exists v, isHTMLIntegrationPoint u item = Some v.
Proof.
  destruct (isHTMLIntegrationPoint u item) as [v|] eqn:E; [by exists v|]. exfalso. revert E. unfold isHTMLIntegrationPoint. destruct (negb _); [done|]. destruct (hasTagName item (mathmlName "annotation-xml")) eqn:Et; [|done].
  unfold getAttributeItem. apply hasTagName_eq in Et as [-> _]. cbn. by destruct (findAttributeInVector _ _).
Qed.

(** ** States with a foreign element on top *)

(** Elements without structure can be opened and closed. *)
Record Foreign (r : bool) (p : Fixed) (m : InsertionMode) (ks : list Kind) (ms : list InsertionMode) (b : HTMLTreeBuilder) : Prop := mkForeign {
  foreign_st : St r p m ks ms b;
  foreign_ok : okStack ks ms;
  foreign_text : m <> Text;
  foreign_fits : forall ks', base ks' = base ks -> fits m ks' ms;
  foreign_top : exists ks', ks = KForeign :: ks'
}.

Lemma foreign_mode ks ms : okStack (KForeign :: ks) ms -> flexible (KForeign :: ks) ms.
Proof. intros H. by inversion H. Qed.

Lemma foreign_exchange m ks ms ks' : okStack (KForeign :: ks) ms -> ctx (KForeign :: ks) ms = m -> base ks' = base (KForeign :: ks) -> okStack ks' ms /\ ctx ks' ms = m.
Proof. intros H <- E. by apply ok_exchange; [|apply foreign_mode|]. Qed.

Lemma foreign_ready r p b item : Ready r p b -> topStackItem (m_openElements (m_tree b)) = Some item -> isInHTMLNamespace item = false -> exists m ks ms, Foreign r p m ks ms b.
Proof.
  intros (ks & ms & Hb & Hf) Ei Hn. pose proof (doc_nonempty _ (st_doc _ _ _ _ _ _ Hb)) as Hne. pose proof (st_kinds _ _ _ _ _ _ Hb) as Ek.
  destruct ks as [|k ks]; [unfold kinds in Ek; by destruct (records (m_tree b))|]. destruct (current_st _ _ _ _ _ _ _ Hb) as (item' & Ei' & Hd & Hk & _). rewrite Ei in Ei'. injection Ei' as <-.
  rewrite foreign_true in Hn by done. apply negb_false_iff, bool_decide_eq_true in Hn. rewrite Hn in Hk. subst k. exists (m_insertionMode b), (KForeign :: ks), ms.
  destruct (m_insertionMode b) eqn:Em; try (by destruct Hf); try (destruct Hf as [Hok Hc]; split; [done|done|done|intros ks' E; by apply (foreign_exchange _ ks)|by exists ks]).
  - destruct Hf as (_ & k & ks' & [= <- <-] & Hk & _). done.
  - by destruct Hf as (_ & Hs & _).
  - destruct Hf as (Hok & Hc & ->). split; [done|done|done| |by exists ks]. intros ks' E. by destruct (foreign_exchange _ ks [] ks' Hok Hc E).
  - destruct Hf as (Hok & Hc & ->). split; [done|done|done| |by exists ks]. intros ks' E. by destruct (foreign_exchange _ ks [] ks' Hok Hc E).
  - destruct Hf as (_ & A & E & HA). exfalso. destruct A as [|a A]; [done|]. injection E as <- _. by apply Forall_cons_iff in HA as [? _].
Qed.

Lemma foreign_keep r p m ks ms b ks' b' : Foreign r p m ks ms b -> St r p m ks' ms b' -> base ks' = base ks -> Ready r p b'.
Proof. intros Hb H' E. apply (ready_fits _ _ _ _ _ _ H'). by apply (foreign_fits _ _ _ _ _ _ Hb). Qed.

(** The foreign elements above the first element of HTML. *)
Lemma foreign_split t : docSite t -> forall item, topStackItem (m_openElements t) = Some item -> isInHTMLNamespace item = false ->
  exists RA g RB, records t = RA ++ g :: RB /\ RA <> [] /\ Forall (fun x => isInHTMLNamespace (m_item x) = false) RA /\ isInHTMLNamespace (m_item g) = true.
Proof.
  intros H item Ei Hn. assert (Hroot : exists x, x ∈ records t /\ isInHTMLNamespace (m_item x) = true).
  { destruct (inv_root _ (core_stack _ _ _ (doc_inv t H)) (doc_nonempty t H)) as (root & Hr & Hroot & _). exists root. split; [done|]. pose proof (doc_item t root H Hr) as Hd.
    rewrite foreign_true by done. rewrite kind_isRoot in Hroot by done. apply bool_decide_eq_true in Hroot. by rewrite Hroot. }
  unfold topStackItem, topRecord in Ei. revert item Ei Hn Hroot. clear H. induction (records t) as [|x l IH]; [done|]. intros item [= <-] Hn (y & Hy & Hyn).
  destruct l as [|z l]; [apply list_elem_of_singleton in Hy as ->; congruence|]. destruct (isInHTMLNamespace (m_item z)) eqn:Ez.
  - exists [x], z, l. split_and!; [done|done|by repeat constructor|done].
  - destruct (IH (m_item z)) as (RA & g & RB & -> & _ & HA & Hg); [done|done| |].
    { exists y. split; [|done]. apply elem_of_cons in Hy as [->|Hy]; [congruence|done]. }
    exists (x :: RA), g, RB. split_and!; [done|done|by constructor|done].
Qed.

Lemma foreign_kinds t RA l : docSite t -> records t = RA ++ l -> Forall (fun x => isInHTMLNamespace (m_item x) = false) RA -> Forall (fun k => k = KForeign) (kindsOf RA).
Proof.
  intros H E HA. apply (kindsOf_forall (fun k => k = KForeign)). rewrite list.Forall_forall in HA |- *. intros x Hx. specialize (HA x Hx).
  rewrite foreign_true in HA; [by apply negb_false_iff, bool_decide_eq_true in HA|]. apply (doc_item t); [done|]. rewrite E. apply elem_of_app. by left.
Qed.

Lemma all_foreign (P : Kind -> Prop) A : P KForeign -> Forall (fun k => k = KForeign) A -> Forall P A.
Proof. intros HP HA. eapply List.Forall_impl; [|exact HA]. by intros k ->. Qed.

Section Foreign.
Context `{env : Environment}.
Hypothesis pluginElements : forall n, isPluginElement n = true -> exists s, s ∈ ["applet"; "embed"; "object"]%string /\ nodeName n = htmlName s.
Hypothesis textLength : forall parent l position, (position < length l)%nat -> (createWithLengthLimit parent l position <= length l - position)%nat.
Hypothesis searchable : searchableIndexIntroduction <> [].

(** Popping foreign elements down to the first one that stops. *)
Lemma foreign_popped r p m ks ms b stop : Foreign r p m ks ms b -> (forall item, exists v, stop item = Some v) -> (forall item, docItem item -> isInHTMLNamespace item = true -> stop item = Some true) ->
  wp (stack (popWhile stop)) (fun _ b' => Ready r p b' /\ m_insertionMode b' = m) b.
Proof.
  intros Hb Htotal Hstop. pose proof (foreign_st _ _ _ _ _ _ Hb) as Hs. pose proof (st_doc _ _ _ _ _ _ Hs) as Hd. destruct (foreign_top _ _ _ _ _ _ Hb) as (ks' & ->).
  destruct (current_st _ _ _ _ _ _ _ Hs) as (item & Ei & Hdi & Hk & _).
  destruct (foreign_split (m_tree b) Hd item Ei) as (RA & g & RB & Er & _ & HA & Hg); [rewrite foreign_true by done; by rewrite Hk|].
  assert (Hsplit : exists A1 x A2, RA ++ g :: RB = A1 ++ x :: A2 /\ Forall (fun y => isInHTMLNamespace (m_item y) = false) A1 /\ Forall (fun y => stop (m_item y) = Some false) A1 /\ stop (m_item x) = Some true).
  { assert (Hdg : docItem (m_item g)) by (apply (doc_item (m_tree b)); [done|]; rewrite Er; apply elem_of_app; right; left). clear Er. induction HA as [|x RA Hx HA IH].
    - exists [], g, RB. split_and!; [done|constructor|constructor|by apply Hstop].
    - destruct (Htotal (m_item x)) as ([|] & Ev); [exists [], x, (RA ++ g :: RB); split_and!; [done|constructor|constructor|done]|].
      cbn [app]. destruct IH as (A1 & y & A2 & -> & H1 & H2 & H3). exists (x :: A1), y, A2. split_and!; [done|by constructor|by constructor|done]. }
  destruct Hsplit as (A1 & x & A2 & Es & H1 & H2 & H3). rewrite Es in Er. pose proof (st_kinds _ _ _ _ _ _ Hs) as Ek. unfold kinds in Ek. rewrite Er, map_app in Ek. cbn [map] in Ek.
  pose proof (foreign_kinds _ A1 _ Hd Er H1) as HF. rewrite <- Ek in Hs, Hb.
  eapply tb_mono; [apply (popTo_st r p m _ _ _ ms b stop x A1 A2 Hs Er eq_refl); [by apply (all_foreign (fun k => plainKind k = true))|done|done]|]. intros ? b' [H' _].
  split; [|apply H']. apply (foreign_keep _ _ _ _ _ _ _ _ Hb H'). symmetry. apply base_loose. by apply (all_foreign (fun k => loose k = true)).
Qed.

(** ** Calls from outside *)

Lemma call_start r p token b : Ready r p b -> permitted token b -> wp (processCall (CallStartTag token)) (fun _ b' => ReadyHead r (policy p) b') b.
Proof.
  intros Hb Hp. unfold processCall. apply tb_bind, tb_get. unfold rounds. pose proof (buttons_records b) as Hk.
  apply (startTag_ready pluginElements textLength searchable r p (11 + length (m_templateInsertionModes b) + length (records (m_tree b))) token b Hb Hp). lia.
Qed.

Lemma call_end r p name b : Ready r p b -> permittedEnd name b -> wp (processCall (CallEndTag name)) (fun _ b' => ReadyHead r (policy p) b') b.
Proof.
  intros Hb Hp. unfold processCall. apply tb_bind, tb_get. unfold rounds.
  apply (endTag_ready pluginElements textLength r p (11 + length (m_templateInsertionModes b) + length (records (m_tree b))) name b Hb Hp).
Qed.

(** ** Tokens *)

Lemma foreign_namespace r p m ks ms b item : Foreign r p m ks ms b -> topStackItem (m_openElements (m_tree b)) = Some item -> exists ns, m_namespaceURI item = Some ns /\ ns <> xhtmlNamespaceURI.
Proof.
  intros Hb Ei. pose proof (foreign_st _ _ _ _ _ _ Hb) as Hs. pose proof (st_doc _ _ _ _ _ _ Hs) as Hd. destruct (foreign_top _ _ _ _ _ _ Hb) as (ks' & ->).
  destruct (current_st _ _ _ _ _ _ _ Hs) as (item' & Ei' & Hdi & Hk & _). rewrite Ei in Ei'. injection Ei' as <-.
  assert (Hns : is_Some (m_namespaceURI item)).
  { unfold topStackItem, topRecord in Ei. destruct (records (m_tree b)) as [|x l] eqn:Er; [done|]. injection Ei as <-. apply (doc_namespace (m_tree b)); [done|]. rewrite Er. left. }
  destruct Hns as [ns E]. exists ns. split; [done|]. intros ->. destruct (item_cases item Hdi) as [[_ ?]|(n & _ & _ & E3)]; [done|]. rewrite Hk in E3. symmetry in E3. by apply nameKind_foreign in E3.
Qed.

Lemma foreign_insert r p m ks ms b token ns : Foreign r p m ks ms b -> ns <> xhtmlNamespaceURI -> wp (tree (insertForeignElement token ns)) (fun _ b' => Ready r p b') b.
Proof.
  intros Hb Hns. pose proof (foreign_st _ _ _ _ _ _ Hb) as Hs. destruct (insertForeign_ok pluginElements token ns (m_tree b) (st_doc _ _ _ _ _ _ Hs) Hns) as (t' & E & Ht). apply (tb_tree _ t'); [done|].
  destruct Ht as [(T1 & T2 & _ & T3)|Hp].
  - apply (foreign_keep _ _ _ _ _ _ ks _ Hb); [|done]. apply (st_tree r p m ks); try done. unfold kinds. rewrite T3. apply (st_kinds _ _ _ _ _ _ Hs).
  - pose proof Hp as (T1 & T2 & _). apply (foreign_keep _ _ _ _ _ _ (KForeign :: ks) _ Hb); [|done]. apply (st_tree r p m ks); try done. rewrite (pushed_kinds _ _ _ _ Hp). f_equal. apply (st_kinds _ _ _ _ _ _ Hs).
Qed.

Lemma leaves_names token : leavesForeignContent token = true -> tokenName token <> lit "frameset" /\ tokenName token <> lit "col".
Proof. intros H. split; intros E; unfold leavesForeignContent, isNumberedHeaderTag in H; rewrite E in H; vm_compute in H; discriminate H. Qed.

Lemma foreign_startTag r p m ks ms b token : Foreign r p m ks ms b -> tokenOK token -> wp (processStartTagInForeignContent token) (fun _ b' => ReadyHead r (policy p) b') b.
Proof.
  intros Hb Htok. unfold processStartTagInForeignContent. destruct (leavesForeignContent token) eqn:El.
  - eapply tb_use; [apply (foreign_popped r p m ks ms b _ Hb)|].
    + intros item. unfold isForeignContentScopeMarker. destruct (isMathMLTextIntegrationPoint item); [by eexists|]. destruct (integration_total u_foldCase item) as ([|] & ->); by eexists.
    + intros item Hd Hn. destruct (foreign_total u_foldCase item (proj1 Hd)) as (v & -> & Hv). by rewrite Hv.
    + intros ? b' [H' Em]. apply call_start; [done|]. destruct (leaves_names token El) as [N1 N2]. constructor; [done|rewrite Em; by apply (foreign_text _ _ _ _ _ _ Hb)|done|done].
  - destruct (foreign_top _ _ _ _ _ _ Hb) as (ks' & ->). pose proof (foreign_st _ _ _ _ _ _ Hb) as Hs. destruct (current_st _ _ _ _ _ _ _ Hs) as (item & Ei & _).
    destruct (foreign_namespace _ _ _ _ _ _ _ Hb Ei) as (ns & En & Hns). apply tb_bind, (tb_query _ item); [done|]. apply tb_bind, (tb_ask _ ns); [done|]. cbv zeta.
    eapply tb_mono; [by apply (foreign_insert _ _ _ _ _ _ _ _ Hb)|]. intros ? b'. apply readyHead.
Qed.

(** The loop finds a foreign element with the name, or reaches an element of HTML. *)
Lemma foreignLoop_ok name RA g RB : RA <> [] -> Forall (fun x => docItem (m_item x)) RA -> Forall (fun x => isInHTMLNamespace (m_item x) = false) RA -> isInHTMLNamespace (m_item g) = true ->
  exists v, foreignLoop name (RA ++ g :: RB) = Some v /\ (forall e, v = Some e -> exists A1 x A2, RA = A1 ++ x :: A2 /\ e = nodeOf x).
Proof.
  intros Hne Hd HA Hg. induction HA as [|x RA Hx HA IH]; [done|]. apply Forall_cons_iff in Hd as [Hdx Hd]. cbn [app foreignLoop]. destruct (hasLocalName (m_item x) name).
  { rewrite (wellFormed_element _ (proj1 Hdx) (proj2 Hdx)). eexists. split; [reflexivity|]. intros e [= <-]. by exists [], x, RA. }
  destruct RA as [|y RA].
  - cbn [app]. rewrite Hg. by exists None.
  - cbn [app] in *. apply Forall_cons_iff in HA as Hy. destruct Hy as [-> _]. destruct IH as (v & -> & Hv); [done|done|]. exists v. split; [done|]. intros e Ev.
    destruct (Hv e Ev) as (A1 & z & A2 & -> & ->). by exists (x :: A1), z, A2.
Qed.

Lemma foreign_endTag r p m ks ms b name : Foreign r p m ks ms b -> wp (processEndTagInForeignContent name) (fun _ b' => ReadyHead r (policy p) b') b.
Proof.
  intros Hb. pose proof (foreign_st _ _ _ _ _ _ Hb) as Hs. pose proof (st_doc _ _ _ _ _ _ Hs) as Hd. destruct (foreign_top _ _ _ _ _ _ Hb) as (ks' & ->).
  destruct (current_st _ _ _ _ _ _ _ Hs) as (item & Ei & Hdi & Hk & Etop). unfold processEndTagInForeignContent. apply tb_bind, (tb_query _ item); [done|]. cbv zeta.
  set (name' := if bool_decide _ then _ else _). assert (Hhtml : isInHTMLNamespace item = false) by (rewrite foreign_true by done; by rewrite Hk).
  assert (Hne : ks' <> []) by (intros ->; pose proof (foreign_ok _ _ _ _ _ _ Hb) as Hok; by apply ok_tail, ok_nonempty in Hok).
  destruct (_ && _).
  - apply tb_bind, tb_get. assert (H1 : wp (if scriptingContentIsAllowed (m_parserContentPolicy (m_tree b)) then let! script := query top in modify (set_script (Some script)) else ret tt)
      (fun _ b' => St r p m (KForeign :: ks') ms b') b).
    { destruct (scriptingContentIsAllowed _); [|done]. apply tb_bind, (tb_query _ (m_node item)); [done|]. by apply st_script. }
    eapply tb_use; [exact H1|]. intros ? b1 G1. eapply tb_mono; [by apply (pop_st _ _ _ _ _ _ _ G1)|]. intros ? b2 G2. apply readyHead. by apply (foreign_keep _ _ _ _ _ _ _ _ Hb G2).
  - rewrite Hhtml. destruct (foreign_split (m_tree b) Hd item Ei Hhtml) as (RA & g & RB & Er & HRA & HA & Hg).
    destruct (foreignLoop_ok name' RA g RB HRA) as (v & Ev & Hv); [|done|done|].
    { rewrite list.Forall_forall. intros x Hx. apply (doc_item (m_tree b)); [done|]. rewrite Er. apply elem_of_app. by left. }
    apply tb_bind, (tb_query _ v); [by rewrite Er|]. destruct v as [e|].
    + destruct (Hv e eq_refl) as (A1 & x & A2 & -> & ->). rewrite <- app_assoc in Er. cbn [app] in Er. destruct (stop_node (m_tree b) A1 x _ Hd Er) as [S1 S2].
      pose proof (st_kinds _ _ _ _ _ _ Hs) as Ek. unfold kinds in Ek. rewrite Er, map_app in Ek. cbn [map] in Ek. apply List.Forall_app in HA as [HA1 HA2]. apply Forall_cons_iff in HA2 as [Hx _].
      pose proof (foreign_kinds _ A1 _ Hd Er HA1) as HF. assert (Hkx : kindOf (m_item x) = KForeign).
      { rewrite foreign_true in Hx; [by apply negb_false_iff, bool_decide_eq_true in Hx|]. apply (doc_item (m_tree b)); [done|]. rewrite Er. apply elem_of_app. right. left. }
      rewrite Hkx in Ek. rewrite <- Ek in Hs, Hb.
      eapply tb_mono; [apply (popAway_st r p m _ _ _ ms b _ x A1 _ Hs Er eq_refl)|]; [by destruct A2| |exact S1|exact S2|].
      * apply List.Forall_app. split; [by apply (all_foreign (fun k => plainKind k = true))|by constructor].
      * intros ? b' [H' _]. apply readyHead, (foreign_keep _ _ _ _ _ _ _ _ Hb H'). symmetry. rewrite base_loose by (by apply (all_foreign (fun k => loose k = true))). done.
    + apply call_end; [|by intros Et; destruct (foreign_text _ _ _ _ _ _ Hb); rewrite <- Et; symmetry; apply Hs]. by apply (foreign_keep _ _ _ _ _ _ _ _ Hb Hs).
Qed.

Lemma foreign_token r p m ks ms b token : Foreign r p m ks ms b -> match token with Uninitialized | EndOfFile => False | StartTag t => tokenOK t | _ => True end ->
  wp (processTokenInForeignContent token) (fun _ b' => ReadyHead r (policy p) b') b.
Proof.
  intros Hb Hok. pose proof (foreign_st _ _ _ _ _ _ Hb) as Hs. assert (Hready : forall b', St r p m ks ms b' -> ReadyHead r (policy p) b') by (intros b' H'; by apply readyHead, (foreign_keep _ _ _ _ _ _ _ _ Hb H')).
  destruct token; try done; cbn [processTokenInForeignContent].
  - by apply Hready.
  - by apply (foreign_startTag r p m ks ms).
  - by apply (foreign_endTag r p m ks ms).
  - destruct (insertComment_ok pluginElements (m_tree b) (st_doc _ _ _ _ _ _ Hs)) as (t' & E & T1 & T2 & _ & T3). apply (tb_tree _ t'); [done|]. apply Hready, (st_tree r p m ks); try done.
    unfold kinds. rewrite T3. apply (st_kinds _ _ _ _ _ _ Hs).
  - eapply tb_use; [by apply (keeps_text textLength r p m ks ms)|]. intros ? b1 H1. apply tb_bind, tb_get. destruct (_ && _); [|by apply Hready]. apply Hready. by apply st_framesetOk.
Qed.

End Foreign.

(** ** Before the html element *)

(** ** The empty stack *)

Record Early (pol : ParserContentPolicy) (m : InsertionMode) (b : HTMLTreeBuilder) : Prop := mkEarly {
  early_stack : m_openElements (m_tree b) = newStack;
  early_list : m_activeFormattingElements (m_tree b) = [];
  early_head : m_head (m_tree b) = None;
  early_form : m_form (m_tree b) = None;
  early_fragment : m_isParsingFragment (m_tree b) = false;
  early_policy : m_parserContentPolicy (m_tree b) = pol;
  early_redirect : m_redirectAttachToFosterParent (m_tree b) = false;
  early_context : m_fragmentContext b = None;
  early_mode : m_insertionMode b = m;
  early_modes : m_templateInsertionModes b = [];
  early_pending : m_pendingTableCharacters b = []
}.

Lemma early_changed pol m b c : Early pol m b -> Early pol m (changed c b).
Proof. intros []. by constructor. Qed.
Lemma early_quirks pol m b v : Early pol m b -> Early pol m (set_quirks v b).
Proof. intros []. by constructor. Qed.
Lemma early_skip pol m b v : Early pol m b -> Early pol m (set_skipNewline v b).
Proof. intros []. by constructor. Qed.
Lemma early_tokenizer pol m b v : Early pol m b -> Early pol m (set_tokenizer v b).
Proof. intros []. by constructor. Qed.
Lemma early_script pol m b v : Early pol m b -> Early pol m (set_script v b).
Proof. intros []. by constructor. Qed.
Lemma early_goto pol m m' b : Early pol m b -> Early pol m' (set_mode m' b).
Proof. intros []. by constructor. Qed.
Lemma early_enqueue pol m b q k : Early pol m b -> Early pol m (set_tree (enqueue q (set_nextNode k (m_tree b))) b).
Proof. intros []. by constructor. Qed.
Lemma early_executed pol m b : Early pol m b -> Early pol m (set_tree (set_queue [] (m_tree b)) b).
Proof. intros []. by constructor. Qed.

(** A state between two tokens of a document. *)
Definition Live (pol : ParserContentPolicy) (b : HTMLTreeBuilder) : Prop := Early pol Initial b \/ Early pol BeforeHTML b \/ ReadyHead false pol b.

Section Document.
Context `{env : Environment}.
Hypothesis pluginElements : forall n, isPluginElement n = true -> exists s, s ∈ ["applet"; "embed"; "object"]%string /\ nodeName n = htmlName s.
Hypothesis textLength : forall parent l position, (position < length l)%nat -> (createWithLengthLimit parent l position <= length l - position)%nat.
Hypothesis searchable : searchableIndexIntroduction <> [].

(** Nothing is redirected yet. *)
Lemma attach_early t p n selfClosing : m_redirectAttachToFosterParent t = false -> attachable (m_parserContentPolicy t) n -> exists q, attachLater p n selfClosing t = Some (enqueue q t).
Proof.
  intros Hr [Hs Hp]. unfold attachLater.
  assert (E1 : (scriptingContentIsAllowed (m_parserContentPolicy t) || negb (isElement n) || negb (isScriptElement n))%bool = true)
    by (destruct Hs as [->| ->]; by rewrite ?orb_true_r).
  assert (E2 : (pluginContentIsAllowed (m_parserContentPolicy t) || negb (isPluginElement n))%bool = true) by (destruct Hp as [->| ->]; by rewrite ?orb_true_r).
  rewrite E1, E2. unfold shouldFosterParent. rewrite Hr. cbn [negb]. by eexists.
Qed.

Lemma early_comment pol m b : Early pol m b -> wp (tree insertCommentOnDocument) (fun _ b' => Early pol m b') b.
Proof.
  intros Hb. destruct (attach_early (set_nextNode (S (nextNode (m_tree b))) (m_tree b)) (m_attachmentRoot (m_tree b)) (mkNode (nextNode (m_tree b)) (mkName (lit "#comment") None) false) false) as (q & E);
    [apply Hb|by apply attachable_other|]. eapply tb_tree; [exact E|]. by apply early_enqueue.
Qed.

Lemma early_doctype pol m b name publicId systemId forceQuirks : Early pol m b -> wp (insertDoctype name publicId systemId forceQuirks) (fun _ b' => Early pol m b') b.
Proof.
  intros Hb. unfold insertDoctype. destruct (attach_early (set_nextNode (S (nextNode (m_tree b))) (m_tree b)) (m_attachmentRoot (m_tree b)) (mkNode (nextNode (m_tree b)) (mkName name None) false) false) as (q & E);
    [apply Hb|by apply attachable_other|]. apply tb_bind. eapply tb_tree; [exact E|]. apply (early_enqueue pol m b q (S (nextNode (m_tree b)))) in Hb.
  apply tb_bind, tb_assert; [by rewrite (early_fragment _ _ _ Hb)|]. destruct forceQuirks; by apply early_changed, early_quirks.
Qed.

Lemma early_default pol m b : Early pol m b -> wp defaultForInitial (fun _ b' => Early pol BeforeHTML b') b.
Proof.
  intros Hb. unfold defaultForInitial, setDefaultCompatibilityMode. apply tb_bind, tb_bind, tb_get. destruct (m_isParsingFragment _); [by apply (early_goto pol m)|].
  destruct isSrcdocDocument; [by apply (early_goto pol m)|]. apply (early_goto pol m). by apply early_changed, early_quirks.
Qed.

(** ** The html element *)

Lemma early_html pol b token : Early pol BeforeHTML b -> tokenName token = lit "html" ->
  wp (insertHTMLHtmlStartTagBeforeHTML token ;; setInsertionMode BeforeHead) (fun _ b' => St false (mkFixed pol None) BeforeHead [KHtml] [] b') b.
Proof.
  intros Hb Hn. set (node := mkNode (nextNode (m_tree b)) (htmlName "html") true). set (t1 := set_nextNode (S (nextNode (m_tree b))) (m_tree b)).
  destruct (attach_early t1 (m_attachmentRoot t1) node false) as (q & Eq); [apply Hb|apply attachable_html; [done|]; unfold attachableName; by rewrite !orb_true_r|].
  set (item := mkItem node (Some (tokenName token)) (setAttributes (htmlName "html") (tokenAttributes token) (m_tree b)) (Some xhtmlNamespaceURI) false).
  assert (Hw : wellFormed item) by (unfold wellFormed, item; cbn; by rewrite Hn). assert (Hd : docItem item) by done.
  assert (Hk : kindOf item = KHtml) by (rewrite (kindOf_html item (tokenName token)) by done; by rewrite Hn).
  assert (Ht : hasTagName item (htmlName "html") = true) by (by kind_of_item Hd Hk).
  assert (Ep : exists s', pushHTMLHtmlElement item newStack = Some s' /\ inv s' /\ m_top s' = [mkRecord 0 item]).
  { destruct (pushRootNodeCommon item newStack) as [s'|] eqn:Es; [|discriminate Es]. exists s'. unfold pushHTMLHtmlElement. rewrite Ht. split; [done|]. split.
    - apply (push_root_inv item newStack); [apply inv_new|done|by rewrite kind_isRoot, Hk|done].
    - unfold pushRootNodeCommon, pushCommon in Es. cbn in Es. by injection Es as <-. }
  destruct Ep as (s' & Ep & Hi & Etop). unfold insertHTMLHtmlStartTagBeforeHTML. apply tb_bind, tb_bind. apply (tb_tree _ (set_open s' (enqueue q t1))).
  { unfold insertHTMLHtmlElement. fold node. fold item. cbv zeta. fold t1. rewrite Eq. cbn [m_openElements enqueue]. change (m_openElements t1) with (m_openElements (m_tree b)).
    by rewrite (early_stack _ _ _ Hb), Ep. }
  cbn. destruct Hb. constructor; cbn; try done.
  constructor; cbn; try congruence.
  - constructor; cbn.
    + done.
    + by rewrite Etop.
    + rewrite early_list0. split; [constructor|apply NoDup_nil_2].
    + rewrite early_list0. constructor.
    + rewrite Etop. constructor; [cbn; lia|constructor].
    + rewrite early_list0. constructor.
    + rewrite early_list0. intros ? ? _ Hin. by apply not_elem_of_nil in Hin.
  - rewrite Etop. constructor; [split; [done|by eexists]|constructor].
  - unfold kinds. cbn. rewrite Etop. cbn. by rewrite Hk.
Qed.

(** ** Tags, characters and the end of the file *)

Lemma beforeHTMLStart pol n token b : Early pol BeforeHTML b -> tokenOK token ->
  wp (startTagBeforeHTML (fun token => process (2 + n) (CallStartTag token)) (fun name => process (2 + n) (CallEndTag name)) (fun c => process (2 + n) (CallCharacters c)) token)
    (fun _ b' => ReadyHead false pol b') b.
Proof.
  intros Hb Htok. unfold startTagBeforeHTML. apply tb_bind, tb_assert; [by rewrite (early_mode _ _ _ Hb)|]. name_case E1.
  - apply isTag_eq in E1. eapply tb_mono; [by apply (early_html pol)|]. intros ? b' H'. apply (readyHead false (mkFixed pol None)). by apply (ready_fits _ _ _ _ _ _ H').
  - eapply tb_use; [by apply (early_html pol)|]. intros ? b' H'. by apply (beforeHeadStart pluginElements textLength searchable false (mkFixed pol None) n).
Qed.

Lemma beforeHTMLEnd pol n name b : Early pol BeforeHTML b ->
  wp (endTagBeforeHTML (fun token => process (2 + n) (CallStartTag token)) (fun name => process (2 + n) (CallEndTag name)) name) (fun _ b' => Live pol b') b.
Proof.
  intros Hb. unfold endTagBeforeHTML. apply tb_bind, tb_assert; [by rewrite (early_mode _ _ _ Hb)|]. destruct (negb _); [by right; left|].
  eapply tb_use; [by apply (early_html pol)|]. intros ? b' H'. eapply tb_mono; [by apply (beforeHeadEnd pluginElements false (mkFixed pol None) n)|]. intros ? b2 H2. by right; right.
Qed.

Lemma beforeHTMLText pol n c b : Early pol BeforeHTML b ->
  wp (charactersBeforeHTML (fun token => process (1 + n) (CallStartTag token)) (fun name => process (1 + n) (CallEndTag name)) c) (fun rest b' => rest = [] /\ Live pol b') b.
Proof.
  intros Hb. unfold charactersBeforeHTML. apply tb_bind, tb_assert; [by rewrite (early_mode _ _ _ Hb)|]. destruct (bool_decide (_ = [])); [by split; [|right; left]|].
  eapply tb_use; [by apply (early_html pol)|]. intros ? b' H'. eapply tb_mono; [by apply (beforeHeadText pluginElements textLength false (mkFixed pol None) n)|].
  intros rest b2 [-> H2]. by split; [|right; right].
Qed.

Lemma early_startTag pol m n token b : Early pol m b -> m = Initial \/ m = BeforeHTML -> tokenOK token -> wp (process (3 + n) (CallStartTag token)) (fun _ b' => ReadyHead false pol b') b.
Proof.
  intros Hb Hm Htok. cbn [Nat.add]. rewrite process_startTag. unfold processStartTag. apply tb_bind, tb_get. rewrite (early_mode _ _ _ Hb). destruct Hm as [->| ->]; [|by apply (beforeHTMLStart pol n)].
  eapply tb_use; [by apply (early_default pol Initial)|]. intros ? b' H'. by apply (beforeHTMLStart pol n).
Qed.

Lemma early_endTag pol m n name b : Early pol m b -> m = Initial \/ m = BeforeHTML -> wp (process (3 + n) (CallEndTag name)) (fun _ b' => Live pol b') b.
Proof.
  intros Hb Hm. cbn [Nat.add]. rewrite process_endTag. unfold processEndTag. apply tb_bind, tb_get. rewrite (early_mode _ _ _ Hb). destruct Hm as [->| ->]; [|by apply (beforeHTMLEnd pol n)].
  eapply tb_use; [by apply (early_default pol Initial)|]. intros ? b' H'. by apply (beforeHTMLEnd pol n).
Qed.

Lemma early_text pol m n c b : Early pol m b -> m = Initial \/ m = BeforeHTML -> c <> [] -> wp (process (2 + n) (CallCharacters c)) (fun _ b' => Live pol b') b.
Proof.
  intros Hb Hm Hc. change (process (2 + n) (CallCharacters c)) with (processCharacterBuffer (fun token => process (1 + n) (CallStartTag token)) (fun name => process (1 + n) (CallEndTag name)) c).
  assert (Hlive : forall b, Early pol m b -> Live pol b) by (intros b0 H0; destruct Hm as [->| ->]; [by left|by right; left]).
  unfold processCharacterBuffer. apply tb_bind, tb_assert; [by rewrite bool_decide_eq_false_2|].
  eapply tb_use with (P := fun rest b' => rest = [] /\ Live pol b'); [|intros rest b' [-> Hb']; by apply tb_assert].
  rewrite (Nat.add_comm _ 3). cbn [Nat.add]. apply skip_newline; [done| |split; [done|by apply Hlive, early_skip]]. intros b' c' Hc' _ Hb' Hskip.
  assert (H' : Early pol m b') by (destruct Hb' as [->| ->]; [done|by apply early_skip]). clear Hb'. cbn [reprocessBuffer]. apply tb_bind, tb_get. rewrite Hskip. cbv zeta. apply tb_bind, tb_ret. cbn [andb].
  rewrite (early_mode _ _ _ H'). destruct Hm as [->| ->]; [|by apply (beforeHTMLText pol n)].
  unfold charactersInitial. destruct (bool_decide (_ = [])); [split; [done|by apply Hlive]|]. eapply tb_use; [by apply (early_default pol Initial)|]. intros ? b2 H2. by apply (beforeHTMLText pol n).
Qed.

Lemma early_endOfFile pol m n b : Early pol m b -> m = Initial \/ m = BeforeHTML -> wp (process (2 + n) CallEndOfFile) (fun _ b' => Stopped b') b.
Proof.
  intros Hb Hm. cbn [Nat.add]. rewrite process_endOfFile. unfold processEndOfFile. apply tb_bind, tb_get. rewrite (early_mode _ _ _ Hb).
  assert (H : forall b, Early pol BeforeHTML b -> wp (endOfFileBeforeHTML (fun token => process (1 + n) (CallStartTag token)) (fun name => process (1 + n) (CallEndTag name)) (process (1 + n) CallEndOfFile)) (fun _ b' => Stopped b') b).
  { intros b0 H0. unfold endOfFileBeforeHTML. apply tb_bind, tb_assert; [by rewrite (early_mode _ _ _ H0)|]. eapply tb_use; [by apply (early_html pol)|]. intros ? b' H'.
    by apply (eof_beforeHead pluginElements false (mkFixed pol None) n). }
  destruct Hm as [->| ->]; [|by apply H]. eapply tb_use; [by apply (early_default pol Initial)|]. intros ? b' H'. by apply H.
Qed.

End Document.
