(* ===== verification/HTMLTreeBuilderSafety.v ===== *)
(** * Safety of the tree builder

    The tree builder of a document processes every token that it may be given, no
    matter what it has processed before: no assertion fails, no null pointer is
    dereferenced, the recursion and all loops end, and the end of the file leaves nothing
    open. *)
From S2P Require Import Prelude HTMLTokenizer CompatibilityMode HTMLStackItem HTMLElementStack HTMLElementStackProps HTMLElementStackProtocol HTMLFormattingElementList HTMLFormattingElementProps HTMLConstructionSite HTMLConstructionSiteProps AdoptionAgency CSSPreloadScanner HTMLTreeBuilderState HTMLTreeBuilder HTMLTreeBuilderKinds HTMLTreeBuilderSite HTMLTreeBuilderStack HTMLTreeBuilderRules HTMLTreeBuilderBody HTMLTreeBuilderStates HTMLTreeBuilderMoves HTMLTreeBuilderStart HTMLTreeBuilderEnd HTMLTreeBuilderTables HTMLTreeBuilderModes HTMLTreeBuilderTags HTMLTreeBuilderText HTMLTreeBuilderDocument HTMLTreeBuilderExamples.
From Stdlib Require Import String ZArith Lia.
From stdpp Require Import base list numbers option.
#[local] Open Scope Z_scope.
#[local] Open Scope builder_scope.
Import HTMLStackItem HTMLElementStack HTMLConstructionSite CompatibilityMode HTMLTreeBuilderState HTMLTreeBuilder.

(** ** Tokens *)

(** The tokens that may be given to the tree builder in a state. *)
Definition acceptable `{env : Environment} (token : AtomicHTMLToken) (b : HTMLTreeBuilder) : Prop :=
  match token with
  | Uninitialized => False
  | StartTag token => permitted token b
  | EndTag name => permittedEnd name b
  | Character characters => characters <> []
  | DOCTYPE _ _ _ _ | Comment | EndOfFile => True
  end.

(** Members and tasks that do not matter. *)
Lemma doc_executed t : docSite t -> docSite (set_queue [] t).
Proof. intros [H1 H2 H3 H4 H5 H6 H7]. by constructor. Qed.

Lemma ready_executed r p b : Ready r p b -> Ready r p (set_tree (set_queue [] (m_tree b)) b).
Proof. intros (ks & ms & Hb & Hf). exists ks, ms. split; [|done]. apply (st_tree _ _ _ ks); [done|by apply doc_executed, (st_doc _ _ _ _ _ _ Hb)|done|apply Hb]. Qed.

Lemma ready_changed r p b c : Ready r p b -> Ready r p (changed c b).
Proof. intros (ks & ms & Hb & Hf). exists ks, ms. split; [by apply st_changed|done]. Qed.

Lemma ready_tokenizer r p b v : Ready r p b -> Ready r p (set_tokenizer v b).
Proof. intros (ks & ms & Hb & Hf). exists ks, ms. split; [by apply st_tokenizer|done]. Qed.

Lemma ready_script r p b v : Ready r p b -> Ready r p (set_script v b).
Proof. intros (ks & ms & Hb & Hf). exists ks, ms. split; [by apply st_script|done]. Qed.

Lemma ready_same r p b t' : Ready r p b -> sameSite (m_tree b) t' -> Ready r p (set_tree t' b).
Proof.
  intros (ks & ms & Hb & Hf) (H1 & H2 & _ & H3). exists ks, ms. split; [|done]. apply (st_tree _ _ _ ks); try done. unfold kinds. rewrite H3. apply (st_kinds _ _ _ _ _ _ Hb).
Qed.

Lemma ready_doc r p b : Ready r p b -> docSite (m_tree b).
Proof. intros (ks & ms & Hb & _). apply Hb. Qed.

Lemma live_keep pol f b : (forall m b, Early pol m b -> Early pol m (f b)) -> (forall p b, Ready false p b -> Ready false p (f b)) -> Live pol b -> Live pol (f b).
Proof. intros H1 H2 [H|[H|(p & Ep & H)]]; [left; by apply H1|right; left; by apply H1|right; right; exists p; split; [done|by apply H2]]. Qed.

Lemma live_tokenizer pol v b : Live pol b -> Live pol (set_tokenizer v b).
Proof. apply (live_keep pol (set_tokenizer v)); [intros; by apply early_tokenizer|intros; by apply ready_tokenizer]. Qed.

Lemma live_skip pol v b : Live pol b -> Live pol (set_skipNewline v b).
Proof. apply (live_keep pol (set_skipNewline v)); [intros; by apply early_skip|intros; by apply ready_skip]. Qed.

Lemma live_script pol v b : Live pol b -> Live pol (set_script v b).
Proof. apply (live_keep pol (set_script v)); [intros; by apply early_script|intros; by apply ready_script]. Qed.

Section Safety.
Context `{env : Environment}.
Hypothesis pluginElements : forall n, isPluginElement n = true -> exists s, s ∈ ["applet"; "embed"; "object"]%string /\ nodeName n = htmlName s.
Hypothesis textLength : forall parent l position, (position < length l)%nat -> (createWithLengthLimit parent l position <= length l - position)%nat.
Hypothesis searchable : searchableIndexIntroduction <> [].

(** The text of a table is inserted before a doctype or a comment. *)
Lemma flush_before r p b : Ready r p b -> wp (if bool_decide (m_insertionMode b = InTableText) then defaultForInTableText else ret tt)
  (fun _ b' => Ready r p b' /\ m_insertionMode b' <> InTableText) b.
Proof.
  intros Hb. destruct (bool_decide_reflect (m_insertionMode b = InTableText)) as [E|E]; [|done]. destruct (ready_flush pluginElements textLength r p b Hb E) as (m & ms & Hm & _ & Hflush).
  eapply tb_mono; [exact Hflush|]. intros ? b' [Hat _]. split; [by apply (at_ready r p m ms)|]. rewrite (at_mode _ _ _ _ _ Hat). by intros ->.
Qed.

Lemma ready_modes r p b : Ready r p b -> m_insertionMode b <> Initial /\ m_insertionMode b <> BeforeHTML.
Proof. intros (ks & ms & _ & Hf). by destruct (m_insertionMode b). Qed.

Lemma ready_doctype r p b name publicId systemId forceQuirks : Ready r p b -> wp (processDoctypeToken name publicId systemId forceQuirks) (fun _ b' => Ready r p b') b.
Proof.
  intros Hb. unfold processDoctypeToken. apply tb_bind, tb_get. eapply tb_use; [by apply flush_before|]. intros ? b' [H' Hm]. apply tb_bind, tb_get. destruct (ready_modes r p b' H') as [M1 _].
  by rewrite !bool_decide_eq_false_2.
Qed.

Lemma ready_comment r p b : Ready r p b -> wp processComment (fun _ b' => Ready r p b') b.
Proof.
  intros Hb. unfold processComment. apply tb_bind, tb_get. eapply tb_use; [by apply flush_before|]. intros ? b' [H' Hm]. apply tb_bind, tb_get. pose proof (ready_doc _ _ _ H') as Hd.
  assert (H1 : wp (tree insertComment) (fun _ b' => Ready r p b') b') by (destruct (insertComment_ok pluginElements (m_tree b') Hd) as (t' & E & Ht); apply (tb_tree _ t'); [done|by apply ready_same]).
  assert (H2 : wp (tree insertCommentOnDocument) (fun _ b' => Ready r p b') b') by (destruct (insertCommentOnDocument_ok pluginElements (m_tree b') Hd) as (t' & E & Ht); apply (tb_tree _ t'); [done|by apply ready_same]).
  assert (H3 : wp (tree insertCommentOnHTMLHtmlElement) (fun _ b' => Ready r p b') b') by (destruct (insertCommentOnHTMLHtmlElement_ok pluginElements (m_tree b') Hd) as (t' & E & Ht); apply (tb_tree _ t'); [done|by apply ready_same]).
  by destruct (m_insertionMode b').
Qed.

Lemma permitted_skip token b : permitted token b -> permitted token (set_skipNewline false b).
Proof. intros []. by constructor. Qed.

Lemma ready_token r p b token : Ready r p b -> acceptable token b -> token <> EndOfFile -> wp (processToken token) (fun _ b' => ReadyHead r (policy p) b') b.
Proof.
  intros Hb Hok Hne. pose proof (ready_skip r p b false Hb) as Hs. destruct token; try done; cbn [processToken]; try (apply tb_bind, tb_modify).
  - eapply tb_mono; [by apply (ready_doctype r p)|]. intros ? b'. apply readyHead.
  - apply (call_start pluginElements textLength searchable); [done|by apply permitted_skip].
  - by apply (call_end pluginElements textLength).
  - eapply tb_mono; [by apply (ready_comment r p)|]. intros ? b'. apply readyHead.
  - unfold processCall. apply tb_bind, tb_get. unfold rounds.
    by apply (characters_ready pluginElements textLength r p (18 + length (m_templateInsertionModes b) + length (records (m_tree b)))).
Qed.

Lemma early_token pol m b token : Early pol m b -> m = Initial \/ m = BeforeHTML -> acceptable token b -> token <> EndOfFile -> wp (processToken token) (fun _ b' => Live pol b') b.
Proof.
  intros Hb Hm Hok Hne. pose proof (early_skip pol m b false Hb) as Hs. assert (Hlive : forall b, Early pol m b -> Live pol b) by (intros b0 H0; destruct Hm as [->| ->]; [by left|by right; left]).
  destruct token; try done; cbn [processToken]; try (apply tb_bind, tb_modify).
  - unfold processDoctypeToken. apply tb_bind, tb_get. rewrite (early_mode _ _ _ Hs). rewrite bool_decide_eq_false_2 by (by destruct Hm as [->| ->]). apply tb_bind, tb_ret, tb_bind, tb_get.
    rewrite (early_mode _ _ _ Hs). destruct Hm as [->| ->]; rewrite ?bool_decide_eq_true_2, ?bool_decide_eq_false_2 by done; [|by apply Hlive].
    eapply tb_use; [by apply (early_doctype pluginElements pol Initial)|]. intros ? b' H'. right. left. by apply (early_goto pol Initial).
  - unfold processCall. apply tb_bind, tb_get. eapply tb_mono; [apply (early_startTag pluginElements textLength searchable pol m (17 + _ + _)); [done|done|apply Hok]|]. intros ? b' H'. by right; right.
  - unfold processCall. apply tb_bind, tb_get. by apply (early_endTag pluginElements pol m (17 + _ + _)).
  - unfold processComment. apply tb_bind, tb_get. rewrite (early_mode _ _ _ Hs). rewrite bool_decide_eq_false_2 by (by destruct Hm as [->| ->]). apply tb_bind, tb_ret, tb_bind, tb_get.
    rewrite (early_mode _ _ _ Hs). assert (H1 : wp (tree insertCommentOnDocument) (fun _ b' => Live pol b') (set_skipNewline false b)) by (eapply tb_mono; [by apply (early_comment pluginElements pol m)|]; intros ? b'; apply Hlive).
    by destruct Hm as [->| ->].
  - unfold processCall. apply tb_bind, tb_get. by apply (early_text pluginElements textLength pol m (18 + _ + _)).
Qed.

Lemma live_token pol b token : Live pol b -> acceptable token b -> token <> EndOfFile -> wp (processToken token) (fun _ b' => Live pol b') b.
Proof.
  intros [H|[H|(p & <- & H)]] Hok Hne; [apply (early_token pol Initial); [done|by left|done|done]|apply (early_token pol BeforeHTML); [done|by right|done|done]|].
  eapply tb_mono; [by apply (ready_token false p)|]. intros ? b' H'. by right; right.
Qed.

Lemma live_endOfFile pol b : Live pol b -> wp (processToken EndOfFile) (fun _ b' => Stopped b') b.
Proof.
  intros Hb. cbn [processToken]. apply tb_bind, tb_modify. apply (live_skip pol false) in Hb. unfold processCall. apply tb_bind, tb_get. unfold rounds. destruct Hb as [H|[H|(p & _ & H)]].
  - apply (early_endOfFile pluginElements pol Initial (18 + _ + _)); [exact H|by left].
  - apply (early_endOfFile pluginElements pol BeforeHTML (18 + _ + _)); [exact H|by right].
  - pose proof (endOfFile_ready pluginElements textLength false p (16 + length (records (m_tree (set_skipNewline false b)))) _ H) as Hw.
    match type of Hw with wp (process ?x _) _ _ => match goal with |- wp (process ?y _) _ _ => replace y with x by (cbn [m_templateInsertionModes set_skipNewline m_tree]; lia) end end. exact Hw.
Qed.

(** ** Foreign content and the entry point *)

(** Whether the rules for foreign content apply can be decided, and they apply only to
    states with a foreign element on top. *)
Lemma shouldProcess_ok pol b token : Live pol b ->
  wp (shouldProcessTokenInForeignContent token) (fun v b' => b' = b /\ (v = true -> token <> EndOfFile /\ exists p m ks ms, policy p = pol /\ Foreign false p m ks ms b)) b.
Proof.
  intros Hb. unfold shouldProcessTokenInForeignContent. apply tb_bind, tb_get.
  assert (Htop : forall item, topStackItem (m_openElements (m_tree b)) = Some item -> isInHTMLNamespace item = false -> exists p m ks ms, policy p = pol /\ Foreign false p m ks ms b).
  { intros item Ei Hn. destruct Hb as [H|[H|(p & Ep & H)]]; [rewrite (early_stack _ _ _ H) in Ei; done..|]. destruct (foreign_ready false p b item H Ei Hn) as (m & ks & ms & Hf). by exists p, m, ks, ms. }
  destruct (topStackItem (m_openElements (m_tree b))) as [item|]; [|done]. destruct (isInHTMLNamespace item) eqn:En; [done|]. destruct (_ && _); [done|]. destruct (_ && _); [done|].
  destruct (integration_total u_foldCase item) as (v & Ev). apply tb_bind, (tb_ask _ v); [done|]. destruct (_ && _); [done|]. apply tb_ret. split; [done|]. intros Ht. split; [by intros ->|by apply (Htop item)].
Qed.

Lemma updateTokenizer_ok (P : HTMLTreeBuilder -> Prop) b : (forall v b, P b -> P (set_tokenizer v b)) -> P b -> wp updateTokenizer (fun _ b' => P b') b.
Proof.
  intros HP Hb. unfold updateTokenizer. apply tb_bind, tb_get. destruct (tokenizer b) as [[[st f] c]|]; [|done]. apply tb_bind.
  assert (H : wp (match topStackItem (m_openElements (m_tree b)) with
    | None => ret false
    | Some item => if isInHTMLNamespace item then ret false
                   else let! integration := ask (fun _ => isHTMLIntegrationPoint u_foldCase item) in ret (negb integration && negb (isMathMLTextIntegrationPoint item))
    end) (fun _ b' => P b') b).
  { destruct (topStackItem _) as [item|]; [|done]. destruct (isInHTMLNamespace item); [done|]. destruct (integration_total u_foldCase item) as (v & Ev). by apply tb_bind, (tb_ask _ v). }
  eapply tb_mono; [exact H|]. intros v b' H'. apply tb_modify. by apply HP.
Qed.

Lemma live_executed pol b : Live pol b -> wp executeQueuedTasks (fun _ b' => Live pol b') b.
Proof.
  intros Hb. apply tb_modify. apply (live_keep pol (fun b => changed (map TaskExecuted (m_taskQueue (m_tree b))) (set_tree (set_queue [] (m_tree b)) b))); [| |done].
  - intros m b0 H0. by apply early_changed, early_executed.
  - intros p b0 H0. by apply ready_changed, ready_executed.
Qed.

Lemma stopped_executed b : Stopped b -> wp executeQueuedTasks (fun _ b' => Stopped b') b.
Proof. intros []. apply tb_modify. by constructor. Qed.

Lemma construct_live pol b token : Live pol b -> acceptable token b -> token <> EndOfFile -> wp (constructTree token) (fun _ b' => Live pol b') b.
Proof.
  intros Hb Hok Hne. unfold constructTree. eapply tb_use; [by apply (shouldProcess_ok pol)|]. intros v b' [-> Hv].
  assert (H : wp (if v then processTokenInForeignContent token else processToken token) (fun _ b' => Live pol b') b).
  { destruct v; [|by apply live_token]. destruct (Hv eq_refl) as (_ & p & m & ks & ms & <- & Hf). eapply tb_mono; [apply (foreign_token pluginElements textLength searchable false p m ks ms b token Hf)|].
    - destruct token; try done. apply Hok.
    - intros ? b' H'. by right; right. }
  eapply tb_use; [exact H|]. intros ? b1 H1. eapply tb_use; [apply (updateTokenizer_ok (Live pol)); [intros; by apply live_tokenizer|done]|]. intros ? b2 H2. by apply live_executed.
Qed.

Lemma construct_endOfFile pol b : Live pol b -> wp (constructTree EndOfFile) (fun _ b' => Stopped b') b.
Proof.
  intros Hb. unfold constructTree. eapply tb_use; [by apply (shouldProcess_ok pol)|]. intros v b' [-> Hv]. destruct v; [by destruct (Hv eq_refl)|].
  eapply tb_use; [by apply (live_endOfFile pol)|]. intros ? b1 H1. eapply tb_use; [apply (updateTokenizer_ok Stopped); [|done]|]; [by intros v b0 []; constructor|]. intros ? b2 H2. by apply stopped_executed.
Qed.

End Safety.

(** ** The states of a document *)

(** What is known of the environment: plug-ins are the elements applet, embed and
    object, a text node takes at most the characters there are, and the text of an
    isindex element is not empty. *)
Record documented (env : Environment) : Prop := mkDocumented {
  documented_plugins : forall n, isPluginElement n = true -> exists s, s ∈ ["applet"; "embed"; "object"]%string /\ nodeName n = htmlName s;
  documented_text : forall parent l position, (position < length l)%nat -> (createWithLengthLimit parent l position <= length l - position)%nat;
  documented_isindex : searchableIndexIntroduction <> []
}.

(** The states between two tokens: the tokenizer goes on, scripts are taken, and tokens are
    processed.  What the document answers may be different for every token, so that the
    changes that the tasks and the scripts have made in between are taken into account. *)
Inductive Reachable : HTMLTreeBuilder -> Prop :=
| reach_new root policy maximumDOMTreeDepth inQuirksMode tokenizer next :
    Reachable (newBuilder root policy maximumDOMTreeDepth inQuirksMode tokenizer next)
| reach_tokenizer b v : Reachable b -> Reachable (set_tokenizer v b)
| reach_script b script b' : Reachable b -> takeScriptToProcess b = Some (script, b') -> Reachable b'
| reach_token env b token b' : documented env -> Reachable b -> acceptable (env := env) token b -> token <> EndOfFile ->
    constructTree (env := env) token b = Some (tt, b') -> Reachable b'.

Lemma wp_total {A} (m : TB A) Q b : wp m Q b -> exists a b', m b = Some (a, b') /\ Q a b'.
Proof. unfold wp. destruct (m b) as [[a b']|]; [|done]. intros H. by exists a, b'. Qed.

Lemma reachable_live b : Reachable b -> exists pol, Live pol b.
Proof.
  induction 1 as [root policy depth quirks tok next|b v _ [pol IH]|b script b' _ [pol IH] E|env b token b' Henv _ [pol IH] Hok Hne E].
  - exists policy. left. by constructor.
  - exists pol. by apply live_tokenizer.
  - exists pol. unfold takeScriptToProcess, bind, ask in E. destruct (m_scriptToProcess b); [|done]. injection E as _ <-. by apply live_script.
  - exists pol. pose proof (construct_live (documented_plugins _ Henv) (documented_text _ Henv) (documented_isindex _ Henv) pol b token IH Hok Hne) as H. unfold wp in H. by rewrite E in H.
Qed.

(** C1: For documents without the three start tags that the code does not support (a
    frameset while a template is open; a col in the content of a template where something
    else than the template is the current node; an isindex with an empty prompt), for a
    parser that is not parsing a fragment and tokens as the tokenizer makes them (no start
    tag in the text of an element, no repeated attribute, no empty text, and the end tag
    of a script only when the script is the current node and the tokenizer has left its
    text): in every state such a document leads to, the tree builder processes the next
    such token; no assertion of the tree builder, the stack, the list or the construction
    site fails, no null pointer is used, and the recursion ends within its rounds. What
    the DOM answers may be different for every token, but is fixed while one token is
    processed, and is as documented (plug-ins are applet, embed and object; a text node
    takes at most the characters there are; the isindex text is not empty). On the three
    start tags the code can fail (Examples frameset_in_template, col_after_text and
    isindex_empty_prompt; findings). *)
Theorem constructTree_total {env : Environment} (Henv : documented env) b token : Reachable b -> acceptable token b -> exists b', constructTree token b = Some (tt, b').
Proof.
  intros Hb Hok. destruct (reachable_live b Hb) as [pol Hl]. assert (He : token = EndOfFile \/ token <> EndOfFile) by (destruct token; [by right..|by left]).
  destruct He as [->|Hne].
  - destruct (wp_total _ _ _ (construct_endOfFile (documented_plugins _ Henv) (documented_text _ Henv) pol b Hl)) as ([] & b' & E & _). by exists b'.
  - destruct (wp_total _ _ _ (construct_live (documented_plugins _ Henv) (documented_text _ Henv) (documented_isindex _ Henv) pol b token Hl Hok Hne)) as ([] & b' & E & _). by exists b'.
Qed.

(** C2: For documents without the three start tags that the code does not support (a
    frameset while a template is open; a col in the content of a template where something
    else than the template is the current node; an isindex with an empty prompt), for a
    parser that is not parsing a fragment and tokens as the tokenizer makes them (no start
    tag in the text of an element, no repeated attribute, no empty text, and the end tag
    of a script only when the script is the current node and the tokenizer has left its
    text): wherever the end of the file comes in such a document, it is processed, every
    open element is closed, every open template is ended, and finished succeeds. What the
    DOM answers may be different for every token, but is fixed while one token is
    processed, and is as documented (plug-ins are applet, embed and object; a text node
    takes at most the characters there are; the isindex text is not empty). A document
    with a frameset in a template, or with a col behind other content of a template, is
    excluded: there the end of the file fails (Examples frameset_in_template and
    col_after_text). *)
Theorem constructTree_endOfFile {env : Environment} (Henv : documented env) b : Reachable b ->
  exists b', constructTree EndOfFile b = Some (tt, b') /\ m_top (m_openElements (m_tree b')) = [] /\ m_templateInsertionModes b' = [] /\ finished b' = Some (tt, b').
Proof.
  intros Hb. destruct (reachable_live b Hb) as [pol Hl].
  destruct (wp_total _ _ _ (construct_endOfFile (documented_plugins _ Henv) (documented_text _ Henv) pol b Hl)) as ([] & b' & E & [S1 S2 S3]). exists b'. split_and!; [done|done|done|].
  unfold finished, bind, get, isParsingFragment. rewrite S3, bool_decide_eq_false_2 by (by intros [? ?]). unfold assert. by rewrite S2.
Qed.

(** The modes that belong to an element. *)
Definition elementMode (m : InsertionMode) : bool := normal m && negb (bool_decide (m = InSelect)).

Lemma reachable_ready b : Reachable b -> normal (m_insertionMode b) = true -> exists p ms, At false p (m_insertionMode b) ms b.
Proof.
  intros Hb Hn. destruct (reachable_live b Hb) as [pol [H|[H|(p & _ & H)]]]; [rewrite (early_mode _ _ _ H) in Hn; done..|]. destruct (ready_normal false p b H Hn) as (ms & Hat). by exists p, ms.
Qed.

(** C3: For documents without the three start tags that the code does not support (a
    frameset while a template is open; a col in the content of a template where something
    else than the template is the current node; an isindex with an empty prompt), for a
    parser that is not parsing a fragment and tokens as the tokenizer makes them (no start
    tag in the text of an element, no repeated attribute, no empty text, and the end tag
    of a script only when the script is the current node and the tokenizer has left its
    text): between two tokens, whenever the insertion mode is one of the 11 modes that
    belong to an element (AfterHead, InHead, TemplateContents, InBody, InTable, InCaption,
    InColumnGroup, InTableBody, InRow, InCell, InFrameset), it is the appropriate one for
    the stack of open elements: resetInsertionModeAppropriately changes nothing. Nothing
    is said of the other 12 modes, most of which resetting never chooses (Text,
    InTableText, AfterBody and so on). *)
Theorem reset_unchanged b : Reachable b -> elementMode (m_insertionMode b) = true -> resetInsertionModeAppropriately b = Some (tt, b).
Proof.
  intros Hb Hm. apply andb_true_iff in Hm as [Hn Hs]. destruct (reachable_ready b Hb Hn) as (p & ms & ks & Hst & Hok & Hc). pose proof (st_site _ _ _ _ _ _ Hst) as Hd.
  pose proof (st_kinds _ _ _ _ _ _ Hst) as Ek. assert (Hhead : is_Some (m_head (m_tree b))) by (rewrite (st_headItem _ _ _ _ _ _ Hst); apply (st_head _ _ _ _ _ _ Hst); by intros E; rewrite E in Hn).
  destruct (resetLoop_ok b [] (records (m_tree b)) ms Hd (st_context _ _ _ _ _ _ Hst) (st_modes _ _ _ _ _ _ Hst) Hhead eq_refl) as (m' & E & Hm'); [unfold kinds in Ek; by rewrite Ek|].
  unfold kinds in Ek. rewrite Ek, Hc in Hm'. apply negb_true_iff, bool_decide_eq_false in Hs. destruct Hm' as [->|[_ ?]]; [|done].
  unfold resetInsertionModeAppropriately, bind, ask. rewrite E. by destruct b.
Qed.

(** C4: For documents without the three start tags that the code does not support (a
    frameset while a template is open; a col in the content of a template where something
    else than the template is the current node; an isindex with an empty prompt), for a
    parser that is not parsing a fragment and tokens as the tokenizer makes them (no start
    tag in the text of an element, no repeated attribute, no empty text, and the end tag
    of a script only when the script is the current node and the tokenizer has left its
    text): between two tokens, whenever the insertion mode is one of the 11 element modes
    or InSelect, the open tables, groups of rows, rows, cells, columns, captions, select
    elements, options, framesets, head, body and templates are nested as okStack says, and
    the insertion mode is that of the nesting. Nothing is said of the other 11 modes; in
    Text and InTableText, for example, the mode is not that of the nesting. *)
Theorem reachable_nesting b : Reachable b -> normal (m_insertionMode b) = true ->
  okStack (kinds (m_tree b)) (rev (m_templateInsertionModes b)) /\ ctx (kinds (m_tree b)) (rev (m_templateInsertionModes b)) = m_insertionMode b.
Proof.
  intros Hb Hn. destruct (reachable_ready b Hb Hn) as (p & ms & ks & Hst & Hok & Hc). by rewrite (st_kinds _ _ _ _ _ _ Hst), (st_modes _ _ _ _ _ _ Hst), rev_involutive.
Qed.

(** ** Templates *)

Lemma fits_templates m ks ms : fits m ks ms -> length ms = length (List.filter (fun k => bool_decide (k = KTemplate)) ks).
Proof.
  destruct m; cbn; try done; try (by intros [-> ->]); try (by intros (H & _); apply ok_templates).
  intros (-> & A & -> & HA). rewrite List.filter_app, length_app. cbn. clear - HA. by induction HA as [|k A -> HA IH].
Qed.

Lemma templates_kinds t : docSite t -> length (List.filter (fun k => bool_decide (k = KTemplate)) (kinds t)) = length (List.filter (fun r => hasTagName (m_item r) (htmlName "template")) (records t)).
Proof.
  intros H. assert (Hd : forall r, r ∈ records t -> docItem (m_item r)) by (intros; by apply (doc_item t)). unfold kinds. revert Hd. generalize (records t). intros l.
  induction l as [|x l IH]; intros Hd; [done|]. pose proof (Hd x (list_elem_of_here _ _)) as Hx. cbn [map List.filter].
  assert (E : hasTagName (m_item x) (htmlName "template") = bool_decide (kindOf (m_item x) = KTemplate)) by (destruct (kindOf (m_item x)) eqn:Ek; kind_of_item Hx Ek; by vm_compute).
  rewrite E. destruct (bool_decide _); cbn [length]; rewrite IH; try done; intros r Hr; apply Hd; by right.
Qed.

(** C5: For documents without the three start tags that the code does not support (a
    frameset while a template is open; a col in the content of a template where something
    else than the template is the current node; an isindex with an empty prompt), for a
    parser that is not parsing a fragment and tokens as the tokenizer makes them (no start
    tag in the text of an element, no repeated attribute, no empty text, and the end tag
    of a script only when the script is the current node and the tokenizer has left its
    text): between any two tokens, in every insertion mode, there are as many template
    insertion modes as template elements on the stack of open elements. (A frameset in a
    template breaks this, Example frameset_in_template.) *)
Theorem reachable_templates b : Reachable b ->
  length (m_templateInsertionModes b) = length (List.filter (fun r => hasTagName (m_item r) (htmlName "template")) (m_top (m_openElements (m_tree b)))).
Proof.
  intros Hb. destruct (reachable_live b Hb) as [pol [H|[H|(p & _ & ks & ms & Hst & Hf)]]]; [by rewrite (early_modes _ _ _ H), (early_stack _ _ _ H)..|].
  rewrite <- (templates_kinds _ (st_doc _ _ _ _ _ _ Hst)), (st_kinds _ _ _ _ _ _ Hst), (st_modes _ _ _ _ _ _ Hst), length_rev.
  destruct (m_insertionMode b) eqn:Em; try (by apply (fits_templates _ _ _ Hf)).
  - destruct Hf as (_ & k & ks' & -> & Hk & Hf). cbn. rewrite bool_decide_eq_false_2 by (by intros ->). by apply (fits_templates _ _ _ Hf).
  - destruct Hf as (_ & _ & Hf). by apply (fits_templates _ _ _ Hf).
Qed.

(** ** The stack of open elements *)



(** ** A concrete state *)

Lemma exampleDocumented : documented exampleEnvironment.
Proof. constructor; [done|cbn; lia|done]. Qed.

(** Tokens that are plainly acceptable. *)
Definition simple (token : AtomicHTMLToken) (b : HTMLTreeBuilder) : bool :=
  match token with
  | DOCTYPE _ _ _ _ | Comment => true
  | StartTag token => bool_decide (m_insertionMode b <> Text) && bool_decide (tokenAttributes token = []) && negb (oneOf (tokenName token) ["isindex"; "frameset"; "col"]%string)
  | EndTag _ => bool_decide (m_insertionMode b <> Text)
  | Character characters => bool_decide (characters <> [])
  | _ => false
  end.

Lemma simple_acceptable `{env : Environment} token b : simple token b = true -> acceptable token b /\ token <> EndOfFile.
Proof.
  destruct token as [|name pub sys quirks|token|name| |c|]; cbn [simple acceptable]; try done.
  - rewrite !andb_true_iff, !bool_decide_eq_true, negb_true_iff. intros [[Hm Ha] Hn]. split; [|done]. unfold oneOf in Hn. cbn [existsb] in Hn. rewrite !orb_false_iff in Hn. destruct Hn as (N1 & N2 & N3 & _).
    assert (Hne : forall s, isTag (tokenName token) s = false -> tokenName token <> lit s) by (intros s Hs E; apply isTag_eq in E; congruence).
    constructor; [constructor; [rewrite Ha; apply NoDup_nil_2|]|done|..]; intros E; exfalso; [exact (Hne _ N1 E)|exact (Hne _ N2 E)|exact (Hne _ N3 E)].
  - rewrite bool_decide_eq_true. intros Hm. split; [|done]. by intros E.
  - rewrite bool_decide_eq_true. by split.
Qed.

Fixpoint simpleRun `{env : Environment} (tokens : list AtomicHTMLToken) (b : HTMLTreeBuilder) : option HTMLTreeBuilder :=
  match tokens with
  | [] => Some b
  | token :: tokens =>
      if simple token b then match constructTree token b with Some (_, b) => simpleRun tokens b | None => None end else None
  end.

Lemma simpleRun_reachable {env : Environment} (Henv : documented env) tokens b b' : Reachable b -> simpleRun tokens b = Some b' -> Reachable b'.
Proof.
  revert b. induction tokens as [|token tokens IH]; intros b Hb E; [by injection E as <-|]. cbn in E. destruct (simple token b) eqn:Es; [|done]. destruct (constructTree token b) as [[[] b1]|] eqn:E1; [|done].
  destruct (simple_acceptable token b Es) as [Hok Hne]. by apply (IH b1); [apply (reach_token env b token)|].
Qed.

(** A row in a template in a cell of a table. *)
Definition exampleTokens : list AtomicHTMLToken :=
  [DOCTYPE (lit "html") [] [] false; startOf "table"; startOf "td"; Character (lit "x"); startOf "b"; startOf "template"; startOf "tr"].

Definition exampleState : HTMLTreeBuilder :=
  match simpleRun (env := exampleEnvironment) exampleTokens exampleBuilder with Some b => b | None => exampleBuilder end.

Lemma exampleReachable : Reachable exampleState.
Proof.
  apply (simpleRun_reachable exampleDocumented exampleTokens exampleBuilder); [apply reach_new|]. unfold exampleState.
  assert (E : exists b, simpleRun (env := exampleEnvironment) exampleTokens exampleBuilder = Some b) by (eexists; vm_compute; reflexivity). destruct E as [b E]. by rewrite E.
Qed.

Example constructTree_total_witness :
  acceptable (env := exampleEnvironment) (startOf "td") exampleState /\ exists b', constructTree (env := exampleEnvironment) (startOf "td") exampleState = Some (tt, b').
Proof.
  assert (H : acceptable (env := exampleEnvironment) (startOf "td") exampleState) by (apply (simple_acceptable (env := exampleEnvironment) (startOf "td")); vm_compute; reflexivity).
  split; [exact H|]. exact (constructTree_total exampleDocumented exampleState (startOf "td") exampleReachable H).
Defined.

Example constructTree_endOfFile_witness : exists b', constructTree (env := exampleEnvironment) EndOfFile exampleState = Some (tt, b') /\
  m_top (m_openElements (m_tree b')) = [] /\ m_templateInsertionModes b' = [] /\ finished b' = Some (tt, b').
Proof. exact (constructTree_endOfFile exampleDocumented exampleState exampleReachable). Defined.

Example reset_unchanged_witness : m_insertionMode exampleState = InRow /\ resetInsertionModeAppropriately exampleState = Some (tt, exampleState).
Proof. split; [vm_compute; reflexivity|]. apply (reset_unchanged exampleState exampleReachable). vm_compute. reflexivity. Defined.

Example reachable_nesting_witness : kinds (m_tree exampleState) = [KRow; KTemplate; KOther; KCell; KRow; KTableBody; KTable; KBody; KHtml] /\
  okStack (kinds (m_tree exampleState)) (rev (m_templateInsertionModes exampleState)) /\ ctx (kinds (m_tree exampleState)) (rev (m_templateInsertionModes exampleState)) = m_insertionMode exampleState.
Proof. split; [vm_compute; reflexivity|]. apply (reachable_nesting exampleState exampleReachable). vm_compute. reflexivity. Defined.

Example reachable_templates_witness : length (m_templateInsertionModes exampleState) = 1%nat /\
  length (m_templateInsertionModes exampleState) = length (List.filter (fun r => hasTagName (m_item r) (htmlName "template")) (m_top (m_openElements (m_tree exampleState)))).
Proof. split; [vm_compute; reflexivity|]. apply (reachable_templates exampleState exampleReachable). Defined.

