(* ===== verification/HTMLTreeBuilderTokenizer.v ===== *)
(** * What the tree builder does to the tokenizer

    Which operations put the tree builder into the insertion mode [Text], set the state of
    the tokenizer, or leave a script to be run: a start tag of an element with text does
    the first two together, and only end tags of scripts do the last.  Everything else is
    calm.  The facts are about results; that there is one is shown in
    [HTMLTreeBuilderSafety]. *)
From S2P Require Import Prelude HTMLTokenizer CompatibilityMode HTMLStackItem HTMLElementStack HTMLFormattingElementList HTMLConstructionSite CSSPreloadScanner HTMLTreeBuilderState HTMLTreeBuilder HTMLTreeBuilderKinds HTMLTreeBuilderSite HTMLTreeBuilderBody.
From Stdlib Require Import String ZArith Lia.
From stdpp Require Import base list numbers option.
#[local] Open Scope Z_scope.
#[local] Open Scope builder_scope.
Import HTMLStackItem HTMLElementStack HTMLConstructionSite CompatibilityMode HTMLTreeBuilderState HTMLTreeBuilder.

(** No mode is [Text]. *)
Record quiet (b : HTMLTreeBuilder) : Prop := mkQuiet {
  quiet_mode : m_insertionMode b <> Text;
  quiet_original : m_originalInsertionMode b <> Text;
  quiet_templates : Text ∉ m_templateInsertionModes b
}.

Definition same (b b' : HTMLTreeBuilder) : Prop := tokenizer b' = tokenizer b /\ m_scriptToProcess b' = m_scriptToProcess b.

Definition calm {A} (m : TB A) : Prop := forall b a b', m b = Some (a, b') -> quiet b -> quiet b' /\ same b b'.

(** ** Rules *)

Section Calm.
Context {env : Environment}.

Lemma calm_ret {A} (a : A) : calm (ret a).
Proof. intros b a' b' [= <- <-] Hb. by split. Qed.

Lemma calm_bind {A B} (m : TB A) (k : A -> TB B) : calm m -> (forall a, calm (k a)) -> calm (bind m k).
Proof.
  intros Hm Hk b a b' E Hb. unfold bind in E. destruct (m b) as [[x b1]|] eqn:E1; [|done]. destruct (Hm _ _ _ E1 Hb) as [H1 [H2 H3]]. destruct (Hk x _ _ _ E H1) as [H4 [H5 H6]].
  split; [done|]. split; congruence.
Qed.

(** What is read from the state is known to be from a quiet one. *)
Lemma calm_get {B} (k : HTMLTreeBuilder -> TB B) : (forall b, quiet b -> calm (k b)) -> calm (bind get k).
Proof. intros Hk b a b' E Hb. by apply (Hk b Hb b a b'). Qed.

Lemma calm_none {A} : calm (fun _ => None : option (A * HTMLTreeBuilder)).
Proof. done. Qed.

Lemma calm_assert p : calm (assert p).
Proof. intros b a b' E Hb. unfold assert in E. destruct (p b); [|done]. by injection E as _ <-. Qed.

Lemma calm_ask {A} (f : HTMLTreeBuilder -> option A) : calm (ask f).
Proof. intros b a b' E Hb. unfold ask in E. destruct (f b); [|done]. by injection E as _ <-. Qed.

Lemma calm_query {A} (f : HTMLElementStack -> option A) : calm (query f).
Proof. apply calm_ask. Qed.

Lemma calm_tree f : calm (tree f).
Proof. intros b a b' E Hb. unfold tree in E. destruct (f _); [|done]. injection E as _ <-. by destruct Hb. Qed.

Lemma calm_stack f : calm (stack f).
Proof. apply calm_tree. Qed.

Lemma calm_formatting f : calm (formatting f).
Proof. apply calm_tree. Qed.

Lemma calm_modify f : (forall b, quiet b -> quiet (f b) /\ same b (f b)) -> calm (modify f).
Proof. intros Hf b a b' [= _ <-] Hb. by apply Hf. Qed.

Lemma calm_mode m : m <> Text -> calm (setInsertionMode m).
Proof. intros Hm. apply calm_modify. intros b []. by repeat split. Qed.

Lemma resetLoop_mode b l m : Text ∉ m_templateInsertionModes b -> resetLoop b l = Some m -> m <> Text.
Proof.
  intros Ht. induction l as [|r l IH]; cbn [resetLoop]; [done|]. repeat case_match; intros E; simplify_eq; try done; try (by apply IH); intros ->; by apply Ht, last_Some_elem_of.
Qed.

Lemma calm_reset : calm resetInsertionModeAppropriately.
Proof.
  intros b a b' E Hb. unfold resetInsertionModeAppropriately, bind, ask in E. destruct (resetLoop b _) as [m|] eqn:Er; [|done]. injection E as _ <-. pose proof Hb as [H1 H2 H3]. split; [|done].
  constructor; cbn; [by apply (resetLoop_mode b _ _ H3 Er)|done|done].
Qed.

Lemma calm_original : calm (modify (fun b => set_mode (m_originalInsertionMode b) b)).
Proof. apply calm_modify. intros b []. by repeat split. Qed.

Lemma calm_setOriginal : calm (modify (fun b => set_originalMode (m_insertionMode b) b)).
Proof. apply calm_modify. intros b []. by repeat split. Qed.

Lemma calm_pushTemplate : calm (modify (fun b => set_templateModes (m_templateInsertionModes b ++ [TemplateContents]) b)).
Proof. apply calm_modify. intros b [H1 H2 H3]. repeat split; cbn; try done. intros [?|H]%elem_of_app; [done|]. by apply list_elem_of_singleton in H. Qed.

Lemma removelast_sub {A} (l : list A) x : x ∈ removelast l -> x ∈ l.
Proof. induction l as [|y l IH]; cbn; [done|]. destruct l as [|z l]; [by intros ?%not_elem_of_nil|]. intros [->|H]%elem_of_cons; [by left|right; by apply IH]. Qed.

Lemma calm_popTemplate : calm (modify (fun b => set_templateModes (removelast (m_templateInsertionModes b)) b)).
Proof. apply calm_modify. intros b [H1 H2 H3]. repeat split; cbn; try done. intros H. by apply H3, removelast_sub. Qed.

Lemma calm_redirecting {A} (m : TB A) : calm m -> calm (redirecting m).
Proof.
  intros Hm. unfold redirecting. apply calm_get. intros b _. apply calm_bind; [apply calm_modify; by intros ? []|]. intros _. apply calm_bind; [done|]. intros a. apply calm_bind; [apply calm_modify; by intros ? []|]. intros _. apply calm_ret.
Qed.

Lemma calm_if {A} (c : bool) (m1 m2 : TB A) : (c = true -> calm m1) -> (c = false -> calm m2) -> calm (if c then m1 else m2).
Proof. destruct c; auto. Qed.

End Calm.

Create HintDb calm.
#[export] Hint Resolve calm_ret calm_none calm_assert calm_ask calm_query calm_tree calm_stack calm_formatting calm_reset calm_original calm_setOriginal calm_pushTemplate calm_popTemplate : calm.

(** One step of a proof that an operation is calm; [known] are the lemmas of the
    operations it calls. *)
Ltac calm_step :=
  match goal with
  | |- calm (bind get _) => apply calm_get; intros ? ?
  | |- calm (bind _ _) => apply calm_bind; [|intros ?]
  | |- calm (if ?c then _ else _) => apply calm_if; intros ?
  | |- calm (match ?x with _ => _ end) => destruct x eqn:?
  | |- calm (let _ := _ in _) => cbv zeta
  | |- calm (setInsertionMode _) => apply calm_mode; done
  | |- calm (redirecting _) => apply calm_redirecting
  | |- calm _ => solve [auto with calm]
  | |- calm (modify _) => apply calm_modify; by intros ? []
  end.

Ltac calm_auto := repeat calm_step.

Section Operations.
Context {env : Environment}.

Lemma calm_textLoop fuel parent next l n : calm (textLoop fuel parent next l n).
Proof. revert n. induction fuel as [|fuel IH]; intros n; cbn [textLoop]; [done|]. calm_auto. Qed.
Hint Resolve calm_textLoop : calm.

Lemma calm_insertTextNode l : calm (insertTextNode l).
Proof. unfold insertTextNode. calm_auto. Qed.

Lemma calm_executeQueuedTasks : calm executeQueuedTasks.
Proof. unfold executeQueuedTasks. calm_auto. Qed.

Lemma calm_merge token e : calm (mergeAttributesFromTokenIntoElement token e).
Proof. unfold mergeAttributesFromTokenIntoElement. calm_auto. Qed.
Hint Resolve calm_insertTextNode calm_executeQueuedTasks calm_merge : calm.

Lemma calm_htmlBefore token : calm (insertHTMLHtmlStartTagBeforeHTML token).
Proof. unfold insertHTMLHtmlStartTagBeforeHTML. calm_auto. Qed.

Lemma calm_htmlIn token : calm (insertHTMLHtmlStartTagInBody token).
Proof. unfold insertHTMLHtmlStartTagInBody. calm_auto. Qed.

Lemma calm_bodyIn token : calm (insertHTMLBodyStartTagInBody token).
Proof. unfold insertHTMLBodyStartTagInBody. calm_auto. Qed.

Lemma calm_defaultCompatibility : calm setDefaultCompatibilityMode.
Proof. unfold setDefaultCompatibilityMode, setCompatibilityMode. calm_auto. Qed.

Lemma calm_insertDoctype n p s q : calm (insertDoctype n p s q).
Proof. unfold insertDoctype, setCompatibilityMode. calm_auto. Qed.

Lemma calm_fragmentOrTemplate : calm isParsingFragmentOrTemplateContents.
Proof. unfold isParsingFragmentOrTemplateContents, isParsingTemplateContents. calm_auto. Qed.

Lemma calm_assertThat m : calm m -> calm (assertThat m).
Proof. intros. unfold assertThat. calm_auto. Qed.
Hint Resolve calm_htmlBefore calm_htmlIn calm_bodyIn calm_defaultCompatibility calm_insertDoctype calm_fragmentOrTemplate calm_assertThat : calm.

Lemma calm_assertFragmentOrTemplate : calm assertFragmentOrTemplate.
Proof. unfold assertFragmentOrTemplate. calm_auto. Qed.

Lemma calm_templateStart token : calm (processTemplateStartTag token).
Proof. unfold processTemplateStartTag. calm_auto. Qed.

Lemma calm_templateEnd : calm processTemplateEndTag.
Proof. unfold processTemplateEndTag. calm_auto. Qed.
Hint Resolve calm_assertFragmentOrTemplate calm_templateStart calm_templateEnd : calm.

Lemma calm_colgroupEnd : calm processColgroupEndTagForInColumnGroup.
Proof. unfold processColgroupEndTagForInColumnGroup, currentIsRootNode, currentItem. calm_auto. Qed.

Lemma calm_captionEnd : calm processCaptionEndTagForInCaption.
Proof. unfold processCaptionEndTagForInCaption, assertFragment. calm_auto. Qed.

Lemma calm_trEnd : calm processTrEndTagForInRow.
Proof. unfold processTrEndTagForInRow, currentItem. calm_auto. Qed.

Lemma calm_tableEnd : calm processTableEndTagForInTable.
Proof. unfold processTableEndTagForInTable. calm_auto. Qed.

Lemma calm_tableBodyName : calm currentTableBodyName.
Proof. unfold currentTableBodyName, currentItem. calm_auto. Qed.

Lemma calm_htmlStart token : calm (processHtmlStartTagForInBody token).
Proof. unfold processHtmlStartTagForInBody, isParsingTemplateContents. calm_auto. Qed.

Lemma calm_bodyEnd : calm processBodyEndTagForInBody.
Proof. unfold processBodyEndTagForInBody. calm_auto. Qed.
Hint Resolve calm_colgroupEnd calm_captionEnd calm_trEnd calm_tableEnd calm_tableBodyName calm_htmlStart calm_bodyEnd : calm.

End Operations.

#[export] Hint Resolve calm_textLoop calm_insertTextNode calm_executeQueuedTasks calm_merge calm_htmlBefore calm_htmlIn calm_bodyIn calm_defaultCompatibility calm_insertDoctype
  calm_fragmentOrTemplate calm_assertThat calm_assertFragmentOrTemplate calm_templateStart calm_templateEnd calm_colgroupEnd calm_captionEnd calm_trEnd calm_tableEnd calm_tableBodyName
  calm_htmlStart calm_bodyEnd : calm.

(** ** Start tags *)

(** The elements with text. *)
Definition rawName (name : AtomicString) : bool :=
  oneOf name ["title"; "noscript"; "noframes"; "style"; "script"; "textarea"; "xmp"; "iframe"; "noembed"]%string.

Definition withState (st : State) (x : option (State * bool * bool)) : option (State * bool * bool) :=
  match x with Some (_, f, c) => Some (st, f, c) | None => None end.

Definition startState (st : State) : Prop := st = RCDATAState \/ st = RAWTEXTState \/ st = ScriptDataState.

Definition headOnTop (b : HTMLTreeBuilder) : Prop := exists r l, records (m_tree b) = r :: l /\ hasTagName (m_item r) (htmlName "head") = true.

(** The text of the element of the token begins. *)
Record enters (token : Token) (b b' : HTMLTreeBuilder) : Prop := mkEnters {
  enters_name : rawName (tokenName token) = true;
  enters_mode : m_insertionMode b' = Text;
  enters_original : m_originalInsertionMode b' <> Text;
  enters_templates : Text ∉ m_templateInsertionModes b';
  enters_script : m_scriptToProcess b' = m_scriptToProcess b;
  enters_state : exists st, startState st /\ tokenizer b' = withState st (tokenizer b);
  enters_top : topIs (tokenName token) b' \/ headOnTop b'
}.

(** What a start tag may do. *)
Definition outcome (options : HTMLParserOptions) (token : Token) (b b' : HTMLTreeBuilder) : Prop :=
  quiet b' /\ same b b' \/
  tokenName token = lit "plaintext" /\ quiet b' /\ m_scriptToProcess b' = m_scriptToProcess b /\ tokenizer b' = withState PLAINTEXTState (tokenizer b) \/
  enters token b b' \/
  tokenName token = lit "script" /\ usePreHTML5ParserQuirks options = true /\ quiet b' /\ tokenizer b' = withState DataState (tokenizer b).

Section Opens.
Context {env : Environment}.

Definition opens {A} (token : Token) (m : TB A) : Prop := forall b a b', m b = Some (a, b') -> quiet b -> outcome m_options token b b'.

Lemma outcome_same token b b1 b' : same b b1 -> outcome m_options token b1 b' -> outcome m_options token b b'.
Proof.
  intros [E1 E2] [[H1 [H2 H3]]|[(H1 & H2 & H3 & H4)|[[]|(H1 & H2 & H3 & H4)]]].
  - left. split; [done|]. split; congruence.
  - right. left. split_and!; try done; congruence.
  - right. right. left. constructor; try done; [congruence|]. by rewrite <- E1.
  - right. right. right. split_and!; try done. congruence.
Qed.

Lemma opens_calm {A} token (m : TB A) : calm m -> opens token m.
Proof. intros Hm b a b' E Hb. left. by apply (Hm b a b'). Qed.

Lemma opens_bind {A B} token (m : TB A) (k : A -> TB B) : calm m -> (forall a, opens token (k a)) -> opens token (bind m k).
Proof.
  intros Hm Hk b a b' E Hb. unfold bind in E. destruct (m b) as [[x b1]|] eqn:E1; [|done]. destruct (Hm _ _ _ E1 Hb) as [H1 H2]. apply (outcome_same token b b1); [done|]. by apply (Hk x b1 a b').
Qed.

Lemma opens_get {B} token (k : HTMLTreeBuilder -> TB B) : (forall b, quiet b -> opens token (k b)) -> opens token (bind get k).
Proof. intros Hk b a b' E Hb. by apply (Hk b Hb b a b'). Qed.

(** Nothing happens after the element has been opened. *)
Definition still {A} (m : TB A) : Prop := forall b a b', m b = Some (a, b') -> b' = b.

Lemma opens_still {A B} token (m : TB A) (k : A -> TB B) : opens token m -> (forall a, still (k a)) -> opens token (bind m k).
Proof. intros Hm Hk b a b' E Hb. unfold bind in E. destruct (m b) as [[x b1]|] eqn:E1; [|done]. apply Hk in E as ->. by apply (Hm b x b1). Qed.

Lemma still_ret {A} (a : A) : still (ret a).
Proof. by intros b a' b' [= _ <-]. Qed.

Lemma still_assert p : still (assert p).
Proof. intros b a b' E. unfold assert in E. destruct (p b); [|done]. by injection E as _ <-. Qed.

Lemma opens_if {A} token (c : bool) (m1 m2 : TB A) : (c = true -> opens token m1) -> (c = false -> opens token m2) -> opens token (if c then m1 else m2).
Proof. destruct c; auto. Qed.

Lemma opens_none {A} token : opens token (fun _ => None : option (A * HTMLTreeBuilder)).
Proof. done. Qed.

(** A change of the tree that keeps the stack. *)
Lemma outcome_tree token b b' t : m_openElements t = m_openElements (m_tree b') -> outcome m_options token b b' -> outcome m_options token b (set_tree t b').
Proof.
  intros Et [[H1 H2]|[(H1 & H2 & H3 & H4)|[[H1 H2 H3 H4 H5 H6 H7]|(H1 & H2 & H3 & H4)]]].
  - left. by destruct H1.
  - right. left. by destruct H2.
  - right. right. left. constructor; try done. unfold topIs, headOnTop in *. cbn. by rewrite Et.
  - right. right. right. by destruct H3.
Qed.

Lemma opens_redirecting {A} token (m : TB A) : opens token m -> opens token (redirecting m).
Proof.
  intros Hm b a b' E Hb. unfold redirecting, bind, get, modify, ret in E. destruct (m _) as [[x b1]|] eqn:E1; [|done]. injection E as _ <-. apply outcome_tree; [done|].
  apply (outcome_same token b (set_tree (set_redirect true (m_tree b)) b)); [done|]. apply (Hm _ _ _ E1). by destruct Hb.
Qed.

(** A start tag of an element without text is calm. *)
Lemma calm_opens {A} token (m : TB A) : opens token m -> rawName (tokenName token) = false -> tokenName token <> lit "plaintext" -> calm m.
Proof.
  intros Hm Hr Hp b a b' E Hb. destruct (Hm b a b' E Hb) as [?|[[? _]|[[? _ _ _ _ _ _]|[Es _]]]]; [done|done|congruence|]. by rewrite Es in Hr.
Qed.

(** The new element is on top of the stack. *)
Lemma createElement_open token ns t item t' : createElement token ns t = Some (item, t') -> m_openElements t' = m_openElements t /\ m_tokenLocalName item = Some (tokenName token) /\ m_namespaceURI item = ns.
Proof. unfold createElement. repeat case_match; intros E; simplify_eq; try done. Qed.

Lemma attachLater_open p child c t t' : attachLater p child c t = Some t' -> m_openElements t' = m_openElements t.
Proof. unfold attachLater, fosterParent. repeat case_match; intros E; by simplify_eq. Qed.

Lemma push_top item s s' : push item s = Some s' -> exists r, m_top s' = r :: m_top s /\ m_item r = item.
Proof. unfold push, pushCommon. repeat case_match; intros E; simplify_eq. cbn. by eexists. Qed.

(** The operation puts the element of the token on top of the stack. *)
Definition onTop (token : Token) (f : HTMLConstructionSite -> option HTMLConstructionSite) : Prop :=
  forall t t', f t = Some t' -> exists r, m_top (m_openElements t') = r :: m_top (m_openElements t) /\ hasTarget (tokenName token) (m_item r) = true.

Lemma hasTarget_item node name attributes fragment : hasTarget name (mkItem node (Some name) attributes (Some xhtmlNamespaceURI) fragment) = true.
Proof. unfold hasTarget, matchesHTMLTag, hasLocalName. cbn. by rewrite !bool_decide_eq_true_2. Qed.

Lemma insertHTMLElement_top token : onTop token (insertHTMLElement token).
Proof.
  intros t t' E. unfold insertHTMLElement, createHTMLElement, createElement in E. destruct (currentNode t); [|done]. cbn in E. case_match; [|done]. case_match eqn:Ea; [|done]. apply attachLater_open in Ea. cbn in Ea.
  case_match eqn:Ep; [|done]. injection E as <-. destruct (push_top _ _ _ Ep) as (r & Er & Ei). exists r. cbn. rewrite Er, Ea, Ei. split; [done|apply hasTarget_item].
Qed.

Lemma insertScriptElement_top token : onTop token (insertScriptElement token).
Proof.
  intros t t' E. unfold insertScriptElement in E. destruct (currentNode t); [|done]. case_match eqn:Ea; [|done].
  assert (Eo : m_openElements h = m_openElements t) by (destruct (scriptingContentIsAllowed _); [by apply attachLater_open in Ea|by injection Ea as <-]).
  case_match eqn:Ep; [|done]. injection E as <-. destruct (push_top _ _ _ Ep) as (r & Er & Ei). exists r. cbn. rewrite Er, Eo, Ei. split; [done|apply hasTarget_item].
Qed.

(** The element is opened and its text begins; [also] is what textarea does as well. *)
Definition beginsText (token : Token) (b b' : HTMLTreeBuilder) : Prop := enters token b b' /\ exists r, records (m_tree b') = r :: records (m_tree b) /\ hasTarget (tokenName token) (m_item r) = true.

Lemma begins_text token f st b a b' : onTop token f -> rawName (tokenName token) = true -> startState st -> quiet b ->
  (tree f ;; setTokenizerState st ;; modify (fun b => set_originalMode (m_insertionMode b) b) ;; setInsertionMode Text) b = Some (a, b') -> beginsText token b b'.
Proof.
  intros Hf Hn Hst [Q1 Q2 Q3] E. unfold bind, tree, setTokenizerState, modify, setInsertionMode in E. destruct (f (m_tree b)) as [t|] eqn:Ef; [|done]. injection E as _ <-. destruct (Hf _ _ Ef) as (r & Er & Hr).
  assert (Ht : exists r, records (m_tree (set_mode Text (set_originalMode (m_insertionMode b) (set_tokenizer (withState st (tokenizer b)) (set_tree t b))))) = r :: records (m_tree b) /\ hasTarget (tokenName token) (m_item r) = true)
    by (exists r; by split). split; [|exact Ht]. constructor; try done; cbn.
  - by exists st.
  - left. by exists r, (records (m_tree b)).
Qed.

Lemma begins_rcdata token b a b' : rawName (tokenName token) = true -> quiet b -> processGenericRCDATAStartTag token b = Some (a, b') -> beginsText token b b'.
Proof. intros Hn Hb E. apply (begins_text token (insertHTMLElement token) RCDATAState b a b'); [apply insertHTMLElement_top|done|by left|done|exact E]. Qed.

Lemma begins_rawText token b a b' : rawName (tokenName token) = true -> quiet b -> processGenericRawTextStartTag token b = Some (a, b') -> beginsText token b b'.
Proof. intros Hn Hb E. apply (begins_text token (insertHTMLElement token) RAWTEXTState b a b'); [apply insertHTMLElement_top|done|by right; left|done|exact E]. Qed.

Lemma begins_script token b a b' : rawName (tokenName token) = true -> quiet b -> processScriptStartTag token b = Some (a, b') -> beginsText token b b'.
Proof. intros Hn Hb E. apply (begins_text token (insertScriptElement token) ScriptDataState b a b'); [apply insertScriptElement_top|done|by right; right|done|exact E]. Qed.

Lemma opens_rcdata token : rawName (tokenName token) = true -> opens token (processGenericRCDATAStartTag token).
Proof. intros Hn b a b' E Hb. right. right. left. by apply (begins_rcdata token b a b'). Qed.

Lemma opens_rawText token : rawName (tokenName token) = true -> opens token (processGenericRawTextStartTag token).
Proof. intros Hn b a b' E Hb. right. right. left. by apply (begins_rawText token b a b'). Qed.

Lemma opens_textarea token : rawName (tokenName token) = true ->
  opens token (tree (insertHTMLElement token) ;; modify (set_skipNewline true) ;; setTokenizerState RCDATAState ;; modify (fun b => set_originalMode (m_insertionMode b) b) ;; framesetNotOk ;; setInsertionMode Text).
Proof.
  intros Hn b a b' E [Q1 Q2 Q3]. right. right. left. unfold bind, tree, setTokenizerState, modify, setInsertionMode, framesetNotOk, modify in E. destruct (insertHTMLElement token (m_tree b)) as [t|] eqn:Ef; [|done]. injection E as _ <-.
  destruct (insertHTMLElement_top token _ _ Ef) as (r & Er & Hr). constructor; try done; cbn.
  - exists RCDATAState. split; [by left|done].
  - left. by exists r, (records (m_tree b)).
Qed.

Lemma rawName_tag name l : oneOf name l = true -> forallb (fun s => rawName (lit s)) l = true -> rawName name = true.
Proof.
  intros Ho Hl. unfold oneOf in Ho. apply existsb_exists in Ho as (s & Hs & Ht). rewrite forallb_forall in Hl. apply Hl in Hs. unfold HTMLTreeBuilder.isTag in Ht. apply bool_decide_eq_true in Ht as ->. done.
Qed.

Lemma rawName_one name s : HTMLTreeBuilder.isTag name s = true -> rawName (lit s) = true -> rawName name = true.
Proof. intros Ht. unfold HTMLTreeBuilder.isTag in Ht. by apply bool_decide_eq_true in Ht as ->. Qed.

End Opens.

(** ** Operations that call back

    The recursive calls are assumed to behave as [process] is then shown to. *)

Section Recursion.
Context {env : Environment}.
Variable startTag : Token -> TB unit.
Variable endTag : AtomicString -> TB unit.
Variable fakeCharacters : list Z -> TB unit.
Variable endOfFile : TB unit.
Hypothesis startTag_opens : forall token, opens token (startTag token).
Hypothesis endTag_calm : forall name, calm (endTag name).
Hypothesis endScript : forall b a b', endTag (lit "script") b = Some (a, b') -> m_insertionMode b = Text -> m_originalInsertionMode b <> Text -> Text ∉ m_templateInsertionModes b ->
  quiet b' /\ tokenizer b' = withState DataState (tokenizer b).
Hypothesis fakeCharacters_calm : forall l, calm (fakeCharacters l).
Hypothesis endOfFile_calm : calm endOfFile.
Hint Resolve endTag_calm fakeCharacters_calm endOfFile_calm : calm.

Lemma calm_startTag token : rawName (tokenName token) = false -> tokenName token <> lit "plaintext" -> calm (startTag token).
Proof. intros. by apply (calm_opens token). Qed.

Lemma calm_fakeStart s : rawName (lit s) = false -> lit s <> lit "plaintext" -> calm (processFakeStartTag startTag s).
Proof. intros. by apply calm_startTag. Qed.

Lemma calm_fakeEnd s : calm (processFakeEndTag endTag s).
Proof. apply endTag_calm. Qed.
Hint Resolve calm_fakeEnd : calm.

Lemma calm_pInButtonScope : calm (processFakePEndTagIfPInButtonScope endTag).
Proof. unfold processFakePEndTagIfPInButtonScope. calm_auto. Qed.

Lemma calm_defaultInitial : calm defaultForInitial.
Proof. unfold defaultForInitial. calm_auto. Qed.

Lemma calm_defaultBeforeHTML : calm defaultForBeforeHTML.
Proof. unfold defaultForBeforeHTML. calm_auto. Qed.

Lemma calm_defaultBeforeHead : calm (defaultForBeforeHead startTag).
Proof. by apply calm_startTag. Qed.

Lemma calm_defaultInHead : calm (defaultForInHead endTag).
Proof. apply endTag_calm. Qed.

Lemma calm_defaultNoscript : calm (defaultForInHeadNoscript endTag).
Proof. apply endTag_calm. Qed.

Lemma calm_defaultAfterHead : calm (defaultForAfterHead startTag).
Proof. unfold defaultForAfterHead. calm_step; [by apply calm_startTag|]. calm_auto. Qed.

Lemma calm_defaultInTableText : calm defaultForInTableText.
Proof. unfold defaultForInTableText, reconstruct, framesetNotOk. calm_auto. Qed.
Hint Resolve calm_pInButtonScope calm_defaultInitial calm_defaultBeforeHTML calm_defaultBeforeHead calm_defaultInHead calm_defaultNoscript calm_defaultAfterHead calm_defaultInTableText : calm.

Lemma calm_isindex token : calm (processIsindexStartTagForInBody startTag endTag fakeCharacters token).
Proof.
  unfold processIsindexStartTagForInBody, isParsingTemplateContents. repeat first [calm_step|by apply calm_fakeStart|by apply calm_startTag].
Qed.

Lemma calm_closeNested shouldClose token : calm (processCloseWhenNestedTag endTag shouldClose token).
Proof. unfold processCloseWhenNestedTag, framesetNotOk. calm_auto. Qed.
Hint Resolve calm_isindex calm_closeNested : calm.

(** *** In head *)

Lemma inHead_outcome token b v b' : processStartTagForInHead endTag token b = Some (v, b') -> quiet b ->
  outcome m_options token b b' /\ (m_insertionMode b' = Text -> beginsText token b b') /\ (v = false -> quiet b' /\ same b b').
Proof.
  intros E Hb. unfold processStartTagForInHead in E.
  assert (Hcalm : forall (m : TB bool), calm m -> m b = Some (v, b') -> outcome m_options token b b' /\ (m_insertionMode b' = Text -> beginsText token b b') /\ (v = false -> quiet b' /\ same b b')).
  { intros m Hm E'. destruct (Hm _ _ _ E' Hb) as [H1 H2]. split_and!; [by left|intros E1; by destruct H1|done]. }
  assert (Hbegin : forall (m : TB unit), (forall a b1, m b = Some (a, b1) -> beginsText token b b1) -> (m ;; ret true) b = Some (v, b') ->
    outcome m_options token b b' /\ (m_insertionMode b' = Text -> beginsText token b b') /\ (v = false -> quiet b' /\ same b b')).
  { intros m Hm E'. unfold bind in E'. destruct (m b) as [[a b1]|] eqn:E1; [|done]. injection E' as <- <-. pose proof (Hm _ _ eq_refl) as H1. split_and!; [right; right; left; exact (proj1 H1)|done|done]. }
  repeat match type of E with
  | (if HTMLTreeBuilder.isTag _ "script" then _ else _) _ = _ => fail 1
  | (if ?c then _ else _) _ = _ => destruct c eqn:?
  end; try solve [eapply Hcalm; [|exact E]; calm_auto]; try solve [eapply Hbegin; [|exact E]; intros a b1 E1; first
    [apply (begins_rcdata token b a b1); [by eapply rawName_one|done|done]|apply (begins_rawText token b a b1); [first [by eapply rawName_one|by eapply rawName_tag]|done|done]]].
  destruct (HTMLTreeBuilder.isTag (tokenName token) "script") eqn:Es; [|repeat match type of E with (if ?c then _ else _) _ = _ => destruct c end; (eapply Hcalm; [|exact E]; calm_auto)].
  unfold bind in E. destruct (processScriptStartTag token b) as [[a b1]|] eqn:E1; [|done]. assert (H1 : beginsText token b b1) by (apply (begins_script token b a b1); [by eapply rawName_one|done|done]).
  destruct (usePreHTML5ParserQuirks m_options && tokenSelfClosing token) eqn:Eq.
  - apply andb_true_iff in Eq as [Eq _]. unfold processFakeEndTag in E. destruct (endTag (lit "script") b1) as [[a2 b2]|] eqn:E2; [|done]. injection E as <- <-. destruct H1 as [[H1 H2 H3 H4 H5 (st & Hst & H6) H7] _].
    destruct (endScript b1 a2 b2 E2 H2 H3 H4) as [H8 H9]. split_and!; [|intros Et; by destruct H8|done]. right. right. right. unfold HTMLTreeBuilder.isTag in Es. apply bool_decide_eq_true in Es.
    split_and!; try done. rewrite H9, H6. by destruct (tokenizer b) as [[[? ?] ?]|].
  - injection E as <- <-. split_and!; [right; right; left; exact (proj1 H1)|done|done].
Qed.

Lemma opens_inHead token : opens token (processStartTagForInHead endTag token).
Proof. intros b v b' E Hb. by apply (inHead_outcome token b v b'). Qed.

Lemma opens_processed token : opens token (inHeadProcessed endTag token).
Proof. apply opens_still; [apply opens_inHead|]. intros a. apply still_assert. Qed.

Lemma opens_ignored token : opens token (inHeadIgnored endTag token).
Proof. apply opens_still; [apply opens_inHead|]. intros a. apply still_ret. Qed.

(** After the head, the head is put back on the stack for the element and then removed. *)
Lemma removeLoop_first n l l' : removeLoop n l = Some l' -> exists r, head l = Some r /\ head l' = Some r.
Proof.
  destruct l as [|r [|x l]]; try done. intros E. exists r. split; [done|]. cbn [removeLoop] in E. destruct (element (m_item x)); [|done]. destruct (sameNode c n); [by injection E as <-|].
  match type of E with match ?o with _ => _ end = _ => destruct o end; [|done]. by injection E as <-.
Qed.

Lemma removeHead_top n s s' r l : removeHTMLHeadElement n s = Some s' -> m_top s = r :: l -> m_top s' = l \/ exists l', m_top s' = r :: l'.
Proof.
  intros E Et. unfold removeHTMLHeadElement in E. destruct (isNode n (m_headElement s)); [|done]. destruct (top s) as [e|]; [|done]. destruct (sameNode e n).
  - left. unfold popHTMLHeadElement in E. destruct (top s) as [e'|]; [|done]. destruct (isNode e' _); [|done]. unfold popCommon in E. cbn in E. rewrite Et in E. repeat case_match; simplify_eq. done.
  - right. unfold removeNonTopCommon in E. repeat case_match; simplify_eq. match goal with H : removeLoop _ _ = Some _ |- _ => cbn in H; rewrite Et in H; apply removeLoop_first in H as (x & Hx & Hl) end.
    injection Hx as <-. match goal with H : head ?l = Some r |- _ => destruct l as [|y l']; [done|]; injection H as -> end. by exists l'.
Qed.

Lemma opens_headContent token : opens token
  (let! headItem := ask (fun b => m_head (m_tree b)) in
   let! head := ask (fun _ => element headItem) in
   stack (pushHTMLHeadElement headItem) ;; inHeadIgnored endTag token ;; stack (removeHTMLHeadElement head)).
Proof.
  intros b a b' E Hb. unfold bind at 1, ask at 1 in E. destruct (m_head (m_tree b)) as [headItem|]; [|done]. unfold bind at 1, ask at 1 in E. destruct (element headItem) as [head|]; [|done].
  unfold bind at 1 in E. destruct (stack (pushHTMLHeadElement headItem) b) as [[[] b1]|] eqn:E1; [|done]. destruct (calm_stack _ _ _ _ E1 Hb) as [Q1 S1].
  assert (H1 : exists r, records (m_tree b1) = r :: records (m_tree b) /\ hasTagName (m_item r) (htmlName "head") = true).
  { unfold stack, tree, pushHTMLHeadElement, pushCommon in E1. repeat case_match; simplify_eq. cbn. eexists. split; [done|]. done. }
  destruct H1 as (hr & Er & Hh). unfold bind at 1, inHeadIgnored, bind at 1 in E. destruct (processStartTagForInHead endTag token b1) as [[v b2]|] eqn:E2; [|done]. cbn in E.
  destruct (inHead_outcome token b1 v b2 E2 Q1) as (Ho & Hbegin & _). apply (outcome_same token b b1 b' S1).
  unfold stack, tree in E. destruct (removeHTMLHeadElement head (m_openElements (m_tree b2))) as [s'|] eqn:Es; [|done]. injection E as _ <-.
  destruct Ho as [[H1 H2]|[(H1 & H2 & H3 & H4)|[Hen|(H1 & H2 & H3 & H4)]]].
  - left. by destruct H1.
  - right. left. by destruct H2.
  - destruct (Hbegin (enters_mode _ _ _ Hen)) as [[H1 H2 H3 H4 H5 H6 _] (r & Er2 & Hr)]. right. right. left. constructor; try done. destruct (removeHead_top _ _ _ _ _ Es Er2) as [Et|(l' & Et)].
    + right. exists hr, (records (m_tree b)). cbn. by rewrite Et, Er.
    + left. exists r, l'. cbn. by rewrite Et.
  - right. right. right. by destruct H3.
Qed.

(** *** In body and in tables *)

Lemma calm_bodyStart token : calm (bodyStartTagForInBody token).
Proof. unfold bodyStartTagForInBody, framesetNotOk. calm_auto. Qed.

Lemma calm_framesetStart token : calm (framesetStartTagForInBody token).
Proof. unfold framesetStartTagForInBody. calm_auto. Qed.

Lemma calm_anchorStart token : calm (anchorStartTagForInBody endTag token).
Proof. unfold anchorStartTagForInBody, reconstruct. calm_auto. Qed.

Lemma calm_nobrStart token : calm (nobrStartTagForInBody endTag token).
Proof. unfold nobrStartTagForInBody, reconstruct. calm_auto. Qed.

Lemma calm_tableStart token : calm (tableStartTagForInBody endTag token).
Proof. unfold tableStartTagForInBody, framesetNotOk. calm_auto. Qed.

Lemma calm_selectStart token : calm (selectStartTagForInBody token).
Proof. unfold selectStartTagForInBody, reconstruct, framesetNotOk. calm_auto. Qed.

Lemma calm_closeOption : calm (closeOption endTag).
Proof. unfold closeOption, currentItem. calm_auto. Qed.

Lemma calm_closeOptgroup : calm (closeOptgroup endTag).
Proof. unfold closeOptgroup, currentItem. calm_auto. Qed.

Lemma calm_closeTheCell : calm (closeTheCell endTag).
Proof. unfold closeTheCell, assertMode. calm_auto. Qed.
Hint Resolve calm_bodyStart calm_framesetStart calm_anchorStart calm_nobrStart calm_tableStart calm_selectStart calm_closeOption calm_closeOptgroup calm_closeTheCell : calm.

Ltac calm_all := repeat first [calm_step|by apply calm_fakeStart|by apply calm_startTag].

Lemma opens_plaintext token : tokenName token = lit "plaintext" -> opens token (setTokenizerState PLAINTEXTState).
Proof. intros Hn b a b' [= _ <-] [H1 H2 H3]. right. left. by split_and!. Qed.

Ltac opens_step :=
  match goal with
  | |- opens ?token (startTag ?token) => apply startTag_opens
  | |- opens _ (bind get _) => apply opens_get; intros ? ?
  | |- opens _ (if ?c then _ else _) => apply opens_if; intros ?
  | |- opens _ (let _ := _ in _) => cbv zeta
  | |- opens _ (inHeadProcessed _ _) => apply opens_processed
  | |- opens _ (inHeadIgnored _ _) => apply opens_ignored
  | |- opens _ (setTokenizerState PLAINTEXTState) => apply opens_plaintext; by apply isTag_eq
  | |- opens _ (processGenericRawTextStartTag _) => apply opens_rawText; by eapply rawName_one
  | |- opens _ (redirecting _) => apply opens_redirecting
  | |- opens _ _ => apply opens_calm; solve [calm_all]
  | |- opens _ (bind _ _) => apply opens_bind; [solve [calm_all]|intros ?]
  end.

Lemma opens_button token : opens token (buttonStartTagForInBody startTag endTag token).
Proof. unfold buttonStartTagForInBody, reconstruct, framesetNotOk. repeat opens_step. Qed.

Lemma opens_later token : opens token (laterStartTagForInBody startTag endTag fakeCharacters token).
Proof.
  unfold laterStartTagForInBody, reconstruct, framesetNotOk. apply opens_get. intros b0 _. do 3 (apply opens_if; intros ?; [by repeat opens_step|]).
  destruct (HTMLTreeBuilder.isTag (tokenName token) "image").
  - apply opens_if; intros Hc; [by repeat opens_step|]. by vm_compute in Hc.
  - cbv zeta. repeat match goal with
    | |- opens _ (if HTMLTreeBuilder.isTag _ "textarea" then _ else _) => apply opens_if; intros ?; [apply opens_textarea; by eapply rawName_one|]
    | |- opens _ (if _ && _ then _ else _) => apply opens_if; [intros [? ?]%andb_true_iff|intros ?]
    | _ => opens_step
    end.
Qed.

Lemma opens_inBody token : opens token (processStartTagForInBody startTag endTag fakeCharacters token).
Proof.
  unfold processStartTagForInBody, reconstruct, framesetNotOk, currentItem, isParsingTemplateContents. repeat first [apply opens_button|apply opens_later|opens_step].
Qed.

Lemma opens_inTable token : opens token (processStartTagForInTable startTag endTag fakeCharacters token).
Proof. unfold processStartTagForInTable, assertMode, isParsingTemplateContents. repeat first [apply opens_inBody|opens_step]. Qed.

(** *** Start tags by insertion mode *)

Lemma opens_startInBody token : opens token (startTagInBody startTag endTag fakeCharacters token).
Proof. unfold startTagInBody, assertMode. repeat first [apply opens_inBody|opens_step]. Qed.

Lemma opens_afterHead token : opens token (startTagAfterHead startTag endTag fakeCharacters token).
Proof. unfold startTagAfterHead, assertMode, framesetNotOk. repeat first [apply opens_startInBody|apply opens_headContent|opens_step]. Qed.

Lemma opens_startInHead token : opens token (startTagInHead startTag endTag fakeCharacters token).
Proof.
  unfold startTagInHead, assertMode. apply opens_bind; [auto with calm|]. intros _ b a b' E Hb. unfold bind at 1 in E. destruct (processStartTagForInHead endTag token b) as [[v b1]|] eqn:E1; [|done].
  destruct (inHead_outcome token b v b1 E1 Hb) as (Ho & _ & Hf). destruct v; [by injection E as _ <-|]. destruct (Hf eq_refl) as [Q1 S1]. apply (outcome_same token b b1 b' S1).
  assert (Hs : opens token (defaultForInHead endTag ;; startTagAfterHead startTag endTag fakeCharacters token)) by (apply opens_bind; [auto with calm|intros; apply opens_afterHead]). by apply (Hs b1 a b').
Qed.

Lemma opens_beforeHead token : opens token (startTagBeforeHead startTag endTag fakeCharacters token).
Proof. unfold startTagBeforeHead, assertMode. repeat first [apply opens_startInHead|opens_step]. Qed.

Lemma opens_beforeHTML token : opens token (startTagBeforeHTML startTag endTag fakeCharacters token).
Proof. unfold startTagBeforeHTML, assertMode. repeat first [apply opens_beforeHead|opens_step]. Qed.

Lemma opens_inCaption token : opens token (startTagInCaption startTag endTag fakeCharacters token).
Proof. unfold startTagInCaption, assertFragment. repeat first [apply opens_inBody|opens_step]. Qed.

Lemma opens_inColumnGroup token : opens token (startTagInColumnGroup startTag token).
Proof. unfold startTagInColumnGroup. repeat opens_step. Qed.

Lemma opens_inTableBody token : opens token (startTagInTableBody startTag endTag fakeCharacters token).
Proof. unfold startTagInTableBody, assertMode, tableBodyInTableScope. repeat first [apply opens_inTable|opens_step]. Qed.

Lemma opens_inRow token : opens token (startTagInRow startTag endTag fakeCharacters token).
Proof. unfold startTagInRow, assertMode. repeat first [apply opens_inTable|opens_step]. Qed.

Lemma opens_inCell token : opens token (startTagInCell startTag endTag fakeCharacters token).
Proof. unfold startTagInCell, assertFragment, cellInTableScope. repeat first [apply opens_inBody|opens_step]. Qed.

Lemma opens_afterBody token : opens token (startTagAfterBody startTag token).
Proof. unfold startTagAfterBody. repeat opens_step. Qed.

Lemma opens_inNoscript token : opens token (startTagInHeadNoscript startTag endTag token).
Proof. unfold startTagInHeadNoscript. repeat opens_step. Qed.

Lemma opens_inFrameset token : opens token (startTagInFrameset endTag token).
Proof. unfold startTagInFrameset. repeat opens_step. Qed.

Lemma opens_afterFrameset token : opens token (startTagAfterFrameset endTag token).
Proof. unfold startTagAfterFrameset. repeat opens_step. Qed.

Lemma opens_inSelect token : opens token (startTagInSelect startTag endTag token).
Proof. unfold startTagInSelect, assertFragment. repeat opens_step. Qed.

Lemma opens_inSelectInTable token : opens token (startTagInSelectInTable startTag endTag token).
Proof. unfold startTagInSelectInTable. repeat first [apply opens_inSelect|opens_step]. Qed.

Lemma modeInTemplate_quiet name : modeInTemplate name <> Text.
Proof. unfold modeInTemplate. by repeat case_match. Qed.

Lemma opens_templateContents token : opens token (startTagTemplateContents startTag endTag token).
Proof.
  unfold startTagTemplateContents. cbv zeta. do 2 (apply opens_if; intros ?; [by repeat opens_step|]). apply opens_bind; [auto with calm|]. intros _. apply opens_bind.
  - apply calm_modify. intros b [H1 H2 H3]. repeat split; cbn; try done. intros [Hin%removelast_sub|Hin]%elem_of_app; [done|]. apply list_elem_of_singleton in Hin. by apply (modeInTemplate_quiet (tokenName token)).
  - intros _. apply opens_bind; [apply calm_mode, modeInTemplate_quiet|]. intros _. apply startTag_opens.
Qed.

Lemma opens_processStartTag token : opens token (processStartTag startTag endTag fakeCharacters token).
Proof.
  apply opens_get. intros b Hb. destruct (m_insertionMode b); first [apply opens_beforeHTML|apply opens_beforeHead|apply opens_startInHead|apply opens_afterHead|apply opens_startInBody|apply opens_inTable|apply opens_inCaption
    |apply opens_inColumnGroup|apply opens_inTableBody|apply opens_inRow|apply opens_inCell|apply opens_afterBody|apply opens_inNoscript|apply opens_inFrameset|apply opens_afterFrameset|apply opens_inSelect|apply opens_inSelectInTable
    |apply opens_templateContents|apply opens_none|idtac].
  - apply opens_bind; [auto with calm|]. intros _. apply opens_beforeHTML.
  - apply opens_bind; [auto with calm|]. intros _. apply startTag_opens.
Qed.

(** *** End tags *)

Lemma calm_closeInScope scope implied close : calm (closeInScope scope implied close).
Proof. unfold closeInScope. calm_auto. Qed.
Hint Resolve calm_closeInScope : calm.

Lemma calm_formEnd : calm formEndTagForInBody.
Proof. unfold formEndTagForInBody, isParsingTemplateContents. calm_auto. Qed.
Hint Resolve calm_formEnd : calm.

Lemma calm_endInBody name : calm (processEndTagForInBody startTag endTag name).
Proof. unfold processEndTagForInBody. calm_all. Qed.
Hint Resolve calm_endInBody : calm.

Lemma calm_endInTable name : calm (processEndTagForInTable startTag endTag name).
Proof. unfold processEndTagForInTable. calm_all. Qed.
Hint Resolve calm_endInTable : calm.

Lemma calm_endInTableBody name : calm (processEndTagForInTableBody startTag endTag name).
Proof. unfold processEndTagForInTableBody, tableBodyInTableScope. calm_all. Qed.

Lemma calm_endInRow name : calm (processEndTagForInRow startTag endTag name).
Proof. unfold processEndTagForInRow, assertMode. calm_all. Qed.

Lemma calm_endInCell name : calm (processEndTagForInCell startTag endTag name).
Proof. unfold processEndTagForInCell. calm_all. Qed.

Lemma calm_endTagInBody name : calm (endTagInBody startTag endTag name).
Proof. unfold endTagInBody, assertMode. calm_all. Qed.
Hint Resolve calm_endInTableBody calm_endInRow calm_endInCell calm_endTagInBody : calm.

Lemma calm_endAfterHead name : calm (endTagAfterHead startTag endTag name).
Proof. unfold endTagAfterHead, assertMode. calm_all. Qed.
Hint Resolve calm_endAfterHead : calm.

Lemma calm_endInHead name : calm (endTagInHead startTag endTag name).
Proof. unfold endTagInHead, assertMode. calm_all. Qed.
Hint Resolve calm_endInHead : calm.

Lemma calm_endBeforeHead name : calm (endTagBeforeHead startTag endTag name).
Proof. unfold endTagBeforeHead, assertMode. calm_all. Qed.
Hint Resolve calm_endBeforeHead : calm.

Lemma calm_endBeforeHTML name : calm (endTagBeforeHTML startTag endTag name).
Proof. unfold endTagBeforeHTML, assertMode. calm_all. Qed.

Lemma calm_endInCaption name : calm (endTagInCaption startTag endTag name).
Proof. unfold endTagInCaption, assertFragment. calm_all. Qed.

Lemma calm_endInColumnGroup name : calm (endTagInColumnGroup endTag name).
Proof. unfold endTagInColumnGroup. calm_all. Qed.

Lemma calm_endAfterAfterBody name : calm (endTagAfterAfterBody endTag name).
Proof. unfold endTagAfterAfterBody. calm_all. Qed.
Hint Resolve calm_endBeforeHTML calm_endInCaption calm_endInColumnGroup calm_endAfterAfterBody : calm.

Lemma calm_endAfterBody name : calm (endTagAfterBody endTag name).
Proof. unfold endTagAfterBody. calm_all. Qed.

Lemma calm_endInNoscript name : calm (endTagInHeadNoscript endTag name).
Proof. unfold endTagInHeadNoscript, currentItem. calm_all. Qed.

Lemma calm_endInFrameset name : calm (endTagInFrameset name).
Proof. unfold endTagInFrameset, currentIsRootNode, currentItem. calm_all. Qed.

Lemma calm_endAfterFrameset name : calm (endTagAfterFrameset name).
Proof. unfold endTagAfterFrameset. calm_all. Qed.

Lemma calm_endInSelect name : calm (endTagInSelect endTag name).
Proof. unfold endTagInSelect, currentItem, assertFragment. calm_all. Qed.
Hint Resolve calm_endAfterBody calm_endInNoscript calm_endInFrameset calm_endAfterFrameset calm_endInSelect : calm.

Lemma calm_endInSelectInTable name : calm (endTagInSelectInTable endTag name).
Proof. unfold endTagInSelectInTable. calm_all. Qed.
Hint Resolve calm_endInSelectInTable : calm.

Lemma calm_processEndTag name : calm (processEndTag startTag endTag name).
Proof. apply calm_get. intros b Hb. destruct (m_insertionMode b) eqn:Em; try (by destruct Hb); calm_all. Qed.

(** *** Characters and the end of the file *)

Lemma calm_bufferInBody l : calm (processCharacterBufferForInBody l).
Proof. unfold processCharacterBufferForInBody, reconstruct, framesetNotOk. calm_all. Qed.

Lemma calm_leadingWhitespace l : calm (insertLeadingWhitespace l).
Proof. unfold insertLeadingWhitespace. calm_all. Qed.

Lemma calm_remainingWhitespace l m : calm m -> calm (insertRemainingWhitespace l m).
Proof. intros Hm. unfold insertRemainingWhitespace. calm_all. Qed.
Hint Resolve calm_bufferInBody calm_leadingWhitespace calm_remainingWhitespace : calm.

Lemma calm_charactersInBody l : calm (charactersInBody l).
Proof. unfold charactersInBody, assertMode. calm_all. Qed.
Hint Resolve calm_charactersInBody : calm.

Lemma calm_charactersAfterHead l : calm (charactersAfterHead startTag l).
Proof. unfold charactersAfterHead, assertMode. calm_all. Qed.
Hint Resolve calm_charactersAfterHead : calm.

Lemma calm_charactersInHead l : calm (charactersInHead startTag endTag l).
Proof. unfold charactersInHead, assertMode. calm_all. Qed.
Hint Resolve calm_charactersInHead : calm.

Lemma calm_charactersBeforeHead l : calm (charactersBeforeHead startTag endTag l).
Proof. unfold charactersBeforeHead, assertMode. calm_all. Qed.
Hint Resolve calm_charactersBeforeHead : calm.

Lemma calm_charactersBeforeHTML l : calm (charactersBeforeHTML startTag endTag l).
Proof. unfold charactersBeforeHTML, assertMode. calm_all. Qed.
Hint Resolve calm_charactersBeforeHTML : calm.

Lemma calm_charactersInitial l : calm (charactersInitial startTag endTag l).
Proof. unfold charactersInitial. calm_all. Qed.

Lemma calm_charactersInTable l : calm (charactersInTable l).
Proof. unfold charactersInTable, currentItem. calm_all. Qed.
Hint Resolve calm_charactersInitial calm_charactersInTable : calm.

Lemma calm_reprocess fuel l : calm (reprocessBuffer startTag endTag fuel l).
Proof.
  revert l. induction fuel as [|fuel IH]; intros l; [apply calm_none|]. cbn [reprocessBuffer]. apply calm_get. intros b Hb. apply calm_bind; [calm_all|]. intros _. apply calm_if; intros _; [calm_all|].
  destruct (m_insertionMode b) eqn:Em; try (by destruct Hb); unfold reconstruct; calm_all.
Qed.
Hint Resolve calm_reprocess : calm.

Lemma calm_processCharacterBuffer l : calm (processCharacterBuffer startTag endTag l).
Proof. unfold processCharacterBuffer. calm_all. Qed.

Lemma calm_stopParsing : calm stopParsing.
Proof. unfold stopParsing. calm_all. Qed.

Lemma calm_endOfFileTemplate : calm (processEndOfFileForInTemplateContents endOfFile).
Proof. unfold processEndOfFileForInTemplateContents. calm_all. Qed.
Hint Resolve calm_stopParsing calm_endOfFileTemplate : calm.

Lemma calm_endOfFileWithTemplates : calm (endOfFileWithTemplates endOfFile).
Proof. unfold endOfFileWithTemplates. calm_all. Qed.
Hint Resolve calm_endOfFileWithTemplates : calm.

Lemma calm_processEndOfFile : calm (processEndOfFile startTag endTag endOfFile).
Proof.
  apply calm_get. intros b Hb. destruct (m_insertionMode b) eqn:Em; try (by destruct Hb);
    unfold endOfFileBeforeHTML, endOfFileBeforeHead, endOfFileInHead, endOfFileAfterHead, endOfFileInBody, endOfFileInColumnGroup, endOfFileInTable, assertMode, assertFragment, currentItem, currentIsRootNode; calm_all.
Qed.

End Recursion.

(** ** The recursion *)

Section Process.
Context {env : Environment}.

(** The end tag of a text. *)
Lemma endTagText_quiet name b a b' : endTagText name b = Some (a, b') -> m_originalInsertionMode b <> Text -> Text ∉ m_templateInsertionModes b ->
  quiet b' /\ if HTMLTreeBuilder.isTag name "script" then tokenizer b' = withState DataState (tokenizer b) else same b b'.
Proof.
  intros E Ho Ht. unfold endTagText in E. destruct (HTMLTreeBuilder.isTag name "script"); unfold currentItem, query, stack, tree, setTokenizerState, bind, ask, assert, get, modify, ret in E;
    repeat case_match; simplify_eq; (split; [by constructor|]); try done; cbn in *; repeat match goal with H : tokenizer _ = _ |- _ => rewrite H; clear H end; done.
Qed.

Lemma process_calm n :
  (forall token, opens token (process n (CallStartTag token))) /\ (forall name, calm (process n (CallEndTag name))) /\ (forall l, calm (process n (CallCharacters l))) /\ calm (process n CallEndOfFile).
Proof.
  induction n as [|n (I1 & I2 & I3 & I4)]; [done|].
  assert (Hend : forall b a b', process n (CallEndTag (lit "script")) b = Some (a, b') -> m_insertionMode b = Text -> m_originalInsertionMode b <> Text -> Text ∉ m_templateInsertionModes b ->
    quiet b' /\ tokenizer b' = withState DataState (tokenizer b)).
  { intros b a b' E Hm Ho Ht. destruct n as [|n]; [done|]. cbn [process] in E. unfold processEndTag, bind, get in E. rewrite Hm in E. exact (endTagText_quiet _ _ _ _ E Ho Ht). }
  split_and!; intros; cbn [process]; [by apply opens_processStartTag|by apply calm_processEndTag|by apply calm_processCharacterBuffer|by apply calm_processEndOfFile].
Qed.

Lemma opens_call token : opens token (processCall (CallStartTag token)).
Proof. unfold processCall. apply opens_get. intros b _. apply process_calm. Qed.

Lemma calm_callEnd name : calm (processCall (CallEndTag name)).
Proof. unfold processCall. apply calm_get. intros b _. apply process_calm. Qed.

Lemma calm_callCharacters l : calm (processCall (CallCharacters l)).
Proof. unfold processCall. apply calm_get. intros b _. apply process_calm. Qed.

Lemma calm_callEndOfFile : calm (processCall CallEndOfFile).
Proof. unfold processCall. apply calm_get. intros b _. apply process_calm. Qed.

Lemma calm_insertComment : calm processComment.
Proof. unfold processComment. pose proof calm_defaultInTableText. calm_auto; auto with calm. Qed.

Lemma calm_doctype name publicId systemId forceQuirks : calm (processDoctypeToken name publicId systemId forceQuirks).
Proof. unfold processDoctypeToken. pose proof calm_defaultInTableText. calm_auto; auto with calm. Qed.

(** ** Tokens outside of text *)

(** What a token may do when no text is being read. *)
Definition reaction (token : AtomicHTMLToken) (b b' : HTMLTreeBuilder) : Prop :=
  match token with
  | StartTag token => outcome m_options token b b'
  | EndTag _ => quiet b' /\ tokenizer b' = tokenizer b
  | _ => quiet b' /\ same b b'
  end.

Lemma reaction_calm {A} token (m : TB A) b a b' : calm m -> m b = Some (a, b') -> quiet b -> reaction token b b'.
Proof. intros Hm E Hb. destruct (Hm b a b' E Hb) as [H1 H2]. destruct token; try done; [by left|]. split; [done|by destruct H2]. Qed.

Lemma calm_forget {A} (m : TB A) : calm m -> calm (forgetNewline ;; m).
Proof. intros Hm. unfold forgetNewline. calm_auto. Qed.

Lemma processCall_rounds c b : processCall c b = process (rounds b) c b.
Proof. reflexivity. Qed.

#[local] Opaque processCall.

Lemma reaction_processToken token b a b' : processToken token b = Some (a, b') -> quiet b -> reaction token b b'.
Proof.
  intros E Hb. destruct token as [|name publicId systemId quirks|token|name| |l|]; cbn [processToken] in E; [done|..].
  - eapply reaction_calm; [apply calm_forget, calm_doctype|exact E|done].
  - assert (Ho : opens token (forgetNewline ;; processCall (CallStartTag token))) by (apply opens_bind; [apply calm_modify; by intros ? []|intros _; apply opens_call]). by apply (Ho b a b').
  - eapply reaction_calm; [apply calm_forget, calm_callEnd|exact E|done].
  - eapply reaction_calm; [apply calm_forget, calm_insertComment|exact E|done].
  - eapply reaction_calm; [apply calm_callCharacters|exact E|done].
  - eapply reaction_calm; [apply calm_forget, calm_callEndOfFile|exact E|done].
Qed.

Lemma reaction_foreign token b a b' : processTokenInForeignContent token b = Some (a, b') -> quiet b -> reaction token b b'.
Proof.
  intros E Hb. destruct token as [|name publicId systemId quirks|token|name| |l|]; cbn [processTokenInForeignContent] in E; try done.
  - eapply reaction_calm; [apply calm_ret|exact E|done].
  - assert (Ho : opens token (processStartTagInForeignContent token)).
    { unfold processStartTagInForeignContent. apply opens_if; intros _; [apply opens_bind; [auto with calm|intros _; apply opens_call]|]. apply opens_calm. unfold currentItem. calm_auto. }
    by apply (Ho b a b').
  - unfold processEndTagInForeignContent, currentItem in E. unfold bind at 1, query at 1, ask at 1 in E. destruct (topStackItem _) as [item|]; [|done]. cbv zeta in E. destruct (_ && _).
    + unfold query, stack, tree, bind, ask, get, modify, ret in E. destruct Hb. repeat case_match; simplify_eq; by repeat split.
    + match type of E with ?m b = _ => assert (Hm : calm m) end; [|destruct (Hm b a b' E Hb) as [? []]; by split].
      apply calm_bind; [calm_auto|]. intros [e|]; [auto with calm|]. apply calm_callEnd.
  - eapply reaction_calm; [apply calm_tree|exact E|done].
  - eapply reaction_calm; [|exact E|done]. unfold framesetNotOk. calm_auto.
Qed.

(** The flags of the tokenizer are updated, its state is kept. *)
Lemma updateTokenizer_keeps b a b' : updateTokenizer b = Some (a, b') -> exists v, b' = set_tokenizer v b /\ (forall st f c, tokenizer b = Some (st, f, c) -> exists f' c', v = Some (st, f', c')).
Proof.
  intros E. unfold updateTokenizer, bind, get in E. destruct (tokenizer b) as [[[st f] c]|] eqn:Et.
  - assert (H : exists v, modify (set_tokenizer (Some (st, bool_decide (m_insertionMode b = Text) || v, v))) b = Some (a, b')).
    { destruct (topStackItem _) as [item|]; [|by exists false]. destruct (isInHTMLNamespace item); [by exists false|]. unfold ask in E. destruct (isHTMLIntegrationPoint _ item) as [i|]; [|done]. eexists. exact E. }
    destruct H as (v & [= _ <-]). eexists. split; [done|]. intros ? ? ? [= <- _ _]. by eexists _, _.
  - injection E as _ <-. exists None. split; [by destruct b; cbn in Et; subst|done].
Qed.

(** What [constructTree] does before and after the token. *)
Definition settled (b1 b' : HTMLTreeBuilder) : Prop :=
  m_insertionMode b' = m_insertionMode b1 /\ m_originalInsertionMode b' = m_originalInsertionMode b1 /\ m_templateInsertionModes b' = m_templateInsertionModes b1 /\
  m_scriptToProcess b' = m_scriptToProcess b1 /\ records (m_tree b') = records (m_tree b1) /\
  forall st f c, tokenizer b1 = Some (st, f, c) -> exists f' c', tokenizer b' = Some (st, f', c').

Lemma shouldProcess_keeps token b v b' : shouldProcessTokenInForeignContent token b = Some (v, b') -> b' = b.
Proof. unfold shouldProcessTokenInForeignContent, bind, get, ask, ret. intros E. repeat case_match; simplify_eq; done. Qed.

Lemma constructTree_steps token b a b' : constructTree token b = Some (a, b') ->
  exists (v : bool) b1, shouldProcessTokenInForeignContent token b = Some (v, b) /\ (if v then processTokenInForeignContent token else processToken token) b = Some (tt, b1) /\ settled b1 b'.
Proof.
  intros E. unfold constructTree in E. unfold bind at 1 in E. destruct (shouldProcessTokenInForeignContent token b) as [[v b0]|] eqn:Es; [|done]. pose proof (shouldProcess_keeps _ _ _ _ Es) as ->.
  unfold bind at 1 in E. destruct ((if v then processTokenInForeignContent token else processToken token) b) as [[[] b1]|] eqn:E1; [|done]. unfold bind at 1 in E. destruct (updateTokenizer b1) as [[[] b2]|] eqn:E2; [|done].
  apply updateTokenizer_keeps in E2 as (tok & -> & Ht). injection E as _ <-. exists v, b1. split; [done|]. split; [done|]. unfold settled. split_and!; try reflexivity. intros st f c Et. destruct (Ht st f c Et) as (f' & c' & ->). by exists f', c'.
Qed.

(** The state of the tokenizer. *)
Definition stateIs (st : State) (b : HTMLTreeBuilder) : Prop := exists f c, tokenizer b = Some (st, f, c).

Lemma quiet_settled b b' : settled b b' -> quiet b -> quiet b'.
Proof. intros (E1 & E2 & E3 & _) []. constructor; by rewrite ?E1, ?E2, ?E3. Qed.

Lemma state_settled st b b' : settled b b' -> stateIs st b -> stateIs st b'.
Proof. intros (_ & _ & _ & _ & _ & H) (f & c & E). exact (H st f c E). Qed.

Lemma withState_is st st' b b' : stateIs st b -> tokenizer b' = withState st' (tokenizer b) -> stateIs st' b'.
Proof. intros (f & c & E) E'. exists f, c. by rewrite E', E. Qed.

(** A text has begun. *)
Record begun (token : Token) (b b' : HTMLTreeBuilder) : Prop := mkBegun {
  begun_name : rawName (tokenName token) = true;
  begun_mode : m_insertionMode b' = Text;
  begun_original : m_originalInsertionMode b' <> Text;
  begun_templates : Text ∉ m_templateInsertionModes b';
  begun_script : m_scriptToProcess b' = m_scriptToProcess b;
  begun_state : exists st, startState st /\ stateIs st b';
  begun_top : topIs (tokenName token) b' \/ headOnTop b'
}.

(** A token outside of text. *)
Lemma constructTree_reaction token b a b' st : quiet b -> stateIs st b -> constructTree token b = Some (a, b') ->
  match token with
  | StartTag token => quiet b' /\ (stateIs st b' \/ stateIs PLAINTEXTState b') /\ m_scriptToProcess b' = m_scriptToProcess b \/ begun token b b' \/
      tokenName token = lit "script" /\ usePreHTML5ParserQuirks m_options = true /\ quiet b' /\ stateIs DataState b'
  | EndTag _ => quiet b' /\ stateIs st b'
  | _ => quiet b' /\ stateIs st b' /\ m_scriptToProcess b' = m_scriptToProcess b
  end.
Proof.
  intros Hb Hst E. destruct (constructTree_steps _ _ _ _ E) as (v & b1 & _ & E1 & Hs). assert (Hr : reaction token b b1) by (destruct v; [by apply (reaction_foreign token b tt)|by apply (reaction_processToken token b tt)]).
  assert (Hsame : forall b1, tokenizer b1 = tokenizer b -> stateIs st b1) by (intros b2 E2; destruct Hst as (f & c & Ec); exists f, c; congruence). pose proof Hs as (M1 & M2 & M3 & M4 & M5 & _).
  assert (Hcalm : quiet b1 /\ same b b1 -> quiet b' /\ stateIs st b' /\ m_scriptToProcess b' = m_scriptToProcess b).
  { intros [H1 [H2 H3]]. split_and!; [by apply (quiet_settled b1)|apply (state_settled st b1 b' Hs); by apply Hsame|congruence]. }
  destruct token as [|?|token|name| |?|]; try (by apply Hcalm).
  - destruct Hr as [H|[(_ & H1 & H2 & H3)|[H|(H1 & H2 & H3 & H4)]]].
    + left. destruct (Hcalm H) as (? & ? & ?). split_and!; [done|by left|done].
    + left. split_and!; [by apply (quiet_settled b1)|right; by apply (state_settled _ b1 b' Hs), (withState_is st _ b)|congruence].
    + right. left. destruct H as [H1 H2 H3 H4 H5 (st' & Hst' & H6) H7]. constructor; [done|by rewrite M1|by rewrite M2|by rewrite M3|by rewrite M4| |].
      * exists st'. split; [done|]. by apply (state_settled _ b1 b' Hs), (withState_is st _ b).
      * unfold topIs, headOnTop in *. by rewrite M5.
    + right. right. split_and!; [done|done|by apply (quiet_settled b1)|by apply (state_settled _ b1 b' Hs), (withState_is st _ b)].
  - destruct Hr as [H1 H2]. split; [by apply (quiet_settled b1)|]. apply (state_settled _ b1 b' Hs). by apply Hsame.
Qed.

(** ** Tokens in text *)

(** A text is being read. *)
Record reading (name : AtomicString) (b : HTMLTreeBuilder) : Prop := mkReading {
  reading_mode : m_insertionMode b = Text;
  reading_original : m_originalInsertionMode b <> Text;
  reading_templates : Text ∉ m_templateInsertionModes b;
  reading_top : topIs name b
}.

Lemma reading_html name b token : reading name b -> shouldProcessTokenInForeignContent token b = Some (false, b).
Proof.
  intros [_ _ _ (r & l & Er & Ht)]. unfold shouldProcessTokenInForeignContent, bind, get, topStackItem, topRecord. cbn in Er. rewrite Er. cbn [head fmap option_fmap option_map].
  unfold hasTarget, matchesHTMLTag in Ht. apply andb_true_iff in Ht as [_ Ht]. assert (Hn : isInHTMLNamespace (m_item r) = true) by (unfold isInHTMLNamespace; by rewrite Ht). by rewrite Hn.
Qed.

(** Text is added to the element. *)
Definition kept (b b' : HTMLTreeBuilder) : Prop :=
  m_insertionMode b' = m_insertionMode b /\ m_originalInsertionMode b' = m_originalInsertionMode b /\ m_templateInsertionModes b' = m_templateInsertionModes b /\
  m_scriptToProcess b' = m_scriptToProcess b /\ records (m_tree b') = records (m_tree b) /\ tokenizer b' = tokenizer b.

Definition stays {A} (m : TB A) : Prop := forall b a b', m b = Some (a, b') -> kept b b'.

Lemma stays_bind {A B} (m : TB A) (k : A -> TB B) : stays m -> (forall a, stays (k a)) -> stays (bind m k).
Proof.
  intros Hm Hk b a b' E. unfold bind in E. destruct (m b) as [[x b1]|] eqn:E1; [|done]. destruct (Hm _ _ _ E1) as (A1 & A2 & A3 & A4 & A5 & A6). destruct (Hk x _ _ _ E) as (B1 & B2 & B3 & B4 & B5 & B6).
  unfold kept. split_and!; congruence.
Qed.

Lemma stays_still {A} (m : TB A) : still m -> stays m.
Proof. intros Hm b a b' E. by rewrite (Hm b a b' E). Qed.

Lemma still_ask {A} (f : HTMLTreeBuilder -> option A) : still (ask f).
Proof. intros b a b' E. unfold ask in E. destruct (f b); [|done]. by injection E as _ <-. Qed.

Lemma still_get : still get.
Proof. by intros b a b' [= _ <-]. Qed.

Lemma stays_modify f : (forall b, kept b (f b)) -> stays (modify f).
Proof. intros Hf b a b' [= _ <-]. apply Hf. Qed.

Lemma stays_textLoop fuel parent next l n : stays (textLoop fuel parent next l n).
Proof.
  revert n. induction fuel as [|fuel IH]; intros n; cbn [textLoop]; [done|]. destruct (_ <? _)%nat; [|apply stays_still, still_ret].
  apply stays_bind; [apply stays_still, still_assert|]. intros _. apply stays_bind; [by apply stays_modify|]. intros _. apply IH.
Qed.

Lemma stays_insertTextNode l : stays (insertTextNode l).
Proof.
  unfold insertTextNode. apply stays_bind; [apply stays_still, still_ask|]. intros [parent next]. cbv zeta. apply stays_bind; [|intros _; apply stays_textLoop]. destruct (_ <? _)%nat; [by apply stays_modify|apply stays_still, still_ret].
Qed.

(** The characters of a text. *)
Lemma text_reprocess startTag endTag fuel l b v b' : m_insertionMode b = Text -> reprocessBuffer startTag endTag (S fuel) l b = Some (v, b') -> kept b b'.
Proof.
  intros Hm E. cbn [reprocessBuffer] in E. unfold bind at 1, get at 1 in E. rewrite Hm in E. match type of E with ?m b = _ => assert (Hs : stays m) end; [|by apply (Hs b v b')].
  apply stays_bind; [destruct (m_shouldSkipLeadingNewline b); [|apply stays_still, still_ret]; apply stays_bind; [by apply stays_modify|intros _; apply stays_still, still_assert]|].
  intros _. cbv zeta. destruct (_ && _); [apply stays_still, still_ret|]. apply stays_bind; [apply stays_insertTextNode|]. intros _. apply stays_still, still_ret.
Qed.

Lemma text_characters l b a b' : m_insertionMode b = Text -> processCall (CallCharacters l) b = Some (a, b') -> kept b b'.
Proof.
  intros Hm E. rewrite processCall_rounds in E. destruct (rounds b) as [|n]; [done|]. cbn [process] in E. unfold processCharacterBuffer in E. rewrite Nat.add_comm in E. cbn [Nat.add] in E.
  unfold bind, assert in E. destruct (negb _); [|done]. destruct (reprocessBuffer _ _ _ l b) as [[v b1]|] eqn:E1; [|done]. apply (text_reprocess _ _ _ _ _ _ _ Hm) in E1. destruct (bool_decide _); [|done]. by injection E as _ <-.
Qed.

Lemma text_end name b a b' : m_insertionMode b = Text -> processCall (CallEndTag name) b = Some (a, b') -> endTagText name b = Some (a, b').
Proof.
  intros Hm E. rewrite processCall_rounds in E. destruct (rounds b) as [|n]; [done|]. cbn [process] in E. unfold processEndTag, bind, get in E. by rewrite Hm in E.
Qed.

(** The end of the file in a text: the element is closed and the file ends in the mode before. *)
Lemma text_endOfFile b a b' : m_insertionMode b = Text -> m_originalInsertionMode b <> Text -> Text ∉ m_templateInsertionModes b -> processCall CallEndOfFile b = Some (a, b') -> same b b'.
Proof.
  intros Hm Ho Ht E. rewrite processCall_rounds in E. destruct (rounds b) as [|n]; [done|]. cbn [process] in E. unfold processEndOfFile in E. unfold bind at 1, get in E. rewrite Hm in E.
  unfold bind, stack, tree, ask, assert, modify in E. repeat case_match; simplify_eq. destruct (process_calm n) as (_ & _ & _ & Hc). by destruct (Hc _ _ _ E) as [_ []]; [constructor|].
Qed.

(** A token in a text. *)
Lemma constructTree_reading name token b a b' st : reading name b -> stateIs st b -> constructTree token b = Some (a, b') ->
  match token with
  | EndTag _ => quiet b' /\ (stateIs st b' \/ stateIs DataState b')
  | Character _ => reading name b' /\ stateIs st b' /\ m_scriptToProcess b' = m_scriptToProcess b
  | EndOfFile => stateIs st b' /\ m_scriptToProcess b' = m_scriptToProcess b
  | _ => True
  end.
Proof.
  intros Hb Hst E. destruct (constructTree_steps _ _ _ _ E) as (v & b1 & Hv & E1 & Hs). rewrite (reading_html name b token Hb) in Hv. injection Hv as <-. destruct token as [| | |n| |l|]; try done; cbn [processToken] in E1.
  - unfold bind, forgetNewline, modify in E1. apply text_end in E1; [|apply Hb]. apply endTagText_quiet in E1 as [H1 H2]; [|apply Hb..]. split; [by apply (quiet_settled b1)|].
    destruct (HTMLTreeBuilder.isTag n "script"); [right; by apply (state_settled _ b1 b' Hs), (withState_is st _ (set_skipNewline false b))|].
    left. apply (state_settled _ b1 b' Hs). destruct H2 as [H2 _]. destruct Hst as (f & c & Ec). exists f, c. by rewrite H2.
  - apply text_characters in E1 as (A1 & A2 & A3 & A4 & A5 & A6); [|apply Hb]. destruct Hs as (B1 & B2 & B3 & B4 & B5 & B6). destruct Hb as [C1 C2 C3 C4]. split_and!; [constructor| |congruence].
    + congruence.
    + congruence.
    + by rewrite B3, A3.
    + unfold topIs. by rewrite B5, A5.
    + destruct Hst as (f & c & Ec). apply (B6 st f c). congruence.
  - unfold bind, forgetNewline, modify in E1. apply text_endOfFile in E1 as [H1 H2]; [|apply Hb..]. destruct Hs as (_ & _ & _ & B4 & _ & B6). split; [|by rewrite B4, H2].
    destruct Hst as (f & c & Ec). apply (B6 st f c). by rewrite H1.
Qed.

End Process.
