(* ===== verification/AtomicHTMLToken.v ===== *)
(** * [WebCore/html/parser/AtomicHTMLToken.h]

    The token that the tree builder is given is made from the token that the tokenizer
    has filled in: names and values become [AtomicString]s, attributes without a name are
    dropped and of several attributes with the same name the first is kept.  What
    [initializeAttributes] asserts of the ranges of an attribute is [HTMLToken.rangesSet];
    it is not evaluated here, and [scan_document_total] shows that it holds in every token
    that is scanned.  The tree builder does not read the self-closing flag and the
    attributes of end tags, nor the text of comments, and they are left out. *)
From S2P Require Import Prelude HTMLToken HTMLTokenizer HTMLStackItem HTMLConstructionSite HTMLTreeBuilderState HTMLTreeBuilder.
From Stdlib Require Import String ZArith Lia.
From stdpp Require Import base list numbers option.
#[local] Open Scope Z_scope.
Import HTMLStackItem.

Module AtomicHTMLToken.
Module Raw := HTMLToken.HTMLToken.

Definition nameForAttribute (attribute : Raw.Attribute) : QualifiedName := mkName (Raw.attr_name attribute) None.

(** One round of the loop of [initializeAttributes]. *)
Definition addAttribute (m_attributes : list Attribute) (attribute : Raw.Attribute) : list Attribute :=
  if bool_decide (Raw.attr_name attribute = []) then m_attributes
  else
    let name := nameForAttribute attribute in
    match findAttributeInVector m_attributes name with
    | Some _ => m_attributes
    | None => m_attributes ++ [mkAttribute name (Raw.attr_value attribute)]
    end.

Definition initializeAttributes (attributes : list Raw.Attribute) : list Attribute := fold_left addAttribute attributes [].

(** The constructor, which takes the data of a doctype out of the raw token. *)
Definition atomicToken (raw : Raw.HTMLToken) : option (HTMLTreeBuilderState.AtomicHTMLToken * Raw.HTMLToken) :=
  match Raw.m_type raw with
  | Raw.Uninitialized => None
  | Raw.DOCTYPE =>
      let '(data, raw') := Raw.releaseDoctypeData raw in
      match data with
      | None => None
      | Some d => Some (HTMLTreeBuilderState.DOCTYPE (Raw.m_data raw) (Raw.m_publicIdentifier d) (Raw.m_systemIdentifier d) (Raw.m_forceQuirks d), raw')
      end
  | Raw.EndOfFile => Some (HTMLTreeBuilderState.EndOfFile, raw)
  | Raw.StartTag =>
      Some (HTMLTreeBuilderState.StartTag (HTMLConstructionSite.mkToken (Raw.m_data raw) (initializeAttributes (Raw.m_attributes raw)) (Raw.m_selfClosing raw)), raw)
  | Raw.EndTag => Some (HTMLTreeBuilderState.EndTag (Raw.m_data raw), raw)
  | Raw.Comment => Some (HTMLTreeBuilderState.Comment, raw)
  | Raw.Character => Some (HTMLTreeBuilderState.Character (Raw.m_data raw), raw)
  end.

(** ** The attributes *)

Lemma find_snoc l a n : findAttributeInVector (l ++ [a]) n =
  match findAttributeInVector l n with Some x => Some x | None => if matches (attributeName a) n then Some a else None end.
Proof. induction l as [|x l IH]; cbn; [done|]. by destruct (matches (attributeName x) n). Qed.

Lemma matches_names n m : matches (mkName n None) (mkName m None) = bool_decide (n = m).
Proof. unfold matches. cbn. by rewrite (bool_decide_eq_true_2 (None = None)), andb_true_r. Qed.

(** What one round does to a look-up. *)
Lemma addAttribute_find l a n : n <> [] -> findAttributeInVector (addAttribute l a) (mkName n None) =
  match findAttributeInVector l (mkName n None) with
  | Some x => Some x
  | None => if lists_eqb (Raw.attr_name a) n then Some (mkAttribute (nameForAttribute a) (Raw.attr_value a)) else None
  end.
Proof.
  intros Hn. unfold addAttribute, lists_eqb. destruct (bool_decide_reflect (Raw.attr_name a = [])) as [E|E].
  - rewrite E, bool_decide_eq_false_2 by congruence. by destruct (findAttributeInVector l _).
  - destruct (findAttributeInVector l (nameForAttribute a)) as [x|] eqn:Ef.
    + destruct (findAttributeInVector l (mkName n None)) eqn:En; [done|]. rewrite bool_decide_eq_false_2; [done|]. intros <-. unfold nameForAttribute in Ef. congruence.
    + rewrite find_snoc. unfold nameForAttribute at 1. cbn [attributeName]. by rewrite matches_names.
Qed.

Lemma fold_find l acc n : n <> [] -> findAttributeInVector (fold_left addAttribute l acc) (mkName n None) =
  match findAttributeInVector acc (mkName n None) with
  | Some x => Some x
  | None => (fun a => mkAttribute (nameForAttribute a) (Raw.attr_value a)) <$> List.find (fun a => lists_eqb (Raw.attr_name a) n) l
  end.
Proof.
  intros Hn. revert acc. induction l as [|a l IH]; intros acc; cbn [fold_left List.find]; [by destruct (findAttributeInVector acc _)|].
  rewrite IH, (addAttribute_find acc a n Hn). destruct (findAttributeInVector acc _); [done|]. by destruct (lists_eqb _ _).
Qed.

(** The names are those of the raw attributes, each once. *)
Definition namesOK (l : list Attribute) : Prop := NoDup (map attributeName l) /\ Forall (fun a => localNameOf (attributeName a) <> [] /\ namespaceOf (attributeName a) = None) l.

Lemma find_none l n : findAttributeInVector l n = None -> n ∉ map attributeName l.
Proof.
  induction l as [|a l IH]; cbn; [intros _ H; by apply not_elem_of_nil in H|]. destruct (matches (attributeName a) n) eqn:Em; [done|]. intros Hf [->|Hin]%elem_of_cons; [|by apply IH].
  unfold matches in Em. by rewrite !bool_decide_eq_true_2 in Em.
Qed.

Lemma addAttribute_names l a : namesOK l -> namesOK (addAttribute l a).
Proof.
  intros [H1 H2]. unfold addAttribute. destruct (bool_decide_reflect (Raw.attr_name a = [])) as [E|E]; [done|]. destruct (findAttributeInVector l (nameForAttribute a)) eqn:Ef; [done|]. split.
  - rewrite map_app. apply list.NoDup_app. split_and!; [done| |apply NoDup_singleton]. intros x Hx Hin. apply list_elem_of_singleton in Hin. cbn in Hin. subst x. by apply (find_none _ _ Ef).
  - apply Forall_app. split; [done|]. by repeat constructor.
Qed.

Lemma initializeAttributes_names l : namesOK (initializeAttributes l).
Proof.
  unfold initializeAttributes. assert (H : namesOK []) by (split; [apply NoDup_nil_2|constructor]). revert H. generalize (@nil Attribute). induction l as [|a l IH]; intros acc H; [done|]. cbn. by apply IH, addAttribute_names.
Qed.

(** C18: the tree builder sees every attribute name once, and under it the value of the
    first attribute with that name that the tokenizer has read, which is also the one
    that the token itself reports. *)
Theorem attributes_first raw token raw' n : atomicToken raw = Some (HTMLTreeBuilderState.StartTag token, raw') -> n <> [] ->
  NoDup (map attributeName (HTMLConstructionSite.tokenAttributes token)) /\
  attributeValue <$> findAttributeInVector (HTMLConstructionSite.tokenAttributes token) (mkName n None) = Raw.attr_value <$> Raw.getAttributeItem n raw.
Proof.
  unfold atomicToken. intros E Hn. destruct (Raw.m_type raw); try done; [cbn in E; by destruct (Raw.m_doctypeData raw)|]. injection E as <- _. cbn [HTMLConstructionSite.tokenAttributes]. split; [apply initializeAttributes_names|].
  unfold initializeAttributes. rewrite fold_find by done. unfold Raw.getAttributeItem. cbn. by destruct (List.find _ _).
Qed.

(** Two attributes with the same name, and one without a name. *)
Definition exampleRaw : Raw.HTMLToken :=
  Raw.mkToken Raw.StartTag (Raw.mkRange 0 0) 0 (lit "p") 0 false
    [Raw.mkAttribute (Raw.mkRange 3 5) (Raw.mkRange 6 7) (lit "id") (lit "a"); Raw.emptyAttribute; Raw.mkAttribute (Raw.mkRange 8 10) (Raw.mkRange 11 12) (lit "id") (lit "b")]
    None None [].

Example attributes_first_witness : exists token raw', atomicToken exampleRaw = Some (HTMLTreeBuilderState.StartTag token, raw') /\
  attributeValue <$> findAttributeInVector (HTMLConstructionSite.tokenAttributes token) (mkName (lit "id") None) = Some (lit "a").
Proof.
  eexists _, _. split; [reflexivity|]. destruct (attributes_first exampleRaw _ _ (lit "id") eq_refl) as [_ H]; [done|]. rewrite H. reflexivity.
Defined.

End AtomicHTMLToken.
