(* ===== verification/HTMLParserScheduler.v ===== *)
(** * [WebCore/html/parser/HTMLParserScheduler.cpp] and [.h]

    When the document parser lets the rest of the browser run: the session of one call of
    [pumpTokenizer], and the timer that resumes parsing.  Times are numbers that are only
    compared; they and the state of the layout are read from the page. *)
From S2P Require Import Prelude.
From Stdlib Require Import ZArith.
From stdpp Require Import base list numbers option.
#[local] Open Scope Z_scope.

Definition INT_MAX : Z := 2147483647.
Definition defaultParserChunkSize : Z := 4096.

(** [PumpSession]; the nesting level that it counts is a member of the parser. *)
Record PumpSession : Type := mkSession { processedTokens : Z; startTime : Z; needsYield : bool; didSeeScript : bool }.

Definition newSession : PumpSession := mkSession INT_MAX 0 false false.

(** [m_suspended] exists for the assertions. *)
Record HTMLParserScheduler : Type := mkScheduler {
  m_parserTimeLimit : Z;
  m_parserChunkSize : Z;
  m_continueNextChunkTimer : bool;
  m_isSuspendedWithActiveTimer : bool;
  m_suspended : bool
}.

Definition newScheduler (parserTimeLimit : Z) : HTMLParserScheduler := mkScheduler parserTimeLimit defaultParserChunkSize false false false.

Definition isScheduledForResume (s : HTMLParserScheduler) : bool := m_isSuspendedWithActiveTimer s || m_continueNextChunkTimer s.

(** The clock is read twice when the session has no start time. *)
Definition checkForYieldBeforeToken {World} (clock : World -> Z * World) (s : HTMLParserScheduler) (session : PumpSession) (w : World) : PumpSession * World :=
  if (m_parserChunkSize s <? processedTokens session) || didSeeScript session then
    let '(start, w) := if startTime session =? 0 then clock w else (startTime session, w) in
    let '(now, w) := clock w in
    (mkSession 1 start (needsYield session || (m_parserTimeLimit s <? now - start)) false, w)
  else (mkSession (processedTokens session + 1) (startTime session) (needsYield session) (didSeeScript session), w).

Definition checkForYieldBeforeScript (needsFirstPaint isLayoutTimerActive : bool) (session : PumpSession) : PumpSession :=
  mkSession (processedTokens session) (startTime session) (needsYield session || (needsFirstPaint && isLayoutTimerActive)) true.

Definition set_timer (v : bool) (s : HTMLParserScheduler) : HTMLParserScheduler :=
  mkScheduler (m_parserTimeLimit s) (m_parserChunkSize s) v (m_isSuspendedWithActiveTimer s) (m_suspended s).

Definition scheduleForResume (s : HTMLParserScheduler) : option HTMLParserScheduler :=
  if m_suspended s then None else Some (set_timer true s).

Definition suspend (s : HTMLParserScheduler) : option HTMLParserScheduler :=
  if m_suspended s || m_isSuspendedWithActiveTimer s then None
  else Some (mkScheduler (m_parserTimeLimit s) (m_parserChunkSize s) false (m_continueNextChunkTimer s) true).

Definition resume (s : HTMLParserScheduler) : option HTMLParserScheduler :=
  if negb (m_suspended s) || m_continueNextChunkTimer s then None
  else Some (mkScheduler (m_parserTimeLimit s) (m_parserChunkSize s) (m_isSuspendedWithActiveTimer s) false false).

(** What the timer, which is not active any more when it fires, does: wait again, or
    resume parsing. *)
Definition continueNextChunkTimerFired (isLayoutTimerActive : bool) (s : HTMLParserScheduler) : option (bool * HTMLParserScheduler) :=
  if m_suspended s then None else if isLayoutTimerActive then Some (false, set_timer true s) else Some (true, set_timer false s).

(** Suspending and resuming gives the same scheduler again. *)
Lemma suspend_resume s s' : suspend s = Some s' -> resume s' = Some s.
Proof. unfold suspend, resume. destruct s as [limit size [] [] []]; cbn; intros E; try done; by injection E as <-. Qed.
