(* ===== verification/HTMLInputStream.v ===== *)
(** * [WebCore/html/parser/HTMLInputStream.h]

    The input of the document parser: the string that is being read and, for every script
    that is being executed, an [InsertionPointRecord] with what comes after its insertion
    point.  The records live on the stack of the caller and the stream knows the last
    string by its address; here they are a list, the innermost one first, and an address
    is the number of records below.  [None] is a failed assertion of [SegmentedString]. *)
From S2P Require Import Prelude CharSource SegmentedString InputStreamPreprocessor.
From stdpp Require Import base list numbers option.
From Stdlib Require Import ZArith Lia.
#[local] Open Scope Z_scope.

(** The operations on whole strings that the stream uses. *)
Class StringSource (Src : Type) : Type := {
  emptySource : Src;
  copySource : Src -> Src;
  escapedSource : Src -> bool;
  appendSource : Src -> Src -> Src;
  sourceLine : Src -> Z;
  sourceColumn : Src -> Z;
  setPosition : Z -> Z -> Z -> Src -> Src;
  excludeLineNumbers : Src -> Src;
  fromString : bool -> list Z -> Src;
}.

#[export] Instance segmented_string : StringSource SegmentedString := {
  emptySource := emptySegmented;
  copySource := copyOf;
  escapedSource := escaped;
  appendSource := seg_append;
  sourceLine := m_currentLine;
  sourceColumn := currentColumn;
  setPosition := setCurrentPosition;
  excludeLineNumbers := seg_setExcludeLineNumbers;
  fromString := ofString;
}.

Section Stream.
Context {Src : Type} `{CharSource Src} `{InputSource Src} `{StringSource Src}.

Record InsertionPointRecord : Type := mkRecord { m_next : Src; m_line : Z; m_column : Z }.

Record HTMLInputStream : Type := mkInput { m_first : Src; m_records : list InsertionPointRecord; m_last : option nat }.

Definition newInput : HTMLInputStream := mkInput emptySource [] None.

Definition set_first (s : Src) (i : HTMLInputStream) : HTMLInputStream := mkInput s (m_records i) (m_last i).

(** The record at an address. *)
Definition position (i : HTMLInputStream) (address : nat) : nat := (length (m_records i) - S address)%nat.

Definition lastString (i : HTMLInputStream) : option Src :=
  match m_last i with
  | None => Some (m_first i)
  | Some address => m_next <$> m_records i !! position i address
  end.

Definition updateLast (f : Src -> Src) (i : HTMLInputStream) : HTMLInputStream :=
  match m_last i with
  | None => set_first (f (m_first i)) i
  | Some address =>
      mkInput (m_first i) (alter (fun r => mkRecord (f (m_next r)) (m_line r) (m_column r)) (position i address) (m_records i)) (m_last i)
  end.

(** [SegmentedString::append], which asserts that the string is not closed and that the
    other one has no pushed characters. *)
Definition appendable (other s : Src) : bool := negb (isClosed s) && negb (escapedSource other).

Definition appendToEnd (string : Src) (i : HTMLInputStream) : option HTMLInputStream :=
  match lastString i with
  | None => None
  | Some s => if appendable string s then Some (updateLast (appendSource string) i) else None
  end.

Definition insertAtCurrentInsertionPoint (string : Src) (i : HTMLInputStream) : option HTMLInputStream :=
  if appendable string (m_first i) then Some (set_first (appendSource string (m_first i)) i) else None.

Definition hasInsertionPoint (i : HTMLInputStream) : bool := match m_last i with None => false | Some _ => true end.

Definition markEndOfFile (i : HTMLInputStream) : option HTMLInputStream :=
  updateLast closeSource <$> appendToEnd (fromString false [kEndOfFileMarker]) i.

(** [close] asserts that the string is open; after [append] it is. *)
Definition closeWithoutMarkingEndOfFile (i : HTMLInputStream) : option HTMLInputStream :=
  match lastString i with
  | None => None
  | Some s => if isClosed s then None else Some (updateLast closeSource i)
  end.

Definition haveSeenEndOfFile (i : HTMLInputStream) : bool := match lastString i with Some s => isClosed s | None => false end.

Definition current (i : HTMLInputStream) : Src := m_first i.

(** [splitInto(m_next)] of a record that is being constructed. *)
Definition splitInto (line column : Z) (i : HTMLInputStream) : HTMLInputStream :=
  mkInput emptySource (mkRecord (copySource (m_first i)) line column :: m_records i)
    (match m_last i with None => Some (length (m_records i)) | Some address => Some address end).

(** [mergeFrom(m_next)] of the innermost record, which is then destroyed. *)
Definition mergeFrom (i : HTMLInputStream) : option HTMLInputStream :=
  match m_records i with
  | [] => None
  | r :: records =>
      if appendable (m_next r) (m_first i) then
        let first := appendSource (m_next r) (m_first i) in
        let last := if bool_decide (m_last i = Some (length records)) then None else m_last i in
        Some (mkInput (if isClosed (m_next r) then closeSource first else first) records last)
      else None
  end.

(** The constructor and the destructor of [InsertionPointRecord]. *)
Definition openInsertionPoint (i : HTMLInputStream) : HTMLInputStream :=
  let line := sourceLine (current i) in
  let column := sourceColumn (current i) in
  let i := splitInto line column i in
  set_first (setPosition line column 0 (m_first i)) i.

Definition closeInsertionPoint (i : HTMLInputStream) : option HTMLInputStream :=
  match m_records i with
  | [] => None
  | r :: _ =>
      let unparsedRemainderLength := Z.of_nat (sourceLength (current i)) in
      match mergeFrom i with
      | None => None
      | Some i => Some (set_first (setPosition (m_line r) (m_column r) unparsedRemainderLength (m_first i)) i)
      end
  end.

End Stream.

Arguments InsertionPointRecord : clear implicits.
Arguments HTMLInputStream : clear implicits.
