(* ===== verification/HTMLInputStreamProps.v ===== *)
(** * What the input stream holds

    Against the abstract source: the strings of the stream stand for a stack of texts, of
    which only the last one may be closed.  A script inserts before everything that was
    to be read when it began, the network appends after everything.  The second half says
    what holds in whatever state a script leaves the stream: characters may also have been
    pushed back into a string that is put aside.  Such a string is never read again,
    because joining it fails. *)
From S2P Require Import Prelude CharSource SegmentedString SegmentedStringRefinement SegmentedStringProps HTMLToken InputStreamPreprocessor HTMLEntitySearch HTMLEntityFacts HTMLTokenizer HTMLTokenizerRefinement HTMLInputStream.
From stdpp Require Import base list numbers option.
From Stdlib Require Import ZArith Lia.
#[local] Open Scope Z_scope.
Import Stream StreamFacts.

(** ** What a string promises *)

(** Counted anew: appending may change the number of characters consumed. *)
Definition joined (a other : Stream) (n : Z) : Stream := mkStream (st_pushed a) (st_rest a ++ st_rest other) n (st_closed a).

Class StringRefines `{FoldCase} (Src : Type) `{SourceRefines Src} `{StringSource Src} : Prop := {
  refines_empty : refines emptySource (of_chars []);
  refines_string b l : refines (fromString b l) (of_chars l);
  refines_escaped s a : refines s a -> escapedSource s = negb (bool_decide (st_pushed a = []));
  refines_copy s a : refines s a -> st_pushed a = [] -> refines (copySource s) a;
  refines_join s a other b : refines s a -> refines other b -> st_pushed b = [] -> exists n, refines (appendSource other s) (joined a b n);
  refines_position s a line column n : refines s a -> refines (setPosition line column n s) a;
  refines_exclude s a : refines s a -> refines (excludeLineNumbers s) a;
}.

(** ** [SegmentedString] keeps the promise *)

Lemma appendSub_any sub s : PreWF s -> sub_ok sub -> PreWF (appendSub sub s) /\ exists n, abs (appendSub sub s) = mkStream (pushedList s) (restList s ++ appendTo sub) n (m_closed s).
Proof.
  intros Hs Hsub. destruct (decide (m_length (m_currentString s) = 0%nat)) as [E0|E0].
  - unfold appendSub. pose proof Hs as ([Hc Hss Hcomp Hp] & HCa & HE). destruct (Nat.eqb_spec (m_length sub) 0) as [E|E].
    { rewrite (appendTo_nil _ Hsub E). split; [done|]. exists (seg_consumed s). by rewrite app_nil_r. }
    rewrite (proj2 (Nat.eqb_eq _ _) E0). split; [apply (install_sub sub s); simpl; try done; lia|]. eexists.
    match goal with |- abs (set_empty false (updateAdvanceFunctionPointers ?x)) = _ => transitivity (abs (updateAdvanceFunctionPointers x)); [by apply abs_cong|] end.
    rewrite abs_updateAdvance. unfold abs, pushedList, restList. simpl. rewrite (appendTo_nil _ Hc E0), (Hcomp E0). simpl. by rewrite app_nil_r.
  - destruct (appendSub_ok sub s Hs Hsub (or_intror E0)) as [H1 H2]. split; [done|]. exists (seg_consumed s). by rewrite H2.
Qed.

Lemma appendSubs_any l s : PreWF s -> Forall (fun x => sub_ok x /\ (0 < m_length x)%nat) l ->
  PreWF (fold_left (fun s sub => appendSub sub s) l s) /\ exists n, abs (fold_left (fun s sub => appendSub sub s) l s) = mkStream (pushedList s) (restList s ++ concat (map appendTo l)) n (m_closed s).
Proof.
  revert s. induction l as [|x l IH]; intros s Hs Hl; [split; [done|]; exists (seg_consumed s); by rewrite app_nil_r|].
  apply Forall_cons_1 in Hl as [[Hx _] Hl]. destruct (appendSub_any x s Hs Hx) as [H1 (n & E)]. destruct (IH _ H1 Hl) as [H2 (m & E2)]. cbn [fold_left map concat]. split; [done|]. exists m. rewrite E2.
  injection E as -> -> _ ->. by rewrite app_assoc.
Qed.

Lemma seg_append_any other s : PreWF s -> Core other ->
  WellFormed (seg_append other s) /\ exists n, abs (seg_append other s) = joined (abs s) (abs other) n.
Proof.
  intros Hs Ho. unfold seg_append. destruct (appendSub_any (m_currentString other) s Hs (core_cur _ Ho)) as [H1 (n & E1)].
  destruct (appendSubs_any (m_substrings other) _ H1 (core_subs _ Ho)) as [H2 (m & E2)]. destruct (PreWF_reload _ H2) as [H3 H4]. split; [done|]. exists m. rewrite H4, E2. injection E1 as -> -> _ ->.
  unfold joined. f_equal. cbn [st_rest abs]. by rewrite <- app_assoc.
Qed.

Lemma pushedList_nil s : Core s -> pushedList s = [] <-> m_pushedChar1 s = 0.
Proof. intros _. unfold pushedList. by destruct (Z.eqb_spec (m_pushedChar1 s) 0). Qed.

Lemma exclude_ok s : WellFormed s -> WellFormed (seg_setExcludeLineNumbers s) /\ abs (seg_setExcludeLineNumbers s) = abs s.
Proof.
  intros [[C1 C2 C3 C4] [D1 D2 D3] HE Hc]. split.
  - split; [split|split|..]; try done; cbn.
    + apply Forall_map. exact C2.
    + intros E. by rewrite (C3 E).
  - unfold abs. f_equal. unfold restList. cbn. f_equal. rewrite map_map. done.
Qed.

#[export] Instance segmented_string_refines `{FoldCase} : StringRefines SegmentedString.
Proof.
  split.
  - split; [apply wf_emptySegmented|done].
  - intros b l. apply ofString_ok.
  - intros s a [Hw <-]. cbn. unfold escaped. f_equal. apply Bool.eq_true_iff_eq. rewrite Z.eqb_eq, bool_decide_eq_true. symmetry. by apply pushedList_nil, wf_core.
  - intros s a [Hw <-] Hp. apply (pushedList_nil _ (wf_core _ Hw)) in Hp. cbn. destruct (copy_faithful s Hw) as [H1 H2]; [by apply (core_pushed _ (wf_core _ Hw))|]. split; [done|by rewrite H2].
  - intros s a other b [Hw <-] [Ho <-] Hp. destruct (seg_append_any other s (PreWF_of _ Hw) (wf_core _ Ho)) as [H1 (n & E)]. exists n. by split.
  - intros s a line column n [Hw <-]. split; [|done]. destruct Hw as [HC [C1 C2 C3] HE Hch]. split; [|split|..]; try done. eapply Core_cong; [..|exact HC]; done.
  - intros s a [Hw <-]. by apply exclude_ok.
Qed.

(** ** The texts of a stream *)

Lemma usable_joined a b n : usable a -> usable b -> usable (joined a b n).
Proof. intros [H1 H2] [H3 H4]. split; [done|]. unfold chars in *. cbn. apply Forall_app in H2 as [H2 H2']. apply Forall_app in H4 as [_ H4]. rewrite !Forall_app. done. Qed.

Lemma removelast_snoc {A} (l : list A) x : removelast (l ++ [x]) = l.
Proof. induction l as [|y l IH]; [done|]. cbn. rewrite IH. by destruct l. Qed.

Lemma last_cons_snoc {A} (l : list A) (x y : A) : List.last (l ++ [x]) y = x.
Proof. by rewrite List.last_last. Qed.

Lemma last_default {A} (l : list A) y d d' : List.last (y :: l) d = List.last (y :: l) d'.
Proof. revert y. induction l as [|z l IH]; intros y; [done|]. exact (IH z). Qed.

Section Texts.
Context `{FoldCase}.

(** A string that is put aside stands for [a]; its current character need not be right,
    because the copy of a string with two pushed characters has the wrong one. *)
Definition held (s : SegmentedString) (a : Stream) : Prop := PreWF s /\ abs s = a /\ usable a.

Lemma related_held (s : SegmentedString) a : related s a -> held s a.
Proof. intros [[H1 H2] H3]. split_and!; [by apply PreWF_of|done|done]. Qed.

Lemma related_string b w : Forall (fun c => 0 <= c) w -> related (fromString b w) (of_chars w).
Proof. intros Hw. split; [apply refines_string|]. split; [cbn; lia|done]. Qed.

Lemma held_copy (s : SegmentedString) a : related s a -> held (copySource s) a.
Proof.
  intros [[[HC [C1 C2 C3] HE Hch] <-] Hu]. split_and!; [|done|done]. split_and!; [|split|]; try done. eapply Core_cong; [..|exact HC]; done.
Qed.

Lemma held_joined s a other b : held s a -> held other b -> exists n, related (appendSource other s) (joined a b n).
Proof. intros (H1 & <- & H3) (H4 & <- & H6). destruct (seg_append_any other s H1 (proj1 H4)) as [H7 (n & E)]. exists n. split; [by split|by apply usable_joined]. Qed.

Lemma held_close s a : held s a -> held (closeSource s) (close a).
Proof. intros ((HC & [C1 C2 C3] & HE) & <- & Hu). split_and!; [|done|done]. split_and!; [|split|]; try done. eapply Core_cong; [..|exact HC]; done. Qed.

Lemma held_escaped s a : held s a -> escapedSource s = negb (bool_decide (st_pushed a = [])).
Proof. intros ((HC & _) & <- & _). cbn. unfold escaped, pushedList. destruct (m_pushedChar1 s =? 0); [by rewrite bool_decide_eq_true_2|by rewrite bool_decide_eq_false_2]. Qed.

Lemma held_appendable s a other b : held s a -> held other b -> appendable other s = negb (st_closed a) && bool_decide (st_pushed b = []).
Proof. intros Hs Ho. unfold appendable. rewrite (held_escaped other b Ho), negb_involutive. by destruct Hs as (_ & <- & _). Qed.

(** The current string stands for [a], and those after the insertion points for [l]. *)
Record streams (i : HTMLInputStream SegmentedString) (a : Stream) (l : list Stream) : Prop := mkStreams {
  streams_first : related (m_first i) a;
  streams_records : Forall2 (fun r b => held (m_next r) b) (m_records i) l;
  streams_last : m_last i = match l with [] => None | _ => Some 0%nat end;
  streams_open : Forall (fun b => st_closed b = false) (removelast (a :: l))
}.

(** The end of the file is known. *)
Definition ended (a : Stream) (l : list Stream) : bool := st_closed (List.last l a).

(** *** The operations *)

Lemma streams_new : streams newInput (of_chars []) [].
Proof. constructor; try done. split; [apply refines_empty|]. split; [cbn; lia|constructor]. Qed.

Lemma streams_hasInsertionPoint i a l : streams i a l -> hasInsertionPoint i = negb (bool_decide (l = [])).
Proof. intros [_ _ E _]. unfold hasInsertionPoint. rewrite E. by destruct l. Qed.

Lemma streams_closed i a l : streams i a l -> st_closed a = bool_decide (l = []) && ended a l.
Proof. intros [_ _ _ Ho]. destruct l as [|y l]; [done|]. by apply Forall_cons_1 in Ho as [-> _]. Qed.

(** The string that is read changes, but is not closed. *)
Lemma streams_set i a l s a' : streams i a l -> related s a' -> st_closed a' = st_closed a -> streams (set_first s i) a' l /\ ended a' l = ended a l.
Proof.
  intros [H1 H2 H3 H4] Hs Hc. split; [|unfold ended; destruct l as [|y l]; [done|f_equal; apply last_default]]. constructor; try done. destruct l; [done|]. apply Forall_cons_1 in H4 as [? ?]. constructor; [by rewrite Hc|done].
Qed.

(** Something is written. *)
Lemma streams_insert i a l b w : streams i a l -> Forall (fun c => 0 <= c) w ->
  if st_closed a then insertAtCurrentInsertionPoint (excludeLineNumbers (fromString b w)) i = None
  else exists i' a', insertAtCurrentInsertionPoint (excludeLineNumbers (fromString b w)) i = Some i' /\ streams i' a' l /\ ended a' l = ended a l /\ st_pushed a' = st_pushed a /\ st_rest a' = st_rest a ++ w.
Proof.
  intros Hi Hw. pose proof (related_held _ _ (streams_first _ _ _ Hi)) as Hf. assert (Hs : related (excludeLineNumbers (fromString b w)) (of_chars w)) by (destruct (related_string b w Hw) as [R1 R2]; split; [by apply refines_exclude|done]). apply related_held in Hs.
  unfold insertAtCurrentInsertionPoint. rewrite (held_appendable _ _ _ _ Hf Hs). cbn [st_pushed of_chars]. rewrite bool_decide_eq_true_2, andb_true_r by done. destruct (st_closed a) eqn:Ec; [done|]. destruct (held_joined _ _ _ _ Hf Hs) as (n & Hn).
  eexists _, _. split; [done|]. destruct (streams_set i a l _ _ Hi Hn eq_refl) as [H1 H2]. by split_and!.
Qed.

(** An insertion point is made, and removed. *)
Lemma streams_openInsertionPoint i a l : streams i a l -> streams (openInsertionPoint i) (of_chars []) (a :: l) /\ ended (of_chars []) (a :: l) = ended a l.
Proof.
  intros [H1 H2 H3 H4]. split; [|unfold ended; destruct l as [|y l]; [done|]; exact (f_equal st_closed (last_default l y _ a))]. constructor; cbn.
  - split; [exact (refines_position (Src := SegmentedString) _ _ _ _ _ (refines_empty (Src := SegmentedString)))|]. split; [cbn; lia|constructor].
  - constructor; [by apply held_copy|done].
  - rewrite H3. destruct l; [|done]. by inversion H2.
  - by constructor.
Qed.

Lemma streams_closeInsertionPoint i a b l : streams i a (b :: l) ->
  if bool_decide (st_pushed b = []) then exists i' a', closeInsertionPoint i = Some i' /\ streams i' a' l /\ ended a' l = ended a (b :: l) /\ st_pushed a' = st_pushed a /\ st_rest a' = st_rest a ++ st_rest b
  else closeInsertionPoint i = None.
Proof.
  intros [H1 H2 H3 H4]. apply Forall_cons_1 in H4 as [Hc H4]. destruct i as [first [|r records] last]; [by inversion H2|]. cbn in *. apply Forall2_cons_1 in H2 as [Hr H2]. pose proof (related_held _ _ H1) as Hf.
  unfold closeInsertionPoint, mergeFrom. cbn -[bool_decide]. rewrite (held_appendable first a (m_next r) b Hf Hr), Hc. case_bool_decide as Hp; [|done]. cbn [negb andb].
  destruct (held_joined _ _ _ _ Hf Hr) as (n & Hn). assert (Hclosed : m_closed (m_next r) = st_closed b) by (by destruct Hr as (_ & <- & _)). rewrite Hclosed.
  eexists _, (mkStream (st_pushed a) (st_rest a ++ st_rest b) n (st_closed b)). split; [reflexivity|]. cbn.
  assert (Hlast : (if bool_decide (last = Some (length records)) then None else last) = match l with [] => None | _ => Some 0%nat end).
  { subst last. apply Forall2_length in H2. by destruct l as [|x l], records as [|y records]. }
  split_and!; [|unfold ended; destruct l as [|z l]; [done|]; exact (f_equal st_closed (last_default l z _ _))|done|done]. constructor; cbn; try done.
  - destruct Hn as [R1 R2]. split; [|done]. refine (refines_position (Src := SegmentedString) _ _ _ _ _ _). destruct (st_closed b) eqn:Eb; [exact (refines_close _ _ R1)|]. unfold joined in R1. by rewrite Hc in R1.
  - destruct l as [|x l]; [done|]. by apply Forall_cons_1 in H4 as [? ?]; constructor.
Qed.

(** *** The last string *)

(** The last text changes. *)
Definition atLast (P : Stream -> Stream -> Prop) (a : Stream) (l : list Stream) (a' : Stream) (l' : list Stream) : Prop :=
  l = [] /\ l' = [] /\ P a a' \/ exists front x x', l = front ++ [x] /\ a' = a /\ l' = front ++ [x'] /\ P x x'.

Lemma streams_updateLast (P : Stream -> Stream -> Prop) f i a l :
  streams i a l -> (forall s x, related s x -> exists x', related (f s) x' /\ P x x') -> (forall s x, held s x -> exists x', held (f s) x' /\ P x x') ->
  exists a' l', streams (updateLast f i) a' l' /\ atLast P a l a' l'.
Proof.
  intros [H1 H2 H3 H4] Hf Hg. unfold updateLast. destruct l as [|y l].
  - rewrite H3. destruct (Hf _ _ H1) as (a' & Ha & HP). exists a', []. split; [constructor; cbn; try done; constructor|by left].
  - destruct (exists_last (l := y :: l)) as (front & x & E); [done|]. rewrite E in *. clear y l E. assert (Hl : m_last i = Some 0%nat) by (rewrite H3; by destruct front). rewrite Hl.
    apply Forall2_app_inv_r in H2 as (rs & rx & Hrs & Hrx & Er). apply Forall2_cons_inv_r in Hrx as (r & rn & Hr & Hrn & ->). apply Forall2_nil_inv_r in Hrn as ->.
    destruct (Hg _ _ Hr) as (x' & Hx & HP). exists a, (front ++ [x']). split; [|right; by exists front, x, x'].
    unfold position. rewrite Er, length_app. cbn. replace (length rs + 1 - 1)%nat with (length rs) by lia. constructor; cbn; try done.
    + rewrite alter_app_r_alt by lia. rewrite Nat.sub_diag. cbn. apply Forall2_app; [done|]. by constructor; [|apply Forall2_nil_2].
    + by destruct front.
    + rewrite app_comm_cons, removelast_snoc in *. by destruct front.
Qed.

Lemma streams_lastString i a l : streams i a l -> exists s, lastString i = Some s /\ held s (List.last l a).
Proof.
  intros [H1 H2 H3 _]. unfold lastString. destruct l as [|y l]; [rewrite H3; exists (m_first i); split; [done|by apply related_held]|]. destruct (exists_last (l := y :: l)) as (front & x & E); [done|]. rewrite E in *. clear y l E.
  assert (Hl : m_last i = Some 0%nat) by (rewrite H3; by destruct front). rewrite Hl.
  apply Forall2_app_inv_r in H2 as (rs & rx & Hrs & Hrx & Er). apply Forall2_cons_inv_r in Hrx as (r & rn & Hr & Hrn & ->). apply Forall2_nil_inv_r in Hrn as ->. exists (m_next r). unfold position. rewrite Er, length_app, last_cons_snoc. cbn.
  replace (length rs + 1 - 1)%nat with (length rs) by lia. by rewrite lookup_app_r, Nat.sub_diag by lia.
Qed.

Lemma streams_ended i a l : streams i a l -> haveSeenEndOfFile i = ended a l.
Proof. intros Hi. destruct (streams_lastString i a l Hi) as (s & E & (_ & Hs & _)). unfold haveSeenEndOfFile, ended. rewrite E, <- Hs. done. Qed.

(** The last text grows by [w], and is closed or not. *)
Definition grows (w : list Z) (e : bool) (x x' : Stream) : Prop := st_pushed x' = st_pushed x /\ st_rest x' = st_rest x ++ w /\ st_closed x' = e || st_closed x.

(** Data comes from the network. *)
Lemma streams_appendToEnd i a l b w : streams i a l -> Forall (fun c => 0 <= c) w ->
  if ended a l then appendToEnd (fromString b w) i = None
  else exists i' a' l', appendToEnd (fromString b w) i = Some i' /\ streams i' a' l' /\ atLast (grows w false) a l a' l'.
Proof.
  intros Hi Hw. destruct (streams_lastString i a l Hi) as (s & E & Hs). pose proof (related_held _ _ (related_string b w Hw)) as Hn. unfold appendToEnd. rewrite E, (held_appendable s _ _ (of_chars w) Hs Hn). cbn [st_pushed of_chars]. rewrite bool_decide_eq_true_2, andb_true_r by done.
  fold (ended a l). destruct (ended a l); [done|]. destruct (streams_updateLast (grows w false) (appendSource (fromString b w)) i a l Hi) as (a' & l' & Hi' & Ha).
  - intros s' x Hx. destruct (held_joined s' x _ _ (related_held _ _ Hx) Hn) as (n & Hj). eexists. by split; [exact Hj|].
  - intros s' x Hx. destruct (held_joined s' x _ _ Hx Hn) as (n & Hj). eexists. by split; [apply related_held, Hj|].
  - by exists (updateLast (appendSource (fromString b w)) i), a', l'.
Qed.

(** The end of the file. *)
Lemma streams_close i a l : streams i a l -> exists a' l', streams (updateLast closeSource i) a' l' /\ atLast (grows [] true) a l a' l'.
Proof.
  intros Hi. apply streams_updateLast; [done|..].
  - intros s x [Hs Hu]. exists (close x). split; [by split; [exact (refines_close _ _ Hs)|]|]. split_and!; [done|cbn; by rewrite app_nil_r|done].
  - intros s x Hs. exists (close x). split; [by apply held_close|]. split_and!; [done|cbn; by rewrite app_nil_r|done].
Qed.

Lemma streams_closeWithout i a l : streams i a l ->
  if ended a l then closeWithoutMarkingEndOfFile i = None
  else exists i' a' l', closeWithoutMarkingEndOfFile i = Some i' /\ streams i' a' l' /\ atLast (grows [] true) a l a' l'.
Proof.
  intros Hi. destruct (streams_lastString i a l Hi) as (s & E & (_ & Hs & _)). unfold closeWithoutMarkingEndOfFile. rewrite E. change (isClosed s) with (st_closed (abs s)). rewrite Hs. fold (ended a l). destruct (ended a l); [done|].
  destruct (streams_close i a l Hi) as (a' & l' & H1 & H2). by exists (updateLast closeSource i), a', l'.
Qed.

Lemma atLast_comp (P Q R : Stream -> Stream -> Prop) a l a1 l1 a2 l2 : (forall x y z, P x y -> Q y z -> R x z) -> atLast P a l a1 l1 -> atLast Q a1 l1 a2 l2 -> atLast R a l a2 l2.
Proof.
  intros H1 [(-> & -> & H2)|(front & x & y & -> & -> & -> & H2)] [(E & -> & H3)|(front' & y' & z & E & -> & -> & H3)].
  - left. split_and!; [done|done|by eapply H1].
  - by destruct front'.
  - by destruct front.
  - apply app_inj_tail in E as [-> ->]. right. exists front', x, z. split_and!; try done. by eapply H1.
Qed.

Lemma streams_markEndOfFile i a l : streams i a l ->
  if ended a l then markEndOfFile i = None
  else exists i' a' l', markEndOfFile i = Some i' /\ streams i' a' l' /\ atLast (grows [kEndOfFileMarker] true) a l a' l'.
Proof.
  intros Hi. pose proof (streams_appendToEnd i a l false [kEndOfFileMarker] Hi ltac:(by repeat constructor)) as Ha. unfold markEndOfFile. destruct (ended a l); [by rewrite Ha|]. destruct Ha as (i1 & a1 & l1 & -> & Hi1 & H1). destruct (streams_close i1 a1 l1 Hi1) as (a2 & l2 & Hi2 & H2).
  exists (updateLast closeSource i1), a2, l2. split_and!; [done|done|]. apply (atLast_comp (grows [kEndOfFileMarker] false) (grows [] true) _ a l a1 l1); [|done|done]. intros x y z (P1 & P2 & P3) (Q1 & Q2 & Q3). split_and!; [congruence|by rewrite Q2, P2, app_nil_r|by rewrite Q3].
Qed.

End Texts.

(** ** The stream as a stack of texts *)

(** What the parser, the tokenizer and the scripts do with the stream: a character is read,
    or pushed back into the string that is read. *)
Inductive InputOp : Type :=
| OpInsert (is8Bit : bool) (text : list Z)
| OpAppend (is8Bit : bool) (text : list Z)
| OpMarkEndOfFile
| OpCloseWithoutMarkingEndOfFile
| OpOpenInsertionPoint
| OpCloseInsertionPoint
| OpRead
| OpPush (c : Z).

(** NUL cannot be pushed: it is how the string knows that nothing is. *)
Definition opCodes (op : InputOp) : Prop :=
  match op with
  | OpInsert _ w | OpAppend _ w => Forall (fun c => 0 <= c) w
  | OpPush c => 0 < c
  | _ => True
  end.

(** A text and what was pushed back in front of it. *)
Record Text : Type := mkText { pushedBack : list Z; ahead : list Z }.

Definition textChars (x : Text) : list Z := pushedBack x ++ ahead x.

(** The text that is read, those after the insertion points, and whether the end of the
    file is known. *)
Definition Texts : Type := Text * list Text * bool.

Definition growText (w : list Z) (x : Text) : Text := mkText (pushedBack x) (ahead x ++ w).

Definition appendText (w : list Z) (x : Text) (l : list Text) : Text * list Text :=
  match l with [] => (growText w x, []) | _ => (x, removelast l ++ [growText w (List.last l x)]) end.

Definition readText (x : Text) : Text :=
  match pushedBack x with [] => mkText [] (tail (ahead x)) | _ :: p => mkText p (ahead x) end.

(** [None] when the code asserts that the call is not made: nothing is added or closed
    after the end of the file, at most two characters are pushed back, and no text with
    pushed characters is joined to another. *)
Definition textStep (op : InputOp) (s : Texts) : option Texts :=
  let '(x, l, e) := s in
  match op with
  | OpInsert _ w => if bool_decide (l = []) && e then None else Some (growText w x, l, e)
  | OpAppend _ w => if e then None else Some (appendText w x l, false)
  | OpMarkEndOfFile => if e then None else Some (appendText [kEndOfFileMarker] x l, true)
  | OpCloseWithoutMarkingEndOfFile => if e then None else Some (x, l, true)
  | OpOpenInsertionPoint => Some (mkText [] [], x :: l, e)
  | OpCloseInsertionPoint =>
      match l with
      | mkText [] y :: l => Some (growText y x, l, e)
      | _ => None
      end
  | OpRead => Some (readText x, l, e)
  | OpPush c =>
      match pushedBack x with
      | [] => Some (mkText [c] (ahead x), l, e)
      | [b] => Some (mkText [b; c] (ahead x), l, e)
      | _ => None
      end
  end.

Definition inputStep `{FoldCase} (op : InputOp) (i : HTMLInputStream SegmentedString) : option (HTMLInputStream SegmentedString) :=
  match op with
  | OpInsert b w => insertAtCurrentInsertionPoint (excludeLineNumbers (fromString b w)) i
  | OpAppend b w => appendToEnd (fromString b w) i
  | OpMarkEndOfFile => markEndOfFile i
  | OpCloseWithoutMarkingEndOfFile => closeWithoutMarkingEndOfFile i
  | OpOpenInsertionPoint => Some (openInsertionPoint i)
  | OpCloseInsertionPoint => closeInsertionPoint i
  | OpRead => Some (set_first (CharSource.advance (current i)) i)
  | OpPush c => if pushAsserts (current i) then Some (set_first (CharSource.push c (current i)) i) else None
  end.

Fixpoint runSteps {A S} (step : A -> S -> option S) (ops : list A) (s : S) : option S :=
  match ops with [] => Some s | op :: ops => match step op s with Some s => runSteps step ops s | None => None end end.

Section Refinement.
Context `{FoldCase}.

Definition textOf (a : Stream) : Text := mkText (st_pushed a) (st_rest a).

Definition holds (i : HTMLInputStream SegmentedString) (s : Texts) : Prop :=
  exists a l, streams i a l /\ s = (textOf a, map textOf l, ended a l).

(** A step of the stream is the step of the texts, and fails when that does. *)
Definition agrees (r : option (HTMLInputStream SegmentedString)) (t : option Texts) : Prop :=
  match r, t with
  | Some i, Some s => holds i s
  | None, None => True
  | _, _ => False
  end.

Lemma removelast_map {A B} (f : A -> B) l : removelast (map f l) = map f (removelast l).
Proof. induction l as [|x [|y l] IH]; [done|done|]. cbn in *. by rewrite IH. Qed.

Lemma textOf_eq a p r : st_pushed a = p -> st_rest a = r -> textOf a = mkText p r.
Proof. by intros <- <-. Qed.

(** The last text grows. *)
Lemma atLast_texts w e a l a' l' : atLast (grows w e) a l a' l' -> ended a l = false -> (textOf a', map textOf l', ended a' l') = (appendText w (textOf a) (map textOf l), e).
Proof.
  unfold ended. intros [(-> & -> & H1 & H2 & H3)|(front & x & x' & -> & -> & -> & H1 & H2 & H3)] He.
  - cbn in *. unfold growText. cbn. by rewrite (textOf_eq a' _ _ H1 H2), H3, He, orb_false_r.
  - rewrite last_cons_snoc in *. rewrite H3, He, orb_false_r, !map_app. cbn [map]. unfold appendText. rewrite removelast_snoc, last_cons_snoc, (textOf_eq x' _ _ H1 H2). by destruct (map textOf front).
Qed.

Lemma agrees_grown (r : option (HTMLInputStream SegmentedString)) w e a l :
  (if ended a l then r = None else exists i' a' l', r = Some i' /\ streams i' a' l' /\ atLast (grows w e) a l a' l') ->
  agrees r (if ended a l then None else Some (appendText w (textOf a) (map textOf l), e)).
Proof. destruct (ended a l) eqn:Ee; [by intros ->|]. intros (i' & a' & l' & -> & H1 & H2). exists a', l'. split; [done|]. by rewrite (atLast_texts w e a l a' l'). Qed.

Lemma appendText_nil x l : appendText [] x l = (x, l).
Proof.
  unfold appendText, growText. destruct l as [|y l]; [by destruct x; cbn; rewrite app_nil_r|]. destruct (exists_last (l := y :: l)) as (front & z & E); [done|]. rewrite E, last_cons_snoc, removelast_snoc, app_nil_r. by destruct z, front.
Qed.

Lemma agrees_push i a l c : streams i a l -> 0 < c -> agrees (inputStep (OpPush c) i) (textStep (OpPush c) (textOf a, map textOf l, ended a l)).
Proof.
  intros Hi Hc. pose proof (streams_first _ _ _ Hi) as [[Hw Ha] Hu]. cbn [inputStep textStep pushedBack textOf]. unfold pushAsserts. assert (Hp : pushedList (m_first i) = st_pushed a) by (by rewrite <- Ha). revert Hp. unfold pushedList, current.
  destruct (m_pushedChar1 (m_first i) =? 0) eqn:E1; [|destruct (m_pushedChar2 (m_first i) =? 0) eqn:E2]; intros Hp; rewrite <- Hp; cbn [orb]; [..|done].
  all: pose proof (related_push c (m_first i) a (streams_first _ _ _ Hi) ltac:(rewrite <- Hp; cbn; lia) Hc) as Hr.
  all: destruct (streams_set i a l _ _ Hi Hr eq_refl) as [H1 H2]; cbn [CharSource.push stream_source] in H2; exists (push c a), l; split; [exact H1|]; rewrite H2; unfold textOf at 1, push; cbn; by rewrite <- Hp.
Qed.

Lemma agrees_read i a l : streams i a l -> agrees (inputStep OpRead i) (textStep OpRead (textOf a, map textOf l, ended a l)).
Proof.
  intros Hi. pose proof (related_advance _ _ (streams_first _ _ _ Hi)) as Hr. destruct (streams_set i a l _ _ Hi Hr) as [H1 H2]; [by destruct a as [[|? ?] [|? ?] ? ?]|]. exists (advance a), l. split; [exact H1|]. cbn in H2. rewrite H2. by destruct a as [[|? ?] [|? ?] ? ?].
Qed.

Lemma holds_step op i s : holds i s -> opCodes op -> agrees (inputStep op i) (textStep op s).
Proof.
  intros (a & l & Hi & ->) Hc. destruct op as [b w|b w| | | | | |c]; cbn [opCodes] in Hc; [cbn [inputStep textStep]..|by apply agrees_read|by apply agrees_push].
  - pose proof (streams_insert i a l b w Hi Hc) as Hs. rewrite (streams_closed i a l Hi) in Hs. replace (bool_decide (map textOf l = [])) with (bool_decide (l = [])) by (by destruct l). destruct (_ && _); [by rewrite Hs|].
    destruct Hs as (i' & a' & -> & H1 & H2 & H3 & H4). exists a', l. split; [done|]. by rewrite H2, (textOf_eq a' _ _ H3 H4).
  - apply agrees_grown. by apply streams_appendToEnd.
  - apply agrees_grown. by apply streams_markEndOfFile.
  - pose proof (agrees_grown _ [] true a l (streams_closeWithout i a l Hi)) as Hg. by rewrite appendText_nil in Hg.
  - destruct (streams_openInsertionPoint i a l Hi) as [H1 H2]. exists (of_chars []), (a :: l). split; [done|]. by rewrite H2.
  - destruct l as [|y l]; cbn [map]; [by pose proof (streams_records _ _ _ Hi) as Hr; apply Forall2_nil_inv_r in Hr; unfold closeInsertionPoint; rewrite Hr|]. pose proof (streams_closeInsertionPoint i a y l Hi) as Hs. change (textOf y) with (mkText (st_pushed y) (st_rest y)). destruct (st_pushed y); [rewrite bool_decide_eq_true_2 in Hs by done|by rewrite bool_decide_eq_false_2 in Hs by done; rewrite Hs].
    destruct Hs as (i' & a' & -> & H1 & H2 & H3 & H4). exists a', l. split; [done|]. by rewrite H2, (textOf_eq a' _ _ H3 H4).
Qed.

Lemma holds_run ops i s : holds i s -> Forall opCodes ops -> agrees (runSteps inputStep ops i) (runSteps textStep ops s).
Proof.
  revert i s. induction ops as [|op ops IH]; intros i s Hi Hc; [done|]. apply Forall_cons_1 in Hc as [Hc1 Hc2]. cbn. pose proof (holds_step op i s Hi Hc1) as Hs. unfold agrees in Hs.
  destruct (inputStep op i) as [i1|], (textStep op s) as [s1|]; [by apply IH|done..].
Qed.

End Refinement.

(** C13: whatever calls are made, in whatever order, on the input stream (insertions,
    data and end of the network, closing without a marker, insertion points, reads and
    characters pushed back), the stream of segmented strings does what a stack of texts
    does: a script inserts in front of everything that was left when it began, the network
    appends behind everything, removing an insertion point joins the texts in this order,
    and only the last text ends the file.  A call fails an assertion exactly when the stack
    forbids it: something is added or closed after the end of the file, a third character
    is pushed back, or a text into which characters were pushed back is joined. *)
Theorem input_stream_refines `{FoldCase} ops : Forall opCodes ops ->
  match runSteps textStep ops (mkText [] [], [], false) with
  | Some (x, l, e) =>
      exists i : HTMLInputStream SegmentedString, runSteps inputStep ops newInput = Some i /\
        seg_toString (current i) = textChars x /\ map (fun r => seg_toString (m_next r)) (m_records i) = map textChars l /\
        haveSeenEndOfFile i = e /\ hasInsertionPoint i = negb (bool_decide (l = []))
  | None => runSteps inputStep ops newInput = None
  end.
Proof.
  intros Hc. pose proof (holds_run ops newInput (mkText [] [], [], false) ltac:(exists (of_chars []), []; by split; [apply streams_new|]) Hc) as Ha. unfold agrees in Ha.
  destruct (runSteps inputStep ops newInput) as [i|], (runSteps textStep ops _) as [[[x l] e]|]; try done. destruct Ha as (a & l' & Hi & Et). injection Et as -> -> ->. pose proof Hi as [[[_ Ha] _] H2 _ _]. exists i. split_and!; [done|..].
  - unfold current. by rewrite toString_abs, Ha.
  - clear - H2. induction H2 as [|r b rs bs (_ & <- & _) _ IH]; [done|]. cbn. by rewrite IH, toString_abs.
  - by rewrite (streams_ended i _ l' Hi).
  - rewrite (streams_hasInsertionPoint i _ l' Hi). by destruct l'.
Qed.

(** A script writes twice while the end of the file arrives, one character is read and
    another one is pushed back; then the network sends more, which it must not. *)
Definition writtenOps : list InputOp :=
  [OpAppend true [97; 98]; OpRead; OpOpenInsertionPoint; OpInsert false [120]; OpMarkEndOfFile; OpInsert true [121]; OpRead; OpPush 122; OpCloseInsertionPoint].

Lemma input_stream_refines_witness :
  (exists i : HTMLInputStream SegmentedString, runSteps (inputStep (H := id)) writtenOps newInput = Some i /\ seg_toString (current i) = [122; 121; 98; 0] /\ haveSeenEndOfFile (H := @segmented_source id) i = true) /\
  runSteps (inputStep (H := id)) (writtenOps ++ [OpAppend true [99]]) newInput = None.
Proof.
  split.
  - pose proof (@input_stream_refines id writtenOps ltac:(repeat constructor; lia)) as (i & E & H1 & _ & H2 & _). exists i. split; [exact E|]. split; [exact H1|exact H2].
  - apply (@input_stream_refines id (writtenOps ++ [OpAppend true [99]])). repeat constructor; lia.
Defined.

(** ** What holds of the input whatever scripts do *)

Definition codes (text : list Z) : Prop := Forall (fun c => 0 <= c) text.

Lemma codes_check text : forallb (fun c => 0 <=? c) text = true -> codes text.
Proof. intros E. apply list.Forall_forall. intros c Hc. apply list_elem_of_In in Hc. rewrite forallb_forall in E. specialize (E c Hc). lia. Qed.

(** ** Strings *)

Section Strings.
Context `{FoldCase}.

Definition good (s : SegmentedString) : Prop := related s (abs s).

Lemma good_related s a : related s a -> good s.
Proof. intros [[Hw <-] Hu]. by split. Qed.

Lemma good_string b text : codes text -> good (fromString b text).
Proof. intros Hc. by apply (good_related _ (Stream.of_chars text)), related_string. Qed.

Lemma good_empty line column n : good (setPosition line column n emptySource).
Proof. apply (good_related _ (Stream.of_chars [])). split; [apply refines_position, refines_empty|]. split; [cbn; lia|constructor]. Qed.

Lemma good_position line column n s : good s -> good (setPosition line column n s).
Proof. intros [H1 H2]. apply (good_related _ (abs s)). split; [by apply refines_position|done]. Qed.

Lemma good_close s : good s -> good (closeSource s).
Proof. intros [H1 H2]. apply (good_related _ (Stream.close (abs s))). split; [by apply (refines_close (Src := SegmentedString))|done]. Qed.

Lemma good_pushed s : good s -> escapedSource s = false -> st_pushed (abs s) = [].
Proof. intros [H1 _] He. rewrite (refines_escaped s _ H1) in He. by apply negb_false_iff, bool_decide_eq_true in He. Qed.

Lemma good_append s other : good s -> good other -> escapedSource other = false -> good (appendSource other s).
Proof. intros Hs Ho He. destruct (held_joined s _ other _ (related_held _ _ Hs) (related_held _ _ Ho)) as (n & Hn). by apply (good_related _ _ Hn). Qed.

(** A copy of a string without pushed characters. *)
Lemma good_copy s : good s -> escapedSource s = false -> good (copySource s).
Proof. intros Hs He. apply (good_related _ (abs s)). split; [apply refines_copy; [apply Hs|by apply good_pushed]|apply Hs]. Qed.

(** A text that is written. *)
Lemma good_written b text : codes text -> good (excludeLineNumbers (copySource (fromString b text))).
Proof.
  intros Hc. pose proof (related_string b text Hc) as [Hr Hu]. apply (good_related _ (Stream.of_chars text)). split; [|done]. apply refines_exclude. by apply refines_copy.
Qed.

Lemma escaped_copy s : escaped (copyOf s) = escaped s.
Proof. done. Qed.

Lemma updateAdvance_keeps s : m_pushedChar1 (updateAdvanceFunctionPointers s) = m_pushedChar1 s /\ m_closed (updateAdvanceFunctionPointers s) = m_closed s.
Proof. unfold updateAdvanceFunctionPointers. repeat case_match; by split. Qed.

Lemma appendSub_fields sub s : m_pushedChar1 (appendSub sub s) = m_pushedChar1 s /\ m_closed (appendSub sub s) = m_closed s.
Proof. unfold appendSub. destruct (_ =? _)%nat; [done|]. destruct (_ =? _)%nat; [|done]. cbn. match goal with |- context [updateAdvanceFunctionPointers ?x] => exact (updateAdvance_keeps x) end. Qed.

Lemma append_fields other s : m_pushedChar1 (seg_append other s) = m_pushedChar1 s /\ m_closed (seg_append other s) = m_closed s.
Proof.
  unfold seg_append. cbn. pose proof (appendSub_fields (m_currentString other) s) as [<- <-]. generalize (appendSub (m_currentString other) s). clear s. induction (m_substrings other) as [|x l IH]; intros s; [done|].
  cbn [fold_left]. destruct (IH (appendSub x s)) as [-> ->]. apply appendSub_fields.
Qed.

Lemma escaped_append other s : escaped (seg_append other s) = escaped s.
Proof. unfold escaped. by destruct (append_fields other s) as [-> _]. Qed.

(** ** One call of the tokenizer *)

(** A stream that stays open or closed is a refinement of itself. *)
Definition closedIs (c : bool) : SourceRefines Stream.
Proof.
  refine {| refines s a := s = a /\ st_closed a = c |}; try (by intros s a [-> _]); try (intros s a [-> <-]; split; [done|]; by destruct a as [[|? ?] [|? ?] ? ?]); try (by intros s a x [-> <-]).
  intros s a l cs [-> <-]. split; [done|]. split; [done|]. cbn [CharSource.lookAheadInline stream_source]. unfold Stream.lookAheadInline. destruct (Nat.ltb_spec (length (Stream.chars a)) (length l)) as [|Hl]; [done|].
  destruct (Stream.advanceBy (length l) a) as [l' a'] eqn:E. destruct (StreamFacts.advanceBy_spec (length l) a Hl) as (_ & _ & _ & Hc). rewrite E in Hc. by cbn in *.
Defined.

Context `{EntityTable} `{!EntityTableOK}.

Lemma nextToken_closed t a b t' a' : usable a -> nextToken t a = Some (b, t', a') -> st_closed a' = st_closed a.
Proof.
  intros Hu E. pose proof (sim_nextToken (HR := closedIs (st_closed a)) t a a (conj (conj eq_refl eq_refl) Hu)) as Hs. rewrite E in Hs. by destruct Hs as (_ & _ & [[_ Hs] _]).
Qed.

Lemma nextToken_good t s b t' s' : good s -> nextToken t s = Some (b, t', s') -> good s' /\ m_closed s' = m_closed s /\ nextToken t (abs s) = Some (b, t', abs s').
Proof.
  intros Hs E. pose proof (sim_nextToken (Src := SegmentedString) t s (abs s) Hs) as Hsim. rewrite E in Hsim. destruct (nextToken t (abs s)) as [[[b2 t2] a2]|] eqn:Ea; [|done]. destruct Hsim as (<- & <- & Hr).
  pose proof (nextToken_closed _ _ _ _ _ (proj2 Hs) Ea) as Hc. pose proof (good_related _ _ Hr) as Hg. destruct Hr as [[_ <-] _]. by split_and!.
Qed.

End Strings.

(** ** The stream *)

Section Input.
Context `{FoldCase}.

Definition strings (i : HTMLInputStream SegmentedString) : list SegmentedString := m_first i :: map m_next (m_records i).

(** A string that is put aside can be read later, or not be joined. *)
Record inputOK (i : HTMLInputStream SegmentedString) : Prop := mkInputOK {
  input_first : good (m_first i);
  input_records : Forall (fun r => escaped (m_next r) = true \/ good (m_next r)) (m_records i);
  input_last : m_last i = match m_records i with [] => None | _ => Some 0%nat end;
  input_open : Forall (fun s => m_closed s = false) (removelast (strings i))
}.

Lemma inputOK_new : inputOK newInput.
Proof. constructor; try done. apply (good_related _ (Stream.of_chars [])). split; [apply refines_empty|]. split; [cbn; lia|constructor]. Qed.

Lemma input_closed i : inputOK i -> m_closed (m_first i) = true -> m_records i = [].
Proof. intros [_ _ _ Ho] Hc. unfold strings in Ho. destruct (m_records i); [done|]. cbn in Ho. apply Forall_cons_1 in Ho as [Ho _]. congruence. Qed.

Lemma inputOK_first i s : inputOK i -> good s -> m_closed s = m_closed (m_first i) -> inputOK (set_first s i).
Proof. intros [H1 H2 H3 H4] Hs Hc. constructor; try done. unfold strings in *. cbn. destruct (m_records i); [done|]. cbn in *. apply Forall_cons_1 in H4 as [? ?]. constructor; [congruence|done]. Qed.

(** The last string changes. *)
Lemma inputOK_last f i : inputOK i -> (forall s, good s -> good (f s)) -> (forall s, escaped (f s) = escaped s) ->
  inputOK (updateLast f i) /\ length (m_records (updateLast f i)) = length (m_records i).
Proof.
  intros [H1 H2 H3 H4] Hg He. unfold updateLast. rewrite H3. unfold strings in H4. destruct i as [first records last]. cbn in *. destruct (rev records) as [|r l] eqn:Er.
  - apply (f_equal (@rev _)) in Er. rewrite rev_involutive in Er. cbn in Er. subst records. split; [|done]. constructor; cbn; try done. by apply Hg.
  - apply (f_equal (@rev _)) in Er. rewrite rev_involutive in Er. cbn in Er. subst records. assert (Hm : forall {A} (x y : A), match rev l ++ [r] with [] => x | _ => y end = y) by (by intros; destruct (rev l)). rewrite !Hm in *.
    unfold position. cbn. rewrite length_app. cbn. replace (length (rev l) + 1 - 1)%nat with (length (rev l)) by lia. rewrite alter_app_r_alt by lia. rewrite Nat.sub_diag. cbn. apply Forall_app in H2 as [H2 Hr]. apply Forall_cons_1 in Hr as [Hr _].
    split; [|rewrite !length_app; done]. constructor; cbn; try done.
    + apply Forall_app. split; [done|]. constructor; [|done]. cbn. destruct Hr as [Hr|Hr]; [left; by rewrite He|right; by apply Hg].
    + by destruct (rev l).
    + unfold strings. cbn [m_first m_records]. rewrite map_app in H4 |- *. cbn [map] in H4 |- *. change (Forall (fun s => m_closed s = false) (removelast ((first :: map m_next (rev l)) ++ [m_next r]))) in H4. rewrite removelast_snoc in H4.
      match goal with |- context [_ ++ [?x]] => change (Forall (fun s => m_closed s = false) (removelast ((first :: map m_next (rev l)) ++ [x]))) end. by rewrite removelast_snoc.
Qed.

(** *** Operations *)

Lemma insert_good i i' source : inputOK i -> good source -> insertAtCurrentInsertionPoint source i = Some i' -> inputOK i' /\ m_records i' = m_records i /\ m_closed (m_first i) = false.
Proof.
  intros Hi Hs E. unfold insertAtCurrentInsertionPoint, appendable in E. destruct (negb (isClosed (m_first i)) && negb (escapedSource source)) eqn:Ea; [|done]. injection E as <-. apply andb_true_iff in Ea as [E1 E2]. apply negb_true_iff in E1, E2.
  split_and!; [|done|done]. apply inputOK_first; [done|apply good_append; [apply Hi|done|done]|]. apply append_fields.
Qed.

Lemma append_good i i' source : inputOK i -> good source -> appendToEnd source i = Some i' -> inputOK i' /\ length (m_records i') = length (m_records i) /\ (m_records i = [] -> m_closed (m_first i) = false).
Proof.
  intros Hi Hs E. unfold appendToEnd in E. destruct (lastString i) as [s|] eqn:El; [|done]. unfold appendable in E. destruct (negb (isClosed s) && negb (escapedSource source)) eqn:Ea; [|done]. injection E as <-.
  apply andb_true_iff in Ea as [E1 E2]. apply negb_true_iff in E1, E2. destruct (inputOK_last (appendSource source) i Hi) as [H1 H2]; [by intros; apply good_append|intros; apply escaped_append|].
  split_and!; [done|done|]. intros Er. unfold lastString in El. rewrite (input_last _ Hi), Er in El. by injection El as ->.
Qed.

Lemma mark_good i i' : inputOK i -> markEndOfFile i = Some i' -> inputOK i' /\ length (m_records i') = length (m_records i) /\ (m_records i = [] -> m_closed (m_first i) = false).
Proof.
  intros Hi E. unfold markEndOfFile in E. destruct (appendToEnd _ i) as [i1|] eqn:E1; [|done]. injection E as <-. destruct (append_good i i1 _ Hi (good_string false [kEndOfFileMarker] ltac:(by repeat constructor)) E1) as (H1 & H2 & H3).
  destruct (inputOK_last closeSource i1 H1 good_close) as [H4 H5]; [done|]. split_and!; [done|by etransitivity; [exact H5|]|done].
Qed.

Lemma open_good i : inputOK i -> inputOK (openInsertionPoint i) /\ length (m_records (openInsertionPoint i)) = S (length (m_records i)).
Proof.
  intros [H1 H2 H3 H4]. split; [|done]. constructor.
  - apply good_empty.
  - cbn. constructor; [|done]. cbn. destruct (escaped (m_first i)) eqn:E; [by left|right; by apply good_copy].
  - cbn. rewrite H3. by destruct (m_records i).
  - unfold strings in *. cbn. constructor; [done|]. destruct (m_records i); [done|]. cbn in *. apply Forall_cons_1 in H4 as [Hc H4]. by constructor.
Qed.

Lemma close_good i i' : inputOK i -> closeInsertionPoint i = Some i' -> inputOK i' /\ S (length (m_records i')) = length (m_records i).
Proof.
  intros [H1 H2 H3 H4] E. unfold closeInsertionPoint, mergeFrom in E. destruct i as [first records last]. cbn in *. destruct records as [|r records]; [done|]. cbn in *. unfold appendable in E.
  destruct (negb (isClosed first) && negb (escapedSource (m_next r))) eqn:Ea; [|done]. injection E as <-. apply andb_true_iff in Ea as [E1 E2]. apply negb_true_iff in E1, E2.
  apply Forall_cons_1 in H2 as [Hr H2]. destruct Hr as [Hr|Hr]; [cbn in E2; congruence|]. split; [|done].
  assert (Hg : good (appendSource (m_next r) first)) by (by apply good_append). unfold strings in H4. cbn in H4. apply Forall_cons_1 in H4 as [_ H4]. constructor; cbn.
  - apply good_position. destruct (m_closed (m_next r)); [by apply good_close|done].
  - done.
  - rewrite H3. destruct records; [by rewrite bool_decide_eq_true_2|]. by rewrite bool_decide_eq_false_2.
  - unfold strings. cbn. destruct records as [|r' records]; [done|]. cbn in *. apply Forall_cons_1 in H4 as [Hc H4]. rewrite Hc. constructor; [|done]. destruct (append_fields (m_next r) first) as [_ E]. etransitivity; [exact E|exact E1].
Qed.

(** *** Lengths *)

Definition charCount (s : SegmentedString) : nat := length (Stream.chars (abs s)).

Lemma count_position line column n s : good s -> charCount (setPosition line column n s) = charCount s.
Proof. intros [H1 _]. unfold charCount. by destruct (refines_position (Src := SegmentedString) _ _ line column n H1) as [_ ->]. Qed.

Lemma count_close s : good s -> charCount (closeSource s) = charCount s.
Proof. intros [H1 _]. unfold charCount. by destruct (refines_close (Src := SegmentedString) _ _ H1) as [_ ->]. Qed.

Lemma count_copy s : good s -> escapedSource s = false -> charCount (copySource s) = charCount s.
Proof. intros Hs He. unfold charCount. by destruct (refines_copy (Src := SegmentedString) _ _ (proj1 Hs) (good_pushed _ Hs He)) as [_ ->]. Qed.

Lemma count_append s other : good s -> good other -> escapedSource other = false -> charCount (appendSource other s) = (charCount s + charCount other)%nat.
Proof.
  intros Hs Ho He. pose proof (good_pushed _ Ho He) as Hp. destruct (held_joined s _ other _ (related_held _ _ Hs) (related_held _ _ Ho)) as (n & [[_ Hn] _]). unfold charCount. change (abs (appendSource other s) = joined (abs s) (abs other) n) in Hn. rewrite Hn.
  unfold Stream.chars. rewrite Hp. cbn. rewrite !length_app. lia.
Qed.

Lemma count_string b text : codes text -> charCount (fromString b text) = length text.
Proof. intros Hc. unfold charCount. by destruct (refines_string (Src := SegmentedString) b text) as [_ ->]. Qed.

(** An insertion point at which nothing is inserted. *)
Lemma count_reopen i i' : inputOK i -> closeInsertionPoint (openInsertionPoint i) = Some i' -> charCount (m_first i') = charCount (m_first i).
Proof.
  intros [H1 _ _ _] E. unfold closeInsertionPoint, mergeFrom, openInsertionPoint, splitInto in E. cbn [m_records m_first set_first m_next] in E. unfold appendable in E.
  set (e := setPosition (sourceLine (current i)) (sourceColumn (current i)) 0 emptySource) in *. destruct (negb (isClosed e) && negb (escapedSource (copySource (m_first i)))) eqn:Ea; [|done]. apply andb_true_iff in Ea as [_ E2]. apply negb_true_iff in E2.
  injection E as <-. cbn [m_first set_first]. assert (Hc : good (copySource (m_first i))) by (by apply good_copy). pose proof (good_append e _ (good_empty _ _ _) Hc E2) as Ha. assert (He : charCount e = 0%nat) by (unfold e; by rewrite count_position by exact (good_empty 0 0 0)).
  assert (Es : charCount (appendSource (copySource (m_first i)) e) = charCount (m_first i)) by (rewrite count_append by (done || apply good_empty); rewrite He, count_copy by done; lia).
  destruct (m_closed (m_first i)); (etransitivity; [apply (count_position (m_currentLine (current i)) (currentColumn (current i)) (Z.of_nat (seg_length e)))|]); [by apply good_close|by etransitivity; [apply count_close|]|done|done].
Qed.

(** The end of the input, when no script is being executed. *)
Lemma append_count i i' source : inputOK i -> good source -> m_records i = [] -> appendToEnd source i = Some i' -> charCount (m_first i') = (charCount (m_first i) + charCount source)%nat.
Proof.
  intros Hi Hs Hr E. unfold appendToEnd, lastString, appendable, updateLast in E. rewrite (input_last _ Hi), Hr in E. destruct (_ && negb (escapedSource source)) eqn:Ea; [|done]. apply andb_true_iff in Ea as [_ E2]. apply negb_true_iff in E2. injection E as <-.
  apply count_append; [apply Hi|done|done].
Qed.

Lemma mark_count i i' : inputOK i -> m_records i = [] -> markEndOfFile i = Some i' -> charCount (m_first i') = S (charCount (m_first i)).
Proof.
  intros Hi Hr E. unfold markEndOfFile in E. destruct (appendToEnd _ i) as [i1|] eqn:E1; [|done]. injection E as <-. assert (Hc : codes [kEndOfFileMarker]) by (by repeat constructor). pose proof (good_string false _ Hc) as Hg.
  destruct (append_good _ _ _ Hi Hg E1) as (H1 & H2 & _). rewrite Hr in H2. unfold updateLast. rewrite (input_last _ H1). destruct (m_records i1); [|done]. cbn [m_first set_first].
  rewrite count_close by apply H1. rewrite (append_count _ _ _ Hi Hg Hr E1), count_string by done. cbn. lia.
Qed.

End Input.
