(* ===== verification/HTMLDocumentParserState.v ===== *)
(** * The state of the document parser

    The members of [HTMLDocumentParser] (and of its base classes) and of
    [HTMLScriptRunner], what the page does, and the monad in which the operations are
    written.

    A page is the rest of the browser: what has been loaded, the clock, and scripts.  A
    script is a list of steps, each of which depends on the state of the page and may do
    something to the parser.  An operation has a result, or an assertion fails, or the tree
    builder fails on a token, or the fuel is used up. *)
From S2P Require Import Prelude CharSource HTMLToken HTMLTokenizer HTMLStackItem HTMLConstructionSite HTMLTreeBuilderState HTMLTreeBuilder HTMLInputStream HTMLParserScheduler.
From Stdlib Require Import String ZArith.
From stdpp Require Import base list numbers option.
#[local] Open Scope Z_scope.
Import HTMLStackItem.

(** ** Pages *)

(** What a step of a script does to the document and its parser. *)
Inductive Action : Type :=
| Nothing
| Write (is8Bit : bool) (text : list Z)
| Receive (is8Bit : bool) (text : list Z)
| Finish
| Stop
| Detach
| StylesheetsLoaded.

(** When scripts run. *)
Inductive Occasion : Type :=
| DeliverMutations
| PrepareScript (element : ContainerNode)
| ExecuteScript (element : ContainerNode)
| DispatchLoadEvent (element : ContainerNode)
| DispatchErrorEvent (element : ContainerNode)
| ReadyStateInteractive
| FinishedParsing.

(** The members of [ScriptElement] that the parser reads. *)
Record ScriptElement (Resource : Type) : Type := mkScriptElement {
  willBeParserExecuted : bool;
  willExecuteWhenDocumentFinishedParsing : bool;
  readyToBeParserExecuted : bool;
  cachedScript : option Resource
}.
Arguments mkScriptElement {Resource}.
Arguments willBeParserExecuted {Resource}.
Arguments willExecuteWhenDocumentFinishedParsing {Resource}.
Arguments readyToBeParserExecuted {Resource}.
Arguments cachedScript {Resource}.

Class Page : Type := mkPage {
  World : Type;
  Resource : Type;
  resource_eq :: EqDecision Resource;
  haveStylesheetsLoaded : World -> bool;
  isLoaded : Resource -> World -> bool;
  errorOccurred : Resource -> World -> bool;
  locationChangePending : World -> bool;
  needsFirstPaint : World -> bool;
  isLayoutTimerActive : World -> bool;
  monotonicallyIncreasingTime : World -> Z * World;
  scriptElement : ContainerNode -> World -> ScriptElement Resource;
  scripts : Occasion -> World -> list (World -> Action * World) * World
}.

Definition Script `{Page} : Type := list (World -> Action * World).

(** ** Members *)

(** [DocumentParser::ParserState]. *)
Inductive ParserState : Type := ParsingState | StoppingState | StoppedState | DetachedState.

#[export] Instance ParserState_eq_dec : EqDecision ParserState.
Proof. solve_decision. Defined.

Inductive SynchronousMode : Type := AllowYield | ForceSynchronous.

Section State.
Context {page : Page} {Src : Type}.

Record PendingScript : Type := mkPending { pendingElement : ContainerNode; pendingResource : option Resource; watchingForLoad : bool }.

(** [m_parserBlockingScript] is [None] when it has no element. *)
Record HTMLScriptRunner : Type := mkRunner {
  runnerAttached : bool;
  m_parserBlockingScript : option PendingScript;
  m_scriptsToExecuteAfterParsing : list PendingScript;
  m_scriptNestingLevel : nat;
  m_hasScriptsWaitingForStylesheets : bool
}.

Definition newRunner : HTMLScriptRunner := mkRunner true None [] 0 false.

(** The members of [Document] that [document.write] uses. *)
Record Document : Type := mkDocument {
  m_writeRecursionDepth : nat;
  m_writeRecursionIsTooDeep : bool;
  m_ignoreDestructiveWriteCount : nat;
  finishedParsing : bool
}.

Definition newDocument : Document := mkDocument 0 false 0 false.

Record HTMLDocumentParser : Type := mkParser {
  m_state : ParserState;
  m_wasCreatedByScript : bool;
  m_input : HTMLInputStream Src;
  m_tokenizer : HTMLTokenizer;
  m_treeBuilder : HTMLTreeBuilderState.HTMLTreeBuilder;
  m_scriptRunner : option HTMLScriptRunner;
  m_parserScheduler : option HTMLParserScheduler;
  m_preloadScanner : option (HTMLTokenizer * Src);
  m_insertionPreloadScanner : option (HTMLTokenizer * Src);
  m_endWasDelayed : bool;
  m_pumpSessionNestingLevel : nat;
  document : Document;
  world : World
}.

Definition set_state v p := mkParser v (m_wasCreatedByScript p) (m_input p) (m_tokenizer p) (m_treeBuilder p) (m_scriptRunner p) (m_parserScheduler p)
  (m_preloadScanner p) (m_insertionPreloadScanner p) (m_endWasDelayed p) (m_pumpSessionNestingLevel p) (document p) (world p).
Definition set_input v p := mkParser (m_state p) (m_wasCreatedByScript p) v (m_tokenizer p) (m_treeBuilder p) (m_scriptRunner p) (m_parserScheduler p)
  (m_preloadScanner p) (m_insertionPreloadScanner p) (m_endWasDelayed p) (m_pumpSessionNestingLevel p) (document p) (world p).
Definition set_tokenizer v p := mkParser (m_state p) (m_wasCreatedByScript p) (m_input p) v (m_treeBuilder p) (m_scriptRunner p) (m_parserScheduler p)
  (m_preloadScanner p) (m_insertionPreloadScanner p) (m_endWasDelayed p) (m_pumpSessionNestingLevel p) (document p) (world p).
Definition set_treeBuilder v p := mkParser (m_state p) (m_wasCreatedByScript p) (m_input p) (m_tokenizer p) v (m_scriptRunner p) (m_parserScheduler p)
  (m_preloadScanner p) (m_insertionPreloadScanner p) (m_endWasDelayed p) (m_pumpSessionNestingLevel p) (document p) (world p).
Definition set_scriptRunner v p := mkParser (m_state p) (m_wasCreatedByScript p) (m_input p) (m_tokenizer p) (m_treeBuilder p) v (m_parserScheduler p)
  (m_preloadScanner p) (m_insertionPreloadScanner p) (m_endWasDelayed p) (m_pumpSessionNestingLevel p) (document p) (world p).
Definition set_parserScheduler v p := mkParser (m_state p) (m_wasCreatedByScript p) (m_input p) (m_tokenizer p) (m_treeBuilder p) (m_scriptRunner p) v
  (m_preloadScanner p) (m_insertionPreloadScanner p) (m_endWasDelayed p) (m_pumpSessionNestingLevel p) (document p) (world p).
Definition set_preloadScanner v p := mkParser (m_state p) (m_wasCreatedByScript p) (m_input p) (m_tokenizer p) (m_treeBuilder p) (m_scriptRunner p)
  (m_parserScheduler p) v (m_insertionPreloadScanner p) (m_endWasDelayed p) (m_pumpSessionNestingLevel p) (document p) (world p).
Definition set_insertionPreloadScanner v p := mkParser (m_state p) (m_wasCreatedByScript p) (m_input p) (m_tokenizer p) (m_treeBuilder p) (m_scriptRunner p)
  (m_parserScheduler p) (m_preloadScanner p) v (m_endWasDelayed p) (m_pumpSessionNestingLevel p) (document p) (world p).
Definition set_endWasDelayed v p := mkParser (m_state p) (m_wasCreatedByScript p) (m_input p) (m_tokenizer p) (m_treeBuilder p) (m_scriptRunner p)
  (m_parserScheduler p) (m_preloadScanner p) (m_insertionPreloadScanner p) v (m_pumpSessionNestingLevel p) (document p) (world p).
Definition set_pumpSessionNestingLevel v p := mkParser (m_state p) (m_wasCreatedByScript p) (m_input p) (m_tokenizer p) (m_treeBuilder p) (m_scriptRunner p)
  (m_parserScheduler p) (m_preloadScanner p) (m_insertionPreloadScanner p) (m_endWasDelayed p) v (document p) (world p).
Definition set_document v p := mkParser (m_state p) (m_wasCreatedByScript p) (m_input p) (m_tokenizer p) (m_treeBuilder p) (m_scriptRunner p)
  (m_parserScheduler p) (m_preloadScanner p) (m_insertionPreloadScanner p) (m_endWasDelayed p) (m_pumpSessionNestingLevel p) v (world p).
Definition set_world v p := mkParser (m_state p) (m_wasCreatedByScript p) (m_input p) (m_tokenizer p) (m_treeBuilder p) (m_scriptRunner p)
  (m_parserScheduler p) (m_preloadScanner p) (m_insertionPreloadScanner p) (m_endWasDelayed p) (m_pumpSessionNestingLevel p) (document p) v.

(** ** Results *)

Inductive Failure : Type :=
| AssertionFailed
| TreeBuilderFailed (token : HTMLTreeBuilderState.AtomicHTMLToken) (b : HTMLTreeBuilderState.HTMLTreeBuilder).

Inductive Result (A : Type) : Type :=
| Ok (a : A) (p : HTMLDocumentParser)
| Failed (f : Failure)
| OutOfFuel.

End State.

Arguments HTMLDocumentParser {page} Src.
Arguments Result {page} Src A.
Arguments Ok {page Src A}.
Arguments Failed {page Src A}.
Arguments OutOfFuel {page Src A}.

Module Parser.
Section Monad.
Context {page : Page} {Src : Type}.

Definition P (A : Type) : Type := HTMLDocumentParser Src -> Result Src A.

Definition ret {A} (a : A) : P A := fun p => Ok a p.

Definition bind {A B} (m : P A) (k : A -> P B) : P B := fun p =>
  match m p with
  | Ok a p => k a p
  | Failed f => Failed f
  | OutOfFuel => OutOfFuel
  end.

Definition get : P (HTMLDocumentParser Src) := fun p => Ok p p.
Definition modify (f : HTMLDocumentParser Src -> HTMLDocumentParser Src) : P unit := fun p => Ok tt (f p).
Definition fail {A} : P A := fun _ => Failed AssertionFailed.
Definition assert (c : HTMLDocumentParser Src -> bool) : P unit := fun p => if c p then Ok tt p else Failed AssertionFailed.

(** A value that has to be there. *)
Definition ask {A} (f : HTMLDocumentParser Src -> option A) : P A := fun p => match f p with Some a => Ok a p | None => Failed AssertionFailed end.

End Monad.
End Parser.

Declare Scope parser_scope.
Delimit Scope parser_scope with parser.
Notation "'let!' x := m 'in' k" := (Parser.bind m (fun x => k))
  (at level 10, x binder, m at level 100, k at level 200) : parser_scope.
Notation "m ;; k" := (Parser.bind m (fun _ => k))
  (at level 100, k at level 200, right associativity) : parser_scope.
