(* ===== verification/HTMLScriptRunner.v ===== *)
(** * [WebCore/html/parser/HTMLScriptRunner.cpp]

    Scripts that the parser has found: at most one blocks the parser until it and the
    stylesheets before it are loaded, others wait for the end of parsing.  Executing a
    script may come back to the parser, so the operations are written over [call], which
    performs a script and goes on with a loop; [HTMLDocumentParser] defines it.  The names
    of the operations are those of the code; an [InsertionPointRecord] lives from
    [openPoint] to [closePoint]. *)
From S2P Require Import Prelude CharSource InputStreamPreprocessor HTMLEntitySearch HTMLToken HTMLTokenizer HTMLPreloadScanner HTMLStackItem HTMLConstructionSite HTMLTreeBuilderState HTMLTreeBuilder HTMLInputStream HTMLParserScheduler HTMLDocumentParserState.
From Stdlib Require Import String ZArith.
From stdpp Require Import base list numbers option.
#[local] Open Scope Z_scope.
#[local] Open Scope parser_scope.
Import HTMLStackItem Parser.

(** What is done with less fuel: the steps of a script, and another round of the loops of
    [pumpTokenizer], [executeParsingBlockingScripts] and
    [executeScriptsWaitingForParsing]. *)
Inductive Call {page : Page} : Type -> Type :=
| CallPerform (script : Script) : Call unit
| CallPump (mode : SynchronousMode) (session : PumpSession) : Call PumpSession
| CallBlockingScripts : Call unit
| CallScriptsWaitingForParsing : Call bool.

(** [toScriptElementIfPossible]. *)
Definition isScriptElement (e : ContainerNode) : bool := node_hasTagName e (htmlName "script") || node_hasTagName e (svgName "script").

Section Runner.
Context {page : Page} {Src : Type} `{CharSource Src} `{InputSource Src} `{StringSource Src} `{EntityTable}.
Variable call : forall A, Call A -> P (Src := Src) A.

Definition runner : P (Src := Src) HTMLScriptRunner := ask m_scriptRunner.

Definition modifyRunner (f : HTMLScriptRunner -> HTMLScriptRunner) : P (Src := Src) unit := modify (fun p => set_scriptRunner (f <$> m_scriptRunner p) p).

Definition set_blocking v r := mkRunner (runnerAttached r) v (m_scriptsToExecuteAfterParsing r) (m_scriptNestingLevel r) (m_hasScriptsWaitingForStylesheets r).
Definition set_afterParsing v r := mkRunner (runnerAttached r) (m_parserBlockingScript r) v (m_scriptNestingLevel r) (m_hasScriptsWaitingForStylesheets r).
Definition set_nesting v r := mkRunner (runnerAttached r) (m_parserBlockingScript r) (m_scriptsToExecuteAfterParsing r) v (m_hasScriptsWaitingForStylesheets r).
Definition set_waiting v r := mkRunner (runnerAttached r) (m_parserBlockingScript r) (m_scriptsToExecuteAfterParsing r) (m_scriptNestingLevel r) v.

Definition detachRunner (r : HTMLScriptRunner) : HTMLScriptRunner :=
  mkRunner false (m_parserBlockingScript r) (m_scriptsToExecuteAfterParsing r) (m_scriptNestingLevel r) (m_hasScriptsWaitingForStylesheets r).

Definition isExecuting (r : HTMLScriptRunner) : bool := negb (m_scriptNestingLevel r =? 0)%nat.
Definition hasBlockingScript (r : HTMLScriptRunner) : bool := bool_decide (is_Some (m_parserBlockingScript r)).

Definition assertRunner (c : HTMLScriptRunner -> bool) : P (Src := Src) unit := let! r := runner in assert (fun _ => c r).

(** Scripts run on some occasion. *)
Definition occasion (o : Occasion) : P (Src := Src) unit :=
  let! p := get in
  let '(script, w) := scripts o (world p) in
  modify (set_world w) ;; call unit (CallPerform script).

Definition openPoint : P (Src := Src) unit := modify (fun p => set_input (openInsertionPoint (m_input p)) p).

Definition closePoint : P (Src := Src) unit := let! i := ask (fun p => closeInsertionPoint (m_input p)) in modify (set_input i).

Definition loaded (resource : option Resource) (w : World) : bool := match resource with Some x => isLoaded x w | None => true end.

(** ** Preload scanners *)

(** [HTMLPreloadScanner::appendToEnd]. *)
Definition scannerAppend (source : Src) (scanner : HTMLTokenizer * Src) : option (HTMLTokenizer * Src) :=
  let '(t, s) := scanner in if appendable source s then Some (t, appendSource source s) else None.

(** [HTMLPreloadScanner::scan]; the requests are not part of the state of the parser. *)
Definition scannerScan (scanner : HTMLTokenizer * Src) : option (HTMLTokenizer * Src) :=
  let '(t, s) := scanner in match scan t s with Some (_, t, s) => Some (t, s) | None => None end.

Definition appendCurrentInputStreamToPreloadScannerAndScan : P (Src := Src) unit :=
  let! p := get in
  let! scanner := ask m_preloadScanner in
  let! scanner := ask (fun _ => scannerAppend (current (m_input p)) scanner) in
  let! scanner := ask (fun _ => scannerScan scanner) in
  modify (set_preloadScanner (Some scanner)).

(** ** Executing a script *)

Definition isPendingScriptReady (script : PendingScript) : P (Src := Src) bool :=
  let! r := runner in
  if negb (runnerAttached r) then ret false
  else
    let! p := get in
    let waiting := negb (haveStylesheetsLoaded (world p)) in
    modifyRunner (set_waiting waiting) ;;
    ret (negb waiting && loaded (pendingResource script) (world p)).

(** [script] is the pending script and [release] is [releaseElementAndClear] on it. *)
Definition executePendingScriptAndDispatchEvent (script : PendingScript) (release : P (Src := Src) ContainerNode) : P (Src := Src) unit :=
  assert (fun p => loaded (pendingResource script) (world p)) ;;
  let! p := get in
  let error := match pendingResource script with Some x => errorOccurred x (world p) | None => false end in
  let! r := runner in
  (if isExecuting r then ret tt else occasion DeliverMutations) ;;
  let! element := release in
  (if isScriptElement element then
     let! r := runner in
     let counted := runnerAttached r in
     let count (f : nat -> nat) := if counted
       then modify (fun p => set_document (mkDocument (m_writeRecursionDepth (document p)) (m_writeRecursionIsTooDeep (document p)) (f (m_ignoreDestructiveWriteCount (document p))) (finishedParsing (document p))) p)
       else ret tt in
     modifyRunner (fun r => set_nesting (S (m_scriptNestingLevel r)) r) ;;
     count S ;;
     (if error then occasion (DispatchErrorEvent element)
      else assertRunner isExecuting ;; occasion (ExecuteScript element) ;; occasion (DispatchLoadEvent element)) ;;
     count Nat.pred ;;
     modifyRunner (fun r => set_nesting (Nat.pred (m_scriptNestingLevel r)) r)
   else ret tt) ;;
  assertRunner (fun r => negb (isExecuting r)).

Definition executeParsingBlockingScript : P (Src := Src) unit :=
  assertRunner runnerAttached ;;
  assertRunner (fun r => negb (isExecuting r)) ;;
  assert (fun p => haveStylesheetsLoaded (world p)) ;;
  let! r := runner in
  let! script := ask (fun _ => m_parserBlockingScript r) in
  let! ready := isPendingScriptReady script in
  assert (fun _ => ready) ;;
  openPoint ;;
  executePendingScriptAndDispatchEvent script
    (let! r := runner in let! script := ask (fun _ => m_parserBlockingScript r) in modifyRunner (set_blocking None) ;; ret (pendingElement script)) ;;
  closePoint.

(** One round of the loop. *)
Definition executeParsingBlockingScripts : P (Src := Src) unit :=
  let! r := runner in
  match m_parserBlockingScript r with
  | None => ret tt
  | Some script =>
      let! ready := isPendingScriptReady script in
      if ready then executeParsingBlockingScript ;; call unit CallBlockingScripts else ret tt
  end.

(** ** Requests *)

Definition requestParsingBlockingScript (element : ContainerNode) : P (Src := Src) unit :=
  assertRunner (fun r => negb (hasBlockingScript r)) ;;
  let! p := get in
  match cachedScript (scriptElement element (world p)) with
  | None => modifyRunner (set_blocking (Some (mkPending element None false)))
  | Some x => modifyRunner (set_blocking (Some (mkPending element (Some x) (negb (isLoaded x (world p))))))
  end.

Definition requestDeferredScript (element : ContainerNode) : P (Src := Src) unit :=
  let! p := get in
  match cachedScript (scriptElement element (world p)) with
  | None => ret tt
  | Some x => modifyRunner (fun r => set_afterParsing (m_scriptsToExecuteAfterParsing r ++ [mkPending element (Some x) false]) r)
  end.

(** The cases of [runScript] behind [prepareScript]. *)
Definition scheduleScript (element : ContainerNode) : P (Src := Src) unit :=
  let! p := get in
  let e := scriptElement element (world p) in
  if negb (willBeParserExecuted e) then ret tt
  else if willExecuteWhenDocumentFinishedParsing e then requestDeferredScript element
  else if readyToBeParserExecuted e then
    let! r := runner in
    if (m_scriptNestingLevel r =? 1)%nat
    then modifyRunner (fun r => set_blocking (Some (match m_parserBlockingScript r with
           | Some old => mkPending element (pendingResource old) (watchingForLoad old)
           | None => mkPending element None false
           end)) r)
    else occasion (ExecuteScript element)
  else requestParsingBlockingScript element.

Definition runScript (element : ContainerNode) : P (Src := Src) unit :=
  assertRunner runnerAttached ;;
  assertRunner (fun r => negb (hasBlockingScript r)) ;;
  assert (fun _ => isScriptElement element) ;;
  let! r := runner in
  (if isExecuting r then ret tt else occasion DeliverMutations) ;;
  openPoint ;;
  modifyRunner (fun r => set_nesting (S (m_scriptNestingLevel r)) r) ;;
  occasion (PrepareScript element) ;;
  scheduleScript element ;;
  modifyRunner (fun r => set_nesting (Nat.pred (m_scriptNestingLevel r)) r) ;;
  closePoint.

(** ** The interface *)

Definition execute (element : ContainerNode) : P (Src := Src) unit :=
  let! p := get in
  let hadPreloadScanner := bool_decide (is_Some (m_preloadScanner p)) in
  runScript element ;;
  let! r := runner in
  if negb (hasBlockingScript r) then ret tt
  else if isExecuting r then ret tt
  else
    let! p := get in
    (if negb hadPreloadScanner && bool_decide (is_Some (m_preloadScanner p)) then appendCurrentInputStreamToPreloadScannerAndScan else ret tt) ;;
    executeParsingBlockingScripts.

Definition executeScriptsWaitingForLoad (resource : Resource) : P (Src := Src) unit :=
  assertRunner (fun r => negb (isExecuting r)) ;;
  let! r := runner in
  let! script := ask (fun _ => m_parserBlockingScript r) in
  assert (fun _ => bool_decide (pendingResource script = Some resource)) ;;
  assert (fun p => isLoaded resource (world p)) ;;
  executeParsingBlockingScripts.

Definition runnerScriptsWaitingForStylesheets : P (Src := Src) unit :=
  assertRunner runnerAttached ;;
  assertRunner m_hasScriptsWaitingForStylesheets ;;
  assertRunner (fun r => negb (isExecuting r)) ;;
  assert (fun p => haveStylesheetsLoaded (world p)) ;;
  executeParsingBlockingScripts.

(** One round of the loop; [watchForLoad] is the assignment of the flag. *)
Definition executeScriptsWaitingForParsing : P (Src := Src) bool :=
  let! r := runner in
  match m_scriptsToExecuteAfterParsing r with
  | [] => ret true
  | first :: rest =>
      assertRunner (fun r => negb (isExecuting r)) ;;
      assertRunner (fun r => negb (hasBlockingScript r)) ;;
      let! x := ask (fun _ => pendingResource first) in
      let! p := get in
      if negb (isLoaded x (world p)) then
        assert (fun _ => negb (watchingForLoad first)) ;;
        modifyRunner (set_afterParsing (mkPending (pendingElement first) (Some x) true :: rest)) ;;
        ret false
      else
        modifyRunner (set_afterParsing rest) ;;
        executePendingScriptAndDispatchEvent first (ret (pendingElement first)) ;;
        let! r := runner in
        if negb (runnerAttached r) then ret false else call bool CallScriptsWaitingForParsing
  end.

End Runner.
