(* ===== verification/HTMLDocumentParser.v ===== *)
(** * [WebCore/html/parser/HTMLDocumentParser.cpp]

    The parser of a document: it pumps tokens from the input through the tokenizer into the
    tree builder, runs the scripts that this finds, yields to the rest of the browser, and
    ends when the end of the file has been processed.  Scripts come back through
    [document.write], of which the part that concerns the parser is modelled.

    The XSS auditor is not enabled and the source tracker, which serves it, is left out;
    [m_haveBackgroundParser], which is never set, as well.  The construction of the tree
    for one token is one step ([TreeConstruction]): that a task of the construction site
    could run a script which re-enters the parser before the token is done, as the comments
    at HTMLDocumentParser.cpp:341 and HTMLConstructionSite.cpp:189 say, is not modelled.
    What the document answers may be different for every token ([Answers]).  [fuel] bounds the nesting of
    scripts and the rounds of the loops. *)
From S2P Require Import Prelude CharSource InputStreamPreprocessor HTMLEntitySearch HTMLToken HTMLTokenizer HTMLPreloadScanner HTMLStackItem HTMLConstructionSite HTMLTreeBuilderState HTMLTreeBuilder AtomicHTMLToken HTMLInputStream HTMLParserScheduler HTMLDocumentParserState HTMLScriptRunner.
From Stdlib Require Import String ZArith.
From stdpp Require Import base list numbers option.
#[local] Open Scope Z_scope.
#[local] Open Scope parser_scope.
Import HTMLStackItem Parser.

(** [Document.cpp]. *)
Definition cMaxWriteRecursionDepth : nat := 21.

(** The state in which the tokenizer starts in a fragment. *)
Definition tokenizerStateForContextElement (contextElement : option ContainerNode) (reportErrors : bool) (options : HTMLParserOptions) : State :=
  match contextElement with
  | None => DataState
  | Some e =>
      let named s := node_hasTagName e (htmlName s) in
      if named "title"%string || named "textarea"%string then RCDATAState
      else if named "style"%string || named "xmp"%string || named "iframe"%string || (named "noembed"%string && pluginsEnabled options)
              || (named "noscript"%string && scriptEnabled options) || named "noframes"%string
      then if reportErrors then RAWTEXTState else PLAINTEXTState
      else if named "script"%string then if reportErrors then ScriptDataState else PLAINTEXTState
      else if named "plaintext"%string then PLAINTEXTState
      else DataState
  end.

Definition isStopped {page : Page} {Src} (p : HTMLDocumentParser Src) : bool := match m_state p with StoppedState | DetachedState => true | _ => false end.
Definition isDetached {page : Page} {Src} (p : HTMLDocumentParser Src) : bool := bool_decide (m_state p = DetachedState).
Definition isScheduled {page : Page} {Src} (p : HTMLDocumentParser Src) : bool := match m_parserScheduler p with Some s => isScheduledForResume s | None => false end.
Definition inPumpSession {page : Page} {Src} (p : HTMLDocumentParser Src) : bool := (0 <? m_pumpSessionNestingLevel p)%nat.
Definition isExecutingScript {page : Page} {Src} (p : HTMLDocumentParser Src) : bool := match m_scriptRunner p with Some r => isExecuting r | None => false end.
Definition treeBuilderHasScript {page : Page} {Src} (p : HTMLDocumentParser Src) : bool := bool_decide (is_Some (HTMLTreeBuilderState.m_scriptToProcess (m_treeBuilder p))).
Definition runnerHasScript {page : Page} {Src} (p : HTMLDocumentParser Src) : bool := match m_scriptRunner p with Some r => hasBlockingScript r | None => false end.
Definition isParsingFragment {page : Page} {Src} (p : HTMLDocumentParser Src) : bool := HTMLTreeBuilderState.isParsingFragment (m_treeBuilder p).

(** What the parser asks of the tree builder: to process a token, or to fail. *)
Class TreeConstruction : Type := mkConstruction {
  construct : HTMLTreeBuilderState.AtomicHTMLToken -> HTMLTreeBuilderState.HTMLTreeBuilder -> option (unit * HTMLTreeBuilderState.HTMLTreeBuilder)
}.

(** What the document answers to the tree builder while a token is processed may depend on
    everything that was built before, the changes of the document included. *)
Class Answers : Type := answersAt : HTMLTreeBuilderState.HTMLTreeBuilder -> HTMLTreeBuilderState.Environment.

#[export] Instance treeConstruction `{answers : Answers} : TreeConstruction :=
  mkConstruction (fun token b => HTMLTreeBuilder.constructTree (env := answersAt b) token b).

Section Parser.
Context {page : Page} {env : HTMLTreeBuilderState.Environment} {tree : TreeConstruction} {Src : Type} `{CharSource Src} `{InputSource Src} `{StringSource Src} `{EntityTable}.

(** ** Operations over [call] *)

Section Operations.
Variable call : forall A, Call A -> P (Src := Src) A.

Definition isWaitingForScripts : P (Src := Src) bool :=
  let! p := get in
  assert (fun _ => negb (treeBuilderHasScript p && runnerHasScript p)) ;;
  ret (treeBuilderHasScript p || runnerHasScript p).

Definition shouldDelayEnd : P (Src := Src) bool :=
  let! p := get in
  if inPumpSession p then ret true
  else let! waiting := isWaitingForScripts in ret (waiting || isScheduled p || isExecutingScript p).

Definition parserHasInsertionPoint (p : HTMLDocumentParser Src) : bool :=
  hasInsertionPoint (m_input p) || (m_wasCreatedByScript p && negb (haveSeenEndOfFile (m_input p))).

Definition detach : P (Src := Src) unit :=
  modify (fun p => set_parserScheduler None (set_insertionPreloadScanner None (set_preloadScanner None (set_scriptRunner (detachRunner <$> m_scriptRunner p) (set_state DetachedState p))))).

Definition stopParsing : P (Src := Src) unit := modify (fun p => set_parserScheduler None (set_state StoppedState p)).

(** *** Pumping *)

Definition runScriptsForPausedTreeBuilder : P (Src := Src) unit :=
  assert (fun p => HTMLConstructionSite.scriptingContentIsAllowed (HTMLConstructionSite.m_parserContentPolicy (HTMLTreeBuilderState.m_tree (m_treeBuilder p)))) ;;
  let! script := ask (fun p => HTMLTreeBuilder.takeScriptToProcess (m_treeBuilder p)) in
  modify (set_treeBuilder (snd script)) ;;
  let! p := get in
  match m_scriptRunner p with Some _ => execute call (fst script) | None => ret tt end.

(** The part of [canTakeNextToken] about scripts: whether to go on. *)
Definition runWaitingScript (mode : SynchronousMode) (session : PumpSession) : P (Src := Src) (bool * PumpSession) :=
  let! p := get in
  let! session := (match mode with
    | AllowYield => let! _ := ask m_parserScheduler in ret (checkForYieldBeforeScript (needsFirstPaint (world p)) (isLayoutTimerActive (world p)) session)
    | ForceSynchronous => ret session
    end) in
  if needsYield session then ret (false, session)
  else
    runScriptsForPausedTreeBuilder ;;
    let! waiting := isWaitingForScripts in
    let! p := get in
    ret (negb (waiting || isStopped p), session).

Definition canTakeNextToken (mode : SynchronousMode) (session : PumpSession) : P (Src := Src) (bool * PumpSession) :=
  let! p := get in
  if isStopped p then ret (false, session)
  else
    let! waiting := isWaitingForScripts in
    let! ready := (if waiting then runWaitingScript mode session else ret (true, session)) in
    let '(goOn, session) := ready in
    if negb goOn then ret (false, session)
    else
      let! p := get in
      if negb (isParsingFragment p) && locationChangePending (world p) then ret (false, session)
      else
        match mode with
        | AllowYield =>
            let! scheduler := ask m_parserScheduler in
            let '(session, w) := checkForYieldBeforeToken monotonicallyIncreasingTime scheduler session (world p) in
            modify (set_world w) ;; ret (true, session)
        | ForceSynchronous => ret (true, session)
        end.

(** The tokenizer as the tree builder sees it, and what the tree builder has done to it. *)
Definition lendTokenizer (t : HTMLTokenizer) (b : HTMLTreeBuilderState.HTMLTreeBuilder) : HTMLTreeBuilderState.HTMLTreeBuilder :=
  HTMLTreeBuilderState.set_tokenizer (Some (HTMLTokenizer.m_state t, m_forceNullCharacterReplacement t, m_shouldAllowCDATA t)) b.

Definition takeTokenizer (b : HTMLTreeBuilderState.HTMLTreeBuilder) (t : HTMLTokenizer) : HTMLTokenizer :=
  match HTMLTreeBuilderState.tokenizer b with
  | None => t
  | Some (st, f, c) =>
      mkTokenizer st f c (m_token t) (m_additionalAllowedCharacter t) (m_inputStreamPreprocessor t) (m_appropriateEndTagName t) (m_temporaryBuffer t) (m_bufferedEndTagName t) (HTMLTokenizer.m_options t)
  end.

Definition constructTreeFromHTMLToken : P (Src := Src) unit :=
  let! token := ask (fun p => AtomicHTMLToken.atomicToken (m_token (m_tokenizer p))) in
  let '(token, raw) := token in
  modify (fun p => set_tokenizer (HTMLTokenizer.set_token (if HTMLToken.hasType HTMLToken.Character raw then raw else HTMLToken.clear raw) (m_tokenizer p)) p) ;;
  (fun p =>
     let b := lendTokenizer (m_tokenizer p) (m_treeBuilder p) in
     match construct (TreeConstruction := tree) token b with
     | None => Failed (TreeBuilderFailed token b)
     | Some (_, b) => Ok tt (set_treeBuilder b (set_tokenizer (takeTokenizer b (m_tokenizer p)) p))
     end) ;;
  let! p := get in
  if HTMLToken.isUninitialized (m_token (m_tokenizer p)) then ret tt
  else
    assert (fun p => HTMLToken.hasType HTMLToken.Character (m_token (m_tokenizer p))) ;;
    modify (fun p => set_tokenizer (HTMLTokenizer.set_token (HTMLToken.clear (m_token (m_tokenizer p))) (m_tokenizer p)) p).

(** One round of the loop of [pumpTokenizer]. *)
Definition pumpRound (mode : SynchronousMode) (session : PumpSession) : P (Src := Src) PumpSession :=
  let! taken := canTakeNextToken mode session in
  let '(take, session) := taken in
  if negb take || needsYield session then ret session
  else
    let! p := get in
    let! next := ask (fun p => nextToken (m_tokenizer p) (current (m_input p))) in
    let '(emitted, t, s) := next in
    modify (fun p => set_input (set_first s (m_input p)) (set_tokenizer t p)) ;;
    if negb emitted then ret session
    else
      constructTreeFromHTMLToken ;;
      assert (fun p => HTMLToken.isUninitialized (m_token (m_tokenizer p))) ;;
      call PumpSession (CallPump mode session).

Definition newScanner (p : HTMLDocumentParser Src) : HTMLTokenizer * Src := (newTokenizer HTMLTreeBuilderState.m_options, emptySource).

(** What [pumpTokenizer] does after its loop. *)
Definition afterPumping (session : PumpSession) : P (Src := Src) unit :=
  let! p := get in
  if isStopped p then ret tt
  else
    (if needsYield session
     then let! scheduler := ask (fun p => match m_parserScheduler p with Some s => scheduleForResume s | None => None end) in modify (set_parserScheduler (Some scheduler))
     else ret tt) ;;
    let! waiting := isWaitingForScripts in
    if negb waiting then ret tt
    else
      assert (fun p => bool_decide (HTMLTokenizer.m_state (m_tokenizer p) = DataState)) ;;
      let! p := get in
      let! scanner := (match m_preloadScanner p with
        | Some scanner => ret scanner
        | None => ask (fun p => scannerAppend (current (m_input p)) (newScanner p))
        end) in
      let! scanner := ask (fun _ => scannerScan scanner) in
      modify (set_preloadScanner (Some scanner)).

Definition pumpTokenizer (mode : SynchronousMode) : P (Src := Src) unit :=
  assert (fun p => negb (isStopped p)) ;;
  assert (fun p => negb (isScheduled p)) ;;
  modify (fun p => set_pumpSessionNestingLevel (S (m_pumpSessionNestingLevel p)) p) ;;
  let! session := call PumpSession (CallPump mode newSession) in
  afterPumping session ;;
  modify (fun p => set_pumpSessionNestingLevel (Nat.pred (m_pumpSessionNestingLevel p)) p).

Definition pumpTokenizerIfPossible (mode : SynchronousMode) : P (Src := Src) unit :=
  let! p := get in
  if isStopped p then ret tt
  else
    let! waiting := isWaitingForScripts in
    if waiting then ret tt
    else if isScheduled p then assert (fun _ => match mode with AllowYield => true | ForceSynchronous => false end)
    else pumpTokenizer mode.

(** *** Ending *)

Definition end_ : P (Src := Src) unit :=
  assert (fun p => negb (isDetached p)) ;;
  assert (fun p => negb (isScheduled p)) ;;
  let! b := ask (fun p => HTMLTreeBuilder.finished (m_treeBuilder p)) in
  let! p := get in
  if isParsingFragment p then ret tt
  else
    modify (fun p => set_document (mkDocument (m_writeRecursionDepth (document p)) (m_writeRecursionIsTooDeep (document p)) (m_ignoreDestructiveWriteCount (document p)) true) p) ;;
    occasion call FinishedParsing.

Definition attemptToRunDeferredScriptsAndEnd : P (Src := Src) unit :=
  assert (fun p => bool_decide (m_state p = StoppingState)) ;;
  assert (fun p => negb (parserHasInsertionPoint p)) ;;
  let! p := get in
  let! done := (match m_scriptRunner p with Some _ => executeScriptsWaitingForParsing call | None => ret true end) in
  if done then end_ else ret tt.

Definition prepareToStopParsing : P (Src := Src) unit :=
  assert (fun p => negb (parserHasInsertionPoint p)) ;;
  pumpTokenizerIfPossible ForceSynchronous ;;
  let! p := get in
  if isStopped p then ret tt
  else
    assert (fun p => bool_decide (m_state p = ParsingState)) ;;
    modify (set_state StoppingState) ;;
    (match m_scriptRunner p with Some _ => occasion call ReadyStateInteractive | None => ret tt end) ;;
    let! p := get in
    if isDetached p then ret tt else attemptToRunDeferredScriptsAndEnd.

Definition attemptToEnd : P (Src := Src) unit :=
  let! delay := shouldDelayEnd in
  if delay then modify (set_endWasDelayed true) else prepareToStopParsing.

Definition endIfDelayed : P (Src := Src) unit :=
  let! p := get in
  if isDetached p then ret tt
  else if negb (m_endWasDelayed p) then ret tt
  else
    let! delay := shouldDelayEnd in
    if delay then ret tt else modify (set_endWasDelayed false) ;; prepareToStopParsing.

Definition finish : P (Src := Src) unit :=
  let! p := get in
  (if haveSeenEndOfFile (m_input p) then ret tt
   else let! i := ask (fun p => markEndOfFile (m_input p)) in modify (set_input i)) ;;
  attemptToEnd.

(** *** Input *)

Definition insert (is8Bit : bool) (text : list Z) : P (Src := Src) unit :=
  let! p := get in
  if isStopped p then ret tt
  else
    let source := fromString is8Bit text in
    let! i := ask (fun p => insertAtCurrentInsertionPoint (excludeLineNumbers (copySource source)) (m_input p)) in
    modify (set_input i) ;;
    pumpTokenizerIfPossible ForceSynchronous ;;
    let! waiting := isWaitingForScripts in
    (if waiting then
       let! p := get in
       let scanner := match m_insertionPreloadScanner p with Some scanner => scanner | None => newScanner p end in
       let! scanner := ask (fun _ => scannerAppend source scanner) in
       let! scanner := ask (fun _ => scannerScan scanner) in
       modify (set_insertionPreloadScanner (Some scanner))
     else ret tt) ;;
    endIfDelayed.

Definition append (is8Bit : bool) (text : list Z) : P (Src := Src) unit :=
  let! p := get in
  if isStopped p then ret tt
  else
    let source := fromString is8Bit text in
    (match m_preloadScanner p with
     | None => ret tt
     | Some scanner =>
         let! waiting := isWaitingForScripts in
         if isEmpty (current (m_input p)) && negb waiting then modify (set_preloadScanner None)
         else
           let! scanner := ask (fun _ => scannerAppend source scanner) in
           modify (set_preloadScanner (Some scanner)) ;;
           if waiting then let! scanner := ask (fun _ => scannerScan scanner) in modify (set_preloadScanner (Some scanner)) else ret tt
     end) ;;
    let! i := ask (fun p => appendToEnd source (m_input p)) in
    modify (set_input i) ;;
    if inPumpSession p then ret tt
    else pumpTokenizerIfPossible AllowYield ;; endIfDelayed.

(** *** Events *)

Definition resumeParsingAfterYield : P (Src := Src) unit := pumpTokenizer AllowYield ;; endIfDelayed.

Definition resumeParsingAfterScriptExecution : P (Src := Src) unit :=
  assert (fun p => negb (isExecutingScript p)) ;;
  let! waiting := isWaitingForScripts in
  assert (fun _ => negb waiting) ;;
  modify (set_insertionPreloadScanner None) ;;
  pumpTokenizerIfPossible AllowYield ;;
  endIfDelayed.

Definition notifyFinished (resource : Resource) : P (Src := Src) unit :=
  let! p := get in
  assert (fun p => bool_decide (is_Some (m_scriptRunner p))) ;;
  assert (fun p => negb (isExecutingScript p)) ;;
  if bool_decide (m_state p = StoppingState) then attemptToRunDeferredScriptsAndEnd
  else
    executeScriptsWaitingForLoad call resource ;;
    let! waiting := isWaitingForScripts in
    if waiting then ret tt else resumeParsingAfterScriptExecution.

Definition executeScriptsWaitingForStylesheets : P (Src := Src) unit :=
  let! r := runner in
  if negb (m_hasScriptsWaitingForStylesheets r) then ret tt
  else
    runnerScriptsWaitingForStylesheets call ;;
    let! waiting := isWaitingForScripts in
    if waiting then ret tt else resumeParsingAfterScriptExecution.

Definition suspendScheduledTasks : P (Src := Src) unit :=
  let! p := get in
  match m_parserScheduler p with None => ret tt | Some s => let! s := ask (fun _ => suspend s) in modify (set_parserScheduler (Some s)) end.

Definition resumeScheduledTasks : P (Src := Src) unit :=
  let! p := get in
  match m_parserScheduler p with None => ret tt | Some s => let! s := ask (fun _ => resume s) in modify (set_parserScheduler (Some s)) end.

(** *** [Document::write] *)

Definition set_write (depth : nat) (tooDeep : bool) : P (Src := Src) unit :=
  modify (fun p => set_document (mkDocument depth tooDeep (m_ignoreDestructiveWriteCount (document p)) (finishedParsing (document p))) p).

(** [Document::open]: unless the parser is executing a script the document gets another
    parser, which takes the text. *)
Definition openAndWrite (is8Bit : bool) (text : list Z) : P (Src := Src) unit :=
  let! p := get in
  if bool_decide (m_state p = ParsingState) && (isExecutingScript p || (negb (m_wasCreatedByScript p) && parserHasInsertionPoint p))
  then insert is8Bit text else detach.

Definition write (is8Bit : bool) (text : list Z) : P (Src := Src) unit :=
  let! p := get in
  if isDetached p then ret tt
  else
    let depth := S (m_writeRecursionDepth (document p)) in
    let tooDeep := (cMaxWriteRecursionDepth <? depth)%nat || ((1 <? depth)%nat && m_writeRecursionIsTooDeep (document p)) in
    set_write depth tooDeep ;;
    (if tooDeep then ret tt
     else if parserHasInsertionPoint p then insert is8Bit text
     else if negb (m_ignoreDestructiveWriteCount (document p) =? 0)%nat then ret tt
     else openAndWrite is8Bit text) ;;
    let! p := get in
    set_write (Nat.pred (m_writeRecursionDepth (document p))) (m_writeRecursionIsTooDeep (document p)).

(** ** Scripts *)

Definition act (a : Action) : P (Src := Src) unit :=
  match a with
  | Nothing => ret tt
  | Write b text => write b text
  | Receive b text => append b text
  | Finish => finish
  | Stop => stopParsing
  | Detach => detach
  | StylesheetsLoaded => executeScriptsWaitingForStylesheets
  end.

Fixpoint performSteps (script : Script) : P (Src := Src) unit :=
  match script with
  | [] => ret tt
  | step :: script =>
      let! p := get in
      let '(a, w) := step (world p) in
      modify (set_world w) ;; act a ;; performSteps script
  end.

End Operations.

(** ** Tying the knot *)

Fixpoint run (fuel : nat) (A : Type) (c : Call A) : P (Src := Src) A :=
  match fuel with
  | O => fun _ => OutOfFuel
  | S fuel =>
      match c with
      | CallPerform script => performSteps (run fuel) script
      | CallPump mode session => pumpRound (run fuel) mode session
      | CallBlockingScripts => executeParsingBlockingScripts (run fuel)
      | CallScriptsWaitingForParsing => executeScriptsWaitingForParsing (run fuel)
      end
  end.

(** What happens to a parser; before each event the rest of the world has changed. *)
Inductive Event : Type :=
| Data (is8Bit : bool) (text : list Z)
| EndOfData
| TimerFired
| ResourceLoaded (resource : Resource)
| AllStylesheetsLoaded
| Script_ (script : Script)
| Suspended
| Resumed
| Cancelled
| Closed.

Definition timerFired (call : forall A, Call A -> P (Src := Src) A) : P (Src := Src) unit :=
  let! p := get in
  let! fired := ask (fun p => match m_parserScheduler p with Some s => continueNextChunkTimerFired (isLayoutTimerActive (world p)) s | None => None end) in
  modify (set_parserScheduler (Some (snd fired))) ;;
  if fst fired then resumeParsingAfterYield call else ret tt.

Definition handle (fuel : nat) (e : Event) : P (Src := Src) unit :=
  match e with
  | Data b text => append (run fuel) b text
  | EndOfData => finish (run fuel)
  | TimerFired => timerFired (run fuel)
  | ResourceLoaded x => notifyFinished (run fuel) x
  | AllStylesheetsLoaded => executeScriptsWaitingForStylesheets (run fuel)
  | Script_ script => run fuel unit (CallPerform script)
  | Suspended => suspendScheduledTasks
  | Resumed => resumeScheduledTasks
  | Cancelled => stopParsing
  | Closed => detach
  end.

Fixpoint handleAll (fuel : nat) (events : list (World * Event)) : P (Src := Src) unit :=
  match events with
  | [] => ret tt
  | (w, e) :: events => modify (set_world w) ;; handle fuel e ;; handleAll fuel events
  end.

(** ** Construction *)

Definition newParser (root : ContainerNode) (policy : HTMLConstructionSite.ParserContentPolicy) (maximumDOMTreeDepth : Z) (inQuirksMode createdByScript : bool) (parserTimeLimit : Z) (next : nat) (w : World)
  : HTMLDocumentParser Src :=
  mkParser ParsingState createdByScript newInput (newTokenizer HTMLTreeBuilderState.m_options)
    (HTMLTreeBuilder.newBuilder root policy maximumDOMTreeDepth inQuirksMode (Some (DataState, false, false)) next)
    (Some newRunner) (Some (newScheduler parserTimeLimit)) None None false 0 newDocument w.

Definition newFragmentParser (fragment context : ContainerNode) (form : option ContainerNode) (policy : HTMLConstructionSite.ParserContentPolicy) (maximumDOMTreeDepth : Z) (inQuirksMode : bool) (next : nat) (w : World)
  : option (HTMLDocumentParser Src) :=
  match HTMLTreeBuilder.newFragmentBuilder fragment context form policy maximumDOMTreeDepth inQuirksMode (Some (DataState, false, false)) next with
  | None => None
  | Some b =>
      Some (mkParser ParsingState false newInput
        (HTMLTokenizer.set_state (tokenizerStateForContextElement (Some context) false HTMLTreeBuilderState.m_options) (newTokenizer HTMLTreeBuilderState.m_options))
        b None None None None false 0 newDocument w)
  end.

(** [parseDocumentFragment], for a fragment parser. *)
Definition parseDocumentFragment (fuel : nat) (is8Bit : bool) (source : list Z) : P (Src := Src) unit :=
  insert (run fuel) is8Bit source ;;
  finish (run fuel) ;;
  assert (fun p => negb (isScheduled p || inPumpSession p)) ;;
  detach.

End Parser.
