(* ===== verification/HTMLDocumentParserExamples.v ===== *)
(** * The document parser at work

    Small pages on which the model is evaluated: text that scripts write, parsing in
    chunks, fragments, and four ways in which an assertion of the code fails. *)
From S2P Require Import Prelude CharSource SegmentedString InputStreamPreprocessor HTMLEntitySearch HTMLToken HTMLTokenizer HTMLPreloadScanner HTMLStackItem HTMLElementStack HTMLConstructionSite HTMLTreeBuilderState HTMLTreeBuilder HTMLTreeBuilderExamples AtomicHTMLToken HTMLInputStream HTMLParserScheduler HTMLDocumentParserState HTMLScriptRunner HTMLDocumentParser.
From Stdlib Require Import String ZArith.
From stdpp Require Import base list numbers option.
#[local] Open Scope Z_scope.
Import HTMLStackItem.

(** The world of these pages: the number of scripts that have been prepared, whether
    external scripts are loaded, and the clock. *)
Record ExampleWorld : Type := mkWorld { prepared : nat; allLoaded : bool; clock : Z }.

(** [element n] and [script n] are the flags and the text of the n-th script. *)
Definition examplePage (element : nat -> ScriptElement nat) (script : nat -> list Action) : Page := {|
  World := ExampleWorld;
  Resource := nat;
  haveStylesheetsLoaded _ := true;
  isLoaded _ w := allLoaded w;
  errorOccurred _ _ := false;
  locationChangePending _ := false;
  needsFirstPaint _ := false;
  isLayoutTimerActive _ := false;
  monotonicallyIncreasingTime w := (clock w, mkWorld (prepared w) (allLoaded w) (clock w + 1000));
  scriptElement _ w := element (prepared w);
  scripts o w :=
    match o with
    | PrepareScript _ => (map (fun a w => (a, w)) (script (prepared w)), mkWorld (S (prepared w)) (allLoaded w) (clock w))
    | _ => ([], w)
    end
|}.

Definition inlineScript : ScriptElement nat := mkScriptElement false false false None.
Definition externalScript : ScriptElement nat := mkScriptElement true false false (Some 0%nat).
Definition deferredScript : ScriptElement nat := mkScriptElement true true false (Some 0%nat).

#[local] Existing Instance exampleEnvironment.
#[local] Instance sameAnswers : Answers := fun _ => exampleEnvironment.
#[local] Existing Instance exampleTable.
#[local] Instance exampleFold : FoldCase := asciiFold.

Definition exampleParser (page : Page) (createdByScript : bool) (limit : Z) (w : World) : HTMLDocumentParser SegmentedString :=
  newParser exampleDocument HTMLConstructionSite.AllowScriptingContent 512 false createdByScript limit 1 w.

(** The texts that were inserted, with the names of their parents. *)
Definition insertedTexts (b : HTMLTreeBuilderState.HTMLTreeBuilder) : list (list Z * list Z) :=
  concat (map (fun c => match c with HTMLTreeBuilderState.TextInserted parent _ l => [(localNameOf (nodeName parent), l)] | _ => [] end) (HTMLTreeBuilderState.document b)).

Definition outcomeOf {page : Page} (r : Result SegmentedString unit) : option (ParserState * bool * list (list Z * list Z)) :=
  match r with
  | Ok _ p => Some (m_state p, finishedParsing (document p), insertedTexts (m_treeBuilder p))
  | _ => None
  end.

(** A session of a new parser. *)
Definition session (page : Page) (createdByScript : bool) (limit : Z) (fuel : nat) (w : World) (events : list (World * Event)) : Result SegmentedString unit :=
  handleAll fuel events (exampleParser page createdByScript limit w).

Definition w0 : ExampleWorld := mkWorld 0 false 1.

(** What a script writes is parsed before the rest of the document, even when it ends in
    the middle of a tag, and the document ends. *)
Definition writingPage : Page := examplePage (fun _ => inlineScript) (fun n => match n with O => [Write true (lit "<i>a</"); Write false (lit "i>b<u")] | _ => [] end).

Example writes_before_rest :
  outcomeOf (page := writingPage) (session writingPage false 100000 60 w0 [(w0, Data true (lit "<p>x<scr")); (w0, Data true (lit "ipt>1</script>l>y")); (w0, EndOfData)]) =
  Some (StoppingState, true, [(lit "p", lit "x"); (lit "script", lit "1"); (lit "i", lit "a"); (lit "p", lit "b"); (lit "ul", lit "y")]).
Proof. vm_compute. reflexivity. Qed.

(** A script that writes itself stops at the limit of nested writes. *)
Definition recursivePage : Page := examplePage (fun _ => inlineScript) (fun _ => [Write true (lit "<script>1</script>")]).

Example nested_writes_end :
  (fun o => match o with Some (st, f, l) => Some (st, f, length l) | None => None end)
    (outcomeOf (page := recursivePage) (session recursivePage false 100000 200 w0 [(w0, Data true (lit "<script>1</script>")); (w0, EndOfData)])) =
  Some (StoppingState, true, 22%nat).
Proof. vm_compute. reflexivity. Qed.

(** An external script blocks the parser until it is loaded. *)
Definition externalPage : Page := examplePage (fun _ => externalScript) (fun _ => []).

Example external_script_blocks :
  outcomeOf (page := externalPage) (session externalPage false 100000 60 w0 [(w0, Data true (lit "<script></script>x")); (w0, EndOfData)]) = Some (ParsingState, false, []) /\
  outcomeOf (page := externalPage) (session externalPage false 100000 60 w0 [(w0, Data true (lit "<script></script>x")); (w0, EndOfData); (mkWorld 1 true 1, @ResourceLoaded externalPage 0%nat)]) =
    Some (StoppingState, true, [(lit "body", lit "x")]).
Proof. split; vm_compute; reflexivity. Qed.

(** The contents of a title as a fragment. *)
Definition titleElement : ContainerNode := mkNode 90 (htmlName "title") true.

Example fragment_of_title :
  match newFragmentParser (page := externalPage) (Src := SegmentedString) (mkNode 91 (mkName (lit "#document-fragment") None) false) titleElement None HTMLConstructionSite.AllowScriptingContent 512 false 100 w0 with
  | Some p => outcomeOf (parseDocumentFragment 20 true (lit "a<b>c") p)
  | None => None
  end = Some (DetachedState, false, [(lit "#document-fragment", lit "a<b>c")]).
Proof. vm_compute. reflexivity. Qed.

(** *** Failures *)

Definition fails {page : Page} (r : Result SegmentedString unit) : bool := match r with Failed AssertionFailed => true | _ => false end.

(** [finish] is called twice while a deferred script is not loaded. *)
Definition deferredPage : Page := examplePage (fun _ => deferredScript) (fun _ => []).

Example finish_twice_fails :
  outcomeOf (page := deferredPage) (session deferredPage false 100000 60 w0 [(w0, Data true (lit "<script></script>")); (w0, EndOfData)]) = Some (StoppingState, false, []) /\
  fails (page := deferredPage) (session deferredPage false 100000 60 w0 [(w0, Data true (lit "<script></script>")); (w0, EndOfData); (w0, EndOfData)]) = true.
Proof. split; vm_compute; reflexivity. Qed.

(** While an external script is prepared, a listener writes another one. *)
Definition listenerPage : Page := examplePage (fun _ => externalScript) (fun n => match n with O => [Write true (lit "<script></script>")] | _ => [] end).

Example write_while_preparing_fails :
  fails (page := listenerPage) (session listenerPage false 100000 60 w0 [(w0, Data true (lit "<script></script>"))]) = true.
Proof. vm_compute. reflexivity. Qed.

(** A script writes into a document that was opened by a script and has yielded. *)
Definition openedPage : Page := examplePage (fun _ => externalScript) (fun _ => []).

Example write_while_scheduled_fails :
  fails (page := openedPage) (session openedPage true 500 60 w0 [(w0, @Script_ openedPage [fun w => (Write true (lit "<script></script>x"), w)]);
    (mkWorld 1 true 1, @ResourceLoaded openedPage 0%nat); (mkWorld 1 true 5000, @Script_ openedPage [fun w => (Write true (lit "y"), w)])]) = true.
Proof. vm_compute. reflexivity. Qed.

(** The end of the file comes within a markup declaration in a template: the tokenizer
    waits for more and does not return it, and the template stays open. *)
Example declaration_in_template_fails :
  fails (page := openedPage) (session openedPage false 100000 60 w0 [(w0, Data true (lit "<template><!d")); (w0, EndOfData)]) = true.
Proof. vm_compute. reflexivity. Qed.
