(* ===== verification/HTMLDocumentParserCoupling.v ===== *)
(** * The tokenizer and the tree builder together

    The document parser gives the tokens of the tokenizer to the tree builder, which
    changes the state of the tokenizer.  As long as both stay as they leave each other, the
    tree builder gets no token that it cannot process, three kinds of start tags aside:
    what it requires of tokens in the text of an element is what the tokenizer returns
    there. *)
From S2P Require Import Prelude CharSource HTMLToken InputStreamPreprocessor HTMLEntitySearch HTMLEntityParser HTMLEntityFacts HTMLTokenizer HTMLTokenizerRules HTMLTokenizerSafety HTMLTokenizerCaptive.
From S2P Require Import CompatibilityMode HTMLStackItem HTMLElementStack HTMLFormattingElementList HTMLConstructionSite CSSPreloadScanner HTMLTreeBuilderState HTMLTreeBuilder HTMLTreeBuilderKinds HTMLTreeBuilderSite HTMLTreeBuilderRules HTMLTreeBuilderBody HTMLTreeBuilderStates HTMLTreeBuilderMoves HTMLTreeBuilderStart HTMLTreeBuilderModes HTMLTreeBuilderTags HTMLTreeBuilderDocument HTMLTreeBuilderTokenizer HTMLTreeBuilderSafety.
From S2P Require Import AtomicHTMLToken HTMLInputStream HTMLParserScheduler HTMLDocumentParserState HTMLScriptRunner HTMLDocumentParser.
From Stdlib Require Import String ZArith Lia.
From stdpp Require Import base list numbers option.
#[local] Open Scope Z_scope.
Import HTMLStackItem HTMLElementStack HTMLConstructionSite HTMLTreeBuilderState HTMLTreeBuilder.
Module Tok := HTMLTokenizer.
Module Raw := HTMLToken.HTMLToken.

(** ** Tokens that the tree builder cannot process *)

(** A frameset in a template, a column in a template in which something else is open, and
    an isindex element with an empty prompt. *)
Definition unsupported (token : AtomicHTMLToken) (b : HTMLTreeBuilder) : bool :=
  match token with
  | StartTag token =>
      isTag (tokenName token) "frameset" && negb (bool_decide (m_templateInsertionModes b = []))
      || isTag (tokenName token) "col" && bool_decide (m_insertionMode b = TemplateContents)
         && negb (match topStackItem (m_openElements (m_tree b)) with Some item => hasTagName item (htmlName "template") | None => false end)
      || isTag (tokenName token) "isindex" && match tokenAttribute token "prompt" with Some a => bool_decide (attributeValue a = []) | None => false end
  | _ => false
  end.

Lemma supported_permitted token b : NoDup (map attributeName (tokenAttributes token)) -> m_insertionMode b <> Text -> unsupported (StartTag token) b = false -> permitted token b.
Proof.
  intros Hd Hm Hu. cbn [unsupported] in Hu. rewrite !orb_false_iff in Hu. destruct Hu as [[U1 U2] U3]. constructor; [constructor; [done|]|done|..].
  - intros E a Ea. apply isTag_eq in E. rewrite E, Ea in U3. cbn in U3. by apply bool_decide_eq_false in U3.
  - intros E. apply isTag_eq in E. rewrite E in U1. cbn in U1. by apply negb_false_iff, bool_decide_eq_true in U1.
  - intros E Em. apply isTag_eq in E. rewrite E, bool_decide_eq_true_2 in U2 by done. cbn in U2. destruct (topStackItem _) as [item|]; [|done]. exists item. split; [done|]. by apply negb_false_iff in U2.
Qed.

(** ** The tokenizer between two tokens *)

(** A text is being read, and there is more to come. *)
Definition nowhere : Stream := Stream.of_chars [].

Lemma captive_anywhere name t a : captive name t nowhere -> captive name t a.
Proof. intros [[?|[?|(_ & _ & [? _])]]|?]; [left; by left|left; right; by left|done|by right]. Qed.

Lemma captive_open name t a : st_closed a = false -> captive name t a -> captive name t nowhere.
Proof. intros Hc [[?|[?|(_ & _ & [? _])]]|?]; [left; by left|left; right; by left|congruence|by right]. Qed.

Record coupled (pol : ParserContentPolicy) (t : HTMLTokenizer) (b : HTMLTreeBuilder) (a : Stream) : Prop := mkCoupled {
  coupled_live : Live pol b;
  coupled_ok : tokenizerOK t = true;
  coupled_full : full (Tok.m_token t);
  coupled_text : quiet b \/ exists name, rawName name = true /\ reading name b /\ captive name t a
}.

Lemma coupled_anywhere pol t b a : coupled pol t b nowhere -> coupled pol t b a.
Proof. intros [H1 H2 H3 H4]. constructor; try done. destruct H4 as [?|(name & ? & ? & ?)]; [by left|]. right. exists name. split_and!; try done. by apply captive_anywhere. Qed.

Lemma coupled_open pol t b a : st_closed a = false \/ quiet b -> coupled pol t b a -> coupled pol t b nowhere.
Proof.
  intros Ho [H1 H2 H3 H4]. constructor; try done. destruct H4 as [?|(name & ? & ? & ?)]; [by left|]. destruct Ho as [Ho|?]; [|by left]. right. exists name. split_and!; try done. by apply (captive_open name t a).
Qed.

(** Nothing is left to do. *)
Record idle (t : HTMLTokenizer) : Prop := mkIdle { idle_ok : tokenizerOK t = true; idle_end : pendingEndTag t = false }.

Definition startStates : list State := [DataState; RCDATAState; RAWTEXTState; ScriptDataState; PLAINTEXTState].

(** What the tree builder has done to the tokenizer. *)
Lemma take_state st b t : stateIs st b -> exists f c, takeTokenizer b t =
  Tok.mkTokenizer st f c (Tok.m_token t) (m_additionalAllowedCharacter t) (m_inputStreamPreprocessor t) (m_appropriateEndTagName t) (m_temporaryBuffer t) (m_bufferedEndTagName t) (Tok.m_options t).
Proof. intros (f & c & E). exists f, c. unfold takeTokenizer. by rewrite E. Qed.

(** There is not more to do for the tokenizer than before. *)
Definition noMore (t t' : HTMLTokenizer) : Prop := forall s, (measure t' s <= measure t s)%nat.

Lemma take_text t b : returnOK true t = true -> stateIs (Tok.m_state t) b ->
  tokenizerOK (takeTokenizer b (Tok.set_token (Raw.clear (Tok.m_token t)) t)) = true /\ noMore t (takeTokenizer b (Tok.set_token (Raw.clear (Tok.m_token t)) t)).
Proof. intros [H1 _]%andb_true_iff Hs. destruct (take_state _ _ (Tok.set_token (Raw.clear (Tok.m_token t)) t) Hs) as (f & c & ->). split; [exact H1|]. intros s. by unfold measure. Qed.

Lemma take_start t b st raw : returnOK true t = true -> Raw.m_type (Tok.m_token t) <> Raw.Character -> st ∈ startStates -> stateIs st b ->
  idle (takeTokenizer b (Tok.set_token (Raw.clear raw) t)) /\ noMore t (takeTokenizer b (Tok.set_token (Raw.clear raw) t)).
Proof.
  intros [_ H1]%andb_true_iff Hc Hin Hs. cbn in H1. apply andb_true_iff in H1 as [_ H1]. unfold Raw.hasType in H1. rewrite bool_decide_eq_false_2 in H1 by done. apply lists_eqb_eq in H1.
  destruct (take_state _ _ (Tok.set_token (Raw.clear raw) t) Hs) as (f & c & ->). unfold startStates in Hin. rewrite !elem_of_cons in Hin.
  split; [split|intros s; unfold measure]; unfold tokenizerOK, pendingEndTag, HTMLTokenizerRules.fits; cbn; rewrite H1; destruct Hin as [->|[->|[->|[->|[->|Hin]]]]]; try done; try (by apply not_elem_of_nil in Hin); cbn; change (lists_eqb [] []) with true; cbn; lia.
Qed.

Lemma full_clear raw : full (Raw.clear raw).
Proof. by split_and!. Qed.

(** ** The tree builder on a token *)

Lemma live_noHead pol b : Live pol b -> m_insertionMode b = Text -> ~ headOnTop b.
Proof.
  intros [H|[H|(p & _ & ks & ms & Hst & Hf)]] Hm; [rewrite (early_mode _ _ _ H) in Hm; done..|]. rewrite Hm in Hf. destruct Hf as (_ & k & ks' & -> & Hk & _). intros (r & l & Er & Ht).
  pose proof (st_kinds _ _ _ _ _ _ Hst) as Ek. unfold kinds in Ek. rewrite Er in Ek. cbn in Ek. injection Ek as Ek _.
  assert (Hx : docItem (m_item r)) by (apply (doc_item (m_tree b)); [apply (st_doc _ _ _ _ _ _ Hst)|rewrite Er; apply list_elem_of_here]).
  revert Ht. destruct k; try done; kind_of_item Hx Ek; by vm_compute.
Qed.

Section Step.
Context {env : Environment} `{FoldCase} `{EntityTable}.
Hypothesis Henv : documented env.

(** What holds after a token: at the end of the file everything is closed. *)
Definition afterStep (pol : ParserContentPolicy) (token : AtomicHTMLToken) (t0 t : HTMLTokenizer) (b b' : HTMLTreeBuilder) (a : Stream) : Prop :=
  noMore t0 t /\
  match token with
  | EndOfFile => Stopped b' /\ idle t /\ (Stream.isEmpty a = true /\ st_closed a = true) /\ m_scriptToProcess b' = m_scriptToProcess b
  | _ => coupled pol t b' a /\ (quiet b' \/ m_scriptToProcess b' = m_scriptToProcess b)
  end.

Lemma live_construct pol token b : Live pol b -> acceptable token b -> exists b', constructTree token b = Some (tt, b') /\ match token with EndOfFile => Stopped b' | _ => Live pol b' end.
Proof.
  intros Hl Ha. assert (He : token = EndOfFile \/ token <> EndOfFile) by (destruct token; [by right..|by left]). destruct He as [->|Hne].
  - destruct (wp_total _ _ _ (construct_endOfFile (documented_plugins _ Henv) (documented_text _ Henv) pol b Hl)) as ([] & b' & E & Hs). by exists b'.
  - destruct (wp_total _ _ _ (construct_live (documented_plugins _ Henv) (documented_text _ Henv) (documented_isindex _ Henv) pol b token Hl Ha Hne)) as ([] & b' & E & Hs). exists b'. split; [done|]. by destruct token.
Qed.

Lemma take_token b t : Tok.m_token (takeTokenizer b t) = Tok.m_token t.
Proof. unfold takeTokenizer. by destruct (tokenizer b) as [[[? ?] ?]|]. Qed.

Lemma coupled_calm pol t raw b b0 a : Live pol b -> quiet b -> tokenizerOK (takeTokenizer b (Tok.set_token (Raw.clear raw) t)) = true /\ noMore t (takeTokenizer b (Tok.set_token (Raw.clear raw) t)) ->
  noMore t (takeTokenizer b (Tok.set_token (Raw.clear raw) t)) /\ coupled pol (takeTokenizer b (Tok.set_token (Raw.clear raw) t)) b a /\ (quiet b \/ m_scriptToProcess b = m_scriptToProcess b0).
Proof. intros Hl Hq [Hok Hm]. split; [done|]. split; [|by left]. constructor; [done|done|rewrite take_token; apply full_clear|by left]. Qed.

Lemma idle_more t raw b : idle (takeTokenizer b (Tok.set_token (Raw.clear raw) t)) /\ noMore t (takeTokenizer b (Tok.set_token (Raw.clear raw) t)) ->
  tokenizerOK (takeTokenizer b (Tok.set_token (Raw.clear raw) t)) = true /\ noMore t (takeTokenizer b (Tok.set_token (Raw.clear raw) t)).
Proof. intros [[] ?]. by split. Qed.

(** A token outside of text. *)
Lemma quiet_step pol t b a token raw : Live pol b -> quiet b -> returnOK true t = true -> emitted t a -> AtomicHTMLToken.atomicToken (Tok.m_token t) = Some (token, raw) -> unsupported token b = false ->
  exists b', constructTree token (lendTokenizer t b) = Some (tt, b') /\ afterStep pol token t (takeTokenizer b' (Tok.set_token (Raw.clear raw) t)) b b' a.
Proof.
  intros Hl Hq Hr [E1 E2 E3 E4] Ea Hu. set (bl := lendTokenizer t b). assert (Hll : Live pol bl) by (by apply live_tokenizer). assert (Hql : quiet bl) by (destruct Hq; by constructor).
  assert (Hst : stateIs (Tok.m_state t) bl) by (by eexists _, _).
  assert (Hacc : acceptable token bl).
  { unfold AtomicHTMLToken.atomicToken in Ea. destruct (Raw.m_type (Tok.m_token t)) eqn:Et; [done|cbn in Ea; destruct (Raw.m_doctypeData _); [|done]|..]; injection Ea as <- _; try done.
    - apply supported_permitted; [apply AtomicHTMLToken.initializeAttributes_names|by destruct Hq|exact Hu].
    - intros Em. by destruct Hq.
    - by apply E1. }
  destruct (live_construct pol token bl Hll Hacc) as (b' & E & Hl'). exists b'. split; [done|]. pose proof (constructTree_reaction token bl tt b' _ Hql Hst E) as Hreact.
  assert (Hdata : Raw.m_type (Tok.m_token t) <> Raw.Character -> stateIs DataState bl) by (intros Hc; destruct E2 as [?|E2]; [done|by rewrite <- E2]).
  assert (Hidle : forall st, Raw.m_type (Tok.m_token t) <> Raw.Character -> st ∈ startStates -> stateIs st b' -> idle (takeTokenizer b' (Tok.set_token (Raw.clear raw) t)) /\ noMore t (takeTokenizer b' (Tok.set_token (Raw.clear raw) t))) by (intros st Hc Hin Hs; by apply (take_start t b' st)).
  assert (Hd : DataState ∈ startStates) by apply list_elem_of_here.
  unfold AtomicHTMLToken.atomicToken in Ea. destruct (Raw.m_type (Tok.m_token t)) eqn:Et; [done|cbn in Ea; destruct (Raw.m_doctypeData _); [|done]|..]; injection Ea as <- <-; cbn [afterStep] in *;
    [|destruct Hreact as [(H1 & H2 & H3)|[Hbeg|(_ & _ & H1 & H2)]]|..]; try (destruct E2 as [?|E2]; [done|]; rewrite E2 in *).
  - destruct Hreact as (H1 & H2 & _). apply coupled_calm; [done|done|]. by apply idle_more, (Hidle DataState).
  - apply coupled_calm; [done|done|]. apply idle_more. destruct H2 as [H2|H2]; [by apply (Hidle DataState)|]. apply (Hidle PLAINTEXTState); [done|do 4 right; by apply list_elem_of_here|done].
  - destruct Hbeg as [B1 B2 B3 B4 B5 (st & Bst & B6) B7]. assert (Hin : st ∈ startStates) by (unfold startStates; rewrite !elem_of_cons; destruct Bst as [->|[->| ->]]; tauto).
    destruct (Hidle st) as [[Hi _] Hmore]; [done|done|done|]. split; [done|]. split; [|right; exact B5]. constructor; [done|done|rewrite take_token; apply full_clear|]. right. exists (tokenName (mkToken (Raw.m_data (Tok.m_token t)) (AtomicHTMLToken.initializeAttributes (Raw.m_attributes (Tok.m_token t))) (Raw.m_selfClosing (Tok.m_token t)))).
    split_and!; [done|constructor; try done; destruct B7 as [?|B7]; [done|]; by apply (live_noHead pol b') in B7|]. left. left. destruct (take_state st b' (Tok.set_token (Raw.clear (Tok.m_token t)) t) B6) as (f & c & ->). cbn. split; [by destruct Bst as [->|[->| ->]]|by apply E3].
  - apply coupled_calm; [done|done|]. by apply idle_more, (Hidle DataState).
  - destruct Hreact as (H1 & H2). apply coupled_calm; [done|done|]. by apply idle_more, (Hidle DataState).
  - destruct Hreact as (H1 & H2 & _). apply coupled_calm; [done|done|]. by apply idle_more, (Hidle DataState).
  - destruct Hreact as (H1 & H2 & _). apply coupled_calm; [done|done|]. by apply take_text.
  - destruct Hreact as (H1 & H2 & H3). destruct (Hidle DataState) as [Hi Hmore]; [done|done|done|]. split_and!; [done|done|done|by apply E4|by apply E4|exact H3].
Qed.

(** A token in a text. *)
Lemma reading_step pol name t0 a0 t b a token raw : Live pol b -> rawName name = true -> reading name b -> tokenizerOK t0 = true -> full (Tok.m_token t0) -> captive name t0 a0 -> nextToken t0 a0 = Some (true, t, a) ->
  returnOK true t = true -> emitted t a -> AtomicHTMLToken.atomicToken (Tok.m_token t) = Some (token, raw) ->
  exists b', constructTree token (lendTokenizer t b) = Some (tt, b') /\ afterStep pol token t (takeTokenizer b' (Tok.set_token (Raw.clear raw) t)) b b' a.
Proof.
  intros Hl Hn Hq Hok Hf Hc En Hr Hem Ea. set (bl := lendTokenizer t b). assert (Hll : Live pol bl) by (by apply live_tokenizer). assert (Hql : reading name bl) by (destruct Hq; by constructor).
  assert (Hst : stateIs (Tok.m_state t) bl) by (by eexists _, _). assert (Hne : name <> []) by (by intros ->).
  assert (Hd : DataState ∈ startStates) by apply list_elem_of_here. destruct Hem as [E1 E2 E3 E4].
  pose proof (nextToken_held name t0 a0 Hne Hok Hf Hc) as Hcap. unfold post in Hcap. rewrite En in Hcap. cbn in Hcap. unfold allowedToken in Hcap. unfold AtomicHTMLToken.atomicToken in Ea.
  destruct (Raw.m_type (Tok.m_token t)) eqn:Ht; try done; injection Ea as <- <-; cbn [afterStep]; try (destruct E2 as [?|E2]; [done|]; rewrite E2 in * ).
  - assert (Hacc : acceptable (EndTag (Raw.m_data (Tok.m_token t))) bl).
    { intros _ En'. change HTMLToken.m_data with Raw.m_data in Hcap. rewrite Hcap in En'. split; [rewrite <- En'; by apply (reading_top _ _ Hql)|]. unfold scriptEnds. cbn. by left. }
    destruct (live_construct pol (EndTag (Raw.m_data (Tok.m_token t))) bl Hll Hacc) as (b' & E & Hl'). exists b'. split; [done|]. destruct (constructTree_reading _ _ _ _ _ _ Hql Hst E) as (R1 & R2). apply coupled_calm; [done|done|].
    apply idle_more, (take_start t b' DataState); [done|congruence|done|]. by destruct R2.
  - assert (Hacc : acceptable (Character (Raw.m_data (Tok.m_token t))) bl) by (by apply E1).
    destruct (live_construct pol (Character (Raw.m_data (Tok.m_token t))) bl Hll Hacc) as (b' & E & Hl'). exists b'. split; [done|]. destruct (constructTree_reading _ _ _ _ _ _ Hql Hst E) as (R1 & R2 & R3).
    destruct (take_text t b' Hr R2) as [Ht1 Ht2]. split; [done|]. split; [|by right]. constructor; [done|done|rewrite take_token; apply full_clear|]. right. exists name. split_and!; [done|done|].
    destruct (take_state _ b' (Tok.set_token (Raw.clear (Tok.m_token t)) t) R2) as (f & c & ->). left. exact Hcap.
  - destruct (live_construct pol EndOfFile bl Hll I) as (b' & E & Hl'). exists b'. split; [done|]. destruct (constructTree_reading _ _ _ _ _ _ Hql Hst E) as (R1 & R2). destruct (take_start t b' DataState (Tok.m_token t)) as [Hi Hmore]; [done|congruence|done|done|].
    split_and!; [done|done|done|by apply E4|by apply E4|exact R2].
Qed.

(** One token. *)
Lemma token_step pol t0 b a0 t a token raw : coupled pol t0 b a0 -> nextToken t0 a0 = Some (true, t, a) -> AtomicHTMLToken.atomicToken (Tok.m_token t) = Some (token, raw) -> unsupported token b = false ->
  exists b', constructTree token (lendTokenizer t b) = Some (tt, b') /\ afterStep pol token t (takeTokenizer b' (Tok.set_token (Raw.clear raw) t)) b b' a.
Proof.
  intros [Hl Hok Hf Ht] En Ea Hu. pose proof (nextToken_ok t0 a0 Hok) as Hr. pose proof (nextToken_emits t0 a0 Hf) as He. unfold HTMLTokenizerRules.wp in Hr. unfold post in He. rewrite En in Hr, He. destruct Hr as [Hr _].
  destruct Ht as [Hq|(name & Hn & Hq & Hc)]; [by apply quiet_step|by apply (reading_step pol name t0 a0)].
Qed.

(** No token yet. *)
Lemma wait_step pol t0 b a0 t a : coupled pol t0 b a0 -> nextToken t0 a0 = Some (false, t, a) -> coupled pol t b a.
Proof.
  intros [Hl Hok Hf Ht] En. pose proof (nextToken_ok t0 a0 Hok) as Hr. pose proof (nextToken_emits t0 a0 Hf) as He. unfold HTMLTokenizerRules.wp in Hr. unfold post in He. rewrite En in Hr, He. destruct Hr as [Hr _].
  unfold returnOK in Hr. apply andb_true_iff in Hr as [Hr _]. constructor; [done|done|done|]. destruct Ht as [Hq|(name & Hn & Hq & Hc)]; [by left|]. right. exists name. split_and!; [done|done|].
  assert (Hne : name <> []) by (by intros ->). pose proof (nextToken_held name t0 a0 Hne Hok Hf Hc) as Hcap. unfold post in Hcap. by rewrite En in Hcap.
Qed.

End Step.
