(* ===== verification/HTMLDocumentParserSafety.v ===== *)
(** * What the document parser gives to the tree builder

    However data arrives, whatever scripts write, and wherever the parser is interrupted:
    the tree builder of a document gets tokens that it can process, until a token comes
    that is [unsupported].  The invariant couples the tokenizer and the tree builder; at
    the end of the file, when nothing can be written any more, it is weaker.  A parser
    whose tree builder takes no unsupported token does the same as the real one until such
    a token comes: the tree builder of a document fails only when it has got an
    unsupported token. *)
From S2P Require Import Prelude CharSource SegmentedString SegmentedStringRefinement HTMLToken InputStreamPreprocessor HTMLEntitySearch HTMLEntityParser HTMLEntityFacts HTMLTokenizer HTMLTokenizerRules HTMLTokenizerSafety HTMLTokenizerCaptive HTMLPreloadScanner.
From S2P Require Import HTMLTokenizerCaptive HTMLTokenizerRefinement HTMLPreloadScannerSafety HTMLStackItem HTMLElementStack HTMLConstructionSite HTMLTreeBuilderState HTMLTreeBuilder HTMLTreeBuilderExamples HTMLTreeBuilderDocument HTMLTreeBuilderSafety HTMLTreeBuilderTokenizer AtomicHTMLToken.
From S2P Require Import HTMLParserScheduler HTMLInputStream HTMLInputStreamProps HTMLDocumentParserState HTMLScriptRunner HTMLDocumentParser HTMLDocumentParserExamples HTMLDocumentParserCoupling.
From Stdlib Require Import String ZArith Lia.
From stdpp Require Import base list numbers option.
#[local] Open Scope Z_scope.
#[local] Open Scope parser_scope.
Import Parser.
Module Tree := HTMLTreeBuilderState.

(** ** A tree builder that takes no unsupported token *)

Definition strictConstruction {answers : Answers} : TreeConstruction :=
  mkConstruction (fun token b => if unsupported token b then None else HTMLTreeBuilder.constructTree (env := answersAt b) token b).

(** ** What is known of a page *)

Definition actionCodes (a : Action) : Prop :=
  match a with
  | Write _ text | Receive _ text => codes text
  | _ => True
  end.

(** What the callbacks of mutation observers do to the parser: they stop or replace the
    document, or they write, unless the parser was created by a script. *)
Definition mutationAction (created : bool) (a : Action) : Prop :=
  match a with
  | Nothing | Stop | Detach => True
  | Write _ text => created = false /\ codes text
  | _ => False
  end.

Definition stepsDo {page : Page} (P : Action -> Prop) (script : Script) : Prop := Forall (fun step => forall w, P (fst (step w))) script.

Record pageOK (created : bool) (page : Page) : Prop := mkPageOK {
  page_codes : forall o w, stepsDo actionCodes (fst (scripts o w));
  page_mutations : forall w, stepsDo (mutationAction created) (fst (scripts DeliverMutations w))
}.

Definition eventCodes {page : Page} (e : Event) : Prop :=
  match e with
  | Data _ text => codes text
  | Script_ script => stepsDo actionCodes script
  | _ => True
  end.

(** ** The invariant *)

Section Safety.
Context {page : Page} {env : Tree.Environment} {answers : Answers} `{HF : FoldCase} `{HT : EntityTable} `{HTO : !EntityTableOK}.
Hypothesis Henv : forall b, documented (answersAt b).
Variable created : bool.
Hypothesis Hpage : pageOK created page.

#[local] Existing Instance strictConstruction.
#[local] Abbreviation Parser := (HTMLDocumentParser SegmentedString).

Definition active (p : Parser) : Prop := exists pol, coupled pol (m_tokenizer p) (m_treeBuilder p) nowhere.

Definition noScripts (p : Parser) : Prop := treeBuilderHasScript p = false /\ runnerHasScript p = false.

(** The end of the file is next, or has been processed. *)
Record sealed (p : Parser) : Prop := mkSealed {
  sealed_records : m_records (m_input p) = [];
  sealed_closed : m_closed (m_first (m_input p)) = true;
  sealed_scripts : noScripts p;
  sealed_text : (exists pol, coupled pol (m_tokenizer p) (m_treeBuilder p) (abs (m_first (m_input p)))) \/
    Stopped (m_treeBuilder p) /\ idle (m_tokenizer p) /\ Stream.isEmpty (abs (m_first (m_input p))) = true
}.

(** [n] scripts are being executed. *)
Record Inv (n : nat) (p : Parser) : Prop := mkInv {
  inv_input : inputOK (m_input p);
  inv_records : length (m_records (m_input p)) = n;
  inv_created : m_wasCreatedByScript p = created;
  inv_phase : active p \/ sealed p
}.

(** The result, unless an assertion fails or an unsupported token comes. *)
Definition safe {A} (m : P (Src := SegmentedString) A) (Q : A -> Parser -> Prop) (p : Parser) : Prop :=
  match m p with
  | Ok a p' => Q a p'
  | Failed (TreeBuilderFailed token b) => unsupported token b = true
  | Failed AssertionFailed | OutOfFuel => True
  end.

(** *** Rules *)

Lemma safe_mono {A} (m : P A) (Q Q' : A -> Parser -> Prop) p : safe m Q p -> (forall a p', Q a p' -> Q' a p') -> safe m Q' p.
Proof. unfold safe. destruct (m p) as [a p'|[|token b]|]; auto. Qed.

Lemma safe_bind {A B} (m : P A) (k : A -> P B) Q p : safe m (fun a p' => safe (k a) Q p') p -> safe (bind m k) Q p.
Proof. unfold safe, bind. by destruct (m p) as [a p'|[|token b]|]. Qed.

Lemma safe_use {A B} (m : P A) (k : A -> P B) Q Q' p : safe m Q p -> (forall a p', Q a p' -> safe (k a) Q' p') -> safe (bind m k) Q' p.
Proof. intros H1 H2. apply safe_bind. eapply safe_mono; [exact H1|exact H2]. Qed.

Lemma safe_assert {B} c (k : unit -> P B) Q p : (c p = true -> safe (k tt) Q p) -> safe (bind (assert c) k) Q p.
Proof. intros Hk. unfold safe at 1, bind, assert. destruct (c p); [by apply Hk|done]. Qed.

Lemma safe_ask {A B} f (k : A -> P B) Q p : (forall a, f p = Some a -> safe (k a) Q p) -> safe (bind (ask f) k) Q p.
Proof. intros Hk. unfold safe at 1, bind, ask. destruct (f p) as [a|]; [by apply Hk|done]. Qed.

Definition maintains {A} (m : P (Src := SegmentedString) A) : Prop := forall n p, Inv n p -> safe m (fun _ p' => Inv n p') p.

Lemma maintains_bind {A B} (m : P A) (k : A -> P B) : maintains m -> (forall a, maintains (k a)) -> maintains (bind m k).
Proof. intros Hm Hk n p Hp. eapply safe_use; [by apply Hm|]. intros a p' Hp'. by apply Hk. Qed.

Lemma maintains_ret {A} (a : A) : maintains (ret a).
Proof. by intros n p Hp. Qed.

Lemma maintains_get : maintains get.
Proof. by intros n p Hp. Qed.

Lemma maintains_assert c : maintains (assert c).
Proof. intros n p Hp. unfold safe, assert. by destruct (c p). Qed.

Lemma maintains_ask {A} (f : _ -> option A) : maintains (ask f).
Proof. intros n p Hp. unfold safe, ask. by destruct (f p). Qed.

(** Members that do not matter. *)
Record frame (p p' : Parser) : Prop := mkFrame {
  frame_input : m_input p' = m_input p;
  frame_tokenizer : m_tokenizer p' = m_tokenizer p;
  frame_tree : m_treeBuilder p' = m_treeBuilder p;
  frame_created : m_wasCreatedByScript p' = m_wasCreatedByScript p
}.

Lemma active_frame p p' : frame p p' -> active p -> active p'.
Proof. intros [F1 F2 F3 F4] [pol Ha]. exists pol. by rewrite F2, F3. Qed.

Lemma inv_frame n p p' : frame p p' -> runnerHasScript p' = false \/ runnerHasScript p' = runnerHasScript p \/ active p -> Inv n p -> Inv n p'.
Proof.
  intros Hf Hr [I1 I2 I3 I4]. pose proof Hf as [F1 F2 F3 F4]. constructor; [by rewrite F1|by rewrite F1|by rewrite F4|]. destruct I4 as [I4|[S1 S2 [S3 S4] S5]]; [left; by apply (active_frame p)|].
  destruct Hr as [Hr|[Hr|Hr]]; [right|right|left; by apply (active_frame p)]; (constructor; rewrite ?F1, ?F2, ?F3; try done; split; [unfold treeBuilderHasScript in *; by rewrite F3|congruence]).
Qed.

Lemma inv_deep n p : Inv (S n) p -> active p.
Proof. intros [_ I2 _ [I4|I4]]; [done|]. by rewrite (sealed_records _ I4) in I2. Qed.

Lemma maintains_modify f : (forall p, frame p (f p) /\ (runnerHasScript (f p) = false \/ runnerHasScript (f p) = runnerHasScript p)) -> maintains (modify f).
Proof. intros Hf n p Hp. destruct (Hf p) as [H1 H2]. apply (inv_frame n p); [done|tauto|done]. Qed.

Lemma maintains_runner f : (forall r, hasBlockingScript (f r) = false \/ hasBlockingScript (f r) = hasBlockingScript r) -> maintains (modifyRunner f).
Proof.
  intros Hf. apply maintains_modify. intros p. split; [done|]. unfold runnerHasScript. cbn. destruct (m_scriptRunner p) as [r|]; [|by left]. exact (Hf r).
Qed.

(** The input changes. *)
Lemma maintains_input f : (forall n p i, Inv n p -> f p = Some i -> Inv n (set_input i p)) -> maintains (let! i := ask f in modify (set_input i)).
Proof. intros Hf n p Hp. apply safe_ask. intros i Ei. by apply (Hf n p i). Qed.

Lemma maintains_assoc {A B C} (m : P (Src := SegmentedString) A) (k : A -> P B) (k' : B -> P C) : maintains (bind (bind m k) k') -> maintains (bind m (fun a => bind (k a) k')).
Proof. intros Hm n p Hp. specialize (Hm n p Hp). unfold safe, bind in *. by destruct (m p) as [a p'|[|token b]|]. Qed.

Lemma inv_open n p i : Inv n p -> inputOK i -> length (m_records i) = n -> (m_records (m_input p) = [] -> m_closed (m_first (m_input p)) = false) -> Inv n (set_input i p).
Proof.
  intros [I1 I2 I3 I4] Hi Hn Hc. constructor; try done. destruct I4 as [I4|I4]; [by left|]. rewrite (sealed_closed _ I4) in Hc. by specialize (Hc (sealed_records _ I4)).
Qed.

(** *** Scripts that wait *)

Lemma safe_waiting {B} (k : bool -> P B) Q p : (forall v, v = treeBuilderHasScript p || runnerHasScript p -> safe (k v) Q p) -> safe (bind isWaitingForScripts k) Q p.
Proof. intros Hk. unfold isWaitingForScripts. apply safe_bind, safe_bind. unfold safe at 1. cbn. apply safe_assert. intros _. by apply Hk. Qed.

Lemma maintains_waiting : maintains isWaitingForScripts.
Proof. intros n p Hp. unfold isWaitingForScripts, safe, bind, get, assert. by destruct (negb _). Qed.

(** *** A token *)

Lemma idle_next t a : idle t -> Stream.isEmpty a = true -> nextToken t a = Some (false, t, a).
Proof.
  intros [Hok Hp] He. unfold nextToken, resumeBufferedEndTag, HTMLTokenizer.bind, HTMLTokenizer.get. fold (pendingEndTag t). rewrite Hp. unfold HTMLTokenizer.ret, HTMLTokenizer.ask, peekUnlessEmpty, HTMLTokenizer.bind, HTMLTokenizer.ask.
  cbn [isEmpty stream_source]. rewrite He. unfold HTMLTokenizer.ret, continueWith, HTMLTokenizer.bind, HTMLTokenizer.get, HTMLTokenizer.ret, haveBufferedCharacterToken. unfold tokenizerOK in Hok. apply andb_true_iff in Hok as [Hc _]. apply negb_true_iff in Hc. by rewrite Hc.
Qed.

Lemma take_clear b t k : HTMLTokenizer.set_token (HTMLToken.clear k) (takeTokenizer b (HTMLTokenizer.set_token k t)) = takeTokenizer b (HTMLTokenizer.set_token (HTMLToken.clear k) t).
Proof. unfold takeTokenizer. by destruct (Tree.tokenizer b) as [[[? ?] ?]|]. Qed.

(** The state after a token. *)
Definition tokenTaken (p : Parser) (s : SegmentedString) (t : HTMLTokenizer) (b : Tree.HTMLTreeBuilder) : Parser :=
  set_treeBuilder b (set_tokenizer t (set_input (set_first s (m_input p)) p)).

(** What [constructTreeFromHTMLToken] does. *)
Lemma construct_cases (p : Parser) :
  match constructTreeFromHTMLToken p with
  | Ok _ p' => exists token raw b, AtomicHTMLToken.atomicToken (HTMLTokenizer.m_token (m_tokenizer p)) = Some (token, raw) /\ unsupported token (m_treeBuilder p) = false /\
      HTMLTreeBuilder.constructTree (env := answersAt (lendTokenizer (m_tokenizer p) (m_treeBuilder p))) token (lendTokenizer (m_tokenizer p) (m_treeBuilder p)) = Some (tt, b) /\
      p' = set_treeBuilder b (set_tokenizer (takeTokenizer b (HTMLTokenizer.set_token (HTMLToken.clear raw) (m_tokenizer p))) p)
  | Failed (TreeBuilderFailed token b) => unsupported token b = true \/ unsupported token (m_treeBuilder p) = false /\ HTMLTreeBuilder.constructTree (env := answersAt (lendTokenizer (m_tokenizer p) (m_treeBuilder p))) token (lendTokenizer (m_tokenizer p) (m_treeBuilder p)) = None /\
      exists raw, AtomicHTMLToken.atomicToken (HTMLTokenizer.m_token (m_tokenizer p)) = Some (token, raw)
  | Failed AssertionFailed => True
  | OutOfFuel => False
  end.
Proof.
  unfold constructTreeFromHTMLToken. unfold bind at 1, ask. destruct (AtomicHTMLToken.atomicToken (m_token (m_tokenizer p))) as [[token raw]|] eqn:Ea; [|done]. unfold bind, modify. cbn [construct strictConstruction].
  set (k := if HTMLToken.hasType HTMLToken.Character raw then raw else HTMLToken.clear raw).
  change (lendTokenizer (m_tokenizer (set_tokenizer (HTMLTokenizer.set_token k (m_tokenizer p)) p)) (m_treeBuilder (set_tokenizer (HTMLTokenizer.set_token k (m_tokenizer p)) p))) with (lendTokenizer (m_tokenizer p) (m_treeBuilder p)).
  change (unsupported token (lendTokenizer (m_tokenizer p) (m_treeBuilder p))) with (unsupported token (m_treeBuilder p)).
  destruct (unsupported token (m_treeBuilder p)) eqn:Eu; [by left|]. destruct (HTMLTreeBuilder.constructTree (env := answersAt (lendTokenizer (m_tokenizer p) (m_treeBuilder p))) token (lendTokenizer (m_tokenizer p) (m_treeBuilder p))) as [[[] b]|] eqn:Ec; [|right; split_and!; [done|done|by exists raw]].
  unfold get. cbn [m_tokenizer set_treeBuilder set_tokenizer]. rewrite take_token. cbn [HTMLTokenizer.m_token HTMLTokenizer.set_token]. subst k. destruct (HTMLToken.hasType HTMLToken.Character raw) eqn:Et.
  - pose proof (proj1 (hasType_true _ _) Et) as Et'. unfold HTMLToken.isUninitialized, HTMLToken.hasType. rewrite Et', bool_decide_eq_false_2 by done. unfold assert. cbn. rewrite take_token. cbn. rewrite Et', bool_decide_eq_true_2 by done. cbn [m_tokenizer set_treeBuilder set_tokenizer]. rewrite take_token, take_clear. by exists token, raw, b.
  - by exists token, raw, b.
Qed.

Lemma noScripts_tree p b : noScripts p -> Tree.m_scriptToProcess b = Tree.m_scriptToProcess (m_treeBuilder p) -> forall s t, noScripts (tokenTaken p s t b).
Proof. intros [H1 H2] E s t. split; [|done]. unfold treeBuilderHasScript in *. cbn. by rewrite E. Qed.

(** The parser after a call of the tokenizer, when tokenizer and tree builder are coupled. *)
Lemma inv_coupled n p s t b pol : Inv n p -> noScripts p -> good s -> m_closed s = m_closed (m_first (m_input p)) -> coupled pol t b (abs s) ->
  quiet b \/ Tree.m_scriptToProcess b = Tree.m_scriptToProcess (m_treeBuilder p) -> Inv n (tokenTaken p s t b).
Proof.
  intros [I1 I2 I3 _] Hs Hg Hc Hcoup Hq. constructor; [by apply inputOK_first|done|done|]. assert (Ho : st_closed (abs s) = m_closed s) by done. destruct (m_closed s) eqn:Es; [|left; exists pol; apply (coupled_open pol t b (abs s)); [by left|done]].
  destruct Hq as [Hq|Hq]; [left; exists pol; apply (coupled_open pol t b (abs s)); [by right|done]|]. right. constructor; cbn; [by apply input_closed|done|by apply noScripts_tree|left; by exists pol].
Qed.

(** Either both are coupled, or the end of the file has been processed. *)
Lemma inv_cases n p : Inv n p -> (exists pol, coupled pol (m_tokenizer p) (m_treeBuilder p) (abs (m_first (m_input p)))) \/
  sealed p /\ Stopped (m_treeBuilder p) /\ idle (m_tokenizer p) /\ Stream.isEmpty (abs (m_first (m_input p))) = true.
Proof. intros Hp. destruct (inv_phase _ _ Hp) as [[pol Ha]|Hse]; [left; exists pol; by apply coupled_anywhere|]. destruct (sealed_text _ Hse) as [?|?]; [by left|by right]. Qed.

Lemma pump_token n p r t s : Inv n p -> noScripts p -> nextToken (m_tokenizer p) (m_first (m_input p)) = Some (r, t, s) ->
  let p1 := set_input (set_first s (m_input p)) (set_tokenizer t p) in if r then safe constructTreeFromHTMLToken (fun _ p' => Inv n p') p1 else Inv n p1.
Proof.
  intros Hp Hs En. destruct (nextToken_good _ _ _ _ _ (input_first _ (inv_input _ _ Hp)) En) as (Hg & Hc & Ea). cbv zeta.
  destruct (inv_cases n p Hp) as [[pol Hcoup]|(Hse & H1 & H2 & H3)].
  - destruct r; [|apply (inv_coupled n p s t (m_treeBuilder p) pol); try done; [by apply (wait_step pol _ _ _ _ _ Hcoup)|by right]].
    unfold safe. match goal with |- context [constructTreeFromHTMLToken ?q] => pose proof (construct_cases q) as Hcases; destruct (constructTreeFromHTMLToken q) as [u p'|[|token b]|] end; try done.
    + destruct Hcases as (token & raw & b & Et & Eu & Eb & ->). destruct (token_step (Henv (lendTokenizer t (m_treeBuilder p))) pol _ _ _ _ _ token raw Hcoup Ea Et Eu) as (b' & Eb' & _ & Hafter). cbn in Eb. rewrite Eb in Eb'. injection Eb' as <-.
      destruct token; try (destruct Hafter as [Hafter Hq]; by apply (inv_coupled n p s _ b pol)). destruct Hafter as (A1 & A2 & (A3 & A4) & A5).
      constructor; [by apply inputOK_first; [apply (inv_input _ _ Hp)|..]|by apply Hp|by apply Hp|]. right. constructor; cbn; [apply input_closed; [apply (inv_input _ _ Hp)|rewrite <- Hc; exact A4]|done|by apply (noScripts_tree p b Hs A5 s)|by right].
    + destruct Hcases as [?|(Eu & Eb & raw & Et)]; [done|]. destruct (token_step (Henv (lendTokenizer t (m_treeBuilder p))) pol _ _ _ _ _ token raw Hcoup Ea Et Eu) as (b' & Eb' & _). cbn in Eb. by rewrite Eb' in Eb.
  - rewrite (idle_next _ _ H2 H3) in Ea. assert (Hx : (r, t, abs s) = (false, m_tokenizer p, abs (m_first (m_input p)))) by congruence. clear Ea. apply pair_eq in Hx as [Hx Ea]. apply pair_eq in Hx as [-> ->]. constructor; [by apply inputOK_first; [apply (inv_input _ _ Hp)|..]|by apply Hp|by apply Hp|]. right. destruct Hse as [S1 S2 S3 S4].
    constructor; cbn; [done|congruence|done|]. rewrite Ea. by right.
Qed.

(** ** Operations *)

Create HintDb maintains.
Hint Resolve maintains_ret maintains_get maintains_assert maintains_ask maintains_waiting : maintains.

#[local] Ltac maintain_step :=
  match goal with
  | |- maintains (bind _ _) => apply maintains_bind; [|intros ?]
  | |- maintains (if ?b then _ else _) => destruct b
  | |- maintains (match ?x with _ => _ end) => destruct x
  | |- maintains (modify _) => apply maintains_modify; intros ?; split; [by constructor|by right]
  | |- maintains (modifyRunner _) => apply maintains_runner; intros ?; first [by left|by right]
  | |- maintains (assertRunner _) => unfold assertRunner
  | |- maintains runner => unfold runner
  | |- maintains _ => solve [auto with maintains]
  end.
#[local] Ltac maintain := repeat maintain_step.

Definition callCodes {A} (c : Call A) : Prop := match c with CallPerform script => stepsDo actionCodes script | _ => True end.

(** Before a script is run from the outermost level. *)
Record outermost (p : Parser) : Prop := mkOutermost { outer_inv : Inv 0 p; outer_active : active p; outer_idle : isExecutingScript p = false }.

Section Calls.
Variable call : forall A, Call A -> P (Src := SegmentedString) A.
Hypothesis Hcall : forall A (c : Call A), callCodes c -> maintains (call A c).
Hypothesis Hmutations : forall script p, stepsDo (mutationAction created) script -> outermost p -> safe (call unit (CallPerform script)) (fun _ p' => outermost p') p.

Lemma maintains_call A (c : Call A) : match c with CallPerform _ => False | _ => True end -> maintains (call A c).
Proof. intros Hc. apply Hcall. by destruct c. Qed.

Lemma maintains_occasion o : maintains (occasion call o).
Proof.
  intros n p Hp. unfold occasion. apply safe_bind. unfold safe at 1, get. destruct (scripts o (world p)) as [script w] eqn:E. apply safe_bind. unfold safe at 1, modify.
  apply Hcall; [|apply (inv_frame n p); [done|by right; left|done]]. cbn. pose proof (page_codes _ _ Hpage o (world p)) as Hc. by rewrite E in Hc.
Qed.
Hint Resolve maintains_occasion : maintains.

Lemma outermost_mutations p : outermost p -> safe (occasion call DeliverMutations) (fun _ p' => outermost p') p.
Proof.
  intros [H1 H2 H3]. unfold occasion. apply safe_bind. unfold safe at 1, get. destruct (scripts DeliverMutations (world p)) as [script w] eqn:E. apply safe_bind. unfold safe at 1, modify.
  apply Hmutations; [pose proof (page_mutations _ _ Hpage (world p)) as Hc; by rewrite E in Hc|]. split; [apply (inv_frame 0 p); [done|by right; left|done]|done|done].
Qed.

(** *** Scripts *)

Lemma maintains_ready script : maintains (isPendingScriptReady script).
Proof. unfold isPendingScriptReady. maintain. Qed.
Hint Resolve maintains_ready : maintains.

Lemma active_ready n p script : Inv n p -> active p -> safe (isPendingScriptReady script) (fun _ p' => Inv n p' /\ active p') p.
Proof.
  intros Hp Ha. unfold isPendingScriptReady, runner. apply safe_ask. intros r Er. destruct (negb _); [done|]. apply safe_bind. unfold safe at 1, get. apply safe_bind. unfold safe at 1, modifyRunner, modify, safe, ret.
  split; [apply (inv_frame n p); [done|by right; right|done]|by apply (active_frame p)].
Qed.

Lemma maintains_executePending script release : maintains release -> maintains (executePendingScriptAndDispatchEvent call script release).
Proof. intros Hr. unfold executePendingScriptAndDispatchEvent. cbv zeta. maintain. Qed.

Lemma safe_openPoint n p : Inv n p -> active p -> safe openPoint (fun _ p' => Inv (S n) p') p.
Proof. intros [I1 I2 I3 I4] Ha. destruct (open_good _ I1) as [O1 O2]. constructor; [done|rewrite <- I2; exact O2|done|by left]. Qed.

Lemma safe_closePoint n p : Inv (S n) p -> safe closePoint (fun _ p' => Inv n p') p.
Proof.
  intros Hp. pose proof (inv_deep n p Hp) as Ha. destruct Hp as [I1 I2 I3 I4]. apply safe_ask. intros i Ei. destruct (close_good _ _ I1 Ei) as [C1 C2]. constructor; [done|cbn; lia|done|by left].
Qed.

Lemma maintains_executeBlocking : maintains (executeParsingBlockingScript call).
Proof.
  intros n p Hp. unfold executeParsingBlockingScript, assertRunner, runner.
  do 2 (apply safe_bind, safe_ask; intros ? _; unfold safe at 1, assert; match goal with |- match (if ?x then _ else _) with _ => _ end => destruct x end; [|done]). apply safe_assert. intros _. apply safe_ask. intros r Er. apply safe_ask. intros script Es.
  assert (Ha : active p). { destruct (inv_phase _ _ Hp) as [?|Hs]; [done|]. destruct (sealed_scripts _ Hs) as [_ Hr]. unfold runnerHasScript, hasBlockingScript in Hr. rewrite Er in Hr. by rewrite Es in Hr. }
  eapply safe_use; [by apply active_ready|]. intros ready p1 [Hp1 Ha1]. apply safe_assert. intros _. eapply safe_use; [by apply safe_openPoint|]. intros [] p2 Hp2.
  eapply safe_use; [apply maintains_executePending; [maintain|done]|]. intros [] p3 Hp3. by apply safe_closePoint.
Qed.
Hint Resolve maintains_executeBlocking : maintains.

Lemma maintains_executeBlockingScripts : maintains (executeParsingBlockingScripts call).
Proof. unfold executeParsingBlockingScripts. maintain. by apply maintains_call. Qed.
Hint Resolve maintains_executeBlockingScripts : maintains.

(** While a script is being executed another one may begin to wait. *)
Definition maintainsDeep {A} (m : P (Src := SegmentedString) A) : Prop := forall n p, Inv (S n) p -> safe m (fun _ p' => Inv (S n) p') p.

Lemma deep_bind {A B} (m : P A) (k : A -> P B) : maintainsDeep m -> (forall a, maintainsDeep (k a)) -> maintainsDeep (bind m k).
Proof. intros Hm Hk n p Hp. eapply safe_use; [by apply Hm|]. intros a p' Hp'. by apply Hk. Qed.

Lemma deep_maintains {A} (m : P A) : maintains m -> maintainsDeep m.
Proof. intros Hm n p Hp. by apply Hm. Qed.

Lemma deep_runner f : maintainsDeep (modifyRunner f).
Proof. intros n p Hp. pose proof (inv_deep n p Hp) as Ha. apply (inv_frame (S n) p); [done|by right; right|done]. Qed.

Lemma deep_requestBlocking element : maintainsDeep (requestParsingBlockingScript element).
Proof. unfold requestParsingBlockingScript. apply deep_bind; [apply deep_maintains; maintain|]. intros _. apply deep_bind; [apply deep_maintains; maintain|]. intros p. destruct (cachedScript _); apply deep_runner. Qed.

Lemma deep_schedule element : maintainsDeep (scheduleScript call element).
Proof.
  unfold scheduleScript. apply deep_bind; [apply deep_maintains; maintain|]. intros p. cbv zeta. destruct (negb _); [apply deep_maintains; maintain|]. destruct (willExecuteWhenDocumentFinishedParsing _).
  { apply deep_maintains. unfold requestDeferredScript. maintain. }
  destruct (readyToBeParserExecuted _); [|apply deep_requestBlocking]. apply deep_bind; [apply deep_maintains; unfold runner; maintain|]. intros r. destruct (_ =? _)%nat; [apply deep_runner|apply deep_maintains; maintain].
Qed.

(** Before the insertion point is made. *)
Lemma active_mutations n p r : Inv n p -> active p -> m_scriptRunner p = Some r -> safe (if isExecuting r then ret tt else occasion call DeliverMutations) (fun _ p' => Inv n p' /\ active p') p.
Proof.
  intros Hp Ha Er. destruct (isExecuting r) eqn:Ex; [done|]. destruct n as [|n].
  - eapply safe_mono; [apply outermost_mutations; split; [done|done|]|by intros [] p' []]. unfold isExecutingScript. by rewrite Er.
  - eapply safe_mono; [by apply maintains_occasion|]. intros [] p' Hp'. split; [done|by apply (inv_deep n)].
Qed.

Lemma active_runScript n p element : Inv n p -> active p -> safe (runScript call element) (fun _ p' => Inv n p') p.
Proof.
  intros Hp Ha. unfold runScript, assertRunner, runner. do 2 (apply safe_bind, safe_ask; intros ? _; unfold safe at 1, assert; match goal with |- match (if ?x then _ else _) with _ => _ end => destruct x end; [|done]). apply safe_assert. intros _. apply safe_ask. intros r Er.
  eapply safe_use; [by apply active_mutations|]. intros [] p1 [Hp1 Ha1]. eapply safe_use; [by apply safe_openPoint|]. intros [] p2 Hp2.
  eapply safe_use; [apply (deep_runner _ n); done|]. intros [] p3 Hp3. eapply safe_use; [apply (maintains_occasion _ (S n)); done|]. intros [] p4 Hp4. eapply safe_use; [apply deep_schedule; done|]. intros [] p5 Hp5.
  eapply safe_use; [apply (deep_runner _ n); done|]. intros [] p6 Hp6. by apply safe_closePoint.
Qed.

Lemma maintains_preloads : maintains (appendCurrentInputStreamToPreloadScannerAndScan (Src := SegmentedString)).
Proof. unfold appendCurrentInputStreamToPreloadScannerAndScan. maintain. Qed.
Hint Resolve maintains_preloads : maintains.

Lemma active_execute n p element : Inv n p -> active p -> safe (execute call element) (fun _ p' => Inv n p') p.
Proof.
  intros Hp Ha. unfold execute. apply safe_bind. unfold safe at 1, get. cbv zeta. eapply safe_use; [by apply active_runScript|]. intros [] p1 Hp1. clear Hp Ha. revert n p1 Hp1. match goal with |- forall n p, _ -> safe ?m _ _ => change (maintains m) end.
  unfold runner. maintain.
Qed.

Lemma maintains_waitingForLoad x : maintains (executeScriptsWaitingForLoad call x).
Proof. unfold executeScriptsWaitingForLoad. maintain. Qed.

Lemma maintains_waitingForStylesheets : maintains (runnerScriptsWaitingForStylesheets call).
Proof. unfold runnerScriptsWaitingForStylesheets. maintain. Qed.

Lemma maintains_waitingForParsing : maintains (executeScriptsWaitingForParsing call).
Proof. unfold executeScriptsWaitingForParsing. maintain; [apply maintains_executePending; maintain|by apply maintains_call]. Qed.
Hint Resolve maintains_waitingForLoad maintains_waitingForStylesheets maintains_waitingForParsing : maintains.

(** *** Pumping *)

Lemma taken_active n p : Inv n p -> Tree.m_scriptToProcess (m_treeBuilder p) <> None ->
  Inv n (set_treeBuilder (Tree.set_script None (m_treeBuilder p)) p) /\ active (set_treeBuilder (Tree.set_script None (m_treeBuilder p)) p).
Proof.
  intros Hp Hs. assert (Ha : active p). { destruct (inv_phase _ _ Hp) as [?|Hse]; [done|]. destruct (sealed_scripts _ Hse) as [Hr _]. unfold treeBuilderHasScript in Hr. by destruct (Tree.m_scriptToProcess (m_treeBuilder p)). }
  assert (Ha' : active (set_treeBuilder (Tree.set_script None (m_treeBuilder p)) p)).
  { destruct Ha as (pol & [C1 C2 C3 C4]). exists pol. constructor; [by apply live_script|done|done|]. destruct C4 as [C4|(name & N1 & N2 & N3)]; [left; by destruct C4|right; exists name; split_and!; [done|by destruct N2|done]]. }
  split; [constructor; [apply Hp..|by left]|done].
Qed.

Lemma maintains_runScripts : maintains (runScriptsForPausedTreeBuilder call).
Proof.
  intros n p Hp. unfold runScriptsForPausedTreeBuilder. apply safe_assert. intros _. apply safe_ask. intros [script b] E. unfold HTMLTreeBuilder.takeScriptToProcess, Tree.bind, Tree.ask in E.
  destruct (Tree.m_scriptToProcess (m_treeBuilder p)) as [e|] eqn:Es; [|done]. injection E as <- <-. destruct (taken_active n p Hp ltac:(by rewrite Es)) as [Hp' Ha'].
  apply safe_bind. unfold safe at 1, modify. apply safe_bind. unfold safe at 1, get. cbn [fst snd]. destruct (m_scriptRunner _); [by apply active_execute|done].
Qed.
Hint Resolve maintains_runScripts : maintains.

(** A token is taken only when no script waits. *)
Lemma safe_runWaiting n p mode session : Inv n p -> safe (runWaitingScript call mode session) (fun r p' => Inv n p' /\ (fst r = true -> noScripts p')) p.
Proof.
  intros Hp. unfold runWaitingScript. apply safe_bind. unfold safe at 1, get. eapply (safe_use _ _ (fun _ p' => Inv n p')); [destruct mode; [apply (maintains_bind (ask m_parserScheduler)); [maintain|intros; maintain|done]|done]|].
  intros session' p1 Hp1. destruct (needsYield session'); [by split|]. eapply safe_use; [by apply maintains_runScripts|]. intros [] p2 Hp2. apply safe_waiting. intros v Ev. apply safe_bind. unfold safe at 1, get, safe, ret. split; [done|].
  cbn. intros Hv. apply negb_true_iff, orb_false_iff in Hv as [-> _]. symmetry in Ev. by apply orb_false_iff in Ev.
Qed.

Lemma safe_canTake n p mode session : Inv n p -> safe (canTakeNextToken call mode session) (fun r p' => Inv n p' /\ (fst r = true -> noScripts p')) p.
Proof.
  intros Hp. unfold canTakeNextToken. apply safe_bind. unfold safe at 1, get. destruct (isStopped p); [by split|]. apply safe_waiting. intros v Ev.
  eapply (safe_use _ _ (fun r p' => Inv n p' /\ (fst r = true -> noScripts p'))).
  { destruct v; [by apply safe_runWaiting|]. split; [done|]. intros _. symmetry in Ev. by apply orb_false_iff in Ev. }
  intros [goOn session'] p1 [Hp1 Hs1]. cbn in Hs1. destruct goOn; [|by split]. specialize (Hs1 eq_refl). cbn [negb]. apply safe_bind. unfold safe at 1, get. destruct (_ && _); [by split|]. destruct mode; [|by split].
  apply safe_ask. intros scheduler Ec. destruct (checkForYieldBeforeToken _ _ _ _) as [session2 w]. apply safe_bind. unfold safe at 1, modify, safe, ret. split; [apply (inv_frame n p1); [done|by right; left|done]|done].
Qed.

Lemma maintains_pumpRound mode session : maintains (pumpRound call mode session).
Proof.
  intros n p Hp. unfold pumpRound. eapply safe_use; [by apply safe_canTake|]. intros [take session'] p1 [Hp1 Hs1]. cbn in Hs1. destruct take; [|done]. specialize (Hs1 eq_refl). cbn [negb orb]. destruct (needsYield session'); [done|].
  apply safe_bind. unfold safe at 1, get. apply safe_ask. intros [[r t] s] En. apply safe_bind. unfold safe at 1, modify. pose proof (pump_token n p1 r t s Hp1 Hs1 En) as Ht. cbv zeta in Ht. destruct r; [|done]. cbn [negb].
  eapply safe_use; [exact Ht|]. intros [] p2 Hp2. apply safe_assert. intros _. by apply maintains_call.
Qed.

Lemma maintains_afterPumping session : maintains (afterPumping session).
Proof. unfold afterPumping. maintain. Qed.
Hint Resolve maintains_afterPumping : maintains.

Lemma maintains_pump mode : maintains (pumpTokenizer call mode).
Proof. unfold pumpTokenizer. maintain. by apply maintains_call. Qed.
Hint Resolve maintains_pump : maintains.

Lemma maintains_pumpIfPossible mode : maintains (pumpTokenizerIfPossible call mode).
Proof. unfold pumpTokenizerIfPossible. maintain. Qed.
Hint Resolve maintains_pumpIfPossible : maintains.

(** *** Ending *)

Lemma maintains_shouldDelay : maintains (shouldDelayEnd (Src := SegmentedString)).
Proof. unfold shouldDelayEnd. maintain. Qed.

Lemma maintains_end : maintains (end_ call).
Proof. unfold end_. maintain. Qed.
Hint Resolve maintains_shouldDelay maintains_end : maintains.

Lemma maintains_runDeferred : maintains (attemptToRunDeferredScriptsAndEnd call).
Proof. unfold attemptToRunDeferredScriptsAndEnd. maintain. Qed.
Hint Resolve maintains_runDeferred : maintains.

Lemma maintains_prepare : maintains (prepareToStopParsing call).
Proof. unfold prepareToStopParsing. maintain. Qed.
Hint Resolve maintains_prepare : maintains.

Lemma maintains_attemptToEnd : maintains (attemptToEnd call).
Proof. unfold attemptToEnd. maintain. Qed.

Lemma maintains_endIfDelayed : maintains (endIfDelayed call).
Proof. unfold endIfDelayed. maintain. Qed.
Hint Resolve maintains_attemptToEnd maintains_endIfDelayed : maintains.

Lemma maintains_mark : maintains (let! i := ask (fun p => markEndOfFile (m_input p)) in modify (set_input i)).
Proof. apply maintains_input. intros n p i Hp Ei. destruct (mark_good _ _ (inv_input _ _ Hp) Ei) as (M1 & M2 & M3). apply inv_open; [done|done|by rewrite M2; apply Hp|done]. Qed.

Lemma maintains_finish : maintains (finish call).
Proof. unfold finish. apply maintains_bind; [maintain|]. intros p. apply maintains_bind; [|intros _; maintain]. destruct (haveSeenEndOfFile _); [maintain|apply maintains_mark]. Qed.

(** *** Input *)

Lemma maintains_insert b text : codes text -> maintains (HTMLDocumentParser.insert call b text).
Proof.
  intros Hc. unfold HTMLDocumentParser.insert. apply maintains_bind; [maintain|]. intros p. destruct (isStopped p); [maintain|]. cbv zeta. apply maintains_assoc, maintains_bind.
  - apply maintains_input. intros n p1 i Hp Ei. destruct (insert_good _ _ _ (inv_input _ _ Hp) (good_written b text Hc) Ei) as (M1 & M2 & M3). apply inv_open; [done|done|rewrite M2; apply Hp|done].
  - intros _. maintain.
Qed.

Lemma maintains_append b text : codes text -> maintains (HTMLDocumentParser.append call b text).
Proof.
  intros Hc. unfold HTMLDocumentParser.append. apply maintains_bind; [maintain|]. intros p. destruct (isStopped p); [maintain|]. cbv zeta. apply maintains_bind; [maintain|]. intros _. apply maintains_assoc, maintains_bind; [|intros _; maintain].
  apply maintains_input. intros n p1 i Hp Ei. destruct (append_good _ _ _ (inv_input _ _ Hp) (good_string b text Hc) Ei) as (M1 & M2 & M3). apply inv_open; [done|done|rewrite M2; apply Hp|done].
Qed.

(** *** Events *)

Lemma maintains_resumeAfterYield : maintains (resumeParsingAfterYield call).
Proof. unfold resumeParsingAfterYield. maintain. Qed.

Lemma maintains_resumeAfterScript : maintains (resumeParsingAfterScriptExecution call).
Proof. unfold resumeParsingAfterScriptExecution. maintain. Qed.
Hint Resolve maintains_resumeAfterYield maintains_resumeAfterScript : maintains.

Lemma maintains_notifyFinished x : maintains (notifyFinished call x).
Proof. unfold notifyFinished. maintain. Qed.

Lemma maintains_stylesheets : maintains (executeScriptsWaitingForStylesheets call).
Proof. unfold executeScriptsWaitingForStylesheets. maintain. Qed.

Lemma maintains_detach : maintains (detach (Src := SegmentedString)).
Proof. apply maintains_modify. intros p. split; [by constructor|]. right. unfold runnerHasScript. cbn. by destruct (m_scriptRunner p). Qed.

Lemma maintains_stop : maintains (HTMLDocumentParser.stopParsing (Src := SegmentedString)).
Proof. unfold HTMLDocumentParser.stopParsing. maintain. Qed.

Lemma maintains_timer : maintains (timerFired call).
Proof. unfold timerFired. maintain. Qed.

Lemma maintains_suspend : maintains (suspendScheduledTasks (Src := SegmentedString)).
Proof. unfold suspendScheduledTasks. maintain. Qed.

Lemma maintains_resume : maintains (resumeScheduledTasks (Src := SegmentedString)).
Proof. unfold resumeScheduledTasks. maintain. Qed.
Hint Resolve maintains_insert maintains_append maintains_finish maintains_notifyFinished maintains_stylesheets maintains_detach maintains_stop maintains_timer maintains_suspend maintains_resume : maintains.

Lemma maintains_write b text : codes text -> maintains (write call b text).
Proof. intros Hc. unfold write, set_write, openAndWrite. maintain. Qed.
Hint Resolve maintains_write : maintains.

Lemma maintains_act a : actionCodes a -> maintains (act call a).
Proof. intros Ha. destruct a; cbn [act actionCodes] in *; auto with maintains. Qed.

Lemma maintains_performSteps script : stepsDo actionCodes script -> maintains (performSteps call script).
Proof.
  induction script as [|step script IH]; intros Hs; cbn [performSteps]; [maintain|]. apply Forall_cons_1 in Hs as [Hs1 Hs2]. apply maintains_bind; [maintain|]. intros p. pose proof (Hs1 (world p)) as Ha. destruct (step (world p)) as [a w]. cbn in Ha.
  apply maintains_bind; [maintain|]. intros _. apply maintains_bind; [by apply maintains_act|]. intros _. by apply IH.
Qed.

(** *** Mutation observers at the outermost level *)

Lemma outermost_frame p p' : frame p p' -> isExecutingScript p' = isExecutingScript p -> outermost p -> outermost p'.
Proof. intros Hf He [H1 H2 H3]. split; [apply (inv_frame 0 p); [done|by right; right|done]|by apply (active_frame p)|congruence]. Qed.

Lemma outermost_point p : created = false -> outermost p -> parserHasInsertionPoint p = false.
Proof.
  intros Hcr [[I1 I2 I3 _] _ _]. rewrite Hcr in I3. unfold parserHasInsertionPoint, hasInsertionPoint. rewrite (input_last _ I1), I3. by destruct (m_records (m_input p)).
Qed.

Lemma outermost_detach p : outermost p -> safe detach (fun _ p' => outermost p') p.
Proof. intros Hp. apply (outermost_frame p); [by constructor| |done]. unfold isExecutingScript. cbn. by destruct (m_scriptRunner p). Qed.

Lemma outermost_act a p : mutationAction created a -> outermost p -> safe (act call a) (fun _ p' => outermost p') p.
Proof.
  intros Ha Hp. destruct a as [|b text|b text| | | |]; try done; cbn [act]; [|by apply (outermost_frame p)|by apply outermost_detach].
  destruct Ha as [Hcr _]. unfold write. apply safe_bind. unfold safe at 1, get. destruct (isDetached p); [done|]. cbv zeta. apply safe_bind. unfold safe at 1, set_write, modify.
  match goal with |- safe (bind ?m ?k) _ ?p1 => assert (Hp1 : outermost p1) by (by apply (outermost_frame p)); assert (Hm : safe m (fun _ p' => outermost p') p1) end.
  { destruct (_ || _); [done|]. rewrite (outermost_point p Hcr Hp). destruct (negb _); [done|]. unfold openAndWrite. apply safe_bind. unfold safe at 1, get. rewrite (outermost_point _ Hcr Hp1), (outer_idle _ Hp1), andb_false_r, andb_false_r. by apply outermost_detach. }
  eapply safe_use; [exact Hm|]. intros [] p2 Hp2. apply safe_bind. unfold safe at 1, get. by apply (outermost_frame p2).
Qed.

Lemma outermost_performSteps script p : stepsDo (mutationAction created) script -> outermost p -> safe (performSteps call script) (fun _ p' => outermost p') p.
Proof.
  revert p. induction script as [|step script IH]; intros p Hs Hp; cbn [performSteps]; [done|]. apply Forall_cons_1 in Hs as [Hs1 Hs2]. apply safe_bind. unfold safe at 1, get. pose proof (Hs1 (world p)) as Ha. destruct (step (world p)) as [a w]. cbn in Ha.
  apply safe_bind. unfold safe at 1, modify. eapply safe_use; [apply outermost_act; [done|by apply (outermost_frame p)]|]. intros [] p2 Hp2. by apply IH.
Qed.

End Calls.

(** ** The knot *)

Lemma run_maintains fuel : (forall A (c : Call A), callCodes c -> maintains (run fuel A c)) /\
  (forall script p, stepsDo (mutationAction created) script -> outermost p -> safe (run fuel unit (CallPerform script)) (fun _ p' => outermost p') p).
Proof.
  induction fuel as [|fuel [I1 I2]]; [done|]. split.
  - intros A c Hc. destruct c; cbn [run]; [by apply maintains_performSteps|by apply maintains_pumpRound|by apply maintains_executeBlockingScripts|by apply maintains_waitingForParsing].
  - intros script p Hs Hp. by apply outermost_performSteps.
Qed.

Lemma maintains_handle fuel e : eventCodes e -> maintains (handle fuel e).
Proof.
  destruct (run_maintains fuel) as [I1 I2]. intros He. destruct e; cbn [handle eventCodes] in *;
    [by apply maintains_append|by apply maintains_finish|by apply maintains_timer|by apply maintains_notifyFinished|by apply maintains_stylesheets|by apply I1|by apply maintains_suspend|by apply maintains_resume|by apply maintains_stop|by apply maintains_detach].
Qed.

Lemma maintains_handleAll fuel events : Forall (fun x => eventCodes (snd x)) events -> maintains (handleAll fuel events).
Proof.
  induction events as [|[w e] events IH]; intros He; cbn [handleAll]; [apply maintains_ret|]. apply Forall_cons_1 in He as [He1 He2]. apply maintains_bind; [apply maintains_modify; intros p; split; [by constructor|by right]|]. intros _.
  apply maintains_bind; [by apply maintains_handle|]. intros _. by apply IH.
Qed.

Lemma inv_newParser root policy depth quirks limit next w : Inv 0 (newParser root policy depth quirks created limit next w).
Proof.
  constructor; [apply inputOK_new|done|done|]. left. exists policy. constructor; [left; by constructor|done|by split_and!|]. left. constructor; [done|done|]. apply not_elem_of_nil.
Qed.

End Safety.

(** ** The parser up to the first unsupported token *)

Section Strict.
Context {page : Page} {env : HTMLTreeBuilderState.Environment} {answers : Answers} {Src : Type} `{HS : CharSource Src} `{HI : InputSource Src} `{HSS : StringSource Src} `{HT : EntityTable}.

(** The first operation does the same as the second one, or its tree builder fails. *)
Definition approx {A} (m m' : P (Src := Src) A) : Prop := forall p, m p = m' p \/ exists token b, m p = Failed (TreeBuilderFailed token b).

Lemma approx_refl {A} (m : P A) : approx m m.
Proof. intros p. by left. Qed.

Lemma approx_bind {A B} (m m' : P A) (k k' : A -> P B) : approx m m' -> (forall a, approx (k a) (k' a)) -> approx (bind m k) (bind m' k').
Proof.
  intros Hm Hk p. unfold bind. destruct (Hm p) as [<-|(token & b & ->)]; [|right; by exists token, b]. destruct (m p) as [a p'|f|]; [apply Hk|by left..].
Qed.

#[local] Ltac approx_step :=
  match goal with
  | |- approx ?m ?m => apply approx_refl
  | |- approx (bind _ _) (bind _ _) => apply approx_bind; [|intros ?]
  | |- approx (if ?b then _ else _) (if ?b then _ else _) => destruct b
  | |- approx (match ?x with _ => _ end) (match ?x with _ => _ end) => destruct x
  | |- approx _ _ => solve [auto with approx]
  end.
#[local] Ltac approximate := cbv zeta; repeat approx_step.

Create HintDb approx.

Section Calls.
Variables call call' : forall A, Call A -> P (Src := Src) A.
Hypothesis Hcall : forall A (c : Call A), approx (call A c) (call' A c).
Hint Resolve Hcall : approx.

Lemma approx_occasion o : approx (occasion call o) (occasion call' o).
Proof. unfold occasion. approximate. Qed.
Hint Resolve approx_occasion : approx.

Lemma approx_executePending script release : approx (executePendingScriptAndDispatchEvent call script release) (executePendingScriptAndDispatchEvent call' script release).
Proof. unfold executePendingScriptAndDispatchEvent. approximate. Qed.
Hint Resolve approx_executePending : approx.

Lemma approx_executeBlocking : approx (executeParsingBlockingScript call) (executeParsingBlockingScript call').
Proof. unfold executeParsingBlockingScript. approximate. Qed.
Hint Resolve approx_executeBlocking : approx.

Lemma approx_executeBlockingScripts : approx (executeParsingBlockingScripts call) (executeParsingBlockingScripts call').
Proof. unfold executeParsingBlockingScripts. approximate. Qed.
Hint Resolve approx_executeBlockingScripts : approx.

Lemma approx_runScript element : approx (runScript call element) (runScript call' element).
Proof. unfold runScript, scheduleScript. approximate. Qed.
Hint Resolve approx_runScript : approx.

Lemma approx_execute element : approx (execute call element) (execute call' element).
Proof. unfold execute. approximate. Qed.
Hint Resolve approx_execute : approx.

Lemma approx_waitingForParsing : approx (executeScriptsWaitingForParsing call) (executeScriptsWaitingForParsing call').
Proof. unfold executeScriptsWaitingForParsing. approximate. Qed.
Hint Resolve approx_waitingForParsing : approx.

Lemma approx_canTake mode session : approx (canTakeNextToken call mode session) (canTakeNextToken call' mode session).
Proof. unfold canTakeNextToken, runWaitingScript, runScriptsForPausedTreeBuilder. approximate. Qed.
Hint Resolve approx_canTake : approx.

Lemma approx_pumpIfPossible mode : approx (pumpTokenizerIfPossible call mode) (pumpTokenizerIfPossible call' mode).
Proof. unfold pumpTokenizerIfPossible, pumpTokenizer. approximate. Qed.
Hint Resolve approx_pumpIfPossible : approx.

Lemma approx_runDeferred : approx (attemptToRunDeferredScriptsAndEnd call) (attemptToRunDeferredScriptsAndEnd call').
Proof. unfold attemptToRunDeferredScriptsAndEnd, end_. approximate. Qed.
Hint Resolve approx_runDeferred : approx.

Lemma approx_prepare : approx (prepareToStopParsing call) (prepareToStopParsing call').
Proof. unfold prepareToStopParsing. approximate. Qed.
Hint Resolve approx_prepare : approx.

Lemma approx_endIfDelayed : approx (endIfDelayed call) (endIfDelayed call').
Proof. unfold endIfDelayed. approximate. Qed.
Hint Resolve approx_endIfDelayed : approx.

Lemma approx_finish : approx (finish call) (finish call').
Proof. unfold finish, attemptToEnd. approximate. Qed.

Lemma approx_insert b text : approx (HTMLDocumentParser.insert call b text) (HTMLDocumentParser.insert call' b text).
Proof. unfold HTMLDocumentParser.insert. approximate. Qed.

Lemma approx_append b text : approx (HTMLDocumentParser.append call b text) (HTMLDocumentParser.append call' b text).
Proof. unfold HTMLDocumentParser.append. approximate. Qed.
Hint Resolve approx_finish approx_insert approx_append : approx.

Lemma approx_resumeAfterScript : approx (resumeParsingAfterScriptExecution call) (resumeParsingAfterScriptExecution call').
Proof. unfold resumeParsingAfterScriptExecution. approximate. Qed.
Hint Resolve approx_resumeAfterScript : approx.

Lemma approx_stylesheets : approx (executeScriptsWaitingForStylesheets call) (executeScriptsWaitingForStylesheets call').
Proof. unfold executeScriptsWaitingForStylesheets, runnerScriptsWaitingForStylesheets. approximate. Qed.
Hint Resolve approx_stylesheets : approx.

Lemma approx_notifyFinished x : approx (notifyFinished call x) (notifyFinished call' x).
Proof. unfold notifyFinished, executeScriptsWaitingForLoad. approximate. Qed.

Lemma approx_timer : approx (timerFired call) (timerFired call').
Proof. unfold timerFired, resumeParsingAfterYield, pumpTokenizer. approximate. Qed.

Lemma approx_act a : approx (act call a) (act call' a).
Proof. destruct a; cbn [act]; unfold write, openAndWrite; approximate. Qed.
Hint Resolve approx_act : approx.

Lemma approx_performSteps script : approx (performSteps call script) (performSteps call' script).
Proof. induction script as [|step script IH]; cbn [performSteps]; approximate. Qed.

Lemma approx_construct : approx (constructTreeFromHTMLToken (tree := strictConstruction) (Src := Src)) (constructTreeFromHTMLToken (tree := treeConstruction)).
Proof.
  unfold constructTreeFromHTMLToken. approximate. intros q. cbn. destruct (unsupported _ _); [|by left]. right. by eexists _, _.
Qed.
Hint Resolve approx_construct : approx.

Lemma approx_pumpRound mode session : approx (pumpRound (tree := strictConstruction) call mode session) (pumpRound (tree := treeConstruction) call' mode session).
Proof. unfold pumpRound. approximate. Qed.

End Calls.

Lemma approx_run fuel : forall A (c : Call A), approx (run (tree := strictConstruction) (Src := Src) fuel A c) (run (tree := treeConstruction) fuel A c).
Proof.
  induction fuel as [|fuel IH]; intros A c; [apply approx_refl|]. destruct c; cbn [run]; [by apply approx_performSteps|by apply approx_pumpRound|by apply approx_executeBlockingScripts|by apply approx_waitingForParsing].
Qed.

Lemma approx_handle fuel e : approx (handle (tree := strictConstruction) (Src := Src) fuel e) (handle (tree := treeConstruction) fuel e).
Proof.
  pose proof (approx_run fuel) as Hrun. destruct e; cbn [handle];
    [by apply approx_append|by apply approx_finish|by apply approx_timer|by apply approx_notifyFinished|by apply approx_stylesheets|apply Hrun|apply approx_refl..].
Qed.

Lemma approx_handleAll fuel events : approx (handleAll (tree := strictConstruction) (Src := Src) fuel events) (handleAll (tree := treeConstruction) fuel events).
Proof. induction events as [|[w e] events IH]; cbn [handleAll]; [apply approx_refl|]. apply approx_bind; [apply approx_refl|]. intros _. apply approx_bind; [apply approx_handle|]. by intros _. Qed.

End Strict.

(** ** The tree builder of a document *)

(** C6: However a document arrives and is interrupted, for a parser that a script has
    created or not, and whatever its scripts write, load, stop and finish while they run
    inside each other, the tree builder does not fail, unless the parser comes to one of
    the three unsupported start tags (a frameset in a template, a column in a template, an
    isindex element with an empty prompt). Mutation observers may stop and detach the
    parser and, when no script has created it, write. A token is processed in one step:
    the scripts that tree construction itself could run, re-entering the parser
    (HTMLDocumentParser.cpp:341, HTMLConstructionSite.cpp:189), are outside the model. A
    failed assertion of the parser or its strings ends the run, and is not excluded by
    this theorem. *)
Theorem tree_builder_fed {page : Page} {env : HTMLTreeBuilderState.Environment} {answers : Answers} `{FoldCase} `{EntityTable} `{!EntityTableOK} fuel events root policy maximumDOMTreeDepth inQuirksMode createdByScript limit next w :
  (forall b, documented (answersAt b)) -> pageOK createdByScript page -> Forall (fun x => eventCodes (snd x)) events ->
  let p : HTMLDocumentParser SegmentedString := newParser root policy maximumDOMTreeDepth inQuirksMode createdByScript limit next w in
  (forall token b, handleAll fuel events p <> Failed (TreeBuilderFailed token b)) \/
  exists token b, handleAll (tree := strictConstruction) fuel events p = Failed (TreeBuilderFailed token b) /\ unsupported token b = true.
Proof.
  intros Henv Hpage Hcodes p. assert (Hs : safe (handleAll (tree := strictConstruction) fuel events) (fun _ p' => Inv createdByScript 0 p') p) by exact (maintains_handleAll Henv createdByScript Hpage fuel events Hcodes 0%nat p (inv_newParser createdByScript _ _ _ _ _ _ _)).
  unfold safe in Hs.
  destruct (approx_handleAll fuel events p) as [<-|(token & b & E)]; [|right; exists token, b; by rewrite E in Hs].
  destruct (handleAll _ _ p) as [[] p'|[|token b]|]; [by left..| |by left]. right. by exists token, b.
Qed.

#[local] Existing Instance exampleEnvironment.
#[local] Instance exampleAnswers : Answers := fun _ => exampleEnvironment.
#[local] Existing Instance exampleTable.
#[local] Instance strictFold : FoldCase := asciiFold.

Lemma writingPage_ok : pageOK false writingPage.
Proof.
  split; [|intros w; constructor]. intros o w. destruct o; try constructor. cbn. destruct (prepared w); cbn; [|constructor]. constructor; [intros ?; by apply codes_check|]. constructor; [intros ?; by apply codes_check|constructor].
Qed.

(** A page whose script writes a title with tags in it. *)
Definition writtenEvents : list (World (Page := writingPage) * Event (page := writingPage)) :=
  [(w0, Data true (lit "<p>x<title><b></ti")); (w0, Data true (lit "tle><script>1</script>l>y")); (w0, EndOfData)].

Lemma tree_builder_fed_witness : exists p, handleAll (page := writingPage) 60 writtenEvents (exampleParser writingPage false 100000 w0) = Ok tt p /\
  forall token b, handleAll (page := writingPage) 60 writtenEvents (exampleParser writingPage false 100000 w0) <> Failed (TreeBuilderFailed token b).
Proof.
  eexists. split; [vm_compute; reflexivity|].
  destruct (@tree_builder_fed writingPage exampleEnvironment exampleAnswers asciiFold exampleTable exampleTable_ok 60 writtenEvents exampleDocument HTMLConstructionSite.AllowScriptingContent 512 false false 100000 1 w0 (fun _ => exampleDocumented) writingPage_ok) as [H|(token & b & E & _)].
  - constructor; [by apply codes_check|]. constructor; [by apply codes_check|]. by repeat constructor.
  - exact H.
  - exfalso. revert E. vm_compute. discriminate.
Defined.

(** The tree builder does not survive the end of a file with a frameset in a template. *)
Definition framesetEvents : list (World (Page := writingPage) * Event (page := writingPage)) := [(w0, Data true (lit "<b><template><frameset>")); (w0, EndOfData)].

Definition failingToken {page : Page} (r : Result SegmentedString unit) : option HTMLTreeBuilderState.AtomicHTMLToken := match r with Failed (TreeBuilderFailed token _) => Some token | _ => None end.

Example frameset_document_fails :
  failingToken (page := writingPage) (handleAll 60 framesetEvents (exampleParser writingPage false 100000 w0)) = Some HTMLTreeBuilderState.EndOfFile /\
  failingToken (page := writingPage) (handleAll (tree := strictConstruction) 60 framesetEvents (exampleParser writingPage false 100000 w0)) = Some (startOf "frameset").
Proof. split; vm_compute; reflexivity. Qed.
