(* ===== verification/HTMLDocumentParserTermination.v ===== *)
(** * Parsing ends

    On a page whose scripts leave the parser alone, the loops of the parser end: the fuel
    that is enough for them is linear in the size of the document.  There is less to do
    after every token, after every script that has been executed, and after every script
    that was deferred. *)
From S2P Require Import Prelude CharSource SegmentedString SegmentedStringRefinement InputStreamPreprocessor HTMLEntitySearch HTMLEntityParser HTMLEntityFacts HTMLToken HTMLTokenizer HTMLTokenizerRules HTMLTokenizerSafety HTMLTokenizerRefinement HTMLPreloadScanner.
From S2P Require Import HTMLStackItem HTMLConstructionSite HTMLTreeBuilderState HTMLTreeBuilder HTMLTreeBuilderTokenizer HTMLTreeBuilderSafety HTMLTreeBuilderExamples AtomicHTMLToken.
From S2P Require Import HTMLInputStream HTMLInputStreamProps HTMLParserScheduler HTMLDocumentParserState HTMLScriptRunner HTMLDocumentParser HTMLDocumentParserExamples HTMLDocumentParserCoupling HTMLDocumentParserSafety.
From Stdlib Require Import String ZArith Lia.
From stdpp Require Import base list numbers option.
#[local] Open Scope Z_scope.
#[local] Open Scope parser_scope.
Import Parser.

(** ** Pages *)

(** No script touches the parser; scripts are still found, waited for and executed. *)
Definition stillPage (page : Page) : Prop := forall o w, fst (scripts (Page := page) o w) = [].

Lemma stillPage_ok created page : stillPage page -> pageOK created page.
Proof. intros Hs. split; intros; rewrite Hs; constructor. Qed.

Definition eventStill {page : Page} (e : Event) : Prop :=
  match e with
  | Data _ text => codes text
  | Script_ script => script = []
  | _ => True
  end.

Section Termination.
Context {page : Page} {env : HTMLTreeBuilderState.Environment} {answers : Answers} `{HF : FoldCase} `{HT : EntityTable} `{HTO : !EntityTableOK}.
Hypothesis Henv : forall b, documented (answersAt b).
Hypothesis Hstill : stillPage page.
Variable created : bool.

#[local] Abbreviation Inv := (HTMLDocumentParserSafety.Inv created).
#[local] Abbreviation maintains := (HTMLDocumentParserSafety.maintains created).
#[local] Abbreviation outermost := (HTMLDocumentParserSafety.outermost created).
#[local] Existing Instance strictConstruction.
#[local] Abbreviation Parser := (HTMLDocumentParser SegmentedString).

(** ** What is left to do *)

Definition deferred (p : Parser) : nat := match m_scriptRunner p with Some r => length (m_scriptsToExecuteAfterParsing r) | None => 0 end.
Definition one (b : bool) : nat := if b then 1 else 0.

(** The scripts that have been found. *)
Definition load (p : Parser) : nat := (deferred p + one (runnerHasScript p))%nat.

(** A token is more work than a script, which may be put aside once. *)
Definition work (p : Parser) : nat := (2 * measure (m_tokenizer p) (abs (m_first (m_input p))) + load p + one (treeBuilderHasScript p))%nat.

(** *** Rules *)

(** There is a result, or something fails. *)
Definition ends {A} (m : P (Src := SegmentedString) A) (Q : A -> Parser -> Prop) (p : Parser) : Prop :=
  match m p with
  | Ok a p' => Q a p'
  | Failed _ => True
  | OutOfFuel => False
  end.

Lemma ends_mono {A} (m : P A) (Q Q' : A -> Parser -> Prop) p : ends m Q p -> (forall a p', Q a p' -> Q' a p') -> ends m Q' p.
Proof. unfold ends. destruct (m p) as [a p'|f|]; auto. Qed.

Lemma ends_bind {A B} (m : P A) (k : A -> P B) Q p : ends m (fun a p' => ends (k a) Q p') p -> ends (bind m k) Q p.
Proof. unfold ends, bind. by destruct (m p) as [a p'|f|]. Qed.

Lemma ends_use {A B} (m : P A) (k : A -> P B) Q Q' p : ends m Q p -> (forall a p', Q a p' -> ends (k a) Q' p') -> ends (bind m k) Q' p.
Proof. intros H1 H2. apply ends_bind. eapply ends_mono; [exact H1|exact H2]. Qed.

Lemma ends_assert {B} c (k : unit -> P B) Q p : (c p = true -> ends (k tt) Q p) -> ends (bind (assert c) k) Q p.
Proof. intros Hk. unfold ends at 1, bind, assert. destruct (c p); [by apply Hk|done]. Qed.

Lemma ends_ask {A B} f (k : A -> P B) Q p : (forall a, f p = Some a -> ends (k a) Q p) -> ends (bind (ask f) k) Q p.
Proof. intros Hk. unfold ends at 1, bind, ask. destruct (f p) as [a|]; [by apply Hk|done]. Qed.

Lemma ends_safe {A} (m : P A) (Q Q' : A -> Parser -> Prop) p : ends m Q p -> safe m Q' p -> ends m (fun a p' => Q a p' /\ Q' a p') p.
Proof. unfold ends, safe. by destruct (m p) as [a p'|f|]. Qed.

(** ** Scripts *)

(** Only the number of scripts changes, by at most [z]. *)
Definition light {A} (z : Z) (m : P (Src := SegmentedString) A) : Prop := forall p, ends m (fun _ p' => frame p p' /\ Z.of_nat (load p') <= Z.of_nat (load p) + z) p.

Lemma sameFrame_refl p : frame p p.
Proof. by constructor. Qed.

Lemma sameFrame_trans p1 p2 p3 : frame p1 p2 -> frame p2 p3 -> frame p1 p3.
Proof. intros [A1 A2 A3 A4] [B1 B2 B3 B4]. constructor; congruence. Qed.

Lemma light_bind {A B} z1 z2 (m : P A) (k : A -> P B) : light z1 m -> (forall a, light z2 (k a)) -> light (z1 + z2) (bind m k).
Proof.
  intros Hm Hk p. eapply ends_use; [apply Hm|]. intros a p1 [F1 L1]. eapply ends_mono; [apply Hk|]. intros b p2 [F2 L2]. split; [by apply (sameFrame_trans p p1)|lia].
Qed.

Lemma light_step {A B} z (m : P A) (k : A -> P B) : light 0 m -> (forall a, light z (k a)) -> light z (bind m k).
Proof. intros Hm Hk. rewrite <- (Z.add_0_l z). by apply light_bind. Qed.

Lemma light_last {A B} z (m : P A) (k : A -> P B) : light z m -> (forall a, light 0 (k a)) -> light z (bind m k).
Proof. intros Hm Hk. rewrite <- (Z.add_0_r z). by apply light_bind. Qed.

Lemma light_more {A} z z' (m : P A) : light z m -> z <= z' -> light z' m.
Proof. intros Hm Hz p. eapply ends_mono; [apply Hm|]. intros a p' [F L]. split; [done|lia]. Qed.

Lemma light_ret {A} (a : A) : light 0 (ret a).
Proof. intros p. split; [apply sameFrame_refl|lia]. Qed.

Lemma light_get : light 0 get.
Proof. intros p. split; [apply sameFrame_refl|lia]. Qed.

Lemma light_assert c : light 0 (assert c).
Proof. intros p. unfold ends, assert. destruct (c p); [|done]. split; [apply sameFrame_refl|lia]. Qed.

Lemma light_ask {A} (f : _ -> option A) : light 0 (ask f).
Proof. intros p. unfold ends, ask. destruct (f p); [|done]. split; [apply sameFrame_refl|lia]. Qed.

Lemma light_modify f : (forall p, frame p (f p) /\ m_scriptRunner (f p) = m_scriptRunner p) -> light 0 (modify f).
Proof. intros Hf p. destruct (Hf p) as [H1 H2]. split; [done|]. unfold load, deferred, runnerHasScript. rewrite H2. lia. Qed.

Definition weight (r : HTMLScriptRunner) : nat := (length (m_scriptsToExecuteAfterParsing r) + one (hasBlockingScript r))%nat.

Lemma light_runner f z : 0 <= z -> (forall r, Z.of_nat (weight (f r)) <= Z.of_nat (weight r) + z) -> light z (modifyRunner f).
Proof. intros Hz Hf p. split; [by constructor|]. unfold load, deferred, runnerHasScript. cbn. destruct (m_scriptRunner p) as [r|]; cbn; [exact (Hf r)|lia]. Qed.

#[local] Ltac light_step :=
  match goal with
  | |- light _ (bind _ _) => apply light_step; [|intros ?]
  | |- light _ (if ?b then _ else _) => destruct b
  | |- light _ (match ?x with _ => _ end) => destruct x
  | |- light _ (ret _) => apply light_ret
  | |- light _ get => apply light_get
  | |- light _ (assert _) => apply light_assert
  | |- light _ (ask _) => apply light_ask
  | |- light _ (modify _) => apply light_modify; intros ?; by split
  | |- light _ (modifyRunner _) => apply (light_runner _ 0); [lia|]; intros []; unfold weight, hasBlockingScript; cbn; lia
  | |- light _ (assertRunner _) => unfold assertRunner
  | |- light _ runner => unfold runner
  end.
#[local] Ltac lighten := repeat light_step.

Section Scripts.
Variable call : forall A, Call A -> P (Src := SegmentedString) A.
Hypothesis Hperform : forall p, call unit (CallPerform []) p = Ok tt p.

Lemma light_occasion o : light 0 (occasion call o).
Proof.
  intros p. unfold occasion, ends, bind, get. pose proof (Hstill o (world p)) as Hs. destruct (scripts o (world p)) as [script w]. cbn in Hs. subst script. unfold modify. rewrite Hperform. split; [by constructor|]. unfold load, deferred, runnerHasScript. cbn. lia.
Qed.

Lemma light_ready script : light 0 (isPendingScriptReady (Src := SegmentedString) script).
Proof. unfold isPendingScriptReady. lighten. Qed.

Lemma light_executePending z script release : light z release -> light z (executePendingScriptAndDispatchEvent call script release).
Proof.
  intros Hr. pose proof light_occasion as Ho. unfold executePendingScriptAndDispatchEvent. cbv zeta. apply light_step; [lighten|]. intros _. apply light_step; [lighten|]. intros p. apply light_step; [lighten|]. intros r.
  apply light_step; [destruct (isExecuting r); [lighten|apply Ho]|]. intros _. apply light_last; [exact Hr|]. intros element. lighten; apply Ho.
Qed.

Lemma light_schedule element : light 1 (scheduleScript call element).
Proof.
  unfold scheduleScript, requestDeferredScript, requestParsingBlockingScript. pose proof light_occasion as Ho. assert (H01 : forall A (m : P (Src := SegmentedString) A), light 0 m -> light 1 m) by (intros A m Hm; apply (light_more 0); [done|lia]).
  apply light_step; [lighten|]. intros p. cbv zeta. destruct (negb _); [apply H01; lighten|]. destruct (willExecuteWhenDocumentFinishedParsing _).
  { apply light_step; [lighten|]. intros p'. destruct (cachedScript _); [|apply H01; lighten]. apply light_runner; [lia|]. intros []. unfold weight. cbn. rewrite length_app. cbn. unfold hasBlockingScript. cbn. lia. }
  assert (Hb : forall v, light 1 (modifyRunner (Src := SegmentedString) (set_blocking v))) by (intros v; apply light_runner; [lia|]; intros []; unfold weight, hasBlockingScript; cbn; repeat case_bool_decide; cbn; lia).
  destruct (readyToBeParserExecuted _).
  - apply light_step; [lighten|]. intros r. destruct (_ =? _)%nat; [|apply H01, Ho]. apply light_runner; [lia|]. intros []. unfold weight, hasBlockingScript. cbn. repeat case_bool_decide; cbn; lia.
  - apply light_step; [lighten|]. intros _. apply light_step; [lighten|]. intros p'. destruct (cachedScript _); apply Hb.
Qed.

Lemma light_release : light (-1) (let! r := runner in let! script := ask (fun _ : Parser => m_parserBlockingScript r) in modifyRunner (set_blocking None) ;; ret (pendingElement script)).
Proof.
  intros p. unfold runner. apply ends_ask. intros r Er. apply ends_ask. intros script Es. unfold ends, bind, modifyRunner, modify, ret. split; [by constructor|]. unfold load, deferred, runnerHasScript. cbn. rewrite Er. cbn. unfold hasBlockingScript. cbn. rewrite Es. cbn. lia.
Qed.

(** *** Insertion points *)

(** What may change in a script. *)
Record sized (z : Z) (p p' : Parser) : Prop := mkSized {
  sized_tokenizer : m_tokenizer p' = m_tokenizer p;
  sized_tree : m_treeBuilder p' = m_treeBuilder p;
  sized_input : charCount (m_first (m_input p')) = charCount (m_first (m_input p));
  sized_load : Z.of_nat (load p') <= Z.of_nat (load p) + z
}.

Lemma sized_work z p p' : sized z p p' -> Z.of_nat (work p') <= Z.of_nat (work p) + z.
Proof.
  intros [S1 S2 S3 S4]. unfold work, measure, treeBuilderHasScript. rewrite S1, S2. change (len (abs (m_first (m_input p')))) with (charCount (m_first (m_input p'))). rewrite S3. change (charCount (m_first (m_input p))) with (len (abs (m_first (m_input p)))). lia.
Qed.

(** In the middle of something light. *)
Definition within (z : Z) (p0 p : Parser) : Prop := frame p0 p /\ Z.of_nat (load p) <= Z.of_nat (load p0) + z.

Lemma within_refl p : within 0 p p.
Proof. split; [apply sameFrame_refl|lia]. Qed.

Lemma ends_pre {A B} z z' p0 p (m : P (Src := SegmentedString) A) (k : A -> P B) Q : within z p0 p -> light z' m -> (forall a p', within (z + z') p0 p' -> ends (k a) Q p') -> ends (bind m k) Q p.
Proof. intros [F L] Hm Hk. eapply ends_use; [apply Hm|]. intros b p1 [F1 L1]. apply Hk. split; [by apply (sameFrame_trans p0 p)|lia]. Qed.

Lemma ends_close z p0 p1 p : inputOK (m_input p0) -> within z (set_input (openInsertionPoint (m_input p0)) p0) p1 -> sized 0 p p0 -> ends closePoint (fun _ p' => sized z p p') p1.
Proof.
  intros Hi [[F1 F2 F3 F4] L1] [S1 S2 S3 S4]. unfold closePoint. apply ends_ask. intros i Ei. rewrite F1 in Ei. cbn in Ei, F2, F3. unfold ends, modify. constructor; cbn; [congruence|congruence| |].
  - etransitivity; [by apply (count_reopen (m_input p0))|exact S3].
  - change (load (set_input i p1)) with (load p1). change (load (set_input (openInsertionPoint (m_input p0)) p0)) with (load p0) in L1. lia.
Qed.

Lemma within_sized z p p' : within z p p' -> sized z p p'.
Proof. intros [[F1 F2 F3 F4] Hl]. constructor; congruence. Qed.

Lemma within_input z p p' : within z p p' -> inputOK (m_input p) -> inputOK (m_input p').
Proof. intros [[F1 _ _ _] _]. by rewrite F1. Qed.

#[local] Ltac pre := eapply ends_pre; [eassumption| |intros ? ? ?]; [lighten|].

Lemma ends_executeBlocking p : inputOK (m_input p) -> ends (executeParsingBlockingScript call) (fun _ p' => sized (-1) p p') p.
Proof.
  intros Hi. pose proof (within_refl p) as Hw. unfold executeParsingBlockingScript. do 5 pre. eapply ends_pre; [eassumption|apply light_ready|]. intros ready p2 Hw2. pre. cbn in *.
  apply ends_bind. unfold ends at 1, openPoint, modify. eapply ends_pre; [apply within_refl|apply light_executePending, light_release|]. intros [] p3 Hw3. eapply (ends_close (-1)); [|exact Hw3|]; [eauto using within_input|]. match goal with Hx : within _ p ?q |- sized 0 p ?q => exact (within_sized 0 p q Hx) end.
Qed.

Lemma ends_runScript element p : inputOK (m_input p) -> ends (runScript call element) (fun _ p' => sized 1 p p') p.
Proof.
  intros Hi. pose proof (within_refl p) as Hw. unfold runScript. do 4 pre. match goal with r : HTMLScriptRunner |- _ => eapply ends_pre; [eassumption|destruct (isExecuting r); [apply light_ret|apply light_occasion]|] end. intros ? p2 Hw2. cbn in *.
  apply ends_bind. unfold ends at 1, openPoint, modify. set (po := set_input (openInsertionPoint (m_input p2)) p2). pose proof (within_refl po) as Ho. pre. eapply ends_pre; [eassumption|apply light_occasion|]. intros ? p4 Hw4. eapply ends_pre; [eassumption|apply light_schedule|]. intros ? p5 Hw5. pre. cbn in *.
  apply (ends_close 1 p2); [by apply (within_input _ p p2 Hw2)|eassumption|exact (within_sized 0 p p2 Hw2)].
Qed.

End Scripts.

(** ** Loops *)

(** The invariant is kept and the operation ends, with [k] more fuel than there is work. *)
Definition lasts {A} (k B : nat) (m : P (Src := SegmentedString) A) : Prop :=
  maintains m /\ forall n p, Inv n p -> (work p + k <= B)%nat -> ends m (fun _ p' => (work p' <= work p)%nat) p.

Lemma lasts_bind {A B'} k B (m : P A) (f : A -> P B') : lasts k B m -> (forall a, lasts k B (f a)) -> lasts k B (bind m f).
Proof.
  intros [M1 E1] Hf. split; [apply maintains_bind; [done|apply Hf]|]. intros n p Hp Hw. eapply ends_use; [apply ends_safe; [by apply (E1 n)|by apply M1]|]. intros a p1 [W1 Hp1]. cbv beta in W1, Hp1.
  eapply ends_mono; [apply (proj2 (Hf a) n); [exact Hp1|lia]|]. cbv beta. intros b p2 W2. lia.
Qed.

Lemma lasts_more {A} k B (m : P (Src := SegmentedString) A) : lasts k B m -> lasts (S k) B m.
Proof. intros [M1 E1]. split; [done|]. intros n p Hp Hw. apply (E1 n); [done|lia]. Qed.

Lemma lasts_light {A} k B (m : P (Src := SegmentedString) A) : maintains m -> light 0 m -> lasts k B m.
Proof. intros Hm Hl. split; [done|]. intros n p _ _. eapply ends_mono; [apply Hl|]. intros a p' Hw. pose proof (sized_work _ _ _ (within_sized _ _ _ Hw)). lia. Qed.

Lemma lasts_ret {A} k B (a : A) : lasts k B (ret a).
Proof. apply lasts_light; [apply maintains_ret|apply light_ret]. Qed.

Lemma lasts_get k B : lasts k B get.
Proof. apply lasts_light; [apply maintains_get|apply light_get]. Qed.

Lemma lasts_assert k B c : lasts k B (assert c).
Proof. apply lasts_light; [apply maintains_assert|apply light_assert]. Qed.

Lemma lasts_ask {A} k B (f : _ -> option A) : lasts k B (ask f).
Proof. apply lasts_light; [apply maintains_ask|apply light_ask]. Qed.

Lemma lasts_modify k B f : (forall p, frame p (f p) /\ m_scriptRunner (f p) = m_scriptRunner p) -> lasts k B (modify f).
Proof. intros Hf. apply lasts_light; [|by apply light_modify]. apply maintains_modify. intros p. destruct (Hf p) as [H1 H2]. split; [done|]. right. unfold runnerHasScript. by rewrite H2. Qed.

Lemma lasts_runner k B f : (forall r, hasBlockingScript (f r) = hasBlockingScript r /\ length (m_scriptsToExecuteAfterParsing (f r)) = length (m_scriptsToExecuteAfterParsing r)) -> lasts k B (modifyRunner f).
Proof. intros Hf. apply lasts_light; [apply maintains_runner; intros r; right; apply Hf|]. apply light_runner; [done|]. intros r. unfold weight. destruct (Hf r) as [-> ->]. lia. Qed.

Lemma lasts_waiting k B : lasts k B isWaitingForScripts.
Proof. unfold isWaitingForScripts. repeat first [apply lasts_get|apply lasts_assert|apply lasts_ret|apply lasts_bind; [|intros ?]]. Qed.

Create HintDb lasts.
Hint Resolve lasts_ret lasts_get lasts_assert lasts_ask lasts_waiting : lasts.

#[local] Ltac last_step :=
  match goal with
  | |- lasts _ _ (bind _ _) => apply lasts_bind; [|intros ?]
  | |- lasts _ _ (if ?b then _ else _) => destruct b
  | |- lasts _ _ (match ?x with _ => _ end) => destruct x
  | |- lasts _ _ (modify _) => apply lasts_modify; intros ?; by split
  | |- lasts _ _ (modifyRunner _) => apply lasts_runner; intros ?; by split
  | |- lasts _ _ (assertRunner _) => unfold assertRunner
  | |- lasts _ _ runner => unfold runner
  | |- lasts _ _ _ => solve [auto with lasts]
  end.
#[local] Ltac last := repeat last_step.

Section Loops.
Variable call : forall A, Call A -> P (Src := SegmentedString) A.
Variable B : nat.
Hypothesis Hcall : forall A (c : Call A), callCodes c -> maintains (call A c).
Hypothesis Hmutations : forall script p, stepsDo (mutationAction created) script -> outermost p -> safe (call unit (CallPerform script)) (fun _ p' => outermost p') p.
Hypothesis Hperform : forall p, (1 <= B)%nat -> call unit (CallPerform []) p = Ok tt p.
Hypothesis Hends : forall A (c : Call A), match c with CallPerform _ => False | _ => True end -> lasts 2 B (call A c).

Let Hpage := stillPage_ok created page Hstill.

Lemma lasts_occasion k o : (1 <= k)%nat -> lasts k B (occasion call o).
Proof.
  intros Hk. split; [by apply maintains_occasion|]. intros n p Hp Hw. eapply ends_mono; [apply light_occasion; intros p'; apply Hperform; lia|]. intros a p' Hw'. pose proof (sized_work _ _ _ (within_sized _ _ _ Hw')). lia.
Qed.

(** *** Scripts that block the parser *)

Lemma lasts_executeBlockingScripts : lasts 1 B (executeParsingBlockingScripts call).
Proof.
  split; [by apply maintains_executeBlockingScripts|]. intros n p Hp Hw. unfold executeParsingBlockingScripts, runner. apply ends_ask. intros r Er. destruct (m_parserBlockingScript r) as [script|]; [|unfold ends, ret; lia].
  eapply ends_use; [apply ends_safe; [apply light_ready|by apply (maintains_ready created script n)]|]. intros ready p1 [Hw1 Hp1]. pose proof (sized_work _ _ _ (within_sized _ _ _ Hw1)) as W1. destruct ready; [|unfold ends, ret; lia].
  eapply ends_use; [apply ends_safe; [apply ends_executeBlocking; [intros p'; apply Hperform; lia|apply Hp1]|by apply (maintains_executeBlocking created Hpage call Hcall n)]|]. intros [] p2 [Hs2 Hp2]. pose proof (sized_work _ _ _ Hs2) as W2.
  eapply ends_mono; [apply (proj2 (Hends unit CallBlockingScripts I) n); [exact Hp2|lia]|]. cbv beta. intros a p3 W3. lia.
Qed.

Lemma lasts_preloads k : lasts k B (appendCurrentInputStreamToPreloadScannerAndScan (Src := SegmentedString)).
Proof. unfold appendCurrentInputStreamToPreloadScannerAndScan. last. Qed.

(** A script that the tree builder has found may be put aside. *)
Lemma ends_execute n p element : Inv n p -> active p -> (work p + 2 <= B)%nat -> ends (execute call element) (fun _ p' => (work p' <= S (work p))%nat) p.
Proof.
  intros Hp Ha Hw. unfold execute. apply ends_bind. unfold ends at 1, get. cbv zeta.
  eapply ends_use; [apply ends_safe; [apply ends_runScript; [intros p'; apply Hperform; lia|apply Hp]|by apply (active_runScript created Hpage call Hcall Hmutations n)]|]. intros [] p1 [Hs1 Hp1]. pose proof (sized_work _ _ _ Hs1) as W1.
  match goal with |- ends ?m _ _ => assert (Hl : lasts 1 B m) end.
  { pose proof lasts_executeBlockingScripts. pose proof lasts_preloads. last. }
  eapply ends_mono; [apply (proj2 Hl n); [exact Hp1|lia]|]. cbv beta. intros a p2 W2. lia.
Qed.

Lemma lasts_runScripts : lasts 1 B (runScriptsForPausedTreeBuilder call).
Proof.
  split; [by apply maintains_runScripts|]. intros n p Hp Hw. unfold runScriptsForPausedTreeBuilder. apply ends_assert. intros _. apply ends_ask. intros [script b] E. unfold HTMLTreeBuilder.takeScriptToProcess, HTMLTreeBuilderState.bind, HTMLTreeBuilderState.ask in E.
  destruct (HTMLTreeBuilderState.m_scriptToProcess (m_treeBuilder p)) as [e|] eqn:Es; [|done]. injection E as <- <-. destruct (taken_active created n p Hp ltac:(by rewrite Es)) as [Hp' Ha'].
  apply ends_bind. unfold ends at 1, modify. apply ends_bind. unfold ends at 1, get. cbn [fst snd]. set (p1 := set_treeBuilder _ p) in *.
  assert (W1 : (S (work p1) = work p)%nat). { assert (E1 : treeBuilderHasScript p = true) by (unfold treeBuilderHasScript; by rewrite Es). unfold work. change (load p1) with (load p). change (m_tokenizer p1) with (m_tokenizer p). change (m_input p1) with (m_input p). change (treeBuilderHasScript p1) with false. rewrite E1. unfold one. lia. }
  destruct (m_scriptRunner p1); [|unfold ends, ret; lia]. eapply ends_mono; [apply (ends_execute n); [done|done|lia]|]. cbv beta. intros a p2 W2. lia.
Qed.

Lemma lasts_canTake mode session : lasts 1 B (canTakeNextToken call mode session).
Proof.
  unfold canTakeNextToken, runWaitingScript. pose proof lasts_runScripts. cbv zeta. last.
Qed.

(** *** Tokens *)

(** After a token there is less to do. *)
Lemma ends_token n p r t s : Inv n p -> noScripts p -> nextToken (m_tokenizer p) (m_first (m_input p)) = Some (r, t, s) ->
  let p1 := set_input (set_first s (m_input p)) (set_tokenizer t p) in if r then ends constructTreeFromHTMLToken (fun _ p' => (S (work p') <= work p)%nat) p1 else (work p1 <= work p)%nat.
Proof.
  intros Hp [Hs _] En. cbv zeta. destruct (nextToken_good _ _ _ _ _ (input_first _ (inv_input _ _ _ Hp)) En) as (Hg & Hc & Ea).
  assert (Hload : forall t' b', load (set_treeBuilder b' (set_tokenizer t' (set_input (set_first s (m_input p)) p))) = load p) by done.
  destruct (inv_cases created n p Hp) as [[pol Hcoup]|(Hse & H1 & H2 & H3)].
  - pose proof (nextToken_ok _ (abs (m_first (m_input p))) (coupled_ok _ _ _ _ Hcoup)) as Hok. unfold HTMLTokenizerRules.wp in Hok. rewrite Ea in Hok. destruct Hok as [_ Hm]. destruct r.
    + unfold ends. match goal with |- context [constructTreeFromHTMLToken ?q] => pose proof (construct_cases q) as Hcases; destruct (constructTreeFromHTMLToken q) as [u p'|f|] end; try done.
      destruct Hcases as (token & raw & b & Et & Eu & Eb & ->). destruct (token_step (Henv (lendTokenizer t (m_treeBuilder p))) pol _ _ _ _ _ token raw Hcoup Ea Et Eu) as (b' & Eb' & Hmore & _). cbn in Eb. rewrite Eb in Eb'. injection Eb' as <-. specialize (Hmore (abs s)).
      unfold work. rewrite Hs. cbn [m_tokenizer set_treeBuilder set_tokenizer set_input m_input m_first set_first] in *. change (load (set_treeBuilder _ _)) with (load p). unfold one. match goal with |- context [if ?x then _ else _] => destruct x end; lia.
    + unfold work. change (load (set_input _ _)) with (load p). change (treeBuilderHasScript (set_input _ _)) with (treeBuilderHasScript p). cbn [m_tokenizer set_tokenizer set_input m_input m_first set_first]. lia.
  - rewrite (idle_next _ _ H2 H3) in Ea. assert (Hx : (r, t, abs s) = (false, m_tokenizer p, abs (m_first (m_input p)))) by congruence. clear Ea. apply pair_eq in Hx as [Hx Ea]. apply pair_eq in Hx as [-> ->].
    unfold work. change (load (set_input _ _)) with (load p). change (treeBuilderHasScript (set_input _ _)) with (treeBuilderHasScript p). cbn [m_tokenizer set_tokenizer set_input m_input m_first set_first]. rewrite Ea. lia.
Qed.

Lemma lasts_pumpRound mode session : lasts 1 B (pumpRound call mode session).
Proof.
  split; [by apply (maintains_pumpRound Henv created Hpage call Hcall Hmutations)|]. intros n p Hp Hw. unfold pumpRound. eapply ends_use; [apply ends_safe; [by apply (proj2 (lasts_canTake mode session) n)|by apply (safe_canTake created Hpage call Hcall Hmutations n)]|].
  intros [take session'] p1 (W1 & Hp1 & Hs1). cbv beta in W1. cbn in Hs1. destruct take; cbn [negb orb]; [|unfold ends, ret; lia]. specialize (Hs1 eq_refl). cbn [negb orb]. destruct (needsYield session'); [unfold ends, ret; lia|].
  apply ends_bind. unfold ends at 1, get. apply ends_ask. intros [[r t] s] En. apply ends_bind. unfold ends at 1, modify. pose proof (ends_token n p1 r t s Hp1 Hs1 En) as Ht. pose proof (pump_token Henv created n p1 r t s Hp1 Hs1 En) as Hsafe. cbv zeta in Ht, Hsafe. destruct r; cbn [negb]; [|unfold ends, ret; lia].
  eapply ends_use; [apply ends_safe; [exact Ht|exact Hsafe]|]. intros [] p2 [W2 Hp2]. apply ends_assert. intros _. eapply ends_mono; [apply (proj2 (Hends PumpSession (CallPump mode session') I) n); [exact Hp2|lia]|]. cbv beta. intros a p3 W3. lia.
Qed.

(** *** Deferred scripts *)

Lemma lasts_waitingForParsing : lasts 1 B (executeScriptsWaitingForParsing call).
Proof.
  split; [by apply (maintains_waitingForParsing created Hpage)|]. intros n p Hp Hw. unfold executeScriptsWaitingForParsing, assertRunner, runner. apply ends_ask. intros r Er. destruct (m_scriptsToExecuteAfterParsing r) as [|first rest] eqn:El; [unfold ends, ret; lia|].
  do 2 (apply ends_bind, ends_ask; intros ? _; unfold ends at 1, assert; match goal with |- match (if ?x then _ else _) with _ => _ end => destruct x end; [|done]). apply ends_ask. intros x Ex. apply ends_bind. unfold ends at 1, get. destruct (negb _).
  - apply ends_assert. intros _. apply ends_bind. unfold ends at 1, modifyRunner, modify, ends, ret. unfold work, load, deferred, runnerHasScript, hasBlockingScript. cbn [m_scriptRunner set_scriptRunner m_tokenizer m_input m_treeBuilder]. rewrite Er. cbn. rewrite El. cbn. done.
  - apply ends_bind. unfold ends at 1, modifyRunner, modify. set (p1 := set_scriptRunner _ p).
    assert (W1 : (S (work p1) = work p)%nat). { unfold p1, work, load, deferred, runnerHasScript, hasBlockingScript. cbn [m_scriptRunner set_scriptRunner m_tokenizer m_input m_treeBuilder]. rewrite Er. cbn [fmap option_fmap option_map set_afterParsing m_scriptsToExecuteAfterParsing m_parserBlockingScript]. rewrite El. cbn [length]. change (treeBuilderHasScript (set_scriptRunner _ p)) with (treeBuilderHasScript p). lia. }
    assert (Hp1 : Inv n p1) by (apply (inv_frame created n p); [done| |done]; right; left; unfold p1, runnerHasScript; cbn; by rewrite Er).
    eapply ends_use; [apply ends_safe; [apply light_executePending; [intros p'; apply Hperform; lia|apply light_ret]|apply (maintains_executePending created Hpage call Hcall first _ (maintains_ret created _) n p1 Hp1)]|]. intros [] p2 [Hw2 Hp2]. pose proof (sized_work _ _ _ (within_sized _ _ _ Hw2)) as W2.
    apply ends_ask. intros r2 Er2. destruct (negb _); [unfold ends, ret; lia|]. eapply ends_mono; [apply (proj2 (Hends bool CallScriptsWaitingForParsing I) n); [exact Hp2|lia]|]. cbv beta. intros v p3 W3. lia.
Qed.

(** ** Operations *)

Lemma lasts_occasion2 o : lasts 2 B (occasion call o).
Proof. apply lasts_occasion. lia. Qed.
Hint Resolve lasts_occasion2 : lasts.

Lemma lasts_blocking : lasts 2 B (executeParsingBlockingScripts call).
Proof. apply lasts_more, lasts_executeBlockingScripts. Qed.

Lemma lasts_parsing : lasts 2 B (executeScriptsWaitingForParsing call).
Proof. apply lasts_more, lasts_waitingForParsing. Qed.
Hint Resolve lasts_blocking lasts_parsing : lasts.

Lemma lasts_pump mode : lasts 2 B (pumpTokenizer call mode).
Proof. unfold pumpTokenizer, afterPumping. last. Qed.
Hint Resolve lasts_pump : lasts.

Lemma lasts_pumpIfPossible mode : lasts 2 B (pumpTokenizerIfPossible call mode).
Proof. unfold pumpTokenizerIfPossible. last. Qed.
Hint Resolve lasts_pumpIfPossible : lasts.

Lemma lasts_runDeferred : lasts 2 B (attemptToRunDeferredScriptsAndEnd call).
Proof. unfold attemptToRunDeferredScriptsAndEnd, end_. last. Qed.
Hint Resolve lasts_runDeferred : lasts.

Lemma lasts_prepare : lasts 2 B (prepareToStopParsing call).
Proof. unfold prepareToStopParsing. last. Qed.
Hint Resolve lasts_prepare : lasts.

Lemma lasts_attemptToEnd : lasts 2 B (attemptToEnd call).
Proof. unfold attemptToEnd, shouldDelayEnd. last. Qed.

Lemma lasts_endIfDelayed : lasts 2 B (endIfDelayed call).
Proof. unfold endIfDelayed, shouldDelayEnd. last. Qed.
Hint Resolve lasts_attemptToEnd lasts_endIfDelayed : lasts.

Lemma lasts_resumeAfterScript : lasts 2 B (resumeParsingAfterScriptExecution call).
Proof. unfold resumeParsingAfterScriptExecution. last. Qed.
Hint Resolve lasts_resumeAfterScript : lasts.

Lemma lasts_notifyFinished x : lasts 2 B (notifyFinished call x).
Proof. unfold notifyFinished, executeScriptsWaitingForLoad. last. Qed.

Lemma lasts_stylesheets : lasts 2 B (executeScriptsWaitingForStylesheets call).
Proof. unfold executeScriptsWaitingForStylesheets, runnerScriptsWaitingForStylesheets. last. Qed.

Lemma lasts_timer : lasts 2 B (timerFired call).
Proof. unfold timerFired, resumeParsingAfterYield. last. Qed.

Lemma lasts_suspend : lasts 2 B (suspendScheduledTasks (Src := SegmentedString)).
Proof. unfold suspendScheduledTasks. last. Qed.

Lemma lasts_resume : lasts 2 B (resumeScheduledTasks (Src := SegmentedString)).
Proof. unfold resumeScheduledTasks. last. Qed.

Lemma lasts_stop : lasts 2 B (HTMLDocumentParser.stopParsing (Src := SegmentedString)).
Proof. unfold HTMLDocumentParser.stopParsing. last. Qed.

Lemma lasts_detach : lasts 2 B (detach (Src := SegmentedString)).
Proof.
  apply lasts_light; [apply maintains_detach|]. intros p. split; [by constructor|]. unfold load, deferred, runnerHasScript. cbn. destruct (m_scriptRunner p); cbn; unfold hasBlockingScript; cbn; lia.
Qed.

(** *** Input *)

Lemma inv_top p : Inv 0 p -> m_records (m_input p) = [].
Proof. intros Hp. by apply nil_length_inv, (inv_records _ _ _ Hp). Qed.

Lemma work_input p i n : charCount (m_first i) = (charCount (m_first (m_input p)) + n)%nat -> work (set_input i p) = (work p + 8 * n)%nat.
Proof.
  intros Hi. unfold work. change (load (set_input i p)) with (load p). change (treeBuilderHasScript (set_input i p)) with (treeBuilderHasScript p). cbn [m_tokenizer set_input m_input]. unfold measure.
  change (len (abs (m_first i))) with (charCount (m_first i)). rewrite Hi. change (charCount (m_first (m_input p))) with (len (abs (m_first (m_input p)))). lia.
Qed.

Lemma ends_append b text p : codes text -> Inv 0 p -> (work p + 8 * length text + 2 <= B)%nat -> ends (HTMLDocumentParser.append call b text) (fun _ p' => (work p' <= work p + 8 * length text)%nat) p.
Proof.
  intros Hc Hp Hw. unfold HTMLDocumentParser.append. apply ends_bind. unfold ends at 1, get. destruct (isStopped p); [unfold ends, ret; lia|]. cbv zeta.
  match goal with |- ends (bind ?m _) _ _ => assert (Hl : lasts 2 B m) by last end. eapply ends_use; [apply ends_safe; [apply (proj2 Hl 0%nat); [done|lia]|by apply (proj1 Hl)]|]. intros [] p1 [W1 Hp1]. cbv beta in W1.
  apply ends_ask. intros i Ei. pose proof (append_good _ _ _ (inv_input _ _ _ Hp1) (good_string b text Hc) Ei) as (M1 & M2 & M3). pose proof (append_count _ _ _ (inv_input _ _ _ Hp1) (good_string b text Hc) (inv_top _ Hp1) Ei) as Hn. rewrite count_string in Hn by done.
  apply ends_bind. unfold ends at 1, modify. pose proof (work_input p1 i _ Hn) as W2. assert (Hp2 : Inv 0 (set_input i p1)) by (apply inv_open; [done|done|rewrite M2; apply Hp1|done]).
  match goal with |- ends ?m _ _ => assert (Hl2 : lasts 2 B m) by last end. eapply ends_mono; [apply (proj2 Hl2 0%nat); [done|lia]|]. cbv beta. intros u p3 W3. lia.
Qed.

Lemma ends_finish p : Inv 0 p -> (work p + 8 + 2 <= B)%nat -> ends (finish call) (fun _ p' => (work p' <= work p + 8)%nat) p.
Proof.
  intros Hp Hw. unfold finish. apply ends_bind. unfold ends at 1, get.
  assert (He : forall p1, Inv 0 p1 -> (work p1 <= work p + 8)%nat -> ends (attemptToEnd call) (fun _ p' => (work p' <= work p + 8)%nat) p1).
  { intros p1 Hp1 W1. eapply ends_mono; [apply (proj2 lasts_attemptToEnd 0%nat); [done|lia]|]. cbv beta. intros u p2 W2. lia. }
  destruct (haveSeenEndOfFile _); [apply ends_bind; unfold ends at 1, ret; apply He; [done|lia]|]. apply ends_bind, ends_ask. intros i Ei. unfold ends at 1, modify.
  pose proof (mark_good _ _ (inv_input _ _ _ Hp) Ei) as (M1 & M2 & M3). pose proof (mark_count _ _ (inv_input _ _ _ Hp) (inv_top _ Hp) Ei) as Hn. rewrite <- Nat.add_1_r in Hn. pose proof (work_input p i _ Hn) as W2. apply He; [|lia].
  apply inv_open; [done|done|rewrite M2; apply Hp|done].
Qed.

End Loops.

(** ** The knot *)

Let HpageOK := stillPage_ok created page Hstill.

Lemma run_perform fuel p : (1 <= fuel)%nat -> run fuel unit (CallPerform []) p = Ok tt p.
Proof. destruct fuel; [lia|done]. Qed.

Lemma lasts_run fuel A (c : Call A) : match c with CallPerform _ => False | _ => True end -> lasts 2 fuel (run fuel A c).
Proof.
  revert A c. induction fuel as [|fuel IH]; intros A c Hc.
  - split; [apply (run_maintains Henv created HpageOK); by destruct c|]. intros n p _ Hw. lia.
  - destruct (run_maintains Henv created HpageOK fuel) as [R1 R2]. assert (Hnext : forall m : P (Src := SegmentedString) A, lasts 1 fuel m -> lasts 2 (S fuel) m) by (intros m [M1 E1]; split; [done|]; intros n p Hp Hw; apply (E1 n); [done|lia]).
    destruct c; cbn [run]; [done|..]; apply Hnext; [apply lasts_pumpRound|apply lasts_executeBlockingScripts|apply lasts_waitingForParsing]; try done; intros; by apply run_perform.
Qed.

(** What an event may add to the work. *)
Definition cost (e : Event) : nat := match e with Data _ text => 8 * length text | EndOfData => 8 | _ => 0 end.

Lemma ends_handle fuel e p : eventStill e -> Inv 0 p -> (work p + cost e + 2 <= fuel)%nat -> ends (handle fuel e) (fun _ p' => (work p' <= work p + cost e)%nat) p.
Proof.
  intros He Hp Hw. destruct (run_maintains Henv created HpageOK fuel) as [R1 R2]. pose proof (fun p => run_perform fuel p) as Hperf. pose proof (lasts_run fuel) as Hrun.
  assert (Hl : forall m : P (Src := SegmentedString) unit, cost e = 0%nat -> lasts 2 fuel m -> ends m (fun _ p' => (work p' <= work p + cost e)%nat) p) by (intros m Hc [_ E1]; eapply ends_mono; [apply (E1 0%nat); [done|lia]|]; cbv beta; intros; lia).
  destruct e; cbn [handle eventStill] in *; try (apply Hl; [done|]).
  - by apply ends_append with (B := fuel).
  - by apply ends_finish with (B := fuel).
  - by apply lasts_timer.
  - by apply lasts_notifyFinished.
  - by apply lasts_stylesheets.
  - subst script. apply lasts_light; [apply R1; constructor|]. intros q. unfold ends. rewrite run_perform by (cbn in Hw; lia). apply within_refl.
  - apply lasts_suspend.
  - apply lasts_resume.
  - apply lasts_stop.
  - apply lasts_detach.
Qed.

Definition totalCost (events : list (World * Event)) : nat := list_sum (map (fun x => cost (snd x)) events).

Lemma ends_handleAll fuel events p : Forall (fun x => eventStill (snd x)) events -> Inv 0 p -> (work p + totalCost events + 2 <= fuel)%nat -> ends (handleAll fuel events) (fun _ _ => True) p.
Proof.
  revert p. induction events as [|[w e] events IH]; intros p He Hp Hw; cbn [handleAll]; [done|]. apply Forall_cons_1 in He as [He1 He2]. change (totalCost ((w, e) :: events)) with (cost e + totalCost events)%nat in Hw. cbn in He1. apply ends_bind. unfold ends at 1, modify.
  assert (Hp1 : Inv 0 (set_world w p)) by (apply (inv_frame created 0 p); [done|by right; left|done]). change (work p) with (work (set_world w p)) in Hw.
  eapply ends_use; [apply ends_safe; [apply ends_handle; [done|done|lia]|apply (maintains_handle Henv created HpageOK fuel e); [|exact Hp1]]|].
  - destruct e; try done. cbn in He1. subst script. constructor.
  - intros [] p2 [W2 Hp2]. cbv beta in W2, Hp2. apply IH; [done|done|lia].
Qed.

End Termination.

(** ** Documents *)

(** C7: On a page whose scripts leave the parser alone, for a parser that a script has
    created or not, with any chunks, yields, blocking and deferred scripts, the loops of
    the parser end at every event: for a document of n characters 8 n + 10 rounds are
    enough, unless an assertion fails or an unsupported start tag comes. *)
Theorem parsing_ends {page : Page} {env : HTMLTreeBuilderState.Environment} {answers : Answers} `{FoldCase} `{EntityTable} `{!EntityTableOK} fuel events root policy maximumDOMTreeDepth inQuirksMode createdByScript limit next w :
  (forall b, documented (answersAt b)) -> stillPage page -> Forall (fun x => eventStill (snd x)) events -> (totalCost events + 2 <= fuel)%nat ->
  let p : HTMLDocumentParser SegmentedString := newParser root policy maximumDOMTreeDepth inQuirksMode createdByScript limit next w in
  (exists p', handleAll fuel events p = Ok tt p') \/ handleAll fuel events p = Failed AssertionFailed \/
  exists token b, handleAll (tree := strictConstruction) fuel events p = Failed (TreeBuilderFailed token b) /\ unsupported token b = true.
Proof.
  intros Henv Hstill Hev Hfuel p. pose proof (inv_newParser createdByScript root policy maximumDOMTreeDepth inQuirksMode limit next w) as Hp.
  assert (Hcodes : Forall (fun x => eventCodes (snd x)) events) by (apply (list.Forall_impl _ _ _ Hev); intros [w' e] He; destruct e; try done; cbn in He; subst; constructor).
  assert (Hs : safe (handleAll (tree := strictConstruction) fuel events) (fun _ p' => Inv createdByScript 0 p') p) by exact (maintains_handleAll Henv createdByScript (stillPage_ok createdByScript page Hstill) fuel events Hcodes 0%nat p Hp).
  assert (He : ends (handleAll (tree := strictConstruction) fuel events) (fun _ _ => True) p) by (by apply (ends_handleAll Henv Hstill createdByScript fuel events p Hev Hp)).
  unfold safe in Hs. unfold ends in He. destruct (approx_handleAll fuel events p) as [<-|(token & b & E)]; [|right; right; exists token, b; by rewrite E in Hs].
  destruct (handleAll _ _ p) as [[] p'|[|token b]|]; [left; by exists p'|by right; left|right; right; by exists token, b|done].
Qed.

#[local] Existing Instance exampleEnvironment.
#[local] Existing Instance exampleAnswers.
#[local] Existing Instance exampleTable.
#[local] Instance terminationFold : FoldCase := asciiFold.

(** A deferred script that is loaded after the end of the file. *)
Definition deferredEvents : list (World (Page := deferredPage) * Event (page := deferredPage)) :=
  [(w0, Data true (lit "<p>x<script></sc")); (w0, Data false (lit "ript>y&amp;")); (w0, EndOfData); (mkWorld 1 true 1, @ResourceLoaded deferredPage 0%nat)].

Lemma parsing_ends_witness : totalCost (page := deferredPage) deferredEvents = 224%nat /\
  exists p', handleAll (page := deferredPage) 226 deferredEvents (exampleParser deferredPage false 100000 w0) = Ok tt p'.
Proof.
  split; [reflexivity|].
  destruct (@parsing_ends deferredPage exampleEnvironment exampleAnswers asciiFold exampleTable exampleTable_ok 226 deferredEvents exampleDocument HTMLConstructionSite.AllowScriptingContent 512 false false 100000 1 w0 (fun _ => exampleDocumented)) as [H|[E|(token & b & E & _)]].
  - intros o w. destruct o; reflexivity.
  - constructor; [by apply codes_check|]. constructor; [by apply codes_check|]. by repeat constructor.
  - apply Nat.leb_le. reflexivity.
  - exact H.
  - exfalso. revert E. vm_compute. discriminate.
  - exfalso. revert E. vm_compute. discriminate.
Defined.
