(* ===== verification/Base64.v ===== *)
(** * [WTF/wtf/text/Base64.cpp]

    Base64 encoding and decoding.  A [char] is signed, as on the platforms the
    engine is built for, so the bytes of a buffer are in [-128, 128) and the
    right shifts are arithmetic.  [None] in the encoder is a write beyond the
    vector that was grown for the output; in the decoder, a read or a write
    beyond the vector it converts in place. *)
From S2P Require Import Prelude.
From stdpp Require Import base list numbers option.
From Stdlib Require Import ZArith Lia.
#[local] Open Scope Z_scope.

Module Base64.

Definition nonAlphabet : Z := -1.

Definition base64EncMap : list Z := [
  0x41; 0x42; 0x43; 0x44; 0x45; 0x46; 0x47; 0x48;
  0x49; 0x4A; 0x4B; 0x4C; 0x4D; 0x4E; 0x4F; 0x50;
  0x51; 0x52; 0x53; 0x54; 0x55; 0x56; 0x57; 0x58;
  0x59; 0x5A; 0x61; 0x62; 0x63; 0x64; 0x65; 0x66;
  0x67; 0x68; 0x69; 0x6A; 0x6B; 0x6C; 0x6D; 0x6E;
  0x6F; 0x70; 0x71; 0x72; 0x73; 0x74; 0x75; 0x76;
  0x77; 0x78; 0x79; 0x7A; 0x30; 0x31; 0x32; 0x33;
  0x34; 0x35; 0x36; 0x37; 0x38; 0x39; 0x2B; 0x2F].

Definition base64DecMap : list Z := [
  nonAlphabet; nonAlphabet; nonAlphabet; nonAlphabet; nonAlphabet; nonAlphabet; nonAlphabet; nonAlphabet;
  nonAlphabet; nonAlphabet; nonAlphabet; nonAlphabet; nonAlphabet; nonAlphabet; nonAlphabet; nonAlphabet;
  nonAlphabet; nonAlphabet; nonAlphabet; nonAlphabet; nonAlphabet; nonAlphabet; nonAlphabet; nonAlphabet;
  nonAlphabet; nonAlphabet; nonAlphabet; nonAlphabet; nonAlphabet; nonAlphabet; nonAlphabet; nonAlphabet;
  nonAlphabet; nonAlphabet; nonAlphabet; nonAlphabet; nonAlphabet; nonAlphabet; nonAlphabet; nonAlphabet;
  nonAlphabet; nonAlphabet; nonAlphabet; 0x3E; nonAlphabet; nonAlphabet; nonAlphabet; 0x3F;
  0x34; 0x35; 0x36; 0x37; 0x38; 0x39; 0x3A; 0x3B;
  0x3C; 0x3D; nonAlphabet; nonAlphabet; nonAlphabet; nonAlphabet; nonAlphabet; nonAlphabet;
  nonAlphabet; 0x00; 0x01; 0x02; 0x03; 0x04; 0x05; 0x06;
  0x07; 0x08; 0x09; 0x0A; 0x0B; 0x0C; 0x0D; 0x0E;
  0x0F; 0x10; 0x11; 0x12; 0x13; 0x14; 0x15; 0x16;
  0x17; 0x18; 0x19; nonAlphabet; nonAlphabet; nonAlphabet; nonAlphabet; nonAlphabet;
  nonAlphabet; 0x1A; 0x1B; 0x1C; 0x1D; 0x1E; 0x1F; 0x20;
  0x21; 0x22; 0x23; 0x24; 0x25; 0x26; 0x27; 0x28;
  0x29; 0x2A; 0x2B; 0x2C; 0x2D; 0x2E; 0x2F; 0x30;
  0x31; 0x32; 0x33; nonAlphabet; nonAlphabet; nonAlphabet; nonAlphabet; nonAlphabet].

Definition base64URLEncMap : list Z := [
  0x41; 0x42; 0x43; 0x44; 0x45; 0x46; 0x47; 0x48;
  0x49; 0x4A; 0x4B; 0x4C; 0x4D; 0x4E; 0x4F; 0x50;
  0x51; 0x52; 0x53; 0x54; 0x55; 0x56; 0x57; 0x58;
  0x59; 0x5A; 0x61; 0x62; 0x63; 0x64; 0x65; 0x66;
  0x67; 0x68; 0x69; 0x6A; 0x6B; 0x6C; 0x6D; 0x6E;
  0x6F; 0x70; 0x71; 0x72; 0x73; 0x74; 0x75; 0x76;
  0x77; 0x78; 0x79; 0x7A; 0x30; 0x31; 0x32; 0x33;
  0x34; 0x35; 0x36; 0x37; 0x38; 0x39; 0x2D; 0x5F].

Definition base64URLDecMap : list Z := [
  nonAlphabet; nonAlphabet; nonAlphabet; nonAlphabet; nonAlphabet; nonAlphabet; nonAlphabet; nonAlphabet;
  nonAlphabet; nonAlphabet; nonAlphabet; nonAlphabet; nonAlphabet; nonAlphabet; nonAlphabet; nonAlphabet;
  nonAlphabet; nonAlphabet; nonAlphabet; nonAlphabet; nonAlphabet; nonAlphabet; nonAlphabet; nonAlphabet;
  nonAlphabet; nonAlphabet; nonAlphabet; nonAlphabet; nonAlphabet; nonAlphabet; nonAlphabet; nonAlphabet;
  nonAlphabet; nonAlphabet; nonAlphabet; nonAlphabet; nonAlphabet; nonAlphabet; nonAlphabet; nonAlphabet;
  nonAlphabet; nonAlphabet; nonAlphabet; nonAlphabet; nonAlphabet; 0x3E; nonAlphabet; nonAlphabet;
  0x34; 0x35; 0x36; 0x37; 0x38; 0x39; 0x3A; 0x3B;
  0x3C; 0x3D; nonAlphabet; nonAlphabet; nonAlphabet; nonAlphabet; nonAlphabet; nonAlphabet;
  nonAlphabet; 0x00; 0x01; 0x02; 0x03; 0x04; 0x05; 0x06;
  0x07; 0x08; 0x09; 0x0A; 0x0B; 0x0C; 0x0D; 0x0E;
  0x0F; 0x10; 0x11; 0x12; 0x13; 0x14; 0x15; 0x16;
  0x17; 0x18; 0x19; nonAlphabet; nonAlphabet; nonAlphabet; nonAlphabet; 0x3F;
  nonAlphabet; 0x1A; 0x1B; 0x1C; 0x1D; 0x1E; 0x1F; 0x20;
  0x21; 0x22; 0x23; 0x24; 0x25; 0x26; 0x27; 0x28;
  0x29; 0x2A; 0x2B; 0x2C; 0x2D; 0x2E; 0x2F; 0x30;
  0x31; 0x32; 0x33; nonAlphabet; nonAlphabet; nonAlphabet; nonAlphabet; nonAlphabet].

Inductive Base64EncodePolicy : Type :=
| Base64DoNotInsertLFs
| Base64InsertLFs
| Base64URLPolicy.

Inductive Base64DecodePolicy : Type :=
| Base64FailOnInvalidCharacterOrExcessPadding
| Base64FailOnInvalidCharacter
| Base64IgnoreWhitespace
| Base64IgnoreInvalidCharacters.

#[export] Instance Base64DecodePolicy_eq_dec : EqDecision Base64DecodePolicy.
Proof. solve_decision. Defined.

(** ** Encoding *)

Definition UINT_MAX : Z := 2 ^ 32 - 1.

Definition maxInputBufferSize : Z := UINT_MAX / 77 * 76 / 4 * 3 - 2.

(** [encodeMap[i]]. *)
Definition at_ (map : list Z) (i : Z) : Z := default 0 (map !! Z.to_nat i).

(** The loop over groups of three bytes: what it appends to the output, and the
    bytes that are left.  [count] is an [int]. *)
Fixpoint encodeLoop (map : list Z) (insertLFs : bool) (count : Z) (data : list Z)
  : list Z * Z * list Z :=
  match data with
  | a :: b :: c :: rest =>
      let lf := if insertLFs && negb (count =? 0) && (Z.rem count 76 =? 0) then [10] else [] in
      let count := if insertLFs then swrap 32 (count + 4) else count in
      let '(out, count, rest) := encodeLoop map insertLFs count rest in
      (lf ++ at_ map (Z.land (Z.shiftr a 2) 63)
          :: at_ map (Z.lor (Z.land (Z.shiftr b 4) 15) (Z.land (Z.shiftl a 4) 63))
          :: at_ map (Z.lor (Z.land (Z.shiftr c 6) 3) (Z.land (Z.shiftl b 2) 63))
          :: at_ map (Z.land c 63) :: out, count, rest)
  | _ => ([], count, data)
  end.

(** The one or two bytes after the loop. *)
Definition encodeTail (map : list Z) (insertLFs : bool) (count : Z) (data : list Z) : list Z :=
  match data with
  | [] => []
  | a :: rest =>
      (if insertLFs && (0 <? count) && (Z.rem count 76 =? 0) then [10] else [])
      ++ at_ map (Z.land (Z.shiftr a 2) 63)
      :: match rest with
         | b :: _ =>
             [at_ map (Z.lor (Z.land (Z.shiftr b 4) 15) (Z.land (Z.shiftl a 4) 63));
              at_ map (Z.land (Z.shiftl b 2) 63)]
         | [] => [at_ map (Z.land (Z.shiftl a 4) 63)]
         end
  end.

(** [outLength], before and after the line feeds are counted in. *)
Definition plainOutLength (len : Z) : Z := (len + 2) / 3 * 4.

Definition insertsLFs (policy : Base64EncodePolicy) (len : Z) : bool :=
  match policy with Base64InsertLFs => 76 <? plainOutLength len | _ => false end.

Definition outLengthOf (policy : Base64EncodePolicy) (len : Z) : Z :=
  let n := plainOutLength len in
  if insertsLFs policy len then n + (n - 1) / 76 else n.

Definition base64EncodeInternal (data : list Z) (policy : Base64EncodePolicy) (map : list Z)
  : option (list Z) :=
  let len := Z.of_nat (length data) in
  if (len =? 0) || (maxInputBufferSize <? len) then Some []
  else
    let insertLFs := insertsLFs policy len in
    let '(out, count, rest) := encodeLoop map insertLFs 0 data in
    let out := out ++ encodeTail map insertLFs count rest in
    let outLength := Z.to_nat (outLengthOf policy len) in
    if (outLength <? length out)%nat then None
    else
      match policy with
      | Base64URLPolicy => Some out
      | _ => Some (out ++ replicate (outLength - length out) 61)
      end.

Definition base64Encode (data : list Z) (policy : Base64EncodePolicy) : option (list Z) :=
  base64EncodeInternal data policy base64EncMap.

Definition base64URLEncode (data : list Z) : option (list Z) :=
  base64EncodeInternal data Base64URLPolicy base64URLEncMap.

(** ** Decoding *)

Section Decode.
(** [u_charDirection(c) == U_WHITE_SPACE_NEUTRAL], of ICU. *)
Context (isUnicodeWhiteSpace : Z -> bool).

Definition isASCIISpace (c : Z) : bool :=
  (c <=? 32) && ((c =? 32) || ((c <=? 0xD) && (0x9 <=? c))).

Definition isSpaceOrNewline (c : Z) : bool :=
  let c := uwrap 16 c in
  if c <=? 0x7F then isASCIISpace c else isUnicodeWhiteSpace c.

Definition decodeCharacter (map : list Z) (ch : Z) : Z :=
  if ch <? 128 then at_ map ch else nonAlphabet.

(** The first loop: the values of the characters of the alphabet, in order, and
    the number of equals signs; [None] is [return false]. *)
Fixpoint decodeLoop (map : list Z) (policy : Base64DecodePolicy) (length_ : Z) (data : list Z)
  (equalsSignCount : Z) (out : list Z) : option (list Z * Z) :=
  match data with
  | [] => Some (out, equalsSignCount)
  | ch :: data =>
      if ch =? 61 then
        let equalsSignCount := equalsSignCount + 1 in
        if bool_decide (policy = Base64FailOnInvalidCharacterOrExcessPadding)
           && (negb (length_ mod 4 =? 0) || (2 <? equalsSignCount))
        then None
        else decodeLoop map policy length_ data equalsSignCount out
      else
        let decodedCharacter := decodeCharacter map ch in
        if negb (decodedCharacter =? nonAlphabet) then
          if negb (equalsSignCount =? 0) then None
          else decodeLoop map policy length_ data equalsSignCount (out ++ [decodedCharacter])
        else
          match policy with
          | Base64FailOnInvalidCharacterOrExcessPadding | Base64FailOnInvalidCharacter => None
          | Base64IgnoreWhitespace =>
              if negb (isSpaceOrNewline ch) then None
              else decodeLoop map policy length_ data equalsSignCount out
          | Base64IgnoreInvalidCharacters => decodeLoop map policy length_ data equalsSignCount out
          end
  end.

End Decode.

(** [out[didx] = ...] for the three bytes made of [out[sidx]] and the three
    entries after it; the results are [char]s. *)
Definition byte0 (a b : Z) : Z := swrap 8 (Z.lor (Z.land (Z.shiftl a 2) 255) (Z.land (Z.shiftr b 4) 3)).
Definition byte1 (b c : Z) : Z := swrap 8 (Z.lor (Z.land (Z.shiftl b 4) 255) (Z.land (Z.shiftr c 2) 15)).
Definition byte2 (c d : Z) : Z := swrap 8 (Z.lor (Z.land (Z.shiftl c 6) 255) (Z.land d 63)).

(** A store, which must be inside the vector. *)
Definition store (i : nat) (v : Z) (out : list Z) : option (list Z) :=
  if (i <? length out)%nat then Some (<[i := v]> out) else None.

(** One store that combines two entries. *)
Definition combine (f : Z -> Z -> Z) (didx i j : nat) (out : list Z) : option (list Z) :=
  match out !! i, out !! j with
  | Some a, Some b => store didx (f a b) out
  | _, _ => None
  end.

(** The conversion in place, from four entries to three bytes. *)
Fixpoint convertLoop (fuel : nat) (outLength sidx didx : nat) (out : list Z)
  : option (list Z * nat * nat) :=
  match fuel with
  | O => None
  | S fuel =>
      if (didx <? outLength - 2)%nat then
        match combine byte0 didx sidx (sidx + 1) out with
        | None => None
        | Some out =>
            match combine byte1 (didx + 1) (sidx + 1) (sidx + 2) out with
            | None => None
            | Some out =>
                match combine byte2 (didx + 2) (sidx + 2) (sidx + 3) out with
                | None => None
                | Some out => convertLoop fuel outLength (sidx + 4) (didx + 3) out
                end
            end
        end
      else Some (out, sidx, didx)
  end.

(** The whole conversion; the vector is shrunk to [outLength] at the end. *)
Definition convert (outLength : nat) (out : list Z) : option (list Z) :=
  match (if (1 <? outLength)%nat then convertLoop (S outLength) outLength 0 0 out
         else Some (out, 0%nat, 0%nat)) with
  | None => None
  | Some (out, sidx, didx) =>
      match (if (didx <? outLength)%nat then combine byte0 didx sidx (sidx + 1) out else Some out) with
      | None => None
      | Some out =>
          match (if (didx + 1 <? outLength)%nat
                 then combine byte1 (didx + 1) (sidx + 1) (sidx + 2) out else Some out) with
          | None => None
          | Some out => Some (take outLength out)
          end
      end
  end.

(** [base64DecodeInternal]: [Some None] is [return false].  The vector has the
    length of the input; the entries behind the decoded characters are whatever
    [grow] leaves there, given here as [fill]. *)
Definition base64DecodeInternal (isUnicodeWhiteSpace : Z -> bool) (fill : Z) (data : list Z)
  (policy : Base64DecodePolicy) (map : list Z) : option (option (list Z)) :=
  if (length data =? 0)%nat then Some (Some [])
  else
    match decodeLoop isUnicodeWhiteSpace map policy (Z.of_nat (length data)) data 0 [] with
    | None => Some None
    | Some (sextets, equalsSignCount) =>
        let outLength := length sextets in
        if (outLength =? 0)%nat then
          Some (if equalsSignCount =? 0 then Some (replicate (length data) fill) else None)
        else if (outLength mod 4 =? 1)%nat then Some None
        else
          let n := (outLength - (outLength + 3) / 4)%nat in
          if (n =? 0)%nat then Some None
          else
            match convert n (sextets ++ replicate (length data - outLength) fill) with
            | None => None
            | Some out => Some (Some out)
            end
    end.

Definition base64Decode (isUnicodeWhiteSpace : Z -> bool) (fill : Z) (data : list Z)
  (policy : Base64DecodePolicy) : option (option (list Z)) :=
  base64DecodeInternal isUnicodeWhiteSpace fill data policy base64DecMap.

Definition base64URLDecode (isUnicodeWhiteSpace : Z -> bool) (fill : Z) (data : list Z)
  : option (option (list Z)) :=
  base64DecodeInternal isUnicodeWhiteSpace fill data Base64FailOnInvalidCharacter base64URLDecMap.

Example base64_example :
  base64Encode (lit "hello") Base64DoNotInsertLFs = Some (lit "aGVsbG8=") /\
  base64Decode (fun _ => false) 0 (lit "aGVsbG8=") Base64FailOnInvalidCharacterOrExcessPadding
  = Some (Some (lit "hello")).
Proof. split; reflexivity. Qed.

End Base64.
