(* ===== verification/Base64Props.v ===== *)
(** * Correctness of the Base64 codec

    Encoding never writes beyond its output, decoding never reads or writes
    beyond its vector, and decoding inverts encoding. *)
From S2P Require Import Prelude Base64.
From stdpp Require Import base list numbers option.
From Stdlib Require Import ZArith Lia.
#[local] Open Scope Z_scope.
Import Base64.

(** ** Values of six bits *)

(** The sextets that three, two or one bytes are encoded as. *)
Definition sextet0 (a : Z) : Z := Z.land (Z.shiftr a 2) 63.
Definition sextet1 (a b : Z) : Z := Z.lor (Z.land (Z.shiftr b 4) 15) (Z.land (Z.shiftl a 4) 63).
Definition sextet2 (b c : Z) : Z := Z.lor (Z.land (Z.shiftr c 6) 3) (Z.land (Z.shiftl b 2) 63).
Definition sextet3 (c : Z) : Z := Z.land c 63.

Fixpoint sextets (data : list Z) : list Z :=
  match data with
  | a :: b :: c :: rest => sextet0 a :: sextet1 a b :: sextet2 b c :: sextet3 c :: sextets rest
  | [a; b] => [sextet0 a; sextet1 a b; Z.land (Z.shiftl b 2) 63]
  | [a] => [sextet0 a; Z.land (Z.shiftl a 4) 63]
  | [] => []
  end.

(** The bytes that sextets stand for. *)
Fixpoint bytes (l : list Z) : list Z :=
  match l with
  | a :: b :: c :: d :: rest => byte0 a b :: byte1 b c :: byte2 c d :: bytes rest
  | [a; b; c] => [byte0 a b; byte1 b c]
  | [a; b] => [byte0 a b]
  | _ => []
  end.

Definition isChar (c : Z) : Prop := -128 <= c < 128.

Definition isSextet (c : Z) : Prop := 0 <= c < 64.

Lemma land_sextet x : isSextet (Z.land x 63).
Proof.
  change 63 with (Z.ones 6). rewrite Z.land_ones by lia. unfold isSextet.
  pose proof (Z.mod_pos_bound x (2 ^ 6)). lia.
Qed.

Lemma land_bound x n : 0 <= n -> 0 <= Z.land x (Z.ones n) < 2 ^ n.
Proof. intros Hn. rewrite Z.land_ones by lia. apply Z.mod_pos_bound. lia. Qed.

Lemma lor_sextet a b : isSextet a -> isSextet b -> isSextet (Z.lor a b).
Proof.
  intros Ha Hb. assert (E : Z.lor a b = Z.land (Z.lor a b) (Z.ones 6)).
  { rewrite Z.land_lor_distr_l, !Z.land_ones by lia. unfold isSextet in *.
    by rewrite !Z.mod_small by lia. }
  rewrite E. apply land_sextet.
Qed.

Lemma bits_sextet x n : (n = 2 \/ n = 4) -> isSextet (Z.land x (Z.ones n)).
Proof.
  intros Hn. pose proof (land_bound x n). unfold isSextet. destruct Hn as [-> | ->]; lia.
Qed.

Lemma sextets_ok data : Forall isSextet (sextets data).
Proof.
  induction data as [data IH] using (induction_ltof1 _ (@length Z)). unfold ltof in IH.
  destruct data as [|a [|b [|c rest]]]; simpl; unfold sextet0, sextet1, sextet2, sextet3;
    repeat (constructor; [first [apply land_sextet|apply lor_sextet; [|apply land_sextet];
      first [apply (bits_sextet _ 2); by left|apply (bits_sextet _ 4); by right]]|]); try done.
  apply IH. simpl. lia.
Qed.

(** *** Three bytes and back *)

Lemma byte0_sextets a b : isChar a -> isChar b -> byte0 (sextet0 a) (sextet1 a b) = a.
Proof.
  intros Ha Hb. unfold isChar in *. unfold sextet1.
  pose proof (land_bound (Z.shiftr b 4) 4) as Hk. change (Z.ones 4) with 15 in Hk.
  set (k := Z.land (Z.shiftr b 4) 15) in *. clearbody k.
  assert (H : forallb (fun a => forallb (fun k =>
    byte0 (sextet0 a) (Z.lor k (Z.land (Z.shiftl a 4) 63)) =? a) (seqZ 0 16)) (seqZ (-128) 256) = true)
    by (vm_compute; reflexivity).
  pose proof (forall_range _ _ _ H a ltac:(lia)) as H1. cbv beta in H1.
  apply Z.eqb_eq. apply (forall_range _ _ _ H1 k). lia.
Qed.

Lemma byte1_sextets a b c :
  isChar a -> isChar b -> isChar c -> byte1 (sextet1 a b) (sextet2 b c) = b.
Proof.
  intros Ha Hb Hc. unfold isChar in *. unfold sextet2.
  pose proof (land_bound (Z.shiftr c 6) 2) as Hk. change (Z.ones 2) with 3 in Hk.
  set (k := Z.land (Z.shiftr c 6) 3) in *. clearbody k.
  assert (H : forallb (fun a => forallb (fun b => forallb (fun k =>
    byte1 (sextet1 a b) (Z.lor k (Z.land (Z.shiftl b 2) 63)) =? b)
      (seqZ 0 4)) (seqZ (-128) 256)) (seqZ (-128) 256) = true)
    by (vm_compute; reflexivity).
  pose proof (forall_range _ _ _ H a ltac:(lia)) as H1. cbv beta in H1.
  pose proof (forall_range _ _ _ H1 b ltac:(lia)) as H2. cbv beta in H2.
  apply Z.eqb_eq. apply (forall_range _ _ _ H2 k). lia.
Qed.

Lemma byte2_sextets b c : isChar b -> isChar c -> byte2 (sextet2 b c) (sextet3 c) = c.
Proof.
  intros Hb Hc. unfold isChar in *.
  assert (H : forallb (fun b => forallb (fun c => byte2 (sextet2 b c) (sextet3 c) =? c)
      (seqZ (-128) 256)) (seqZ (-128) 256) = true)
    by (vm_compute; reflexivity).
  pose proof (forall_range _ _ _ H b ltac:(lia)) as H1. cbv beta in H1.
  apply Z.eqb_eq. apply (forall_range _ _ _ H1 c). lia.
Qed.

Lemma byte0_last a : isChar a -> byte0 (sextet0 a) (Z.land (Z.shiftl a 4) 63) = a.
Proof. intros Ha. apply (byte0_sextets a 0); [done|]. unfold isChar. lia. Qed.

Lemma byte1_last a b : isChar a -> isChar b ->
  byte1 (sextet1 a b) (Z.land (Z.shiftl b 2) 63) = b.
Proof. intros Ha Hb. apply (byte1_sextets a b 0); [done|done|]. unfold isChar. lia. Qed.

Lemma bytes_sextets data : Forall isChar data -> bytes (sextets data) = data.
Proof.
  induction data as [data IH] using (induction_ltof1 _ (@length Z)). unfold ltof in IH.
  intros Hd. destruct data as [|a [|b [|c rest]]]; simpl;
    repeat match goal with H : Forall _ (_ :: _) |- _ => inversion_clear H end; [done|..].
  - by rewrite byte0_last.
  - by rewrite byte0_sextets, byte1_last.
  - rewrite byte0_sextets, byte1_sextets, byte2_sextets by done. rewrite IH; [done|simpl; lia|done].
Qed.

Lemma length_sextets data :
  length (sextets data) = ((4 * length data + 2) / 3)%nat.
Proof.
  induction data as [data IH] using (induction_ltof1 _ (@length Z)). unfold ltof in IH.
  destruct data as [|a [|b [|c rest]]]; try reflexivity. simpl length. rewrite IH by (simpl; lia).
  replace (4 * S (S (S (length rest))) + 2)%nat with (4 * length rest + 2 + 4 * 3)%nat by lia.
  rewrite Nat.div_add by lia. lia.
Qed.

(** ** Encoding *)

(** The text in lines of 76 characters. *)
Fixpoint breakLines (pos : Z) (l : list Z) : list Z :=
  match l with
  | [] => []
  | c :: l => (if negb (pos =? 0) && (pos mod 76 =? 0) then [10] else []) ++ c :: breakLines (pos + 1) l
  end.

Lemma length_breakLines l : forall pos, 1 <= pos ->
  Z.of_nat (length (breakLines pos l)) =
  Z.of_nat (length l) + ((pos + Z.of_nat (length l) - 1) / 76 - (pos - 1) / 76).
Proof.
  induction l as [|c l IH]; intros pos Hpos; simpl; [rewrite Z.add_0_r; lia|].
  rewrite length_app. simpl length. rewrite Nat2Z.inj_add, !Nat2Z.inj_succ, IH by lia.
  destruct (Z.eqb_spec pos 0); [lia|]. cbn [negb andb].
  assert (Hd : pos / 76 = (pos - 1) / 76 + if pos mod 76 =? 0 then 1 else 0).
  { pose proof (Z.div_mod pos 76 ltac:(lia)) as E1. pose proof (Z.mod_pos_bound pos 76 ltac:(lia)).
    pose proof (Z.div_mod (pos - 1) 76 ltac:(lia)) as E2.
    pose proof (Z.mod_pos_bound (pos - 1) 76 ltac:(lia)).
    destruct (Z.eqb_spec (pos mod 76) 0); lia. }
  replace (pos + 1 - 1) with pos by lia. rewrite Hd.
  replace (pos + Z.succ (Z.of_nat (length l)) - 1) with (pos + 1 + Z.of_nat (length l) - 1) by lia.
  destruct (pos mod 76 =? 0); simpl length; lia.
Qed.

Lemma length_breakLines0 l :
  Z.of_nat (length (breakLines 0 l)) =
  Z.of_nat (length l) + if (0 <? Z.of_nat (length l)) then (Z.of_nat (length l) - 1) / 76 else 0.
Proof.
  destruct l as [|c l]; [done|]. cbn [breakLines]. simpl length.
  rewrite !Nat2Z.inj_succ, length_breakLines by lia.
  destruct (Z.ltb_spec 0 (Z.succ (Z.of_nat (length l)))); [|lia].
  replace (0 + 1 + Z.of_nat (length l) - 1) with (Z.succ (Z.of_nat (length l)) - 1) by lia.
  change ((0 + 1 - 1) / 76) with 0. lia.
Qed.

(** No line is broken in a short text, and none inside a group of four. *)
Lemma breakLines_short l : forall pos, 0 <= pos -> pos + Z.of_nat (length l) <= 76 ->
  breakLines pos l = l.
Proof.
  induction l as [|c l IH]; intros pos H1 H2; [done|]. simpl length in H2. cbn [breakLines].
  rewrite IH by lia.
  destruct (Z.eqb_spec pos 0); [done|]. rewrite Z.mod_small by lia.
  by destruct (Z.eqb_spec pos 0); [lia|].
Qed.

Lemma breakLines_cons pos c l :
  breakLines pos (c :: l)
  = (if negb (pos =? 0) && (pos mod 76 =? 0) then [10] else []) ++ c :: breakLines (pos + 1) l.
Proof. done. Qed.

Lemma breakLines_inside pos c l :
  pos mod 4 <> 0 -> breakLines pos (c :: l) = c :: breakLines (pos + 1) l.
Proof.
  intros Hp. cbn [breakLines].
  destruct (Z.eqb_spec (pos mod 76) 0) as [E|E]; [|by rewrite andb_false_r].
  exfalso. apply Hp. apply Z.mod_divide; [lia|]. apply Z.mod_divide in E; [|lia].
  destruct E as [k ->]. exists (k * 19). lia.
Qed.

Lemma encode_plain m data : forall count,
  let '(o, count', rest) := encodeLoop m false count data in
  o ++ encodeTail m false count' rest = map (at_ m) (sextets data).
Proof.
  induction data as [data IH] using (induction_ltof1 _ (@length Z)). unfold ltof in IH. intros count.
  destruct data as [|a [|b [|c rest]]]; try reflexivity. simpl.
  specialize (IH rest ltac:(simpl; lia) count).
  destruct (encodeLoop m false count rest) as [[o count'] rest']. simpl. by rewrite IH.
Qed.

Lemma mod4_succ pos k : pos mod 4 = 0 -> (k = 1 \/ k = 2 \/ k = 3) -> (pos + k) mod 4 <> 0.
Proof.
  intros Hp Hk. rewrite Z.add_mod, Hp by lia. destruct Hk as [->|[->| ->]]; done.
Qed.

Lemma encode_broken m data : forall pos,
  0 <= pos -> pos mod 4 = 0 -> pos + 2 * Z.of_nat (length data) + 4 < 2 ^ 31 ->
  let '(o, count', rest) := encodeLoop m true pos data in
  o ++ encodeTail m true count' rest = breakLines pos (map (at_ m) (sextets data)).
Proof.
  induction data as [data IH] using (induction_ltof1 _ (@length Z)). unfold ltof in IH.
  intros pos H0 H4 Hb.
  assert (Hrem : forall p, 0 <= p -> Z.rem p 76 = p mod 76) by (intros; by rewrite Z.rem_mod_nonneg by lia).
  assert (Hpos : (0 <? pos) = negb (pos =? 0)) by (destruct (Z.eqb_spec pos 0), (Z.ltb_spec 0 pos); lia).
  pose proof (mod4_succ pos 1 H4 ltac:(auto)) as N1. pose proof (mod4_succ pos 2 H4 ltac:(auto)) as N2.
  pose proof (mod4_succ pos 3 H4 ltac:(auto)) as N3.
  assert (Hins : forall c c2 l, breakLines pos (c :: c2 :: l)
            = (if negb (pos =? 0) && (pos mod 76 =? 0) then [10] else []) ++ c :: c2 :: breakLines (pos + 2) l).
  { intros c c2 l. rewrite breakLines_cons, breakLines_inside by done.
    by replace (pos + 1 + 1) with (pos + 2) by lia. }
  destruct data as [|a [|b [|c rest]]].
  - reflexivity.
  - cbn [encodeLoop encodeTail sextets map app]. rewrite Hins, Hrem, Hpos by lia. done.
  - cbn [encodeLoop encodeTail sextets map app]. rewrite Hins, Hrem, Hpos by lia.
    rewrite breakLines_inside by done. done.
  - cbn [encodeLoop sextets map]. cbn [andb]. rewrite swrap_id by (simpl length in Hb; lia).
    specialize (IH rest ltac:(simpl; lia) (pos + 4) ltac:(lia)).
    assert (H4' : (pos + 4) mod 4 = 0) by (rewrite <- (Z.mul_1_l 4) at 1; by rewrite Z.mod_add).
    specialize (IH H4' ltac:(simpl length in Hb; lia)).
    destruct (encodeLoop m true (pos + 4) rest) as [[o count'] rest'].
    rewrite Hins, Hrem by lia. rewrite breakLines_inside, breakLines_inside by (first [done|by replace (pos + 2 + 1) with (pos + 3) by lia]).
    replace (pos + 2 + 1 + 1) with (pos + 4) by lia. rewrite <- IH, <- app_assoc. done.
Qed.

(** ** The conversion in place *)

(** A vector whose first [d] entries are the bytes produced so far and whose
    entries from [s] on begin with the sextets that are left. *)
Record holds (out : list Z) (s d : nat) (pre l : list Z) : Prop := {
  holds_order : (d <= s)%nat;
  holds_room : (s + length l <= length out)%nat;
  holds_done : take d out = pre;
  holds_left : forall i x, l !! i = Some x -> out !! (s + i)%nat = Some x
}.

Lemma holds_store out s d pre a l v :
  holds out s d pre (a :: l) ->
  store d v out = Some (<[d := v]> out) /\ holds (<[d := v]> out) (S s) (S d) (pre ++ [v]) l.
Proof.
  intros [Ho Hr Hd Hl]. simpl in Hr.
  assert (Hin : (d < length out)%nat) by lia. split.
  { unfold store. by destruct (Nat.ltb_spec d (length out)); [|lia]. }
  split; [lia|rewrite length_insert; lia|..].
  - rewrite (take_S_r _ _ v) by (by rewrite list_lookup_insert_eq).
    by rewrite take_insert_ge, Hd by lia.
  - intros i x Hi. rewrite list_lookup_insert_ne by lia.
    replace (S s + i)%nat with (s + S i)%nat by lia. by apply Hl.
Qed.

Lemma holds_combine f out s d pre a b l j k :
  holds out s d pre (a :: b :: l) -> j = s -> k = (s + 1)%nat ->
  exists out', combine f d j k out = Some out' /\ length out' = length out /\
    holds out' (S s) (S d) (pre ++ [f a b]) (b :: l).
Proof.
  intros H -> ->. unfold combine.
  assert (Ha := holds_left _ _ _ _ _ H 0 a eq_refl). rewrite Nat.add_0_r in Ha.
  rewrite Ha, (holds_left _ _ _ _ _ H 1 b eq_refl).
  destruct (holds_store _ _ _ _ _ _ (f a b) H) as [-> H']. eexists. split; [done|].
  split; [apply length_insert|done].
Qed.

Lemma holds_skip out s d pre a l : holds out s d pre (a :: l) -> holds out (S s) d pre l.
Proof.
  intros [Ho Hr Hd Hl]. simpl in Hr. split; [lia|lia|done|].
  intros i x Hi. replace (S s + i)%nat with (s + S i)%nat by lia. by apply Hl.
Qed.

Lemma length_bytes_cons a b c d l : length (bytes (a :: b :: c :: d :: l)) = (3 + length (bytes l))%nat.
Proof. done. Qed.

Lemma convertLoop_ok n l : forall fuel s d out pre,
  holds out s d pre l -> (n = d + length (bytes l))%nat -> (length (bytes l) < fuel)%nat ->
  (length l mod 4 <> 1)%nat ->
  exists out' s' d' pre' tail, convertLoop fuel n s d out = Some (out', s', d') /\
    holds out' s' d' pre' tail /\ pre' ++ bytes tail = pre ++ bytes l /\
    (n = d' + length (bytes tail))%nat /\ (length tail < 4)%nat /\ length tail <> 1%nat.
Proof.
  induction l as [l IH] using (induction_ltof1 _ (@length Z)). unfold ltof in IH.
  intros fuel s d out pre H Hn Hf H4. destruct fuel as [|fuel]; [lia|]. cbn [convertLoop].
  destruct l as [|x [|y [|z [|w rest]]]]; try (exfalso; simpl in H4; lia);
    try (destruct (Nat.ltb_spec d (n - 2)); [simpl in Hn; lia|];
         eexists _, _, _, _, _; split; [done|]; split; [exact H|]; simpl; split_and!; auto; lia).
  rewrite length_bytes_cons in Hn. destruct (Nat.ltb_spec d (n - 2)); [|lia].
  destruct (holds_combine byte0 _ _ _ _ _ _ _ s (s + 1) H ltac:(lia) ltac:(lia)) as (o1 & -> & L1 & H1).
  destruct (holds_combine byte1 _ _ _ _ _ _ _ (s + 1) (s + 2) H1 ltac:(lia) ltac:(lia)) as (o2 & E2 & L2 & H2).
  replace (S d) with (d + 1)%nat in E2 by lia. rewrite E2.
  destruct (holds_combine byte2 _ _ _ _ _ _ _ (s + 2) (s + 3) H2 ltac:(lia) ltac:(lia)) as (o3 & E3 & L3 & H3).
  replace (S (S d)) with (d + 2)%nat in E3 by lia. rewrite E3.
  apply holds_skip in H3. replace (S (S (S (S s)))) with (s + 4)%nat in H3 by lia.
  replace (S (S (S d))) with (d + 3)%nat in H3 by lia.
  destruct (IH rest ltac:(simpl; lia) fuel (s + 4)%nat (d + 3)%nat o3 _ H3) as (o & s' & d' & p & t & E & Ht & Ep & Q).
  { lia. } { rewrite length_bytes_cons in Hf. lia. }
  { simpl length in H4. replace (S (S (S (S (length rest))))) with (length rest + 1 * 4)%nat in H4 by lia.
    by rewrite Nat.Div0.mod_add in H4. }
  exists o, s', d', p, t. split; [done|]. split; [done|]. split; [|done].
  rewrite Ep, <- !app_assoc. done.
Qed.

Lemma convert_tail n out s d pre tail :
  holds out s d pre tail -> (n = d + length (bytes tail))%nat -> (length tail < 4)%nat ->
  length tail <> 1%nat ->
  match (if (d <? n)%nat then combine byte0 d s (s + 1) out else Some out) with
  | None => None
  | Some out =>
      match (if (d + 1 <? n)%nat then combine byte1 (d + 1) (s + 1) (s + 2) out else Some out) with
      | None => None
      | Some out => Some (take n out)
      end
  end = Some (pre ++ bytes tail).
Proof.
  intros H Hn H4 H1.
  destruct tail as [|x [|y [|z [|w rest]]]]; simpl in H1, H4, Hn; try lia.
  - destruct (Nat.ltb_spec d n) as [?|_]; [lia|]. destruct (Nat.ltb_spec (d + 1) n) as [?|_]; [lia|].
    rewrite app_nil_r, Hn, Nat.add_0_r. by rewrite (holds_done _ _ _ _ _ H).
  - destruct (Nat.ltb_spec d n) as [_|?]; [|lia].
    destruct (holds_combine byte0 _ _ _ _ _ _ _ s (s + 1) H ltac:(lia) ltac:(lia)) as (o1 & -> & L1 & H').
    destruct (Nat.ltb_spec (d + 1) n) as [?|_]; [lia|].
    replace n with (S d) by lia. by rewrite (holds_done _ _ _ _ _ H').
  - destruct (Nat.ltb_spec d n) as [_|?]; [|lia].
    destruct (holds_combine byte0 _ _ _ _ _ _ _ s (s + 1) H ltac:(lia) ltac:(lia)) as (o1 & -> & L1 & H').
    destruct (Nat.ltb_spec (d + 1) n) as [_|?]; [|lia].
    destruct (holds_combine byte1 _ _ _ _ _ _ _ (s + 1) (s + 2) H' ltac:(lia) ltac:(lia)) as (o2 & E2 & L2 & H'').
    replace (S d) with (d + 1)%nat in E2 by lia. rewrite E2.
    replace n with (S (S d)) by lia. rewrite (holds_done _ _ _ _ _ H''), <- app_assoc. done.
Qed.

Lemma convert_ok l junk :
  (length l mod 4 <> 1)%nat -> convert (length (bytes l)) (l ++ junk) = Some (bytes l).
Proof.
  intros H4. unfold convert.
  assert (H : holds (l ++ junk) 0 0 [] l).
  { split; [lia|rewrite length_app; lia|done|]. intros i x Hi. by apply lookup_app_l_Some. }
  destruct (Nat.ltb_spec 1 (length (bytes l))) as [Hn|Hn].
  - destruct (convertLoop_ok (length (bytes l)) l (S (length (bytes l))) 0 0 (l ++ junk) [] H)
      as (o & s & d & p & t & -> & Ht & Ep & En & Q1 & Q2); [done|lia|done|].
    rewrite (convert_tail _ _ _ _ _ _ Ht En Q1 Q2). by rewrite Ep.
  - apply (convert_tail _ _ _ _ _ _ H); [lia|..].
    + destruct l as [|x [|y [|z [|w rest]]]]; simpl in *; lia.
    + intros E. rewrite E in H4. done.
Qed.

Lemma length_bytes l : (length l mod 4 <> 1)%nat ->
  length (bytes l) = (length l - (length l + 3) / 4)%nat.
Proof.
  induction l as [l IH] using (induction_ltof1 _ (@length Z)). unfold ltof in IH. intros H4.
  destruct l as [|x [|y [|z [|w rest]]]]; try reflexivity. rewrite length_bytes_cons.
  simpl length in H4 |- *.
  replace (S (S (S (S (length rest))))) with (length rest + 1 * 4)%nat in H4 |- * by lia.
  rewrite Nat.Div0.mod_add in H4. rewrite IH by (simpl; lia || done).
  replace (length rest + 1 * 4 + 3)%nat with (length rest + 3 + 1 * 4)%nat by lia.
  rewrite Nat.div_add by lia.
  assert ((length rest + 3) / 4 <= length rest)%nat; [|lia].
  destruct (length rest) as [|k]; [done|]. apply Nat.Div0.div_le_upper_bound. lia.
Qed.

(** ** What decoding accepts and returns *)

Section DecodeSpec.
Context (isUnicodeWhiteSpace : Z -> bool) (m : list Z) (policy : Base64DecodePolicy).

Definition inAlphabet (c : Z) : bool := negb (c =? 61) && negb (decodeCharacter m c =? nonAlphabet).

(** The characters a policy skips. *)
Definition ignorable (c : Z) : bool :=
  match policy with
  | Base64FailOnInvalidCharacterOrExcessPadding | Base64FailOnInvalidCharacter => false
  | Base64IgnoreWhitespace => isSpaceOrNewline isUnicodeWhiteSpace c
  | Base64IgnoreInvalidCharacters => true
  end.

Definition countEquals (data : list Z) : Z := Z.of_nat (length (filter (fun c => c = 61) data)).

(** No character of the alphabet follows an equals sign. *)
Fixpoint padsLast (data : list Z) : bool :=
  match data with
  | [] => true
  | c :: data => if c =? 61 then forallb (fun c => negb (inAlphabet c)) data else padsLast data
  end.

Definition accepts (data : list Z) : bool :=
  forallb (fun c => (c =? 61) || inAlphabet c || ignorable c) data
  && padsLast data
  && (negb (bool_decide (policy = Base64FailOnInvalidCharacterOrExcessPadding))
      || (countEquals data =? 0)
      || ((Z.of_nat (length data) mod 4 =? 0) && (countEquals data <=? 2))).

Definition decodedSextets (data : list Z) : list Z :=
  map (decodeCharacter m) (List.filter inAlphabet data).

(** The result of decoding: [None] is failure. *)
Definition decoded (fill : Z) (data : list Z) : option (list Z) :=
  let s := decodedSextets data in
  if negb (accepts data) then None
  else match s with
  | [] => if countEquals data =? 0 then Some (replicate (length data) fill) else None
  | _ => if (length s mod 4 =? 1)%nat then None else Some (bytes s)
  end.

Lemma countEquals_cons c data :
  countEquals (c :: data) = (if c =? 61 then 1 else 0) + countEquals data.
Proof.
  unfold countEquals. rewrite filter_cons. destruct (decide (c = 61)), (Z.eqb_spec c 61); simpl; lia.
Qed.

Lemma countEquals_nonneg data : 0 <= countEquals data.
Proof. unfold countEquals. lia. Qed.

(** What the loop checks of the characters that are left. *)
Definition restAccepts (len eq : Z) (data : list Z) : bool :=
  forallb (fun c => (c =? 61) || inAlphabet c || ignorable c) data
  && (if eq =? 0 then padsLast data else forallb (fun c => negb (inAlphabet c)) data)
  && (negb (bool_decide (policy = Base64FailOnInvalidCharacterOrExcessPadding))
      || (countEquals data =? 0)
      || ((len mod 4 =? 0) && (eq + countEquals data <=? 2))).

Lemma decodeLoop_spec len data : forall eq out, 0 <= eq ->
  decodeLoop isUnicodeWhiteSpace m policy len data eq out
  = if restAccepts len eq data then Some (out ++ decodedSextets data, eq + countEquals data) else None.
Proof.
  induction data as [|c data IH]; intros eq out He.
  { unfold restAccepts. simpl. rewrite orb_true_r, andb_true_r, app_nil_r, Z.add_0_r. by destruct (eq =? 0). }
  cbn [decodeLoop]. unfold restAccepts, decodedSextets. cbn [forallb padsLast List.filter].
  rewrite countEquals_cons. pose proof (countEquals_nonneg data) as Hc.
  destruct (Z.eqb_spec c 61) as [->|Hne].
  - change (inAlphabet 61) with false. cbn [orb andb negb].
    destruct (Z.eqb_spec (1 + countEquals data) 0) as [?|_]; [lia|]. rewrite orb_false_r.
    rewrite IH by lia. unfold restAccepts. destruct (Z.eqb_spec (eq + 1) 0) as [?|_]; [lia|].
    replace (eq + (1 + countEquals data)) with (eq + 1 + countEquals data) by lia.
    destruct (bool_decide (policy = _)), (len mod 4 =? 0); cbn [negb andb orb];
      rewrite ?andb_true_r, ?orb_true_r, ?andb_false_r, ?orb_false_r; try by destruct (eq =? 0).
    destruct (Z.ltb_spec 2 (eq + 1)).
    + destruct (Z.leb_spec (eq + 1 + countEquals data) 2); [lia|]. by rewrite andb_false_r.
    + assert (E : (countEquals data =? 0) || (eq + 1 + countEquals data <=? 2)
                  = (eq + 1 + countEquals data <=? 2)).
      { destruct (Z.eqb_spec (countEquals data) 0), (Z.leb_spec (eq + 1 + countEquals data) 2); lia || done. }
      rewrite E. by destruct (eq =? 0).
  - assert (Ha : inAlphabet c = negb (decodeCharacter m c =? nonAlphabet))
      by (unfold inAlphabet; by destruct (Z.eqb_spec c 61)).
    rewrite Ha, Z.add_0_l. cbn [orb].
    destruct (Z.eqb_spec (decodeCharacter m c) nonAlphabet) as [Hd|Hd]; cbn [negb andb orb].
    + replace (match policy with
        | Base64FailOnInvalidCharacterOrExcessPadding | Base64FailOnInvalidCharacter => None
        | Base64IgnoreWhitespace => if negb (isSpaceOrNewline isUnicodeWhiteSpace c) then None
            else decodeLoop isUnicodeWhiteSpace m policy len data eq out
        | Base64IgnoreInvalidCharacters => decodeLoop isUnicodeWhiteSpace m policy len data eq out
        end) with (if ignorable c then decodeLoop isUnicodeWhiteSpace m policy len data eq out else None)
        by (unfold ignorable; destruct policy; try done; by destruct (isSpaceOrNewline _ c)).
      destruct (ignorable c); cbn [andb]; [|done]. by rewrite IH.
    + destruct (Z.eqb_spec eq 0) as [->|He0]; cbn [negb].
      * rewrite IH by lia. unfold restAccepts. cbn. by rewrite <- app_assoc.
      * by rewrite andb_false_r.
Qed.

Lemma decodeInternal_spec fill data :
  base64DecodeInternal isUnicodeWhiteSpace fill data policy m = Some (decoded fill data).
Proof.
  unfold base64DecodeInternal. destruct data as [|c data].
  { unfold decoded, accepts. cbn. by rewrite orb_true_r. }
  remember (c :: data) as l eqn:El. assert (Hl : (length l =? 0)%nat = false) by (subst; done). rewrite Hl.
  rewrite decodeLoop_spec by lia.
  replace (restAccepts (Z.of_nat (length l)) 0 l) with (accepts l) by done.
  unfold decoded. destruct (accepts l); cbn [negb]; [|done].
  rewrite app_nil_l, Z.add_0_l. set (s := decodedSextets l). clearbody s.
  destruct (Nat.eqb_spec (length s) 0) as [E|E]; [by destruct s; [destruct (_ =? _)|]|].
  destruct s as [|x s']; [done|]. set (s := x :: s') in *.
  destruct (Nat.eqb_spec (length s mod 4) 1) as [H4|H4]; [done|].
  rewrite <- length_bytes by done.
  destruct (Nat.eqb_spec (length (bytes s)) 0) as [H0|H0].
  { exfalso. subst s. destruct s' as [|y [|z [|w r]]]; simpl in *; done. }
  by rewrite convert_ok.
Qed.

End DecodeSpec.

(** ** What encoding returns *)

Definition padding (data : list Z) : nat := ((3 - length data mod 3) mod 3)%nat.

Definition encoded (m data : list Z) : list Z :=
  map (at_ m) (sextets data) ++ replicate (padding data) 61.

Lemma length_encoded m data :
  Z.of_nat (length (encoded m data)) = plainOutLength (Z.of_nat (length data)).
Proof.
  unfold encoded, plainOutLength, padding.
  rewrite length_app, length_map, length_replicate, length_sextets.
  remember (length data) as n eqn:E. clear E.
  pose proof (Nat.div_mod n 3 ltac:(lia)) as E. pose proof (Nat.mod_upper_bound n 3 ltac:(lia)) as B.
  set (q := (n / 3)%nat) in *. clearbody q.
  assert (Hr : (n mod 3 = 0 \/ n mod 3 = 1 \/ n mod 3 = 2)%nat) by lia.
  set (r := (n mod 3)%nat) in *. clearbody r. subst n.
  replace (4 * (3 * q + r) + 2)%nat with (4 * r + 2 + 4 * q * 3)%nat by lia. rewrite Nat.div_add by lia.
  replace (Z.of_nat (3 * q + r) + 2) with (Z.of_nat r + 2 + Z.of_nat q * 3) by lia. rewrite Z.div_add by lia.
  destruct Hr as [->|[->| ->]]; cbn -[Z.of_nat Z.mul Z.div Z.add].
  - change ((Z.of_nat 0 + 2) / 3) with 0. lia.
  - change ((Z.of_nat 1 + 2) / 3) with 1. lia.
  - change ((Z.of_nat 2 + 2) / 3) with 1. lia.
Qed.

Lemma breakLines_app l : forall pos k,
  breakLines pos (l ++ k) = breakLines pos l ++ breakLines (pos + Z.of_nat (length l)) k.
Proof.
  induction l as [|c l IH]; intros pos k; [by rewrite Z.add_0_r|].
  simpl length. cbn [app breakLines]. rewrite IH, <- app_assoc. cbn [app].
  by replace (pos + 1 + Z.of_nat (length l)) with (pos + Z.of_nat (S (length l))) by lia.
Qed.

(** The padding never begins a line. *)
Lemma breakLines_padding m data :
  breakLines (Z.of_nat (length (map (at_ m) (sextets data)))) (replicate (padding data) 61)
  = replicate (padding data) 61.
Proof.
  rewrite length_map, length_sextets. unfold padding.
  pose proof (Nat.div_mod (length data) 3 ltac:(lia)) as E.
  pose proof (Nat.mod_upper_bound (length data) 3 ltac:(lia)) as B.
  set (q := (length data / 3)%nat) in *. clearbody q.
  assert (Hr : (length data mod 3 = 0 \/ length data mod 3 = 1 \/ length data mod 3 = 2)%nat) by lia.
  set (r := (length data mod 3)%nat) in *. clearbody r. rewrite E.
  replace (4 * (3 * q + r) + 2)%nat with (4 * r + 2 + 4 * q * 3)%nat by lia. rewrite Nat.div_add by lia.
  assert (H4 : (4 * Z.of_nat q) mod 4 = 0) by (rewrite Z.mul_comm; by apply Z.mod_mul).
  destruct Hr as [->|[->| ->]]; [done|..].
  - change ((4 * 1 + 2) / 3)%nat with 2%nat. change ((3 - 1) mod 3)%nat with 2%nat. cbn [replicate].
    replace (Z.of_nat _) with (4 * Z.of_nat q + 2) by lia.
    rewrite breakLines_inside by (apply mod4_succ; auto).
    rewrite breakLines_inside; [done|]. rewrite <- Z.add_assoc. apply mod4_succ; auto.
  - change ((4 * 2 + 2) / 3)%nat with 3%nat. change ((3 - 2) mod 3)%nat with 1%nat. cbn [replicate].
    replace (Z.of_nat _) with (4 * Z.of_nat q + 3) by lia.
    rewrite breakLines_inside; [done|]. apply mod4_succ; auto.
Qed.

Lemma breakLines_encoded m data :
  breakLines 0 (encoded m data)
  = breakLines 0 (map (at_ m) (sextets data)) ++ replicate (padding data) 61.
Proof. unfold encoded. by rewrite breakLines_app, Z.add_0_l, breakLines_padding. Qed.

Section EncodeSpec.
Context (m data : list Z).
Context (Hlen : 0 < Z.of_nat (length data) <= maxInputBufferSize).

Lemma encodeInternal_guard :
  (Z.of_nat (length data) =? 0) || (maxInputBufferSize <? Z.of_nat (length data)) = false.
Proof.
  destruct (Z.eqb_spec (Z.of_nat (length data)) 0); [lia|].
  by destruct (Z.ltb_spec maxInputBufferSize (Z.of_nat (length data))); [lia|].
Qed.

(** The padding fills the vector up to its length. *)
Lemma encode_finish policy out :
  policy <> Base64URLPolicy ->
  Z.of_nat (length (out ++ replicate (padding data) 61)) = outLengthOf policy (Z.of_nat (length data)) ->
  (let outLength := Z.to_nat (outLengthOf policy (Z.of_nat (length data))) in
   if (outLength <? length out)%nat then None
   else match policy with
        | Base64URLPolicy => Some out
        | _ => Some (out ++ replicate (outLength - length out) 61)
        end) = Some (out ++ replicate (padding data) 61).
Proof.
  intros Hp <-. rewrite Nat2Z.id, length_app, length_replicate. cbv zeta.
  destruct (Nat.ltb_spec (length out + padding data) (length out)) as [?|_]; [lia|].
  replace (length out + padding data - length out)%nat with (padding data) by lia.
  by destruct policy.
Qed.

Lemma encode_unbroken policy :
  insertsLFs policy (Z.of_nat (length data)) = false -> policy <> Base64URLPolicy ->
  base64EncodeInternal data policy m = Some (encoded m data).
Proof.
  intros Hi Hp. unfold base64EncodeInternal. rewrite encodeInternal_guard. cbv zeta. rewrite Hi.
  pose proof (encode_plain m data 0) as E.
  destruct (encodeLoop m false 0 data) as [[o count] rest]. rewrite E.
  apply (encode_finish policy _ Hp). change (map (at_ m) (sextets data) ++ replicate (padding data) 61) with (encoded m data).
  rewrite length_encoded. unfold outLengthOf. by rewrite Hi.
Qed.

Lemma encode_url : base64EncodeInternal data Base64URLPolicy m = Some (map (at_ m) (sextets data)).
Proof.
  unfold base64EncodeInternal. rewrite encodeInternal_guard. cbv zeta. cbn [insertsLFs].
  pose proof (encode_plain m data 0) as E.
  destruct (encodeLoop m false 0 data) as [[o count] rest]. rewrite E.
  unfold outLengthOf. cbn [insertsLFs]. rewrite <- (length_encoded m), Nat2Z.id. unfold encoded.
  rewrite length_app. by destruct (Nat.ltb_spec (length (map (at_ m) (sextets data)) +
    length (replicate (padding data) 61)) (length (map (at_ m) (sextets data)))); [lia|].
Qed.

Lemma encode_lines :
  Z.of_nat (length data) < 2 ^ 30 - 2 ->
  base64EncodeInternal data Base64InsertLFs m = Some (breakLines 0 (encoded m data)).
Proof.
  intros Hs. destruct (insertsLFs Base64InsertLFs (Z.of_nat (length data))) eqn:Hi.
  - unfold base64EncodeInternal. rewrite encodeInternal_guard. cbv zeta. rewrite Hi.
    pose proof (encode_broken m data 0 ltac:(lia) eq_refl ltac:(lia)) as E.
    destruct (encodeLoop m true 0 data) as [[o count] rest]. rewrite E, breakLines_encoded.
    apply (encode_finish Base64InsertLFs); [done|]. rewrite <- breakLines_encoded.
    rewrite length_breakLines0, !length_encoded. unfold outLengthOf. rewrite Hi.
    cbn [insertsLFs] in Hi. apply Z.ltb_lt in Hi.
    by destruct (Z.ltb_spec 0 (plainOutLength (Z.of_nat (length data)))); [|lia].
  - rewrite encode_unbroken by done. cbn [insertsLFs] in Hi. apply Z.ltb_ge in Hi.
    by rewrite breakLines_short by (rewrite ?length_encoded; lia).
Qed.

End EncodeSpec.

(** ** Decoding what was encoded *)

Section RoundTrip.
Context (ws : Z -> bool) (enc dec : list Z).
(** The two tables belong together. *)
Context (Htables : forall k, isSextet k -> decodeCharacter dec (at_ enc k) = k /\ at_ enc k <> 61).
Context (Hlf : decodeCharacter dec 10 = nonAlphabet).

Lemma inAlphabet_enc k : isSextet k -> inAlphabet dec (at_ enc k) = true.
Proof.
  intros Hk. destruct (Htables k Hk) as [E N]. unfold inAlphabet. rewrite E.
  destruct (Z.eqb_spec (at_ enc k) 61); [done|]. unfold isSextet, nonAlphabet in *.
  by destruct (Z.eqb_spec k (-1)); [lia|].
Qed.

Lemma decodedSextets_app a b :
  decodedSextets dec (a ++ b) = decodedSextets dec a ++ decodedSextets dec b.
Proof. unfold decodedSextets. by rewrite List.filter_app, map_app. Qed.

Lemma decodedSextets_enc l : Forall isSextet l -> decodedSextets dec (map (at_ enc) l) = l.
Proof.
  induction 1 as [|k l Hk Hl IH]; [done|]. unfold decodedSextets in *. cbn [map List.filter].
  rewrite inAlphabet_enc by done. cbn [map]. rewrite IH. by destruct (Htables k Hk) as [-> _].
Qed.

Lemma decodedSextets_pads n : decodedSextets dec (replicate n 61) = [].
Proof. by induction n. Qed.

Lemma padsLast_enc l n : Forall isSextet l ->
  padsLast dec (map (at_ enc) l ++ replicate n 61) = true.
Proof.
  induction 1 as [|k l Hk Hl IH].
  - destruct n as [|n]; [done|]. cbn. by induction n.
  - cbn [map app padsLast]. destruct (Htables k Hk) as [_ N]. by destruct (Z.eqb_spec (at_ enc k) 61).
Qed.

Lemma forallb_enc policy l n : Forall isSextet l ->
  forallb (fun c => (c =? 61) || inAlphabet dec c || ignorable ws policy c)
    (map (at_ enc) l ++ replicate n 61) = true.
Proof.
  induction 1 as [|k l Hk Hl IH]; [by induction n|]. cbn [map app forallb].
  rewrite inAlphabet_enc, orb_true_r by done. done.
Qed.

Lemma countEquals_enc l n : Forall isSextet l ->
  countEquals (map (at_ enc) l ++ replicate n 61) = Z.of_nat n.
Proof.
  induction 1 as [|k l Hk Hl IH].
  - cbn [map app]. induction n as [|n IH]; [done|]. cbn [replicate]. rewrite countEquals_cons, IH.
    change (61 =? 61) with true. cbv iota. lia.
  - cbn [map app]. rewrite countEquals_cons, IH. destruct (Htables k Hk) as [_ N].
    by destruct (Z.eqb_spec (at_ enc k) 61).
Qed.

(** Line feeds change nothing but that they must be ignorable. *)
Lemma inAlphabet_lf : inAlphabet dec 10 = false.
Proof. unfold inAlphabet. rewrite Hlf. done. Qed.

Lemma lines_decoded l : forall pos, decodedSextets dec (breakLines pos l) = decodedSextets dec l.
Proof.
  induction l as [|c l IH]; intros pos; [done|]. cbn [breakLines].
  rewrite decodedSextets_app. change (c :: ?x) with ([c] ++ x).
  rewrite (decodedSextets_app [c] l), (decodedSextets_app [c]), IH, app_assoc. f_equal.
  destruct (negb (pos =? 0) && _); [|done]. unfold decodedSextets at 1. cbn [List.filter]. by rewrite inAlphabet_lf.
Qed.

Lemma lines_noAlphabet l : forall pos,
  forallb (fun c => negb (inAlphabet dec c)) (breakLines pos l)
  = forallb (fun c => negb (inAlphabet dec c)) l.
Proof.
  induction l as [|c l IH]; intros pos; [done|]. cbn [breakLines].
  rewrite forallb_app. cbn [forallb]. rewrite IH.
  destruct (negb (pos =? 0) && _); [|done]. cbn [forallb]. by rewrite inAlphabet_lf.
Qed.

Lemma lines_padsLast l : forall pos, padsLast dec (breakLines pos l) = padsLast dec l.
Proof.
  induction l as [|c l IH]; intros pos; [done|]. cbn [breakLines].
  destruct (negb (pos =? 0) && _); cbn; rewrite IH, lines_noAlphabet; done.
Qed.

Lemma lines_forallb P l : forall pos, P 10 = true -> forallb P l = true ->
  forallb P (breakLines pos l) = true.
Proof.
  induction l as [|c l IH]; intros pos H10 H; [done|]. cbn [breakLines forallb] in *.
  apply andb_prop in H as [Hc H]. rewrite forallb_app. cbn [forallb]. rewrite Hc, IH by done.
  destruct (negb (pos =? 0) && _); cbn [forallb]; by rewrite ?H10.
Qed.

Context (data : list Z) (Hdata : Forall isChar data) (Hne : data <> []).

Lemma sextets_length_mod : (length (sextets data) mod 4 <> 1)%nat.
Proof.
  rewrite length_sextets. pose proof (Nat.div_mod (length data) 3 ltac:(lia)) as E.
  pose proof (Nat.mod_upper_bound (length data) 3 ltac:(lia)) as B.
  set (q := (length data / 3)%nat) in *. set (r := (length data mod 3)%nat) in *. clearbody q r. rewrite E.
  replace (4 * (3 * q + r) + 2)%nat with (4 * r + 2 + 4 * q * 3)%nat by lia. rewrite Nat.div_add by lia.
  replace (4 * q)%nat with (q * 4)%nat by lia. rewrite Nat.Div0.mod_add.
  assert (r = 0 \/ r = 1 \/ r = 2)%nat as [->|[->| ->]] by lia; done.
Qed.

Lemma decoded_sextets policy fill text :
  accepts ws dec policy text = true -> decodedSextets dec text = sextets data ->
  decoded ws dec policy fill text = Some data.
Proof.
  intros Ha Hs. unfold decoded. rewrite Ha, Hs. cbn [negb].
  assert (Hn : sextets data <> []) by (destruct data as [|? [|? [|? ?]]]; done).
  pose proof sextets_length_mod as H4. rewrite <- (bytes_sextets data Hdata) at 2.
  destruct (sextets data) as [|x s]; [done|]. by destruct (Nat.eqb_spec (length (x :: s) mod 4) 1).
Qed.

Lemma decoded_encoded policy fill : decoded ws dec policy fill (encoded enc data) = Some data.
Proof.
  apply decoded_sextets.
  - unfold accepts. pose proof (sextets_ok data) as Hs.
    rewrite length_encoded. unfold encoded. rewrite forallb_enc, padsLast_enc, countEquals_enc by done.
    cbn [andb]. unfold plainOutLength. rewrite Z.mod_mul by lia.
    destruct (Z.leb_spec (Z.of_nat (padding data)) 2) as [_|?]; [by rewrite orb_true_r|].
    unfold padding in *. pose proof (Nat.mod_upper_bound (3 - length data mod 3) 3 ltac:(lia)). lia.
  - unfold encoded. rewrite decodedSextets_app, decodedSextets_enc, decodedSextets_pads by apply sextets_ok.
    apply app_nil_r.
Qed.

(** Without padding, under a policy that does not look at the length. *)
Lemma decoded_unpadded fill :
  decoded ws dec Base64FailOnInvalidCharacter fill (map (at_ enc) (sextets data)) = Some data.
Proof.
  pose proof (sextets_ok data) as Hs. apply decoded_sextets; [|by apply decodedSextets_enc].
  unfold accepts. pose proof (forallb_enc Base64FailOnInvalidCharacter _ 0 Hs) as H1.
  pose proof (padsLast_enc _ 0 Hs) as H2. cbn [replicate] in *. rewrite app_nil_r in *. by rewrite H1, H2.
Qed.

Lemma decoded_lines fill policy :
  ignorable ws policy 10 = true ->
  decoded ws dec policy fill (breakLines 0 (encoded enc data)) = Some data.
Proof.
  intros Hi. pose proof (sextets_ok data) as Hs. apply decoded_sextets.
  - unfold accepts. rewrite lines_forallb; [|by rewrite Hi, !orb_true_r|by apply forallb_enc].
    rewrite lines_padsLast. unfold encoded. rewrite padsLast_enc by done. by destruct policy.
  - rewrite lines_decoded. unfold encoded. rewrite decodedSextets_app, decodedSextets_enc, decodedSextets_pads by done.
    apply app_nil_r.
Qed.

End RoundTrip.

Lemma standard_tables k : isSextet k ->
  decodeCharacter base64DecMap (at_ base64EncMap k) = k /\ at_ base64EncMap k <> 61.
Proof.
  intros Hk. unfold isSextet in Hk.
  assert (H : forallb (fun k => (decodeCharacter base64DecMap (at_ base64EncMap k) =? k)
    && negb (at_ base64EncMap k =? 61)) (seqZ 0 64) = true) by (vm_compute; reflexivity).
  pose proof (forall_range _ _ _ H k ltac:(lia)) as E. cbv beta in E. apply andb_prop in E as [E1 E2].
  apply Z.eqb_eq in E1. apply negb_true_iff, Z.eqb_neq in E2. done.
Qed.

Lemma url_tables k : isSextet k ->
  decodeCharacter base64URLDecMap (at_ base64URLEncMap k) = k /\ at_ base64URLEncMap k <> 61.
Proof.
  intros Hk. unfold isSextet in Hk.
  assert (H : forallb (fun k => (decodeCharacter base64URLDecMap (at_ base64URLEncMap k) =? k)
    && negb (at_ base64URLEncMap k =? 61)) (seqZ 0 64) = true) by (vm_compute; reflexivity).
  pose proof (forall_range _ _ _ H k ltac:(lia)) as E. cbv beta in E. apply andb_prop in E as [E1 E2].
  apply Z.eqb_eq in E1. apply negb_true_iff, Z.eqb_neq in E2. done.
Qed.

(** ** Properties *)

(** C37: decoding, under every policy and with every decoding
    table, reads and writes inside its vector only (the conversion of four
    values to three bytes in place never overtakes its source) and returns what
    the declarative specification says: it fails when a character is neither an
    equals sign, nor of the alphabet, nor ignored by the policy, when a
    character of the alphabet follows an equals sign, when the strict policy
    finds padding in an input whose length is no multiple of four or more than
    two equals signs, and when one value is left over; otherwise the result is
    the bytes of the values. *)
Theorem base64_decode_correct ws fill data policy m :
  base64DecodeInternal ws fill data policy m = Some (decoded ws m policy fill data).
Proof. apply decodeInternal_spec. Qed.

(** Encoding fills the vector it has grown exactly.  Its
    output is the characters of the sextets of the input with the padding that
    makes its length a multiple of four; with line feeds, that text in lines of
    76 characters; with the URL alphabet, the characters alone. *)
Theorem base64_encode_correct data :
  0 < Z.of_nat (length data) <= maxInputBufferSize ->
  base64Encode data Base64DoNotInsertLFs = Some (encoded base64EncMap data) /\
  Z.of_nat (length (encoded base64EncMap data)) = (Z.of_nat (length data) + 2) / 3 * 4 /\
  base64URLEncode data = Some (map (at_ base64URLEncMap) (sextets data)) /\
  (Z.of_nat (length data) < 2 ^ 30 - 2 ->
   base64Encode data Base64InsertLFs = Some (breakLines 0 (encoded base64EncMap data))).
Proof.
  intros H. split_and!.
  - by apply encode_unbroken.
  - apply length_encoded.
  - by apply encode_url.
  - by apply encode_lines.
Qed.

Lemma base64_encode_correct_witness :
  base64Encode (lit "hello") Base64DoNotInsertLFs = Some (lit "aGVsbG8=") /\
  base64Encode (lit "hello") Base64DoNotInsertLFs = Some (encoded base64EncMap (lit "hello")).
Proof.
  split; [reflexivity|]. refine (proj1 (base64_encode_correct (lit "hello") _)).
  vm_compute. split; [reflexivity|discriminate].
Defined.

(** C36: For bytes that are not empty and not more than maxInputBufferSize (what the
    encoder accepts), base64 decoding inverts encoding: under every policy without line
    feeds, for the URL alphabet, and, for fewer than 2^30 - 2 bytes, with line feeds under
    the policies that skip them. *)
Theorem base64_roundtrip ws fill data :
  Forall isChar data -> data <> [] -> Z.of_nat (length data) <= maxInputBufferSize ->
  (forall policy, exists text,
     base64Encode data Base64DoNotInsertLFs = Some text /\
     base64Decode ws fill text policy = Some (Some data)) /\
  (exists text, base64URLEncode data = Some text /\ base64URLDecode ws fill text = Some (Some data)) /\
  (Z.of_nat (length data) < 2 ^ 30 - 2 -> exists text,
     base64Encode data Base64InsertLFs = Some text /\
     base64Decode ws fill text Base64IgnoreWhitespace = Some (Some data) /\
     base64Decode ws fill text Base64IgnoreInvalidCharacters = Some (Some data)).
Proof.
  intros Hd Hne Hm. assert (Hl : 0 < Z.of_nat (length data) <= maxInputBufferSize).
  { destruct data; [done|simpl length in *; lia]. }
  unfold base64Encode, base64URLEncode, base64Decode, base64URLDecode. split_and!.
  - intros policy. exists (encoded base64EncMap data). split; [by apply encode_unbroken|].
    rewrite decodeInternal_spec. by rewrite (decoded_encoded _ _ _ standard_tables).
  - exists (map (at_ base64URLEncMap) (sextets data)). split; [by apply encode_url|].
    rewrite decodeInternal_spec. by rewrite (decoded_unpadded _ _ _ url_tables).
  - intros Hs. exists (breakLines 0 (encoded base64EncMap data)). split; [by apply encode_lines|].
    rewrite !decodeInternal_spec. by rewrite !(decoded_lines _ _ _ standard_tables).
Qed.

Lemma base64_roundtrip_witness :
  exists text, base64URLEncode (lit "hello") = Some text /\
    base64URLDecode (fun _ => false) 0 text = Some (Some (lit "hello")).
Proof.
  refine (proj1 (proj2 (base64_roundtrip (fun _ => false) 0 (lit "hello") _ _ _))).
  - repeat (constructor; [vm_compute; split; [discriminate|reflexivity]|]). constructor.
  - discriminate.
  - vm_compute. discriminate.
Defined.

(** An input with nothing but ignored characters is reported as
    decoded, and the result is the whole vector the function had grown, none of
    whose entries it has written: as many indeterminate bytes as the input has
    characters, instead of no bytes. *)
Theorem base64_blank_indeterminate ws fill data :
  Forall (fun c => c = 32 \/ c = 10 \/ c = 9 \/ c = 13) data ->
  base64Decode ws fill data Base64IgnoreWhitespace = Some (Some (replicate (length data) fill)).
Proof.
  intros H. unfold base64Decode. rewrite decodeInternal_spec. f_equal. unfold decoded.
  assert (Hs : decodedSextets base64DecMap data = [] /\ countEquals data = 0 /\
    forallb (fun c => (c =? 61) || inAlphabet base64DecMap c || ignorable ws Base64IgnoreWhitespace c) data = true /\
    padsLast base64DecMap data = true).
  { induction H as [|c l Hc Hl IH]; [done|]. destruct IH as (E1 & E2 & E3 & E4).
    unfold decodedSextets in *. cbn [List.filter forallb padsLast]. rewrite countEquals_cons, E2, E3.
    destruct Hc as [->|[->|[->| ->]]]; done. }
  destruct Hs as (-> & E2 & E3 & E4). unfold accepts. rewrite E3, E4, E2. done.
Qed.

Lemma base64_blank_indeterminate_witness :
  base64Decode (fun _ => false) 7 (lit "  ") Base64IgnoreWhitespace = Some (Some [7; 7]).
Proof.
  apply (base64_blank_indeterminate (fun _ => false) 7 (lit "  ")). repeat constructor.
Defined.
